(* ===== verification/_CoqProject ===== *)
-Q . S2P
Prelude.v
NumOps.v
LeakBucket.v
Serial.v
Pl011.v
Rtc.v
Pl031.v
Pflash.v
Bitmap.v
Address.v
Region.v
FlatView.v
Topology.v
KvmListener.v
SplitVring.v
VirtioBase.v
VirtioMmio.v
VirtioPci.v
DmaMemory.v
FwCfg.v
XhciRing.v
IrqRoute.v
Intx.v
PciRegs.v
Msix.v
PciConfig.v
PciBar.v
Aml.v
AmlParse.v
Qcow2Header.v
SyncAio.v
Qcow2Io.v
FileDriver.v
Qcow2Cache.v
Qcow2CacheSpec.v
Qcow2Refcount.v
Qcow2RefcountSpec.v
Qcow2RefcountUpdate.v
Qcow2RefcountAlloc.v
Qcow2ClusterAlloc.v
Qcow2Metadata.v
Qcow2Counts.v
Qcow2Snapshot.v
Qcow2Table.v
Qcow2L2Spec.v
Qcow2Driver.v
Qcow2Mapping.v
Qcow2Read.v
Qcow2Alloc.v
Qcow2Remap.v
Qcow2Write.v
Qcow2Vectored.v
Qcow2Flush.v
Qcow2Example.v
