(* ===== verification/Prelude.v ===== *)
(** * StratoVirt: a verification development

    StratoVirt is a virtual machine monitor written in Rust.  This library
    models its memory subsystem, virtqueues and virtio transports, interrupt
    routing, PCI functions, xHCI rings, legacy devices, AML compiler and the raw and qcow2
    block drivers, with the helpers below them, and proves what makes them
    correct.  Each file names the sources it
    follows; definitions keep the names of the source.

    ** Parts and files

    - [Prelude.v] (this file): outcomes of Rust code ([res]: value, error,
      panic), the state-and-error monad [sres], machine integers as [Z] with
      their wrap-around, bytes, windows of a buffer.
    - [NumOps.v]: [util/src/num_ops.rs], [util/src/checksum.rs].
    - [LeakBucket.v]: the rate limiter ([util/src/leak_bucket.rs]).
    - [Serial.v], [Pl011.v]: the 16550 and PL011 serial ports
      ([devices/src/legacy/serial.rs], [pl011.rs]).
    - [Rtc.v], [Pl031.v]: the CMOS clock with its date arithmetic and the PL031
      clock ([devices/src/legacy/rtc.rs], [pl031.rs], [util/src/time.rs]).
    - [Pflash.v]: the parallel flash ([devices/src/legacy/pflash.rs]).
    - [Bitmap.v]: [util/src/bitmap.rs], over the word width.
    - [Address.v]: [address_space/src/address.rs].
    - [Region.v]: region cells, constructors, and the rendering of a region
      tree into a flat view ([address_space/src/region.rs]).
    - [FlatView.v]: lookup, reads and writes of guest memory, address maps and
      caches ([address_space/src/address_space.rs], [Region::read/write]).
    - [Topology.v]: sub-region insertion and removal, listeners, the passes of
      a topology update, event fds.
    - [KvmListener.v]: the KVM memory and I/O listeners
      ([address_space/src/listener.rs]) and the slots recorded in
      [hypervisor/src/kvm/mod.rs].
    - [SplitVring.v]: the split virtqueue ([virtio/src/queue/split.rs],
      [virtio/src/queue/mod.rs]).
    - [VirtioBase.v]: the state every virtio device shares and the default
      methods of its trait ([virtio/src/lib.rs]); [VirtioMmio.v],
      [VirtioPci.v]: the registers, activation and reset of the two transports
      ([virtio/src/transport/virtio_mmio.rs], [virtio_pci.rs]).
    - [DmaMemory.v]: guest memory as a device sees it
      ([AddressSpace::read/write]).
    - [XhciRing.v]: the rings and the interrupter of the xHCI controller
      ([devices/src/usb/xhci/xhci_ring.rs], [xhci_trb.rs], parts of
      [xhci_regs.rs] and [xhci_controller.rs]).
    - [FwCfg.v]: the firmware configuration device
      ([devices/src/legacy/fwcfg.rs]).
    - [IrqRoute.v]: global system interrupts and the routes given to KVM
      ([hypervisor/src/kvm/interrupt.rs], the interrupt part of
      [hypervisor/src/kvm/mod.rs]).
    - [Intx.v]: shared interrupt pins ([devices/src/pci/intx.rs]).
    - [PciRegs.v]: little-endian registers and device numbers
      ([devices/src/pci/mod.rs]).
    - [Msix.v]: MSI-X ([devices/src/pci/msix.rs]).
    - [PciConfig.v]: the configuration space of a function, its capabilities
      and BARs ([devices/src/pci/config.rs], [init_intx], [init_msix]).
    - [PciBar.v]: where the BARs of a function are mapped.
    - [Aml.v]: the AML structures and encoders ([acpi/src/aml_compiler.rs]).
    - [AmlParse.v]: a reader of the AML grammar, the specification of [Aml.v].
    - [Qcow2Header.v]: the header of an image
      ([block_backend/src/qcow2/header.rs]).
    - [SyncAio.v]: synchronous block I/O with its bounce buffer
      ([util/src/aio/mod.rs]).
    - [Qcow2Io.v], [Qcow2Cache.v]: metadata I/O ([SyncAioInfo] of
      [block_backend/src/qcow2/mod.rs]) and the write-back cache of metadata
      tables ([cache.rs]); [Qcow2CacheSpec.v]: what a cache stands for.
    - [Qcow2Refcount.v]: reference counts of clusters ([refcount.rs]), with
      the lemmas on reading ([Qcow2RefcountSpec.v]), changing
      ([Qcow2RefcountUpdate.v]), searching and new blocks
      ([Qcow2RefcountAlloc.v]), allocating ([Qcow2ClusterAlloc.v]) and sizing
      ([Qcow2Metadata.v]); [Qcow2Counts.v]: their properties.
    - [FileDriver.v]: the driver of image files and of raw images
      ([block_backend/src/file.rs], [raw.rs]).
    - [Qcow2Snapshot.v]: the snapshot table ([snapshot.rs]).
    - [Qcow2Table.v]: L1 and L2 tables ([table.rs]); [Qcow2L2Spec.v]: what the
      L2 cache stands for.
    - [Qcow2Driver.v]: address translation, allocation, overlap checks and guest
      requests ([mod.rs]); [Qcow2Mapping.v]: the guest disk and the invariant of
      an image; [Qcow2Read.v]: reads; [Qcow2Alloc.v], [Qcow2Remap.v],
      [Qcow2Write.v], [Qcow2Vectored.v]: writes; [Qcow2Flush.v]: flushes;
      [Qcow2Example.v]: an image with a snapshot on which they run.

    ** How they interact

    Devices and the machine build a tree of regions ([Region]); an address
    space renders it into a sorted vector of ranges ([generate_flatview]) and
    tells its listeners the difference to the old view
    ([update_topology_pass]).  The KVM listener keeps the kernel's memory
    slots in step with the view.  Device models and the migration code access
    guest memory through the view ([flat_read], [flat_write]).  The [Listener]
    class is the interface between the address space and its listeners,
    [KvmKernel] the one to the kernel.
    [DmaMemory] is the interface through which a device uses guest memory, and
    the flat view one instance of it.  An access may reach the registers of
    another device, whose closures act on the whole machine and may not return
    (a device that waits for its own lock): the laws of the interface
    ([DmaLaws]) keep such accesses apart from those that end.

    A virtqueue ([SplitVring]) lives in guest memory and is read and written
    through the same view.  A transport ([VirtioMmio], [VirtioPci]) collects
    the addresses of the queues from the guest's register writes and builds
    the queues when the driver is ready; the class [VirtioDevice] is the
    interface between a transport and the device behind it.  A PCI function ([PciConfig]) maps its BARs as
    sub-regions of the bus ([update_bar_mapping] calls [add_subregion]), and
    raises interrupts by a pin ([Intx]) or by messages ([Msix]); routes of
    messages go through [IrqRouteTable].  [IrqKernel] is the interface to the
    interrupt ioctls, [IntxHandler] the one to the interrupt controller.

    A block device reads and writes an image file by requests ([SyncAio], over
    the system calls [HostIo]).  The metadata of a qcow2 image goes through
    [BlockIo], which [SyncAioInfo] implements by such requests
    ([sync_laws]); refcount blocks and L2 tables are cached ([Qcow2Cache]) and
    clusters counted and allocated ([Qcow2Refcount]) above that interface.  Data
    goes through [DataIo], which the file driver implements
    ([file_data_laws]); [Qcow2Driver] composes the two.

    ** What the theorems show

    - Rendering refines the tree: every address of the flat view resolves to
      the region, offset and rom mode the tree gives it, and rendering an
      acyclic tree terminates ([Region.v], [FlatView.v]).
    - Guest memory: what is written is read back, other bytes are untouched,
      every changed byte is marked dirty (if the devices mark what they
      change), address maps and caches translate exactly ([FlatView.v]).
    - Updates: the passes report exactly the difference of two views, a
      whole update installs the view of the current tree ([Topology.v]).
    - KVM: the slots in use mirror the view, and are slots of the kernel after
      every request, failed ones included; the kernel has others only when it
      refused to delete them ([KvmListener.v]).
    - Virtqueues: a request is taken off the ring exactly when its chain is
      well formed, the loop over a chain ends, and no descriptor makes the
      device read outside guest memory ([SplitVring.v]).
    - Virtio transports: for every sequence of register accesses the features
      acknowledged stay within the offer and the device starts only on valid
      queues; a driver that follows the setup sequence starts it on the queues
      it described, mapped where it put them, over PCI also when it takes over
      a running device that can be stopped ([VirtioMmio.v], [VirtioPci.v]).
    - Legacy devices: the registers of the serial port keep their widths and
      bytes are delivered in order ([Serial.v], [Pl011.v]); the date arithmetic
      agrees with the calendar and a date that is set is read back with the
      seconds that passed ([Rtc.v]); the flash changes only the blocks and
      bytes a command names and implements its command set ([Pflash.v]).
    - Firmware configuration: the firmware finds every file the machine added,
      with its last content, through the registers of either platform; a DMA
      read is carried out exactly; nothing a guest does panics, runs without
      end or changes the directory, unless the memory access itself does not
      return ([FwCfg.v]).
    - xHCI: the event ring is a bounded queue between controller and driver
      under every interleaving; a transfer descriptor is fetched exactly when
      it is complete; fetching a command ends whatever is in memory, if the
      memory accesses do ([XhciRing.v]).
    - Rate limiting: over an interval the bucket lets through at most the
      units of that time, a second's worth in advance and one more request, and
      a request that waits passes after its timer ([LeakBucket.v]).
    - Interrupts: GSIs are allocated and released without trace; a pin is high
      exactly when a device asserts it, up to the requests the controller
      refuses; every interrupt raised by message is sent once or pending, and
      it is pending only while it cannot be sent ([IrqRoute.v], [Intx.v],
      [Msix.v]).
    - PCI: guest writes reach exactly the writable bits, capabilities are
      found after they are added, searches end ([PciConfig.v]); a BAR is only
      mapped where its window fits ([PciBar.v]).
    - AML: a reader of the grammar gets every well-formed program back from
      its bytes, and a resource template splits into its descriptors
      ([AmlParse.v]).  Locked fields, names of prefixes only and variable
      packages of several elements are not well formed here: the compiler
      encodes them wrongly, as examples show.
    - Block I/O: a request changes or reads exactly its range, also when it
      goes through the bounce buffer or becomes a write of zeroes
      ([SyncAio.v]).
    - qcow2: the header is decoded, encoded and checked exactly
      ([Qcow2Header.v]).  The counts are a function of clusters whatever is
      cached; a change is all or nothing; the search is first fit and ends;
      allocation never hands out or recounts a cluster in use; the metadata
      size computation ends and covers the image ([Qcow2Counts.v],
      [Qcow2Metadata.v]).  A saved snapshot table is loaded back
      ([Qcow2Snapshot.v]).  Under the invariant [drv_ok] (every cluster has at
      most one role and is counted, the caches stand for the tables) a guest
      read returns the guest disk, a guest write changes exactly its range of it
      and no cluster of a snapshot, and a flush leaves a file whose tables
      alone give the guest disk ([Qcow2Read.v], [Qcow2Vectored.v],
      [Qcow2Flush.v]).  All of this is about images without compressed
      clusters, and while the host file serves the requests that lie within its
      length ([bhealthy]); zero clusters with a place are read and kept, and a
      write is exact when it does not touch one.
    - Helpers: bitmap range operations, scans and counts; alignment and bit
      fields.

    Where the code does not do what it means to, a closed example shows it
    ([find_next_bit_misses_bit], [contain_vol_panics], [stale_slot_blocks],
    [refused_region_stays_recorded], [ioeventfds_pass_same_address],
    [allocate_gsi_past_kernel_limit], [find_pci_cap_empty_list],
    [failed_update_discards], [dropped_change_flushed],
    [zero_cluster_write_exposes], [reset_is_ignored], [version_check_skipped],
    [sync_misses_write], [idle_write_rewinds], [read_only_entry_written],
    [irq0_override_misplaced], [refused_unmask], [refused_stop],
    [var_package_unreadable], [field_lock_changes_access],
    [compressed_read_raw], [failed_flush_forgets], ...).

    ** Conventions

    An error carries the value at the root of the [anyhow] chain.  A [Panic]
    is a failed [unwrap], an index out of bounds, a division by zero, or fuel
    that ran out; the termination theorems show that the fuel passed by the
    callers (the length of the lists walked, the rank of a region in the
    acyclic region graph, the clusters a refcount table can describe, the
    entries of the table for nested block allocations) is never exhausted.  Arithmetic wraps, as the release
    profile of the repository does.  Locks are not modelled: each operation is
    one atomic step of its caller.  The time of an access, and the outcome of
    a host call a device makes during it, are arguments of the access.

    ** Not modelled

    Host system calls (mmap, epoll, io_uring, KVM ioctls other than as
    parameters), threads and locks, logging and printing, the graphical front
    ends, the command line.  Of the modelled devices, realization and the
    registration of event fds; packed virtqueues, which the repository
    does not implement either.  Not reached: the virtio device types behind
    the transports, vhost, xHCI commands and endpoints, SCSI and USB devices, the boot loader, ACPI
    tables other than AML, migration, the machine types.  The manifest lists every part of the program. *)
From stdpp Require Import prelude list list_numbers gmap.
From Stdlib Require Import ZArith Lia.

#[global] Open Scope Z_scope.

(** ** Outcomes of Rust code

    [res E A] is the outcome of a call returning [Result<A, E>]: a value, an
    error, or a panic (a failed [unwrap], an index out of bounds, a division
    by zero).  A panic is kept apart from an error because the caller never
    sees it: both Cargo profiles of the repository abort on panic. *)
Inductive res (E A : Type) : Type :=
| Ok (a : A)
| Err (e : E)
| Panic.
Arguments Ok {E A} a.
Arguments Err {E A} e.
Arguments Panic {E A}.

#[export] Instance res_ret E : MRet (res E) := @Ok E.
#[export] Instance res_bind E : MBind (res E) := fun A B f m =>
  match m with Ok a => f a | Err e => Err e | Panic => Panic end.

(** [Option::ok_or] / [with_context] on an option, and [unwrap]. *)
Definition ok_or {E A} (o : option A) (e : E) : res E A :=
  match o with Some a => Ok a | None => Err e end.
Definition unwrap {E A} (o : option A) : res E A :=
  match o with Some a => Ok a | None => Panic end.
Definition is_ok {E A} (r : res E A) : bool :=
  match r with Ok _ => true | _ => false end.

Lemma res_bind_Ok {E A B} (m : res E A) (f : A -> res E B) b :
  (x ← m; f x) = Ok b -> exists a, m = Ok a /\ f a = Ok b.
Proof. destruct m; simpl; naive_solver. Qed.

(** Inversion of a successful monadic computation. *)
Ltac inv_res :=
  repeat match goal with
  | H : mbind _ ?m = Ok _ |- _ =>
      let a := fresh "v" in let E := fresh "E" in
      apply res_bind_Ok in H as (a & E & H)
  | H : Ok _ = Ok _ |- _ => injection H as H; subst
  | H : Err _ = Ok _ |- _ => discriminate H
  | H : Panic = Ok _ |- _ => discriminate H
  end.

(** Code that also changes a state [S] of its own: the state survives an
    error, as a [&mut self] does. *)
Definition sres (S E A : Type) : Type := S -> S * res E A.
#[export] Instance sres_ret S E : MRet (sres S E) := fun A a s => (s, Ok a).
#[export] Instance sres_bind S E : MBind (sres S E) := fun A B f m s =>
  match m s with
  | (s, Ok a) => f a s
  | (s, Err e) => (s, Err e)
  | (s, Panic) => (s, Panic)
  end.
Definition sget {S E} : sres S E S := fun s => (s, Ok s).
Definition sput {S E} (s' : S) : sres S E unit := fun _ => (s', Ok tt).
Definition slift {S E A} (r : res E A) : sres S E A := fun s => (s, r).
Definition sfail {S E A} (e : E) : sres S E A := fun s => (s, Err e).

(** [if let Err(e) = m { warn!(..) }] *)
Definition signore {S E} (m : sres S E unit) : sres S E unit := fun s =>
  match m s with (s, Panic) => (s, Panic) | (s, _) => (s, Ok tt) end.

Lemma sres_bind_Ok {S E A B} (m : sres S E A) (f : A -> sres S E B) s s' b :
  (x ← m; f x) s = (s', Ok b) -> exists a s1, m s = (s1, Ok a) /\ f a s1 = (s', Ok b).
Proof. unfold mbind, sres_bind. destruct (m s) as [s1 []]; naive_solver. Qed.

Lemma slift_Ok_bind {S E A B} (a : A) (f : A -> sres S E B) s :
  (slift (Ok a) ≫= f) s = f a s.
Proof. done. Qed.
Lemma sret_bind {S E A B} (a : A) (f : A -> sres S E B) s : (mret a ≫= f) s = f a s.
Proof. done. Qed.
Lemma sres_step {S E A B} (m : sres S E A) (f : A -> sres S E B) s s1 a :
  m s = (s1, Ok a) -> (m ≫= f) s = f a s1.
Proof. unfold mbind, sres_bind. by intros ->. Qed.

Lemma sres_bind_ext {S E A B} (m : sres S E A) (f g : A -> sres S E B) s :
  (forall a s, f a s = g a s) -> (m ≫= f) s = (m ≫= g) s.
Proof. intros H. unfold mbind, sres_bind. by destruct (m s) as [? []]. Qed.

(** A relation between the states before and after a computation, whatever
    its outcome. *)
Definition srel {S E A} (R : relation S) (m : sres S E A) : Prop := forall s, R s (m s).1.
Lemma srel_bind {S E A B} (R : relation S) `{!Transitive R} (m : sres S E A) (f : A -> sres S E B) :
  srel R m -> (forall a, srel R (f a)) -> srel R (x ← m; f x).
Proof.
  intros Hm Hf s. unfold mbind, sres_bind. specialize (Hm s).
  destruct (m s) as [s1 [a|e|]]; simpl in *; [|done..]. etrans; [done|apply Hf].
Qed.
Lemma srel_ret {S E A} (R : relation S) `{!Reflexive R} (a : A) : srel (E := E) R (mret a).
Proof. intros s. simpl. reflexivity. Qed.
Lemma srel_lift {S E A} (R : relation S) `{!Reflexive R} (r : res E A) : srel R (slift r).
Proof. intros s. simpl. reflexivity. Qed.
Lemma srel_fail {S E A} (R : relation S) `{!Reflexive R} (e : E) :
  srel (A := A) R (sfail e).
Proof. intros s. simpl. reflexivity. Qed.

(** ** Machine integers

    An unsigned [w]-bit integer is a [Z] in [0, 2^w).  The plain operators of
    the source wrap around at their width (the release profile sets no
    [overflow-checks]); the [checked_*] methods return an option. *)
Definition inW (w x : Z) : Prop := 0 <= x < 2 ^ w.
Abbreviation is_u8 := (inW 8).
Abbreviation is_u16 := (inW 16).
Abbreviation is_u32 := (inW 32).
Abbreviation is_u64 := (inW 64).

Definition wrap (w x : Z) : Z := x `mod` 2 ^ w.
Definition wadd (w a b : Z) : Z := wrap w (a + b).
Definition wsub (w a b : Z) : Z := wrap w (a - b).
Definition wmul (w a b : Z) : Z := wrap w (a * b).
Definition wnot (w a : Z) : Z := 2 ^ w - 1 - a.
(** A shift amount is taken modulo the width, as the release build does. *)
Definition wshl (w a n : Z) : Z := wrap w (Z.shiftl a (n `mod` w)).
Definition wshr (w a n : Z) : Z := Z.shiftr a (n `mod` w).
Definition checked_add (w a b : Z) : option Z :=
  if a + b <? 2 ^ w then Some (a + b) else None.
Definition checked_sub (a b : Z) : option Z :=
  if b <=? a then Some (a - b) else None.
Definition checked_mul (w a b : Z) : option Z :=
  if a * b <? 2 ^ w then Some (a * b) else None.

#[export] Instance inW_dec w x : Decision (inW w x).
Proof. unfold inW. apply _. Defined.

Lemma wrap_small w x : inW w x -> wrap w x = x.
Proof. intros. by apply Z.mod_small. Qed.
Lemma wrap_inW w x : 0 <= w -> inW w (wrap w x).
Proof. intros. apply Z.mod_pos_bound. lia. Qed.
Lemma wadd_small w a b : inW w (a + b) -> wadd w a b = a + b.
Proof. apply wrap_small. Qed.
Lemma wsub_small w a b : inW w (a - b) -> wsub w a b = a - b.
Proof. apply wrap_small. Qed.
Lemma wmul_small w a b : inW w (a * b) -> wmul w a b = a * b.
Proof. apply wrap_small. Qed.

Lemma checked_add_Some w a b c :
  checked_add w a b = Some c <-> c = a + b /\ a + b < 2 ^ w.
Proof. unfold checked_add. case (Z.ltb_spec (a + b) (2 ^ w)); split; intros; simplify_eq; lia || (f_equal; lia) || naive_solver lia. Qed.
Lemma checked_add_None w a b : checked_add w a b = None <-> 2 ^ w <= a + b.
Proof. unfold checked_add. case (Z.ltb_spec (a + b) (2 ^ w)); split; intros; simplify_eq; lia || (f_equal; lia) || naive_solver lia. Qed.
Lemma checked_sub_Some a b c : checked_sub a b = Some c <-> c = a - b /\ b <= a.
Proof. unfold checked_sub. case (Z.leb_spec b a); split; intros; simplify_eq; lia || (f_equal; lia) || naive_solver lia. Qed.

(** [Wrapping] subtraction undoes [Wrapping] addition. *)
Lemma wadd_wsub w a b : 0 <= w -> inW w a -> wsub w (wadd w a b) b = a.
Proof.
  intros ? Ha. unfold wsub, wadd, wrap. rewrite Zminus_mod_idemp_l.
  replace (a + b - b) with a by lia. by apply Z.mod_small.
Qed.
Lemma wsub_wadd w a b : 0 <= w -> inW w a -> wadd w (wsub w a b) b = a.
Proof.
  intros ? Ha. unfold wsub, wadd, wrap. rewrite Zplus_mod_idemp_l.
  replace (a - b + b) with a by lia. by apply Z.mod_small.
Qed.

Lemma wsub_wadd_small w x a b : inW w (x + a - b) -> wsub w (wadd w x a) b = x + a - b.
Proof. intros. unfold wsub, wadd, wrap. rewrite Zminus_mod_idemp_l. by apply wrap_small. Qed.

(** Replaces the wrapping operators whose result is in range. *)
Ltac wsimpl :=
  repeat match goal with
    | |- context [wadd ?w ?a ?b] => rewrite (wadd_small w a b) by (unfold inW in *; lia)
    | |- context [wsub ?w ?a ?b] => rewrite (wsub_small w a b) by (unfold inW in *; lia)
    | |- context [wmul ?w ?a ?b] => rewrite (wmul_small w a b) by (unfold inW in *; nia)
    | |- context [wrap ?w ?a] => rewrite (wrap_small w a) by (unfold inW in *; lia)
    end.

(** Case analysis on the boolean comparisons of the source. *)
Ltac zcase :=
  match goal with
  | |- context [?a <? ?b] => destruct (Z.ltb_spec a b)
  | |- context [?a <=? ?b] => destruct (Z.leb_spec a b)
  | |- context [?a =? ?b] => destruct (Z.eqb_spec a b)
  | H : context [?a <? ?b] |- _ => destruct (Z.ltb_spec a b)
  | H : context [?a <=? ?b] |- _ => destruct (Z.leb_spec a b)
  | H : context [?a =? ?b] |- _ => destruct (Z.eqb_spec a b)
  end; cbn [andb orb negb] in *.
Ltac zcases := repeat zcase.

(** ** Bit-level reasoning: equality of integers from equality of bits. *)
Create Rewrite HintDb zbits.
#[export] Hint Rewrite Z.land_spec Z.lor_spec Z.lxor_spec Z.ldiff_spec
  Z.testbit_0_l Bool.andb_false_r Bool.andb_true_r Bool.orb_false_r
  Bool.orb_true_r Bool.andb_false_l Bool.andb_true_l Bool.orb_false_l
  Bool.orb_true_l : zbits.

Lemma testbit_above w x i : inW w x -> 0 <= w <= i -> Z.testbit x i = false.
Proof.
  intros Hx Hi. rewrite <-(Z.mod_small x (2 ^ w)) by done.
  apply Z.mod_pow2_bits_high. lia.
Qed.

(** A non-negative integer without bits at or above [w] fits in [w] bits. *)
Lemma inW_bits w x :
  0 <= w -> 0 <= x -> (forall i, w <= i -> Z.testbit x i = false) -> inW w x.
Proof.
  intros ? ? Hb. replace x with (x `mod` 2 ^ w); [apply Z.mod_pos_bound; lia|].
  apply Z.bits_inj'. intros i Hi. destruct (Z.ltb_spec i w).
  - by rewrite Z.mod_pow2_bits_low.
  - rewrite Z.mod_pow2_bits_high by lia. by rewrite Hb.
Qed.
Lemma land_inW w a b : 0 <= w -> inW w a -> inW w (Z.land a b).
Proof.
  intros ? Ha. apply inW_bits; [done|apply Z.land_nonneg; unfold inW in *; lia|].
  intros i ?. by rewrite Z.land_spec, (testbit_above w) by (done || lia).
Qed.
Lemma lor_inW w a b : 0 <= w -> inW w a -> inW w b -> inW w (Z.lor a b).
Proof.
  intros ? Ha Hb. apply inW_bits; [done|apply Z.lor_nonneg; unfold inW in *; lia|].
  intros i ?. by rewrite Z.lor_spec, !(testbit_above w) by (done || lia).
Qed.
Lemma wnot_testbit w x i :
  inW w x -> 0 <= i < w -> Z.testbit (wnot w x) i = negb (Z.testbit x i).
Proof.
  intros Hx Hi. unfold wnot.
  replace (2 ^ w - 1 - x) with (Z.ldiff (Z.ones w) x).
  - rewrite Z.ldiff_spec, Z.ones_spec_low by lia. done.
  - rewrite <-Z.sub_nocarry_ldiff.
    + rewrite Z.ones_equiv. lia.
    + apply Z.bits_inj'. intros j Hj. rewrite Z.ldiff_spec, Z.testbit_0_l.
      destruct (Z.ltb_spec j w).
      * rewrite Z.ones_spec_low by lia. apply andb_false_r.
      * by rewrite (testbit_above w x) by (done || lia).
Qed.
Lemma wnot_inW w x : inW w x -> inW w (wnot w x).
Proof. unfold inW, wnot. lia. Qed.

(** [is_power_of_two] as the code tests it. *)
Lemma land_pred_pow2 n : 0 < n -> Z.land n (n - 1) = 0 -> exists k, 0 <= k /\ n = 2 ^ k.
Proof.
  intros Hn Hl. pose proof (Z.log2_spec n Hn) as [Hlo Hhi]. set (k := Z.log2 n) in *.
  assert (0 <= k) by apply Z.log2_nonneg. exists k. split; [done|].
  destruct (Z.eq_dec n (2 ^ k)) as [|Hne]; [done|]. exfalso.
  assert (Z.testbit (Z.land n (n - 1)) k = true) as Hb; [|by rewrite Hl, Z.testbit_0_l in Hb].
  rewrite Z.land_spec. unfold k at 1. rewrite Z.bit_log2 by done. cbn.
  replace k with (Z.log2 (n - 1)); [apply Z.bit_log2; lia|].
  apply Z.log2_unique; lia.
Qed.

(** ** Bytes

    A byte string is a list of [u8] values; [le_bytes]/[le_val] are the
    in-memory (little-endian) representation of an unsigned integer. *)
Fixpoint le_bytes (n : nat) (v : Z) : list Z :=
  match n with
  | O => []
  | S n => v `mod` 256 :: le_bytes n (v / 256)
  end.
Fixpoint le_val (bs : list Z) : Z :=
  match bs with
  | [] => 0
  | b :: bs => b + 256 * le_val bs
  end.
Definition be_bytes (n : nat) (v : Z) : list Z := rev (le_bytes n v).
Definition be_val (bs : list Z) : Z := le_val (rev bs).
#[global] Arguments be_bytes : simpl never.
#[global] Arguments be_val : simpl never.
Definition is_bytes (bs : list Z) : Prop := Forall is_u8 bs.

Lemma le_bytes_length n v : length (le_bytes n v) = n.
Proof. revert v. induction n; intros; simpl; auto. Qed.
Lemma le_bytes_is_bytes n v : is_bytes (le_bytes n v).
Proof.
  revert v. induction n; intros; simpl; constructor; [|apply IHn].
  apply (Z.mod_pos_bound v 256). lia.
Qed.
Lemma le_val_le_bytes n v :
  le_val (le_bytes n v) = v `mod` 2 ^ (8 * Z.of_nat n).
Proof.
  revert v. induction n as [|n IH]; intros v; [by rewrite Z.mod_1_r|].
  cbn [le_bytes le_val]. rewrite IH.
  replace (8 * Z.of_nat (S n)) with (8 + 8 * Z.of_nat n) by lia.
  rewrite Z.pow_add_r by lia. rewrite Z.rem_mul_r by lia. done.
Qed.
Lemma le_val_u32 v : is_u32 v -> le_val (le_bytes 4 v) = v.
Proof. intros Hv. rewrite le_val_le_bytes. apply Z.mod_small. exact Hv. Qed.
Lemma le_val_bound bs : is_bytes bs -> 0 <= le_val bs < 2 ^ (8 * Z.of_nat (length bs)).
Proof.
  induction 1 as [|b bs Hb ? IH]; cbn [le_val length]; [lia|].
  replace (8 * Z.of_nat (S (length bs))) with (8 + 8 * Z.of_nat (length bs)) by lia.
  rewrite Z.pow_add_r by lia. unfold inW in *. lia.
Qed.
Lemma le_bytes_le_val bs : is_bytes bs -> le_bytes (length bs) (le_val bs) = bs.
Proof.
  induction 1 as [|b bs Hb Hbs IH]; [done|]. cbn [le_bytes le_val length].
  unfold inW in Hb. f_equal.
  - rewrite Z.mul_comm, Z_mod_plus_full, Z.mod_small; lia.
  - rewrite Z.mul_comm, Z_div_plus_full, Z.div_small by lia. by rewrite Z.add_0_l.
Qed.

Lemma be_bytes_length n v : length (be_bytes n v) = n.
Proof. unfold be_bytes. by rewrite length_rev, le_bytes_length. Qed.
Lemma be_bytes_is_bytes n v : is_bytes (be_bytes n v).
Proof. apply Forall_rev, le_bytes_is_bytes. Qed.
Lemma be_val_be_bytes n v : be_val (be_bytes n v) = v `mod` 2 ^ (8 * Z.of_nat n).
Proof. unfold be_val, be_bytes. by rewrite rev_involutive, le_val_le_bytes. Qed.
Lemma be_bytes_be_val bs : is_bytes bs -> be_bytes (length bs) (be_val bs) = bs.
Proof.
  intros. unfold be_val, be_bytes. rewrite <-length_rev, le_bytes_le_val by by apply Forall_rev.
  apply rev_involutive.
Qed.
Lemma be_val_bound bs : is_bytes bs -> 0 <= be_val bs < 2 ^ (8 * Z.of_nat (length bs)).
Proof. intros. unfold be_val. rewrite <-length_rev. by apply le_val_bound, Forall_rev. Qed.

(** Reading and overwriting a window of a buffer ([buf\[off..off+n\]]). *)
Definition slice {A} (l : list A) (off n : nat) : list A := take n (drop off l).
Definition splice {A} (l : list A) (off : nat) (d : list A) : list A :=
  take off l ++ d ++ drop (off + length d) l.

Lemma slice_length {A} (l : list A) off n :
  (off + n <= length l)%nat -> length (slice l off n) = n.
Proof. intros. unfold slice. rewrite length_take, length_drop. lia. Qed.
Lemma splice_length {A} (l : list A) off d :
  (off + length d <= length l)%nat -> length (splice l off d) = length l.
Proof. intros. unfold splice. rewrite !length_app, length_take, length_drop. lia. Qed.

Lemma splice_is_bytes l off d : is_bytes l -> is_bytes d -> is_bytes (splice l off d).
Proof.
  intros Hl Hd. unfold is_bytes, splice in *. rewrite !Forall_app.
  split_and!; [by apply Forall_take|done|by apply Forall_drop].
Qed.

Lemma slice_is_bytes l off n : is_bytes l -> is_bytes (slice l off n).
Proof. intros Hl. by apply Forall_take, Forall_drop. Qed.
Lemma zeros_are_bytes k : is_bytes (replicate k 0).
Proof. apply Forall_replicate. done. Qed.
Lemma lookup_splice {A} (l d : list A) off i :
  (off + length d <= length l)%nat ->
  splice l off d !! i =
    if decide (off <= i < off + length d)%nat then d !! (i - off)%nat else l !! i.
Proof.
  intros Hl. unfold splice. case_decide as Hi.
  - rewrite lookup_app_r by (rewrite length_take; lia).
    rewrite length_take, Nat.min_l by lia. by rewrite lookup_app_l by lia.
  - destruct (decide (i < off)%nat).
    + rewrite lookup_app_l by (rewrite length_take; lia). by apply lookup_take_lt.
    + rewrite lookup_app_r by (rewrite length_take; lia).
      rewrite length_take, Nat.min_l by lia. rewrite lookup_app_r by lia.
      rewrite lookup_drop. f_equal. lia.
Qed.
Lemma slice_splice {A} (l d : list A) off :
  (off + length d <= length l)%nat -> slice (splice l off d) off (length d) = d.
Proof.
  intros Hl. unfold slice, splice.
  rewrite drop_app_length' by (rewrite length_take; lia).
  by rewrite take_app_length.
Qed.

Lemma lookup_slice {A} (l : list A) off n i :
  slice l off n !! i = if decide (i < n)%nat then l !! (off + i)%nat else None.
Proof.
  unfold slice. case_decide; [by rewrite lookup_take_lt, lookup_drop by done|].
  by rewrite lookup_take_ge by lia.
Qed.
Lemma slice_splice_ne {A} (l d : list A) off o n :
  (off + length d <= length l)%nat -> (o + n <= off \/ off + length d <= o)%nat ->
  slice (splice l off d) o n = slice l o n.
Proof.
  intros Hl Hd. apply list_eq. intros i. rewrite !lookup_slice. case_decide; [|done].
  rewrite lookup_splice by done. case_decide; [lia|done].
Qed.
Lemma slice_app_l {A} (l k : list A) o n :
  (o + n <= length l)%nat -> slice (l ++ k) o n = slice l o n.
Proof.
  intros. apply list_eq. intros i. rewrite !lookup_slice. case_decide; [|done].
  apply lookup_app_l. lia.
Qed.
Lemma is_bytes_slice l o n : is_bytes l -> is_bytes (slice l o n).
Proof. intros. by apply Forall_take, Forall_drop. Qed.
Lemma is_bytes_splice l o d : is_bytes l -> is_bytes d -> is_bytes (splice l o d).
Proof. intros. unfold splice, is_bytes. rewrite !Forall_app. auto using Forall_take, Forall_drop. Qed.

(** The list [f a, f (a + 1), ..., f (a + n - 1)]. *)
Definition ztab {A} (f : Z -> A) (a : Z) (n : nat) : list A :=
  (fun k => f (a + Z.of_nat k)) <$> seq 0 n.

Lemma ztab_length {A} (f : Z -> A) a n : length (ztab f a n) = n.
Proof. unfold ztab. by rewrite length_fmap, length_seq. Qed.
Lemma ztab_lookup {A} (f : Z -> A) a n i :
  (i < n)%nat -> ztab f a n !! i = Some (f (a + Z.of_nat i)).
Proof. intros. unfold ztab. by rewrite list_lookup_fmap, lookup_seq_lt by lia. Qed.
Lemma ztab_ext {A} (f g : Z -> A) a b n :
  (forall k, 0 <= k < Z.of_nat n -> f (a + k) = g (b + k)) -> ztab f a n = ztab g b n.
Proof.
  intros H. unfold ztab. apply list_fmap_ext. intros i k [-> ?]%lookup_seq. apply H. lia.
Qed.
Lemma ztab_app {A} (f : Z -> A) a n1 n2 :
  ztab f a (n1 + n2) = ztab f a n1 ++ ztab f (a + Z.of_nat n1) n2.
Proof.
  apply list_eq. intros i. destruct (decide (i < n1 + n2)%nat).
  - rewrite ztab_lookup by done. destruct (decide (i < n1)%nat).
    + rewrite lookup_app_l by (rewrite ztab_length; lia). by rewrite ztab_lookup.
    + rewrite lookup_app_r by (rewrite ztab_length; lia). rewrite ztab_length, ztab_lookup by lia.
      do 2 f_equal. lia.
  - rewrite !lookup_ge_None_2; [done|..]; rewrite ?length_app, ?ztab_length; lia.
Qed.
