(* ===== verification/NumOps.v ===== *)
(** * Operations on machine integers ([util/src/num_ops.rs], [util/src/checksum.rs])

    Alignment, halves of a [u64], bit fields, little-endian register access,
    the overlap test of two ranges and the 8-bit checksum.  A function of the
    source returning [Option] that can also panic is a [res unit]. *)
From stdpp Require Import prelude list.
From Stdlib Require Import ZArith Lia.
From S2P Require Import Prelude.

Definition round_up (origin align : Z) : res unit Z :=
  if align =? 0 then Panic else
  let diff := origin `mod` align in
  if diff =? 0 then Ok origin else ok_or (checked_add 64 origin (align - diff)) tt.

Definition round_down (origin align : Z) : res unit Z :=
  if align =? 0 then Panic else
  let diff := origin `mod` align in
  if diff =? 0 then Ok origin else ok_or (checked_sub origin diff) tt.

Definition div_round_up (dividend divisor : Z) : option Z :=
  if divisor =? 0 then None else
  let r := dividend / divisor in
  if dividend `mod` divisor =? 0 then Some r else Some (wadd 64 r 1).

Definition read_u32 (value page : Z) : Z :=
  if page =? 0 then wrap 32 value
  else if page =? 1 then wrap 32 (wshr 64 value 32)
  else 0.

Definition write_u32 (value page : Z) : Z :=
  if page =? 0 then value
  else if page =? 1 then wshl 64 value 32
  else 0.

Definition write_u64_low (origin value : Z) : Z :=
  Z.lor (Z.land origin 0xFFFFFFFF00000000) value.

Definition write_u64_high (origin value : Z) : Z :=
  Z.lor (wshl 64 value 32) (Z.land origin 0xFFFFFFFF).

Definition extract_u32 (value start length : Z) : option Z :=
  if wsub 32 32 start <? length then None
  else Some (Z.land (wshr 32 value start) (wshr 32 (wnot 32 0) (wsub 32 32 length))).

Definition extract_u64 (value start length : Z) : option Z :=
  if wsub 32 64 start <? length then None
  else Some (Z.land (wshr 64 value start) (wshr 64 (wnot 64 0) (wsub 32 64 length))).

Definition deposit_u32 (value start length fieldval : Z) : option Z :=
  if wsub 32 32 start <? length then None
  else
    let mask := wshl 32 (wshr 32 (wnot 32 0) (wsub 32 32 length)) start in
    Some (Z.lor (Z.land value (wnot 32 mask)) (Z.land (wshl 32 fieldval start) mask)).

(** [write_data_*] fill the caller's buffer and say whether its length is
    supported; an unsupported buffer is left as it was. *)
Definition write_data_u16 (data : list Z) (value : Z) : bool * list Z :=
  match data with
  | [_] => (true, [wrap 8 value])
  | [_; _] => (true, le_bytes 2 value)
  | _ => (false, data)
  end.

Definition write_data_u32 (data : list Z) (value : Z) : bool * list Z :=
  match data with
  | [_] => (true, [wrap 8 value])
  | [_; _] => (true, le_bytes 2 (wrap 16 value))
  | [_; _; _; _] => (true, le_bytes 4 value)
  | _ => (false, data)
  end.

(** [read_data_*] set [*value] only for a supported length. *)
Definition read_data_u32 (data : list Z) : option Z :=
  match data with
  | [b] => Some b
  | [_; _] => Some (le_val data)
  | [_; _; _; _] => Some (le_val data)
  | _ => None
  end.

Definition read_data_u16 (data : list Z) : option Z :=
  match data with
  | [b] => Some b
  | [_; _] => Some (le_val data)
  | _ => None
  end.

(** [w] is the width of [usize]. *)
Definition ranges_overlap (start1 size1 start2 size2 : Z) : res unit bool :=
  end1 ← ok_or (checked_add 64 start1 size1) tt;
  end2 ← ok_or (checked_add 64 start2 size2) tt;
  Ok (negb ((end2 <=? start1) || (end1 <=? start2))).

(** The loop body of [checksum]: a 32-bit sum masked to 8 bits at each step. *)
Definition checksum_step (sum byte : Z) : Z := Z.land (wadd 32 sum byte) 0xff.
Definition checksum (s : list Z) : Z :=
  wrap 8 (Z.land (foldl checksum_step 0 s) 0xff).

(** ** Alignment *)

Lemma round_up_spec origin align :
  is_u64 origin -> 0 < align < 2 ^ 64 ->
  match round_up origin align with
  | Ok r => r `mod` align = 0 /\ origin <= r < origin + align /\ is_u64 r
  | Err _ => forall k, origin <= k * align -> 2 ^ 64 <= k * align
  | Panic => False
  end.
Proof.
  intros Ho Ha. unfold round_up, checked_add. destruct (Z.eqb_spec align 0); [lia|].
  pose proof (Z.div_mod origin align). pose proof (Z.mod_pos_bound origin align).
  destruct (Z.eqb_spec (origin `mod` align) 0); [unfold inW in *; lia|].
  set (q := origin / align) in *.
  assert (origin + (align - origin `mod` align) = (q + 1) * align) as Hr by lia.
  rewrite Hr. zcase; simpl; [rewrite Z.mod_mul by lia; unfold inW in *; lia|].
  intros k Hk. assert (q < k) by nia. nia.
Qed.

Lemma round_down_spec origin align :
  is_u64 origin -> 0 < align ->
  round_down origin align = Ok (origin / align * align).
Proof.
  intros Ho Ha. unfold round_down, checked_sub, inW in *. destruct (Z.eqb_spec align 0); [lia|].
  pose proof (Z.div_mod origin align). pose proof (Z.mod_pos_bound origin align).
  pose proof (Z.div_pos origin align).
  destruct (Z.eqb_spec (origin `mod` align) 0); [f_equal; lia|].
  destruct (Z.leb_spec (origin `mod` align) origin); simpl; [f_equal; lia|nia].
Qed.

Lemma div_round_up_spec a b :
  is_u64 a -> 0 < b -> exists q, div_round_up a b = Some q /\ is_u64 q /\ (q - 1) * b < a <= q * b.
Proof.
  intros Ha Hb. unfold div_round_up. rewrite (proj2 (Z.eqb_neq b 0)) by lia.
  pose proof (Z.div_mod a b ltac:(lia)). pose proof (Z.mod_pos_bound a b Hb).
  assert (0 <= a / b <= a) by (split; [apply Z.div_pos|apply Z.div_le_upper_bound]; unfold inW in *; nia).
  case (Z.eqb_spec (a `mod` b) 0) as [?|?]; eexists; (split; [done|]); unfold inW in *.
  - split; nia.
  - assert (a / b < 2 ^ 64 - 1).
    { destruct (Z.eq_dec (a / b) a); [|lia]. assert (a `mod` b = 0); [|lia]. nia. }
    rewrite wadd_small by (unfold inW; lia). split; nia.
Qed.

Lemma round_up_small origin align :
  0 <= origin -> 0 < align -> origin + align < 2 ^ 64 ->
  exists r, round_up origin align = Ok r /\ (align | r) /\ origin <= r < origin + align.
Proof.
  intros Ho Ha Hs. pose proof (round_up_spec origin align ltac:(unfold inW; lia) ltac:(lia)) as H.
  destruct (round_up origin align) as [r| |] eqn:E; [|exfalso..].
  - exists r. split; [done|]. split; [apply Z.mod_divide; [lia|tauto]|tauto].
  - pose proof (Z.div_mod origin align ltac:(lia)). pose proof (Z.mod_pos_bound origin align Ha).
    unfold round_up in E. destruct (Z.eqb_spec align 0); [done|]. destruct (Z.eqb_spec (origin `mod` align) 0); [done|].
    unfold checked_add in E. destruct (Z.ltb_spec (origin + (align - origin `mod` align)) (2 ^ 64)); [done|lia].
  - done.
Qed.

(** ** Bit fields *)

Lemma field_mask length :
  0 < length <= 32 -> wshr 32 (wnot 32 0) (wsub 32 32 length) = Z.ones length.
Proof.
  intros ?. unfold wshr, wnot. wsimpl. rewrite (Z.mod_small (32 - length)) by lia.
  rewrite Z.sub_0_r. change (2 ^ 32 - 1) with (Z.ones 32).
  apply Z.bits_inj'. intros i ?. rewrite Z.shiftr_spec by lia.
  destruct (Z.ltb_spec i length).
  - by rewrite !Z.ones_spec_low by lia.
  - by rewrite !Z.ones_spec_high by lia.
Qed.

Lemma shifted_mask_testbit start length i :
  0 <= start -> 0 < length -> start + length <= 32 -> 0 <= i ->
  Z.testbit (wshl 32 (Z.ones length) start) i = (start <=? i) && (i <? start + length).
Proof.
  intros. unfold wshl, wrap. rewrite (Z.mod_small start) by lia.
  destruct (Z.ltb_spec i 32).
  - rewrite Z.mod_pow2_bits_low by lia. destruct (Z.leb_spec start i).
    + rewrite Z.shiftl_spec by lia. destruct (Z.ltb_spec i (start + length)).
      * by rewrite Z.ones_spec_low by lia.
      * by rewrite Z.ones_spec_high by lia.
    + by rewrite Z.shiftl_spec_low by lia.
  - rewrite Z.mod_pow2_bits_high by lia. destruct (Z.ltb_spec i (start + length)); [lia|].
    by rewrite andb_false_r.
Qed.

Lemma extract_u32_value value start length :
  is_u32 value -> 0 <= start -> 0 < length -> start + length <= 32 ->
  extract_u32 value start length = Some ((value / 2 ^ start) `mod` 2 ^ length).
Proof.
  intros. unfold extract_u32. rewrite field_mask by lia. wsimpl. zcase; [lia|].
  unfold wshr. rewrite (Z.mod_small start) by lia.
  by rewrite Z.land_ones, Z.shiftr_div_pow2 by lia.
Qed.

Lemma deposit_u32_testbit value start length fieldval :
  is_u32 value -> is_u32 fieldval -> 0 <= start -> 0 < length -> start + length <= 32 ->
  exists r, deposit_u32 value start length fieldval = Some r /\ is_u32 r /\
    forall i, 0 <= i ->
      Z.testbit r i = if (start <=? i) && (i <? start + length)
                      then Z.testbit fieldval (i - start) else Z.testbit value i.
Proof.
  intros Hv Hf ? ? ?. unfold deposit_u32. rewrite field_mask by lia. wsimpl.
  zcase; [lia|]. eexists; split; [done|].
  assert (is_u32 (wshl 32 (Z.ones length) start)) as Hm by (apply wrap_inW; lia).
  split.
  { apply lor_inW; [lia|by apply land_inW|]. apply land_inW; [lia|]. apply wrap_inW. lia. }
  intros i Hi. rewrite Z.lor_spec, !Z.land_spec, shifted_mask_testbit by lia.
  destruct (Z.ltb_spec i 32) as [Hlt|Hge].
  - rewrite wnot_testbit, shifted_mask_testbit by (done || lia).
    destruct (Z.leb_spec start i), (Z.ltb_spec i (start + length)); cbn [andb negb];
      autorewrite with zbits; rewrite ?andb_false_r, ?andb_true_r, ?orb_false_r; try done.
    unfold wshl, wrap. rewrite Z.mod_pow2_bits_low, Z.shiftl_spec by lia.
    by rewrite (Z.mod_small start) by lia.
  - rewrite (testbit_above 32 value) by (done || lia).
    destruct (Z.ltb_spec i (start + length)); [lia|]. by rewrite !andb_false_r.
Qed.

Lemma extract_deposit_u32 value start length fieldval :
  is_u32 value -> is_u32 fieldval -> 0 <= start -> 0 < length -> start + length <= 32 ->
  exists r, deposit_u32 value start length fieldval = Some r /\
    extract_u32 r start length = Some (fieldval `mod` 2 ^ length).
Proof.
  intros Hv Hf ? ? ?.
  destruct (deposit_u32_testbit value start length fieldval) as (r & -> & Hr & Hb); try done.
  exists r. split; [done|]. rewrite extract_u32_value by done. f_equal.
  apply Z.bits_inj'. intros i Hi. destruct (Z.ltb_spec i length).
  - rewrite !Z.mod_pow2_bits_low, Z.div_pow2_bits, Hb by lia.
    replace (i + start - start) with i by lia.
    by destruct (Z.leb_spec start (i + start)), (Z.ltb_spec (i + start) (start + length)); try lia.
  - by rewrite !Z.mod_pow2_bits_high by lia.
Qed.

(** The guard of [extract_u32] does not refuse a field that starts past bit
    32, and an empty field is read as the whole shifted word: the unsigned
    subtraction [32 - start] and the shift by [32 - length] both wrap. *)
Example extract_u32_start_past_end : extract_u32 0xF0 33 1 = Some 0.
Proof. reflexivity. Qed.
Example extract_u32_empty_field : extract_u32 0xF0 4 0 = Some 0xF.
Proof. reflexivity. Qed.

(** ** Overlap of two ranges *)

Lemma ranges_overlap_spec s1 n1 s2 n2 :
  0 <= s1 -> 0 < n1 -> 0 <= s2 -> 0 < n2 -> s1 + n1 < 2 ^ 64 -> s2 + n2 < 2 ^ 64 ->
  exists b, ranges_overlap s1 n1 s2 n2 = Ok b /\
    (b = true <-> exists a, s1 <= a < s1 + n1 /\ s2 <= a < s2 + n2).
Proof.
  intros. unfold ranges_overlap, checked_add.
  destruct (Z.ltb_spec (s1 + n1) (2 ^ 64)), (Z.ltb_spec (s2 + n2) (2 ^ 64)); try lia.
  simpl. eexists; split; [done|]. zcases; split; try done.
  - intros [a ?]. lia.
  - intros [a ?]. lia.
  - intros _. exists (Z.max s1 s2). lia.
Qed.

(** ** Checksum *)

Lemma checksum_fold sum s :
  is_bytes s -> is_u8 sum ->
  foldl checksum_step sum s = (sum + foldr Z.add 0 s) `mod` 256.
Proof.
  intros Hs. revert sum. induction Hs as [|b s Hb Hs IH]; intros sum Hsum; simpl.
  - rewrite Z.mod_small; unfold inW in *; lia.
  - assert (checksum_step sum b = (sum + b) `mod` 256) as ->.
    { unfold checksum_step, wadd. rewrite wrap_small by (unfold inW in *; lia).
      change 0xff with (Z.ones 8). by rewrite Z.land_ones by lia. }
    rewrite IH by (apply (wrap_inW 8); lia).
    rewrite Zplus_mod_idemp_l. f_equal. lia.
Qed.

Lemma checksum_sum s : is_bytes s -> checksum s = foldr Z.add 0 s `mod` 256.
Proof.
  intros Hs. unfold checksum. rewrite checksum_fold by (done || unfold inW; lia).
  change 0xff with (Z.ones 8). rewrite Z.land_ones by lia. unfold wrap.
  change (2 ^ 8) with 256. by rewrite !Zmod_mod.
Qed.
