(* ===== verification/LeakBucket.v ===== *)
(** * The leaky bucket ([util/src/leak_bucket.rs])

    Limits the rate of requests.  The clock is an argument: [now] is the number
    of nanoseconds [get_current_time] gives.  The timer of the event loop is an
    output: the delay after which the owner is woken, to call [clear_timer]. *)
From stdpp Require Import prelude list.
From Stdlib Require Import ZArith Lia.
From S2P Require Import Prelude.

Definition ACCURACY_SCALE : Z := 1000.
Definition NANOSECONDS_PER_SECOND : Z := 1000000000.

(** The event fd of [timer_wakeup] is what the timer writes to. *)
Record LeakBucket := mkBucket {
  capacity : Z;
  level : Z;
  prev_time : Z;
  timer_started : bool
}.

Definition LeakBucket_new (units_ps now : Z) : LeakBucket := mkBucket (wmul 64 units_ps ACCURACY_SCALE) 0 now false.

(** The answer, and the delay of the timer that was added.  The difference of
    two instants is never negative. *)
Definition throttled (now need_units : Z) (self : LeakBucket) : LeakBucket * (bool * option Z) :=
  if capacity self =? 0 then (self, (false, None))
  else if timer_started self then (self, (true, None))
  else
    let nanos := Z.max 0 (now - prev_time self) in
    let level :=
      if wmul 64 (level self) NANOSECONDS_PER_SECOND / capacity self <? nanos then 0
      else wsub 64 (level self) (wmul 64 (wrap 64 nanos) (capacity self) / NANOSECONDS_PER_SECOND) in
    if capacity self <? level then
      (mkBucket (capacity self) level now true,
       (true, Some (wmul 64 (wsub 64 level (capacity self)) NANOSECONDS_PER_SECOND / capacity self)))
    else (mkBucket (capacity self) (wadd 64 level (wmul 64 need_units ACCURACY_SCALE)) now false, (false, None)).

Definition clear_timer (self : LeakBucket) : LeakBucket :=
  mkBucket (capacity self) (level self) (prev_time self) false.

(** ** Runs *)

(** A request for some units at a time, or the owner's answer to the timer. *)
Inductive bucket_event := Request (now need : Z) | TimerFired.

(** The units let through by a run. *)
Fixpoint run_bucket (evs : list bucket_event) (b : LeakBucket) : LeakBucket * Z :=
  match evs with
  | [] => (b, 0)
  | Request now need :: evs =>
    let '(b, (full, _)) := throttled now need b in
    let '(b, n) := run_bucket evs b in (b, (if full then 0 else need) + n)
  | TimerFired :: evs => run_bucket evs (clear_timer b)
  end.

(** The clock does not go back, and ends at [fin]; no request is larger than
    [most]. *)
Fixpoint run_ok (most t fin : Z) (evs : list bucket_event) : Prop :=
  match evs with
  | [] => t <= fin
  | Request now need :: evs => t <= now /\ 0 <= need <= most /\ run_ok most now fin evs
  | TimerFired :: evs => run_ok most t fin evs
  end.

(** ** Arithmetic *)

(** Within these bounds nothing overflows. *)
Definition fits (most cap lev : Z) : Prop :=
  0 < cap /\ 0 <= most /\ 0 <= lev <= cap + most * ACCURACY_SCALE /\
  (cap + most * ACCURACY_SCALE) * NANOSECONDS_PER_SECOND < 2 ^ 64.

(** What has leaked out of the bucket after [nanos]. *)
Definition leaked (cap lev nanos : Z) : Z :=
  if wmul 64 lev NANOSECONDS_PER_SECOND / cap <? nanos then 0
  else wsub 64 lev (wmul 64 (wrap 64 nanos) cap / NANOSECONDS_PER_SECOND).

(** It never takes more than the rate allows. *)
Lemma leaked_spec most cap lev nanos : fits most cap lev -> 0 <= nanos ->
  0 <= leaked cap lev nanos <= lev /\
  lev * NANOSECONDS_PER_SECOND <= leaked cap lev nanos * NANOSECONDS_PER_SECOND + cap * nanos.
Proof.
  unfold fits, leaked, NANOSECONDS_PER_SECOND, ACCURACY_SCALE. intros (Hc & Hm & Hl & Hb) Hn.
  rewrite wmul_small by (unfold inW; lia).
  pose proof (Z.div_mod (lev * 1000000000) cap ltac:(lia)) as Eq. pose proof (Z.mod_pos_bound (lev * 1000000000) cap Hc) as Hr.
  set (q := lev * 1000000000 / cap) in *. destruct (Z.ltb_spec q nanos) as [Hlt|Hge]; [split; nia|].
  assert (0 <= nanos * cap <= lev * 1000000000) as Hp by nia.
  assert (0 <= nanos < 2 ^ 64) by nia.
  rewrite (wrap_small 64 nanos), wmul_small by (unfold inW; lia).
  pose proof (Z.div_mod (nanos * cap) 1000000000 ltac:(lia)) as Ed. pose proof (Z.mod_pos_bound (nanos * cap) 1000000000 ltac:(lia)) as Hd.
  set (x := nanos * cap / 1000000000) in *. rewrite wsub_small by (unfold inW; lia). lia.
Qed.

Lemma throttled_run most now need b : fits most (capacity b) (level b) -> timer_started b = false -> 0 <= need <= most ->
  let lev := leaked (capacity b) (level b) (Z.max 0 (now - prev_time b)) in
  throttled now need b =
    if capacity b <? lev then
      (mkBucket (capacity b) lev now true, (true, Some ((lev - capacity b) * NANOSECONDS_PER_SECOND / capacity b)))
    else (mkBucket (capacity b) (lev + need * ACCURACY_SCALE) now false, (false, None)).
Proof.
  intros Hs Ht Hn lev. pose proof (leaked_spec most _ _ (Z.max 0 (now - prev_time b)) Hs ltac:(lia)) as [Hl _]. fold lev in Hl.
  unfold throttled. fold (leaked (capacity b) (level b) (Z.max 0 (now - prev_time b))). fold lev.
  unfold fits, NANOSECONDS_PER_SECOND, ACCURACY_SCALE in *. destruct Hs as (Hc & Hm & Hlv & Hb).
  rewrite (proj2 (Z.eqb_neq _ _)), Ht by lia. destruct (Z.ltb_spec (capacity b) lev).
  - rewrite wsub_small, wmul_small by (unfold inW; lia). done.
  - rewrite wmul_small, wadd_small by (unfold inW; lia). done.
Qed.

(** ** The rate *)

Lemma run_ok_earlier most t t' fin evs : t <= t' -> run_ok most t' fin evs -> run_ok most t fin evs.
Proof.
  induction evs as [|[now need|] evs IH]; cbn [run_ok]; intros Ht Hr; [lia| |by apply IH]. destruct Hr as (? & ? & ?). split_and!; done || lia.
Qed.
Lemma run_bucket_bound most fin evs b :
  fits most (capacity b) (level b) -> run_ok most (prev_time b) fin evs ->
  let '(b', n) := run_bucket evs b in
  fits most (capacity b') (level b') /\ capacity b' = capacity b /\
  (level b + n * ACCURACY_SCALE) * NANOSECONDS_PER_SECOND <= level b' * NANOSECONDS_PER_SECOND + capacity b * (fin - prev_time b).
Proof.
  revert b. induction evs as [|[now need|] evs IH]; intros b Hs Hr; cbn [run_bucket run_ok] in *.
  - split_and!; try done. unfold fits in Hs. nia.
  - destruct Hr as (Ht & Hn & Hr). destruct (timer_started b) eqn:Est.
    + assert (throttled now need b = (b, (true, None))) as ->.
      { unfold throttled. rewrite Est. destruct (Z.eqb_spec (capacity b) 0) as [E|]; [|done]. unfold fits in Hs. lia. }
      specialize (IH b Hs (run_ok_earlier _ _ _ _ _ Ht Hr)). destruct (run_bucket evs b) as [b' n]. destruct IH as (I1 & I2 & I3). split_and!; [done..|]. lia.
    + rewrite (throttled_run most) by done. set (lev := leaked _ _ _).
      destruct (leaked_spec most _ _ (Z.max 0 (now - prev_time b)) Hs ltac:(lia)) as [Hlv Hrate]. fold lev in Hlv, Hrate.
      rewrite Z.max_r in Hrate by lia. destruct (Z.ltb_spec (capacity b) lev) as [Hf|Hf].
      * specialize (IH (mkBucket (capacity b) lev now true)). cbn [capacity level prev_time] in IH.
        assert (fits most (capacity b) lev) as Hs' by (unfold fits in *; lia). specialize (IH Hs' Hr).
        destruct (run_bucket evs _) as [b' n]. destruct IH as (I1 & I2 & I3). split_and!; [done..|].
        unfold fits, NANOSECONDS_PER_SECOND, ACCURACY_SCALE in *. lia.
      * specialize (IH (mkBucket (capacity b) (lev + need * ACCURACY_SCALE) now false)). cbn [capacity level prev_time] in IH.
        assert (fits most (capacity b) (lev + need * ACCURACY_SCALE)) as Hs' by (unfold fits, ACCURACY_SCALE, NANOSECONDS_PER_SECOND in *; lia).
        specialize (IH Hs' Hr). destruct (run_bucket evs _) as [b' n]. destruct IH as (I1 & I2 & I3). split_and!; [done..|].
        unfold fits, NANOSECONDS_PER_SECOND, ACCURACY_SCALE in *. lia.
  - apply (IH (clear_timer b)); done.
Qed.

(** C25: A leaky bucket of [u] units per second limits the rate, whatever the
    requests and their times are: over [t] nanoseconds it lets through at
    most the units of that time, one second's worth in advance and one more
    request.  Nothing overflows as long as a second's worth and the largest
    request, in thousandths and nanoseconds, fit into 64 bits. *)
Theorem leak_bucket_rate units_ps most start fin evs :
  0 < units_ps -> 0 <= most -> (units_ps + most) * (ACCURACY_SCALE * NANOSECONDS_PER_SECOND) < 2 ^ 64 ->
  run_ok most start fin evs ->
  (run_bucket evs (LeakBucket_new units_ps start)).2 * NANOSECONDS_PER_SECOND <=
    (units_ps + most) * NANOSECONDS_PER_SECOND + units_ps * (fin - start).
Proof.
  intros Hu Hm Hb Hr. unfold ACCURACY_SCALE, NANOSECONDS_PER_SECOND in Hb.
  assert (LeakBucket_new units_ps start = mkBucket (units_ps * 1000) 0 start false) as E
    by (unfold LeakBucket_new, ACCURACY_SCALE; by rewrite wmul_small by (unfold inW; lia)).
  pose proof (run_bucket_bound most fin evs (LeakBucket_new units_ps start)) as Hrun. rewrite E in *. cbn [capacity level prev_time] in Hrun.
  assert (fits most (units_ps * 1000) 0) as Hs by (unfold fits, ACCURACY_SCALE, NANOSECONDS_PER_SECOND; lia).
  specialize (Hrun Hs Hr). destruct (run_bucket evs _) as [b' n]. cbn [snd]. destruct Hrun as ((_ & _ & Hl & _) & Ec & Hrun). rewrite Ec in Hl.
  unfold ACCURACY_SCALE, NANOSECONDS_PER_SECOND in *. lia.
Qed.

(** A second's worth of ten units in one go, then one unit in each of ten
    milliseconds. *)
Definition busy : list bucket_event :=
  [Request 0 10; Request 1 1] ++ ((fun i => Request (i * 1000000) 1) <$> seqZ 2 10).
Lemma leak_bucket_rate_witness :
  (run_bucket busy (LeakBucket_new 10 0)).2 = 11 /\ 11 * NANOSECONDS_PER_SECOND <= 20 * NANOSECONDS_PER_SECOND + 10 * (11000000 - 0).
Proof.
  split; [vm_compute; reflexivity|]. assert (run_ok 10 0 11000000 busy) as Hr by (vm_compute; intuition discriminate).
  pose proof (leak_bucket_rate 10 10 0 11000000 busy ltac:(lia) ltac:(lia) ltac:(vm_compute; reflexivity) Hr) as H.
  assert ((run_bucket busy (LeakBucket_new 10 0)).2 = 11) as E by (vm_compute; reflexivity). rewrite E in H. exact H.
Defined.

(** A nanosecond after the timer it is free again: a request that had to wait
    is let through when it is repeated after the timer. *)
Theorem leak_bucket_releases most now need b b' delay later :
  fits most (capacity b) (level b) -> timer_started b = false -> 0 <= need <= most -> prev_time b <= now ->
  throttled now need b = (b', (true, Some delay)) -> now + delay < later ->
  (throttled later need (clear_timer b')).2 = (false, None).
Proof.
  intros Hs Ht Hn Hp. rewrite (throttled_run most) by done. set (lev := leaked _ _ _).
  destruct (leaked_spec most _ _ (Z.max 0 (now - prev_time b)) Hs ltac:(lia)) as [Hl _]. fold lev in Hl.
  destruct (Z.ltb_spec (capacity b) lev) as [Hf|]; [|done]. intros E Hlater. apply (f_equal fst) in E as Eb; apply (f_equal snd) in E.
  cbn in Eb. injection E as <-. subst b'.
  assert (fits most (capacity b) lev) as Hs' by (unfold fits in *; lia).
  rewrite (throttled_run most); [|done|done|done]. cbv zeta. cbn [clear_timer capacity level prev_time].
  destruct (leaked_spec most _ _ (Z.max 0 (later - now)) Hs' ltac:(lia)) as [Hl2 _]. clearbody lev.
  set (lev2 := leaked (capacity b) lev _) in *.
  destruct (Z.ltb_spec (capacity b) lev2) as [Hf2|]; [|done]. exfalso. revert Hf2. subst lev2. unfold leaked.
  unfold fits, NANOSECONDS_PER_SECOND, ACCURACY_SCALE in *. destruct Hs' as (Hc & Hm & Hlv & Hb). set (cap := capacity b) in *. clearbody cap.
  pose proof (Z.div_mod ((lev - cap) * 1000000000) cap ltac:(lia)) as Ed. pose proof (Z.mod_pos_bound ((lev - cap) * 1000000000) cap Hc) as Hr.
  set (q := (lev - cap) * 1000000000 / cap) in *. rewrite Z.max_r by nia. rewrite wmul_small by (unfold inW; lia).
  destruct (Z.ltb_spec (lev * 1000000000 / cap) (later - now)) as [|Hge]; [lia|].
  pose proof (Z.div_mod (lev * 1000000000) cap ltac:(lia)) as Ed2. pose proof (Z.mod_pos_bound (lev * 1000000000) cap Hc) as Hr2.
  set (q2 := lev * 1000000000 / cap) in *. assert (0 <= (later - now) * cap <= lev * 1000000000) by nia. assert (0 <= later - now < 2 ^ 64) by nia.
  rewrite (wrap_small 64), wmul_small by (unfold inW; lia).
  assert (lev - cap <= (later - now) * cap / 1000000000) by (apply Z.div_le_lower_bound; nia).
  assert ((later - now) * cap / 1000000000 <= lev) by (apply Z.div_le_upper_bound; lia).
  rewrite wsub_small by (unfold inW; lia). lia.
Qed.
