(* ===== verification/Serial.v ===== *)
(** * The 16550 serial port ([devices/src/legacy/serial.rs])

    Registers, receive buffer and interrupt.  The output of the character
    device is an argument of a write ([host_out]); the bytes it took and the
    number of writes to the interrupt event fd are part of the state. *)
From stdpp Require Import prelude list.
From Stdlib Require Import ZArith Lia.
From S2P Require Import Prelude.

Definition UART_IER_RDI : Z := 0x01.
Definition UART_IER_THRI : Z := 0x02.
Definition UART_IIR_NO_INT : Z := 0x01.
Definition UART_IIR_THRI : Z := 0x02.
Definition UART_IIR_RDI : Z := 0x04.
Definition UART_LCR_DLAB : Z := 0x80.
Definition UART_LSR_DR : Z := 0x01.
Definition UART_LSR_THRE : Z := 0x20.
Definition UART_LSR_TEMT : Z := 0x40.
Definition UART_MCR_OUT2 : Z := 0x08.
Definition UART_MCR_LOOP : Z := 0x10.
Definition UART_MSR_CTS : Z := 0x10.
Definition UART_MSR_DSR : Z := 0x20.
Definition UART_MSR_DCD : Z := 0x80.
Definition RECEIVER_BUFF_SIZE : nat := 1024.

Record SerialState := mkSerialState {
  rbr_value : list Z;
  rbr_len : Z;
  ier : Z;
  iir : Z;
  lcr : Z;
  mcr : Z;
  lsr : Z;
  msr : Z;
  scr : Z;
  div : Z;
  thr_pending : Z
}.
Definition SerialState_new : SerialState :=
  mkSerialState (replicate 1024 0) 0 0 UART_IIR_NO_INT 0x03 UART_MCR_OUT2 (Z.lor UART_LSR_TEMT UART_LSR_THRE)
    (Z.lor (Z.lor UART_MSR_DCD UART_MSR_DSR) UART_MSR_CTS) 0 0x0c 0.
Definition set_rbr (v : list Z) (n : Z) s := mkSerialState v n (ier s) (iir s) (lcr s) (mcr s) (lsr s) (msr s) (scr s) (div s) (thr_pending s).
Definition set_ier v s := mkSerialState (rbr_value s) (rbr_len s) v (iir s) (lcr s) (mcr s) (lsr s) (msr s) (scr s) (div s) (thr_pending s).
Definition set_iir v s := mkSerialState (rbr_value s) (rbr_len s) (ier s) v (lcr s) (mcr s) (lsr s) (msr s) (scr s) (div s) (thr_pending s).
Definition set_lcr v s := mkSerialState (rbr_value s) (rbr_len s) (ier s) (iir s) v (mcr s) (lsr s) (msr s) (scr s) (div s) (thr_pending s).
Definition set_mcr v s := mkSerialState (rbr_value s) (rbr_len s) (ier s) (iir s) (lcr s) v (lsr s) (msr s) (scr s) (div s) (thr_pending s).
Definition set_lsr v s := mkSerialState (rbr_value s) (rbr_len s) (ier s) (iir s) (lcr s) (mcr s) v (msr s) (scr s) (div s) (thr_pending s).
Definition set_scr v s := mkSerialState (rbr_value s) (rbr_len s) (ier s) (iir s) (lcr s) (mcr s) (lsr s) (msr s) v (div s) (thr_pending s).
Definition set_div v s := mkSerialState (rbr_value s) (rbr_len s) (ier s) (iir s) (lcr s) (mcr s) (lsr s) (msr s) (scr s) v (thr_pending s).
Definition set_thr v s := mkSerialState (rbr_value s) (rbr_len s) (ier s) (iir s) (lcr s) (mcr s) (lsr s) (msr s) (scr s) (div s) v.

(** [interrupt_evt]: the number of writes to the event fd, once it exists;
    [sent]: the bytes the character device took. *)
Record Serial := mkSerial {
  rbr : list Z;
  state : SerialState;
  interrupt_evt : option Z;
  sent : list Z
}.
Definition Serial_new : Serial := mkSerial [] SerialState_new None [].
Definition upd_state (g : SerialState -> SerialState) (d : Serial) : Serial := mkSerial (rbr d) (g (state d)) (interrupt_evt d) (sent d).
Definition upd_rbr (q : list Z) (d : Serial) : Serial := mkSerial q (state d) (interrupt_evt d) (sent d).

(** A flag of a register. *)
Definition has (reg flag : Z) : bool := negb (Z.land reg flag =? 0).

Definition update_iir (d : Serial) : Serial :=
  let s := state d in
  let i := UART_IIR_NO_INT in
  let i :=
    if has (ier s) UART_IER_RDI && has (lsr s) UART_LSR_DR then Z.lor (Z.land i (wnot 8 UART_IIR_NO_INT)) UART_IIR_RDI
    else if has (ier s) UART_IER_THRI && (0 <? thr_pending s) then Z.lor (Z.land i (wnot 8 UART_IIR_NO_INT)) UART_IIR_THRI
    else i in
  let d := upd_state (set_iir i) d in
  if negb (i =? UART_IIR_NO_INT)
  then mkSerial (rbr d) (state d) ((fun n => n + 1) <$> interrupt_evt d) (sent d) else d.

Definition read_internal (offset : Z) (d : Serial) : Serial * Z :=
  let s := state d in
  match offset with
  | 0 =>
    if has (lcr s) UART_LCR_DLAB then (d, wrap 8 (div s))
    else
      let '(d, ret) := match rbr d with [] => (d, 0) | b :: q => (upd_rbr q d, b) end in
      let d := match rbr d with [] => upd_state (set_lsr (Z.land (lsr (state d)) (wnot 8 UART_LSR_DR))) d | _ => d end in
      (update_iir d, ret)
  | 1 => if has (lcr s) UART_LCR_DLAB then (d, wrap 8 (wshr 16 (div s) 8)) else (d, ier s)
  | 2 => (upd_state (fun s => set_iir UART_IIR_NO_INT (set_thr 0 s)) d, Z.lor (iir s) 0xc0)
  | 3 => (d, lcr s)
  | 4 => (d, mcr s)
  | 5 => (d, lsr s)
  | 6 =>
    if has (mcr s) UART_MCR_LOOP
    then (d, Z.lor (Z.lor (wshl 8 (Z.land (mcr s) 0x0c) 4) (wshl 8 (Z.land (mcr s) 0x02) 3)) (wshl 8 (Z.land (mcr s) 0x01) 5))
    else (d, msr s)
  | 7 => (d, scr s)
  | _ => (d, 0)
  end.

(** The output of the character device: none, one that fails, one that takes the
    byte. *)
Inductive host_out := NoOutput | WriteFails | Written.

Definition write_internal (out : host_out) (offset data : Z) (d : Serial) : Serial * res unit unit :=
  let s := state d in
  match offset with
  | 0 =>
    if has (lcr s) UART_LCR_DLAB then (upd_state (set_div (Z.lor (Z.land (div s) 0xff00) data)) d, Ok tt)
    else
      let d := upd_state (set_thr 1) d in
      if has (mcr s) UART_MCR_LOOP then
        if (RECEIVER_BUFF_SIZE <=? length (rbr d))%nat then (d, Err tt)
        else
          let d := upd_state (set_lsr (Z.lor (lsr (state d)) UART_LSR_DR)) (upd_rbr (rbr d ++ [data]) d) in
          (update_iir d, Ok tt)
      else
        match out with
        | NoOutput => (update_iir d, Err tt)
        | WriteFails => (d, Err tt)
        | Written => (update_iir (mkSerial (rbr d) (state d) (interrupt_evt d) (sent d ++ [data])), Ok tt)
        end
  | 1 =>
    if has (lcr s) UART_LCR_DLAB then (upd_state (set_div (Z.lor (Z.land (div s) 0x00ff) (wshl 16 data 8))) d, Ok tt)
    else
      let changed := Z.land (Z.lxor (ier s) data) 0x0f in
      let d := upd_state (set_ier (Z.land data 0x0f)) d in
      (if negb (changed =? 0) then update_iir d else d, Ok tt)
  | 3 => (upd_state (set_lcr data) d, Ok tt)
  | 4 => (upd_state (set_mcr data) d, Ok tt)
  | 7 => (upd_state (set_scr data) d, Ok tt)
  | _ => (d, Ok tt)
  end.

Definition receive (data : list Z) (d : Serial) : Serial :=
  if has (mcr (state d)) UART_MCR_LOOP then d
  else if (RECEIVER_BUFF_SIZE <=? length (rbr d))%nat then d
  else update_iir (upd_state (set_lsr (Z.lor (lsr (state d)) UART_LSR_DR)) (upd_rbr (rbr d ++ data) d)).
Definition remain_size : nat := RECEIVER_BUFF_SIZE.

(** The accesses of the system bus; an empty buffer is never passed. *)
Definition serial_read (data : list Z) (offset : Z) (d : Serial) : Serial * res unit (bool * list Z) :=
  match data with
  | [] => (d, Panic)
  | _ :: data => let '(d, b) := read_internal offset d in (d, Ok (true, b :: data))
  end.
Definition serial_write (out : host_out) (data : list Z) (offset : Z) (d : Serial) : Serial * res unit bool :=
  match data with
  | [] => (d, Panic)
  | b :: _ => let '(d, r) := write_internal out offset b d in (d, Ok (is_ok r))
  end.

(** ** Snapshots *)

(** [VecDeque::as_slices] gives the contents in two parts, split where the
    buffer wraps around: [front] is the length of the first one.  The first part
    is copied into an array of 1024 bytes. *)
Definition get_state_vec (front : nat) (d : Serial) : res unit SerialState :=
  let rbr_state := take front (rbr d) in
  if (1024 <? length rbr_state)%nat then Panic
  else Ok (set_rbr (rbr_state ++ drop (length rbr_state) (rbr_value (state d))) (Z.of_nat (length rbr_state)) (state d)).
Definition set_state_mut (s : SerialState) (d : Serial) : res unit Serial :=
  if Z.of_nat (length (rbr_value s)) <? rbr_len s then Panic
  else Ok (mkSerial (take (Z.to_nat (rbr_len s)) (rbr_value s)) s (interrupt_evt d) (sent d)).

(** ** Runs *)

(** Input of the character device, and accesses of the guest. *)
Inductive serial_event :=
| Receive (data : list Z)
| GuestRead (offset : Z)
| GuestWrite (out : host_out) (offset data : Z).
Definition serial_step (d : Serial) (e : serial_event) : Serial :=
  match e with
  | Receive data => receive data d
  | GuestRead offset => (read_internal offset d).1
  | GuestWrite out offset data => (write_internal out offset data d).1
  end.
Definition serial_run (d : Serial) (evs : list serial_event) : Serial := foldl serial_step d evs.

(** The input is read in pieces of at most [remain_size] bytes; at its end the
    piece is empty. *)
Definition serial_ev_ok (e : serial_event) : Prop :=
  match e with
  | Receive data => is_bytes data /\ (length data <= remain_size)%nat
  | GuestRead _ => True
  | GuestWrite _ _ data => is_u8 data
  end.

Definition ev_nonempty (e : serial_event) : Prop := e <> Receive [].

(** ** The registers *)

(** [exact] says that no empty piece of input has arrived: only then is data
    announced no longer than there is any. *)
Record regs_ok (exact : Prop) (d : Serial) : Prop := mkRegsOk {
  ro_rbr : is_bytes (rbr d) /\ (length (rbr d) <= RECEIVER_BUFF_SIZE + remain_size - 1)%nat;
  ro_ier : 0 <= ier (state d) < 16;
  ro_iir : iir (state d) ∈ [UART_IIR_NO_INT; UART_IIR_THRI; UART_IIR_RDI];
  ro_u8 : is_u8 (lcr (state d)) /\ is_u8 (mcr (state d)) /\ is_u8 (scr (state d));
  ro_div : is_u16 (div (state d));
  ro_thr : thr_pending (state d) ∈ [0; 1];
  ro_msr : msr (state d) = 0xb0;
  ro_lsr : lsr (state d) = 0x61 \/ lsr (state d) = 0x60 /\ rbr d = [];
  ro_exact : exact -> rbr d = [] -> lsr (state d) = 0x60;
  ro_snap : length (rbr_value (state d)) = 1024%nat
}.

(** [update_iir] only touches the identification register. *)
Lemma update_iir_spec d :
  rbr (update_iir d) = rbr d /\ sent (update_iir d) = sent d /\
  exists i, state (update_iir d) = set_iir i (state d) /\ i ∈ [UART_IIR_NO_INT; UART_IIR_THRI; UART_IIR_RDI] /\
    (i = UART_IIR_RDI <-> has (ier (state d)) UART_IER_RDI = true /\ has (lsr (state d)) UART_LSR_DR = true) /\
    interrupt_evt (update_iir d) = if i =? UART_IIR_NO_INT then interrupt_evt d else (fun n => n + 1) <$> interrupt_evt d.
Proof.
  unfold update_iir. destruct (has (ier (state d)) UART_IER_RDI) eqn:E1; destruct (has (lsr (state d)) UART_LSR_DR) eqn:E2; cbn [andb];
    [|destruct (has (ier (state d)) UART_IER_THRI && _) ..]; (split; [done|]; split; [done|]; eexists; split; [done|]; split; [by rewrite !elem_of_cons; vm_compute; auto|]; split; [split; [done|]|done]; try done; intros [? ?]; done).
Qed.

Lemma regs_update_iir ex d : regs_ok ex d -> regs_ok ex (update_iir d).
Proof.
  intros [? ? ? ? ? ? ? ? ? ?]. destruct (update_iir_spec d) as (Er & _ & i & Es & Hi & _). constructor; rewrite ?Er, ?Es; done.
Qed.
(** A piece is added to the buffer. *)
Lemma regs_push ex d data : regs_ok ex d -> is_bytes data -> (ex -> data <> []) -> (length (rbr d) < RECEIVER_BUFF_SIZE)%nat -> (length data <= remain_size)%nat ->
  regs_ok ex (upd_state (set_lsr (Z.lor (lsr (state d)) UART_LSR_DR)) (upd_rbr (rbr d ++ data) d)).
Proof.
  intros [[? ?] ? ? ? ? ? ? Hl _ ?] Hd Hne Hlt Hle. constructor; try done; cbn [rbr state upd_state upd_rbr set_lsr lsr].
  - split; [by apply Forall_app|]. rewrite length_app. unfold remain_size in *. lia.
  - left. by destruct Hl as [-> | [-> _]].
  - intros Hex [_ ->]%app_nil. by destruct Hne.
Qed.
Lemma regs_read_data ex d : regs_ok ex d -> has (lcr (state d)) UART_LCR_DLAB = false -> regs_ok ex (read_internal 0 d).1.
Proof.
  intros Hd El. unfold read_internal. rewrite El. pose proof Hd as [[Hb Hlen] ? ? ? ? ? ? Hl ? ?].
  assert (Z.land (lsr (state d)) (wnot 8 UART_LSR_DR) = 0x60) as Hclr by (by destruct Hl as [-> | [-> _]]).
  destruct (rbr d) as [|b q] eqn:Eq; cbn [fst]; apply regs_update_iir.
  - rewrite Eq. constructor; try done; cbn [rbr state upd_state set_lsr lsr]; rewrite ?Eq, ?Hclr; auto.
  - destruct q as [|b' q]; cbn [rbr upd_rbr].
    + constructor; try done; cbn [rbr state upd_state upd_rbr set_lsr lsr]; rewrite ?Hclr; auto. split; [by apply Forall_nil|simpl; lia].
    + constructor; try done; cbn [rbr state upd_rbr].
      * split; [by inversion Hb|]. cbn [length] in *. lia.
      * left. by destruct Hl as [-> | [_ ?]].
Qed.
Lemma land_u4 x : 0 <= Z.land x 0x0f < 16.
Proof. change 0x0f with (Z.ones 4). rewrite Z.land_ones by lia. apply Z.mod_pos_bound. lia. Qed.
Lemma div_bytes x data : is_u8 data -> is_u16 (Z.lor (Z.land x 0xff00) data) /\ is_u16 (Z.lor (Z.land x 0x00ff) (wshl 16 data 8)).
Proof.
  intros Hd. assert (forall m, is_u16 m -> is_u16 (Z.land x m)) as Hland.
  { intros m Hm. rewrite Z.land_comm. apply land_inW; [lia|done]. }
  split; apply lor_inW; try lia; try (apply Hland; done); [unfold inW in *; lia|]. apply wrap_inW. lia.
Qed.

Lemma regs_step ex d e : regs_ok ex d -> serial_ev_ok e -> (ex -> ev_nonempty e) -> regs_ok ex (serial_step d e).
Proof.
  intros Hd He Hne. destruct e as [data|offset|out offset data]; cbn [serial_step serial_ev_ok] in *.
  - destruct He as (Hb & Hl). unfold receive. destruct (has _ _); [done|].
    destruct (Nat.leb_spec RECEIVER_BUFF_SIZE (length (rbr d))); [done|]. apply regs_update_iir, regs_push; try done. intros Hex ->. by apply Hne.
  - destruct (has (lcr (state d)) UART_LCR_DLAB) eqn:El, (decide (offset = 0)) as [->|Hoff]; try (by apply regs_read_data);
      unfold read_internal; rewrite ?El; try done; repeat case_match; try done.
    all: destruct Hd; constructor; try done; cbn; rewrite !elem_of_cons; auto.
  - unfold write_internal. destruct (div_bytes (div (state d)) data He) as [Hlo Hhi]. pose proof (land_u4 data) as H4.
    pose proof Hd as [? ? ? (? & ? & ?) ? ? ? ? ? ?].
    assert (regs_ok ex (upd_state (set_thr 1) d)) as Hthr by (constructor; done || (cbn; by rewrite !elem_of_cons; auto)).
    destruct offset as [|p|p]; [|repeat (destruct p as [p|p|]; try done)|done].
    + destruct (has (lcr (state d)) UART_LCR_DLAB); [constructor; done|]. destruct (has (mcr (state d)) UART_MCR_LOOP).
      * destruct (Nat.leb_spec RECEIVER_BUFF_SIZE (length (rbr (upd_state (set_thr 1) d)))); [done|].
        apply regs_update_iir, (regs_push ex (upd_state (set_thr 1) d)); try done; [by apply Forall_singleton|unfold remain_size, RECEIVER_BUFF_SIZE; simpl; lia].
      * destruct out; cbn [fst]; try done; apply regs_update_iir; [done|]. destruct Hthr. constructor; done.
    + destruct (has (lcr (state d)) UART_LCR_DLAB); [constructor; done|]. cbn [fst].
      assert (regs_ok ex (upd_state (set_ier (Z.land data 0x0f)) d)) by (constructor; done).
      destruct (negb _); [by apply regs_update_iir|done].
Qed.

(** ** The buffer is a queue *)

(** The bytes an event adds to the buffer, and the byte it takes off. *)
Definition queued (d : Serial) (e : serial_event) : list Z :=
  let room := (length (rbr d) <? RECEIVER_BUFF_SIZE)%nat in
  match e with
  | Receive data => if negb (has (mcr (state d)) UART_MCR_LOOP) && room then data else []
  | GuestWrite _ 0 data =>
    if negb (has (lcr (state d)) UART_LCR_DLAB) && has (mcr (state d)) UART_MCR_LOOP && room then [data] else []
  | _ => []
  end.
Definition taken (d : Serial) (e : serial_event) : list Z :=
  match e with
  | GuestRead 0 => if negb (has (lcr (state d)) UART_LCR_DLAB) && bool_decide (rbr d <> []) then [(read_internal 0 d).2] else []
  | _ => []
  end.
Fixpoint along (g : Serial -> serial_event -> list Z) (d : Serial) (evs : list serial_event) : list Z :=
  match evs with
  | [] => []
  | e :: evs => g d e ++ along g (serial_step d e) evs
  end.

Lemma step_queue d e : rbr d ++ queued d e = taken d e ++ rbr (serial_step d e).
Proof.
  destruct e as [data|offset|out offset data]; cbn [queued taken serial_step].
  - unfold receive. destruct (has _ _); cbn [negb andb app]; [by rewrite app_nil_r|].
    destruct (Nat.leb_spec RECEIVER_BUFF_SIZE (length (rbr d))), (Nat.ltb_spec (length (rbr d)) RECEIVER_BUFF_SIZE); try lia; [by rewrite app_nil_r|].
    by rewrite (proj1 (update_iir_spec _)).
  - rewrite app_nil_r. unfold read_internal. destruct offset as [|p|p]; [|by repeat (destruct p as [p|p|]; try done; try (destruct (has _ _); done))|done].
    destruct (has _ _); [done|]. cbn [negb andb]. destruct (rbr d) as [|b q] eqn:Eq; cbn [fst snd].
    + rewrite bool_decide_eq_false_2 by naive_solver. rewrite (proj1 (update_iir_spec _)). cbn [rbr upd_state]. by rewrite ?Eq.
    + rewrite bool_decide_eq_true_2 by done. rewrite (proj1 (update_iir_spec _)). by destruct q.
  - unfold write_internal. destruct offset as [|p|p]; [|repeat (destruct p as [p|p|]; try (by rewrite app_nil_r))|by rewrite app_nil_r].
    2:{ rewrite app_nil_r. destruct (has _ _); [done|]. cbn [fst]. destruct (negb _); [by rewrite (proj1 (update_iir_spec _))|done]. }
    destruct (has (lcr (state d)) UART_LCR_DLAB); cbn [negb andb app]; [by rewrite app_nil_r|].
    destruct (has (mcr (state d)) UART_MCR_LOOP); cbn [negb andb app].
    + change (rbr (upd_state (set_thr 1) d)) with (rbr d).
      destruct (Nat.leb_spec RECEIVER_BUFF_SIZE (length (rbr d))), (Nat.ltb_spec (length (rbr d)) RECEIVER_BUFF_SIZE); try lia; [by rewrite app_nil_r|].
      cbn [fst]. by rewrite (proj1 (update_iir_spec _)).
    + rewrite app_nil_r. destruct out; cbn [fst]; rewrite ?(proj1 (update_iir_spec _)); done.
Qed.

Lemma run_regs_ok ex d evs : regs_ok ex d -> Forall serial_ev_ok evs -> (ex -> Forall ev_nonempty evs) -> regs_ok ex (serial_run d evs).
Proof.
  intros Hd He. revert d Hd. induction He as [|e evs He Hes IH]; intros d Hd Hne; [done|].
  apply IH; [apply regs_step; try done|]; intros Hex; by apply Hne in Hex; inversion Hex.
Qed.
Lemma regs_new ex : regs_ok ex Serial_new.
Proof. constructor; try done; try (cbn; rewrite !elem_of_cons; auto); [|by right]. split; [by apply Forall_nil|]. unfold RECEIVER_BUFF_SIZE. simpl. lia. Qed.

(** C24: Whatever the guest writes and reads and whatever input arrives, in
    pieces of at most the size the port asks for, the registers of the serial
    port keep their types: the enable register has four bits, the
    identification register holds one of its three codes, the divisor 16 bits,
    the modem status never changes, and the line status says that data is there
    whenever the receive buffer is not empty; the buffer stays below two
    kilobytes.  If no piece of the input was empty, data is announced exactly
    when there is any; an empty piece, at the end of the input, is announced
    too. *)
Theorem serial_registers_typed evs : Forall serial_ev_ok evs -> regs_ok (Forall ev_nonempty evs) (serial_run Serial_new evs).
Proof. intros He. by apply run_regs_ok; [apply regs_new| |]. Qed.

(** The receive buffer is a queue: over any sequence of accesses and input,
    the bytes the guest reads from the data register are exactly the bytes
    that were accepted before, each once and in order, and the rest is still in
    the buffer; no other access takes or adds a byte. *)
Theorem serial_fifo d evs : rbr d ++ along queued d evs = along taken d evs ++ rbr (serial_run d evs).
Proof.
  revert d. induction evs as [|e evs IH]; intros d; cbn [along serial_run foldl]; [by rewrite app_nil_r|].
  rewrite app_assoc, step_queue, <-app_assoc, IH. by rewrite app_assoc.
Qed.

(** A loop back: 65 is written and read; then the input 66, 67. *)
Definition loop_evs : list serial_event :=
  [GuestWrite NoOutput 4 0x18; GuestWrite NoOutput 0 65; GuestRead 5; GuestRead 0; GuestWrite NoOutput 4 8; Receive [66; 67]; GuestRead 0].
Lemma serial_registers_typed_witness :
  regs_ok (Forall ev_nonempty loop_evs) (serial_run Serial_new loop_evs) /\ Forall ev_nonempty loop_evs /\
  lsr (state (serial_run Serial_new loop_evs)) = 0x61 /\ along taken Serial_new loop_evs = [65; 66].
Proof.
  split; [|split; [repeat constructor; discriminate|split; vm_compute; reflexivity]]. apply serial_registers_typed.
  repeat first [apply Forall_cons; split | apply Forall_nil]; try exact I; cbn [serial_ev_ok]; try (unfold inW; lia).
  split; [apply (bool_decide_unpack _); vm_compute; exact I|]. unfold remain_size, RECEIVER_BUFF_SIZE. simpl. lia.
Defined.

(** ** What goes wrong *)

(** At the end of the input an empty piece arrives: data is announced, and the
    guest reads a byte that nobody sent. *)
Example empty_input_announced :
  let d := receive [] Serial_new in lsr (state d) = 0x61 /\ rbr d = [] /\ (read_internal 0 d).2 = 0.
Proof. vm_compute. done. Qed.

(** A snapshot keeps the buffer when it is in one piece and fits. *)
Lemma serial_snapshot ex d d' : regs_ok ex d -> (length (rbr d) <= 1024)%nat ->
  exists s, get_state_vec (length (rbr d)) d = Ok s /\ exists d2, set_state_mut s d' = Ok d2 /\ rbr d2 = rbr d /\
    (forall off, (read_internal off d2).2 = (read_internal off d).2).
Proof.
  intros [_ _ _ _ _ _ _ _ _ Hs] Hl. unfold get_state_vec. rewrite firstn_all. destruct (Nat.ltb_spec 1024 (length (rbr d))); [lia|].
  eexists. split; [done|]. unfold set_state_mut. cbn [rbr_value rbr_len set_rbr]. rewrite length_app, length_drop, Hs.
  rewrite (proj2 (Z.ltb_ge _ _)) by lia. eexists. split; [done|]. rewrite Nat2Z.id, take_app_length. split; [done|].
  intros off. unfold read_internal. cbn [rbr state set_rbr lcr div ier iir mcr lsr msr scr].
  destruct off as [|p|p]; [|repeat (destruct p as [p|p|]; try done; try (destruct (has _ _); done))|done].
  destruct (has _ _); [done|]. by destruct (rbr d).
Qed.
(** Where the queue wraps around in its buffer, the second part is lost; and a
    buffer of more than 1024 bytes cannot be saved at all. *)
Example snapshot_loses_wrapped :
  let d := receive [1; 2; 3] Serial_new in
  exists s, get_state_vec 2 d = Ok s /\ exists d2, set_state_mut s d = Ok d2 /\ rbr d2 = [1; 2].
Proof. eexists. split; [vm_compute; reflexivity|]. eexists. split; vm_compute; reflexivity. Qed.
Example snapshot_of_long_buffer_panics :
  let d := receive (replicate 1024 7) (receive [1] Serial_new) in get_state_vec (length (rbr d)) d = Panic.
Proof. vm_compute. done. Qed.
