(* ===== verification/Pl011.v ===== *)
(** * The PL011 serial port ([devices/src/legacy/pl011.rs])

    A receive FIFO of sixteen entries as a ring, registers and the interrupt.
    [evts] counts the writes to the interrupt event fd; [out] says whether the
    character device has an output (its failures are only logged), [sent] what
    was written to it. *)
From stdpp Require Import prelude list.
From Stdlib Require Import ZArith Lia.
From S2P Require Import Prelude NumOps.

Definition PL011_FLAG_TXFE : Z := 0x80.
Definition PL011_FLAG_RXFF : Z := 0x40.
Definition PL011_FLAG_RXFE : Z := 0x10.
Definition INT_RT : Z := Z.shiftl 1 6.
Definition INT_TX : Z := Z.shiftl 1 5.
Definition INT_RX : Z := Z.shiftl 1 4.
Definition INT_E : Z := Z.lor (Z.lor (Z.lor (Z.shiftl 1 7) (Z.shiftl 1 8)) (Z.shiftl 1 9)) (Z.shiftl 1 10).
Definition INT_MS : Z := Z.lor (Z.lor (Z.lor 1 (Z.shiftl 1 1)) (Z.shiftl 1 2)) (Z.shiftl 1 3).
Definition PL011_FIFO_SIZE : Z := 16.

Record PL011State := mkPl {
  rfifo : list Z;
  flags : Z;
  lcr : Z;
  rsr : Z;
  cr : Z;
  dmacr : Z;
  ilpr : Z;
  ibrd : Z;
  fbrd : Z;
  ifl : Z;
  pl_id : list Z;
  read_pos : Z;
  read_count : Z;
  read_trigger : Z;
  int_level : Z;
  int_enabled : Z
}.
Definition PL011State_new : PL011State :=
  mkPl (replicate 16 0) (Z.lor PL011_FLAG_TXFE PL011_FLAG_RXFE) 0 0 0x300 0 0 0 0 0x12
    [0x11; 0x10; 0x14; 0x00; 0x0d; 0xf0; 0x05; 0xb1] 0 0 1 0 0.

Definition set_flags v s := mkPl (rfifo s) v (lcr s) (rsr s) (cr s) (dmacr s) (ilpr s) (ibrd s) (fbrd s) (ifl s) (pl_id s) (read_pos s) (read_count s) (read_trigger s) (int_level s) (int_enabled s).
Definition set_lcr v s := mkPl (rfifo s) (flags s) v (rsr s) (cr s) (dmacr s) (ilpr s) (ibrd s) (fbrd s) (ifl s) (pl_id s) (read_pos s) (read_count s) (read_trigger s) (int_level s) (int_enabled s).
Definition set_rsr v s := mkPl (rfifo s) (flags s) (lcr s) v (cr s) (dmacr s) (ilpr s) (ibrd s) (fbrd s) (ifl s) (pl_id s) (read_pos s) (read_count s) (read_trigger s) (int_level s) (int_enabled s).
Definition set_cr v s := mkPl (rfifo s) (flags s) (lcr s) (rsr s) v (dmacr s) (ilpr s) (ibrd s) (fbrd s) (ifl s) (pl_id s) (read_pos s) (read_count s) (read_trigger s) (int_level s) (int_enabled s).
Definition set_dmacr v s := mkPl (rfifo s) (flags s) (lcr s) (rsr s) (cr s) v (ilpr s) (ibrd s) (fbrd s) (ifl s) (pl_id s) (read_pos s) (read_count s) (read_trigger s) (int_level s) (int_enabled s).
Definition set_baud il ib fb s := mkPl (rfifo s) (flags s) (lcr s) (rsr s) (cr s) (dmacr s) il ib fb (ifl s) (pl_id s) (read_pos s) (read_count s) (read_trigger s) (int_level s) (int_enabled s).
Definition set_ifl v s := mkPl (rfifo s) (flags s) (lcr s) (rsr s) (cr s) (dmacr s) (ilpr s) (ibrd s) (fbrd s) v (pl_id s) (read_pos s) (read_count s) (read_trigger s) (int_level s) (int_enabled s).
Definition set_fifo q pos n s := mkPl q (flags s) (lcr s) (rsr s) (cr s) (dmacr s) (ilpr s) (ibrd s) (fbrd s) (ifl s) (pl_id s) pos n (read_trigger s) (int_level s) (int_enabled s).
Definition set_trigger v s := mkPl (rfifo s) (flags s) (lcr s) (rsr s) (cr s) (dmacr s) (ilpr s) (ibrd s) (fbrd s) (ifl s) (pl_id s) (read_pos s) (read_count s) v (int_level s) (int_enabled s).
Definition set_int lv en s := mkPl (rfifo s) (flags s) (lcr s) (rsr s) (cr s) (dmacr s) (ilpr s) (ibrd s) (fbrd s) (ifl s) (pl_id s) (read_pos s) (read_count s) (read_trigger s) lv en.

Record PL011 := mkPL011 { state : PL011State; evts : Z; sent : list Z }.
Definition PL011_new : PL011 := mkPL011 PL011State_new 0 [].
Definition upd (g : PL011State -> PL011State) (d : PL011) : PL011 := mkPL011 (g (state d)) (evts d) (sent d).

Definition interrupt (d : PL011) : PL011 :=
  let irq_mask := Z.lor (Z.lor (Z.lor (Z.lor INT_E INT_MS) INT_RT) INT_TX) INT_RX in
  let flag := Z.land (int_level (state d)) (int_enabled (state d)) in
  if negb (Z.land flag irq_mask =? 0) then mkPL011 (state d) (evts d + 1) (sent d) else d.

(** The loop of [receive]: one entry after the other. *)
Fixpoint push_bytes (data : list Z) (s : PL011State) : res unit PL011State :=
  match data with
  | [] => Ok s
  | val :: data =>
    let slot := wadd 32 (read_pos s) (read_count s) in
    let slot := if PL011_FIFO_SIZE <=? slot then slot - PL011_FIFO_SIZE else slot in
    if PL011_FIFO_SIZE <=? slot then Panic
    else push_bytes data (set_fifo (<[Z.to_nat slot := val]> (rfifo s)) (read_pos s) (wadd 32 (read_count s) 1) s)
  end.
Definition receive (data : list Z) (d : PL011) : res unit PL011 :=
  s ← push_bytes data (set_flags (Z.land (flags (state d)) (wnot 8 PL011_FLAG_RXFE)) (state d));
  let s := if (Z.land (lcr s) 0x10 =? 0) || (read_count s =? PL011_FIFO_SIZE)
           then set_flags (Z.lor (flags s) PL011_FLAG_RXFF) s else s in
  let d := mkPL011 s (evts d) (sent d) in
  Ok (if read_trigger s <=? read_count s
      then interrupt (upd (fun s => set_int (Z.lor (int_level s) INT_RX) (int_enabled s) s) d) else d).
Definition remain_size (d : PL011) : Z := PL011_FIFO_SIZE - read_count (state d).

(** The data register. *)
Definition read_dr (d : PL011) : res unit (PL011 * Z) :=
  let s := set_flags (Z.land (flags (state d)) (wnot 32 PL011_FLAG_RXFF)) (state d) in
  c ← unwrap (rfifo s !! Z.to_nat (read_pos s));
  let s := if 0 <? read_count s
           then let pos := wadd 32 (read_pos s) 1 in
                set_fifo (rfifo s) (if pos =? PL011_FIFO_SIZE then 0 else pos) (read_count s - 1) s
           else s in
  let s := if read_count s =? 0 then set_flags (Z.lor (flags s) PL011_FLAG_RXFE) s else s in
  let s := if read_count s =? wsub 32 (read_trigger s) 1 then set_int (Z.land (int_level s) (wnot 32 INT_RX)) (int_enabled s) s else s in
  Ok (interrupt (mkPL011 (set_rsr (Z.shiftr c 8) s) (evts d) (sent d)), c).

(** The value of a register; [None] for an offset without one. *)
Definition read_reg (offset : Z) (d : PL011) : res unit (PL011 * option Z) :=
  let s := state d in
  let r := Z.shiftr offset 2 in
  if r =? 0 then '(d, c) ← read_dr d; Ok (d, Some c)
  else if (0x3f8 <=? r) && (r <=? 0x400) then
    v ← unwrap (pl_id s !! Z.to_nat (Z.shiftr (wsub 64 offset 0xfe0) 2)); Ok (d, Some v)
  else Ok (d, match r with
    | 1 => Some (rsr s)
    | 6 => Some (flags s)
    | 8 => Some (ilpr s)
    | 9 => Some (ibrd s)
    | 10 => Some (fbrd s)
    | 11 => Some (lcr s)
    | 12 => Some (cr s)
    | 13 => Some (ifl s)
    | 14 => Some (int_enabled s)
    | 15 => Some (int_level s)
    | 16 => Some (Z.land (int_level s) (int_enabled s))
    | 18 => Some (dmacr s)
    | _ => None
    end).
Definition read (data : list Z) (offset : Z) (d : PL011) : res unit (PL011 * bool * list Z) :=
  if (4 <? length data)%nat then Ok (d, false, data)
  else
    '(d, ret) ← read_reg offset d;
    match ret with
    | Some ret => Ok (d, true, take (length data) (le_bytes 4 ret))
    | None => Ok (d, false, data)
    end.

(** The result is false for a value of another length, a missing output and an
    offset without a register. *)
Definition write (out : bool) (data : list Z) (offset : Z) (d : PL011) : PL011 * bool :=
  match read_data_u32 data with
  | None => (d, false)
  | Some value =>
    let s := state d in
    match Z.shiftr offset 2 with
    | 0 =>
      if out
      then (interrupt (mkPL011 (set_int (Z.lor (int_level s) INT_TX) (int_enabled s) s) (evts d) (sent d ++ [wrap 8 value])), true)
      else (d, false)
    | 1 => (upd (set_rsr 0) d, true)
    | 8 => (upd (set_baud value (ibrd s) (fbrd s)) d, true)
    | 9 => (upd (set_baud (ilpr s) value (fbrd s)) d, true)
    | 10 => (upd (set_baud (ilpr s) (ibrd s) value) d, true)
    | 11 =>
      let s := if negb (Z.land (Z.lxor (lcr s) value) 0x10 =? 0) then set_fifo (rfifo s) 0 0 s else s in
      (mkPL011 (set_trigger 1 (set_lcr value s)) (evts d) (sent d), true)
    | 12 => (upd (set_cr value) d, true)
    | 13 => (upd (fun s => set_trigger 1 (set_ifl value s)) d, true)
    | 14 => (interrupt (upd (set_int (int_level s) value) d), true)
    | 17 => (interrupt (upd (set_int (Z.land (int_level s) (wnot 32 value)) (int_enabled s)) d), true)
    | 18 => (upd (set_dmacr value) d, true)
    | _ => (d, false)
    end
  end.

(** [get_state_vec] and [set_state_mut] copy the state. *)
Definition get_state_vec (d : PL011) : PL011State := state d.
Definition set_state_mut (s : PL011State) (d : PL011) : PL011 := mkPL011 s (evts d) (sent d).

(** ** The FIFO *)

(** The entries of the ring, oldest first. *)
Definition fifo (s : PL011State) : list Z :=
  ztab (fun i => nth (Z.to_nat ((read_pos s + i) `mod` 16)) (rfifo s) 0) 0 (Z.to_nat (read_count s)).

Record ring_ok (s : PL011State) : Prop := mkRing {
  rg_len : length (rfifo s) = 16%nat;
  rg_pos : 0 <= read_pos s < 16;
  rg_count : 0 <= read_count s <= 16;
  rg_trigger : read_trigger s = 1;
  rg_id : length (pl_id s) = 8%nat;
  (** An entry is never hidden by the flag of the empty FIFO. *)
  rg_flag : 0 < read_count s -> Z.testbit (flags s) 4 = false
}.

Lemma fifo_length s : ring_ok s -> length (fifo s) = Z.to_nat (read_count s).
Proof. intros _. apply ztab_length. Qed.
Lemma fifo_nil s : ring_ok s -> fifo s = [] <-> read_count s = 0.
Proof.
  intros Hr. rewrite <-length_zero_iff_nil, fifo_length by done. pose proof (rg_count _ Hr). lia.
Qed.

Lemma slot_mod p n : 0 <= p < 16 -> 0 <= n < 16 ->
  (let slot := wadd 32 p n in if PL011_FIFO_SIZE <=? slot then slot - PL011_FIFO_SIZE else slot) = (p + n) `mod` 16.
Proof.
  intros Hp Hn. cbv zeta. rewrite wadd_small by (unfold inW; lia). unfold PL011_FIFO_SIZE. destruct (Z.leb_spec 16 (p + n)).
  - apply (Z.mod_unique _ _ 1); lia.
  - symmetry. apply Z.mod_small. lia.
Qed.
Lemma mod16_inj p i j : 0 <= i < 16 -> 0 <= j < 16 -> (p + i) `mod` 16 = (p + j) `mod` 16 -> i = j.
Proof.
  intros Hi Hj E. pose proof (Z.div_mod (p + i) 16 ltac:(lia)). pose proof (Z.div_mod (p + j) 16 ltac:(lia)). lia.
Qed.

(** One more entry. *)
Lemma push_fifo s v : ring_ok s -> read_count s < 16 -> Z.testbit (flags s) 4 = false ->
  let s' := set_fifo (<[Z.to_nat ((read_pos s + read_count s) `mod` 16) := v]> (rfifo s)) (read_pos s) (read_count s + 1) s in
  ring_ok s' /\ fifo s' = fifo s ++ [v].
Proof.
  intros [Hl Hp Hc Ht Hi _] Hlt Hf s'. pose proof (Z.mod_pos_bound (read_pos s + read_count s) 16 ltac:(lia)) as Hm.
  assert (ring_ok s') as Hr by (constructor; try done; cbn; [by rewrite length_insert|lia]). split; [done|].
  apply list_eq. intros i. destruct (decide (i < Z.to_nat (read_count s + 1))%nat) as [Hlti|Hge].
  2:{ rewrite !lookup_ge_None_2; [done|rewrite length_app; unfold fifo; rewrite ztab_length; simpl; lia|rewrite fifo_length by done; cbn; lia]. }
  unfold fifo at 1. rewrite ztab_lookup by done. cbn [s' set_fifo rfifo read_pos read_count].
  pose proof (Z.mod_pos_bound (read_pos s + Z.of_nat i) 16 ltac:(lia)) as Hmi. replace (0 + Z.of_nat i) with (Z.of_nat i) by lia.
  destruct (decide (i = Z.to_nat (read_count s))) as [->|Hne].
  - rewrite Z2Nat.id by lia. rewrite lookup_app_r by (unfold fifo; rewrite ztab_length; lia). unfold fifo. rewrite ztab_length, Nat.sub_diag.
    cbn [lookup list_lookup]. f_equal. apply nth_lookup_Some. apply list_lookup_insert_eq. lia.
  - rewrite lookup_app_l by (unfold fifo; rewrite ztab_length; lia). unfold fifo. rewrite ztab_lookup by lia. f_equal.
    replace (0 + Z.of_nat i) with (Z.of_nat i) by lia. rewrite !nth_lookup, list_lookup_insert_ne; [done|]. intros E. apply Hne.
    assert (Z.of_nat i = read_count s); [|lia]. apply (mod16_inj (read_pos s)); lia.
Qed.

Lemma push_bytes_spec data s : ring_ok s -> Z.of_nat (length data) <= 16 - read_count s -> Z.testbit (flags s) 4 = false ->
  exists q, let s' := set_fifo q (read_pos s) (read_count s + Z.of_nat (length data)) s in
    push_bytes data s = Ok s' /\ ring_ok s' /\ fifo s' = fifo s ++ data.
Proof.
  revert s. induction data as [|v data IH]; intros s Hr Hl Hf.
  { exists (rfifo s). cbn [push_bytes length]. rewrite Z.add_0_r. assert (set_fifo (rfifo s) (read_pos s) (read_count s) s = s) as -> by by destruct s.
    by rewrite app_nil_r. }
  cbn [push_bytes length] in *. pose proof Hr as [Hlen Hp Hc _ _ _].
  pose proof (slot_mod (read_pos s) (read_count s) Hp ltac:(lia)) as Hs. cbv zeta in Hs. rewrite Hs.
  pose proof (Z.mod_pos_bound (read_pos s + read_count s) 16 ltac:(lia)) as Hm. unfold PL011_FIFO_SIZE at 1. rewrite (proj2 (Z.leb_gt _ _)) by lia.
  rewrite wadd_small by (unfold inW; lia). destruct (push_fifo s v Hr ltac:(lia) Hf) as [Hr1 Hf1].
  destruct (IH _ Hr1) as (q & -> & Hr2 & Hf2); [cbn; lia|done|]. exists q. cbn [set_fifo read_pos read_count] in *.
  replace (read_count s + Z.of_nat (S (length data))) with (read_count s + 1 + Z.of_nat (length data)) by lia.
  split_and!; [done|done|]. change (fifo (set_fifo q (read_pos s) (read_count s + 1 + Z.of_nat (length data)) s) = fifo s ++ v :: data).
  rewrite Hf1, <-app_assoc in Hf2. exact Hf2.
Qed.

Lemma interrupt_state d : state (interrupt d) = state d.
Proof. unfold interrupt. by destruct (negb _). Qed.

Lemma flags_bit4 f : Z.testbit (Z.land f (wnot 8 PL011_FLAG_RXFE)) 4 = false /\ Z.testbit (Z.lor (Z.land f (wnot 8 PL011_FLAG_RXFE)) PL011_FLAG_RXFF) 4 = false /\
  Z.testbit (Z.land f (wnot 32 PL011_FLAG_RXFF)) 4 = Z.testbit f 4.
Proof. split_and!; rewrite ?Z.lor_spec, ?Z.land_spec; change (Z.testbit (wnot 8 PL011_FLAG_RXFE) 4) with false;
  change (Z.testbit (wnot 32 PL011_FLAG_RXFF) 4) with true; change (Z.testbit PL011_FLAG_RXFF 4) with false; by destruct (Z.testbit f 4). Qed.

Lemma receive_spec data d : ring_ok (state d) -> Z.of_nat (length data) <= remain_size d ->
  exists d', receive data d = Ok d' /\ ring_ok (state d') /\ fifo (state d') = fifo (state d) ++ data /\ lcr (state d') = lcr (state d).
Proof.
  intros Hr Hl. unfold remain_size, PL011_FIFO_SIZE in Hl. destruct (flags_bit4 (flags (state d))) as (F1 & F2 & _).
  set (s0 := set_flags (Z.land (flags (state d)) (wnot 8 PL011_FLAG_RXFE)) (state d)).
  assert (ring_ok s0) as Hr0 by (destruct Hr; constructor; done).
  destruct (push_bytes_spec data s0 Hr0 ltac:(done) F1) as (q & Hp & Hr1 & Hf1). unfold receive. fold s0. rewrite Hp. cbn [mbind res_bind].
  eexists. split; [done|]. set (s1 := set_fifo q _ _ s0) in *. set (s2 := if _ || _ then _ else s1).
  assert (ring_ok s2 /\ fifo s2 = fifo s1 /\ lcr s2 = lcr (state d)) as (R1 & R2 & R3).
  { subst s2. destruct (_ || _); [|done]. destruct Hr1. split_and!; done. }
  destruct (read_trigger s2 <=? read_count s2).
  - rewrite interrupt_state. cbn [upd state]. split_and!; [destruct R1; constructor; done| |done].
    change (fifo s2 = fifo (state d) ++ data). by rewrite R2, Hf1.
  - cbn [state]. split_and!; [done| |done]. by rewrite R2, Hf1.
Qed.

(** The oldest entry, or what its slot holds when there is none. *)
Lemma read_dr_spec d : ring_ok (state d) ->
  exists d' c, read_dr d = Ok (d', c) /\ ring_ok (state d') /\ fifo (state d') = tail (fifo (state d)) /\
    (forall c0, head (fifo (state d)) = Some c0 -> c = c0) /\ lcr (state d') = lcr (state d).
Proof.
  intros Hr. pose proof Hr as [Hl Hp Hc Ht Hi Hf]. destruct (flags_bit4 (flags (state d))) as (_ & _ & F3). unfold read_dr.
  set (s0 := set_flags _ (state d)). destruct (lookup_lt_is_Some_2 (rfifo (state d)) (Z.to_nat (read_pos (state d)))) as [c Hcc]; [lia|].
  change (rfifo s0 !! Z.to_nat (read_pos s0)) with (rfifo (state d) !! Z.to_nat (read_pos (state d))). rewrite Hcc. cbn [unwrap mbind res_bind].
  set (s1 := if 0 <? read_count s0 then _ else s0). set (s2 := if read_count s1 =? 0 then _ else s1). set (s3 := if read_count s2 =? _ then _ else s2).
  assert (ring_ok s1 /\ fifo s1 = tail (fifo (state d)) /\ lcr s1 = lcr (state d) /\ (forall c0, head (fifo (state d)) = Some c0 -> c = c0))
    as (R1 & R2 & R3 & R4).
  { subst s1. change (read_count s0) with (read_count (state d)). change (read_pos s0) with (read_pos (state d)). change (rfifo s0) with (rfifo (state d)).
    destruct (Z.ltb_spec 0 (read_count (state d))) as [Hpos|Hz].
    - rewrite wadd_small by (unfold inW; lia). set (pos := if _ =? _ then 0 else _).
      assert (pos = (read_pos (state d) + 1) `mod` 16) as Epos.
      { subst pos. unfold PL011_FIFO_SIZE. destruct (Z.eqb_spec (read_pos (state d) + 1) 16) as [->|]; [done|]. symmetry. apply Z.mod_small. lia. }
      pose proof (Z.mod_pos_bound (read_pos (state d) + 1) 16 ltac:(lia)). split; [|split; [|split; [done|]]].
      + constructor; cbn [set_fifo rfifo read_pos read_count read_trigger pl_id flags s0 set_flags]; try done; [lia|lia|]. intros _. rewrite F3. by apply Hf.
      + unfold fifo. cbn [set_fifo rfifo read_pos read_count]. replace (Z.to_nat (read_count (state d))) with (S (Z.to_nat (read_count (state d) - 1))) by lia.
        change (S ?n) with (1 + n)%nat. rewrite ztab_app. cbn [app tail]. change (tail (ztab ?f 0 1 ++ ?l)) with l.
        apply ztab_ext. intros j Hj. f_equal. f_equal. rewrite Epos. rewrite Zplus_mod_idemp_l. f_equal. lia.
      + unfold fifo. replace (Z.to_nat (read_count (state d))) with (S (Z.to_nat (read_count (state d) - 1))) by lia.
        change (S ?n) with (1 + n)%nat. rewrite ztab_app. intros c0 [= <-]. rewrite Z.add_0_r, Z.mod_small by lia. by erewrite nth_lookup_Some.
    - assert (fifo (state d) = []) as E by (apply fifo_nil; [done|lia]). change (fifo s0) with (fifo (state d)). rewrite E.
      split_and!; try done. constructor; try done. cbn. lia. }
  assert (ring_ok s2 /\ fifo s2 = fifo s1 /\ lcr s2 = lcr s1) as (Q1 & Q2 & Q3).
  { subst s2. destruct (Z.eqb_spec (read_count s1) 0) as [Hz|]; [|done]. destruct R1. split_and!; try done. constructor; try done. cbn. lia. }
  assert (ring_ok s3 /\ fifo s3 = fifo s2 /\ lcr s3 = lcr s2) as (T1 & T2 & T3).
  { subst s3. destruct (read_count s2 =? _); [|done]. destruct Q1. split_and!; done. }
  eexists _, c. split; [done|]. rewrite interrupt_state. cbn [state]. split_and!.
  - destruct T1. constructor; done.
  - change (fifo s3 = tail (fifo (state d))). by rewrite T2, Q2, R2.
  - done.
  - cbn. congruence.
Qed.

(** ** Refinement of a queue *)

(** Input of the character device, in pieces of at most [remain_size], and
    accesses of the guest. *)
Inductive pl_event :=
| Receive (data : list Z)
| GuestRead (data : list Z) (offset : Z)
| GuestWrite (out : bool) (data : list Z) (offset : Z).
Definition pl_step (d : PL011) (e : pl_event) : res unit (PL011 * list Z) :=
  match e with
  | Receive data => d ← receive data d; Ok (d, [])
  | GuestRead data offset => '(d, _, data) ← read data offset d; Ok (d, data)
  | GuestWrite out data offset => Ok ((write out data offset d).1, [])
  end.

(** The specification: a queue and the FIFO bit of the line control register.
    A step may take off the oldest entry. *)
Record spec := mkSpec { queue : list Z; mode : Z }.
Definition spec_step (q : spec) (e : pl_event) : spec * option Z :=
  match e with
  | Receive data => (mkSpec (queue q ++ data) (mode q), None)
  | GuestRead data offset =>
    if (Z.shiftr offset 2 =? 0) && (length data <=? 4)%nat then (mkSpec (tail (queue q)) (mode q), head (queue q)) else (q, None)
  | GuestWrite _ data offset =>
    match read_data_u32 data with
    | Some value =>
      if Z.shiftr offset 2 =? 11
      then (mkSpec (if Z.land value 0x10 =? mode q then queue q else []) (Z.land value 0x10), None) else (q, None)
    | None => (q, None)
    end
  end.
Definition abs (d : PL011) : spec := mkSpec (fifo (state d)) (Z.land (lcr (state d)) 0x10).

Definition pl_ev_ok (d : PL011) (e : pl_event) : Prop :=
  match e with
  | Receive data => Z.of_nat (length data) <= remain_size d
  | GuestRead _ offset | GuestWrite _ _ offset => 0 <= offset < 0x1000
  end.

Lemma lxor_bit a b : Z.land (Z.lxor a b) 0x10 = 0 <-> Z.land b 0x10 = Z.land a 0x10.
Proof.
  split; intros E.
  - apply Z.bits_inj'. intros n Hn. apply (f_equal (fun z => Z.testbit z n)) in E. rewrite Z.bits_0, !Z.land_spec, Z.lxor_spec in *.
    destruct (Z.testbit a n), (Z.testbit b n), (Z.testbit 0x10 n); done.
  - apply Z.bits_inj'. intros n Hn. apply (f_equal (fun z => Z.testbit z n)) in E. rewrite Z.bits_0, !Z.land_spec, Z.lxor_spec in *.
    destruct (Z.testbit a n), (Z.testbit b n), (Z.testbit 0x10 n); done.
Qed.

Lemma write_spec out data offset d : ring_ok (state d) ->
  ring_ok (state (write out data offset d).1) /\ abs (write out data offset d).1 = (spec_step (abs d) (GuestWrite out data offset)).1.
Proof.
  intros Hr. unfold write. cbn [spec_step]. destruct (read_data_u32 data) as [value|]; [|done].
  destruct (Z.eqb_spec (Z.shiftr offset 2) 11) as [E|Hne].
  - rewrite E. cbn [fst]. destruct (Z.eqb_spec (Z.land (Z.lxor (lcr (state d)) value) 0x10) 0) as [Ex|Ex]; cbn [negb].
    + apply lxor_bit in Ex as Ev. split; [destruct Hr; constructor; done|]. unfold abs. cbn [mode state queue]. by rewrite (proj2 (Z.eqb_eq _ _) Ev).
    + assert (Z.land value 0x10 <> Z.land (lcr (state d)) 0x10) as Ev by (by rewrite <-lxor_bit).
      split; [destruct Hr; constructor; try done; cbn; lia|]. unfold abs. cbn [mode state queue]. by rewrite (proj2 (Z.eqb_neq _ _) Ev).
  - assert (forall s, ring_ok s -> fifo s = fifo (state d) -> lcr s = lcr (state d) -> ring_ok s /\ mkSpec (fifo s) (Z.land (lcr s) 0x10) = abs d) as Hk.
    { intros s H1 H2 H3. split; [done|]. unfold abs. by rewrite H2, H3. }
    unfold abs at 1. destruct (Z.shiftr offset 2) as [|p|p]; cbn [fst]; [destruct out| |]; cbn [fst]; rewrite ?interrupt_state; try (apply Hk; [|done..]; destruct Hr; constructor; done).
    repeat (destruct p as [p|p|]; cbn [fst]; rewrite ?interrupt_state; try (apply Hk; [|done..]; destruct Hr; constructor; done)).
Qed.

Lemma read_spec data offset d : ring_ok (state d) -> 0 <= offset < 0x1000 ->
  exists d' b data', read data offset d = Ok (d', b, data') /\ ring_ok (state d') /\
    abs d' = (spec_step (abs d) (GuestRead data offset)).1 /\
    (forall c, (spec_step (abs d) (GuestRead data offset)).2 = Some c -> b = true /\ data' = take (length data) (le_bytes 4 c)).
Proof.
  intros Hr Ho. unfold read. cbn [spec_step]. destruct (Nat.ltb_spec 4 (length data)) as [Hl|Hl].
  { rewrite (proj2 (Nat.leb_gt _ _)), andb_false_r by lia. by eexists _, _, _. }
  rewrite (proj2 (Nat.leb_le _ _)), andb_true_r by lia. unfold read_reg. destruct (Z.eqb_spec (Z.shiftr offset 2) 0) as [E0|E0].
  - destruct (read_dr_spec d Hr) as (d' & c & -> & Hr' & Hf & Hc & El). cbn [mbind res_bind]. eexists _, _, _. split; [done|].
    cbn [fst snd]. unfold abs. rewrite Hf, El. split_and!; try done. intros c0 Hc0. cbn [queue] in Hc0. by rewrite (Hc c0).
  - rewrite Z.shiftr_div_pow2 in * by lia. change (2 ^ 2) with 4 in *.
    destruct (Z.leb_spec 0x3f8 (offset / 4)) as [H1|H1]; cbn [andb].
    + assert (offset / 4 < 0x400) by (apply Z.div_lt_upper_bound; lia). rewrite (proj2 (Z.leb_le _ 0x400)) by lia. cbn [mbind res_bind].
      assert (0xfe0 <= offset) by (pose proof (Z.div_mod offset 4 ltac:(lia)); pose proof (Z.mod_pos_bound offset 4 ltac:(lia)); lia).
      rewrite wsub_small by (unfold inW; lia). rewrite Z.shiftr_div_pow2 by lia. change (2 ^ 2) with 4.
      assert (0 <= (offset - 0xfe0) / 4 < 8) by (split; [apply Z.div_pos; lia|apply Z.div_lt_upper_bound; lia]).
      destruct (lookup_lt_is_Some_2 (pl_id (state d)) (Z.to_nat ((offset - 0xfe0) / 4))) as [v ->]; [rewrite (rg_id _ Hr); lia|].
      cbn [unwrap mbind res_bind]. by eexists _, _, _.
    + cbn [mbind res_bind]. match goal with |- context [match ?o with Some _ => _ | None => _ end] => destruct o end; by eexists _, _, _.
Qed.

Lemma step_spec d e : ring_ok (state d) -> pl_ev_ok d e ->
  exists d' data, pl_step d e = Ok (d', data) /\ ring_ok (state d') /\ abs d' = (spec_step (abs d) e).1 /\
    forall c, (spec_step (abs d) e).2 = Some c -> exists n, data = take n (le_bytes 4 c).
Proof.
  intros Hr He. destruct e as [data|data offset|out data offset]; cbn [pl_step pl_ev_ok] in *.
  - destruct (receive_spec data d Hr He) as (d' & -> & Hr' & Hf & El). cbn [mbind res_bind]. eexists _, _. split; [done|].
    split_and!; try done. unfold abs. cbn [spec_step fst queue mode]. by rewrite Hf, El.
  - destruct (read_spec data offset d Hr He) as (d' & b & data' & -> & Hr' & Ha & Hc). cbn [mbind res_bind]. eexists _, _. split; [done|].
    split_and!; try done. intros c Hs. destruct (Hc c Hs) as [_ ->]. eauto.
  - destruct (write_spec out data offset d Hr) as [Hr' Ha]. eexists _, _. split; [done|]. split_and!; try done.
    intros c. cbn [spec_step]. destruct (read_data_u32 data); [|done]. by destruct (_ =? 11).
Qed.

(** A run of the device, with the data each step gives. *)
Inductive pl_run : PL011 -> list (pl_event * list Z) -> PL011 -> Prop :=
| pl_run_nil d : pl_run d [] d
| pl_run_cons d e data d1 tr d2 :
    pl_ev_ok d e -> pl_step d e = Ok (d1, data) -> pl_run d1 tr d2 -> pl_run d ((e, data) :: tr) d2.
(** The run of the specification gives the same data where it takes off an
    entry. *)
Fixpoint spec_run (q : spec) (tr : list (pl_event * list Z)) (q' : spec) : Prop :=
  match tr with
  | [] => q' = q
  | (e, data) :: tr =>
    (forall c, (spec_step q e).2 = Some c -> exists n, data = take n (le_bytes 4 c)) /\ spec_run (spec_step q e).1 tr q'
  end.

Lemma ring_new : ring_ok PL011State_new.
Proof. by constructor. Qed.
Lemma run_refines d tr d' : ring_ok (state d) -> pl_run d tr d' -> ring_ok (state d') /\ spec_run (abs d) tr (abs d').
Proof.
  intros Hr Hrun. induction Hrun as [d|d e data d1 tr d2 He Hs Hrun IH]; [done|].
  destruct (step_spec d e Hr He) as (d1' & data' & Hs' & Hr' & Ha & Hc). rewrite Hs in Hs'. injection Hs' as <- <-.
  destruct (IH Hr') as [H1 H2]. split; [done|]. cbn [spec_run]. split; [done|]. by rewrite <-Ha.
Qed.

(** C22: The receive ring of the PL011 is a queue of at most sixteen bytes:
    over any run of input (in the pieces the character device may pass) and
    accesses of the guest to its page, no access panics, the guest reads the
    bytes received in order, each once, only a change of the FIFO bit drops
    what is queued, and the flag of the empty FIFO is never set while an entry
    waits. *)
Theorem pl011_refines_queue tr d :
  pl_run PL011_new tr d ->
  spec_run (mkSpec [] 0) tr (abs d) /\ Z.of_nat (length (queue (abs d))) <= 16 /\
  (queue (abs d) <> [] -> Z.testbit (flags (state d)) 4 = false) /\
  (forall e, pl_ev_ok d e -> exists d' data, pl_step d e = Ok (d', data)).
Proof.
  intros Hrun. destruct (run_refines PL011_new _ _ ring_new Hrun) as [Hr Hs]. split; [done|]. split; [|split].
  - cbn [abs queue]. rewrite fifo_length by done. pose proof (rg_count _ Hr). lia.
  - cbn [abs queue]. intros Hne. apply (rg_flag _ Hr). destruct (decide (read_count (state d) = 0)) as [E|]; [|pose proof (rg_count _ Hr); lia].
    destruct Hne. by apply fifo_nil.
  - intros e He. destruct (step_spec d e Hr He) as (d' & data & Hs' & _). eauto.
Qed.

Definition pl_trace : list (pl_event * list Z) :=
  [(Receive [65; 66], []); (GuestRead [0] 0x18, [0xc0]); (GuestRead [0; 0; 0; 0] 0, [65; 0; 0; 0]); (GuestWrite true [0x41] 0, []); (GuestRead [9] 0, [66])].
Lemma pl011_refines_queue_witness :
  exists d, pl_run PL011_new pl_trace d /\ spec_run (mkSpec [] 0) pl_trace (mkSpec [] 0) /\ sent d = [0x41].
Proof.
  assert (exists d, pl_run PL011_new pl_trace d /\ abs d = mkSpec [] 0 /\ sent d = [0x41]) as (d & Hrun & Ha & Hs).
  { eexists. split; [|split].
    - unfold pl_trace. repeat (eapply pl_run_cons; [vm_compute; intuition discriminate|vm_compute; reflexivity|]). apply pl_run_nil.
    - vm_compute. reflexivity.
    - vm_compute. reflexivity. }
  exists d. split; [exact Hrun|]. split; [|exact Hs]. rewrite <-Ha at 2. exact (proj1 (pl011_refines_queue pl_trace d Hrun)).
Defined.

(** A change of the mode empties the FIFO but not the flag: the guest is told
    that there is data, and reads the byte of an old one.  So does an empty piece
    of input. *)
Example mode_change_keeps_flag :
  match receive [65] PL011_new with
  | Ok d => let d := (write true [0x10] 0x2c d).1 in
    fifo (state d) = [] /\ Z.testbit (flags (state d)) 4 = false /\ match read_dr d with Ok (_, c) => c = 65 | _ => False end
  | _ => False
  end.
Proof. vm_compute. done. Qed.
