(* ===== verification/Rtc.v ===== *)
(** * The CMOS clock ([devices/src/legacy/rtc.rs], [util/src/time.rs])

    The real-time clock of the PC and the date arithmetic below it.  The host's clock is
    an argument: [now] is an instant in nanoseconds.  [libc::gmtime_r] is the
    parameter [gmtime]; [gmtime_ref] is an instance of it. *)
From stdpp Require Import prelude list.
From Stdlib Require Import ZArith Lia.
From S2P Require Import Prelude LeakBucket.

(** ** Dates *)

(** The parts of the source are [u64]; sums and products wrap at the end, which
    is the same as wrapping at every step. *)
Definition mktime64 (year mon day hour min sec : Z) : Z :=
  let '(y, m) := if mon <=? 2 then (wsub 64 year 1, mon + 10) else (year, mon - 2) in
  wrap 64 (((((y / 4 - y / 100 + y / 400 + 367 * m / 12 + day) + y * 365 - 719499) * 24 + hour) * 60 + min) * 60 + sec).

Definition leap (y : Z) : bool := (y `mod` 4 =? 0) && (negb (y `mod` 100 =? 0) || (y `mod` 400 =? 0)).
Definition days_in_month (y m : Z) : Z :=
  if m =? 2 then (if leap y then 29 else 28) else if existsb (Z.eqb m) [4; 6; 9; 11] then 30 else 31.
Definition date : Type := Z * Z * Z.
Definition next_day (dt : date) : date :=
  let '(y, m, d) := dt in
  if d <? days_in_month y m then (y, m, d + 1) else if m <? 12 then (y, m + 1, 1) else (y + 1, 1, 1).
Definition date_ok (dt : date) : Prop :=
  let '(y, m, d) := dt in 1970 <= y < 2 ^ 32 /\ 1 <= m <= 12 /\ 1 <= d <= days_in_month y m.

(** The days before a month, counted from the epoch. *)
Definition month_start (y m : Z) : Z :=
  let '(y, m) := if m <=? 2 then (y - 1, m + 10) else (y, m - 2) in
  y / 4 - y / 100 + y / 400 + 367 * m / 12 + y * 365 - 719498.

Lemma days_in_month_bounds y m : 28 <= days_in_month y m <= 31.
Proof. unfold days_in_month. destruct (m =? 2); [destruct (leap y); lia|]. destruct (existsb _ _); lia. Qed.

Lemma div_pred y k : 0 < k -> y / k - (y - 1) / k = if y `mod` k =? 0 then 1 else 0.
Proof.
  intros Hk. pose proof (Z.div_mod y k ltac:(lia)) as E. pose proof (Z.mod_pos_bound y k Hk) as Hm. destruct (Z.eqb_spec (y `mod` k) 0) as [Hz|Hz].
  - assert ((y - 1) / k = y / k - 1); [|lia]. symmetry. apply (Z.div_unique _ _ _ (k - 1)); lia.
  - assert ((y - 1) / k = y / k); [|lia]. symmetry. apply (Z.div_unique _ _ _ (y `mod` k - 1)); lia.
Qed.
(** Leap years, as the division rule of [mktime64] counts them. *)
Lemma leap_days y : y / 4 - y / 100 + y / 400 - ((y - 1) / 4 - (y - 1) / 100 + (y - 1) / 400) = if leap y then 1 else 0.
Proof.
  pose proof (div_pred y 4 ltac:(lia)) as H4. pose proof (div_pred y 100 ltac:(lia)) as H100. pose proof (div_pred y 400 ltac:(lia)) as H400.
  pose proof (Z.div_mod y 4 ltac:(lia)). pose proof (Z.div_mod y 100 ltac:(lia)). pose proof (Z.div_mod y 400 ltac:(lia)).
  pose proof (Z.mod_pos_bound y 4 ltac:(lia)). pose proof (Z.mod_pos_bound y 100 ltac:(lia)). pose proof (Z.mod_pos_bound y 400 ltac:(lia)).
  unfold leap. destruct (Z.eqb_spec (y `mod` 4) 0), (Z.eqb_spec (y `mod` 100) 0), (Z.eqb_spec (y `mod` 400) 0); cbn [andb orb negb]; lia.
Qed.

Lemma month_step y m : 1 <= m <= 12 ->
  month_start (if m <? 12 then y else y + 1) (if m <? 12 then m + 1 else 1) = month_start y m + days_in_month y m.
Proof.
  intros Hm. pose proof (leap_days y) as Hl. unfold month_start, days_in_month.
  assert (m = 1 \/ m = 2 \/ m = 3 \/ m = 4 \/ m = 5 \/ m = 6 \/ m = 7 \/ m = 8 \/ m = 9 \/ m = 10 \/ m = 11 \/ m = 12) as Hc by lia.
  repeat destruct Hc as [->|Hc]; try subst m; cbn -[Z.div Z.mul Z.add leap];
    repeat match goal with |- context [Zpos ?a + Zpos ?b] => let v := eval vm_compute in (Zpos a + Zpos b) in change (Zpos a + Zpos b) with v end;
    cbn -[Z.div Z.mul Z.add leap];
    repeat match goal with |- context [Zpos ?a + Zpos ?b] => let v := eval vm_compute in (Zpos a + Zpos b) in change (Zpos a + Zpos b) with v end;
    repeat match goal with |- context [367 * ?k / 12] => let v := eval vm_compute in (367 * k / 12) in change (367 * k / 12) with v end;
    try (destruct (leap y)); try replace (y + 1 - 1) with y by lia; lia.
Qed.

Lemma month_start_epoch : month_start 1970 1 = 0.
Proof. reflexivity. Qed.

(** Months, numbered from the epoch. *)
Definition nth_month (k : Z) : Z * Z := (1970 + k / 12, k `mod` 12 + 1).
Definition start_of (k : Z) : Z := month_start (nth_month k).1 (nth_month k).2.
Lemma start_step k : start_of (k + 1) = start_of k + days_in_month (nth_month k).1 (nth_month k).2.
Proof.
  unfold start_of, nth_month. cbn [fst snd]. pose proof (Z.mod_pos_bound k 12 ltac:(lia)) as Hm. pose proof (Z.div_mod k 12 ltac:(lia)) as E.
  rewrite <-(month_step (1970 + k / 12) (k `mod` 12 + 1)) by lia. destruct (Z.ltb_spec (k `mod` 12 + 1) 12).
  - rewrite <-(Z.div_unique (k + 1) 12 (k / 12) (k `mod` 12 + 1)), <-(Z.mod_unique (k + 1) 12 (k / 12) (k `mod` 12 + 1)) by lia. done.
  - rewrite <-(Z.div_unique (k + 1) 12 (k / 12 + 1) 0), <-(Z.mod_unique (k + 1) 12 (k / 12 + 1) 0) by lia. f_equal; lia.
Qed.
Lemma start_mono k n : start_of k + 28 * Z.of_nat n <= start_of (k + Z.of_nat n).
Proof.
  induction n as [|n IH]; [replace (k + Z.of_nat 0) with k by lia; lia|]. replace (k + Z.of_nat (S n)) with (k + Z.of_nat n + 1) by lia. rewrite start_step.
  pose proof (days_in_month_bounds (nth_month (k + Z.of_nat n)).1 (nth_month (k + Z.of_nat n)).2). lia.
Qed.
Lemma start_lt k k' : k < k' -> start_of k + days_in_month (nth_month k).1 (nth_month k).2 <= start_of k'.
Proof.
  intros Hk. rewrite <-start_step. pose proof (start_mono (k + 1) (Z.to_nat (k' - k - 1))) as H. rewrite Z2Nat.id in H by lia.
  replace (k + 1 + (k' - k - 1)) with k' in H by lia. lia.
Qed.

(** [mktime64] on a date of the calendar: the days before the month, the day,
    and the time of day. *)
Lemma mktime64_eq y m d h mi s : date_ok (y, m, d) -> 0 <= h < 24 -> 0 <= mi < 60 -> 0 <= s < 60 ->
  mktime64 y m d h mi s = (month_start y m + d - 1) * 86400 + h * 3600 + mi * 60 + s /\ 0 <= month_start y m.
Proof.
  intros (Hy & Hm & Hd) Hh Hmi Hs. pose proof (days_in_month_bounds y m) as Hb.
  assert (0 <= month_start y m < 2 ^ 42) as H0.
  { unfold month_start. destruct (Z.leb_spec m 2).
    - pose proof (Z.div_le_mono 1969 (y - 1) 4 ltac:(lia) ltac:(lia)) as H1. pose proof (Z.div_mod (y - 1) 4 ltac:(lia)). pose proof (Z.mod_pos_bound (y - 1) 4 ltac:(lia)).
      pose proof (Z.div_mod (y - 1) 100 ltac:(lia)). pose proof (Z.mod_pos_bound (y - 1) 100 ltac:(lia)).
      pose proof (Z.div_mod (y - 1) 400 ltac:(lia)). pose proof (Z.mod_pos_bound (y - 1) 400 ltac:(lia)).
      assert (336 <= 367 * (m + 10) / 12 <= 367) by (split; [apply Z.div_le_lower_bound | apply Z.div_le_upper_bound]; lia). lia.
    - pose proof (Z.div_mod y 4 ltac:(lia)). pose proof (Z.mod_pos_bound y 4 ltac:(lia)).
      pose proof (Z.div_mod y 100 ltac:(lia)). pose proof (Z.mod_pos_bound y 100 ltac:(lia)).
      pose proof (Z.div_mod y 400 ltac:(lia)). pose proof (Z.mod_pos_bound y 400 ltac:(lia)).
      assert (30 <= 367 * (m - 2) / 12 <= 367) by (split; [apply Z.div_le_lower_bound | apply Z.div_le_upper_bound]; lia). lia. }
  split; [|lia]. revert H0. unfold mktime64, month_start. rewrite wsub_small by (unfold inW; lia).
  destruct (m <=? 2); intros H0; (rewrite wrap_small; [lia | unfold inW; lia]).
Qed.

(** A date's number of days since the epoch determines the date. *)
Definition day_no (dt : date) : Z := let '(y, m, d) := dt in month_start y m + d - 1.
Definition month_no (y m : Z) : Z := (y - 1970) * 12 + (m - 1).
Lemma nth_month_no y m : 1 <= m <= 12 -> nth_month (month_no y m) = (y, m).
Proof.
  intros Hm. unfold nth_month, month_no.
  rewrite <-(Z.div_unique _ 12 (y - 1970) (m - 1)), <-(Z.mod_unique _ 12 (y - 1970) (m - 1)) by lia. f_equal; lia.
Qed.
Lemma start_of_month y m : 1 <= m <= 12 -> start_of (month_no y m) = month_start y m.
Proof. intros Hm. unfold start_of. by rewrite nth_month_no. Qed.
Lemma day_no_inj d1 d2 : date_ok d1 -> date_ok d2 -> day_no d1 = day_no d2 -> d1 = d2.
Proof.
  destruct d1 as [[y1 m1] e1], d2 as [[y2 m2] e2]. intros (Hy1 & Hm1 & He1) (Hy2 & Hm2 & He2) E. cbn [day_no] in E.
  pose proof (nth_month_no y1 m1 Hm1) as N1. pose proof (nth_month_no y2 m2 Hm2) as N2.
  pose proof (start_of_month y1 m1 Hm1) as S1. pose proof (start_of_month y2 m2 Hm2) as S2.
  destruct (Z.lt_trichotomy (month_no y1 m1) (month_no y2 m2)) as [Hlt|[Heq|Hlt]].
  - pose proof (start_lt _ _ Hlt) as Hs. rewrite N1, S1, S2 in Hs. cbn [fst snd] in Hs. lia.
  - rewrite Heq in N1. rewrite N1 in N2. injection N2 as -> ->. f_equal. lia.
  - pose proof (start_lt _ _ Hlt) as Hs. rewrite N2, S1, S2 in Hs. cbn [fst snd] in Hs. lia.
Qed.
Lemma next_day_ok dt : date_ok dt -> (let '(y, _, _) := dt in y + 1 < 2 ^ 32) -> date_ok (next_day dt) /\ day_no (next_day dt) = day_no dt + 1.
Proof.
  destruct dt as [[y m] d]. intros (Hy & Hm & Hd) Hb. unfold next_day. pose proof (month_step y m Hm) as Hs. pose proof (days_in_month_bounds y (m + 1)). pose proof (days_in_month_bounds (y + 1) 1).
  destruct (Z.ltb_spec d (days_in_month y m)); [cbn; lia|].
  destruct (Z.ltb_spec m 12); unfold date_ok, day_no; lia.
Qed.

(** ** The CMOS clock *)

Definition RTC_SECONDS : Z := 0.
Definition RTC_MINUTES : Z := 2.
Definition RTC_HOURS : Z := 4.
Definition RTC_DAY_OF_WEEK : Z := 6.
Definition RTC_DAY_OF_MONTH : Z := 7.
Definition RTC_MONTH : Z := 8.
Definition RTC_YEAR : Z := 9.
Definition RTC_REG_A : Z := 10.
Definition RTC_REG_B : Z := 11.
Definition RTC_REG_C : Z := 12.
Definition RTC_REG_D : Z := 13.
Definition RTC_CENTURY_BCD : Z := 50.
Definition REG_A_UIP : Z := 128.
Definition UIP_HOLD_LENGTH : Z := 8 * NANOSECONDS_PER_SECOND / 32768.

(** The fields of [libc::tm] the device reads. *)
Record tm := mkTm { tm_sec : Z; tm_min : Z; tm_hour : Z; tm_mday : Z; tm_mon : Z; tm_year : Z; tm_wday : Z }.

(** [injected] counts the writes to the interrupt event. *)
Record RTC := mkRTC {
  cmos_data : list Z;
  cur_index : Z;
  mem_size : Z;
  gap_start : Z;
  tick_offset : Z;
  base_time : Z;
  injected : nat
}.

Definition bin_to_bcd (src : Z) : Z := wadd 8 (wshl 8 (src / 10) 4) (src `mod` 10).
Definition bcd_bad (src : Z) : bool := (9 <? wshr 8 src 4) || (9 <? Z.land src 15).
Definition bcd_to_bin (src : Z) : Z :=
  if bcd_bad src then 0 else wadd 8 (wmul 8 (wshr 8 src 4) 10) (Z.land src 15).

(** Indexing of the array of 128 bytes; an index is below 128 everywhere. *)
Definition cmos (self : RTC) (i : Z) : Z := nth (Z.to_nat i) (cmos_data self) 0.
Definition set_cmos (i v : Z) (self : RTC) : RTC :=
  mkRTC (<[Z.to_nat i := v]> (cmos_data self)) (cur_index self) (mem_size self) (gap_start self) (tick_offset self) (base_time self) (injected self).
Definition set_index (i : Z) (self : RTC) : RTC :=
  mkRTC (cmos_data self) i (mem_size self) (gap_start self) (tick_offset self) (base_time self) (injected self).
Definition set_clock (off now : Z) (self : RTC) : RTC :=
  mkRTC (cmos_data self) (cur_index self) (mem_size self) (gap_start self) off now (injected self).
Definition rtc_inject (self : RTC) : RTC :=
  mkRTC (cmos_data self) (cur_index self) (mem_size self) (gap_start self) (tick_offset self) (base_time self) (S (injected self)).
Definition set_all (regs : list (Z * Z)) (self : RTC) : RTC := foldl (fun r iv => set_cmos iv.1 iv.2 r) self regs.

(** [Instant::elapsed] saturates at zero. *)
Definition elapsed (now since : Z) : Z := Z.max 0 (now - since).
Definition as_i64 (x : Z) : Z := (x + 2 ^ 63) `mod` 2 ^ 64 - 2 ^ 63.
Definition get_current_value (now : Z) (self : RTC) : Z :=
  as_i64 (elapsed now (base_time self) / NANOSECONDS_PER_SECOND + tick_offset self).
Definition update_in_progress (now : Z) (self : RTC) : bool :=
  NANOSECONDS_PER_SECOND - UIP_HOLD_LENGTH <=? elapsed now (base_time self) `mod` NANOSECONDS_PER_SECOND.

Definition set_rtc_cmos (t : tm) : RTC -> RTC :=
  set_all [(RTC_SECONDS, bin_to_bcd (wrap 8 (tm_sec t)));
           (RTC_MINUTES, bin_to_bcd (wrap 8 (tm_min t)));
           (RTC_HOURS, bin_to_bcd (wrap 8 (tm_hour t)));
           (RTC_DAY_OF_WEEK, bin_to_bcd (wrap 8 (tm_wday t + 1)));
           (RTC_DAY_OF_MONTH, bin_to_bcd (wrap 8 (tm_mday t)));
           (RTC_MONTH, bin_to_bcd (wrap 8 (tm_mon t + 1)));
           (RTC_YEAR, bin_to_bcd (wrap 8 (Z.rem (tm_year t + 1900) 100)));
           (RTC_CENTURY_BCD, bin_to_bcd (wrap 8 (Z.quot (tm_year t + 1900) 100)))].

Definition init_rtc_reg : RTC -> RTC := set_all [(RTC_REG_A, 38); (RTC_REG_B, 2); (RTC_REG_D, 128)].

Definition set_memory (mem gap : Z) (self : RTC) : RTC :=
  let self := mkRTC (cmos_data self) (cur_index self) mem gap (tick_offset self) (base_time self) (injected self) in
  let '(below, above) := if gap <? mem then (gap, mem - gap) else (mem, 0) in
  let byte v k := wrap 8 (Z.shiftr v k) in
  let ext_mem_kb := 63 * 1024 in
  let mem_data := wsub 64 below (16 * 1024 * 1024) / (64 * 1024) in
  let self := set_all [(21, byte 640 0); (22, byte 640 8);
                       (23, byte ext_mem_kb 0); (24, byte ext_mem_kb 8);
                       (48, byte ext_mem_kb 0); (49, byte ext_mem_kb 8);
                       (52, byte mem_data 0); (53, byte mem_data 8)] self in
  if 0 <? above then
    let mem_data := above / (64 * 1024) in
    set_all [(91, byte mem_data 0); (92, byte mem_data 8); (93, byte mem_data 16)] self
  else self.

Definition valid_range (i : Z) : Z * Z :=
  nth (Z.to_nat i) [(0, 59); (0, 59); (0, 59); (0, 59); (0, 23); (0, 23); (1, 7); (1, 31); (1, 12); (0, 99)] (0, 0).
Definition rtc_valid_check (val : Z) (self : RTC) : bool :=
  if bcd_bad val then false
  else let value := bcd_to_bin val in
       if (cur_index self <=? 9) && ((value <? (valid_range (cur_index self)).1) || ((valid_range (cur_index self)).2 <? value)) then false
       else true.

Definition update_rtc_time (now : Z) (self : RTC) : RTC :=
  let sec := bcd_to_bin (cmos self RTC_SECONDS) in
  let min := bcd_to_bin (cmos self RTC_MINUTES) in
  let hour := bcd_to_bin (cmos self RTC_HOURS) in
  let day := bcd_to_bin (cmos self RTC_DAY_OF_MONTH) in
  let mon := bcd_to_bin (cmos self RTC_MONTH) in
  let year := bcd_to_bin (cmos self RTC_YEAR) + bcd_to_bin (cmos self RTC_CENTURY_BCD) * 100 in
  if (year <? 1970) || negb ((1 <=? mon) && (mon <=? 12)) || negb ((1 <=? day) && (day <=? 31)) then self
  else set_clock (mktime64 year mon day hour min sec) now self.

Definition is_time_reg (i : Z) : bool :=
  existsb (Z.eqb i) [RTC_SECONDS; RTC_MINUTES; RTC_HOURS; RTC_DAY_OF_WEEK; RTC_DAY_OF_MONTH; RTC_MONTH; RTC_YEAR; RTC_CENTURY_BCD].

Definition write_data (now : Z) (data : list Z) (self : RTC) : RTC * bool :=
  match data with
  | [v] =>
    if is_time_reg (cur_index self) then
      if rtc_valid_check v self then (update_rtc_time now (set_cmos (cur_index self) v self), true) else (self, true)
    else if (cur_index self =? RTC_REG_C) || (cur_index self =? RTC_REG_D) then (self, false)
    else (set_cmos (cur_index self) v self, true)
  | _ => (self, false)
  end.

Definition rtc_write (now : Z) (data : list Z) (offset : Z) (self : RTC) : res unit (RTC * bool) :=
  if offset =? 0 then
    match data with
    | d0 :: _ => Ok (set_index (Z.land d0 127) self, true)
    | [] => Panic
    end
  else Ok (write_data now data self).

Section gmtime.
Variable gmtime : Z -> tm.

Definition RTC_new (system_time now : Z) : RTC :=
  let rtc := mkRTC (replicate 128 0) 0 0 0 system_time now 0 in
  init_rtc_reg (set_rtc_cmos (gmtime (get_current_value now rtc)) rtc).

Definition read_data (now : Z) (data : list Z) (self : RTC) : RTC * list Z * bool :=
  match data with
  | [_] =>
    let self := set_rtc_cmos (gmtime (get_current_value now self)) self in
    if cur_index self =? RTC_REG_A then
      if update_in_progress now self then (rtc_inject self, [Z.lor (cmos self RTC_REG_A) REG_A_UIP], true)
      else (self, [cmos self RTC_REG_A], true)
    else if cur_index self =? RTC_REG_C then (self, [Z.lor 128 32], true)
    else (self, [cmos self (cur_index self)], true)
  | _ => (self, data, false)
  end.

Definition rtc_read (now : Z) (data : list Z) (offset : Z) (self : RTC) : res unit (RTC * list Z * bool) :=
  if offset =? 0 then
    match data with
    | _ :: rest => Ok (self, 255 :: rest, false)
    | [] => Panic
    end
  else Ok (read_data now data self).

End gmtime.

Definition rtc_reset (self : RTC) : RTC :=
  let self := mkRTC (replicate 128 0) (cur_index self) (mem_size self) (gap_start self) (tick_offset self) (base_time self) (injected self) in
  let self := init_rtc_reg self in
  set_memory (mem_size self) (gap_start self) self.

(** ** Setting and reading the clock *)

(** A point in time as the registers show it. *)
Record moment := mkMoment { m_date : date; m_hour : Z; m_min : Z; m_sec : Z }.
Definition moment_ok (p : moment) : Prop :=
  date_ok (m_date p) /\ (m_date p).1.1 <= 9999 /\ 0 <= m_hour p < 24 /\ 0 <= m_min p < 60 /\ 0 <= m_sec p < 60.
(** Seconds since the epoch, by counting the days. *)
Definition seconds (p : moment) : Z := day_no (m_date p) * 86400 + m_hour p * 3600 + m_min p * 60 + m_sec p.
(** The registers that hold it. *)
Definition time_regs (p : moment) : list (Z * Z) :=
  let '(y, m, d) := m_date p in
  [(RTC_SECONDS, bin_to_bcd (m_sec p)); (RTC_MINUTES, bin_to_bcd (m_min p)); (RTC_HOURS, bin_to_bcd (m_hour p));
   (RTC_DAY_OF_MONTH, bin_to_bcd d); (RTC_MONTH, bin_to_bcd m); (RTC_YEAR, bin_to_bcd (y `mod` 100)); (RTC_CENTURY_BCD, bin_to_bcd (y / 100))].

(** One access of the guest: select the register, then write or read it. *)
Definition write_reg (now i v : Z) (self : RTC) : res unit RTC :=
  '(self, _) ← rtc_write now [i] 0 self; '(self, _) ← rtc_write now [v] 1 self; mret self.
Fixpoint write_regs (ws : list (Z * (Z * Z))) (self : RTC) : res unit RTC :=
  match ws with
  | [] => mret self
  | (now, (i, v)) :: ws => self ← write_reg now i v self; write_regs ws self
  end.
Fixpoint read_regs (gmtime : Z -> tm) (rs : list (Z * Z)) (self : RTC) : res unit (list Z) :=
  match rs with
  | [] => mret []
  | (now, i) :: rs =>
    '(self, _) ← rtc_write now [i] 0 self;
    '(self, data, _) ← rtc_read gmtime now [0] 1 self;
    rest ← read_regs gmtime rs self;
    mret (data ++ rest)
  end.

Lemma bcd_table x : 0 <= x < 100 ->
  bcd_to_bin (bin_to_bcd x) = x /\ bcd_bad (bin_to_bcd x) = false /\ 0 <= bin_to_bcd x < 256.
Proof.
  intros Hx. assert (forallb (fun n => (bcd_to_bin (bin_to_bcd n) =? n) && negb (bcd_bad (bin_to_bcd n)) && (0 <=? bin_to_bcd n) && (bin_to_bcd n <? 256)) (ztab id 0 100) = true) as Hf by (vm_compute; done).
  rewrite forallb_forall in Hf. specialize (Hf x). assert (In x (ztab id 0 100)) as Hin.
  { apply list_elem_of_In, (list_elem_of_lookup_2 _ (Z.to_nat x)). rewrite ztab_lookup by lia. unfold id. f_equal. lia. }
  specialize (Hf Hin). apply andb_prop in Hf as [Hf H4]. apply andb_prop in Hf as [Hf H3]. apply andb_prop in Hf as [H1 H2].
  apply negb_true_iff in H2. apply Z.eqb_eq in H1. apply Z.leb_le in H3. apply Z.ltb_lt in H4. done.
Qed.

Lemma bcd_roundtrip x : 0 <= x < 100 -> bcd_to_bin (bin_to_bcd x) = x.
Proof. intros Hx. by destruct (bcd_table x Hx). Qed.

Lemma cmos_set self i j v : length (cmos_data self) = 128%nat -> 0 <= i < 128 -> 0 <= j < 128 ->
  cmos (set_cmos i v self) j = if j =? i then v else cmos self j.
Proof.
  intros Hl Hi Hj. unfold cmos, set_cmos. cbn [cmos_data]. rewrite !nth_lookup.
  destruct (Z.eqb_spec j i) as [->|Hne]; [rewrite list_lookup_insert_eq by lia; done|]. rewrite list_lookup_insert_ne by lia. done.
Qed.

(** What a run of register writes leaves in the array, and its clock. *)
Definition same_clock (a b : RTC) : Prop := tick_offset a = tick_offset b /\ base_time a = base_time b.
Lemma set_all_clock regs self : same_clock (set_all regs self) self /\ cur_index (set_all regs self) = cur_index self /\
  length (cmos_data (set_all regs self)) = length (cmos_data self).
Proof.
  revert self. induction regs as [|[i v] regs IH]; intros self; [done|]. cbn [set_all foldl]. destruct (IH (set_cmos i v self)) as ((A & B) & C & D).
  unfold set_all, same_clock in *. cbn [fst snd] in *. rewrite A, B, C, D. cbn. by rewrite length_insert.
Qed.
Lemma set_all_cmos regs self i : length (cmos_data self) = 128%nat -> Forall (fun iv => 0 <= iv.1 < 128) regs -> 0 <= i < 128 ->
  (forall v, (i, v) ∈ regs -> NoDup regs.*1 -> cmos (set_all regs self) i = v) /\ (i ∉ regs.*1 -> cmos (set_all regs self) i = cmos self i).
Proof.
  intros Hl Hf Hi. revert self Hl. induction Hf as [|[j w] regs Hj Hf IH]; intros self Hl; [split; [set_solver|done]|].
  cbn [set_all foldl fst snd fmap list_fmap] in *. destruct (IH (set_cmos j w self)) as [H1 H2]; [cbn; by rewrite length_insert|]. unfold set_all in *. split.
  - intros v Hv Hnd. apply NoDup_cons in Hnd as [Hni Hnd]. apply elem_of_cons in Hv as [[= -> ->]|Hv]; [|by apply H1].
    rewrite H2 by done. rewrite cmos_set by done. by rewrite Z.eqb_refl.
  - intros Hn. apply not_elem_of_cons in Hn as [Hne Hn]. rewrite H2 by done. rewrite cmos_set by done. destruct (Z.eqb_spec i j); [congruence|done].
Qed.

Definition accepted (iv : Z * Z) : Prop :=
  is_time_reg iv.1 = true /\ forall self, rtc_valid_check iv.2 (set_index iv.1 self) = true.
Lemma time_reg_range i : is_time_reg i = true -> 0 <= i < 128 /\ Z.land i 127 = i.
Proof.
  unfold is_time_reg. intros Hi. apply existsb_exists in Hi as (j & Hj & ->%Z.eqb_eq).
  repeat destruct Hj as [<-|Hj]; by (split; [vm_compute|]).
Qed.
Lemma write_reg_accepted now iv self : accepted iv ->
  write_reg now iv.1 iv.2 self = Ok (update_rtc_time now (set_cmos iv.1 iv.2 (set_index iv.1 self))).
Proof.
  intros [Ht Hv]. destruct (time_reg_range _ Ht) as [Hr Hl]. unfold write_reg, rtc_write. change (0 =? 0) with true. change (1 =? 0) with false.
  rewrite Hl. cbn [mbind res_bind]. unfold write_data. rewrite Hv. change (cur_index (set_index iv.1 self)) with (iv.1). by rewrite Ht.
Qed.
Lemma update_cmos now self : cmos_data (update_rtc_time now self) = cmos_data self.
Proof. unfold update_rtc_time. by destruct (_ || _). Qed.
Lemma set_all_data regs a b : cmos_data a = cmos_data b -> cmos_data (set_all regs a) = cmos_data (set_all regs b).
Proof. revert a b. induction regs as [|iv regs IH]; intros a b E; [done|]. cbn [set_all foldl]. apply IH. cbn. by rewrite E. Qed.

Lemma write_regs_spec ws t iv self : Forall accepted ws.*2 -> accepted iv ->
  exists last, write_regs (ws ++ [(t, iv)]) self = Ok (update_rtc_time t last) /\
    cmos_data last = cmos_data (set_all (ws.*2 ++ [iv]) self).
Proof.
  intros Hf Hiv. revert self Hf. induction ws as [|[t0 jw] ws IH]; intros self Hf.
  - exists (set_cmos iv.1 iv.2 (set_index iv.1 self)). cbn [write_regs app]. destruct iv as [i v]. pose proof (write_reg_accepted t (i, v) self Hiv) as Hw. cbn [fst snd] in Hw. by rewrite Hw.
  - cbn [write_regs app fmap list_fmap snd] in *. destruct jw as [j w]. apply Forall_cons in Hf as [Hj Hf].
    pose proof (write_reg_accepted t0 (j, w) self Hj) as Hw. cbn [fst snd] in Hw. rewrite Hw. cbn [mbind res_bind].
    destruct (IH (update_rtc_time t0 (set_cmos j w (set_index j self))) Hf) as (last & E & Hd). exists last. split; [exact E|].
    rewrite Hd. apply (set_all_data _ _ (set_cmos j w self)). by rewrite update_cmos.
Qed.

Lemma accepted_time i x lo hi : is_time_reg i = true -> 0 <= x < 100 -> (i <= 9 -> valid_range i = (lo, hi) /\ lo <= x <= hi) -> accepted (i, bin_to_bcd x).
Proof.
  intros Ht Hx Hr. split; [done|]. intros self. unfold rtc_valid_check. cbn [snd fst set_index cur_index]. destruct (bcd_table x Hx) as (E & -> & _). cbv zeta. rewrite E.
  destruct (Z.leb_spec i 9); [|done]. destruct Hr as [-> Hr]; [done|]. cbn [fst snd andb].
  destruct (Z.ltb_spec x lo); [lia|]. destruct (Z.ltb_spec hi x); [lia|]. done.
Qed.
Lemma time_regs_accepted p : moment_ok p -> Forall accepted (time_regs p).
Proof.
  destruct p as [[[y m] d] h mi s]. intros ((Hy & Hm & Hd) & Hc & Hh & Hmi & Hs). cbn [m_date m_hour m_min m_sec fst] in *. unfold time_regs. cbn [m_date m_hour m_min m_sec].
  pose proof (days_in_month_bounds y m). pose proof (Z.mod_pos_bound y 100 ltac:(lia)). pose proof (Z.div_mod y 100 ltac:(lia)).
  assert (0 <= y / 100 < 100) by (split; [apply Z.div_pos; lia | apply Z.div_lt_upper_bound; lia]).
  repeat (apply Forall_cons; split; [|]); [apply (accepted_time _ _ 0 59) | apply (accepted_time _ _ 0 59) | apply (accepted_time _ _ 0 23) |
    apply (accepted_time _ _ 1 31) | apply (accepted_time _ _ 1 12) | apply (accepted_time _ _ 0 99) | apply (accepted_time _ _ 0 0) | by apply Forall_nil];
    try done; try lia; unfold RTC_CENTURY_BCD; intros ?; (split; [reflexivity|lia]) || lia.
Qed.

(** The clock once the seven registers hold a point in time. *)
Lemma update_moment t p self : moment_ok p -> Forall (fun iv => cmos self iv.1 = iv.2) (time_regs p) ->
  update_rtc_time t self = set_clock (seconds p) t self.
Proof.
  destruct p as [[[y m] d] h mi s]. intros (Hdt & Hc & Hh & Hmi & Hs) Hf. cbn [m_date m_hour m_min m_sec fst] in *.
  unfold time_regs in Hf. cbn [m_date m_hour m_min m_sec] in Hf. rewrite !Forall_cons in Hf. cbn [fst snd] in Hf.
  destruct Hf as (E0 & E1 & E2 & E3 & E4 & E5 & E6 & _). pose proof Hdt as (Hy & Hm & Hd).
  pose proof (days_in_month_bounds y m). pose proof (Z.mod_pos_bound y 100 ltac:(lia)). pose proof (Z.div_mod y 100 ltac:(lia)).
  assert (0 <= y / 100 < 100) by (split; [apply Z.div_pos; lia | apply Z.div_lt_upper_bound; lia]).
  unfold update_rtc_time. rewrite E0, E1, E2, E3, E4, E5, E6. rewrite !bcd_roundtrip by lia. cbv zeta.
  replace (y `mod` 100 + y / 100 * 100) with y by lia.
  destruct (Z.ltb_spec y 1970); [lia|]. destruct (Z.leb_spec 1 m), (Z.leb_spec m 12), (Z.leb_spec 1 d), (Z.leb_spec d 31); try lia. cbn [andb orb negb].
  by rewrite (proj1 (mktime64_eq y m d h mi s Hdt Hh Hmi Hs)).
Qed.

Lemma time_regs_keys p : (time_regs p).*1 = [0; 2; 4; 7; 8; 9; 50].
Proof. by destruct p as [[[y m] d] h mi s]. Qed.
Lemma accepted_range ws : Forall accepted ws -> Forall (fun iv => 0 <= iv.1 < 128) ws.
Proof. intros Hf. eapply Forall_impl; [exact Hf|]. intros iv [Ht _]. apply (time_reg_range _ Ht). Qed.

(** Writing the registers of a point in time, in any order, sets the clock. *)
Lemma write_moment p ws t0 self : moment_ok p -> length (cmos_data self) = 128%nat ->
  ws.*2 ≡ₚ time_regs p -> (exists ws' iv, ws = ws' ++ [(t0, iv)]) ->
  exists rtc, write_regs ws self = Ok rtc /\ tick_offset rtc = seconds p /\ base_time rtc = t0 /\ length (cmos_data rtc) = 128%nat.
Proof.
  intros Hp Hl Hperm (ws' & iv & ->). pose proof (time_regs_accepted p Hp) as Hacc. rewrite <-Hperm in Hacc.
  rewrite fmap_app in Hacc, Hperm. cbn [fmap list_fmap snd] in Hacc, Hperm. pose proof (accepted_range _ Hacc) as Hrange.
  assert (NoDup (ws'.*2 ++ [iv]).*1) as Hnd. { rewrite Hperm, time_regs_keys. apply (bool_decide_unpack _). by vm_compute. }
  pose proof Hacc as Hacc'. apply Forall_app in Hacc' as [Hf Hiv]. apply (proj1 (Forall_singleton _ _)) in Hiv.
  destruct (write_regs_spec ws' t0 iv self Hf Hiv) as (last & E & Hd). rewrite E. eexists. split; [done|].
  rewrite (update_moment t0 p last Hp).
  - cbn. rewrite Hd. destruct (set_all_clock (ws'.*2 ++ [iv]) self) as (_ & _ & ->). done.
  - apply Forall_forall. intros [i v] Hin. cbn [fst snd]. rewrite <-Hperm in Hin.
    assert (0 <= i < 128) as Hi. { rewrite Forall_forall in Hrange. apply (Hrange _ Hin). }
    unfold cmos. rewrite Hd. by apply (proj1 (set_all_cmos (ws'.*2 ++ [iv]) self i Hl Hrange Hi)).
Qed.

Section clock.
Variable gmtime : Z -> tm.

(** What [gmtime_r] promises: it inverts the count of seconds. *)
Definition gmtime_law : Prop := forall p, moment_ok p ->
  let t := gmtime (seconds p) in
  (tm_year t + 1900, tm_mon t + 1, tm_mday t) = m_date p /\ tm_hour t = m_hour p /\ tm_min t = m_min p /\ tm_sec t = m_sec p.

Lemma set_rtc_cmos_regs p self : gmtime_law -> moment_ok p -> length (cmos_data self) = 128%nat ->
  forall i v, (i, v) ∈ time_regs p -> cmos (set_rtc_cmos (gmtime (seconds p)) self) i = v.
Proof.
  intros Hg Hp Hl i v Hin. destruct (Hg p Hp) as (Ed & Eh & Emi & Es). destruct p as [[[y m] d] h mi s]. destruct Hp as ((Hy & Hm & Hd) & Hc & Hh & Hmi & Hs).
  cbn [m_date m_hour m_min m_sec fst] in *. injection Ed as Ey Em Ed. pose proof (days_in_month_bounds y m).
  assert (0 <= y / 100 < 100) by (split; [apply Z.div_pos; lia | apply Z.div_lt_upper_bound; lia]). pose proof (Z.mod_pos_bound y 100 ltac:(lia)).
  unfold set_rtc_cmos. rewrite Ey, Em, Ed, Eh, Emi, Es, Z.rem_mod_nonneg, Z.quot_div_nonneg by lia. rewrite (wrap_small 8 s), (wrap_small 8 mi), (wrap_small 8 h), (wrap_small 8 d), (wrap_small 8 m), (wrap_small 8 (y `mod` 100)), (wrap_small 8 (y / 100)) by (unfold inW; lia).
  match goal with |- cmos (set_all ?l _) _ = _ => assert (Forall (fun iv => 0 <= iv.1 < 128) l) as Hr; [by repeat (apply Forall_cons; split; [vm_compute; done|]) |];
    assert ((i, v) ∈ l) as Hin'; [unfold time_regs in Hin; cbn [m_date m_hour m_min m_sec] in Hin; rewrite !elem_of_cons in *; tauto|];
    assert (NoDup l.*1) as Hnd; [apply (bool_decide_unpack _); by vm_compute|] end.
  assert (0 <= i < 128) as Hi; [rewrite Forall_forall in Hr; apply (Hr _ Hin')|]. by apply (proj1 (set_all_cmos _ self i Hl Hr Hi)).
Qed.

(** The point in time a clock shows at an instant. *)
Definition shows (rtc : RTC) (now : Z) (p : moment) : Prop :=
  seconds p = tick_offset rtc + elapsed now (base_time rtc) / NANOSECONDS_PER_SECOND.

Lemma day_no_bounds dt : date_ok dt -> dt.1.1 <= 9999 -> 0 <= day_no dt < 2 ^ 24.
Proof.
  destruct dt as [[y m] d]. intros Hdt Hc. cbn [fst] in Hc.
  destruct (mktime64_eq y m d 0 0 0 Hdt ltac:(lia) ltac:(lia) ltac:(lia)) as [_ H0]. destruct Hdt as (Hy & Hm & Hd). pose proof (days_in_month_bounds y m). cbn [day_no].
  split; [lia|]. assert (month_start y m <= y * 366 + 367); [|lia]. unfold month_start. destruct (Z.leb_spec m 2).
  - assert (367 * (m + 10) / 12 <= 367) by (apply Z.div_le_upper_bound; lia). pose proof (Z.div_mod (y - 1) 4 ltac:(lia)). pose proof (Z.mod_pos_bound (y - 1) 4 ltac:(lia)).
    pose proof (Z.div_pos (y - 1) 100 ltac:(lia) ltac:(lia)). pose proof (Z.div_le_upper_bound (y - 1) 400 y ltac:(lia) ltac:(lia)). lia.
  - assert (367 * (m - 2) / 12 <= 367) by (apply Z.div_le_upper_bound; lia). pose proof (Z.div_mod y 4 ltac:(lia)). pose proof (Z.mod_pos_bound y 4 ltac:(lia)).
    pose proof (Z.div_pos y 100 ltac:(lia) ltac:(lia)). pose proof (Z.div_le_upper_bound y 400 y ltac:(lia) ltac:(lia)). lia.
Qed.
Lemma seconds_bounds p : moment_ok p -> 0 <= seconds p < 2 ^ 62.
Proof. intros (Hdt & Hc & Hh & Hmi & Hs). pose proof (day_no_bounds _ Hdt Hc). unfold seconds. lia. Qed.

Lemma read_reg_shows rtc now p i v : gmtime_law -> length (cmos_data rtc) = 128%nat -> moment_ok p -> shows rtc now p -> (i, v) ∈ time_regs p ->
  exists rtc', rtc_write now [i] 0 rtc = Ok (set_index i rtc, true) /\ rtc_read gmtime now [0] 1 (set_index i rtc) = Ok (rtc', [v], true) /\
    same_clock rtc' rtc /\ length (cmos_data rtc') = 128%nat.
Proof.
  intros Hg Hl Hp Hs Hin. assert (accepted (i, v)) as [Ht _]. { pose proof (time_regs_accepted p Hp) as Hf. rewrite Forall_forall in Hf. by apply Hf. }
  destruct (time_reg_range i Ht) as [Hi El]. assert (get_current_value now (set_index i rtc) = seconds p) as Ev.
  { unfold get_current_value, as_i64. cbn [base_time tick_offset set_index]. unfold shows in Hs. rewrite (Z.add_comm _ (tick_offset rtc)), <-Hs. pose proof (seconds_bounds p Hp). rewrite Z.mod_small by lia. lia. }
  set (r := set_rtc_cmos (gmtime (seconds p)) (set_index i rtc)). exists r.
  split; [unfold rtc_write; by rewrite El|]. assert (cur_index r = i /\ same_clock r rtc /\ length (cmos_data r) = 128%nat) as (Ei & Hc & Hl').
  { unfold r, set_rtc_cmos. match goal with |- context [set_all ?l ?x] => destruct (set_all_clock l x) as (A & B & C) end. rewrite B, C. done. }
  split; [|done]. unfold rtc_read, read_data. rewrite Ev. fold r. rewrite Ei. change (1 =? 0) with false.
  unfold r. rewrite (set_rtc_cmos_regs p (set_index i rtc) Hg Hp Hl i v Hin). clear -Ht. unfold is_time_reg in Ht. cbn [fst] in Ht. apply existsb_exists in Ht as (j & Hj & ->%Z.eqb_eq).
  repeat destruct Hj as [<-|Hj]; try done.
Qed.

Lemma Ok_bind {A B} (a : A) (f : A -> res unit B) : (Ok a ≫= f) = f a.
Proof. done. Qed.
Lemma read_regs_cons now i reads rtc r1 r2 vs v : rtc_write now [i] 0 rtc = Ok (r1, true) -> rtc_read gmtime now [0] 1 r1 = Ok (r2, [v], true) ->
  read_regs gmtime reads r2 = Ok vs -> read_regs gmtime ((now, i) :: reads) rtc = Ok (v :: vs).
Proof.
  intros E1 E2 E3. cbn [read_regs]. rewrite E1, Ok_bind. cbv beta iota. rewrite E2, Ok_bind. cbv beta iota. by rewrite E3.
Qed.
Lemma read_regs_show reads vs rtc : gmtime_law -> length (cmos_data rtc) = 128%nat ->
  Forall2 (fun r v => exists q, moment_ok q /\ shows rtc r.1 q /\ (r.2, v) ∈ time_regs q) reads vs -> read_regs gmtime reads rtc = Ok vs.
Proof.
  intros Hg Hl Hf. revert rtc Hl Hf. revert vs. induction reads as [|[now i] reads IH]; intros vs rtc Hl Hf; inversion Hf as [|? v ? vs' (q & Hq & Hs & Hin) Hf']; subst; [done|].
  destruct (read_reg_shows rtc now q i v Hg Hl Hq Hs Hin) as (rtc' & Ew & Er & (Hc1 & Hc2) & Hl'). 
  apply (read_regs_cons _ _ _ _ _ _ _ _ Ew Er), IH; [done|]. unfold shows in *. rewrite Hc1, Hc2. exact Hf'.
Qed.
End clock.

(** C23: Setting the CMOS clock and reading it back.  The guest writes the seven
    registers of a point in time of the calendar, in any order, the last write at
    [t0].  Every later read of such a register then returns the BCD field of the
    point in time that lies as many seconds after the one set as have passed
    since [t0]. *)
Theorem rtc_set_read gmtime p ws t0 self reads vs :
  gmtime_law gmtime -> moment_ok p -> length (cmos_data self) = 128%nat ->
  ws.*2 ≡ₚ time_regs p -> (exists ws' iv, ws = ws' ++ [(t0, iv)]) ->
  Forall2 (fun r v => exists q, t0 <= r.1 /\ moment_ok q /\ seconds q = seconds p + (r.1 - t0) / NANOSECONDS_PER_SECOND /\ (r.2, v) ∈ time_regs q) reads vs ->
  exists rtc, write_regs ws self = Ok rtc /\ read_regs gmtime reads rtc = Ok vs.
Proof.
  intros Hg Hp Hl Hperm Hlast Hf. destruct (write_moment p ws t0 self Hp Hl Hperm Hlast) as (rtc & E & Et & Eb & Hl'). exists rtc. split; [done|].
  apply read_regs_show; [done..|]. eapply Forall2_impl; [exact Hf|]. intros [t i] v (q & Ht & Hq & Es & Hin). exists q. split_and!; [done| |done].
  unfold shows, elapsed. rewrite Et, Eb, Z.max_r by (cbn [fst] in *; lia). done.
Qed.

(** An instance of [gmtime_r] that walks the calendar. *)
Definition gmtime_ref (secs : Z) : tm :=
  let days := secs / 86400 in
  let '(y, m, d) := Nat.iter (Z.to_nat days) next_day (1970, 1, 1) in
  let r := secs `mod` 86400 in
  mkTm (r `mod` 60) ((r / 60) `mod` 60) (r / 3600) d (m - 1) (y - 1900) ((days + 4) `mod` 7).

Lemma walk_days n : Z.of_nat n < 2 ^ 24 ->
  let dt := Nat.iter n next_day (1970, 1, 1) in date_ok dt /\ day_no dt = Z.of_nat n /\ dt.1.1 <= 1970 + Z.of_nat n.
Proof.
  cbv zeta. induction n as [|n IH]; intros Hn; [vm_compute; intuition congruence|]. cbn [Nat.iter nat_rect]. destruct IH as (Hok & Hd & Hy); [lia|].
  fold (Nat.iter n next_day (1970, 1, 1)) in *. set (dt := Nat.iter n next_day (1970, 1, 1)) in *. clearbody dt. destruct dt as [[y m] d]. cbn [fst] in Hy.
  destruct (next_day_ok (y, m, d) Hok) as [Hok' Hd']; [lia|]. rewrite Hd', Hd. split; [done|]. split; [lia|].
  unfold next_day. destruct (d <? _); [|destruct (m <? 12)]; cbn; lia.
Qed.
Lemma gmtime_ref_law : gmtime_law gmtime_ref.
Proof.
  intros p Hp. cbv zeta. destruct p as [dt h mi s]. pose proof Hp as (Hdt & Hc & Hh & Hmi & Hs). cbn [m_date m_hour m_min m_sec] in *.
  pose proof (day_no_bounds dt Hdt Hc) as Hd.
  unfold seconds, gmtime_ref. cbn [m_date m_hour m_min m_sec].
  rewrite <-(Z.div_unique _ 86400 (day_no dt) (h * 3600 + mi * 60 + s)), <-(Z.mod_unique _ 86400 (day_no dt) (h * 3600 + mi * 60 + s)) by lia.
  destruct (walk_days (Z.to_nat (day_no dt))) as (Hok & Hn & _). { lia. }
  rewrite (day_no_inj (Nat.iter (Z.to_nat (day_no dt)) next_day (1970, 1, 1)) dt Hok Hdt ltac:(lia)).
  destruct dt as [[y m] d]. cbn [tm_year tm_mon tm_mday tm_hour tm_min tm_sec].
  split; [f_equal; f_equal; lia|]. split; [symmetry; apply (Z.div_unique _ _ _ (mi * 60 + s)); lia|].
  split; [|symmetry; apply (Z.mod_unique _ _ (h * 60 + mi)); lia].
  rewrite <-(Z.div_unique _ 60 (h * 60 + mi) s) by lia. symmetry; apply (Z.mod_unique _ _ h); lia.
Qed.

(** 29 February 2024, one second before midnight; two seconds later the registers
    show 1 March. *)
Definition leap_eve : moment := mkMoment (2024, 2, 29) 23 59 59.
Definition leap_morning : moment := mkMoment (2024, 3, 1) 0 0 1.
Lemma rtc_set_read_witness :
  exists rtc, write_regs (map (pair 7) (time_regs leap_eve)) (RTC_new gmtime_ref 1000000 3) = Ok rtc /\
    read_regs gmtime_ref [(2500000000, RTC_SECONDS); (2500000000, RTC_DAY_OF_MONTH); (2500000000, RTC_MONTH)] rtc = Ok [1; 1; 3].
Proof.
  apply (rtc_set_read gmtime_ref leap_eve _ 7); [exact gmtime_ref_law | vm_compute; intuition congruence | vm_compute; reflexivity | reflexivity | |].
  - exists (map (pair 7) (take 6 (time_regs leap_eve))), (RTC_CENTURY_BCD, 32). reflexivity.
  - repeat apply Forall2_cons_2; try apply Forall2_nil_2; exists leap_morning;
      (split_and!; [vm_compute; congruence | vm_compute; intuition congruence | vm_compute; reflexivity | apply (bool_decide_unpack _); vm_compute; exact I]).
Defined.

(** [mktime64] counts the seconds of the calendar: zero at the epoch, a day
    more from each date to the next one, leap years included, and the time of day
    on top. *)
Theorem mktime64_calendar :
  mktime64 1970 1 1 0 0 0 = 0 /\
  forall y m d h mi s, date_ok (y, m, d) -> y + 1 < 2 ^ 32 -> 0 <= h < 24 -> 0 <= mi < 60 -> 0 <= s < 60 ->
    mktime64 y m d h mi s = mktime64 y m d 0 0 0 + h * 3600 + mi * 60 + s /\
    let '(y', m', d') := next_day (y, m, d) in
    mktime64 y' m' d' h mi s = mktime64 y m d h mi s + 86400.
Proof.
  split; [reflexivity|]. intros y m d h mi s Hdt Hy Hh Hmi Hs. destruct (next_day_ok (y, m, d) Hdt Hy) as [Hdt' Hn].
  destruct (next_day (y, m, d)) as [[y' m'] d']. cbn [day_no] in Hn. rewrite !(fun a b c H => proj1 (mktime64_eq a b c h mi s H Hh Hmi Hs)) by done.
  rewrite (proj1 (mktime64_eq y m d 0 0 0 Hdt ltac:(lia) ltac:(lia) ltac:(lia))). lia.
Qed.
Lemma mktime64_calendar_witness : mktime64 2024 3 1 12 0 0 = mktime64 2024 2 29 12 0 0 + 86400.
Proof.
  destruct mktime64_calendar as [_ H]. destruct (H 2024 2 29 12 0 0) as [_ E]; [vm_compute; intuition congruence | lia .. |]. exact E.
Defined.

(** A register write goes by the time of the last read: after an hour in which the
    clock was not read, writing the seconds register sets it back by an hour. *)
Example idle_write_rewinds :
  let rtc := RTC_new gmtime_ref (seconds (mkMoment (2024, 1, 1) 10 0 0)) 0 in
  let hour := 3600 * NANOSECONDS_PER_SECOND in
  (r ← write_reg hour RTC_SECONDS 0 rtc; read_regs gmtime_ref [(hour, RTC_HOURS)] r) = Ok [16] /\
  read_regs gmtime_ref [(hour, RTC_HOURS)] rtc = Ok [17].
Proof. vm_compute. done. Qed.
