(* ===== verification/Pl031.v ===== *)
(** * The PL031 real-time clock of ARM machines ([devices/src/legacy/pl031.rs])

    The instant [now] of an access, in nanoseconds, is an argument. *)
From stdpp Require Import prelude list.
From Stdlib Require Import ZArith Lia.
From S2P Require Import Prelude NumOps LeakBucket Rtc.

Record PL031State := mkPL031State { mr : Z; lr : Z; imsr : Z; risr : Z }.
Record PL031 := mkPL031 { state : PL031State; pl_tick_offset : Z; pl_base_time : Z; pl_injected : nat }.

Definition PL031_default (system_time now : Z) : PL031 := mkPL031 (mkPL031State 0 0 0 0) (wrap 32 system_time) now 0.

Definition pl_get_current_value (now : Z) (self : PL031) : Z :=
  wrap 32 (elapsed now (pl_base_time self) / NANOSECONDS_PER_SECOND + pl_tick_offset self).

Definition RTC_PERIPHERAL_ID : list Z := [49; 16; 20; 0; 13; 240; 5; 177].

Definition read (now : Z) (data : list Z) (offset : Z) (self : PL031) : bool * list Z :=
  if (4064 <=? offset) && (offset <? 4096) then
    write_data_u32 data (nth (Z.to_nat (Z.shiftr (offset - 4064) 2)) RTC_PERIPHERAL_ID 0)
  else
    write_data_u32 data
      match offset with
      | 0 => pl_get_current_value now self
      | 4 => mr (state self)
      | 8 => lr (state self)
      | 12 => 1
      | 16 => imsr (state self)
      | 20 => risr (state self)
      | 24 => Z.land (risr (state self)) (imsr (state self))
      | _ => 0
      end.

(** [LittleEndian::read_u32] panics on fewer than four bytes. *)
Definition write (now : Z) (data : list Z) (offset : Z) (self : PL031) : res unit (PL031 * bool) :=
  if (length data <? 4)%nat then Panic
  else
    let value := le_val (take 4 data) in
    let s := state self in
    Ok (match offset with
        | 4 => mkPL031 (mkPL031State value (lr s) (imsr s) (risr s)) (pl_tick_offset self) (pl_base_time self) (pl_injected self)
        | 8 => mkPL031 (mkPL031State (mr s) value (imsr s) (risr s)) value now (pl_injected self)
        | 16 => mkPL031 (mkPL031State (mr s) (lr s) (Z.land value 1) (risr s)) (pl_tick_offset self) (pl_base_time self) (S (pl_injected self))
        | 28 => mkPL031 (mkPL031State (mr s) (lr s) (imsr s) 0) (pl_tick_offset self) (pl_base_time self) (S (pl_injected self))
        | _ => self
        end, true).

Definition get_state_vec (self : PL031) : list Z :=
  le_bytes 4 (mr (state self)) ++ le_bytes 4 (lr (state self)) ++ le_bytes 4 (imsr (state self)) ++ le_bytes 4 (risr (state self)).
Definition set_state_mut (bs : list Z) (self : PL031) : res unit PL031 :=
  if (length bs =? 16)%nat then
    let word k := le_val (slice bs k 4) in
    Ok (mkPL031 (mkPL031State (word 0%nat) (word 4%nat) (word 8%nat) (word 12%nat)) (pl_tick_offset self) (pl_base_time self) (pl_injected self))
  else Err tt.

(** A snapshot holds the load register and not the clock it set: after a restore
    the data register goes on from the host's time. *)
Example snapshot_loses_clock :
  let guest := PL031_default 1700000000 0 in
  (w ← write 0 [100; 0; 0; 0] 8 guest;
   fresh ← set_state_mut (get_state_vec w.1) (PL031_default 1700000000 0);
   mret (le_val (read 0 [0; 0; 0; 0] 0 w.1).2, le_val (read 0 [0; 0; 0; 0] 0 fresh).2, le_val (read 0 [0; 0; 0; 0] 8 fresh).2))
  = Ok (100, 1700000000, 100).
Proof. vm_compute. done. Qed.

(** ** The clock register *)

Fixpoint pl_writes (ws : list (Z * list Z * Z)) (self : PL031) : res unit PL031 :=
  match ws with
  | [] => mret self
  | (now, data, offset) :: ws => '(self, _) ← write now data offset self; pl_writes ws self
  end.

Lemma write_keeps_clock now data offset self r : write now data offset self = Ok r -> offset <> 8 ->
  pl_tick_offset r.1 = pl_tick_offset self /\ pl_base_time r.1 = pl_base_time self.
Proof.
  unfold write. destruct (length data <? 4)%nat; [done|]. intros [= <-] Hne. cbn [fst].
  destruct offset as [|o|o]; try done. repeat (destruct o as [o|o|]; try done).
Qed.

Lemma pl_writes_keep ws d : Forall (fun w => w.2 <> 8 /\ (4 <= length w.1.2)%nat) ws ->
  exists d', pl_writes ws d = Ok d' /\ pl_tick_offset d' = pl_tick_offset d /\ pl_base_time d' = pl_base_time d.
Proof.
  intros Hf. revert d. induction Hf as [|[[now data] offset] ws [Hne Hl] Hf IH]; intros d; [by exists d|]. cbn [fst snd] in *. cbn [pl_writes].
  destruct (write now data offset d) as [r| |] eqn:Ew.
  - destruct (write_keeps_clock _ _ _ _ _ Ew Hne) as [<- <-]. destruct r as [d1 b]. apply IH.
  - unfold write in Ew. by destruct (length data <? 4)%nat.
  - unfold write in Ew. destruct (Nat.ltb_spec (length data) 4); [lia|done].
Qed.

(** The load register sets the clock; whatever else is written afterwards, the data
    register shows the value loaded plus the whole seconds since, modulo [2^32]. *)
Lemma pl031_load_counts v t0 t ws self : is_u32 v -> t0 <= t -> Forall (fun w => w.2 <> 8 /\ (4 <= length w.1.2)%nat) ws ->
  exists d d', write t0 (le_bytes 4 v) 8 self = Ok (d, true) /\ pl_writes ws d = Ok d' /\
    read t [0; 0; 0; 0] 0 d' = (true, le_bytes 4 (wrap 32 ((t - t0) / NANOSECONDS_PER_SECOND + v))).
Proof.
  intros Hv Ht Hf. set (s := state self).
  destruct (pl_writes_keep ws (mkPL031 (mkPL031State (mr s) v (imsr s) (risr s)) v t0 (pl_injected self)) Hf) as (d' & E & E1 & E2).
  eexists _, d'. split; [|split; [exact E|]].
  - unfold write. rewrite le_bytes_length. cbn [Nat.ltb Nat.leb]. by rewrite take_ge, le_val_u32 by (rewrite ?le_bytes_length; done).
  - unfold read, pl_get_current_value, elapsed. cbn [Z.leb Z.ltb Z.compare andb]. cbn [pl_tick_offset pl_base_time] in E1, E2. by rewrite E1, E2, Z.max_r by lia.
Qed.

Definition regs_u32 (self : PL031) : Prop := is_u32 (mr (state self)) /\ is_u32 (lr (state self)) /\ is_u32 (imsr (state self)) /\ is_u32 (risr (state self)).

(** The registers survive a snapshot. *)
Lemma pl031_snapshot self other : regs_u32 self ->
  set_state_mut (get_state_vec self) other = Ok (mkPL031 (state self) (pl_tick_offset other) (pl_base_time other) (pl_injected other)).
Proof.
  intros (H1 & H2 & H3 & H4). unfold set_state_mut, get_state_vec. rewrite !length_app, !le_bytes_length. cbn [Nat.add Nat.eqb].
  pose proof (le_bytes_length 4 (mr (state self))) as L1. pose proof (le_bytes_length 4 (lr (state self))) as L2. pose proof (le_bytes_length 4 (imsr (state self))) as L3. pose proof (le_bytes_length 4 (risr (state self))) as L4.
  unfold slice. rewrite drop_0, take_app_length' by done.
  rewrite (drop_app_length' _ _ 4), take_app_length' by done. rewrite <-(drop_drop _ 4 4), <-(drop_drop _ 8 4), <-(drop_drop _ 4 4).
  rewrite !(drop_app_length' _ _ 4) by done. rewrite take_app_length' by done. rewrite take_ge by lia.
  rewrite !le_val_u32 by done. by destruct (state self).
Qed.
