(* ===== verification/Pflash.v ===== *)
(** * The parallel flash ([devices/src/legacy/pflash.rs])

    The command state machine of the Intel flash that holds the firmware.  The
    state is that of a realized device: [content] is the memory behind the ROM
    device region and [romd] the region's mode.  Two things of the environment are
    arguments of an access: whether switching the region's mode updates the
    topology without error ([upd]), and whether [msync] succeeds ([sync]). *)
From stdpp Require Import prelude list.
From Stdlib Require Import ZArith Lia Btauto.
From S2P Require Import Prelude NumOps.

(** ** State *)

(** [u32::trailing_zeros]. *)
Definition trailing_zeros (x : Z) : Z := if x =? 0 then 32 else Z.log2 (Z.land x (- x)).

(** The fields [new] sets once. *)
Record flash_cfg := mkCfg {
  has_backend : bool;
  block_len : Z;
  bank_width : Z;
  device_width : Z;
  max_device_width : Z;
  read_only : bool;
  ident : list Z;
  cfi_table : list Z;
  write_blk_size : Z
}.

(** [synced] lists the ranges of the region given to [msync], latest first. *)
Record PFlash := mkFlash {
  cfg : flash_cfg;
  write_cycle : Z;
  cmd : Z;
  status : Z;
  counter : Z;
  content : list Z;
  romd : bool;
  synced : list (Z * Z)
}.

Definition set_cycle n (p : PFlash) := mkFlash (cfg p) n (cmd p) (status p) (counter p) (content p) (romd p) (synced p).
Definition set_cmd c (p : PFlash) := mkFlash (cfg p) (write_cycle p) c (status p) (counter p) (content p) (romd p) (synced p).
Definition set_status v (p : PFlash) := mkFlash (cfg p) (write_cycle p) (cmd p) v (counter p) (content p) (romd p) (synced p).
Definition set_counter v (p : PFlash) := mkFlash (cfg p) (write_cycle p) (cmd p) (status p) v (content p) (romd p) (synced p).
Definition set_content l (p : PFlash) := mkFlash (cfg p) (write_cycle p) (cmd p) (status p) (counter p) l (romd p) (synced p).
Definition set_romd b (p : PFlash) := mkFlash (cfg p) (write_cycle p) (cmd p) (status p) (counter p) (content p) b (synced p).
Definition add_synced r (p : PFlash) := mkFlash (cfg p) (write_cycle p) (cmd p) (status p) (counter p) (content p) (romd p) (r :: synced p).
Definition or_status v (p : PFlash) := set_status (Z.lor (status p) v) p.

Definition put (l : list Z) (kv : nat * Z) : list Z := <[kv.1 := kv.2]> l.

(** [PFlash::new]: the checks and the CFI table.  [file_len] is the length of the
    backend file, if there is one; [cycle] and the rest start as in the source. *)
Definition PFlash_new (size : Z) (file_len : option Z) (block_len bank_width device_width : Z) (ro : bool) : res unit flash_cfg :=
  if block_len =? 0 then Err tt
  else
    let blocks_per_device := wrap 32 size / block_len in
    if blocks_per_device =? 0 then Err tt
    else if match file_len with Some len => len <? size | None => false end then Err tt
    else
      let num_devices := if device_width =? 0 then 1 else bank_width / device_width in
      if num_devices =? 0 then Panic
      else
        let block_len_per_device := block_len / num_devices in
        let device_len := wmul 32 block_len_per_device blocks_per_device in
        let buf := if bank_width =? 1 then 8 else 11 in
        let table := foldl put (replicate 82 0)
          [(16%nat, 81); (17%nat, 82); (18%nat, 89); (19%nat, 1); (20%nat, 0); (21%nat, 49); (22%nat, 0);
           (27%nat, 69); (28%nat, 85); (31%nat, 7); (32%nat, 7); (33%nat, 10); (34%nat, 0); (35%nat, 4); (36%nat, 4); (37%nat, 4); (38%nat, 0);
           (39%nat, wrap 8 (trailing_zeros device_len)); (40%nat, 2); (41%nat, 0); (42%nat, buf); (43%nat, 0);
           (44%nat, 1); (45%nat, wrap 8 (blocks_per_device - 1)); (46%nat, wrap 8 (Z.shiftr (blocks_per_device - 1) 8));
           (47%nat, wrap 8 (Z.shiftr block_len_per_device 8)); (48%nat, wrap 8 (Z.shiftr block_len_per_device 16));
           (49%nat, 80); (50%nat, 82); (51%nat, 73); (52%nat, 49); (53%nat, 48); (63%nat, 1)] in
        let blk := Z.shiftl 1 buf in
        let blk := if 1 <? num_devices then wmul 32 blk num_devices else blk in
        Ok (mkCfg (bool_decide (is_Some file_len)) block_len bank_width device_width device_width ro [137; 24; 0; 0] table blk).
(** The device as [new] and [realize] leave it over a given memory. *)
Definition realized (c : flash_cfg) (mem : list Z) : PFlash := mkFlash c 0 0 128 0 mem true [].

Definition mr_size (p : PFlash) : Z := Z.of_nat (length (content p)).

(** [Region::set_rom_device_romd]: a mode that stays the same needs no topology update. *)
Definition set_rom_device_romd (upd : bool -> bool) (ro : bool) (p : PFlash) : PFlash * bool :=
  if Bool.eqb (romd p) ro then (p, true) else (set_romd ro p, upd ro).

(** [is_illegal_cmd] only writes a warning. *)
Definition set_read_array_mode (upd : bool -> bool) (p : PFlash) : PFlash * bool :=
  let '(p, ok) := set_rom_device_romd upd true p in
  if ok then (set_cmd 0 (set_cycle 0 p), true) else (p, false).

(** ** Queries *)

(** [deposit_u32] at [8 * i] for [i = from, from + by, ...] below [limit]; [by] is positive. *)
Fixpoint repeat_deposit (fuel : nat) (i limit by_ len : Z) (field : Z -> Z) (resp : Z) : option Z :=
  match fuel with
  | O => Some resp
  | S fuel =>
    if i <? limit then
      match deposit_u32 resp (8 * i) len (field resp) with
      | Some resp => repeat_deposit fuel (i + by_) limit by_ len field resp
      | None => None
      end
    else Some resp
  end.
Definition repeat_device (p : PFlash) (resp : Z) : option Z :=
  let w := device_width (cfg p) in let bank := bank_width (cfg p) in
  if w <? bank then repeat_deposit (Z.to_nat bank) w bank w (8 * w) (fun r => r) resp else Some resp.

Definition query_index (p : PFlash) (offset : Z) : Z :=
  wshr 64 offset (wsub 32 (wadd 32 (trailing_zeros (bank_width (cfg p))) (trailing_zeros (max_device_width (cfg p)))) (trailing_zeros (device_width (cfg p)))).
Definition query_devid (p : PFlash) (offset : Z) : option Z :=
  match Z.land (query_index p offset) 255 with
  | 0 => repeat_device p (nth 0 (ident (cfg p)) 0)
  | 1 => repeat_device p (nth 1 (ident (cfg p)) 0)
  | _ => Some 0
  end.
Definition query_cfi (p : PFlash) (offset : Z) : option Z :=
  let index := query_index p offset in
  if Z.of_nat (length (cfi_table (cfg p))) <=? index then None
  else
    let entry := nth (Z.to_nat index) (cfi_table (cfg p)) 0 in
    resp ← (if negb (device_width (cfg p) =? max_device_width (cfg p)) then
              if negb (device_width (cfg p) =? 1) || (4 <? bank_width (cfg p)) then None
              else repeat_deposit (Z.to_nat (max_device_width (cfg p))) 1 (max_device_width (cfg p)) 1 8 (fun _ => entry) entry
            else Some entry);
    repeat_device p resp.

(** The loop of [read] that combines queries; it stops at the first failure. *)
Fixpoint query_loop (query : Z -> option Z) (fuel : nat) (bank offset i data_len ret : Z) : Z :=
  match fuel with
  | O => ret
  | S fuel =>
    if i <? data_len then
      match query (wadd 64 offset (wmul 32 i bank)) with
      | Some v =>
        match deposit_u32 ret (wmul 32 i 8) (wmul 32 bank 8) v with
        | Some ret => query_loop query fuel bank offset (i + bank) data_len ret
        | None => ret
        end
      | None => ret
      end
    else ret
  end.

(** ** Content *)

(** [update_content] passes [msync] the start of the region, whatever the offset. *)
Definition update_content (sync : bool) (offset size : Z) (p : PFlash) : PFlash * bool :=
  if negb (has_backend (cfg p)) then (p, true)
  else if mr_size p <? wadd 64 offset size then (p, false)
  else if sync then (add_synced (0, size) p, true) else (p, false).

Definition read_data (data : list Z) (offset : Z) (p : PFlash) : option (list Z) :=
  if mr_size p <? wadd 64 offset (Z.of_nat (length data)) then None
  else Some (slice (content p) (Z.to_nat offset) (length data)).

Definition write_data (data : list Z) (offset : Z) (p : PFlash) : PFlash * bool :=
  if mr_size p <? wadd 64 offset (Z.of_nat (length data)) then (p, false)
  else (set_content (splice (content p) (Z.to_nat offset) data) p, true).

(** ** The write cycles *)

(** Writing failures and [msync] failures are logged and dropped. *)
Definition program (sync : bool) (data : list Z) (offset : Z) (p : PFlash) : PFlash :=
  (update_content sync offset (Z.of_nat (length data)) (write_data data offset p).1).1.

Definition handle_write_first_pass (upd : bool -> bool) (sync : bool) (c offset : Z) (p : PFlash) : PFlash * bool :=
  let next p := (set_cmd c (set_cycle (write_cycle p + 1) p), true) in
  match c with
  | 0x00 | 0xf0 | 0xff => set_read_array_mode upd p
  | 0x10 | 0x40 | 0x60 | 0x98 => next p
  | 0x20 =>
    let block_len := block_len (cfg p) in
    let offset_mask := Z.land offset (wnot 64 (block_len - 1)) in
    let p :=
      if negb (read_only (cfg p)) then
        let p := (write_data (replicate (Z.to_nat block_len) 255) offset_mask p).1 in
        (update_content sync offset_mask block_len p).1
      else or_status 0x20 p in
    next (or_status 0x80 p)
  | 0x50 => set_read_array_mode upd (set_status 0 p)
  | 0x70 | 0x90 => (set_cmd c p, true)
  | 0xe8 => next (or_status 0x80 p)
  | _ => set_read_array_mode upd p
  end.

Definition handle_write_second_pass (upd : bool -> bool) (sync : bool) (c offset : Z) (data : list Z) (value : Z) (p : PFlash) : PFlash * bool :=
  let ready p := (or_status 0x80 (set_cycle 0 p), true) in
  match cmd p with
  | 0x10 | 0x40 =>
    ready (if negb (read_only (cfg p)) then program sync data offset p else or_status 0x10 p)
  | 0x20 | 0x28 => if c =? 0xd0 then ready p else set_read_array_mode upd p
  | 0xe8 =>
    let length := if negb (device_width (cfg p) =? 0) then wmul 32 (device_width (cfg p)) 8 else wmul 32 (bank_width (cfg p)) 8 in
    match extract_u32 value 0 length with
    | Some v => (set_cycle (write_cycle p + 1) (set_counter v p), true)
    | None => (p, false)
    end
  | 0x60 => if (c =? 0xd0) || (c =? 0x01) then ready p else set_read_array_mode upd p
  | 0x98 => if c =? 0xff then set_read_array_mode upd p else (p, true)
  | _ => set_read_array_mode upd p
  end.

Definition handle_write_third_pass (upd : bool -> bool) (sync : bool) (offset : Z) (data : list Z) (p : PFlash) : PFlash * bool :=
  match cmd p with
  | 0xe8 =>
    let p := or_status 0x80 (if negb (read_only (cfg p)) then (write_data data offset p).1 else or_status 0x10 p) in
    if counter p =? 0 then
      let mask := wnot 64 (write_blk_size (cfg p) - 1) in
      let p := set_cycle (write_cycle p + 1) p in
      (if negb (read_only (cfg p)) then (update_content sync (Z.land offset mask) (write_blk_size (cfg p)) p).1
       else or_status 0x10 p, true)
    else (set_counter (counter p - 1) p, true)
  | _ => set_read_array_mode upd p
  end.

Definition handle_write_fourth_pass (upd : bool -> bool) (c : Z) (p : PFlash) : PFlash * bool :=
  match cmd p with
  | 0xe8 => if c =? 0xd0 then (or_status 0x80 (set_cycle 0 p), true) else set_read_array_mode upd p
  | _ => set_read_array_mode upd p
  end.

Definition write (upd : bool -> bool) (sync : bool) (data : list Z) (offset : Z) (p : PFlash) : PFlash * bool :=
  match read_data_u32 data with
  | None => (p, false)
  | Some value =>
    let c := nth 0 data 0 in
    let p := if write_cycle p =? 0 then (set_rom_device_romd upd false p).1 else p in
    match write_cycle p with
    | 0 => handle_write_first_pass upd sync c offset p
    | 1 => handle_write_second_pass upd sync c offset data value p
    | 2 => handle_write_third_pass upd sync offset data p
    | 3 => handle_write_fourth_pass upd c p
    | _ => ((set_read_array_mode upd p).1, false)
    end
  end.

(** ** Reads *)

(** The status of every device in the bank. *)
Fixpoint status_loop (fuel : nat) (st w shift len ret : Z) : Z :=
  match fuel with
  | O => ret
  | S fuel => if shift + w * 8 <=? len * 8 then status_loop fuel st w (shift + w * 8) len (Z.lor ret (wshl 32 st shift)) else ret
  end.
Definition read_status (p : PFlash) (data_len : Z) : Z :=
  let w := device_width (cfg p) in
  if negb (w =? 0) && (w <? data_len) then status_loop (Z.to_nat data_len) (status p) w (w * 8) data_len (status p)
  else if (w =? 0) && (2 <? data_len) then Z.lor (status p) (wshl 32 (status p) 16)
  else status p.

(** The index of a query when no device width is given. *)
Definition plain_index (p : PFlash) (offset : Z) : Z :=
  let index := Z.land offset 255 in
  if bank_width (cfg p) =? 2 then Z.shiftr index 1 else if bank_width (cfg p) =? 4 then Z.shiftr index 2 else index.

Definition read (data : list Z) (offset : Z) (p : PFlash) : PFlash * bool * list Z :=
  let data_len := Z.of_nat (length data) in
  let reply p ret := let '(ok, data) := write_data_u32 data ret in (p, ok, data) in
  match cmd p with
  | 0x00 => (p, true, default data (read_data data offset p))
  | 0x10 | 0x20 | 0x28 | 0x40 | 0x50 | 0x60 | 0x70 | 0xe8 => reply p (read_status p data_len)
  | 0x90 =>
    if device_width (cfg p) =? 0 then
      reply p match plain_index p offset with
              | 0 => Z.lor (wshl 32 (nth 0 (ident (cfg p)) 0) 8) (nth 1 (ident (cfg p)) 0)
              | 1 => Z.lor (wshl 32 (nth 2 (ident (cfg p)) 0) 8) (nth 3 (ident (cfg p)) 0)
              | _ => 0
              end
    else reply p (query_loop (query_devid p) (length data) (bank_width (cfg p)) offset 0 data_len 0)
  | 0x98 =>
    if device_width (cfg p) =? 0 then
      reply p (if plain_index p offset <? Z.of_nat (length (cfi_table (cfg p))) then nth (Z.to_nat (plain_index p offset)) (cfi_table (cfg p)) 0 else 0)
    else reply p (query_loop (query_cfi p) (length data) (bank_width (cfg p)) offset 0 data_len 0)
  | _ =>
    (* the bytes read are overwritten by the reply below *)
    let p := set_cmd 0 (set_cycle 0 p) in
    let data := default data (read_data data offset p) in
    let '(ok, data) := write_data_u32 data 0 in (p, ok, data)
  end.

Definition reset (upd : bool -> bool) (p : PFlash) : PFlash * bool :=
  let '(p, ok) := set_rom_device_romd upd true p in
  if ok then (set_status 0x80 (set_cycle 0 (set_cmd 0 p)), true) else (p, false).

(** ** The state machine *)

(** The command of each cycle: which commands wait for a second, third or fourth access. *)
Definition machine_ok (p : PFlash) : Prop :=
  match write_cycle p with
  | 0 => cmd p ∈ [0x00; 0x10; 0x20; 0x40; 0x60; 0x70; 0x90; 0xe8]
  | 1 => cmd p ∈ [0x10; 0x20; 0x40; 0x60; 0x98; 0xe8]
  | 2 | 3 => cmd p = 0xe8
  | _ => False
  end.

Lemma machine_cases p : machine_ok p ->
  (write_cycle p = 0 /\ cmd p ∈ [0x00; 0x10; 0x20; 0x40; 0x60; 0x70; 0x90; 0xe8]) \/
  (write_cycle p = 1 /\ cmd p ∈ [0x10; 0x20; 0x40; 0x60; 0x98; 0xe8]) \/
  ((write_cycle p = 2 \/ write_cycle p = 3) /\ cmd p = 0xe8).
Proof.
  unfold machine_ok. destruct (write_cycle p) as [|q|q]; [auto| |done]. repeat (destruct q as [q|q|]; try done); auto.
Qed.

(** Membership in a list of constants. *)
Ltac mem := apply (bool_decide_unpack _); vm_compute; exact I.

(** What the first cycle does with each command byte. *)
Lemma first_pass_cases upd sync c offset p :
  let r := handle_write_first_pass upd sync c offset p in
  let next p := (set_cmd c (set_cycle (write_cycle p + 1) p), true) in
  let block := Z.land offset (wnot 64 (block_len (cfg p) - 1)) in
  (r = set_read_array_mode upd p \/ r = set_read_array_mode upd (set_status 0 p)) \/
  (c ∈ [0x70; 0x90] /\ r = (set_cmd c p, true)) \/
  (c ∈ [0x10; 0x40; 0x60; 0x98] /\ r = next p) \/
  (c = 0xe8 /\ r = next (or_status 0x80 p)) \/
  (c = 0x20 /\ r = next (or_status 0x80
     (if negb (read_only (cfg p))
      then (update_content sync block (block_len (cfg p)) (write_data (replicate (Z.to_nat (block_len (cfg p))) 255) block p).1).1
      else or_status 0x20 p))).
Proof.
  cbv zeta. destruct c as [|q|q]; [by left; left| |by left; left].
  repeat (destruct q as [q|q|]; try (by left; left)).
  all: first [by left; right | right; left; split; [mem|reflexivity] | do 2 right; left; split; [mem|reflexivity]
             | do 3 right; left; split; reflexivity | do 4 right; split; reflexivity].
Qed.

(** Masking off the low bits of an address. *)
Lemma land_block x k : 0 <= k <= 64 -> inW 64 x -> Z.land x (wnot 64 (2 ^ k - 1)) = x / 2 ^ k * 2 ^ k.
Proof.
  intros Hk Hx. rewrite <-Z.shiftr_div_pow2, <-Z.shiftl_mul_pow2 by lia. apply Z.bits_inj'. intros i Hi.
  assert (inW 64 (2 ^ k - 1)) as Hw. { pose proof (Z.pow_le_mono_r 2 k 64 ltac:(lia) ltac:(lia)). pose proof (Z.pow_pos_nonneg 2 k ltac:(lia) ltac:(lia)). unfold inW. lia. }
  rewrite Z.land_spec, Z.shiftl_spec by lia. replace (2 ^ k - 1) with (Z.ones k) in * by (rewrite Z.ones_equiv; lia).
  destruct (Z.lt_ge_cases i 64) as [Hl|Hl].
  - rewrite wnot_testbit by (try done; lia). rewrite Z.testbit_ones_nonneg by lia. destruct (Z.ltb_spec i k).
    + rewrite andb_false_r. symmetry. apply Z.testbit_neg_r. lia.
    + rewrite andb_true_r, Z.shiftr_spec by lia. f_equal. lia.
  - rewrite (testbit_above 64 x i) by (done || lia). rewrite Z.shiftr_spec by lia. by rewrite (testbit_above 64 x) by (done || lia).
Qed.

(** A change of the content confined to a range. *)
Record wrote (p p' : PFlash) (lo len : Z) : Prop := mkWrote {
  w_cfg : cfg p' = cfg p;
  w_length : length (content p') = length (content p);
  w_outside : forall a, ~ (lo <= Z.of_nat a < lo + len) -> content p' !! a = content p !! a;
  w_read_only : read_only (cfg p) = true -> content p' = content p
}.
Lemma wrote_same p p' lo len : cfg p' = cfg p -> content p' = content p -> wrote p p' lo len.
Proof. intros E1 E2. by split; rewrite ?E1, ?E2. Qed.
Lemma array_mode_same upd p : let r := set_read_array_mode upd p in
  cfg r.1 = cfg p /\ content r.1 = content p /\ status r.1 = status p /\
  ((r.2 = true /\ write_cycle r.1 = 0 /\ cmd r.1 = 0) \/ (r.2 = false /\ write_cycle r.1 = write_cycle p /\ cmd r.1 = cmd p)).
Proof.
  unfold set_read_array_mode, set_rom_device_romd. destruct (Bool.eqb _ _); [cbn; auto 9|]. destruct (upd true); cbn; auto 9.
Qed.
Lemma array_mode_ok upd p lo len : machine_ok p -> machine_ok (set_read_array_mode upd p).1 /\ wrote p (set_read_array_mode upd p).1 lo len.
Proof.
  intros Hm. destruct (array_mode_same upd p) as (E1 & E2 & _ & E3). split; [|by apply wrote_same].
  unfold machine_ok in *. destruct E3 as [(_ & -> & ->)|(_ & -> & ->)]; [mem|done].
Qed.
Lemma write_data_wrote data offset p : read_only (cfg p) = false -> 0 <= offset -> offset + Z.of_nat (length data) < 2 ^ 64 ->
  wrote p (write_data data offset p).1 offset (Z.of_nat (length data)).
Proof.
  intros Hro Ho Hb. unfold write_data. rewrite wadd_small by (unfold inW; lia). destruct (Z.ltb_spec (mr_size p) (offset + Z.of_nat (length data))); [by apply wrote_same|].
  unfold mr_size in *. split; cbn; [done| | |congruence].
  - rewrite splice_length by lia. done.
  - intros a Ha. rewrite lookup_splice by lia. repeat case_decide; try lia; done.
Qed.
Lemma update_content_same sync offset size p : let p' := (update_content sync offset size p).1 in
  cfg p' = cfg p /\ content p' = content p /\ write_cycle p' = write_cycle p /\ cmd p' = cmd p /\ status p' = status p /\ counter p' = counter p /\ romd p' = romd p.
Proof. unfold update_content. destruct (negb _); [done|]. destruct (_ <? _); [done|]. by destruct sync. Qed.
Lemma write_data_same data offset p : let p' := (write_data data offset p).1 in
  cfg p' = cfg p /\ write_cycle p' = write_cycle p /\ cmd p' = cmd p /\ status p' = status p /\ counter p' = counter p /\ romd p' = romd p.
Proof. unfold write_data. by destruct (_ <? _). Qed.

(** ** Accesses *)

Section geometry.
Variable k : Z.
(** Blocks are a power of two, and the region ends below [2^63]. *)
Definition flash_ok (p : PFlash) : Prop :=
  machine_ok p /\ block_len (cfg p) = 2 ^ k /\ 0 <= k < 32 /\ mr_size p < 2 ^ 63.

Definition block_of (offset : Z) : Z := offset / 2 ^ k * 2 ^ k.

(** The range an access may change: a block if it starts an erase, else its own bytes. *)
Definition reach (p : PFlash) (data : list Z) (offset : Z) : Z * Z :=
  if (write_cycle p =? 0) && (nth 0 data 0 =? 0x20) then (block_of offset, 2 ^ k) else (offset, Z.of_nat (length data)).

Lemma first_pass_ok upd sync c offset p n : flash_ok p -> write_cycle p = 0 -> 0 <= offset < 2 ^ 63 ->
  let r := handle_write_first_pass upd sync c offset p in
  machine_ok r.1 /\ wrote p r.1 (if c =? 0x20 then block_of offset else offset) (if c =? 0x20 then 2 ^ k else n).
Proof.
  intros (Hm & Hb & Hk & Hs) Hc Ho. cbv zeta. pose proof (Z.pow_lt_mono_r 2 k 32 ltac:(lia) ltac:(lia) ltac:(lia)) as Hbl. pose proof (Z.pow_pos_nonneg 2 k ltac:(lia) ltac:(lia)).
  destruct (first_pass_cases upd sync c offset p) as [[-> | ->]|[(Hin & ->)|[(Hin & ->)|[(-> & ->)|(-> & ->)]]]].
  - by apply array_mode_ok.
  - destruct (array_mode_ok upd (set_status 0 p) (if c =? 32 then block_of offset else offset) (if c =? 32 then 2 ^ k else n)) as [H1 H2]; [done|]. split; [done|]. by destruct H2.
  - split; [|by apply wrote_same]. unfold machine_ok. cbn. rewrite Hc. set_solver.
  - split; [|by apply wrote_same]. unfold machine_ok. cbn. rewrite Hc. set_solver.
  - split; [|by apply wrote_same]. unfold machine_ok. cbn. rewrite Hc. mem.
  - change (0x20 =? 0x20) with true. rewrite Hb. rewrite land_block by (unfold inW; lia). fold (block_of offset).
    destruct (read_only (cfg p)) eqn:Hro; cbn [negb].
    + split; [|by apply wrote_same]. unfold machine_ok. cbn. rewrite Hc. mem.
    + assert (0 <= block_of offset < 2 ^ 63). { unfold block_of. pose proof (Z.div_mod offset (2 ^ k) ltac:(lia)). pose proof (Z.mod_pos_bound offset (2 ^ k) ltac:(lia)). pose proof (Z.div_pos offset (2 ^ k) ltac:(lia) ltac:(lia)). nia. }
      pose proof (write_data_wrote (replicate (Z.to_nat (2 ^ k)) 255) (block_of offset) p Hro) as Hw. rewrite length_replicate, Z2Nat.id in Hw by lia.
      destruct Hw as [W1 W2 W3 W4]; [lia..|]. destruct (write_data_same (replicate (Z.to_nat (2 ^ k)) 255) (block_of offset) p) as (_ & D2 & D3 & _).
      set (p1 := (write_data _ _ p).1) in *. destruct (update_content_same sync (block_of offset) (2 ^ k) p1) as (U1 & U2 & U3 & U4 & _). set (p2 := (update_content _ _ _ p1).1) in *.
      split; [unfold machine_ok; cbn; rewrite U3, D2, Hc; mem|]. split; cbn; rewrite ?U1, ?U2; auto.
Qed.

Lemma program_ok sync data offset p : read_only (cfg p) = false -> 0 <= offset -> offset + Z.of_nat (length data) < 2 ^ 64 ->
  wrote p (program sync data offset p) offset (Z.of_nat (length data)).
Proof.
  intros Hro Ho Hl. unfold program. destruct (write_data_wrote data offset p Hro Ho Hl) as [W1 W2 W3 W4].
  destruct (update_content_same sync offset (Z.of_nat (length data)) (write_data data offset p).1) as (U1 & U2 & _). split; rewrite ?U1, ?U2; auto.
Qed.

Lemma second_pass_ok upd sync c offset data value p : flash_ok p -> write_cycle p = 1 -> 0 <= offset -> offset + Z.of_nat (length data) < 2 ^ 64 ->
  let r := handle_write_second_pass upd sync c offset data value p in
  machine_ok r.1 /\ wrote p r.1 offset (Z.of_nat (length data)).
Proof.
  intros (Hm & _) Hc Ho Hl. cbv zeta. pose proof Hm as Hm'. unfold machine_ok in Hm'. rewrite Hc in Hm'.
  pose proof (array_mode_ok upd p offset (Z.of_nat (length data)) Hm) as Ha.
  assert (forall p', wrote p p' offset (Z.of_nat (length data)) -> cmd p' = cmd p -> cmd p <> 0x98 ->
    machine_ok (or_status 0x80 (set_cycle 0 p')) /\ wrote p (or_status 0x80 (set_cycle 0 p')) offset (Z.of_nat (length data))) as Hready.
  { intros p' [] E Hne. split; [|by split]. unfold machine_ok. cbn. rewrite E. clear -Hm' Hne. rewrite !elem_of_cons in *. tauto. }
  pose proof (wrote_same p p offset (Z.of_nat (length data)) eq_refl eq_refl) as Hsame.
  assert (cmd p = 0x10 \/ cmd p = 0x20 \/ cmd p = 0x40 \/ cmd p = 0x60 \/ cmd p = 0x98 \/ cmd p = 0xe8) as Hcmd by set_solver.
  assert (forall b : bool, b = read_only (cfg p) -> cmd p = 0x10 \/ cmd p = 0x40 ->
    let p' := if negb b then program sync data offset p else or_status 0x10 p in wrote p p' offset (Z.of_nat (length data)) /\ cmd p' = cmd p) as Hprog.
  { intros b Eb _. destruct b; cbn [negb]; [split; [by apply wrote_same | done]|]. split; [by apply program_ok|]. unfold program.
    destruct (update_content_same sync offset (Z.of_nat (length data)) (write_data data offset p).1) as (_ & _ & _ & -> & _). by destruct (write_data_same data offset p) as (_ & _ & -> & _). }
  unfold handle_write_second_pass. repeat destruct Hcmd as [E|Hcmd]; try rename Hcmd into E; rewrite E.
  - destruct (Hprog _ eq_refl ltac:(auto)). apply Hready; [done..|lia].
  - destruct (c =? 0xd0); [apply Hready; [done..|lia] | exact Ha].
  - destruct (Hprog _ eq_refl ltac:(auto)). apply Hready; [done..|lia].
  - destruct (_ || _); [apply Hready; [done..|lia] | exact Ha].
  - by destruct (c =? 0xff).
  - destruct (extract_u32 _ _ _) as [v|]; [|done]. split; [|by apply wrote_same]. unfold machine_ok. cbn. by rewrite Hc.
Qed.

Lemma third_pass_ok upd sync offset data p : cmd p = 0xe8 -> write_cycle p = 2 -> 0 <= offset -> offset + Z.of_nat (length data) < 2 ^ 64 ->
  let r := handle_write_third_pass upd sync offset data p in
  machine_ok r.1 /\ wrote p r.1 offset (Z.of_nat (length data)).
Proof.
  intros E Hc Ho Hl. cbv zeta. unfold handle_write_third_pass. rewrite E.
  set (p1 := if negb (read_only (cfg p)) then (write_data data offset p).1 else or_status 0x10 p).
  assert (wrote p p1 offset (Z.of_nat (length data)) /\ cmd p1 = 0xe8 /\ write_cycle p1 = 2) as ([W1 W2 W3 W4] & E1 & C1).
  { unfold p1. destruct (read_only (cfg p)) eqn:Hro; cbn [negb]; [split; [by apply wrote_same|done]|].
    destruct (write_data_same data offset p) as (_ & -> & -> & _). split; [by apply write_data_wrote|done]. }
  clearbody p1. destruct (counter (or_status 0x80 p1) =? 0); cbn [fst].
  - set (p2 := set_cycle _ _). assert (cfg p2 = cfg p1 /\ content p2 = content p1 /\ cmd p2 = 0xe8 /\ write_cycle p2 = 3) as (F1 & F2 & F3 & F4) by (by cbn; rewrite C1).
    clearbody p2. destruct (negb _).
    + match goal with |- context [update_content sync ?o ?n p2] => destruct (update_content_same sync o n p2) as (U1 & U2 & U3 & U4 & _) end.
      split; [unfold machine_ok; rewrite U3, U4, F4, F3; done|]. split; rewrite ?U1, ?U2, ?F1, ?F2; auto.
    + split; [unfold machine_ok; cbn; rewrite F4, F3; done|]. split; cbn; rewrite ?F1, ?F2; auto.
  - split; [unfold machine_ok; cbn; by rewrite C1|]. by split.
Qed.

Lemma fourth_pass_ok upd c p lo len : machine_ok p -> cmd p = 0xe8 ->
  let r := handle_write_fourth_pass upd c p in machine_ok r.1 /\ wrote p r.1 lo len.
Proof.
  intros Hm E. cbv zeta. unfold handle_write_fourth_pass. rewrite E. destruct (c =? 0xd0); [|by apply array_mode_ok].
  split; [|by apply wrote_same]. unfold machine_ok. cbn. rewrite E. mem.
Qed.

(** Any guest write keeps the machine in a known state and changes at most the
    bytes in its reach. *)
Lemma write_ok upd sync data offset p : flash_ok p -> 0 <= offset -> offset + Z.of_nat (length data) <= mr_size p -> is_bytes data ->
  let p' := (write upd sync data offset p).1 in
  flash_ok p' /\ wrote p p' (reach p data offset).1 (reach p data offset).2.
Proof.
  intros Hp Ho Hl Hd. cbv zeta. cut (machine_ok (write upd sync data offset p).1 /\ wrote p (write upd sync data offset p).1 (reach p data offset).1 (reach p data offset).2).
  { intros [Hm Hw]. split; [|done]. destruct Hp as (_ & Hb & Hk & Hs). destruct Hw as [W1 W2 _ _]. unfold flash_ok, mr_size in *. by rewrite W1, W2. }
  pose proof Hp as (Hm & Hb & Hk & Hs). unfold write. destruct (read_data_u32 data) as [value|] eqn:Ev; [|split; [done|by apply wrote_same]].
  destruct data as [|b data]; [done|]. set (dat := b :: data) in *. assert (1 <= Z.of_nat (length dat)) by (cbn; lia).
  destruct (machine_cases p Hm) as [[Hc Hcmd]|[[Hc Hcmd]|[Hc Hcmd]]].
  - rewrite Hc. set (p1 := (set_rom_device_romd upd false p).1).
    assert (cfg p1 = cfg p /\ content p1 = content p /\ write_cycle p1 = 0 /\ cmd p1 = cmd p) as (F1 & F2 & F3 & F4).
    { unfold p1, set_rom_device_romd. by destruct (Bool.eqb _ _). }
    change (0 =? 0) with true. cbv iota. rewrite F3. destruct (first_pass_ok upd sync (nth 0 dat 0) offset p1 (Z.of_nat (length dat))) as [H1 H2]; [|done|lia|].
    { unfold flash_ok, machine_ok, mr_size in *. rewrite F1, F2, F3, F4. rewrite Hc in Hm. auto. }
    split; [done|]. unfold reach. rewrite Hc. change (0 =? 0) with true. cbn [andb]. destruct H2 as [W1 W2 W3 W4]. rewrite F1, F2 in *.
    destruct (nth 0 dat 0 =? 0x20); split; rewrite ?W1, ?W2; auto.
  - unfold reach. rewrite !Hc. change (1 =? 0) with false. cbn [andb fst snd]. rewrite Hc. apply second_pass_ok; [done..|lia].
  - assert ((write_cycle p =? 0) = false) as E0 by (destruct Hc as [-> | ->]; done). unfold reach. rewrite E0. cbn [andb fst snd].
    destruct Hc as [Hc|Hc]; rewrite Hc; [apply third_pass_ok; [done..|lia] | by apply fourth_pass_ok].
Qed.
End geometry.

(** ** The flash as the guest programs it *)

(** A flash is an array of bytes, a status byte, and what a read returns. *)
Record flash_spec := mkSpec { f_mem : list Z; f_status : Z; f_mode : Z }.
Definition abs (p : PFlash) : flash_spec := mkSpec (content p) (status p) (cmd p).

Inductive flash_cmd :=
| ReadArray
| ClearStatus
| ReadStatus
| ReadId
| Erase (offset : Z)
| Program (offset : Z) (data : list Z)
| WriteBuffer (words : list (Z * list Z)).

(** The writes that make up a command. *)
Definition encode (c : flash_cmd) : list (Z * list Z) :=
  match c with
  | ReadArray => [(0, [0xff])]
  | ClearStatus => [(0, [0x50])]
  | ReadStatus => [(0, [0x70])]
  | ReadId => [(0, [0x90])]
  | Erase offset => [(offset, [0x20]); (offset, [0xd0])]
  | Program offset data => [(offset, [0x40]); (offset, data)]
  | WriteBuffer words => (0, [0xe8]) :: (0, [Z.of_nat (length words) - 1]) :: words ++ [(0, [0xd0])]
  end.

(** What the command means. *)
Definition store (ro : bool) (mem : list Z) (w : Z * list Z) : list Z := if ro then mem else splice mem (Z.to_nat w.1) w.2.
Definition raise (ro : bool) (err st : Z) : Z := Z.lor (if ro then Z.lor st err else st) 0x80.
Definition flash_do (g : flash_cfg) (s : flash_spec) (c : flash_cmd) : flash_spec :=
  let ro := read_only g in
  match c with
  | ReadArray => mkSpec (f_mem s) (f_status s) 0
  | ClearStatus => mkSpec (f_mem s) 0 0
  | ReadStatus => mkSpec (f_mem s) (f_status s) 0x70
  | ReadId => mkSpec (f_mem s) (f_status s) 0x90
  | Erase offset =>
    let bl := block_len g in
    mkSpec (store ro (f_mem s) (offset / bl * bl, replicate (Z.to_nat bl) 255)) (raise ro 0x20 (f_status s)) 0x20
  | Program offset data => mkSpec (store ro (f_mem s) (offset, data)) (raise ro 0x10 (f_status s)) 0x40
  | WriteBuffer words => mkSpec (foldl (store ro) (f_mem s) words) (raise ro 0x10 (f_status s)) 0xe8
  end.

Definition word_ok (size : Z) (w : Z * list Z) : Prop :=
  0 <= w.1 /\ w.1 + Z.of_nat (length w.2) <= size /\ length w.2 ∈ [1; 2; 4]%nat.
Definition cmd_ok (size : Z) (g : flash_cfg) (c : flash_cmd) : Prop :=
  match c with
  | Erase offset => 0 <= offset < size /\ (block_len g | size)
  | Program offset data => word_ok size (offset, data)
  | WriteBuffer words => words <> [] /\ (length words <= 256)%nat /\ Forall (word_ok size) words
  | _ => True
  end.

Fixpoint run_writes (upd : bool -> bool) (sync : bool) (ws : list (Z * list Z)) (p : PFlash) : PFlash * bool :=
  match ws with
  | [] => (p, true)
  | (offset, data) :: ws =>
    let '(p, ok) := write upd sync data offset p in
    let '(p, oks) := run_writes upd sync ws p in
    (p, ok && oks)
  end.

(** A state, up to the region's mode and the log of [msync] calls. *)
Definition at_ (g : flash_cfg) (n c st : Z) (m : list Z) (p : PFlash) : Prop :=
  cfg p = g /\ write_cycle p = n /\ cmd p = c /\ status p = st /\ content p = m.

Section commands.
Context (g : flash_cfg) (upd : bool -> bool) (sync : bool) (k : Z).
Context (Hupd : upd true = true) (Hk : 0 <= k < 32) (Hbl : block_len g = 2 ^ k).
Context (Hdw : 1 <= (if device_width g =? 0 then bank_width g else device_width g) <= 4).

Lemma run_writes_app ws1 ws2 p p1 : run_writes upd sync ws1 p = (p1, true) -> run_writes upd sync (ws1 ++ ws2) p = run_writes upd sync ws2 p1.
Proof.
  revert p. induction ws1 as [|[o d] ws1 IH]; intros p; cbn [run_writes app]; [by intros [= ->]|].
  destruct (write upd sync d o p) as [p2 ok]. destruct (run_writes upd sync ws1 p2) as [p3 oks] eqn:E. intros [= -> Hb]. apply andb_prop in Hb as [-> ->].
  rewrite (IH _ E). by destruct (run_writes upd sync ws2 p1).
Qed.

(** The first write of a command, from a ready flash. *)
Lemma first_write c0 offset p c st m : at_ g 0 c st m p ->
  exists p1, at_ g 0 c st m p1 /\ write upd sync [c0] offset p = handle_write_first_pass upd sync c0 offset p1.
Proof.
  intros (H1 & H2 & H3 & H4 & H5). exists (set_rom_device_romd upd false p).1.
  assert (at_ g 0 c st m (set_rom_device_romd upd false p).1) as Ha by (unfold set_rom_device_romd; by destruct (Bool.eqb _ _)). split; [done|].
  unfold write. cbn [read_data_u32 nth]. rewrite H2. change (0 =? 0) with true. cbv iota. destruct Ha as (_ & -> & _). done.
Qed.
Lemma array_mode_at n c st m p : at_ g n c st m p -> exists p', set_read_array_mode upd p = (p', true) /\ at_ g 0 0 st m p'.
Proof.
  intros (H1 & H2 & H3 & H4 & H5). unfold set_read_array_mode, set_rom_device_romd. rewrite Hupd. destruct (Bool.eqb _ _); eexists; (split; [done|]); by repeat split.
Qed.
Lemma update_content_at n c st m o len p : at_ g n c st m p -> at_ g n c st m (update_content sync o len p).1.
Proof. intros (H1 & H2 & H3 & H4 & H5). destruct (update_content_same sync o len p) as (U1 & U2 & U3 & U4 & U5 & _). unfold at_. by rewrite U1, U2, U3, U4, U5. Qed.
Lemma write_data_at n c st m o data p : at_ g n c st m p -> 0 <= o -> o + Z.of_nat (length data) <= Z.of_nat (length m) < 2 ^ 63 ->
  at_ g n c st (splice m (Z.to_nat o) data) (write_data data o p).1.
Proof.
  intros (H1 & H2 & H3 & H4 & H5) Ho Hl. unfold write_data, mr_size. rewrite H5, wadd_small by (unfold inW; lia).
  destruct (Z.ltb_spec (Z.of_nat (length m)) (o + Z.of_nat (length data))); [lia|]. by repeat split.
Qed.
Lemma at_status v n c st m p : at_ g n c st m p -> at_ g n c v m (set_status v p).
Proof. intros (H1 & H2 & H3 & H4 & H5). by repeat split. Qed.
Lemma at_cycle n' n c st m p : at_ g n c st m p -> at_ g n' c st m (set_cycle n' p).
Proof. intros (H1 & H2 & H3 & H4 & H5). by repeat split. Qed.
Lemma at_cmd c' n c st m p : at_ g n c st m p -> at_ g n c' st m (set_cmd c' p).
Proof. intros (H1 & H2 & H3 & H4 & H5). by repeat split. Qed.
Lemma at_counter v n c st m p : at_ g n c st m p -> at_ g n c st m (set_counter v p).
Proof. intros (H1 & H2 & H3 & H4 & H5). by repeat split. Qed.
Lemma at_or v n c st m p : at_ g n c st m p -> at_ g n c (Z.lor st v) m (or_status v p).
Proof. intros H. unfold or_status. rewrite (proj1 (proj2 (proj2 (proj2 H)))). by eapply at_status. Qed.

Lemma raise_ready ro e st : Z.lor (raise ro e st) 0x80 = raise ro e st /\ raise ro e (Z.lor st 0x80) = raise ro e st /\ raise ro e (raise ro e st) = raise ro e st.
Proof. unfold raise. destruct ro; split_and!; apply Z.bits_inj'; intros i _; rewrite !Z.lor_spec; btauto. Qed.
Lemma raise_err e st : Z.lor (raise true e st) e = raise true e st.
Proof. unfold raise. apply Z.bits_inj'; intros i _; rewrite !Z.lor_spec; btauto. Qed.

Lemma run_cons offset data ws p p1 : write upd sync data offset p = (p1, true) -> run_writes upd sync ((offset, data) :: ws) p = run_writes upd sync ws p1.
Proof. intros E. cbn [run_writes]. rewrite E. by destruct (run_writes upd sync ws p1). Qed.
Lemma run_last offset data p p1 : write upd sync data offset p = (p1, true) -> run_writes upd sync [(offset, data)] p = (p1, true).
Proof. intros E. cbn [run_writes]. by rewrite E. Qed.
Lemma word_value size w : word_ok size w -> exists v, read_data_u32 w.2 = Some v.
Proof.
  intros (_ & _ & Hl). destruct w as [o d]. cbn [snd] in *. assert (length d = 1 \/ length d = 2 \/ length d = 4)%nat as Hc by set_solver.
  destruct d as [|a [|b [|c [|e [|]]]]]; cbn in *; try lia; eauto.
Qed.

(** Single word program. *)
Lemma program_at offset data c st m p : at_ g 0 c st m p -> word_ok (Z.of_nat (length m)) (offset, data) -> Z.of_nat (length m) < 2 ^ 63 ->
  exists p', run_writes upd sync [(offset, [0x40]); (offset, data)] p = (p', true) /\
    at_ g 0 0x40 (raise (read_only g) 0x10 st) (store (read_only g) m (offset, data)) p'.
Proof.
  intros Ha Hw Hm. destruct (first_write 0x40 offset p c st m Ha) as (p1 & Ha1 & Ew). destruct (word_value _ _ Hw) as [v Ev]. cbn [snd] in Ev. destruct Hw as (Ho & Hl & _). cbn [fst snd] in *.
  rewrite (run_cons offset [0x40] _ p (set_cmd 0x40 (set_cycle (write_cycle p1 + 1) p1))) by exact Ew.
  assert (at_ g 1 0x40 st m (set_cmd 0x40 (set_cycle (write_cycle p1 + 1) p1))) as Ha2. { rewrite (proj1 (proj2 Ha1)). by eapply at_cmd, at_cycle. }
  set (p2 := set_cmd _ _) in *. clearbody p2. pose proof Ha2 as (G & C & D & _).
  eexists. split; [apply run_last; unfold write; rewrite Ev, C; change (1 =? 0) with false; cbv iota; rewrite C; unfold handle_write_second_pass; rewrite D; reflexivity|].
  apply at_or. eapply at_cycle. rewrite G. unfold store. destruct (read_only g); cbn [negb fst snd]; [by apply at_or|]. unfold program. by apply update_content_at, write_data_at.
Qed.

(** Block erase. *)
Lemma erase_at offset c st m p : at_ g 0 c st m p -> 0 <= offset < Z.of_nat (length m) -> (block_len g | Z.of_nat (length m)) -> Z.of_nat (length m) < 2 ^ 63 ->
  exists p', run_writes upd sync [(offset, [0x20]); (offset, [0xd0])] p = (p', true) /\
    at_ g 0 0x20 (raise (read_only g) 0x20 st) (store (read_only g) m (offset / block_len g * block_len g, replicate (Z.to_nat (block_len g)) 255)) p'.
Proof.
  intros Ha Ho [q Hq] Hm. destruct (first_write 0x20 offset p c st m Ha) as (p1 & Ha1 & Ew). cbn [handle_write_first_pass] in Ew. pose proof Ha1 as (G & C & _).
  pose proof (Z.pow_pos_nonneg 2 k ltac:(lia) ltac:(lia)) as Hpos. pose proof (Z.div_mod offset (2 ^ k) ltac:(lia)). pose proof (Z.mod_pos_bound offset (2 ^ k) ltac:(lia)). pose proof (Z.div_pos offset (2 ^ k) ltac:(lia) ltac:(lia)).
  rewrite G, Hbl, land_block in Ew by (unfold inW; lia). rewrite Hbl in *.
  assert (offset / 2 ^ k < q) by (apply Z.div_lt_upper_bound; lia).
  set (p2 := if negb (read_only g) then _ else _) in Ew.
  assert (at_ g 0 c (if read_only g then Z.lor st 0x20 else st) (store (read_only g) m (offset / 2 ^ k * 2 ^ k, replicate (Z.to_nat (2 ^ k)) 255)) p2) as Ha2.
  { unfold p2, store. destruct (read_only g); cbn [negb fst snd]; [by apply at_or|]. apply update_content_at, write_data_at; [done|nia|]. rewrite length_replicate, Z2Nat.id by lia. nia. }
  clearbody p2. rewrite (run_cons _ _ _ _ _ Ew).
  assert (at_ g 1 0x20 (raise (read_only g) 0x20 st) (store (read_only g) m (offset / 2 ^ k * 2 ^ k, replicate (Z.to_nat (2 ^ k)) 255)) (set_cmd 32 (set_cycle (write_cycle (or_status 128 p2) + 1) (or_status 128 p2)))) as Ha3.
  { eapply at_cmd. cbn [write_cycle or_status set_status]. rewrite (proj1 (proj2 Ha2)). eapply at_cycle. by apply at_or. }
  set (p3 := set_cmd 32 _) in *. clearbody p3. pose proof Ha3 as (_ & C3 & D3 & _).
  eexists. split; [apply run_last; unfold write; cbn [read_data_u32 nth]; rewrite C3; change (1 =? 0) with false; cbv iota; rewrite C3; unfold handle_write_second_pass; rewrite D3; reflexivity|].
  rewrite <-(proj1 (raise_ready (read_only g) 0x20 st)) at 1. apply at_or. by eapply at_cycle.
Qed.

(** Buffered write: the words, then the confirmation. *)
Lemma third_write w st m p : at_ g 2 0xe8 st m p -> word_ok (Z.of_nat (length m)) w -> Z.of_nat (length m) < 2 ^ 63 ->
  exists p', write upd sync w.2 w.1 p = (p', true) /\
    at_ g (if counter p =? 0 then 3 else 2) 0xe8 (raise (read_only g) 0x10 st) (store (read_only g) m w) p' /\ (counter p <> 0 -> counter p' = counter p - 1).
Proof.
  intros Ha Hw Hm. destruct (word_value _ _ Hw) as [v Ev]. destruct Hw as (Ho & Hl & _). pose proof Ha as (G & C & D & _).
  unfold write. rewrite Ev, C. change (2 =? 0) with false. cbv iota. rewrite C. unfold handle_write_third_pass. rewrite D, G.
  set (p1 := if negb (read_only g) then (write_data w.2 w.1 p).1 else or_status 0x10 p).
  assert (at_ g 2 0xe8 (raise (read_only g) 0x10 st) (store (read_only g) m w) (or_status 0x80 p1) /\ counter p1 = counter p) as [Ha1 Ec].
  { unfold p1, raise, store. destruct (read_only g); cbn [negb]; [split; [by apply at_or, at_or|done]|]. split; [by apply at_or, write_data_at|].
    by destruct (write_data_same w.2 w.1 p) as (_ & _ & _ & _ & -> & _). }
  clearbody p1. change (counter (or_status 0x80 p1)) with (counter p1). rewrite Ec.
  destruct (Z.eqb_spec (counter p) 0) as [E0|E0]; eexists; (split; [reflexivity|]); (split; [|intros; cbn; try lia]).
  - change (write_cycle (or_status 0x80 p1)) with (write_cycle p1). change (cfg (set_cycle (write_cycle p1 + 1) (or_status 0x80 p1))) with (cfg (or_status 0x80 p1)). pose proof Ha1 as (G1 & C1 & _).
    change (write_cycle (or_status 0x80 p1)) with (write_cycle p1) in C1. rewrite G1, C1. destruct (read_only g); cbn [negb]; [|by eapply update_content_at, at_cycle].
    rewrite <-raise_err at 1. by eapply at_or, at_cycle.
  - by apply at_counter.
Qed.
Lemma words_at w ws st m p : at_ g 2 0xe8 st m p -> counter p = Z.of_nat (length ws) -> Forall (word_ok (Z.of_nat (length m))) (w :: ws) -> Z.of_nat (length m) < 2 ^ 63 ->
  exists p', run_writes upd sync (w :: ws) p = (p', true) /\ at_ g 3 0xe8 (raise (read_only g) 0x10 st) (foldl (store (read_only g)) m (w :: ws)) p'.
Proof.
  intros Ha Hc Hf Hm. revert w st m p Ha Hc Hf Hm. induction ws as [|w2 ws IH]; intros w st m p Ha Hc Hf Hm; apply Forall_cons in Hf as [Hw Hf];
    destruct (third_write w st m p Ha Hw Hm) as (p1 & E & Ha1 & Hc1); destruct w as [o d]; cbn [fst snd] in *; rewrite Hc in *.
  - exists p1. split; [by apply run_last|done].
  - change (Z.of_nat (length (w2 :: ws)) =? 0) with false in Ha1. cbv iota in Ha1. rewrite (run_cons _ _ _ _ _ E).
    assert (length (store (read_only g) m (o, d)) = length m) as El. { unfold store. destruct (read_only g); [done|]. destruct Hw as (? & ? & _). cbn [fst snd] in *. by rewrite splice_length by lia. }
    destruct (IH w2 _ _ p1 Ha1) as (p' & E' & Ha'); [rewrite Hc1; cbn [length]; lia | by rewrite El | by rewrite El |]. exists p'. split; [done|].
    by rewrite (proj2 (proj2 (raise_ready (read_only g) 0x10 st))) in Ha'.
Qed.
Lemma extract_count n : 0 <= n < 256 -> forall w, 1 <= w <= 4 -> extract_u32 n 0 (wmul 32 w 8) = Some n.
Proof.
  intros Hn w Hw. assert (w = 1 \/ w = 2 \/ w = 3 \/ w = 4) as Hc by lia.
  assert (forall j, 8 <= j <= 32 -> Z.land n (2 ^ j - 1) = n) as Hl. { intros j Hj. replace (2 ^ j - 1) with (Z.ones j) by (rewrite Z.ones_equiv; lia). rewrite Z.land_ones by lia. apply Z.mod_small. pose proof (Z.pow_le_mono_r 2 8 j ltac:(lia) ltac:(lia)). lia. }
  unfold extract_u32. destruct Hc as [-> | [-> | [-> | ->]]].
  - change (wsub 32 32 0 <? wmul 32 1 8) with false. cbv iota. f_equal. exact (Hl 8 ltac:(lia)).
  - change (wsub 32 32 0 <? wmul 32 2 8) with false. cbv iota. f_equal. exact (Hl 16 ltac:(lia)).
  - change (wsub 32 32 0 <? wmul 32 3 8) with false. cbv iota. f_equal. exact (Hl 24 ltac:(lia)).
  - change (wsub 32 32 0 <? wmul 32 4 8) with false. cbv iota. f_equal. exact (Hl 32 ltac:(lia)).
Qed.
Lemma buffer_at words c st m p : at_ g 0 c st m p -> words <> [] -> (length words <= 256)%nat -> Forall (word_ok (Z.of_nat (length m))) words -> Z.of_nat (length m) < 2 ^ 63 ->
  exists p', run_writes upd sync (encode (WriteBuffer words)) p = (p', true) /\
    at_ g 0 0xe8 (raise (read_only g) 0x10 st) (foldl (store (read_only g)) m words) p'.
Proof.
  intros Ha Hne Hlen Hf Hm. destruct words as [|w ws]; [done|]. cbn [encode]. destruct (first_write 0xe8 0 p c st m Ha) as (p1 & Ha1 & Ew).
  cbn [handle_write_first_pass] in Ew. rewrite (run_cons _ _ _ _ _ Ew). set (p2 := set_cmd 232 _).
  assert (at_ g 1 0xe8 (Z.lor st 0x80) m p2) as Ha2. { unfold p2. cbn [write_cycle or_status set_status]. rewrite (proj1 (proj2 Ha1)). by eapply at_cmd, at_cycle, at_or. }
  clearbody p2. pose proof Ha2 as (G2 & C2 & D2 & _). set (n := Z.of_nat (length (w :: ws)) - 1). assert (0 <= n < 256) as Hn by (unfold n; cbn [length] in *; lia).
  assert (write upd sync [n] 0 p2 = (set_cycle 2 (set_counter n p2), true)) as E2.
  { unfold write. cbn [read_data_u32 nth]. rewrite C2. change (1 =? 0) with false. cbv iota. rewrite C2. unfold handle_write_second_pass. rewrite D2, G2.
    replace (extract_u32 n 0 _) with (Some n); [by rewrite C2|]. symmetry. destruct (device_width g =? 0); cbn [negb]; by apply extract_count. }
  rewrite (run_cons _ _ _ _ _ E2). destruct (words_at w ws (Z.lor st 0x80) m (set_cycle 2 (set_counter n p2))) as (p3 & E3 & Ha3); [by eapply at_cycle, at_counter | cbn; unfold n; cbn [length]; lia | done..|].
  rewrite (run_writes_app _ _ _ _ E3). rewrite (proj1 (proj2 (raise_ready (read_only g) 0x10 st))) in Ha3. pose proof Ha3 as (_ & C3 & D3 & _).
  exists (or_status 0x80 (set_cycle 0 p3)). split; [|rewrite <-(proj1 (raise_ready (read_only g) 0x10 st)) at 1; by eapply at_or, at_cycle].
  apply run_last. unfold write. cbn [read_data_u32 nth]. rewrite C3. change (3 =? 0) with false. cbv iota. rewrite C3. unfold handle_write_fourth_pass. by rewrite D3.
Qed.

(** Every command does what it means. *)
Lemma command_at c p : cfg p = g -> write_cycle p = 0 -> mr_size p < 2 ^ 63 -> cmd_ok (mr_size p) g c ->
  exists p', run_writes upd sync (encode c) p = (p', true) /\ cfg p' = g /\ write_cycle p' = 0 /\ mr_size p' = mr_size p /\ abs p' = flash_do g (abs p) c.
Proof.
  intros Hg Hc Hm Hok. assert (at_ g 0 (cmd p) (status p) (content p) p) as Ha by done. unfold mr_size in *.
  assert (forall c0 p', run_writes upd sync (encode c) p = (p', true) -> at_ g 0 c0 (f_status (flash_do g (abs p) c)) (f_mem (flash_do g (abs p) c)) p' -> f_mode (flash_do g (abs p) c) = c0 ->
    length (f_mem (flash_do g (abs p) c)) = length (content p) ->
    exists p', run_writes upd sync (encode c) p = (p', true) /\ cfg p' = g /\ write_cycle p' = 0 /\ Z.of_nat (length (content p')) = Z.of_nat (length (content p)) /\ abs p' = flash_do g (abs p) c) as Hfin.
  { intros c0 p' E (H1 & H2 & H3 & H4 & H5) Hmode Hlen. exists p'. split_and!; [done..| |].
    - by rewrite H5, Hlen.
    - unfold abs at 1. rewrite H3, H4, H5, <-Hmode. by destruct (flash_do g (abs p) c). }
  assert (forall w, word_ok (Z.of_nat (length (content p))) w \/ (0 <= w.1 /\ w.1 + Z.of_nat (length w.2) <= Z.of_nat (length (content p))) -> forall m, length m = length (content p) -> length (store (read_only g) m w) = length (content p)) as Hst.
  { intros w Hw m Hm'. unfold store. destruct (read_only g); [done|]. destruct Hw as [(? & ? & _)|(? & ?)]; rewrite splice_length; lia. }
  destruct c as [| | | |offset|offset data|words]; cbn [cmd_ok] in Hok.
  1-4: match goal with |- context [encode ?x] => match eval cbn in (encode x) with [(_, [?b])] => destruct (first_write b 0 p _ _ _ Ha) as (p1 & Ha1 & Ew) end end; cbn [handle_write_first_pass] in Ew.
  - destruct (array_mode_at _ _ _ _ _ Ha1) as (p' & E & Ha'). rewrite E in Ew. by eapply Hfin; [apply run_last, Ew|exact Ha'|..].
  - destruct (array_mode_at _ _ _ _ _ (at_status 0 _ _ _ _ _ Ha1)) as (p' & E & Ha'). rewrite E in Ew. by eapply Hfin; [apply run_last, Ew|exact Ha'|..].
  - eapply Hfin; [apply run_last, Ew|by eapply at_cmd|done..].
  - eapply Hfin; [apply run_last, Ew|by eapply at_cmd|done..].
  - destruct Hok as [Ho Hd]. destruct (erase_at offset _ _ _ p Ha Ho Hd Hm) as (p' & E & Ha'). eapply Hfin; [exact E|exact Ha'|done|]. apply Hst; [|done]. right. cbn [fst snd]. rewrite length_replicate.
    destruct Hd as [q Hq]. rewrite Hbl in *. pose proof (Z.pow_pos_nonneg 2 k ltac:(lia) ltac:(lia)). rewrite Z2Nat.id by lia. assert (offset / 2 ^ k < q) by (apply Z.div_lt_upper_bound; lia). pose proof (Z.div_pos offset (2 ^ k) ltac:(lia) ltac:(lia)). nia.
  - destruct (program_at offset data _ _ _ p Ha Hok Hm) as (p' & E & Ha'). eapply Hfin; [exact E|exact Ha'|done|]. apply Hst; [by left|done].
  - destruct Hok as (Hne & Hl & Hf). destruct (buffer_at words _ _ _ p Ha Hne Hl Hf Hm) as (p' & E & Ha'). eapply Hfin; [exact E|exact Ha'|done|].
    cbn [flash_do f_mem abs]. clear -Hf Hst. assert (length (content p) = length (content p)) as E by done. revert E. generalize (content p) at 1 3 as m. induction Hf as [|w ws Hw Hf IH]; intros m Em; [done|]. cbn [foldl]. apply IH. apply Hst; auto.
Qed.
End commands.

(** What the guest reads in each mode. *)
Lemma read_array data offset p : cmd p = 0 -> 0 <= offset -> offset + Z.of_nat (length data) <= mr_size p < 2 ^ 63 ->
  read data offset p = (p, true, slice (content p) (Z.to_nat offset) (length data)).
Proof.
  intros E Ho Hl. unfold read, read_data. rewrite E, wadd_small by (unfold inW; lia). destruct (Z.ltb_spec (mr_size p) (offset + Z.of_nat (length data))); [lia|done].
Qed.
Lemma read_status_byte b offset p : cmd p ∈ [0x20; 0x40; 0x70; 0xe8] -> is_u8 (status p) -> 0 <= device_width (cfg p) ->
  read [b] offset p = (p, true, [status p]).
Proof.
  intros E Hs Hw. assert (read_status p 1 = status p) as Er. { unfold read_status. destruct (Z.eqb_spec (device_width (cfg p)) 0) as [-> | ?]; [done|]. cbn [negb andb]. destruct (Z.ltb_spec (device_width (cfg p)) 1); [lia|]. done. }
  assert (cmd p = 0x20 \/ cmd p = 0x40 \/ cmd p = 0x70 \/ cmd p = 0xe8) as Hc by (rewrite !elem_of_cons, elem_of_nil in E; tauto).
  unfold read. change (Z.of_nat (length [b])) with 1. cbv zeta. rewrite Er. destruct Hc as [-> | [-> | [-> | ->]]]; cbn [write_data_u32]; by rewrite wrap_small.
Qed.

Fixpoint run_commands (upd : bool -> bool) (sync : bool) (cs : list flash_cmd) (p : PFlash) : PFlash * bool :=
  match cs with
  | [] => (p, true)
  | c :: cs =>
    let '(p, ok) := run_writes upd sync (encode c) p in
    let '(p, oks) := run_commands upd sync cs p in
    (p, ok && oks)
  end.

(** A guest access of any kind. *)
Inductive flash_event :=
| FlashWrite (upd : bool -> bool) (sync : bool) (offset : Z) (data : list Z)
| FlashRead (offset : Z) (data : list Z)
| FlashReset (upd : bool -> bool).
Definition flash_step (p : PFlash) (e : flash_event) : PFlash :=
  match e with
  | FlashWrite upd sync offset data => (write upd sync data offset p).1
  | FlashRead offset data => (read data offset p).1.1
  | FlashReset upd => (reset upd p).1
  end.
Definition in_region (size : Z) (e : flash_event) : Prop :=
  match e with
  | FlashWrite _ _ offset data => 0 <= offset /\ offset + Z.of_nat (length data) <= size /\ is_bytes data
  | _ => True
  end.
(** The bytes an access may change. *)
Definition touches (bl : Z) (e : flash_event) (a : Z) : Prop :=
  match e with
  | FlashWrite _ _ offset data => offset <= a < offset + Z.of_nat (length data) \/ (nth 0 data 0 = 0x20 /\ a / bl = offset / bl)
  | _ => False
  end.

Lemma step_ok k p e : flash_ok k p -> in_region (mr_size p) e ->
  flash_ok k (flash_step p e) /\ cfg (flash_step p e) = cfg p /\ mr_size (flash_step p e) = mr_size p /\
  (read_only (cfg p) = true -> content (flash_step p e) = content p) /\
  (forall a, content (flash_step p e) !! a <> content p !! a -> touches (2 ^ k) e (Z.of_nat a)).
Proof.
  intros Hp He. destruct e as [upd sync offset data|offset data|upd]; cbn [flash_step in_region touches] in *.
  - destruct He as (Ho & Hl & Hd). destruct (write_ok k upd sync data offset p Hp Ho Hl Hd) as [Hp' [W1 W2 W3 W4]].
    split_and!; [done|done|unfold mr_size; by rewrite W2|done|]. intros a Ha.
    destruct (decide ((reach k p data offset).1 <= Z.of_nat a < (reach k p data offset).1 + (reach k p data offset).2)) as [Hin|Hin]; [|by destruct Ha; apply W3].
    unfold reach in Hin. destruct Hp as (_ & _ & Hk & _). pose proof (Z.pow_pos_nonneg 2 k ltac:(lia) ltac:(lia)). destruct (Z.eqb_spec (write_cycle p) 0), (Z.eqb_spec (nth 0 data 0) 0x20); cbn [andb fst snd] in Hin; [|by left..].
    right. split; [done|]. unfold block_of in Hin. symmetry. apply (Z.div_unique _ _ _ (Z.of_nat a - offset / 2 ^ k * 2 ^ k)); lia.
  - assert (flash_ok k (read data offset p).1.1 /\ cfg (read data offset p).1.1 = cfg p /\ content (read data offset p).1.1 = content p) as (H1 & H2 & H3).
    { assert (read data offset p = (p, (read data offset p).1.2, (read data offset p).2)) as ->; [|done]. destruct Hp as (Hm & _). unfold read.
      assert (cmd p ∈ [0x00; 0x10; 0x20; 0x40; 0x60; 0x70; 0x90; 0x98; 0xe8]) as Hc. { destruct (machine_cases p Hm) as [(_ & H)|[(_ & H)|(_ & H)]]; rewrite !elem_of_cons in *; tauto. }
      rewrite !elem_of_cons, elem_of_nil in Hc. repeat destruct Hc as [-> | Hc]; try done; try (by destruct (write_data_u32 _ _)); destruct (_ =? _); by destruct (write_data_u32 _ _). }
    unfold mr_size. rewrite H2, H3. split_and!; done.
  - assert (flash_ok k (reset upd p).1 /\ cfg (reset upd p).1 = cfg p /\ content (reset upd p).1 = content p) as (H1 & H2 & H3).
    { unfold reset, set_rom_device_romd, flash_ok, machine_ok, mr_size in *. destruct Hp as (Hm & Hb). destruct (Bool.eqb _ _); [split; [split; [mem|done]|done]|]. destruct (upd true); cbn; [split; [split; [mem|done]|done] | done]. }
    unfold mr_size. rewrite H2, H3. split_and!; done.
Qed.

(** C20: Whatever a guest does to the flash, and whether or not mode switches and
    [msync] succeed, the command machine stays in a state its handlers know, the
    geometry and the size stay, a read-only flash keeps its content, and a byte
    changes only if some access wrote it or started an erase in its block. *)
Theorem flash_confined k g mem evs :
  block_len g = 2 ^ k -> 0 <= k < 32 -> Z.of_nat (length mem) < 2 ^ 63 -> Forall (in_region (Z.of_nat (length mem))) evs ->
  let p := foldl flash_step (realized g mem) evs in
  machine_ok p /\ cfg p = g /\ length (content p) = length mem /\
  (read_only g = true -> content p = mem) /\
  (forall a, content p !! a <> mem !! a -> Exists (fun e => touches (block_len g) e (Z.of_nat a)) evs).
Proof.
  intros Hb Hk Hs Hf. cbv zeta. rewrite Hb.
  cut (forall p, flash_ok k p -> cfg p = g -> Forall (in_region (mr_size p)) evs ->
    flash_ok k (foldl flash_step p evs) /\ cfg (foldl flash_step p evs) = g /\ length (content (foldl flash_step p evs)) = length (content p) /\
    (read_only g = true -> content (foldl flash_step p evs) = content p) /\
    (forall a, content (foldl flash_step p evs) !! a <> content p !! a -> Exists (fun e => touches (2 ^ k) e (Z.of_nat a)) evs)).
  { intros H. destruct (H (realized g mem)) as ((Hm & _) & H'); [|done..|done]. split; [unfold machine_ok; mem|done]. }
  clear Hf. induction evs as [|e evs IH]; intros p Hp Hg Hf; cbn [foldl]; [split_and!; done|]. apply Forall_cons in Hf as [He Hf].
  destruct (step_ok k p e Hp He) as (Hp1 & Hc1 & Hm1 & Hr1 & Ht1). destruct (IH (flash_step p e) Hp1 ltac:(congruence)) as (H1 & H2 & H3 & H4 & H5); [by rewrite Hm1|].
  split_and!; [done|done| | |].
  - rewrite H3. unfold mr_size in Hm1. lia.
  - intros Hro. rewrite H4 by done. apply Hr1. congruence.
  - intros a Ha. destruct (decide (content (flash_step p e) !! a = content p !! a)) as [E|E]; [apply Exists_cons_tl, H5; congruence | apply Exists_cons_hd, Ht1, E].
Qed.


(** ** A flash of two blocks *)

Definition small_cfg (ro : bool) : flash_cfg :=
  match PFlash_new 512 (Some 512) 256 4 1 ro with Ok c => c | _ => mkCfg false 0 0 0 0 ro [] [] 0 end.
Definition small (ro : bool) : PFlash := realized (small_cfg ro) (replicate 512 7).
Definition small_cmds : list flash_cmd := [Erase 300; Program 256 [1; 2]; WriteBuffer [(258, [3; 4]); (260, [5])]; ReadArray].


Lemma flash_confined_witness : content (foldl flash_step (small true) [FlashWrite (fun _ => false) true 300 [0x20]; FlashWrite (fun _ => true) false 256 [0x10; 9]]) = replicate 512 7.
Proof.
  destruct (flash_confined 8 (small_cfg true) (replicate 512 7) [FlashWrite (fun _ => false) true 300 [0x20]; FlashWrite (fun _ => true) false 256 [0x10; 9]]) as (_ & _ & _ & H & _).
  - reflexivity.
  - lia.
  - vm_compute. reflexivity.
  - repeat (apply Forall_cons; split); [split_and!; [lia|vm_compute; congruence|repeat constructor; vm_compute; congruence]..|by apply Forall_nil].
  - exact (H eq_refl).
Defined.

(** After a program at offset 300, the range handed to [msync] is the start of the
    region: the bytes written are not in it. *)
Example sync_misses_write :
  synced (run_commands (fun _ => true) true [Program 300 [1; 2]] (small false)).1 = [(0, 2)].
Proof. vm_compute. done. Qed.

(** [0x28], which the comments list as an erase command, is refused by the first cycle. *)
Example command_28_is_illegal :
  let p := (write (fun _ => true) true [0x28] 0 (small false)).1 in
  write_cycle p = 0 /\ cmd p = 0 /\ content p = replicate 512 7.
Proof. vm_compute. done. Qed.

(** A block is erased by the first write of an erase command, before the guest
    confirms it. *)
Example erase_needs_no_confirmation :
  let p := foldl flash_step (small false) [FlashWrite (fun _ => true) true 300 [0x20]; FlashWrite (fun _ => true) true 300 [0xff]] in
  abs p = mkSpec (replicate 256 7 ++ replicate 256 255) 0x80 0.
Proof. vm_compute. done. Qed.
