(* ===== verification/Bitmap.v ===== *)
(** * Bitmaps ([util/src/bitmap.rs])

    [Bitmap<T>] is a vector of [w]-bit words; bit [num] is bit [num % w] of
    word [num / w].  The section is over the word width, as the [bitops!]
    macro is over the word type.  A method that mutates [self] and returns a
    [Result] gives back the new vector together with its outcome, because
    [set_range] and [clear_range] keep the words they already changed when
    they fail. *)
From stdpp Require Import prelude list list_numbers.
From Stdlib Require Import ZArith Lia.
From S2P Require Import Prelude.

Inductive UtilError := OutOfBound (index bound : Z).

Section bitmap.
Context (w : Z).

(** ** The [BitOps] trait for a [w]-bit word *)
Definition len : Z := w.
Definition zero : Z := 0.
Definition one : Z := 1.
Definition full : Z := wnot w 0.
Definition to_bool (x : Z) : bool := negb (x =? 0).
Definition rhs (x n : Z) : Z := wshl w x n.
Definition lhs (x n : Z) : Z := wshr w x n.

(** ** The bitmap *)
Definition new (sz : nat) : list Z := replicate sz zero.
Definition size (data : list Z) : Z := Z.of_nat (length data).
Definition vol (data : list Z) : Z := wmul 64 (size data) len.
Definition bit_index (num : Z) : Z := num / len.
Definition bit_pos (num : Z) : Z := num `mod` len.

(** [self.data\[index\]] and its assignment. *)
Definition get (data : list Z) (index : Z) : res UtilError Z :=
  unwrap (data !! Z.to_nat index).
Definition put (data : list Z) (index x : Z) : list Z := <[Z.to_nat index := x]> data.

(** The common shape of [set], [clear] and [change]: bound check, then an
    update of one word. *)
Definition update_word (f : Z -> Z) (data : list Z) (index : Z)
  : list Z * res UtilError unit :=
  if size data <=? index then (data, Err (OutOfBound index (vol data)))
  else match get data index with
       | Ok x => (put data index (f x), Ok tt)
       | Err e => (data, Err e)
       | Panic => (data, Panic)
       end.

Definition set (data : list Z) (num : Z) : list Z * res UtilError unit :=
  update_word (fun x => Z.lor x (rhs one (bit_pos num))) data (bit_index num).

Definition clear (data : list Z) (num : Z) : list Z * res UtilError unit :=
  update_word (fun x => Z.land x (wnot w (rhs one (bit_pos num)))) data (bit_index num).

Definition change (data : list Z) (num : Z) : list Z * res UtilError unit :=
  update_word (fun x => Z.lxor x (rhs one (bit_pos num))) data (bit_index num).

(** The loop of [set_range] ([while length >= bits_to_set]) and the partial
    word after it.  The fuel bounds the iterations: [index] grows by one in
    each of them and the bound check stops it at [size]. *)
Fixpoint set_range_loop (fuel : nat) (start total : Z) (data : list Z)
    (index bits_to_set mask_to_set length : Z) : list Z * res UtilError unit :=
  match fuel with
  | O => (data, Panic)
  | S fuel =>
    if bits_to_set <=? length then
      match update_word (fun x => Z.lor x mask_to_set) data index with
      | (data, Ok _) =>
          set_range_loop fuel start total data (index + 1) len full (length - bits_to_set)
      | r => r
      end
    else if 0 <? length then
      let bits := len - bit_pos (wadd 64 start total) in
      let mask_end := lhs full (bit_pos bits) in
      update_word (fun x => Z.lor x (Z.land mask_to_set mask_end)) data index
    else (data, Ok tt)
  end.

Definition set_range (data : list Z) (start total : Z) : list Z * res UtilError unit :=
  if total =? 0 then (data, Ok tt)
  else set_range_loop (S (S (length data))) start total data (bit_index start)
         (len - bit_pos start) (rhs full (bit_pos start)) total.

Fixpoint clear_range_loop (fuel : nat) (start total : Z) (data : list Z)
    (index bits_to_clear mask_to_clear length : Z) : list Z * res UtilError unit :=
  match fuel with
  | O => (data, Panic)
  | S fuel =>
    if bits_to_clear <=? length then
      match update_word (fun x => Z.land x mask_to_clear) data index with
      | (data, Ok _) =>
          clear_range_loop fuel start total data (index + 1) len zero (length - bits_to_clear)
      | r => r
      end
    else if 0 <? length then
      let bits := len - bit_pos (wadd 64 start total) in
      let mask_end := wnot w (lhs full (bit_pos bits)) in
      update_word (fun x => Z.land x (Z.lor mask_to_clear mask_end)) data index
    else (data, Ok tt)
  end.

Definition clear_range (data : list Z) (start total : Z) : list Z * res UtilError unit :=
  if total =? 0 then (data, Ok tt)
  else clear_range_loop (S (S (length data))) start total data (bit_index start)
         (len - bit_pos start) (wnot w (rhs full (bit_pos start))) total.

Definition contain (data : list Z) (num : Z) : res UtilError bool :=
  if vol data <? num then Err (OutOfBound num (wmul 64 (size data) len))
  else x ← get data (bit_index num);
       Ok (to_bool (Z.land x (rhs one (bit_pos num)))).

(** [for j in j..j+n { if self.contain(j)? { num += 1 } }] *)
Fixpoint count_contained (data : list Z) (j : Z) (n : nat) (num : Z) : res UtilError Z :=
  match n with
  | O => Ok num
  | S n => ret ← contain data j;
           count_contained data (j + 1) n (if (ret : bool) then num + 1 else num)
  end.

(** [for j in j..j+n { if word & (1 << j) { num += 1 } }] *)
Fixpoint count_word (x j : Z) (n : nat) (num : Z) : Z :=
  match n with
  | O => num
  | S n => count_word x (j + 1) n (if to_bool (Z.land x (rhs one j)) then num + 1 else num)
  end.

(** The outer loop of [count_front_bits], from word [i], [n] iterations left. *)
Fixpoint count_loop (data : list Z) (offset i : Z) (n : nat) (num : Z) : res UtilError Z :=
  match n with
  | O => Ok num
  | S n =>
    if i =? bit_index offset
    then count_contained data (i * len) (Z.to_nat (offset - i * len)) num
    else x ← get data i;
         count_loop data offset (i + 1) n
           (if negb (x =? zero) then count_word x 0 (Z.to_nat len) num else num)
  end.

Definition count_front_bits (data : list Z) (offset : Z) : res UtilError Z :=
  if vol data <? offset then Err (OutOfBound offset (size data))
  else count_loop data offset 0 (S (Z.to_nat (bit_index offset))) 0.

(** [for j in j..j+n]: the first position of word [i] whose bit is [want]. *)
Fixpoint scan_word (want : bool) (data : list Z) (i j : Z) (n : nat)
  : res UtilError (option Z) :=
  match n with
  | O => Ok None
  | S n => b ← contain data (i * len + j);
           if Bool.eqb b want then Ok (Some (i * len + j))
           else scan_word want data i (j + 1) n
  end.

(** [for i in i..i+n] of [find_next_zero] ([skip] is [full]) and of
    [find_next_bit] ([skip] is [zero]).  A skipped word does not reset
    [offset]: the source [continue]s before [offset = 0]. *)
Fixpoint find_loop (want : bool) (skip : Z) (data : list Z) (i offset : Z) (n : nat)
  : res UtilError Z :=
  match n with
  | O => Ok (vol data)
  | S n =>
    x ← get data i;
    if x =? skip then find_loop want skip data (i + 1) offset n
    else r ← scan_word want data i offset (Z.to_nat (len - offset));
         match r with
         | Some p => Ok p
         | None => find_loop want skip data (i + 1) 0 n
         end
  end.

Definition find_next_zero (data : list Z) (offset : Z) : res UtilError Z :=
  let idx := offset / len in
  find_loop false full data idx (offset `mod` len) (Z.to_nat (size data - idx)).

Definition find_next_bit (data : list Z) (offset : Z) : res UtilError Z :=
  let idx := offset / len in
  find_loop true zero data idx (offset `mod` len) (Z.to_nat (size data - idx)).

(** [get_data] moves the words out; [clear_all] zeroes them in place. *)
Definition get_data (data : list Z) : list Z * list Z := (data, []).
Definition clear_all (data : list Z) : list Z := replicate (length data) zero.

(** ** Specification: the set of bits *)

(** Bit [i] of the bitmap; bits past the end are not set. *)
Definition bit_at (data : list Z) (i : Z) : bool :=
  match data !! Z.to_nat (i / w) with Some x => Z.testbit x (i `mod` w) | None => false end.

(** Every word fits in [w] bits and the volume is a [usize]. *)
Definition wf (data : list Z) : Prop :=
  Forall (inW w) data /\ size data * w < 2 ^ 64.

Context (Hw : 0 < w).

Lemma vol_wf data : wf data -> vol data = size data * w.
Proof. intros [_ ?]. unfold vol, len, size in *. apply wmul_small. unfold inW. lia. Qed.

Lemma full_testbit j : 0 <= j -> Z.testbit full j = (j <? w).
Proof.
  intros. unfold full, wnot. replace (2 ^ w - 1 - 0) with (Z.ones w) by (rewrite Z.ones_equiv; lia).
  zcase; [by rewrite Z.ones_spec_low by lia|by rewrite Z.ones_spec_high by lia].
Qed.

Lemma one_rhs_testbit p j : 0 <= p < w -> 0 <= j -> Z.testbit (rhs one p) j = (j =? p).
Proof.
  intros. unfold rhs, one, wshl. rewrite (Z.mod_small p) by lia.
  rewrite Z.shiftl_1_l, wrap_small.
  - rewrite Z.pow2_bits_eqb by lia. apply Z.eqb_sym.
  - split; [lia|]. apply Z.pow_lt_mono_r; lia.
Qed.

Lemma full_rhs_testbit p j :
  0 <= p < w -> 0 <= j -> Z.testbit (rhs full p) j = (p <=? j) && (j <? w).
Proof.
  intros. unfold rhs, wshl, wrap. rewrite (Z.mod_small p) by lia.
  destruct (Z.ltb_spec j w).
  - rewrite Z.mod_pow2_bits_low by lia. destruct (Z.leb_spec p j).
    + rewrite Z.shiftl_spec, full_testbit by lia. zcase; lia.
    + by rewrite Z.shiftl_spec_low by lia.
  - rewrite Z.mod_pow2_bits_high by lia. by rewrite andb_false_r.
Qed.

Lemma full_lhs_testbit n j :
  0 <= n < w -> 0 <= j -> Z.testbit (lhs full n) j = (j <? w - n).
Proof.
  intros. unfold lhs, wshr. rewrite (Z.mod_small n) by lia.
  rewrite Z.shiftr_spec, full_testbit by lia. zcases; lia.
Qed.

Lemma full_lhs_inW n : inW w (lhs full n).
Proof.
  unfold lhs, wshr. pose proof (Z.mod_pos_bound n w). apply inW_bits; [lia| |].
  - apply Z.shiftr_nonneg. unfold full, wnot. lia.
  - intros i ?. rewrite Z.shiftr_spec, full_testbit by lia. zcase; lia.
Qed.

Lemma to_bool_land_bit x p :
  0 <= p < w -> to_bool (Z.land x (rhs one p)) = Z.testbit x p.
Proof.
  intros. unfold to_bool. destruct (Z.testbit x p) eqn:E.
  - destruct (Z.eqb_spec (Z.land x (rhs one p)) 0) as [H0|]; [|done].
    apply (f_equal (fun z => Z.testbit z p)) in H0.
    rewrite Z.land_spec, one_rhs_testbit, E, Z.eqb_refl, Z.testbit_0_l in H0 by lia. done.
  - assert (Z.land x (rhs one p) = 0) as ->; [|done].
    apply Z.bits_inj'. intros j ?. rewrite Z.land_spec, one_rhs_testbit, Z.testbit_0_l by lia.
    destruct (Z.eqb_spec j p) as [->|]; [by rewrite E|by rewrite andb_false_r].
Qed.

(** *** One word *)

Lemma update_word_ok f data index :
  0 <= index < size data ->
  exists x, data !! Z.to_nat index = Some x /\
    update_word f data index = (<[Z.to_nat index := f x]> data, Ok tt).
Proof.
  intros Hi. unfold update_word, get, size in *. zcase; [lia|].
  destruct (lookup_lt_is_Some_2 data (Z.to_nat index)) as [x Hx]; [lia|].
  rewrite Hx. by exists x.
Qed.

Lemma update_word_err f data index :
  size data <= index -> update_word f data index = (data, Err (OutOfBound index (vol data))).
Proof. intros. unfold update_word. zcase; [done|lia]. Qed.

Lemma bit_at_insert data index y i :
  0 <= index < size data -> 0 <= i ->
  bit_at (<[Z.to_nat index := y]> data) i =
    if i / w =? index then Z.testbit y (i `mod` w) else bit_at data i.
Proof.
  intros Hi ?. unfold bit_at, size in *. pose proof (Z.div_pos i w).
  destruct (Z.eqb_spec (i / w) index) as [->|Hne].
  - by rewrite list_lookup_insert_eq by lia.
  - by rewrite list_lookup_insert_ne by lia.
Qed.

Lemma bit_at_word data index x j :
  data !! Z.to_nat index = Some x -> 0 <= index -> 0 <= j < w ->
  bit_at data (index * w + j) = Z.testbit x j.
Proof.
  intros Hx ? ?. unfold bit_at.
  rewrite Z.add_comm, Z_div_plus_full, Z_mod_plus_full, Z.div_small, Z.mod_small by lia.
  by rewrite Z.add_0_l, Hx.
Qed.

Lemma wf_insert data index y : wf data -> inW w y -> wf (<[Z.to_nat index := y]> data).
Proof.
  intros [? ?] ?. split; [by apply Forall_insert|]. unfold size in *. by rewrite length_insert.
Qed.

Lemma wf_word data n x : wf data -> data !! n = Some x -> inW w x.
Proof. intros [Hd _] Hx. rewrite Forall_lookup in Hd. by eapply Hd. Qed.

(** *** Ranges *)

Definition in_range (a n i : Z) : bool := (a <=? i) && (i <? a + n).

(** The mask of the last, partial word keeps the bits below its end. *)
Lemma end_mask_testbit start total index pos length j :
  0 <= index -> 0 <= pos -> 0 < length -> pos + length < w ->
  start + total = index * w + pos + length -> 0 <= start + total < 2 ^ 64 -> 0 <= j ->
  Z.testbit (lhs full (bit_pos (len - bit_pos (wadd 64 start total)))) j
  = (j <? pos + length).
Proof.
  intros ? ? ? ? Hp ? ?. unfold bit_pos, len. rewrite wadd_small by (unfold inW; lia).
  assert ((start + total) `mod` w = pos + length) as ->.
  { rewrite Hp. replace (index * w + pos + length) with (pos + length + index * w) by lia.
    rewrite Z_mod_plus_full, Z.mod_small; lia. }
  rewrite (Z.mod_small (w - (pos + length))) by lia.
  rewrite full_lhs_testbit by lia. by replace (w - (w - (pos + length))) with (pos + length) by lia.
Qed.

(** Position of bit [i] relative to the word [index]. *)
Lemma word_position index i :
  0 <= i ->
  (i / w =? index) = (index * w <=? i) && (i <? (index + 1) * w) /\
  (i / w = index -> i `mod` w = i - index * w) /\ 0 <= i `mod` w < w.
Proof.
  intros. pose proof (Z.div_mod i w) as E. pose proof (Z.mod_pos_bound i w).
  split_and!; [|intros <-; lia|lia..].
  destruct (Z.eqb_spec (i / w) index) as [<-|Hne]; zcases; try done; try nia.
Qed.

(** The effect of one word update that forces the bits [lo, hi) to [v]. *)
Lemma update_word_range f (v : bool) data index lo hi :
  wf data -> 0 <= index < size data -> 0 <= lo <= hi -> hi <= w ->
  (forall x, inW w x -> inW w (f x)) ->
  (forall x j, inW w x -> 0 <= j < w ->
     Z.testbit (f x) j = if (lo <=? j) && (j <? hi) then v else Z.testbit x j) ->
  exists data', update_word f data index = (data', Ok tt) /\
    wf data' /\ size data' = size data /\
    forall i, 0 <= i ->
      bit_at data' i = if in_range (index * w + lo) (hi - lo) i then v else bit_at data i.
Proof.
  intros Hwf Hidx ? ? Hfw Hf.
  destruct (update_word_ok f data index Hidx) as (x & Hx & ->).
  pose proof (wf_word _ _ _ Hwf Hx) as Hxw.
  eexists; split; [done|]. split_and!; [by apply wf_insert; auto|unfold size; by rewrite length_insert|].
  intros i ?. rewrite bit_at_insert by done.
  destruct (word_position index i) as (Hd & Hmod & ?); [done|].
  destruct (Z.eqb_spec (i / w) index) as [Heq|Hne].
  - specialize (Hmod Heq). unfold bit_at. rewrite Heq, Hx, Hf, Hmod by (done || lia).
    unfold in_range. zcases; done || lia.
  - unfold in_range. zcases; done || nia.
Qed.

Lemma set_mask_testbit mask lo hi x j :
  (forall j, 0 <= j -> Z.testbit mask j = (lo <=? j) && (j <? hi)) -> 0 <= j ->
  Z.testbit (Z.lor x mask) j = if (lo <=? j) && (j <? hi) then true else Z.testbit x j.
Proof.
  intros Hm ?. rewrite Z.lor_spec, Hm by done. destruct ((lo <=? j) && (j <? hi)).
  - apply orb_true_r.
  - apply orb_false_r.
Qed.

Lemma clear_mask_testbit mask lo hi x j :
  (forall j, 0 <= j < w -> Z.testbit mask j = negb ((lo <=? j) && (j <? hi))) -> 0 <= j < w ->
  Z.testbit (Z.land x mask) j = if (lo <=? j) && (j <? hi) then false else Z.testbit x j.
Proof.
  intros Hm ?. rewrite Z.land_spec, Hm by done. destruct ((lo <=? j) && (j <? hi)); simpl.
  - apply andb_false_r.
  - apply andb_true_r.
Qed.

(** What a range loop owes its caller: [v] inside the range, no change
    outside, the vector well formed and of the same size. *)
Definition range_post (v : bool) (data : list Z) (a n : Z) (out : list Z * res UtilError unit) :=
  exists data', out = (data', Ok tt) /\ wf data' /\ size data' = size data /\
    forall i, 0 <= i -> bit_at data' i = if in_range a n i then v else bit_at data i.

Lemma range_post_done v data a : wf data -> range_post v data a 0 (data, Ok tt).
Proof.
  intros. exists data. split_and!; try done. intros. unfold in_range. zcases; done || lia.
Qed.

Lemma range_post_step v data data1 index pos n out :
  0 <= pos < w -> w - pos <= n -> size data1 = size data ->
  (forall i, 0 <= i -> bit_at data1 i =
     if in_range (index * w + pos) (w - pos) i then v else bit_at data i) ->
  range_post v data1 ((index + 1) * w + 0) (n - (w - pos)) out ->
  range_post v data (index * w + pos) n out.
Proof.
  intros ? ? Hs H1 (data' & -> & ? & Hs' & H2). exists data'.
  split_and!; [done|done|congruence|]. intros i ?. rewrite H2, H1 by done.
  unfold in_range. zcases; done || lia.
Qed.

Lemma set_range_loop_ok fuel : forall data start total index bits pos mask length,
  wf data -> 0 <= index -> 0 <= pos < w -> bits = w - pos -> 0 <= length -> inW w mask ->
  (forall j, 0 <= j -> Z.testbit mask j = (pos <=? j) && (j <? w)) ->
  start + total = index * w + pos + length -> 0 <= start + total < 2 ^ 64 ->
  index * w + pos + length <= size data * w ->
  (Z.to_nat (size data - index) < fuel)%nat ->
  range_post true data (index * w + pos) length
    (set_range_loop fuel start total data index bits mask length).
Proof.
  induction fuel as [|fuel IH]; intros data start total index bits pos mask length
    Hwf Hi Hpos -> Hlen Hmw Hm Hst Hov Hfit Hfuel; [lia|].
  cbn [set_range_loop]. destruct (Z.leb_spec (w - pos) length) as [Hge|Hlt].
  - assert (0 <= index < size data) as Hidx by nia.
    destruct (update_word_range (fun x => Z.lor x mask) true data index pos w)
      as (data1 & -> & Hwf1 & Hs1 & Hb1); [done|done|lia|lia| | |].
    { intros. by apply lor_inW; [lia|..]. }
    { intros. by apply set_mask_testbit; [|lia]. }
    apply (range_post_step true data data1); [done|done|done|done|].
    apply IH; unfold len; rewrite ?Hs1; try lia; [done|unfold inW, full, wnot; lia|].
    intros j ?. rewrite full_testbit by done. by destruct (Z.leb_spec 0 j); [|lia].
  - destruct (Z.ltb_spec 0 length).
    + match goal with |- context [update_word ?f data index] =>
        destruct (update_word_range f true data index pos (pos + length))
          as (data1 & -> & Hwf1 & Hs1 & Hb1); [done|nia|lia|lia| | |] end.
      { intros. apply lor_inW; [lia|done|]. apply land_inW; [lia|done]. }
      { intros. apply set_mask_testbit; [|lia]. intros k ?.
        rewrite Z.land_spec, Hm, (end_mask_testbit start total index pos length) by lia.
        zcases; done || lia. }
      exists data1. replace (pos + length - pos) with length in Hb1 by lia. done.
    + replace length with 0 by lia. by apply range_post_done.
Qed.

Lemma clear_range_loop_ok fuel : forall data start total index bits pos mask length,
  wf data -> 0 <= index -> 0 <= pos < w -> bits = w - pos -> 0 <= length -> inW w mask ->
  (forall j, 0 <= j < w -> Z.testbit mask j = negb ((pos <=? j) && (j <? w))) ->
  start + total = index * w + pos + length -> 0 <= start + total < 2 ^ 64 ->
  index * w + pos + length <= size data * w ->
  (Z.to_nat (size data - index) < fuel)%nat ->
  range_post false data (index * w + pos) length
    (clear_range_loop fuel start total data index bits mask length).
Proof.
  induction fuel as [|fuel IH]; intros data start total index bits pos mask length
    Hwf Hi Hpos -> Hlen Hmw Hm Hst Hov Hfit Hfuel; [lia|].
  cbn [clear_range_loop]. destruct (Z.leb_spec (w - pos) length) as [Hge|Hlt].
  - assert (0 <= index < size data) as Hidx by nia.
    destruct (update_word_range (fun x => Z.land x mask) false data index pos w)
      as (data1 & -> & Hwf1 & Hs1 & Hb1); [done|done|lia|lia| | |].
    { intros. by apply land_inW; [lia|..]. }
    { intros. by apply clear_mask_testbit. }
    apply (range_post_step false data data1); [done|done|done|done|].
    apply IH; unfold len; rewrite ?Hs1; try lia; [done|unfold inW, zero; lia|].
    intros j ?. rewrite Z.testbit_0_l. zcases; done || lia.
  - destruct (Z.ltb_spec 0 length).
    + match goal with |- context [update_word ?f data index] =>
        destruct (update_word_range f false data index pos (pos + length))
          as (data1 & -> & Hwf1 & Hs1 & Hb1); [done|nia|lia|lia| | |] end.
      { intros. by apply land_inW; [lia|]. }
      { intros. apply clear_mask_testbit; [|lia]. intros k ?.
        rewrite Z.lor_spec, Hm, wnot_testbit by (lia || apply full_lhs_inW).
        rewrite (end_mask_testbit start total index pos length) by lia.
        zcases; done || lia. }
      exists data1. replace (pos + length - pos) with length in Hb1 by lia. done.
    + replace length with 0 by lia. by apply range_post_done.
Qed.

Lemma range_loop_err fuel : forall data start total index bits pos length,
  0 <= index -> 0 <= pos < w -> bits = w - pos -> 0 < length ->
  size data * w < index * w + pos + length ->
  (Z.to_nat (size data - index) < fuel)%nat ->
  (forall mask, exists data' e,
     set_range_loop fuel start total data index bits mask length = (data', Err e)) /\
  (forall mask, exists data' e,
     clear_range_loop fuel start total data index bits mask length = (data', Err e)).
Proof.
  induction fuel as [|fuel IH]; intros data start total index bits pos length
    Hi Hpos -> Hlen Hbig Hfuel; [lia|].
  cbn [set_range_loop clear_range_loop].
  destruct (Z.leb_spec (size data) index) as [Hout|Hin].
  { split; intros mask; destruct (Z.leb_spec (w - pos) length), (Z.ltb_spec 0 length);
      try lia; rewrite update_word_err by done; by eexists _, _. }
  assert (w - pos < length) as Hge by nia.
  destruct (Z.leb_spec (w - pos) length); [|lia].
  split; intros mask;
    [destruct (update_word_ok (fun x => Z.lor x mask) data index) as (x & _ & ->)
    |destruct (update_word_ok (fun x => Z.land x mask) data index) as (x & _ & ->)]; try lia.
  all: eapply (IH _ start total (index + 1) len 0); unfold size, len in *;
    rewrite ?length_insert; lia || nia.
Qed.

(** *** Queries *)

Lemma get_ok data index :
  0 <= index < size data -> exists x, data !! Z.to_nat index = Some x /\ get data index = Ok x.
Proof.
  unfold size, get. intros. destruct (lookup_lt_is_Some_2 data (Z.to_nat index)) as [x Hx]; [lia|].
  exists x. by rewrite Hx.
Qed.

Lemma contain_ok data num :
  wf data -> 0 <= num < size data * w -> contain data num = Ok (bit_at data num).
Proof.
  intros Hwf Hn. unfold contain. rewrite vol_wf by done. zcase; [lia|].
  destruct (get_ok data (bit_index num)) as (x & Hx & Hg).
  { unfold bit_index, len. split; [apply Z.div_pos; lia|]. apply Z.div_lt_upper_bound; lia. }
  rewrite Hg. simpl. f_equal. unfold bit_at. unfold bit_index, len in Hx. rewrite Hx.
  apply to_bool_land_bit. by apply Z.mod_pos_bound.
Qed.

(** The number of indices in [a, a + n) that satisfy [f]. *)
Fixpoint nbits (f : Z -> bool) (a : Z) (n : nat) : Z :=
  match n with
  | O => 0
  | S n => (if f a then 1 else 0) + nbits f (a + 1) n
  end.

Lemma nbits_app f n m : forall a, nbits f a (n + m) = nbits f a n + nbits f (a + Z.of_nat n) m.
Proof.
  induction n as [|n IH]; intros a; simpl; [by rewrite Z.add_0_r|].
  rewrite IH. replace (a + 1 + Z.of_nat n) with (a + Z.of_nat (S n)) by lia. simpl. lia.
Qed.
Lemma nbits_ext f g b n : forall a,
  (forall k, 0 <= k < Z.of_nat n -> f (a + k) = g (b + a + k)) ->
  nbits f a n = nbits g (b + a) n.
Proof.
  induction n as [|n IH]; intros a H; simpl; [done|].
  pose proof (H 0 ltac:(lia)) as H0. rewrite !Z.add_0_r in H0. rewrite H0. f_equal.
  rewrite <-Z.add_assoc. apply IH. intros k ?. specialize (H (k + 1)).
  replace (a + 1 + k) with (a + (k + 1)) by lia. rewrite H by lia. f_equal. lia.
Qed.
Lemma nbits_false f n : forall a,
  (forall k, 0 <= k < Z.of_nat n -> f (a + k) = false) -> nbits f a n = 0.
Proof.
  induction n as [|n IH]; intros a H; simpl; [done|].
  pose proof (H 0 ltac:(lia)) as H0. rewrite Z.add_0_r in H0. rewrite H0, IH; [done|].
  intros k ?. replace (a + 1 + k) with (a + (k + 1)) by lia. apply H. lia.
Qed.

Lemma count_contained_ok data n : forall j num,
  wf data -> 0 <= j -> j + Z.of_nat n <= size data * w ->
  count_contained data j n num = Ok (num + nbits (bit_at data) j n).
Proof.
  induction n as [|n IH]; intros j num Hwf ? ?; simpl; [f_equal; lia|].
  rewrite contain_ok by (done || lia). simpl. rewrite IH by (done || lia).
  f_equal. destruct (bit_at data j); lia.
Qed.

Lemma count_word_ok x n : forall j num,
  0 <= j -> j + Z.of_nat n <= w -> count_word x j n num = num + nbits (Z.testbit x) j n.
Proof.
  induction n as [|n IH]; intros j num ? ?; simpl; [lia|].
  rewrite to_bool_land_bit, IH by lia. destruct (Z.testbit x j); lia.
Qed.

Lemma count_loop_ok data offset : wf data -> 0 <= offset <= size data * w ->
  forall n i num, 0 <= i <= offset / w -> Z.of_nat n = offset / w - i + 1 ->
  count_loop data offset i n num =
    Ok (num + nbits (bit_at data) (i * w) (Z.to_nat (offset - i * w))).
Proof.
  intros Hwf Ho. pose proof (Z.div_mod offset w). pose proof (Z.mod_pos_bound offset w).
  induction n as [|n IH]; intros i num Hi Hn; [lia|]. cbn [count_loop]. unfold bit_index, len.
  destruct (Z.eqb_spec i (offset / w)) as [->|Hne].
  - apply count_contained_ok; [done|nia|]. rewrite Z2Nat.id by lia. lia.
  - destruct (get_ok data i) as (x & Hx & ->); [nia|]. simpl. rewrite IH by lia. f_equal.
    replace (Z.to_nat (offset - i * w)) with (Z.to_nat w + Z.to_nat (offset - (i + 1) * w))%nat by nia.
    rewrite nbits_app, Z2Nat.id by lia. replace (i * w + w) with ((i + 1) * w) by lia.
    assert (nbits (Z.testbit x) 0 (Z.to_nat w) = nbits (bit_at data) (i * w) (Z.to_nat w)) as Hword.
    { rewrite (nbits_ext _ (bit_at data) (i * w)); [by rewrite Z.add_0_r|].
      intros k ?. rewrite Z.add_0_r. symmetry. apply bit_at_word; [done|lia|lia]. }
    destruct (Z.eqb_spec x zero) as [->|]; simpl.
    + rewrite (nbits_false (Z.testbit zero)) in Hword by (intros; apply Z.testbit_0_l). lia.
    + rewrite count_word_ok by lia. lia.
Qed.

(** [r] is the first index from [a] on whose bit is [want], or the volume. *)
Definition first_index (want : bool) (data : list Z) (a r : Z) : Prop :=
  a <= r <= size data * w /\ (forall k, a <= k < r -> bit_at data k = negb want) /\
  (r < size data * w -> bit_at data r = want).

Lemma scan_word_ok want data i n : forall j,
  wf data -> 0 <= i < size data -> 0 <= j -> j + Z.of_nat n = w ->
  exists r, scan_word want data i j n = Ok r /\
    match r with
    | Some p => i * w + j <= p < (i + 1) * w /\ bit_at data p = want /\
                (forall k, i * w + j <= k < p -> bit_at data k = negb want)
    | None => forall k, i * w + j <= k < (i + 1) * w -> bit_at data k = negb want
    end.
Proof.
  induction n as [|n IH]; intros j Hwf Hi ? Hj; simpl; [exists None; split; [done|intros; lia]|].
  unfold len. rewrite contain_ok by (done || nia). simpl.
  destruct (Bool.eqb (bit_at data (i * w + j)) want) eqn:Eb.
  - apply eqb_prop in Eb. eexists; split; [done|]. simpl. split_and!; done || (intros; lia).
  - assert (bit_at data (i * w + j) = negb want) as Hb.
    { destruct (bit_at data (i * w + j)), want; done. }
    destruct (IH (j + 1)) as (r & Hr & HH); [done|done|lia|lia|]. unfold len in Hr. rewrite Hr.
    exists r. split; [done|].
    assert (forall k hi, (forall k, i * w + (j + 1) <= k < hi -> bit_at data k = negb want) ->
      i * w + j <= k < hi -> bit_at data k = negb want) as Hext.
    { intros k hi HH' ?. destruct (decide (k = i * w + j)) as [->|]; [done|]. apply HH'. lia. }
    destruct r as [p|]; [|intros; by eapply Hext].
    destruct HH as (? & ? & HH). split_and!; (lia || done || (intros; by eapply Hext)).
Qed.

Lemma find_loop_ok want skip data : wf data ->
  (forall x j, 0 <= j < w -> x = skip -> Z.testbit x j = negb want) ->
  forall n i offset, 0 <= i -> Z.of_nat n = size data - i -> 0 <= offset < w ->
  (offset = 0 \/ data !! Z.to_nat i <> Some skip) ->
  (n = O -> offset = 0) ->
  exists r, find_loop want skip data i offset n = Ok r /\ first_index want data (i * w + offset) r.
Proof.
  intros Hwf Hskip. induction n as [|n IH]; intros i offset ? Hn Ho Hok Hz; cbn [find_loop].
  { rewrite Hz by done. exists (size data * w). rewrite vol_wf by done. split; [done|].
    unfold first_index. split_and!; intros; nia. }
  destruct (get_ok data i) as (x & Hx & ->); [lia|]. simpl.
  assert (forall k, i * w <= k < (i + 1) * w -> bit_at data k = Z.testbit x (k - i * w)) as Hword.
  { intros k ?. rewrite <-(bit_at_word data i) by (done || lia). f_equal. lia. }
  destruct (Z.eqb_spec x skip) as [->|Hne].
  - destruct Hok as [->|]; [|congruence].
    destruct (IH (i + 1) 0) as (r & -> & ? & Hbelow & ?); try lia.
    exists r. split; [done|]. split_and!; [lia|lia| |done].
    intros k ?. destruct (decide (k < (i + 1) * w)); [|apply Hbelow; lia].
    rewrite Hword by lia. apply Hskip; [lia|done].
  - unfold len. destruct (scan_word_ok want data i (Z.to_nat (w - offset)) offset)
      as (r & -> & Hr); [done|lia|lia|lia|]. simpl. destruct r as [p|].
    + destruct Hr as (? & ? & ?). exists p. split; [done|]. split_and!; [lia|nia|done|done].
    + destruct (IH (i + 1) 0) as (r & -> & ? & Hbelow & ?); try lia.
      exists r. split; [done|]. split_and!; [lia|lia| |done].
      intros k ?. destruct (decide (k < (i + 1) * w)); [apply Hr; lia|apply Hbelow; lia].
Qed.

(** *** One bit *)

Lemma set_bit_ok data num :
  wf data -> 0 <= num < size data * w -> range_post true data num 1 (set data num).
Proof.
  intros Hwf Hn. unfold set, bit_index, bit_pos, len.
  pose proof (Z.div_mod num w). pose proof (Z.mod_pos_bound num w Hw).
  pose proof (Z.div_pos num w). assert (num / w < size data) by (apply Z.div_lt_upper_bound; lia).
  set (p := num `mod` w) in *.
  destruct (update_word_range (fun x => Z.lor x (rhs one p)) true data (num / w) p (p + 1))
    as (data' & ? & ? & ? & Hb); try (done || lia).
  - intros. apply lor_inW; [lia|done|apply wrap_inW; lia].
  - intros x j ? ?. rewrite Z.lor_spec, one_rhs_testbit by lia.
    zcases; try lia; apply orb_true_r || apply orb_false_r.
  - exists data'. split_and!; try done. intros i ?. rewrite Hb by done.
    replace (num / w * w + p) with num by lia. by replace (p + 1 - p) with 1 by lia.
Qed.

Lemma clear_bit_ok data num :
  wf data -> 0 <= num < size data * w -> range_post false data num 1 (clear data num).
Proof.
  intros Hwf Hn. unfold clear, bit_index, bit_pos, len.
  pose proof (Z.div_mod num w). pose proof (Z.mod_pos_bound num w Hw).
  pose proof (Z.div_pos num w). assert (num / w < size data) by (apply Z.div_lt_upper_bound; lia).
  set (p := num `mod` w) in *.
  assert (inW w (rhs one p)) by (apply wrap_inW; lia).
  destruct (update_word_range (fun x => Z.land x (wnot w (rhs one p))) false data (num / w) p (p + 1))
    as (data' & ? & ? & ? & Hb); try (done || lia).
  - intros. apply land_inW; [lia|done].
  - intros x j ? ?. rewrite Z.land_spec, wnot_testbit, one_rhs_testbit by (done || lia).
    zcases; simpl; try lia; apply andb_false_r || apply andb_true_r.
  - exists data'. split_and!; try done. intros i ?. rewrite Hb by done.
    replace (num / w * w + p) with num by lia. by replace (p + 1 - p) with 1 by lia.
Qed.

Lemma set_bit_err data num :
  wf data -> size data * w <= num -> exists e, set data num = (data, Err e).
Proof.
  intros Hwf Hn. unfold set, bit_index, len. eexists. apply update_word_err.
  apply Z.div_le_lower_bound; lia.
Qed.

(** A search from the first bit on needs no proviso. *)
Lemma find_first_zero_ok data :
  wf data -> exists r, find_next_zero data 0 = Ok r /\ first_index false data 0 r.
Proof.
  intros Hwf. unfold find_next_zero, len. rewrite Z.div_0_l, Z.mod_0_l, Z.sub_0_r by lia.
  destruct (find_loop_ok false full data Hwf) with
    (n := Z.to_nat (size data)) (i := 0) (offset := 0) as (r & -> & Hr);
    [|lia|unfold size; lia|lia|by left|done|].
  - intros x j ? ->. rewrite full_testbit by lia. zcase; [done|lia].
  - by exists r.
Qed.

End bitmap.

(** ** Properties *)

(** [set_range] and [clear_range] change exactly the bits of the range
    when it lies within the volume, leave every other bit, the word count and
    the well-formedness of the vector alone, and fail with an error (never a
    panic, and never by exhausting the loop) when the range passes the end. *)
Theorem range_ops_correct w data start total :
  0 < w -> wf w data -> 0 <= start -> 0 <= total -> start + total < 2 ^ 64 ->
  (start + total <= size data * w ->
     range_post w true data start total (set_range w data start total) /\
     range_post w false data start total (clear_range w data start total)) /\
  (0 < total -> size data * w < start + total ->
     (exists data' e, set_range w data start total = (data', Err e)) /\
     (exists data' e, clear_range w data start total = (data', Err e))).
Proof.
  intros Hw Hwf Hs Ht Hov. unfold set_range, clear_range, bit_index, bit_pos, len.
  pose proof (Z.div_mod start w). pose proof (Z.mod_pos_bound start w Hw) as Hm.
  pose proof (Z.div_pos start w). destruct (Z.eqb_spec total 0) as [->|Hne].
  { split; [|lia]. by split; apply range_post_done. }
  assert (start = start / w * w + start `mod` w) as Hst by lia.
  split; [intros Hfit|intros _ Hbig]; split.
  - rewrite Hst at 1. apply set_range_loop_ok; try (done || lia).
    + apply wrap_inW. lia.
    + intros. by apply full_rhs_testbit.
    + unfold size. lia.
  - rewrite Hst at 1. apply clear_range_loop_ok; try (done || lia).
    + apply wnot_inW, wrap_inW. lia.
    + intros. rewrite wnot_testbit, full_rhs_testbit by (done || lia || (apply wrap_inW; lia)). done.
    + unfold size. lia.
  - apply (range_loop_err w Hw _ data start total _ _ (start `mod` w)); unfold size in *; lia.
  - apply (range_loop_err w Hw _ data start total _ _ (start `mod` w)); unfold size in *; lia.
Qed.

Example range_ops_correct_witness :
  range_post 8 true [0; 0; 0] 5 14 (set_range 8 [0; 0; 0] 5 14).
Proof.
  apply (range_ops_correct 8 [0; 0; 0] 5 14); try (vm_compute; done || lia).
  split; [repeat constructor; vm_compute; done|vm_compute; done].
Defined.

(** [count_front_bits] returns the number of set bits below the offset,
    for every offset up to the volume included. *)
Theorem count_front_bits_correct w data offset :
  0 < w -> wf w data -> 0 <= offset <= size data * w ->
  count_front_bits w data offset = Ok (nbits (bit_at w data) 0 (Z.to_nat offset)).
Proof.
  intros Hw Hwf Ho. unfold count_front_bits. rewrite vol_wf by done. zcase; [lia|].
  pose proof (Z.div_pos offset w).
  rewrite (count_loop_ok w Hw) by (done || lia || (unfold bit_index, len; lia)).
  by rewrite Z.add_0_l, Z.sub_0_r.
Qed.

Example count_front_bits_witness : count_front_bits 8 [0xF0; 0x03] 10 = Ok 6.
Proof.
  rewrite (count_front_bits_correct 8 [0xF0; 0x03] 10); [reflexivity|lia| |vm_compute; done].
  split; [repeat constructor; vm_compute; done|vm_compute; done].
Defined.

(** [find_next_bit] and [find_next_zero] return the first set (clear) bit
    from the offset on, or the volume, provided the search starts on a word
    boundary or in a word that is not skipped as a whole. *)
Theorem find_next_correct w data offset :
  0 < w -> wf w data -> 0 <= offset <= size data * w ->
  (offset `mod` w = 0 \/ data !! Z.to_nat (offset / w) <> Some 0 ->
   exists r, find_next_bit w data offset = Ok r /\ first_index w true data offset r) /\
  (offset `mod` w = 0 \/ data !! Z.to_nat (offset / w) <> Some (2 ^ w - 1) ->
   exists r, find_next_zero w data offset = Ok r /\ first_index w false data offset r).
Proof.
  intros Hw Hwf Ho. unfold find_next_bit, find_next_zero, len.
  pose proof (Z.div_mod offset w). pose proof (Z.mod_pos_bound offset w Hw).
  pose proof (Z.div_pos offset w).
  assert (offset / w <= size data) by (apply Z.div_le_upper_bound; lia).
  assert (offset = offset / w * w + offset `mod` w) as Hst by lia.
  assert (Z.to_nat (size data - offset / w) = O -> offset `mod` w = 0) by nia.
  split; intros Hok.
  - destruct (find_loop_ok w Hw true zero data Hwf) with
      (n := Z.to_nat (size data - offset / w)) (i := offset / w) (offset := offset `mod` w)
      as (r & -> & Hr); try (done || lia).
    + intros x j ? ->. apply Z.testbit_0_l.
    + rewrite <-Hst in Hr. by exists r.
  - destruct (find_loop_ok w Hw false (full w) data Hwf) with
      (n := Z.to_nat (size data - offset / w)) (i := offset / w) (offset := offset `mod` w)
      as (r & -> & Hr); try (done || lia).
    + intros x j ? ->. rewrite full_testbit by lia. zcase; [done|lia].
    + unfold full, wnot. by rewrite Z.sub_0_r.
    + rewrite <-Hst in Hr. by exists r.
Qed.

Example find_next_witness :
  exists r, find_next_bit 8 [0; 0; 0x10] 0 = Ok r /\ first_index 8 true [0; 0; 0x10] 0 r.
Proof.
  apply (find_next_correct 8 [0; 0; 0x10] 0); [lia| |vm_compute; done|by left].
  split; [repeat constructor; vm_compute; done|vm_compute; done].
Defined.

(** Without that proviso the search can miss a bit: word 1 is skipped with
    the in-word offset 6 kept, so bit 128 of the next word is not looked at. *)
Lemma find_next_bit_misses_bit :
  find_next_bit 64 [0; 0; 1] 70 = Ok 192 /\ bit_at 64 [0; 0; 1] 128 = true.
Proof. vm_compute. done. Qed.

(** [contain] accepts [num = vol] and then indexes past the last word. *)
Lemma contain_vol_panics w data :
  0 < w -> wf w data -> contain w data (size data * w) = Panic.
Proof.
  intros Hw Hwf. unfold contain. rewrite vol_wf by done. zcase; [lia|].
  unfold bit_index, len, get, size. rewrite Z.div_mul by lia.
  rewrite Nat2Z.id. by rewrite lookup_ge_None_2 by lia.
Qed.
