(* ===== verification/Address.v ===== *)
(** * Guest addresses and address ranges ([address_space/src/address.rs])

    A [GuestAddress] is its raw [u64] value.  The [unchecked_*] methods and
    [offset_from] are the plain operators of the source and wrap around. *)
From stdpp Require Import prelude.
From Stdlib Require Import ZArith Lia.
From S2P Require Import Prelude NumOps.

Definition offset_from (self other : Z) : Z := wsub 64 self other.
Definition addr_checked_add (self offset : Z) : option Z := checked_add 64 self offset.
Definition addr_checked_sub (self offset : Z) : option Z := checked_sub self offset.
Definition unchecked_add (self offset : Z) : Z := wadd 64 self offset.
Definition unchecked_sub (self offset : Z) : Z := wsub 64 self offset.
Definition align_up (self alignment : Z) : res unit Z := round_up self alignment.
Definition align_down (self alignment : Z) : res unit Z := round_down self alignment.

Record AddressRange := mkRange { ar_base : Z; ar_size : Z }.

#[export] Instance AddressRange_eq_dec : EqDecision AddressRange.
Proof. solve_decision. Defined.

(** [PartialOrd]/[Ord] for [AddressRange]: by base, then by size. *)
Definition range_cmp (self other : AddressRange) : comparison :=
  if negb (ar_base self =? ar_base other) then ar_base self ?= ar_base other
  else ar_size self ?= ar_size other.

(** The bounds are computed in [u128], where they cannot overflow. *)
Definition find_intersection (self other : AddressRange) : option AddressRange :=
  let begin := ar_base self in
  let end_ := ar_size self + begin in
  let other_begin := ar_base other in
  let other_end := ar_size other + other_begin in
  if (end_ <=? other_begin) || (other_end <=? begin) then None
  else
    let start := Z.max (ar_base self) (ar_base other) in
    let size_inter := wrap 64 (Z.min end_ other_end - start) in
    Some (mkRange start size_inter).

Definition end_addr (r : AddressRange) : Z := unchecked_add (ar_base r) (ar_size r).

(** ** Meaning of a range *)

Definition range_wf (r : AddressRange) : Prop := is_u64 (ar_base r) /\ is_u64 (ar_size r).
Definition covers (r : AddressRange) (a : Z) : bool :=
  (ar_base r <=? a) && (a <? ar_base r + ar_size r).

Lemma covers_spec r a : covers r a = true <-> ar_base r <= a < ar_base r + ar_size r.
Proof. unfold covers. zcases; split; try done; lia. Qed.

Lemma find_intersection_Some r1 r2 r :
  range_wf r1 -> range_wf r2 -> find_intersection r1 r2 = Some r ->
  range_wf r /\ (forall a, covers r a = covers r1 a && covers r2 a) /\
  ar_base r1 <= ar_base r /\ ar_base r + ar_size r <= ar_base r1 + ar_size r1 /\
  ar_base r + ar_size r <= ar_base r2 + ar_size r2 /\
  (0 < ar_size r1 -> 0 < ar_size r2 -> 0 < ar_size r).
Proof.
  intros [? ?] [? ?]. unfold find_intersection.
  destruct (Z.leb_spec (ar_size r1 + ar_base r1) (ar_base r2)); [done|].
  destruct (Z.leb_spec (ar_size r2 + ar_base r2) (ar_base r1)); [done|]. simpl.
  intros [= <-]. unfold range_wf, inW in *. simpl. rewrite wrap_small by (unfold inW; lia).
  split_and!; try lia. intros a. unfold covers. simpl. zcases; done || lia.
Qed.

Lemma find_intersection_None r1 r2 a :
  find_intersection r1 r2 = None -> covers r1 a && covers r2 a = false.
Proof.
  unfold find_intersection.
  destruct (Z.leb_spec (ar_size r1 + ar_base r1) (ar_base r2)) as [?|?];
    [|destruct (Z.leb_spec (ar_size r2 + ar_base r2) (ar_base r1)) as [?|?]; [|done]];
  intros _; unfold covers; zcases; done || lia.
Qed.

Lemma end_addr_small r : 0 <= ar_base r -> 0 <= ar_size r -> ar_base r + ar_size r < 2 ^ 64 ->
  end_addr r = ar_base r + ar_size r.
Proof. intros. unfold end_addr, unchecked_add. apply wadd_small. unfold inW. lia. Qed.
