(* ===== verification/Region.v ===== *)
(** * Memory regions and the flat view ([address_space/src/region.rs])

    A [Region] of the source is a handle: its clones share the priority,
    size, offset, sub-region and mode cells through [Arc].  The model keeps
    these cells in a store [gmap rid Region]; a handle is a [rid], and
    [PartialEq for Region], which compares the [Arc] pointers, is equality of
    [rid]s.  [render_region_pass] recurses through the store, so it takes a
    fuel: the depth of the region graph.  Running out of it stands for the
    stack overflow the source would run into on a cyclic graph. *)
From stdpp Require Import prelude list gmap.
From Stdlib Require Import ZArith Lia.
From S2P Require Import Prelude Address.

Inductive RegionType := Ram | IO | Container | RomDevice | RamDevice | Alias.

#[export] Instance RegionType_eq_dec : EqDecision RegionType.
Proof. solve_decision. Defined.

(** [AddressSpaceError], the variants these files produce; [EKvm] is a failed
    ioctl and [EBail] a plain message ([bail!]). *)
Inductive AddressSpaceError :=
| ERegionType (t : RegionType)
| EOverflow (addr : Z)
| EInvalidOffset (offset count size : Z)
| EIoAccess (base offset count : Z)
| ERegionNotFound (addr : Z)
| EAddrAlignUp (addr align : Z)
| EKvmSlotOverlap (add exist : Z * Z)
| ENoAvailKvmSlot (cnt : Z)
| ENoMatchedKvmSlot (addr size : Z)
| EKvm
| EBail.

(** [HostMemMapping]: guest range, host virtual address, sharing. *)
Record HostMemMapping := mkMapping {
  address_range : AddressRange;
  host_addr : Z;
  is_share : bool
}.

(** [RegionIoEventFd]; [fd] is the raw descriptor of the event fd. *)
Record RegionIoEventFd := mkEvtFd {
  fd : Z;
  evt_range : AddressRange;
  data_match : bool;
  evt_data : Z
}.

#[export] Instance RegionIoEventFd_eq_dec : EqDecision RegionIoEventFd.
Proof. solve_decision. Defined.

(** [RegionIoEventFd::after] *)
Definition after (self other : RegionIoEventFd) : bool :=
  wadd 64 (ar_base (evt_range other)) (ar_size (evt_range other)) <=? ar_base (evt_range self).

Definition rid := positive.
Definition sid := positive.

(** The shared cells of a region.  [has_ops] says whether [ops] is [Some];
    the closures themselves are the device model of [FlatView.v]. *)
Record Region := mkRegion {
  region_type : RegionType;
  priority : Z;
  r_size : Z;
  r_offset : Z;
  mem_mapping : option HostMemMapping;
  has_ops : bool;
  io_evtfds : list RegionIoEventFd;
  space : option sid;
  subregions : list rid;
  rom_dev_romd : bool;
  max_access_size : option Z;
  alias : option rid;
  alias_offset : Z
}.

Abbreviation store := (gmap rid Region).

Record FlatRange := mkFlat {
  addr_range : AddressRange;
  owner : rid;
  offset_in_region : Z;
  fr_romd : option bool
}.

(** ** Constructors *)

Definition init_region_internal (size : Z) (t : RegionType)
    (mm : option HostMemMapping) (ops : bool) : Region :=
  {| region_type := t; priority := 0; r_size := size; r_offset := 0;
     mem_mapping := mm; has_ops := ops; io_evtfds := []; space := None;
     subregions := []; rom_dev_romd := false; max_access_size := None;
     alias := None; alias_offset := 0 |}.

Definition init_ram_region (mm : HostMemMapping) : Region :=
  init_region_internal (ar_size (address_range mm)) Ram (Some mm) false.
Definition init_io_region (size : Z) : Region :=
  init_region_internal size IO None true.
Definition init_container_region (size : Z) : Region :=
  init_region_internal size Container None false.
Definition init_rom_device_region (mm : HostMemMapping) : Region :=
  let r := init_region_internal (ar_size (address_range mm)) RomDevice (Some mm) true in
  {| region_type := region_type r; priority := priority r; r_size := r_size r;
     r_offset := r_offset r; mem_mapping := mem_mapping r; has_ops := has_ops r;
     io_evtfds := io_evtfds r; space := space r; subregions := subregions r;
     rom_dev_romd := true; max_access_size := max_access_size r;
     alias := alias r; alias_offset := alias_offset r |}.
Definition init_ram_device_region (mm : HostMemMapping) : Region :=
  init_region_internal (ar_size (address_range mm)) RamDevice (Some mm) false.
Definition init_alias_region (target : rid) (off size : Z) : Region :=
  let r := init_region_internal size Alias None false in
  {| region_type := region_type r; priority := priority r; r_size := r_size r;
     r_offset := r_offset r; mem_mapping := mem_mapping r; has_ops := has_ops r;
     io_evtfds := io_evtfds r; space := space r; subregions := subregions r;
     rom_dev_romd := rom_dev_romd r; max_access_size := max_access_size r;
     alias := Some target; alias_offset := off |}.

(** ** Accessors *)

Definition is_host_backed (t : RegionType) : bool :=
  match t with Ram | RamDevice | RomDevice => true | _ => false end.

Definition start_addr (r : Region) : option Z :=
  if is_host_backed (region_type r)
  then (fun m => ar_base (address_range m)) <$> mem_mapping r else None.
Definition get_rom_device_romd (r : Region) : option bool :=
  match region_type r with RomDevice => Some (rom_dev_romd r) | _ => None end.
Definition get_host_address (r : Region) : option Z :=
  if is_host_backed (region_type r) then host_addr <$> mem_mapping r else None.
Definition get_host_share (r : Region) : option bool :=
  if is_host_backed (region_type r) then is_share <$> mem_mapping r else None.

Definition check_valid_offset (r : Region) (addr size : Z) : res AddressSpaceError unit :=
  match checked_add 64 addr size with
  | Some e => if e <=? r_size r then Ok tt else Err (EOverflow addr)
  | None => Err (EOverflow addr)
  end.

(** ** Rendering *)

Section render.
Context (st : store).

(** The range inserted in front of [fr] when the region starts before it. *)
Definition gap_before (self : rid) (romd : option bool) (start off remain : Z)
    (fr : FlatRange) : list FlatRange :=
  if start <? ar_base (addr_range fr)
  then [mkFlat (mkRange start (Z.min remain (offset_from (ar_base (addr_range fr)) start)))
          self off romd]
  else [].

(** The loop of [render_terminate_region] over the part of the vector from
    [index] on: the entries before [index] are final, an insertion at [index]
    puts the new range in front of the current one. *)
Fixpoint render_loop (self : rid) (romd : option bool) (start off remain : Z)
    (fvs : list FlatRange) : list FlatRange :=
  match fvs with
  | [] =>
    if 0 <? remain then [mkFlat (mkRange start remain) self off romd] else []
  | fr :: rest =>
    let fr_end := end_addr (addr_range fr) in
    if fr_end <=? start then fr :: render_loop self romd start off remain rest
    else
      let inserted := gap_before self romd start off remain fr in
      let step := Z.min (offset_from fr_end start) remain in
      let start' := unchecked_add start step in
      let off' := wadd 64 off step in
      let remain' := wsub 64 remain step in
      if remain' =? 0 then inserted ++ fr :: rest
      else inserted ++ fr :: render_loop self romd start' off' remain' rest
  end.

Definition render_terminate_region (self : rid) (r : Region) (base : Z) (ar : AddressRange)
    (fv : list FlatRange) : res AddressSpaceError (list FlatRange) :=
  let region_range := mkRange (unchecked_add base (r_offset r)) (r_size r) in
  match find_intersection region_range ar with
  | None => Err EBail
  | Some intersect =>
    let off := offset_from (ar_base intersect) (ar_base region_range) in
    Ok (render_loop self (get_rom_device_romd r) (ar_base intersect) off (ar_size intersect) fv)
  end.

(** [for sub_r in subregions { render(sub_r)? }] *)
Fixpoint render_all (render : rid -> list FlatRange -> res AddressSpaceError (list FlatRange))
    (subs : list rid) (fv : list FlatRange) : res AddressSpaceError (list FlatRange) :=
  match subs with
  | [] => Ok fv
  | s :: subs => fv ← render s fv; render_all render subs fv
  end.

Fixpoint render_region_pass (fuel : nat) (self : rid) (base : Z) (ar : AddressRange)
    (fv : list FlatRange) : res AddressSpaceError (list FlatRange) :=
  match fuel with
  | O => Panic
  | S fuel =>
    r ← unwrap (st !! self);
    let region_base := unchecked_add base (r_offset r) in
    match find_intersection (mkRange region_base (r_size r)) ar with
    | None => Ok fv
    | Some intersect =>
      match region_type r with
      | Container =>
        render_all (fun s fv => render_region_pass fuel s region_base intersect fv)
          (subregions r) fv
      | Alias =>
        match alias r with
        | None => Ok fv
        | Some t =>
          tr ← unwrap (st !! t);
          let alias_base :=
            unchecked_sub (unchecked_sub region_base (alias_offset r)) (r_offset tr) in
          render_region_pass fuel t alias_base intersect fv
        end
      | Ram | IO | RomDevice | RamDevice => render_terminate_region self r base ar fv
      end
    end
  end.

Definition generate_flatview (fuel : nat) (self : rid) (base : Z) (ar : AddressRange)
  : res AddressSpaceError (list FlatRange) :=
  r ← unwrap (st !! self);
  match region_type r with
  | Container => render_region_pass fuel self base ar []
  | _ => Err EBail
  end.
End render.

(** ** The flat view as a partial function of the address *)

(** Ranges in increasing order from [lo] on, disjoint, not empty, and with an
    end address that is still a [u64]. *)
Fixpoint flat_ok (lo : Z) (fv : list FlatRange) : Prop :=
  match fv with
  | [] => True
  | fr :: rest =>
    lo <= ar_base (addr_range fr) /\ 0 < ar_size (addr_range fr) /\
    ar_base (addr_range fr) + ar_size (addr_range fr) < 2 ^ 64 /\
    flat_ok (ar_base (addr_range fr) + ar_size (addr_range fr)) rest
  end.

(** Owner, offset within the owner, and rom mode at an address. *)
Abbreviation place := (rid * Z * option bool)%type.

Definition fr_place (fr : FlatRange) (a : Z) : place :=
  (owner fr, offset_in_region fr + (a - ar_base (addr_range fr)), fr_romd fr).

Fixpoint flat_lookup (fv : list FlatRange) (a : Z) : option place :=
  match fv with
  | [] => None
  | fr :: rest => if covers (addr_range fr) a then Some (fr_place fr a) else flat_lookup rest a
  end.

Definition or_else {A} (o1 o2 : option A) : option A :=
  match o1 with Some x => Some x | None => o2 end.

Lemma or_else_assoc {A} (a b c : option A) : or_else a (or_else b c) = or_else (or_else a b) c.
Proof. by destruct a. Qed.
Lemma or_else_None_r {A} (a : option A) : or_else a None = a.
Proof. by destruct a. Qed.

Lemma flat_ok_weaken lo lo' fv : flat_ok lo fv -> lo' <= lo -> flat_ok lo' fv.
Proof. destruct fv; simpl; [done|]. intros (? & ? & ? & ?) ?. split_and!; try done. lia. Qed.

Lemma flat_lookup_below lo fv a : flat_ok lo fv -> a < lo -> flat_lookup fv a = None.
Proof.
  revert lo. induction fv as [|fr fv IH]; intros lo; simpl; [done|].
  intros (? & ? & ? & Hok) ?. unfold covers. zcases; try lia; (eapply IH; [eassumption|lia]).
Qed.

(** What the range being rendered contributes. *)
Definition piece (self : rid) (romd : option bool) (start off remain a : Z) : option place :=
  if covers (mkRange start remain) a then Some (self, off + (a - start), romd) else None.

Lemma piece_empty self romd start off a : piece self romd start off 0 a = None.
Proof. unfold piece, covers; simpl. zcases; done || lia. Qed.

Lemma gap_before_lookup self romd start off remain fr tl a :
  0 <= start < 2 ^ 64 -> 0 < remain -> is_u64 (ar_base (addr_range fr)) ->
  flat_lookup (gap_before self romd start off remain fr ++ fr :: tl) a =
  or_else (piece self romd start off (Z.min remain (Z.max 0 (ar_base (addr_range fr) - start))) a)
    (flat_lookup (fr :: tl) a).
Proof.
  intros ? ? [? ?]. unfold gap_before. zcase.
  - unfold offset_from. rewrite wsub_small by (unfold inW; lia). rewrite Z.max_r by lia.
    unfold piece. simpl. by destruct (covers _ a).
  - replace (Z.min remain _) with 0 by lia. by rewrite piece_empty.
Qed.

Lemma gap_before_ok self romd start off remain fr tl lo :
  lo <= start < 2 ^ 64 -> 0 <= start -> 0 < remain -> flat_ok lo (fr :: tl) ->
  flat_ok lo (gap_before self romd start off remain fr ++ fr :: tl).
Proof.
  intros ? ? ? (? & ? & ? & ?). unfold gap_before. zcase; [|simpl; split_and!; done].
  unfold offset_from. rewrite wsub_small by (unfold inW; lia).
  simpl. split_and!; try done; lia.
Qed.

Lemma render_loop_spec self romd fv : forall lo start off remain,
  flat_ok lo fv -> 0 <= lo <= start -> 0 < remain -> start + remain < 2 ^ 64 ->
  0 <= off -> off + remain < 2 ^ 64 ->
  flat_ok lo (render_loop self romd start off remain fv) /\
  forall a, flat_lookup (render_loop self romd start off remain fv) a =
            or_else (flat_lookup fv a) (piece self romd start off remain a).
Proof.
  induction fv as [|fr fv IH]; intros lo start off remain Hok ? ? ? ? ?; cbn [render_loop].
  { destruct (Z.ltb_spec 0 remain); [|lia]. simpl. split; [split_and!; done || lia|]. done. }
  pose proof Hok as (? & ? & ? & Hok'). rewrite end_addr_small by lia.
  set (fb := ar_base (addr_range fr)) in *. set (fe := fb + ar_size (addr_range fr)) in *.
  destruct (Z.leb_spec fe start) as [Hskip|Hin].
  { destruct (IH fe start off remain) as [Hok1 Hl]; try done; try lia.
    split; [simpl; split_and!; done|]. intros a. simpl. rewrite Hl.
    by destruct (covers (addr_range fr) a). }
  assert (offset_from fe start = fe - start) as -> by (apply wsub_small; unfold inW; lia).
  unfold unchecked_add. wsimpl.
  destruct (Z.eqb_spec (remain - Z.min (fe - start) remain) 0) as [Hz|Hnz].
  - split; [apply gap_before_ok; done || lia|]. intros a.
    rewrite gap_before_lookup by (done || unfold inW; lia). unfold piece; simpl.
    unfold covers; simpl. fold fb. fold fe.
    destruct (decide (a < fe)).
    + rewrite (flat_lookup_below fe) by done. zcases; done || lia.
    + zcases; try lia; by destruct (flat_lookup fv a).
  - assert (fe - start < remain) by lia. rewrite Z.min_l in * by lia.
    destruct (IH fe (start + (fe - start)) (off + (fe - start)) (remain - (fe - start)))
      as [Hok1 Hl]; try done; try lia.
    split; [apply gap_before_ok; simpl; (lia || split_and!; done)|]. intros a.
    rewrite gap_before_lookup by (done || unfold inW; lia). simpl. rewrite Hl.
    unfold piece, covers; simpl. fold fb. fold fe. destruct (decide (a < fe)).
    + rewrite (flat_lookup_below fe) by done. zcases; done || lia.
    + zcases; try done; try lia.
      all: destruct (flat_lookup fv a); try done; simpl; do 3 f_equal; lia.
Qed.

(** ** Specification of rendering: who owns an address *)

Section resolve.
Context (st : store).

Fixpoint first_some {A B} (f : A -> option B) (l : list A) : option B :=
  match l with
  | [] => None
  | x :: l => or_else (f x) (first_some f l)
  end.

(** [resolve fuel self base a]: the terminal region that answers for address
    [a] below the region [self] placed at [base].  A container answers with
    its first sub-region that answers (the list is kept in decreasing
    priority), an alias with its target moved to the alias's place. *)
Fixpoint resolve (fuel : nat) (self : rid) (base a : Z) : option place :=
  match fuel with
  | O => None
  | S fuel =>
    match st !! self with
    | None => None
    | Some r =>
      let region_base := unchecked_add base (r_offset r) in
      if negb (covers (mkRange region_base (r_size r)) a) then None
      else match region_type r with
      | Container => first_some (fun s => resolve fuel s region_base a) (subregions r)
      | Alias =>
        match alias r with
        | None => None
        | Some t =>
          match st !! t with
          | None => None
          | Some tr =>
            resolve fuel t
              (unchecked_sub (unchecked_sub region_base (alias_offset r)) (r_offset tr)) a
          end
        end
      | _ => Some (self, a - region_base, get_rom_device_romd r)
      end
    end
  end.

(** A region store the source can build: no empty region, [u64] fields, no
    dangling handle. *)
Definition region_wf (r : Region) : Prop :=
  0 < r_size r < 2 ^ 64 /\ is_u64 (r_offset r) /\ is_u64 (alias_offset r) /\
  (forall s, s ∈ subregions r -> is_Some (st !! s)) /\
  (forall t, alias r = Some t -> is_Some (st !! t)).
Definition store_wf : Prop := forall x r, st !! x = Some r -> region_wf r.

(** The region graph is acyclic: [rank] decreases along sub-regions and aliases. *)
Definition ranked (rank : rid -> nat) : Prop := forall x r, st !! x = Some r ->
  (forall s, s ∈ subregions r -> (rank s < rank x)%nat) /\
  (forall t, alias r = Some t -> (rank t < rank x)%nat).

Context (Hwf : store_wf).

Lemma render_terminate_spec self r base ar fv fv' :
  region_wf r -> is_u64 base -> range_wf ar -> 0 < ar_size ar ->
  ar_base ar + ar_size ar < 2 ^ 64 -> flat_ok 0 fv ->
  render_terminate_region self r base ar fv = Ok fv' ->
  flat_ok 0 fv' /\ forall a, flat_lookup fv' a = or_else (flat_lookup fv a)
    (if covers ar a && covers (mkRange (unchecked_add base (r_offset r)) (r_size r)) a
     then Some (self, a - unchecked_add base (r_offset r), get_rom_device_romd r) else None).
Proof.
  intros (? & ? & _) ? Har ? ? Hok. unfold render_terminate_region.
  set (rr := mkRange (unchecked_add base (r_offset r)) (r_size r)).
  destruct (find_intersection rr ar) as [i|] eqn:Hi; [|done]. intros [= <-].
  assert (range_wf rr) as Hrr.
  { split; simpl; [apply wrap_inW; lia|unfold inW; lia]. }
  destruct (find_intersection_Some _ _ _ Hrr Har Hi) as ([? ?] & Hcov & ? & ? & ? & Hpos).
  simpl in *. unfold offset_from. rewrite wsub_small by (unfold inW in *; simpl in *; lia).
  destruct (render_loop_spec self (get_rom_device_romd r) fv 0 (ar_base i)
    (ar_base i - ar_base rr) (ar_size i)) as [Hok' Hl]; unfold inW in *; simpl in *; try (done || lia).
  split; [done|]. intros a. rewrite Hl. f_equal. unfold piece.
  rewrite (andb_comm (covers ar a)), <-Hcov. replace (mkRange _ _) with i by (by destruct i).
  destruct (covers i a); [|done]. simpl. do 3 f_equal. lia.
Qed.

Lemma render_all_spec (P : list FlatRange -> Prop) (f : rid -> Z -> option place) render subs :
  (forall s fv fv', s ∈ subs -> P fv -> render s fv = Ok fv' ->
     P fv' /\ forall a, flat_lookup fv' a = or_else (flat_lookup fv a) (f s a)) ->
  forall fv fv', P fv -> render_all render subs fv = Ok fv' ->
  P fv' /\ forall a, flat_lookup fv' a = or_else (flat_lookup fv a) (first_some (fun s => f s a) subs).
Proof.
  induction subs as [|s subs IH]; intros Hr fv fv' HP H; simpl in H.
  - injection H as <-. split; [done|]. intros a. simpl. by rewrite or_else_None_r.
  - inv_res. destruct (Hr s fv v) as [HP1 Hl1]; [left|done|done|].
    destruct (IH (fun s' fv1 fv2 Hs => Hr s' fv1 fv2 (list_elem_of_further _ _ _ Hs)) v fv')
      as [HP2 Hl2]; [done|done|].
    split; [done|]. intros a. rewrite Hl2, Hl1. simpl. symmetry. apply or_else_assoc.
Qed.

Lemma first_some_if {A B} (c : bool) (f : A -> option B) l :
  first_some (fun s => if c then f s else None) l = if c then first_some f l else None.
Proof. destruct c; [done|]. induction l; simpl; auto. Qed.

Lemma render_region_pass_spec fuel : forall self base ar fv fv',
  is_u64 base -> range_wf ar -> 0 < ar_size ar -> ar_base ar + ar_size ar < 2 ^ 64 ->
  flat_ok 0 fv -> render_region_pass st fuel self base ar fv = Ok fv' ->
  flat_ok 0 fv' /\ forall a, flat_lookup fv' a =
    or_else (flat_lookup fv a) (if covers ar a then resolve fuel self base a else None).
Proof.
  induction fuel as [|fuel IH]; intros self base ar fv fv' Hb Har Hpos Hov Hok H; [done|].
  cbn [render_region_pass resolve] in *. destruct (st !! self) as [r|] eqn:Hr; [|done].
  simpl in H. pose proof (Hwf _ _ Hr) as Hrw. pose proof Hrw as (? & ? & ? & Hsub & Hal).
  set (rb := unchecked_add base (r_offset r)) in *. set (rr := mkRange rb (r_size r)) in *.
  assert (is_u64 rb) by (apply wrap_inW; lia).
  assert (range_wf rr) as Hrr by (split; simpl; [done|unfold inW; lia]).
  destruct (find_intersection rr ar) as [i|] eqn:Hi.
  2:{ injection H as <-. split; [done|]. intros a.
      pose proof (find_intersection_None _ _ a Hi) as Hn.
      destruct (covers rr a), (covers ar a); simpl in *; try done; by rewrite or_else_None_r. }
  destruct (find_intersection_Some _ _ _ Hrr Har Hi) as (Hiw & Hcov & ? & ? & ? & Hip).
  assert (0 < ar_size i) by (apply Hip; simpl; lia).
  destruct (region_type r) eqn:Ht.
  1,2,4,5: destruct (render_terminate_spec self r base ar fv fv') as [Hok' Hl]; try done;
    (split; [done|]); intros a; rewrite Hl; fold rb; fold rr;
    by destruct (covers ar a), (covers rr a).
  - destruct (render_all_spec (flat_ok 0)
      (fun s a => if covers i a then resolve fuel s rb a else None)
      (fun s fv => render_region_pass st fuel s rb i fv) (subregions r)) with fv fv'
      as [Hok' Hl]; [|done|done|].
    { intros. by apply IH with (ar := i); try (done || lia). }
    split; [done|]. intros a. rewrite Hl, first_some_if, Hcov.
    by destruct (covers rr a), (covers ar a).
  - destruct (alias r) as [t|] eqn:Ha.
    2:{ injection H as <-. split; [done|]. intros a.
        destruct (covers ar a), (covers rr a); simpl; by rewrite or_else_None_r. }
    destruct (st !! t) as [tr|] eqn:Htr; [|done]. simpl in H.
    eapply IH in H as [Hok' Hl]; try (done || lia); [|apply wrap_inW; lia].
    split; [done|]. intros a. rewrite Hl, Hcov. by destruct (covers rr a), (covers ar a).
Qed.

(** Rendering an acyclic graph succeeds when the fuel exceeds the rank. *)
Lemma render_region_pass_total rank fuel : ranked rank ->
  forall self base ar fv, (rank self < fuel)%nat -> is_Some (st !! self) ->
  exists fv', render_region_pass st fuel self base ar fv = Ok fv'.
Proof.
  intros Hrank. induction fuel as [|fuel IH]; intros self base ar fv Hf [r Hr]; [lia|].
  cbn [render_region_pass]. rewrite Hr. simpl.
  pose proof (Hwf _ _ Hr) as (_ & _ & _ & Hsub & Hal). destruct (Hrank _ _ Hr) as [Hrs Hra].
  destruct (find_intersection _ _) as [i|] eqn:Hi; [|by eexists].
  destruct (region_type r) eqn:Ht;
    try (unfold render_terminate_region; rewrite Hi; by eexists).
  - clear Hr Hal Hra. revert fv. induction (subregions r) as [|s l IHl]; intros fv; simpl; [by eexists|].
    destruct (IH s (unchecked_add base (r_offset r)) i fv) as [fv1 ->];
      [specialize (Hrs s); set_solver by lia|apply Hsub; left|].
    simpl. apply IHl; intros; [apply Hsub|apply Hrs]; by right.
  - destruct (alias r) as [t|] eqn:Ha; [|by eexists].
    destruct (Hal t eq_refl) as [tr Htr]. rewrite Htr. simpl.
    apply IH; [specialize (Hra t eq_refl); lia|by eexists].
Qed.

(** The owner of an address is a terminal region and the offset is inside it. *)
Lemma resolve_place fuel : forall self base a o off m,
  resolve fuel self base a = Some (o, off, m) ->
  exists r, st !! o = Some r /\ 0 <= off < r_size r /\ m = get_rom_device_romd r /\
    region_type r <> Container /\ region_type r <> Alias.
Proof.
  induction fuel as [|fuel IH]; intros self base a o off m H; [done|]. cbn [resolve] in H.
  destruct (st !! self) as [r|] eqn:Hr; [|done].
  destruct (covers _ a) eqn:Hc; [|done]. apply covers_spec in Hc. simpl in *.
  destruct (region_type r) eqn:Ht; simplify_eq;
    try (exists r; rewrite Ht; split_and!; done || lia).
  - induction (subregions r) as [|s l IHl]; [done|]. simpl in H.
    destruct (resolve fuel s _ a) as [p|] eqn:Hp; simpl in H; simplify_eq; eauto.
  - destruct (alias r) as [t|]; [|done]. destruct (st !! t); [|done]. eauto.
Qed.
End resolve.
