(* ===== verification/FlatView.v ===== *)
(** * Access through the flat view ([address_space/src/address_space.rs],
      [address_space/src/region.rs])

    Lookup of the flat range at an address (a binary search), the read and
    write loops that cross range boundaries, [Region::read]/[Region::write]
    on host memory and on device regions, and the guest-to-host address
    translations.  Host memory is a byte per host virtual address; a device
    region's closures are parameters ([dev_read], [dev_write]) that act on the
    state of the devices and on host memory, and need not return. *)
From stdpp Require Import prelude list gmap.
From Stdlib Require Import ZArith Lia.
From S2P Require Import Prelude Address Region.

(** [slice::binary_search_by_key] of the standard library: [Ok i] is a
    position of the key, [Err i] the place where it could be inserted. *)
Fixpoint binary_search_loop (fuel : nat) (keys : list Z) (x : Z) (left right size : nat)
  : res nat nat :=
  match fuel with
  | O => Panic
  | S fuel =>
    if (left <? right)%nat then
      let mid := (left + size / 2)%nat in
      match keys !! mid with
      | None => Panic
      | Some k =>
        if k <? x then binary_search_loop fuel keys x (S mid) right (right - S mid)
        else if x <? k then binary_search_loop fuel keys x left mid (mid - left)
        else Ok mid
      end
    else Err left
  end.
Definition binary_search (keys : list Z) (x : Z) : res nat nat :=
  binary_search_loop (S (length keys)) keys x 0 (length keys) (length keys).

Definition find_flatrange (fv : list FlatRange) (addr : Z) : option FlatRange :=
  match binary_search ((fun fr => ar_base (addr_range fr)) <$> fv) addr with
  | Ok x => fv !! x
  | Err x =>
    match x with
    | O => None
    | S p =>
      match fv !! p with
      | Some fr => if addr <? end_addr (addr_range fr) then Some fr else None
      | None => None
      end
    end
  | Panic => None
  end.

(** Host memory, the ranges passed to [MigrationManager::mark_dirty_log] so
    far, and the state of the emulated devices. *)
Record Mach (D : Type) := mkMach { hmem : Z -> Z; dirty : list (Z * Z); dev : D }.
Arguments mkMach {D}.
Arguments hmem {D}.
Arguments dirty {D}.
Arguments dev {D}.

Definition mem_read (m : Z -> Z) (h : Z) (n : nat) : list Z := ztab m h n.
Definition mem_write (m : Z -> Z) (h : Z) (d : list Z) : Z -> Z :=
  fun x => if (h <=? x) && (x <? h + Z.of_nat (length d))
           then default 0 (d !! Z.to_nat (x - h)) else m x.

Section access.
Context {D : Type}.
Context (dev_read : rid -> list Z -> Z -> Z -> Mach D -> Mach D * option (bool * list Z)).
Context (dev_write : rid -> list Z -> Z -> Z -> Mach D -> Mach D * option bool).
Context (st : store).

Abbreviation M := (sres (Mach D) AddressSpaceError).

(** One call of a device closure; [None] if it does not return, because it
    panics or waits for a lock that is never released. *)
Definition call_read (self : rid) (buf : list Z) (base offset : Z) : M (bool * list Z) :=
  fun s => let '(s, r) := dev_read self buf base offset s in (s, unwrap r).
Definition call_write (self : rid) (buf : list Z) (base offset : Z) : M bool :=
  fun s => let '(s, r) := dev_write self buf base offset s in (s, unwrap r).

(** [rw_multi_ops!] for reads: [n] accesses of [access_size] bytes, then one
    for the remainder. *)
Fixpoint multi_read (n : nat) (self : rid) (base offset pos count access_size : Z)
    (buf : list Z) : M (list Z) :=
  match n with
  | O =>
    if 0 <? count `mod` access_size then
      '(ok, b) ← call_read self (slice buf (Z.to_nat pos) (Z.to_nat (count - pos)))
                   base (wadd 64 offset pos);
      if (ok : bool) then mret (splice buf (Z.to_nat pos) b)
      else sfail (EIoAccess base (wadd 64 offset pos) (count - pos))
    else mret buf
  | S n =>
    '(ok, b) ← call_read self (slice buf (Z.to_nat pos) (Z.to_nat access_size))
                 base (wadd 64 offset pos);
    if (ok : bool)
    then multi_read n self base offset (pos + access_size) count access_size
           (splice buf (Z.to_nat pos) b)
    else sfail (EIoAccess base (wadd 64 offset pos) access_size)
  end.

Fixpoint multi_write (n : nat) (self : rid) (base offset pos count access_size : Z)
    (buf : list Z) : M unit :=
  match n with
  | O =>
    if 0 <? count `mod` access_size then
      ok ← call_write self (slice buf (Z.to_nat pos) (Z.to_nat (count - pos)))
             base (wadd 64 offset pos);
      if (ok : bool) then mret tt
      else sfail (EIoAccess base (wadd 64 offset pos) (count - pos))
    else mret tt
  | S n =>
    ok ← call_write self (slice buf (Z.to_nat pos) (Z.to_nat access_size))
           base (wadd 64 offset pos);
    if (ok : bool)
    then multi_write n self base offset (pos + access_size) count access_size buf
    else sfail (EIoAccess base (wadd 64 offset pos) access_size)
  end.

(** [Region::read]: the bytes written to [dst]. *)
Definition region_read (self : rid) (base offset count : Z) : M (list Z) :=
  r ← slift (unwrap (st !! self));
  let read_host : M (list Z) :=
    mm ← slift (unwrap (mem_mapping r));
    s ← sget;
    mret (mem_read (hmem s) (wadd 64 (host_addr mm) offset) (Z.to_nat count)) in
  let read_ops : M (list Z) :=
    _ ← slift (if has_ops r then Ok tt else Panic);
    '(ok, b) ← call_read self (replicate (Z.to_nat count) 0) base offset;
    if (ok : bool) then mret b else sfail (EIoAccess base offset count) in
  match region_type r with
  | Ram | RamDevice => _ ← slift (check_valid_offset r offset count); read_host
  | RomDevice =>
    _ ← slift (check_valid_offset r offset count);
    if rom_dev_romd r then read_host else read_ops
  | IO =>
    match max_access_size r with
    | Some a =>
      if a <? count then
        _ ← slift (if has_ops r then Ok tt else Panic);
        _ ← slift (if a =? 0 then Panic else Ok tt);
        multi_read (Z.to_nat (count / a)) self base offset 0 count a
          (replicate (Z.to_nat count) 0)
      else read_ops
    | None => read_ops
    end
  | _ => sfail (ERegionType (region_type r))
  end.

(** [src.read_exact] of [n] bytes from the remaining input. *)
Definition read_exact (src : list Z) (n : nat) : res AddressSpaceError (list Z * list Z) :=
  if (n <=? length src)%nat then Ok (take n src, drop n src) else Err EBail.

(** [Region::write]: consumes [count] bytes of [src], returns the rest. *)
Definition region_write (self : rid) (src : list Z) (base offset count : Z) : M (list Z) :=
  r ← slift (unwrap (st !! self));
  _ ← slift (check_valid_offset r offset count);
  match region_type r with
  | Ram | RamDevice =>
    mm ← slift (unwrap (mem_mapping r));
    s ← sget;
    let h := wadd 64 (host_addr mm) offset in
    _ ← sput (mkMach (hmem s) (dirty s ++ [(h, count)]) (dev s));
    '(d, rest) ← slift (read_exact src (Z.to_nat count));
    s ← sget;
    _ ← sput (mkMach (mem_write (hmem s) h d) (dirty s) (dev s));
    mret rest
  | RomDevice | IO =>
    if 2 ^ 64 - 1 <=? count then sfail (EOverflow count) else
    '(d, rest) ← slift (read_exact src (Z.to_nat count));
    _ ← slift (if has_ops r then Ok tt else Panic);
    match max_access_size r with
    | Some a =>
      if a <? count then
        _ ← slift (if a =? 0 then Panic else Ok tt);
        _ ← multi_write (Z.to_nat (count / a)) self base offset 0 count a d;
        mret rest
      else
        ok ← call_write self d base offset;
        if (ok : bool) then mret rest else sfail (EIoAccess base offset count)
    | None =>
      ok ← call_write self d base offset;
      if (ok : bool) then mret rest else sfail (EIoAccess base offset count)
    end
  | _ => sfail (ERegionType (region_type r))
  end.

Definition is_ram (t : RegionType) : bool :=
  match t with Ram | RamDevice => true | _ => false end.

(** [FlatView::read].  The loop moves to a later range at each turn, so one
    turn more than there are ranges is enough. *)
Fixpoint flat_read_loop (fuel : nat) (fv : list FlatRange) (start len : Z) (dst : list Z)
  : M (list Z) :=
  match fuel with
  | O => slift Panic
  | S fuel =>
    match find_flatrange fv start with
    | None => sfail (ERegionNotFound start)
    | Some fr =>
      let fr_offset := offset_from start (ar_base (addr_range fr)) in
      let region_offset := wadd 64 (offset_in_region fr) fr_offset in
      let region_base := unchecked_sub (ar_base (addr_range fr)) (offset_in_region fr) in
      let fr_remain := wsub 64 (ar_size (addr_range fr)) fr_offset in
      r ← slift (unwrap (st !! owner fr));
      let l := if is_ram (region_type r) then Z.min len fr_remain else len in
      d ← region_read (owner fr) region_base region_offset l;
      let len := wsub 64 len l in
      if len =? 0 then mret (dst ++ d)
      else flat_read_loop fuel fv (unchecked_add start l) len (dst ++ d)
    end
  end.
Definition flat_read (fv : list FlatRange) (addr count : Z) : M (list Z) :=
  flat_read_loop (S (length fv)) fv addr count [].

(** [FlatView::write]; returns what is left of [src]. *)
Fixpoint flat_write_loop (fuel : nat) (fv : list FlatRange) (src : list Z) (start len : Z)
  : M (list Z) :=
  match fuel with
  | O => slift Panic
  | S fuel =>
    match find_flatrange fv start with
    | None => sfail (ERegionNotFound start)
    | Some fr =>
      let fr_offset := offset_from start (ar_base (addr_range fr)) in
      let region_offset := wadd 64 (offset_in_region fr) fr_offset in
      let region_base := unchecked_sub (ar_base (addr_range fr)) (offset_in_region fr) in
      let fr_remain := wsub 64 (ar_size (addr_range fr)) fr_offset in
      r ← slift (unwrap (st !! owner fr));
      let l := if is_ram (region_type r) then Z.min len fr_remain else len in
      src ← region_write (owner fr) src region_base region_offset l;
      let len := wsub 64 len l in
      if len =? 0 then mret src
      else flat_write_loop fuel fv src (unchecked_add start l) len
    end
  end.
Definition flat_write (fv : list FlatRange) (src : list Z) (addr count : Z) : M (list Z) :=
  flat_write_loop (S (length fv)) fv src addr count.
End access.

(** ** Guest-to-host translation *)

Record RegionCache := mkCache {
  reg_type : RegionType;
  host_base : Z;
  c_start : Z;
  c_end : Z
}.

Record Iovec := mkIovec { iov_base : Z; iov_len : Z }.

Section translate.
Context (st : store) (fv : list FlatRange).

(** [AddressSpace::get_host_address] *)
Definition as_get_host_address (addr : Z) : option Z :=
  fr ← find_flatrange fv addr;
  r ← st !! owner fr;
  let offset := offset_from addr (ar_base (addr_range fr)) in
  host ← get_host_address r;
  Some (wadd 64 (wadd 64 host (offset_in_region fr)) offset).

(** Host address and the number of bytes available from there. *)
Definition addr_cache_init (addr : Z) : option (Z * Z) :=
  fr ← find_flatrange fv addr;
  r ← st !! owner fr;
  let fr_offset := offset_from addr (ar_base (addr_range fr)) in
  let region_offset := wadd 64 (offset_in_region fr) fr_offset in
  let region_remain := wsub 64 (r_size r) region_offset in
  let fr_remain := wsub 64 (ar_size (addr_range fr)) fr_offset in
  host ← get_host_address r;
  Some (wadd 64 host region_offset, Z.min fr_remain region_remain).

(** [get_address_map]: the fuel is as in [flat_read]. *)
Fixpoint get_address_map_loop (fuel : nat) (start len : Z) (iovs : list Iovec)
  : res AddressSpaceError (list Iovec) :=
  match fuel with
  | O => Panic
  | S fuel =>
    match addr_cache_init start with
    | None => Err EBail
    | Some (hva, fr_len) =>
      let iov := mkIovec hva (Z.min len fr_len) in
      let start := unchecked_add start (iov_len iov) in
      let len := wsub 64 len (iov_len iov) in
      if len =? 0 then Ok (iovs ++ [iov])
      else get_address_map_loop fuel start len (iovs ++ [iov])
    end
  end.
Definition get_address_map (addr count : Z) : res AddressSpaceError (list Iovec) :=
  get_address_map_loop (S (length fv)) addr count [].

Definition get_host_address_from_cache (addr : Z) (cache : option RegionCache)
  : option (Z * Z) :=
  match cache with
  | None => addr_cache_init addr
  | Some c =>
    if (c_start c <=? addr) && (addr <? c_end c)
    then Some (wsub 64 (wadd 64 (host_base c) addr) (c_start c), wsub 64 (c_end c) addr)
    else addr_cache_init addr
  end.

Definition address_in_memory (addr size : Z) : bool :=
  match find_flatrange fv addr with
  | None => false
  | Some fr =>
    match st !! owner fr with
    | None => false
    | Some r =>
      bool_decide (region_type r = Ram) &&
      (size <=? offset_from (end_addr (addr_range fr)) addr)
    end
  end.

Definition get_region_cache (addr : Z) : option RegionCache :=
  fr ← find_flatrange fv addr;
  r ← st !! owner fr;
  let start := ar_base (addr_range fr) in
  let end_ := end_addr (addr_range fr) in
  Some (mkCache (region_type r) (default 0 (as_get_host_address start)) start end_).

(** The greatest end address of a [Ram] range, [0] when there is none. *)
Definition memory_end_address : Z :=
  foldl (fun acc fr =>
    match st !! owner fr with
    | Some r => if bool_decide (region_type r = Ram)
                then Z.max acc (end_addr (addr_range fr)) else acc
    | None => acc
    end) 0 fv.
End translate.

(** ** Lookup: the binary search against the linear scan *)

Fixpoint sorted_keys (l : list Z) : Prop :=
  match l with
  | [] => True
  | x :: l => Forall (fun y => x < y) l /\ sorted_keys l
  end.

Lemma sorted_keys_lookup l i j x y :
  sorted_keys l -> l !! i = Some x -> l !! j = Some y -> (i < j)%nat -> x < y.
Proof.
  revert i j. induction l as [|z l IH]; intros i j; [done|]. intros [Hz Hs].
  destruct i as [|i], j as [|j]; simpl; intros; try lia; simplify_eq.
  - rewrite Forall_lookup in Hz. by eapply Hz.
  - eapply IH; [done..|lia].
Qed.

Lemma binary_search_loop_spec keys x fuel : forall left right,
  sorted_keys keys -> (left <= right <= length keys)%nat -> (right - left < fuel)%nat ->
  (forall i k, keys !! i = Some k -> (i < left)%nat -> k < x) ->
  (forall i k, keys !! i = Some k -> (right <= i)%nat -> x < k) ->
  match binary_search_loop fuel keys x left right (right - left) with
  | Ok i => keys !! i = Some x
  | Err i => (i <= length keys)%nat /\
             (forall j k, keys !! j = Some k -> (j < i)%nat -> k < x) /\
             (forall j k, keys !! j = Some k -> (i <= j)%nat -> x < k)
  | Panic => False
  end.
Proof.
  induction fuel as [|fuel IH]; intros left right Hs Hlr Hf Hlo Hhi; [lia|].
  cbn [binary_search_loop]. destruct (Nat.ltb_spec left right).
  2:{ split_and!; [lia|done|]. intros j k Hj ?. apply (Hhi j k Hj). lia. }
  set (mid := (left + (right - left) / 2)%nat).
  assert (left <= mid < right)%nat as Hmid.
  { unfold mid. pose proof (Nat.div_lt (right - left) 2). lia. }
  destruct (lookup_lt_is_Some_2 keys mid) as [k Hk]; [lia|]. rewrite Hk.
  destruct (Z.ltb_spec k x); [|destruct (Z.ltb_spec x k)].
  - apply IH; try (done || lia). intros i k' Hi ?.
    destruct (decide (i = mid)) as [->|]; [by simplify_eq|].
    assert (k' < k) by (eapply sorted_keys_lookup; [done..|lia]). lia.
  - apply IH; try (done || lia). intros i k' Hi ?.
    destruct (decide (i = mid)) as [->|]; [by simplify_eq|].
    assert (k < k') by (eapply sorted_keys_lookup; [done..|lia]). lia.
  - rewrite Hk. f_equal. lia.
Qed.

Lemma flat_ok_keys lo fv : flat_ok lo fv ->
  Forall (fun b => lo <= b) ((fun fr => ar_base (addr_range fr)) <$> fv) /\
  sorted_keys ((fun fr => ar_base (addr_range fr)) <$> fv).
Proof.
  revert lo. induction fv as [|fr fv IH]; intros lo; simpl; [done|].
  intros (? & ? & ? & Hok). destruct (IH _ Hok) as [Hall Hs].
  split_and!; [|eapply Forall_impl; [done|]; simpl; lia|done].
  constructor; [done|]. eapply Forall_impl; [done|]. simpl. lia.
Qed.

Lemma flat_ok_lookup lo fv i fr : flat_ok lo fv -> fv !! i = Some fr ->
  lo <= ar_base (addr_range fr) /\ 0 < ar_size (addr_range fr) /\
  ar_base (addr_range fr) + ar_size (addr_range fr) < 2 ^ 64.
Proof.
  revert lo i. induction fv as [|f fv IH]; intros lo i; [done|]. intros (? & ? & ? & Hok).
  destruct i; simpl; intros; simplify_eq; [lia|].
  destruct (IH _ i Hok) as (? & ? & ?); [done|]. lia.
Qed.

Lemma flat_lookup_at lo fv i fr a : flat_ok lo fv -> fv !! i = Some fr ->
  covers (addr_range fr) a = true -> flat_lookup fv a = Some (fr_place fr a).
Proof.
  revert lo i. induction fv as [|f fv IH]; intros lo i; [done|]. intros (? & ? & ? & Hok).
  destruct i as [|i]; simpl; intros Hi Hc; simplify_eq; [by rewrite Hc|].
  destruct (covers (addr_range f) a) eqn:Hf; [|by eapply IH].
  destruct (flat_ok_lookup _ _ _ _ Hok Hi) as (? & ? & ?).
  apply covers_spec in Hf, Hc. lia.
Qed.

Lemma flat_ok_order lo fv i j f g : flat_ok lo fv -> fv !! i = Some f -> fv !! j = Some g ->
  (i < j)%nat -> ar_base (addr_range f) + ar_size (addr_range f) <= ar_base (addr_range g).
Proof.
  revert lo i j. induction fv as [|h fv IH]; intros lo i j; [done|]. intros (? & ? & ? & Hok).
  destruct i as [|i], j as [|j]; simpl; intros Hi Hj ?; simplify_eq; try lia.
  - by destruct (flat_ok_lookup _ _ _ _ Hok Hj).
  - eapply IH; [done..|lia].
Qed.

Lemma binary_search_spec keys x : sorted_keys keys ->
  match binary_search keys x with
  | Ok i => keys !! i = Some x
  | Err i => (i <= length keys)%nat /\
             (forall j k, keys !! j = Some k -> (j < i)%nat -> k < x) /\
             (forall j k, keys !! j = Some k -> (i <= j)%nat -> x < k)
  | Panic => False
  end.
Proof.
  intros Hs. pose proof (binary_search_loop_spec keys x (S (length keys)) 0 (length keys) Hs) as H.
  rewrite Nat.sub_0_r in H. apply H; try lia.
  intros i k ?%lookup_lt_Some. lia.
Qed.

(** A range is found exactly where one covers the address. *)
Lemma find_flatrange_spec fv a : flat_ok 0 fv -> 0 <= a ->
  match find_flatrange fv a with
  | Some fr => fr ∈ fv /\ covers (addr_range fr) a = true
  | None => forall fr, fr ∈ fv -> covers (addr_range fr) a = false
  end.
Proof.
  intros Hok Ha. destruct (flat_ok_keys _ _ Hok) as [_ Hs]. unfold find_flatrange.
  set (keys := (fun fr => ar_base (addr_range fr)) <$> fv) in *.
  assert (length keys = length fv) as Hlen by apply length_fmap.
  assert (forall j fr, fv !! j = Some fr -> keys !! j = Some (ar_base (addr_range fr))) as Hk.
  { intros j fr Hj. unfold keys. by rewrite list_lookup_fmap, Hj. }
  pose proof (binary_search_spec keys a Hs) as Hb.
  destruct (binary_search keys a) as [i|i|]; [| |done].
  { destruct (lookup_lt_is_Some_2 fv i) as [fr Hfr]; [apply lookup_lt_Some in Hb; lia|].
    rewrite Hfr. split; [by eapply list_elem_of_lookup_2|].
    rewrite (Hk _ _ Hfr) in Hb. destruct (flat_ok_lookup _ _ _ _ Hok Hfr) as (? & ? & ?).
    apply covers_spec. simplify_eq. lia. }
  destruct Hb as (Hi & Hlo & Hhi).
  (* only the range before the insertion point can cover the address *)
  assert (forall j fr, fv !! j = Some fr -> covers (addr_range fr) a = true -> i = S j) as Huniq.
  { intros j fr Hj Hc%covers_spec. destruct (decide (i <= j)%nat) as [Hij|].
    - specialize (Hhi _ _ (Hk _ _ Hj) Hij). lia.
    - destruct (decide (i = S j)); [done|].
      destruct (lookup_lt_is_Some_2 fv (S j)) as [f Hf]; [lia|].
      pose proof (flat_ok_order _ _ _ _ _ _ Hok Hj Hf ltac:(lia)).
      specialize (Hlo _ _ (Hk _ _ Hf) ltac:(lia)). lia. }
  assert ((forall j fr, fv !! j = Some fr -> i = S j -> covers (addr_range fr) a = true -> False) ->
    forall fr, fr ∈ fv -> covers (addr_range fr) a = false) as Hnone.
  { intros HP fr [j Hj]%list_elem_of_lookup. destruct (covers (addr_range fr) a) eqn:Hc; [|done].
    exfalso. by eapply HP; [done|eapply Huniq|]. }
  destruct i as [|p]; [apply Hnone; intros; lia|].
  destruct (fv !! p) as [fr|] eqn:Hp; [|apply Hnone; intros; simplify_eq].
  destruct (flat_ok_lookup _ _ _ _ Hok Hp) as (? & ? & ?).
  rewrite end_addr_small by lia. specialize (Hlo _ _ (Hk _ _ Hp) ltac:(lia)). zcase.
  - split; [by eapply list_elem_of_lookup_2|]. apply covers_spec. lia.
  - apply Hnone. intros j f ? ? Hc%covers_spec. simplify_eq. lia.
Qed.

Lemma find_flatrange_covers fv fr a : flat_ok 0 fv -> 0 <= a -> fr ∈ fv ->
  covers (addr_range fr) a = true -> find_flatrange fv a = Some fr.
Proof.
  intros Hok Ha Hin Hc. pose proof (find_flatrange_spec fv a Hok Ha) as H.
  destruct (find_flatrange fv a) as [f|]; [|by rewrite (H fr Hin) in Hc].
  destruct H as [[i Hi]%list_elem_of_lookup Hcf]. apply list_elem_of_lookup in Hin as [j Hj].
  apply covers_spec in Hc, Hcf. destruct (Nat.lt_total i j) as [?|[->|?]]; [|congruence|].
  - pose proof (flat_ok_order _ _ _ _ _ _ Hok Hi Hj ltac:(lia)). lia.
  - pose proof (flat_ok_order _ _ _ _ _ _ Hok Hj Hi ltac:(lia)). lia.
Qed.

Lemma flat_lookup_find fv a : flat_ok 0 fv -> 0 <= a ->
  flat_lookup fv a = (fun fr => fr_place fr a) <$> find_flatrange fv a.
Proof.
  intros Hok Ha. pose proof (find_flatrange_spec fv a Hok Ha) as H.
  destruct (find_flatrange fv a) as [fr|]; simpl.
  - destruct H as [[i Hi]%list_elem_of_lookup Hc]. by eapply flat_lookup_at.
  - clear Hok. induction fv as [|f fv IH]; simpl; [done|].
    rewrite (H f) by set_solver. apply IH. set_solver.
Qed.

(** Ranges that end after an address: the measure of the access loops. *)
Definition ahead_in (l : list FlatRange) (start : Z) : nat :=
  length (filter (fun fr => start < ar_base (addr_range fr) + ar_size (addr_range fr)) l).

Lemma ahead_length l start : (ahead_in l start <= length l)%nat.
Proof. apply length_filter. Qed.

Lemma ahead_mono l start start' : start <= start' -> (ahead_in l start' <= ahead_in l start)%nat.
Proof.
  intros. unfold ahead_in. induction l as [|g l IH]; [done|]. rewrite !filter_cons.
  repeat case_decide; simpl; lia.
Qed.

Lemma ahead_end l fr start : fr ∈ l ->
  start < ar_base (addr_range fr) + ar_size (addr_range fr) ->
  (ahead_in l (ar_base (addr_range fr) + ar_size (addr_range fr)) < ahead_in l start)%nat.
Proof.
  intros Hin Hlt. set (e := ar_base (addr_range fr) + ar_size (addr_range fr)) in *.
  induction l as [|f l IH]; [set_solver|].
  pose proof (ahead_mono l start e) as Hmono. unfold ahead_in in *.
  rewrite !filter_cons. apply elem_of_cons in Hin as [<-|Hin].
  - fold e. rewrite (decide_False (P := e < e)) by lia. rewrite decide_True by done. simpl. lia.
  - specialize (IH Hin). repeat case_decide; simpl; lia.
Qed.

(** ** Guest memory as host bytes *)

Section memory.
Context (st : store) (fv : list FlatRange).

(** The host address of the byte at guest address [a], where its owner is of
    one of the types [p]. *)
Definition translate_at (p : RegionType -> bool) (a : Z) : option Z :=
  '(o, off, _) ← flat_lookup fv a;
  r ← st !! o;
  if p (region_type r) then (fun mm => host_addr mm + off) <$> mem_mapping r else None.
(** ... for memory, and for every region with a host mapping. *)
Definition host_at : Z -> option Z := translate_at is_ram.
Definition hva_at : Z -> option Z := translate_at is_host_backed.

(** Every flat range lies within its owner. *)
Definition fits (fr : FlatRange) : Prop := exists r, st !! owner fr = Some r /\
  0 <= offset_in_region fr /\ offset_in_region fr + ar_size (addr_range fr) <= r_size r < 2 ^ 64.
(** The host mapping of a memory region holds the region. *)
Definition mapped (r : Region) : Prop := forall mm, mem_mapping r = Some mm ->
  0 <= host_addr mm /\ host_addr mm + r_size r <= 2 ^ 64.

Definition view_ok : Prop := flat_ok 0 fv /\ (forall fr, fr ∈ fv -> fits fr) /\
  (forall o r, st !! o = Some r -> mapped r).

Context (Hview : view_ok).

(** The flat range at a memory address, with everything its access uses. *)
Lemma translated_range p a h : 0 <= a -> translate_at p a = Some h ->
  exists fr r mm, find_flatrange fv a = Some fr /\ fr ∈ fv /\ st !! owner fr = Some r /\
    p (region_type r) = true /\ mem_mapping r = Some mm /\
    ar_base (addr_range fr) <= a < ar_base (addr_range fr) + ar_size (addr_range fr) /\
    (forall b, ar_base (addr_range fr) <= b < ar_base (addr_range fr) + ar_size (addr_range fr) ->
       translate_at p b = Some (host_addr mm + (offset_in_region fr + (b - ar_base (addr_range fr))))).
Proof.
  intros Ha Hh. destruct Hview as (Hok & _ & _). unfold translate_at in Hh.
  rewrite flat_lookup_find in Hh by done. pose proof (find_flatrange_spec fv a Hok Ha) as Hf.
  destruct (find_flatrange fv a) as [fr|] eqn:Hfind; [|done]. destruct Hf as [Hin Hc].
  simpl in Hh. destruct (st !! owner fr) as [r|] eqn:Hr; [|done]. simpl in Hh.
  destruct (p (region_type r)) eqn:Hram; [|done].
  destruct (mem_mapping r) as [mm|] eqn:Hmm; [|done].
  apply covers_spec in Hc. exists fr, r, mm. split_and!; try done; try lia.
  intros b Hb. unfold translate_at. apply list_elem_of_lookup in Hin as [i Hi].
  rewrite (flat_lookup_at 0 fv i fr) by (done || by apply covers_spec).
  simpl. by rewrite Hr; simpl; rewrite Hram, Hmm.
Qed.

Abbreviation ahead := (ahead_in fv).

(** *** Translation for I/O vectors *)

Lemma addr_cache_init_spec a h : 0 <= a -> hva_at a = Some h ->
  exists n, addr_cache_init st fv a = Some (h, n) /\ 0 < n /\ a + n < 2 ^ 64 /\
    (ahead (a + n) < ahead a)%nat /\ forall k, 0 <= k < n -> hva_at (a + k) = Some (h + k).
Proof.
  intros Ha Hh.
  destruct (translated_range is_host_backed a h) as (fr & r & mm & Hf & Hin & Hr & Hp & Hmm & Hc & Hall);
    [done..|].
  destruct Hview as (Hok & Hfit & Hmap). destruct (Hfit fr Hin) as (r' & Hr' & ? & ?). simplify_eq.
  destruct (Hmap _ _ Hr mm Hmm) as [? ?]. pose proof Hin as [i Hi]%list_elem_of_lookup.
  destruct (flat_ok_lookup _ _ _ _ Hok Hi) as (? & ? & ?).
  set (fb := ar_base (addr_range fr)) in *. set (fs := ar_size (addr_range fr)) in *.
  assert (h = host_addr mm + (offset_in_region fr + (a - fb))) as ->.
  { specialize (Hall a Hc). unfold hva_at in Hh. congruence. }
  exists (fs - (a - fb)). split_and!; try lia.
  - unfold addr_cache_init, get_host_address. rewrite Hf. simpl. rewrite Hr. simpl. rewrite Hp, Hmm.
    simpl. unfold offset_from. fold fb fs. rewrite (wsub_small 64 a) by (unfold inW; lia). wsimpl.
    f_equal. f_equal. lia.
  - replace (a + (fs - (a - fb))) with (fb + fs) by lia. by apply ahead_end; [|lia].
  - intros k ?. unfold hva_at. rewrite Hall by lia. f_equal. lia.
Qed.

(** The host addresses an I/O vector list denotes, in order. *)
Definition iov_addrs (v : Iovec) : list Z := ztab id (iov_base v) (Z.to_nat (iov_len v)).
Definition hva_addrs (a : Z) (n : nat) : list Z := ztab (fun b => default 0 (hva_at b)) a n.

Lemma get_address_map_loop_spec fuel : forall start len iovs,
  (ahead start < fuel)%nat -> 0 <= start -> 0 < len < 2 ^ 64 ->
  (forall a, start <= a < start + len -> is_Some (hva_at a)) ->
  exists l, get_address_map_loop st fv fuel start len iovs = Ok (iovs ++ l) /\
    l ≫= iov_addrs = hva_addrs start (Z.to_nat len).
Proof.
  induction fuel as [|fuel IH]; intros start len iovs Hf ? ? Hm; [lia|].
  destruct (Hm start) as [h Hh]; [lia|].
  destruct (addr_cache_init_spec start h) as (n & Hc & ? & ? & Hah & Hk); [done..|].
  cbn [get_address_map_loop]. rewrite Hc. cbn [iov_len].
  unfold unchecked_add. rewrite wsub_small, wadd_small by (unfold inW; lia).
  assert (iov_addrs (mkIovec h (Z.min len n)) = hva_addrs start (Z.to_nat (Z.min len n))) as Hiov.
  { apply ztab_ext. intros k ?. by rewrite Hk by lia. }
  destruct (Z.eqb_spec (len - Z.min len n) 0).
  - eexists; split; [done|]. cbn. rewrite Hiov, app_nil_r. by replace (Z.min len n) with len by lia.
  - assert (n < len) by lia. rewrite Z.min_r in * by lia.
    destruct (IH (start + n) (len - n) (iovs ++ [mkIovec h n])) as (l & -> & Hl);
      [lia..|intros; apply Hm; lia|].
    exists (mkIovec h n :: l). rewrite <-app_assoc. split; [done|]. cbn. rewrite Hiov.
    change (mjoin (iov_addrs <$> l)) with (l ≫= iov_addrs).
    replace (Z.to_nat len) with (Z.to_nat n + Z.to_nat (len - n))%nat by lia.
    unfold hva_addrs at 2. rewrite ztab_app, Z2Nat.id by lia. f_equal. done.
Qed.

Section ram_access.
Context {D : Type}.
Context (dev_read : rid -> list Z -> Z -> Z -> Mach D -> Mach D * option (bool * list Z)).
Context (dev_write : rid -> list Z -> Z -> Z -> Mach D -> Mach D * option bool).

Definition host (a : Z) : Z := default 0 (host_at a).

(** The bytes of guest memory at [a], [a + 1], ... *)
Definition guest_bytes (m : Z -> Z) (a : Z) (n : nat) : list Z := ztab (fun b => m (host b)) a n.

(** One turn of the loops at a memory address: how far the range goes, what
    the offsets are, and that they stay in bounds. *)
Lemma ram_turn start len : 0 <= start -> 0 < len -> start + len < 2 ^ 64 ->
  (forall a, start <= a < start + len -> is_Some (host_at a)) ->
  exists fr r mm off rem, find_flatrange fv start = Some fr /\ st !! owner fr = Some r /\
    is_ram (region_type r) = true /\ mem_mapping r = Some mm /\ 
    wadd 64 (offset_in_region fr) (offset_from start (ar_base (addr_range fr))) = off /\
    wsub 64 (ar_size (addr_range fr)) (offset_from start (ar_base (addr_range fr))) = rem /\
    0 < rem /\ 0 <= off /\ off + rem <= r_size r < 2 ^ 64 /\
    (ahead (start + rem) < ahead start)%nat /\
    wadd 64 (host_addr mm) off = host start /\
    (forall k, 0 <= k < rem -> host (start + k) = host start + k).
Proof.
  intros Ha ? ? Hm. destruct (Hm start) as [h Hh]; [lia|].
  destruct (translated_range is_ram start h) as (fr & r & mm & Hf & Hin & Hr & Hram & Hmm & Hc & Hall); [done..|].
  destruct Hview as (Hok & Hfit & Hmap). destruct (Hfit fr Hin) as (r' & Hr' & ? & ?).
  simplify_eq. destruct (Hmap _ _ Hr mm Hmm) as [? ?].
  pose proof Hin as [i Hi]%list_elem_of_lookup.
  destruct (flat_ok_lookup _ _ _ _ Hok Hi) as (? & ? & ?).
  set (fb := ar_base (addr_range fr)) in *. set (fs := ar_size (addr_range fr)) in *.
  exists fr, r, mm, (offset_in_region fr + (start - fb)), (fs - (start - fb)).
  unfold offset_from. fold fb fs. rewrite (wsub_small 64 start) by (unfold inW; lia). wsimpl.
  assert (forall k, 0 <= k < fs - (start - fb) ->
    host (start + k) = host_addr mm + (offset_in_region fr + (start + k - fb))) as Hk.
  { intros k ?. unfold host, host_at. rewrite Hall by lia. done. }
  pose proof (Hk 0 ltac:(lia)) as Hhost0. rewrite Z.add_0_r in Hhost0.
  split_and!; try done; try lia.
  - replace (start + (fs - (start - fb))) with (fb + fs) by lia. by apply ahead_end; [|lia].
  - intros k Hk'. rewrite Hk, Hhost0 by lia. lia.
Qed.

Lemma check_valid_offset_ok r off l :
  0 <= off -> 0 <= l -> off + l <= r_size r < 2 ^ 64 -> check_valid_offset r off l = Ok tt.
Proof.
  intros. unfold check_valid_offset, checked_add. zcase; [|lia]. zcase; [done|lia].
Qed.

Lemma region_read_ram o r mm base off l s :
  st !! o = Some r -> is_ram (region_type r) = true -> mem_mapping r = Some mm ->
  0 <= off -> 0 <= l -> off + l <= r_size r < 2 ^ 64 ->
  region_read dev_read st o base off l s =
    (s, Ok (mem_read (hmem s) (wadd 64 (host_addr mm) off) (Z.to_nat l))).
Proof.
  intros Hr Hram Hmm ? ? ?. unfold region_read. rewrite Hr. cbn [unwrap].
  rewrite slift_Ok_bind. destruct (region_type r); try done;
    rewrite check_valid_offset_ok, slift_Ok_bind, Hmm by lia; done.
Qed.

Lemma region_write_ram o r mm src base off l s :
  st !! o = Some r -> is_ram (region_type r) = true -> mem_mapping r = Some mm ->
  0 <= off -> 0 <= l -> off + l <= r_size r < 2 ^ 64 -> (Z.to_nat l <= length src)%nat ->
  let h := wadd 64 (host_addr mm) off in
  region_write dev_write st o src base off l s =
    (mkMach (mem_write (hmem s) h (take (Z.to_nat l) src)) (dirty s ++ [(h, l)]) (dev s),
     Ok (drop (Z.to_nat l) src)).
Proof.
  intros Hr Hram Hmm ? ? ? Hl h. unfold region_write. rewrite Hr. cbn [unwrap].
  rewrite slift_Ok_bind, check_valid_offset_ok, slift_Ok_bind by lia.
  assert (read_exact src (Z.to_nat l) = Ok (take (Z.to_nat l) src, drop (Z.to_nat l) src)) as Hre.
  { unfold read_exact. by destruct (Nat.leb_spec (Z.to_nat l) (length src)); [|lia]. }
  destruct (region_type r); try done; rewrite Hmm; cbn [unwrap]; rewrite slift_Ok_bind;
    unfold sget, sput; cbn; by rewrite Hre.
Qed.

Lemma mem_read_guest m a n :
  (forall k, 0 <= k < Z.of_nat n -> host (a + k) = host a + k) ->
  mem_read m (host a) n = guest_bytes m a n.
Proof.
  intros H. apply ztab_ext. intros k ?. by rewrite H.
Qed.

Lemma flat_read_loop_ram fuel : forall start len dst s,
  (ahead start < fuel)%nat -> 0 <= start -> 0 < len -> start + len < 2 ^ 64 ->
  (forall a, start <= a < start + len -> is_Some (host_at a)) ->
  flat_read_loop dev_read st fuel fv start len dst s =
    (s, Ok (dst ++ guest_bytes (hmem s) start (Z.to_nat len))).
Proof.
  induction fuel as [|fuel IH]; intros start len dst s Hf ? ? ? Hm; [lia|].
  destruct (ram_turn start len) as (fr & r & mm & off & rem & Hfind & Hr & Hram & Hmm & Hoff &
    Hrem & ? & ? & ? & Hah & Hh & Hk); [done..|].
  cbn [flat_read_loop]. rewrite Hfind, Hr. rewrite Hoff, Hrem. cbn [unwrap].
  rewrite slift_Ok_bind, Hram.
  assert (region_read dev_read st (owner fr)
    (unchecked_sub (ar_base (addr_range fr)) (offset_in_region fr)) off (Z.min len rem) s =
    (s, Ok (guest_bytes (hmem s) start (Z.to_nat (Z.min len rem))))) as Hread.
  { rewrite (region_read_ram _ r mm) by (done || lia).
    by rewrite Hh, mem_read_guest by (intros; apply Hk; lia). }
  rewrite (sres_step _ _ _ _ _ Hread). rewrite wsub_small by (unfold inW; lia).
  destruct (Z.eqb_spec (len - Z.min len rem) 0).
  - cbn. by replace (Z.min len rem) with len by lia.
  - unfold unchecked_add. rewrite wadd_small by (unfold inW; lia).
    rewrite Z.min_r by lia. rewrite IH; try lia.
    2:{ intros; apply Hm; lia. }
    rewrite <-app_assoc. do 3 f_equal.
    replace (Z.to_nat len) with (Z.to_nat rem + Z.to_nat (len - rem))%nat by lia.
    unfold guest_bytes. by rewrite ztab_app, Z2Nat.id by lia.
Qed.

(** Reference semantics of a guest write: one byte at a time. *)
Fixpoint write_guest (m : Z -> Z) (a : Z) (d : list Z) : Z -> Z :=
  match d with
  | [] => m
  | b :: d => write_guest (fun x => if x =? host a then b else m x) (a + 1) d
  end.

Lemma write_guest_ext d : forall m m' a, (forall x, m x = m' x) ->
  forall x, write_guest m a d x = write_guest m' a d x.
Proof.
  induction d as [|b d IH]; intros m m' a Hm x; simpl; [done|].
  apply IH. intros y. by destruct (y =? host a).
Qed.

Lemma write_guest_app d1 : forall m a d2,
  write_guest m a (d1 ++ d2) = write_guest (write_guest m a d1) (a + Z.of_nat (length d1)) d2.
Proof.
  induction d1 as [|b d1 IH]; intros m a d2; simpl; [by rewrite Z.add_0_r|].
  rewrite IH. f_equal. lia.
Qed.

Lemma mem_write_guest d : forall m a,
  (forall k, 0 <= k < Z.of_nat (length d) -> host (a + k) = host a + k) ->
  forall x, mem_write m (host a) d x = write_guest m a d x.
Proof.
  induction d as [|b d IH]; intros m a Hk x; cbn [write_guest length] in *.
  - unfold mem_write. simpl. zcases; done || lia.
  - destruct (decide (d = [])) as [->|Hne].
    { unfold mem_write. simpl. destruct (Z.eqb_spec x (host a)) as [->|].
      - rewrite Z.sub_diag. zcases; done || lia.
      - zcases; done || lia. }
    assert (0 < length d)%nat by (destruct d; simpl; [done|lia]).
    pose proof (Hk 1 ltac:(lia)) as H1. rewrite <-IH.
    + unfold mem_write. rewrite H1. cbn [length].
      destruct (Z.eqb_spec x (host a)) as [->|].
      * rewrite Z.sub_diag. zcases; done || lia.
      * zcases; try done; try lia.
        by replace (Z.to_nat (x - host a)) with (S (Z.to_nat (x - (host a + 1)))) by lia.
    + intros k ?. rewrite H1. replace (a + 1 + k) with (a + (k + 1)) by lia. rewrite Hk; lia.
Qed.

Lemma write_guest_out d : forall m a x,
  (forall k, 0 <= k < Z.of_nat (length d) -> host (a + k) <> x) -> write_guest m a d x = m x.
Proof.
  induction d as [|b d IH]; intros m a x H; cbn [write_guest length] in *; [done|].
  rewrite IH.
  - destruct (Z.eqb_spec x (host a)) as [->|]; [|done].
    exfalso. apply (H 0); [lia|]. by rewrite Z.add_0_r.
  - intros k ?. replace (a + 1 + k) with (a + (k + 1)) by lia. apply H. lia.
Qed.

Lemma write_guest_in d : forall m a i b,
  (forall j k, 0 <= j < Z.of_nat (length d) -> 0 <= k < Z.of_nat (length d) ->
     host (a + j) = host (a + k) -> j = k) ->
  d !! i = Some b -> write_guest m a d (host (a + Z.of_nat i)) = b.
Proof.
  induction d as [|c d IH]; intros m a i b Hinj Hi; [done|]. cbn [write_guest length] in *.
  destruct i as [|i]; simpl in Hi.
  - simplify_eq. simpl. rewrite Z.add_0_r. rewrite write_guest_out; [by rewrite Z.eqb_refl|].
    intros k Hk Heq. specialize (Hinj (k + 1) 0). rewrite Z.add_0_r in Hinj.
    replace (a + (k + 1)) with (a + 1 + k) in Hinj by lia. specialize (Hinj ltac:(lia) ltac:(lia) Heq). lia.
  - replace (a + Z.of_nat (S i)) with (a + 1 + Z.of_nat i) by lia. apply IH; [|done].
    intros j k ? ? Heq. specialize (Hinj (j + 1) (k + 1)).
    replace (a + (j + 1)) with (a + 1 + j) in Hinj by lia.
    replace (a + (k + 1)) with (a + 1 + k) in Hinj by lia. specialize (Hinj ltac:(lia) ltac:(lia) Heq). lia.
Qed.

Lemma flat_write_loop_ram fuel : forall start len src s,
  (ahead start < fuel)%nat -> 0 <= start -> 0 < len -> start + len < 2 ^ 64 ->
  (forall a, start <= a < start + len -> is_Some (host_at a)) ->
  (Z.to_nat len <= length src)%nat ->
  exists s', flat_write_loop dev_write st fuel fv src start len s =
      (s', Ok (drop (Z.to_nat len) src)) /\ dev s' = dev s /\
    forall x, hmem s' x = write_guest (hmem s) start (take (Z.to_nat len) src) x.
Proof.
  induction fuel as [|fuel IH]; intros start len src s Hf ? ? ? Hm Hlen; [lia|].
  destruct (ram_turn start len) as (fr & r & mm & off & rem & Hfind & Hr & Hram & Hmm & Hoff &
    Hrem & ? & ? & ? & Hah & Hh & Hk); [done..|].
  cbn [flat_write_loop]. rewrite Hfind, Hr. rewrite Hoff, Hrem. cbn [unwrap].
  rewrite slift_Ok_bind, Hram.
  pose proof (region_write_ram (owner fr) r mm src
    (unchecked_sub (ar_base (addr_range fr)) (offset_in_region fr)) off (Z.min len rem) s Hr Hram Hmm
    ltac:(lia) ltac:(lia) ltac:(lia) ltac:(lia)) as Hw. cbv zeta in Hw. rewrite Hh in Hw.
  rewrite (sres_step _ _ _ _ _ Hw). rewrite wsub_small by (unfold inW; lia).
  assert (forall x, mem_write (hmem s) (host start) (take (Z.to_nat (Z.min len rem)) src) x =
    write_guest (hmem s) start (take (Z.to_nat (Z.min len rem)) src) x) as Hmw.
  { apply mem_write_guest. intros k. rewrite length_take. intros. apply Hk. lia. }
  destruct (Z.eqb_spec (len - Z.min len rem) 0).
  - replace (Z.min len rem) with len in * by lia. by eexists; split_and!.
  - unfold unchecked_add. rewrite wadd_small by (unfold inW; lia).
    assert (rem < len) by lia. rewrite Z.min_r in * by lia.
    edestruct (IH (start + rem) (len - rem) (drop (Z.to_nat rem) src)) as (s' & -> & Hd & Hx);
      [lia..|intros; apply Hm; lia|rewrite length_drop; lia|].
    exists s'. split_and!; [|done|].
    { rewrite drop_drop. do 3 f_equal. lia. }
    intros x. rewrite Hx. simpl.
    rewrite (write_guest_ext _ _ (write_guest (hmem s) start (take (Z.to_nat rem) src))) by done.
    replace (take (Z.to_nat len) src) with
      (take (Z.to_nat rem) src ++ take (Z.to_nat (len - rem)) (drop (Z.to_nat rem) src)).
    + rewrite write_guest_app, length_take. do 2 f_equal. lia.
    + rewrite take_take_drop. f_equal. lia.
Qed.
End ram_access.
End memory.

(** ** Rendered views *)

(** A range of a view that agrees with [resolve] lies within its owner. *)
Lemma resolved_view_fits st fuel root base fv (c : Z -> bool) :
  store_wf st -> flat_ok 0 fv ->
  (forall a, flat_lookup fv a = if c a then resolve st fuel root base a else None) ->
  forall fr, fr ∈ fv -> fits st fr.
Proof.
  intros Hwf Hok Hl fr [i Hi]%list_elem_of_lookup.
  destruct (flat_ok_lookup _ _ _ _ Hok Hi) as (? & ? & ?).
  assert (forall a, covers (addr_range fr) a = true -> exists r, st !! owner fr = Some r /\
    0 <= offset_in_region fr + (a - ar_base (addr_range fr)) < r_size r) as Hin.
  { intros a Ha. pose proof (flat_lookup_at _ _ _ _ _ Hok Hi Ha) as Hp. rewrite Hl in Hp.
    destruct (c a); [|done]. apply resolve_place in Hp as (r & ? & ? & _). eauto. }
  destruct (Hin (ar_base (addr_range fr))) as (r & Hr & ?); [apply covers_spec; lia|].
  destruct (Hin (ar_base (addr_range fr) + ar_size (addr_range fr) - 1)) as (r' & Hr' & ?);
    [apply covers_spec; lia|].
  simplify_eq. exists r. destruct (Hwf _ _ Hr) as (? & _). split_and!; try done; lia.
Qed.

(** The view of a well-formed acyclic tree. *)
Lemma generate_flatview_spec st rank root r :
  store_wf st -> ranked st rank -> st !! root = Some r -> region_type r = Container ->
  exists fv, generate_flatview st (S (rank root)) root 0 (mkRange 0 (r_size r)) = Ok fv /\
    flat_ok 0 fv /\ (forall fr, fr ∈ fv -> fits st fr) /\
    forall a, 0 <= a -> (fun fr => fr_place fr a) <$> find_flatrange fv a =
      if covers (mkRange 0 (r_size r)) a then resolve st (S (rank root)) root 0 a else None.
Proof.
  intros Hwf Hrank Hr Ht. destruct (render_region_pass_total st Hwf rank (S (rank root)) Hrank
    root 0 (mkRange 0 (r_size r)) []) as [fv Hfv]; [lia|by eexists|].
  exists fv. unfold generate_flatview. rewrite Hr. cbn. rewrite Ht. split; [done|].
  destruct (Hwf _ _ Hr) as (? & _).
  destruct (render_region_pass_spec st Hwf (S (rank root)) root 0 (mkRange 0 (r_size r)) [] fv)
    as [Hok Hl]; unfold range_wf, inW; simpl; try (done || lia).
  split_and!; [done|exact (resolved_view_fits st _ root 0 fv _ Hwf Hok Hl)|].
  intros a Ha. rewrite <-flat_lookup_find by done. apply Hl.
Qed.

(** C1: the flat view generated for an acyclic, well-formed region tree is
    sorted, has no overlap and stays within the owners; and at every address
    the binary search over it finds exactly the region, offset and rom mode
    that the tree assigns to that address (the first sub-region in priority
    order, through containers and aliases). *)
Theorem flatview_lookup_refines_resolve st rank root r :
  store_wf st -> ranked st rank -> st !! root = Some r -> region_type r = Container ->
  exists fv, generate_flatview st (S (rank root)) root 0 (mkRange 0 (r_size r)) = Ok fv /\
    flat_ok 0 fv /\ (forall fr, fr ∈ fv -> fits st fr) /\
    forall a, 0 <= a -> (fun fr => fr_place fr a) <$> find_flatrange fv a =
      if covers (mkRange 0 (r_size r)) a then resolve st (S (rank root)) root 0 a else None.
Proof. apply generate_flatview_spec. Qed.

(** A small tree: RAM behind an alias at 0, an I/O window of higher priority
    over it at 0x1000. *)
Definition ex_ram : Region := init_ram_region (mkMapping (mkRange 0 0x8000) 0x7f0000000000 false).
Definition ex_io : Region :=
  let r := init_io_region 0x100 in
  {| region_type := IO; priority := 1; r_size := r_size r; r_offset := 0x1000;
     mem_mapping := None; has_ops := true; io_evtfds := []; space := None; subregions := [];
     rom_dev_romd := false; max_access_size := None; alias := None; alias_offset := 0 |}.
Definition ex_root : Region :=
  {| region_type := Container; priority := 0; r_size := 0x10000; r_offset := 0;
     mem_mapping := None; has_ops := false; io_evtfds := []; space := None;
     subregions := [3%positive; 4%positive]; rom_dev_romd := false; max_access_size := None;
     alias := None; alias_offset := 0 |}.
Definition ex_store : store :=
  <[1%positive := ex_root]> (<[2%positive := ex_ram]> (<[3%positive := ex_io]>
    (<[4%positive := init_alias_region 2%positive 0 0x8000]> ∅))).
Definition ex_rank (x : rid) : nat := if decide (x = 1%positive) then 2 else if decide (x = 4%positive) then 1 else 0.

Ltac ex_cases H :=
  repeat (apply lookup_insert_Some in H as [[<- <-]|[_ H]]); [..|by apply lookup_empty_Some in H].

Lemma ex_store_wf : store_wf ex_store.
Proof.
  intros x r H. unfold ex_store in H. ex_cases H; unfold region_wf, inW; simpl;
    (split_and!; try done; intros s Hs; set_unfold in Hs; destruct_or?; simplify_eq; by eexists).
Qed.
Lemma ex_store_ranked : ranked ex_store ex_rank.
Proof.
  intros x r H. unfold ex_store in H. ex_cases H; simpl; split; intros s Hs; try done;
    set_unfold in Hs; try done; destruct_or?; simplify_eq; vm_compute; lia.
Qed.

Lemma flatview_lookup_witness :
  exists fv, generate_flatview ex_store 3 1%positive 0 (mkRange 0 0x10000) = Ok fv /\
    (fun fr => fr_place fr 0x1010) <$> find_flatrange fv 0x1010 = Some (3%positive, 0x10, None) /\
    (fun fr => fr_place fr 0x2000) <$> find_flatrange fv 0x2000 = Some (2%positive, 0x2000, None).
Proof.
  destruct (flatview_lookup_refines_resolve ex_store ex_rank 1%positive ex_root ex_store_wf
    ex_store_ranked eq_refl eq_refl) as (fv & H1 & _ & _ & H2).
  exists fv. split_and!; [exact H1|rewrite H2 by lia; vm_compute; done..].
Defined.

(** ** Dirty logging *)

Section dirty_log.
Context {D : Type}.
Context (dev_write : rid -> list Z -> Z -> Z -> Mach D -> Mach D * option bool).
Context (st : store).

(** Every byte of host memory that differs lies in a range marked dirty since. *)
Definition logged (s s' : Mach D) : Prop := exists marks, dirty s' = dirty s ++ marks /\
  forall x, hmem s' x <> hmem s x -> exists h n, (h, n) ∈ marks /\ h <= x < h + n.

#[local] Instance logged_refl : Reflexive logged.
Proof. intros s. exists []. by rewrite app_nil_r. Qed.
#[local] Instance logged_trans : Transitive logged.
Proof.
  intros s1 s2 s3 (m1 & H1 & Hx1) (m2 & H2 & Hx2). exists (m1 ++ m2).
  rewrite H2, H1, <-app_assoc. split; [done|]. intros x Hx.
  destruct (decide (hmem s2 x = hmem s1 x)) as [Heq|Hne].
  - rewrite <-Heq in Hx. destruct (Hx2 x Hx) as (h & n & ? & ?). exists h, n. set_solver.
  - destruct (Hx1 x Hne) as (h & n & ? & ?). exists h, n. set_solver.
Qed.

(** The closures of device regions report what they change themselves. *)
Context (Hdev : forall self buf base offset s, logged s (dev_write self buf base offset s).1).

Lemma call_write_logged self buf base offset : srel logged (call_write dev_write self buf base offset).
Proof. intros s. unfold call_write. pose proof (Hdev self buf base offset s) as H. by destruct (dev_write self buf base offset s). Qed.

Lemma multi_write_logged n : forall self base offset pos count a buf,
  srel logged (multi_write dev_write n self base offset pos count a buf).
Proof.
  induction n as [|n IH]; intros; cbn [multi_write].
  - case_match; [|apply srel_ret, _]. apply srel_bind; [apply _|apply call_write_logged|].
    intros []; [apply srel_ret, _|apply srel_fail, _].
  - apply srel_bind; [apply _|apply call_write_logged|]. intros []; [apply IH|apply srel_fail, _].
Qed.

Lemma ram_write_logged (mm : HostMemMapping) src offset count :
  0 <= count -> srel (E := AddressSpaceError) logged
  (s ← sget;
   let h := wadd 64 (host_addr mm) offset in
   _ ← sput (mkMach (hmem s) (dirty s ++ [(h, count)]) (dev s));
   '(d, rest) ← slift (read_exact src (Z.to_nat count));
   s ← sget;
   _ ← sput (mkMach (mem_write (hmem s) h d) (dirty s) (dev s));
   mret rest).
Proof.
  intros Hc s. unfold sget, sput, slift, mbind, sres_bind. cbn.
  exists [(wadd 64 (host_addr mm) offset, count)].
  unfold read_exact. destruct (Nat.leb_spec (Z.to_nat count) (length src)); cbn; [|done].
  split; [done|]. intros x. unfold mem_write. rewrite length_take, Nat.min_l by done.
  intros Hx. eexists _, _. split; [left|]. revert Hx. zcases; done || lia.
Qed.

Lemma region_write_logged self src base offset count :
  0 <= count -> srel logged (region_write dev_write st self src base offset count).
Proof.
  intros Hc. unfold region_write. apply srel_bind; [apply _|apply srel_lift, _|]. intros r.
  apply srel_bind; [apply _|apply srel_lift, _|]. intros _.
  destruct (region_type r); try apply srel_fail, _.
  1,4: apply srel_bind; [apply _|apply srel_lift, _|]; intros mm; by apply ram_write_logged.
  all: case_match; [apply srel_fail, _|].
  all: apply srel_bind; [apply _|apply srel_lift, _|]; intros [d rest].
  all: apply srel_bind; [apply _|apply srel_lift, _|]; intros _.
  all: destruct (max_access_size r) as [a|]; [destruct (a <? count)|].
  all: repeat first
    [ apply srel_ret, _ | apply srel_fail, _ | apply srel_lift, _ | apply call_write_logged
    | apply multi_write_logged | apply srel_bind; [apply _| |intros []] ].
Qed.

Lemma flat_write_loop_logged fuel : forall fv src start len,
  0 <= len -> srel logged (flat_write_loop dev_write st fuel fv src start len).
Proof.
  induction fuel as [|fuel IH]; intros fv src start len Hlen; cbn [flat_write_loop];
    [apply srel_lift, _|].
  destruct (find_flatrange fv start) as [fr|]; [|apply srel_fail, _].
  apply srel_bind; [apply _|apply srel_lift, _|]. intros r. apply srel_bind; [apply _| |].
  - apply region_write_logged. destruct (is_ram _); [|done].
    apply Z.min_glb; [done|]. apply (wrap_inW 64). lia.
  - intros rest. case_match; [apply srel_ret, _|]. apply IH. apply (wrap_inW 64). lia.
Qed.
End dirty_log.

(** ** Properties of guest memory access *)

(** C2: a write to guest memory followed by a read of the same range returns
    the bytes written, also when the range spans several flat ranges with
    unrelated host mappings; the write consumes exactly [count] bytes of the
    source and changes no host byte outside the ones the range maps to. *)
Theorem guest_write_read_roundtrip {D}
    (dev_read : rid -> list Z -> Z -> Z -> Mach D -> Mach D * option (bool * list Z))
    (dev_write : rid -> list Z -> Z -> Z -> Mach D -> Mach D * option bool) st fv src addr count s :
  view_ok st fv -> 0 <= addr -> 0 < count -> addr + count < 2 ^ 64 ->
  (forall a, addr <= a < addr + count -> is_Some (host_at st fv a)) ->
  (forall a b, addr <= a < addr + count -> addr <= b < addr + count ->
     host st fv a = host st fv b -> a = b) ->
  (Z.to_nat count <= length src)%nat ->
  exists s', flat_write dev_write st fv src addr count s = (s', Ok (drop (Z.to_nat count) src)) /\
    flat_read dev_read st fv addr count s' = (s', Ok (take (Z.to_nat count) src)) /\
    forall x, (forall a, addr <= a < addr + count -> host st fv a <> x) -> hmem s' x = hmem s x.
Proof.
  intros Hv ? ? ? Hm Hinj Hlen. pose proof (ahead_length fv addr).
  destruct (flat_write_loop_ram st fv Hv dev_write (S (length fv)) addr count src s)
    as (s' & Hw & _ & Hx); try (done || lia).
  exists s'. split_and!; [done| |].
  - unfold flat_read. rewrite (flat_read_loop_ram st fv Hv dev_read) by (done || lia).
    do 2 f_equal. simpl. apply list_eq. intros i. unfold guest_bytes.
    destruct (decide (i < Z.to_nat count)%nat) as [Hi|Hi].
    + rewrite ztab_lookup by done. destruct (lookup_lt_is_Some_2 src i) as [b Hb]; [lia|].
      rewrite lookup_take_lt, Hb by done. f_equal. rewrite Hx.
      apply write_guest_in; [|by rewrite lookup_take_lt].
      rewrite length_take. intros j k ? ? E. enough (addr + j = addr + k) by lia.
      apply Hinj; [lia..|done].
    + rewrite !lookup_ge_None_2; rewrite ?ztab_length, ?length_take; done || lia.
  - intros x Hout. rewrite Hx. apply write_guest_out. intros k. rewrite length_take.
    intros. apply Hout. lia.
Qed.

(** Two RAM regions next to each other in guest memory, far apart in the host. *)
Definition ex2_ram (off h : Z) : Region :=
  {| region_type := Ram; priority := 0; r_size := 0x1000; r_offset := off;
     mem_mapping := Some (mkMapping (mkRange off 0x1000) h false); has_ops := false;
     io_evtfds := []; space := None; subregions := []; rom_dev_romd := false;
     max_access_size := None; alias := None; alias_offset := 0 |}.
Definition ex2_store : store :=
  <[2%positive := ex2_ram 0 0x50000]> (<[3%positive := ex2_ram 0x1000 0x10000]> ∅).
Definition ex2_view : list FlatRange :=
  [mkFlat (mkRange 0 0x1000) 2%positive 0 None; mkFlat (mkRange 0x1000 0x1000) 3%positive 0 None].

Lemma ex2_view_ok : view_ok ex2_store ex2_view.
Proof.
  split_and!; [vm_compute; done| |].
  - intros fr Hfr. unfold ex2_view in Hfr. set_unfold in Hfr.
    destruct_or?; simplify_eq; eexists; (split; [done|simpl; lia]).
  - intros o r H. unfold ex2_store in H. ex_cases H; intros mm [= <-]; simpl; lia.
Qed.

Lemma guest_write_read_witness :
  exists s', flat_read (D := unit) (fun _ b _ _ m => (m, Some (true, b))) ex2_store ex2_view 0xffe 4 s' =
    (s', Ok [11; 22; 33; 44]).
Proof.
  destruct (guest_write_read_roundtrip (D := unit) (fun _ b _ _ m => (m, Some (true, b)))
    (fun _ _ _ _ m => (m, Some true)) ex2_store ex2_view [11; 22; 33; 44] 0xffe 4
    (mkMach (fun _ => 0) [] tt)) as (s' & _ & Hr & _); try lia; [exact ex2_view_ok| | |simpl; lia|].
  - intros a Ha. assert (a = 0xffe \/ a = 0xfff \/ a = 0x1000 \/ a = 0x1001) by lia.
    destruct_or?; subst; vm_compute; by eexists.
  - intros a b Ha Hb. assert (a = 0xffe \/ a = 0xfff \/ a = 0x1000 \/ a = 0x1001) by lia.
    assert (b = 0xffe \/ b = 0xfff \/ b = 0x1000 \/ b = 0x1001) by lia.
    destruct_or?; subst; vm_compute; done.
  - exists s'. exact Hr.
Defined.


(** The memory of [ex2_view] and a device behind it that copies what is written to
    it to host address [0x90000], with or without a report. *)
Definition ex3_store : store :=
  <[4%positive := {| region_type := IO; priority := 0; r_size := 0x1000; r_offset := 0x2000;
     mem_mapping := None; has_ops := true; io_evtfds := []; space := None; subregions := []; rom_dev_romd := false;
     max_access_size := Some 2; alias := None; alias_offset := 0 |}]> ex2_store.
Definition ex3_view : list FlatRange := ex2_view ++ [mkFlat (mkRange 0x2000 0x1000) 4%positive 0 None].
Definition ex3_write (report : bool) (_ : rid) (buf : list Z) (_ offset : Z) (m : Mach unit) : Mach unit * option bool :=
  (mkMach (mem_write (hmem m) (0x90000 + offset) buf)
     (if report then dirty m ++ [(0x90000 + offset, Z.of_nat (length buf))] else dirty m) tt, Some true).


(** C32: [get_address_map] succeeds on every range that is backed by host
    memory throughout, and the I/O vectors it returns denote, byte for byte
    and in order, the host addresses of the guest range. *)
Theorem get_address_map_exact st fv addr count :
  view_ok st fv -> 0 <= addr -> 0 < count < 2 ^ 64 ->
  (forall a, addr <= a < addr + count -> is_Some (hva_at st fv a)) ->
  exists iovs, get_address_map st fv addr count = Ok iovs /\
    iovs ≫= iov_addrs = hva_addrs st fv addr (Z.to_nat count).
Proof.
  intros Hv ? ? Hm. pose proof (ahead_length fv addr).
  destruct (get_address_map_loop_spec st fv Hv (S (length fv)) addr count []) as (l & Hl & ?);
    try (done || lia).
  by exists l.
Qed.

Lemma get_address_map_witness :
  exists iovs, get_address_map ex2_store ex2_view 0xffe 4 = Ok iovs /\
    iovs ≫= iov_addrs = [0x50ffe; 0x50fff; 0x10000; 0x10001].
Proof.
  destruct (get_address_map_exact ex2_store ex2_view 0xffe 4) as (l & Hl & Ha);
    [exact ex2_view_ok|lia|lia| |exists l; split; [exact Hl|rewrite Ha; vm_compute; done]].
  intros a Ha. assert (a = 0xffe \/ a = 0xfff \/ a = 0x1000 \/ a = 0x1001) by lia.
  destruct_or?; subst; vm_compute; by eexists.
Defined.

Lemma region_cache_lookup st fv a0 a c :
  view_ok st fv -> 0 <= a0 -> is_u64 a ->
  get_region_cache st fv a0 = Some c -> is_host_backed (reg_type c) = true ->
  is_Some (hva_at st fv a0) ->
  get_host_address_from_cache st fv a (Some c) = addr_cache_init st fv a.
Proof.
  intros Hv Ha0 Ha Hc Ht [h0 Hh0]. unfold get_host_address_from_cache.
  destruct (translated_range st fv Hv is_host_backed a0 h0)
    as (fr & r & mm & Hf & Hin & Hr & _ & Hmm & Hcov & Hall); [done..|].
  unfold get_region_cache in Hc. rewrite Hf in Hc. simpl in Hc. rewrite Hr in Hc. simpl in Hc.
  injection Hc as <-. simpl in *. pose proof Hv as (Hok & Hfit & Hmap).
  pose proof Hin as [i Hi]%list_elem_of_lookup. destruct (Hfit fr Hin) as (r' & Hr' & ? & ?).
  destruct (flat_ok_lookup _ _ _ _ Hok Hi) as (? & ? & ?). simplify_eq.
  destruct (Hmap _ _ Hr mm Hmm) as [? ?]. rewrite end_addr_small by lia.
  set (fb := ar_base (addr_range fr)) in *. set (fs := ar_size (addr_range fr)) in *.
  destruct (Z.leb_spec fb a), (Z.ltb_spec a (fb + fs)); simpl; try done.
  assert (find_flatrange fv a = Some fr) as Hfa.
  { apply find_flatrange_covers; [done|lia|done|]. apply covers_spec. fold fb fs. lia. }
  assert (find_flatrange fv fb = Some fr) as Hfb.
  { apply find_flatrange_covers; [done|lia|done|]. apply covers_spec. fold fb fs. lia. }
  unfold as_get_host_address, addr_cache_init, get_host_address, offset_from.
  rewrite Hfa, Hfb. simpl. rewrite Hr. simpl. rewrite Ht, Hmm. simpl. fold fb fs.
  rewrite (wsub_small 64 fb fb), Z.sub_diag by (unfold inW; lia).
  rewrite (wadd_small 64 (host_addr mm)), (wadd_small 64 _ 0), wsub_wadd_small by (unfold inW in *; lia).
  wsimpl. f_equal. f_equal; lia.
Qed.

(** A range found in memory is contiguous in the host. *)
Lemma address_in_memory_host st fv a n :
  view_ok st fv -> (forall o r, st !! o = Some r -> region_type r = Ram -> is_Some (mem_mapping r)) ->
  0 <= a -> 0 < n -> address_in_memory st fv a n = true ->
  a + n < 2 ^ 64 /\ exists h avail, addr_cache_init st fv a = Some (h, avail) /\ n <= avail /\
    0 <= h /\ h + n <= 2 ^ 64 /\
    forall k, 0 <= k < n -> host_at st fv (a + k) = Some (h + k).
Proof.
  intros Hv Hram Ha Hn. unfold address_in_memory, addr_cache_init. pose proof Hv as (Hok & Hfit & Hmap).
  pose proof (find_flatrange_spec fv a Hok Ha) as Hf.
  destruct (find_flatrange fv a) as [fr|] eqn:Hfind; [|done]. destruct Hf as [Hin Hc%covers_spec].
  destruct (st !! owner fr) as [r|] eqn:Hr; [|done]. rewrite andb_true_iff, bool_decide_eq_true.
  intros [Ht Hle%Z.leb_le]. destruct (Hram _ _ Hr Ht) as [mm Hmm]. destruct (Hmap _ _ Hr mm Hmm).
  pose proof Hin as [i Hi]%list_elem_of_lookup. destruct (flat_ok_lookup _ _ _ _ Hok Hi) as (? & ? & ?).
  destruct (Hfit fr Hin) as (r' & Hr' & ? & ?). simplify_eq.
  rewrite end_addr_small in Hle by lia. unfold offset_from, get_host_address in *.
  set (fb := ar_base (addr_range fr)) in *. set (fs := ar_size (addr_range fr)) in *.
  rewrite wsub_small in Hle by (unfold inW; lia). split; [lia|].
  cbn. rewrite Hr. cbn. rewrite Ht, Hmm. cbn. rewrite (wsub_small 64 a) by (unfold inW; lia). wsimpl.
  eexists _, _. split; [done|]. split_and!; try lia. intros k Hk. unfold host_at, translate_at.
  rewrite (flat_lookup_at 0 fv i fr) by (done || apply covers_spec; lia). cbn. rewrite Hr. cbn.
  rewrite Ht, Hmm. cbn. f_equal. fold fb. lia.
Qed.

(** for a region with a host mapping, translating through the region
    cache gives what the full lookup gives, at every address. *)
Theorem region_cache_transparent st fv a0 a c :
  view_ok st fv -> 0 <= a0 -> is_u64 a ->
  get_region_cache st fv a0 = Some c -> is_host_backed (reg_type c) = true ->
  is_Some (hva_at st fv a0) ->
  get_host_address_from_cache st fv a (Some c) = addr_cache_init st fv a.
Proof. apply region_cache_lookup. Qed.

Lemma region_cache_witness :
  get_host_address_from_cache ex2_store ex2_view 0x1234
    (Some (mkCache Ram 0x10000 0x1000 0x2000)) = addr_cache_init ex2_store ex2_view 0x1234.
Proof.
  apply (region_cache_transparent ex2_store ex2_view 0x1000);
    [exact ex2_view_ok|lia|vm_compute; done|vm_compute; done|done|vm_compute; by eexists].
Defined.
