(* ===== verification/Topology.v ===== *)
(** * Topology updates ([address_space/src/address_space.rs], [region.rs])

    Adding and deleting sub-regions, switching a rom device's mode, and the
    two passes that bring the listeners of an address space from the old flat
    view to the new one.  The listener objects are behind the [Listener]
    interface, as the [Listener] trait is in the source.

    [with_context] only adds a message to an error: an [Err] of the model is
    the error at the root of the chain.  A [Weak] pointer to an address space
    is its identifier: address spaces live as long as the machine. *)
From stdpp Require Import prelude list sorting gmap.
From Stdlib Require Import ZArith Lia.
From S2P Require Import Prelude Address Region FlatView.

Inductive ListenerReqType := AddRegion | DeleteRegion | AddIoeventfd | DeleteIoeventfd.

Definition lid := positive.

(** What an address space relies on from its listeners; [L] is the state of
    all listener objects.  A [FlatRange] holds its owner by handle, so a
    listener reads the owner's cells through the store. *)
Class Listener (L : Type) := {
  l_priority : L -> lid -> Z;
  l_enabled : L -> lid -> bool;
  l_enable : L -> lid -> L;
  l_disable : L -> lid -> L;
  handle_request : store -> L -> lid -> option FlatRange -> option RegionIoEventFd ->
                   ListenerReqType -> L * res AddressSpaceError unit
}.

Record AddressSpace := mkSpace {
  root : rid;
  flat_view : list FlatRange;
  listeners : list lid;
  ioeventfds : list RegionIoEventFd
}.

(** All region cells, all address spaces, all listeners. *)
Record World (L : Type) := mkWorld {
  regions : store;
  spaces : gmap sid AddressSpace;
  lstate : L
}.
Arguments mkWorld {L}.
Arguments regions {L}.
Arguments spaces {L}.
Arguments lstate {L}.

(** [PartialEq for FlatRange] *)
Definition fr_key (f : FlatRange) : AddressRange * rid * Z * bool :=
  (addr_range f, owner f, offset_in_region f, default false (fr_romd f)).
Definition fr_eqb (f g : FlatRange) : bool := bool_decide (fr_key f = fr_key g).

Section topology.
Context {L : Type} `{!Listener L}.

Abbreviation M := (sres (World L) AddressSpaceError).

Definition set_region (x : rid) (r : Region) : M unit :=
  fun w => (mkWorld (<[x := r]> (regions w)) (spaces w) (lstate w), Ok tt).
Definition set_space (x : sid) (a : AddressSpace) : M unit :=
  fun w => (mkWorld (regions w) (<[x := a]> (spaces w)) (lstate w), Ok tt).
Definition get_region (x : rid) : M Region := fun w => (w, unwrap (regions w !! x)).
Definition get_space (x : sid) : M AddressSpace := fun w => (w, unwrap (spaces w !! x)).

(** One [handle_request] call. *)
Definition request (l : lid) (fr : option FlatRange) (ev : option RegionIoEventFd)
    (t : ListenerReqType) : M unit :=
  fun w => let '(ls, out) := handle_request (regions w) (lstate w) l fr ev t in
           (mkWorld (regions w) (spaces w) ls, out).

(** [try_for_each] *)
Fixpoint try_for_each {A} (f : A -> M unit) (l : list A) : M unit :=
  match l with
  | [] => mret tt
  | x :: l => _ ← f x; try_for_each f l
  end.

Definition call_listeners (ls : list lid) (fr : option FlatRange) (ev : option RegionIoEventFd)
    (t : ListenerReqType) : M unit :=
  match t with
  | DeleteRegion | AddIoeventfd => try_for_each (fun l => request l fr ev t) (reverse ls)
  | _ => try_for_each (fun l => request l fr ev t) ls
  end.

(** [update_topology_pass]: the arguments are the two views from [old_idx]
    and [new_idx] on; each turn advances at least one index. *)
Fixpoint update_topology_pass (fuel : nat) (ls : list lid) (old new : list FlatRange)
    (is_add : bool) : M unit :=
  match old, new with
  | [], [] => mret tt
  | _, _ =>
    match fuel with
    | O => slift Panic
    | S fuel =>
      match old, new with
      | o :: old', n :: new' =>
        if (ar_base (addr_range o) <? ar_base (addr_range n)) ||
           ((ar_base (addr_range o) =? ar_base (addr_range n)) && negb (fr_eqb o n)) then
          _ ← (if is_add then mret tt else call_listeners ls (Some o) None DeleteRegion);
          update_topology_pass fuel ls old' new is_add
        else if fr_eqb o n then update_topology_pass fuel ls old' new' is_add
        else
          _ ← (if is_add then call_listeners ls (Some n) None AddRegion else mret tt);
          update_topology_pass fuel ls old new' is_add
      | o :: old', [] =>
        _ ← (if is_add then mret tt else call_listeners ls (Some o) None DeleteRegion);
        update_topology_pass fuel ls old' new is_add
      | [], n :: new' =>
        _ ← (if is_add then call_listeners ls (Some n) None AddRegion else mret tt);
        update_topology_pass fuel ls old new' is_add
      | [], [] => mret tt
      end
    end
  end.

(** [update_ioeventfds_pass], likewise.  A turn can advance both lists, one,
    or none: [after] compares addresses only. *)
Fixpoint update_ioeventfds_pass (fuel : nat) (ls : list lid)
    (old new : list RegionIoEventFd) : M unit :=
  match old, new with
  | [], [] => mret tt
  | _, _ =>
    match fuel with
    | O => slift Panic
    | S fuel =>
      match old, new with
      | o :: old', n :: new' =>
        if bool_decide (o = n) then update_ioeventfds_pass fuel ls old' new'
        else
          let del := negb (after o n) in
          let add := negb (after n o) in
          _ ← (if del then call_listeners ls None (Some o) DeleteIoeventfd else mret tt);
          _ ← (if add then call_listeners ls None (Some n) AddIoeventfd else mret tt);
          update_ioeventfds_pass fuel ls (if del then old' else old) (if add then new' else new)
      | o :: old', [] =>
        _ ← call_listeners ls None (Some o) DeleteIoeventfd;
        update_ioeventfds_pass fuel ls old' new
      | [], n :: new' =>
        _ ← call_listeners ls None (Some n) AddIoeventfd;
        update_ioeventfds_pass fuel ls old new'
      | [], [] => mret tt
      end
    end
  end.

(** The event fds visible in a flat view, at their absolute addresses. *)
Definition view_ioeventfds (st : store) (fv : list FlatRange) : list RegionIoEventFd :=
  fv ≫= fun fr =>
    let region_base := unchecked_sub (ar_base (addr_range fr)) (offset_in_region fr) in
    match st !! owner fr with
    | None => []
    | Some r => io_evtfds r ≫= fun e =>
        let ar := mkRange (unchecked_add (ar_base (evt_range e)) region_base)
                          (ar_size (evt_range e)) in
        match find_intersection (addr_range fr) ar with
        | Some _ => [mkEvtFd (fd e) ar (data_match e) (evt_data e)]
        | None => []
        end
    end.

Definition update_ioeventfds (s : sid) : M unit :=
  a ← get_space s;
  w ← sget;
  let evs := view_ioeventfds (regions w) (flat_view a) in
  _ ← update_ioeventfds_pass (length (ioeventfds a) + length evs) (listeners a) (ioeventfds a) evs;
  set_space s (mkSpace (root a) (flat_view a) (listeners a) evs).

(** [fuel] is the depth of the region graph, as in [Region.v]. *)
Definition update_topology (fuel : nat) (s : sid) : M unit :=
  a ← get_space s;
  r ← get_region (root a);
  w ← sget;
  new_fv ← slift (generate_flatview (regions w) fuel (root a) 0 (mkRange 0 (r_size r)));
  let n := (length (flat_view a) + length new_fv)%nat in
  _ ← update_topology_pass n (listeners a) (flat_view a) new_fv false;
  _ ← update_topology_pass n (listeners a) (flat_view a) new_fv true;
  _ ← set_space s (mkSpace (root a) new_fv (listeners a) (ioeventfds a));
  update_ioeventfds s.

(** ** Region operations *)

Definition with_subregions (r : Region) (subs : list rid) : Region :=
  {| region_type := region_type r; priority := priority r; r_size := r_size r;
     r_offset := r_offset r; mem_mapping := mem_mapping r; has_ops := has_ops r;
     io_evtfds := io_evtfds r; space := space r; subregions := subs;
     rom_dev_romd := rom_dev_romd r; max_access_size := max_access_size r;
     alias := alias r; alias_offset := alias_offset r |}.
Definition with_place (r : Region) (off : Z) (sp : option sid) : Region :=
  {| region_type := region_type r; priority := priority r; r_size := r_size r;
     r_offset := off; mem_mapping := mem_mapping r; has_ops := has_ops r;
     io_evtfds := io_evtfds r; space := sp; subregions := subregions r;
     rom_dev_romd := rom_dev_romd r; max_access_size := max_access_size r;
     alias := alias r; alias_offset := alias_offset r |}.
Definition with_romd (r : Region) (b : bool) : Region :=
  {| region_type := region_type r; priority := priority r; r_size := r_size r;
     r_offset := r_offset r; mem_mapping := mem_mapping r; has_ops := has_ops r;
     io_evtfds := io_evtfds r; space := space r; subregions := subregions r;
     rom_dev_romd := b; max_access_size := max_access_size r;
     alias := alias r; alias_offset := alias_offset r |}.

Definition set_priority (self : rid) (prior : Z) : M unit :=
  r ← get_region self;
  set_region self
    {| region_type := region_type r; priority := prior; r_size := r_size r;
       r_offset := r_offset r; mem_mapping := mem_mapping r; has_ops := has_ops r;
       io_evtfds := io_evtfds r; space := space r; subregions := subregions r;
       rom_dev_romd := rom_dev_romd r; max_access_size := max_access_size r;
       alias := alias r; alias_offset := alias_offset r |}.
Definition set_ioeventfds (self : rid) (new_fds : list RegionIoEventFd) : M unit :=
  r ← get_region self;
  set_region self
    {| region_type := region_type r; priority := priority r; r_size := r_size r;
       r_offset := r_offset r; mem_mapping := mem_mapping r; has_ops := has_ops r;
       io_evtfds := new_fds; space := space r; subregions := subregions r;
       rom_dev_romd := rom_dev_romd r; max_access_size := max_access_size r;
       alias := alias r; alias_offset := alias_offset r |}.

(** The position of a child: before the first sibling of lower or equal
    priority. *)
Fixpoint insert_by_priority (st : store) (p : Z) (child : rid) (subs : list rid)
  : res AddressSpaceError (list rid) :=
  match subs with
  | [] => Ok [child]
  | s :: subs =>
    r ← unwrap (st !! s);
    if priority r <=? p then Ok (child :: s :: subs)
    else l ← insert_by_priority st p child subs; Ok (s :: l)
  end.

Definition add_subregion_not_update (self child : rid) (offset : Z) : M unit :=
  p ← get_region self;
  match region_type p with
  | Container =>
    c ← get_region child;
    _ ← slift (check_valid_offset p offset (r_size c));
    let c' := with_place c offset (match space p with Some s => Some s | None => space c end) in
    _ ← set_region child c';
    p ← get_region self;
    w ← sget;
    subs ← slift (insert_by_priority (regions w) (priority c') child (subregions p));
    set_region self (with_subregions p subs)
  | t => sfail (ERegionType t)
  end.

(** [if let Some(space) = self.space { space.update_topology()? }] *)
Definition update_belonged (fuel : nat) (r : Region) : M unit :=
  match space r with Some s => update_topology fuel s | None => mret tt end.

Definition add_subregion (fuel : nat) (self child : rid) (offset : Z) : M unit :=
  _ ← add_subregion_not_update self child offset;
  p ← get_region self;
  update_belonged fuel p.

(** [sub_regions.remove(index)] of the first equal region. *)
Fixpoint remove_first (child : rid) (subs : list rid) : option (list rid) :=
  match subs with
  | [] => None
  | s :: subs => if decide (s = child) then Some subs
                 else l ← remove_first child subs; Some (s :: l)
  end.

Definition delete_subregion (fuel : nat) (self child : rid) : M unit :=
  p ← get_region self;
  match region_type p with
  | Container =>
    c ← get_region child;
    match remove_first child (subregions p) with
    | None => sfail (ERegionNotFound (r_offset c))
    | Some subs =>
      _ ← set_region self (with_subregions p subs);
      _ ← update_belonged fuel p;
      c ← get_region child;
      set_region child (with_place c (r_offset c) None)
    end
  | t => sfail (ERegionType t)
  end.

Definition set_rom_device_romd (fuel : nat) (self : rid) (read_only : bool) : M unit :=
  r ← get_region self;
  match region_type r with
  | RomDevice =>
    if Bool.eqb (rom_dev_romd r) read_only then mret tt
    else
      _ ← set_region self (with_romd r read_only);
      update_belonged fuel r
  | t => sfail (ERegionType t)
  end.

(** ** Listeners *)

Definition l_update (f : L -> L) : M unit :=
  fun w => (mkWorld (regions w) (spaces w) (f (lstate w)), Ok tt).

(** Before the first listener whose priority is not lower. *)
Fixpoint insert_listener (ls : L) (p : Z) (l : lid) (mls : list lid) : list lid :=
  match mls with
  | [] => [l]
  | m :: mls => if p <=? l_priority ls m then l :: m :: mls else m :: insert_listener ls p l mls
  end.

Definition register_listener (s : sid) (l : lid) : M unit :=
  a ← get_space s;
  _ ← try_for_each (fun fr => request l (Some fr) None AddRegion) (flat_view a);
  _ ← l_update (fun ls => l_enable ls l);
  w ← sget;
  set_space s (mkSpace (root a) (flat_view a)
    (insert_listener (lstate w) (l_priority (lstate w) l) l (listeners a)) (ioeventfds a)).

(** Removes the first listener that is not enabled. *)
Fixpoint remove_disabled (ls : L) (mls : list lid) : list lid :=
  match mls with
  | [] => []
  | m :: mls => if l_enabled ls m then m :: remove_disabled ls mls else mls
  end.

Definition unregister_listener (s : sid) (l : lid) : M unit :=
  a ← get_space s;
  _ ← try_for_each (fun fr => request l (Some fr) None DeleteRegion) (flat_view a);
  _ ← l_update (fun ls => l_disable ls l);
  w ← sget;
  set_space s (mkSpace (root a) (flat_view a) (remove_disabled (lstate w) (listeners a))
    (ioeventfds a)).

(** [AddressSpace::new] for a fresh identifier [s]. *)
Definition new_space (fuel : nat) (s : sid) (r : rid) : M unit :=
  _ ← set_space s (mkSpace r [] [] []);
  c ← get_region r;
  _ ← set_region r (with_place c (r_offset c) (Some s));
  match subregions c with
  | [] => mret tt
  | _ => update_topology fuel s
  end.
End topology.

(** * Theorems *)

(** ** The two passes *)

(** Bases strictly increasing, the part of [flat_ok] the passes rely on. *)
Definition by_base (fv : list FlatRange) : Prop :=
  StronglySorted (fun f g => ar_base (addr_range f) < ar_base (addr_range g)) fv.

Lemma flat_ok_by_base lo fv :
  flat_ok lo fv -> by_base fv /\ Forall (fun f => lo <= ar_base (addr_range f)) fv.
Proof.
  revert lo. induction fv as [|f fv IH]; intros lo; simpl; [repeat constructor|].
  intros (? & ? & ? & [Hs Hf]%IH). split; constructor; try done.
  - eapply Forall_impl; [apply Hf|]. simpl. lia.
  - eapply Forall_impl; [apply Hf|]. simpl. lia.
Qed.

(** What a pass should report: the ranges of [l] that are not in [m]. *)
Definition missing_in (m l : list FlatRange) : list FlatRange :=
  filter (fun f => fr_key f ∉ fr_key <$> m) l.

Lemma fr_eqb_true f g : fr_eqb f g = true <-> fr_key f = fr_key g.
Proof. unfold fr_eqb. by rewrite bool_decide_eq_true. Qed.
Lemma fr_key_base f g : fr_key f = fr_key g -> ar_base (addr_range f) = ar_base (addr_range g).
Proof. unfold fr_key. congruence. Qed.

Lemma key_not_in_later f m :
  Forall (fun g => ar_base (addr_range f) < ar_base (addr_range g)) m ->
  fr_key f ∉ fr_key <$> m.
Proof.
  intros Hm (g & Hk & Hg)%list_elem_of_fmap. rewrite Forall_forall in Hm.
  apply Hm in Hg. apply fr_key_base in Hk. lia.
Qed.

Lemma missing_in_cons_new f m l :
  fr_key f ∉ fr_key <$> m -> missing_in m (f :: l) = f :: missing_in m l.
Proof. intros Hf. unfold missing_in. by rewrite filter_cons_True. Qed.
Lemma missing_in_cons_old f g m l :
  fr_key f = fr_key g -> missing_in (g :: m) (f :: l) = missing_in (g :: m) l.
Proof.
  intros Hf. unfold missing_in. rewrite filter_cons_False; [done|].
  rewrite fmap_cons, elem_of_cons. intros Hn. apply Hn. by left.
Qed.
Lemma missing_in_drop_head g m l :
  fr_key g ∉ fr_key <$> l -> missing_in (g :: m) l = missing_in m l.
Proof.
  intros Hl. unfold missing_in. induction l as [|f l IH]; [done|].
  rewrite fmap_cons, not_elem_of_cons in Hl. destruct Hl as [Hf Hl].
  rewrite !filter_cons, (IH Hl), fmap_cons.
  do 2 case_decide; try done; exfalso; rewrite elem_of_cons in *; intuition congruence.
Qed.
Lemma missing_in_nil l : missing_in [] l = l.
Proof.
  unfold missing_in. induction l as [|f l IH]; [done|].
  rewrite filter_cons_True by apply not_elem_of_nil. by rewrite IH.
Qed.

Section passes.
Context {L : Type} `{!Listener L}.
Implicit Types (w : World L) (ls : list lid).

Definition pass_reports (is_add : bool) (old new : list FlatRange) : list FlatRange :=
  if is_add then missing_in old new else missing_in new old.

(** How the reports of a pass unfold, one turn of the loop at a time. *)
Lemma pass_reports_old is_add o old new :
  fr_key o ∉ fr_key <$> new ->
  pass_reports is_add (o :: old) new =
    if is_add then pass_reports is_add old new else o :: pass_reports is_add old new.
Proof.
  intros Ho. destruct is_add; simpl; [by apply missing_in_drop_head|by apply missing_in_cons_new].
Qed.
Lemma pass_reports_new is_add n old new :
  fr_key n ∉ fr_key <$> old ->
  pass_reports is_add old (n :: new) =
    if is_add then n :: pass_reports is_add old new else pass_reports is_add old new.
Proof.
  intros Hn. destruct is_add; simpl; [by apply missing_in_cons_new|by apply missing_in_drop_head].
Qed.
Lemma pass_reports_same is_add o n old new :
  fr_key o = fr_key n -> fr_key o ∉ fr_key <$> old -> fr_key n ∉ fr_key <$> new ->
  pass_reports is_add (o :: old) (n :: new) = pass_reports is_add old new.
Proof.
  intros Hk Ho Hn. destruct is_add; simpl.
  - rewrite missing_in_cons_old by done. apply missing_in_drop_head. congruence.
  - rewrite missing_in_cons_old by done. apply missing_in_drop_head. congruence.
Qed.

Lemma update_topology_pass_reports ls is_add fuel : forall old new w,
  (length old + length new <= fuel)%nat -> by_base old -> by_base new ->
  update_topology_pass fuel ls old new is_add w =
  try_for_each (fun f => call_listeners ls (Some f) None
                  (if is_add then AddRegion else DeleteRegion))
    (pass_reports is_add old new) w.
Proof.
  induction fuel as [|fuel IH]; intros old new w Hlen Ho Hn.
  { destruct old, new; simpl in Hlen; try lia. by destruct is_add. }
  destruct old as [|o old], new as [|n new]; simpl in Hlen.
  - by destruct is_add.
  - apply StronglySorted_inv in Hn as [Hn Hlt]. cbn [update_topology_pass].
    rewrite pass_reports_new by apply not_elem_of_nil.
    destruct is_add; [apply sres_bind_ext|rewrite sret_bind]; intros; apply IH; done || simpl; lia.
  - apply StronglySorted_inv in Ho as [Ho Hlt]. cbn [update_topology_pass].
    rewrite pass_reports_old by apply not_elem_of_nil.
    destruct is_add; [rewrite sret_bind|apply sres_bind_ext]; intros; apply IH; done || simpl; lia.
  - pose proof Ho as [Ho' Hlto]%StronglySorted_inv. pose proof Hn as [Hn' Hltn]%StronglySorted_inv.
    apply key_not_in_later in Hlto as Hko. apply key_not_in_later in Hltn as Hkn.
    cbn [update_topology_pass].
    destruct (Z.ltb_spec (ar_base (addr_range o)) (ar_base (addr_range n))).
    { assert (fr_key o ∉ fr_key <$> (n :: new)) as Hnew.
      { apply key_not_in_later. constructor; [done|]. eapply Forall_impl; [apply Hltn|]. simpl. lia. }
      rewrite pass_reports_old by done. cbn [orb].
      destruct is_add; [rewrite sret_bind|apply sres_bind_ext]; intros; apply IH; done || simpl; lia. }
    cbn [orb]. destruct (fr_eqb o n) eqn:Heq.
    { apply fr_eqb_true in Heq as Hk. rewrite andb_false_r.
      rewrite pass_reports_same by done. apply IH; done || lia. }
    assert (fr_key o <> fr_key n) as Hne by (by rewrite <-fr_eqb_true, Heq).
    rewrite andb_true_r. destruct (Z.eqb_spec (ar_base (addr_range o)) (ar_base (addr_range n))).
    { rewrite pass_reports_old
        by (rewrite fmap_cons, not_elem_of_cons; split; [done|]; apply key_not_in_later;
            eapply Forall_impl; [apply Hltn|]; simpl; lia).
      destruct is_add; [rewrite sret_bind|apply sres_bind_ext]; intros; apply IH; done || simpl; lia. }
    rewrite pass_reports_new.
    + destruct is_add; [apply sres_bind_ext|rewrite sret_bind]; intros; apply IH; done || simpl; lia.
    + apply key_not_in_later. constructor; [lia|]. eapply Forall_impl; [apply Hlto|]. simpl. lia.
Qed.

Lemma by_base_NoDup fv : by_base fv -> NoDup (fr_key <$> fv).
Proof.
  induction 1 as [|f fv Hs IH Hlt]; simpl; constructor; [by apply key_not_in_later|done].
Qed.

(** Keeping the old ranges that are still there and adding the missing ones
    gives the new view. *)
Lemma survivors_and_missing old new :
  by_base old -> by_base new ->
  fr_key <$> (filter (fun f => fr_key f ∈ fr_key <$> new) old ++ missing_in old new)
    ≡ₚ fr_key <$> new.
Proof.
  intros Ho Hn. apply NoDup_Permutation; [|by apply by_base_NoDup|].
  - rewrite fmap_app. apply NoDup_app. split_and!.
    + eapply sublist_NoDup; [by apply (by_base_NoDup old)|]. apply fmap_sublist, sublist_filter.
    + intros k (f & -> & [_ Hf]%list_elem_of_filter)%list_elem_of_fmap
        (g & Hk & [Hg _]%list_elem_of_filter)%list_elem_of_fmap.
      apply Hg. rewrite <-Hk. by apply list_elem_of_fmap_2.
    + eapply sublist_NoDup; [by apply (by_base_NoDup new)|]. apply fmap_sublist, sublist_filter.
  - intros k. rewrite fmap_app, elem_of_app, !list_elem_of_fmap. split.
    + intros [(f & -> & [Hf _]%list_elem_of_filter)|(f & -> & [_ Hf]%list_elem_of_filter)].
      * by apply list_elem_of_fmap in Hf.
      * by exists f.
    + intros (f & -> & Hf). destruct (decide (fr_key f ∈ fr_key <$> old)) as [Hin|Hout].
      * left. apply list_elem_of_fmap in Hin as (g & Hk & Hg). exists g. split; [done|].
        apply list_elem_of_filter. rewrite <-Hk. split; [by apply list_elem_of_fmap_2|done].
      * right. exists f. split; [done|]. by apply list_elem_of_filter.
Qed.

(** C6: on two well-formed views, the first pass tells the listeners to
    delete exactly the ranges of the old view that the new one does not have,
    and the second to add exactly the ranges the old view did not have, each
    once and in address order; what survives the first pass together with
    what the second adds is the new view.  Both loops terminate. *)
Theorem topology_passes_exact ls old new w :
  flat_ok 0 old -> flat_ok 0 new ->
  let n := (length old + length new)%nat in
  update_topology_pass n ls old new false w =
    try_for_each (fun f => call_listeners ls (Some f) None DeleteRegion)
      (filter (fun f => fr_key f ∉ fr_key <$> new) old) w /\
  update_topology_pass n ls old new true w =
    try_for_each (fun f => call_listeners ls (Some f) None AddRegion)
      (filter (fun f => fr_key f ∉ fr_key <$> old) new) w /\
  fr_key <$> (filter (fun f => fr_key f ∈ fr_key <$> new) old ++
              filter (fun f => fr_key f ∉ fr_key <$> old) new) ≡ₚ fr_key <$> new.
Proof.
  intros [Ho _]%flat_ok_by_base [Hn _]%flat_ok_by_base n. split_and!.
  - by apply (update_topology_pass_reports ls false).
  - by apply (update_topology_pass_reports ls true).
  - by apply survivors_and_missing.
Qed.
End passes.

(** A listener that records the requests it is given. *)
Definition Log : Type := list (lid * ListenerReqType * option FlatRange * option RegionIoEventFd).
#[export] Instance log_listener : Listener Log := {|
  l_priority := fun _ _ => 0; l_enabled := fun _ _ => true;
  l_enable := fun L _ => L; l_disable := fun L _ => L;
  handle_request := fun _ L l fr ev t => (L ++ [(l, t, fr, ev)], Ok tt) |}.

Definition empty_world : World Log := mkWorld ∅ ∅ [].

Example topology_passes_witness :
  let a := mkFlat (mkRange 0 0x1000) 1%positive 0 None in
  let b := mkFlat (mkRange 0x1000 0x1000) 2%positive 0 None in
  let b' := mkFlat (mkRange 0x1000 0x1000) 3%positive 0 None in
  exists w', update_topology_pass 4 [7%positive] [a; b] [a; b'] false empty_world = (w', Ok tt) /\
    lstate w' = [(7%positive, DeleteRegion, Some b, None)].
Proof.
  intros a b b'.
  destruct (topology_passes_exact (L := Log) [7%positive] [a; b] [a; b'] empty_world) as (H & _);
    [simpl; lia..|].
  exists (mkWorld ∅ ∅ [(7%positive, DeleteRegion, Some b, None)]).
  split; [etrans; [exact H|vm_compute; reflexivity]|reflexivity].
Defined.

(** ** The event-fd pass *)

Definition ev_base (e : RegionIoEventFd) : Z := ar_base (evt_range e).
Definition ev_end (e : RegionIoEventFd) : Z := ar_base (evt_range e) + ar_size (evt_range e).

(** An event fd with a non-empty range that ends within the address space. *)
Definition ev_wf (e : RegionIoEventFd) : Prop :=
  0 <= ev_base e /\ 0 < ar_size (evt_range e) /\ ev_end e < 2 ^ 64.
(** Event fds at increasing, disjoint addresses. *)
Definition evs_sorted (l : list RegionIoEventFd) : Prop :=
  StronglySorted (fun e f => ev_end e <= ev_base f) l.

Lemma after_spec e f : ev_wf f -> after e f = (ev_end f <=? ev_base e).
Proof.
  intros (? & ? & ?). unfold after, ev_end, ev_base in *. by rewrite wadd_small by (unfold inW; lia).
Qed.

(** The requests of the pass, in order. *)
Fixpoint evt_requests (fuel : nat) (old new : list RegionIoEventFd)
  : list (ListenerReqType * RegionIoEventFd) :=
  match fuel with
  | O => []
  | S fuel =>
    match old, new with
    | o :: old', n :: new' =>
      if bool_decide (o = n) then evt_requests fuel old' new'
      else
        let del := negb (after o n) in
        let add := negb (after n o) in
        (if del then [(DeleteIoeventfd, o)] else []) ++
        (if add then [(AddIoeventfd, n)] else []) ++
        evt_requests fuel (if del then old' else old) (if add then new' else new)
    | o :: old', [] => (DeleteIoeventfd, o) :: evt_requests fuel old' []
    | [], n :: new' => (AddIoeventfd, n) :: evt_requests fuel [] new'
    | [], [] => []
    end
  end.
Definition requested (t : ListenerReqType) (l : list (ListenerReqType * RegionIoEventFd))
  : list RegionIoEventFd :=
  l ≫= fun '(t', e) =>
    match t, t' with
    | DeleteIoeventfd, DeleteIoeventfd | AddIoeventfd, AddIoeventfd => [e]
    | _, _ => []
    end.


Lemma requested_cons t t' e l :
  requested t ((t', e) :: l) =
  match t, t' with
  | DeleteIoeventfd, DeleteIoeventfd | AddIoeventfd, AddIoeventfd => e :: requested t l
  | _, _ => requested t l
  end.
Proof. by destruct t, t'. Qed.

Section evt_pass.
Context {L : Type} `{!Listener L}.
Implicit Types (w : World L) (ls : list lid).

Definition evt_call ls (r : ListenerReqType * RegionIoEventFd) : sres (World L) AddressSpaceError unit :=
  call_listeners ls None (Some r.2) r.1.

Lemma after_antisym e f : ev_wf e -> ev_wf f -> after e f = true -> after f e = false.
Proof.
  intros He Hf. rewrite !after_spec by done. unfold ev_wf, ev_end, ev_base in *. zcases; done || lia.
Qed.

(** The pass makes progress at every turn, so it is the sequence of its
    requests. *)
Lemma update_ioeventfds_pass_requests ls fuel : forall old new w,
  (length old + length new <= fuel)%nat -> Forall ev_wf old -> Forall ev_wf new ->
  update_ioeventfds_pass fuel ls old new w =
  try_for_each (evt_call ls) (evt_requests fuel old new) w.
Proof.
  induction fuel as [|fuel IH]; intros old new w Hlen Ho Hn.
  { destruct old, new; simpl in Hlen; try lia. done. }
  destruct old as [|o old], new as [|n new]; simpl in Hlen; [done| | |].
  - inv Hn. cbn. apply sres_bind_ext. intros. apply IH; done || simpl; lia.
  - inv Ho. cbn. apply sres_bind_ext. intros. apply IH; done || simpl; lia.
  - pose proof Hn as [? ?]%Forall_cons. pose proof Ho as [? ?]%Forall_cons.
    cbn [update_ioeventfds_pass evt_requests]. case_bool_decide; [apply IH; done || lia|].
    pose proof (after_antisym o n) as Hanti.
    destruct (after o n), (after n o); cbn [negb app try_for_each]; try (by discriminate Hanti).
    + rewrite sret_bind. apply sres_bind_ext. intros. apply IH; done || simpl; lia.
    + apply sres_bind_ext. intros. rewrite sret_bind. apply IH; done || simpl; lia.
    + apply sres_bind_ext. intros. apply sres_bind_ext. intros. apply IH; done || simpl; lia.
Qed.

Lemma filter_not_in_cons (x : RegionIoEventFd) (m l : list RegionIoEventFd) :
  x ∉ l -> filter (fun e => e ∉ x :: m) l = filter (fun e => e ∉ m) l.
Proof.
  induction l as [|y l IH]; intros Hx; [done|]. rewrite not_elem_of_cons in Hx. destruct Hx as [Hy Hx].
  rewrite !filter_cons, (IH Hx). do 2 case_decide; try done; exfalso; rewrite elem_of_cons in *; intuition congruence.
Qed.

Lemma ev_not_in_after e (l : list RegionIoEventFd) :
  ev_wf e -> Forall (fun f => ev_base e < ev_base f) l -> e ∉ l.
Proof. intros _ Hl He. rewrite Forall_forall in Hl. apply Hl in He. lia. Qed.

(** On sorted lists the requests are the symmetric difference. *)
Lemma evt_requests_exact fuel : forall old new,
  (length old + length new <= fuel)%nat -> Forall ev_wf old -> Forall ev_wf new ->
  evs_sorted old -> evs_sorted new ->
  requested DeleteIoeventfd (evt_requests fuel old new) = filter (fun e => e ∉ new) old /\
  requested AddIoeventfd (evt_requests fuel old new) = filter (fun e => e ∉ old) new.
Proof.
  induction fuel as [|fuel IH]; intros old new Hlen Ho Hn Hso Hsn.
  { destruct old, new; simpl in Hlen; try lia. done. }
  destruct old as [|o old], new as [|n new]; simpl in Hlen; [done| | |].
  - apply Forall_cons in Hn as [_ Hn]. apply StronglySorted_inv in Hsn as [Hsn _].
    destruct (IH [] new) as [IHd IHa]; try (done || simpl; lia).
    cbn [evt_requests]. rewrite !requested_cons, filter_cons_True by set_solver. by rewrite IHa.
  - apply Forall_cons in Ho as [_ Ho]. apply StronglySorted_inv in Hso as [Hso _].
    destruct (IH old []) as [IHd IHa]; try (done || simpl; lia).
    cbn [evt_requests]. rewrite !requested_cons, filter_cons_True by set_solver. by rewrite IHd.
  - pose proof Hn as [Hn1 Hn']%Forall_cons. pose proof Ho as [Ho1 Ho']%Forall_cons.
    pose proof Hso as [Hso' Hlo]%StronglySorted_inv. pose proof Hsn as [Hsn' Hln]%StronglySorted_inv.
    cbn [evt_requests]. pose proof Hn1 as (? & ? & ?). pose proof Ho1 as (? & ? & ?).
    assert (o ∉ old) by (apply ev_not_in_after; [done|]; eapply Forall_impl; [done|];
      unfold ev_end, ev_base in *; simpl; lia).
    assert (n ∉ new) by (apply ev_not_in_after; [done|]; eapply Forall_impl; [done|];
      unfold ev_end, ev_base in *; simpl; lia).
    case_bool_decide as Heq.
    { subst n. destruct (IH old new) as [-> ->]; try (done || lia).
      rewrite !filter_cons_False by (intros Hn3; apply Hn3; left).
      by rewrite !filter_not_in_cons. }
    assert (after o n = false -> o ∉ n :: new) as Ho2.
    { rewrite after_spec by done. intros Hlt%Z.leb_gt. apply not_elem_of_cons. split; [done|].
      apply ev_not_in_after; [done|]. eapply Forall_impl; [done|]. simpl. lia. }
    assert (after n o = false -> n ∉ o :: old) as Hn2.
    { rewrite after_spec by done. intros Hlt%Z.leb_gt. apply not_elem_of_cons. split; [done|].
      apply ev_not_in_after; [done|]. eapply Forall_impl; [done|]. simpl. lia. }
    pose proof (after_antisym o n Ho1 Hn1) as Hanti.
    destruct (after o n), (after n o); cbn [negb app]; try (by discriminate Hanti).
    + specialize (Hn2 eq_refl). destruct (IH (o :: old) new) as [IHd IHa]; try (done || simpl; lia).
      rewrite !requested_cons, IHd, IHa, (filter_cons_True _ n) by done.
      rewrite (filter_not_in_cons n new (o :: old)); done.
    + specialize (Ho2 eq_refl). destruct (IH old (n :: new)) as [IHd IHa]; try (done || simpl; lia).
      rewrite !requested_cons, IHd, IHa, (filter_cons_True _ o) by done.
      rewrite (filter_not_in_cons o old (n :: new)); done.
    + specialize (Hn2 eq_refl). specialize (Ho2 eq_refl).
      destruct (IH old new) as [IHd IHa]; try (done || simpl; lia).
      rewrite !requested_cons, IHd, IHa, !filter_cons_True by done.
      apply not_elem_of_cons in Hn2 as [? ?]. apply not_elem_of_cons in Ho2 as [? ?].
      by rewrite (filter_not_in_cons n new old), (filter_not_in_cons o old new).
Qed.

(** for event fds at increasing disjoint addresses the pass terminates
    and asks the listeners to unregister exactly the old event fds that are
    gone and to register exactly the new ones. *)
Theorem ioeventfds_pass_exact ls old new w :
  Forall ev_wf old -> Forall ev_wf new -> evs_sorted old -> evs_sorted new ->
  let n := (length old + length new)%nat in
  exists requests,
    update_ioeventfds_pass n ls old new w =
      try_for_each (fun r => call_listeners ls None (Some r.2) r.1) requests w /\
    requested DeleteIoeventfd requests = filter (fun e => e ∉ new) old /\
    requested AddIoeventfd requests = filter (fun e => e ∉ old) new.
Proof.
  intros Ho Hn Hso Hsn n. exists (evt_requests n old new). split.
  - by apply update_ioeventfds_pass_requests.
  - by apply evt_requests_exact.
Qed.
End evt_pass.

Definition ex_ev (fd base data : Z) : RegionIoEventFd := mkEvtFd fd (mkRange base 4) true data.

Example ioeventfds_pass_witness :
  exists requests,
    update_ioeventfds_pass 3 [7%positive] [ex_ev 3 0x10 0; ex_ev 4 0x20 0] [ex_ev 4 0x20 0]
      empty_world =
    try_for_each (fun r => call_listeners [7%positive] None (Some r.2) r.1) requests empty_world /\
    requested DeleteIoeventfd requests = [ex_ev 3 0x10 0].
Proof.
  destruct (ioeventfds_pass_exact (L := Log) [7%positive] [ex_ev 3 0x10 0; ex_ev 4 0x20 0]
    [ex_ev 4 0x20 0] empty_world) as (rs & H1 & H2 & _).
  - repeat constructor; vm_compute; done.
  - repeat constructor; vm_compute; done.
  - repeat constructor; vm_compute; done.
  - repeat constructor.
  - exists rs. split; [exact H1|]. rewrite H2. vm_compute. done.
Defined.

(** Two event fds at one address that differ in their data (the queues of a
    virtio-mmio device): dropping the first one makes the pass register the
    second again and then unregister it, although it is in both lists. *)
Example ioeventfds_pass_same_address :
  lstate (update_ioeventfds_pass 3 [7%positive] [ex_ev 3 0x10 0; ex_ev 4 0x10 1] [ex_ev 4 0x10 1]
    empty_world).1 =
  [(7%positive, DeleteIoeventfd, None, Some (ex_ev 3 0x10 0));
   (7%positive, AddIoeventfd, None, Some (ex_ev 4 0x10 1));
   (7%positive, DeleteIoeventfd, None, Some (ex_ev 4 0x10 1))].
Proof. vm_compute. done. Qed.

(** ** Sub-regions *)

Definition prio_of (st : store) (x : rid) : Z := default 0 (priority <$> st !! x).
(** Decreasing priority along the sub-region vector. *)
Definition subs_sorted (st : store) (subs : list rid) : Prop :=
  StronglySorted (fun a b => prio_of st b <= prio_of st a) subs.

Lemma insert_by_priority_spec st p child subs :
  (forall s, s ∈ subs -> is_Some (st !! s)) -> subs_sorted st subs ->
  exists hi lo, subs = hi ++ lo /\
    insert_by_priority st p child subs = Ok (hi ++ child :: lo) /\
    Forall (fun s => p < prio_of st s) hi /\ Forall (fun s => prio_of st s <= p) lo.
Proof.
  induction subs as [|s subs IH]; intros Hin Hs; [by exists [], []|].
  apply StronglySorted_inv in Hs as [Hs Hle].
  destruct (Hin s) as [r Hr]; [left|]. cbn [insert_by_priority]. rewrite Hr. cbn.
  assert (prio_of st s = priority r) as Hp by (unfold prio_of; by rewrite Hr).
  destruct (Z.leb_spec (priority r) p).
  - exists [], (s :: subs). split_and!; try done. constructor; [lia|].
    eapply Forall_impl; [apply Hle|]. simpl. lia.
  - destruct IH as (hi & lo & -> & -> & Hhi & Hlo); [intros; apply Hin; by right|done|].
    exists (s :: hi), lo. split_and!; try done. constructor; [lia|done].
Qed.

Lemma subs_sorted_insert st p child hi lo :
  prio_of st child = p -> subs_sorted st (hi ++ lo) ->
  Forall (fun s => p < prio_of st s) hi -> Forall (fun s => prio_of st s <= p) lo ->
  subs_sorted st (hi ++ child :: lo).
Proof.
  intros Hp Hs Hhi Hlo. induction hi as [|s hi IH]; simpl in *; [by constructor; subst|].
  apply StronglySorted_inv in Hs as [Hs Hle]. apply Forall_cons in Hhi as [? Hhi].
  apply Forall_app in Hle as [? ?]. constructor; [by apply IH|]. apply Forall_app. split; [done|].
  constructor; [lia|done].
Qed.

Lemma subs_sorted_ext st st' subs :
  (forall s, s ∈ subs -> prio_of st s = prio_of st' s) -> subs_sorted st subs -> subs_sorted st' subs.
Proof.
  intros He Hs. induction Hs as [|s subs Hs IH Hle]; constructor.
  - apply IH. intros. apply He. by right.
  - rewrite Forall_forall in *. intros x Hx. rewrite <-!He; [by apply Hle|left|by right].
Qed.

Lemma prio_of_insert_same st x r r' y :
  st !! x = Some r -> priority r' = priority r -> prio_of (<[x := r']> st) y = prio_of st y.
Proof.
  intros Hx Hp. unfold prio_of. destruct (decide (x = y)) as [<-|].
  - rewrite lookup_insert_eq, Hx. simpl. done.
  - by rewrite lookup_insert_ne.
Qed.

Section subregions.
Context {L : Type} `{!Listener L}.
Implicit Types w : World L.

Lemma get_region_step {B} x r (f : Region -> sres (World L) AddressSpaceError B) w :
  regions w !! x = Some r -> (get_region x ≫= f) w = f r w.
Proof. intros Hx. apply sres_step. unfold get_region. by rewrite Hx. Qed.

(** The child's cell after it was placed below [p]. *)
Definition placed (p c : Region) (offset : Z) : Region :=
  with_place c offset (match space p with Some s => Some s | None => space c end).

Lemma add_subregion_fits w self child offset p c :
  regions w !! self = Some p -> regions w !! child = Some c -> self <> child ->
  (forall s, s ∈ subregions p -> is_Some (regions w !! s)) ->
  subs_sorted (regions w) (subregions p) -> region_type p = Container ->
  offset + r_size c < 2 ^ 64 -> offset + r_size c <= r_size p ->
  exists hi lo, subregions p = hi ++ lo /\
    add_subregion_not_update self child offset w =
      (mkWorld (<[self := with_subregions p (hi ++ child :: lo)]>
                 (<[child := placed p c offset]> (regions w))) (spaces w) (lstate w), Ok tt) /\
    Forall (fun s => priority c < prio_of (regions w) s) hi /\
    Forall (fun s => prio_of (regions w) s <= priority c) lo.
Proof.
  intros Hp Hc Hne Hin Hs Ht Hf1 Hf2. unfold add_subregion_not_update.
  rewrite (get_region_step self p), Ht, (get_region_step child c) by done.
  unfold check_valid_offset, checked_add.
  rewrite (proj2 (Z.ltb_lt _ _) Hf1), (proj2 (Z.leb_le _ _) Hf2), slift_Ok_bind.
  fold (placed p c offset). set (st1 := <[child := placed p c offset]> (regions w)).
  assert (forall y, prio_of st1 y = prio_of (regions w) y) as Hst1
    by (intros; by eapply prio_of_insert_same).
  destruct (insert_by_priority_spec st1 (priority c) child (subregions p))
    as (hi & lo & Heq & Hins & Hhi & Hlo).
  { intros s Hx. unfold st1. destruct (decide (child = s)) as [<-|]; [by rewrite lookup_insert_eq|].
    rewrite lookup_insert_ne by done. auto. }
  { by eapply subs_sorted_ext; [|apply Hs]. }
  exists hi, lo. split_and!; [done| | |].
  - rewrite (sres_step _ _ w (mkWorld st1 (spaces w) (lstate w)) tt) by done.
    rewrite (get_region_step self p) by (simpl; unfold st1; by rewrite lookup_insert_ne).
    unfold mbind, sres_bind, sget, slift. simpl. by rewrite Hins.
  - eapply Forall_impl; [apply Hhi|]. simpl. intros. by rewrite <-Hst1.
  - eapply Forall_impl; [apply Hlo|]. simpl. intros. by rewrite <-Hst1.
Qed.

Lemma prio_of_placed w self child offset p c subs y :
  regions w !! self = Some p -> regions w !! child = Some c -> self <> child ->
  prio_of (<[self := with_subregions p subs]> (<[child := placed p c offset]> (regions w))) y =
  prio_of (regions w) y.
Proof.
  intros. rewrite (prio_of_insert_same _ _ p) by (done || by rewrite lookup_insert_ne).
  by apply (prio_of_insert_same _ _ c).
Qed.

(** [add_subregion_not_update] refuses a parent that is no container and
    a child that does not fit, changing nothing; otherwise it places the
    child in front of the first sibling whose priority is not higher (so the
    newest of equal priority comes first and wins when the view is rendered),
    keeps the vector in decreasing priority, and sets the child's offset and
    address space. *)
Theorem add_subregion_placement w self child offset p c :
  regions w !! self = Some p -> regions w !! child = Some c -> self <> child ->
  (forall s, s ∈ subregions p -> is_Some (regions w !! s)) ->
  subs_sorted (regions w) (subregions p) ->
  let out := add_subregion_not_update self child offset w in
  let fit := offset + r_size c < 2 ^ 64 /\ offset + r_size c <= r_size p in
  (region_type p <> Container -> out = (w, Err (ERegionType (region_type p)))) /\
  (region_type p = Container -> ~ fit -> out = (w, Err (EOverflow offset))) /\
  (region_type p = Container -> fit -> exists hi lo,
     let st' := <[self := with_subregions p (hi ++ child :: lo)]>
                  (<[child := placed p c offset]> (regions w)) in
     out = (mkWorld st' (spaces w) (lstate w), Ok tt) /\
     subregions p = hi ++ lo /\
     Forall (fun s => priority c < prio_of st' s) hi /\
     Forall (fun s => prio_of st' s <= priority c) lo /\
     subs_sorted st' (hi ++ child :: lo)).
Proof.
  intros Hp Hc Hne Hin Hs out fit. subst out fit. split_and!.
  - intros Ht. unfold add_subregion_not_update. rewrite (get_region_step self p) by done.
    by destruct (region_type p).
  - intros Ht Hf. unfold add_subregion_not_update.
    rewrite (get_region_step self p), Ht, (get_region_step child c) by done.
    unfold check_valid_offset, checked_add. zcases; try done. exfalso. lia.
  - intros Ht [Hf1 Hf2].
    destruct (add_subregion_fits w self child offset p c) as (hi & lo & Heq & Hout & Hhi & Hlo); try done.
    assert (forall y, prio_of (<[self := with_subregions p (hi ++ child :: lo)]>
      (<[child := placed p c offset]> (regions w))) y = prio_of (regions w) y) as Hpr
      by (intros; by apply prio_of_placed).
    exists hi, lo. split_and!; [done|done| | |].
    + eapply Forall_impl; [apply Hhi|]. simpl. intros. by rewrite Hpr.
    + eapply Forall_impl; [apply Hlo|]. simpl. intros. by rewrite Hpr.
    + eapply (subs_sorted_ext (regions w)); [intros; by rewrite Hpr|].
      eapply subs_sorted_insert with (p := priority c); [|by rewrite <-Heq|done|done].
      unfold prio_of. by rewrite Hc.
Qed.

Lemma remove_first_app child hi lo :
  child ∉ hi -> remove_first child (hi ++ child :: lo) = Some (hi ++ lo).
Proof.
  induction hi as [|s hi IH]; simpl; intros Hc; [by rewrite decide_True|].
  apply not_elem_of_cons in Hc as [? Hc]. rewrite decide_False by done. rewrite (IH Hc). done.
Qed.

(** deleting a sub-region that was just added to a container of no
    address space restores the container; the child keeps only the offset it
    was given. *)
Theorem add_delete_subregion_roundtrip fuel w self child offset p c :
  regions w !! self = Some p -> regions w !! child = Some c -> self <> child ->
  (forall s, s ∈ subregions p -> is_Some (regions w !! s)) ->
  subs_sorted (regions w) (subregions p) -> child ∉ subregions p ->
  region_type p = Container -> space p = None ->
  offset + r_size c < 2 ^ 64 -> offset + r_size c <= r_size p ->
  (_ ← add_subregion fuel self child offset; delete_subregion fuel self child) w =
  (mkWorld (<[child := with_place c offset None]> (regions w)) (spaces w) (lstate w), Ok tt).
Proof.
  intros Hp Hc Hne Hin Hs Hni Ht Hsp Hf1 Hf2.
  destruct (add_subregion_fits w self child offset p c) as (hi & lo & Heq & Hout & _); try done.
  set (st2 := <[self := _]> (<[child := _]> (regions w))) in Hout.
  assert (st2 !! self = Some (with_subregions p (hi ++ child :: lo))) as H2s
    by (unfold st2; by rewrite lookup_insert_eq).
  assert (st2 !! child = Some (placed p c offset)) as H2c
    by (unfold st2; rewrite lookup_insert_ne, lookup_insert_eq by done; done).
  rewrite (sres_step _ _ w (mkWorld st2 (spaces w) (lstate w)) tt).
  2:{ unfold add_subregion. rewrite (sres_step _ _ w (mkWorld st2 (spaces w) (lstate w)) tt) by done.
      rewrite (get_region_step self (with_subregions p (hi ++ child :: lo))) by exact H2s. unfold update_belonged. simpl. by rewrite Hsp. }
  unfold delete_subregion. rewrite (get_region_step self (with_subregions p (hi ++ child :: lo))) by exact H2s. simpl. rewrite Ht.
  rewrite (get_region_step child (placed p c offset)) by exact H2c. rewrite Heq in Hni. apply not_elem_of_app in Hni as [Hni _].
  rewrite (remove_first_app child hi lo) by done.
  set (st3 := <[self := with_subregions (with_subregions p (hi ++ child :: lo)) (hi ++ lo)]> st2).
  rewrite (sres_step _ _ _ (mkWorld st3 (spaces w) (lstate w)) tt) by done.
  unfold update_belonged. simpl. rewrite Hsp, sret_bind.
  rewrite (get_region_step child (placed p c offset)) by (simpl; unfold st3; by rewrite lookup_insert_ne).
  unfold set_region. simpl. do 2 f_equal. unfold st3, st2.
  rewrite <-Heq. replace (with_subregions _ (subregions p)) with p by (by destruct p).
  apply map_eq. intros i. rewrite !lookup_insert. by repeat case_decide; subst.
Qed.
End subregions.

Definition ex_tree : store :=
  <[1%positive := with_subregions (init_container_region 0x10000) [2%positive]]>
  (<[2%positive := with_place (init_io_region 0x100) 0x1000 None]>
  (<[3%positive := init_io_region 0x200]> ∅)).
Definition ex_world : World Log := mkWorld ex_tree ∅ [].

Lemma ex_tree_subs s : s ∈ [2%positive] -> is_Some (ex_tree !! s).
Proof. intros ->%list_elem_of_singleton. vm_compute. by eexists. Qed.
Lemma ex_tree_sorted st s : subs_sorted st [s].
Proof. repeat constructor. Qed.

(** The new child comes first: it has the same priority and is newer. *)
Example add_subregion_placement_witness :
  (fun r => subregions r) <$>
    regions (add_subregion_not_update 1%positive 3%positive 0x1000 ex_world).1 !! 1%positive
  = Some [3%positive; 2%positive].
Proof.
  destruct (add_subregion_placement ex_world 1%positive 3%positive 0x1000
    (with_subregions (init_container_region 0x10000) [2%positive]) (init_io_region 0x200)
    eq_refl eq_refl ltac:(done) ex_tree_subs (ex_tree_sorted _ _)) as (_ & _ & H).
  destruct (H eq_refl ltac:(vm_compute; done)) as (hi & lo & -> & Hsub & Hhi & _).
  simpl. rewrite lookup_insert_eq. simpl. destruct hi as [|h hi]; simpl in *.
  - by subst lo.
  - simplify_eq. apply Forall_cons in Hhi as [Hlt _]. vm_compute in Hlt. done.
Defined.

Example add_delete_subregion_witness :
  (_ ← add_subregion 3 1%positive 3%positive 0x1000; delete_subregion 3 1%positive 3%positive) ex_world =
  (mkWorld (<[3%positive := with_place (init_io_region 0x200) 0x1000 None]> ex_tree) ∅ [], Ok tt).
Proof.
  apply (add_delete_subregion_roundtrip 3 ex_world 1%positive 3%positive 0x1000
    (with_subregions (init_container_region 0x10000) [2%positive]) (init_io_region 0x200)
    eq_refl eq_refl ltac:(done) ex_tree_subs (ex_tree_sorted _ _));
    [by intros ?%list_elem_of_singleton|done|done|vm_compute; done..].
Defined.

(** ** A whole update *)

Section update.
Context {L : Type} `{!Listener L}.

(** No listener refuses a request. *)
Context (Hlisteners : forall st ls l fr ev t, exists ls', handle_request (L := L) st ls l fr ev t = (ls', Ok tt)).

(** Succeeds, and changes only the listeners' state. *)
Definition listeners_only (m : sres (World L) AddressSpaceError unit) : Prop :=
  forall w, exists ls, m w = (mkWorld (regions w) (spaces w) ls, Ok tt).

Lemma listeners_only_ret : listeners_only (mret tt).
Proof. intros []. by eexists. Qed.
Lemma listeners_only_bind m1 m2 :
  listeners_only m1 -> listeners_only m2 -> listeners_only (_ ← m1; m2).
Proof.
  intros H1 H2 w. destruct (H1 w) as [ls1 E1]. destruct (H2 (mkWorld (regions w) (spaces w) ls1)) as [ls2 E2].
  exists ls2. by rewrite (sres_step _ _ _ _ _ E1).
Qed.
Lemma listeners_only_each {A} (f : A -> sres (World L) AddressSpaceError unit) l :
  (forall x, listeners_only (f x)) -> listeners_only (try_for_each f l).
Proof.
  intros Hf. induction l as [|x l IH]; [apply listeners_only_ret|]. by apply listeners_only_bind.
Qed.
Lemma listeners_only_call ls fr ev t : listeners_only (call_listeners ls fr ev t).
Proof.
  assert (forall l, listeners_only (request l fr ev t)) as Hr.
  { intros l w. unfold request. destruct (Hlisteners (regions w) (lstate w) l fr ev t) as [ls' ->]. by eexists. }
  unfold call_listeners. destruct t; by apply listeners_only_each.
Qed.

Lemma topology_pass_total ls old new is_add :
  flat_ok 0 old -> flat_ok 0 new ->
  listeners_only (update_topology_pass (length old + length new) ls old new is_add).
Proof.
  intros [Ho _]%flat_ok_by_base [Hn _]%flat_ok_by_base w. rewrite update_topology_pass_reports by done.
  apply listeners_only_each. intros. apply listeners_only_call.
Qed.
Lemma ioeventfds_pass_total ls old new :
  Forall ev_wf old -> Forall ev_wf new ->
  listeners_only (update_ioeventfds_pass (length old + length new) ls old new).
Proof.
  intros Ho Hn w. rewrite update_ioeventfds_pass_requests by done.
  apply listeners_only_each. intros. apply listeners_only_call.
Qed.

Lemma get_space_step {B} x a (f : AddressSpace -> sres (World L) AddressSpaceError B) w :
  spaces w !! x = Some a -> (get_space x ≫= f) w = f a w.
Proof. intros Hx. apply sres_step. unfold get_space. by rewrite Hx. Qed.

(** updating the topology of an address space whose listeners accept
    their requests succeeds, leaves the regions alone, and installs the flat
    view of the current region tree: at every address the view's binary
    search finds what the tree assigns to it; the event fds recorded are the
    ones visible in that view. *)
Theorem update_topology_installs_view w s a rank r :
  store_wf (regions w) -> ranked (regions w) rank ->
  spaces w !! s = Some a -> flat_ok 0 (flat_view a) -> Forall ev_wf (ioeventfds a) ->
  regions w !! root a = Some r -> region_type r = Container ->
  (forall fv, generate_flatview (regions w) (S (rank (root a))) (root a) 0 (mkRange 0 (r_size r)) = Ok fv ->
     Forall ev_wf (view_ioeventfds (regions w) fv)) ->
  exists ls fv, let evs := view_ioeventfds (regions w) fv in
    update_topology (S (rank (root a))) s w =
      (mkWorld (regions w) (<[s := mkSpace (root a) fv (listeners a) evs]> (spaces w)) ls, Ok tt) /\
    flat_ok 0 fv /\
    forall x, 0 <= x -> (fun fr => fr_place fr x) <$> find_flatrange fv x =
      if covers (mkRange 0 (r_size r)) x
      then resolve (regions w) (S (rank (root a))) (root a) 0 x else None.
Proof.
  intros Hwf Hrank Ha Hfv Hevs Hr Ht Hnew.
  destruct (generate_flatview_spec (regions w) rank (root a) r Hwf Hrank Hr Ht)
    as (fv & Hgen & Hok & _ & Hl).
  unfold update_topology.
  rewrite (get_space_step s a), (get_region_step (root a) r) by done.
  rewrite (sres_step _ _ w w w) by done. rewrite Hgen, slift_Ok_bind.
  destruct (topology_pass_total (listeners a) (flat_view a) fv false Hfv Hok w) as [l1 E1].
  rewrite (sres_step _ _ _ _ _ E1).
  destruct (topology_pass_total (listeners a) (flat_view a) fv true Hfv Hok
    (mkWorld (regions w) (spaces w) l1)) as [l2 E2]. rewrite (sres_step _ _ _ _ _ E2).
  rewrite (sres_step _ _ _ (mkWorld (regions w)
    (<[s := mkSpace (root a) fv (listeners a) (ioeventfds a)]> (spaces w)) l2) tt) by done.
  unfold update_ioeventfds. erewrite get_space_step by (simpl; by rewrite lookup_insert_eq).
  rewrite (sres_step _ _ _ _ _ (eq_refl : sget _ = _)). cbn [regions spaces lstate].
  cbn [root flat_view listeners ioeventfds].
  destruct (ioeventfds_pass_total (listeners a) (ioeventfds a) (view_ioeventfds (regions w) fv) Hevs (Hnew fv Hgen)
    (mkWorld (regions w) (<[s := mkSpace (root a) fv (listeners a) (ioeventfds a)]> (spaces w)) l2))
    as [l3 E3]. rewrite (sres_step _ _ _ _ _ E3).
  exists l3, fv. split_and!; [|done|exact Hl].
  unfold set_space. cbn [regions spaces lstate]. by rewrite insert_insert_eq.
Qed.
End update.

Definition ex_space_world : World Log :=
  mkWorld ex_store (<[1%positive := mkSpace 1%positive [] [7%positive] []]> ∅) [].

Lemma ex_store_no_evts fv : view_ioeventfds ex_store fv = [].
Proof.
  unfold view_ioeventfds. induction fv as [|fr fv IH]; [done|]. rewrite bind_cons, IH, app_nil_r.
  generalize (owner fr) as o. intros o.
  destruct (ex_store !! o) as [r|] eqn:H; [|done]. unfold ex_store in H. by ex_cases H.
Qed.

Example update_topology_witness :
  exists ls fv evs,
    update_topology (S (ex_rank 1%positive)) 1%positive ex_space_world =
      (mkWorld ex_store (<[1%positive := mkSpace 1%positive fv [7%positive] evs]> (spaces ex_space_world)) ls,
       Ok tt) /\
    (fun fr => fr_place fr 0x1010) <$> find_flatrange fv 0x1010 = Some (3%positive, 0x10, None).
Proof.
  destruct (update_topology_installs_view (L := Log) ltac:(intros; by eexists) ex_space_world 1%positive
    (mkSpace 1%positive [] [7%positive] []) ex_rank ex_root ex_store_wf ex_store_ranked
    eq_refl I (List.Forall_nil _) eq_refl eq_refl) as (ls & fv & Hu & _ & Hl).
  - intros fv _. cbn [ex_space_world regions]. rewrite ex_store_no_evts. constructor.
  - exists ls, fv. eexists. split; [exact Hu|]. rewrite Hl by lia. vm_compute. done.
Defined.
