(* ===== verification/KvmListener.v ===== *)
(** * The KVM listeners ([address_space/src/listener.rs], [hypervisor/src/kvm/mod.rs])

    [KvmMemoryListener] keeps a table of memory slots and tells KVM about the
    host-backed ranges of a flat view; [KvmIoListener] registers event fds on
    the port-I/O bus.  The kernel is outside the sources: [KvmKernel] lists
    the ioctls the listeners use, [KvmKernelSpec] what the KVM documentation
    says of [KVM_SET_USER_MEMORY_REGION].  The page size of the host is the
    parameter [page]. *)
From stdpp Require Import prelude list sorting gmap.
From Stdlib Require Import ZArith Lia.
From S2P Require Import Prelude NumOps Address Region FlatView Topology.

Record MemSlot := mkSlot {
  index : Z;
  guest_addr : Z;
  ms_size : Z;
  ms_host_addr : Z
}.
Definition MemSlot_default : MemSlot := mkSlot 0 0 0 0.

Record KvmMemoryListener := mkKml {
  as_id : Z;
  slots : list MemSlot;
  enabled : bool
}.

Definition kml_new (nr_slots : nat) : KvmMemoryListener :=
  mkKml 0 (replicate nr_slots MemSlot_default) false.

(** [kvm_userspace_memory_region] *)
Record MemorySlot := mkMemorySlot {
  slot : Z;
  guest_phys_addr : Z;
  memory_size : Z;
  userspace_addr : Z;
  flags : Z
}.
Definition KVM_MEM_LOG_DIRTY_PAGES : Z := 1.
Definition KVM_MEM_READONLY : Z := 2.

Inductive IoEventAddress := Mmio (addr : Z) | Pio (addr : Z).
(** [NoDatamatch] or a value of 2, 4 or 8 bytes. *)
Inductive Datamatch := NoDatamatch | U16 (v : Z) | U32 (v : Z) | U64 (v : Z).

(** The ioctls; [false] is an error. *)
Class KvmKernel (K : Type) := {
  set_user_memory_region : K -> MemorySlot -> K * bool;
  register_ioevent : K -> Z -> IoEventAddress -> Datamatch -> K * bool;
  unregister_ioevent : K -> Z -> IoEventAddress -> Datamatch -> K * bool
}.

(** Slot [i] of address space [a], as KVM numbers them. *)
Definition slot_key (i a : Z) : Z := Z.lor i (wshl 32 a 16).

(** The listener, the slots recorded in [KVM_FDS], the kernel. *)
Record KvmState (K : Type) := mkKvm {
  kml : KvmMemoryListener;
  mem_slots : gmap Z MemorySlot;
  kernel : K
}.
Arguments mkKvm {K}.
Arguments kml {K}.
Arguments mem_slots {K}.
Arguments kernel {K}.

(** ** The slot table *)

(** The first free slot is filled. *)
Fixpoint fill_slot (i : Z) (l : list MemSlot) (ga size ha : Z) : option (list MemSlot * Z) :=
  match l with
  | [] => None
  | s :: l =>
    if ms_size s =? 0 then Some (mkSlot (wrap 32 i) ga size ha :: l, wrap 32 i)
    else '(l, idx) ← fill_slot (i + 1) l ga size ha; Some (s :: l, idx)
  end.

(** The first slot a new range is found to overlap with. *)
Definition overlapping (range : AddressRange) (l : list MemSlot) : option MemSlot :=
  first_some (fun s => match find_intersection (mkRange (guest_addr s) (ms_size s)) range with
                       | Some _ => Some s | None => None end) l.

Definition get_free_slot (l : list MemSlot) (ga size ha : Z)
  : res AddressSpaceError (list MemSlot * Z) :=
  match overlapping (mkRange ga size) l with
  | Some s => Err (EKvmSlotOverlap (ga, size) (guest_addr s, ms_size s))
  | None =>
    match fill_slot 0 l ga size ha with
    | Some r => Ok r
    | None => Err (ENoAvailKvmSlot (Z.of_nat (length l)))
    end
  end.

Fixpoint delete_slot (l : list MemSlot) (addr size : Z)
  : res AddressSpaceError (list MemSlot * MemSlot) :=
  match l with
  | [] => Err (ENoMatchedKvmSlot addr size)
  | s :: l =>
    if (guest_addr s =? addr) && (ms_size s =? size) then
      let s' := mkSlot (index s) (guest_addr s) 0 (ms_host_addr s) in Ok (s' :: l, s')
    else '(l, d) ← delete_slot l addr size; Ok (s :: l, d)
  end.

(** [with_context] on an [Option]-returning call that may panic. *)
Definition or_err {E A} (r : res unit A) (e : E) : res E A :=
  match r with Ok a => Ok a | Err _ => Err e | Panic => Panic end.

Definition align_mem_slot (range : AddressRange) (alignment : Z) : res AddressSpaceError AddressRange :=
  aligned_addr ← or_err (align_up (ar_base range) alignment) (EAddrAlignUp (ar_base range) alignment);
  sz ← ok_or (checked_sub (ar_size range) (offset_from aligned_addr (ar_base range))) EBail;
  aligned_size ← or_err (round_down sz alignment) EBail;
  if 0 <? aligned_size then Ok (mkRange aligned_addr aligned_size) else Err EBail.

Section listener.
Context {K : Type} `{!KvmKernel K}.
Context (page : Z).

Abbreviation KM := (sres (KvmState K) AddressSpaceError).

Definition set_slots (l : list MemSlot) : KM unit :=
  fun s => (mkKvm (mkKml (as_id (kml s)) l (enabled (kml s))) (mem_slots s) (kernel s), Ok tt).

(** [KVMFds::add_mem_slot], [KVMFds::remove_mem_slot] *)
Definition add_mem_slot (m : MemorySlot) : KM unit :=
  if negb (Z.land (flags m) KVM_MEM_READONLY =? 0) then mret tt
  else fun s => (mkKvm (kml s) (<[slot m := m]> (mem_slots s)) (kernel s), Ok tt).
Definition remove_mem_slot (m : MemorySlot) : KM unit :=
  fun s => (mkKvm (kml s) (delete (slot m) (mem_slots s)) (kernel s), Ok tt).

(** One ioctl on the VM fd. *)
Definition ioctl (f : K -> K * bool) : KM bool :=
  fun s => let '(k, ok) := f (kernel s) in (mkKvm (kml s) (mem_slots s) k, Ok ok).

Definition delete_region (st : store) (fr : FlatRange) : KM unit :=
  o ← slift (unwrap (st !! owner fr));
  if negb (is_host_backed (region_type o)) then mret tt
  else
    r ← slift (align_mem_slot (addr_range fr) page);
    s ← sget;
    match delete_slot (slots (kml s)) (ar_base r) (ar_size r) with
    | Panic => slift Panic
    | Err _ => mret tt
    | Ok (l, m) =>
      _ ← set_slots l;
      let kvm_region := mkMemorySlot (slot_key (index m) (as_id (kml s))) (guest_addr m) 0
                          (ms_host_addr m) 0 in
      _ ← remove_mem_slot kvm_region;
      ok ← ioctl (fun k => set_user_memory_region k kvm_region);
      if ok : bool then mret tt else sfail EKvm
    end.

(** A rom device in I/O mode: the first condition of [add_region]. *)
Definition rom_io_mode (o : Region) : res AddressSpaceError bool :=
  match region_type o with
  | RomDevice => romd ← unwrap (get_rom_device_romd o); Ok (negb romd)
  | _ => Ok false
  end.

Definition add_region (st : store) (fr : FlatRange) : KM unit :=
  o ← slift (unwrap (st !! owner fr));
  io_mode ← slift (rom_io_mode o);
  if io_mode : bool then
    (* the result of the deletion is only logged *)
    signore (delete_region st fr)
  else if negb (is_host_backed (region_type o)) then mret tt
  else
    r ← slift (align_mem_slot (addr_range fr) page);
    let align_adjust := wsub 64 (ar_base r) (ar_base (addr_range fr)) in
    hva ← slift (unwrap (get_host_address o));
    let aligned_hva := wadd 64 (wadd 64 hva (offset_in_region fr)) align_adjust in
    s ← sget;
    '(l, slot_idx) ← slift (get_free_slot (slots (kml s)) (ar_base r) (ar_size r) aligned_hva);
    _ ← set_slots l;
    let fl := if default false (get_rom_device_romd o) then KVM_MEM_READONLY else 0 in
    let kvm_region := mkMemorySlot (slot_key slot_idx (as_id (kml s))) (ar_base r) (ar_size r)
                        aligned_hva fl in
    _ ← add_mem_slot kvm_region;
    ok ← ioctl (fun k => set_user_memory_region k kvm_region);
    if ok : bool then mret tt
    else
      s ← sget;
      '(l, _) ← slift (delete_slot (slots (kml s)) (ar_base r) (ar_size r));
      _ ← set_slots l;
      sfail EKvm.

(** The datamatch argument of the ioctl; [bail!] on another length. *)
Definition datamatch (e : RegionIoEventFd) : res AddressSpaceError Datamatch :=
  if data_match e then
    let n := ar_size (evt_range e) in
    if n =? 2 then Ok (U16 (wrap 16 (evt_data e)))
    else if n =? 4 then Ok (U32 (wrap 32 (evt_data e)))
    else if n =? 8 then Ok (U64 (evt_data e))
    else Err EBail
  else Ok NoDatamatch.

Definition ioevent (io : Z -> IoEventAddress)
    (f : K -> Z -> IoEventAddress -> Datamatch -> K * bool) (e : RegionIoEventFd) : KM unit :=
  d ← slift (datamatch e);
  ok ← ioctl (fun k => f k (fd e) (io (ar_base (evt_range e))) d);
  if ok : bool then mret tt else sfail EKvm.

Definition add_ioeventfd (e : RegionIoEventFd) : KM unit := ioevent Mmio register_ioevent e.
Definition delete_ioeventfd (e : RegionIoEventFd) : KM unit := ioevent Mmio unregister_ioevent e.

(** [handle_request] of the memory listener. *)
Definition kml_handle_request (st : store) (fr : option FlatRange) (ev : option RegionIoEventFd)
    (t : ListenerReqType) : KM unit :=
  match t with
  | AddRegion => f ← slift (ok_or fr EBail); add_region st f
  | DeleteRegion => f ← slift (ok_or fr EBail); delete_region st f
  | AddIoeventfd => e ← slift (ok_or ev EBail); add_ioeventfd e
  | DeleteIoeventfd => e ← slift (ok_or ev EBail); delete_ioeventfd e
  end.

(** [handle_request] of the port-I/O listener: regions are ignored. *)
Definition kio_handle_request (ev : option RegionIoEventFd) (t : ListenerReqType) : KM unit :=
  match t with
  | AddIoeventfd => e ← slift (ok_or ev EBail); ioevent Pio register_ioevent e
  | DeleteIoeventfd => e ← slift (ok_or ev EBail); ioevent Pio unregister_ioevent e
  | _ => mret tt
  end.

(** The memory listener behind the interface of [Topology.v]; it is the only
    listener of its address space, so the listener name plays no role. *)
#[local] Instance kml_listener : Listener (KvmState K) := {|
  l_priority := fun _ _ => 10;
  l_enabled := fun s _ => enabled (kml s);
  l_enable := fun s _ => mkKvm (mkKml (as_id (kml s)) (slots (kml s)) true) (mem_slots s) (kernel s);
  l_disable := fun s _ => mkKvm (mkKml (as_id (kml s)) (slots (kml s)) false) (mem_slots s) (kernel s);
  handle_request := fun st s _ fr ev t => kml_handle_request st fr ev t s |}.

(** [KVMFds::start_dirty_log] and [stop_dirty_log]: every recorded slot is
    set again with the new flags; the first error stops the loop.  [keys] is
    the iteration order of the [HashMap]. *)
Fixpoint set_log_flags (keys : list Z) (fl : Z) : KM unit :=
  match keys with
  | [] => mret tt
  | k :: keys =>
    s ← sget;
    match mem_slots s !! k with
    | None => set_log_flags keys fl
    | Some m =>
      let m' := mkMemorySlot (slot m) (guest_phys_addr m) (memory_size m) (userspace_addr m) fl in
      _ ← (fun s => (mkKvm (kml s) (<[k := m']> (mem_slots s)) (kernel s), Ok tt));
      ok ← ioctl (fun kn => set_user_memory_region kn m');
      if ok : bool then set_log_flags keys fl else sfail EKvm
    end
  end.
Definition start_dirty_log (keys : list Z) : KM unit := set_log_flags keys KVM_MEM_LOG_DIRTY_PAGES.
Definition stop_dirty_log (keys : list Z) : KM unit := set_log_flags keys 0.
End listener.

(** * Theorems *)

(** ** Alignment *)

(** The pages that lie entirely inside a range. *)
Definition page_inside (page : Z) (range : AddressRange) (k : Z) : Prop :=
  ar_base range <= k * page /\ k * page + page <= ar_base range + ar_size range.

Lemma align_mem_slot_pages page range :
  range_wf range -> ar_base range + ar_size range < 2 ^ 64 -> 0 < page < 2 ^ 64 ->
  match align_mem_slot range page with
  | Ok r => ar_base r `mod` page = 0 /\ ar_size r `mod` page = 0 /\ 0 < ar_size r /\
            ar_base range <= ar_base r /\
            ar_base r + ar_size r <= ar_base range + ar_size range /\
            forall k, page_inside page range k -> page_inside page r k
  | Err _ => forall k, ~ page_inside page range k
  | Panic => False
  end.
Proof.
  intros [Hb Hs] Hend Hp. unfold align_mem_slot, align_up, page_inside.
  pose proof (round_up_spec (ar_base range) page Hb Hp) as Hup.
  destruct (round_up _ _) as [up|[]|] eqn:Eup; [|intros k [Hk1 Hk2]|done].
  2:{ specialize (Hup k Hk1). unfold inW in *. nia. }
  destruct Hup as (Hmod & Hrange & Hup64). cbn. unfold offset_from.
  rewrite wsub_small by (unfold inW in *; lia).
  pose proof (Z.div_exact up page ltac:(lia)) as [_ Hq]. specialize (Hq Hmod).
  set (q := up / page) in *. unfold checked_sub.
  destruct (Z.leb_spec (up - ar_base range) (ar_size range)); cbn.
  2:{ intros k [Hk1 Hk2]. assert (q <= k) by nia. nia. }
  rewrite round_down_spec by (unfold inW in *; lia). cbn.
  set (sz := ar_size range - (up - ar_base range)) in *.
  pose proof (Z.div_mod sz page ltac:(lia)). pose proof (Z.mod_pos_bound sz page ltac:(lia)).
  set (m := sz / page) in *. destruct (Z.ltb_spec 0 (m * page)); cbn.
  - split_and!; try done; try lia; [apply Z.mod_mul; lia|].
    intros k [Hk1 Hk2]. assert (q <= k) by nia. assert (k < q + m) by nia. split; nia.
  - intros k [Hk1 Hk2]. assert (q <= k) by nia. nia.
Qed.

(** [align_mem_slot] returns the union of the whole pages inside the
    range, and fails exactly when there is none; it never panics for a
    non-zero page size. *)
Theorem align_mem_slot_correct page range :
  range_wf range -> ar_base range + ar_size range < 2 ^ 64 -> 0 < page < 2 ^ 64 ->
  match align_mem_slot range page with
  | Ok r => ar_base r `mod` page = 0 /\ ar_size r `mod` page = 0 /\ 0 < ar_size r /\
            ar_base range <= ar_base r /\
            ar_base r + ar_size r <= ar_base range + ar_size range /\
            forall k, page_inside page range k -> page_inside page r k
  | Err _ => forall k, ~ page_inside page range k
  | Panic => False
  end.
Proof. apply align_mem_slot_pages. Qed.

Example align_mem_slot_witness :
  align_mem_slot (mkRange 0x1800 0x3000) 0x1000 = Ok (mkRange 0x2000 0x2000) /\
  0 < ar_size (mkRange 0x2000 0x2000) /\
  ar_base (mkRange 0x2000 0x2000) `mod` 0x1000 = 0.
Proof.
  pose proof (align_mem_slot_correct 0x1000 (mkRange 0x1800 0x3000)) as H.
  destruct H as (H1 & _ & H3 & _); [split; vm_compute; done|vm_compute; done|vm_compute; done|].
  split; [vm_compute; done|]. split; [exact H3|exact H1].
Defined.

(** ** The slot table *)

(** Slots in use, as guest address, size and host address. *)
Definition in_use (s : MemSlot) : option (Z * Z * Z) :=
  if 0 <? ms_size s then Some (guest_addr s, ms_size s, ms_host_addr s) else None.
Definition active (l : list MemSlot) : list (Z * Z * Z) := omap in_use l.

Lemma active_cons s l :
  active (s :: l) = match in_use s with Some x => x :: active l | None => active l end.
Proof. done. Qed.
Lemma in_use_free s : ms_size s <= 0 -> in_use s = None.
Proof. intros. unfold in_use. zcases; done || lia. Qed.
Lemma in_use_busy s : 0 < ms_size s -> in_use s = Some (guest_addr s, ms_size s, ms_host_addr s).
Proof. intros. unfold in_use. zcases; done || lia. Qed.

(** A new range does not contain the address left in a free slot. *)
Definition clear_of (ga size g : Z) : Prop := g <= ga \/ ga + size <= g.

Definition disjoint_from (ga size : Z) (x : Z * Z * Z) : Prop :=
  x.1.1 + x.1.2 <= ga \/ ga + size <= x.1.1.

Definition slots_wf (l : list MemSlot) : Prop := Forall (fun s => 0 <= ms_size s) l.

Lemma overlapping_None ga size l :
  0 < size -> slots_wf l -> Forall (disjoint_from ga size) (active l) ->
  Forall (fun s => ms_size s = 0 -> clear_of ga size (guest_addr s)) l ->
  overlapping (mkRange ga size) l = None.
Proof.
  intros Hs. unfold overlapping. induction l as [|s l IH]; intros Hw Ha Hc; [done|]. cbn [first_some].
  apply Forall_cons in Hw as [? ?], Hc as [Hc1 ?]. rewrite active_cons in Ha.
  unfold find_intersection at 1. cbn [ar_base ar_size]. destruct (Z.ltb_spec 0 (ms_size s)) as [Hlt|].
  - rewrite in_use_busy in Ha by done. apply Forall_cons in Ha as [[Hd|Hd] ?]; cbn in Hd;
      zcases; try lia; by apply IH.
  - rewrite in_use_free in Ha by lia. destruct Hc1; [lia|zcases; try lia; by apply IH..].
Qed.

Lemma fill_slot_spec ga size ha l : forall i,
  0 < size -> slots_wf l -> (length (active l) < length l)%nat ->
  exists l' idx, fill_slot i l ga size ha = Some (l', idx) /\
    active l' ≡ₚ (ga, size, ha) :: active l /\ length l' = length l /\ slots_wf l' /\
    forall P : MemSlot -> Prop, Forall P l -> P (mkSlot idx ga size ha) -> Forall P l'.
Proof.
  induction l as [|s l IH]; intros i Hs Hw Hlen; [simpl in Hlen; lia|]. cbn [fill_slot].
  apply Forall_cons in Hw as [Hw1 Hw]. rewrite active_cons in *. destruct (Z.eqb_spec (ms_size s) 0) as [Hz|Hz].
  - rewrite (in_use_free s) by lia. exists (mkSlot (wrap 32 i) ga size ha :: l), (wrap 32 i). split; [done|].
    rewrite active_cons, in_use_busy by done. split_and!; [done|done|by constructor; simpl; [lia|]|].
    intros P [_ HP]%Forall_cons ?. by constructor.
  - rewrite (in_use_busy s) in * by lia. simpl in Hlen.
    destruct (IH (i + 1)) as (l' & idx & -> & Hp & Hl & Hw' & HP); [done|done|lia|].
    exists (s :: l'), idx. rewrite active_cons, in_use_busy by lia. split_and!; [done|..].
    + rewrite Hp. apply Permutation_swap.
    + simpl. lia.
    + by constructor.
    + intros P [? HP']%Forall_cons ?. constructor; auto.
Qed.

Lemma delete_slot_spec addr size l :
  0 < size -> slots_wf l ->
  match delete_slot l addr size with
  | Ok (l', m) => exists ha, active l ≡ₚ (addr, size, ha) :: active l' /\ length l' = length l /\
      guest_addr m = addr /\ ms_host_addr m = ha /\ slots_wf l' /\
      forall P : MemSlot -> Prop, Forall P l -> P m -> Forall P l'
  | Err _ => forall ha, (addr, size, ha) ∉ active l
  | Panic => False
  end.
Proof.
  intros Hs. induction l as [|s l IH]; intros Hw; [intros ha; apply not_elem_of_nil|].
  apply Forall_cons in Hw as [Hw1 Hw]. specialize (IH Hw). cbn [delete_slot].
  destruct (decide (guest_addr s = addr /\ ms_size s = size)) as [[Ha Hz]|Hne].
  { rewrite Ha, Hz, !Z.eqb_refl. cbn [andb]. exists (ms_host_addr s). subst.
    rewrite !active_cons, in_use_busy, in_use_free by (simpl; lia). split_and!; try done.
    - by constructor.
    - intros P [_ ?]%Forall_cons ?. by constructor. }
  assert ((guest_addr s =? addr) && (ms_size s =? size) = false) as -> by (zcases; done || lia).
  destruct (delete_slot l addr size) as [[l' m]| |]; cbn [mbind res_bind]; [|intros ha|done].
  - destruct IH as (ha & Hp & Hl & Hg & Hh & Hw' & HP). exists ha. rewrite !active_cons.
    split_and!; [|simpl; lia|done|done|by constructor|intros P [? ?]%Forall_cons ?; constructor; auto].
    destruct (in_use s); rewrite Hp; done || apply Permutation_swap.
  - rewrite active_cons. unfold in_use. zcases; [|apply IH]. apply not_elem_of_cons.
    split; [intros [=]; lia|apply IH].
Qed.

(** a slot freed by [delete_slot] keeps its address, and
    [get_free_slot] refuses every range strictly around such an address as
    overlapping, whatever is mapped. *)
Theorem stale_slot_blocks l s ga size ha :
  s ∈ l -> ms_size s = 0 -> ga < guest_addr s < ga + size ->
  exists exist, get_free_slot l ga size ha = Err (EKvmSlotOverlap (ga, size) exist).
Proof.
  intros Hin Hz Hs. unfold get_free_slot.
  assert (is_Some (overlapping (mkRange ga size) l)) as [s' ->]; [|by eexists].
  unfold overlapping. induction l as [|s1 l IH]; [by apply not_elem_of_nil in Hin|]. cbn [first_some].
  apply elem_of_cons in Hin as [<-|Hin].
  - unfold find_intersection at 1. cbn. rewrite Hz. zcases; try lia. by eexists.
  - destruct (find_intersection _ _); [by eexists|]. by apply IH.
Qed.

(** A single RAM page was mapped and deleted; nothing is mapped, and the
    range around it is refused. *)
Example stale_slot_blocks_witness :
  let l := [mkSlot 0 0x2000 0x1000 0x7f0000002000] in
  exists l' m exist, delete_slot l 0x2000 0x1000 = Ok (l', m) /\ active l' = [] /\
    get_free_slot l' 0x1000 0x4000 0x7f0000000000 = Err (EKvmSlotOverlap (0x1000, 0x4000) exist).
Proof.
  destruct (stale_slot_blocks [mkSlot 0 0x2000 0 0x7f0000002000] (mkSlot 0 0x2000 0 0x7f0000002000)
    0x1000 0x4000 0x7f0000000000) as [x H]; [left|done|simpl; lia|].
  exists [mkSlot 0 0x2000 0 0x7f0000002000], (mkSlot 0 0x2000 0 0x7f0000002000), x.
  split_and!; [reflexivity|reflexivity|exact H].
Defined.

(** ** The slots mirror the flat view *)

Section mirror.
Context {K : Type} `{!KvmKernel K}.
Context (page : Z) (Hpage : 0 < page < 2 ^ 64).
Context (st : store).
(** The kernel accepts every region it is given. *)
Context (Hkernel : forall (k : K) m, (set_user_memory_region k m).2 = true).

(** What KVM should be told of a range: nothing unless its owner is backed
    by host memory, and not a rom device in I/O mode. *)
Definition slot_entry (key : AddressRange * rid * Z * bool) : option (Z * Z * Z) :=
  let '(ar, o, off, romd) := key in
  r ← st !! o;
  if negb (is_host_backed (region_type r)) ||
     (bool_decide (region_type r = RomDevice) && negb romd) then None
  else
    hva ← get_host_address r;
    match align_mem_slot ar page with
    | Ok a => Some (ar_base a, ar_size a,
                    wadd 64 (wadd 64 hva off) (wsub 64 (ar_base a) (ar_base ar)))
    | _ => None
    end.

Definition entries (fv : list FlatRange) : list (Z * Z * Z) := omap slot_entry (fr_key <$> fv).

(** A range the listener can handle: a known owner, host memory present when
    the type says so, at least one whole page. *)
Definition fr_ok (fr : FlatRange) : Prop :=
  range_wf (addr_range fr) /\ ar_base (addr_range fr) + ar_size (addr_range fr) < 2 ^ 64 /\
  exists r, st !! owner fr = Some r /\
    (is_host_backed (region_type r) = true ->
       is_Some (mem_mapping r) /\ exists a, align_mem_slot (addr_range fr) page = Ok a).

Definition fr_disjoint (f g : FlatRange) : Prop :=
  ar_base (addr_range f) + ar_size (addr_range f) <= ar_base (addr_range g) \/
  ar_base (addr_range g) + ar_size (addr_range g) <= ar_base (addr_range f).

Lemma entries_cons fr fv :
  entries (fr :: fv) = match slot_entry (fr_key fr) with Some x => x :: entries fv | None => entries fv end.
Proof. done. Qed.
Lemma entries_app fv fv' : entries (fv ++ fv') = entries fv ++ entries fv'.
Proof. unfold entries. by rewrite fmap_app, omap_app. Qed.
Lemma entries_perm fv fv' : fr_key <$> fv ≡ₚ fr_key <$> fv' -> entries fv ≡ₚ entries fv'.
Proof. intros Hp. unfold entries. by rewrite Hp. Qed.

Lemma align_inside range a :
  range_wf range -> ar_base range + ar_size range < 2 ^ 64 -> align_mem_slot range page = Ok a ->
  0 < ar_size a /\ ar_base range <= ar_base a /\ ar_base a + ar_size a <= ar_base range + ar_size range.
Proof.
  intros Hw He Ha. pose proof (align_mem_slot_pages page range Hw He Hpage) as H.
  rewrite Ha in H. by destruct H as (_ & _ & ? & ? & ? & _).
Qed.

(** The entry of a range lies inside it. *)
Lemma slot_entry_inside fr x :
  fr_ok fr -> slot_entry (fr_key fr) = Some x ->
  0 < x.1.2 /\ ar_base (addr_range fr) <= x.1.1 /\
  x.1.1 + x.1.2 <= ar_base (addr_range fr) + ar_size (addr_range fr).
Proof.
  intros (Hw & He & r & Hr & _). unfold slot_entry, fr_key. rewrite Hr. cbn.
  destruct (_ || _); [done|]. destruct (get_host_address r); [|done]. cbn.
  destruct (align_mem_slot _ _) as [a| |] eqn:Ha; [|done..]. intros [= <-]. by apply align_inside.
Qed.

Lemma entries_disjoint fr a fv :
  fr_ok fr -> align_mem_slot (addr_range fr) page = Ok a ->
  Forall fr_ok fv -> Forall (fr_disjoint fr) fv ->
  Forall (fun x => 0 < x.1.2 /\ disjoint_from (ar_base a) (ar_size a) x) (entries fv).
Proof.
  intros (Hw & He & _) Ha Hok Hd. destruct (align_inside _ _ Hw He Ha) as (? & ? & ?).
  induction fv as [|g fv IH]; [constructor|].
  apply Forall_cons in Hok as [Hg Hok], Hd as [Hdg Hd]. rewrite entries_cons.
  destruct (slot_entry (fr_key g)) as [x|] eqn:Hx; [|auto]. constructor; [|auto].
  destruct (slot_entry_inside g x Hg Hx) as (? & ? & ?). unfold disjoint_from, fr_disjoint in *. lia.
Qed.
Lemma entry_not_in fr a fv ha :
  fr_ok fr -> align_mem_slot (addr_range fr) page = Ok a ->
  Forall fr_ok fv -> Forall (fr_disjoint fr) fv -> (ar_base a, ar_size a, ha) ∉ entries fv.
Proof.
  intros Hf Ha Hok Hd Hin. pose proof Hf as (Hw & He & _).
  destruct (align_inside _ _ Hw He Ha) as (? & _).
  eapply Forall_forall in Hin; [|by eapply entries_disjoint]. cbn in Hin. unfold disjoint_from in Hin. simpl in Hin. lia.
Qed.

(** The table holds the entries of [cur], has [n] slots, and the addresses
    left in its free slots are not inside a range of [target]. *)
Definition mirrors (n : nat) (target cur : list FlatRange) (l : list MemSlot) : Prop :=
  slots_wf l /\ active l ≡ₚ entries cur /\ length l = n /\
  Forall (fun s => ms_size s = 0 ->
            Forall (fun x => clear_of x.1.1 x.1.2 (guest_addr s)) (entries target)) l.

Lemma host_entry fr r :
  st !! owner fr = Some r -> is_host_backed (region_type r) = true -> fr_ok fr ->
  exists a hva, align_mem_slot (addr_range fr) page = Ok a /\ get_host_address r = Some hva /\
    slot_entry (fr_key fr) =
      if bool_decide (region_type r = RomDevice) && negb (default false (fr_romd fr)) then None
      else Some (ar_base a, ar_size a, wadd 64 (wadd 64 hva (offset_in_region fr))
                   (wsub 64 (ar_base a) (ar_base (addr_range fr)))).
Proof.
  intros Hr Hb (_ & _ & r' & Hr' & Hok). rewrite Hr in Hr'. injection Hr' as <-.
  destruct (Hok Hb) as [[m Hm] [a Ha]]. exists a, (host_addr m). split_and!; [done| |].
  - unfold get_host_address. by rewrite Hb, Hm.
  - unfold slot_entry, fr_key, get_host_address. rewrite Hr. cbn. rewrite Hb, Hm. cbn. rewrite Ha.
    by destruct (_ && _).
Qed.

Lemma set_region_step {B} m (f : bool -> sres (KvmState K) AddressSpaceError B) s :
  (ioctl (fun k => set_user_memory_region k m) ≫= f) s =
  f true (mkKvm (kml s) (mem_slots s) (set_user_memory_region (kernel s) m).1).
Proof.
  apply sres_step. unfold ioctl. pose proof (Hkernel (kernel s) m) as Hk.
  destruct (set_user_memory_region (kernel s) m). simpl in *. by subst.
Qed.

Lemma delete_region_mirrors n target fr cur s :
  fr_ok fr -> Forall fr_ok cur -> Forall (fr_disjoint fr) cur ->
  (forall x, slot_entry (fr_key fr) = Some x ->
     Forall (fun y => clear_of y.1.1 y.1.2 x.1.1) (entries target)) ->
  mirrors n target (fr :: cur) (slots (kml s)) ->
  exists s', delete_region page st fr s = (s', Ok tt) /\ mirrors n target cur (slots (kml s')).
Proof.
  intros Hf Hok Hd Hclear (Hw & Hact & Hlen & Hst). pose proof Hf as (_ & _ & r & Hr & _).
  unfold delete_region. rewrite Hr. cbn [unwrap]. rewrite slift_Ok_bind.
  destruct (is_host_backed (region_type r)) eqn:Hb; cbn [negb].
  2:{ exists s. split; [done|]. split_and!; try done. rewrite Hact, entries_cons. unfold slot_entry, fr_key.
      rewrite Hr. cbn. by rewrite Hb. }
  destruct (host_entry fr r Hr Hb Hf) as (a & hva & Ha & Hh & Hentry). rewrite Ha, slift_Ok_bind.
  pose proof Hf as (Hrw & Hre & _). destruct (align_inside _ _ Hrw Hre Ha) as (Hsz & _).
  rewrite (sres_step _ _ s s s) by done. rewrite entries_cons in Hact.
  pose proof (delete_slot_spec (ar_base a) (ar_size a) (slots (kml s)) Hsz Hw) as Hdel.
  assert (forall ha, (ar_base a, ar_size a, ha) ∉ entries cur) as Hnot
    by (intros; by eapply entry_not_in).
  destruct (delete_slot _ _ _) as [[l' m]|e|]; [|exists s; split; [done|]|done].
  - destruct Hdel as (ha & Hperm & Hl & Hg & _ & Hw' & HP). rewrite Hact in Hperm.
    destruct (slot_entry (fr_key fr)) as [x|] eqn:Hx.
    2:{ exfalso. apply (Hnot ha). rewrite Hperm. left. }
    assert (x = (ar_base a, ar_size a, ha)) as ->.
    { assert ((ar_base a, ar_size a, ha) ∈ x :: entries cur) as Hin by (rewrite Hperm; left).
      apply elem_of_cons in Hin as [->|Hin]; [done|by apply Hnot in Hin]. }
    apply Permutation_cons_inv in Hperm.
    rewrite (sres_step _ _ s (mkKvm (mkKml (as_id (kml s)) l' (enabled (kml s))) (mem_slots s) (kernel s)) tt) by done.
    set (kr := mkMemorySlot _ _ _ _ _). eexists. split.
    + unfold remove_mem_slot. erewrite sres_step by done. by rewrite set_region_step.
    + simpl. split_and!; [done|by rewrite Hperm|lia|]. apply HP; [done|].
      intros _. rewrite Hg. exact (Hclear _ eq_refl).
  - split_and!; try done. rewrite Hact. destruct (slot_entry (fr_key fr)) as [x|] eqn:Hx; [|done].
    exfalso. destruct (bool_decide _ && _); [done|]. injection Hentry as ->.
    eapply Hdel. rewrite Hact. left.
Qed.

Lemma add_region_mirrors n target fr cur s :
  fr_ok fr -> Forall fr_ok cur -> Forall (fr_disjoint fr) cur ->
  (forall r, st !! owner fr = Some r -> fr_romd fr = get_rom_device_romd r) ->
  fr_key fr ∈ fr_key <$> target -> (length (entries (fr :: cur)) <= n)%nat ->
  mirrors n target cur (slots (kml s)) ->
  exists s', add_region page st fr s = (s', Ok tt) /\ mirrors n target (fr :: cur) (slots (kml s')).
Proof.
  intros Hf Hok Hd Hromd Htarget Hn Hm. pose proof Hf as (Hrw & Hre & r & Hr & _).
  unfold add_region. rewrite Hr. cbn [unwrap]. rewrite slift_Ok_bind.
  specialize (Hromd r Hr). unfold get_rom_device_romd in Hromd.
  assert (rom_io_mode r = Ok (bool_decide (region_type r = RomDevice) && negb (default false (fr_romd fr))))
    as ->.
  { unfold rom_io_mode, get_rom_device_romd. rewrite Hromd. by destruct (region_type r). }
  rewrite slift_Ok_bind. destruct (is_host_backed (region_type r)) eqn:Hb; cbn [negb].
  2:{ assert (bool_decide (region_type r = RomDevice) = false) as -> by (by destruct (region_type r)).
      cbn [andb]. exists s. split; [done|]. destruct Hm as (? & Hact & ? & ?). split_and!; try done.
      rewrite Hact, entries_cons. unfold slot_entry, fr_key. rewrite Hr. cbn. by rewrite Hb. }
  destruct (host_entry fr r Hr Hb Hf) as (a & hva & Ha & Hh & Hentry).
  destruct (bool_decide (region_type r = RomDevice) && negb (default false (fr_romd fr))).
  { destruct (delete_region_mirrors n target fr cur s) as (s' & Hdel & Hm'); try done.
    - by rewrite Hentry.
    - by destruct Hm as (? & ? & ? & ?); split_and!; try done; rewrite entries_cons, Hentry.
    - exists s'. unfold signore. rewrite Hdel. split; [done|].
      destruct Hm' as (? & ? & ? & ?). split_and!; try done. by rewrite entries_cons, Hentry. }
  rewrite Ha, slift_Ok_bind, Hh. cbn [unwrap]. rewrite slift_Ok_bind, (sres_step _ _ s s s) by done.
  set (h := wadd 64 (wadd 64 hva _) _) in *. destruct Hm as (Hw & Hact & Hlen & Hst).
  rewrite entries_cons, Hentry in *. simpl in Hn.
  destruct (align_inside _ _ Hrw Hre Ha) as (Hsz & _).
  unfold get_free_slot. rewrite overlapping_None; [|done|done| |].
  2:{ rewrite Hact. eapply Forall_impl; [by eapply entries_disjoint|]. by intros ? [_ ?]. }
  2:{ eapply Forall_impl; [apply Hst|]. intros m Hm Hz. specialize (Hm Hz).
      assert ((ar_base a, ar_size a, h) ∈ entries target) as Hin.
      { apply list_elem_of_omap. by exists (fr_key fr). }
      eapply Forall_forall in Hin; [|exact Hm]. done. }
  destruct (fill_slot_spec (ar_base a) (ar_size a) h (slots (kml s)) 0)
    as (l' & idx & -> & Hperm & Hl & Hw' & HP); [done|done|rewrite Hact; lia|].
  rewrite slift_Ok_bind. unfold set_slots. erewrite sres_step by done.
  set (kr := mkMemorySlot _ _ _ _ _).
  assert (exists ms, forall s0, add_mem_slot (K := K) kr s0 =
    (mkKvm (kml s0) (ms (mem_slots s0)) (kernel s0), Ok tt)) as [ms Hms].
  { unfold add_mem_slot. destruct (negb _); [exists id; by intros []|by eexists]. }
  rewrite (sres_step _ _ _ _ _ (Hms _)), set_region_step. eexists. split; [done|].
  simpl. split_and!; [done|by rewrite entries_cons, Hentry, Hperm, Hact|lia|].
  apply HP; [done|]. simpl. lia.
Qed.

(** Pairwise disjoint ranges, by their keys. *)
Definition all_disjoint (fv : list FlatRange) : Prop :=
  NoDup (fr_key <$> fv) /\
  forall f g, f ∈ fv -> g ∈ fv -> fr_key f <> fr_key g -> fr_disjoint f g.

Lemma all_disjoint_cons f fv :
  all_disjoint (f :: fv) -> Forall (fr_disjoint f) fv /\ all_disjoint fv.
Proof.
  intros [Hnd Hd]. rewrite fmap_cons in Hnd. apply NoDup_cons in Hnd as [Hnin Hnd]. split_and!.
  - apply Forall_forall. intros g Hg. apply Hd; [left|by right|].
    intros Heq. apply Hnin. rewrite Heq. by apply list_elem_of_fmap_2.
  - split; [done|]. intros g h Hg Hh. apply Hd; by right.
Qed.
Lemma all_disjoint_perm fv fv' :
  fr_key <$> fv ≡ₚ fr_key <$> fv' -> all_disjoint fv -> all_disjoint fv'.
Proof.
  intros Hp [Hnd Hd]. split; [by rewrite <-Hp|]. intros f g Hf Hg Hne.
  assert (fr_key f ∈ fr_key <$> fv) as (f' & Hf' & ?)%list_elem_of_fmap
    by (rewrite Hp; by apply list_elem_of_fmap_2).
  assert (fr_key g ∈ fr_key <$> fv) as (g' & Hg' & ?)%list_elem_of_fmap
    by (rewrite Hp; by apply list_elem_of_fmap_2).
  assert (fr_disjoint f' g') as Hdis by (apply Hd; congruence).
  unfold fr_key in Hf', Hg'. unfold fr_disjoint in *. simplify_eq. congruence.
Qed.
Lemma flat_ok_disjoint lo fv : flat_ok lo fv -> all_disjoint fv.
Proof.
  intros Hfv. split; [by eapply by_base_NoDup, flat_ok_by_base|].
  revert lo Hfv. induction fv as [|h fv IH]; intros lo; simpl; [intros ? ? ? ?%not_elem_of_nil; done|].
  intros (? & ? & ? & Hok). pose proof Hok as [_ Hlo]%flat_ok_by_base. rewrite Forall_forall in Hlo.
  intros f g [->|Hf]%elem_of_cons [->|Hg]%elem_of_cons Hne; [done|left|right|by eapply IH].
  - by apply Hlo in Hg.
  - by apply Hlo in Hf.
Qed.

#[local] Existing Instance kml_listener.
Abbreviation kworld := (World (KvmState K)).
Definition with_kvm (w : kworld) (s : KvmState K) : kworld := mkWorld (regions w) (spaces w) s.
Definition kslots (w : kworld) : list MemSlot := slots (kml (lstate w)).

Lemma deletes_mirror l n target del : forall cur (w : kworld),
  regions w = st -> Forall fr_ok (del ++ cur) -> all_disjoint (del ++ cur) ->
  Forall (fun f => forall x, slot_entry (fr_key f) = Some x ->
     Forall (fun y => clear_of y.1.1 y.1.2 x.1.1) (entries target)) del ->
  mirrors n target (del ++ cur) (kslots w) ->
  exists s', try_for_each (fun f => call_listeners (Listener0 := kml_listener page) [l] (Some f) None DeleteRegion) del w
    = (with_kvm w s', Ok tt) /\ mirrors n target cur (slots (kml s')).
Proof.
  induction del as [|f del IH]; intros cur w Hst Hok Hd Hc Hm.
  { exists (lstate w). by destruct w. }
  simpl in Hok, Hd. apply Forall_cons in Hok as [Hf Hok], Hc as [Hc1 Hc].
  apply all_disjoint_cons in Hd as [Hfd Hd].
  destruct (delete_region_mirrors n target f (del ++ cur) (lstate w)) as (s1 & E1 & Hm1); try done.
  assert (call_listeners (Listener0 := kml_listener page) [l] (Some f) None DeleteRegion w
          = (with_kvm w s1, Ok tt)) as Hcall.
  { simpl. unfold request, mbind, sres_bind. simpl. rewrite Hst. unfold mbind, sres_bind. simpl.
    rewrite E1. unfold with_kvm. by rewrite Hst. }
  destruct (IH cur (with_kvm w s1)) as (s2 & E2 & Hm2); try done.
  exists s2. cbn [try_for_each]. rewrite (sres_step _ _ _ _ _ Hcall). done.
Qed.

Lemma adds_mirror l n target add : forall cur (w : kworld),
  regions w = st -> Forall fr_ok (add ++ cur) -> all_disjoint (add ++ cur) ->
  Forall (fun f => (forall r, st !! owner f = Some r -> fr_romd f = get_rom_device_romd r) /\
                   fr_key f ∈ fr_key <$> target) add ->
  (length (entries (add ++ cur)) <= n)%nat -> mirrors n target cur (kslots w) ->
  exists s', try_for_each (fun f => call_listeners (Listener0 := kml_listener page) [l] (Some f) None AddRegion) add w
    = (with_kvm w s', Ok tt) /\ mirrors n target (add ++ cur) (slots (kml s')).
Proof.
  induction add as [|f add IH]; intros cur w Hst Hok Hd Hc Hn Hm.
  { exists (lstate w). by destruct w. }
  apply Forall_cons in Hc as [[Hr Ht] Hc].
  assert (f :: add ++ cur ≡ₚ add ++ f :: cur) as Hp by apply Permutation_middle.
  assert (fr_key <$> (f :: add ++ cur) ≡ₚ fr_key <$> (add ++ f :: cur)) as Hpk by (by rewrite Hp).
  assert (Forall fr_ok (add ++ f :: cur)) as Hok' by (by rewrite <-Hp).
  assert (all_disjoint (add ++ f :: cur)) as Hd' by (by eapply all_disjoint_perm).
  simpl in Hok, Hd, Hn. apply Forall_cons in Hok as [Hf Hok]. apply all_disjoint_cons in Hd as [Hfd _].
  apply Forall_app in Hfd as [_ Hfd]. apply Forall_app in Hok as [_ Hok].
  assert (length (entries (f :: cur)) <= n)%nat as Hn1.
  { revert Hn. rewrite (entries_perm _ _ Hpk), entries_app, length_app. lia. }
  destruct (add_region_mirrors n target f cur (lstate w)) as (s1 & E1 & Hm1); try done.
  assert (call_listeners (Listener0 := kml_listener page) [l] (Some f) None AddRegion w
          = (with_kvm w s1, Ok tt)) as Hcall.
  { simpl. unfold request, mbind, sres_bind. simpl. rewrite Hst. unfold mbind, sres_bind. simpl.
    rewrite E1. unfold with_kvm. by rewrite Hst. }
  destruct (IH (f :: cur) (with_kvm w s1)) as (s2 & E2 & Hm2); try done.
  { by rewrite <-(entries_perm _ _ Hpk). }
  exists s2. split; [cbn [try_for_each]; by rewrite (sres_step _ _ _ _ _ Hcall)|].
  destruct Hm2 as (? & Hact & ? & ?). split_and!; try done. rewrite Hact. by apply entries_perm.
Qed.

Lemma missing_split (old new : list FlatRange) :
  old ≡ₚ filter (fun f => fr_key f ∉ fr_key <$> new) old ++ filter (fun f => fr_key f ∈ fr_key <$> new) old.
Proof.
  induction old as [|f old IH]; [done|]. rewrite !filter_cons.
  destruct (decide (fr_key f ∈ fr_key <$> new)) as [Hin|Hout].
  - rewrite decide_False by (intros Hn; by apply Hn). rewrite IH at 1. apply Permutation_middle.
  - rewrite decide_True by done. by rewrite IH at 1.
Qed.

(** C7: when the KVM listener is driven through the two passes of a topology
    update, and the kernel accepts its requests, the update succeeds and the
    slots in use go from exactly the page-aligned host-backed ranges of the
    old view to exactly those of the new view.  The table must be large
    enough, and no free or freed slot may remember an address strictly inside
    a range of the new view: [get_free_slot] would refuse it. *)
Theorem kvm_slots_follow_view l old new (w : kworld) :
  regions w = st -> flat_ok 0 old -> flat_ok 0 new -> Forall fr_ok old -> Forall fr_ok new ->
  (forall f r, f ∈ new -> st !! owner f = Some r -> fr_romd f = get_rom_device_romd r) ->
  (forall f x y, f ∈ old -> slot_entry (fr_key f) = Some x -> y ∈ entries new ->
     clear_of y.1.1 y.1.2 x.1.1) ->
  (length (entries new) <= length (kslots w))%nat ->
  mirrors (length (kslots w)) new old (kslots w) ->
  let n := (length old + length new)%nat in
  exists s', (_ ← update_topology_pass (Listener0 := kml_listener page) n [l] old new false;
              update_topology_pass (Listener0 := kml_listener page) n [l] old new true) w
    = (with_kvm w s', Ok tt) /\
    active (slots (kml s')) ≡ₚ entries new.
Proof.
  intros Hst Ho Hn Hoko Hokn Hromd Hclear Hlen Hm n.
  pose proof (flat_ok_by_base _ _ Ho) as [Hbo _]. pose proof (flat_ok_by_base _ _ Hn) as [Hbn _].
  set (del := missing_in new old). set (keep := filter (fun f => fr_key f ∈ fr_key <$> new) old).
  set (add := missing_in old new).
  assert (old ≡ₚ del ++ keep) as Hsplit by apply missing_split.
  assert (fr_key <$> (add ++ keep) ≡ₚ fr_key <$> new) as Hnew.
  { rewrite <-(survivors_and_missing old new Hbo Hbn). by rewrite Permutation_app_comm. }
  assert (fr_key <$> old ≡ₚ fr_key <$> (del ++ keep)) as Hold by (by rewrite Hsplit at 1).
  destruct (deletes_mirror l (length (kslots w)) new del keep w) as (s1 & E1 & Hm1); [done| | | | |].
  { by rewrite <-Hsplit. }
  { eapply all_disjoint_perm; [exact Hold|]. by eapply flat_ok_disjoint. }
  { apply Forall_forall. intros f [_ Hf]%list_elem_of_filter x Hx. apply Forall_forall. eauto. }
  { destruct Hm as (? & Hact & ? & ?). split_and!; try done. rewrite Hact. by apply entries_perm. }
  assert (all_disjoint (add ++ keep)) as Hd2.
  { eapply all_disjoint_perm; [symmetry; exact Hnew|]. by eapply flat_ok_disjoint. }
  assert (Forall fr_ok (add ++ keep)) as Hok2.
  { apply Forall_app. split; apply Forall_forall; intros f [_ Hf]%list_elem_of_filter;
      [by eapply Forall_forall in Hokn|by eapply Forall_forall in Hoko]. }
  destruct (adds_mirror l (length (kslots w)) new add keep (with_kvm w s1)) as (s2 & E2 & Hm2); [done..| | |done|].
  { apply Forall_forall. intros f [_ Hf]%list_elem_of_filter. split; [eauto|by apply list_elem_of_fmap_2]. }
  { by rewrite (entries_perm _ _ Hnew). }
  exists s2. split.
  - erewrite sres_step by (rewrite update_topology_pass_reports by done; exact E1).
    rewrite update_topology_pass_reports by done. exact E2.
  - destruct Hm2 as (_ & Hact & _). rewrite Hact. by apply entries_perm.
Qed.
End mirror.

(** A kernel that accepts everything, RAM at 0 and a second range added. *)
#[local] Instance unit_kernel : KvmKernel unit := {|
  set_user_memory_region := fun k _ => (k, true);
  register_ioevent := fun k _ _ _ => (k, true);
  unregister_ioevent := fun k _ _ _ => (k, true) |}.

Definition ex_kvm_store : store :=
  <[2%positive := init_ram_region (mkMapping (mkRange 0 0x8000) 0x7f0000000000 false)]> ∅.
Definition ex_old : list FlatRange := [mkFlat (mkRange 0 0x2000) 2%positive 0 None].
Definition ex_new : list FlatRange :=
  [mkFlat (mkRange 0 0x2000) 2%positive 0 None; mkFlat (mkRange 0x3000 0x1000) 2%positive 0x3000 None].
Definition ex_kvm_world : World (KvmState unit) :=
  mkWorld ex_kvm_store ∅ (mkKvm (mkKml 0 [mkSlot 0 0 0x2000 0x7f0000000000; MemSlot_default] true) ∅ tt).

Lemma ex_fr_ok f : f ∈ ex_new -> fr_ok 0x1000 ex_kvm_store f.
Proof.
  intros Hf. unfold ex_new in Hf. set_unfold in Hf. destruct Hf as [->|[->|[]]];
    (split; [split; vm_compute; done|split; [vm_compute; done|]]; eexists; split; [vm_compute; reflexivity|];
     intros _; split; [by eexists|eexists; vm_compute; reflexivity]).
Qed.

Example kvm_slots_follow_view_witness :
  exists s', (_ ← update_topology_pass (Listener0 := kml_listener 0x1000) 3 [7%positive] ex_old ex_new false;
              update_topology_pass (Listener0 := kml_listener 0x1000) 3 [7%positive] ex_old ex_new true)
               ex_kvm_world = (with_kvm ex_kvm_world s', Ok tt) /\
    active (slots (kml s')) ≡ₚ [(0, 0x2000, 0x7f0000000000); (0x3000, 0x1000, 0x7f0000003000)].
Proof.
  destruct (kvm_slots_follow_view (K := unit) 0x1000 ltac:(lia) ex_kvm_store ltac:(done) 7%positive
    ex_old ex_new ex_kvm_world) as (s' & H1 & H2).
  - reflexivity.
  - simpl. lia.
  - simpl. lia.
  - apply Forall_singleton, ex_fr_ok. left.
  - apply Forall_forall. apply ex_fr_ok.
  - intros f r Hf. unfold ex_new in Hf. set_unfold in Hf. destruct Hf as [->|[->|[]]];
      vm_compute; intros [= <-]; done.
  - intros f x y ->%list_elem_of_singleton Hx Hy. vm_compute in Hx. injection Hx as <-.
    replace (entries 0x1000 ex_kvm_store ex_new)
      with [(0, 0x2000, 0x7f0000000000); (0x3000, 0x1000, 0x7f0000003000)] in Hy by (vm_compute; done).
    set_unfold in Hy. unfold clear_of. destruct Hy as [->|[->|[]]]; simpl; lia.
  - vm_compute. lia.
  - split_and!; [repeat constructor; simpl; lia|reflexivity|done|]. constructor; [simpl; lia|].
    constructor; [|constructor]. intros _. repeat constructor; unfold clear_of; simpl; lia.
  - exists s'. split; [exact H1|exact H2].
Defined.

(** ** The table and the kernel agree *)

(** Documented behaviour of the ioctls: [KVM_SET_USER_MEMORY_REGION] sets a
    slot, deletes it when the size is zero, and does nothing when it fails;
    the event-fd ioctls do not touch memory. *)
Class KvmKernelSpec (K : Type) `{!KvmKernel K} := {
  kview : K -> gmap Z MemorySlot;
  kview_set : forall k m, 0 < memory_size m ->
    kview (set_user_memory_region k m).1 =
      if (set_user_memory_region k m).2 then <[slot m := m]> (kview k) else kview k;
  kview_del : forall k m, memory_size m = 0 ->
    kview (set_user_memory_region k m).1 =
      if (set_user_memory_region k m).2 then delete (slot m) (kview k) else kview k;
  kview_reg : forall k fd a d, kview (register_ioevent k fd a d).1 = kview k;
  kview_unreg : forall k fd a d, kview (unregister_ioevent k fd a d).1 = kview k
}.

Definition region_triple (m : MemorySlot) : Z * Z * Z :=
  (guest_phys_addr m, memory_size m, userspace_addr m).

(** A slot in use in the table is a slot of the kernel, with the same guest
    address, size and host address. *)
Definition table_sync (a : Z) (l : list MemSlot) (kv : gmap Z MemorySlot) : Prop :=
  (Z.of_nat (length l) <= 2 ^ 16)%Z /\ slots_wf l /\
  forall i m, l !! i = Some m -> 0 < ms_size m ->
    region_triple <$> kv !! slot_key (Z.of_nat i) a = in_use m /\ index m = Z.of_nat i.

(** Slot [i] is free in the table, and the kernel still has it. *)
Definition leftover (a : Z) (l : list MemSlot) (kv : gmap Z MemorySlot) (i : nat) : Prop :=
  exists m, l !! i = Some m /\ ms_size m = 0 /\ is_Some (kv !! slot_key (Z.of_nat i) a).

Lemma slot_key_inj a i j :
  0 <= i < 2 ^ 16 -> 0 <= j < 2 ^ 16 -> slot_key i a = slot_key j a -> i = j.
Proof.
  assert (forall x, 0 <= x < 2 ^ 16 -> slot_key x a `mod` 2 ^ 16 = x) as Hlow.
  { intros x Hx. unfold slot_key, wshl, wrap. apply Z.bits_inj'. intros b Hb.
    destruct (Z.ltb_spec b 16).
    - rewrite Z.mod_pow2_bits_low, Z.lor_spec, Z.mod_pow2_bits_low by lia.
      rewrite Z.shiftl_spec_low by (rewrite Z.mod_small; lia). apply orb_false_r.
    - rewrite Z.mod_pow2_bits_high by lia. symmetry. by apply (testbit_above 16). }
  intros Hi Hj He. rewrite <-(Hlow i Hi), <-(Hlow j Hj). by rewrite He.
Qed.

Lemma fill_slot_pos ga size ha l : forall i0 l' idx,
  fill_slot i0 l ga size ha = Some (l', idx) ->
  exists i m, l !! i = Some m /\ ms_size m = 0 /\ idx = wrap 32 (i0 + Z.of_nat i) /\
    l' = <[i := mkSlot idx ga size ha]> l.
Proof.
  induction l as [|s l IH]; intros i0 l' idx H; [done|]. cbn [fill_slot] in H.
  destruct (Z.eqb_spec (ms_size s) 0).
  - simplify_eq. exists 0%nat, s. rewrite Z.add_0_r. done.
  - destruct (fill_slot (i0 + 1) l ga size ha) as [[l1 idx1]|] eqn:E; [|done]. cbn in H. simplify_eq.
    apply IH in E as (i & m & ? & ? & -> & ->). exists (S i), m. split_and!; try done; f_equal; lia.
Qed.

Lemma delete_slot_pos addr size l : forall l' d,
  delete_slot l addr size = Ok (l', d) ->
  exists i m, l !! i = Some m /\ guest_addr m = addr /\ ms_size m = size /\
    d = mkSlot (index m) (guest_addr m) 0 (ms_host_addr m) /\ l' = <[i := d]> l.
Proof.
  induction l as [|s l IH]; intros l' d H; [done|]. cbn [delete_slot] in H.
  destruct (Z.eqb_spec (guest_addr s) addr), (Z.eqb_spec (ms_size s) size); cbn [andb] in H.
  1: simplify_eq; by exists 0%nat, s.
  all: destruct (delete_slot l addr size) as [[l1 d1]| |] eqn:E; [|done..]; cbn in H; simplify_eq;
    destruct (IH _ _ eq_refl) as (i & m & ? & ? & ? & ? & ->); by exists (S i), m.
Qed.

(** Replacing slot [i] in the table and in the kernel. *)
Lemma table_sync_insert a l kv kv' i m0 m :
  table_sync a l kv -> l !! i = Some m0 -> 0 <= ms_size m ->
  (0 < ms_size m ->
   region_triple <$> kv' !! slot_key (Z.of_nat i) a = in_use m /\ index m = Z.of_nat i) ->
  (forall k, k <> slot_key (Z.of_nat i) a -> kv' !! k = kv !! k) ->
  table_sync a (<[i := m]> l) kv' /\
  (forall j, leftover a (<[i := m]> l) kv' j -> leftover a l kv j \/
     j = i /\ ms_size m = 0 /\ is_Some (kv' !! slot_key (Z.of_nat i) a)).
Proof.
  intros (Hlen & Hw & Hs) Hi Hsz Hk Hother.
  assert (forall j mj, l !! j = Some mj -> i <> j ->
    kv' !! slot_key (Z.of_nat j) a = kv !! slot_key (Z.of_nat j) a) as Hsame.
  { intros j mj Hj Hne. apply lookup_lt_Some in Hi as ?. apply lookup_lt_Some in Hj as ?.
    apply Hother. intros Heq%slot_key_inj; lia. }
  split; [split_and!|].
  - by rewrite length_insert.
  - by apply Forall_insert.
  - intros j mj Hj Hpos. apply list_lookup_insert_Some in Hj as [(<- & <- & _)|[Hne Hj]]; [by apply Hk|].
    rewrite (Hsame j mj) by done. by apply Hs.
  - intros j (mj & Hj & Hz & Hkv).
    apply list_lookup_insert_Some in Hj as [(<- & <- & _)|[Hne Hj]]; [by right|].
    left. exists mj. by rewrite <-(Hsame j mj).
Qed.

Lemma overlapping_None_inv range l i m :
  overlapping range l = None -> l !! i = Some m ->
  find_intersection (mkRange (guest_addr m) (ms_size m)) range = None.
Proof.
  unfold overlapping. revert i. induction l as [|s l IH]; intros i Ho Hi; [done|]. cbn [first_some] in Ho.
  destruct (find_intersection (mkRange (guest_addr s) (ms_size s)) range) eqn:E; [done|].
  destruct i as [|i]; [by simplify_eq/=|]. by eapply IH.
Qed.

Lemma align_mem_slot_pos range p a : align_mem_slot range p = Ok a -> 0 < ar_size a.
Proof.
  unfold align_mem_slot. intros H. inv_res. destruct (Z.ltb_spec 0 v1); [|done]. by simplify_eq/=.
Qed.

Section sync.
Context {K : Type} `{!KvmKernel K} `{!KvmKernelSpec K}.
Context (page : Z).

Definition ksync (s : KvmState K) : Prop :=
  table_sync (as_id (kml s)) (slots (kml s)) (kview (kernel s)).
Definition kleft (s : KvmState K) : nat -> Prop :=
  leftover (as_id (kml s)) (slots (kml s)) (kview (kernel s)).

(** The kernel refuses to delete slot [i], which is in use. *)
Definition refuses_delete (s : KvmState K) (i : nat) : Prop :=
  exists m, slots (kml s) !! i = Some m /\ 0 < ms_size m /\
    (set_user_memory_region (kernel s)
       (mkMemorySlot (slot_key (Z.of_nat i) (as_id (kml s))) (guest_addr m) 0 (ms_host_addr m) 0)).2 = false.

(** The table still describes the kernel, and the only new leftovers satisfy [R]. *)
Definition sync_step (s s' : KvmState K) (R : nat -> Prop) : Prop :=
  ksync s' /\ forall i, kleft s' i -> kleft s i \/ R i.

Lemma sync_step_refl s R : ksync s -> sync_step s s R.
Proof. intros. split; auto. Qed.

Lemma delete_region_sync st fr s :
  ksync s ->
  let '(s', r) := delete_region page st fr s in
  sync_step s s' (fun i => refuses_delete s i /\ r = Err EKvm).
Proof.
  intros Hs. unfold delete_region. destruct (st !! owner fr) as [o|]; [|by apply sync_step_refl].
  cbn [unwrap]. rewrite slift_Ok_bind. destruct (negb _); [by apply sync_step_refl|].
  destruct (align_mem_slot (addr_range fr) page) as [a| |] eqn:Ha; [|by apply sync_step_refl..].
  rewrite slift_Ok_bind. apply align_mem_slot_pos in Ha. rewrite (sres_step _ _ s s s) by done.
  destruct (delete_slot _ _ _) as [[l' d]| |] eqn:Hdel; [|by apply sync_step_refl..].
  unfold set_slots. erewrite sres_step by done. unfold remove_mem_slot. erewrite sres_step by done.
  apply delete_slot_pos in Hdel as (i & m & Hi & Hg & Hz & -> & ->). cbn [index guest_addr ms_host_addr].
  destruct (proj2 (proj2 Hs) i m Hi ltac:(lia)) as [Hk ->].
  set (kr := mkMemorySlot _ _ _ _ _). unfold ioctl, mbind, sres_bind. cbn [kernel kml mem_slots].
  pose proof (kview_del (kernel s) kr eq_refl) as Hkv.
  destruct (set_user_memory_region (kernel s) kr) as [k' ok] eqn:Ek. cbn [fst snd] in Hkv.
  destruct (table_sync_insert _ _ (kview (kernel s)) (kview k') i m
    (mkSlot (Z.of_nat i) (guest_addr m) 0 (ms_host_addr m)) Hs Hi) as [Hs' Hl]; [done|simpl; lia| |].
  { intros j Hj. rewrite Hkv. destruct ok; [|done]. by apply lookup_delete_ne, not_eq_sym. }
  destruct ok; (split; [exact Hs'|]); intros j Hj; destruct (Hl j Hj) as [|(-> & _ & Hin)]; auto.
  - rewrite Hkv, lookup_delete_eq in Hin. by destruct Hin.
  - right. split; [|done]. exists m. split_and!; [done|lia|]. fold kr. by rewrite Ek.
Qed.

(** A slot that was filled for the kernel and given back when it refused. *)
Lemma table_sync_undo a l kv addr size ha l1 idx l2 d :
  table_sync a l kv -> 0 < size -> overlapping (mkRange addr size) l = None ->
  fill_slot 0 l addr size ha = Some (l1, idx) -> delete_slot l1 addr size = Ok (l2, d) ->
  table_sync a l2 kv /\ forall i, leftover a l2 kv i -> leftover a l kv i.
Proof.
  intros Hs Hsz Hov Hfill Hdel. apply fill_slot_pos in Hfill as (i & m & Hi & Hz & -> & ->).
  apply delete_slot_pos in Hdel as (j & mj & Hj & Hg & Hzj & -> & ->).
  apply list_lookup_insert_Some in Hj as [(<- & <- & Hlt)|[Hne Hj]].
  - rewrite list_insert_insert_eq. cbn [index guest_addr ms_host_addr].
    destruct (table_sync_insert a l kv kv i m (mkSlot (wrap 32 (0 + Z.of_nat i)) addr 0 ha) Hs Hi)
      as [Hs' Hl]; [done|simpl; lia|done|].
    split; [done|]. intros j Hj. destruct (Hl j Hj) as [|(-> & _ & Hin)]; [done|]. by exists m.
  - exfalso. pose proof (overlapping_None_inv _ _ _ _ Hov Hj) as Hn.
    unfold find_intersection in Hn. cbn in Hn. zcases; done || lia.
Qed.

Lemma table_sync_fill a l k addr size ha l1 idx m :
  table_sync a l (kview k) -> 0 < size -> fill_slot 0 l addr size ha = Some (l1, idx) ->
  slot m = slot_key idx a -> region_triple m = (addr, size, ha) ->
  (set_user_memory_region (K := K) k m).2 = true ->
  let kv' := kview (set_user_memory_region k m).1 in
  table_sync a l1 kv' /\ forall i, leftover a l1 kv' i -> leftover a l (kview k) i.
Proof.
  intros Hs Hsz Hfill Hslot Htri Hk kv'. apply fill_slot_pos in Hfill as (i & m0 & Hi & Hz & Hidx & ->).
  assert (idx = Z.of_nat i) as ->.
  { apply lookup_lt_Some in Hi. destruct Hs as (Hlen & _). rewrite Hidx. apply wrap_small. unfold inW. lia. }
  injection Htri as Hga Hmz Hha. unfold kv'. rewrite kview_set, Hk by lia.
  destruct (table_sync_insert a l (kview k) (<[slot m := m]> (kview k)) i m0
    (mkSlot (Z.of_nat i) addr size ha) Hs Hi) as [Hs' Hl]; [simpl; lia| | |].
  - intros _. split; [|done]. rewrite Hslot, lookup_insert_eq. unfold region_triple. simpl.
    rewrite in_use_busy by done. simpl. by rewrite Hga, Hmz, Hha.
  - intros j Hj. rewrite lookup_insert_ne by congruence. done.
  - split; [done|]. intros j Hj. destruct (Hl j Hj) as [|(_ & Hz' & _)]; [done|]. simpl in Hz'. lia.
Qed.

Lemma fill_then_delete l addr size ha l1 idx :
  slots_wf l -> 0 < size -> fill_slot 0 l addr size ha = Some (l1, idx) ->
  exists l2 d, delete_slot l1 addr size = Ok (l2, d).
Proof.
  intros Hw Hsz Hfill. apply fill_slot_pos in Hfill as (i & m0 & Hi & Hz & _ & ->).
  set (new := mkSlot idx addr size ha).
  pose proof (delete_slot_spec addr size (<[i := new]> l) Hsz) as Hspec.
  assert (slots_wf (<[i := new]> l)) as Hw' by (apply Forall_insert; [done|simpl; lia]).
  destruct (delete_slot _ _ _) as [[l2 d]| |]; [by eexists _, _| |by specialize (Hspec Hw')].
  exfalso. apply (Hspec Hw' ha). apply list_elem_of_omap. exists new. split.
  - apply list_elem_of_lookup. exists i. apply list_lookup_insert_eq. by eapply lookup_lt_Some.
  - by apply in_use_busy.
Qed.

Lemma add_region_sync st fr s :
  ksync s -> sync_step s (add_region page st fr s).1 (refuses_delete s).
Proof.
  intros Hs. unfold add_region. destruct (st !! owner fr) as [r|]; [|by apply sync_step_refl].
  cbn [unwrap]. rewrite slift_Ok_bind.
  destruct (rom_io_mode r) as [[]| |]; [| |by apply sync_step_refl..]; rewrite slift_Ok_bind.
  { pose proof (delete_region_sync st fr s Hs) as Hd. unfold signore.
    destruct (delete_region page st fr s) as [s' []]; destruct Hd as [Hd1 Hd2]; split; try done;
      intros i Hi; destruct (Hd2 i Hi) as [|[]]; auto. }
  destruct (negb _); [by apply sync_step_refl|].
  destruct (align_mem_slot (addr_range fr) page) as [a| |] eqn:Ha; [|by apply sync_step_refl..].
  rewrite slift_Ok_bind. apply align_mem_slot_pos in Ha.
  destruct (get_host_address r) as [hva|]; [|by apply sync_step_refl]. cbn [unwrap].
  rewrite slift_Ok_bind, (sres_step _ _ s s s) by done.
  set (h := wadd 64 (wadd 64 hva _) _). unfold get_free_slot.
  destruct (overlapping _ _) eqn:Hov; [by apply sync_step_refl|].
  destruct (fill_slot _ _ _ _ _) as [[l1 idx]|] eqn:Hfill; [|by apply sync_step_refl].
  rewrite slift_Ok_bind. unfold set_slots at 1. erewrite sres_step by done.
  set (kr := mkMemorySlot _ _ _ _ _).
  assert (exists ms, forall s0, add_mem_slot (K := K) kr s0 =
    (mkKvm (kml s0) (ms (mem_slots s0)) (kernel s0), Ok tt)) as [ms Hms].
  { unfold add_mem_slot. destruct (negb _); [exists id; by intros []|by eexists]. }
  rewrite (sres_step _ _ _ _ _ (Hms _)). cbn [kml mem_slots kernel].
  destruct (set_user_memory_region (kernel s) kr) as [k' []] eqn:Ek.
  - erewrite sres_step by (unfold ioctl; cbn [kernel]; by rewrite Ek).
    replace k' with (set_user_memory_region (kernel s) kr).1 by (by rewrite Ek).
    destruct (table_sync_fill (as_id (kml s)) (slots (kml s)) (kernel s) _ _ _ _ _ kr Hs Ha Hfill)
      as [Hs' Hl]; [done|done|by rewrite Ek|].
    split; [exact Hs'|]. intros i Hi. left. by apply Hl.
  - erewrite sres_step by (unfold ioctl; cbn [kernel]; by rewrite Ek).
    pose proof (kview_set (kernel s) kr Ha) as Hkv. rewrite Ek in Hkv. simpl in Hkv.
    cbv beta iota. erewrite (sres_step sget) by done. cbn [kml slots].
    destruct (fill_then_delete (slots (kml s)) (ar_base a) (ar_size a) h l1 idx) as (l2 & d & Hdel);
      [apply Hs|done|done|].
    rewrite Hdel, slift_Ok_bind. unfold set_slots. erewrite sres_step by done.
    destruct (table_sync_undo _ _ _ _ _ _ _ _ _ _ Hs Ha Hov Hfill Hdel) as [Hs' Hl].
    unfold sync_step, ksync, kleft. cbn. rewrite Hkv. auto.
Qed.

Lemma ioevent_sync io f e s R :
  (forall k fd a d, kview (f k fd a d).1 = kview k) -> ksync s ->
  sync_step s (ioevent io f e s).1 R.
Proof.
  intros Hf Hs. unfold ioevent. destruct (datamatch e) as [d| |]; [|by apply sync_step_refl..].
  rewrite slift_Ok_bind. unfold ioctl, mbind, sres_bind.
  pose proof (Hf (kernel s) (fd e) (io (ar_base (evt_range e))) d) as H.
  destruct (f _ _ _ _) as [k' []]; unfold sync_step, ksync, kleft in *; simpl in *; rewrite H; auto.
Qed.

(** C31: whatever the request and whatever its outcome, success or error of
    any kind, every slot in use in the table is a slot of the kernel, with
    the same guest address, size and host address.  The kernel holds a slot
    the table calls free only if it did before the request, or if it refused
    to delete that slot in this request ([delete_region] frees the slot first
    and does not take it back); a deletion request then fails with the
    ioctl's error.  So while the kernel refuses no deletion a slot is in use
    exactly when the kernel has it. *)
Theorem kvm_table_kernel_sync st fr ev t s :
  ksync s ->
  let '(s', r) := kml_handle_request page st fr ev t s in
  ksync s' /\
  forall i, kleft s' i ->
    kleft s i \/ refuses_delete s i /\ (t = AddRegion \/ t = DeleteRegion /\ r = Err EKvm).
Proof.
  intros Hs. destruct t, fr as [f|], ev as [e|]; cbn [kml_handle_request ok_or];
    rewrite ?slift_Ok_bind; try (by apply sync_step_refl);
    lazymatch goal with
    | |- context [add_region] =>
      pose proof (add_region_sync st f s Hs) as [H1 H2]; destruct (add_region page st f s);
      split; [done|]; intros i Hi; destruct (H2 i Hi); auto
    | |- context [delete_region] =>
      pose proof (delete_region_sync st f s Hs) as H; destruct (delete_region page st f s);
      destruct H as [H1 H2]; split; [done|]; intros i Hi; destruct (H2 i Hi) as [|[]]; auto
    | |- context [add_ioeventfd] =>
      pose proof (ioevent_sync Mmio register_ioevent e s (fun _ => False) kview_reg Hs) as [H1 H2];
      unfold add_ioeventfd; destruct (ioevent _ _ e s); split; [done|];
      intros i Hi; destruct (H2 i Hi); auto; done
    | |- context [delete_ioeventfd] =>
      pose proof (ioevent_sync Mmio unregister_ioevent e s (fun _ => False) kview_unreg Hs) as [H1 H2];
      unfold delete_ioeventfd; destruct (ioevent _ _ e s); split; [done|];
      intros i Hi; destruct (H2 i Hi); auto; done
    end.
Qed.
End sync.

(** A kernel that keeps the slots in a map, refuses more than one, and
    refuses to delete the slots of guest address 0x3000. *)
Definition small_set (k : gmap Z MemorySlot) (m : MemorySlot) : gmap Z MemorySlot * bool :=
  if memory_size m =? 0 then
    if guest_phys_addr m =? 0x3000 then (k, false) else (delete (slot m) k, true)
  else if bool_decide (k = ∅) then (<[slot m := m]> k, true) else (k, false).
#[local] Instance small_kernel : KvmKernel (gmap Z MemorySlot) := {|
  set_user_memory_region := small_set;
  register_ioevent := fun k _ _ _ => (k, true);
  unregister_ioevent := fun k _ _ _ => (k, true) |}.
#[local] Instance small_kernel_spec : KvmKernelSpec (gmap Z MemorySlot).
Proof.
  refine {| kview := fun k => k |}; try done.
  - intros k m Hm. simpl. unfold small_set. zcases; [lia|lia|]. by case_bool_decide.
  - intros k m Hm. simpl. unfold small_set. rewrite Hm. by destruct (_ =? 0x3000).
Defined.

Definition ex_small_0 : KvmState (gmap Z MemorySlot) := mkKvm (kml_new 2) ∅ ∅.
Lemma ex_small_sync : ksync ex_small_0.
Proof.
  split_and!.
  - vm_compute. done.
  - repeat constructor; simpl; lia.
  - intros i m Hi. destruct i as [|[|i]]; simplify_eq/=; lia.
Qed.

(** The kernel refuses a second range, whose slot is given back; and it
    refuses to delete a range, whose slot is left in the kernel. *)
Example kvm_table_kernel_sync_witness :
  let add (i : nat) := kml_handle_request 0x1000 ex_kvm_store (ex_new !! i) None AddRegion in
  let s1 := (add 0%nat ex_small_0).1 in
  let s2 := (add 1%nat ex_small_0).1 in
  let '(s3, r) := kml_handle_request 0x1000 ex_kvm_store (ex_new !! 1%nat) None DeleteRegion s2 in
  ksync (add 1%nat s1).1 /\ (add 1%nat s1).2 = Err EKvm /\ ksync s3 /\ kleft s3 0 /\ r = Err EKvm.
Proof.
  pose proof (kvm_table_kernel_sync 0x1000 ex_kvm_store (ex_new !! 0%nat) None AddRegion _ ex_small_sync) as H1.
  destruct (kml_handle_request _ _ (ex_new !! 0%nat) _ _ ex_small_0) as [s1 r1] eqn:E1.
  pose proof (kvm_table_kernel_sync 0x1000 ex_kvm_store (ex_new !! 1%nat) None AddRegion _ ex_small_sync) as H2.
  destruct (kml_handle_request _ _ (ex_new !! 1%nat) _ _ ex_small_0) as [s2 r2] eqn:E2.
  pose proof (kvm_table_kernel_sync 0x1000 ex_kvm_store (ex_new !! 1%nat) None AddRegion s1 (proj1 H1)) as H3.
  pose proof (kvm_table_kernel_sync 0x1000 ex_kvm_store (ex_new !! 1%nat) None DeleteRegion s2 (proj1 H2)) as H4.
  vm_compute in E1, E2. injection E1 as <- _. injection E2 as <- _. cbn [fst].
  destruct (kml_handle_request _ _ _ _ DeleteRegion _) as [s3 r3] eqn:E3.
  split_and!; [|vm_compute; reflexivity|exact (proj1 H4)| |].
  - destruct (kml_handle_request _ _ _ _ AddRegion _) as [s4 r4]. exact (proj1 H3).
  - vm_compute in E3. injection E3 as <- _. eexists. split_and!; [reflexivity|reflexivity|vm_compute; by eexists].
  - vm_compute in E3. by injection E3 as _ <-.
Defined.

(** A region the kernel refused stays recorded in [KVM_FDS], where dirty
    logging would find it, although its slot was given back. *)
Example refused_region_stays_recorded :
  let s := mkKvm (kml_new 2) ∅ (∅ : gmap Z MemorySlot) in
  let s1 := (kml_handle_request 0x1000 ex_kvm_store (ex_new !! 0%nat) None AddRegion s).1 in
  let '(s2, out) := kml_handle_request 0x1000 ex_kvm_store (ex_new !! 1%nat) None AddRegion s1 in
  out = Err EKvm /\ active (slots (kml s2)) = [(0, 0x2000, 0x7f0000000000)] /\
  is_Some (mem_slots s2 !! 1).
Proof. vm_compute. split_and!; [done|done|by eexists]. Qed.
