(* ===== verification/SplitVring.v ===== *)
(** * The split virtqueue ([virtio/src/queue/split.rs], [virtio/src/queue/mod.rs])

    The configuration of a queue, the descriptors in guest memory, and the
    operations of [VringOps] on a [SplitVring].  Rings and descriptors are
    read from and written to host memory ([read_object_direct],
    [write_object_direct]), so their state is the ring together with the
    [Mach] of [FlatView.v]; the region store and the flat view of the address
    space are fixed.  Memory fences order the accesses of two processors and
    have no counterpart in a sequential model. *)
From stdpp Require Import prelude list gmap.
From Stdlib Require Import ZArith Lia.
From S2P Require Import Prelude Address Region FlatView.

Definition INVALID_VECTOR_NUM : Z := 0xFFFF.
Definition VIRTQ_DESC_F_NEXT : Z := 1.
Definition VIRTQ_DESC_F_WRITE : Z := 2.
Definition VIRTQ_DESC_F_INDIRECT : Z := 4.
Definition VRING_AVAIL_F_NO_INTERRUPT : Z := 1.
Definition VRING_USED_F_NO_NOTIFY : Z := 1.
Definition DESC_CHAIN_MAX_TOTAL_LEN : Z := 2 ^ 32.
Definition USEDELEM_LEN : Z := 8.
Definition AVAILELEM_LEN : Z := 2.
Definition VRING_AVAIL_LEN_EXCEPT_AVAILELEM : Z := 6.
Definition VRING_USED_LEN_EXCEPT_USEDELEM : Z := 6.
Definition VRING_FLAGS_AND_IDX_LEN : Z := 4.
Definition VRING_IDX_POSITION : Z := 2.
Definition DESCRIPTOR_LEN : Z := 16.
Definition VIRTIO_F_RING_EVENT_IDX : Z := 29.
Definition VIRTIO_F_VERSION_1 : Z := 32.

Definition virtio_has_feature (feature fbit : Z) : bool :=
  negb (Z.land feature (wshl 64 1 fbit) =? 0).

(** The errors of these files; [VBail] is a [bail!] or a missing address. *)
Inductive VirtioError :=
| QueueIndex (index size : Z)
| AddressOverflow (base offset : Z)
| QueueDescInvalid
| VBail.

Record VirtioAddrCache := mkAddrCache {
  desc_table_host : Z;
  avail_ring_host : Z;
  used_ring_host : Z
}.

Record QueueConfig := mkConfig {
  desc_table : Z;
  avail_ring : Z;
  used_ring : Z;
  addr_cache : VirtioAddrCache;
  max_size : Z;
  q_size : Z;
  ready : bool;
  vector : Z;
  next_avail : Z;
  next_used : Z;
  last_signal_used : Z;
  signal_used_valid : bool
}.

Definition qc_new (max : Z) : QueueConfig :=
  mkConfig 0 0 0 (mkAddrCache 0 0 0) max max false INVALID_VECTOR_NUM 0 0 0 false.
Definition qc_reset (c : QueueConfig) : QueueConfig := qc_new (max_size c).

Definition get_desc_size (c : QueueConfig) : Z := Z.min (q_size c) (max_size c) * DESCRIPTOR_LEN.
Definition get_used_size (c : QueueConfig) (features : Z) : Z :=
  (if virtio_has_feature features VIRTIO_F_RING_EVENT_IDX then 2 else 0) +
  VRING_FLAGS_AND_IDX_LEN + Z.min (q_size c) (max_size c) * USEDELEM_LEN.
Definition get_avail_size (c : QueueConfig) (features : Z) : Z :=
  (if virtio_has_feature features VIRTIO_F_RING_EVENT_IDX then 2 else 0) +
  VRING_FLAGS_AND_IDX_LEN + Z.min (q_size c) (max_size c) * 2.

Record SplitVringFlagsIdx := mkFlagsIdx { fi_flags : Z; fi_idx : Z }.

Record SplitVringDesc := mkDesc {
  d_addr : Z;
  d_len : Z;
  d_flags : Z;
  d_next : Z
}.

Record ElemIovec := mkElemIovec { ei_addr : Z; ei_len : Z }.

Record Element := mkElement {
  e_index : Z;
  desc_num : Z;
  out_iovec : list ElemIovec;
  in_iovec : list ElemIovec
}.
Definition element_new (index : Z) : Element := mkElement index 0 [] [].
Definition iovec_size (iov : list ElemIovec) : Z :=
  foldl (fun size e => wadd 64 size (ei_len e)) 0 iov.

Record DescInfo := mkDescInfo {
  table_host : Z;
  di_size : Z;
  di_index : Z;
  di_desc : SplitVringDesc
}.

(** ** Descriptor flags *)

Definition has_next (d : SplitVringDesc) : bool := negb (Z.land (d_flags d) VIRTQ_DESC_F_NEXT =? 0).
Definition write_only (d : SplitVringDesc) : bool := negb (Z.land (d_flags d) VIRTQ_DESC_F_WRITE =? 0).
Definition is_indirect_desc (d : SplitVringDesc) : bool :=
  negb (Z.land (d_flags d) VIRTQ_DESC_F_INDIRECT =? 0).
Definition is_valid_indirect_desc (d : SplitVringDesc) : bool :=
  if (d_len d =? 0) || negb (d_len d `mod` DESCRIPTOR_LEN =? 0) || (0xFFFF <? d_len d / DESCRIPTOR_LEN)
  then false
  else if has_next d then false
  else true.
Definition get_desc_num (d : SplitVringDesc) : Z := wrap 16 (d_len d / DESCRIPTOR_LEN).

(** A descriptor from its 16 bytes in memory ([repr(C)]). *)
Definition desc_of_bytes (b : list Z) : SplitVringDesc :=
  mkDesc (le_val (slice b 0 8)) (le_val (slice b 8 4)) (le_val (slice b 12 2)) (le_val (slice b 14 2)).

Record SplitVring := mkVring {
  cache : option RegionCache;
  queue_config : QueueConfig
}.
Definition vring_new (c : QueueConfig) : SplitVring := mkVring None c.

Definition with_next_avail (c : QueueConfig) (n : Z) : QueueConfig :=
  mkConfig (desc_table c) (avail_ring c) (used_ring c) (addr_cache c) (max_size c) (q_size c)
    (ready c) (vector c) n (next_used c) (last_signal_used c) (signal_used_valid c).
Definition with_next_used (c : QueueConfig) (n : Z) : QueueConfig :=
  mkConfig (desc_table c) (avail_ring c) (used_ring c) (addr_cache c) (max_size c) (q_size c)
    (ready c) (vector c) (next_avail c) n (last_signal_used c) (signal_used_valid c).
Definition with_signal (c : QueueConfig) (last : Z) (valid : bool) : QueueConfig :=
  mkConfig (desc_table c) (avail_ring c) (used_ring c) (addr_cache c) (max_size c) (q_size c)
    (ready c) (vector c) (next_avail c) (next_used c) last valid.
Definition with_addr_cache (c : QueueConfig) (ac : VirtioAddrCache) : QueueConfig :=
  mkConfig (desc_table c) (avail_ring c) (used_ring c) ac (max_size c) (q_size c)
    (ready c) (vector c) (next_avail c) (next_used c) (last_signal_used c) (signal_used_valid c).

(** The ring and the machine it lives in. *)
Record VState := mkV { ring : SplitVring; mach : Mach unit }.

Section vring.
Context (st : store) (fv : list FlatRange).

Abbreviation VM := (sres VState VirtioError).

(** ** Host memory *)

(** [read_object_direct]/[write_object_direct]: the copy is between buffers
    of the same length and does not fail; the write marks the dirty log. *)
Definition read_direct (h : Z) (n : nat) : VM (list Z) :=
  fun s => (s, Ok (mem_read (hmem (mach s)) h n)).
Definition write_direct (h : Z) (d : list Z) : VM unit :=
  fun s => let m := mach s in
    (mkV (ring s) (mkMach (mem_write (hmem m) h d) (dirty m ++ [(h, Z.of_nat (length d))]) (dev m)), Ok tt).
Definition read_u16 (h : Z) : VM Z := b ← read_direct h 2; mret (le_val b).

(** The result of a call, for code that handles the error itself. *)
Definition stry {S E A} (m : sres S E A) : sres S E (option A) := fun s =>
  match m s with
  | (s, Ok a) => (s, Ok (Some a))
  | (s, Err _) => (s, Ok None)
  | (s, Panic) => (s, Panic)
  end.

Definition get_config : VM QueueConfig := fun s => (s, Ok (queue_config (ring s))).
Definition set_config (c : QueueConfig) : VM unit :=
  fun s => (mkV (mkVring (cache (ring s)) c) (mach s), Ok tt).
Definition get_cache : VM (option RegionCache) := fun s => (s, Ok (cache (ring s))).
Definition set_cache (rc : option RegionCache) : VM unit :=
  fun s => (mkV (mkVring rc (queue_config (ring s))) (mach s), Ok tt).

(** ** Descriptors *)

Definition checked_offset_mem (base offset : Z) : res VirtioError Z :=
  if address_in_memory st fv base offset then Ok (unchecked_add base offset) else Err VBail.

(** [is_valid] may fill the region cache. *)
Definition desc_is_valid (d : SplitVringDesc) (queue_size : Z) : VM bool :=
  if d_len d =? 0 then mret false
  else
    rc ← get_cache;
    cached ← (match rc with
      | Some c =>
        match checked_add 64 (d_addr d) (d_len d) with
        | None => mret None
        | Some e => mret (Some ((c_start c <? d_addr d) && (e <? c_end c)))
        end
      | None =>
        match get_region_cache st fv (d_addr d) with
        | Some c =>
          if bool_decide (reg_type c = Ram) then _ ← set_cache (Some c); mret (Some false)
          else mret (Some false)
        | None => mret (Some false)
        end
      end);
    match cached with
    | None => mret false
    | Some hit =>
      if negb hit && negb (is_ok (checked_offset_mem (d_addr d) (d_len d))) then mret false
      else if has_next d && (queue_size <=? d_next d) then mret false
      else mret true
    end.

Definition desc_new (table queue_size index : Z) : VM SplitVringDesc :=
  if queue_size <=? index then sfail (QueueIndex index queue_size)
  else
    let off := index * DESCRIPTOR_LEN in
    desc_addr ← slift (ok_or (checked_add 64 table off) (AddressOverflow table off));
    b ← read_direct desc_addr 16;
    let desc := desc_of_bytes b in
    valid ← desc_is_valid desc queue_size;
    if valid : bool then mret desc else sfail QueueDescInvalid.

Definition next_desc (table queue_size index : Z) : VM SplitVringDesc :=
  desc_new table queue_size index.

(** The loop of [get_element].  [elem] is the element under construction;
    the caller's element is only used when the call succeeds. *)
Fixpoint get_element_loop (fuel : nat) (table desc_size queue_size : Z) (indirect : bool)
    (desc : SplitVringDesc) (write_elem_count desc_total_len : Z) (elem : Element) : VM Element :=
  match fuel with
  | O => slift Panic
  | S fuel =>
    if desc_size <=? desc_num elem then sfail VBail
    else if is_indirect_desc desc then
      if negb (is_valid_indirect_desc desc) then sfail QueueDescInvalid
      else if indirect then sfail VBail
      else
        rc ← get_cache;
        host ← slift (ok_or (get_host_address_from_cache st fv (d_addr desc) rc) VBail);
        let queue_size := get_desc_num desc in
        d ← next_desc (fst host) queue_size 0;
        desc_size ← slift (ok_or (checked_add 16 (desc_num elem) queue_size) VBail);
        get_element_loop fuel (fst host) desc_size queue_size true d write_elem_count desc_total_len elem
    else
      let iovec := mkElemIovec (d_addr desc) (d_len desc) in
      if negb (write_only desc) && (0 <? write_elem_count) then sfail VBail
      else
        let elem :=
          if write_only desc
          then mkElement (e_index elem) (wadd 16 (desc_num elem) 1) (out_iovec elem) (in_iovec elem ++ [iovec])
          else mkElement (e_index elem) (wadd 16 (desc_num elem) 1) (out_iovec elem ++ [iovec]) (in_iovec elem) in
        let count := if write_only desc then wadd 32 write_elem_count 1 else write_elem_count in
        let total := wadd 64 desc_total_len (ei_len iovec) in
        if has_next desc then
          d ← next_desc table queue_size (d_next desc);
          get_element_loop fuel table desc_size queue_size indirect d count total elem
        else if DESC_CHAIN_MAX_TOTAL_LEN <? total then sfail VBail
        else mret elem
  end.

(** Enough for every chain: [desc_num] is a [u16] that grows in each turn but
    the one that enters an indirect table. *)
Definition element_fuel : nat := Z.to_nat 65538.

Definition get_element (info : DescInfo) (elem : Element) : VM Element :=
  get_element_loop element_fuel (table_host info) (di_size info) (di_size info) false (di_desc info) 0 0
    (mkElement (di_index info) (desc_num elem) (out_iovec elem) (in_iovec elem)).

(** ** Rings *)

Definition actual_size (c : QueueConfig) : Z := Z.min (q_size c) (max_size c).

Definition read_flags_idx (h : Z) : VM SplitVringFlagsIdx :=
  b ← read_direct h 4; mret (mkFlagsIdx (le_val (slice b 0 2)) (le_val (slice b 2 2))).
Definition get_avail_flags_idx : VM SplitVringFlagsIdx :=
  c ← get_config; read_flags_idx (avail_ring_host (addr_cache c)).
Definition get_avail_idx : VM Z := f ← get_avail_flags_idx; mret (fi_idx f).
Definition get_avail_flags : VM Z := f ← get_avail_flags_idx; mret (fi_flags f).
Definition get_used_flags_idx : VM SplitVringFlagsIdx :=
  c ← get_config; read_flags_idx (used_ring_host (addr_cache c)).
Definition get_used_idx : VM Z := f ← get_used_flags_idx; mret (fi_idx f).

Definition set_used_flags (suppress : bool) : VM unit :=
  f ← get_used_flags_idx;
  c ← get_config;
  let flags := if suppress then Z.lor (fi_flags f) VRING_USED_F_NO_NOTIFY
               else Z.land (fi_flags f) (wnot 16 VRING_USED_F_NO_NOTIFY) in
  write_direct (used_ring_host (addr_cache c)) (le_bytes 2 flags ++ le_bytes 2 (fi_idx f)).

Definition set_avail_event (event_idx : Z) : VM unit :=
  c ← get_config;
  let off := VRING_FLAGS_AND_IDX_LEN + USEDELEM_LEN * actual_size c in
  write_direct (wadd 64 (used_ring_host (addr_cache c)) off) (le_bytes 2 event_idx).

Definition get_used_event : VM Z :=
  c ← get_config;
  let off := VRING_FLAGS_AND_IDX_LEN + AVAILELEM_LEN * actual_size c in
  read_u16 (wadd 64 (avail_ring_host (addr_cache c)) off).

Definition is_avail_ring_no_interrupt : VM bool :=
  o ← stry get_avail_flags;
  match o with
  | Some flags => mret (negb (Z.land flags VRING_AVAIL_F_NO_INTERRUPT =? 0))
  | None => mret false
  end.

Definition used_ring_need_event : VM bool :=
  c ← get_config;
  let old := last_signal_used c in
  o_new ← stry get_used_idx;
  match o_new with
  | None => mret false
  | Some new =>
    o_ev ← stry get_used_event;
    match o_ev with
    | None => mret false
    | Some used_event_idx =>
      let valid := signal_used_valid c in
      _ ← set_config (with_signal c new true);
      mret (negb valid || (wsub 16 (wsub 16 new used_event_idx) 1 <? wsub 16 new old))
    end
  end.

Definition is_overlap (start1 end1 start2 end2 : Z) : bool :=
  negb ((end2 <=? start1) || (end1 <=? start2)).

Definition is_invalid_memory (c : QueueConfig) (size : Z) : bool :=
  match checked_offset_mem (desc_table c) (DESCRIPTOR_LEN * size) with
  | Ok desc_table_end =>
    match checked_offset_mem (avail_ring c) (VRING_AVAIL_LEN_EXCEPT_AVAILELEM + AVAILELEM_LEN * size) with
    | Ok desc_avail_end =>
      match checked_offset_mem (used_ring c) (VRING_USED_LEN_EXCEPT_USEDELEM + USEDELEM_LEN * size) with
      | Ok desc_used_end =>
        if is_overlap (desc_table c) desc_table_end (avail_ring c) desc_avail_end ||
           is_overlap (avail_ring c) desc_avail_end (used_ring c) desc_used_end ||
           is_overlap (desc_table c) desc_table_end (used_ring c) desc_used_end then true
        else if negb (Z.land (desc_table c) 0xf =? 0) then true
        else if negb (Z.land (avail_ring c) 0x1 =? 0) then true
        else if negb (Z.land (used_ring c) 0x3 =? 0) then true
        else false
      | _ => true
      end
    | _ => true
    end
  | _ => true
  end.

Definition get_vring_element (features : Z) (elem : Element) : VM Element :=
  c ← get_config;
  if actual_size c =? 0 then slift Panic
  else
    let index_offset := VRING_FLAGS_AND_IDX_LEN + AVAILELEM_LEN * (next_avail c `mod` actual_size c) in
    desc_index ← read_u16 (wadd 64 (avail_ring_host (addr_cache c)) index_offset);
    desc ← desc_new (desc_table_host (addr_cache c)) (actual_size c) desc_index;
    _ ← (if virtio_has_feature features VIRTIO_F_RING_EVENT_IDX
         then set_avail_event (wadd 16 (next_avail c) 1) else mret tt);
    e ← get_element (mkDescInfo (desc_table_host (addr_cache c)) (actual_size c) desc_index desc) elem;
    c ← get_config;
    _ ← set_config (with_next_avail c (wadd 16 (next_avail c) 1));
    mret e.

(** ** [VringOps for SplitVring] *)

Definition is_enabled : VM bool := c ← get_config; mret (ready c).

Definition vring_is_valid (c : QueueConfig) : bool :=
  if negb (ready c) then false
  else if (max_size c <? q_size c) || (q_size c =? 0) ||
          negb (Z.land (q_size c) (wsub 16 (q_size c) 1) =? 0) then false
  else negb (is_invalid_memory c (actual_size c)).

Definition avail_ring_len : VM Z :=
  avail_idx ← get_avail_idx;
  c ← get_config;
  mret (wsub 16 avail_idx (next_avail c)).

Definition pop_avail (features : Z) : VM Element :=
  let element := element_new 0 in
  enabled ← is_enabled;
  if negb enabled then mret element
  else
    n ← avail_ring_len;
    if n =? 0 then mret element
    else get_vring_element features element.

Definition push_back : VM unit :=
  c ← get_config; set_config (with_next_avail c (wsub 16 (next_avail c) 1)).

Definition add_used (index len : Z) : VM unit :=
  c ← get_config;
  if q_size c <=? index then sfail (QueueIndex index (q_size c))
  else if actual_size c =? 0 then slift Panic
  else
    let slot := next_used c `mod` actual_size c in
    let used_elem_addr :=
      wadd 64 (wadd 64 (used_ring_host (addr_cache c)) VRING_FLAGS_AND_IDX_LEN) (slot * USEDELEM_LEN) in
    _ ← write_direct used_elem_addr (le_bytes 4 index ++ le_bytes 4 len);
    let c := with_next_used c (wadd 16 (next_used c) 1) in
    _ ← set_config c;
    _ ← write_direct (wadd 64 (used_ring_host (addr_cache c)) VRING_IDX_POSITION) (le_bytes 2 (next_used c));
    if next_used c =? last_signal_used c then set_config (with_signal c (last_signal_used c) false)
    else mret tt.

Definition should_notify (features : Z) : VM bool :=
  if virtio_has_feature features VIRTIO_F_RING_EVENT_IDX then used_ring_need_event
  else b ← is_avail_ring_no_interrupt; mret (negb b).

Definition suppress_queue_notify (features : Z) (suppress : bool) : VM unit :=
  if virtio_has_feature features VIRTIO_F_RING_EVENT_IDX
  then idx ← get_avail_idx; set_avail_event idx
  else set_used_flags suppress.

Definition get_queue_config (s : SplitVring) : QueueConfig :=
  let c := queue_config s in with_signal c (last_signal_used c) false.

(** ** [QueueConfig::set_addr_cache]

    [report_virtio_error] sends a configuration interrupt to the driver and
    marks the device broken; its effect is the number of reports. *)
Definition cached_host (addr need : Z) : Z * nat :=
  match addr_cache_init st fv addr with
  | Some (host, size) => if size <? need then (0, 1%nat) else (host, 0%nat)
  | None => (0, 0%nat)
  end.
Definition set_addr_cache (c : QueueConfig) (features : Z) : QueueConfig * nat :=
  let '(d, r1) := cached_host (desc_table c) (get_desc_size c) in
  let '(a, r2) := cached_host (avail_ring c) (get_avail_size c features) in
  let '(u, r3) := cached_host (used_ring c) (get_used_size c features) in
  (with_addr_cache c (mkAddrCache d a u), (r1 + r2 + r3)%nat).
End vring.

(** * Theorems *)

Section facts.
Context (st : store) (fv : list FlatRange).
Context (Hview : view_ok st fv).
(** Memory regions have a host mapping ([init_ram_region] gives them one). *)
Context (Hram : forall o r, st !! o = Some r -> region_type r = Ram -> is_Some (mem_mapping r)).

(** ** The region cache *)

(** The cache is empty or holds the memory region of some address. *)
Definition cache_ok (rc : option RegionCache) : Prop :=
  match rc with
  | None => True
  | Some c => exists a, 0 <= a /\ get_region_cache st fv a = Some c /\ reg_type c = Ram
  end.

(** The range a region cache was taken from. *)
Lemma cached_range c : cache_ok (Some c) ->
  exists fr r, fr ∈ fv /\ st !! owner fr = Some r /\ region_type r = Ram /\
    c_start c = ar_base (addr_range fr) /\
    c_end c = ar_base (addr_range fr) + ar_size (addr_range fr) /\
    0 <= ar_base (addr_range fr) /\ c_end c < 2 ^ 64.
Proof.
  intros (a & Ha & Hc & Ht). unfold get_region_cache in Hc. pose proof Hview as (Hok & _).
  pose proof (find_flatrange_spec fv a Hok Ha) as Hf.
  destruct (find_flatrange fv a) as [fr|]; [|done]. destruct Hf as [Hin _].
  cbn in Hc. destruct (st !! owner fr) as [r|] eqn:Hr; [|done]. cbn in Hc. injection Hc as <-. cbn in *.
  pose proof Hin as [i Hi]%list_elem_of_lookup. destruct (flat_ok_lookup _ _ _ _ Hok Hi) as (? & ? & ?).
  exists fr, r. rewrite end_addr_small by lia. split_and!; try done; lia.
Qed.

Lemma cache_hit_in_memory c a n :
  cache_ok (Some c) -> 0 <= n -> c_start c < a -> a + n < c_end c -> address_in_memory st fv a n = true.
Proof.
  intros (fr & r & Hin & Hr & Ht & Hs & He & ? & ?)%cached_range Hn Ha Hend.
  unfold address_in_memory. rewrite (find_flatrange_covers fv fr a); [|apply Hview|lia|done|apply covers_spec; lia].
  rewrite Hr, Ht, bool_decide_eq_true_2 by done. cbn [andb]. apply Z.leb_le. rewrite end_addr_small by lia.
  unfold offset_from. rewrite wsub_small by (unfold inW; lia). lia.
Qed.

Lemma cache_lookup rc a :
  cache_ok rc -> is_u64 a -> get_host_address_from_cache st fv a rc = addr_cache_init st fv a.
Proof.
  destruct rc as [c|]; [|done]. intros (a0 & Ha0 & Hc & Ht) Ha.
  apply (region_cache_lookup st fv a0); try done; [by rewrite Ht|].
  unfold get_region_cache in Hc. pose proof Hview as (Hok & _).
  pose proof (find_flatrange_spec fv a0 Hok Ha0) as Hf.
  destruct (find_flatrange fv a0) as [fr|] eqn:Hfind; [|done].
  cbn in Hc. destruct (st !! owner fr) as [r|] eqn:Hr; [|done]. cbn in Hc. injection Hc as <-. cbn in Ht.
  unfold hva_at, translate_at. rewrite flat_lookup_find, Hfind by done. cbn. rewrite Hr. cbn. rewrite Ht. cbn.
  destruct (Hram _ _ Hr Ht) as [mm ->]. by eexists.
Qed.

(** ** Descriptors *)

(** What [is_valid] decides, without the cache. *)
Definition valid_desc (d : SplitVringDesc) (queue_size : Z) : bool :=
  negb (d_len d =? 0) && address_in_memory st fv (d_addr d) (d_len d) &&
  negb (has_next d && (queue_size <=? d_next d)).

Definition desc_wf (d : SplitVringDesc) : Prop :=
  is_u64 (d_addr d) /\ is_u32 (d_len d) /\ is_u16 (d_flags d) /\ is_u16 (d_next d).

(** Same ring, except for a valid cache. *)
Definition same_but_cache (s s' : VState) : Prop :=
  mach s' = mach s /\ queue_config (ring s') = queue_config (ring s) /\ cache_ok (cache (ring s')).

Lemma address_in_memory_end a n : 0 <= a -> address_in_memory st fv a n = true -> a + n < 2 ^ 64.
Proof.
  intros Ha. unfold address_in_memory. pose proof Hview as (Hok & _).
  pose proof (find_flatrange_spec fv a Hok Ha) as Hf.
  destruct (find_flatrange fv a) as [fr|]; [|done]. destruct Hf as [Hin Hc%covers_spec].
  pose proof Hin as [i Hi]%list_elem_of_lookup. destruct (flat_ok_lookup _ _ _ _ Hok Hi) as (? & ? & ?).
  destruct (st !! owner fr); [|done]. intros [_ Hle%Z.leb_le]%andb_true_iff.
  rewrite end_addr_small in Hle by lia. unfold offset_from in Hle.
  rewrite wsub_small in Hle by (unfold inW; lia). lia.
Qed.

Lemma desc_is_valid_spec d qs s :
  cache_ok (cache (ring s)) -> desc_wf d ->
  exists s', desc_is_valid st fv d qs s = (s', Ok (valid_desc d qs)) /\ same_but_cache s s'.
Proof.
  intros Hc (Ha & Hl & _ & _). unfold desc_is_valid, valid_desc, checked_offset_mem.
  destruct (Z.eqb_spec (d_len d) 0); cbn [negb andb]; [by exists s|].
  rewrite (sres_step _ _ s s (cache (ring s))) by done.
  destruct (cache (ring s)) as [c|] eqn:Ec.
  - unfold checked_add. destruct (Z.ltb_spec (d_addr d + d_len d) (2 ^ 64)).
    + rewrite sret_bind. exists s. split; [|split_and!; try done; by rewrite Ec].
      destruct (Z.ltb_spec (c_start c) (d_addr d)), (Z.ltb_spec (d_addr d + d_len d) (c_end c)); cbn [andb negb].
      1: rewrite (cache_hit_in_memory c) by (done || unfold inW in *; lia); cbn [andb];
         by destruct (has_next d && _).
      all: destruct (address_in_memory st fv (d_addr d) (d_len d)); cbn [is_ok negb andb]; [|done];
        by destruct (has_next d && _).
    + rewrite sret_bind. exists s. split; [|split_and!; try done; by rewrite Ec].
      destruct (address_in_memory st fv (d_addr d) (d_len d)) eqn:E; [|done].
      apply address_in_memory_end in E; unfold inW in *; lia.
  - assert (forall s1, (match Some false with
        | Some hit => if negb hit && negb (is_ok (if address_in_memory st fv (d_addr d) (d_len d)
            then Ok (unchecked_add (d_addr d) (d_len d)) else Err VBail)) then mret false
          else if has_next d && (qs <=? d_next d) then mret false else mret true
        | None => mret false end : sres VState VirtioError bool) s1 =
      (s1, Ok (address_in_memory st fv (d_addr d) (d_len d) && negb (has_next d && (qs <=? d_next d))))) as Hfin.
    { intros s1. destruct (address_in_memory st fv (d_addr d) (d_len d)); cbn; [|done].
      by destruct (has_next d && _). }
    destruct (get_region_cache st fv (d_addr d)) as [c|] eqn:Eg;
      [case_bool_decide as Hty|]; rewrite ?sret_bind.
    + unfold set_cache. erewrite sres_step by (erewrite sres_step by done; done).
      eexists. split; [apply Hfin|]. split_and!; try done. cbn. exists (d_addr d). unfold inW in *. split_and!; done || lia.
    + exists s. split; [apply Hfin|]. split_and!; try done. by rewrite Ec.
    + exists s. split; [apply Hfin|]. split_and!; try done. by rewrite Ec.
Qed.

Lemma desc_of_bytes_wf b : is_bytes b -> (length b = 16)%nat -> desc_wf (desc_of_bytes b).
Proof.
  intros Hb Hl. unfold desc_wf, desc_of_bytes. cbn.
  assert (forall o n, is_bytes (slice b o n)) as Hs
    by (intros; apply Forall_take, Forall_drop, Hb).
  pose proof (le_val_bound _ (Hs 0%nat 8%nat)) as H1. pose proof (le_val_bound _ (Hs 8%nat 4%nat)) as H2.
  pose proof (le_val_bound _ (Hs 12%nat 2%nat)) as H3. pose proof (le_val_bound _ (Hs 14%nat 2%nat)) as H4.
  rewrite slice_length in H1, H2, H3, H4 by lia. done.
Qed.

(** Memory holds bytes. *)
Definition bytes_mem (m : Z -> Z) : Prop := forall x, is_u8 (m x).

Lemma mem_read_bytes m h n : bytes_mem m -> is_bytes (mem_read m h n).
Proof. intros Hm. unfold mem_read, ztab, is_bytes. apply Forall_fmap, Forall_true. intros. apply Hm. Qed.

(** The descriptor at an index of a table, if it is in range and valid. *)
Definition fetch (m : Z -> Z) (table qs i : Z) : option SplitVringDesc :=
  if (i <? qs) && (table + i * DESCRIPTOR_LEN <? 2 ^ 64) then
    let d := desc_of_bytes (mem_read m (table + i * DESCRIPTOR_LEN) 16) in
    if valid_desc d qs then Some d else None
  else None.

Lemma fetch_wf m table qs i d : bytes_mem m -> fetch m table qs i = Some d ->
  desc_wf d /\ valid_desc d qs = true.
Proof.
  intros Hm. unfold fetch. destruct (_ && _); [|done].
  destruct (valid_desc _ qs) eqn:Hv; [|done]. intros [= <-]. split; [|done].
  apply desc_of_bytes_wf; [by apply mem_read_bytes|apply ztab_length].
Qed.

Lemma desc_new_spec table qs i s :
  bytes_mem (hmem (mach s)) -> cache_ok (cache (ring s)) ->
  exists s' out, desc_new st fv table qs i s = (s', out) /\ same_but_cache s s' /\
    match fetch (hmem (mach s)) table qs i with
    | Some d => out = Ok d
    | None => exists e, out = Err e
    end.
Proof.
  intros Hm Hc. assert (same_but_cache s s) as Hrefl by done. unfold desc_new, fetch.
  destruct (Z.leb_spec qs i), (Z.ltb_spec i qs); try lia; cbn [andb]; [eexists _, _; split_and!; eauto; done|].
  unfold checked_add. destruct (Z.ltb_spec (table + i * DESCRIPTOR_LEN) (2 ^ 64)); cbn [ok_or].
  2:{ eexists _, _. split_and!; [done..|]. by eexists. }
  rewrite slift_Ok_bind. unfold read_direct. erewrite sres_step by done.
  set (d := desc_of_bytes _). destruct (desc_is_valid_spec d qs s) as (s' & Hv & Hs'); [done| |].
  { apply desc_of_bytes_wf; [by apply mem_read_bytes|apply ztab_length]. }
  rewrite (sres_step _ _ _ _ _ Hv). destruct (valid_desc d qs); eexists _, _; split_and!; try done; try apply Hs'.
  by eexists.
Qed.

(** ** Chains *)

(** [walk ind t q lim k d ds]: starting at descriptor [d] of the table at
    [t] with [q] entries, with [k] of at most [lim] descriptors taken, the
    buffers of the request are those of [ds]: following [next], and once
    ([ind] says whether it has happened) descending into the table an
    indirect descriptor points to. *)
Inductive walk (m : Z -> Z) : bool -> Z -> Z -> Z -> Z -> SplitVringDesc -> list SplitVringDesc -> Prop :=
| walk_last ind t q lim k d :
    k < lim -> is_indirect_desc d = false -> has_next d = false -> walk m ind t q lim k d [d]
| walk_next ind t q lim k d d' ds :
    k < lim -> is_indirect_desc d = false -> has_next d = true ->
    fetch m t q (d_next d) = Some d' -> walk m ind t q lim (k + 1) d' ds ->
    walk m ind t q lim k d (d :: ds)
| walk_indirect t q lim k d h n d' ds :
    k < lim -> is_indirect_desc d = true -> is_valid_indirect_desc d = true ->
    addr_cache_init st fv (d_addr d) = Some (h, n) ->
    fetch m h (get_desc_num d) 0 = Some d' -> k + get_desc_num d < 2 ^ 16 ->
    walk m true h (get_desc_num d) (k + get_desc_num d) k d' ds ->
    walk m false t q lim k d ds.

Definition buffers (ds : list SplitVringDesc) : list ElemIovec :=
  (fun d => mkElemIovec (d_addr d) (d_len d)) <$> ds.
Definition reads (ds : list SplitVringDesc) : list ElemIovec :=
  buffers (filter (fun d => write_only d = false) ds).
Definition writes (ds : list SplitVringDesc) : list ElemIovec :=
  buffers (filter (fun d => write_only d = true) ds).
(** No readable buffer after a writable one; [w]: one was seen already. *)
Fixpoint ordered (w : bool) (ds : list SplitVringDesc) : bool :=
  match ds with
  | [] => true
  | d :: ds => if write_only d then ordered true ds else negb w && ordered w ds
  end.
Definition total_len (ds : list SplitVringDesc) : Z := foldr (fun d n => d_len d + n) 0 ds.

Lemma total_len_cons d ds : total_len (d :: ds) = d_len d + total_len ds.
Proof. done. Qed.

(** What the loop returns, as a function of the walk. *)
Definition loop_post (m : Z -> Z) (ind : bool) (t lim q : Z) (d : SplitVringDesc) (count total : Z)
    (elem : Element) (out : res VirtioError Element) : Prop :=
  out <> Panic /\ forall e, out = Ok e <-> exists ds,
    walk m ind t q lim (desc_num elem) d ds /\ ordered (0 <? count) ds = true /\
    total + total_len ds <= DESC_CHAIN_MAX_TOTAL_LEN /\
    e = mkElement (e_index elem) (desc_num elem + Z.of_nat (length ds))
          (out_iovec elem ++ reads ds) (in_iovec elem ++ writes ds).

Lemma walk_nonneg m ind t q lim k d ds : walk m ind t q lim k d ds -> desc_wf d -> bytes_mem m -> 0 <= total_len ds.
Proof.
  intros Hw. induction Hw as [ind t q lim k d|ind t q lim k d d' ds ? ? ? Hf ? IH|t q lim k d h n d' ds ? ? ? ? Hf ? ? IH];
    intros Hd Hm; simpl.
  - unfold desc_wf, inW in Hd. lia.
  - specialize (IH (proj1 (fetch_wf _ _ _ _ _ Hm Hf)) Hm). unfold desc_wf, inW in Hd. lia.
  - apply IH; [|done]. by eapply fetch_wf.
Qed.

Lemma loop_post_err m ind t lim q d count total elem e :
  (forall ds, walk m ind t q lim (desc_num elem) d ds -> ordered (0 <? count) ds = true ->
     total + total_len ds <= DESC_CHAIN_MAX_TOTAL_LEN -> False) ->
  loop_post m ind t lim q d count total elem (Err e).
Proof. intros H. split; [done|]. intros e'. split; [done|]. intros (ds & ? & ? & ? & _). by exfalso; eapply H. Qed.

(** Closes a goal where the loop fails because no walk leaves this state. *)
Ltac no_walk :=
  eexists _, _; split_and!; [done..|]; apply loop_post_err; intros ? Hw; inversion Hw; subst;
  congruence || lia.

(** The element after one more buffer. *)
Definition step_elem (d : SplitVringDesc) (elem : Element) : Element :=
  if write_only d
  then mkElement (e_index elem) (wadd 16 (desc_num elem) 1) (out_iovec elem)
         (in_iovec elem ++ [mkElemIovec (d_addr d) (d_len d)])
  else mkElement (e_index elem) (wadd 16 (desc_num elem) 1)
         (out_iovec elem ++ [mkElemIovec (d_addr d) (d_len d)]) (in_iovec elem).
Definition step_count (d : SplitVringDesc) (count : Z) : Z :=
  if write_only d then wadd 32 count 1 else count.

Lemma step_elem_final d elem ds :
  0 <= desc_num elem < 65535 ->
  desc_num (step_elem d elem) = desc_num elem + 1 /\
  mkElement (e_index (step_elem d elem)) (desc_num (step_elem d elem) + Z.of_nat (length ds))
    (out_iovec (step_elem d elem) ++ reads ds) (in_iovec (step_elem d elem) ++ writes ds) =
  mkElement (e_index elem) (desc_num elem + Z.of_nat (length (d :: ds)))
    (out_iovec elem ++ reads (d :: ds)) (in_iovec elem ++ writes (d :: ds)).
Proof.
  intros Hk. unfold step_elem, reads, writes, buffers. rewrite !filter_cons.
  destruct (write_only d) eqn:Hw; cbn [desc_num e_index out_iovec in_iovec];
    rewrite wadd_small by (unfold inW; lia); (split; [done|]);
    repeat (rewrite decide_True by done || rewrite decide_False by done);
    cbn [length]; rewrite <-?app_assoc; f_equal; lia.
Qed.
Lemma step_count_ordered d count ds :
  0 <= count < 2 ^ 16 -> negb (write_only d) && (0 <? count) = false ->
  ordered (0 <? count) (d :: ds) = ordered (0 <? step_count d count) ds.
Proof.
  intros Hc Ho. unfold step_count. cbn [ordered]. destruct (write_only d); cbn [negb andb] in *.
  - rewrite wadd_small by (unfold inW; lia). by rewrite (proj2 (Z.ltb_lt 0 (count + 1))) by lia.
  - by rewrite Ho.
Qed.

(** The walk that continues after a buffer. *)
Lemma loop_post_next m ind t lim q d d' count total elem out :
  is_indirect_desc d = false -> has_next d = true -> fetch m t q (d_next d) = Some d' ->
  0 <= desc_num elem < lim -> lim < 2 ^ 16 -> 0 <= count < 2 ^ 16 ->
  negb (write_only d) && (0 <? count) = false ->
  loop_post m ind t lim q d' (step_count d count) (total + d_len d) (step_elem d elem) out ->
  loop_post m ind t lim q d count total elem out.
Proof.
  intros Hi Hn Hf Hk Hlim Hc Ho [Hp Hiff]. split; [done|]. intros e. rewrite Hiff. split.
  - intros (ds & Hw & Hord & Ht & ->). destruct (step_elem_final d elem ds) as [Hnum ->]; [lia|].
    rewrite Hnum in Hw. exists (d :: ds). split_and!; [by eapply walk_next; [lia|..]| |rewrite ?total_len_cons; cbn [total_len foldr]; lia|done].
    by rewrite step_count_ordered.
  - intros (ds & Hw & Hord & Ht & ->). inversion Hw; subst; try congruence.
    assert (d'0 = d') as -> by congruence.
    exists ds0. destruct (step_elem_final d elem ds0) as [Hnum <-]; [lia|]. rewrite Hnum.
    split_and!; [done|by rewrite <-step_count_ordered|rewrite total_len_cons in Ht; lia|done].
Qed.

Lemma loop_post_last m ind t lim q d count total elem :
  is_indirect_desc d = false -> has_next d = false ->
  0 <= desc_num elem < lim -> lim < 2 ^ 16 -> 0 <= count < 2 ^ 16 ->
  negb (write_only d) && (0 <? count) = false ->
  loop_post m ind t lim q d count total elem
    (if DESC_CHAIN_MAX_TOTAL_LEN <? total + d_len d then Err VBail else Ok (step_elem d elem)).
Proof.
  intros Hi Hn Hk Hlim Hc Ho. destruct (step_elem_final d elem []) as [Hnum Hfin]; [lia|].
  assert (step_elem d elem = mkElement (e_index elem) (desc_num elem + Z.of_nat (length [d]))
    (out_iovec elem ++ reads [d]) (in_iovec elem ++ writes [d])) as Hstep.
  { rewrite <-Hfin. destruct (step_elem d elem). cbn. by rewrite !app_nil_r, Z.add_0_r. }
  destruct (Z.ltb_spec DESC_CHAIN_MAX_TOTAL_LEN (total + d_len d)).
  - apply loop_post_err. intros ds Hw _ Ht. inversion Hw; subst; try congruence. cbn in Ht. lia.
  - split; [done|]. intros e. split.
    + intros [= <-]. exists [d]. split_and!; [by apply walk_last; [lia|..]| |rewrite ?total_len_cons; cbn [total_len foldr]; lia|done].
      by rewrite step_count_ordered.
    + intros (ds & Hw & _ & _ & ->). inversion Hw; subst; try congruence.
Qed.

Lemma same_but_cache_trans s1 s2 s3 : same_but_cache s1 s2 -> same_but_cache s2 s3 -> same_but_cache s1 s3.
Proof. intros (? & ? & ?) (? & ? & ?). split_and!; congruence. Qed.

Lemma loop_post_indirect m t lim q d h n d' count total elem out :
  is_indirect_desc d = true -> is_valid_indirect_desc d = true ->
  addr_cache_init st fv (d_addr d) = Some (h, n) -> fetch m h (get_desc_num d) 0 = Some d' ->
  desc_num elem + get_desc_num d < 2 ^ 16 -> desc_num elem < lim ->
  loop_post m true h (desc_num elem + get_desc_num d) (get_desc_num d) d' count total elem out ->
  loop_post m false t lim q d count total elem out.
Proof.
  intros Hi Hv Hh Hf Hn Hlim [Hp Hiff]. split; [done|]. intros e. rewrite Hiff. split.
  - intros (ds & Hw & ? & ? & ?). exists ds. split_and!; try done. by eapply walk_indirect.
  - intros (ds & Hw & ? & ? & ?). exists ds. split_and!; try done.
    inversion Hw; subst; try congruence.
Qed.

Lemma get_element_loop_spec fuel : forall t lim q ind d count total elem s,
  let k := desc_num elem in
  bytes_mem (hmem (mach s)) -> cache_ok (cache (ring s)) -> desc_wf d ->
  0 <= k < 2 ^ 16 -> lim < 2 ^ 16 -> 0 <= count <= k -> 0 <= total <= k * 2 ^ 32 ->
  (if ind : bool then 0 else 1) + (65536 - k) < Z.of_nat fuel ->
  exists s' out, get_element_loop st fv fuel t lim q ind d count total elem s = (s', out) /\
    same_but_cache s s' /\ loop_post (hmem (mach s)) ind t lim q d count total elem out.
Proof.
  induction fuel as [|fuel IH]; intros t lim q ind d count total elem s k Hm Hc Hd Hk Hlim Hcount Htot Hfuel.
  { destruct ind; lia. }
  assert (same_but_cache s s) as Hrefl by done. cbn [get_element_loop]. fold k.
  destruct (Z.leb_spec lim k).
  { no_walk. }
  destruct (is_indirect_desc d) eqn:Hi.
  - destruct (is_valid_indirect_desc d) eqn:Hv; cbn [negb].
    2:{ no_walk. }
    destruct ind.
    { no_walk. }
    rewrite (sres_step _ _ s s (cache (ring s))) by done. rewrite cache_lookup by (done || apply Hd).
    destruct (addr_cache_init st fv (d_addr d)) as [[h n]|] eqn:Hh; cbn [ok_or].
    2:{ no_walk. }
    rewrite slift_Ok_bind. cbn [fst]. unfold next_desc.
    destruct (desc_new_spec h (get_desc_num d) 0 s Hm Hc) as (s1 & out & E1 & Hs1 & Hfetch).
    destruct (fetch (hmem (mach s)) h (get_desc_num d) 0) as [d'|] eqn:Hf.
    2:{ destruct Hfetch as [e ->]. exists s1, (Err e). split_and!; [by unfold mbind, sres_bind; rewrite E1|apply Hs1..|].
        apply loop_post_err. intros ds Hw. inversion Hw; subst; congruence. }
    subst out. rewrite (sres_step _ _ _ _ _ E1). unfold checked_add.
    destruct (Z.ltb_spec (k + get_desc_num d) (2 ^ 16)); cbn [ok_or].
    2:{ eexists _, _. split_and!; [done|apply Hs1..|]. apply loop_post_err. intros ds Hw.
        inversion Hw; subst; try congruence. unfold k in *. lia. }
    rewrite slift_Ok_bind. destruct (IH h (k + get_desc_num d) (get_desc_num d) true d' count total elem s1)
      as (s2 & out & E2 & Hs2 & Hp); try done; try (fold k; lia).
    { by rewrite (proj1 Hs1). } { apply Hs1. } { by eapply fetch_wf. }
    exists s2, out. split_and!; [done|by apply (same_but_cache_trans s s1)..|].
    rewrite (proj1 Hs1) in Hp. by eapply loop_post_indirect.
  - destruct (negb (write_only d) && (0 <? count)) eqn:Ho.
    { eexists _, _. split_and!; [done..|]. apply loop_post_err. intros ds Hw Hord.
      apply andb_true_iff in Ho as [Hwo%negb_true_iff Hcnt].
      inversion Hw; subst; try congruence; cbn [ordered] in Hord; rewrite Hwo, Hcnt in Hord; done. }
    cbn [ei_len]. pose proof Hd as (_ & Hlen & _). unfold inW in Hlen.
    rewrite (wadd_small 64) by (unfold inW; lia).
    fold (step_elem d elem). fold (step_count d count).
    destruct (has_next d) eqn:Hn.
    2:{ pose proof (loop_post_last (hmem (mach s)) ind t lim q d count total elem) as Hlast.
        destruct (DESC_CHAIN_MAX_TOTAL_LEN <? total + d_len d); eexists _, _; (split_and!; [done..|]);
          apply Hlast; done || lia. }
    destruct (desc_new_spec t q (d_next d) s Hm Hc) as (s1 & out & E1 & Hs1 & Hfetch).
    destruct (fetch (hmem (mach s)) t q (d_next d)) as [d'|] eqn:Hf.
    2:{ destruct Hfetch as [e ->]. exists s1, (Err e). split_and!; [by unfold next_desc, mbind, sres_bind; rewrite E1|apply Hs1..|].
        apply loop_post_err. intros ds Hw. inversion Hw; subst; congruence. }
    subst out. unfold next_desc. rewrite (sres_step _ _ _ _ _ E1).
    destruct (step_elem_final d elem []) as [Hnum _]; [fold k; lia|].
    assert (0 <= step_count d count <= k + 1) as Hc'
      by (unfold step_count; destruct (write_only d); rewrite ?wadd_small by (unfold inW; lia); lia).
    destruct (IH t lim q ind d' (step_count d count) (total + d_len d) (step_elem d elem) s1)
      as (s2 & out & E2 & Hs2 & Hp); try done; try (rewrite Hnum; fold k; destruct ind; lia).
    { by rewrite (proj1 Hs1). } { apply Hs1. } { by eapply fetch_wf. }
    exists s2, out. split_and!; [done|by apply (same_but_cache_trans s s1)..|].
    rewrite (proj1 Hs1) in Hp. eapply loop_post_next; done || lia.
Qed.

(** ** Taking a request off the ring *)

Lemma mem_write_bytes m h d : bytes_mem m -> is_bytes d -> bytes_mem (mem_write m h d).
Proof.
  intros Hm Hd x. unfold mem_write. destruct (_ && _); [|apply Hm].
  destruct (d !! Z.to_nat (x - h)) as [b|] eqn:E; cbn; [|unfold inW; lia]. by eapply Forall_lookup_1.
Qed.

Lemma slice_mem_read m h n o k :
  (o + k <= n)%nat -> slice (mem_read m h n) o k = mem_read m (h + Z.of_nat o) k.
Proof.
  intros Hle. unfold slice, mem_read. apply list_eq. intros i. destruct (decide (i < k)%nat).
  - rewrite lookup_take_lt, lookup_drop, !ztab_lookup by lia. do 2 f_equal. lia.
  - rewrite !lookup_ge_None_2; [done|..]; rewrite ?length_take, ?length_drop, ztab_length; lia.
Qed.

Definition u16_at (m : Z -> Z) (h : Z) : Z := le_val (mem_read m h 2).

Definition config_wf (c : QueueConfig) : Prop :=
  is_u16 (q_size c) /\ is_u16 (max_size c) /\ is_u16 (next_avail c) /\ is_u16 (next_used c) /\
  is_u16 (last_signal_used c).

(** The memory the chain is read from: with [VIRTIO_F_RING_EVENT_IDX] the
    avail event was written first. *)
Definition event_mem (c : QueueConfig) (features : Z) (m : Z -> Z) : Z -> Z :=
  if virtio_has_feature features VIRTIO_F_RING_EVENT_IDX then
    mem_write m (wadd 64 (used_ring_host (addr_cache c)) (VRING_FLAGS_AND_IDX_LEN + USEDELEM_LEN * actual_size c))
      (le_bytes 2 (wadd 16 (next_avail c) 1))
  else m.

Lemma event_mem_bytes c features m : bytes_mem m -> bytes_mem (event_mem c features m).
Proof.
  intros Hm. unfold event_mem. destruct (virtio_has_feature _ _); [|done].
  apply mem_write_bytes; [done|apply le_bytes_is_bytes].
Qed.

(** The requests the ring offers at the next available entry. *)
Definition offered (c : QueueConfig) (features : Z) (m : Z -> Z) (e : Element) : Prop :=
  let n := actual_size c in
  let table := desc_table_host (addr_cache c) in
  let head := u16_at m (wadd 64 (avail_ring_host (addr_cache c))
                (VRING_FLAGS_AND_IDX_LEN + AVAILELEM_LEN * (next_avail c `mod` n))) in
  exists d ds, fetch m table n head = Some d /\
    walk (event_mem c features m) false table n n 0 d ds /\ ordered false ds = true /\
    total_len ds <= DESC_CHAIN_MAX_TOTAL_LEN /\
    e = mkElement head (Z.of_nat (length ds)) (reads ds) (writes ds).

Lemma element_fuel_Z : Z.of_nat element_fuel = 65538.
Proof. unfold element_fuel. by rewrite Z2Nat.id. Qed.
Opaque element_fuel.

Lemma get_element_spec info s :
  bytes_mem (hmem (mach s)) -> cache_ok (cache (ring s)) -> desc_wf (di_desc info) -> di_size info < 2 ^ 16 ->
  exists s' out, get_element st fv info (element_new 0) s = (s', out) /\ same_but_cache s s' /\
    out <> Panic /\ forall e, out = Ok e <-> exists ds,
      walk (hmem (mach s)) false (table_host info) (di_size info) (di_size info) 0 (di_desc info) ds /\
      ordered false ds = true /\ total_len ds <= DESC_CHAIN_MAX_TOTAL_LEN /\
      e = mkElement (di_index info) (Z.of_nat (length ds)) (reads ds) (writes ds).
Proof.
  intros Hm Hc Hd Hsz.
  destruct (get_element_loop_spec element_fuel (table_host info) (di_size info) (di_size info) false
    (di_desc info) 0 0 (mkElement (di_index info) 0 [] []) s)
    as (s' & out & E & Hs & Hp & Hiff); cbn [desc_num];
    [done|done|done|lia|done|lia|lia|rewrite element_fuel_Z; lia|].
  exists s', out. split_and!; [exact E|apply Hs..|done|]. exact Hiff.
Qed.

Lemma set_avail_event_spec features c s :
  queue_config (ring s) = c ->
  exists s', ((if virtio_has_feature features VIRTIO_F_RING_EVENT_IDX
              then set_avail_event (wadd 16 (next_avail c) 1) else mret tt) s = (s', Ok tt)) /\
    ring s' = ring s /\ hmem (mach s') = event_mem c features (hmem (mach s)).
Proof.
  intros <-. unfold event_mem, set_avail_event. destruct (virtio_has_feature _ _); [|by exists s].
  erewrite sres_step by done. unfold write_direct. eexists. split; [done|]. done.
Qed.

Lemma u16_at_range m h : bytes_mem m -> is_u16 (u16_at m h).
Proof.
  intros Hm. pose proof (le_val_bound (mem_read m h 2) (mem_read_bytes m h 2 Hm)) as H.
  unfold mem_read in H. by rewrite ztab_length in H.
Qed.

Lemma avail_ring_len_spec s :
  avail_ring_len s = (s, Ok (wsub 16 (u16_at (hmem (mach s)) (avail_ring_host (addr_cache (queue_config (ring s))) + 2))
                                    (next_avail (queue_config (ring s))))).
Proof.
  unfold avail_ring_len, get_avail_idx, get_avail_flags_idx, read_flags_idx, read_direct, get_config,
    mbind, sres_bind. cbn [mret sres_ret fi_idx]. by rewrite slice_mem_read by lia.
Qed.

Lemma wsub16_zero a b : is_u16 a -> is_u16 b -> (wsub 16 a b =? 0) = (a =? b).
Proof.
  intros [? ?] [? ?]. unfold wsub, wrap. destruct (Z.eqb_spec a b) as [->|Hne].
  - by rewrite Z.sub_diag.
  - apply Z.eqb_neq. intros Hz%Z.mod_divide; [|lia]. destruct Hz as [k Hk]. nia.
Qed.

Lemma get_vring_element_spec features s :
  let c := queue_config (ring s) in
  bytes_mem (hmem (mach s)) -> cache_ok (cache (ring s)) -> config_wf c -> 0 < actual_size c ->
  exists s' out, get_vring_element st fv features (element_new 0) s = (s', out) /\ out <> Panic /\
    cache_ok (cache (ring s')) /\ (forall e, out = Ok e <-> offered c features (hmem (mach s)) e) /\
    (hmem (mach s') = hmem (mach s) \/ hmem (mach s') = event_mem c features (hmem (mach s))) /\
    queue_config (ring s') = if is_ok out then with_next_avail c (wadd 16 (next_avail c) 1) else c.
Proof.
  intros c Hm Hc Hcfg Hn. unfold get_vring_element. rewrite (sres_step _ _ s s c) by done.
  destruct (Z.eqb_spec (actual_size c) 0); [lia|]. unfold read_u16.
  rewrite (sres_step _ _ s s (u16_at (hmem (mach s)) (wadd 64 (avail_ring_host (addr_cache c))
    (VRING_FLAGS_AND_IDX_LEN + AVAILELEM_LEN * (next_avail c `mod` actual_size c))))) by done.
  unfold offered. set (head := u16_at _ _). set (tbl := desc_table_host (addr_cache c)).
  destruct (desc_new_spec tbl (actual_size c) head s Hm Hc) as (s1 & out1 & E1 & (Hm1 & Hq1 & Hc1) & Hfetch).
  destruct (fetch (hmem (mach s)) tbl (actual_size c) head) as [d|] eqn:Hf.
  2:{ destruct Hfetch as [err ->]. exists s1, (Err err). split_and!; [by unfold mbind, sres_bind; rewrite E1|done|done| |left; congruence|done].
      intros e. split; [done|]. by intros (? & ? & ? & _). }
  subst out1. rewrite (sres_step _ _ _ _ _ E1). apply fetch_wf in Hf as Hd; [|done]. destruct Hd as [Hd _].
  destruct (set_avail_event_spec features c s1 Hq1) as (s2 & E2 & Hr2 & Hm2). rewrite (sres_step _ _ _ _ _ E2).
  rewrite Hm1 in Hm2.
  destruct (get_element_spec (mkDescInfo tbl (actual_size c) head d) s2) as (s3 & out3 & E3 & (Hm3 & Hq3 & Hc3) & Hp & Hiff).
  { rewrite Hm2. by apply event_mem_bytes. } { by rewrite Hr2. } { done. }
  { unfold actual_size. destruct Hcfg as ([? ?] & ? & _). cbn. lia. }
  rewrite Hr2, Hq1 in Hq3. rewrite Hm2 in Hiff. cbn [table_host di_size di_index di_desc] in Hiff.
  assert (forall e, out3 = Ok e <-> exists d0 ds, Some d = Some d0 /\
    walk (event_mem c features (hmem (mach s))) false tbl (actual_size c) (actual_size c) 0 d0 ds /\
    ordered false ds = true /\ total_len ds <= DESC_CHAIN_MAX_TOTAL_LEN /\
    e = mkElement head (Z.of_nat (length ds)) (reads ds) (writes ds)) as Hiff'.
  { intros e. rewrite Hiff. split; [intros (ds & ?); by exists d, ds|]. intros (d0 & ds & [= <-] & ?). by exists ds. }
  destruct out3 as [e|err|]; [| |done].
  - rewrite (sres_step _ _ _ _ _ E3). rewrite (sres_step _ _ s3 s3 c) by (unfold get_config; by rewrite Hq3).
    eexists _, _. split; [done|]. cbn. split_and!; try done. right. congruence.
  - exists s3, (Err err). split_and!; try done; [|right; congruence]. unfold mbind, sres_bind. by rewrite E3.
Qed.

Lemma pop_avail_spec features s :
  let c := queue_config (ring s) in
  let m := hmem (mach s) in
  bytes_mem m -> cache_ok (cache (ring s)) -> config_wf c -> 0 < actual_size c ->
  let idle := negb (ready c) || (u16_at m (avail_ring_host (addr_cache c) + 2) =? next_avail c) in
  exists s' out, pop_avail st fv features s = (s', out) /\ out <> Panic /\ cache_ok (cache (ring s')) /\
    (hmem (mach s') = m \/ hmem (mach s') = event_mem c features m) /\
    (idle = true -> s' = s /\ out = Ok (element_new 0)) /\
    (idle = false ->
       (forall e, out = Ok e <-> offered c features m e) /\
       queue_config (ring s') = if is_ok out then with_next_avail c (wadd 16 (next_avail c) 1) else c).
Proof.
  intros c m Hm Hc Hcfg Hn idle. unfold pop_avail.
  rewrite (sres_step _ _ s s (ready c)) by done. unfold idle.
  destruct (ready c) eqn:Hready; cbn [negb orb].
  2:{ exists s, (Ok (element_new 0)). split_and!; try done. by left. }
  rewrite (sres_step _ _ _ _ _ (avail_ring_len_spec s)). fold c m.
  rewrite wsub16_zero by (by apply u16_at_range || apply Hcfg).
  destruct (u16_at m _ =? next_avail c); [exists s, (Ok (element_new 0)); split_and!; try done; by left|].
  destruct (get_vring_element_spec features s Hm Hc Hcfg Hn) as (s' & out & E & Hp & Hc' & Hiff & Hmem & Hq).
  exists s', out. split_and!; done.
Qed.

(** C8: taking a request off the available ring.  A queue that is not ready
    or has no new entry gives an empty element and nothing changes.
    Otherwise the call never panics and its chain loop terminates; it
    succeeds with an element exactly when the chain at the next entry is a
    well-formed request (descriptors in range and in guest memory, at most one
    indirect table, readable buffers before writable ones, no more than the
    allowed number of descriptors, at most 4 GiB), and the element lists the
    buffers of that chain in order.  Only a success advances [next_avail]. *)
Theorem pop_avail_correct features s :
  let c := queue_config (ring s) in
  let m := hmem (mach s) in
  bytes_mem m -> cache_ok (cache (ring s)) -> config_wf c -> 0 < actual_size c ->
  let idle := negb (ready c) || (u16_at m (avail_ring_host (addr_cache c) + 2) =? next_avail c) in
  exists s' out, pop_avail st fv features s = (s', out) /\ out <> Panic /\ cache_ok (cache (ring s')) /\
    (idle = true -> s' = s /\ out = Ok (element_new 0)) /\
    (idle = false ->
       (forall e, out = Ok e <-> offered c features m e) /\
       queue_config (ring s') = if is_ok out then with_next_avail c (wadd 16 (next_avail c) 1) else c).
Proof.
  intros c m Hm Hc Hcfg Hn idle.
  destruct (pop_avail_spec features s Hm Hc Hcfg Hn) as (s' & out & E & ? & ? & _ & ? & ?). by exists s', out.
Qed.

(** ** Confinement *)

(** Two memories that agree on the table at [t] with [q] entries. *)
Definition agree_table (m1 m2 : Z -> Z) (t q : Z) : Prop :=
  forall x, t <= x < t + DESCRIPTOR_LEN * q -> m1 x = m2 x.
(** ... and on every byte of guest memory. *)
Definition agree_ram (m1 m2 : Z -> Z) : Prop := forall a h, host_at st fv a = Some h -> m1 h = m2 h.

Lemma mem_read_agree m1 m2 h n :
  (forall x, h <= x < h + Z.of_nat n -> m1 x = m2 x) -> mem_read m1 h n = mem_read m2 h n.
Proof. intros H. unfold mem_read. apply ztab_ext. intros k Hk. apply H. lia. Qed.

Lemma fetch_agree m1 m2 t q i :
  0 <= i -> agree_table m1 m2 t q -> fetch m1 t q i = fetch m2 t q i.
Proof.
  intros Hi Ha. unfold fetch, DESCRIPTOR_LEN in *. destruct (Z.ltb_spec i q); cbn [andb]; [|done].
  rewrite (mem_read_agree m1 m2); [done|]. intros x Hx. apply Ha. unfold DESCRIPTOR_LEN. lia.
Qed.

(** The table of a valid indirect descriptor is guest memory. *)
Lemma indirect_table_agree m1 m2 d q h n :
  desc_wf d -> valid_desc d q = true -> is_valid_indirect_desc d = true ->
  addr_cache_init st fv (d_addr d) = Some (h, n) -> agree_ram m1 m2 ->
  agree_table m1 m2 h (get_desc_num d).
Proof.
  intros ([Ha _] & [Hl _] & _) Hv Hi Hh Hr. unfold valid_desc in Hv.
  apply andb_true_iff in Hv as [[Hlen%negb_true_iff%Z.eqb_neq Hin]%andb_true_iff _].
  destruct (address_in_memory_host st fv (d_addr d) (d_len d) Hview Hram Ha ltac:(lia) Hin)
    as (_ & h' & n' & Hh' & _ & _ & _ & Hall). rewrite Hh in Hh'. injection Hh' as <- <-.
  unfold is_valid_indirect_desc, DESCRIPTOR_LEN in Hi.
  assert (get_desc_num d * 16 = d_len d) as Hnum.
  { unfold get_desc_num, DESCRIPTOR_LEN. pose proof (Z.div_mod (d_len d) 16). zcases; cbn in Hi; try done.
    rewrite wrap_small; [|split; [apply Z.div_pos|]; lia]. lia. }
  intros x Hx. unfold DESCRIPTOR_LEN in Hx. apply (Hr (d_addr d + (x - h)) x). rewrite Hall by lia. f_equal. lia.
Qed.

Lemma walk_agree m1 m2 ind t q lim k d ds :
  bytes_mem m1 -> agree_ram m1 m2 -> walk m1 ind t q lim k d ds ->
  desc_wf d -> valid_desc d q = true -> agree_table m1 m2 t q -> walk m2 ind t q lim k d ds.
Proof.
  intros Hm Hr Hw. induction Hw as [ind t q lim k d|ind t q lim k d d' ds ? ? ? Hf ? IH
    |t q lim k d h n d' ds ? ? Hi Hh Hf ? ? IH]; intros Hd Hv Ht.
  - by apply walk_last.
  - destruct (fetch_wf _ _ _ _ _ Hm Hf). eapply walk_next; try done; [|by apply IH].
    rewrite <-(fetch_agree m1); [done|apply Hd|done].
  - assert (agree_table m1 m2 h (get_desc_num d)) as Ht' by (by eapply indirect_table_agree).
    destruct (fetch_wf _ _ _ _ _ Hm Hf). eapply walk_indirect; try done; [|by apply IH].
    by rewrite <-(fetch_agree m1).
Qed.

Lemma agree_write m1 m2 h d (P : Z -> Prop) :
  (forall x, P x -> m1 x = m2 x) -> forall x, P x -> mem_write m1 h d x = mem_write m2 h d x.
Proof. intros H x Hx. unfold mem_write. destruct (_ && _); auto. Qed.

Lemma event_mem_agree c features m1 m2 t q :
  agree_ram m1 m2 -> agree_table m1 m2 t q ->
  agree_ram (event_mem c features m1) (event_mem c features m2) /\
  agree_table (event_mem c features m1) (event_mem c features m2) t q.
Proof.
  intros Hr Ht. unfold event_mem. destruct (virtio_has_feature _ _); [|done]. split.
  - intros a h Ha. apply (agree_write _ _ _ _ (fun x => host_at st fv a = Some x)); [|done]. intros x Hx. by eapply Hr.
  - intros x Hx. by apply (agree_write _ _ _ _ (fun x => t <= x < t + DESCRIPTOR_LEN * q)).
Qed.

Lemma offered_agree c features m1 m2 e :
  bytes_mem m1 -> agree_ram m1 m2 -> agree_table m1 m2 (desc_table_host (addr_cache c)) (actual_size c) ->
  (let entry := wadd 64 (avail_ring_host (addr_cache c))
     (VRING_FLAGS_AND_IDX_LEN + AVAILELEM_LEN * (next_avail c `mod` actual_size c)) in
   forall x, entry <= x < entry + 2 -> m1 x = m2 x) ->
  offered c features m1 e -> offered c features m2 e.
Proof.
  intros Hm Hr Ht He (d & ds & Hf & Hw & Ho & Hl & ->). unfold offered.
  set (entry := wadd 64 _ _) in *.
  assert (u16_at m2 entry = u16_at m1 entry) as -> by (unfold u16_at; by rewrite (mem_read_agree m1 m2)).
  exists d, ds. destruct (fetch_wf _ _ _ _ _ Hm Hf). destruct (event_mem_agree c features m1 m2 _ _ Hr Ht).
  split_and!; try done.
  - rewrite <-(fetch_agree m1); [done|apply u16_at_range, Hm|done].
  - eapply (walk_agree (event_mem c features m1)); try done. by apply event_mem_bytes.
Qed.

(** C9: the host memory a guest can make the queue read is confined.  Two
    states of the same queue whose memories agree on the ring (the index and
    the next entry of the available ring, the descriptor table) and on guest
    memory give the same requests: an indirect table cannot point the device
    at other memory of the process. *)
Theorem pop_avail_confined features s1 s2 e :
  let c := queue_config (ring s1) in
  ring s2 = ring s1 -> cache_ok (cache (ring s1)) -> config_wf c -> 0 < actual_size c ->
  bytes_mem (hmem (mach s1)) -> bytes_mem (hmem (mach s2)) ->
  agree_ram (hmem (mach s1)) (hmem (mach s2)) ->
  agree_table (hmem (mach s1)) (hmem (mach s2)) (desc_table_host (addr_cache c)) (actual_size c) ->
  (let entry := wadd 64 (avail_ring_host (addr_cache c))
     (VRING_FLAGS_AND_IDX_LEN + AVAILELEM_LEN * (next_avail c `mod` actual_size c)) in
   forall x, entry <= x < entry + 2 -> hmem (mach s1) x = hmem (mach s2) x) ->
  (forall x, avail_ring_host (addr_cache c) + 2 <= x < avail_ring_host (addr_cache c) + 4 ->
     hmem (mach s1) x = hmem (mach s2) x) ->
  (pop_avail st fv features s1).2 = Ok e -> (pop_avail st fv features s2).2 = Ok e.
Proof.
  intros c Hring Hc Hcfg Hn Hb1 Hb2 Hr Ht Hent Hidx.
  destruct (pop_avail_spec features s1 Hb1 Hc Hcfg Hn) as (s1' & o1 & -> & _ & _ & _ & Hidle1 & Hact1).
  destruct (pop_avail_spec features s2) as (s2' & o2 & -> & _ & _ & _ & Hidle2 & Hact2); rewrite ?Hring; try done.
  rewrite Hring in Hidle2, Hact2. fold c in Hidle1, Hact1, Hidle2, Hact2.
  assert (u16_at (hmem (mach s2)) (avail_ring_host (addr_cache c) + 2) =
          u16_at (hmem (mach s1)) (avail_ring_host (addr_cache c) + 2)) as Heq
    by (unfold u16_at; f_equal; apply mem_read_agree; intros; symmetry; apply Hidx; lia).
  rewrite Heq in Hidle2, Hact2. cbn [snd].
  destruct (negb (ready c) || _).
  - destruct (Hidle1 eq_refl) as [_ ->], (Hidle2 eq_refl) as [_ ->]. done.
  - destruct (Hact1 eq_refl) as [Hiff1 _], (Hact2 eq_refl) as [Hiff2 _]. rewrite Hiff1, Hiff2.
    by apply offered_agree.
Qed.

(** [push_back] undoes [pop_avail]: the queue configuration is the one
    before, and (when no avail event is written) popping again gives the same
    element. *)
Theorem push_back_undoes_pop features s s1 e :
  let c := queue_config (ring s) in
  bytes_mem (hmem (mach s)) -> cache_ok (cache (ring s)) -> config_wf c -> 0 < actual_size c ->
  ready c = true -> u16_at (hmem (mach s)) (avail_ring_host (addr_cache c) + 2) <> next_avail c ->
  pop_avail st fv features s = (s1, Ok e) ->
  exists s2, push_back s1 = (s2, Ok tt) /\ queue_config (ring s2) = c /\
    (virtio_has_feature features VIRTIO_F_RING_EVENT_IDX = false ->
     (pop_avail st fv features s2).2 = Ok e).
Proof.
  intros c Hb Hc Hcfg Hn Hready Hne Hpop.
  destruct (pop_avail_spec features s Hb Hc Hcfg Hn) as (s1' & o1 & Hpop' & _ & Hc1 & Hm1 & _ & Hact1).
  rewrite Hpop in Hpop'. injection Hpop' as <- <-. fold c in Hact1.
  rewrite Hready, (proj2 (Z.eqb_neq _ _) Hne) in Hact1. destruct (Hact1 eq_refl) as [Hiff1 Hq1].
  unfold push_back. rewrite (sres_step _ _ s1 s1 (queue_config (ring s1))) by done.
  rewrite Hq1. cbn [is_ok]. unfold set_config. eexists. split; [done|]. cbn [ring queue_config mach].
  assert (with_next_avail (with_next_avail c (wadd 16 (next_avail c) 1))
    (wsub 16 (next_avail (with_next_avail c (wadd 16 (next_avail c) 1))) 1) = c) as Hback.
  { unfold with_next_avail. cbn. rewrite wadd_wsub by (lia || apply Hcfg). by destruct c. }
  rewrite Hback. split; [done|]. intros Hfeat.
  assert (hmem (mach s1) = hmem (mach s)) as Hm by (unfold event_mem in Hm1; rewrite Hfeat in Hm1; by destruct Hm1).
  destruct (pop_avail_spec features (mkV (mkVring (cache (ring s1)) c) (mach s1)))
    as (s2' & o2 & -> & _ & _ & _ & _ & Hact2); cbn [ring queue_config mach cache]; rewrite ?Hm; try done.
  cbn [ring queue_config mach snd] in *. rewrite Hm, Hready, (proj2 (Z.eqb_neq _ _) Hne) in Hact2.
  destruct (Hact2 eq_refl) as [Hiff2 _]. apply Hiff2, Hiff1. done.
Qed.
End facts.

(** ** Giving a request back *)

Lemma mem_write_out m h d x : ~ (h <= x < h + Z.of_nat (length d)) -> mem_write m h d x = m x.
Proof. intros H. unfold mem_write. zcases; done || lia. Qed.
Lemma mem_read_write m h d : mem_read (mem_write m h d) h (length d) = d.
Proof.
  unfold mem_read. apply list_eq. intros i. destruct (decide (i < length d)%nat) as [Hi|Hi].
  - rewrite ztab_lookup by done. unfold mem_write. zcases; try lia.
    destruct (lookup_lt_is_Some_2 d i Hi) as [b Hb].
    replace (Z.to_nat (h + Z.of_nat i - h)) with i by lia. by rewrite Hb.
  - rewrite !lookup_ge_None_2; [done|..]; rewrite ?ztab_length; lia.
Qed.
Lemma mem_read_write_out m h d h' n :
  h' + Z.of_nat n <= h \/ h + Z.of_nat (length d) <= h' ->
  mem_read (mem_write m h d) h' n = mem_read m h' n.
Proof. intros H. apply ztab_ext. intros k Hk. apply mem_write_out. lia. Qed.

(** C33: [add_used] refuses an index beyond the queue without any effect;
    otherwise it writes the used element into its slot and then the new index
    into the ring, changes no other byte of memory, marks both writes dirty,
    and advances [next_used], dropping the signal state when it wraps onto
    it. *)
Theorem add_used_effect index len s :
  let c := queue_config (ring s) in
  let h := used_ring_host (addr_cache c) in
  let slot := h + 4 + next_used c `mod` actual_size c * 8 in
  config_wf c -> 0 < actual_size c -> 0 <= h -> h + 4 + 8 * actual_size c <= 2 ^ 64 ->
  is_u16 index -> is_u32 len ->
  (q_size c <= index -> add_used index len s = (s, Err (QueueIndex index (q_size c)))) /\
  (index < q_size c -> exists s', add_used index len s = (s', Ok tt) /\
     let m' := hmem (mach s') in
     mem_read m' slot 8 = le_bytes 4 index ++ le_bytes 4 len /\
     u16_at m' (h + 2) = wadd 16 (next_used c) 1 /\
     (forall x, ~ slot <= x < slot + 8 -> ~ h + 2 <= x < h + 4 -> m' x = hmem (mach s) x) /\
     dirty (mach s') = dirty (mach s) ++ [(slot, 8); (h + 2, 2)] /\
     cache (ring s') = cache (ring s) /\
     queue_config (ring s') =
       with_signal (with_next_used c (wadd 16 (next_used c) 1)) (last_signal_used c)
         (signal_used_valid c && negb (wadd 16 (next_used c) 1 =? last_signal_used c))).
Proof.
  intros c h slot Hcfg Hn Hh Hfit Hidx Hlen. split; intros Hle; unfold add_used;
    rewrite (sres_step _ _ s s c) by done.
  { by rewrite (proj2 (Z.leb_le _ _) Hle). }
  rewrite (proj2 (Z.leb_gt _ _) Hle). destruct (Z.eqb_spec (actual_size c) 0); [lia|].
  pose proof (Z.mod_pos_bound (next_used c) (actual_size c) Hn) as Hslot. fold h.
  unfold VRING_FLAGS_AND_IDX_LEN, USEDELEM_LEN, VRING_IDX_POSITION.
  rewrite (wadd_small 64 h 4), (wadd_small 64 (h + 4)) by (unfold inW; lia). fold slot.
  unfold write_direct, set_config. do 3 (erewrite sres_step by done). cbn [ring mach hmem dirty queue_config].
  change (addr_cache (with_next_used c _)) with (addr_cache c). fold h.
  rewrite (wadd_small 64 h) by (unfold inW; lia). cbn [next_used with_next_used].
  set (nu := wadd 16 (next_used c) 1). set (m1 := mem_write _ slot _). set (m2 := mem_write m1 (h + 2) _).
  assert (forall x, ~ slot <= x < slot + 8 -> ~ h + 2 <= x < h + 4 -> m2 x = hmem (mach s) x) as Hout.
  { intros x Hx1 Hx2. unfold m2, m1. rewrite !mem_write_out; [done|..];
      rewrite ?length_app, ?le_bytes_length; lia. }
  assert (mem_read m2 slot 8 = le_bytes 4 index ++ le_bytes 4 len) as Helem.
  { unfold m2. rewrite mem_read_write_out by (rewrite le_bytes_length; unfold slot; lia). apply mem_read_write. }
  assert (u16_at m2 (h + 2) = nu) as Hnu.
  { unfold u16_at, m2. etrans; [apply (f_equal le_val), (mem_read_write m1 (h + 2) (le_bytes 2 nu))|].
    rewrite le_val_le_bytes. apply Z.mod_small. apply (wrap_inW 16). lia. }
  change (last_signal_used (with_next_used c nu)) with (last_signal_used c).
  destruct (Z.eqb_spec nu (last_signal_used c)) as [Heq|Hne].
  all: eexists; (split; [done|]); cbn -[mem_write mem_read le_bytes]; (split_and!; [exact Helem|exact Hnu|exact Hout| |done|]).
  1,3: by rewrite <-app_assoc.
  - by rewrite andb_false_r.
  - by rewrite andb_true_r.
Qed.

(** ** Notification *)

(** [ev] is one of the indices [old], [old + 1], ..., [new - 1], counted
    modulo [2^16]. *)
Definition passed (old new ev : Z) : Prop := exists k, 0 <= k < wsub 16 new old /\ ev = wadd 16 old k.

Lemma need_event_passed old new ev :
  is_u16 old -> is_u16 new -> is_u16 ev ->
  (wsub 16 (wsub 16 new ev) 1 <? wsub 16 new old) = true <-> passed old new ev.
Proof.
  intros Ho Hn He. unfold passed, wsub, wadd, wrap, inW in *. rewrite Zminus_mod_idemp_l, Z.ltb_lt.
  set (M := 2 ^ 16) in *. assert (0 < M) by done.
  assert (forall x, - M <= x < M -> x `mod` M = if x <? 0 then x + M else x) as Hmod.
  { intros x Hx. zcases; [|apply Z.mod_small; lia].
    rewrite <-(Z_mod_plus_full x 1), Z.mod_small; lia. }
  rewrite !Hmod by lia. split.
  - intros Hlt. exists (if ev <? old then ev - old + M else ev - old).
    destruct (Z.ltb_spec ev old).
    + split; [zcases; lia|]. replace (old + (ev - old + M)) with (ev + 1 * M) by lia.
      rewrite Z_mod_plus_full, Z.mod_small; lia.
    + split; [zcases; lia|]. rewrite Z.mod_small; lia.
  - intros (k & Hk & ->). destruct (Z.ltb_spec (old + k) M) as [Hs|Hs].
    + rewrite (Z.mod_small (old + k)) by (zcases; lia). zcases; lia.
    + replace (old + k) with (old + k - M + 1 * M) by lia.
      rewrite Z_mod_plus_full, (Z.mod_small (old + k - M)) by (zcases; lia). zcases; lia.
Qed.

(** C35: whether the guest is interrupted.  With event indices: when there is
    no valid last signal, or the used index has passed the event index the
    driver asked for since the last signal (modulo [2^16]); the signal state is
    brought up to date.  Without: unless the driver set the no-interrupt
    flag. *)
Theorem should_notify_correct features s :
  let c := queue_config (ring s) in
  let m := hmem (mach s) in
  let new := u16_at m (used_ring_host (addr_cache c) + 2) in
  let ev := u16_at m (wadd 64 (avail_ring_host (addr_cache c))
              (VRING_FLAGS_AND_IDX_LEN + AVAILELEM_LEN * actual_size c)) in
  bytes_mem m -> config_wf c ->
  exists s' b, should_notify features s = (s', Ok b) /\ mach s' = mach s /\
    if virtio_has_feature features VIRTIO_F_RING_EVENT_IDX
    then (b = true <-> signal_used_valid c = false \/ passed (last_signal_used c) new ev) /\
         queue_config (ring s') = with_signal c new true
    else b = negb (Z.testbit (u16_at m (avail_ring_host (addr_cache c))) 0) /\ ring s' = ring s.
Proof.
  intros c m new ev Hb Hcfg. unfold should_notify. destruct (virtio_has_feature _ _).
  - unfold used_ring_need_event. rewrite (sres_step _ _ s s c) by done.
    assert (stry get_used_idx s = (s, Ok (Some new))) as E1.
    { unfold stry, get_used_idx, get_used_flags_idx, read_flags_idx, read_direct, get_config, mbind, sres_bind.
      cbn [mret sres_ret fi_idx]. by rewrite slice_mem_read by lia. }
    rewrite (sres_step _ _ _ _ _ E1). rewrite (sres_step _ _ s s (Some ev)) by done.
    unfold set_config. erewrite sres_step by done. eexists _, _. split; [done|]. split; [done|]. split; [|done].
    rewrite orb_true_iff, negb_true_iff, need_event_passed; [done|apply Hcfg|by apply u16_at_range..].
  - unfold is_avail_ring_no_interrupt.
    assert (stry get_avail_flags s = (s, Ok (Some (u16_at m (avail_ring_host (addr_cache c)))))) as E1.
    { unfold stry, get_avail_flags, get_avail_flags_idx, read_flags_idx, read_direct, get_config, mbind, sres_bind.
      cbn [mret sres_ret fi_flags]. rewrite slice_mem_read by lia. by rewrite Z.add_0_r. }
    rewrite (sres_step _ _ s s (negb (Z.land (u16_at m (avail_ring_host (addr_cache c))) 1 =? 0))).
    2:{ by rewrite (sres_step _ _ _ _ _ E1). }
    eexists _, _. split; [done|]. split_and!; try done. rewrite negb_involutive.
    rewrite (Z.land_ones _ 1), Z.bit0_odd by lia. change (2 ^ 1) with 2. rewrite Zmod_odd.
    by destruct (Z.odd _).
Qed.

(** ** Set-up *)

Section setup.
Context (st : store) (fv : list FlatRange).
Context (Hview : view_ok st fv).
Context (Hram : forall o r, st !! o = Some r -> region_type r = Ram -> is_Some (mem_mapping r)).

(** [n] bytes of guest memory at [a] are the host bytes at [h]. *)
Definition hosts (a h n : Z) : Prop := forall k, 0 <= k < n -> host_at st fv (a + k) = Some (h + k).

Lemma checked_offset_ok a n e :
  0 <= a -> 0 < n -> checked_offset_mem st fv a n = Ok e -> e = a + n /\ a + n < 2 ^ 64 /\
  exists h avail, addr_cache_init st fv a = Some (h, avail) /\ n <= avail /\ hosts a h n.
Proof.
  intros Ha Hn. unfold checked_offset_mem. destruct (address_in_memory st fv a n) eqn:E; [|done].
  intros [= <-]. destruct (address_in_memory_host st fv a n Hview Hram Ha Hn E)
    as (Hend & h & avail & ? & ? & ? & ? & ?).
  split_and!; [|done|by exists h, avail]. unfold unchecked_add. apply wadd_small. unfold inW. lia.
Qed.

Lemma cached_host_ok a need h avail :
  addr_cache_init st fv a = Some (h, avail) -> need <= avail -> cached_host st fv a need = (h, 0%nat).
Proof. intros Hc Hn. unfold cached_host. rewrite Hc. zcases; done || lia. Qed.

Lemma valid_ring_layout features c :
  0 <= q_size c < 2 ^ 16 -> 0 <= max_size c -> 0 <= desc_table c -> 0 <= avail_ring c -> 0 <= used_ring c ->
  vring_is_valid st fv c = true ->
  let n := actual_size c in
  let '(c', errors) := set_addr_cache st fv c features in
  (exists k, 0 <= k /\ n = 2 ^ k) /\ n = q_size c /\ n <= max_size c /\ errors = 0%nat /\
  Z.land (desc_table c) 0xf = 0 /\ Z.land (avail_ring c) 0x1 = 0 /\ Z.land (used_ring c) 0x3 = 0 /\
  hosts (desc_table c) (desc_table_host (addr_cache c')) (16 * n) /\
  hosts (avail_ring c) (avail_ring_host (addr_cache c')) (6 + 2 * n) /\
  hosts (used_ring c) (used_ring_host (addr_cache c')) (6 + 8 * n) /\
  (forall x, ~ (desc_table c <= x < desc_table c + 16 * n /\ avail_ring c <= x < avail_ring c + (6 + 2 * n))) /\
  (forall x, ~ (avail_ring c <= x < avail_ring c + (6 + 2 * n) /\ used_ring c <= x < used_ring c + (6 + 8 * n))) /\
  (forall x, ~ (desc_table c <= x < desc_table c + 16 * n /\ used_ring c <= x < used_ring c + (6 + 8 * n))).
Proof.
  intros [Hq0 Hq] ? Hd Ha Hu Hv n.
  unfold vring_is_valid in Hv. destruct (ready c); [|done]. cbn [negb] in Hv.
  destruct (Z.ltb_spec (max_size c) (q_size c)); [done|]. destruct (Z.eqb_spec (q_size c) 0); [done|].
  rewrite wsub_small in Hv by (unfold inW; lia).
  destruct (Z.eqb_spec (Z.land (q_size c) (q_size c - 1)) 0) as [Hp|]; [|done]. cbn [orb negb] in Hv.
  assert (actual_size c = q_size c) as Hn by (unfold actual_size; lia). subst n. rewrite Hn in *.
  apply negb_true_iff in Hv. unfold is_invalid_memory in Hv.
  destruct (checked_offset_mem st fv (desc_table c) _) as [de| |] eqn:Ed; [|done..].
  destruct (checked_offset_mem st fv (avail_ring c) _) as [ae| |] eqn:Ea; [|done..].
  destruct (checked_offset_mem st fv (used_ring c) _) as [ue| |] eqn:Eu; [|done..].
  unfold DESCRIPTOR_LEN, VRING_AVAIL_LEN_EXCEPT_AVAILELEM, AVAILELEM_LEN, VRING_USED_LEN_EXCEPT_USEDELEM,
    USEDELEM_LEN in *.
  apply checked_offset_ok in Ed as (-> & _ & dh & da & Hdc & ? & ?); [|lia..].
  apply checked_offset_ok in Ea as (-> & _ & ah & aa & Hac & ? & ?); [|lia..].
  apply checked_offset_ok in Eu as (-> & _ & uh & ua & Huc & ? & ?); [|lia..].
  destruct (is_overlap _ _ _ _) eqn:O1 in Hv; [done|]. destruct (is_overlap _ _ _ _) eqn:O2 in Hv; [done|].
  destruct (is_overlap _ _ _ _) eqn:O3 in Hv; [done|]. unfold is_overlap in O1, O2, O3.
  apply negb_false_iff, orb_true_iff in O1, O2, O3. rewrite !Z.leb_le in O1, O2, O3.
  unfold set_addr_cache, get_desc_size, get_avail_size, get_used_size, DESCRIPTOR_LEN, VRING_FLAGS_AND_IDX_LEN,
    USEDELEM_LEN. fold (actual_size c). rewrite Hn.
  rewrite (cached_host_ok (desc_table c) (q_size c * 16) dh da Hdc) by lia.
  erewrite (cached_host_ok (avail_ring c) _ ah aa Hac) by (destruct (virtio_has_feature _ _); lia).
  erewrite (cached_host_ok (used_ring c) _ uh ua Huc) by (destruct (virtio_has_feature _ _); lia).
  cbn [orb] in Hv. destruct (Z.eqb_spec (Z.land (desc_table c) 0xf) 0); [|done].
  destruct (Z.eqb_spec (Z.land (avail_ring c) 0x1) 0); [|done].
  destruct (Z.eqb_spec (Z.land (used_ring c) 0x3) 0); [|done].
  cbn -[Z.land Z.mul Z.add]. split_and!; try done; try lia. by apply land_pred_pow2; [lia|].
Qed.

(** C34: a queue that [is_valid] accepts has a power-of-two size within the
    maximum and three aligned, pairwise disjoint areas in guest memory;
    [set_addr_cache] then finds all three without reporting an error, and
    the host areas it caches are the whole rings byte by byte. *)
Theorem valid_ring_mapped features c :
  config_wf c -> is_u64 (desc_table c) -> is_u64 (avail_ring c) -> is_u64 (used_ring c) ->
  vring_is_valid st fv c = true ->
  let n := actual_size c in
  let '(c', errors) := set_addr_cache st fv c features in
  (exists k, 0 <= k /\ n = 2 ^ k) /\ n = q_size c /\ n <= max_size c /\ errors = 0%nat /\
  Z.land (desc_table c) 0xf = 0 /\ Z.land (avail_ring c) 0x1 = 0 /\ Z.land (used_ring c) 0x3 = 0 /\
  hosts (desc_table c) (desc_table_host (addr_cache c')) (16 * n) /\
  hosts (avail_ring c) (avail_ring_host (addr_cache c')) (6 + 2 * n) /\
  hosts (used_ring c) (used_ring_host (addr_cache c')) (6 + 8 * n) /\
  (forall x, ~ (desc_table c <= x < desc_table c + 16 * n /\ avail_ring c <= x < avail_ring c + (6 + 2 * n))) /\
  (forall x, ~ (avail_ring c <= x < avail_ring c + (6 + 2 * n) /\ used_ring c <= x < used_ring c + (6 + 8 * n))) /\
  (forall x, ~ (desc_table c <= x < desc_table c + 16 * n /\ used_ring c <= x < used_ring c + (6 + 8 * n))).
Proof. intros (? & [? ?] & _) [? _] [? _] [? _] Hv. by apply valid_ring_layout. Qed.
End setup.

(** ** A concrete queue *)

(** 32 KiB of memory at host address 0x100000. *)
Definition ex_vstore : store :=
  <[1%positive := init_ram_region (mkMapping (mkRange 0 0x8000) 0x100000 false)]> ∅.
Definition ex_vview : list FlatRange := [mkFlat (mkRange 0 0x8000) 1%positive 0 None].
Lemma ex_vview_ok : view_ok ex_vstore ex_vview.
Proof.
  split_and!.
  - simpl. lia.
  - intros fr ->%list_elem_of_singleton. eexists. split; [vm_compute; reflexivity|]. simpl. lia.
  - intros o r H. unfold ex_vstore in H. ex_cases H. intros mm [= <-]. simpl. lia.
Qed.
Lemma ex_vram o r : ex_vstore !! o = Some r -> region_type r = Ram -> is_Some (mem_mapping r).
Proof. intros H. unfold ex_vstore in H. ex_cases H. by eexists. Qed.

(** A queue of four entries: one request, a readable buffer chained to a
    writable one. *)
Definition ex_config : QueueConfig :=
  mkConfig 0x1000 0x2000 0x3000 (mkAddrCache 0x101000 0x102000 0x103000) 256 4 true 0 0 0 0 true.
Definition ex_d0 : SplitVringDesc := mkDesc 0x4000 0x10 VIRTQ_DESC_F_NEXT 1.
Definition ex_d1 : SplitVringDesc := mkDesc 0x5000 0x20 VIRTQ_DESC_F_WRITE 0.
Definition desc_bytes (d : SplitVringDesc) : list Z :=
  le_bytes 8 (d_addr d) ++ le_bytes 4 (d_len d) ++ le_bytes 2 (d_flags d) ++ le_bytes 2 (d_next d).
Definition ex_vmem : Z -> Z :=
  mem_write (mem_write (fun _ => 0) 0x101000 (desc_bytes ex_d0 ++ desc_bytes ex_d1))
    0x102000 (le_bytes 2 0 ++ le_bytes 2 1 ++ le_bytes 2 0).
Definition ex_state : VState := mkV (vring_new ex_config) (mkMach ex_vmem [] tt).
Definition ex_element : Element :=
  mkElement 0 2 [mkElemIovec 0x4000 0x10] [mkElemIovec 0x5000 0x20].

Lemma ex_vmem_bytes : bytes_mem ex_vmem.
Proof.
  apply mem_write_bytes; [apply mem_write_bytes; [intros x; unfold inW; lia|]|];
    repeat (apply Forall_app; split); apply le_bytes_is_bytes.
Qed.
Lemma ex_config_wf : config_wf ex_config.
Proof. repeat split; vm_compute; done. Qed.

Lemma ex_offered : offered ex_vstore ex_vview ex_config 0 ex_vmem ex_element.
Proof.
  exists ex_d0, [ex_d0; ex_d1]. split_and!; [vm_compute; reflexivity| |reflexivity|vm_compute; done|vm_compute; reflexivity].
  eapply walk_next; [vm_compute; done|reflexivity|reflexivity|vm_compute; reflexivity|].
  apply walk_last; [vm_compute; done|reflexivity|reflexivity].
Qed.

Example pop_avail_correct_witness : (pop_avail ex_vstore ex_vview 0 ex_state).2 = Ok ex_element.
Proof.
  destruct (pop_avail_correct ex_vstore ex_vview ex_vview_ok ex_vram 0 ex_state ex_vmem_bytes I ex_config_wf)
    as (s' & out & E & _ & _ & _ & H); [vm_compute; done|].
  destruct (H ltac:(vm_compute; done)) as [Hiff _]. rewrite E. apply Hiff, ex_offered.
Defined.

(** The same queue with another byte of the process changed. *)
Definition ex_state2 : VState := mkV (vring_new ex_config) (mkMach (mem_write ex_vmem 0x200000 [7]) [] tt).
Lemma ex_pop : exists s1, pop_avail ex_vstore ex_vview 0 ex_state = (s1, Ok ex_element).
Proof.
  destruct (pop_avail_spec ex_vstore ex_vview ex_vview_ok ex_vram 0 ex_state ex_vmem_bytes I ex_config_wf)
    as (s' & out & E & _ & _ & _ & _ & H); [vm_compute; done|].
  destruct (H ltac:(vm_compute; done)) as [Hiff _]. exists s'. rewrite E. f_equal. apply Hiff, ex_offered.
Qed.

Lemma ex_host_at a h : host_at ex_vstore ex_vview a = Some h -> 0x100000 <= h < 0x108000.
Proof.
  unfold host_at, translate_at, ex_vview. cbn [flat_lookup addr_range].
  destruct (covers _ a) eqn:Hc; [|done]. apply covers_spec in Hc. simpl in Hc.
  unfold ex_vstore. cbn [mbind option_bind fr_place owner addr_range offset_in_region].
  rewrite lookup_insert_eq. cbn. intros [= <-]. lia.
Qed.

Example pop_avail_confined_witness : (pop_avail ex_vstore ex_vview 0 ex_state2).2 = Ok ex_element.
Proof.
  destruct ex_pop as [s1 Hpop].
  apply (pop_avail_confined ex_vstore ex_vview ex_vview_ok ex_vram 0 ex_state ex_state2).
  - reflexivity.
  - exact I.
  - exact ex_config_wf.
  - vm_compute. done.
  - exact ex_vmem_bytes.
  - apply mem_write_bytes; [exact ex_vmem_bytes|repeat constructor; vm_compute; done].
  - intros a h Ha%ex_host_at. simpl. rewrite mem_write_out; [done|]. simpl. lia.
  - intros x Hx. change (0x101000 <= x < 0x101000 + 16 * 4) in Hx. simpl. rewrite mem_write_out; [done|simpl; lia].
  - intros entry x Hx. change (0x102004 <= x < 0x102004 + 2) in Hx. simpl. rewrite mem_write_out; [done|simpl; lia].
  - intros x Hx. change (0x102000 + 2 <= x < 0x102000 + 4) in Hx. simpl. rewrite mem_write_out; [done|simpl; lia].
  - by rewrite Hpop.
Defined.

Example push_back_undoes_pop_witness :
  exists s1 s2, pop_avail ex_vstore ex_vview 0 ex_state = (s1, Ok ex_element) /\
    push_back s1 = (s2, Ok tt) /\ queue_config (ring s2) = ex_config /\
    (pop_avail ex_vstore ex_vview 0 s2).2 = Ok ex_element.
Proof.
  destruct ex_pop as [s1 Hpop].
  destruct (push_back_undoes_pop ex_vstore ex_vview ex_vview_ok ex_vram 0 ex_state s1 ex_element
    ex_vmem_bytes I ex_config_wf) as (s2 & H1 & H2 & H3); [vm_compute; done|done|vm_compute; done|done|].
  exists s1, s2. split_and!; [exact Hpop|exact H1|exact H2|apply H3; reflexivity].
Defined.

Example add_used_effect_witness :
  exists s', add_used 0 0x20 ex_state = (s', Ok tt) /\
    mem_read (hmem (mach s')) 0x103004 8 = [0; 0; 0; 0; 0x20; 0; 0; 0] /\
    u16_at (hmem (mach s')) 0x103002 = 1.
Proof.
  destruct (add_used_effect 0 0x20 ex_state ex_config_wf) as [_ H]; [vm_compute; done..|].
  destruct H as (s' & H1 & H2 & H3 & _); [vm_compute; done|]. exists s'. split_and!; [exact H1|exact H2|exact H3].
Defined.

(** Three used elements, and the driver wants to hear of the second. *)
Definition ex_state3 : VState :=
  mkV (vring_new ex_config)
    (mkMach (mem_write (mem_write ex_vmem 0x103002 (le_bytes 2 3)) 0x10200c (le_bytes 2 1)) [] tt).

Example should_notify_correct_witness : (should_notify (2 ^ 29) ex_state3).2 = Ok true.
Proof.
  destruct (should_notify_correct (2 ^ 29) ex_state3) as (s' & b & H1 & _ & H2 & _).
  - do 2 (apply mem_write_bytes; [|apply le_bytes_is_bytes]). exact ex_vmem_bytes.
  - exact ex_config_wf.
  - rewrite H1. simpl. f_equal. apply H2. right. exists 1. split; [split; vm_compute; done|vm_compute; reflexivity].
Defined.

Example valid_ring_mapped_witness :
  vring_is_valid ex_vstore ex_vview ex_config = true /\
  hosts ex_vstore ex_vview 0x1000 0x101000 64 /\
  (set_addr_cache ex_vstore ex_vview ex_config 0).2 = 0%nat.
Proof.
  pose proof (valid_ring_mapped ex_vstore ex_vview ex_vview_ok ex_vram 0 ex_config ex_config_wf) as H.
  destruct H as (_ & _ & _ & H1 & _ & _ & _ & H2 & _); [vm_compute; done..|].
  split_and!; [vm_compute; reflexivity|exact H2|exact H1].
Defined.
