(* ===== verification/VirtioBase.v ===== *)
(** * The state shared by virtio devices ([virtio/src/lib.rs])

    [VirtioBase], the default methods of the trait [VirtioDevice] on it, and the
    construction of the queues both transports do on activation.  What a device
    type adds is the interface [VirtioDevice] below. *)
From stdpp Require Import prelude list gmap.
From Stdlib Require Import ZArith Lia.
From S2P Require Import Prelude NumOps Address Region FlatView SplitVring.

Definition CONFIG_STATUS_ACKNOWLEDGE : Z := 0x01.
Definition CONFIG_STATUS_DRIVER : Z := 0x02.
Definition CONFIG_STATUS_DRIVER_OK : Z := 0x04.
Definition CONFIG_STATUS_FEATURES_OK : Z := 0x08.
Definition CONFIG_STATUS_NEEDS_RESET : Z := 0x40.
Definition CONFIG_STATUS_FAILED : Z := 0x80.
Definition VIRTIO_F_RING_PACKED : Z := 34.
Definition QUEUE_TYPE_SPLIT_VRING : Z := 1.
Definition QUEUE_TYPE_PACKED_VRING : Z := 2.
Definition VIRTIO_MMIO_INT_VRING : Z := 0x01.
Definition VIRTIO_MMIO_INT_CONFIG : Z := 0x02.

Record VirtioBase := mkBase {
  device_type : Z;
  device_features : Z;
  driver_features : Z;
  hfeatures_sel : Z;
  gfeatures_sel : Z;
  interrupt_status : Z;
  device_status : Z;
  device_activated : bool;
  config_generation : Z;
  config_vector : Z;
  queue_type : Z;
  queue_num : nat;
  queue_size_max : Z;
  queue_select : Z;
  queues_config : list QueueConfig;
  queues : list SplitVring;
  broken : bool
}.

Definition set_driver b v := mkBase (device_type b) (device_features b) v (hfeatures_sel b) (gfeatures_sel b) (interrupt_status b) (device_status b) (device_activated b) (config_generation b) (config_vector b) (queue_type b) (queue_num b) (queue_size_max b) (queue_select b) (queues_config b) (queues b) (broken b).
Definition set_hfeatures_sel b v := mkBase (device_type b) (device_features b) (driver_features b) v (gfeatures_sel b) (interrupt_status b) (device_status b) (device_activated b) (config_generation b) (config_vector b) (queue_type b) (queue_num b) (queue_size_max b) (queue_select b) (queues_config b) (queues b) (broken b).
Definition set_gfeatures_sel b v := mkBase (device_type b) (device_features b) (driver_features b) (hfeatures_sel b) v (interrupt_status b) (device_status b) (device_activated b) (config_generation b) (config_vector b) (queue_type b) (queue_num b) (queue_size_max b) (queue_select b) (queues_config b) (queues b) (broken b).
Definition set_interrupt_status b v := mkBase (device_type b) (device_features b) (driver_features b) (hfeatures_sel b) (gfeatures_sel b) v (device_status b) (device_activated b) (config_generation b) (config_vector b) (queue_type b) (queue_num b) (queue_size_max b) (queue_select b) (queues_config b) (queues b) (broken b).
Definition set_device_status b v := mkBase (device_type b) (device_features b) (driver_features b) (hfeatures_sel b) (gfeatures_sel b) (interrupt_status b) v (device_activated b) (config_generation b) (config_vector b) (queue_type b) (queue_num b) (queue_size_max b) (queue_select b) (queues_config b) (queues b) (broken b).
Definition set_device_activated b v := mkBase (device_type b) (device_features b) (driver_features b) (hfeatures_sel b) (gfeatures_sel b) (interrupt_status b) (device_status b) v (config_generation b) (config_vector b) (queue_type b) (queue_num b) (queue_size_max b) (queue_select b) (queues_config b) (queues b) (broken b).
Definition set_config_generation b v := mkBase (device_type b) (device_features b) (driver_features b) (hfeatures_sel b) (gfeatures_sel b) (interrupt_status b) (device_status b) (device_activated b) v (config_vector b) (queue_type b) (queue_num b) (queue_size_max b) (queue_select b) (queues_config b) (queues b) (broken b).
Definition set_config_vector b v := mkBase (device_type b) (device_features b) (driver_features b) (hfeatures_sel b) (gfeatures_sel b) (interrupt_status b) (device_status b) (device_activated b) (config_generation b) v (queue_type b) (queue_num b) (queue_size_max b) (queue_select b) (queues_config b) (queues b) (broken b).
Definition set_queue_type b v := mkBase (device_type b) (device_features b) (driver_features b) (hfeatures_sel b) (gfeatures_sel b) (interrupt_status b) (device_status b) (device_activated b) (config_generation b) (config_vector b) v (queue_num b) (queue_size_max b) (queue_select b) (queues_config b) (queues b) (broken b).
Definition set_queue_select b v := mkBase (device_type b) (device_features b) (driver_features b) (hfeatures_sel b) (gfeatures_sel b) (interrupt_status b) (device_status b) (device_activated b) (config_generation b) (config_vector b) (queue_type b) (queue_num b) (queue_size_max b) v (queues_config b) (queues b) (broken b).
Definition set_queues_config b v := mkBase (device_type b) (device_features b) (driver_features b) (hfeatures_sel b) (gfeatures_sel b) (interrupt_status b) (device_status b) (device_activated b) (config_generation b) (config_vector b) (queue_type b) (queue_num b) (queue_size_max b) (queue_select b) v (queues b) (broken b).
Definition set_queues b v := mkBase (device_type b) (device_features b) (driver_features b) (hfeatures_sel b) (gfeatures_sel b) (interrupt_status b) (device_status b) (device_activated b) (config_generation b) (config_vector b) (queue_type b) (queue_num b) (queue_size_max b) (queue_select b) (queues_config b) v (broken b).
Definition set_broken b v := mkBase (device_type b) (device_features b) (driver_features b) (hfeatures_sel b) (gfeatures_sel b) (interrupt_status b) (device_status b) (device_activated b) (config_generation b) (config_vector b) (queue_type b) (queue_num b) (queue_size_max b) (queue_select b) (queues_config b) (queues b) v.

(** [VirtioBase::new]; [features] is what [init_config_features] sets later. *)
Definition VirtioBase_new (type_ features : Z) (num : nat) (size_max : Z) : VirtioBase :=
  mkBase type_ features 0 0 0 0 0 false 0 INVALID_VECTOR_NUM QUEUE_TYPE_SPLIT_VRING num size_max 0 (replicate num (qc_new size_max)) [] false.

Definition base_reset (b : VirtioBase) : VirtioBase :=
  mkBase (device_type b) (device_features b) 0 0 0 0 0 false 0 INVALID_VECTOR_NUM QUEUE_TYPE_SPLIT_VRING (queue_num b) (queue_size_max b) 0 (map qc_reset (queues_config b)) [] false.

(** ** Feature negotiation *)

Definition features_page (b : VirtioBase) (sel : Z) : Z := read_u32 (device_features b) sel.
Definition driver_page (b : VirtioBase) (sel : Z) : Z := read_u32 (driver_features b) sel.
Definition set_driver_features (page value : Z) (b : VirtioBase) : VirtioBase :=
  let unsupported := Z.land value (wnot 32 (features_page b page)) in
  let v := if negb (unsupported =? 0) then Z.land value (wnot 32 unsupported) else value in
  set_driver b (if page =? 0 then Z.lor (wshl 64 (driver_page b 1) 32) v else Z.lor (wshl 64 v 32) (driver_page b 0)).

Definition check_device_status (b : VirtioBase) (set clr : Z) : bool := Z.land (device_status b) (Z.lor set clr) =? set.

(** ** Queue configuration *)

Definition get_queue (b : VirtioBase) : option QueueConfig := queues_config b !! Z.to_nat (queue_select b).
(** [queue_config_mut(need_check)] followed by an update; the errors are a wrong
    device status and a selector beyond the queues. *)
Inductive queue_err := DevStatErr (status : Z) | SelectOverflows.
Definition queue_config_mut (need_check : bool) (f : QueueConfig -> QueueConfig) (b : VirtioBase) : VirtioBase * res queue_err unit :=
  if need_check && negb (check_device_status b CONFIG_STATUS_FEATURES_OK (Z.lor CONFIG_STATUS_DRIVER_OK CONFIG_STATUS_FAILED))
  then (b, Err (DevStatErr (device_status b)))
  else match get_queue b with
       | Some c => (set_queues_config b (<[Z.to_nat (queue_select b) := f c]> (queues_config b)), Ok tt)
       | None => (b, Err SelectOverflows)
       end.

Definition with_desc (c : QueueConfig) v := mkConfig v (avail_ring c) (used_ring c) (addr_cache c) (max_size c) (q_size c) (ready c) (vector c) (next_avail c) (next_used c) (last_signal_used c) (signal_used_valid c).
Definition with_avail (c : QueueConfig) v := mkConfig (desc_table c) v (used_ring c) (addr_cache c) (max_size c) (q_size c) (ready c) (vector c) (next_avail c) (next_used c) (last_signal_used c) (signal_used_valid c).
Definition with_used (c : QueueConfig) v := mkConfig (desc_table c) (avail_ring c) v (addr_cache c) (max_size c) (q_size c) (ready c) (vector c) (next_avail c) (next_used c) (last_signal_used c) (signal_used_valid c).
Definition with_size (c : QueueConfig) v := mkConfig (desc_table c) (avail_ring c) (used_ring c) (addr_cache c) (max_size c) v (ready c) (vector c) (next_avail c) (next_used c) (last_signal_used c) (signal_used_valid c).
Definition with_ready (c : QueueConfig) v := mkConfig (desc_table c) (avail_ring c) (used_ring c) (addr_cache c) (max_size c) (q_size c) v (vector c) (next_avail c) (next_used c) (last_signal_used c) (signal_used_valid c).
Definition with_vector (c : QueueConfig) v := mkConfig (desc_table c) (avail_ring c) (used_ring c) (addr_cache c) (max_size c) (q_size c) (ready c) v (next_avail c) (next_used c) (last_signal_used c) (signal_used_valid c).

(** The address registers of a queue: each half is combined with the address by [|]. *)
Definition desc_low (value : Z) (c : QueueConfig) := with_desc c (Z.lor (desc_table c) value).
Definition desc_high (value : Z) (c : QueueConfig) := with_desc c (Z.lor (desc_table c) (wshl 64 value 32)).
Definition avail_low (value : Z) (c : QueueConfig) := with_avail c (Z.lor (avail_ring c) value).
Definition avail_high (value : Z) (c : QueueConfig) := with_avail c (Z.lor (avail_ring c) (wshl 64 value 32)).
Definition used_low (value : Z) (c : QueueConfig) := with_used c (Z.lor (used_ring c) value).
Definition used_high (value : Z) (c : QueueConfig) := with_used c (Z.lor (used_ring c) (wshl 64 value 32)).

(** ** Interrupts *)

(** The effect of the interrupt callback of either transport on the base, and
    whether it goes on to raise the interrupt. *)
Inductive VirtioInterruptType := IntConfig | IntVring.
Definition interrupt_base (t : VirtioInterruptType) (needs_reset : bool) (b : VirtioBase) : VirtioBase * bool :=
  match t with
  | IntConfig =>
    let b := if needs_reset then set_device_status b (Z.lor (device_status b) CONFIG_STATUS_NEEDS_RESET) else b in
    if Z.land (device_status b) CONFIG_STATUS_DRIVER_OK =? 0 then (b, false)
    else
      let b := set_config_generation b (wadd 8 (config_generation b) 1) in
      (set_interrupt_status b (Z.lor (interrupt_status b) (Z.lor VIRTIO_MMIO_INT_CONFIG VIRTIO_MMIO_INT_VRING)), true)
  | IntVring => (set_interrupt_status b (Z.lor (interrupt_status b) VIRTIO_MMIO_INT_VRING), true)
  end.

(** A base with the log of the interrupts raised; [vec] is what the transport
    raises for a configuration change. *)
Definition interrupt_cb (vec : VirtioBase -> Z) (t : VirtioInterruptType) (needs_reset : bool) (s : VirtioBase * list Z) : VirtioBase * list Z :=
  let '(b, raised) := interrupt_base t needs_reset s.1 in (b, if raised then s.2 ++ [vec b] else s.2).

Definition report_virtio_error (vec : VirtioBase -> Z) (features : Z) (s : VirtioBase * list Z) : VirtioBase * list Z :=
  let s := if virtio_has_feature features VIRTIO_F_VERSION_1 then interrupt_cb vec IntConfig true s else s in
  (set_broken s.1 true, s.2).
Fixpoint reports (vec : VirtioBase -> Z) (n : nat) (features : Z) (s : VirtioBase * list Z) : VirtioBase * list Z :=
  match n with O => s | S n => reports vec n features (report_virtio_error vec features s) end.

(** ** Building the queues *)

Inductive build_err := BadQueueType | InvalidQueue.
Section build.
Context (st : store) (fv : list FlatRange).

(** The loop of [activate]: it updates the configurations it passes, counts the
    errors [set_addr_cache] reports, and stops at the first queue it refuses. *)
Fixpoint build_queues (features qtype : Z) (cs : list QueueConfig) : list QueueConfig * nat * res build_err (list SplitVring) :=
  match cs with
  | [] => ([], 0%nat, Ok [])
  | c :: rest =>
    let '(c, n) := if ready c then set_addr_cache st fv c features else (c, 0%nat) in
    if negb (qtype =? QUEUE_TYPE_SPLIT_VRING) then (c :: rest, n, Err BadQueueType)
    else if ready c && negb (vring_is_valid st fv c) then (c :: rest, n, Err InvalidQueue)
    else
      let '(rest, m, r) := build_queues features qtype rest in
      (c :: rest, (n + m)%nat, q ← r; mret (vring_new c :: q))
  end.
End build.

(** ** What a device type adds *)

(** [D] is the state of the device; the transports call these. *)
Class VirtioDevice (D : Type) := {
  vd_read_config : D -> Z -> list Z -> option (list Z);
  vd_write_config : D -> Z -> list Z -> D * bool;
  vd_activate : VirtioBase -> D -> D * bool;
  vd_deactivate : D -> D * bool
}.

(** [check_config_space_rw] and [read_config_default], which most devices use. *)
Definition check_config_space_rw (config : list Z) (offset data_len : Z) : bool :=
  match checked_add 64 offset data_len with
  | Some e => e <=? Z.of_nat (length config)
  | None => false
  end.
Definition read_config_default (config : list Z) (offset : Z) (data : list Z) : option (list Z) :=
  if check_config_space_rw config offset (Z.of_nat (length data)) then Some (slice config (Z.to_nat offset) (length data)) else None.

(** ** Saving and restoring *)

Record VirtioBaseState := mkBaseState {
  s_activated : bool;
  s_hfeatures_sel : Z;
  s_gfeatures_sel : Z;
  s_interrupt_status : Z;
  s_device_status : Z;
  s_generation : Z;
  s_queue_select : Z;
  s_config_vector : Z;
  s_queues_config : list QueueConfig;
  s_queue_num : nat;
  s_queue_type : Z
}.
(** [QueueConfig::default]: all fields zero. *)
Definition qc_default : QueueConfig := mkConfig 0 0 0 (mkAddrCache 0 0 0) 0 0 false 0 0 0 0 false.
Definition overlay {A} (l over : list A) : list A := over ++ drop (length over) l.
(** The array of the state has 32 entries; writing beyond it panics. *)
Definition get_state (b : VirtioBase) : res unit VirtioBaseState :=
  if (32 <? length (queues_config b))%nat || (32 <? length (queues b))%nat then Panic
  else
    let cs := overlay (replicate 32 qc_default) (queues_config b) in
    let cs := overlay cs (map get_queue_config (queues b)) in
    Ok (mkBaseState (device_activated b) (hfeatures_sel b) (gfeatures_sel b) (interrupt_status b) (device_status b) (config_generation b)
          (queue_select b) (config_vector b) cs (length (queues b)) (queue_type b)).

Section restore.
Context (st : store) (fv : list FlatRange).
Definition recache (features : Z) (c : QueueConfig) : QueueConfig * nat :=
  if ready c then set_addr_cache st fv c features else (c, 0%nat).
Definition set_state (vec : VirtioBase -> Z) (s : VirtioBaseState) (bi : VirtioBase * list Z) : res unit (VirtioBase * list Z) :=
  let '(b, irqs) := bi in
  if (length (s_queues_config s) <? queue_num b)%nat then Panic
  else
    let b := mkBase (device_type b) (device_features b) (driver_features b) (s_hfeatures_sel s) (s_gfeatures_sel s) (s_interrupt_status s)
               (s_device_status s) (s_activated s) (s_generation s) (s_config_vector s) (s_queue_type s) (queue_num b) (queue_size_max b)
               (s_queue_select s) (take (queue_num b) (s_queues_config s)) (queues b) (broken b) in
    if (s_queue_num s =? 0)%nat then Ok (b, irqs)
    else if negb (s_queue_type s =? QUEUE_TYPE_SPLIT_VRING) then Panic
    else
      let done_ := map (recache (driver_features b)) (take (s_queue_num s) (queues_config b)) in
      let cs := map fst done_ in
      let n := foldr (fun cn acc => (cn.2 + acc)%nat) 0%nat done_ in
      let '(b, irqs) := reports vec n (driver_features b) (b, irqs) in
      Ok (set_queues (set_queues_config b (cs ++ drop (s_queue_num s) (queues_config b))) (map vring_new cs), irqs).
End restore.

(** ** Facts *)

(** The features the driver holds were all offered. *)
Definition negotiated (b : VirtioBase) : Prop := Z.land (driver_features b) (device_features b) = driver_features b.
Definition features_ok (b : VirtioBase) : Prop := is_u64 (device_features b) /\ is_u64 (driver_features b) /\ negotiated b.

Lemma read_u32_page0 x i : 0 <= i -> Z.testbit (read_u32 x 0) i = (i <? 32) && Z.testbit x i.
Proof.
  intros Hi. unfold read_u32, wrap. cbn [Z.eqb]. rewrite <-Z.land_ones, Z.land_spec by lia. rewrite Z.testbit_ones_nonneg by lia. by rewrite andb_comm.
Qed.
Lemma read_u32_page1 x i : is_u64 x -> 0 <= i -> Z.testbit (read_u32 x 1) i = (i <? 32) && Z.testbit x (i + 32).
Proof.
  intros Hx Hi. unfold read_u32, wrap, wshr. change (1 =? 0) with false. change (1 =? 1) with true. cbv iota. change (32 `mod` 64) with 32.
  rewrite <-Z.land_ones, Z.land_spec, Z.shiftr_spec by lia. rewrite Z.testbit_ones_nonneg by lia. by rewrite andb_comm.
Qed.
Lemma accepted_value b page value : is_u32 value ->
  (let unsupported := Z.land value (wnot 32 (features_page b page)) in
   if negb (unsupported =? 0) then Z.land value (wnot 32 unsupported) else value) = Z.land value (features_page b page).
Proof.
  intros Hv. cbv zeta. assert (inW 32 (features_page b page)) as Hp.
  { unfold features_page, read_u32. destruct (page =? 0); [apply wrap_inW; lia|]. destruct (page =? 1); [apply wrap_inW; lia|]. unfold inW. lia. }
  set (u := Z.land value (wnot 32 (features_page b page))).
  assert (inW 32 u) as Hu by (apply land_inW; [lia|done]).
  assert (Z.land value (wnot 32 u) = Z.land value (features_page b page)) as E.
  { apply Z.bits_inj'. intros i Hi. rewrite !Z.land_spec. destruct (Z.lt_ge_cases i 32).
    - rewrite wnot_testbit by (done || lia). unfold u. rewrite Z.land_spec, wnot_testbit by (done || lia). by destruct (Z.testbit value i), (Z.testbit (features_page b page) i).
    - by rewrite (testbit_above 32 value) by (done || lia). }
  destruct (Z.eqb_spec u 0) as [E0|E0]; [|exact E]. rewrite <-E, E0. cbn [negb]. apply Z.bits_inj'. intros i Hi. rewrite Z.land_spec. destruct (Z.lt_ge_cases i 32).
  - rewrite wnot_testbit by (unfold inW; lia). by rewrite Z.bits_0, andb_true_r.
  - by rewrite (testbit_above 32 value) by (done || lia).
Qed.

Lemma hi_lo_bits h l i : is_u32 h -> is_u32 l -> 0 <= i -> Z.testbit (Z.lor (wshl 64 h 32) l) i = if i <? 32 then Z.testbit l i else Z.testbit h (i - 32).
Proof.
  intros Hh Hl Hi. unfold wshl. change (32 `mod` 64) with 32. rewrite wrap_small by (rewrite Z.shiftl_mul_pow2 by lia; unfold inW in *; lia).
  rewrite Z.lor_spec, Z.shiftl_spec by lia. destruct (Z.ltb_spec i 32).
  - rewrite (Z.testbit_neg_r h) by lia. done.
  - rewrite (testbit_above 32 l) by (done || lia). by rewrite orb_false_r.
Qed.
Lemma hi_lo_u64 h l : is_u32 h -> is_u32 l -> is_u64 (Z.lor (wshl 64 h 32) l).
Proof. intros Hh Hl. apply lor_inW; [lia|apply wrap_inW; lia|]. unfold inW in *. lia. Qed.
Lemma page_u32 x sel : is_u32 (read_u32 x sel).
Proof. unfold read_u32. destruct (_ =? 0); [apply wrap_inW; lia|]. destruct (_ =? 1); [apply wrap_inW; lia|]. unfold inW. lia. Qed.

(** Acknowledging features keeps them within the offer, whatever the driver writes. *)
Lemma set_driver_features_ok page value b : features_ok b -> is_u32 value -> features_ok (set_driver_features page value b).
Proof.
  intros (Hdev & Hdrv & Hn) Hv. unfold set_driver_features. pose proof (accepted_value b page value Hv) as E. cbv zeta in E |- *. rewrite E.
  assert (is_u32 (Z.land value (features_page b page))) as Ha by (apply land_inW; [lia|done]).
  assert (forall i, 0 <= i -> Z.testbit (driver_features b) i = true -> Z.testbit (device_features b) i = true) as Hsub.
  { intros i Hi Ht. unfold negotiated in Hn. rewrite <-Hn, Z.land_spec in Ht. by destruct (Z.testbit (device_features b) i); [|rewrite andb_false_r in Ht]. }
  split; [done|]. cbn [driver_features device_features set_driver]. unfold driver_page, negotiated in *. cbn [driver_features device_features set_driver].
  destruct (Z.eqb_spec page 0) as [->|Hp].
  - split; [apply hi_lo_u64; [apply page_u32|done]|]. apply Z.bits_inj'. intros i Hi. rewrite Z.land_spec, hi_lo_bits by (try apply page_u32; done || lia).
    destruct (Z.ltb_spec i 32) as [Hl|Hl].
    + unfold features_page. rewrite Z.land_spec, read_u32_page0 by lia. destruct (Z.ltb_spec i 32); [|lia]. by destruct (Z.testbit value i), (Z.testbit (device_features b) i).
    + rewrite read_u32_page1 by (done || lia). replace (i - 32 + 32) with i by lia. destruct (Z.ltb (i - 32) 32), (Z.testbit (driver_features b) i) eqn:Et; cbn [andb]; try done. by rewrite Hsub.
  - split; [apply hi_lo_u64; [done|apply page_u32]|]. apply Z.bits_inj'. intros i Hi. rewrite Z.land_spec, hi_lo_bits by (try apply page_u32; done || lia).
    destruct (Z.ltb_spec i 32) as [Hl|Hl].
    + rewrite read_u32_page0 by lia. destruct (Z.ltb i 32), (Z.testbit (driver_features b) i) eqn:Et; cbn [andb]; try done. by rewrite Hsub.
    + unfold features_page. rewrite Z.land_spec. destruct (Z.eqb_spec page 1) as [->|H1].
      * rewrite read_u32_page1 by (done || lia). replace (i - 32 + 32) with i by lia. destruct (Z.testbit (device_features b) i); [by rewrite andb_true_r|]. by rewrite !andb_false_r.
      * unfold read_u32. destruct (Z.eqb_spec page 0), (Z.eqb_spec page 1); try done. by rewrite Z.bits_0, !andb_false_r.
Qed.

(** *** Building the queues *)

Section build_facts.
Context (st : store) (fv : list FlatRange).

(** Two configurations that differ at most in the cached host addresses. *)
Definition same_queue (c c' : QueueConfig) : Prop := exists a, c' = with_addr_cache c a.
Lemma same_queue_refl c : same_queue c c.
Proof. exists (addr_cache c). by destruct c. Qed.
Lemma same_queue_valid c c' : same_queue c c' -> vring_is_valid st fv c' = vring_is_valid st fv c /\ ready c' = ready c.
Proof. intros [a ->]. done. Qed.
Lemma set_addr_cache_same c features : same_queue c (set_addr_cache st fv c features).1.
Proof. unfold set_addr_cache. destruct (cached_host _ _ _ _), (cached_host _ _ _ _), (cached_host _ _ _ _). by eexists. Qed.

Lemma build_queues_spec features qtype cs : let '(cs', n, r) := build_queues st fv features qtype cs in
  Forall2 same_queue cs cs' /\
  (forall qs, r = Ok qs -> qs = map vring_new cs' /\ (cs <> [] -> qtype = QUEUE_TYPE_SPLIT_VRING) /\ Forall (fun c => ready c = true -> vring_is_valid st fv c = true) cs') /\
  r <> Panic.
Proof.
  induction cs as [|c cs IH]; [cbn; split_and!; [done| |done]; by intros qs [= <-]|]. cbn [build_queues].
  destruct (if ready c then set_addr_cache st fv c features else (c, 0%nat)) as [c' n] eqn:Ec.
  assert (same_queue c c') as Hs. { destruct (ready c); [|injection Ec as <- _; apply same_queue_refl]. pose proof (set_addr_cache_same c features) as H. by rewrite Ec in H. }
  assert (Forall2 same_queue cs cs) as Hrefl by (clear; induction cs; constructor; auto using same_queue_refl).
  destruct (Z.eqb_spec qtype QUEUE_TYPE_SPLIT_VRING) as [->|Hq]; cbn [negb]; [|split_and!; [by constructor| |done]; by intros].
  destruct (ready c' && negb (vring_is_valid st fv c')) eqn:Ev; [split_and!; [by constructor| |done]; by intros|].
  destruct (build_queues st fv features QUEUE_TYPE_SPLIT_VRING cs) as [[cs' m] r]. destruct IH as (H1 & H2 & H3). split_and!; [by constructor| |by destruct r].
  intros qs. destruct r as [q| |]; cbn; [|done..]. intros [= <-]. destruct (H2 q eq_refl) as (-> & _ & Hf). split_and!; [done|done|]. constructor; [|done].
  intros Hr. rewrite Hr in Ev. by destruct (vring_is_valid st fv c').
Qed.
End build_facts.

(** *** The invariant of the base *)

Section base_facts.
Context (st : store) (fv : list FlatRange).

Definition queues_valid (qs : list SplitVring) : Prop := Forall (fun q => ready (queue_config q) = true -> vring_is_valid st fv (queue_config q) = true) qs.
(** Features within the offer, one configuration per queue, and on an active
    device a queue per configuration, each valid if it is in use. *)
Definition base_ok (b : VirtioBase) : Prop :=
  features_ok b /\ length (queues_config b) = queue_num b /\
  (device_activated b = true -> length (queues b) = queue_num b /\ queues_valid (queues b)).

(** The fields [base_ok] reads. *)
Definition same_core (b b' : VirtioBase) : Prop :=
  device_features b' = device_features b /\ driver_features b' = driver_features b /\ queue_num b' = queue_num b /\
  length (queues_config b') = length (queues_config b) /\ device_activated b' = device_activated b /\ queues b' = queues b.
Lemma same_core_ok b b' : same_core b b' -> base_ok b -> base_ok b'.
Proof.
  intros (E1 & E2 & E3 & E4 & E5 & E6) (H1 & H2 & H3). unfold base_ok, features_ok, negotiated in *. by rewrite E1, E2, E3, E4, E5, E6.
Qed.
Lemma queue_config_mut_core chk f b : same_core b (queue_config_mut chk f b).1.
Proof.
  unfold queue_config_mut. destruct (chk && _); [done|]. destruct (get_queue b); [|done]. unfold same_core. cbn. by rewrite length_insert.
Qed.
Lemma interrupt_base_core t nr b : same_core b (interrupt_base t nr b).1.
Proof. unfold interrupt_base. destruct t; [|done]. destruct nr; cbv zeta; by destruct (_ =? _). Qed.
Lemma report_core vec features s : same_core s.1 (report_virtio_error vec features s).1.
Proof.
  unfold report_virtio_error, interrupt_cb. destruct (virtio_has_feature _ _); [|done]. pose proof (interrupt_base_core IntConfig true s.1) as H.
  by destruct (interrupt_base IntConfig true s.1).
Qed.
Lemma same_core_trans a b c : same_core a b -> same_core b c -> same_core a c.
Proof. intros (A1 & A2 & A3 & A4 & A5 & A6) (B1 & B2 & B3 & B4 & B5 & B6). unfold same_core. by rewrite B1, B2, B3, B4, B5, B6. Qed.
Lemma reports_core vec n features s : same_core s.1 (reports vec n features s).1.
Proof.
  revert s. induction n as [|n IH]; intros s; [done|]. eapply same_core_trans; [apply report_core|apply IH].
Qed.
Lemma new_ok type_ features num size_max : is_u64 features -> base_ok (VirtioBase_new type_ features num size_max).
Proof. intros Hf. split_and!; [|by cbn; rewrite length_replicate|done]. split_and!; [done|cbn; unfold inW; lia|done]. Qed.
Lemma reset_ok b : base_ok b -> base_ok (base_reset b).
Proof. intros ((H1 & _ & _) & H2 & _). split_and!; [|by cbn; rewrite length_map|done]. split_and!; [done|cbn; unfold inW; lia|done]. Qed.
Lemma set_driver_ok page value b : base_ok b -> is_u32 value -> base_ok (set_driver_features page value b).
Proof. intros (H1 & H2 & H3) Hv. split_and!; [by apply set_driver_features_ok|done|done]. Qed.

(** The part of [activate] both transports share: what is left of the base, and
    the queues if all of them were accepted. *)
Definition install_queues (vec : VirtioBase -> Z) (b : VirtioBase) (irqs : list Z) : VirtioBase * list Z * res build_err unit :=
  let features := driver_features b in
  let '(cs, n, r) := build_queues st fv features (queue_type b) (queues_config b) in
  let '(b, irqs) := reports vec n features (b, irqs) in
  let b := set_queues_config b cs in
  match r with
  | Ok qs => (set_queues b qs, irqs, Ok tt)
  | Err e => (b, irqs, Err e)
  | Panic => (b, irqs, Panic)
  end.

Lemma install_queues_ok vec b irqs : base_ok b -> device_activated b = false ->
  let '(b', irqs', r) := install_queues vec b irqs in
  base_ok b' /\ device_activated b' = false /\ device_features b' = device_features b /\ driver_features b' = driver_features b /\
  Forall2 same_queue (queues_config b) (queues_config b') /\ queue_num b' = queue_num b /\
  (r = Ok tt -> length (queues b') = queue_num b' /\ queues_valid (queues b') /\ queues b' = map vring_new (queues_config b')) /\ r <> Panic.
Proof.
  intros Hb Ha. unfold install_queues. pose proof (build_queues_spec st fv (driver_features b) (queue_type b) (queues_config b)) as Hs.
  destruct (build_queues _ _ _ _ _) as [[cs n] r]. destruct Hs as (H1 & H2 & H3). pose proof (reports_core vec n (driver_features b) (b, irqs)) as Hr.
  destruct (reports _ _ _ _) as [b1 irqs1]. cbn [fst] in Hr. pose proof (Forall2_length _ _ _ H1) as Hl. pose proof (same_core_ok _ _ Hr Hb) as (F1 & F2 & F3).
  destruct Hr as (E1 & E2 & E3 & E4 & E5 & E6). destruct Hb as (_ & G2 & _).
  assert (base_ok (set_queues_config b1 cs)) as Hok. { split_and!; [done|cbn; lia|]. cbn. by rewrite E5, Ha. }
  destruct r as [qs|e|]; [|split_and!; cbn; congruence || done..|done].
  destruct (H2 qs eq_refl) as (-> & _ & Hf). split_and!; cbn; try done; try congruence.
  - destruct Hok as (K1 & K2 & _). split_and!; [done|done|]. cbn. by rewrite E5, Ha.
  - intros _. split_and!; [rewrite length_map; lia| |done]. unfold queues_valid. by apply Forall_map.
Qed.

Lemma activated_ok b : base_ok b -> length (queues b) = queue_num b -> queues_valid (queues b) -> base_ok (set_device_activated b true).
Proof. intros (H1 & H2 & _) Hl Hv. by split_and!. Qed.
End base_facts.

(** *** Valid queues are accepted *)

Section accept.
Context (st : store) (fv : list FlatRange).
Context (Hview : view_ok st fv).
Context (Hram : forall o r, st !! o = Some r -> region_type r = Ram -> is_Some (mem_mapping r)).

(** A configuration the driver may hand over: words of their width. *)
Definition queue_wf (c : QueueConfig) : Prop :=
  0 <= q_size c < 2 ^ 16 /\ 0 <= max_size c < 2 ^ 16 /\ is_u64 (desc_table c) /\ is_u64 (avail_ring c) /\ is_u64 (used_ring c).

(** What activation makes of a configuration: only the cached host addresses
    change, and the three rings are there, byte by byte. *)
Definition queue_mapped (c c' : QueueConfig) : Prop :=
  c' = with_addr_cache c (addr_cache c') /\
  hosts st fv (desc_table c) (desc_table_host (addr_cache c')) (16 * q_size c) /\
  hosts st fv (avail_ring c) (avail_ring_host (addr_cache c')) (6 + 2 * q_size c) /\
  hosts st fv (used_ring c) (used_ring_host (addr_cache c')) (6 + 8 * q_size c).

Lemma valid_mapped c features : queue_wf c -> vring_is_valid st fv c = true ->
  (set_addr_cache st fv c features).2 = 0%nat /\ queue_mapped c (set_addr_cache st fv c features).1.
Proof.
  intros (Hq & [Hm0 _] & [Hd _] & [Ha _] & [Hu _]) Hv. pose proof (valid_ring_layout st fv Hview Hram features c Hq Hm0 Hd Ha Hu Hv) as H. cbv zeta in H.
  destruct (set_addr_cache_same st fv c features) as [a Ea]. destruct (set_addr_cache st fv c features) as [c' n]. cbn [fst snd] in *.
  destruct H as (_ & Hn & _ & -> & _ & _ & _ & H1 & H2 & H3 & _). rewrite Hn in *. split; [done|]. split_and!; try done. by rewrite Ea.
Qed.

Lemma build_queues_accept features cs : Forall (fun c => ready c = true /\ queue_wf c /\ vring_is_valid st fv c = true) cs ->
  exists cs', build_queues st fv features QUEUE_TYPE_SPLIT_VRING cs = (cs', 0%nat, Ok (map vring_new cs')) /\ Forall2 queue_mapped cs cs'.
Proof.
  induction cs as [|c cs IH]; intros Hf; [by exists []|]. apply Forall_cons in Hf as [(Hr & Hw & Hv) Hf]. destruct (IH Hf) as (cs' & E & Hm). cbn [build_queues]. change (QUEUE_TYPE_SPLIT_VRING =? QUEUE_TYPE_SPLIT_VRING) with true. cbn [negb].
  rewrite Hr. destruct (valid_mapped c features Hw Hv) as [Hn Hq]. pose proof (set_addr_cache_same st fv c features) as Hs.
  destruct (set_addr_cache st fv c features) as [c' n]. cbn [fst snd] in *. subst n. destruct (same_queue_valid st fv c c' Hs) as [-> ->]. rewrite Hv, Hr, E. cbn [negb andb].
  exists (c' :: cs'). split; [done|]. by constructor.
Qed.
End accept.

(** ** What a driver sets up *)

(** The halves of a 64-bit value, as the driver writes them. *)
Lemma join_halves a : is_u64 a -> Z.lor (wshl 64 (read_u32 a 1) 32) (read_u32 a 0) = a.
Proof.
  intros Ha. apply Z.bits_inj'. intros i Hi. rewrite hi_lo_bits by (try apply page_u32; lia). destruct (Z.ltb_spec i 32).
  - rewrite read_u32_page0 by lia. destruct (Z.ltb_spec i 32); [done|lia].
  - rewrite read_u32_page1 by (done || lia). replace (i - 32 + 32) with i by lia. destruct (Z.ltb_spec (i - 32) 32); [done|]. by rewrite (testbit_above 64 a) by (done || lia).
Qed.

Lemma has_feature_bit x n : 0 <= n < 64 -> virtio_has_feature x n = Z.testbit x n.
Proof.
  intros Hn. unfold virtio_has_feature, wshl. rewrite Z.mod_small, Z.shiftl_1_l by lia. rewrite wrap_small by (unfold inW; split; [apply Z.pow_nonneg; lia|apply Z.pow_lt_mono_r; lia]).
  destruct (Z.testbit x n) eqn:Et.
  - destruct (Z.eqb_spec (Z.land x (2 ^ n)) 0) as [E|]; [|done]. exfalso. assert (Z.testbit (Z.land x (2 ^ n)) n = true) as Hb by (by rewrite Z.land_spec, Et, Z.pow2_bits_true by lia). by rewrite E, Z.bits_0 in Hb.
  - assert (Z.land x (2 ^ n) = 0) as ->; [|done]. apply Z.bits_inj'. intros i Hi. rewrite Z.land_spec, Z.bits_0. destruct (Z.eq_dec i n) as [-> | Hne]; [by rewrite Et|]. by rewrite Z.pow2_bits_false, andb_false_r by lia.
Qed.
Lemma high_page_feature want n : is_u64 want -> 32 <= n < 64 -> virtio_has_feature (wshl 64 (read_u32 want 1) 32) n = virtio_has_feature want n.
Proof.
  intros Hw Hn. rewrite !has_feature_bit by lia. rewrite <-(join_halves want Hw) at 2. rewrite Z.lor_spec. rewrite (read_u32_page0 want n) by lia. destruct (Z.ltb_spec n 32); [lia|]. by rewrite orb_false_r.
Qed.

(** Acknowledging both pages leaves the wanted features that were offered. *)
Lemma ack_pages want b : is_u64 want -> is_u64 (device_features b) ->
  driver_features (set_driver_features 1 (read_u32 want 1) (set_driver_features 0 (read_u32 want 0) b)) = Z.land want (device_features b).
Proof.
  intros Hw Hd. unfold set_driver_features. pose proof (accepted_value b 0 (read_u32 want 0) (page_u32 _ _)) as E0. cbv zeta in E0 |- *. rewrite E0. clear E0.
  set (b1 := set_driver b _). pose proof (accepted_value b1 1 (read_u32 want 1) (page_u32 _ _)) as E1. cbv zeta in E1. rewrite E1. clear E1.
  change (1 =? 0) with false. cbn [driver_features set_driver]. unfold b1, features_page, driver_page. cbn [driver_features device_features set_driver Z.eqb].
  apply Z.bits_inj'. intros i Hi. rewrite Z.land_spec, hi_lo_bits by (try apply page_u32; try (apply land_inW; [lia|apply page_u32]); lia). destruct (Z.ltb_spec i 32).
  - rewrite read_u32_page0 by lia. rewrite hi_lo_bits by (try apply page_u32; try (apply land_inW; [lia|apply page_u32]); lia).
    destruct (Z.ltb_spec i 32); [|lia]. rewrite Z.land_spec, !read_u32_page0 by lia. destruct (Z.ltb_spec i 32); [done|lia].
  - rewrite Z.land_spec, !read_u32_page1 by (done || lia). replace (i - 32 + 32) with i by lia. destruct (Z.ltb_spec (i - 32) 32); [done|]. cbn [andb]. by rewrite (testbit_above 64 want) by (done || lia).
Qed.

(** A queue as the driver lays it out. *)
Record driver_queue := mkDriverQueue { dq_size : Z; dq_desc : Z; dq_avail : Z; dq_used : Z }.
Definition dq_config (max : Z) (q : driver_queue) : QueueConfig :=
  mkConfig (dq_desc q) (dq_avail q) (dq_used q) (mkAddrCache 0 0 0) max (dq_size q) true INVALID_VECTOR_NUM 0 0 0 false.
Definition dq_ok (q : driver_queue) : Prop := 0 <= dq_size q < 2 ^ 16 /\ is_u64 (dq_desc q) /\ is_u64 (dq_avail q) /\ is_u64 (dq_used q).
(** The changes of the configuration that its register writes make, in the order of a driver. *)
Definition dq_updates (q : driver_queue) : list (QueueConfig -> QueueConfig) :=
  [(fun c => with_size c (wrap 16 (dq_size q)));
   desc_low (read_u32 (dq_desc q) 0); desc_high (read_u32 (dq_desc q) 1);
   avail_low (read_u32 (dq_avail q) 0); avail_high (read_u32 (dq_avail q) 1);
   used_low (read_u32 (dq_used q) 0); used_high (read_u32 (dq_used q) 1);
   (fun c => with_ready c true)].
Lemma dq_updates_fresh max q : dq_ok q -> foldl (fun c f => f c) (qc_new max) (dq_updates q) = dq_config max q.
Proof.
  intros (Hs & Hd & Ha & Hu).
  cbv [dq_updates foldl used_high used_low avail_high avail_low desc_high desc_low qc_new with_ready with_used with_avail with_desc with_size dq_config
    desc_table avail_ring used_ring addr_cache max_size q_size ready vector next_avail next_used last_signal_used signal_used_valid].
  assert (forall a, is_u64 a -> Z.lor (Z.lor 0 (read_u32 a 0)) (wshl 64 (read_u32 a 1) 32) = a) as Hj. { intros a Ha'. rewrite Z.lor_0_l, Z.lor_comm. by apply join_halves. }
  rewrite (Hj (dq_desc q) Hd), (Hj (dq_avail q) Ha), (Hj (dq_used q) Hu). by rewrite wrap_small.
Qed.

(** A run of updates of the selected queue, in the phase that allows them. *)
Definition can_configure (b : VirtioBase) : Prop := check_device_status b CONFIG_STATUS_FEATURES_OK (Z.lor CONFIG_STATUS_DRIVER_OK CONFIG_STATUS_FAILED) = true.
Lemma queue_config_mut_ok chk f b pre c post : can_configure b -> queues_config b = pre ++ c :: post -> queue_select b = Z.of_nat (length pre) ->
  queue_config_mut chk f b = (set_queues_config b (pre ++ f c :: post), Ok tt).
Proof.
  intros Hc Eq Es. unfold queue_config_mut, get_queue. rewrite Hc, andb_false_r, Es, Nat2Z.id, Eq. rewrite list_lookup_middle by done. rewrite <-(Nat.add_0_r (length pre)), insert_app_r. done.
Qed.

(** ** Saved state *)

(** A device that is not started comes back as it was. *)
Lemma base_state_roundtrip st fv vec b b0 irqs : (length (queues_config b) <= 32)%nat -> length (queues_config b) = queue_num b0 -> queues b = [] ->
  exists s, get_state b = Ok s /\
    set_state st fv vec s (b0, irqs) =
      Ok (mkBase (device_type b0) (device_features b0) (driver_features b0) (hfeatures_sel b) (gfeatures_sel b) (interrupt_status b) (device_status b) (device_activated b)
            (config_generation b) (config_vector b) (queue_type b) (queue_num b0) (queue_size_max b0) (queue_select b) (queues_config b) (queues b0) (broken b0), irqs).
Proof.
  intros Hl Hn Hq. unfold get_state. rewrite Hq. destruct (Nat.ltb_spec 32 (length (queues_config b))); [lia|]. cbn [length Nat.ltb Nat.leb orb map]. eexists. split; [reflexivity|].
  unfold set_state, overlay. cbn [s_queues_config s_queue_num s_queue_type s_hfeatures_sel s_gfeatures_sel s_interrupt_status s_device_status s_activated s_generation s_config_vector s_queue_select app length Nat.eqb].
  rewrite drop_0. rewrite length_app. destruct (Nat.ltb_spec (length (queues_config b) + length (drop (length (queues_config b)) (replicate 32 qc_default))) (queue_num b0)); [lia|].
  rewrite <-Hn, take_app_length. done.
Qed.

(** The state has room for 32 queues: saving a device with more panics. *)
Example state_of_many_queues : get_state (VirtioBase_new 1 0 33 256) = Panic.
Proof. reflexivity. Qed.

(** ** A device with sixteen bytes of configuration *)

#[export] Instance bytes_device : VirtioDevice (list Z) := {
  vd_read_config d offset data := read_config_default d offset data;
  vd_write_config d offset data :=
    if check_config_space_rw d offset (Z.of_nat (length data)) then (splice d (Z.to_nat offset) data, true) else (d, false);
  vd_activate _ d := (d, true);
  vd_deactivate d := (d, true)
}.

(** The device offers [VIRTIO_F_VERSION_1] and [VIRTIO_F_RING_EVENT_IDX]. *)
Definition ex_offer : Z := 0x120000000.
Definition ex_queue : driver_queue := mkDriverQueue 4 0x1000 0x2000 0x3000.
