(* ===== verification/VirtioMmio.v ===== *)
(** * The virtio MMIO transport ([virtio/src/transport/virtio_mmio.rs])

    The registers of a virtio device behind a page of MMIO space: feature
    negotiation, queue setup, activation, the interrupt status.  The device type is
    an instance of [VirtioDevice]; guest memory is a store and its flat view. *)
From stdpp Require Import prelude list gmap.
From Stdlib Require Import ZArith Lia.
From S2P Require Import Prelude NumOps Address Region FlatView SplitVring VirtioBase.

(** ** Device *)

(** [irqs] is the log of writes to the interrupt event, [started] that of the
    queues of successful activations. *)
Record VirtioMmioDevice (D : Type) := mkMmio {
  base : VirtioBase;
  dev : D;
  irqs : list Z;
  started : list (list SplitVring)
}.
Arguments mkMmio {D}.
Arguments base {D}.
Arguments dev {D}.
Arguments irqs {D}.
Arguments started {D}.

Definition MMIO_MAGIC_VALUE : Z := 0x74726976.
Definition MMIO_VERSION : Z := 2.

Definition read_common_config (offset : Z) (b : VirtioBase) : option Z :=
  match offset with
  | 0x00 => Some MMIO_MAGIC_VALUE
  | 0x04 => Some MMIO_VERSION
  | 0x08 => Some (device_type b)
  | 0x0c => Some 0
  | 0x10 =>
    let features := features_page b (hfeatures_sel b) in
    Some (if hfeatures_sel b =? 1 then Z.lor features 1 else features)
  | 0x34 => c ← get_queue b; Some (max_size c)
  | 0x44 => c ← get_queue b; Some (if ready c then 1 else 0)
  | 0x60 => Some (interrupt_status b)
  | 0x70 => Some (device_status b)
  | 0xfc => Some (config_generation b)
  | 0xb0 | 0xb4 => Some (2 ^ 32 - 1)
  | _ => None
  end.

Definition write_common_config (offset value : Z) (b : VirtioBase) : VirtioBase * bool :=
  let queue f := let '(b, r) := queue_config_mut true f b in (b, is_ok r) in
  match offset with
  | 0x14 => (set_hfeatures_sel b value, true)
  | 0x20 =>
    if check_device_status b CONFIG_STATUS_DRIVER (Z.lor CONFIG_STATUS_FEATURES_OK CONFIG_STATUS_FAILED) then
      let sel := gfeatures_sel b in
      let b := set_driver_features sel value b in
      (if (sel =? 1) && virtio_has_feature (wshl 64 value 32) VIRTIO_F_RING_PACKED then set_queue_type b QUEUE_TYPE_PACKED_VRING else b, true)
    else (b, false)
  | 0x24 => (set_gfeatures_sel b value, true)
  | 0x30 => (set_queue_select b (wrap 16 value), true)
  | 0x38 => queue (fun c => with_size c (wrap 16 value))
  | 0x44 => queue (fun c => with_ready c (value =? 1))
  | 0x64 =>
    (if check_device_status b CONFIG_STATUS_DRIVER_OK 0 then set_interrupt_status b (Z.land (interrupt_status b) (wnot 32 value)) else b, true)
  | 0x70 => (set_device_status b value, true)
  | 0x80 => queue (desc_low value)
  | 0x84 => queue (desc_high value)
  | 0x90 => queue (avail_low value)
  | 0x94 => queue (avail_high value)
  | 0xa0 => queue (used_low value)
  | 0xa4 => queue (used_high value)
  | _ => (b, false)
  end.

Section mmio.
Context {D : Type} `{!VirtioDevice D} (st : store) (fv : list FlatRange).
Implicit Types t : VirtioMmioDevice D.

Definition mmio_vec (_ : VirtioBase) : Z := 0.
Definition with_base b t : VirtioMmioDevice D := mkMmio b (dev t) (irqs t) (started t).

(** The interrupt callback, as the device calls it. *)
Definition mmio_interrupt (ty : VirtioInterruptType) (needs_reset : bool) t : VirtioMmioDevice D :=
  let '(b, i) := interrupt_cb mmio_vec ty needs_reset (base t, irqs t) in mkMmio b (dev t) i (started t).

Definition activate t : VirtioMmioDevice D * bool :=
  let '(b, i, r) := install_queues st fv mmio_vec (base t) (irqs t) in
  match r with
  | Ok _ =>
    let '(d, ok) := vd_activate b (dev t) in
    (mkMmio b d i (if ok then started t ++ [queues b] else started t), ok)
  | _ => (mkMmio b (dev t) i (started t), false)
  end.

Definition STATUS_READY : Z :=
  Z.lor (Z.lor (Z.lor CONFIG_STATUS_ACKNOWLEDGE CONFIG_STATUS_DRIVER) CONFIG_STATUS_DRIVER_OK) CONFIG_STATUS_FEATURES_OK.

Definition mmio_read (data : list Z) (offset : Z) t : bool * list Z :=
  if (offset <=? 0xff) && (length data =? 4)%nat then
    match read_common_config offset (base t) with
    | Some v => (true, le_bytes 4 v)
    | None => (false, data)
    end
  else if (0x100 <=? offset) && (offset <=? 0xfff) then
    match vd_read_config (dev t) (offset - 0x100) data with
    | Some data => (true, data)
    | None => (false, data)
    end
  else (true, data).

Definition mmio_write (data : list Z) (offset : Z) t : VirtioMmioDevice D * bool :=
  if (offset <=? 0xff) && (length data =? 4)%nat then
    let '(b, ok) := write_common_config offset (le_val data) (base t) in
    let t := with_base b t in
    if negb ok then (t, false)
    else if check_device_status b STATUS_READY CONFIG_STATUS_FAILED && negb (device_activated b) then
      let '(t, ok) := activate t in
      if ok then (with_base (set_device_activated (base t) true) t, true) else (t, false)
    else (t, true)
  else if (0x100 <=? offset) && (offset <=? 0xfff) then
    if check_device_status (base t) CONFIG_STATUS_DRIVER CONFIG_STATUS_FAILED then
      let '(d, ok) := vd_write_config (dev t) (offset - 0x100) data in
      (mkMmio (base t) d (irqs t) (started t), ok)
    else (t, false)
  else (t, false).

(** ** The protocol *)

Inductive mmio_event :=
| MmioWrite (offset : Z) (data : list Z)
| MmioInterrupt (ty : VirtioInterruptType) (needs_reset : bool).
Definition mmio_step t (e : mmio_event) : VirtioMmioDevice D :=
  match e with
  | MmioWrite offset data => (mmio_write data offset t).1
  | MmioInterrupt ty nr => mmio_interrupt ty nr t
  end.
Definition mmio_ev_ok (e : mmio_event) : Prop := match e with MmioWrite offset data => 0 <= offset /\ is_bytes data | _ => True end.

(** What a status write must have said for a step to be allowed. *)
Definition in_phase (b : VirtioBase) (set clr : Z) : Prop := check_device_status b set clr = true.

(** The phases of the protocol: features change only before [FEATURES_OK], queues
    only between [FEATURES_OK] and [DRIVER_OK], and the device starts once, with
    all four bits set. *)
Definition phases t t' : Prop :=
  (driver_features (base t') <> driver_features (base t) -> in_phase (base t) CONFIG_STATUS_DRIVER (Z.lor CONFIG_STATUS_FEATURES_OK CONFIG_STATUS_FAILED)) /\
  (~ Forall2 same_queue (queues_config (base t)) (queues_config (base t')) -> in_phase (base t) CONFIG_STATUS_FEATURES_OK (Z.lor CONFIG_STATUS_DRIVER_OK CONFIG_STATUS_FAILED)) /\
  (started t' <> started t -> device_activated (base t) = false).

Definition mmio_ok features t : Prop :=
  base_ok st fv (base t) /\ device_features (base t) = features /\
  (if device_activated (base t) then exists qs, started t = [qs] /\ length qs = queue_num (base t) /\ queues_valid st fv qs else started t = []).

Lemma same_queues_refl (l : list QueueConfig) : Forall2 same_queue l l.
Proof. induction l; constructor; auto using same_queue_refl. Qed.

Lemma phases_refl t : phases t t.
Proof. split_and!; [done| |done]. intros Hn. destruct Hn. apply same_queues_refl. Qed.

(** A register write, as far as the protocol is concerned. *)
Definition guarded (b b' : VirtioBase) : Prop :=
  base_ok st fv b' /\ device_features b' = device_features b /\ device_activated b' = device_activated b /\ queue_num b' = queue_num b /\
  (driver_features b' <> driver_features b -> in_phase b CONFIG_STATUS_DRIVER (Z.lor CONFIG_STATUS_FEATURES_OK CONFIG_STATUS_FAILED)) /\
  (~ Forall2 same_queue (queues_config b) (queues_config b') -> in_phase b CONFIG_STATUS_FEATURES_OK (Z.lor CONFIG_STATUS_DRIVER_OK CONFIG_STATUS_FAILED)).
Lemma guarded_same b b' : base_ok st fv b -> same_core b b' -> queues_config b' = queues_config b -> guarded b b'.
Proof.
  intros Hb Hc Eq. pose proof Hc as (E1 & E2 & E3 & E4 & E5 & E6). split_and!; [by eapply same_core_ok|done..| |]; [done|]. rewrite Eq. intros Hn. destruct Hn. apply same_queues_refl.
Qed.
Lemma guarded_queue f b : base_ok st fv b -> guarded b (queue_config_mut true f b).1.
Proof.
  intros Hb. pose proof (queue_config_mut_core true f b) as Hc. unfold queue_config_mut in *. cbn [andb] in *.
  destruct (check_device_status b CONFIG_STATUS_FEATURES_OK _) eqn:Ep; cbn [negb fst] in *; [|by apply guarded_same].
  destruct (get_queue b); [|by apply guarded_same]. cbn [fst] in *. pose proof Hc as (E1 & E2 & E3 & E4 & E5 & E6). split_and!; [by eapply same_core_ok|done..].
Qed.
Lemma guarded_features page value qt b : base_ok st fv b -> is_u32 value -> in_phase b CONFIG_STATUS_DRIVER (Z.lor CONFIG_STATUS_FEATURES_OK CONFIG_STATUS_FAILED) ->
  guarded b (set_queue_type (set_driver_features page value b) qt).
Proof.
  intros Hb Hv Hp. pose proof (set_driver_ok st fv page value b Hb Hv) as Hok. split_and!; try done. intros Hn. destruct Hn. apply same_queues_refl.
Qed.
Lemma write_common_ok offset value b : is_u32 value -> base_ok st fv b -> guarded b (write_common_config offset value b).1.
Proof.
  intros Hv Hb. assert (forall f, guarded b (let '(b', r) := queue_config_mut true f b in (b', is_ok r)).1) as Hqueue.
  { intros f. pose proof (guarded_queue f b Hb) as H. by destruct (queue_config_mut true f b). }
  assert (forall b', same_core b b' -> queues_config b' = queues_config b -> guarded b b') as Hsame by eauto using guarded_same.
  unfold write_common_config. destruct offset as [|q|q]; [by apply Hsame| |by apply Hsame].
  repeat (destruct q as [q|q|]; try (by apply Hsame); try (by apply Hqueue)).
  - destruct (check_device_status b CONFIG_STATUS_DRIVER_OK 0); by apply Hsame.
  - destruct (check_device_status b CONFIG_STATUS_DRIVER _) eqn:Ep; [|by apply Hsame]. destruct (_ && _); cbn [fst]; [by apply guarded_features|].
    apply (guarded_features (gfeatures_sel b) value (queue_type b) b Hb Hv Ep).
Qed.

Lemma is_u32_data data : is_bytes data -> length data = 4%nat -> is_u32 (le_val data).
Proof. intros Hd Hl. pose proof (le_val_bound data Hd) as H. rewrite Hl in H. exact H. Qed.

(** Activation, from a device that is not active. *)
Lemma activate_ok features t : mmio_ok features t -> device_activated (base t) = false ->
  let '(t', ok) := activate t in
  driver_features (base t') = driver_features (base t) /\ Forall2 same_queue (queues_config (base t)) (queues_config (base t')) /\ device_features (base t') = features /\
  base_ok st fv (base t') /\ device_activated (base t') = false /\ queue_num (base t') = queue_num (base t) /\
  (if ok then started t' = [queues (base t')] /\ length (queues (base t')) = queue_num (base t') /\ queues_valid st fv (queues (base t')) else started t' = []).
Proof.
  intros (Hb & Hf & Hs) Ha. rewrite Ha in Hs. unfold activate. pose proof (install_queues_ok st fv mmio_vec (base t) (irqs t) Hb Ha) as Hi.
  destruct (install_queues _ _ _ _ _) as [[b i] r]. destruct Hi as (I1 & I2 & I3 & I4 & I5 & I6 & I7 & I8).
  destruct r as [[]|e|]; [|split_and!; cbn; congruence|done]. destruct (I7 eq_refl) as (J1 & J2 & J3).
  destruct (vd_activate b (dev t)) as [d ok]. destruct ok; split_and!; cbn; try congruence; try done. by rewrite Hs.
Qed.

Lemma mmio_step_ok features t e : mmio_ok features t -> mmio_ev_ok e -> mmio_ok features (mmio_step t e) /\ phases t (mmio_step t e) /\ queue_num (base (mmio_step t e)) = queue_num (base t).
Proof.
  intros Ht He. destruct e as [offset data|ty nr]; cbn [mmio_step].
  - destruct He as [Ho Hd]. unfold mmio_write. destruct (Z.leb offset 0xff && (length data =? 4)%nat) eqn:Er.
    + apply andb_prop in Er as [_ El]. apply Nat.eqb_eq in El. pose proof Ht as (Hb & Hf & Hs).
      pose proof (write_common_ok offset (le_val data) (base t) (is_u32_data data Hd El) Hb) as (G1 & G2 & G3 & G4 & G5 & G6).
      destruct (write_common_config offset (le_val data) (base t)) as [b ok]. cbn [fst] in *.
      assert (mmio_ok features (with_base b t)) as Hw. { split_and!; [done|by cbn; rewrite G2|]. cbn. rewrite G3, G4. done. }
      assert (phases t (with_base b t) /\ queue_num (base (with_base b t)) = queue_num (base t)) as Hp by (split; [by split_and!|done]).
      destruct ok; cbn [negb]; [|done]. destruct (check_device_status b STATUS_READY CONFIG_STATUS_FAILED && negb (device_activated b)) eqn:Ec; [|done].
      apply andb_prop in Ec as [_ Ea]. apply negb_true_iff in Ea. pose proof (activate_ok features (with_base b t) Hw Ea) as HA. rewrite G3 in Ea.
      destruct (activate (with_base b t)) as [t' ok]. cbn [base with_base] in HA. destruct HA as (A1 & A2 & A3 & A4 & A5 & A6 & A7).
      assert (phases t t') as Hph.
      { split_and!; [intros; apply G5; congruence| |done]. intros Hn. apply G6. intros Hsame. apply Hn. clear -Hsame A2. revert A2. generalize (queues_config (base t')). induction Hsame as [|x y l l' [a ->] Hs IH]; intros l2 H2; inversion H2 as [|? z ? l3 [a' ->] Hz]; subst; constructor; [by exists a'|by apply IH]. }
      destruct ok; cbn [fst].
      * destruct A7 as (B1 & B2 & B3). split; [|split; [exact Hph|cbn; congruence]]. split; [by apply activated_ok|]. split; [exact A3|]. by exists (queues (base t')).
      * split; [|split; [exact Hph|congruence]]. split; [done|]. split; [exact A3|]. by rewrite A5.
    + destruct ((0x100 <=? offset) && (offset <=? 0xfff)); [|by split; [|split; [apply phases_refl|]]]. destruct (check_device_status _ _ _); [|by split; [|split; [apply phases_refl|]]].
      destruct (vd_write_config _ _ _) as [d ok]. split; [done|]. split; [|done]. by apply (phases_refl t).
  - unfold mmio_interrupt, interrupt_cb. cbn [fst snd]. pose proof (interrupt_base_core ty nr (base t)) as Hc. assert (queues_config (interrupt_base ty nr (base t)).1 = queues_config (base t)) as Hq. { destruct ty, nr; cbn; try done; by destruct (_ =? _). }
    destruct (interrupt_base ty nr (base t)) as [b raised]. cbn [fst] in *. destruct Ht as (Hb & Hf & Hs). pose proof Hc as (E1 & E2 & E3 & E4 & E5 & E6). split; [split; [by eapply same_core_ok|split; [cbn; congruence|cbn]]|split; [|cbn; congruence]].
    + by rewrite E5, E3.
    + split_and!; cbn; [done| |done]. rewrite Hq. intros Hn. destruct Hn. apply same_queues_refl.
Qed.

(** ** A driver's setup *)

Fixpoint mmio_writes (ws : list (Z * Z)) t : VirtioMmioDevice D * bool :=
  match ws with
  | [] => (t, true)
  | (offset, v) :: ws =>
    let '(t, ok) := mmio_write (le_bytes 4 v) offset t in
    let '(t, oks) := mmio_writes ws t in (t, ok && oks)
  end.

Definition queue_regs (i : nat) (q : driver_queue) : list (Z * Z) :=
  [(0x38, dq_size q);
   (0x80, read_u32 (dq_desc q) 0); (0x84, read_u32 (dq_desc q) 1);
   (0x90, read_u32 (dq_avail q) 0); (0x94, read_u32 (dq_avail q) 1);
   (0xa0, read_u32 (dq_used q) 0); (0xa4, read_u32 (dq_used q) 1);
   (0x44, 1)].
Fixpoint setup_queues (i : nat) (qs : list driver_queue) : list (Z * Z) :=
  match qs with
  | [] => []
  | q :: qs => (0x30, Z.of_nat i) :: queue_regs i q ++ setup_queues (S i) qs
  end.
(** The initialization sequence of the virtio specification. *)
Definition setup (want : Z) (qs : list driver_queue) : list (Z * Z) :=
  [(0x70, 0x1); (0x70, 0x3); (0x24, 0); (0x20, read_u32 want 0); (0x24, 1); (0x20, read_u32 want 1); (0x70, 0xb)] ++
  setup_queues 0 qs ++ [(0x70, 0xf)].

(** A register write that does not start the device. *)
Definition idle (b : VirtioBase) : Prop := check_device_status b STATUS_READY CONFIG_STATUS_FAILED = false.
Lemma reg_write offset v ws t b : 0 <= offset <= 0xff -> is_u32 v -> write_common_config offset v (base t) = (b, true) -> idle b ->
  mmio_writes ((offset, v) :: ws) t = mmio_writes ws (with_base b t).
Proof.
  intros Ho Hv E Hi. cbn [mmio_writes]. unfold mmio_write. destruct (Z.leb_spec offset 0xff); [|lia]. rewrite le_bytes_length. cbn [andb Nat.eqb]. rewrite le_val_u32, E by done. cbn [negb]. rewrite Hi. cbn [andb].
  by destruct (mmio_writes ws (with_base b t)).
Qed.

(** The register writes of one queue, as updates of its configuration. *)
Lemma queue_run regs fs ws t b pre c post : base t = b ->
  Forall2 (fun ov f => 0 <= ov.1 <= 0xff /\ is_u32 ov.2 /\ forall b, write_common_config ov.1 ov.2 b = (let '(b, r) := queue_config_mut true f b in (b, is_ok r))) regs fs ->
  can_configure b -> idle b -> queues_config b = pre ++ c :: post -> queue_select b = Z.of_nat (length pre) ->
  mmio_writes (regs ++ ws) t = mmio_writes ws (with_base (set_queues_config b (pre ++ foldl (fun c f => f c) c fs :: post)) t).
Proof.
  intros Eb Hf. revert t b c Eb. induction Hf as [|[offset v] f regs fs (Ho & Hv & Hw) Hf IH]; intros t b c Eb Hc Hi Eq Es.
  - cbn [app foldl]. f_equal. destruct t, b. cbn in *. subst. done.
  - cbn [fst snd] in *. rewrite <-app_comm_cons. rewrite (reg_write _ _ _ _ (set_queues_config b (pre ++ f c :: post)) Ho Hv).
    + by rewrite (IH (with_base (set_queues_config b (pre ++ f c :: post)) t) (set_queues_config b (pre ++ f c :: post)) (f c) eq_refl).
    + rewrite Hw, Eb, (queue_config_mut_ok _ _ _ _ _ _ Hc Eq Es). done.
    + done.
Qed.
Lemma queue_regs_updates i q : dq_ok q ->
  Forall2 (fun ov f => 0 <= ov.1 <= 0xff /\ is_u32 ov.2 /\ forall b, write_common_config ov.1 ov.2 b = (let '(b, r) := queue_config_mut true f b in (b, is_ok r))) (queue_regs i q) (dq_updates q).
Proof.
  intros ([Hs0 Hs] & _). unfold queue_regs, dq_updates. repeat apply Forall2_cons_2; try apply Forall2_nil_2; (split; [cbn; lia|split; [cbn [snd]; try apply page_u32; unfold inW; lia|done]]).
Qed.

Lemma setup_queues_run max qs ws t b pre : base t = b -> can_configure b -> idle b -> Forall dq_ok qs -> Z.of_nat (length pre + length qs) < 2 ^ 16 ->
  queues_config b = pre ++ replicate (length qs) (qc_new max) ->
  exists b', mmio_writes (setup_queues (length pre) qs ++ ws) t = mmio_writes ws (with_base b' t) /\
    (exists sel, b' = set_queues_config (set_queue_select b sel) (pre ++ map (dq_config max) qs)).
Proof.
  revert t b pre. induction qs as [|q qs IH]; intros t b pre Eb Hc Hi Hf Hl Eq.
  - exists b. split; [cbn [setup_queues app]; f_equal; destruct t; cbn in *; by subst|]. exists (queue_select b). cbn in *. rewrite <-Eq. by destruct b.
  - apply Forall_cons in Hf as [Hq Hf]. cbn [setup_queues length replicate app] in *. rewrite <-app_assoc.
    set (b1 := set_queue_select b (Z.of_nat (length pre))).
    assert (is_u32 (Z.of_nat (length pre))) as Hu by (unfold inW; lia).
    rewrite (reg_write 0x30 (Z.of_nat (length pre)) _ t b1); [|lia|done| |done]; [|rewrite Eb; cbn [write_common_config]; rewrite wrap_small by (unfold inW; lia); done].
    rewrite (queue_run (queue_regs (length pre) q) (dq_updates q) _ (with_base b1 t) b1 pre (qc_new max) (replicate (length qs) (qc_new max))); [|done|by apply queue_regs_updates|done..].
    rewrite dq_updates_fresh by done. set (b2 := set_queues_config b1 _).
    destruct (IH (with_base b2 (with_base b1 t)) b2 (pre ++ [dq_config max q])) as (b' & E & sel & Hb'); [done..|rewrite length_app; cbn; lia|by cbn; rewrite <-app_assoc|].
    exists b'. split; [rewrite length_app, Nat.add_1_r in E; exact E|]. exists sel. rewrite Hb'. by rewrite <-app_assoc.
Qed.

Definition fresh (type_ features : Z) (num : nat) (max : Z) (d : D) : VirtioMmioDevice D := mkMmio (VirtioBase_new type_ features num max) d [] [].

(** Whatever registers a guest writes, in any order and with any values, and
    whenever the device raises interrupts: the negotiated features stay within the
    offer, the device starts at most once and only with every queue in use valid,
    and each step keeps to the phases of the protocol. *)
Theorem virtio_mmio_protocol type_ features num max d evs :
  is_u64 features -> Forall mmio_ev_ok evs ->
  let t := foldl mmio_step (fresh type_ features num max d) evs in
  mmio_ok features t /\ queue_num (base t) = num /\ (forall e, mmio_ev_ok e -> phases t (mmio_step t e)).
Proof.
  intros Hf Hev. cbv zeta. cut (forall t, mmio_ok features t -> mmio_ok features (foldl mmio_step t evs) /\ queue_num (base (foldl mmio_step t evs)) = queue_num (base t)).
  { intros H. destruct (H (fresh type_ features num max d)) as [Ht Hn]; [split_and!; [by apply new_ok|done..]|]. split_and!; [done|done|]. intros e He. by destruct (mmio_step_ok features _ e Ht He) as (_ & ? & _). }
  induction Hev as [|e evs He Hev IH]; intros t Ht; [done|]. cbn [foldl]. destruct (mmio_step_ok features t e Ht He) as (Ht' & _ & Hn). destruct (IH _ Ht') as [H1 H2]. split; [done|]. by rewrite H2.
Qed.

(** C21: A driver that follows the initialization sequence, and does not ask for
    packed rings, gets a running device of any type that activates: all its writes
    are accepted, the features it wanted and the device offers are negotiated, and
    the device is started once, on exactly the queues laid out, with every byte of
    their rings mapped to the host memory behind it, and no error raised.  The
    queues must be valid: in guest memory, aligned, disjoint, of a permitted size. *)
Theorem virtio_mmio_setup type_ features max d want qs :
  view_ok st fv -> (forall o r, st !! o = Some r -> region_type r = Ram -> is_Some (mem_mapping r)) ->
  is_u64 features -> is_u64 want -> virtio_has_feature want VIRTIO_F_RING_PACKED = false ->
  0 <= max < 2 ^ 16 -> Z.of_nat (length qs) < 2 ^ 16 -> Forall (fun q => dq_ok q /\ vring_is_valid st fv (dq_config max q) = true) qs ->
  (forall b, (vd_activate b d).2 = true) ->
  exists t, mmio_writes (setup want qs) (fresh type_ features (length qs) max d) = (t, true) /\
    device_activated (base t) = true /\ device_status (base t) = 0xf /\ driver_features (base t) = Z.land want features /\
    Forall2 (queue_mapped st fv) (map (dq_config max) qs) (queues_config (base t)) /\ started t = [map vring_new (queues_config (base t))] /\ irqs t = [].
Proof.
  intros Hview Hram Hf Hw Hp Hmax Hl Hqs Hact. unfold setup, fresh. set (b0 := VirtioBase_new type_ features (length qs) max).
  assert (Forall dq_ok qs /\ Forall (fun q => vring_is_valid st fv (dq_config max q) = true) qs) as [Hdq Hval] by (by apply Forall_and).
  assert (is_u32 1 /\ is_u32 3 /\ is_u32 0 /\ is_u32 11 /\ is_u32 15) as (U1 & U3 & U0 & U11 & U15) by (unfold inW; lia).
  cbn [app]. rewrite (reg_write 0x70 1 _ _ (set_device_status b0 1)) by (done || lia). rewrite (reg_write 0x70 3 _ _ (set_device_status b0 3)) by (done || lia).
  rewrite (reg_write 0x24 0 _ _ (set_device_status b0 3)) by (done || lia).
  set (b1 := set_driver_features 0 (read_u32 want 0) (set_device_status b0 3)).
  rewrite (reg_write 0x20 (read_u32 want 0) _ _ b1) by (done || lia || apply page_u32).
  rewrite (reg_write 0x24 1 _ _ (set_gfeatures_sel b1 1)) by (done || lia).
  set (b2 := set_driver_features 1 (read_u32 want 1) (set_gfeatures_sel b1 1)).
  rewrite (reg_write 0x20 (read_u32 want 1) _ _ b2); [|lia|apply page_u32| |done]; [|cbn [write_common_config base with_base]; change (check_device_status (set_gfeatures_sel b1 1) CONFIG_STATUS_DRIVER (Z.lor CONFIG_STATUS_FEATURES_OK CONFIG_STATUS_FAILED)) with true; cbv iota zeta; change (gfeatures_sel (set_gfeatures_sel b1 1)) with 1; rewrite high_page_feature, Hp by (done || (unfold VIRTIO_F_RING_PACKED; lia)); done].
  rewrite (reg_write 0x70 11 _ _ (set_device_status b2 11)) by (done || lia).
  match goal with |- exists t, mmio_writes _ ?t0 = _ /\ _ => destruct (setup_queues_run max qs [(0x70, 0xf)] t0 (set_device_status b2 11) []) as (b' & E & sel & Hb'); [done..| |done|] end; [cbn [length]; lia|].
  cbn [length] in E. rewrite E. clear E. cbn [app] in Hb'. set (b3 := set_device_status b' 15).
  destruct (build_queues_accept st fv Hview Hram (driver_features b3) (map (dq_config max) qs)) as (cs & Ecs & Hmapped).
  { apply Forall_map. eapply Forall_impl; [exact Hqs|]. intros q [(H1 & H2 & H3 & H4) H5]. split; [done|]. split; [|exact H5]. unfold queue_wf. cbn [dq_config q_size max_size desc_table avail_ring used_ring]. done. }
  assert (queues_config b3 = map (dq_config max) qs /\ queue_type b3 = QUEUE_TYPE_SPLIT_VRING /\ device_activated b3 = false /\ device_status b3 = 15) as (Q1 & Q2 & Q3 & Q4) by (unfold b3; rewrite Hb'; done).
  assert (driver_features b3 = Z.land want features) as Q5 by (unfold b3; rewrite Hb'; exact (ack_pages want (set_device_status b0 3) Hw Hf)).
  set (b4 := set_queues (set_queues_config b3 cs) (map vring_new cs)).
  exists (mkMmio (set_device_activated b4 true) (vd_activate b4 d).1 [] [map vring_new cs]).
  split; [|by split_and!].
  cbn [mmio_writes]. unfold mmio_write. rewrite le_bytes_length, le_val_u32 by done. change ((0x70 <=? 0xff) && (4 =? 4)%nat) with true. cbv iota. cbn [write_common_config base with_base]. fold b3. cbn [negb].
  assert (check_device_status b3 STATUS_READY CONFIG_STATUS_FAILED = true) as -> by (unfold check_device_status; by rewrite Q4). rewrite Q3. cbn [andb negb].
  unfold activate, install_queues. cbn [base dev irqs started with_base]. rewrite Q1, Q2, Ecs. cbn [reports]. fold b4. specialize (Hact b4). destruct (vd_activate b4 d) as [d' ok]. cbn [snd] in Hact. by subst ok.
Qed.
End mmio.

(** ** An example device *)

Definition ex_fresh : VirtioMmioDevice (list Z) := fresh 2 ex_offer 1 256 (replicate 16 0).

Lemma virtio_mmio_setup_witness :
  exists t, mmio_writes ex_vstore ex_vview (setup 0x300000001 [ex_queue]) ex_fresh = (t, true) /\ driver_features (base t) = 0x100000000 /\
    Forall2 (queue_mapped ex_vstore ex_vview) [dq_config 256 ex_queue] (queues_config (base t)).
Proof.
  destruct (virtio_mmio_setup ex_vstore ex_vview 2 ex_offer 256 (replicate 16 0) 0x300000001 [ex_queue]) as (t & E & _ & _ & Hd & Hm & _).
  - exact ex_vview_ok.
  - exact ex_vram.
  - unfold inW, ex_offer. lia.
  - unfold inW. lia.
  - reflexivity.
  - lia.
  - cbn. lia.
  - apply Forall_singleton. split; [unfold dq_ok, inW; cbn; lia|vm_compute; reflexivity].
  - reflexivity.
  - exists t. split; [exact E|]. split; [rewrite Hd; reflexivity|exact Hm].
Defined.

Lemma virtio_mmio_protocol_witness :
  mmio_ok ex_vstore ex_vview ex_offer (foldl (mmio_step ex_vstore ex_vview) ex_fresh [MmioWrite 0x70 (le_bytes 4 0x3); MmioWrite 0x20 (le_bytes 4 0xffffffff); MmioInterrupt IntConfig true]).
Proof.
  apply (virtio_mmio_protocol ex_vstore ex_vview 2 ex_offer 1 256 (replicate 16 0) [MmioWrite 0x70 (le_bytes 4 0x3); MmioWrite 0x20 (le_bytes 4 0xffffffff); MmioInterrupt IntConfig true]).
  - unfold inW, ex_offer. lia.
  - repeat apply Forall_cons_2; try (split; [lia|apply le_bytes_is_bytes]); [exact I|by apply Forall_nil].
Defined.

(** A driver that resets the device and sets it up again at other addresses: the
    device is not started again, and the registers hold the old and the new
    addresses combined. *)
Example reset_is_ignored :
  let q := mkDriverQueue 4 0x4000 0x5000 0x6000 in
  let t := (mmio_writes ex_vstore ex_vview (setup 0 [ex_queue] ++ [(0x70, 0)] ++ setup 0 [q]) ex_fresh).1 in
  map (fun c => (desc_table c, avail_ring c, used_ring c)) (queues_config (base t)) = [(0x5000, 0x7000, 0x7000)] /\ length (started t) = 1%nat.
Proof. vm_compute. done. Qed.

(** Selecting a page of features beyond the second clears the upper half of the
    features already acknowledged. *)
Example third_page_clears :
  let b := set_device_status (VirtioBase_new 2 ex_offer 1 256) 0x3 in
  let b := set_driver_features 1 1 b in
  driver_features b = 0x100000000 /\ driver_features (set_driver_features 2 0xffffffff b) = 0.
Proof. vm_compute. done. Qed.

(** A driver that acknowledges packed rings, which the device does not offer, gets
    a device that cannot be started. *)
Example unoffered_packed_ring :
  let t := mmio_writes ex_vstore ex_vview (setup 0x400000000 [ex_queue]) ex_fresh in
  driver_features (base t.1) = 0 /\ queue_type (base t.1) = QUEUE_TYPE_PACKED_VRING /\ t.2 = false /\ device_activated (base t.1) = false.
Proof. vm_compute. done. Qed.
