(* ===== verification/VirtioPci.v ===== *)
(** * The virtio PCI transport ([virtio/src/transport/virtio_pci.rs])

    The common configuration and the interrupt status region of a virtio device on
    a PCI bus.  The MSI-X table and INTx are components of their own ([Msix],
    [Intx]); here an interrupt is the vector it is raised with. *)
From stdpp Require Import prelude list gmap.
From Stdlib Require Import ZArith Lia.
From S2P Require Import Prelude NumOps Address Region FlatView SplitVring VirtioBase.

(** ** Device *)

Record VirtioPciDevice (D : Type) := mkPciDev {
  pbase : VirtioBase;
  pdev : D;
  pirqs : list Z;
  pstarted : list (list SplitVring)
}.
Arguments mkPciDev {D}.
Arguments pbase {D}.
Arguments pdev {D}.
Arguments pirqs {D}.
Arguments pstarted {D}.

(** What the access finds around the device: whether it uses irqfds and whether
    they can be set up and taken down, and the number of MSI-X vectors
    ([revise_msix_vector] compares with it). *)
Record pci_env := mkEnv { need_irqfd : bool; notifiers_ok : bool; register_ok : bool; unregister_ok : bool; nvectors : Z }.
Definition revise_msix_vector (e : pci_env) (v : Z) : bool := v <? nvectors e.

Definition MAX_FEATURES_SELECT_NUM : Z := 2.
Definition VIRTIO_QUEUE_MAX : Z := 1024.

Definition pci_read_common_config (offset : Z) (b : VirtioBase) : option Z :=
  let queue f := c ← get_queue b; Some (f c) in
  let hi a := wrap 32 (Z.shiftr a 32) in
  match offset with
  | 0x0 => Some (hfeatures_sel b)
  | 0x4 => Some (if hfeatures_sel b <? MAX_FEATURES_SELECT_NUM then features_page b (hfeatures_sel b) else 0)
  | 0x8 => Some (gfeatures_sel b)
  | 0xc => Some (if gfeatures_sel b <? MAX_FEATURES_SELECT_NUM then driver_page b (gfeatures_sel b) else 0)
  | 0x10 => Some (config_vector b)
  | 0x12 => Some (wrap 32 (Z.of_nat (length (queues_config b))))
  | 0x14 => Some (device_status b)
  | 0x15 => Some (config_generation b)
  | 0x16 => Some (queue_select b)
  | 0x18 => queue q_size
  | 0x1a => queue vector
  | 0x1c => queue (fun c => if ready c then 1 else 0)
  | 0x1e => Some (queue_select b)
  | 0x20 => queue (fun c => wrap 32 (desc_table c))
  | 0x24 => queue (fun c => hi (desc_table c))
  | 0x28 => queue (fun c => wrap 32 (avail_ring c))
  | 0x2c => queue (fun c => hi (avail_ring c))
  | 0x30 => queue (fun c => wrap 32 (used_ring c))
  | 0x34 => queue (fun c => hi (used_ring c))
  | _ => Some 0
  end.

Section pci.
Context {D : Type} `{!VirtioDevice D} (st : store) (fv : list FlatRange).
Implicit Types t : VirtioPciDevice D.

Definition pwith_base b t : VirtioPciDevice D := mkPciDev b (pdev t) (pirqs t) (pstarted t).

(** The interrupt callback: a queue interrupt uses the vector of the queue, or
    zero without one. *)
Definition pci_interrupt (ty : VirtioInterruptType) (q : option SplitVring) (needs_reset : bool) t : VirtioPciDevice D :=
  let vec := match ty with
             | IntConfig => config_vector
             | IntVring => fun _ => match q with Some r => vector (get_queue_config r) | None => 0 end
             end in
  let '(b, i) := interrupt_cb vec ty needs_reset (pbase t, pirqs t) in mkPciDev b (pdev t) i (pstarted t).

(** [Queue::new] is unwrapped: an unsupported queue type panics. *)
Definition activate_device (e : pci_env) t : res unit (VirtioPciDevice D * bool) :=
  if device_activated (pbase t) then Ok (t, true)
  else
    let '(b, i, r) := install_queues st fv config_vector (pbase t) (pirqs t) in
    let t := mkPciDev b (pdev t) i (pstarted t) in
    match r with
    | Err BadQueueType | Panic => Panic
    | Err InvalidQueue => Ok (t, false)
    | Ok _ =>
      if need_irqfd e && negb (notifiers_ok e && register_ok e) then Ok (t, false)
      else
        let '(d, ok) := vd_activate b (pdev t) in
        if ok then Ok (mkPciDev (set_device_activated b true) d i (pstarted t ++ [queues b]), true)
        else Ok (mkPciDev b d i (pstarted t), false)
    end.

Definition deactivate_device (e : pci_env) t : VirtioPciDevice D * bool :=
  if need_irqfd e && negb (unregister_ok e) then (t, false)
  else if device_activated (pbase t) then
    let '(d, ok) := vd_deactivate (pdev t) in
    if ok then (mkPciDev (base_reset (pbase t)) d (pirqs t) (pstarted t), true) else (mkPciDev (pbase t) d (pirqs t) (pstarted t), false)
  else (t, true).

Definition STATUS_READY : Z :=
  Z.lor (Z.lor (Z.lor CONFIG_STATUS_ACKNOWLEDGE CONFIG_STATUS_DRIVER) CONFIG_STATUS_DRIVER_OK) CONFIG_STATUS_FEATURES_OK.

Definition write_status (e : pci_env) (value : Z) t : res unit (VirtioPciDevice D) :=
  let b := pbase t in
  if negb (Z.land value CONFIG_STATUS_FEATURES_OK =? 0) && (Z.land value CONFIG_STATUS_DRIVER_OK =? 0) &&
     negb (virtio_has_feature (wshl 64 (driver_page b 1) 32) VIRTIO_F_VERSION_1) then Ok t
  else if negb (value =? 0) && negb (Z.land (device_status b) (wnot 32 value) =? 0) then Ok t
  else
    let old_status := device_status b in
    let t := pwith_base (set_device_status b value) t in
    if check_device_status (pbase t) STATUS_READY CONFIG_STATUS_FAILED then
      '(t, _) ← activate_device e t; mret t
    else if negb (old_status =? 0) && (value =? 0) then mret (deactivate_device e t).1
    else mret t.

(** The result is the device and whether the write was accepted. *)
Definition pci_write_common_config (e : pci_env) (offset value : Z) t : res unit (VirtioPciDevice D * bool) :=
  let b := pbase t in
  let keep b := Ok (pwith_base b t, true) in
  let queue chk f := let '(b, r) := queue_config_mut chk f b in Ok (pwith_base b t, is_ok r) in
  match offset with
  | 0x0 => keep (set_hfeatures_sel b value)
  | 0x8 => keep (set_gfeatures_sel b value)
  | 0xc =>
    if negb (Z.land (device_status b) CONFIG_STATUS_FEATURES_OK =? 0) then Ok (t, true)
    else
      let sel := gfeatures_sel b in
      if MAX_FEATURES_SELECT_NUM <=? sel then Ok (t, false)
      else
        let b := set_driver_features sel value b in
        keep (if sel =? 1 then
                set_queue_type b (if virtio_has_feature (wshl 64 (driver_page b 1) 32) VIRTIO_F_RING_PACKED
                                  then QUEUE_TYPE_PACKED_VRING else QUEUE_TYPE_SPLIT_VRING)
              else b)
  | 0x10 => keep (set_interrupt_status (set_config_vector b (if revise_msix_vector e value then wrap 16 value else INVALID_VECTOR_NUM)) 0)
  | 0x14 => t ← write_status e value t; mret (t, true)
  | 0x16 => keep (if value <? VIRTIO_QUEUE_MAX then set_queue_select b (wrap 16 value) else b)
  | 0x18 => queue true (fun c => with_size c (wrap 16 value))
  | 0x1c => if negb (value =? 1) then Ok (t, false) else queue true (fun c => with_ready c true)
  | 0x1a =>
    let v := if revise_msix_vector e value then wrap 16 value else INVALID_VECTOR_NUM in
    queue (negb (device_status b =? 0)) (fun c => with_vector c v)
  | 0x20 => queue true (desc_low value)
  | 0x24 => queue true (desc_high value)
  | 0x28 => queue true (avail_low value)
  | 0x2c => queue true (avail_high value)
  | 0x30 => queue true (used_low value)
  | 0x34 => queue true (used_high value)
  | _ => Ok (t, false)
  end.

(** [build_common_cfg_ops]. *)
Definition common_read (data : list Z) (offset : Z) t : bool * list Z :=
  match pci_read_common_config offset (pbase t) with
  | Some v => write_data_u32 data v
  | None => (false, data)
  end.
Definition common_write (e : pci_env) (data : list Z) (offset : Z) t : res unit (VirtioPciDevice D * bool) :=
  match read_data_u32 data with
  | Some value => pci_write_common_config e offset value t
  | None => Ok (t, false)
  end.
(** Reading the interrupt status clears it. *)
Definition isr_read (data : list Z) t : VirtioPciDevice D * list Z :=
  match data with
  | _ :: rest => (pwith_base (set_interrupt_status (pbase t) 0) t, wrap 8 (interrupt_status (pbase t)) :: rest)
  | [] => (t, [])
  end.
(** [reset] of the PCI function; [rst] is the reset of the device type. *)
Definition pci_reset (e : pci_env) (rst : D -> D * bool) t : VirtioPciDevice D * bool :=
  let t := (deactivate_device e t).1 in
  let '(d, ok) := rst (pdev t) in
  (mkPciDev (pbase t) d (pirqs t) (pstarted t), ok).

(** ** The protocol *)

Inductive pci_event :=
| PciWrite (e : pci_env) (offset : Z) (data : list Z)
| PciIsrRead (data : list Z)
| PciInterrupt (ty : VirtioInterruptType) (q : option SplitVring) (needs_reset : bool)
| PciReset (e : pci_env) (rst : D -> D * bool).
Definition pci_step t (ev : pci_event) : res unit (VirtioPciDevice D) :=
  match ev with
  | PciWrite e offset data => '(t, _) ← common_write e data offset t; mret t
  | PciIsrRead data => mret (isr_read data t).1
  | PciInterrupt ty q nr => mret (pci_interrupt ty q nr t)
  | PciReset e rst => mret (pci_reset e rst t).1
  end.
Fixpoint pci_run (evs : list pci_event) t : res unit (VirtioPciDevice D) :=
  match evs with
  | [] => mret t
  | e :: evs => t ← pci_step t e; pci_run evs t
  end.
Definition pci_ev_ok (ev : pci_event) : Prop := match ev with PciWrite _ _ data => is_bytes data | _ => True end.

(** The queue type follows the negotiated features. *)
Definition type_follows (b : VirtioBase) : Prop :=
  queue_type b = if Z.testbit (driver_features b) VIRTIO_F_RING_PACKED then QUEUE_TYPE_PACKED_VRING else QUEUE_TYPE_SPLIT_VRING.
Definition pci_ok (features : Z) t : Prop :=
  base_ok st fv (pbase t) /\ device_features (pbase t) = features /\ type_follows (pbase t) /\ 0 <= gfeatures_sel (pbase t) /\
  Forall (fun qs => length qs = queue_num (pbase t) /\ queues_valid st fv qs) (pstarted t).

Definition kept (b b' : VirtioBase) : Prop := same_core b b' /\ queue_type b' = queue_type b /\ gfeatures_sel b' = gfeatures_sel b.
Lemma kept_ok features t b d i : pci_ok features t -> kept (pbase t) b -> pci_ok features (mkPciDev b d i (pstarted t)).
Proof.
  intros (H1 & H2 & H3 & H5 & H4) (Hc & Hq & Hg). pose proof Hc as (E1 & E2 & E3 & E4 & E5 & E6). split_and!; [by eapply same_core_ok|cbn; congruence| | |].
  - unfold type_follows in *. cbn. by rewrite Hq, E2.
  - cbn. by rewrite Hg.
  - cbn. by rewrite E3.
Qed.
Lemma queue_mut_kept chk f b : kept b (queue_config_mut chk f b).1.
Proof. split; [apply queue_config_mut_core|]. unfold queue_config_mut. destruct (chk && _); [done|]. by destruct (get_queue b). Qed.
Lemma interrupt_kept ty nr b : kept b (interrupt_base ty nr b).1.
Proof. split; [apply interrupt_base_core|]. destruct ty; [|done]. cbn. destruct nr; cbv zeta; by destruct (_ =? _). Qed.
Lemma reports_kept vec n f s : kept s.1 (reports vec n f s).1.
Proof.
  split; [apply reports_core|]. revert s. induction n as [|n IH]; intros s; [done|]. cbn [reports]. destruct (IH (report_virtio_error vec f s)) as [-> ->]. unfold report_virtio_error, interrupt_cb. destruct (virtio_has_feature _ _); [|done].
  cbn [fst]. pose proof (interrupt_kept IntConfig true s.1) as (_ & H & H'). by destruct (interrupt_base IntConfig true s.1).
Qed.

(** The bit of packed rings is in the upper page. *)
Lemma packed_page0 value b : features_ok b -> is_u32 value -> Z.testbit (driver_features (set_driver_features 0 value b)) VIRTIO_F_RING_PACKED = Z.testbit (driver_features b) VIRTIO_F_RING_PACKED.
Proof.
  intros (Hd & Hr & _) Hv. unfold set_driver_features. pose proof (accepted_value b 0 value Hv) as E. cbv zeta in E |- *. rewrite E. cbn [driver_features set_driver Z.eqb]. unfold driver_page, VIRTIO_F_RING_PACKED.
  rewrite hi_lo_bits by (try apply page_u32; try (apply land_inW; [lia|done]); lia). cbn [Z.ltb Z.compare Pos.compare Pos.compare_cont]. by rewrite read_u32_page1 by (done || lia).
Qed.
Lemma unoffered_packed b : features_ok b -> Z.testbit (device_features b) VIRTIO_F_RING_PACKED = false -> Z.testbit (driver_features b) VIRTIO_F_RING_PACKED = false.
Proof. intros (_ & _ & Hn) Hd. unfold negotiated in Hn. by rewrite <-Hn, Z.land_spec, Hd, andb_false_r. Qed.

Lemma features_write_ok features value t : pci_ok features t -> is_u32 value -> gfeatures_sel (pbase t) < MAX_FEATURES_SELECT_NUM ->
  let b := set_driver_features (gfeatures_sel (pbase t)) value (pbase t) in
  pci_ok features (pwith_base (if gfeatures_sel (pbase t) =? 1 then
    set_queue_type b (if virtio_has_feature (wshl 64 (driver_page b 1) 32) VIRTIO_F_RING_PACKED then QUEUE_TYPE_PACKED_VRING else QUEUE_TYPE_SPLIT_VRING) else b) t).
Proof.
  intros (H1 & H2 & H3 & Hs0 & H4) Hv Hs. cbv zeta. unfold MAX_FEATURES_SELECT_NUM in Hs. pose proof (set_driver_ok st fv (gfeatures_sel (pbase t)) value (pbase t) H1 Hv) as Hok.
  destruct (Z.eqb_spec (gfeatures_sel (pbase t)) 1) as [E|E].
  - split_and!; [done|done| |done|done]. unfold type_follows. cbn [pwith_base pbase queue_type set_queue_type driver_features]. unfold driver_page.
    destruct Hok as ((_ & Hu & _) & _). rewrite high_page_feature by (done || (unfold VIRTIO_F_RING_PACKED; lia)). by rewrite has_feature_bit by (unfold VIRTIO_F_RING_PACKED; lia).
  - assert (gfeatures_sel (pbase t) = 0) as E0 by lia. split_and!; [done|done| |done|done]. unfold type_follows. cbn [pwith_base pbase]. rewrite E0, packed_page0 by (apply H1 || done). exact H3.
Qed.

Lemma install_pci e features t : pci_ok features t -> Z.testbit features VIRTIO_F_RING_PACKED = false ->
  exists t' ok, activate_device e t = Ok (t', ok) /\ pci_ok features t' /\ (ok = true -> device_activated (pbase t') = true).
Proof.
  intros Hp Hf. unfold activate_device. destruct (device_activated (pbase t)) eqn:Ea; [by eexists _, _|]. pose proof Hp as (H1 & H2 & H3 & H5 & H4).
  pose proof (install_queues_ok st fv config_vector (pbase t) (pirqs t) H1 Ea) as Hi.
  assert (queue_type (pbase t) = QUEUE_TYPE_SPLIT_VRING) as Hq. { unfold type_follows in H3. rewrite (unoffered_packed _ (proj1 H1)) in H3; [done|]. by rewrite H2. }
  unfold install_queues in *. rewrite Hq in *. pose proof (build_queues_spec st fv (driver_features (pbase t)) QUEUE_TYPE_SPLIT_VRING (queues_config (pbase t))) as Hs.
  assert (forall cs n r, build_queues st fv (driver_features (pbase t)) QUEUE_TYPE_SPLIT_VRING (queues_config (pbase t)) = (cs, n, r) -> r <> Err BadQueueType) as Hbad.
  { clear. induction (queues_config (pbase t)) as [|c l IH]; cbn [build_queues]; intros cs n r; [by intros [= <- <- <-]|]. destruct (if ready c then _ else _) as [c' m]. cbn [Z.eqb QUEUE_TYPE_SPLIT_VRING Pos.eqb negb].
    destruct (ready c' && _); [by intros [= <- <- <-]|]. destruct (build_queues _ _ _ _ l) as [[cs' m'] r'] eqn:E. intros [= <- <- <-]. specialize (IH _ _ _ eq_refl). by destruct r' as [| []|]. }
  destruct (build_queues st fv (driver_features (pbase t)) QUEUE_TYPE_SPLIT_VRING (queues_config (pbase t))) as [[cs n] r] eqn:Eb. specialize (Hbad _ _ _ eq_refl).
  pose proof (reports_kept config_vector n (driver_features (pbase t)) (pbase t, pirqs t)) as (_ & Kq & Kg). destruct (reports config_vector n _ _) as [b1 i1]. cbn [fst] in Kq, Kg.
  assert (forall b' d i, base_ok st fv b' -> device_features b' = device_features (pbase t) -> driver_features b' = driver_features (pbase t) -> queue_type b' = QUEUE_TYPE_SPLIT_VRING -> queue_num b' = queue_num (pbase t) -> gfeatures_sel b' = gfeatures_sel (pbase t) ->
    pci_ok features (mkPciDev b' d i (pstarted t))) as Hmk.
  { intros b' d i K1 K2 K3 K4 K5 K6. split_and!; [done|cbn; congruence| |cbn; by rewrite K6|cbn; by rewrite K5]. unfold type_follows in *. cbn [pbase]. rewrite K3, K4, <-H3. by rewrite Hq. }
  destruct r as [qs|[]|]; [|done| |].
  - cbn [mret] in *. destruct Hi as (I1 & I2 & I3 & I4 & I5 & I6 & I7 & _). destruct (I7 eq_refl) as (J1 & J2 & J3).
    destruct (need_irqfd e && _); [eexists _, _; split; [reflexivity|]; split; [apply Hmk; first [done | cbn in *; congruence] | done]|].
    destruct (vd_activate _ _) as [d ok]. destruct ok; eexists _, _; (split; [reflexivity|]); [|split; [apply Hmk; first [done | cbn in *; congruence] | done]].
    split; [|done]. split_and!; [by apply activated_ok|cbn in *; congruence| |by cbn; rewrite Kg|].
    + unfold type_follows in *. cbn [pbase set_device_activated queue_type driver_features set_queues set_queues_config] in *. by rewrite Kq, I4, <-H3.
    + apply Forall_app. split; [cbn in *; by rewrite I6|]. apply Forall_singleton. done.
  - destruct Hi as (I1 & I2 & I3 & I4 & I5 & I6 & _). eexists _, _. split; [reflexivity|]. split; [apply Hmk; first [done | cbn in *; congruence] | done].
  - by destruct Hs as (_ & _ & []).
Qed.

Lemma deactivate_ok e features t : pci_ok features t -> pci_ok features (deactivate_device e t).1.
Proof.
  intros Hp. unfold deactivate_device. destruct (need_irqfd e && _); [done|]. destruct (device_activated (pbase t)); [|done]. destruct (vd_deactivate (pdev t)) as [d ok].
  destruct ok; cbn [fst]; [|by apply (kept_ok features t)]. destruct Hp as (H1 & H2 & H3 & H5 & H4). split_and!; [by apply reset_ok|done|done|done|done].
Qed.

Lemma write_status_ok e features value t : pci_ok features t -> Z.testbit features VIRTIO_F_RING_PACKED = false ->
  exists t', write_status e value t = Ok t' /\ pci_ok features t'.
Proof.
  intros Hp Hf. unfold write_status. destruct (_ && _ && _); [by exists t|]. destruct (negb (value =? 0) && _); [by exists t|].
  set (t1 := pwith_base _ t). assert (pci_ok features t1) as Hp1 by (by apply (kept_ok features t)). destruct (check_device_status _ _ _).
  - destruct (install_pci e features t1 Hp1 Hf) as (t' & ok & E & Hp' & _). exists t'. rewrite E. done.
  - destruct (_ && _); [|by exists t1]. eexists. split; [reflexivity|]. by apply deactivate_ok.
Qed.

Lemma pci_write_ok e features offset value t : pci_ok features t -> Z.testbit features VIRTIO_F_RING_PACKED = false -> is_u32 value ->
  exists t' ok, pci_write_common_config e offset value t = Ok (t', ok) /\ pci_ok features t'.
Proof.
  intros Hp Hf Hv. assert (forall b, kept (pbase t) b -> pci_ok features (pwith_base b t)) as Hk by (intros b Hb; by apply kept_ok).
  assert (forall ok : bool, exists t' ok', Ok (E := unit) (t, ok) = Ok (t', ok') /\ pci_ok features t') as Hsame by (intros ok; by exists t, ok).
  assert (forall b, kept (pbase t) b -> exists t' ok, Ok (E := unit) (pwith_base b t, true) = Ok (t', ok) /\ pci_ok features t') as Hkeep by (intros b Hb; eexists _, _; split; [done|by apply Hk]).
  assert (forall chk f, exists t' ok, (let '(b, r) := queue_config_mut chk f (pbase t) in Ok (E := unit) (pwith_base b t, is_ok r)) = Ok (t', ok) /\ pci_ok features t') as Hqueue.
  { intros chk f. pose proof (queue_mut_kept chk f (pbase t)) as H. destruct (queue_config_mut chk f (pbase t)) as [b r]. eexists _, _. split; [done|by apply Hk]. }
  assert (pci_ok features (pwith_base (set_gfeatures_sel (pbase t) value) t)) as Hsel. { destruct Hp as (H1 & H2 & H3 & H5 & H4). split_and!; try done. cbn. unfold inW in Hv. lia. }
  unfold pci_write_common_config. cbv zeta. destruct offset as [|q|q]; [by apply Hkeep| |by apply Hsame].
  repeat (destruct q as [q|q|]; try (by apply Hsame); try (by apply Hqueue); try (by apply Hkeep)).
  - apply Hkeep. unfold kept, same_core. destruct (value <? VIRTIO_QUEUE_MAX); split_and!; reflexivity.
  - destruct (negb (value =? 1)); [apply Hsame|apply Hqueue].
  - destruct (write_status_ok e features value t Hp Hf) as (t' & -> & Hp'). by eexists _, _.
  - destruct (negb (Z.land _ _ =? 0)); [apply Hsame|]. destruct (Z.leb_spec MAX_FEATURES_SELECT_NUM (gfeatures_sel (pbase t))); [apply Hsame|]. eexists _, _. split; [reflexivity|]. by apply features_write_ok.
  - eexists _, _. split; [reflexivity|]. exact Hsel.
Qed.

Lemma data_u32 data v : is_bytes data -> read_data_u32 data = Some v -> is_u32 v.
Proof.
  intros Hd. pose proof (le_val_bound data Hd) as Hb. destruct data as [|a [|b [|c [|d [|]]]]]; cbn [read_data_u32]; try done; intros [= <-]; cbn [length] in Hb; unfold inW.
  - apply Forall_cons in Hd as [Ha _]. unfold inW in Ha. lia.
  - destruct Hb as [H1 H2]. split; [exact H1|]. eapply Z.lt_trans; [exact H2|reflexivity].
  - exact Hb.
Qed.

Lemma pci_step_ok features t ev : pci_ok features t -> Z.testbit features VIRTIO_F_RING_PACKED = false -> pci_ev_ok ev ->
  exists t', pci_step t ev = Ok t' /\ pci_ok features t'.
Proof.
  intros Hp Hf Hev. destruct ev as [e offset data|data|ty q nr|e rst]; cbn [pci_step].
  - unfold common_write. destruct (read_data_u32 data) as [v|] eqn:Ev; [|by exists t].
    destruct (pci_write_ok e features offset v t Hp Hf (data_u32 _ _ Hev Ev)) as (t' & ok & -> & Hp'). by exists t'.
  - eexists. split; [reflexivity|]. destruct data; [done|]. by apply (kept_ok features t).
  - eexists. split; [reflexivity|]. unfold pci_interrupt, interrupt_cb. cbn [fst snd]. pose proof (interrupt_kept ty nr (pbase t)) as H. destruct (interrupt_base ty nr (pbase t)) as [b raised]. by apply kept_ok.
  - eexists. split; [reflexivity|]. unfold pci_reset. pose proof (deactivate_ok e features t Hp) as H. destruct (deactivate_device e t) as [t1 ok]. cbn [fst] in *. destruct (rst (pdev t1)) as [d ok']. by apply (kept_ok features t1).
Qed.

Definition pfresh (type_ features : Z) (num : nat) (max : Z) (d : D) : VirtioPciDevice D := mkPciDev (VirtioBase_new type_ features num max) d [] [].

(** C12: A guest cannot break the PCI transport of a device that does not offer
    packed rings: no sequence of common configuration writes, interrupt status
    reads, interrupts and resets panics; the negotiated features stay within the
    offer, and the device only ever starts with every queue in use valid. *)
Theorem virtio_pci_protocol type_ features num max d evs :
  is_u64 features -> Z.testbit features VIRTIO_F_RING_PACKED = false -> Forall pci_ev_ok evs ->
  exists t, pci_run evs (pfresh type_ features num max d) = Ok t /\ pci_ok features t.
Proof.
  intros Hf Hp Hev. cut (forall t, pci_ok features t -> exists t', pci_run evs t = Ok t' /\ pci_ok features t').
  { intros H. apply H. split_and!; [by apply new_ok|done|done|done|]. by apply Forall_nil. }
  induction Hev as [|e evs He Hev IH]; intros t Ht; [by exists t|]. cbn [pci_run]. destruct (pci_step_ok features t e Ht Hp He) as (t1 & -> & Ht1). cbn [mbind res_bind]. by apply IH.
Qed.

(** ** Setting the device up, again *)

Fixpoint pci_writes (e : pci_env) (ws : list (Z * Z)) t : res unit (VirtioPciDevice D * bool) :=
  match ws with
  | [] => mret (t, true)
  | (offset, v) :: ws =>
    '(t, ok) ← common_write e (le_bytes 4 v) offset t;
    '(t, oks) ← pci_writes e ws t;
    mret (t, ok && oks)
  end.
Definition pqueue_regs (q : driver_queue) : list (Z * Z) :=
  [(0x18, dq_size q);
   (0x20, read_u32 (dq_desc q) 0); (0x24, read_u32 (dq_desc q) 1);
   (0x28, read_u32 (dq_avail q) 0); (0x2c, read_u32 (dq_avail q) 1);
   (0x30, read_u32 (dq_used q) 0); (0x34, read_u32 (dq_used q) 1);
   (0x1c, 1)].
Fixpoint psetup_queues (i : nat) (qs : list driver_queue) : list (Z * Z) :=
  match qs with
  | [] => []
  | q :: qs => (0x16, Z.of_nat i) :: pqueue_regs q ++ psetup_queues (S i) qs
  end.
(** Reset, then the initialization sequence of the virtio specification. *)
Definition psetup (want : Z) (qs : list driver_queue) : list (Z * Z) :=
  [(0x14, 0x0); (0x14, 0x1); (0x14, 0x3); (0x8, 0); (0xc, read_u32 want 0); (0x8, 1); (0xc, read_u32 want 1); (0x14, 0xb)] ++
  psetup_queues 0 qs ++ [(0x14, 0xf)].

Lemma pwrite_cons e offset v ws t t' : is_u32 v -> pci_write_common_config e offset v t = Ok (t', true) ->
  pci_writes e ((offset, v) :: ws) t = pci_writes e ws t'.
Proof.
  intros Hv E. cbn [pci_writes]. unfold common_write. assert (read_data_u32 (le_bytes 4 v) = Some v) as ->; [|rewrite E; cbn [mbind res_bind]; destruct (pci_writes e ws t') as [[t2 oks]| |]; done].
  rewrite <-(le_val_u32 v Hv) at 2. done.
Qed.
Lemma pqueue_run e regs fs ws t b pre c post : pbase t = b ->
  Forall2 (fun ov f => is_u32 ov.2 /\ forall t, pci_write_common_config e ov.1 ov.2 t = (let '(b, r) := queue_config_mut true f (pbase t) in Ok (pwith_base b t, is_ok r))) regs fs ->
  can_configure b -> queues_config b = pre ++ c :: post -> queue_select b = Z.of_nat (length pre) ->
  pci_writes e (regs ++ ws) t = pci_writes e ws (pwith_base (set_queues_config b (pre ++ foldl (fun c f => f c) c fs :: post)) t).
Proof.
  intros Eb Hf. revert t b c Eb. induction Hf as [|[offset v] f regs fs (Hv & Hw) Hf IH]; intros t b c Eb Hc Eq Es.
  - cbn [app foldl]. f_equal. destruct t, b. cbn in *. subst. done.
  - cbn [fst snd] in *. rewrite <-app_comm_cons. rewrite (pwrite_cons _ _ _ _ _ (pwith_base (set_queues_config b (pre ++ f c :: post)) t) Hv).
    + by rewrite (IH (pwith_base (set_queues_config b (pre ++ f c :: post)) t) (set_queues_config b (pre ++ f c :: post)) (f c) eq_refl).
    + rewrite Hw, Eb, (queue_config_mut_ok _ _ _ _ _ _ Hc Eq Es). done.
Qed.
Lemma pqueue_regs_updates e q : dq_ok q ->
  Forall2 (fun ov f => is_u32 ov.2 /\ forall t, pci_write_common_config e ov.1 ov.2 t = (let '(b, r) := queue_config_mut true f (pbase t) in Ok (pwith_base b t, is_ok r))) (pqueue_regs q) (dq_updates q).
Proof.
  intros ([Hs0 Hs] & _). unfold pqueue_regs, dq_updates. repeat apply Forall2_cons_2; try apply Forall2_nil_2; (split; [cbn [snd]; try apply page_u32; unfold inW; lia|done]).
Qed.
Lemma psetup_queues_run e max qs ws t b pre : pbase t = b -> can_configure b -> Forall dq_ok qs -> Z.of_nat (length pre + length qs) <= VIRTIO_QUEUE_MAX ->
  queues_config b = pre ++ replicate (length qs) (qc_new max) ->
  exists b', pci_writes e (psetup_queues (length pre) qs ++ ws) t = pci_writes e ws (pwith_base b' t) /\
    (exists sel, b' = set_queues_config (set_queue_select b sel) (pre ++ map (dq_config max) qs)).
Proof.
  revert t b pre. induction qs as [|q qs IH]; intros t b pre Eb Hc Hf Hl Eq.
  - exists b. split; [cbn [psetup_queues app]; f_equal; destruct t; cbn in *; by subst|]. exists (queue_select b). cbn in *. rewrite <-Eq. by destruct b.
  - apply Forall_cons in Hf as [Hq Hf]. cbn [psetup_queues length replicate app] in *. rewrite <-app_assoc. unfold VIRTIO_QUEUE_MAX in Hl.
    set (b1 := set_queue_select b (Z.of_nat (length pre))). assert (is_u32 (Z.of_nat (length pre))) as Hu by (unfold inW; lia).
    rewrite (pwrite_cons _ _ _ _ _ (pwith_base b1 t) Hu); [|cbn [pci_write_common_config]; rewrite Eb; unfold VIRTIO_QUEUE_MAX; destruct (Z.ltb_spec (Z.of_nat (length pre)) 1024); [|lia]; by rewrite wrap_small by (unfold inW; lia)].
    rewrite (pqueue_run e (pqueue_regs q) (dq_updates q) _ (pwith_base b1 t) b1 pre (qc_new max) (replicate (length qs) (qc_new max))); [|done|by apply pqueue_regs_updates|done..].
    rewrite dq_updates_fresh by done. set (b2 := set_queues_config b1 _).
    destruct (IH (pwith_base b2 (pwith_base b1 t)) b2 (pre ++ [dq_config max q])) as (b' & E & sel & Hb'); [done..|rewrite length_app; unfold VIRTIO_QUEUE_MAX; cbn; lia|by cbn; rewrite <-app_assoc|].
    exists b'. split; [rewrite length_app, Nat.add_1_r in E; exact E|]. exists sel. rewrite Hb'. by rewrite <-app_assoc.
Qed.

(** A status write that neither starts nor resets the device. *)
Lemma status_write e v ws t : is_u32 v -> v <> 0 -> Z.land (device_status (pbase t)) (wnot 32 v) = 0 ->
  (Z.land v CONFIG_STATUS_FEATURES_OK = 0 \/ virtio_has_feature (wshl 64 (driver_page (pbase t) 1) 32) VIRTIO_F_VERSION_1 = true) ->
  check_device_status (set_device_status (pbase t) v) STATUS_READY CONFIG_STATUS_FAILED = false ->
  pci_writes e ((0x14, v) :: ws) t = pci_writes e ws (pwith_base (set_device_status (pbase t) v) t).
Proof.
  intros Hv Hne Hl Hf Hc. apply pwrite_cons; [done|]. cbn [pci_write_common_config]. unfold write_status. cbn [pbase pwith_base]. rewrite Hl, Hc.
  destruct (Z.eqb_spec v 0); [done|]. change (0 =? 0) with true. cbn [negb andb]. rewrite andb_false_r.
  destruct Hf as [-> | ->]; [done|]. cbn [negb]. by rewrite andb_false_r.
Qed.

(** C13: A driver can take over a running device whose type can be stopped and
    started again and whose irqfds, if it uses any, can be taken down and set up
    ([pci_env]): after a reset and a setup at other addresses and with other
    features, every write is accepted and the device runs again, on exactly the
    new queues, with their rings mapped, and the new features.  The device must
    offer, and the driver want, [VIRTIO_F_VERSION_1] and no packed rings.  (A device
    type that cannot be stopped keeps its old queues, see [refused_stop].) *)
Theorem virtio_pci_reinit e features max t want qs :
  view_ok st fv -> (forall o r, st !! o = Some r -> region_type r = Ram -> is_Some (mem_mapping r)) ->
  pci_ok features t -> device_activated (pbase t) = true -> device_status (pbase t) <> 0 -> (need_irqfd e = true -> notifiers_ok e = true /\ register_ok e = true /\ unregister_ok e = true) ->
  Forall (fun c => max_size c = max) (queues_config (pbase t)) -> 0 <= max < 2 ^ 16 -> length qs = queue_num (pbase t) -> Z.of_nat (length qs) <= VIRTIO_QUEUE_MAX ->
  is_u64 want -> Z.testbit want VIRTIO_F_RING_PACKED = false -> Z.testbit want VIRTIO_F_VERSION_1 = true -> Z.testbit features VIRTIO_F_VERSION_1 = true ->
  Forall (fun q => dq_ok q /\ vring_is_valid st fv (dq_config max q) = true) qs ->
  (vd_deactivate (pdev t)).2 = true -> (forall b, (vd_activate b (vd_deactivate (pdev t)).1).2 = true) ->
  exists t', pci_writes e (psetup want qs) t = Ok (t', true) /\
    device_activated (pbase t') = true /\ device_status (pbase t') = 0xf /\ driver_features (pbase t') = Z.land want features /\
    Forall2 (queue_mapped st fv) (map (dq_config max) qs) (queues_config (pbase t')) /\ pstarted t' = pstarted t ++ [map vring_new (queues_config (pbase t'))].
Proof.
  intros Hview Hram (Hb & Hf & _) Ha Hst Hirq Hmax Hmax16 Hl Hlq Hw Hp Hv1 Hv1' Hqs Hdeact Hact. unfold psetup.
  assert (Forall dq_ok qs /\ Forall (fun q => vring_is_valid st fv (dq_config max q) = true) qs) as [Hdq Hval] by (by apply Forall_and).
  assert (is_u32 0 /\ is_u32 1 /\ is_u32 3 /\ is_u32 11 /\ is_u32 15) as (U0 & U1 & U3 & U11 & U15) by (unfold inW; lia).
  set (b0 := base_reset (set_device_status (pbase t) 0)).
  assert (need_irqfd e && negb (unregister_ok e) = false /\ need_irqfd e && negb (notifiers_ok e && register_ok e) = false) as [Hoff Hon].
  { destruct (need_irqfd e); [|done]. by destruct (Hirq eq_refl) as (-> & -> & ->). }
  set (d0 := (vd_deactivate (pdev t)).1) in *.
  assert (pci_write_common_config e 0x14 0 t = Ok (mkPciDev b0 d0 (pirqs t) (pstarted t), true)) as E0.
  { cbn [pci_write_common_config]. unfold write_status. cbn [pbase pwith_base]. change (Z.land 0 CONFIG_STATUS_FEATURES_OK =? 0) with true. change (0 =? 0) with true. cbn [negb andb].
    change (check_device_status (set_device_status (pbase t) 0) STATUS_READY CONFIG_STATUS_FAILED) with false. cbv iota. destruct (Z.eqb_spec (device_status (pbase t)) 0); [done|]. cbn [negb andb].
    unfold deactivate_device. rewrite Hoff. cbn [pwith_base pbase set_device_status device_activated pdev pirqs pstarted]. rewrite Ha. unfold d0. destruct (vd_deactivate (pdev t)) as [d1 ok]. cbn [snd] in Hdeact. by subst ok. }
  cbn [app]. rewrite (pwrite_cons _ _ _ _ _ _ U0 E0). clear E0.
  assert (queues_config b0 = replicate (length qs) (qc_new max)) as Hq0.
  { unfold b0. cbn. rewrite Hl, <-(proj1 (proj2 Hb)). clear -Hmax. induction Hmax as [|c l Hc Hmax IH]; [done|]. cbn. unfold qc_reset at 1. by rewrite Hc, IH. }
  assert (is_u64 features) as Hfu by (rewrite <-Hf; apply Hb).
  rewrite status_write by (done || by left). rewrite status_write by (done || by left). cbn [pbase pwith_base].
  rewrite (pwrite_cons e 0x8 0 _ _ _ U0 eq_refl). cbn [pbase pwith_base]. set (b1 := set_gfeatures_sel (set_device_status (set_device_status b0 1) 3) 0).
  set (b2 := set_driver_features 0 (read_u32 want 0) b1). rewrite (pwrite_cons e 0xc (read_u32 want 0) _ _ (mkPciDev b2 d0 (pirqs t) (pstarted t)) (page_u32 _ _)) by reflexivity.
  rewrite (pwrite_cons e 0x8 1 _ _ (mkPciDev (set_gfeatures_sel b2 1) d0 (pirqs t) (pstarted t)) U1) by reflexivity.
  set (b3 := set_driver_features 1 (read_u32 want 1) (set_gfeatures_sel b2 1)).
  assert (driver_features b3 = Z.land want features) as Hdrv. { unfold b3. rewrite <-Hf. exact (ack_pages want b1 Hw (proj1 (proj1 Hb))). }
  assert (is_u64 (driver_features b3)) as Hdu by (rewrite Hdrv; apply land_inW; [lia|done]).
  rewrite (pwrite_cons e 0xc (read_u32 want 1) _ _ (mkPciDev (set_queue_type b3 QUEUE_TYPE_SPLIT_VRING) d0 (pirqs t) (pstarted t)) (page_u32 _ _)).
  2: { cbn [pci_write_common_config pbase pwith_base]. change (negb (Z.land (device_status (set_gfeatures_sel b2 1)) CONFIG_STATUS_FEATURES_OK =? 0)) with false. cbv iota zeta. change (gfeatures_sel (set_gfeatures_sel b2 1)) with 1. change (MAX_FEATURES_SELECT_NUM <=? 1) with false. change (1 =? 1) with true. cbv iota. fold b3.
       unfold driver_page. rewrite high_page_feature, has_feature_bit, Hdrv, Z.land_spec, Hp by (done || (unfold VIRTIO_F_RING_PACKED; lia)). done. }
  rewrite status_write; [|done|done|done| |done]. 2: { right. unfold driver_page. cbn [pbase set_queue_type driver_features]. rewrite high_page_feature, has_feature_bit, Hdrv, Z.land_spec, Hv1, Hv1' by (done || (unfold VIRTIO_F_VERSION_1; lia)). done. }
  match goal with |- exists t', pci_writes _ _ ?t0 = _ /\ _ => destruct (psetup_queues_run e max qs [(0x14, 0xf)] t0 (pbase t0) []) as (b' & E & sel & Hb'); [done|done|done|exact Hlq|exact Hq0|] end.
  cbn [length] in E. rewrite E. clear E. cbn [app pbase pwith_base] in Hb'. set (b4 := set_device_status b' 15).
  assert (queues_config b4 = map (dq_config max) qs /\ queue_type b4 = QUEUE_TYPE_SPLIT_VRING /\ device_activated b4 = false /\ device_status b4 = 15) as (Q1 & Q2 & Q3 & Q4) by (unfold b4; rewrite Hb'; done).
  assert (driver_features b4 = Z.land want features) as Q5 by (unfold b4; rewrite Hb'; exact Hdrv).
  destruct (build_queues_accept st fv Hview Hram (driver_features b4) (map (dq_config max) qs)) as (cs & Ecs & Hmapped).
  { apply Forall_map. eapply Forall_impl; [exact Hqs|]. intros q [(H1 & H2 & H3 & H4) H5]. split; [done|]. split; [|exact H5]. unfold queue_wf. cbn [dq_config q_size max_size desc_table avail_ring used_ring]. done. }
  set (b5 := set_queues (set_queues_config b4 cs) (map vring_new cs)).
  exists (mkPciDev (set_device_activated b5 true) (vd_activate b5 d0).1 (pirqs t) (pstarted t ++ [map vring_new cs])).
  split; [|by split_and!].
  assert (device_status b' = 11) as Hs11 by (by rewrite Hb').
  rewrite (pwrite_cons e 0x14 15 [] _ (mkPciDev (set_device_activated b5 true) (vd_activate b5 d0).1 (pirqs t) (pstarted t ++ [map vring_new cs])) U15); [done|].
  cbn [pci_write_common_config]. unfold write_status. cbn [pbase pwith_base]. fold b4. rewrite Hs11. change (negb (Z.land 15 CONFIG_STATUS_FEATURES_OK =? 0) && (Z.land 15 CONFIG_STATUS_DRIVER_OK =? 0)) with false. change (negb (15 =? 0) && negb (Z.land 11 (wnot 32 15) =? 0)) with false. cbn [andb].
  assert (check_device_status b4 STATUS_READY CONFIG_STATUS_FAILED = true) as -> by (unfold check_device_status; by rewrite Q4). unfold activate_device. cbn [pbase pdev pirqs pstarted pwith_base]. fold b4. rewrite Q3.
  unfold install_queues. rewrite Q1, Q2, Ecs, Hon. cbn [reports]. fold b5. specialize (Hact b5). destruct (vd_activate b5 d0) as [d' ok]. cbn [snd] in Hact. by subst ok.
Qed.
End pci.

(** ** An example device *)

Definition ex_env : pci_env := mkEnv true true true true 3.
Definition ex_pci : VirtioPciDevice (list Z) := pfresh 2 ex_offer 1 256 (replicate 16 0).
Definition ex_running : VirtioPciDevice (list Z) := Eval vm_compute in
  match pci_writes ex_vstore ex_vview ex_env (psetup 0x100000000 [ex_queue]) ex_pci with Ok (t, _) => t | _ => ex_pci end.
Definition ex_queue2 : driver_queue := mkDriverQueue 8 0x4000 0x5000 0x6000.

Lemma virtio_pci_reinit_witness :
  exists t, pci_writes ex_vstore ex_vview ex_env (psetup 0x120000000 [ex_queue2]) ex_running = Ok (t, true) /\ driver_features (pbase t) = 0x120000000 /\ length (pstarted t) = 2%nat.
Proof.
  destruct (virtio_pci_reinit ex_vstore ex_vview ex_env ex_offer 256 ex_running 0x120000000 [ex_queue2]) as (t & E & _ & _ & Hd & _ & Hs).
  - exact ex_vview_ok.
  - exact ex_vram.
  - split; [split; [split; [vm_compute; intuition congruence|split; [vm_compute; intuition congruence|vm_compute; reflexivity]]|split; [vm_compute; reflexivity|]]|].
    + intros _. split; [reflexivity|]. unfold ex_running. cbn [pbase queues]. apply Forall_singleton. intros _. vm_compute. reflexivity.
    + unfold ex_running. cbn [pbase pstarted queue_num]. split; [vm_compute; reflexivity|]. split; [vm_compute; reflexivity|]. split; [vm_compute; congruence|]. apply Forall_singleton. split; [reflexivity|]. apply Forall_singleton. intros _. vm_compute. reflexivity.
  - vm_compute. reflexivity.
  - vm_compute. congruence.
  - intros _. repeat split.
  - unfold ex_running. cbn [pbase queues_config]. apply Forall_singleton. reflexivity.
  - lia.
  - vm_compute. reflexivity.
  - vm_compute. congruence.
  - unfold inW. lia.
  - reflexivity.
  - reflexivity.
  - reflexivity.
  - apply Forall_singleton. split; [unfold dq_ok, inW; cbn; lia|vm_compute; reflexivity].
  - reflexivity.
  - reflexivity.
  - exists t. split; [exact E|]. rewrite Hd, Hs. split; [reflexivity|]. rewrite length_app. reflexivity.
Defined.

Lemma virtio_pci_protocol_witness :
  exists t, pci_run ex_vstore ex_vview [PciWrite ex_env 0x14 [0x3]; PciWrite ex_env 0xc (le_bytes 4 0xffffffff); PciWrite ex_env 0x14 [0xf]; PciIsrRead [0]] ex_pci = Ok t /\ pci_ok ex_vstore ex_vview ex_offer t.
Proof.
  apply (virtio_pci_protocol ex_vstore ex_vview 2 ex_offer 1 256 (replicate 16 0)).
  - unfold inW, ex_offer. lia.
  - reflexivity.
  - apply Forall_cons_2; [apply Forall_singleton; unfold inW; lia|]. apply Forall_cons_2; [apply le_bytes_is_bytes|].
    apply Forall_cons_2; [apply Forall_singleton; unfold inW; lia|]. apply Forall_cons_2; [exact I|]. apply Forall_nil_2.
Defined.

(** A device reset before it was started keeps its queue registers: a second setup
    combines the old and the new addresses. *)
Example early_reset_keeps_queues :
  let half := take 17 (psetup 0x100000000 [ex_queue]) in
  match pci_writes ex_vstore ex_vview ex_env (half ++ psetup 0x100000000 [ex_queue2]) ex_pci with
  | Ok (t, _) => map (fun c => (desc_table c, avail_ring c, used_ring c)) (queues_config (pbase t)) = [(0x5000, 0x7000, 0x7000)] /\ device_activated (pbase t) = false
  | _ => False
  end.
Proof. vm_compute. done. Qed.

(** Writing all four status bits at once skips the check that the driver
    acknowledged [VIRTIO_F_VERSION_1]. *)
Example version_check_skipped :
  match pci_writes ex_vstore ex_vview ex_env [(0x14, 0x3); (0x14, 0xf)] ex_pci with
  | Ok (t, _) => device_status (pbase t) = 0xf /\ driver_features (pbase t) = 0 /\ device_activated (pbase t) = true
  | _ => False
  end.
Proof. vm_compute. done. Qed.

(** A device that offers packed rings, which no queue implements, can be made to
    panic by its driver. *)
Example packed_offer_panics :
  pci_writes ex_vstore ex_vview ex_env (psetup 0x500000000 [ex_queue]) (pfresh 2 0x500000000 1 256 (replicate 16 0)) = Panic.
Proof. vm_compute. done. Qed.

(** A device type that keeps the default [deactivate], which fails. *)
Inductive stuck_device := StuckDevice.
#[local] Instance stuck : VirtioDevice stuck_device := {
  vd_read_config d _ _ := None; vd_write_config d _ _ := (d, false); vd_activate _ d := (d, true); vd_deactivate d := (d, false)
}.
(** The driver resets it and sets it up elsewhere; every write is accepted, and
    the device goes on with the queues of its first setup. *)
Example refused_stop :
  match pci_writes ex_vstore ex_vview ex_env (psetup 0x100000000 [ex_queue] ++ psetup 0x100000000 [ex_queue2]) (pfresh 2 ex_offer 1 256 StuckDevice) with
  | Ok (t, ok) => ok = true /\ device_status (pbase t) = 0xf /\ device_activated (pbase t) = true /\
      map (fun q => desc_table (queue_config q)) (queues (pbase t)) = [0x1000] /\ length (pstarted t) = 1%nat
  | _ => False
  end.
Proof. vm_compute. done. Qed.
