(* ===== verification/DmaMemory.v ===== *)
(** * Guest memory as a device sees it

    The interface through which a device model reads and writes guest memory
    ([AddressSpace::read] and [AddressSpace::write] of
    [address_space/src/address_space.rs]), the laws its clients rely on, and the
    instance a flat view gives. *)
From stdpp Require Import prelude list list_numbers gmap.
From Stdlib Require Import ZArith Lia.
From S2P Require Import Prelude NumOps Address Region FlatView.

(** ** Interface *)

(** [AddressSpace::read] and [AddressSpace::write] as DMA uses them.  A read that
    fails may have filled the start of its buffer, which is the error value. *)
Class DmaMemory (M : Type) := {
  dm_read : Z -> Z -> sres M (list Z) (list Z);
  dm_write : list Z -> Z -> Z -> sres M unit unit
}.

(** What a client may rely on: memory that holds bytes ([dm_ok]) keeps doing so
    over every access that returns, a read delivers as many bytes as asked for
    (fewer if it fails), and where all addresses are [dm_ram] accesses succeed and
    change exactly the bytes addressed.  An access to a device region need not
    return: the device may panic, or wait for a lock the client holds.  That is
    the result [Panic] in a state [dm_stuck], which no other access leads to. *)
Class DmaLaws (M : Type) `{!DmaMemory M} := {
  dm_ok : M -> Prop;
  dm_stuck : M -> Prop;
  dm_ram : Z -> Prop;
  dm_byte : M -> Z -> Z;
  dm_ok_not_stuck m : dm_ok m -> ~ dm_stuck m;
  dm_read_safe a n m : dm_ok m -> 0 < n < 2 ^ 32 -> is_u64 a ->
    match dm_read a n m with
    | (m', Ok d) => dm_ok m' /\ length d = Z.to_nat n /\ is_bytes d
    | (m', Err d) => dm_ok m' /\ (length d <= Z.to_nat n)%nat /\ is_bytes d
    | (m', Panic) => dm_stuck m'
    end;
  dm_write_safe d a n m : dm_ok m -> 0 < n < 2 ^ 32 -> is_u64 a -> is_bytes d -> n <= Z.of_nat (length d) ->
    match dm_write d a n m with (m', Panic) => dm_stuck m' | (m', _) => dm_ok m' end;
  dm_read_ram a n m : 0 <= a -> 0 < n -> a + n < 2 ^ 64 -> (forall x, a <= x < a + n -> dm_ram x) ->
    dm_read a n m = (m, Ok (ztab (dm_byte m) a (Z.to_nat n)));
  dm_write_ram d a n m : 0 <= a -> 0 < n -> a + n < 2 ^ 64 -> (forall x, a <= x < a + n -> dm_ram x) -> n <= Z.of_nat (length d) ->
    exists m', dm_write d a n m = (m', Ok tt) /\
      forall x, dm_ram x -> dm_byte m' x = if (a <=? x) && (x <? a + n) then default 0 (d !! Z.to_nat (x - a)) else dm_byte m x
}.

Section laws.
Context {M : Type} `{!DmaMemory M} `{!DmaLaws M}.

(** Memory after [bs] was written at [a]. *)
Definition dm_after (m m' : M) (a : Z) (bs : list Z) : Prop :=
  forall x, dm_ram x -> dm_byte m' x = if (a <=? x) && (x <? a + Z.of_nat (length bs)) then default 0 (bs !! Z.to_nat (x - a)) else dm_byte m x.

Lemma dm_after_app m m1 m2 a b1 b2 : dm_after m m1 a b1 -> dm_after m1 m2 (a + Z.of_nat (length b1)) b2 -> dm_after m m2 a (b1 ++ b2).
Proof.
  intros H1 H2 x Hx. rewrite (H2 x Hx), (H1 x Hx), length_app. destruct (decide (a <= x < a + Z.of_nat (length b1))) as [Hin|Hin].
  - rewrite lookup_app_l by lia. zcases; done || lia.
  - destruct (decide (x < a)); [zcases; done || lia|]. rewrite lookup_app_r by lia. replace (Z.to_nat (x - (a + Z.of_nat (length b1)))) with (Z.to_nat (x - a) - length b1)%nat by lia. zcases; done || lia.
Qed.
Lemma dm_write_after d a n m : 0 <= a -> 0 < n -> a + n < 2 ^ 64 -> (forall x, a <= x < a + n -> dm_ram x) -> n <= Z.of_nat (length d) ->
  exists m', dm_write d a n m = (m', Ok tt) /\ dm_after m m' a (take (Z.to_nat n) d).
Proof.
  intros Ha Hn Hw Hr Hl. destruct (dm_write_ram d a n m Ha Hn Hw Hr Hl) as (m' & E & Hm'). exists m'. split; [done|]. intros x Hx. rewrite (Hm' x Hx), length_take, Nat.min_l, Z2Nat.id by lia.
  zcases; try done. rewrite lookup_take_lt by lia. done.
Qed.
End laws.

(** ** Guest memory of an address space *)

Section flat.
Context {D : Type} (dev_read : rid -> list Z -> Z -> Z -> Mach D -> Mach D * option (bool * list Z)).
Context (dev_write : rid -> list Z -> Z -> Z -> Mach D -> Mach D * option bool).
Context (st : store) (fv : list FlatRange).

(** [FlatView::read] with what it copied before an error. *)
Fixpoint flat_read_into (fuel : nat) (start len : Z) (dst : list Z) : sres (Mach D) (list Z) (list Z) :=
  match fuel with
  | O => slift Panic
  | S fuel =>
    match find_flatrange fv start with
    | None => sfail dst
    | Some fr =>
      let fr_offset := offset_from start (ar_base (addr_range fr)) in
      let region_offset := wadd 64 (offset_in_region fr) fr_offset in
      let region_base := unchecked_sub (ar_base (addr_range fr)) (offset_in_region fr) in
      let fr_remain := wsub 64 (ar_size (addr_range fr)) fr_offset in
      fun s =>
      match st !! owner fr with
      | None => (s, Panic)
      | Some r =>
        let l := if is_ram (region_type r) then Z.min len fr_remain else len in
        match region_read dev_read st (owner fr) region_base region_offset l s with
        | (s, Ok d) =>
          let len := wsub 64 len l in
          if len =? 0 then (s, Ok (dst ++ d)) else flat_read_into fuel (unchecked_add start l) len (dst ++ d) s
        | (s, Err _) => (s, Err dst)
        | (s, Panic) => (s, Panic)
        end
      end
    end
  end.

(** Apart from the bytes copied before an error it is [flat_read]. *)
Lemma flat_read_into_eq fuel : forall start len dst s,
  match flat_read_into fuel start len dst s, flat_read_loop dev_read st fuel fv start len dst s with
  | (s1, Ok d1), (s2, Ok d2) => s1 = s2 /\ d1 = d2
  | (s1, Err _), (s2, Err _) | (s1, Panic), (s2, Panic) => s1 = s2
  | _, _ => False
  end.
Proof.
  induction fuel as [|fuel IH]; intros start len dst s; [done|]. cbn [flat_read_into flat_read_loop]. destruct (find_flatrange fv start) as [fr|]; [|done].
  destruct (st !! owner fr) as [r|]; [|done]. cbn [unwrap]. rewrite slift_Ok_bind. unfold mbind, sres_bind.
  destruct (region_read _ _ _ _ _ _ s) as [s1 [d|x|]]; [|done..]. destruct (_ =? 0); [done|]. apply IH.
Qed.

#[local] Instance flat_memory : DmaMemory (Mach D) := {|
  dm_read a n := flat_read_into (S (length fv)) a n [];
  dm_write d a n := fun m => match flat_write dev_write st fv d a n m with (m, Ok _) => (m, Ok tt) | (m, Err _) => (m, Err tt) | (m, Panic) => (m, Panic) end
|}.

(** The laws, for a view whose memory regions are mapped to distinct host memory
    and whose device regions have closures that keep memory and devices in order,
    and leave the devices [dev_stuck] if they do not return. *)
Definition bytes_mem (m : Mach D) : Prop := forall x, is_u8 (hmem m x).
Context (dev_ok dev_stuck : D -> Prop).
Definition mach_ok (m : Mach D) : Prop := bytes_mem m /\ dev_ok (dev m).
Context (Hstuck : forall d, dev_ok d -> ~ dev_stuck d).
Context (Hread : forall self buf base offset m, mach_ok m -> is_bytes buf ->
  match dev_read self buf base offset m with
  | (m', Some (_, b)) => mach_ok m' /\ length b = length buf /\ is_bytes b | (m', None) => dev_stuck (dev m') end).
Context (Hwrite : forall self buf base offset m, mach_ok m -> is_bytes buf ->
  match dev_write self buf base offset m with (m', Some _) => mach_ok m' | (m', None) => dev_stuck (dev m') end).
Definition region_usable (r : Region) : Prop :=
  match region_type r with
  | Ram | RamDevice => is_Some (mem_mapping r)
  | RomDevice => is_Some (mem_mapping r) /\ has_ops r = true /\ forall a, max_access_size r = Some a -> 0 < a
  | IO => has_ops r = true /\ forall a, max_access_size r = Some a -> 0 < a
  | _ => True
  end.
Context (Hview : view_ok st fv).
Context (Hregions : forall fr r, fr ∈ fv -> st !! owner fr = Some r -> region_usable r).
Context (Hinj : forall a b, 0 <= a -> 0 <= b -> is_Some (host_at st fv a) -> is_Some (host_at st fv b) -> host st fv a = host st fv b -> a = b).

(** One turn at an address a memory range covers. *)
Lemma flat_turn start fr r : 0 <= start -> find_flatrange fv start = Some fr -> st !! owner fr = Some r -> is_ram (region_type r) = true ->
  exists mm off rem, mem_mapping r = Some mm /\
    wadd 64 (offset_in_region fr) (offset_from start (ar_base (addr_range fr))) = off /\
    wsub 64 (ar_size (addr_range fr)) (offset_from start (ar_base (addr_range fr))) = rem /\
    0 < rem /\ 0 <= off /\ off + rem <= r_size r < 2 ^ 64 /\ start + rem < 2 ^ 64 /\ (ahead_in fv (start + rem) < ahead_in fv start)%nat.
Proof.
  intros Hs Hf Hr Ht. pose proof Hview as (Hok & Hfit & _). pose proof (find_flatrange_spec fv start Hok Hs) as Hspec. rewrite Hf in Hspec. destruct Hspec as [Hin Hc]. apply covers_spec in Hc.
  assert (is_Some (mem_mapping r)) as [mm Hmm] by (pose proof (Hregions fr r Hin Hr) as Hu; unfold region_usable in Hu; by destruct (region_type r)).
  pose proof Hin as [i Hi]%list_elem_of_lookup. destruct (flat_ok_lookup _ _ _ _ Hok Hi) as (H1 & H2 & H3).
  assert (is_Some (host_at st fv start)) as Hh. { unfold host_at, translate_at. rewrite flat_lookup_find, Hf by done. cbn. rewrite Hr. cbn. rewrite Ht, Hmm. by eexists. }
  destruct (ram_turn st fv Hview start 1) as (fr' & r' & mm' & off & rem & Hf' & Hr' & Ht' & Hm' & Eo & Er & P1 & P2 & P3 & P4 & _); [done|lia|lia|intros a Ha; by replace a with start by lia|].
  rewrite Hf in Hf'. injection Hf' as <-. rewrite Hr in Hr'. injection Hr' as <-. exists mm', off, rem. split_and!; try done; try lia.
  unfold offset_from in Er. rewrite (wsub_small 64 start), wsub_small in Er by (unfold inW; lia). lia.
Qed.

(** *** Reads *)

(** [n] bytes, or an error, or stuck. *)
Definition read_result {E} (n : nat) (out : Mach D * res E (list Z)) : Prop :=
  match out with
  | (m, Ok b) => mach_ok m /\ length b = n /\ is_bytes b | (m, Err _) => mach_ok m | (m, Panic) => dev_stuck (dev m)
  end.
Lemma host_read_bytes (m : Mach D) h n : bytes_mem m -> is_bytes (mem_read (hmem m) h n).
Proof.
  intros Hm. apply Forall_lookup. intros i b Hi. pose proof (lookup_lt_Some _ _ _ Hi) as Hl. unfold mem_read in *. rewrite ztab_length in Hl. rewrite ztab_lookup in Hi by done. injection Hi as <-. apply Hm.
Qed.

Lemma multi_read_ok n : forall self base offset pos count a buf m, mach_ok m -> is_bytes buf -> 0 <= pos -> 0 < a ->
  pos + Z.of_nat n * a + count `mod` a = count -> length buf = Z.to_nat count ->
  read_result (Z.to_nat count) (multi_read dev_read n self base offset pos count a buf m).
Proof.
  induction n as [|n IH]; intros self base offset pos count a buf m Hm Hb Hp Ha Hc Hl; cbn [multi_read]; pose proof (Z.mod_pos_bound count a Ha) as Hmod.
  - destruct (Z.ltb_spec 0 (count `mod` a)); [|by split]. unfold mbind, sres_bind, call_read.
    pose proof (Hread self (slice buf (Z.to_nat pos) (Z.to_nat (count - pos))) base (wadd 64 offset pos) m Hm (slice_is_bytes _ _ _ Hb)) as H1.
    destruct (dev_read _ _ _ _ m) as [m' [[[] b]|]]; cbn [unwrap mret sres_ret sfail read_result]; [|by destruct H1|done].
    destruct H1 as (H1 & H2 & H3). rewrite slice_length in H2 by lia. split_and!; [done|rewrite splice_length; lia|by apply splice_is_bytes].
  - unfold mbind at 1, sres_bind at 1, call_read at 1.
    pose proof (Hread self (slice buf (Z.to_nat pos) (Z.to_nat a)) base (wadd 64 offset pos) m Hm (slice_is_bytes _ _ _ Hb)) as H1.
    destruct (dev_read _ _ _ _ m) as [m' [[[] b]|]]; cbn [unwrap sfail read_result]; [|by destruct H1|done].
    destruct H1 as (H1 & H2 & H3). rewrite slice_length in H2 by nia. apply IH; [done|by apply splice_is_bytes|lia|done|lia|rewrite splice_length; nia].
Qed.
Lemma call_read_ok self n base offset m : mach_ok m ->
  read_result (E := AddressSpaceError) n ((x ← call_read dev_read self (replicate n 0) base offset; let '(ok, b) := x in if (ok : bool) then mret b else sfail (EIoAccess base offset (Z.of_nat n))) m).
Proof.
  intros Hm. unfold mbind, sres_bind, call_read. pose proof (Hread self (replicate n 0) base offset m Hm (zeros_are_bytes n)) as H1.
  destruct (dev_read _ _ _ _ m) as [m' [[[] b]|]]; cbn [unwrap mret sres_ret sfail read_result]; [|by destruct H1|done]. by rewrite length_replicate in H1.
Qed.

(** A read of a device region. *)
Lemma region_read_device o r base off l m : st !! o = Some r -> region_usable r -> is_ram (region_type r) = false -> 0 < l < 2 ^ 64 -> mach_ok m ->
  read_result (Z.to_nat l) (region_read dev_read st o base off l m).
Proof.
  intros Hr Hu Ht Hl Hm. unfold region_read. rewrite Hr. cbn [unwrap]. rewrite slift_Ok_bind. unfold region_usable in Hu.
  assert (Z.of_nat (Z.to_nat l) = l) as El by lia.
  destruct (region_type r); try done.
  - destruct Hu as [-> Hz]. pose proof (call_read_ok o (Z.to_nat l) base off m Hm) as Hc. rewrite El in Hc.
    destruct (max_access_size r) as [a|]; [|by rewrite slift_Ok_bind]. destruct (Z.ltb_spec a l); [|by rewrite slift_Ok_bind].
    specialize (Hz a eq_refl). rewrite slift_Ok_bind. destruct (Z.eqb_spec a 0) as [->|]; [lia|]. rewrite slift_Ok_bind.
    apply multi_read_ok; [done|apply zeros_are_bytes|lia|done| |apply length_replicate]. pose proof (Z.div_mod l a). pose proof (Z.div_pos l a). lia.
  - destruct Hu as ([mm ->] & -> & _). unfold check_valid_offset. destruct (checked_add 64 off l) as [e|]; [|done]. destruct (_ <=? _); [|done].
    rewrite slift_Ok_bind. destruct (rom_dev_romd r).
    + split; [done|]. split; [apply ztab_length|]. apply host_read_bytes, Hm.
    + rewrite slift_Ok_bind. pose proof (call_read_ok o (Z.to_nat l) base off m Hm) as Hc. by rewrite El in Hc.
Qed.

Lemma flat_read_into_safe fuel : forall start len dst s, (ahead_in fv start < fuel)%nat -> 0 <= start -> 0 < len < 2 ^ 32 -> mach_ok s -> is_bytes dst ->
  match flat_read_into fuel start len dst s with
  | (s', Ok d) => mach_ok s' /\ length d = (length dst + Z.to_nat len)%nat /\ is_bytes d
  | (s', Err d) => mach_ok s' /\ (length d <= length dst + Z.to_nat len)%nat /\ is_bytes d
  | (s', Panic) => dev_stuck (dev s')
  end.
Proof.
  induction fuel as [|fuel IH]; intros start len dst s Hf Hs Hl Hm Hd; [lia|]. cbn [flat_read_into]. destruct (find_flatrange fv start) as [fr|] eqn:Hfr; [|split_and!; [done|lia|done]].
  pose proof Hview as (Hok & Hfit & _). pose proof (find_flatrange_spec fv start Hok Hs) as Hspec. rewrite Hfr in Hspec. destruct Hspec as [Hin _].
  destruct (Hfit fr Hin) as (r & Hr & _). pose proof (Hregions fr r Hin Hr) as Hu. rewrite Hr. destruct (is_ram (region_type r)) eqn:Ht.
  - destruct (flat_turn start fr r Hs Hfr Hr Ht) as (mm & off & rem & Hmm & -> & -> & P1 & P2 & P3 & P4 & P5).
    rewrite (region_read_ram st dev_read _ r mm) by (done || lia). rewrite wsub_small by (unfold inW; lia).
    set (d := mem_read _ _ _). assert (length d = Z.to_nat (Z.min len rem)) as Hdl by apply ztab_length.
    assert (is_bytes (dst ++ d)) as Hb by (apply Forall_app; split; [done|apply host_read_bytes, Hm]).
    destruct (Z.eqb_spec (len - Z.min len rem) 0); [split_and!; [done|rewrite length_app; lia|done]|].
    unfold unchecked_add. rewrite wadd_small by (unfold inW; lia). replace (start + Z.min len rem) with (start + rem) by lia.
    specialize (IH (start + rem) (len - Z.min len rem) (dst ++ d) s ltac:(lia) ltac:(lia) ltac:(lia) Hm Hb).
    destruct (flat_read_into fuel _ _ _ s) as [s' [x|x|]]; [| |done]; rewrite length_app in IH; (split; [apply IH|split; [lia|apply IH]]).
  - rewrite wsub_small, Z.sub_diag by (unfold inW; lia). change (0 =? 0) with true.
    pose proof (region_read_device (owner fr) r (unchecked_sub (ar_base (addr_range fr)) (offset_in_region fr)) (wadd 64 (offset_in_region fr) (offset_from start (ar_base (addr_range fr)))) len s Hr Hu Ht ltac:(lia) Hm) as Hd'.
    destruct (region_read _ _ _ _ _ _ s) as [s' [d|e|]]; cbn [read_result] in Hd'; [|split_and!; [done|lia|done]|done].
    destruct Hd' as (H1 & H2 & H3). split_and!; [done|rewrite length_app; lia|]. by apply Forall_app.
Qed.

(** *** Writes *)

Definition write_result {E A} (out : Mach D * res E A) : Prop := match out with (m, Panic) => dev_stuck (dev m) | (m, _) => mach_ok m end.

Lemma multi_write_ok n : forall self base offset pos count a buf m, mach_ok m -> is_bytes buf ->
  write_result (multi_write dev_write n self base offset pos count a buf m).
Proof.
  induction n as [|n IH]; intros self base offset pos count a buf m Hm Hb; cbn [multi_write].
  - destruct (0 <? _); [|done]. unfold mbind, sres_bind, call_write.
    pose proof (Hwrite self (slice buf (Z.to_nat pos) (Z.to_nat (count - pos))) base (wadd 64 offset pos) m Hm (slice_is_bytes _ _ _ Hb)) as H1.
    by destruct (dev_write _ _ _ _ m) as [m' [[]|]].
  - unfold mbind at 1, sres_bind at 1, call_write at 1.
    pose proof (Hwrite self (slice buf (Z.to_nat pos) (Z.to_nat a)) base (wadd 64 offset pos) m Hm (slice_is_bytes _ _ _ Hb)) as H1.
    destruct (dev_write _ _ _ _ m) as [m' [[]|]]; [|done..]. cbn [unwrap]. by apply IH.
Qed.
Lemma call_write_ok {A} self buf base offset (k : bool -> sres (Mach D) AddressSpaceError A) m : mach_ok m -> is_bytes buf ->
  (forall ok m, mach_ok m -> write_result (k ok m)) -> write_result ((ok ← call_write dev_write self buf base offset; k ok) m).
Proof.
  intros Hm Hb Hk. unfold mbind, sres_bind, call_write. pose proof (Hwrite self buf base offset m Hm Hb) as H1.
  destruct (dev_write _ _ _ _ m) as [m' [ok|]]; cbn [unwrap]; [by apply Hk|done].
Qed.

Lemma region_write_device o r src base off l m : st !! o = Some r -> region_usable r -> is_ram (region_type r) = false -> 0 < l < 2 ^ 32 ->
  mach_ok m -> is_bytes src -> l <= Z.of_nat (length src) -> write_result (region_write dev_write st o src base off l m).
Proof.
  intros Hr Hu Ht Hl Hm Hb Hlen. unfold region_write. rewrite Hr. cbn [unwrap]. rewrite slift_Ok_bind. unfold region_usable in Hu.
  unfold check_valid_offset. destruct (checked_add 64 off l) as [e|]; [|done]. destruct (e <=? r_size r); [|done]. rewrite slift_Ok_bind.
  assert (has_ops r = true -> (forall a, max_access_size r = Some a -> 0 < a) -> write_result ((
    if 2 ^ 64 - 1 <=? l then sfail (EOverflow l) else
    x ← slift (read_exact src (Z.to_nat l)); let '(d, rest) := x in
    _ ← slift (if has_ops r then Ok tt else Panic);
    match max_access_size r with
    | Some a =>
      if a <? l then
        _ ← slift (if a =? 0 then Panic else Ok tt);
        _ ← multi_write dev_write (Z.to_nat (l / a)) o base off 0 l a d;
        mret rest
      else ok ← call_write dev_write o d base off; if (ok : bool) then mret rest else sfail (EIoAccess base off l)
    | None => ok ← call_write dev_write o d base off; if (ok : bool) then mret rest else sfail (EIoAccess base off l)
    end) m)) as Hops.
  { intros -> Hz. destruct (_ <=? l); [done|]. unfold read_exact. destruct (Nat.leb_spec (Z.to_nat l) (length src)); [|lia]. rewrite !slift_Ok_bind.
    assert (is_bytes (take (Z.to_nat l) src)) as Hd by (by apply Forall_take).
    assert (write_result ((ok ← call_write dev_write o (take (Z.to_nat l) src) base off; if (ok : bool) then mret (drop (Z.to_nat l) src) else sfail (EIoAccess base off l)) m)) as Hc.
    { apply call_write_ok; [done|done|]. by intros [] m' ?. }
    destruct (max_access_size r) as [a|]; [|done]. destruct (a <? l); [|done]. specialize (Hz a eq_refl). destruct (Z.eqb_spec a 0); [lia|]. rewrite slift_Ok_bind.
    pose proof (multi_write_ok (Z.to_nat (l / a)) o base off 0 l a _ m Hm Hd) as Hw. unfold mbind, sres_bind. by destruct (multi_write _ _ _ _ _ _ _ _ _ m) as [m' []]. }
  destruct (region_type r); try done; [destruct Hu as [? ?]|destruct Hu as (_ & ? & ?)]; by apply Hops.
Qed.

Lemma flat_write_safe fuel : forall start len src s, (ahead_in fv start < fuel)%nat -> 0 <= start -> 0 < len < 2 ^ 32 -> mach_ok s -> is_bytes src -> len <= Z.of_nat (length src) ->
  write_result (flat_write_loop dev_write st fuel fv src start len s).
Proof.
  induction fuel as [|fuel IH]; intros start len src s Hf Hs Hl Hm Hb Hlen; [lia|]. cbn [flat_write_loop]. destruct (find_flatrange fv start) as [fr|] eqn:Hfr; [|done].
  pose proof Hview as (Hok & Hfit & _). pose proof (find_flatrange_spec fv start Hok Hs) as Hspec. rewrite Hfr in Hspec. destruct Hspec as [Hin _].
  destruct (Hfit fr Hin) as (r & Hr & _). pose proof (Hregions fr r Hin Hr) as Hu. rewrite Hr. cbn [unwrap]. rewrite slift_Ok_bind. destruct (is_ram (region_type r)) eqn:Ht.
  - destruct (flat_turn start fr r Hs Hfr Hr Ht) as (mm & off & rem & Hmm & -> & -> & P1 & P2 & P3 & P4 & P5).
    pose proof (region_write_ram st dev_write (owner fr) r mm src (unchecked_sub (ar_base (addr_range fr)) (offset_in_region fr)) off (Z.min len rem) s Hr Ht Hmm ltac:(lia) ltac:(lia) ltac:(lia) ltac:(lia)) as Hw.
    cbv zeta in Hw. rewrite (sres_step _ _ _ _ _ Hw). rewrite wsub_small by (unfold inW; lia). clear Hw. set (s1 := mkMach _ _ _).
    assert (mach_ok s1) as Hm1. { split; [|apply Hm]. intros x. cbn. unfold mem_write. destruct (_ && _); [|apply Hm]. destruct (take _ _ !! _) as [b|] eqn:E; [cbn [from_option]|split; done]. apply lookup_take_Some in E as [E _]. exact (Forall_lookup_1 _ _ _ _ Hb E). }
    destruct (Z.eqb_spec (len - Z.min len rem) 0); [done|]. unfold unchecked_add. rewrite wadd_small by (unfold inW; lia). replace (start + Z.min len rem) with (start + rem) by lia.
    apply IH; [lia|lia|lia|done|by apply Forall_drop|rewrite length_drop; lia].
  - rewrite wsub_small, Z.sub_diag by (unfold inW; lia). change (0 =? 0) with true.
    pose proof (region_write_device (owner fr) r src (unchecked_sub (ar_base (addr_range fr)) (offset_in_region fr)) (wadd 64 (offset_in_region fr) (offset_from start (ar_base (addr_range fr)))) len s Hr Hu Ht Hl Hm Hb Hlen) as Hw.
    unfold mbind, sres_bind. by destruct (region_write _ _ _ _ _ _ _ s) as [s' []].
Qed.

#[local] Program Instance flat_laws : DmaLaws (Mach D) := {|
  dm_ok := mach_ok;
  dm_stuck m := dev_stuck (dev m);
  dm_ram a := 0 <= a /\ is_Some (host_at st fv a);
  dm_byte m a := hmem m (host st fv a)
|}.
Next Obligation. intros m [_ Hd]. by apply Hstuck. Qed.
Next Obligation.
  intros a n m Hm Hn Ha. pose proof (ahead_length fv a).
  pose proof (flat_read_into_safe (S (length fv)) a n [] m ltac:(lia) ltac:(unfold inW in Ha; lia) Hn Hm (Forall_nil_2 _)) as H1.
  unfold dm_read, flat_memory. by destruct (flat_read_into _ a n [] m) as [m' []].
Qed.
Next Obligation.
  intros d a n m Hm Hn Ha Hd Hl. pose proof (ahead_length fv a).
  pose proof (flat_write_safe (S (length fv)) a n d m ltac:(lia) ltac:(unfold inW in Ha; lia) Hn Hm Hd Hl) as H1.
  unfold dm_write, flat_memory, flat_write. by destruct (flat_write_loop _ _ _ _ _ _ _ m) as [m' []].
Qed.
Next Obligation.
  intros a n m Ha Hn Hw Hr. pose proof (ahead_length fv a). pose proof (flat_read_into_eq (S (length fv)) a n [] m) as E.
  rewrite (flat_read_loop_ram st fv Hview dev_read) in E by (lia || (intros x Hx; apply Hr; lia)). unfold dm_read, flat_memory.
  destruct (flat_read_into _ a n [] m) as [m' []]; [|done..]. by destruct E as [-> ->].
Qed.
Next Obligation.
  intros d a n m Ha Hn Hw Hr Hl. pose proof (ahead_length fv a). unfold dm_write, flat_memory, flat_write.
  destruct (flat_write_loop_ram st fv Hview dev_write (S (length fv)) a n d m) as (m' & -> & _ & Hm'); [lia|lia|lia|lia|intros x Hx; apply Hr; lia|lia|]. exists m'. split; [done|].
  intros x [Hx0 Hx]. rewrite Hm'. destruct (decide (a <= x < a + n)) as [Hin|Hout].
  - replace ((a <=? x) && (x <? a + n)) with true by lia. destruct (lookup_lt_is_Some_2 d (Z.to_nat (x - a))) as [b Hb]; [lia|]. rewrite Hb. replace x with (a + Z.of_nat (Z.to_nat (x - a))) at 1 by lia.
    apply write_guest_in; [|by rewrite lookup_take_lt by lia]. rewrite length_take. intros j k Hj Hk E. enough (a + j = a + k) by lia. apply Hinj; [lia|lia|apply Hr; lia|apply Hr; lia|done].
  - replace ((a <=? x) && (x <? a + n)) with false by lia. apply write_guest_out. intros k. rewrite length_take. intros Hk E. apply Hout.
    assert (a + k = x) by (apply Hinj; [lia|done|apply Hr; lia|done|done]). lia.
Qed.
End flat.

(** ** An example: two memory regions and a device *)

(** The device of [ex3_view] does not return from an access to its upper half. *)
Definition ex_dev_read (_ : rid) (buf : list Z) (_ offset : Z) (m : Mach bool) : Mach bool * option (bool * list Z) :=
  if offset <? 0x800 then (m, Some (true, buf)) else (mkMach (hmem m) (dirty m) true, None).
Definition ex_dev_write (_ : rid) (buf : list Z) (_ offset : Z) (m : Mach bool) : Mach bool * option bool :=
  if offset <? 0x800 then (m, Some true) else (mkMach (hmem m) (dirty m) true, None).

Lemma ex3_host a : 0 <= a -> host_at ex3_store ex3_view a = if a <? 0x1000 then Some (0x50000 + a) else if a <? 0x2000 then Some (0x10000 + (a - 0x1000)) else None.
Proof.
  intros Ha. unfold host_at, translate_at. cbn [ex3_view ex2_view app flat_lookup addr_range covers ar_base ar_size].
  assert (ex3_store !! 2%positive = Some (ex2_ram 0 0x50000) /\ ex3_store !! 3%positive = Some (ex2_ram 0x1000 0x10000)) as [E2 E3] by (split; reflexivity).
  unfold covers, fr_place. cbn [ar_base ar_size owner offset_in_region addr_range]. zcases; try lia; cbn [mbind option_bind owner]; try done;
    first [refine (eq_trans (f_equal (fun o => o ≫= _) E2) _)|refine (eq_trans (f_equal (fun o => o ≫= _) E3) _)]; cbn; f_equal; lia.
Qed.
Lemma ex3_usable fr r : fr ∈ ex3_view -> ex3_store !! owner fr = Some r -> region_usable r.
Proof.
  intros Hfr. unfold ex3_view, ex2_view in Hfr. set_unfold in Hfr. destruct_or?; subst; vm_compute; intros [= <-]; try (by eexists).
  split; [done|]. by intros a [= <-].
Qed.
Lemma ex3_inj a b : 0 <= a -> 0 <= b -> is_Some (host_at ex3_store ex3_view a) -> is_Some (host_at ex3_store ex3_view b) -> host ex3_store ex3_view a = host ex3_store ex3_view b -> a = b.
Proof.
  intros Ha Hb. unfold host. rewrite !ex3_host by done. zcases; cbn; intros [? ?] [? ?] ?; try done; lia.
Qed.
Lemma ex3_view_ok : view_ok ex3_store ex3_view.
Proof.
  split_and!; [vm_compute; done| |].
  - intros fr Hfr. unfold ex3_view, ex2_view in Hfr. set_unfold in Hfr. destruct_or?; subst; eexists; (split; [vm_compute; reflexivity|simpl; lia]).
  - intros o r H. unfold ex3_store, ex2_store in H. ex_cases H; intros mm; cbn; intros [= <-]; simpl; lia.
Qed.
Lemma ex_stuck d : d = false -> d <> true.
Proof. by intros ->. Qed.
Lemma ex_dev_read_ok self buf base offset m : mach_ok (fun d => d = false) m -> is_bytes buf ->
  match ex_dev_read self buf base offset m with
  | (m', Some (_, b)) => mach_ok (fun d => d = false) m' /\ length b = length buf /\ is_bytes b | (m', None) => dev m' = true end.
Proof. intros. unfold ex_dev_read. by destruct (_ <? _). Qed.
Lemma ex_dev_write_ok self buf base offset m : mach_ok (fun d => d = false) m -> is_bytes buf ->
  match ex_dev_write self buf base offset m with (m', Some _) => mach_ok (fun d => d = false) m' | (m', None) => dev m' = true end.
Proof. intros. unfold ex_dev_write. by destruct (_ <? _). Qed.

Definition ex_memory : DmaMemory (Mach bool) := flat_memory ex_dev_read ex_dev_write ex3_store ex3_view.
Definition ex_laws : @DmaLaws (Mach bool) ex_memory :=
  flat_laws _ _ ex3_store ex3_view (fun d => d = false) (fun d => d = true) ex_stuck ex_dev_read_ok ex_dev_write_ok ex3_view_ok ex3_usable ex3_inj.

(** Memory that is zero but for [bs] at guest address [a] below [0x1000]. *)
Definition memory_with (a : Z) (bs : list Z) : Mach bool := mkMach (mem_write (fun _ => 0) (0x50000 + a) bs) [] false.
Lemma memory_with_ok a bs : is_bytes bs -> mach_ok (fun d => d = false) (memory_with a bs).
Proof.
  intros Hb. split; [|done]. intros x. cbn. unfold mem_write. destruct (_ && _); [|split; done]. destruct (bs !! _) as [b|] eqn:E; [exact (Forall_lookup_1 _ _ _ _ Hb E)|split; done].
Qed.
Definition guest_at (a : Z) (n : nat) (m : Mach bool) : list Z := guest_bytes ex3_store ex3_view (hmem m) a n.
Lemma ex3_range a n : 0 <= a -> a + n <= 0x2000 -> forall x, a <= x < a + n -> @dm_ram _ _ ex_laws x.
Proof. intros Ha Hn x Hx. split; [lia|]. rewrite ex3_host by lia. zcases; try lia; by eexists. Qed.
