(* ===== verification/FwCfg.v ===== *)
(** * The firmware configuration device ([devices/src/legacy/fwcfg.rs])

    Entries and files the machine offers to the firmware, the selector and data
    registers, and DMA requests in guest memory.  Guest memory is an instance of
    [DmaMemory]. *)
From stdpp Require Import prelude list list_numbers gmap.
From Stdlib Require Import ZArith Lia Sorted.
From S2P Require Import Prelude NumOps Address Region FlatView DmaMemory.

(** ** Constants *)

Definition FW_CFG_DMA_SIGNATURE : Z := 0x51454d5520434647.
Definition FW_CFG_VERSION : Z := 0x01.
Definition FW_CFG_VERSION_DMA : Z := 0x02.
Definition FW_CFG_FILE_SLOTS_DFLT : Z := 0x20.
Definition FW_CFG_FILE_FIRST : Z := 0x20.
Definition FW_CFG_WRITE_CHANNEL : Z := 0x4000.
Definition FW_CFG_ARCH_LOCAL : Z := 0x8000.
Definition FW_CFG_ENTRY_MASK : Z := wnot 16 (Z.lor FW_CFG_WRITE_CHANNEL FW_CFG_ARCH_LOCAL).
Definition FW_CFG_INVALID : Z := 0xffff.
Definition FW_CFG_DMA_CTL_ERROR : Z := 0x01.
Definition FW_CFG_DMA_CTL_READ : Z := 0x02.
Definition FW_CFG_DMA_CTL_SKIP : Z := 0x04.
Definition FW_CFG_DMA_CTL_SELECT : Z := 0x08.
Definition FW_CFG_DMA_CTL_WRITE : Z := 0x10.

Inductive FwCfgEntryType :=
| Signature | Id | Uuid | RamSize | NoGraphic | NbCpus | MachineId | KernelAddr
| KernelSize | KernelCmdline | InitrdAddr | InitrdSize | BootDevice | Numa | BootMenu
| MaxCpus | KernelEntry | KernelData | InitrdData | CmdlineAddr | CmdlineSize
| CmdlineData | SetupAddr | SetupSize | SetupData | FileDir | Irq0Override | E820Table.
Definition entry_key (t : FwCfgEntryType) : Z :=
  match t with
  | Signature => 0 | Id => 1 | Uuid => 2 | RamSize => 3 | NoGraphic => 4 | NbCpus => 5
  | MachineId => 6 | KernelAddr => 7 | KernelSize => 8 | KernelCmdline => 9
  | InitrdAddr => 10 | InitrdSize => 11 | BootDevice => 12 | Numa => 13 | BootMenu => 14
  | MaxCpus => 15 | KernelEntry => 16 | KernelData => 17 | InitrdData => 18
  | CmdlineAddr => 19 | CmdlineSize => 20 | CmdlineData => 21 | SetupAddr => 22
  | SetupSize => 23 | SetupData => 24 | FileDir => 25
  | Irq0Override => 0x8002 | E820Table => 0x8003
  end.

(** [get_key_name] indexes a table of 26 names for every key below 32; an error
    carries the key instead of its name. *)
Definition get_key_name {E} (key : Z) : res E Z :=
  if key <? FW_CFG_FILE_FIRST then (if key <? 26 then Ok key else Panic) else Ok key.

(** ** State *)

(** Callbacks are identified by numbers; [calls] of the device logs their
    invocations. *)
Record FwCfgEntry := mkEntry {
  data : list Z;
  select_cb : option Z;
  write_cb : option Z;
  allow_write : bool
}.
Definition empty_entry : FwCfgEntry := mkEntry [] None None false.
Definition set_data (d : list Z) (e : FwCfgEntry) : FwCfgEntry := mkEntry d (select_cb e) (write_cb e) (allow_write e).

Record FwCfgFile := mkFile { fsize : Z; select : Z; name : list Z }.
Definition FwCfgFile_new (size sel : Z) (nm : list Z) : FwCfgFile :=
  let len := Nat.min 56 (length nm) in
  mkFile size sel (splice (replicate 56 0) 0 (take len nm)).
Definition as_be_bytes (f : FwCfgFile) : list Z :=
  be_bytes 4 (fsize f) ++ be_bytes 2 (select f) ++ be_bytes 2 0 ++ name f.

Inductive call := Selected (cb : Z) | Written (cb : Z) (bytes : list Z) (start len : Z).

Inductive LegacyError :=
| EntryNotFound (key : Z)
| InvalidFwCfgEntry (key : Z)
| FileSlotsNotAvailable (filename : list Z)
| DuplicateFile (filename : list Z)
| FileNotFound (filename : list Z)
| ReadDmaRequest (addr size : Z)
| DmaAccess
| LegacyBail.

Record FwCfgCommon := mkFwCfg {
  file_slots : Z;
  arch_entries : list FwCfgEntry;
  entries : list FwCfgEntry;
  files : list FwCfgFile;
  cur_entry : Z;
  cur_offset : Z;
  dma_enabled : bool;
  dma_addr : Z;
  calls : list call
}.
Definition set_arch_entries v (s : FwCfgCommon) := mkFwCfg (file_slots s) v (entries s) (files s) (cur_entry s) (cur_offset s) (dma_enabled s) (dma_addr s) (calls s).
Definition set_entries v (s : FwCfgCommon) := mkFwCfg (file_slots s) (arch_entries s) v (files s) (cur_entry s) (cur_offset s) (dma_enabled s) (dma_addr s) (calls s).
Definition set_files v (s : FwCfgCommon) := mkFwCfg (file_slots s) (arch_entries s) (entries s) v (cur_entry s) (cur_offset s) (dma_enabled s) (dma_addr s) (calls s).
Definition set_cur (e o : Z) (s : FwCfgCommon) := mkFwCfg (file_slots s) (arch_entries s) (entries s) (files s) e o (dma_enabled s) (dma_addr s) (calls s).
Definition set_dma_addr v (s : FwCfgCommon) := mkFwCfg (file_slots s) (arch_entries s) (entries s) (files s) (cur_entry s) (cur_offset s) (dma_enabled s) v (calls s).
Definition log_call c (s : FwCfgCommon) := mkFwCfg (file_slots s) (arch_entries s) (entries s) (files s) (cur_entry s) (cur_offset s) (dma_enabled s) (dma_addr s) (calls s ++ [c]).

Definition FwCfgCommon_new : FwCfgCommon :=
  let slots := replicate (Z.to_nat (FW_CFG_FILE_FIRST + FW_CFG_FILE_SLOTS_DFLT)) empty_entry in
  mkFwCfg FW_CFG_FILE_SLOTS_DFLT slots slots [] 0 0 true 0 [].

Definition is_arch_local (s : FwCfgCommon) : bool := 0 <? Z.land (cur_entry s) FW_CFG_ARCH_LOCAL.
Definition max_entry (s : FwCfgCommon) : Z := wadd 16 FW_CFG_FILE_FIRST (file_slots s).

(** The vector the current selection refers to. *)
Definition cur_entries (s : FwCfgCommon) : list FwCfgEntry := if is_arch_local s then arch_entries s else entries s.
Definition set_cur_entries (v : list FwCfgEntry) (s : FwCfgCommon) : FwCfgCommon :=
  if is_arch_local s then set_arch_entries v s else set_entries v s.

(** [get_entry_mut]: where the selected entry is, and its value. *)
Definition cur_key (s : FwCfgCommon) : Z := Z.land (cur_entry s) FW_CFG_ENTRY_MASK.
Definition get_entry_mut (s : FwCfgCommon) : res LegacyError FwCfgEntry :=
  if (max_entry s <=? cur_key s) || (cur_entry s =? FW_CFG_INVALID)
  then n ← get_key_name (cur_entry s); Err (EntryNotFound n)
  else unwrap (cur_entries s !! Z.to_nat (cur_key s)).
Definition put_entry (e : FwCfgEntry) (s : FwCfgCommon) : FwCfgCommon :=
  set_cur_entries (<[Z.to_nat (cur_key s) := e]> (cur_entries s)) s.

Definition select_entry (key : Z) (s : FwCfgCommon) : res LegacyError FwCfgCommon :=
  if max_entry s <=? Z.land key FW_CFG_ENTRY_MASK then Ok (set_cur FW_CFG_INVALID 0 s)
  else
    let s := set_cur key 0 s in
    match get_entry_mut s with
    | Ok e => Ok (match select_cb e with Some cb => log_call (Selected cb) s | None => s end)
    | _ => Panic
    end.

(** ** Entries and files *)

Definition U32_MAX : Z := 2 ^ 32 - 1.

Definition add_entry (t : FwCfgEntryType) (scb wcb : option Z) (d : list Z) (allow : bool) (s : FwCfgCommon) : res LegacyError FwCfgCommon :=
  let key := Z.land (entry_key t) FW_CFG_ENTRY_MASK in
  if (max_entry s <=? key) || (U32_MAX <=? Z.of_nat (length d)) then Err (InvalidFwCfgEntry key)
  else
    _ ← unwrap (cur_entries s !! Z.to_nat key);
    Ok (set_cur_entries (<[Z.to_nat key := mkEntry d scb wcb allow]> (cur_entries s)) s).

Definition update_entry_data (key : Z) (d : list Z) (s : FwCfgCommon) : res LegacyError FwCfgCommon :=
  if (max_entry s <=? key) || (U32_MAX <=? Z.of_nat (length d)) then Err (InvalidFwCfgEntry key)
  else match cur_entries s !! Z.to_nat key with
       | Some e => Ok (set_cur_entries (<[Z.to_nat key := set_data d e]> (cur_entries s)) s)
       | None => n ← get_key_name key; Err (EntryNotFound n)
       end.

(** [Vec<u8>] is ordered lexicographically. *)
Fixpoint bytes_ltb (a b : list Z) : bool :=
  match a, b with
  | _, [] => false
  | [], _ :: _ => true
  | x :: a, y :: b => (x <? y) || ((x =? y) && bytes_ltb a b)
  end.

(** [f.name\[0..len\] == filename], whose slice panics for a long name. *)
Definition same_name (nm : list Z) (f : FwCfgFile) : bool := bool_decide (take (length nm) (name f) = nm).
Definition name_fits (nm : list Z) (fs : list FwCfgFile) : res LegacyError unit :=
  if (0 <? Z.of_nat (length fs)) && (56 <? Z.of_nat (length nm)) then Panic else Ok tt.

(** The loop that looks for the first file with a greater name. *)
Fixpoint file_index (nm : list Z) (fs : list FwCfgFile) : nat :=
  match fs with
  | [] => 0
  | f :: fs => if bytes_ltb nm (name f) then 0%nat else S (file_index nm fs)
  end.

Definition insert_at {A} (i : nat) (x : A) (l : list A) : list A := take i l ++ x :: drop i l.
Definition bump (f : FwCfgFile) : FwCfgFile := mkFile (fsize f) (wadd 16 (select f) 1) (name f).
Definition dir_bytes (fs : list FwCfgFile) : list Z :=
  let file_length_be := be_val (le_bytes 4 (wrap 32 (Z.of_nat (length fs)))) in
  le_bytes 4 file_length_be ++ concat (map as_be_bytes fs).

Definition add_file_callback (nm d : list Z) (scb wcb : option Z) (allow : bool) (s : FwCfgCommon) : FwCfgCommon * res LegacyError unit :=
  if file_slots s <=? Z.of_nat (length (files s)) then (s, Err (FileSlotsNotAvailable nm))
  else match name_fits nm (files s) with
  | Ok _ =>
    if existsb (same_name nm) (files s) then (s, Err (DuplicateFile nm))
    else
      let index := file_index nm (files s) in
      let file := FwCfgFile_new (wrap 32 (Z.of_nat (length d))) (wadd 16 FW_CFG_FILE_FIRST (wrap 16 (Z.of_nat index))) nm in
      let s := set_files (take index (files s) ++ file :: map bump (drop index (files s))) s in
      match update_entry_data (entry_key FileDir) (dir_bytes (files s)) s with
      | Ok s =>
        let at_ := (Z.to_nat FW_CFG_FILE_FIRST + index)%nat in
        if (length (entries s) <? at_)%nat then (s, Panic)
        else (set_entries (insert_at at_ (mkEntry d scb wcb allow) (entries s)) s, Ok tt)
      | Err e => (s, Err e)
      | Panic => (s, Panic)
      end
  | Err e => (s, Err e)
  | Panic => (s, Panic)
  end.

Definition modify_file_callback (nm d : list Z) (scb wcb : option Z) (allow : bool) (s : FwCfgCommon) : FwCfgCommon * res LegacyError unit :=
  if file_slots s <=? Z.of_nat (length (files s)) then (s, Err (FileSlotsNotAvailable nm))
  else match name_fits nm (files s) with
  | Ok _ =>
    match list_find (fun f => same_name nm f = true) (files s) with
    | Some (index, f) =>
      let s := set_files (<[index := mkFile (wrap 32 (Z.of_nat (length d))) (select f) (name f)]> (files s)) s in
      match update_entry_data (entry_key FileDir) (dir_bytes (files s)) s with
      | Ok s =>
        let at_ := (Z.to_nat FW_CFG_FILE_FIRST + index)%nat in
        if (at_ <? length (entries s))%nat then (set_entries (<[at_ := mkEntry d scb wcb allow]> (entries s)) s, Ok tt)
        else (s, Panic)
      | Err e => (s, Err e)
      | Panic => (s, Panic)
      end
    | None => (s, Err (FileNotFound nm))
    end
  | Err e => (s, Err e)
  | Panic => (s, Panic)
  end.

(** The methods of [FwCfgOps]. *)
Definition add_data_entry t d := add_entry t None None d false.
Definition add_string_entry t (v : list Z) := add_entry t None None (v ++ [0]) false.
Definition add_file_entry nm d := add_file_callback nm d None None true.
Definition modify_file_entry nm d := modify_file_callback nm d None None true.

(** "etc/boot-fail-wait" *)
Definition boot_fail_wait : list Z := [101; 116; 99; 47; 98; 111; 111; 116; 45; 102; 97; 105; 108; 45; 119; 97; 105; 116].
(** A device whose realization fails is dropped. *)
Definition common_realize (s : FwCfgCommon) : res LegacyError FwCfgCommon :=
  s ← add_entry Signature None None [81; 69; 77; 85] false s;
  s ← add_entry NoGraphic None None (le_bytes 2 0) false s;
  s ← add_entry BootMenu None None (le_bytes 2 0) false s;
  s ← add_entry FileDir None None [] false s;
  let '(s, r) := add_file_callback boot_fail_wait (le_bytes 4 5) None None false s in
  _ ← r;
  let version := if dma_enabled s then Z.lor FW_CFG_VERSION FW_CFG_VERSION_DMA else FW_CFG_VERSION in
  add_entry Id None None (le_bytes 2 version) false s.

(** ** The data register *)

(** [n] is what is left of the access size; the result is the value, the offset
    and the bytes that could not be read. *)
Fixpoint data_loop (n : nat) (d : list Z) (off value : Z) : res LegacyError (Z * Z * nat) :=
  match n with
  | O => Ok (value, off, O)
  | S n =>
    b ← unwrap (d !! Z.to_nat off);
    let value := Z.lor (wshl 64 value 8) b in
    let off := wadd 32 off 1 in
    if (n =? 0)%nat || (wrap 32 (Z.of_nat (length d)) <=? off) then Ok (value, off, n)
    else data_loop n d off value
  end.
Definition read_data_reg (size : Z) (s : FwCfgCommon) : res LegacyError (FwCfgCommon * Z) :=
  if (size =? 0) || (8 <? size) then Err LegacyBail
  else
    e ← get_entry_mut s;
    if negb (cur_entry s =? FW_CFG_INVALID) && negb (bool_decide (data e = [])) && (cur_offset s <? wrap 32 (Z.of_nat (length (data e)))) then
      '(value, off, rest) ← data_loop (Z.to_nat size) (data e) (cur_offset s) 0;
      Ok (set_cur (cur_entry s) off s, wshl 64 value (8 * Z.of_nat rest))
    else Ok (s, 0).

Definition dma_mem_read (addr size : Z) : option Z :=
  extract_u64 FW_CFG_DMA_SIGNATURE (wrap 32 (wmul 64 (wsub 64 (wsub 64 8 addr) size) 8)) (wmul 32 size 8).

(** ** DMA requests *)

Section device.
Context {M : Type} `{!DmaMemory M}.

Definition World : Type := FwCfgCommon * M.

(** [write_dma_result]: the control word is the first field of a request. *)
Definition write_dma_result (addr value : Z) : sres M LegacyError unit := fun m =>
  match dm_write (be_bytes 4 value) (unchecked_add addr 0) 4 m with
  | (m, Ok _) => (m, Ok tt)
  | (m, Err _) => (m, Err DmaAccess)
  | (m, Panic) => (m, Panic)
  end.

Record dma_state := mkDma { control : Z; dlength : Z; address : Z; offset : Z; dentry : FwCfgEntry; dcalls : list call }.

(** One turn of the loop: the selected entry is [dentry], [stale] the selection
    before the request. *)
Definition dma_turn (stale : Z) (is_read is_write : bool) (d : dma_state) : sres M LegacyError dma_state := fun m =>
  let elen := wrap 32 (Z.of_nat (length (data (dentry d)))) in
  let fail b c := if (b : bool) then Z.lor c FW_CFG_DMA_CTL_ERROR else c in
  let next m len off c e cs := (m, Ok (mkDma c (dlength d - len) (wadd 64 (address d) len) off e cs)) in
  if (stale =? FW_CFG_INVALID) || bool_decide (data (dentry d) = []) || (elen <=? offset d) then
    let len := dlength d in
    let '(m, r) := if is_read then dm_write (replicate (Z.to_nat len) 0) (address d) len m else (m, Ok tt) in
    match r with
    | Panic => (m, Panic)
    | _ => next m len (offset d) (fail is_write (fail (negb (is_ok r)) (control d))) (dentry d) (dcalls d)
    end
  else
    let len := if dlength d <=? wsub 32 elen (offset d) then dlength d else wsub 32 elen (offset d) in
    let o := Z.to_nat (offset d) in
    let off := wadd 32 (offset d) len in
    let '(m, r) := if is_read then dm_write (drop o (data (dentry d))) (address d) len m else (m, Ok tt) in
    match r with
    | Panic => (m, Panic)
    | _ =>
      let c := fail (negb (is_ok r)) (control d) in
      if is_write then
        let '(m, r) := dm_read (address d) len m in
        match r with
        | Panic => (m, Panic)
        | Ok bytes | Err bytes =>
          let e := set_data (splice (data (dentry d)) o bytes) (dentry d) in
          if negb (is_ok r) || negb (allow_write e) || negb (len =? dlength d)
          then next m len off (fail true c) e (dcalls d)
          else next m len off c e
                 (match write_cb e with Some cb => dcalls d ++ [Written cb (drop o (data e)) (offset d) len] | None => dcalls d end)
        end
      else next m len off c (dentry d) (dcalls d)
    end.

(** The first turn reaches the end of the request or of the entry, the second
    one the end of the request. *)
Fixpoint dma_loop (fuel : nat) (stale : Z) (is_read is_write : bool) (d : dma_state) : sres M LegacyError dma_state :=
  if (0 <? dlength d) && (Z.land (control d) FW_CFG_DMA_CTL_ERROR =? 0) then
    match fuel with
    | O => slift Panic
    | S fuel => d ← dma_turn stale is_read is_write d; dma_loop fuel stale is_read is_write d
    end
  else mret d.

Definition bit_set (c b : Z) : bool := negb (Z.land c b =? 0).

Definition handle_dma_request (w : World) : World * res LegacyError unit :=
  let '(s, m) := w in
  let addr := dma_addr s in
  let stale := cur_entry s in
  let s := set_dma_addr 0 s in
  match dm_read addr 16 m with
  | (m, Panic) => ((s, m), Panic)
  | (m, Err _) =>
    let '(m, r) := write_dma_result addr FW_CFG_DMA_CTL_ERROR m in
    ((s, m), _ ← r; Err (ReadDmaRequest addr 16))
  | (m, Ok req) =>
    let ctl := be_val (slice req 0 4) in
    match (if bit_set ctl FW_CFG_DMA_CTL_SELECT then select_entry (wshr 32 ctl 16) s else Ok s) with
    | Ok s =>
      let is_read := bit_set ctl FW_CFG_DMA_CTL_READ in
      let is_write := bit_set ctl FW_CFG_DMA_CTL_WRITE in
      let len := if bit_set ctl FW_CFG_DMA_CTL_SKIP then 0 else be_val (slice req 4 4) in
      match get_entry_mut s with
      | Ok e =>
        match dma_loop 2 stale is_read is_write (mkDma 0 len (be_val (slice req 8 8)) (cur_offset s) e (calls s)) m with
        | (m, Ok d) =>
          let s := set_cur (cur_entry s) (offset d) (put_entry (dentry d) s) in
          let s := mkFwCfg (file_slots s) (arch_entries s) (entries s) (files s) (cur_entry s) (cur_offset s) (dma_enabled s) (dma_addr s) (dcalls d) in
          let '(m, r) := write_dma_result addr (control d) m in ((s, m), r)
        | (m, Err e) => ((s, m), Err e)
        | (m, Panic) => ((s, m), Panic)
        end
      | Err e => ((s, m), Err e)
      | Panic => ((s, m), Panic)
      end
    | Err e => ((s, m), Err e)
    | Panic => ((s, m), Panic)
    end
  end.

Definition dma_mem_write (addr value size : Z) (w : World) : World * res LegacyError unit :=
  let '(s, m) := w in
  if size =? 4 then
    if addr =? 0 then ((set_dma_addr (wshl 64 value 32) s, m), Ok tt)
    else if addr =? 4 then handle_dma_request (set_dma_addr (Z.lor (dma_addr s) value) s, m)
    else (w, Ok tt)
  else if (size =? 8) && (addr =? 0) then handle_dma_request (set_dma_addr value s, m)
  else (w, Err LegacyBail).

(** ** Registers *)

Definition get_io_count (data_len : nat) : nat :=
  if (data_len mod 8 =? 0)%nat then 8 else if (data_len mod 4 =? 0)%nat then 4 else if (data_len mod 2 =? 0)%nat then 2 else 1.

(** The x86_64 device has its registers in I/O ports, the aarch64 one in memory. *)
Inductive platform := FwCfgIO | FwCfgMem.

Definition as_res {A} (o : option A) : res LegacyError A := ok_or o LegacyBail.

(** The value of a register; an [Err] makes the access fail. *)
Definition read_reg_io (offset len : Z) (s : FwCfgCommon) : res LegacyError (FwCfgCommon * Z) :=
  if offset <=? 1 then read_data_reg len s
  else if (4 <=? offset) && (offset <=? 11) then
    if 0x14 <? wadd 64 offset len then Err LegacyBail
    else v ← as_res (dma_mem_read (offset - 4) len); Ok (s, v)
  else Err LegacyBail.
Definition read_reg_mem (offset len : Z) (s : FwCfgCommon) : res LegacyError (FwCfgCommon * Z) :=
  if offset <=? 7 then read_data_reg len s
  else if offset <=? 15 then Ok (s, 0)
  else if offset <=? 23 then
    if 0x18 <? wadd 64 offset len then Err LegacyBail
    else v ← as_res (dma_mem_read (offset - 0x10) len); Ok (s, v)
  else Err LegacyBail.
Definition read_reg (p : platform) : Z -> Z -> FwCfgCommon -> res LegacyError (FwCfgCommon * Z) :=
  match p with FwCfgIO => read_reg_io | FwCfgMem => read_reg_mem end.

(** [read_bytes]: the device, whether the access succeeded, and the buffer. *)
Definition read_bytes (p : platform) (buf : list Z) (offset : Z) (s : FwCfgCommon) : res LegacyError (FwCfgCommon * bool * list Z) :=
  let n := length buf in
  match read_reg p offset (Z.of_nat n) s with
  | Ok (s, v) =>
    if bool_decide (n ∈ [1; 2; 4; 8]%nat) then Ok (s, true, be_bytes n v)
    else Ok (s, match p with FwCfgIO => false | FwCfgMem => true end, buf)
  | Err _ => Ok (s, false, buf)
  | Panic => Panic
  end.

(** [n] chunks of [io_count] bytes, the first at [i]. *)
Fixpoint common_read_loop (n : nat) (p : platform) (io_count i : nat) (buf : list Z) (offset : Z) (s : FwCfgCommon) : res LegacyError (FwCfgCommon * bool * list Z) :=
  match n with
  | O => Ok (s, true, buf)
  | S n =>
    '(s, ok, b) ← read_bytes p (slice buf i io_count) offset s;
    let buf := splice buf i b in
    if (ok : bool) then common_read_loop n p io_count (i + io_count) buf offset s else Ok (s, false, buf)
  end.
Definition common_read (p : platform) (buf : list Z) (offset : Z) (s : FwCfgCommon) : res LegacyError (FwCfgCommon * bool * list Z) :=
  let io_count := get_io_count (length buf) in
  common_read_loop (length buf / io_count) p io_count 0 buf offset s.

Definition reg_value (bytes : list Z) : Z := if bool_decide (length bytes ∈ [1; 2; 4; 8]%nat) then be_val bytes else 0.

(** [write]: whether the access succeeded; only a panic is an error. *)
Definition select_access (key : Z) (w : World) : World * res LegacyError bool :=
  match select_entry key w.1 with Ok s => ((s, w.2), Ok true) | _ => (w, Panic) end.
Definition dma_access (addr : Z) (bytes : list Z) (w : World) : World * res LegacyError bool :=
  match dma_mem_write addr (reg_value bytes) (Z.of_nat (length bytes)) w with
  | (w, Panic) => (w, Panic)
  | (w, r) => (w, Ok (is_ok r))
  end.
Definition write_io (bytes : list Z) (offset : Z) (w : World) : World * res LegacyError bool :=
  if offset <=? 1 then (if Z.of_nat (length bytes) =? 2 then select_access (le_val bytes) w else (w, Ok false))
  else if (4 <=? offset) && (offset <=? 11) then dma_access (offset - 4) bytes w
  else (w, Ok false).
Definition write_mem (bytes : list Z) (offset : Z) (w : World) : World * res LegacyError bool :=
  if offset <=? 7 then (w, Ok true)
  else if offset <=? 15 then select_access (wrap 16 (reg_value bytes)) w
  else if offset <=? 23 then dma_access (offset - 0x10) bytes w
  else (w, Ok false).
Definition write (p : platform) : list Z -> Z -> World -> World * res LegacyError bool :=
  match p with FwCfgIO => write_io | FwCfgMem => write_mem end.

Definition reset (s : FwCfgCommon) : res LegacyError FwCfgCommon := select_entry (entry_key Signature) s.
End device.

(** ** Reading an entry *)

(** [n] bytes of an entry from an offset, zeroes beyond its end. *)
Definition window (d : list Z) (o n : nat) : list Z := take n (drop o d ++ replicate n 0).

Lemma window_length d o n : length (window d o n) = n.
Proof. unfold window. rewrite length_take, length_app, length_replicate. lia. Qed.
Lemma window_in d o n : (o + n <= length d)%nat -> window d o n = slice d o n.
Proof. intros. unfold window, slice. rewrite take_app_le by (rewrite length_drop; lia). done. Qed.
Lemma window_out d o n : (length d <= o)%nat -> window d o n = replicate n 0.
Proof. intros. unfold window. rewrite drop_ge by lia. cbn. by rewrite take_ge by (rewrite length_replicate; lia). Qed.
Lemma window_app d o n1 n2 : window d o n1 ++ window d (o + n1) n2 = window d o (n1 + n2).
Proof.
  apply list_eq. intros i. unfold window. destruct (decide (i < n1)%nat) as [Hi|Hi].
  - rewrite lookup_app_l by (rewrite length_take, length_app, length_replicate; lia). rewrite !lookup_take_lt by lia.
    destruct (decide (i < length d - o)%nat).
    + by rewrite !lookup_app_l by (rewrite length_drop; lia).
    + rewrite !lookup_app_r by (rewrite length_drop; lia). by rewrite !lookup_replicate_2 by (rewrite ?length_drop; lia).
  - rewrite lookup_app_r by (rewrite length_take, length_app, length_replicate; lia). rewrite length_take, length_app, length_replicate, Nat.min_l by lia.
    destruct (decide (i < n1 + n2)%nat) as [Hi2|]; [|by rewrite !lookup_take_ge by lia]. rewrite !lookup_take_lt by lia.
    destruct (decide (i < length d - o)%nat).
    + rewrite !lookup_app_l by (rewrite length_drop; lia). rewrite !lookup_drop. f_equal. lia.
    + rewrite !lookup_app_r by (rewrite length_drop; lia). by rewrite !lookup_replicate_2 by (rewrite ?length_drop; lia).
Qed.

Lemma be_val_snoc bs b : be_val (bs ++ [b]) = 256 * be_val bs + b.
Proof. unfold be_val. rewrite rev_app_distr. cbn. lia. Qed.
Lemma be_val_zeros bs n : be_val (bs ++ replicate n 0) = be_val bs * 2 ^ (8 * Z.of_nat n).
Proof.
  induction n as [|n IH]; [rewrite app_nil_r; cbn; lia|].
  replace (S n) with (n + 1)%nat by lia. rewrite replicate_add, app_assoc. change (replicate 1 0) with [0]. rewrite be_val_snoc, IH.
  replace (8 * Z.of_nat (n + 1)) with (8 + 8 * Z.of_nat n) by lia. rewrite Z.pow_add_r by lia. lia.
Qed.

Lemma be_bytes_zero n : be_bytes n 0 = replicate n 0.
Proof.
  assert (be_val (replicate n 0) = 0) as E by apply (be_val_zeros [] n). rewrite <-E, <-(length_replicate n 0) at 1.
  apply be_bytes_be_val, Forall_replicate. unfold inW. lia.
Qed.

(** The bytes a read collected so far are [be_val] of a piece of the entry. *)
Lemma data_loop_spec d : is_bytes d -> Z.of_nat (length d) < 2 ^ 32 -> forall n o acc,
  (o < length d)%nat -> (0 < n)%nat -> is_bytes acc -> (length acc + n <= 8)%nat ->
  data_loop n d (Z.of_nat o) (be_val acc) =
    let r := Nat.min n (length d - o) in Ok (be_val (acc ++ slice d o r), Z.of_nat (o + r), (n - r)%nat).
Proof.
  intros Hd Hl. induction n as [|n IH]; intros o acc Ho Hn Ha Hs; [lia|]. cbn [data_loop]. rewrite Nat2Z.id.
  destruct (lookup_lt_is_Some_2 d o Ho) as [b Hb]. rewrite Hb. cbn [unwrap mbind res_bind].
  pose proof (Forall_lookup_1 _ _ _ _ Hd Hb) as Hb8. cbn beta in Hb8.
  assert (Z.lor (wshl 64 (be_val acc) 8) b = be_val (acc ++ [b])) as ->.
  { rewrite be_val_snoc. unfold wshl. change (8 `mod` 64) with 8. rewrite Z.shiftl_mul_pow2 by lia. pose proof (be_val_bound acc Ha) as Hacc.
    assert (2 ^ (8 * Z.of_nat (length acc)) <= 2 ^ 56) by (apply Z.pow_le_mono_r; lia).
    rewrite wrap_small by (unfold inW; lia). unfold inW in Hb8. rewrite Z.lor_comm.
    assert (Z.land b (be_val acc * 2 ^ 8) = 0) as E.
    { apply Z.bits_inj'. intros i Hi. rewrite Z.land_spec, Z.testbit_0_l. destruct (Z.ltb_spec i 8).
      - rewrite Z.mul_pow2_bits_low by lia. apply andb_false_r.
      - by rewrite (testbit_above 8 b) by (unfold inW; lia). }
    pose proof (Z.add_lor_land b (be_val acc * 2 ^ 8)). lia. }
  unfold wadd. rewrite (wrap_small 32 (Z.of_nat o + 1)) by (unfold inW; lia). rewrite (wrap_small 32 (Z.of_nat (length d))) by (unfold inW; lia).
  destruct (Nat.eqb_spec n 0) as [->|Hn0]; cbn [orb].
  - cbv zeta. replace (Nat.min 1 (length d - o)) with 1%nat by lia. unfold slice. rewrite (drop_S _ _ _ Hb). cbn [take]. apply (f_equal Ok), (f_equal2 pair); [apply (f_equal2 pair); [done|lia]|lia].
  - destruct (Z.leb_spec (Z.of_nat (length d)) (Z.of_nat o + 1)).
    + cbv zeta. replace (Nat.min (S n) (length d - o)) with 1%nat by lia. unfold slice. rewrite (drop_S _ _ _ Hb). cbn [take]. apply (f_equal Ok), (f_equal2 pair); [apply (f_equal2 pair); [done|lia]|lia].
    + replace (Z.of_nat o + 1) with (Z.of_nat (S o)) by lia.
      rewrite IH; [|lia..|apply Forall_app; split; [done|by apply Forall_singleton]|rewrite length_app; cbn; lia].
      cbv zeta. replace (Nat.min (S n) (length d - o)) with (S (Nat.min n (length d - S o))) by lia.
      unfold slice. rewrite (drop_S _ _ _ Hb). cbn [take]. rewrite <-app_assoc. cbn [app]. apply (f_equal Ok), (f_equal2 pair); [apply (f_equal2 pair); [done|lia]|lia].
Qed.

(** The offset after reading [n] bytes. *)
Definition advance (d : list Z) (o n : nat) : nat := Nat.max o (Nat.min (o + n) (length d)).
Definition at_offset (o : nat) (s : FwCfgCommon) : FwCfgCommon := set_cur (cur_entry s) (Z.of_nat o) s.

Definition entry_ok (e : FwCfgEntry) : Prop := is_bytes (data e) /\ Z.of_nat (length (data e)) < 2 ^ 32.

Lemma selected_valid s e : get_entry_mut s = Ok e -> (cur_entry s =? FW_CFG_INVALID) = false.
Proof.
  unfold get_entry_mut. destruct (cur_entry s =? FW_CFG_INVALID); [|done]. rewrite orb_true_r.
  destruct (get_key_name _); done.
Qed.
Lemma window_advance d o n1 n2 : window d (advance d o n1) n2 = window d (o + n1) n2.
Proof.
  unfold advance. destruct (decide (o + n1 <= length d)%nat); [by replace (Nat.max _ _) with (o + n1)%nat by lia|].
  by rewrite !window_out by lia.
Qed.
Lemma advance_advance d o n1 n2 : advance d (advance d o n1) n2 = advance d o (n1 + n2).
Proof. unfold advance. lia. Qed.

Lemma read_data_reg_spec s e o n : get_entry_mut s = Ok e -> entry_ok e -> cur_offset s = Z.of_nat o -> (0 < n <= 8)%nat ->
  exists v, read_data_reg (Z.of_nat n) s = Ok (at_offset (advance (data e) o n) s, v) /\ be_bytes n v = window (data e) o n.
Proof.
  intros He [Hb Hl] Ho Hn. unfold read_data_reg. rewrite He.
  replace ((Z.of_nat n =? 0) || (8 <? Z.of_nat n)) with false by (symmetry; apply orb_false_iff; split; lia). cbn [mbind res_bind].
  rewrite (selected_valid s e He), Ho, (wrap_small 32 (Z.of_nat (length (data e)))) by (unfold inW; lia). cbn [negb andb].
  destruct (Z.ltb_spec (Z.of_nat o) (Z.of_nat (length (data e)))) as [Hin|Hout].
  - rewrite bool_decide_false by (intros E; rewrite E in Hin; cbn in Hin; lia). cbn [negb andb]. rewrite Nat2Z.id.
    change 0 with (be_val []) at 1. rewrite (data_loop_spec (data e) Hb Hl n o []) by (lia || cbn; (lia || apply Forall_nil_2)). cbn [mbind res_bind app]. cbv zeta.
    set (r := Nat.min n (length (data e) - o)). eexists. split; [unfold at_offset, advance; do 4 f_equal; lia|].
    assert (length (slice (data e) o r) = r) as Hlr by (apply slice_length; lia).
    assert (is_bytes (slice (data e) o r)) as Hbr by (by apply is_bytes_slice). pose proof (be_val_bound _ Hbr) as Hv. rewrite Hlr in Hv.
    unfold wshl. rewrite (Z.mod_small (8 * _) 64) by lia. rewrite Z.shiftl_mul_pow2, <-be_val_zeros by lia.
    assert (length (slice (data e) o r ++ replicate (n - r) 0) = n) as Hln by (rewrite length_app, length_replicate; lia).
    assert (is_bytes (slice (data e) o r ++ replicate (n - r) 0)) as Hbn by (apply Forall_app; split; [done|apply Forall_replicate; unfold inW; lia]).
    pose proof (be_val_bound _ Hbn) as Hv2. rewrite Hln in Hv2. assert (2 ^ (8 * Z.of_nat n) <= 2 ^ 64) by (apply Z.pow_le_mono_r; lia).
    rewrite wrap_small by (unfold inW; lia). rewrite <-Hln at 1. rewrite be_bytes_be_val by done. unfold window, slice in *.
    destruct (decide (n <= length (data e) - o)%nat).
    + replace r with n by lia. rewrite Nat.sub_diag, app_nil_r, take_app_le by (rewrite length_drop; lia). done.
    + rewrite (take_ge _ r) by (rewrite length_drop; lia). rewrite take_app_ge by (rewrite length_drop; lia). f_equal.
      rewrite length_drop, take_replicate. f_equal. lia.
  - rewrite andb_false_r. exists 0. split.
    + unfold at_offset, advance. replace (Nat.max o _) with o by lia. rewrite <-Ho. by destruct s.
    + rewrite window_out by lia. apply be_bytes_zero.
Qed.

(** The data register of a platform. *)
Definition data_reg (p : platform) (offset : Z) : Prop := match p with FwCfgIO => 0 <= offset <= 1 | FwCfgMem => 0 <= offset <= 7 end.

Lemma read_bytes_spec p offset s e o buf : data_reg p offset -> get_entry_mut s = Ok e -> entry_ok e -> cur_offset s = Z.of_nat o -> length buf ∈ [1; 2; 4; 8]%nat ->
  read_bytes p buf offset s = Ok (at_offset (advance (data e) o (length buf)) s, true, window (data e) o (length buf)).
Proof.
  intros Hp He Hok Ho Hn. unfold read_bytes. assert (0 < length buf <= 8)%nat by (set_solver by lia).
  destruct (read_data_reg_spec s e o (length buf) He Hok Ho) as (v & Hv & <-); [done|].
  replace (read_reg p offset (Z.of_nat (length buf)) s) with (read_data_reg (Z.of_nat (length buf)) s)
    by (destruct p; unfold read_reg, read_reg_io, read_reg_mem; cbn in Hp; by rewrite (proj2 (Z.leb_le _ _)) by lia).
  rewrite Hv. by rewrite bool_decide_true.
Qed.

Lemma common_read_loop_spec p offset io : data_reg p offset -> io ∈ [1; 2; 4; 8]%nat -> forall n s e o i buf,
  get_entry_mut s = Ok e -> entry_ok e -> cur_offset s = Z.of_nat o -> (i + n * io <= length buf)%nat ->
  common_read_loop n p io i buf offset s = Ok (at_offset (advance (data e) o (n * io)) s, true, splice buf i (window (data e) o (n * io))).
Proof.
  intros Hp Hio. induction n as [|n IH]; intros s e o i buf He Hok Ho Hl; cbn [common_read_loop].
  - replace (at_offset (advance (data e) o (0 * io)) s) with s by (unfold at_offset, advance; rewrite Nat.max_l, <-Ho by lia; by destruct s).
    change (0 * io)%nat with 0%nat. unfold splice, window. rewrite take_0. cbn [app length]. by rewrite Nat.add_0_r, take_drop.
  - rewrite Nat.mul_succ_l in Hl. assert (length (slice buf i io) = io) as Hs by (apply slice_length; lia).
    rewrite (read_bytes_spec p offset s e o) by (rewrite ?Hs; done). rewrite Hs. cbn [mbind res_bind].
    rewrite (IH _ e (advance (data e) o io)); [|done|done|done|rewrite splice_length; rewrite ?window_length; lia].
    rewrite advance_advance, window_advance. change (S n * io)%nat with (io + n * io)%nat. do 2 f_equal. apply list_eq. intros j.
    rewrite !lookup_splice; rewrite ?splice_length; rewrite ?window_length; try lia. rewrite <-window_app.
    repeat case_decide; try lia; try done.
    + rewrite lookup_app_r by (rewrite window_length; lia). rewrite window_length. f_equal. lia.
    + rewrite lookup_app_l by (rewrite window_length; lia). done.
Qed.

Lemma io_count_divides n : exists k, n = (k * get_io_count n)%nat /\ (n / get_io_count n)%nat = k /\ get_io_count n ∈ [1; 2; 4; 8]%nat.
Proof.
  unfold get_io_count. 
  destruct (Nat.eqb_spec (n mod 8) 0) as [E|_]; [exists (n / 8)%nat; split_and!; [|done|set_solver]; pose proof (Nat.div_mod_eq n 8); lia|].
  destruct (Nat.eqb_spec (n mod 4) 0) as [E|_]; [exists (n / 4)%nat; split_and!; [|done|set_solver]; pose proof (Nat.div_mod_eq n 4); lia|].
  destruct (Nat.eqb_spec (n mod 2) 0) as [E|_]; [exists (n / 2)%nat; split_and!; [|done|set_solver]; pose proof (Nat.div_mod_eq n 2); lia|].
  exists n. split_and!; [lia|apply Nat.div_1_r|set_solver].
Qed.

(** A read of the data register of any size returns the next bytes. *)
Lemma common_read_spec p offset s e o buf : data_reg p offset -> get_entry_mut s = Ok e -> entry_ok e -> cur_offset s = Z.of_nat o ->
  common_read p buf offset s = Ok (at_offset (advance (data e) o (length buf)) s, true, window (data e) o (length buf)).
Proof.
  intros Hp He Hok Ho. unfold common_read. destruct (io_count_divides (length buf)) as (k & Hk & -> & Hio).
  rewrite (common_read_loop_spec p offset _ Hp Hio k s e o) by (done || lia). rewrite <-Hk. do 2 f_equal.
  unfold splice. cbn. by rewrite window_length, drop_ge, app_nil_r by lia.
Qed.

(** ** The file directory *)

Definition pad (nm : list Z) : list Z := nm ++ replicate (56 - length nm) 0.
Definition lexlt (a b : list Z) : Prop := bytes_ltb a b = true.

Lemma bytes_ltb_trans a : forall b c, lexlt a b -> lexlt b c -> lexlt a c.
Proof.
  unfold lexlt. induction a as [|x a IH]; intros [|y b] [|z c]; cbn; try done.
  rewrite !orb_true_iff, !andb_true_iff, !Z.ltb_lt, !Z.eqb_eq. intros [?|[-> ?]] [?|[-> ?]]; [left; lia|left; lia|left; lia|right; eauto].
Qed.
Lemma bytes_ltb_irrefl a : bytes_ltb a a = false.
Proof. induction a as [|x a IH]; [done|]. cbn. by rewrite Z.ltb_irrefl, Z.eqb_refl, IH. Qed.
Lemma bytes_ltb_total a : forall b, length a = length b -> a <> b -> bytes_ltb a b = false -> lexlt b a.
Proof.
  unfold lexlt. induction a as [|x a IH]; intros [|y b] Hl Hne Hf; cbn in *; try done.
  apply orb_false_iff in Hf as [Hxy Hf]. destruct (Z.eqb_spec x y) as [->|].
  - rewrite Z.ltb_irrefl, Z.eqb_refl. cbn. apply IH; [lia|congruence|done].
  - apply orb_true_iff. left. lia.
Qed.
Lemma bytes_ltb_pad nm suf : forall x, length x = length (nm ++ suf) -> take (length nm) x <> nm -> bytes_ltb (nm ++ suf) x = bytes_ltb nm x.
Proof.
  induction nm as [|a nm IH]; intros [|b x] Hl Hp; cbn in *; try done.
  destruct (Z.eqb_spec a b) as [->|]; [|done]. rewrite IH; [done|lia|congruence].
Qed.
Lemma bytes_ltb_zeros r n : is_bytes r -> length r = n -> bytes_ltb r (replicate n 0) = false.
Proof.
  intros Hr <-. induction Hr as [|b r Hb Hr IH]; cbn; [done|]. unfold inW in Hb. rewrite IH, andb_false_r, orb_false_r. lia.
Qed.
Lemma bytes_ltb_app p a b : bytes_ltb (p ++ a) (p ++ b) = bytes_ltb a b.
Proof. induction p as [|x p IH]; [done|]. cbn. by rewrite Z.ltb_irrefl, Z.eqb_refl, IH. Qed.

(** File names fit into a directory record and have no zero byte. *)
Definition name_ok (nm : list Z) : Prop := Forall (fun b => 0 < b < 256) nm /\ (length nm <= 56)%nat.
Definition content_ok (d : list Z) : Prop := is_bytes d /\ Z.of_nat (length d) < 2 ^ 32.

Lemma pad_length nm : name_ok nm -> length (pad nm) = 56%nat.
Proof. intros [_ H]. unfold pad. rewrite length_app, length_replicate. lia. Qed.
Lemma pad_bytes nm : name_ok nm -> is_bytes (pad nm).
Proof.
  intros [H _]. apply Forall_app; split; [|apply Forall_replicate; unfold inW; lia]. eapply Forall_impl; [exact H|]. unfold inW. cbn. lia.
Qed.
Lemma pad_prefix nm : take (length nm) (pad nm) = nm.
Proof. unfold pad. by rewrite take_app_length. Qed.
Lemma pad_short a b : name_ok a -> name_ok b -> pad a = pad b -> (length b <= length a)%nat.
Proof.
  intros Ha [Hb Hlb] E. destruct (decide (length b <= length a)%nat); [done|]. exfalso.
  destruct (lookup_lt_is_Some_2 b (length a)) as [x Hx]; [lia|]. pose proof (Forall_lookup_1 _ _ _ _ Hb Hx) as Hpos. cbn in Hpos.
  apply (f_equal (fun l => l !! length a)) in E. unfold pad in E. rewrite (lookup_app_l b), Hx in E by lia.
  rewrite lookup_app_r, lookup_replicate_2 in E by lia. injection E. lia.
Qed.
Lemma pad_inj a b : name_ok a -> name_ok b -> pad a = pad b -> a = b.
Proof.
  intros Ha Hb E. assert (length a = length b) as Hl by (apply Nat.le_antisymm; by apply pad_short).
  unfold pad in E. by apply app_inj_1 in E as [-> _].
Qed.
Lemma file_new_pad size sel nm : name_ok nm -> FwCfgFile_new size sel nm = mkFile size sel (pad nm).
Proof.
  intros [_ H]. unfold FwCfgFile_new, pad, splice. rewrite Nat.min_r by lia. rewrite (take_ge nm) by lia. rewrite take_0, Nat.add_0_l, drop_replicate. done.
Qed.

(** A file that has the name as a prefix comes after the one with that name. *)
Lemma prefix_after nm x : name_ok nm -> is_bytes x -> length x = 56%nat -> take (length nm) x = nm -> bytes_ltb x (pad nm) = false.
Proof.
  intros [Hb Hn] Hx Hl Hp. rewrite <-(take_drop (length nm) x), Hp. unfold pad. rewrite bytes_ltb_app.
  apply bytes_ltb_zeros; [by apply Forall_drop|]. rewrite length_drop. lia.
Qed.

(** The directory of a list of names and contents. *)
Definition mk_file (first : nat) (i : nat) (x : list Z * list Z) : FwCfgFile :=
  mkFile (Z.of_nat (length x.2)) (32 + Z.of_nat (first + i)) (pad x.1).
Definition mk_files (L : list (list Z * list Z)) : list FwCfgFile := imap (mk_file 0) L.

Lemma mk_files_app L1 L2 : mk_files (L1 ++ L2) = mk_files L1 ++ imap (mk_file (length L1)) L2.
Proof. unfold mk_files. rewrite imap_app. f_equal. Qed.
Lemma mk_file_bump k L : Z.of_nat (k + length L) < 2 ^ 15 -> map bump (imap (mk_file k) L) = imap (mk_file (S k)) L.
Proof.
  intros Hb. apply list_eq. intros i. rewrite list_lookup_fmap, !list_lookup_imap. destruct (L !! i) as [x|] eqn:E; [|done]. apply lookup_lt_Some in E.
  cbn. unfold bump, mk_file. cbn. rewrite wadd_small by (unfold inW; lia). do 2 f_equal. lia.
Qed.

Lemma existsb_same nm L : (forall x, x ∈ L -> take (length nm) (pad x.1) <> nm) -> existsb (same_name nm) (mk_files L) = false.
Proof.
  intros H. apply not_true_iff_false. rewrite existsb_exists. intros (f & Hf & Hs). apply list_elem_of_In, list_elem_of_lookup in Hf as [i Hi].
  unfold mk_files in Hi. rewrite list_lookup_imap in Hi. destruct (L !! i) as [x|] eqn:E; [|done]. cbn in Hi. injection Hi as <-.
  unfold same_name in Hs. apply bool_decide_eq_true in Hs. cbn in Hs. apply (H x); [by eapply list_elem_of_lookup_2|done].
Qed.

Definition names (L : list (list Z * list Z)) : list (list Z) := map (fun x => pad x.1) L.
Definition listed (x : list Z * list Z) : Prop := name_ok x.1 /\ content_ok x.2.

(** The files of a device are [L]: sorted by name, each with its entry behind the
    32 fixed ones. *)
Definition shape (s : FwCfgCommon) (L : list (list Z * list Z)) : Prop :=
  file_slots s = 32 /\ is_arch_local s = false /\ (length L <= 32)%nat /\ Forall listed L /\ StronglySorted lexlt (names L) /\ files s = mk_files L /\
  exists low mid high, entries s = low ++ mid ++ high /\ length low = 32%nat /\ length high = 32%nat /\ map data mid = L.*2.
Definition dir_is (s : FwCfgCommon) (L : list (list Z * list Z)) : Prop := data <$> entries s !! 25%nat = Some (dir_bytes (mk_files L)).

Lemma file_index_spec nm fs : let k := file_index nm fs in (k <= length fs)%nat /\
  Forall (fun f => bytes_ltb nm (name f) = false) (take k fs) /\ (forall f, fs !! k = Some f -> bytes_ltb nm (name f) = true).
Proof.
  induction fs as [|f fs IH]; cbn; [split_and!; [lia|apply Forall_nil_2|done]|].
  destruct (bytes_ltb nm (name f)) eqn:E; cbn; [split_and!; [lia|apply Forall_nil_2|by intros ? [= <-]]|].
  destruct IH as (H1 & H2 & H3). split_and!; [lia|by apply Forall_cons|done].
Qed.

Lemma sorted_insert (R : relation (list Z)) (l1 l2 : list (list Z)) x : Transitive R -> StronglySorted R (l1 ++ l2) ->
  Forall (fun y => R y x) l1 -> (forall y, head l2 = Some y -> R x y) -> StronglySorted R (l1 ++ x :: l2).
Proof.
  intros HT. induction l1 as [|y l1 IH]; cbn; intros Hs H1 H2.
  - constructor; [done|]. destruct l2 as [|z l2]; [by constructor|]. specialize (H2 z eq_refl). constructor; [done|].
    inversion Hs as [|? ? _ Hz]; subst. eapply Forall_impl; [exact Hz|]. intros w Hw. by transitivity z.
  - inversion Hs as [|? ? Hs' Hy]; subst. apply Forall_cons in H1 as [Hyx H1]. constructor; [by apply IH|].
    apply Forall_app in Hy as [Hy1 Hy2]. apply Forall_app; split; [done|]. by constructor.
Qed.

Lemma mk_files_length L : length (mk_files L) = length L.
Proof. apply length_imap. Qed.
Lemma mk_files_lookup L i : mk_files L !! i = mk_file 0 i <$> L !! i.
Proof. apply list_lookup_imap. Qed.

(** A new name is inserted in order. *)
Lemma names_insert nm d L : let k := file_index nm (mk_files L) in
  name_ok nm -> Forall listed L -> StronglySorted lexlt (names L) -> (forall x, x ∈ L -> take (length nm) (pad x.1) <> nm) ->
  StronglySorted lexlt (names (insert_at k (nm, d) L)).
Proof.
  intros k Hnm HL Hs Hfresh. unfold insert_at, names. rewrite map_app. cbn [map fst].
  destruct (file_index_spec nm (mk_files L)) as (Hk & Hlow & Hhigh). fold k in Hk, Hlow, Hhigh. rewrite mk_files_length in Hk.
  assert (forall i x, L !! i = Some x -> bytes_ltb (pad nm) (pad x.1) = bytes_ltb nm (pad x.1)) as Hpad.
  { intros i x Hx. assert (listed x) as [Hx1 _] by (by eapply Forall_lookup_1). apply bytes_ltb_pad; [fold (pad nm); by rewrite !pad_length|].
    apply Hfresh. by eapply list_elem_of_lookup_2. }
  apply sorted_insert; [intros ? ? ?; apply bytes_ltb_trans|by rewrite <-map_app, take_drop| |].
  - apply Forall_lookup. intros i y Hi. rewrite list_lookup_fmap in Hi. destruct (take k L !! i) as [x|] eqn:Hx; [|done]. injection Hi as <-.
    apply lookup_take_Some in Hx as [Hx Hik]. assert (listed x) as [Hx1 _] by (by eapply Forall_lookup_1).
    apply bytes_ltb_total; [by rewrite !pad_length| |].
    + intros E. apply (Hfresh x); [by eapply list_elem_of_lookup_2|]. rewrite <-E. apply pad_prefix.
    + rewrite (Hpad i) by done. apply (Forall_lookup_1 _ _ i (mk_file 0 i x) Hlow). rewrite lookup_take_lt by lia. by rewrite mk_files_lookup, Hx.
  - intros y Hy. rewrite head_lookup, list_lookup_fmap, lookup_drop, Nat.add_0_r in Hy. destruct (L !! k) as [x|] eqn:Hx; [|done]. injection Hy as <-.
    unfold lexlt. rewrite (Hpad k) by done. apply (Hhigh (mk_file 0 k x)). by rewrite mk_files_lookup, Hx.
Qed.

Lemma insert_at_app {A} (l1 l2 l3 : list A) k x : (k <= length l2)%nat ->
  insert_at (length l1 + k) x (l1 ++ l2 ++ l3) = l1 ++ insert_at k x l2 ++ l3.
Proof.
  intros Hk. unfold insert_at. rewrite take_app_add', drop_app_add' by done. rewrite take_app_le, drop_app_le by lia.
  by rewrite <-!app_assoc.
Qed.
Lemma insert_at_map {A B} (f : A -> B) k x l : map f (insert_at k x l) = insert_at k (f x) (map f l).
Proof. unfold insert_at. rewrite map_app. cbn [map]. change (@map A B) with (fun f => @fmap list list_fmap A B f). cbn beta. by rewrite fmap_take, fmap_drop. Qed.
Lemma insert_at_perm {A} k (x : A) l : insert_at k x l ≡ₚ x :: l.
Proof. unfold insert_at. rewrite <-Permutation_middle. by rewrite take_drop. Qed.

Lemma mk_files_insert k x L : (k <= length L <= 32)%nat ->
  mk_files (insert_at k x L) = take k (mk_files L) ++ mk_file 0 k x :: map bump (drop k (mk_files L)).
Proof.
  intros Hk. rewrite <-(take_drop k L) at 2 3. rewrite mk_files_app.
  assert (length (take k L) = k) as Hl by (rewrite length_take; lia).
  rewrite take_app_length' by (by rewrite mk_files_length). rewrite drop_app_length' by (by rewrite mk_files_length). rewrite Hl.
  rewrite mk_file_bump by (rewrite length_drop; lia). unfold insert_at. rewrite mk_files_app, Hl. cbn [imap]. f_equal. f_equal.
  - unfold mk_file. do 2 f_equal. lia.
  - apply imap_ext. intros i y _. unfold compose, mk_file. do 2 f_equal. lia.
Qed.

(** The directory is small enough for its length to be stored. *)
Lemma as_be_bytes_length f : length (name f) = 56%nat -> length (as_be_bytes f) = 64%nat.
Proof. intros H. unfold as_be_bytes. rewrite !length_app, !be_bytes_length, H. done. Qed.
Lemma dir_bytes_length L : Forall listed L -> length (dir_bytes (mk_files L)) = (4 + 64 * length L)%nat.
Proof.
  intros HL. unfold dir_bytes. rewrite length_app, le_bytes_length. f_equal.
  rewrite <-(mk_files_length L). assert (Forall (fun f => length (name f) = 56%nat) (mk_files L)) as H.
  { apply Forall_lookup. intros i f Hf. rewrite mk_files_lookup in Hf. destruct (L !! i) as [x|] eqn:E; [|done]. injection Hf as <-.
    apply pad_length. by destruct (Forall_lookup_1 _ _ _ _ HL E). }
  induction H as [|f fs Hf _ IH]; [done|]. cbn [map concat length]. rewrite length_app, as_be_bytes_length, IH by done. lia.
Qed.

Lemma update_dir s low mid high b : file_slots s = 32 -> is_arch_local s = false -> entries s = low ++ mid ++ high -> length low = 32%nat -> Z.of_nat (length b) < 2 ^ 31 ->
  exists low', update_entry_data (entry_key FileDir) b s = Ok (set_entries (low' ++ mid ++ high) s) /\ length low' = 32%nat /\ data <$> low' !! 25%nat = Some b.
Proof.
  intros Hs Ha He Hl Hb. unfold update_entry_data, max_entry, set_cur_entries, cur_entries, U32_MAX. rewrite Hs, Ha, He.
  change (wadd 16 FW_CFG_FILE_FIRST 32 <=? entry_key FileDir) with false. rewrite (proj2 (Z.leb_gt _ _)) by lia. cbn [orb].
  change (Z.to_nat (entry_key FileDir)) with 25%nat. destruct (lookup_lt_is_Some_2 low 25) as [e Hle]; [lia|].
  rewrite lookup_app_l, Hle by lia. exists (<[25%nat := set_data b e]> low).
  rewrite insert_app_l by lia. split_and!; [done|by rewrite length_insert|]. by rewrite list_lookup_insert_eq by lia.
Qed.

Lemma add_file_ok nm d scb wcb allow s L : shape s L -> (length L < 32)%nat -> listed (nm, d) ->
  (forall x, x ∈ L -> take (length nm) (pad x.1) <> nm) ->
  exists s', add_file_callback nm d scb wcb allow s = (s', Ok tt) /\
    let L' := insert_at (file_index nm (mk_files L)) (nm, d) L in shape s' L' /\ dir_is s' L' /\ cur_entry s' = cur_entry s.
Proof.
  intros (Hs & Ha & Hl & HL & Hsort & Hf & low & mid & high & He & Hlow & Hhigh & Hmid) Hlt Hok Hfresh.
  set (k := file_index nm (mk_files L)). pose proof (file_index_spec nm (mk_files L)) as (Hk & _ & _). rewrite mk_files_length in Hk. fold k in Hk.
  destruct Hok as [Hnm Hd]. cbn [fst snd] in *.
  unfold add_file_callback. rewrite Hs, Hf, mk_files_length, (proj2 (Z.leb_gt _ _)) by lia. fold k.
  unfold name_fits. rewrite (proj2 (Z.ltb_ge 56 _)), andb_false_r by (destruct Hnm; lia). rewrite (existsb_same nm L) by done.
  rewrite (wrap_small 32) by (unfold inW; destruct Hd; lia). rewrite (wrap_small 16) by (unfold inW; lia).
  replace (wadd 16 FW_CFG_FILE_FIRST (Z.of_nat k)) with (32 + Z.of_nat k) by (unfold FW_CFG_FILE_FIRST; rewrite wadd_small; unfold inW; lia). rewrite file_new_pad by done.
  change (mkFile (Z.of_nat (length d)) (32 + Z.of_nat k) (pad nm)) with (mk_file 0 k (nm, d)). rewrite <-mk_files_insert by lia.
  set (L' := insert_at k (nm, d) L). cbn [files set_files].
  assert (L' ≡ₚ (nm, d) :: L) as Hperm by apply insert_at_perm.
  assert (Forall listed L') as HL' by (rewrite Hperm; by apply Forall_cons).
  assert (length L' = S (length L)) as Hlen by (by rewrite Hperm).
  destruct (update_dir (set_files (mk_files L') s) low mid high (dir_bytes (mk_files L'))) as (low' & -> & Hl' & Hdir); [done..|rewrite dir_bytes_length by done; lia|].
  cbn [entries set_entries set_files]. change (Z.to_nat FW_CFG_FILE_FIRST) with 32%nat.
  assert (length mid = length L) as Hml by (rewrite <-(length_map data mid), Hmid; apply length_map).
  rewrite (proj2 (Nat.ltb_ge _ _)) by (rewrite !length_app; lia). eexists. split; [reflexivity|]. cbv zeta. cbn [entries set_entries].
  rewrite <-Hl'. rewrite insert_at_app by lia. split_and!; [|unfold dir_is; cbn [entries set_entries]; by rewrite lookup_app_l by lia|done].
  split_and!; [done..|lia|done|by apply names_insert|done|]. exists low', (insert_at k (mkEntry d scb wcb allow) mid), high.
  split_and!; [done..|]. rewrite insert_at_map, Hmid. cbn [data]. unfold L'. symmetry. apply (insert_at_map snd).
Qed.

Lemma names_distinct L : StronglySorted lexlt (names L) -> NoDup L.*1.
Proof.
  intros Hs. apply (NoDup_fmap_1 pad). rewrite <-list_fmap_compose. change (NoDup (names L)).
  induction Hs as [|x l Hs IH Hx]; constructor; [|done]. intros Hin. eapply Forall_forall in Hx; [|exact Hin].
  unfold lexlt in Hx. by rewrite bytes_ltb_irrefl in Hx.
Qed.

Lemma sorted_lookup (R : relation (list Z)) l i j x y : StronglySorted R l -> l !! i = Some x -> l !! j = Some y -> (i < j)%nat -> R x y.
Proof.
  intros Hs. revert i j. induction Hs as [|z l Hs IH Hz]; intros [|i] [|j] Hi Hj Hij; cbn in *; try done; try lia; [|eapply IH; eauto; lia].
  injection Hi as ->. by eapply Forall_lookup_1.
Qed.

(** The first file that has the name as a prefix is the file of that name. *)
Lemma find_file nm d L i : Forall listed L -> StronglySorted lexlt (names L) -> L !! i = Some (nm, d) ->
  list_find (fun f => same_name nm f = true) (mk_files L) = Some (i, mk_file 0 i (nm, d)).
Proof.
  intros HL Hs Hi. apply list_find_Some. split_and!; [by rewrite mk_files_lookup, Hi| |].
  - unfold same_name. cbn. apply bool_decide_eq_true, pad_prefix.
  - intros j f Hj Hlt Hf. rewrite mk_files_lookup in Hj. destruct (L !! j) as [x|] eqn:Hx; [|done]. injection Hj as <-.
    unfold same_name in Hf. apply bool_decide_eq_true in Hf. cbn in Hf.
    destruct (Forall_lookup_1 _ _ _ _ HL Hx) as [Hx1 _]. destruct (Forall_lookup_1 _ _ _ _ HL Hi) as [Hn _]. cbn in Hn.
    pose proof (prefix_after nm (pad x.1) Hn (pad_bytes _ Hx1) (pad_length _ Hx1) Hf) as Hno.
    assert (lexlt (pad x.1) (pad nm)) as Hyes; [|unfold lexlt in Hyes; congruence].
    eapply (sorted_lookup lexlt (names L) j i); [done| | |done]; unfold names; rewrite list_lookup_fmap, ?Hx, ?Hi; done.
Qed.

Lemma names_replace i nm d d' L : L !! i = Some (nm, d) -> names (<[i := (nm, d')]> L) = names L.
Proof.
  intros Hi. unfold names. change (@map ?A ?B) with (fun f => @fmap list list_fmap A B f). cbn beta. rewrite list_fmap_insert. apply list_insert_id.
  by rewrite list_lookup_fmap, Hi.
Qed.
Lemma mk_files_replace i x L : mk_files (<[i := x]> L) = <[i := mk_file 0 i x]> (mk_files L).
Proof.
  apply list_eq. intros j. rewrite mk_files_lookup. destruct (decide (i = j)) as [->|Hne].
  - destruct (decide (j < length L)%nat).
    + rewrite !list_lookup_insert_eq; [done|by rewrite mk_files_length|done].
    + rewrite !lookup_ge_None_2; [done|rewrite length_insert, mk_files_length; lia|rewrite length_insert; lia].
  - rewrite !list_lookup_insert_ne, mk_files_lookup by done. done.
Qed.

Lemma modify_file_ok nm d0 d scb wcb allow s L i : shape s L -> (length L < 32)%nat -> L !! i = Some (nm, d0) -> content_ok d ->
  exists s', modify_file_callback nm d scb wcb allow s = (s', Ok tt) /\
    let L' := <[i := (nm, d)]> L in shape s' L' /\ dir_is s' L' /\ cur_entry s' = cur_entry s.
Proof.
  intros (Hs & Ha & Hl & HL & Hsort & Hf & low & mid & high & He & Hlow & Hhigh & Hmid) Hlt Hi Hd.
  destruct (Forall_lookup_1 _ _ _ _ HL Hi) as [Hnm _]. cbn in Hnm. pose proof (lookup_lt_Some _ _ _ Hi) as Hil.
  unfold modify_file_callback. rewrite Hs, Hf, mk_files_length, (proj2 (Z.leb_gt _ _)) by lia.
  unfold name_fits. rewrite (proj2 (Z.ltb_ge 56 _)), andb_false_r by (destruct Hnm; lia). rewrite (find_file nm d0 L i) by done.
  rewrite (wrap_small 32) by (unfold inW; destruct Hd; lia). cbn [select name mk_file fst snd].
  change (mkFile (Z.of_nat (length d)) (32 + Z.of_nat (0 + i)) (pad nm)) with (mk_file 0 i (nm, d)).
  rewrite <-mk_files_replace. set (L' := <[i := (nm, d)]> L). cbn [files set_files].
  assert (Forall listed L') as HL' by (apply Forall_insert; [done|by split]). assert (length L' = length L) as Hlen by apply length_insert.
  destruct (update_dir (set_files (mk_files L') s) low mid high (dir_bytes (mk_files L'))) as (low' & -> & Hl' & Hdir); [done..|rewrite dir_bytes_length by done; lia|].
  cbn [entries set_entries set_files]. change (Z.to_nat FW_CFG_FILE_FIRST) with 32%nat.
  assert (length mid = length L) as Hml by (rewrite <-(length_map data mid), Hmid; apply length_map).
  rewrite (proj2 (Nat.ltb_lt _ _)) by (rewrite !length_app; lia). eexists. split; [reflexivity|]. cbv zeta. cbn [entries set_entries].
  rewrite <-Hl'. rewrite insert_app_r, insert_app_l by lia.
  split_and!; [|unfold dir_is; cbn [entries set_entries]; by rewrite lookup_app_l by lia|done].
  split_and!; [done..|lia|done|unfold L'; by rewrite (names_replace i nm d0)|done|]. exists low', (<[i := mkEntry d scb wcb allow]> mid), high.
  split_and!; [done..|]. change (data <$> <[i := mkEntry d scb wcb allow]> mid = L'.*2). rewrite list_fmap_insert. unfold L'. rewrite list_fmap_insert. f_equal. exact Hmid.
Qed.

(** Entries other than the directory do not affect the files. *)
Lemma add_entry_ok t scb wcb d allow s L : shape s L -> Z.land (entry_key t) FW_CFG_ENTRY_MASK < 25 -> Z.of_nat (length d) < 2 ^ 31 ->
  exists s', add_entry t scb wcb d allow s = Ok s' /\ shape s' L /\ (dir_is s L -> dir_is s' L) /\ cur_entry s' = cur_entry s.
Proof.
  intros (Hs & Ha & Hl & HL & Hsort & Hf & low & mid & high & He & Hlow & Hhigh & Hmid) Hk Hd.
  assert (0 <= Z.land (entry_key t) FW_CFG_ENTRY_MASK) as H0 by (destruct t; vm_compute; discriminate).
  unfold add_entry, max_entry, cur_entries, set_cur_entries, U32_MAX. set (key := Z.land _ _) in *. rewrite Hs, Ha, He.
  change (wadd 16 FW_CFG_FILE_FIRST 32) with 64. rewrite !(proj2 (Z.leb_gt _ _)) by lia. cbn [orb].
  destruct (lookup_lt_is_Some_2 low (Z.to_nat key)) as [e Hle]; [lia|]. rewrite lookup_app_l, Hle by lia. cbn [unwrap mbind res_bind].
  eexists. split; [reflexivity|]. rewrite insert_app_l by lia. split_and!; [split_and!; [done..|]| |done].
  - eexists _, mid, high. split_and!; [reflexivity|by rewrite length_insert|done..].
  - unfold dir_is. cbn [entries set_entries]. rewrite He, !lookup_app_l by (rewrite ?length_insert; lia). by rewrite list_lookup_insert_ne by lia.
Qed.

(** ** Setting up a device *)

Inductive setup_op :=
| AddFile (nm d : list Z)
| ModifyFile (nm d : list Z)
| AddEntry (t : FwCfgEntryType) (d : list Z).
Definition setup_step (op : setup_op) (s : FwCfgCommon) : res LegacyError FwCfgCommon :=
  match op with
  | AddFile nm d => let '(s, r) := add_file_entry nm d s in _ ← r; Ok s
  | ModifyFile nm d => let '(s, r) := modify_file_entry nm d s in _ ← r; Ok s
  | AddEntry t d => add_data_entry t d s
  end.
Fixpoint run_setup (ops : list setup_op) (s : FwCfgCommon) : res LegacyError FwCfgCommon :=
  match ops with
  | [] => Ok s
  | op :: ops => s ← setup_step op s; run_setup ops s
  end.

(** The files that are meant to be there, by name. *)
Abbreviation contents := (gmap (list Z) (list Z)).
Definition spec_step (op : setup_op) (m : contents) : contents :=
  match op with AddFile nm d | ModifyFile nm d => <[nm := d]> m | AddEntry _ _ => m end.

(** A file is added under a name that is no prefix of one there, changed only if it
    is there, and one slot stays free before each of the two. *)
Definition setup_ok (m : contents) (op : setup_op) : Prop :=
  match op with
  | AddFile nm d => (size m < 32)%nat /\ listed (nm, d) /\ forall nm', is_Some (m !! nm') -> take (length nm) (pad nm') <> nm
  | ModifyFile nm d => (size m < 32)%nat /\ is_Some (m !! nm) /\ content_ok d
  | AddEntry t d => Z.land (entry_key t) FW_CFG_ENTRY_MASK < 25 /\ Z.of_nat (length d) < 2 ^ 31
  end.
Fixpoint setup_all_ok (m : contents) (ops : list setup_op) : Prop :=
  match ops with
  | [] => True
  | op :: ops => setup_ok m op /\ setup_all_ok (spec_step op m) ops
  end.

Definition offers (s : FwCfgCommon) (m : contents) : Prop :=
  exists L, shape s L /\ dir_is s L /\ m = list_to_map L /\ cur_entry s = 0.

Lemma listing_lookup L nm d : StronglySorted lexlt (names L) -> list_to_map (M := contents) L !! nm = Some d <-> (nm, d) ∈ L.
Proof. intros Hs. symmetry. apply elem_of_list_to_map. by apply names_distinct. Qed.
Lemma listing_size L : StronglySorted lexlt (names L) -> size (list_to_map (M := contents) L) = length L.
Proof. intros Hs. rewrite map_size_list_to_map by by apply names_distinct. done. Qed.

Lemma setup_step_ok op s m : offers s m -> setup_ok m op -> exists s', setup_step op s = Ok s' /\ offers s' (spec_step op m).
Proof.
  intros (L & Hs & Hd & -> & Hc) Hok. pose proof Hs as (_ & _ & _ & HL & Hsort & _). destruct op as [nm d|nm d|t d]; cbn [setup_ok setup_step spec_step] in *.
  - destruct Hok as (Hsz & Hl & Hfresh). rewrite listing_size in Hsz by done.
    destruct (add_file_ok nm d None None true s L Hs Hsz Hl) as (s' & E & Hs' & Hd' & Hc').
    { intros [nm' d'] Hin. apply Hfresh. exists d'. by apply listing_lookup. }
    unfold add_file_entry. rewrite E. exists s'. split; [done|]. eexists. split_and!; [done..| |congruence].
    rewrite <-list_to_map_cons. apply list_to_map_proper; [|symmetry; apply insert_at_perm].
    destruct Hs' as (_ & _ & _ & _ & Hsort' & _). rewrite <-insert_at_perm. by apply names_distinct.
  - destruct Hok as (Hsz & [d0 Hin] & Hcd). rewrite listing_size in Hsz by done. apply listing_lookup in Hin; [|done]. apply list_elem_of_lookup in Hin as [i Hi].
    destruct (modify_file_ok nm d0 d None None true s L i Hs Hsz Hi Hcd) as (s' & E & Hs' & Hd' & Hc').
    unfold modify_file_entry. rewrite E. exists s'. split; [done|]. eexists. split_and!; [done..| |congruence].
    pose proof (names_distinct L Hsort) as Hnd. rewrite <-(take_drop_middle L i _ Hi) in Hnd |- *. rewrite insert_app_r_alt by (rewrite length_take; lia).
    pose proof (lookup_lt_Some _ _ _ Hi). rewrite length_take, Nat.min_l, Nat.sub_diag by lia. cbn [insert list_insert].
    transitivity (list_to_map (M := contents) ((nm, d) :: take i L ++ drop (S i) L)).
    + rewrite list_to_map_cons. transitivity (<[nm := d]> (list_to_map (M := contents) ((nm, d0) :: take i L ++ drop (S i) L))).
      * f_equal. apply list_to_map_proper; [done|]. symmetry. apply Permutation_middle.
      * rewrite list_to_map_cons. apply insert_insert_eq.
    + apply list_to_map_proper; [|apply Permutation_middle].
      rewrite fmap_app in Hnd. cbn in Hnd |- *. rewrite fmap_app. by rewrite Permutation_middle.
  - destruct Hok as [Hk Hl]. destruct (add_entry_ok t None None d false s L Hs Hk Hl) as (s' & E & Hs' & Hd' & Hc').
    exists s'. split; [done|]. exists L. split_and!; [done|by apply Hd'|done|congruence].
Qed.
Lemma run_setup_ok ops : forall s m, offers s m -> setup_all_ok m ops -> exists s', run_setup ops s = Ok s' /\ offers s' (foldl (flip spec_step) m ops).
Proof.
  induction ops as [|op ops IH]; intros s m Hs Hok; [by exists s|]. destruct Hok as [Hop Hok].
  destruct (setup_step_ok op s m Hs Hop) as (s1 & E & H1). destruct (IH s1 _ H1 Hok) as (s2 & E2 & H2). exists s2. cbn [run_setup foldl]. by rewrite E.
Qed.

Lemma realized_offers : exists s, common_realize FwCfgCommon_new = Ok s /\ offers s {[boot_fail_wait := le_bytes 4 5]}.
Proof.
  destruct (common_realize FwCfgCommon_new) as [s| |] eqn:E; vm_compute in E; [|done..]. injection E as <-.
  eexists. split; [reflexivity|]. exists [(boot_fail_wait, le_bytes 4 5)].
  split_and!; [|vm_compute; reflexivity|done|done]. unfold shape. cbn [file_slots entries files].
  split_and!; [done|vm_compute; done|cbn; lia| | |vm_compute; done|].
  - apply Forall_singleton. split; split; [repeat (apply Forall_cons; split; [lia|]); apply Forall_nil_2|cbn; lia|apply le_bytes_is_bytes|cbn; lia].
  - repeat constructor.
  - match goal with |- exists _ _ _, ?es = _ /\ _ => exists (take 32 es), (slice es 32 1), (drop 33 es) end. split_and!; vm_compute; reflexivity.
Qed.

(** ** The firmware's side *)

Section firmware.
Context {M : Type} `{!DmaMemory M}.

(** The selector and data registers of a platform. *)
Definition key_bytes (p : platform) (key : Z) : list Z := match p with FwCfgIO => le_bytes 2 key | FwCfgMem => be_bytes 2 key end.
Definition key_port (p : platform) : Z := match p with FwCfgIO => 0 | FwCfgMem => 8 end.
Definition data_port (p : platform) : Z := match p with FwCfgIO => 1 | FwCfgMem => 0 end.

Definition read_more (p : platform) (n : nat) (w : World (M := M)) : res LegacyError (World (M := M) * list Z) :=
  '(s, ok, b) ← common_read p (replicate n 0) (data_port p) w.1; if (ok : bool) then Ok ((s, w.2), b) else Err LegacyBail.
Definition fetch (p : platform) (key : Z) (n : nat) (w : World (M := M)) : res LegacyError (World (M := M) * list Z) :=
  match write p (key_bytes p key) (key_port p) w with
  | (w, Ok true) => read_more p n w
  | (_, Panic) => Panic
  | _ => Err LegacyBail
  end.

(** How a firmware gets a file: it reads the directory, looks for the name, and
    reads as many bytes from the entry as the record says. *)
Definition records (n : nat) (bs : list Z) : list (list Z) := map (fun i => slice bs (64 * i) 64) (seq 0 n).
Definition lookup_file (p : platform) (nm : list Z) (w : World (M := M)) : res LegacyError (World (M := M) * option (list Z)) :=
  '(w, count) ← fetch p (entry_key FileDir) 4 w;
  let n := Z.to_nat (be_val count) in
  '(w, bs) ← read_more p (64 * n) w;
  match find (fun r => bool_decide (slice r 8 56 = pad nm)) (records n bs) with
  | Some r => '(w, d) ← fetch p (be_val (slice r 4 2)) (Z.to_nat (be_val (slice r 0 4))) w; Ok (w, Some d)
  | None => Ok (w, None)
  end.

Lemma small_key key : 0 <= key < 64 -> Z.land key FW_CFG_ENTRY_MASK = key /\ Z.land key FW_CFG_ARCH_LOCAL = 0.
Proof.
  intros Hk. split.
  - change FW_CFG_ENTRY_MASK with (Z.ones 14). rewrite Z.land_ones, Z.mod_small; lia.
  - apply Z.bits_inj'. intros i Hi. rewrite Z.land_spec, Z.testbit_0_l. change FW_CFG_ARCH_LOCAL with (2 ^ 15). rewrite Z.pow2_bits_eqb by lia.
    destruct (Z.eqb_spec 15 i) as [<-|]; [|apply andb_false_r]. by rewrite (testbit_above 6 key) by (unfold inW; lia).
Qed.

(** Two states of a device that differ only in what is selected. *)
Definition same_content (s s' : FwCfgCommon) : Prop := entries s' = entries s /\ files s' = files s /\ file_slots s' = file_slots s.

Lemma key_bytes_value key : 0 <= key < 64 -> le_val (le_bytes 2 key) = key /\ wrap 16 (reg_value (be_bytes 2 key)) = key.
Proof.
  intros Hk. rewrite le_val_le_bytes. unfold reg_value. rewrite be_bytes_length, bool_decide_true by set_solver. rewrite be_val_be_bytes.
  change (8 * Z.of_nat 2) with 16. fold (wrap 16 key). rewrite !wrap_small; unfold inW; rewrite ?wrap_small; unfold inW; lia.
Qed.

Lemma fetch_spec p key e n s m : 0 <= key < 64 -> file_slots s = 32 -> entries s !! Z.to_nat key = Some e -> entry_ok e ->
  exists s', fetch p key n (s, m) = Ok ((s', m), window (data e) 0 n) /\ same_content s s' /\ get_entry_mut s' = Ok e /\ cur_offset s' = Z.of_nat (advance (data e) 0 n).
Proof.
  intros Hk Hs He Hok. destruct (small_key key Hk) as [Hmask Hloc]. destruct (key_bytes_value key Hk) as [Hle Hbe].
  assert (forall cs, get_entry_mut (mkFwCfg (file_slots s) (arch_entries s) (entries s) (files s) key 0 (dma_enabled s) (dma_addr s) cs) = Ok e) as Hget.
  { intros cs. unfold get_entry_mut, cur_key, max_entry, cur_entries, is_arch_local. cbn [file_slots cur_entry arch_entries entries]. rewrite Hmask, Hloc, Hs.
    change (wadd 16 FW_CFG_FILE_FIRST 32) with 64. rewrite (proj2 (Z.leb_gt _ _)), (proj2 (Z.eqb_neq _ _)) by (unfold FW_CFG_INVALID; lia). cbn [orb Z.ltb Z.compare]. by rewrite He. }
  assert (exists s1, select_entry key s = Ok s1 /\ same_content s s1 /\ get_entry_mut s1 = Ok e /\ cur_offset s1 = Z.of_nat 0) as (s1 & Hsel & Hsame & Hg & Ho).
  { unfold select_entry, max_entry. rewrite Hmask, Hs. change (wadd 16 FW_CFG_FILE_FIRST 32) with 64. rewrite (proj2 (Z.leb_gt _ _)) by lia.
    unfold set_cur at 1. rewrite Hget. destruct (select_cb e); eexists; split_and!; (done || apply Hget). }
  unfold fetch. replace (write p (key_bytes p key) (key_port p) (s, m)) with ((s1, m), @Ok LegacyError bool true).
  2:{ destruct p; unfold write, write_io, write_mem, select_access, key_bytes, key_port; cbn [fst snd]; rewrite ?le_bytes_length, ?Hle, ?Hbe; cbn [Z.leb Z.compare Z.of_nat Pos.of_succ_nat Pos.succ Z.eqb Pos.eqb]; by rewrite Hsel. }
  unfold read_more. cbn [fst snd]. rewrite (common_read_spec p (data_port p) s1 e 0) by (done || destruct p; cbn; lia). rewrite length_replicate. cbn [mbind res_bind].
  eexists. split; [reflexivity|]. split_and!; [done| |done]. exact Hg.
Qed.

Lemma dir_count (fs : list FwCfgFile) : (length fs <= 32)%nat -> be_val (le_bytes 4 (be_val (le_bytes 4 (wrap 32 (Z.of_nat (length fs)))))) = Z.of_nat (length fs).
Proof.
  intros H. rewrite (wrap_small 32) by (unfold inW; lia). set (bs := le_bytes 4 (Z.of_nat (length fs))).
  assert (length (rev bs) = 4%nat) as Hl by (rewrite length_rev; apply le_bytes_length). change (be_val bs) with (le_val (rev bs)). rewrite <-Hl at 1.
  rewrite le_bytes_le_val by (apply Forall_rev, le_bytes_is_bytes). unfold be_val. rewrite rev_involutive. unfold bs.
  rewrite le_val_le_bytes, Z.mod_small; lia.
Qed.
Lemma concat_chunk k (l : list (list Z)) i c rest : Forall (fun x => length x = k) l -> l !! i = Some c -> slice (concat l ++ rest) (k * i) k = c.
Proof.
  intros Hf. revert i. induction Hf as [|x l Hx Hf IH]; intros [|i] Hi; cbn in *; try done.
  - injection Hi as ->. unfold slice. rewrite Nat.mul_0_r, drop_0, <-app_assoc, take_app_length' by done. done.
  - unfold slice in *. rewrite <-app_assoc. replace (k * S i)%nat with (length x + k * i)%nat by lia. rewrite drop_app_add. by apply IH.
Qed.

Lemma record_fields f : length (name f) = 56%nat ->
  slice (as_be_bytes f) 0 4 = be_bytes 4 (fsize f) /\ slice (as_be_bytes f) 4 2 = be_bytes 2 (select f) /\ slice (as_be_bytes f) 8 56 = name f.
Proof.
  intros Hn. unfold as_be_bytes, slice. rewrite drop_0. pose proof (be_bytes_length 4 (fsize f)). pose proof (be_bytes_length 2 (select f)). pose proof (be_bytes_length 2 0).
  split_and!; [by rewrite take_app_length' by done|by rewrite drop_app_length', take_app_length' by done|].
  rewrite !(app_assoc (be_bytes 4 _)), (app_assoc _ (be_bytes 2 0)), drop_app_length' by (rewrite !length_app; lia). by rewrite take_ge by lia.
Qed.

Lemma records_dir L : Forall listed L -> records (length L) (concat (map as_be_bytes (mk_files L))) = map as_be_bytes (mk_files L).
Proof.
  intros HL. assert (Forall (fun x => length x = 64%nat) (map as_be_bytes (mk_files L))) as Hf.
  { apply Forall_lookup. intros i c Hc. rewrite list_lookup_fmap, mk_files_lookup in Hc. destruct (L !! i) as [x|] eqn:E; [|done]. injection Hc as <-.
    apply as_be_bytes_length, pad_length. by destruct (Forall_lookup_1 _ _ _ _ HL E). }
  apply list_eq. intros i. unfold records. rewrite list_lookup_fmap. destruct (decide (i < length L)%nat) as [Hi|Hi].
  - rewrite lookup_seq_lt by done. cbn [fmap option_fmap option_map]. rewrite Nat.add_0_l.
    destruct (lookup_lt_is_Some_2 (map as_be_bytes (mk_files L)) i) as [c Hc]; [rewrite length_map, mk_files_length; lia|].
    rewrite Hc. f_equal. rewrite <-(app_nil_r (concat _)). by apply concat_chunk.
  - rewrite lookup_seq_ge by lia. rewrite lookup_ge_None_2; [done|]. rewrite length_map, mk_files_length. lia.
Qed.

Lemma find_record nm L : Forall listed L -> StronglySorted lexlt (names L) -> name_ok nm ->
  match list_to_map (M := contents) L !! nm with
  | Some d => exists i, L !! i = Some (nm, d) /\ find (fun r => bool_decide (slice r 8 56 = pad nm)) (map as_be_bytes (mk_files L)) = Some (as_be_bytes (mk_file 0 i (nm, d)))
  | None => find (fun r => bool_decide (slice r 8 56 = pad nm)) (map as_be_bytes (mk_files L)) = None
  end.
Proof.
  intros HL Hs Hnm.
  assert (forall r, r ∈ map as_be_bytes (mk_files L) -> bool_decide (slice r 8 56 = pad nm) = true -> exists i d, L !! i = Some (nm, d) /\ r = as_be_bytes (mk_file 0 i (nm, d))) as Hmatch.
  { intros r Hr Hb. apply list_elem_of_lookup in Hr as [i Hi]. rewrite list_lookup_fmap, mk_files_lookup in Hi. destruct (L !! i) as [[nm' d]|] eqn:E; [|done]. injection Hi as <-.
    destruct (Forall_lookup_1 _ _ _ _ HL E) as [Hn' _]. cbn in Hn'. apply bool_decide_eq_true in Hb.
    destruct (record_fields (mk_file 0 i (nm', d))) as (_ & _ & Hname); [by apply pad_length|]. rewrite Hname in Hb. cbn in Hb. apply pad_inj in Hb as ->; [|done..].
    by exists i, d. }
  destruct (find _ _) as [r|] eqn:Ef.
  - apply find_some in Ef as [Hr Hb]. apply list_elem_of_In in Hr. destruct (Hmatch r Hr Hb) as (i & d & Hi & ->).
    assert (list_to_map (M := contents) L !! nm = Some d) as -> by (apply listing_lookup; [done|by eapply list_elem_of_lookup_2]). by exists i.
  - destruct (list_to_map L !! nm) as [d|] eqn:Em; [|done]. apply listing_lookup, list_elem_of_lookup in Em as [i Hi]; [|done].
    pose proof (find_none _ _ Ef (as_be_bytes (mk_file 0 i (nm, d)))) as Hno. cbn beta in Hno.
    destruct (record_fields (mk_file 0 i (nm, d))) as (_ & _ & Hname); [by apply pad_length|]. rewrite Hname in Hno. cbn in Hno. rewrite bool_decide_true in Hno by done.
    exfalso. discriminate Hno. apply list_elem_of_In. eapply (list_elem_of_lookup_2 _ i). by rewrite list_lookup_fmap, mk_files_lookup, Hi.
Qed.

Lemma dir_entry_ok e L : Forall listed L -> (length L <= 32)%nat -> data e = dir_bytes (mk_files L) -> entry_ok e.
Proof.
  intros HL Hl E. unfold entry_ok. rewrite E. rewrite dir_bytes_length by done. split; [|lia].
  apply Forall_app; split; [apply le_bytes_is_bytes|]. apply Forall_concat, Forall_lookup. intros i c Hc. rewrite list_lookup_fmap, mk_files_lookup in Hc.
  destruct (L !! i) as [x|] eqn:Ex; [|done]. injection Hc as <-. unfold as_be_bytes. destruct (Forall_lookup_1 _ _ _ _ HL Ex) as [Hn _].
  do 3 (apply Forall_app; split; [apply be_bytes_is_bytes|]). by apply pad_bytes.
Qed.

Lemma lookup_file_spec p nm s m L : shape s L -> dir_is s L -> name_ok nm ->
  exists s', lookup_file p nm (s, m) = Ok ((s', m), list_to_map (M := contents) L !! nm) /\ same_content s s'.
Proof.
  intros (Hs & Ha & Hl & HL & Hsort & Hf & low & mid & high & He & Hlow & Hhigh & Hmid) Hdir Hnm.
  unfold dir_is in Hdir. destruct (entries s !! 25%nat) as [e|] eqn:Ee; [|done]. injection Hdir as Hdir.
  pose proof (dir_entry_ok e L HL Hl Hdir) as Hok. pose proof (dir_bytes_length L HL) as Hdl. rewrite <-Hdir in Hdl.
  unfold lookup_file. destruct (fetch_spec p (entry_key FileDir) e 4 s m) as (s1 & -> & Hs1 & Hg1 & Ho1); [cbn; lia|done..|]. cbn [mbind res_bind].
  set (count := le_bytes 4 (be_val (le_bytes 4 (wrap 32 (Z.of_nat (length (mk_files L))))))).
  assert (window (data e) 0 4 = count) as ->.
  { rewrite window_in by lia. rewrite Hdir. unfold slice, dir_bytes. rewrite drop_0, take_app_length' by (by rewrite le_bytes_length). done. }
  unfold count. rewrite dir_count by (rewrite mk_files_length; lia). rewrite mk_files_length, Nat2Z.id.
  unfold read_more at 1. cbn [fst snd]. rewrite (common_read_spec p (data_port p) s1 e 4) by (done || (rewrite Ho1; f_equal; unfold advance; lia) || destruct p; cbn; lia).
  rewrite length_replicate. cbn [mbind res_bind].
  assert (window (data e) 4 (64 * length L) = concat (map as_be_bytes (mk_files L))) as ->.
  { rewrite window_in by lia. rewrite Hdir. unfold slice. rewrite take_ge by (rewrite length_drop, dir_bytes_length by done; lia).
    unfold dir_bytes. by rewrite drop_app_length' by (by rewrite le_bytes_length). }
  rewrite records_dir by done. pose proof (find_record nm L HL Hsort Hnm) as Hfind. destruct (list_to_map L !! nm) as [d|]; [|rewrite Hfind; by eexists].
  destruct Hfind as (i & Hi & ->). destruct (Forall_lookup_1 _ _ _ _ HL Hi) as [Hn [Hd1 Hd2]]. cbn in Hn, Hd1, Hd2. pose proof (lookup_lt_Some _ _ _ Hi) as Hil.
  destruct (record_fields (mk_file 0 i (nm, d))) as (-> & -> & _); [by apply pad_length|]. cbn [fsize select mk_file snd]. rewrite !be_val_be_bytes, !Z.mod_small, Nat2Z.id by (cbn; lia).
  assert (exists e', mid !! i = Some e' /\ data e' = d) as (e' & He' & Hde).
  { apply (f_equal (fun l => l !! i)) in Hmid. rewrite !list_lookup_fmap, Hi in Hmid. destruct (mid !! i) as [e'|]; [|done]. injection Hmid as ?. by exists e'. }
  destruct Hs1 as (E1 & E2 & E3).
  destruct (fetch_spec p (32 + Z.of_nat (0 + i)) e' (length d) (at_offset (advance (data e) 4 (64 * length L)) s1) m) as (s2 & -> & (F1 & F2 & F3) & _ & _).
  - lia.
  - cbn. by rewrite E3.
  - cbn. rewrite E1, He. replace (Z.to_nat (32 + Z.of_nat i)) with (length low + i)%nat by lia. rewrite lookup_app_r by lia. replace (length low + i - length low)%nat with i by lia.
    rewrite lookup_app_l; [done|]. by eapply lookup_lt_Some.
  - split; rewrite Hde; done.
  - cbn [mbind res_bind]. rewrite Hde, window_in by lia. unfold slice. rewrite drop_0, take_ge by lia. exists s2. split; [done|]. split_and!; cbn in F1, F2, F3; congruence.
Qed.

(** C14: What the machine puts into the firmware configuration device is what the
    firmware finds there.  After realization and any sequence of files added,
    files changed and entries added, none of which names a prefix of a name in
    use, looking a name up in the directory and reading the entry it refers to,
    through the registers of either platform, returns the last content of the file
    of that name, and nothing for a name that was not added. *)
Theorem fwcfg_files_found p ops m :
  setup_all_ok {[boot_fail_wait := le_bytes 4 5]} ops ->
  exists s, (s ← common_realize FwCfgCommon_new; run_setup ops s) = Ok s /\
    forall nm, name_ok nm -> exists s', lookup_file p nm (s, m) = Ok ((s', m), foldl (flip spec_step) {[boot_fail_wait := le_bytes 4 5]} ops !! nm) /\ same_content s s'.
Proof.
  intros Hok. destruct realized_offers as (s0 & -> & Hs0). cbn [mbind res_bind]. destruct (run_setup_ok ops s0 _ Hs0 Hok) as (s & -> & (L & Hs & Hd & -> & _)).
  exists s. split; [done|]. intros nm Hnm. by apply lookup_file_spec.
Qed.
End firmware.

(** ** What a guest can do *)

Section guest.
Context {M : Type} `{!DmaMemory M} `{!DmaLaws M}.
Abbreviation World := (World (M := M)).

(** An entry without the values of its bytes. *)
Definition outline (e : FwCfgEntry) : nat * option Z * option Z * bool := (length (data e), select_cb e, write_cb e, allow_write e).
Definition kept (s s' : FwCfgCommon) : Prop :=
  file_slots s' = file_slots s /\ files s' = files s /\ map outline (entries s') = map outline (entries s) /\ map outline (arch_entries s') = map outline (arch_entries s).

Definition all_bytes (s : FwCfgCommon) : Prop := Forall (fun e => is_bytes (data e)) (entries s) /\ Forall (fun e => is_bytes (data e)) (arch_entries s).
Definition fw_ok (s : FwCfgCommon) : Prop :=
  file_slots s = 32 /\ (64 <= length (entries s))%nat /\ (64 <= length (arch_entries s))%nat /\ is_u16 (cur_entry s) /\ 0 <= cur_offset s /\ is_u64 (dma_addr s) /\ all_bytes s.

Lemma fw_kept_ok s s' : fw_ok s -> kept s s' -> is_u16 (cur_entry s') -> 0 <= cur_offset s' -> is_u64 (dma_addr s') -> all_bytes s' -> fw_ok s'.
Proof.
  intros (H1 & H2 & H3 & _) (K1 & _ & K3 & K4) Hc Ho Ha Hb. apply (f_equal length) in K3, K4. rewrite !length_map in K3, K4. split_and!; [congruence|lia|lia|done..].
Qed.
Lemma set_cur_ok c o s : fw_ok s -> is_u16 c -> 0 <= o -> fw_ok (set_cur c o s).
Proof. intros Hs Hc Ho. eapply fw_kept_ok; [exact Hs|done|done|done|apply Hs|apply Hs]. Qed.
Lemma kept_refl s : kept s s.
Proof. done. Qed.
Lemma kept_trans s1 s2 s3 : kept s1 s2 -> kept s2 s3 -> kept s1 s3.
Proof. intros (A1 & A2 & A3 & A4) (B1 & B2 & B3 & B4). split_and!; congruence. Qed.

Lemma mask_below c : is_u16 c -> 0 <= Z.land c FW_CFG_ENTRY_MASK <= c.
Proof.
  intros Hc. change FW_CFG_ENTRY_MASK with (Z.ones 14). rewrite Z.land_ones by lia. unfold inW in Hc. split; [apply Z.mod_pos_bound; lia|apply Z.mod_le; lia].
Qed.

Lemma get_entry_safe s : fw_ok s -> match get_entry_mut s with Ok e => cur_entries s !! Z.to_nat (cur_key s) = Some e | Err _ => True | Panic => False end.
Proof.
  intros (H1 & H2 & H3 & Hc & Ho & _). unfold get_entry_mut, max_entry. rewrite H1. change (wadd 16 FW_CFG_FILE_FIRST 32) with 64. pose proof (mask_below _ Hc) as Hm. fold (cur_key s) in Hm.
  destruct ((64 <=? cur_key s) || (cur_entry s =? FW_CFG_INVALID)) eqn:E.
  - apply orb_true_iff in E. assert (32 <= cur_entry s) by (destruct E as [E|E]; [apply Z.leb_le in E|apply Z.eqb_eq in E; unfold FW_CFG_INVALID in E]; lia).
    unfold get_key_name. by rewrite (proj2 (Z.ltb_ge _ _)) by (unfold FW_CFG_FILE_FIRST; lia).
  - apply orb_false_iff in E as [E _]. apply Z.leb_gt in E. destruct (lookup_lt_is_Some_2 (cur_entries s) (Z.to_nat (cur_key s))) as [e He].
    + unfold cur_entries. destruct (is_arch_local s); lia.
    + by rewrite He.
Qed.

Lemma select_entry_safe key s : fw_ok s -> is_u16 key -> exists s', select_entry key s = Ok s' /\ kept s s' /\ fw_ok s'.
Proof.
  intros Hs Hk. unfold select_entry. destruct (max_entry s <=? Z.land key FW_CFG_ENTRY_MASK) eqn:E.
  - eexists. split; [reflexivity|]. split; [done|]. apply set_cur_ok; [done|unfold FW_CFG_INVALID, inW; lia|lia].
  - assert (fw_ok (set_cur key 0 s)) as Hs1 by (apply set_cur_ok; done || lia).
    pose proof (get_entry_safe _ Hs1) as Hg. destruct (get_entry_mut (set_cur key 0 s)) as [e|x|] eqn:Eg; [|exfalso|done].
    + eexists. split; [reflexivity|]. destruct (select_cb e); (split; [done|]); exact Hs1.
    + unfold get_entry_mut, cur_key in Eg. cbn [cur_entry set_cur] in Eg. change (max_entry (set_cur key 0 s)) with (max_entry s) in Eg. rewrite E in Eg. cbn [orb] in Eg.
      destruct (Z.eqb_spec key FW_CFG_INVALID) as [->|]; [|by destruct (_ !! _)]. destruct Hs as (H1 & _). unfold max_entry in E. rewrite H1 in E. vm_compute in E. done.
Qed.

Lemma put_entry_kept e e' s : cur_entries s !! Z.to_nat (cur_key s) = Some e -> outline e' = outline e -> kept s (put_entry e' s).
Proof.
  intros He Ho. assert (map outline (<[Z.to_nat (cur_key s) := e']> (cur_entries s)) = map outline (cur_entries s)) as Hm.
  { change (outline <$> <[Z.to_nat (cur_key s) := e']> (cur_entries s) = outline <$> cur_entries s). rewrite list_fmap_insert. apply list_insert_id. by rewrite list_lookup_fmap, He, Ho. }
  unfold put_entry, set_cur_entries, cur_entries in *. destruct (is_arch_local s); done.
Qed.

Lemma put_entry_bytes e s : all_bytes s -> is_bytes (data e) -> all_bytes (put_entry e s).
Proof.
  intros [H1 H2] He. unfold put_entry, set_cur_entries, cur_entries, all_bytes. destruct (is_arch_local s); cbn; split; try done; by apply Forall_insert.
Qed.
Lemma cur_bytes s e : all_bytes s -> cur_entries s !! Z.to_nat (cur_key s) = Some e -> is_bytes (data e).
Proof. intros [H1 H2]. unfold cur_entries. destruct (is_arch_local s); intros He; by eapply (Forall_lookup_1 (fun e => is_bytes (data e))) in He. Qed.

(** Reads of the registers. *)
Lemma data_loop_safe n : forall d off v, 0 <= off < wrap 32 (Z.of_nat (length d)) -> exists v' off' r, data_loop n d off v = Ok (v', off', r) /\ 0 <= off'.
Proof.
  induction n as [|n IH]; intros d off v Hoff; [exists v, off, O; split; [done|lia]|]. cbn [data_loop].
  assert (wrap 32 (Z.of_nat (length d)) <= Z.of_nat (length d)) by (apply Z.mod_le; lia). assert (wrap 32 (Z.of_nat (length d)) < 2 ^ 32) by (apply Z.mod_pos_bound; lia).
  destruct (lookup_lt_is_Some_2 d (Z.to_nat off)) as [b ->]; [lia|]. cbn [unwrap mbind res_bind]. rewrite wadd_small by (unfold inW; lia).
  destruct (_ || _) eqn:E; [by eexists _, _, _; split; [reflexivity|lia]|]. apply orb_false_iff in E as [_ E]. apply IH. lia.
Qed.
Lemma read_reg_safe p offset len s : fw_ok s ->
  match read_reg p offset len s with Ok (s', _) => exists o, 0 <= o /\ s' = set_cur (cur_entry s) o s | Err _ => True | Panic => False end.
Proof.
  intros Hs. assert (exists o, 0 <= o /\ s = set_cur (cur_entry s) o s) as Hsame by (exists (cur_offset s); split; [apply Hs|by destruct s]).
  assert (match read_data_reg len s with Ok (s', _) => exists o, 0 <= o /\ s' = set_cur (cur_entry s) o s | Err _ => True | Panic => False end) as Hd.
  { unfold read_data_reg. destruct (_ || _); [done|]. pose proof (get_entry_safe s Hs) as Hg. destruct (get_entry_mut s) as [e| |]; [|done..]. cbn [mbind res_bind].
    destruct (_ && _) eqn:E; [|done]. apply andb_true_iff in E as [_ E]. destruct (data_loop_safe (Z.to_nat len) (data e) (cur_offset s) 0) as (v & o & r & -> & Ho); [destruct Hs as (_ & _ & _ & _ & ? & _); lia|].
    by exists o. }
  unfold read_reg, read_reg_io, read_reg_mem. destruct p.
  - destruct (_ <=? 1); [exact Hd|]. destruct (_ && _); [|done]. destruct (_ <? _); [done|]. by destruct (dma_mem_read _ _).
  - destruct (_ <=? 7); [exact Hd|]. destruct (_ <=? 15); [exact Hsame|]. destruct (_ <=? 23); [|done]. destruct (_ <? _); [done|]. by destruct (dma_mem_read _ _).
Qed.
Lemma common_read_safe p offset n : forall io i buf s, fw_ok s ->
  match common_read_loop n p io i buf offset s with Ok (s', _, _) => exists o, 0 <= o /\ s' = set_cur (cur_entry s) o s | Err _ => True | Panic => False end.
Proof.
  induction n as [|n IH]; intros io i buf s Hs; cbn [common_read_loop]; [exists (cur_offset s); split; [apply Hs|by destruct s]|].
  unfold read_bytes. pose proof (read_reg_safe p offset (Z.of_nat (length (slice buf i io))) s Hs) as Hr. destruct (read_reg _ _ _ _) as [[s1 v]| |]; [|..|done].
  2:{ cbn. exists (cur_offset s). split; [apply Hs|by destruct s]. }
  destruct Hr as (o & Ho & ->). assert (fw_ok (set_cur (cur_entry s) o s)) as Hs1 by (apply set_cur_ok; [done|apply Hs|done]).
  assert (forall b, match common_read_loop n p io (i + io) (splice buf i b) offset (set_cur (cur_entry s) o s) with Ok (s', _, _) => exists o, 0 <= o /\ s' = set_cur (cur_entry s) o s | Err _ => True | Panic => False end) as Hnext.
  { intros b. specialize (IH io (i + io)%nat (splice buf i b) _ Hs1). by destruct (common_read_loop _ _ _ _ _ _ _) as [[[? ?] ?]| |]. }
  destruct (bool_decide _); [apply Hnext|]. destruct p; [by exists o|apply Hnext].
Qed.
Lemma common_read_no_err p buf offset s x : common_read p buf offset s <> Err x.
Proof.
  assert (forall n io i buf s, common_read_loop n p io i buf offset s <> Err x) as H; [|apply H].
  clear. induction n as [|n IH]; intros io i buf s; cbn [common_read_loop]; [done|]. unfold read_bytes. destruct (read_reg _ _ _ _) as [[s1 v]| |]; [|done..].
  destruct (bool_decide _); [apply IH|]. destruct p; [done|apply IH].
Qed.

(** The loop of a request. *)
Definition elen (e : FwCfgEntry) : Z := wrap 32 (Z.of_nat (length (data e))).
Definition dma_ok (e : FwCfgEntry) (d : dma_state) : Prop := outline (dentry d) = outline e /\ 0 <= offset d /\ is_u32 (dlength d) /\ is_u64 (address d) /\ is_bytes (data (dentry d)).

Lemma elen_bound e : 0 <= elen e <= Z.of_nat (length (data e)) /\ elen e < 2 ^ 32.
Proof. unfold elen, wrap. pose proof (Z.mod_pos_bound (Z.of_nat (length (data e))) (2 ^ 32)). pose proof (Z.mod_le (Z.of_nat (length (data e))) (2 ^ 32)). lia. Qed.
Lemma elen_outline e e' : outline e' = outline e -> elen e' = elen e.
Proof. intros H. apply (f_equal (fun x => x.1.1.1)) in H. cbn in H. unfold elen. by rewrite H. Qed.

Lemma opt_write_safe (is_read : bool) w a n m : dm_ok m -> 0 < n < 2 ^ 32 -> is_u64 a -> is_bytes w -> n <= Z.of_nat (length w) ->
  match (if is_read then dm_write w a n m else (m, Ok tt)) with (m', Panic) => dm_stuck m' | (m', _) => dm_ok m' end.
Proof. intros. destruct is_read; [by apply dm_write_safe|done]. Qed.

(** A turn of the loop that returns. *)
Definition turn_ok (e : FwCfgEntry) (d d' : dma_state) (m' : M) : Prop :=
  dm_ok m' /\ dma_ok e d' /\ (dlength d' = 0 \/ elen e <= offset d') /\ (elen e <= offset d -> dlength d' = 0).
Lemma dma_turn_safe stale is_read is_write e d m : dm_ok m -> dma_ok e d -> 0 < dlength d ->
  match dma_turn stale is_read is_write d m with (m', Ok d') => turn_ok e d d' m' | (_, Err _) => False | (m', Panic) => dm_stuck m' end.
Proof.
  intros Hm (Ho & Hoff & Hlen & Ha & Hby) Hpos. unfold inW in Hlen. pose proof (elen_outline _ _ Ho) as He. pose proof (elen_bound (dentry d)) as [Hb Hb32]. unfold dma_turn. fold (elen (dentry d)).
  assert (is_u64 (wadd 64 (address d) (dlength d))) as Hadr by (apply wrap_inW; lia).
  destruct (_ || _) eqn:Ecase.
  - pose proof (opt_write_safe is_read (replicate (Z.to_nat (dlength d)) 0) (address d) (dlength d) m Hm ltac:(lia) Ha (zeros_are_bytes _) ltac:(rewrite length_replicate; lia)) as Hr.
    destruct (if is_read then _ else _) as [m1 r].
    destruct r; [..|done]; (unfold turn_ok, dma_ok; cbn; rewrite Z.sub_diag; split_and!; done || (left; done) || (unfold inW; lia)).
  - apply orb_false_iff in Ecase as [_ Elt]. apply Z.leb_gt in Elt. rewrite wsub_small by (unfold inW; lia).
    set (len := if dlength d <=? elen (dentry d) - offset d then dlength d else elen (dentry d) - offset d).
    assert (0 < len <= dlength d /\ len <= elen (dentry d) - offset d /\ (len = dlength d \/ len = elen (dentry d) - offset d)) as (L1 & L2 & L3) by (unfold len; destruct (Z.leb_spec (dlength d) (elen (dentry d) - offset d)); lia).
    rewrite (wadd_small 32) by (unfold inW; lia). clearbody len.
    pose proof (opt_write_safe is_read (drop (Z.to_nat (offset d)) (data (dentry d))) (address d) len m Hm ltac:(lia) Ha (Forall_drop _ _ _ Hby) ltac:(rewrite length_drop; lia)) as Hr.
    destruct (if is_read then _ else _) as [m1 r].
    assert (forall (m : M) c e' cs, dm_ok m -> outline e' = outline e -> is_bytes (data e') -> turn_ok e d (mkDma c (dlength d - len) (wadd 64 (address d) len) (offset d + len) e' cs) m) as Hnext.
    { intros m2 c e' cs Hm2 Hout Hb'. unfold turn_ok, dma_ok. cbn. split_and!; [done|done|lia|unfold inW; lia|apply wrap_inW; lia|done|lia|lia]. }
    destruct r; [..|done]; (destruct is_write; [|by apply Hnext]); pose proof (dm_read_safe (address d) len m1 Hr ltac:(lia) Ha) as Hr2;
      destruct (dm_read (address d) len m1) as [m2 r2]; (destruct r2 as [bytes|bytes|]; [..|done]); destruct Hr2 as (Hm2 & Hl2 & Hb2);
      (assert (outline (set_data (splice (data (dentry d)) (Z.to_nat (offset d)) bytes) (dentry d)) = outline e) as Hout;
        [rewrite <-Ho; unfold outline; cbn; rewrite splice_length; [done|lia]|]);
      (assert (is_bytes (data (set_data (splice (data (dentry d)) (Z.to_nat (offset d)) bytes) (dentry d)))) as Hby' by (by apply is_bytes_splice));
      (destruct (_ || _); [|destruct (write_cb _)]); by apply Hnext.
Qed.

(** Two turns are enough for any request. *)
Lemma dma_loop_safe stale is_read is_write e d m : dm_ok m -> dma_ok e d ->
  match dma_loop 2 stale is_read is_write d m with (m', Ok d') => dm_ok m' /\ dma_ok e d' | (_, Err _) => False | (m', Panic) => dm_stuck m' end.
Proof.
  intros Hm Hd. cbn [dma_loop]. destruct (_ && _) eqn:Eg0; [|done]. apply andb_true_iff in Eg0 as [Eg0 _]. apply Z.ltb_lt in Eg0.
  pose proof (dma_turn_safe stale is_read is_write e d m Hm Hd Eg0) as H1. unfold mbind at 1, sres_bind at 1.
  destruct (dma_turn stale is_read is_write d m) as [m1 [d1| |]]; [|done..]. destruct H1 as (Hm1 & Hd1 & Hor & _).
  destruct (_ && _) eqn:Eg; [|done]. apply andb_true_iff in Eg as [Eg _]. apply Z.ltb_lt in Eg. destruct Hor as [?|Hor]; [lia|].
  pose proof (dma_turn_safe stale is_read is_write e d1 m1 Hm1 Hd1 Eg) as H2. unfold mbind at 1, sres_bind at 1.
  destruct (dma_turn stale is_read is_write d1 m1) as [m2 [d2| |]]; [|done..]. destruct H2 as (Hm2 & Hd2 & _ & Hz). rewrite (Hz Hor). done.
Qed.

Lemma write_dma_result_safe addr v m : dm_ok m -> is_u64 addr -> match write_dma_result addr v m with (m', Panic) => dm_stuck m' | (m', _) => dm_ok m' end.
Proof.
  intros Hm Ha. unfold write_dma_result, unchecked_add. rewrite wadd_small, Z.add_0_r by (by rewrite Z.add_0_r).
  pose proof (dm_write_safe (be_bytes 4 v) addr 4 m Hm ltac:(lia) Ha (be_bytes_is_bytes _ _) ltac:(rewrite be_bytes_length; lia)) as H.
  by destruct (dm_write _ _ _ m) as [m' []].
Qed.

Lemma control_key c : 0 <= c < 2 ^ 32 -> is_u16 (wshr 32 c 16).
Proof. intros Hc. unfold wshr, inW. change (16 `mod` 32) with 16. rewrite Z.shiftr_div_pow2 by lia. split; [apply Z.div_pos; lia|apply Z.div_lt_upper_bound; lia]. Qed.

(** A step of the device that returns, or does not because of an access to memory. *)
Definition step_safe {A} (s : FwCfgCommon) (out : World * res LegacyError A) : Prop :=
  match out with ((_, m'), Panic) => dm_stuck m' | ((s', m'), _) => kept s s' /\ fw_ok s' /\ dm_ok m' end.

Lemma handle_dma_safe s m : fw_ok s -> dm_ok m -> step_safe s (handle_dma_request (s, m)).
Proof.
  intros Hs Hm. unfold handle_dma_request. assert (is_u64 (dma_addr s)) as Hda by apply Hs.
  assert (fw_ok (set_dma_addr 0 s)) as Hs0 by (eapply fw_kept_ok; [exact Hs|done|apply Hs|apply Hs|cbn; unfold inW; lia|apply Hs]). set (s0 := set_dma_addr 0 s) in *.
  pose proof (dm_read_safe (dma_addr s) 16 m Hm ltac:(lia) Hda) as Hr. destruct (dm_read (dma_addr s) 16 m) as [m1 [req|part|]]; [..|done]; destruct Hr as (Hm1 & Hr & Hby).
  2:{ pose proof (write_dma_result_safe (dma_addr s) FW_CFG_DMA_CTL_ERROR m1 Hm1 Hda) as Hw. by destruct (write_dma_result _ _ m1) as [m2 []]. }
  assert (forall o, (o + 4 <= 16)%nat -> is_u32 (be_val (slice req o 4))) as Hfield.
  { intros o Hle. pose proof (be_val_bound (slice req o 4) (is_bytes_slice _ _ _ Hby)) as H. rewrite slice_length in H by lia. exact H. }
  assert (is_u64 (be_val (slice req 8 8))) as Haddr by (pose proof (be_val_bound (slice req 8 8) (is_bytes_slice _ _ _ Hby)) as H; rewrite slice_length in H by lia; exact H).
  assert (exists s1, (if bit_set (be_val (slice req 0 4)) FW_CFG_DMA_CTL_SELECT then select_entry (wshr 32 (be_val (slice req 0 4)) 16) s0 else Ok s0) = Ok s1 /\ kept s s1 /\ fw_ok s1) as (s1 & -> & Hk1 & Hs1).
  { destruct (bit_set _ _); [|by exists s0]. destruct (select_entry_safe (wshr 32 (be_val (slice req 0 4)) 16) s0 Hs0) as (s1 & E & K & H1); [apply control_key, Hfield; lia|]. by exists s1. }
  pose proof (get_entry_safe s1 Hs1) as Hg. destruct (get_entry_mut s1) as [e|x|]; [|done..].
  set (d0 := mkDma _ _ _ _ _ _).
  assert (dma_ok e d0) as Hd0 by (unfold dma_ok; cbn; split_and!; [done|apply Hs1|destruct (bit_set _ _); [unfold inW; lia|apply Hfield; lia]|done|eapply cur_bytes; [apply Hs1|done]]).
  pose proof (dma_loop_safe (cur_entry s) (bit_set (be_val (slice req 0 4)) FW_CFG_DMA_CTL_READ) (bit_set (be_val (slice req 0 4)) FW_CFG_DMA_CTL_WRITE) e d0 m1 Hm1 Hd0) as Hloop.
  destruct (dma_loop _ _ _ _ d0 m1) as [m2 [d|x|]]; [|done..]. destruct Hloop as [Hm2 Hd].
  pose proof (write_dma_result_safe (dma_addr s) (control d) m2 Hm2 Hda) as Hw. destruct (write_dma_result _ _ m2) as [m3 r]. destruct Hd as (Ho & Hoff & _ & _ & Hb).
  pose proof (put_entry_kept e (dentry d) s1 Hg Ho) as Hp. pose proof (kept_trans _ _ _ Hk1 Hp) as Hk. pose proof (put_entry_bytes (dentry d) s1 ltac:(apply Hs1) Hb) as Hpb.
  assert (is_u64 (dma_addr (put_entry (dentry d) s1))) as Ha by (unfold put_entry, set_cur_entries; destruct (is_arch_local s1); apply Hs1).
  destruct r; [..|done]; (split; [exact Hk|]; split; [|done]; eapply fw_kept_ok; [exact Hs|exact Hk|apply Hs1|done|exact Ha|exact Hpb]).
Qed.

(** Accesses of a guest, and a reset of the machine. *)
Inductive guest_ev := GRead (buf : list Z) (offset : Z) | GWrite (bytes : list Z) (offset : Z) | GReset.
Definition guest_ev_ok (ev : guest_ev) : Prop := match ev with GWrite bytes _ => is_bytes bytes | _ => True end.
Definition guest_step (p : platform) (ev : guest_ev) : sres World LegacyError unit := fun w =>
  match ev with
  | GRead buf offset => match common_read p buf offset w.1 with Ok (s, _, _) => ((s, w.2), Ok tt) | Err e => (w, Err e) | Panic => (w, Panic) end
  | GWrite bytes offset => match write p bytes offset w with (w, Panic) => (w, Panic) | (w, _) => (w, Ok tt) end
  | GReset => match reset w.1 with Ok s => ((s, w.2), Ok tt) | Err e => (w, Err e) | Panic => (w, Panic) end
  end.
Fixpoint guest_run (p : platform) (evs : list guest_ev) : sres World LegacyError unit :=
  match evs with
  | [] => mret tt
  | ev :: evs => _ ← guest_step p ev; guest_run p evs
  end.

Lemma reg_value_u64 bytes : is_bytes bytes -> is_u64 (reg_value bytes).
Proof.
  intros Hb. unfold reg_value. case_bool_decide as Hl; [|unfold inW; lia]. pose proof (be_val_bound bytes Hb) as Hv.
  assert (2 ^ (8 * Z.of_nat (length bytes)) <= 2 ^ 64) by (apply Z.pow_le_mono_r; [lia|]; set_solver by lia). unfold inW. lia.
Qed.
Lemma dma_mem_write_safe addr value size s m : fw_ok s -> dm_ok m -> is_u64 value -> step_safe s (dma_mem_write addr value size (s, m)).
Proof.
  intros Hs Hm Hv. unfold dma_mem_write.
  assert (forall a, is_u64 a -> fw_ok (set_dma_addr a s)) as Hset by (intros a Ha; eapply fw_kept_ok; [exact Hs|done|apply Hs|apply Hs|done|apply Hs]).
  assert (forall a, is_u64 a -> step_safe s (handle_dma_request (set_dma_addr a s, m))) as Hh.
  { intros a Ha. apply (handle_dma_safe (set_dma_addr a s) m (Hset a Ha) Hm). }
  destruct (size =? 4).
  - destruct (addr =? 0); [split_and!; [done|apply Hset, wrap_inW; lia|done]|]. destruct (addr =? 4); [|done]. apply Hh, lor_inW; [lia|apply Hs|done].
  - destruct (_ && _); [|done]. by apply Hh.
Qed.

(** Each step returns without an error, or is stuck. *)
Definition run_safe (s : FwCfgCommon) (out : World * res LegacyError unit) : Prop :=
  match out with ((s', m'), Ok _) => kept s s' /\ fw_ok s' /\ dm_ok m' | (_, Err _) => False | ((_, m'), Panic) => dm_stuck m' end.
Lemma guest_step_safe p ev s m : fw_ok s -> dm_ok m -> guest_ev_ok ev -> run_safe s (guest_step p ev (s, m)).
Proof.
  intros Hs Hm Hev. destruct ev as [buf offset|bytes offset|]; cbn [guest_step fst snd].
  - pose proof (common_read_safe p offset (length buf / get_io_count (length buf)) (get_io_count (length buf)) 0 buf s Hs) as Hr. fold (common_read p buf offset s) in Hr.
    pose proof (common_read_no_err p buf offset s) as Hne. destruct (common_read p buf offset s) as [[[s1 ok] b]|x|]; [|by destruct (Hne x)|done]. destruct Hr as (o & Ho & ->).
    split_and!; [done|apply set_cur_ok; [done|apply Hs|done]|done].
  - cbn in Hev. unfold write.
    assert (forall key, is_u16 key -> run_safe s (match select_access key (s, m) with (w, Panic) => (w, Panic) | (w, _) => (w, Ok tt) end)) as Hsel.
    { intros key Hkey. unfold select_access. cbn [fst snd]. destruct (select_entry_safe key s Hs Hkey) as (s' & -> & Hk & Hs'). done. }
    assert (forall a, run_safe s (match dma_access a bytes (s, m) with (w, Panic) => (w, Panic) | (w, _) => (w, Ok tt) end)) as Hdma.
    { intros a. unfold dma_access. pose proof (dma_mem_write_safe a (reg_value bytes) (Z.of_nat (length bytes)) s m Hs Hm (reg_value_u64 _ Hev)) as H.
      by destruct (dma_mem_write _ _ _ _) as [[s' m'] [| |]]. }
    unfold write_io, write_mem. destruct p.
    + destruct (_ <=? 1); [|destruct (_ && _); [apply Hdma|done]]. destruct (Z.eqb_spec (Z.of_nat (length bytes)) 2) as [E|]; [|done].
      apply Hsel. pose proof (le_val_bound bytes Hev) as Hv. rewrite E in Hv. exact Hv.
    + destruct (_ <=? 7); [done|]. destruct (_ <=? 15); [apply Hsel, wrap_inW; lia|]. destruct (_ <=? 23); [apply Hdma|done].
  - unfold reset. destruct (select_entry_safe (entry_key Signature) s Hs) as (s' & -> & Hk & Hs'); [cbn; unfold inW; lia|]. done.
Qed.

(** C15: Whatever a guest does with the firmware configuration device, it stays
    intact: every access of a sequence of reads and writes of its registers, of any
    size, with any DMA requests in memory, and resets, returns, unless an access of
    a DMA request to guest memory does not return: such an address may be a register
    of another device that panics, or of this one, whose lock is taken
    ([dm_stuck]).  As long as they return, the files, the number of entries, their
    sizes and whether they may be written stay the same. *)
Theorem fwcfg_guest_safe p evs s m :
  fw_ok s -> dm_ok m -> Forall guest_ev_ok evs ->
  match guest_run p evs (s, m) with
  | ((s', m'), Ok _) => kept s s' /\ fw_ok s' /\ dm_ok m'
  | (_, Err _) => False
  | ((_, m'), Panic) => dm_stuck m' /\ ~ dm_ok m'
  end.
Proof.
  intros Hs Hm Hev. revert s m Hs Hm. induction Hev as [|ev evs He Hev IH]; intros s m Hs Hm; [done|].
  cbn [guest_run]. pose proof (guest_step_safe p ev s m Hs Hm He) as H1. unfold mbind at 1, sres_bind at 1.
  destruct (guest_step p ev (s, m)) as [[s1 m1] [[]| |]]; [|done|split; [done|]; intros Hok; by apply (dm_ok_not_stuck m1)].
  destruct H1 as (Hk1 & Hs1 & Hm1). specialize (IH s1 m1 Hs1 Hm1). destruct (guest_run p evs (s1, m1)) as [[s2 m2] [[]| |]]; [|done..].
  destruct IH as (? & ? & ?). split_and!; [by eapply kept_trans|done|done].
Qed.

(** ** DMA reads *)

Lemma dma_read_past stale e o n a m cs : entry_ok e -> (length (data e) <= o)%nat -> 0 < n -> 0 <= a -> a + n < 2 ^ 64 -> (forall x, a <= x < a + n -> dm_ram x) ->
  exists m', dma_turn stale true false (mkDma 0 n a (Z.of_nat o) e cs) m = (m', Ok (mkDma 0 0 (a + n) (Z.of_nat o) e cs)) /\ dm_after m m' a (replicate (Z.to_nat n) 0).
Proof.
  intros [_ Hl] Ho Hn Ha Hw Hr. destruct (dm_write_after (replicate (Z.to_nat n) 0) a n m) as (m' & E & Hm'); [done..|rewrite length_replicate; lia|].
  rewrite take_ge in Hm' by (rewrite length_replicate; lia). exists m'. split; [|done]. unfold dma_turn. cbn [dentry offset dlength address control dcalls].
  rewrite (wrap_small 32) by (unfold inW; lia). rewrite (proj2 (Z.leb_le _ _)), orb_true_r by lia. rewrite E. cbn [is_ok negb]. rewrite wadd_small, Z.sub_diag by (unfold inW; lia). done.
Qed.

Lemma dma_read_loop stale e o n a m cs : stale <> FW_CFG_INVALID -> entry_ok e -> 0 < n < 2 ^ 32 -> 0 <= a -> a + n < 2 ^ 64 -> (forall x, a <= x < a + n -> dm_ram x) ->
  exists m', dma_loop 2 stale true false (mkDma 0 n a (Z.of_nat o) e cs) m = (m', Ok (mkDma 0 0 (a + n) (Z.of_nat (advance (data e) o (Z.to_nat n))) e cs)) /\
    dm_after m m' a (window (data e) o (Z.to_nat n)).
Proof.
  intros Hst Hok Hn Ha Hw Hr. pose proof Hok as [_ Hl]. cbn [dma_loop dlength control]. rewrite (proj2 (Z.ltb_lt _ _)) by lia. change (Z.land 0 FW_CFG_DMA_CTL_ERROR =? 0) with true. cbn [andb].
  destruct (decide (length (data e) <= o)%nat) as [Ho|Ho].
  { destruct (dma_read_past stale e o n a m cs) as (m' & E & Hm'); [done..|lia|done|done|done|]. rewrite (sres_step _ _ _ _ _ E). exists m'.
    rewrite window_out by done. split; [|done]. unfold advance. rewrite Nat.max_l by lia. done. }
  set (len := Z.min n (Z.of_nat (length (data e) - o))).
  assert (Z.of_nat o + len = Z.of_nat (advance (data e) o (Z.to_nat n))) as Hadv by (unfold advance, len; lia).
  destruct (dm_write_after (drop o (data e)) a len m) as (m1 & E1 & Hm1); [done|lia|lia|intros; apply Hr; lia|rewrite length_drop; lia|].
  assert (dma_turn stale true false (mkDma 0 n a (Z.of_nat o) e cs) m = (m1, Ok (mkDma 0 (n - len) (a + len) (Z.of_nat (advance (data e) o (Z.to_nat n))) e cs))) as Et.
  { unfold dma_turn. cbn [dentry offset dlength address control dcalls]. rewrite (wrap_small 32) by (unfold inW; lia). rewrite (proj2 (Z.eqb_neq _ _)), (proj2 (Z.leb_gt _ (Z.of_nat o))) by (done || lia).
    rewrite bool_decide_false by (intros E; rewrite E in Ho; cbn in Ho; lia). cbn [orb]. rewrite wsub_small by (unfold inW; lia).
    replace (if n <=? _ then n else _) with len by (unfold len; destruct (Z.leb_spec n (Z.of_nat (length (data e)) - Z.of_nat o)); lia).
    rewrite Nat2Z.id, E1. cbn [is_ok negb]. rewrite !wadd_small by (unfold inW, len; lia). by rewrite Hadv. }
  rewrite (sres_step _ _ _ _ _ Et). cbn [dlength control]. change (Z.land 0 FW_CFG_DMA_CTL_ERROR =? 0) with true. destruct (Z.ltb_spec 0 (n - len)) as [Hmore|Hdone]; cbn [andb].
  - assert (len = Z.of_nat (length (data e) - o)) as Hlen by lia.
    destruct (dma_read_past stale e (advance (data e) o (Z.to_nat n)) (n - len) (a + len) m1 cs) as (m2 & E2 & Hm2); [done|unfold advance; lia|lia|lia|lia|intros; apply Hr; lia|].
    rewrite (sres_step _ _ _ _ _ E2). exists m2. split; [by replace (a + len + (n - len)) with (a + n) by lia|].
    replace (window (data e) o (Z.to_nat n)) with (take (Z.to_nat len) (drop o (data e)) ++ replicate (Z.to_nat (n - len)) 0).
    + eapply dm_after_app; [exact Hm1|]. rewrite length_take, length_drop, Nat.min_l, Z2Nat.id by lia. exact Hm2.
    + unfold window. rewrite take_ge by (rewrite length_drop; lia). rewrite take_app_ge by (rewrite length_drop; lia). f_equal. rewrite length_drop, take_replicate. f_equal. lia.
  - assert (len = n) as Hlen by lia. rewrite Hlen in *. exists m1. split; [rewrite Z.sub_diag; done|]. unfold window. by rewrite take_app_le by (rewrite length_drop; lia).
Qed.

(** A request to read, of the selected entry or of the entry it selects. *)
Definition read_control (sel : option Z) : Z := match sel with Some key => Z.lor (Z.shiftl key 16) 0x0a | None => 0x02 end.
Definition read_request (sel : option Z) (n a : Z) : list Z := be_bytes 4 (read_control sel) ++ be_bytes 4 n ++ be_bytes 8 a.
Definition dma_port (p : platform) : Z := match p with FwCfgIO => 4 | FwCfgMem => 16 end.

Lemma control_low key b c : is_u16 key -> is_u16 b -> Z.land (Z.lor (Z.shiftl key 16) c) b = Z.land c b.
Proof.
  intros Hk Hb. rewrite Z.land_lor_distr_l. replace (Z.land (Z.shiftl key 16) b) with 0; [apply Z.lor_0_l|]. symmetry.
  apply Z.bits_inj'. intros i Hi. rewrite Z.land_spec, Z.testbit_0_l. destruct (Z.ltb_spec i 16).
  - rewrite Z.shiftl_spec_low by lia. done.
  - by rewrite (testbit_above 16 b), andb_false_r by (done || lia).
Qed.
Lemma read_control_spec sel : from_option is_u16 True sel ->
  is_u32 (read_control sel) /\ bit_set (read_control sel) FW_CFG_DMA_CTL_READ = true /\ bit_set (read_control sel) FW_CFG_DMA_CTL_WRITE = false /\ bit_set (read_control sel) FW_CFG_DMA_CTL_SKIP = false /\
  bit_set (read_control sel) FW_CFG_DMA_CTL_SELECT = match sel with Some _ => true | None => false end /\ (forall key, sel = Some key -> wshr 32 (read_control sel) 16 = key).
Proof.
  destruct sel as [key|]; cbn; intros Hk; [|split_and!; done]. unfold bit_set. rewrite !control_low by (done || (unfold inW, FW_CFG_DMA_CTL_READ, FW_CFG_DMA_CTL_WRITE, FW_CFG_DMA_CTL_SKIP, FW_CFG_DMA_CTL_SELECT; lia)).
  split_and!; [|done..|].
  - apply lor_inW; [lia| |unfold inW; lia]. rewrite Z.shiftl_mul_pow2 by lia. unfold inW in *. lia.
  - intros ? [= <-]. unfold wshr. change (16 `mod` 32) with 16. rewrite Z.shiftr_lor, Z.shiftr_shiftl_l by lia. change (Z.shiftr 10 16) with 0. by rewrite Z.lor_0_r, Z.shiftl_0_r.
Qed.
Lemma request_fields sel n a : is_u32 (read_control sel) -> is_u32 n -> is_u64 a ->
  be_val (slice (read_request sel n a) 0 4) = read_control sel /\ be_val (slice (read_request sel n a) 4 4) = n /\ be_val (slice (read_request sel n a) 8 8) = a.
Proof.
  intros Hc Hn Ha. unfold read_request, slice. rewrite drop_0, take_app_length' by (by rewrite be_bytes_length). rewrite drop_app_length', take_app_length' by (by rewrite be_bytes_length).
  rewrite app_assoc, drop_app_length' by (by rewrite length_app, !be_bytes_length). rewrite take_ge by (by rewrite be_bytes_length).
  rewrite !be_val_be_bytes, !Z.mod_small by done. done.
Qed.

Lemma put_same e s : cur_entries s !! Z.to_nat (cur_key s) = Some e -> put_entry e s = s.
Proof.
  intros He. unfold put_entry. rewrite list_insert_id by done. unfold set_cur_entries, cur_entries. destruct s. cbn. by destruct (is_arch_local _).
Qed.

(** C16: A DMA read is carried out exactly.  For a request in guest memory to read
    [n] bytes to [a], of the entry selected before or by the request itself, the
    register write that starts it succeeds; memory then holds at [a] the next [n]
    bytes of the entry, with zeroes beyond its end, and a zero control word at the
    request, and is otherwise unchanged, as the entries are; the offset is advanced.
    The selection before the request must not be invalid. *)
Theorem fwcfg_dma_read p sel n a addr s s1 e o m :
  fw_ok s -> cur_entry s <> FW_CFG_INVALID -> from_option is_u16 True sel ->
  match sel with Some key => select_entry key (set_dma_addr 0 s) | None => Ok (set_dma_addr 0 s) end = Ok s1 ->
  get_entry_mut s1 = Ok e -> entry_ok e -> cur_offset s1 = Z.of_nat o ->
  0 < n < 2 ^ 32 -> 0 <= a -> a + n < 2 ^ 64 -> (forall x, a <= x < a + n -> dm_ram x) ->
  0 <= addr -> addr + 16 < 2 ^ 64 -> (forall x, addr <= x < addr + 16 -> dm_ram x) ->
  ztab (dm_byte m) addr 16 = read_request sel n a ->
  exists m', write p (be_bytes 8 addr) (dma_port p) (s, m) = ((at_offset (advance (data e) o (Z.to_nat n)) s1, m'), Ok true) /\
    forall x, dm_ram x -> dm_byte m' x =
      if (addr <=? x) && (x <? addr + 4) then 0
      else if (a <=? x) && (x <? a + n) then default 0 (window (data e) o (Z.to_nat n) !! Z.to_nat (x - a)) else dm_byte m x.
Proof.
  intros Hs Hcur Hsel Hs1 He Hok Ho Hn Ha Hw Hr Had Hwd Hrd Hreq.
  destruct (read_control_spec sel Hsel) as (Hc & Bread & Bwrite & Bskip & Bsel & Hkey). destruct (request_fields sel n a Hc) as (F1 & F2 & F3); [unfold inW; lia..|].
  assert (write p (be_bytes 8 addr) (dma_port p) (s, m) = match handle_dma_request (set_dma_addr addr s, m) with (w, Panic) => (w, Panic) | (w, r) => (w, Ok (is_ok r)) end) as ->.
  { assert (reg_value (be_bytes 8 addr) = addr) as Ev.
    { unfold reg_value. rewrite be_bytes_length, bool_decide_true by set_solver. rewrite be_val_be_bytes, Z.mod_small; [done|]. change (8 * Z.of_nat 8) with 64. lia. }
    destruct p; unfold write, write_io, write_mem, dma_access, dma_port; cbn [Z.leb Z.compare Pos.compare Pos.compare_cont andb]; by rewrite be_bytes_length, Ev. }
  unfold handle_dma_request. cbn [dma_addr set_dma_addr cur_entry]. change (set_dma_addr 0 (set_dma_addr addr s)) with (set_dma_addr 0 s).
  rewrite (dm_read_ram addr 16 m) by (done || lia). change (Z.to_nat 16) with 16%nat. rewrite Hreq, F1, F2, F3, Bsel, Bread, Bwrite, Bskip.
  replace (if match sel with Some _ => true | None => false end then _ else _) with (@Ok LegacyError FwCfgCommon s1) by (rewrite <-Hs1; destruct sel as [key|]; [by rewrite (Hkey key)|done]).
  rewrite He, Ho. destruct (dma_read_loop (cur_entry s) e o n a m (calls s1)) as (m1 & -> & Hm1); [done..|]. cbn [dentry offset control dcalls].
  assert (fw_ok s1) as Hok1.
  { assert (fw_ok (set_dma_addr 0 s)) as Hs0 by (eapply fw_kept_ok; [exact Hs|done|apply Hs|apply Hs|cbn; unfold inW; lia|apply Hs]).
    destruct sel as [key|]; [|by injection Hs1 as <-]. destruct (select_entry_safe key _ Hs0 Hsel) as (s' & E & _ & H'). rewrite Hs1 in E. by injection E as <-. }
  pose proof (get_entry_safe s1 Hok1) as Hg. rewrite He in Hg. rewrite (put_same e s1 Hg).
  unfold write_dma_result, unchecked_add. rewrite (wadd_small 64 addr 0), Z.add_0_r by (unfold inW; lia).
  destruct (dm_write_after (be_bytes 4 0) addr 4 m1) as (m2 & -> & Hm2); [done|lia|lia|intros; apply Hrd; lia|rewrite be_bytes_length; lia|].
  exists m2. split; [done|]. intros x Hx. rewrite (Hm2 x Hx), (Hm1 x Hx), window_length, length_take, be_bytes_length, Z2Nat.id by lia.
  change (Z.of_nat (Nat.min (Z.to_nat 4) 4)) with 4. destruct ((addr <=? x) && (x <? addr + 4)) eqn:E; [|done]. rewrite be_bytes_zero. apply andb_true_iff in E as [E1 E2].
  rewrite lookup_take_lt by lia. by rewrite lookup_replicate_2 by lia.
Qed.
End guest.

(** ** A device and its memory *)

Definition realized : FwCfgCommon := Eval vm_compute in match common_realize FwCfgCommon_new with Ok s => s | _ => FwCfgCommon_new end.
Lemma all_bytes_check s : forallb (fun e => forallb (fun b => (0 <=? b) && (b <? 256)) (data e)) (entries s ++ arch_entries s) = true -> all_bytes s.
Proof.
  intros H. apply Is_true_true, forallb_True, Forall_app in H as [H1 H2].
  split; [eapply Forall_impl; [exact H1|]|eapply Forall_impl; [exact H2|]]; intros e He; apply forallb_True in He; (eapply Forall_impl; [exact He|]); intros b Hb;
    apply Is_true_true, andb_true_iff in Hb as [? ?]; unfold inW; cbn; lia.
Qed.
Lemma realized_ok : fw_ok realized.
Proof. split_and!; [done|cbn; lia|cbn; lia|split; done|done|split; done|]. apply all_bytes_check. vm_compute. reflexivity. Qed.

(** "bootorder" *)
Definition bootorder : list Z := [98; 111; 111; 116; 111; 114; 100; 101; 114].
Definition ex_ops : list setup_op := [AddEntry NbCpus (le_bytes 2 4); AddFile bootorder [47; 97]; AddFile [101; 116; 99; 47; 97] [1; 2; 3]; ModifyFile bootorder [47; 98; 0]].

#[local] Existing Instance ex_memory.
#[local] Existing Instance ex_laws.

Ltac small_bytes := repeat (apply Forall_cons; split; [unfold inW; lia|]); apply Forall_nil_2.

Lemma fwcfg_files_found_witness :
  exists s, (s ← common_realize FwCfgCommon_new; run_setup ex_ops s) = Ok s /\
    (exists s', lookup_file FwCfgIO bootorder (s, memory_with 0 []) = Ok ((s', memory_with 0 []), Some [47; 98; 0]) /\ same_content s s') /\
    (exists s', lookup_file FwCfgIO [98] (s, memory_with 0 []) = Ok ((s', memory_with 0 []), None) /\ same_content s s').
Proof.
  destruct (fwcfg_files_found FwCfgIO ex_ops (memory_with 0 [])) as (s & Hs & H).
  - cbn [ex_ops setup_all_ok setup_ok spec_step].
    assert (forall (m : contents) nm l, map_to_list m = l -> Forall (fun x => take (length nm) (pad x.1) <> nm) l -> forall nm', is_Some (m !! nm') -> take (length nm) (pad nm') <> nm) as Hfresh.
    { intros m nm l <- Hl nm' [d Hd]. apply elem_of_map_to_list in Hd. eapply Forall_forall in Hl; [|exact Hd]. exact Hl. }
    split_and!; try done; try (vm_compute; lia); try (split; split; [small_bytes|cbn; lia|small_bytes|cbn; lia]); try (vm_compute; by eexists); try (split; [small_bytes|cbn; lia]).
    + eapply Hfresh; [vm_compute; reflexivity|]. repeat (apply Forall_cons; split; [done|]). apply Forall_nil_2.
    + eapply Hfresh; [vm_compute; reflexivity|]. repeat (apply Forall_cons; split; [done|]). apply Forall_nil_2.
  - exists s. split; [done|]. split.
    + apply H. split; [repeat (apply Forall_cons; split; [lia|]); apply Forall_nil_2|cbn; lia].
    + apply H. split; [repeat (apply Forall_cons; split; [lia|]); apply Forall_nil_2|cbn; lia].
Defined.

(** A request at [0x100] to read the eight bytes from the start of the signature to [0x200]. *)
Definition ex_read : Mach bool := memory_with 0x100 (read_request (Some 0) 8 0x200).

Lemma ex_read_ok : dm_ok ex_read.
Proof. apply memory_with_ok. unfold read_request. apply Forall_app; split; [apply be_bytes_is_bytes|apply Forall_app; split; apply be_bytes_is_bytes]. Qed.

(** A request to copy the signature to a register that does not return. *)
Definition ex_trap : Mach bool := memory_with 0x100 (read_request (Some 0) 8 0x2900).

Lemma fwcfg_guest_safe_witness :
  (exists s' m', guest_run FwCfgMem [GWrite [0; 25] 8; GRead [0; 0; 0; 0] 0; GWrite (be_bytes 8 0x100) 16; GReset] (realized, ex_read) = ((s', m'), Ok tt) /\ kept realized s' /\ fw_ok s') /\
  (exists s' m', guest_run FwCfgMem [GWrite (be_bytes 8 0x100) 16] (realized, ex_trap) = ((s', m'), Panic) /\ dm_stuck m').
Proof.
  split.
  - pose proof (fwcfg_guest_safe FwCfgMem [GWrite [0; 25] 8; GRead [0; 0; 0; 0] 0; GWrite (be_bytes 8 0x100) 16; GReset] realized ex_read realized_ok ex_read_ok) as H.
    destruct (guest_run _ _ _) as [[s' m'] r] eqn:E. assert (r = Ok tt) as -> by (apply (f_equal snd) in E; vm_compute in E; by rewrite <-E).
    exists s', m'. split; [done|]. destruct H as (H1 & H2 & _); [|by split].
    repeat (apply Forall_cons; split; [first [exact I|apply be_bytes_is_bytes|small_bytes]|]). apply Forall_nil_2.
  - pose proof (fwcfg_guest_safe FwCfgMem [GWrite (be_bytes 8 0x100) 16] realized ex_trap realized_ok) as H.
    destruct (guest_run _ _ _) as [[s' m'] r] eqn:E. assert (r = Panic) as -> by (apply (f_equal snd) in E; vm_compute in E; by rewrite <-E).
    exists s', m'. split; [done|]. apply H; [|apply Forall_singleton, be_bytes_is_bytes].
    apply memory_with_ok. unfold read_request. apply Forall_app; split; [apply be_bytes_is_bytes|apply Forall_app; split; apply be_bytes_is_bytes].
Defined.

Lemma fwcfg_dma_read_witness :
  exists m', write FwCfgIO (be_bytes 8 0x100) 4 (realized, ex_read) = ((at_offset 4 realized, m'), Ok true) /\ dm_byte m' 0x201 = 69 /\ dm_byte m' 0x205 = 0.
Proof.
  destruct (fwcfg_dma_read FwCfgIO (Some 0) 8 0x200 0x100 realized realized (mkEntry [81; 69; 77; 85] None None false) 0 ex_read) as (m' & E & Hm').
  - exact realized_ok.
  - done.
  - split; done.
  - vm_compute. reflexivity.
  - vm_compute. reflexivity.
  - split; [small_bytes|cbn; lia].
  - reflexivity.
  - lia.
  - lia.
  - lia.
  - apply ex3_range; lia.
  - lia.
  - lia.
  - apply ex3_range; lia.
  - vm_compute. reflexivity.
  - exists m'. split_and!; [exact E| |]; (rewrite Hm'; [vm_compute; reflexivity|]); (split; [lia|]; rewrite ex3_host by lia; vm_compute; by eexists).
Defined.

(** ** Where the code does not do what it means to *)

(** The table an architecture specific entry is added to follows what is selected,
    not its key: the interrupt override of the x86 machine replaces the UUID, and its
    own key stays empty. *)
Example irq0_override_misplaced :
  match add_data_entry Irq0Override (le_bytes 4 1) realized with
  | Ok s => data <$> entries s !! 2%nat = Some [1; 0; 0; 0] /\ data <$> arch_entries s !! 2%nat = Some [] /\
      (s1 ← select_entry (entry_key Irq0Override) s; '(_, v) ← read_data_reg 4 s1; Ok v) = Ok 0
  | _ => False
  end.
Proof. vm_compute. done. Qed.

Definition start_dma (m : Mach bool) (s : FwCfgCommon) := write FwCfgIO (be_bytes 8 0x100) 4 (s, m).
Definition request (ctl n a : Z) : list Z := be_bytes 4 ctl ++ be_bytes 4 n ++ be_bytes 8 a.

(** A DMA write to an entry that may not be written is reported as an error, but has
    changed the entry. *)
Example read_only_entry_written :
  let '((s, m), r) := start_dma (memory_with 0x100 (request 0x18 4 0x200)) realized in
  data <$> entries s !! 0%nat = Some [0; 0; 0; 0] /\ allow_write <$> entries s !! 0%nat = Some false /\ guest_at 0x100 4 m = be_bytes 4 FW_CFG_DMA_CTL_ERROR /\ r = Ok true.
Proof. vm_compute. done. Qed.

(** A request that selects an entry reads zeroes if the selection before it was
    invalid. *)
Example stale_selection_reads_zero :
  match select_entry 0x3fff realized with
  | Ok s => let '((s, m), r) := start_dma (memory_with 0x100 (request 0x0a 4 0x200)) s in
      guest_at 0x200 4 m = [0; 0; 0; 0] /\ guest_at 0x100 4 m = [0; 0; 0; 0] /\ cur_entry s = 0
  | _ => False
  end.
Proof. vm_compute. done. Qed.

(** Skipping does not advance the offset. *)
Example skip_does_not_skip :
  let '((s, m), r) := start_dma (memory_with 0x100 (request 0x0c 2 0)) realized in cur_offset s = 0 /\ r = Ok true.
Proof. vm_compute. done. Qed.

(** A request for an invalid selection is never answered: its control word stays. *)
Example invalid_selection_unanswered :
  match select_entry 0x3fff realized with
  | Ok s => let '((s, m), r) := start_dma (memory_with 0x100 (request 0x02 4 0x200)) s in guest_at 0x100 4 m = be_bytes 4 2 /\ r = Ok false
  | _ => False
  end.
Proof. vm_compute. done. Qed.

(** A name that is a prefix of another is refused as its duplicate, a long one
    panics, and with all slots in use no file can be changed any more. *)
Definition fill (n : nat) : list setup_op := map (fun i => AddFile [120; 65 + Z.of_nat i] []) (seq 0 n).
Example prefix_is_duplicate : (add_file_entry (take 13 boot_fail_wait) [] realized).2 = Err (DuplicateFile (take 13 boot_fail_wait)).
Proof. vm_compute. done. Qed.
Example long_name_panics : (add_file_entry (replicate 57 65) [] realized).2 = Panic.
Proof. vm_compute. done. Qed.
Example full_directory_is_frozen :
  match run_setup (fill 31) realized with Ok s => (modify_file_entry boot_fail_wait [1] s).2 = Err (FileSlotsNotAvailable boot_fail_wait) | _ => False end.
Proof. vm_compute. done. Qed.
