(* ===== verification/XhciRing.v ===== *)
(** * The rings of the xHCI controller ([devices/src/usb/xhci/xhci_ring.rs])

    Command and transfer rings, from which the controller fetches the work of the
    driver, and the interrupter with its event ring ([xhci_regs.rs]), through which
    it reports back.  All of them are in guest memory, an instance of [DmaMemory]. *)
From stdpp Require Import prelude list list_numbers.
From Stdlib Require Import ZArith Lia.
From S2P Require Import Prelude NumOps Address Region FlatView DmaMemory.

(** ** Transfer request blocks ([xhci_trb.rs]) *)

Definition TRB_SIZE : Z := 16.
Definition TRB_TYPE_SHIFT : Z := 10.
Definition TRB_TYPE_MASK : Z := 0x3f.
Definition TRB_C : Z := 1.
Definition TRB_LK_TC : Z := 2.
Definition TRB_TR_CH : Z := 16.
Definition TRB_LINK_LIMIT : Z := 32.
Definition RING_SEGMENT_LIMIT : Z := 0x10000.
Definition RING_LEN_LIMIT : Z := TRB_LINK_LIMIT * RING_SEGMENT_LIMIT / TRB_SIZE.

Inductive TRBType :=
| TrbReserved | TrNormal | TrSetup | TrData | TrStatus | TrIsoch | TrLink | TrEvdata | TrNoop
| CrEnableSlot | CrDisableSlot | CrAddressDevice | CrConfigureEndpoint | CrEvaluateContext
| CrResetEndpoint | CrStopEndpoint | CrSetTrDequeue | CrResetDevice | CrForceEvent
| CrNegotiateBw | CrSetLatencyTolerance | CrGetPortBandwidth | CrForceHeader | CrNoop
| ErTransfer | ErCommandComplete | ErPortStatusChange | ErBandwidthRequest | ErDoorbell
| ErHostController | ErDeviceNotification | ErMfindexWrap | Unknown.
#[export] Instance TRBType_eq_dec : EqDecision TRBType.
Proof. solve_decision. Defined.

Definition trb_type_from (t : Z) : TRBType :=
  match t with
  | 0 => TrbReserved | 1 => TrNormal | 2 => TrSetup | 3 => TrData | 4 => TrStatus | 5 => TrIsoch
  | 6 => TrLink | 7 => TrEvdata | 8 => TrNoop | 9 => CrEnableSlot | 10 => CrDisableSlot
  | 11 => CrAddressDevice | 12 => CrConfigureEndpoint | 13 => CrEvaluateContext
  | 14 => CrResetEndpoint | 15 => CrStopEndpoint | 16 => CrSetTrDequeue | 17 => CrResetDevice
  | 18 => CrForceEvent | 19 => CrNegotiateBw | 20 => CrSetLatencyTolerance
  | 21 => CrGetPortBandwidth | 22 => CrForceHeader | 23 => CrNoop | 32 => ErTransfer
  | 33 => ErCommandComplete | 34 => ErPortStatusChange | 35 => ErBandwidthRequest
  | 36 => ErDoorbell | 37 => ErHostController | 38 => ErDeviceNotification | 39 => ErMfindexWrap
  | _ => Unknown
  end.
(** [as u32] *)
Definition trb_type_code (t : TRBType) : Z :=
  match t with
  | TrbReserved => 0 | TrNormal => 1 | TrSetup => 2 | TrData => 3 | TrStatus => 4 | TrIsoch => 5
  | TrLink => 6 | TrEvdata => 7 | TrNoop => 8 | CrEnableSlot => 9 | CrDisableSlot => 10
  | CrAddressDevice => 11 | CrConfigureEndpoint => 12 | CrEvaluateContext => 13
  | CrResetEndpoint => 14 | CrStopEndpoint => 15 | CrSetTrDequeue => 16 | CrResetDevice => 17
  | CrForceEvent => 18 | CrNegotiateBw => 19 | CrSetLatencyTolerance => 20
  | CrGetPortBandwidth => 21 | CrForceHeader => 22 | CrNoop => 23 | ErTransfer => 32
  | ErCommandComplete => 33 | ErPortStatusChange => 34 | ErBandwidthRequest => 35
  | ErDoorbell => 36 | ErHostController => 37 | ErDeviceNotification => 38 | ErMfindexWrap => 39
  | Unknown => 40
  end.

Record XhciTRB := mkTRB { parameter : Z; status : Z; control : Z; addr : Z; tccs : bool }.
Definition get_type (t : XhciTRB) : TRBType := trb_type_from (Z.land (wshr 32 (control t) TRB_TYPE_SHIFT) TRB_TYPE_MASK).
Definition has (v b : Z) : bool := Z.land v b =? b.

Inductive UsbError := MemoryAccessOverflow (a size : Z) | DmaFailed (a len : Z) | LinkLimit | LengthLimit | InvalidSegment (size : Z) | OutOfRange.

(** ** Events *)

Inductive TRBCCode :=
| Invalid | Success | DataBufferError | BabbleDetected | UsbTransactionError | TrbError | StallError | ResourceError
| BandwidthError | NoSlotsError | InvalidStreamTypeError | SlotNotEnabledError | EpNotEnabledError | ShortPacket
| RingUnderrun | RingOverrun | VfErFull | ParameterError | BandwidthOverrun | ContextStateError | NoPingResponseError
| EventRingFullError | IncompatibleDeviceError | MissedServiceError | CommandRingStopped | CommandAborted | Stopped
| StoppedLengthInvalid | MaxExitLatencyTooLargeError | IsochBufferOverrun | EventLostError | UndefinedError
| InvalidStreamIdError | SecondaryBandwidthError | SplitTransactionError.
Definition ccode_code (c : TRBCCode) : Z :=
  match c with
  | Invalid => 0 | Success => 1 | DataBufferError => 2 | BabbleDetected => 3 | UsbTransactionError => 4 | TrbError => 5
  | StallError => 6 | ResourceError => 7 | BandwidthError => 8 | NoSlotsError => 9 | InvalidStreamTypeError => 10
  | SlotNotEnabledError => 11 | EpNotEnabledError => 12 | ShortPacket => 13 | RingUnderrun => 14 | RingOverrun => 15
  | VfErFull => 16 | ParameterError => 17 | BandwidthOverrun => 18 | ContextStateError => 19 | NoPingResponseError => 20
  | EventRingFullError => 21 | IncompatibleDeviceError => 22 | MissedServiceError => 23 | CommandRingStopped => 24
  | CommandAborted => 25 | Stopped => 26 | StoppedLengthInvalid => 27 | MaxExitLatencyTooLargeError => 29
  | IsochBufferOverrun => 31 | EventLostError => 32 | UndefinedError => 33 | InvalidStreamIdError => 34
  | SecondaryBandwidthError => 35 | SplitTransactionError => 36
  end.

Record XhciEvent := mkEvent { ev_type : TRBType; ccode : TRBCCode; ptr : Z; elength : Z; flags : Z; slot_id : Z; ep_id : Z }.
Definition XhciEvent_new (t : TRBType) (c : TRBCCode) : XhciEvent := mkEvent t c 0 0 0 0 0.
Definition to_trb (e : XhciEvent) : XhciTRB :=
  mkTRB (ptr e) (Z.lor (elength e) (wshl 32 (ccode_code (ccode e)) 24))
    (Z.lor (Z.lor (Z.lor (wshl 32 (slot_id e) 24) (wshl 32 (ep_id e) 16)) (flags e)) (wshl 32 (trb_type_code (ev_type e)) TRB_TYPE_SHIFT)) 0 false.

Definition IMAN_IP : Z := 1.
Definition IMAN_IE : Z := 2.
Definition ERDP_EHB : Z := 8.
Definition USB_CMD_INTE : Z := 4.
Definition USB_STS_EINT : Z := 8.

(** [usb_cmd] and [usb_status] are the operational registers the interrupter
    shares; [raised] logs the calls of its callback. *)
Record XhciInterrupter := mkIntr {
  id : Z;
  iman : Z;
  imod : Z;
  erstsz : Z;
  erstba : Z;
  erdp : Z;
  er_pcs : bool;
  er_start : Z;
  er_size : Z;
  er_ep_idx : Z;
  usb_cmd : Z;
  usb_status : Z;
  raised : list (Z * Z)
}.
Definition XhciInterrupter_new (i : Z) : XhciInterrupter := mkIntr i 0 0 0 0 0 true 0 0 0 0 0 [].
Definition intr_reset (i : XhciInterrupter) : XhciInterrupter := mkIntr (id i) 0 0 0 0 0 true 0 0 0 (usb_cmd i) (usb_status i) (raised i).
Definition set_iman v i := mkIntr (id i) v (imod i) (erstsz i) (erstba i) (erdp i) (er_pcs i) (er_start i) (er_size i) (er_ep_idx i) (usb_cmd i) (usb_status i) (raised i).
Definition set_imod v i := mkIntr (id i) (iman i) v (erstsz i) (erstba i) (erdp i) (er_pcs i) (er_start i) (er_size i) (er_ep_idx i) (usb_cmd i) (usb_status i) (raised i).
Definition set_erstsz v i := mkIntr (id i) (iman i) (imod i) v (erstba i) (erdp i) (er_pcs i) (er_start i) (er_size i) (er_ep_idx i) (usb_cmd i) (usb_status i) (raised i).
Definition set_erstba v i := mkIntr (id i) (iman i) (imod i) (erstsz i) v (erdp i) (er_pcs i) (er_start i) (er_size i) (er_ep_idx i) (usb_cmd i) (usb_status i) (raised i).
Definition set_erdp v i := mkIntr (id i) (iman i) (imod i) (erstsz i) (erstba i) v (er_pcs i) (er_start i) (er_size i) (er_ep_idx i) (usb_cmd i) (usb_status i) (raised i).
Definition set_ring st sz i := mkIntr (id i) (iman i) (imod i) (erstsz i) (erstba i) (erdp i) (er_pcs i) st sz (er_ep_idx i) (usb_cmd i) (usb_status i) (raised i).
Definition set_index x pcs i := mkIntr (id i) (iman i) (imod i) (erstsz i) (erstba i) (erdp i) pcs (er_start i) (er_size i) x (usb_cmd i) (usb_status i) (raised i).
Definition enable_intr i := mkIntr (id i) (iman i) (imod i) (erstsz i) (erstba i) (erdp i) (er_pcs i) (er_start i) (er_size i) (er_ep_idx i) (usb_cmd i) (Z.lor (usb_status i) USB_STS_EINT) (raised i).
Definition log_raised v i := mkIntr (id i) (iman i) (imod i) (erstsz i) (erstba i) (erdp i) (er_pcs i) (er_start i) (er_size i) (er_ep_idx i) (usb_cmd i) (usb_status i) (raised i ++ [v]).

Definition oper_intr_enabled (i : XhciInterrupter) : bool := has (usb_cmd i) USB_CMD_INTE.

(** [interrupt_cb]; a callback that returns true took the interrupt. *)
Definition call_cb (cb : option (Z -> Z -> bool)) (n level : Z) (i : XhciInterrupter) : XhciInterrupter :=
  match cb with
  | Some f => let i := log_raised (n, level) i in if f n level then set_iman (Z.land (iman i) (wnot 32 IMAN_IP)) i else i
  | None => i
  end.
Definition send_intr (cb : option (Z -> Z -> bool)) (i : XhciInterrupter) : XhciInterrupter :=
  let pending := has (read_u32 (erdp i) 0) ERDP_EHB in
  let erdp_low := Z.lor (read_u32 (erdp i) 0) ERDP_EHB in
  let i := set_erdp (write_u64_low (erdp i) erdp_low) i in
  let i := set_iman (Z.lor (iman i) IMAN_IP) i in
  let i := enable_intr i in
  if pending then i
  else if negb (has (iman i) IMAN_IE) then i
  else if negb (oper_intr_enabled i) then i
  else call_cb cb (id i) 1 i.
Definition update_intr (cb : option (Z -> Z -> bool)) (i : XhciInterrupter) : XhciInterrupter :=
  if id i =? 0 then
    let level := if has (iman i) IMAN_IP && has (iman i) IMAN_IE && oper_intr_enabled i then 1 else 0 in
    call_cb cb 0 level i
  else i.

Section rings.
Context {M : Type} `{!DmaMemory M}.

(** ** Access to memory ([xhci_controller.rs]) *)

Definition dma_read_bytes (a len : Z) : sres M UsbError (list Z) := fun m =>
  match dm_read a len m with
  | (m, Ok d) => (m, Ok d)
  | (m, Err _) => (m, Err (DmaFailed a len))
  | (m, Panic) => (m, Panic)
  end.
Definition dma_write_bytes (a : Z) (bytes : list Z) : sres M UsbError unit := fun m =>
  match dm_write bytes a (Z.of_nat (length bytes)) m with
  | (m, Ok _) => (m, Ok tt)
  | (m, Err _) => (m, Err (DmaFailed a (Z.of_nat (length bytes))))
  | (m, Panic) => (m, Panic)
  end.
Definition dma_read_u32 (a : Z) (n : nat) : sres M UsbError (list Z) :=
  d ← dma_read_bytes a (4 * Z.of_nat n); mret (map (fun i => le_val (slice d (4 * i) 4)) (seq 0 n)).
Definition dma_write_u32 (a : Z) (buf : list Z) : sres M UsbError unit := dma_write_bytes a (concat (map (le_bytes 4) buf)).
Definition addr64_from_u32 (low high : Z) : Z := Z.lor (wshl 64 (wshl 32 high 16) 16) low.

Definition read_trb (a : Z) : sres M UsbError XhciTRB :=
  buf ← dma_read_bytes a TRB_SIZE;
  mret (mkTRB (le_val (slice buf 0 8)) (le_val (slice buf 8 4)) (le_val (slice buf 12 4)) 0 true).
Definition read_cycle_bit (a : Z) : sres M UsbError bool :=
  a ← slift (ok_or (checked_add 64 a 12) (MemoryAccessOverflow a 12));
  buf ← dma_read_u32 a 1;
  mret (has (nth 0 buf 0) TRB_C).

(** ** Command ring *)

Record XhciCommandRing := mkCmdRing { dequeue : Z; ccs : bool }.
Definition XhciCommandRing_new : XhciCommandRing := mkCmdRing 0 true.
Definition cmd_init (a : Z) (r : XhciCommandRing) : XhciCommandRing := mkCmdRing a true.
Definition cmd_set_cycle_bit (v : bool) (r : XhciCommandRing) : XhciCommandRing := mkCmdRing (dequeue r) v.

(** Where a link leads. *)
Definition follow (t : XhciTRB) (c : bool) : Z * bool := (parameter t, if has (control t) TRB_LK_TC then negb c else c).

Fixpoint fetch_trb_loop (fuel : nat) (link_cnt : Z) (r : XhciCommandRing) (m : M) : XhciCommandRing * M * res UsbError (option XhciTRB) :=
  match fuel with
  | O => (r, m, Panic)
  | S fuel =>
    match read_cycle_bit (dequeue r) m with
    | (m, Ok b) =>
      if negb (Bool.eqb b (ccs r)) then (r, m, Ok None)
      else match read_trb (dequeue r) m with
      | (m, Ok t) =>
        let t := mkTRB (parameter t) (status t) (control t) (dequeue r) (ccs r) in
        if bool_decide (get_type t = TrLink) then
          let link_cnt := link_cnt + 1 in
          if TRB_LINK_LIMIT <? link_cnt then (r, m, Err LinkLimit)
          else fetch_trb_loop fuel link_cnt (mkCmdRing (follow t (ccs r)).1 (follow t (ccs r)).2) m
        else match checked_add 64 (dequeue r) TRB_SIZE with
             | Some d => (mkCmdRing d (ccs r), m, Ok (Some t))
             | None => (r, m, Err (MemoryAccessOverflow (dequeue r) TRB_SIZE))
             end
      | (m, Err e) => (r, m, Err e)
      | (m, Panic) => (r, m, Panic)
      end
    | (m, Err e) => (r, m, Err e)
    | (m, Panic) => (r, m, Panic)
    end
  end.
(** Every turn but the last follows a link, and one link more than the limit is
    an error. *)
Definition fetch_trb (r : XhciCommandRing) (m : M) : XhciCommandRing * M * res UsbError (option XhciTRB) :=
  fetch_trb_loop (Z.to_nat TRB_LINK_LIMIT + 2) 0 r m.

(** ** Transfer ring *)

Record XhciTransferRing := mkTrRing { tr_dequeue : Z; tr_ccs : bool; output_ctx_addr : Z }.
Definition XhciTransferRing_new (a : Z) : XhciTransferRing := mkTrRing 0 true a.
Definition tr_init (a : Z) (r : XhciTransferRing) : XhciTransferRing := mkTrRing a true (output_ctx_addr r).

Fixpoint fetch_td_loop (n : nat) (deq : Z) (c ctrl_td : bool) (link_cnt : Z) (td : list XhciTRB) : sres M UsbError (option (list XhciTRB * Z * bool)) :=
  match n with
  | O => sfail LengthLimit
  | S n =>
    b ← read_cycle_bit deq;
    if negb (Bool.eqb b c) then mret None
    else
      t ← read_trb deq;
      let t := mkTRB (parameter t) (status t) (control t) deq c in
      if bool_decide (get_type t = TrLink) then
        let link_cnt := link_cnt + 1 in
        if TRB_LINK_LIMIT <? link_cnt then sfail LinkLimit
        else fetch_td_loop n (follow t c).1 (follow t c).2 ctrl_td link_cnt td
      else
        let td := td ++ [t] in
        deq' ← slift (ok_or (checked_add 64 deq TRB_SIZE) (MemoryAccessOverflow deq TRB_SIZE));
        let ctrl_td := if bool_decide (get_type t = TrSetup) then true else if bool_decide (get_type t = TrStatus) then false else ctrl_td in
        if negb ctrl_td && negb (has (control t) TRB_TR_CH) then mret (Some (td, deq', c))
        else fetch_td_loop n deq' c ctrl_td link_cnt td
  end.
Definition fetch_td_limit (n : nat) (r : XhciTransferRing) (m : M) : XhciTransferRing * M * res UsbError (option (list XhciTRB)) :=
  match fetch_td_loop n (tr_dequeue r) (tr_ccs r) false 0 [] m with
  | (m, Ok (Some (td, d, c))) => (mkTrRing d c (output_ctx_addr r), m, Ok (Some td))
  | (m, Ok None) => (r, m, Ok None)
  | (m, Err e) => (r, m, Err e)
  | (m, Panic) => (r, m, Panic)
  end.
Definition fetch_td : XhciTransferRing -> M -> XhciTransferRing * M * res UsbError (option (list XhciTRB)) :=
  fetch_td_limit (Z.to_nat RING_LEN_LIMIT).

(** An endpoint context is five dwords, the dequeue pointer the third and fourth. *)
Definition update_dequeue_to_ctx (r : XhciTransferRing) (ctx : list Z) : list Z :=
  <[3%nat := wrap 32 (wshr 64 (tr_dequeue r) 32)]> (<[2%nat := Z.lor (wrap 32 (tr_dequeue r)) (Z.b2z (tr_ccs r))]> ctx).
Definition refresh_dequeue_ptr (r : XhciTransferRing) : sres M UsbError unit :=
  ctx ← dma_read_u32 (output_ctx_addr r) 5;
  dma_write_u32 (output_ctx_addr r) (update_dequeue_to_ctx r ctx).

(** ** Event ring *)

Definition trb_bytes (t : XhciTRB) : list Z := le_bytes 8 (parameter t) ++ le_bytes 4 (status t) ++ le_bytes 4 (control t).

Definition write_trb (t : XhciTRB) (i : XhciInterrupter) : sres M UsbError unit :=
  let off := wmul 32 TRB_SIZE (er_ep_idx i) in
  a ← slift (ok_or (checked_add 64 (er_start i) off) (MemoryAccessOverflow (er_start i) off));
  let cycle := wrap 8 (control t) in
  let ctl := if has (control t) TRB_C then Z.land (control t) (wnot 32 TRB_C) else Z.lor (control t) TRB_C in
  _ ← dma_write_bytes a (trb_bytes (mkTRB (parameter t) (status t) ctl (addr t) (tccs t)));
  dma_write_bytes (wadd 64 a 12) [cycle].

Definition write_event (e : XhciEvent) (i : XhciInterrupter) (m : M) : XhciInterrupter * M * res UsbError unit :=
  let t := to_trb e in
  let t := if er_pcs i then mkTRB (parameter t) (status t) (Z.lor (control t) TRB_C) (addr t) (tccs t) else t in
  match write_trb t i m with
  | (m, Ok _) =>
    let idx := wadd 32 (er_ep_idx i) 1 in
    (if er_size i <=? idx then set_index 0 (negb (er_pcs i)) i else set_index idx (er_pcs i) i, m, Ok tt)
  | (m, Err x) => (i, m, Err x)
  | (m, Panic) => (i, m, Panic)
  end.

Definition send_event (cb : option (Z -> Z -> bool)) (e : XhciEvent) (i : XhciInterrupter) (m : M) : XhciInterrupter * M * res UsbError unit :=
  let len := wmul 32 TRB_SIZE (er_size i) in
  match checked_add 64 (er_start i) len with
  | None => (i, m, Err (MemoryAccessOverflow (er_start i) len))
  | Some er_end =>
    if (erdp i <? er_start i) || (er_end <=? erdp i) then (i, m, Err OutOfRange)
    else if er_size i =? 0 then (i, m, Panic)
    else
      let dp_idx := (erdp i - er_start i) / TRB_SIZE in
      let '(i, m, r) :=
        if wadd 32 (er_ep_idx i) 2 `mod` er_size i =? dp_idx then write_event (XhciEvent_new ErHostController EventRingFullError) i m
        else if wadd 32 (er_ep_idx i) 1 `mod` er_size i =? dp_idx then (i, m, Ok tt)
        else write_event e i m in
      match r with
      | Ok _ => (send_intr cb i, m, Ok tt)
      | _ => (i, m, r)
      end
  end.

Definition fetch_event_ring_seg (a : Z) : sres M UsbError (Z * Z * Z) :=
  buf ← dma_read_bytes a TRB_SIZE; mret (le_val (slice buf 0 4), le_val (slice buf 4 4), le_val (slice buf 8 4)).
Definition reset_event_ring (i : XhciInterrupter) (m : M) : XhciInterrupter * M * res UsbError unit :=
  if (erstsz i =? 0) || (erstba i =? 0) then (set_ring 0 0 i, m, Ok tt)
  else match fetch_event_ring_seg (erstba i) m with
  | (m, Ok (lo, hi, size)) =>
    if (size <? 16) || (4096 <? size) then (i, m, Err (InvalidSegment size))
    else (set_index 0 true (set_ring (addr64_from_u32 lo hi) size i), m, Ok tt)
  | (m, Err x) => (i, m, Err x)
  | (m, Panic) => (i, m, Panic)
  end.

(** Writes of the registers of an interrupter, by their offset in its block;
    whether the access succeeded. *)
Definition intr_write (cb : option (Z -> Z -> bool)) (offset value : Z) (i : XhciInterrupter) (m : M) : XhciInterrupter * M * res UsbError bool :=
  match offset with
  | 0x00 =>
    let i := if has value IMAN_IP then set_iman (Z.land (iman i) (wnot 32 IMAN_IP)) i else i in
    let i := set_iman (Z.lor (Z.land (iman i) (wnot 32 IMAN_IE)) (Z.land value IMAN_IE)) i in
    (update_intr cb i, m, Ok true)
  | 0x04 => (set_imod value i, m, Ok true)
  | 0x08 => (set_erstsz (Z.land value 0xffff) i, m, Ok true)
  | 0x10 => (set_erstba (write_u64_low (erstba i) (Z.land value 0xffffffc0)) i, m, Ok true)
  | 0x14 =>
    match reset_event_ring (set_erstba (write_u64_high (erstba i) value) i) m with
    | (i, m, Panic) => (i, m, Panic)
    | (i, m, _) => (i, m, Ok true)
    end
  | 0x18 =>
    let lo := Z.land value (wnot 32 ERDP_EHB) in
    let lo := if negb (has value ERDP_EHB) then Z.lor lo (Z.land (read_u32 (erdp i) 0) ERDP_EHB) else lo in
    let i := set_erdp (write_u64_low (erdp i) lo) i in
    if has value ERDP_EHB then
      match checked_add 64 (er_start i) (wmul 32 TRB_SIZE (er_size i)) with
      | None => (i, m, Ok false)
      | Some er_end =>
        if (er_start i <=? erdp i) && (erdp i <? er_end) && negb ((erdp i - er_start i) / TRB_SIZE =? er_ep_idx i)
        then (send_intr cb i, m, Ok true) else (i, m, Ok true)
      end
    else (i, m, Ok true)
  | 0x1c => (set_erdp (write_u64_high (erdp i) value) i, m, Ok true)
  | _ => (i, m, Ok true)
  end.
End rings.

(** ** Fetching what the driver queued *)

Section fetch.
Context {M : Type} `{!DmaMemory M} `{!DmaLaws M}.

Definition trb_ok (t : XhciTRB) : Prop := is_u64 (parameter t) /\ is_u32 (status t) /\ is_u32 (control t).
(** Sixteen bytes of memory from [a] hold a block. *)
Definition at_mem (m : M) (a : Z) (bytes : list Z) : Prop :=
  0 <= a /\ a + 16 < 2 ^ 64 /\ (forall x, a <= x < a + 16 -> dm_ram x) /\ ztab (dm_byte m) a 16 = bytes.

Lemma trb_bytes_fields t : trb_ok t ->
  le_val (slice (trb_bytes t) 0 8) = parameter t /\ le_val (slice (trb_bytes t) 8 4) = status t /\ slice (trb_bytes t) 12 4 = le_bytes 4 (control t).
Proof.
  intros (Hp & Hs & Hc). unfold trb_bytes, slice. rewrite drop_0, take_app_length' by (by rewrite le_bytes_length).
  rewrite drop_app_length', take_app_length' by (by rewrite le_bytes_length). rewrite app_assoc, drop_app_length' by (by rewrite length_app, !le_bytes_length).
  rewrite take_ge by (by rewrite le_bytes_length). rewrite !le_val_le_bytes, !Z.mod_small by done. done.
Qed.

Lemma read_trb_spec m a t : trb_ok t -> at_mem m a (trb_bytes t) -> read_trb a m = (m, Ok (mkTRB (parameter t) (status t) (control t) 0 true)).
Proof.
  intros Ht (Ha & Hw & Hr & E). unfold read_trb, mbind, sres_bind, dma_read_bytes, TRB_SIZE. rewrite dm_read_ram by (done || lia). change (Z.to_nat 16) with 16%nat. rewrite E.
  destruct (trb_bytes_fields t Ht) as (-> & -> & ->). destruct Ht as (_ & _ & Hc). by rewrite le_val_u32.
Qed.
Lemma read_cycle_bit_spec m a t : trb_ok t -> at_mem m a (trb_bytes t) -> read_cycle_bit a m = (m, Ok (has (control t) TRB_C)).
Proof.
  intros Ht (Ha & Hw & Hr & E). unfold read_cycle_bit, checked_add. rewrite (proj2 (Z.ltb_lt _ _)) by lia. cbn [ok_or]. rewrite slift_Ok_bind.
  unfold dma_read_u32, mbind, sres_bind, dma_read_bytes. rewrite dm_read_ram by (lia || (intros; apply Hr; lia)).
  assert (ztab (dm_byte m) (a + 12) 4 = le_bytes 4 (control t)) as E4.
  { destruct (trb_bytes_fields t Ht) as (_ & _ & <-). rewrite <-E. change 16%nat with (12 + 4)%nat. rewrite ztab_app. unfold slice.
    rewrite drop_app_length' by (by rewrite ztab_length). rewrite take_ge by (by rewrite ztab_length). done. }
  change (Z.to_nat (4 * Z.of_nat 1)) with 4%nat. rewrite E4. cbn [seq map nth]. unfold slice. rewrite drop_0, take_ge by (by rewrite le_bytes_length). destruct Ht as (_ & _ & Hc). by rewrite le_val_u32.
Qed.

Definition is_link (t : XhciTRB) : bool := bool_decide (get_type t = TrLink).
(** Where the controller goes after a block at [p.1], with cycle state [p.2]. *)
Definition next (t : XhciTRB) (p : Z * bool) : Z * bool := if is_link t then follow t p.2 else (p.1 + 16, p.2).
Definition seen (t : XhciTRB) (p : Z * bool) : XhciTRB := mkTRB (parameter t) (status t) (control t) p.1 p.2.

(** The driver laid out [ts], links included, from position [p]. *)
Fixpoint placed (m : M) (p : Z * bool) (ts : list XhciTRB) : Prop :=
  match ts with
  | [] => True
  | t :: ts => trb_ok t /\ at_mem m p.1 (trb_bytes t) /\ has (control t) TRB_C = p.2 /\ placed m (next t p) ts
  end.
Fixpoint position (p : Z * bool) (ts : list XhciTRB) : Z * bool := match ts with [] => p | t :: ts => position (next t p) ts end.
Fixpoint work (p : Z * bool) (ts : list XhciTRB) : list XhciTRB :=
  match ts with [] => [] | t :: ts => (if is_link t then [] else [seen t p]) ++ work (next t p) ts end.
Definition links (ts : list XhciTRB) : nat := length (filter (fun t => is_link t = true) ts).

(** A transfer descriptor ends with the first block that is not chained and not
    between a setup and its status stage. *)
Definition in_control (t : XhciTRB) (ctrl : bool) : bool :=
  if bool_decide (get_type t = TrSetup) then true else if bool_decide (get_type t = TrStatus) then false else ctrl.
Definition ends (t : XhciTRB) (ctrl : bool) : bool := negb (is_link t) && negb (in_control t ctrl) && negb (has (control t) TRB_TR_CH).
Definition after (t : XhciTRB) (ctrl : bool) : bool := if is_link t then ctrl else in_control t ctrl.
Fixpoint open_td (ctrl : bool) (ts : list XhciTRB) : Prop :=
  match ts with [] => True | t :: ts => ends t ctrl = false /\ open_td (after t ctrl) ts end.
Fixpoint ctrl_after (ctrl : bool) (ts : list XhciTRB) : bool := match ts with [] => ctrl | t :: ts => ctrl_after (after t ctrl) ts end.

Lemma seen_link t p : (get_type (seen t p)) = get_type t.
Proof. done. Qed.

Lemma links_cons t ts : links (t :: ts) = ((if is_link t then 1 else 0) + links ts)%nat.
Proof. unfold links. rewrite filter_cons. destruct (is_link t); [by rewrite decide_True|by rewrite decide_False]. Qed.

(** The loop gets past blocks that do not end the descriptor. *)
Lemma fetch_td_open m ts : forall n p ctrl l td, placed m p ts -> open_td ctrl ts -> 0 <= l -> l + Z.of_nat (links ts) <= 32 ->
  fetch_td_loop (length ts + n) p.1 p.2 ctrl l td m = fetch_td_loop n (position p ts).1 (position p ts).2 (ctrl_after ctrl ts) (l + Z.of_nat (links ts)) (td ++ work p ts) m.
Proof.
  induction ts as [|t ts IH]; intros n p ctrl l td Hp Ho Hl Hk.
  - cbn. rewrite Z.add_0_r, app_nil_r. done.
  - destruct Hp as (Ht & Hm & Hc & Hp). destruct Ho as [He Ho]. cbn [length Nat.add fetch_td_loop position ctrl_after work].
    rewrite (sres_step _ _ _ _ _ (read_cycle_bit_spec m p.1 t Ht Hm)). rewrite Hc, eqb_reflx. cbn [negb].
    rewrite (sres_step _ _ _ _ _ (read_trb_spec m p.1 t Ht Hm)). cbn [parameter status control]. change (mkTRB (parameter t) (status t) (control t) p.1 p.2) with (seen t p). rewrite !seen_link.
    rewrite links_cons in Hk |- *. unfold ends, after, next in *. fold (is_link t). destruct (is_link t) eqn:Et.
    + unfold TRB_LINK_LIMIT. rewrite (proj2 (Z.ltb_ge _ _)) by lia.
      rewrite (IH n (follow t p.2)) by (done || lia). cbn [app]. by replace (l + Z.of_nat (1 + links ts)) with (l + 1 + Z.of_nat (links ts)) by lia.
    + destruct Hm as (Ha & Hw & _ & _). unfold checked_add, TRB_SIZE. rewrite (proj2 (Z.ltb_lt _ _)) by lia. cbn [ok_or]. rewrite slift_Ok_bind.
      fold (in_control t ctrl). cbn [negb andb] in He. change (control (seen t p)) with (control t). rewrite He.
      rewrite (IH n (p.1 + 16, p.2)) by done. by rewrite <-app_assoc.
Qed.

Lemma fetch_td_limit_spec n r m ts t :
  let p := (tr_dequeue r, tr_ccs r) in
  placed m p ts -> open_td false ts -> (links ts <= 32)%nat -> (length ts < n)%nat ->
  trb_ok t -> at_mem m (position p ts).1 (trb_bytes t) ->
  (has (control t) TRB_C = (position p ts).2 -> ends t (ctrl_after false ts) = true ->
    fetch_td_limit n r m = (mkTrRing ((position p ts).1 + 16) (position p ts).2 (output_ctx_addr r), m, Ok (Some (work p ts ++ [seen t (position p ts)])))) /\
  (has (control t) TRB_C <> (position p ts).2 -> fetch_td_limit n r m = (r, m, Ok None)).
Proof.
  intros p Hp Ho Hk Hn Ht Hm. unfold fetch_td_limit.
  replace n with (length ts + S (n - length ts - 1))%nat by lia.
  change (tr_dequeue r) with p.1. change (tr_ccs r) with p.2. rewrite (fetch_td_open m ts) by (done || lia). cbn [fetch_td_loop app].
  rewrite (sres_step _ _ _ _ _ (read_cycle_bit_spec m _ t Ht Hm)). split.
  - intros Hc He. rewrite Hc, eqb_reflx. cbn [negb]. rewrite (sres_step _ _ _ _ _ (read_trb_spec m _ t Ht Hm)). cbn [parameter status control].
    change (mkTRB (parameter t) (status t) (control t) (position p ts).1 (position p ts).2) with (seen t (position p ts)). rewrite !seen_link.
    unfold ends, is_link in He. case_bool_decide; [done|]. cbn [negb andb] in He. destruct Hm as (Ha & Hw & _ & _). unfold checked_add, TRB_SIZE. rewrite (proj2 (Z.ltb_lt _ _)) by lia.
    cbn [ok_or]. rewrite slift_Ok_bind. fold (in_control t (ctrl_after false ts)). change (control (seen t (position p ts))) with (control t). rewrite He. done.
  - intros Hc. destruct (Bool.eqb _ _) eqn:E; [by apply eqb_prop in E|done].
Qed.

(** C11: The controller fetches a transfer descriptor exactly when it is complete.
    Let the driver have laid out blocks from the dequeue pointer on, over any
    segments joined by at most 32 links.  If the last one ends a descriptor and none
    before does, the fetch returns its blocks in order, each with its address and
    cycle state, and moves the ring behind it.  If none ends it and the next block is
    not handed over yet, the fetch returns nothing and leaves the ring as it is. *)
Theorem xhci_fetch_td r m ts t :
  let p := (tr_dequeue r, tr_ccs r) in
  placed m p ts -> open_td false ts -> (links ts <= 32)%nat -> Z.of_nat (length ts) < RING_LEN_LIMIT ->
  trb_ok t -> at_mem m (position p ts).1 (trb_bytes t) ->
  (has (control t) TRB_C = (position p ts).2 -> ends t (ctrl_after false ts) = true ->
    fetch_td r m = (mkTrRing ((position p ts).1 + 16) (position p ts).2 (output_ctx_addr r), m, Ok (Some (work p ts ++ [seen t (position p ts)])))) /\
  (has (control t) TRB_C <> (position p ts).2 -> fetch_td r m = (r, m, Ok None)).
Proof.
  intros p Hp Ho Hk Hn. apply fetch_td_limit_spec; [done..|]. assert (0 <= RING_LEN_LIMIT) by (vm_compute; discriminate).
  apply Nat2Z.inj_lt. by rewrite Z2Nat.id.
Qed.

Lemma dma_read_bytes_safe a n m : dm_ok m -> 0 < n < 2 ^ 32 -> is_u64 a ->
  match dma_read_bytes a n m with (m', Ok d) => dm_ok m' /\ length d = Z.to_nat n /\ is_bytes d | (m', Err _) => dm_ok m' | (m', Panic) => dm_stuck m' end.
Proof.
  intros Hm Hn Ha. pose proof (dm_read_safe a n m Hm Hn Ha) as H. unfold dma_read_bytes. destruct (dm_read a n m) as [m' []]; [done|by destruct H|done].
Qed.
Lemma read_trb_safe a m : dm_ok m -> is_u64 a ->
  match read_trb a m with (m', Ok t) => dm_ok m' /\ is_u64 (parameter t) | (m', Err _) => dm_ok m' | (m', Panic) => dm_stuck m' end.
Proof.
  intros Hm Ha. pose proof (dma_read_bytes_safe a TRB_SIZE m Hm ltac:(unfold TRB_SIZE; lia) Ha) as H. unfold read_trb, mbind, sres_bind.
  destruct (dma_read_bytes a TRB_SIZE m) as [m' [d| |]]; [|done..]. cbn. destruct H as (Hm' & Hl & Hb). split; [done|].
  pose proof (le_val_bound (slice d 0 8) (is_bytes_slice _ _ _ Hb)) as Hv. change (Z.to_nat TRB_SIZE) with 16%nat in Hl. rewrite slice_length in Hv by lia. exact Hv.
Qed.
Lemma read_cycle_bit_safe a m : dm_ok m -> is_u64 a -> match read_cycle_bit a m with (m', Panic) => dm_stuck m' | (m', _) => dm_ok m' end.
Proof.
  intros Hm Ha. unfold read_cycle_bit, checked_add. destruct (Z.ltb_spec (a + 12) (2 ^ 64)) as [Hlt|]; [|done]. cbn [ok_or]. rewrite slift_Ok_bind.
  pose proof (dma_read_bytes_safe (a + 12) 4 m Hm ltac:(lia) ltac:(unfold inW in Ha |- *; lia)) as H. unfold dma_read_u32. change (4 * Z.of_nat 1) with 4. unfold mbind, sres_bind.
  destruct (dma_read_bytes (a + 12) 4 m) as [m' []]; [by destruct H|done|done].
Qed.

(** Whatever is in memory, a command is fetched or refused after at most 33 links. *)
Lemma fetch_trb_loop_ends fuel : forall l r m, dm_ok m -> is_u64 (dequeue r) -> 0 <= l <= 32 -> (Z.to_nat (32 - l) + 1 < fuel)%nat ->
  match fetch_trb_loop fuel l r m with (_, m', Panic) => dm_stuck m' | (_, m', _) => dm_ok m' end.
Proof.
  induction fuel as [|fuel IH]; intros l r m Hm Hd Hl Hf; [lia|]. cbn [fetch_trb_loop].
  pose proof (read_cycle_bit_safe (dequeue r) m Hm Hd) as Hb. destruct (read_cycle_bit _ m) as [m1 [b| |]]; [|done..].
  destruct (negb _); [done|]. pose proof (read_trb_safe (dequeue r) m1 Hb Hd) as Ht. destruct (read_trb _ m1) as [m2 [t| |]]; [|done..]. destruct Ht as [Hm2 Ht].
  case_bool_decide; [|by destruct (checked_add _ _ _)]. unfold TRB_LINK_LIMIT. destruct (Z.ltb_spec 32 (l + 1)); [done|]. apply IH; [done|exact Ht|lia|lia].
Qed.

(** C40: Fetching a command ends for every content of memory, also when the driver
    built a cycle of links or pointed the ring at memory that does not exist: it
    returns a block, nothing, or an error.  Only an access to memory that does not
    return itself, at a register of a device, can keep it from doing so. *)
Theorem xhci_fetch_command_ends r m : dm_ok m -> is_u64 (dequeue r) ->
  match fetch_trb r m with (_, m', Panic) => dm_stuck m' /\ ~ dm_ok m' | (_, m', _) => dm_ok m' end /\
  ((forall m', ~ dm_stuck m') -> (fetch_trb r m).2 <> Panic).
Proof.
  intros Hm Hd. assert (match fetch_trb r m with (_, m', Panic) => dm_stuck m' | (_, m', _) => dm_ok m' end) as H
    by (apply fetch_trb_loop_ends; [done|done|lia|unfold TRB_LINK_LIMIT; lia]).
  destruct (fetch_trb r m) as [[r' m'] []]; [by split..|]. split; [|by intros Hn; destruct (Hn m')]. split; [done|]. intros Hok. by apply (dm_ok_not_stuck m').
Qed.
End fetch.

(** ** Reporting events *)

Lemma lor_low q b : 0 <= q -> 0 <= b < 16 -> Z.lor (16 * q) b = 16 * q + b.
Proof.
  intros Hq Hb. pose proof (Z.add_lor_land (16 * q) b) as H. replace (Z.land (16 * q) b) with 0 in H; [lia|]. symmetry.
  apply Z.bits_inj'. intros i Hi. rewrite Z.land_spec, Z.testbit_0_l. change 16 with (2 ^ 4). rewrite Z.mul_comm. destruct (Z.ltb_spec i 4).
  - by rewrite Z.mul_pow2_bits_low by lia.
  - by rewrite (testbit_above 4 b), andb_false_r by (unfold inW; lia).
Qed.
Lemma set_busy q b : 0 <= q -> b = 0 \/ b = 8 -> Z.lor (16 * q + b) ERDP_EHB = 16 * q + 8.
Proof. intros Hq Hb. rewrite <-lor_low, <-Z.lor_assoc by lia. unfold ERDP_EHB. destruct Hb as [-> | ->]; apply lor_low; lia. Qed.
Lemma clear_busy q : 0 <= q < 2 ^ 28 -> has (Z.lor (16 * q) ERDP_EHB) ERDP_EHB = true /\ Z.land (Z.lor (16 * q) ERDP_EHB) (wnot 32 ERDP_EHB) = 16 * q.
Proof.
  intros Hq. unfold has, ERDP_EHB. split; [rewrite Z.land_lor_distr_l; apply Z.eqb_eq|].
  - replace (Z.land (16 * q) 8) with 0; [done|]. pose proof (Z.add_lor_land (16 * q) 8). rewrite lor_low in H by lia. lia.
  - apply Z.bits_inj'. intros i Hi. rewrite Z.land_spec, Z.lor_spec. destruct (Z.ltb_spec i 32).
    + rewrite (wnot_testbit 32 8) by (unfold inW; lia). destruct (Z.testbit 8 i) eqn:E; cbn [negb]; rewrite ?andb_true_r, ?orb_false_r, ?andb_false_r; [|done].
      symmetry. assert (i = 3) as ->. { change 8 with (2 ^ 3) in E. rewrite Z.pow2_bits_eqb in E by lia. by apply Z.eqb_eq in E. }
      change 16 with (2 ^ 4). rewrite Z.mul_comm. by rewrite Z.mul_pow2_bits_low by lia.
    + rewrite (testbit_above 32 (wnot 32 8)), andb_false_r by (unfold inW, wnot; lia). by rewrite (testbit_above 32 (16 * q)) by (unfold inW; lia).
Qed.
Lemma write_low x l : is_u64 x -> is_u32 l -> write_u64_low x l = x / 2 ^ 32 * 2 ^ 32 + l.
Proof.
  intros Hx Hl. unfold write_u64_low. replace (Z.land x 0xFFFFFFFF00000000) with (Z.shiftl (Z.shiftr x 32) 32).
  - rewrite <-Z.shiftr_div_pow2, <-Z.shiftl_mul_pow2 by lia. pose proof (Z.add_lor_land (Z.shiftl (Z.shiftr x 32) 32) l) as H. replace (Z.land _ l) with 0 in H; [lia|]. symmetry.
    apply Z.bits_inj'. intros i Hi. rewrite Z.land_spec, Z.testbit_0_l. destruct (Z.ltb_spec i 32); [by rewrite Z.shiftl_spec_low by lia|]. by rewrite (testbit_above 32 l), andb_false_r by (done || lia).
  - apply Z.bits_inj'. intros i Hi. rewrite Z.land_spec. change 0xFFFFFFFF00000000 with (Z.shiftl (Z.ones 32) 32). destruct (Z.ltb_spec i 32).
    + by rewrite !Z.shiftl_spec_low, andb_false_r by lia.
    + rewrite !Z.shiftl_spec, Z.shiftr_spec by lia. replace (i - 32 + 32) with i by lia. destruct (Z.ltb_spec i 64).
      * by rewrite Z.ones_spec_low, andb_true_r by lia.
      * by rewrite (testbit_above 64 x) by (done || lia).
Qed.
Lemma write_high x h : is_u64 x -> is_u32 h -> write_u64_high x h = h * 2 ^ 32 + x `mod` 2 ^ 32.
Proof.
  intros Hx Hh. unfold write_u64_high, wshl. change (32 `mod` 64) with 32. rewrite Z.shiftl_mul_pow2 by lia. rewrite wrap_small by (unfold inW in *; lia).
  change 0xFFFFFFFF with (Z.ones 32). rewrite Z.land_ones by lia. pose proof (Z.add_lor_land (h * 2 ^ 32) (x `mod` 2 ^ 32)) as H. replace (Z.land (h * 2 ^ 32) _) with 0 in H; [lia|]. symmetry.
  apply Z.bits_inj'. intros i Hi. rewrite Z.land_spec, Z.testbit_0_l. destruct (Z.ltb_spec i 32); [by rewrite Z.mul_pow2_bits_low by lia|].
  rewrite (testbit_above 32 (x `mod` 2 ^ 32)), andb_false_r; [done|apply Z.mod_pos_bound; lia|lia].
Qed.

Lemma has_cycle c : has c TRB_C = Z.testbit c 0.
Proof. unfold has, TRB_C. change 1 with (Z.ones 1). rewrite Z.land_ones by lia. rewrite Z.bit0_odd, Zmod_odd. by destruct (Z.odd c). Qed.

(** The control word as it is written first: the cycle bit is inverted, the rest
    is the same. *)
Definition toggled (c : Z) : Z := if has c TRB_C then Z.land c (wnot 32 TRB_C) else Z.lor c TRB_C.
Lemma toggled_bits c i : is_u32 c -> 0 <= i -> Z.testbit (toggled c) i = if i =? 0 then negb (Z.testbit c 0) else Z.testbit c i.
Proof.
  intros Hc Hi. unfold toggled. rewrite has_cycle. assert (Z.testbit TRB_C i = (i =? 0)) as E1 by (unfold TRB_C; change 1 with (2 ^ 0) at 1; rewrite Z.pow2_bits_eqb by lia; apply Z.eqb_sym).
  destruct (Z.testbit c 0) eqn:E.
  - rewrite Z.land_spec. destruct (Z.ltb_spec i 32).
    + rewrite wnot_testbit, E1 by (unfold inW, TRB_C; lia). destruct (Z.eqb_spec i 0) as [->|]; by rewrite ?andb_false_r, ?andb_true_r.
    + rewrite (testbit_above 32 c) by (done || lia). destruct (Z.eqb_spec i 0); [lia|done].
  - rewrite Z.lor_spec, E1. destruct (Z.eqb_spec i 0) as [->|]; by rewrite ?orb_true_r, ?orb_false_r.
Qed.
Lemma toggled_u32 c : is_u32 c -> is_u32 (toggled c).
Proof.
  intros Hc. unfold toggled. destruct (has c TRB_C); [apply land_inW; [lia|done]|apply lor_inW; [lia|done|unfold inW, TRB_C; lia]].
Qed.
Lemma toggled_high c : is_u32 c -> toggled c / 256 = c / 256.
Proof.
  intros Hc. change 256 with (2 ^ 8). rewrite <-!Z.shiftr_div_pow2 by lia. apply Z.bits_inj'. intros i Hi. rewrite !Z.shiftr_spec, toggled_bits by (done || lia).
  destruct (Z.eqb_spec (i + 8) 0); [lia|done].
Qed.

(** What the driver gets of an event: the block without its cycle bit. *)
Definition payload : Type := Z * Z * Z.
Definition block (p : payload) (c : bool) : XhciTRB := mkTRB p.1.1 p.1.2 (if c then Z.lor p.2 TRB_C else p.2) 0 false.
Definition pay_ok (p : payload) : Prop := is_u64 p.1.1 /\ is_u32 p.1.2 /\ is_u32 p.2 /\ Z.testbit p.2 0 = false.
Definition payload_of (e : XhciEvent) : payload := (parameter (to_trb e), status (to_trb e), control (to_trb e)).
(** Events as the controller makes them: the flags leave the cycle bit alone. *)
Definition event_ok (e : XhciEvent) : Prop :=
  is_u64 (ptr e) /\ is_u32 (elength e) /\ is_u32 (flags e) /\ Z.testbit (flags e) 0 = false.

Lemma wshl_low w v n : 0 < n < w -> Z.testbit (wshl w v n) 0 = false.
Proof. intros Hn. unfold wshl, wrap. rewrite (Z.mod_small n w) by lia. rewrite Z.mod_pow2_bits_low by lia. by rewrite Z.shiftl_spec_low by lia. Qed.
Lemma payload_ok e : event_ok e -> pay_ok (payload_of e).
Proof.
  intros (Hp & Hl & Hf & Hb). unfold payload_of, to_trb, pay_ok. cbn [parameter status control fst snd].
  assert (forall v n, is_u32 (wshl 32 v n)) as Hs by (intros; apply wrap_inW; lia). split_and!; [done|by apply lor_inW|repeat (apply lor_inW; [lia|..|done]); done|].
  rewrite !Z.lor_spec, !wshl_low, Hb by (unfold TRB_TYPE_SHIFT; lia). done.
Qed.
Lemma block_ok p c : pay_ok p -> trb_ok (block p c) /\ has (control (block p c)) TRB_C = c /\ Z.land (control (block p c)) (wnot 32 TRB_C) = p.2.
Proof.
  intros (H1 & H2 & H3 & H4). assert (is_u32 (control (block p c))) as Hc by (cbn; destruct c; [apply lor_inW; [lia|done|unfold inW, TRB_C; lia]|done]).
  assert (forall i, Z.testbit TRB_C i = (i =? 0)) as E1.
  { intros i. destruct (Z.ltb_spec i 0); [rewrite Z.testbit_neg_r by done; symmetry; lia|]. unfold TRB_C. change 1 with (2 ^ 0) at 1. rewrite Z.pow2_bits_eqb by lia. apply Z.eqb_sym. }
  split_and!; [done..| |].
  - rewrite has_cycle. unfold block. cbn [control]. destruct c; [|done]. rewrite Z.lor_spec, E1. apply orb_true_r.
  - apply Z.bits_inj'. intros i Hi. rewrite Z.land_spec. destruct (Z.ltb_spec i 32).
    + rewrite wnot_testbit, E1 by (unfold inW, TRB_C; lia). unfold block. cbn [control]. destruct (Z.eqb_spec i 0) as [->|]; cbn [negb]; [by rewrite andb_false_r|]. rewrite andb_true_r. destruct c; [|done].
      rewrite Z.lor_spec, E1. destruct (Z.eqb_spec i 0); [done|]. apply orb_false_r.
    + rewrite (testbit_above 32 (control _)) by (done || lia). by rewrite (testbit_above 32 p.2) by (done || lia).
Qed.

Section events.
Context {M : Type} `{!DmaMemory M} `{!DmaLaws M}.

Lemma dma_write_after bs a m : 0 <= a -> (0 < length bs)%nat -> a + Z.of_nat (length bs) < 2 ^ 64 -> (forall x, a <= x < a + Z.of_nat (length bs) -> dm_ram x) ->
  exists m', dma_write_bytes a bs m = (m', Ok tt) /\ dm_after m m' a bs.
Proof.
  intros Ha Hl Hw Hr. destruct (dm_write_after bs a (Z.of_nat (length bs)) m) as (m' & E & Hm'); [done|lia|done|done|lia|]. rewrite take_ge in Hm' by lia.
  exists m'. split; [|done]. unfold dma_write_bytes. by rewrite E.
Qed.
Lemma trb_bytes_length t : length (trb_bytes t) = 16%nat.
Proof. unfold trb_bytes. by rewrite !length_app, !le_bytes_length. Qed.

(** An event is written in two steps.  Between them the block is there with the
    wrong cycle bit, so that a driver does not take it yet; afterwards the slot
    holds the block and the rest of memory is untouched. *)
Lemma write_trb_spec t i m : trb_ok t -> 0 <= er_ep_idx i < 4096 -> let a := er_start i + 16 * er_ep_idx i in
  0 <= er_start i -> a + 16 < 2 ^ 64 -> (forall x, a <= x < a + 16 -> dm_ram x) ->
  exists m1 m2, write_trb t i m = (m2, Ok tt) /\
    dm_after m m1 a (trb_bytes (mkTRB (parameter t) (status t) (toggled (control t)) (addr t) (tccs t))) /\ has (toggled (control t)) TRB_C = negb (has (control t) TRB_C) /\
    dm_after m m2 a (trb_bytes t).
Proof.
  intros Ht Hi a Hs Hw Hr. pose proof Ht as (_ & _ & Hc). unfold write_trb. rewrite wmul_small by (unfold inW, TRB_SIZE; lia). unfold checked_add, TRB_SIZE. fold a.
  rewrite (proj2 (Z.ltb_lt _ _)) by lia. cbn [ok_or]. rewrite slift_Ok_bind. fold (toggled (control t)). set (t1 := mkTRB _ _ (toggled _) _ _). rewrite (wadd_small 64 a 12) by (unfold inW; lia).
  destruct (dma_write_after (trb_bytes t1) a m) as (m1 & E1 & Hm1); [lia|rewrite trb_bytes_length; lia..|rewrite trb_bytes_length; exact Hr|].
  rewrite (sres_step _ _ _ _ _ E1). destruct (dma_write_after [wrap 8 (control t)] (a + 12) m1) as (m2 & E2 & Hm2); [lia|cbn; lia..|intros x Hx; apply Hr; cbn in Hx; lia|].
  exists m1, m2. split_and!; [exact E2|done|rewrite !has_cycle; by rewrite toggled_bits by (done || lia)|].
  intros x Hx. rewrite (Hm2 x Hx), (Hm1 x Hx), !trb_bytes_length. cbn [length]. unfold trb_bytes. cbn [parameter status control t1].
  change (le_bytes 4 (toggled (control t))) with (toggled (control t) `mod` 256 :: le_bytes 3 (toggled (control t) / 256)).
  change (le_bytes 4 (control t)) with (control t `mod` 256 :: le_bytes 3 (control t / 256)). rewrite toggled_high by done. rewrite !(app_assoc (le_bytes 8 (parameter t))). set (lo := le_bytes 8 (parameter t) ++ le_bytes 4 (status t)).
  assert (length lo = 12%nat) as Hlo by (unfold lo; by rewrite length_app, !le_bytes_length).
  change (Z.of_nat 1) with 1. change (Z.of_nat 16) with 16. clearbody a.
  destruct (decide (x = a + 12)) as [->|Hne].
  - rewrite !(proj2 (andb_true_iff _ _)) by lia.
    replace (a + 12 - (a + 12)) with 0 by lia. replace (Z.to_nat (a + 12 - a)) with (length lo + 0)%nat by lia. by rewrite lookup_app_r, Nat.add_0_r, Nat.sub_diag by lia.
  - rewrite (proj2 (andb_false_iff (a + 12 <=? x) _)) by lia. destruct (_ && _) eqn:Ein; [|done]. f_equal.
    destruct (decide (x < a + 12)); [by rewrite !lookup_app_l by lia|]. rewrite !lookup_app_r by lia. by replace (Z.to_nat (x - a) - length lo)%nat with (S (Z.to_nat (x - a) - length lo - 1)) by lia.
Qed.

(** *** The event ring as a queue *)

Context (cb : option (Z -> Z -> bool)) (start size : Z).

(** A driver reads blocks in order as long as their cycle bit is its own, and
    tells the controller how far it got. *)
Record driver := mkDriver { didx : Z; dccs : bool; got : list payload }.
Record ring_sys := mkSys { xi : XhciInterrupter; xm : M; drv : driver }.
Inductive ring_ev := Send (e : XhciEvent) | Poll | Ack.

Definition poll (m : M) (d : driver) : driver :=
  let bytes := ztab (dm_byte m) (start + 16 * didx d) 16 in
  let ctl := le_val (slice bytes 12 4) in
  if Bool.eqb (has ctl TRB_C) (dccs d) then
    let got' := got d ++ [(le_val (slice bytes 0 8), le_val (slice bytes 8 4), Z.land ctl (wnot 32 TRB_C))] in
    if size <=? didx d + 1 then mkDriver 0 (negb (dccs d)) got' else mkDriver (didx d + 1) (dccs d) got'
  else d.
Definition ring_step (ev : ring_ev) (s : ring_sys) : res UsbError ring_sys :=
  match ev with
  | Send e => let '(i, m, r) := send_event cb e (xi s) (xm s) in _ ← r; Ok (mkSys i m (drv s))
  | Poll => Ok (mkSys (xi s) (xm s) (poll (xm s) (drv s)))
  | Ack =>
    let v := start + 16 * didx (drv s) in
    let '(i, m, r) := intr_write cb 0x18 (Z.lor (wrap 32 v) ERDP_EHB) (xi s) (xm s) in
    _ ← r;
    let '(i, m, r) := intr_write cb 0x1c (v / 2 ^ 32) i m in
    _ ← r; Ok (mkSys i m (drv s))
  end.
Fixpoint ring_run (evs : list ring_ev) (s : ring_sys) : res UsbError ring_sys :=
  match evs with [] => Ok s | ev :: evs => s ← ring_step ev s; ring_run evs s end.

(** The queue it stands for: at most [size - 1] events the driver did not
    acknowledge, the last of which reports that the ring is full. *)
Record queue := mkQueue { sent : list payload; taken : nat; acked : nat }.
Definition queue_step (q : queue) (ev : ring_ev) : queue :=
  match ev with
  | Send e =>
    let used := Z.of_nat (length (sent q)) - Z.of_nat (acked q) in
    mkQueue (if used + 2 =? size then sent q ++ [payload_of (XhciEvent_new ErHostController EventRingFullError)]
             else if used + 1 =? size then sent q else sent q ++ [payload_of e]) (taken q) (acked q)
  | Poll => mkQueue (sent q) (Nat.min (S (taken q)) (length (sent q))) (acked q)
  | Ack => mkQueue (sent q) (taken q) (taken q)
  end.

Context (Hsize : 16 <= size <= 4096) (Hstart : 0 <= start /\ start `mod` 16 = 0 /\ start + 16 * size < 2 ^ 64).
Context (Hring : forall x, start <= x < start + 16 * size -> dm_ram x).

(** The cycle state of the [j]th event. *)
Definition cyc (j : Z) : bool := Z.even (j / size).
Definition slot (j : Z) : Z := start + 16 * (j `mod` size).
Definition slot_holds (m : M) (ps : list payload) (j : Z) : Prop :=
  if 0 <=? j then exists p, ps !! Z.to_nat j = Some p /\ ztab (dm_byte m) (slot j) 16 = trb_bytes (block p (cyc j))
  else has (le_val (slice (ztab (dm_byte m) (slot j) 16) 12 4)) TRB_C = false.
Definition ring_inv (s : ring_sys) (q : queue) : Prop :=
  let E := Z.of_nat (length (sent q)) in let G := Z.of_nat (taken q) in let A := Z.of_nat (acked q) in
  A <= G <= E /\ E <= A + size - 1 /\ Forall pay_ok (sent q) /\
  er_start (xi s) = start /\ er_size (xi s) = size /\ er_ep_idx (xi s) = E `mod` size /\ er_pcs (xi s) = cyc E /\
  (exists b, (b = 0 \/ b = 8) /\ erdp (xi s) = slot A + b) /\
  drv s = mkDriver (G `mod` size) (cyc G) (take (taken q) (sent q)) /\
  (forall j, E - size <= j < E -> slot_holds (xm s) (sent q) j).

Lemma step_pos {T} (f : Z -> bool -> T) j : (if size <=? j `mod` size + 1 then f 0 (negb (cyc j)) else f (j `mod` size + 1) (cyc j)) = f ((j + 1) `mod` size) (cyc (j + 1)).
Proof.
  unfold cyc. pose proof (Z.div_mod j size ltac:(lia)). pose proof (Z.mod_pos_bound j size ltac:(lia)). destruct (Z.leb_spec size (j `mod` size + 1)).
  - rewrite <-(Z.mod_unique (j + 1) size (j / size + 1) 0), <-(Z.div_unique (j + 1) size (j / size + 1) 0) by lia. rewrite Z.even_add. by destruct (Z.even (j / size)).
  - by rewrite <-(Z.mod_unique (j + 1) size (j / size) (j `mod` size + 1)), <-(Z.div_unique (j + 1) size (j / size) (j `mod` size + 1)) by lia.
Qed.
Lemma mod_meets E A k : 0 < E - A + k < 2 * size -> ((E `mod` size + k) `mod` size =? A `mod` size) = (E - A + k =? size).
Proof.
  intros Hb. rewrite Z.add_mod_idemp_l by lia. pose proof (Z.div_mod (E + k) size ltac:(lia)) as H1. pose proof (Z.div_mod A size ltac:(lia)) as H2.
  destruct (Z.eqb_spec (E - A + k) size) as [Hs|Hs].
  - replace (E + k) with (A + 1 * size) by lia. rewrite Z.mod_add by lia. apply Z.eqb_refl.
  - apply Z.eqb_neq. intros Heq. apply Hs. rewrite Heq in H1. set (z := (E + k) / size - A / size). assert (E - A + k = size * z) by (unfold z; lia). assert (z = 1) by nia. nia.
Qed.
Lemma cyc_other j : cyc (j - size) = negb (cyc j).
Proof. unfold cyc. replace (j - size) with (j + (-1) * size) by lia. rewrite Z.div_add by lia. rewrite Z.even_add. by destruct (Z.even (j / size)). Qed.
Lemma slot_range j : start <= slot j /\ slot j + 16 <= start + 16 * size /\ exists q, 0 <= q /\ slot j = 16 * q.
Proof.
  unfold slot. pose proof (Z.mod_pos_bound j size ltac:(lia)). split_and!; [lia|lia|]. pose proof (Z.div_mod start 16 ltac:(lia)). exists (start / 16 + j `mod` size). split; [|lia].
  assert (0 <= start / 16) by (apply Z.div_pos; lia). lia.
Qed.
Lemma slot_diff j k : 0 < k - j < size -> slot j + 16 <= slot k \/ slot k + 16 <= slot j.
Proof.
  intros H. unfold slot. assert (j `mod` size <> k `mod` size); [|lia]. intros E. pose proof (Z.div_mod j size ltac:(lia)). pose proof (Z.div_mod k size ltac:(lia)).
  assert (k - j = size * (k / size - j / size)) as Hz by lia. set (z := k / size - j / size) in *. clearbody z. assert (z <= 0 \/ 1 <= z) as [Hn|Hn] by lia; nia.
Qed.
Lemma slot_period j : slot (j - size) = slot j.
Proof. unfold slot. replace (j - size) with (j + (-1) * size) by lia. by rewrite Z.mod_add by lia. Qed.

(** Interrupts change the busy bit of the dequeue pointer and nothing of the ring. *)
Definition same_ring (i i' : XhciInterrupter) : Prop :=
  er_start i' = er_start i /\ er_size i' = er_size i /\ er_ep_idx i' = er_ep_idx i /\ er_pcs i' = er_pcs i.
Lemma low_half q b : 0 <= q -> 0 <= b < 16 -> (16 * q + b) `mod` 2 ^ 32 = 16 * (q `mod` 2 ^ 28) + b /\ (16 * q + b) / 2 ^ 32 = q / 2 ^ 28.
Proof.
  intros Hq Hb. pose proof (Z.div_mod q (2 ^ 28) ltac:(lia)). pose proof (Z.mod_pos_bound q (2 ^ 28) ltac:(lia)).
  split; symmetry; [apply (Z.mod_unique _ _ (q / 2 ^ 28))|apply (Z.div_unique _ _ _ (16 * (q `mod` 2 ^ 28) + b))]; lia.
Qed.
Lemma send_intr_spec i q b : erdp i = 16 * q + b -> b = 0 \/ b = 8 -> 0 <= q -> 16 * q + 16 <= 2 ^ 64 ->
  same_ring i (send_intr cb i) /\ erdp (send_intr cb i) = 16 * q + 8.
Proof.
  intros He Hb Hq Hw. set (i1 := enable_intr (set_iman (Z.lor (iman i) IMAN_IP) (set_erdp (16 * q + 8) i))).
  assert (write_u64_low (erdp i) (Z.lor (read_u32 (erdp i) 0) ERDP_EHB) = 16 * q + 8) as Ew.
  { rewrite He. unfold read_u32. cbn [Z.eqb]. unfold wrap. destruct (low_half q b) as [-> _]; [done|lia|]. pose proof (Z.mod_pos_bound q (2 ^ 28) ltac:(lia)). rewrite set_busy by lia.
    rewrite write_low by (unfold inW; lia). destruct (low_half q b) as [_ ->]; [done|lia|]. pose proof (Z.div_mod q (2 ^ 28) ltac:(lia)). lia. }
  unfold send_intr. rewrite Ew. fold i1. unfold call_cb. repeat case_match; done.
Qed.

Lemma write_event_spec e i m E : event_ok e -> er_start i = start -> er_size i = size -> er_ep_idx i = E `mod` size -> er_pcs i = cyc E ->
  exists m', write_event e i m = (set_index ((E + 1) `mod` size) (cyc (E + 1)) i, m', Ok tt) /\ dm_after m m' (slot E) (trb_bytes (block (payload_of e) (cyc E))).
Proof.
  intros He Hst Hsz Hidx Hpcs. pose proof (Z.mod_pos_bound E size ltac:(lia)). destruct (slot_range E) as (S1 & S2 & _).
  destruct (block_ok (payload_of e) (cyc E) (payload_ok e He)) as (Hok & _ & _).
  destruct (write_trb_spec (block (payload_of e) (cyc E)) i m Hok) as (m1 & m' & Ew & _ & _ & Hm'); [lia|lia|rewrite Hst, Hidx; unfold slot in S2; lia| |].
  { intros x Hx. apply Hring. rewrite Hst, Hidx in Hx. unfold slot in *. lia. }
  rewrite Hst, Hidx in Hm'. exists m'. split; [|exact Hm']. unfold write_event.
  replace (if er_pcs i then _ else to_trb e) with (block (payload_of e) (cyc E)) by (rewrite Hpcs; unfold block, payload_of; by destruct (cyc E)).
  rewrite Ew, Hsz, Hidx, Hpcs, wadd_small by (unfold inW; lia). rewrite (step_pos (fun x c => set_index x c i)). done.
Qed.

(** Other slots keep what they hold when one is written. *)
Lemma slot_kept m m' bs j k ps ps' : dm_after m m' (slot k) bs -> length bs = 16%nat -> 0 < k - j < size -> (forall p, ps !! Z.to_nat j = Some p -> ps' !! Z.to_nat j = Some p) ->
  slot_holds m ps j -> slot_holds m' ps' j.
Proof.
  intros Ha Hl Hjk Hps. destruct (slot_range j) as (S1 & S2 & _). pose proof (slot_diff j k Hjk) as Hd.
  assert (ztab (dm_byte m') (slot j) 16 = ztab (dm_byte m) (slot j) 16) as E.
  { apply ztab_ext. intros x Hx. rewrite Ha by (apply Hring; lia). rewrite Hl. change (Z.of_nat 16) with 16 in *. destruct ((slot k <=? slot j + x) && (slot j + x <? slot k + 16)) eqn:Ein; [|done].
    apply andb_true_iff in Ein as [? ?]. lia. }
  unfold slot_holds. rewrite E. destruct (0 <=? j); [|done]. intros (p & Hp & Hb). exists p. split; [by apply Hps|done].
Qed.
Lemma slot_written m m' p c k : dm_after m m' (slot k) (trb_bytes (block p c)) -> ztab (dm_byte m') (slot k) 16 = trb_bytes (block p c).
Proof.
  intros Ha. destruct (slot_range k) as (S1 & S2 & _). apply list_eq. intros x. destruct (decide (x < 16)%nat).
  - rewrite ztab_lookup by done. rewrite Ha by (apply Hring; lia). rewrite trb_bytes_length. change (Z.of_nat 16) with 16. rewrite (proj2 (andb_true_iff _ _)) by lia.
    replace (Z.to_nat (slot k + Z.of_nat x - slot k)) with x by lia. destruct (lookup_lt_is_Some_2 (trb_bytes (block p c)) x) as [y ->]; [by rewrite trb_bytes_length|done].
  - rewrite !lookup_ge_None_2; [done|rewrite trb_bytes_length; lia|rewrite ztab_length; lia].
Qed.

Lemma full_event_ok : event_ok (XhciEvent_new ErHostController EventRingFullError).
Proof. split_and!; done. Qed.

(** An event that is written. *)
Lemma write_step e s q i' m' : event_ok e -> ring_inv s q -> Z.of_nat (length (sent q)) + 1 <= Z.of_nat (acked q) + size - 1 ->
  write_event e (xi s) (xm s) = (i', m', Ok tt) -> ring_inv (mkSys (send_intr cb i') m' (drv s)) (mkQueue (sent q ++ [payload_of e]) (taken q) (acked q)).
Proof.
  intros He (Hq1 & Hq2 & Hpay & Hst & Hsz & Hidx & Hpcs & (b & Hb & Herdp) & Hdrv & Hmem) Hroom Ew.
  destruct (write_event_spec e (xi s) (xm s) (Z.of_nat (length (sent q))) He Hst Hsz Hidx Hpcs) as (m1 & Ew' & Hafter). rewrite Ew in Ew'. injection Ew' as -> ->.
  set (E := Z.of_nat (length (sent q))) in *. destruct (slot_range (Z.of_nat (acked q))) as (S1 & S2 & (w & Hw & Ew2)).
  set (i1 := set_index ((E + 1) `mod` size) (cyc (E + 1)) (xi s)). destruct (send_intr_spec i1 w b) as ((R1 & R2 & R3 & R4) & R5); [cbn; rewrite Herdp; lia|done|done|lia|].
  unfold ring_inv. cbn [sent taken acked xi xm drv]. rewrite length_app. cbn [length]. replace (Z.of_nat (length (sent q) + 1)) with (E + 1) by lia.
  split_and!; [lia|lia|lia|apply Forall_app; split; [done|by apply Forall_singleton, payload_ok]|by rewrite R1|by rewrite R2|by rewrite R3|by rewrite R4|exists 8; split; [by right|lia]| |].
  - rewrite Hdrv. f_equal. by rewrite take_app_le by lia.
  - intros j Hj. destruct (decide (j = E)) as [->|Hne].
    + unfold slot_holds. rewrite (proj2 (Z.leb_le _ _)) by lia. exists (payload_of e). split; [|by apply slot_written in Hafter].
      unfold E. rewrite Nat2Z.id, lookup_app_r, Nat.sub_diag by lia. done.
    + eapply (slot_kept (xm s) _ _ j E (sent q)); [exact Hafter|apply trb_bytes_length|lia| |apply Hmem; lia]. intros p Hp. by apply lookup_app_l_Some.
Qed.

Lemma send_step e s q : event_ok e -> ring_inv s q -> exists s', ring_step (Send e) s = Ok s' /\ ring_inv s' (queue_step q (Send e)).
Proof.
  intros He Hinv. pose proof Hinv as (Hq1 & Hq2 & Hpay & Hst & Hsz & Hidx & Hpcs & (b & Hb & Herdp) & Hdrv & Hmem).
  set (E := Z.of_nat (length (sent q))) in *. set (A := Z.of_nat (acked q)) in *. destruct (slot_range A) as (S1 & S2 & (w & Hw & Ew)). pose proof (Z.mod_pos_bound E size ltac:(lia)).
  cbn [ring_step]. unfold send_event. rewrite Hst, Hsz, wmul_small by (unfold inW, TRB_SIZE; lia). unfold checked_add, TRB_SIZE. rewrite (proj2 (Z.ltb_lt (start + 16 * size) _)) by lia.
  rewrite Herdp, (proj2 (Z.ltb_ge _ _)), (proj2 (Z.leb_gt _ _)), (proj2 (Z.eqb_neq size 0)) by lia. cbn [orb].
  replace ((slot A + b - start) / 16) with (A `mod` size) by (unfold slot; apply (Z.div_unique _ _ _ b); lia).
  rewrite Hidx, !wadd_small by (unfold inW; lia). rewrite !mod_meets by lia. cbn [queue_step]. fold E A.
  assert (forall e, event_ok e -> E + 1 <= A + size - 1 -> exists s', (let '(i, m, r) := (let '(i, m, r) := write_event e (xi s) (xm s) in match r with Ok _ => (send_intr cb i, m, Ok ()) | _ => (i, m, r) end) in
    _ ← r; Ok (mkSys i m (drv s))) = Ok s' /\ ring_inv s' (mkQueue (sent q ++ [payload_of e]) (taken q) (acked q))) as Hwrite.
  { intros e' He' Hroom. destruct (write_event_spec e' (xi s) (xm s) E He' Hst Hsz Hidx Hpcs) as (m' & Ewr & _). rewrite Ewr. eexists. split; [reflexivity|]. by eapply write_step. }
  destruct (Z.eqb_spec (E - A + 2) size) as [E2|E2]; [apply Hwrite; [apply full_event_ok|lia]|]. destruct (Z.eqb_spec (E - A + 1) size) as [E1|E1]; [|apply Hwrite; [done|lia]].
  eexists. split; [reflexivity|]. destruct (send_intr_spec (xi s) w b) as ((R1 & R2 & R3 & R4) & R5); [rewrite Herdp; lia|done|done|lia|].
  unfold ring_inv. cbn [sent taken acked xi xm drv]. fold E A. split_and!; [lia|lia|lia|done|congruence|congruence|congruence|congruence|exists 8; split; [by right|lia]|done|done].
Qed.

Lemma poll_step s q : ring_inv s q -> exists s', ring_step Poll s = Ok s' /\ ring_inv s' (queue_step q Poll).
Proof.
  intros (Hq1 & Hq2 & Hpay & Hst & Hsz & Hidx & Hpcs & Herdp & Hdrv & Hmem). set (E := Z.of_nat (length (sent q))) in *. set (G := Z.of_nat (taken q)) in *. set (A := Z.of_nat (acked q)) in *.
  eexists. split; [reflexivity|]. cbn [queue_step].
  assert (forall d n, poll (xm s) (drv s) = d -> d = mkDriver (Z.of_nat n `mod` size) (cyc (Z.of_nat n)) (take n (sent q)) -> G <= Z.of_nat n <= E -> Nat.min (S (taken q)) (length (sent q)) = n ->
    ring_inv (mkSys (xi s) (xm s) (poll (xm s) (drv s))) (mkQueue (sent q) (Nat.min (S (taken q)) (length (sent q))) (acked q))) as Hdone.
  { intros d n -> Hd Hn ->. unfold ring_inv. cbn [sent taken acked xi xm drv]. fold E A. split_and!; [lia|lia|lia|done..]. }
  rewrite Hdrv in *. unfold poll in *. cbn [didx dccs got] in *. change (start + 16 * (G `mod` size)) with (slot G) in *. destruct (decide (G < E)) as [Hlt|Hge].
  - pose proof (Hmem G ltac:(lia)) as Hs. unfold slot_holds in Hs. rewrite (proj2 (Z.leb_le 0 G)) in Hs by lia. destruct Hs as (p & Hp & Hbytes). unfold G in Hp at 1. rewrite Nat2Z.id in Hp.
    pose proof (Forall_lookup_1 _ _ _ _ Hpay Hp) as Hpok. destruct (block_ok p (cyc G) Hpok) as (Hok & Hc & Hl). destruct (trb_bytes_fields _ Hok) as (F1 & F2 & F3). pose proof Hok as (_ & _ & Hcu).
    rewrite Hbytes, F1, F2, F3, le_val_u32, Hc, Hl, eqb_reflx in * by done. cbn [parameter status block] in *.
    rewrite (step_pos (fun x c => mkDriver x c (take (taken q) (sent q) ++ [(p.1.1, p.1.2, p.2)])) G) in *.
    eapply (Hdone _ (S (taken q))); [reflexivity| |lia|lia]. replace (Z.of_nat (S (taken q))) with (G + 1) by lia. f_equal. rewrite (take_S_r _ _ _ Hp). by destruct p as [[? ?] ?].
  - assert (G = E) as HG by lia. pose proof (Hmem (E - size) ltac:(lia)) as Hs. unfold slot_holds in Hs. rewrite slot_period, cyc_other in Hs. rewrite HG in *.
    assert (has (le_val (slice (ztab (dm_byte (xm s)) (slot E) 16) 12 4)) TRB_C = negb (cyc E)) as Hc.
    { destruct (Z.leb_spec 0 (E - size)).
      - destruct Hs as (p & Hp & Hbytes). pose proof (Forall_lookup_1 _ _ _ _ Hpay Hp) as Hpok. destruct (block_ok p (negb (cyc E)) Hpok) as (Hok & Hc & _). destruct (trb_bytes_fields _ Hok) as (_ & _ & F3). pose proof Hok as (_ & _ & Hcu).
        by rewrite Hbytes, F3, le_val_u32.
      - rewrite Hs. unfold cyc. by rewrite Z.div_small by lia. }
    rewrite Hc in *. replace (Bool.eqb (negb (cyc E)) (cyc E)) with false in * by (by destruct (cyc E)).
    eapply (Hdone _ (taken q)); [reflexivity| |lia|lia]. by replace (Z.of_nat (taken q)) with E by lia.
Qed.

Lemma ack_step s q : ring_inv s q -> exists s', ring_step Ack s = Ok s' /\ ring_inv s' (queue_step q Ack).
Proof.
  intros (Hq1 & Hq2 & Hpay & Hst & Hsz & Hidx & Hpcs & (b & Hb & Herdp) & Hdrv & Hmem). set (G := Z.of_nat (taken q)) in *. assert (didx (drv s) = G `mod` size) as Hd by (by rewrite Hdrv). cbn [ring_step queue_step]. cbv zeta. rewrite Hd. change (start + 16 * (G `mod` size)) with (slot G).
  destruct (slot_range G) as (S1 & S2 & (w & Hw & Ew)). destruct (slot_range (Z.of_nat (acked q))) as (A1 & A2 & (w0 & Hw0 & Ew0)). rewrite Ew.
  pose proof (Z.mod_pos_bound w (2 ^ 28) ltac:(lia)) as Hlow. pose proof (Z.div_mod w (2 ^ 28) ltac:(lia)) as Hdm. destruct (low_half w 0 Hw) as [L1 L2]; [lia|]. rewrite (Z.add_0_r (16 * w)) in L1, L2. rewrite Z.add_0_r in L1.
  unfold wrap. rewrite L1. destruct (clear_busy (w `mod` 2 ^ 28)) as [C1 C2]; [lia|].
  cbn [intr_write]. rewrite C1, C2. cbn [negb]. set (i1 := set_erdp _ (xi s)).
  assert (erdp i1 = 16 * (w0 / 2 ^ 28 * 2 ^ 28 + w `mod` 2 ^ 28) + 0) as Ei1.
  { unfold i1. cbn [erdp set_erdp]. rewrite Herdp, Ew0, write_low by (unfold inW; lia). destruct (low_half w0 b Hw0) as [_ ->]; lia. }
  assert (16 * (w0 / 2 ^ 28 * 2 ^ 28 + w `mod` 2 ^ 28) + 16 <= 2 ^ 64) as Hfit by (assert (w0 / 2 ^ 28 < 2 ^ 32) by (apply Z.div_lt_upper_bound; lia); lia).
  assert (0 <= w0 / 2 ^ 28) as Hw00 by (apply Z.div_pos; lia). rewrite wmul_small by (cbn [er_size set_erdp i1]; unfold inW, TRB_SIZE; rewrite Hsz; lia).
  unfold checked_add, TRB_SIZE. cbn [er_start er_size set_erdp i1]. rewrite Hst, Hsz, (proj2 (Z.ltb_lt (start + 16 * size) _)) by lia.
  assert (forall i c, same_ring (xi s) i -> (c = 0 \/ c = 8) -> erdp i = 16 * (w0 / 2 ^ 28 * 2 ^ 28 + w `mod` 2 ^ 28) + c ->
    exists s', (let '(i, m, r) := intr_write cb 0x1c (16 * w / 2 ^ 32) i (xm s) in _ ← r; Ok (mkSys i m (drv s))) = Ok s' /\ ring_inv s' (mkQueue (sent q) (taken q) (taken q))) as Hdone.
  { intros i c (R1 & R2 & R3 & R4) Hc Hi. cbn [intr_write]. eexists. split; [reflexivity|]. unfold ring_inv. cbn [sent taken acked xi xm drv er_start er_size er_ep_idx er_pcs erdp set_erdp]. fold G.
    split_and!; [lia|lia|lia|done|congruence|congruence|congruence|congruence| |done|done]. exists c. split; [done|]. rewrite Hi, write_high by (unfold inW; rewrite ?L2; first [lia|split; [apply Z.div_pos; lia|apply Z.div_lt_upper_bound; lia]]).
    rewrite L2, Ew. set (k := w0 / 2 ^ 28 * 2 ^ 28 + w `mod` 2 ^ 28). destruct (low_half k c) as [-> _]; [lia|lia|]. unfold k. rewrite Z.add_comm, (Z.add_comm (w0 / 2 ^ 28 * 2 ^ 28)), Z.mod_add, Z.mod_mod by lia. lia. }
  destruct (_ && _).
  - destruct (send_intr_spec i1 _ 0 Ei1) as (R & R5); [by left|lia|lia|]. apply (Hdone (send_intr cb i1) 8); [exact R|by right|exact R5].
  - apply (Hdone i1 0); [done|by left|exact Ei1].
Qed.

Lemma ring_step_inv ev s q : ring_inv s q -> match ev with Send e => event_ok e | _ => True end -> exists s', ring_step ev s = Ok s' /\ ring_inv s' (queue_step q ev).
Proof. intros Hs Hev. destruct ev; [by apply send_step|by apply poll_step|by apply ack_step]. Qed.
Lemma ring_run_inv evs : forall s q, ring_inv s q -> Forall (fun ev => match ev with Send e => event_ok e | _ => True end) evs ->
  exists s', ring_run evs s = Ok s' /\ ring_inv s' (foldl queue_step q evs).
Proof.
  induction evs as [|ev evs IH]; intros s q Hs Hev; [by exists s|]. apply Forall_cons in Hev as [He Hev]. destruct (ring_step_inv ev s q Hs He) as (s1 & E1 & H1).
  destruct (IH s1 _ H1 Hev) as (s2 & E2 & H2). exists s2. cbn [ring_run foldl]. by rewrite E1.
Qed.
End events.

(** C10: The event ring is a bounded queue.  From a ring the driver cleared and set
    up, for every interleaving of events the controller reports, polls and
    acknowledgements of the driver: every operation succeeds, and the driver has
    received exactly the first [taken] of the events [sent], in order and intact.
    An event is left out only when the driver has not acknowledged [size - 1]
    others, or replaced by the report that the ring is full at [size - 2]. *)
Theorem xhci_event_ring_is_queue {M} `{!DmaMemory M} `{!DmaLaws M} cb start size i m evs :
  16 <= size <= 4096 -> 0 <= start /\ start `mod` 16 = 0 /\ start + 16 * size < 2 ^ 64 -> (forall x, start <= x < start + 16 * size -> dm_ram x) ->
  er_start i = start -> er_size i = size -> er_ep_idx i = 0 -> er_pcs i = true -> erdp i = start ->
  (forall x, start <= x < start + 16 * size -> dm_byte m x = 0) ->
  Forall (fun ev => match ev with Send e => event_ok e | _ => True end) evs ->
  let q := foldl (queue_step size) (mkQueue [] 0 0) evs in
  exists s, ring_run cb start size evs (mkSys i m (mkDriver 0 true [])) = Ok s /\ got (drv s) = take (taken q) (sent q) /\
    (acked q <= taken q <= length (sent q))%nat /\ Z.of_nat (length (sent q)) <= Z.of_nat (acked q) + size - 1.
Proof.
  intros Hsize Hstart Hring H1 H2 H3 H4 H5 Hz Hev q.
  assert (ring_inv start size (mkSys i m (mkDriver 0 true [])) (mkQueue [] 0 0)) as H0.
  { unfold ring_inv. cbn [sent taken acked xi xm drv length]. change (Z.of_nat 0) with 0. split_and!; [lia|lia|lia|apply Forall_nil_2|done|done|by rewrite H3, Z.mod_0_l by lia| | | |].
    - rewrite H4. unfold cyc. by rewrite Z.div_0_l by lia.
    - exists 0. split; [by left|]. unfold slot. rewrite Z.mod_0_l by lia. lia.
    - unfold cyc. by rewrite Z.mod_0_l, Z.div_0_l by lia.
    - intros j Hj. unfold slot_holds. rewrite (proj2 (Z.leb_gt _ _)) by lia. destruct (slot_range start size Hsize Hstart j) as (S1 & S2 & _).
      replace (ztab (dm_byte m) (slot start size j) 16) with (replicate 16 0); [done|]. apply list_eq. intros k. destruct (decide (k < 16)%nat) as [Hk|Hk].
      + rewrite ztab_lookup, lookup_replicate_2 by done. f_equal. symmetry. apply Hz. lia.
      + rewrite !lookup_ge_None_2; [done|rewrite ztab_length; lia|rewrite length_replicate; lia]. }
  destruct (ring_run_inv cb start size Hsize Hstart Hring evs _ _ H0 Hev) as (s & E & Hinv). exists s. split; [done|].
  destruct Hinv as (Hq1 & Hq2 & _ & _ & _ & _ & _ & _ & Hdrv & _). fold q in Hq1, Hq2, Hdrv. split_and!; [by rewrite Hdrv|lia..].
Qed.

(** ** Examples *)

#[local] Existing Instance ex_memory.
#[local] Existing Instance ex_laws.

Definition ex_event (n : Z) : XhciEvent := mkEvent ErTransfer Success n 8 0 1 2.
Definition ex_intr : XhciInterrupter := set_erdp 0x1000 (set_ring 0x1000 16 (XhciInterrupter_new 0)).
Definition ex_evs : list ring_ev := [Send (ex_event 0x10); Poll; Send (ex_event 0x20); Ack; Poll; Poll; Send (ex_event 0x30)].

Lemma xhci_event_ring_is_queue_witness :
  exists s, ring_run None 0x1000 16 ex_evs (mkSys ex_intr (memory_with 0 []) (mkDriver 0 true [])) = Ok s /\ got (drv s) = map payload_of [ex_event 0x10; ex_event 0x20].
Proof.
  destruct (xhci_event_ring_is_queue None 0x1000 16 ex_intr (memory_with 0 []) ex_evs) as (s & E & Hg & _).
  - lia.
  - split_and!; [lia|reflexivity|lia].
  - apply ex3_range; lia.
  - reflexivity.
  - reflexivity.
  - reflexivity.
  - reflexivity.
  - reflexivity.
  - intros x _. change (mem_write (fun _ => 0) (0x50000 + 0) [] (host ex3_store ex3_view x) = 0). unfold mem_write. by destruct (_ && _).
  - repeat (apply Forall_cons; split; [first [exact I|split_and!; done]|]). apply Forall_nil_2.
  - exists s. split; [exact E|]. rewrite Hg. vm_compute. reflexivity.
Defined.

(** A control transfer over a link: setup at [0x100], link to [0x120], status. *)
Definition ex_setup : XhciTRB := mkTRB 0 8 0x801 0 false.
Definition ex_link (a : Z) : XhciTRB := mkTRB a 0 0x1801 0 false.
Definition ex_status : XhciTRB := mkTRB 0 0 0x1001 0 false.
Definition ex_td : Mach bool := memory_with 0x100 (trb_bytes ex_setup ++ trb_bytes (ex_link 0x120) ++ trb_bytes ex_status).

Lemma ex_td_at a t : 0 <= a <= 0x1000 -> ztab (dm_byte ex_td) a 16 = trb_bytes t -> at_mem ex_td a (trb_bytes t).
Proof. intros Ha E. split_and!; [lia|lia|apply ex3_range; lia|exact E]. Qed.
Lemma xhci_fetch_td_witness :
  fetch_td (mkTrRing 0x100 true 0) ex_td = (mkTrRing 0x130 true 0, ex_td, Ok (Some [mkTRB 0 8 0x801 0x100 true; mkTRB 0 0 0x1001 0x120 true])).
Proof.
  destruct (xhci_fetch_td (mkTrRing 0x100 true 0) ex_td [ex_setup; ex_link 0x120] ex_status) as [H _].
  - split; [split_and!; split; done|]. split; [exact (ex_td_at 0x100 ex_setup ltac:(lia) eq_refl)|]. split; [reflexivity|].
    split; [split_and!; split; done|]. split; [exact (ex_td_at 0x110 (ex_link 0x120) ltac:(lia) eq_refl)|]. split; [reflexivity|exact I].
  - split_and!; vm_compute; done.
  - vm_compute. lia.
  - vm_compute. reflexivity.
  - split_and!; split; done.
  - exact (ex_td_at 0x120 ex_status ltac:(lia) eq_refl).
  - apply H; vm_compute; reflexivity.
Defined.

(** A link that leads to itself, and one to a register that does not return. *)
Lemma ex_link_ok a : dm_ok (memory_with 0x100 (trb_bytes (ex_link a))).
Proof. apply memory_with_ok. apply Forall_app; split; [apply le_bytes_is_bytes|apply Forall_app; split; apply le_bytes_is_bytes]. Qed.
Lemma xhci_fetch_command_ends_witness :
  (exists r m, fetch_trb (mkCmdRing 0x100 true) (memory_with 0x100 (trb_bytes (ex_link 0x100))) = (r, m, Err LinkLimit) /\ dm_ok m) /\
  (exists r m, fetch_trb (mkCmdRing 0x100 true) (memory_with 0x100 (trb_bytes (ex_link 0x2800))) = (r, m, Panic) /\ dm_stuck m).
Proof.
  split.
  - destruct (xhci_fetch_command_ends (mkCmdRing 0x100 true) (memory_with 0x100 (trb_bytes (ex_link 0x100))) (ex_link_ok 0x100) ltac:(split; done)) as [H _].
    destruct (fetch_trb _ _) as [[r m] x] eqn:E. assert (x = Err LinkLimit) as -> by (apply (f_equal snd) in E; vm_compute in E; by rewrite <-E). exists r, m. by split.
  - destruct (xhci_fetch_command_ends (mkCmdRing 0x100 true) (memory_with 0x100 (trb_bytes (ex_link 0x2800))) (ex_link_ok 0x2800) ltac:(split; done)) as [H _].
    destruct (fetch_trb _ _) as [[r m] x] eqn:E. assert (x = Panic) as -> by (apply (f_equal snd) in E; vm_compute in E; by rewrite <-E). exists r, m. split; [done|]. apply H.
Defined.

(** The upper half of an address is shifted as a 32 bit number, so bits from 48 on
    are lost. *)
Example address_truncated : addr64_from_u32 0x1000 0x10000 = 0x1000.
Proof. vm_compute. done. Qed.
