(* ===== verification/IrqRoute.v ===== *)
(** * Interrupt routing ([hypervisor/src/kvm/interrupt.rs], [hypervisor/src/kvm/mod.rs])

    [IrqRouteTable] holds the routes handed to KVM and a [Bitmap<u64>] of the
    global system interrupt numbers (GSIs) in use; [KVMFds] pairs it with the
    VM file descriptor.  The kernel is outside the sources: [IrqKernel] lists
    the interrupt ioctls, [IrqKernelSpec] what the KVM documentation says of
    them.  The x86_64 build is modelled. *)
From stdpp Require Import prelude list gmap.
From Stdlib Require Import ZArith Lia.
From S2P Require Import Prelude Bitmap.

Definition KVM_IRQ_ROUTING_IRQCHIP : Z := 1.
Definition KVM_IRQ_ROUTING_MSI : Z := 2.
Definition KVM_IRQCHIP_PIC_MASTER : Z := 0.
Definition KVM_IRQCHIP_PIC_SLAVE : Z := 1.
Definition KVM_IRQCHIP_IOAPIC : Z := 2.
Definition IOAPIC_NUM_PINS : Z := 24.
Definition PIC_MASTER_PINS : Z := 8.
Definition PIC_SLACE_PINS : Z := 8.

(** The union [u] of [kvm_irq_routing_entry], the members the code fills. *)
Inductive IrqChip :=
| Irqchip (irqchip pin : Z)
| Msi (address_lo address_hi data : Z).

#[export] Instance IrqChip_eq_dec : EqDecision IrqChip.
Proof. solve_decision. Defined.

Record IrqRouteEntry := mkRoute {
  re_gsi : Z;
  type_ : Z;
  re_flags : Z;
  u : IrqChip
}.

#[export] Instance IrqRouteEntry_eq_dec : EqDecision IrqRouteEntry.
Proof. solve_decision. Defined.

Record MsiVector := mkMsiVector {
  msg_addr_lo : Z;
  msg_addr_hi : Z;
  msg_data : Z;
  masked : bool
}.

(** A failed bitmap operation or a failed ioctl. *)
Inductive IrqError := EBitmap (e : UtilError) | EIoctl.

Record IrqRouteTable := mkIrqTable {
  irq_routes : list IrqRouteEntry;
  gsi_bitmap : list Z
}.

Abbreviation TM := (sres IrqRouteTable IrqError).

(** ** The table *)

Definition get_maximum_gsi_cnt (irq_routing_ext : Z) : Z :=
  if irq_routing_ext <? 0 then 0 else irq_routing_ext.

Definition create_irq_route_entry (gsi irqchip pin : Z) : IrqRouteEntry :=
  mkRoute gsi KVM_IRQ_ROUTING_IRQCHIP 0 (Irqchip irqchip pin).

Definition IrqRouteTable_default : IrqRouteTable := mkIrqTable [] (Bitmap.new 0).

(** [irq_routing_ext] is the answer to [KVM_CHECK_EXTENSION]. *)
Definition IrqRouteTable_new (irq_routing_ext : Z) : IrqRouteTable :=
  mkIrqTable [] (Bitmap.new (Z.to_nat (get_maximum_gsi_cnt irq_routing_ext))).

Definition push_route (e : IrqRouteEntry) : TM unit :=
  fun t => (mkIrqTable (irq_routes t ++ [e]) (gsi_bitmap t), Ok tt).

(** A bitmap operation on [gsi_bitmap]. *)
Definition on_bitmap (f : list Z -> list Z * res UtilError unit) : TM unit := fun t =>
  let '(d, r) := f (gsi_bitmap t) in
  (mkIrqTable (irq_routes t) d,
   match r with Ok a => Ok a | Err e => Err (EBitmap e) | Panic => Panic end).

(** [unwrap] of a [Result]. *)
Definition sunwrap {S E A} (m : sres S E A) : sres S E A := fun s =>
  match m s with (s, Err _) => (s, Panic) | out => out end.

(** [for i in i..i+n] *)
Fixpoint init_loop (n : nat) (i : Z) : TM unit :=
  match n with
  | O => mret tt
  | S n =>
    _ ← (if i <? PIC_MASTER_PINS
         then push_route (create_irq_route_entry i KVM_IRQCHIP_PIC_MASTER i)
         else if i <? PIC_MASTER_PINS + PIC_SLACE_PINS
         then push_route (create_irq_route_entry i KVM_IRQCHIP_PIC_SLAVE (i - PIC_MASTER_PINS))
         else mret tt);
    _ ← push_route (create_irq_route_entry i KVM_IRQCHIP_IOAPIC i);
    _ ← sunwrap (on_bitmap (fun d => Bitmap.set 64 d i));
    init_loop n (i + 1)
  end.
Definition init_irq_route_table : TM unit := init_loop (Z.to_nat IOAPIC_NUM_PINS) 0.

Definition add_msi_route (gsi : Z) (v : MsiVector) : TM unit :=
  push_route (mkRoute gsi KVM_IRQ_ROUTING_MSI 0
                (Msi (msg_addr_lo v) (msg_addr_hi v) (msg_data v))).

(** [Vec::remove] of the first entry with this GSI. *)
Fixpoint remove_first_route (gsi : Z) (l : list IrqRouteEntry) : option (list IrqRouteEntry) :=
  match l with
  | [] => None
  | e :: l => if re_gsi e =? gsi then Some l
              else l ← remove_first_route gsi l; Some (e :: l)
  end.

(** [while let Some((index, _)) = ..find(..)]: each turn drops one entry, so
    the length of the vector is fuel enough ([remove_routes_filter]). *)
Fixpoint remove_routes (fuel : nat) (gsi : Z) (l : list IrqRouteEntry) : list IrqRouteEntry :=
  match remove_first_route gsi l with
  | None => l
  | Some l' => match fuel with O => l | S fuel => remove_routes fuel gsi l' end
  end.
Definition remove_irq_route (gsi : Z) : TM unit := fun t =>
  (mkIrqTable (remove_routes (length (irq_routes t)) gsi (irq_routes t)) (gsi_bitmap t), Ok tt).

Definition update_msi_route (gsi : Z) (v : MsiVector) : TM unit :=
  _ ← remove_irq_route gsi; add_msi_route gsi v.

Definition bitmap_err {A} (r : res UtilError A) : res IrqError A :=
  match r with Ok a => Ok a | Err e => Err (EBitmap e) | Panic => Panic end.

Definition allocate_gsi : TM Z :=
  t ← sget;
  free_gsi ← slift (bitmap_err (Bitmap.find_next_zero 64 (gsi_bitmap t) 0));
  _ ← on_bitmap (fun d => Bitmap.set 64 d free_gsi);
  mret (wrap 32 free_gsi).

Definition release_gsi (gsi : Z) : TM unit :=
  _ ← on_bitmap (fun d => Bitmap.clear 64 d gsi);
  remove_irq_route gsi.

Definition get_irq_route_entry (t : IrqRouteTable) (gsi : Z) : list IrqRouteEntry :=
  filter (fun e => gsi = re_gsi e) (irq_routes t).

(** ** The VM file descriptor *)

(** [kvm_msi] *)
Record kvm_msi := mkKvmMsi {
  km_address_lo : Z;
  km_address_hi : Z;
  km_data : Z;
  km_flags : Z;
  km_devid : Z
}.

#[export] Instance kvm_msi_eq_dec : EqDecision kvm_msi.
Proof. solve_decision. Defined.

(** The ioctls; [false] is an error.  Event fds are their raw descriptors. *)
Class IrqKernel (K : Type) := {
  set_gsi_routing : K -> list IrqRouteEntry -> K * bool;
  kvm_register_irqfd : K -> Z -> Z -> K * bool;
  kvm_unregister_irqfd : K -> Z -> Z -> K * bool;
  kvm_set_irq_line : K -> Z -> bool -> K * bool;
  signal_msi : K -> kvm_msi -> K * bool
}.

(** [KVMFds], the fields about interrupts. *)
Record KVMFds (K : Type) := mkFds {
  irq_route_table : IrqRouteTable;
  vm_fd : option K
}.
Arguments mkFds {K}.
Arguments irq_route_table {K}.
Arguments vm_fd {K}.

Section fds.
Context {K : Type} `{!IrqKernel K}.

Abbreviation FM := (sres (KVMFds K) IrqError).

(** [irq_route_table.lock().unwrap().op(..)] *)
Definition on_table {A} (m : TM A) : FM A := fun s =>
  let '(t, r) := m (irq_route_table s) in (mkFds t (vm_fd s), r).

(** [vm_fd.as_ref().unwrap().op(..)] *)
Definition on_vm (f : K -> K * bool) : FM unit := fun s =>
  match vm_fd s with
  | None => (s, Panic)
  | Some k => let '(k, ok) := f k in
              (mkFds (irq_route_table s) (Some k), if ok then Ok tt else Err EIoctl)
  end.

Definition commit_irq_routing : FM unit :=
  s ← sget;
  on_vm (fun k => set_gsi_routing k (irq_routes (irq_route_table s))).
Definition register_irqfd (fd gsi : Z) : FM unit := on_vm (fun k => kvm_register_irqfd k fd gsi).
Definition unregister_irqfd (fd gsi : Z) : FM unit :=
  on_vm (fun k => kvm_unregister_irqfd k fd gsi).
Definition set_irq_line (irq : Z) (level : bool) : FM unit :=
  on_vm (fun k => kvm_set_irq_line k irq level).
End fds.

(** * Theorems *)

(** What the KVM documentation says of the routing ioctls: the routes given
    replace the old ones, an irqfd is bound to or detached from a GSI, a
    refused call changes nothing, and raising a message leaves both alone. *)
Class IrqKernelSpec (K : Type) `{!IrqKernel K} := {
  k_routes : K -> list IrqRouteEntry;
  k_irqfds : K -> gset (Z * Z);
  set_gsi_routing_spec k l k' ok : set_gsi_routing k l = (k', ok) ->
    k_irqfds k' = k_irqfds k /\ k_routes k' = (if ok then l else k_routes k);
  register_irqfd_spec k fd gsi k' ok : kvm_register_irqfd k fd gsi = (k', ok) ->
    k_routes k' = k_routes k /\
    k_irqfds k' = (if ok then {[(fd, gsi)]} ∪ k_irqfds k else k_irqfds k);
  unregister_irqfd_spec k fd gsi k' ok : kvm_unregister_irqfd k fd gsi = (k', ok) ->
    k_routes k' = k_routes k /\
    k_irqfds k' = (if ok then k_irqfds k ∖ {[(fd, gsi)]} else k_irqfds k);
  signal_msi_spec k m k' ok : signal_msi k m = (k', ok) ->
    k_routes k' = k_routes k /\ k_irqfds k' = k_irqfds k
}.

(** ** Routes of one GSI *)

Lemma remove_first_route_None gsi l :
  remove_first_route gsi l = None -> filter (fun e => re_gsi e <> gsi) l = l.
Proof.
  induction l as [|e l IH]; simpl; [done|]. destruct (Z.eqb_spec (re_gsi e) gsi); [done|].
  destruct (remove_first_route gsi l); [done|]. intros _.
  rewrite filter_cons_True by done. f_equal. by apply IH.
Qed.

Lemma remove_first_route_Some gsi l l' :
  remove_first_route gsi l = Some l' ->
  length l = S (length l') /\
  filter (fun e => re_gsi e <> gsi) l = filter (fun e => re_gsi e <> gsi) l'.
Proof.
  revert l'. induction l as [|e l IH]; intros l'; simpl; [done|].
  destruct (Z.eqb_spec (re_gsi e) gsi) as [He|He].
  - intros [= ->]. split; [done|]. by rewrite filter_cons_False by auto.
  - destruct (remove_first_route gsi l) as [l1|]; [|done]. intros [= <-].
    destruct (IH l1 eq_refl) as [Hl Hf]. split; [simpl; lia|].
    rewrite !filter_cons_True by done. by rewrite Hf.
Qed.

(** The removal loop ends with every route of the GSI gone, the others kept
    in order. *)
Lemma remove_routes_filter fuel gsi l :
  (length l <= fuel)%nat -> remove_routes fuel gsi l = filter (fun e => re_gsi e <> gsi) l.
Proof.
  revert l. induction fuel as [|fuel IH]; intros l Hl; simpl;
    (destruct (remove_first_route gsi l) as [l'|] eqn:E;
     [apply remove_first_route_Some in E as [? Hf]|by rewrite remove_first_route_None]).
  - lia.
  - rewrite Hf. apply IH. lia.
Qed.

Definition others (gsi : Z) (l : list IrqRouteEntry) : list IrqRouteEntry :=
  filter (fun e => re_gsi e <> gsi) l.
Definition msi_entry (gsi : Z) (v : MsiVector) : IrqRouteEntry :=
  mkRoute gsi KVM_IRQ_ROUTING_MSI 0 (Msi (msg_addr_lo v) (msg_addr_hi v) (msg_data v)).

Lemma remove_irq_route_eq gsi t :
  remove_irq_route gsi t = (mkIrqTable (others gsi (irq_routes t)) (gsi_bitmap t), Ok tt).
Proof. unfold remove_irq_route. by rewrite remove_routes_filter. Qed.

Lemma update_msi_route_eq gsi v t :
  update_msi_route gsi v t =
    (mkIrqTable (others gsi (irq_routes t) ++ [msi_entry gsi v]) (gsi_bitmap t), Ok tt).
Proof.
  unfold update_msi_route. rewrite (sres_step _ _ _ _ _ (remove_irq_route_eq gsi t)). done.
Qed.

Lemma entries_of_app t l1 l2 d gsi :
  irq_routes t = l1 ++ l2 ->
  get_irq_route_entry t gsi =
    get_irq_route_entry (mkIrqTable l1 d) gsi ++ get_irq_route_entry (mkIrqTable l2 d) gsi.
Proof. unfold get_irq_route_entry. intros ->. by rewrite filter_app. Qed.

Lemma entries_of_others gsi h l d :
  get_irq_route_entry (mkIrqTable (others gsi l) d) h =
    if decide (h = gsi) then [] else get_irq_route_entry (mkIrqTable l d) h.
Proof.
  unfold get_irq_route_entry, others. simpl. rewrite list_filter_filter.
  destruct (decide (h = gsi)) as [->|Hne].
  - induction l; [done|]. rewrite filter_cons_False; [done|]. by intros [? ?].
  - apply list_filter_iff. intros e. split; [by intros [? ?]|]. intros ->. by split; [congruence|].
Qed.

Lemma entries_of_one gsi v h d :
  get_irq_route_entry (mkIrqTable [msi_entry gsi v] d) h =
    if decide (h = gsi) then [msi_entry gsi v] else [].
Proof.
  unfold get_irq_route_entry. simpl. rewrite filter_cons. simpl.
  destruct (decide (h = gsi)); done.
Qed.

(** ** The GSI numbers *)

Definition gsi_used (t : IrqRouteTable) (g : Z) : bool := Bitmap.bit_at 64 (gsi_bitmap t) g.
(** How many GSIs the bitmap has room for. *)
Definition capacity (t : IrqRouteTable) : Z := Bitmap.size (gsi_bitmap t) * 64.

(** Every route belongs to a GSI in use, and GSIs fit in a [u32]. *)
Definition table_wf (t : IrqRouteTable) : Prop :=
  Bitmap.wf 64 (gsi_bitmap t) /\ capacity t <= 2 ^ 32 /\
  Forall (fun e => 0 <= re_gsi e /\ gsi_used t (re_gsi e) = true) (irq_routes t).

Lemma on_bitmap_ok f t v a :
  Bitmap.range_post 64 v (gsi_bitmap t) a 1 (f (gsi_bitmap t)) ->
  exists t', on_bitmap f t = (t', Ok tt) /\ irq_routes t' = irq_routes t /\
    Bitmap.wf 64 (gsi_bitmap t') /\ capacity t' = capacity t /\
    forall g, 0 <= g -> gsi_used t' g = if g =? a then v else gsi_used t g.
Proof.
  intros (d & Hf & ? & Hs & Hb). unfold on_bitmap. rewrite Hf.
  eexists; split; [done|]. simpl. split_and!; try done; [unfold capacity; simpl; by rewrite Hs|].
  intros g ?. unfold gsi_used. simpl. rewrite Hb by done. unfold Bitmap.in_range.
  zcases; done || lia.
Qed.

Lemma allocate_gsi_ok t :
  table_wf t -> (exists g, 0 <= g < capacity t /\ gsi_used t g = false) ->
  exists g t', allocate_gsi t = (t', Ok g) /\ 0 <= g < capacity t /\
    gsi_used t g = false /\ (forall h, 0 <= h < g -> gsi_used t h = true) /\
    irq_routes t' = irq_routes t /\ capacity t' = capacity t /\ table_wf t' /\
    forall h, 0 <= h -> gsi_used t' h = (h =? g) || gsi_used t h.
Proof.
  intros (Hwf & Hcap & Hr) (g0 & Hg0 & Hfree).
  destruct (Bitmap.find_first_zero_ok 64 ltac:(lia) _ Hwf) as (g & Hfind & Hg & Hbelow & Hat).
  fold (capacity t) in *. unfold gsi_used in Hfree.
  assert (g < capacity t) as Hlt.
  { destruct (decide (g < capacity t)); [done|]. rewrite Hbelow in Hfree by lia. done. }
  destruct (on_bitmap_ok (fun d => Bitmap.set 64 d g) t true g) as (t' & Ht & Hr' & ? & Hc & Hu).
  { apply Bitmap.set_bit_ok; [lia|done|]. fold (capacity t). lia. }
  exists g, t'. split_and!; try done; try lia.
  - unfold allocate_gsi. rewrite (sres_step _ _ t t t) by done. rewrite Hfind.
    cbn [bitmap_err]. rewrite slift_Ok_bind, (sres_step _ _ _ _ _ Ht).
    rewrite wrap_small; [done|]. unfold inW. lia.
  - by apply Hat.
  - split_and!; [done|lia|]. rewrite Hr'. eapply Forall_impl; [done|].
    intros e [? He]. split; [done|]. rewrite Hu by done. zcase; done.
Qed.

(** Whether a GSI is free can be decided. *)
Lemma dec_free t :
  ~ (forall g, 0 <= g < capacity t -> gsi_used t g = true) ->
  exists g, 0 <= g < capacity t /\ gsi_used t g = false.
Proof.
  intros Hn. destruct (decide (Exists (fun g => gsi_used t g = false) (ztab id 0 (Z.to_nat (capacity t)))))
    as [He|Hne].
  - apply Exists_exists in He as (g & Hin & Hg). apply list_elem_of_lookup in Hin as [i Hi].
    pose proof (lookup_lt_Some _ _ _ Hi) as Hlt. rewrite ztab_length in Hlt.
    rewrite ztab_lookup in Hi by done. injection Hi as <-. exists (0 + Z.of_nat i). split; [lia|done].
  - destruct Hn. intros g Hg. destruct (gsi_used t g) eqn:E; [done|]. destruct Hne.
    apply Exists_exists. exists g. split; [|done]. apply list_elem_of_lookup. exists (Z.to_nat g).
    rewrite ztab_lookup by lia. f_equal. unfold id. lia.
Qed.

(** Only a full bitmap refuses; the table stays as it is. *)
Lemma allocate_gsi_full t :
  table_wf t -> (forall g, 0 <= g < capacity t -> gsi_used t g = true) ->
  exists e, allocate_gsi t = (t, Err e).
Proof.
  intros (Hwf & Hcap & _) Hall.
  destruct (Bitmap.find_first_zero_ok 64 ltac:(lia) _ Hwf) as (g & Hfind & Hg & _ & Hat).
  fold (capacity t) in *.
  assert (g = capacity t) as ->.
  { destruct (decide (g < capacity t)) as [Hlt|]; [|lia]. specialize (Hall g ltac:(lia)).
    unfold gsi_used in Hall. rewrite Hat in Hall by done. done. }
  destruct (Bitmap.set_bit_err 64 ltac:(lia) _ (capacity t) Hwf) as (e & He); [unfold capacity; lia|].
  exists (EBitmap e). unfold allocate_gsi. rewrite (sres_step _ _ t t t) by done. rewrite Hfind.
  cbn [bitmap_err]. rewrite slift_Ok_bind. unfold on_bitmap, mbind, sres_bind. rewrite He.
  by destruct t.
Qed.

Lemma release_gsi_ok t g :
  table_wf t -> 0 <= g < capacity t ->
  exists t', release_gsi g t = (t', Ok tt) /\ table_wf t' /\ capacity t' = capacity t /\
    irq_routes t' = others g (irq_routes t) /\
    forall h, 0 <= h -> gsi_used t' h = negb (h =? g) && gsi_used t h.
Proof.
  intros (Hwf & Hcap & Hr) Hg.
  destruct (on_bitmap_ok (fun d => Bitmap.clear 64 d g) t false g) as (t' & Ht & Hr' & ? & Hc & Hu).
  { by apply Bitmap.clear_bit_ok. }
  eexists. split.
  { unfold release_gsi. rewrite (sres_step _ _ _ _ _ Ht). apply remove_irq_route_eq. }
  split_and!; simpl; [|done|by rewrite Hr'|].
  - split_and!; [done|unfold capacity in *; simpl; lia|]. simpl. rewrite Hr'.
    apply Forall_forall. intros e [Hne He]%list_elem_of_filter.
    rewrite Forall_forall in Hr. destruct (Hr e He) as [? Hue]. split; [done|].
    unfold gsi_used in *. simpl. rewrite Hu by done. zcase; [done|exact Hue].
  - intros h ?. unfold gsi_used in *. simpl. rewrite Hu by done. by destruct (h =? g).
Qed.

(** A GSI that is not in use has no route. *)
Lemma unused_no_routes t g :
  table_wf t -> gsi_used t g = false -> others g (irq_routes t) = irq_routes t.
Proof.
  intros (_ & _ & Hr) Hg. unfold others. induction (irq_routes t) as [|e l IH]; [done|].
  apply Forall_cons in Hr as [[_ He] Hr]. rewrite filter_cons_True by congruence.
  by rewrite IH.
Qed.

Lemma others_app g l1 l2 : others g (l1 ++ l2) = others g l1 ++ others g l2.
Proof. apply filter_app. Qed.

Lemma entries_unused t g d :
  table_wf t -> gsi_used t g = false -> get_irq_route_entry (mkIrqTable (irq_routes t) d) g = [].
Proof.
  intros Hwf Hg. rewrite <-(unused_no_routes t g Hwf Hg), entries_of_others. by case_decide.
Qed.

(** ** The table after [init_irq_route_table] *)

Lemma init_loop_ok n : forall i t,
  0 <= i -> table_wf t -> i + Z.of_nat n <= capacity t ->
  exists t', init_loop n i t = (t', Ok tt) /\ table_wf t' /\ capacity t' = capacity t /\
    forall g, 0 <= g -> gsi_used t' g = ((i <=? g) && (g <? i + Z.of_nat n)) || gsi_used t g.
Proof.
  induction n as [|n IH]; intros i t ? Hwf Hcap; cbn [init_loop].
  { exists t. split_and!; try done. intros g ?. zcases; done || lia. }
  assert (exists t1, (if i <? PIC_MASTER_PINS
         then push_route (create_irq_route_entry i KVM_IRQCHIP_PIC_MASTER i)
         else if i <? PIC_MASTER_PINS + PIC_SLACE_PINS
         then push_route (create_irq_route_entry i KVM_IRQCHIP_PIC_SLAVE (i - PIC_MASTER_PINS))
         else mret tt) t = (t1, Ok tt) /\ gsi_bitmap t1 = gsi_bitmap t /\
         exists l, irq_routes t1 = irq_routes t ++ l /\ Forall (fun e => re_gsi e = i) l)
    as (t1 & E1 & Hb1 & l & Hl & Hgl).
  { zcases; eexists; (split; [done|]; split; [done|]);
      [exists [create_irq_route_entry i KVM_IRQCHIP_PIC_MASTER i]
      |exists [create_irq_route_entry i KVM_IRQCHIP_PIC_SLAVE (i - PIC_MASTER_PINS)]
      |exists []; by rewrite app_nil_r]; by repeat constructor. }
  rewrite (sres_step _ _ _ _ _ E1). erewrite sres_step by done.
  destruct Hwf as (Hwf & Hc & Hr).
  set (t2 := mkIrqTable _ _).
  assert (capacity t2 = capacity t) as Hc2 by (unfold capacity; simpl; by rewrite Hb1).
  destruct (on_bitmap_ok (fun d => Bitmap.set 64 d i) t2 true i) as (t3 & E3 & Hr3 & Hwf3 & Hc3 & Hu3).
  { apply Bitmap.set_bit_ok; [lia|simpl; by rewrite Hb1|]. fold (capacity t2). lia. }
  assert (forall g, gsi_used t2 g = gsi_used t g) as Hu2 by (intros; unfold gsi_used; simpl; by rewrite Hb1).
  erewrite sres_step; [|unfold sunwrap; by rewrite E3].
  destruct (IH (i + 1) t3) as (t' & -> & ? & Hc' & Hu'); [lia| |lia|].
  { split_and!; [done|lia|]. rewrite Hr3. simpl. rewrite Hl, !Forall_app. split_and!.
    - eapply Forall_impl; [done|]. intros e [? He]. split; [done|].
      rewrite Hu3, Hu2 by done. by zcase.
    - eapply Forall_impl; [done|]. simpl. intros e ->. split; [done|].
      rewrite Hu3 by done. by rewrite Z.eqb_refl.
    - constructor; [|done]. simpl. split; [done|]. rewrite Hu3 by done. by rewrite Z.eqb_refl. }
  exists t'. split_and!; try done; [lia|]. intros g ?. rewrite Hu', Hu3, Hu2 by done.
  zcases; done || lia.
Qed.

Lemma new_table_wf ext :
  ext <= 2 ^ 26 -> table_wf (IrqRouteTable_new ext) /\
  capacity (IrqRouteTable_new ext) = 64 * get_maximum_gsi_cnt ext /\
  forall g, gsi_used (IrqRouteTable_new ext) g = false.
Proof.
  intros He. unfold IrqRouteTable_new, table_wf, capacity, gsi_used, Bitmap.wf, Bitmap.size, Bitmap.new.
  simpl. rewrite length_replicate.
  assert (0 <= get_maximum_gsi_cnt ext <= 2 ^ 26) by (unfold get_maximum_gsi_cnt; zcase; lia).
  split_and!; try lia; try done.
  - apply Forall_replicate. done.
  - intros g. unfold Bitmap.bit_at.
    destruct (replicate _ _ !! _) eqn:E; [|done]. apply lookup_replicate in E as [-> _].
    apply Z.testbit_0_l.
Qed.

(** ** Properties *)

(** Initialising the table of a fresh VM succeeds for every number of
    GSIs the kernel may report and leaves exactly the 24 pins of the I/O APIC
    in use, each route of the table on a GSI in use. *)
Theorem init_irq_route_table_correct ext :
  1 <= ext <= 2 ^ 26 ->
  exists t, init_irq_route_table (IrqRouteTable_new ext) = (t, Ok tt) /\ table_wf t /\
    forall g, 0 <= g -> gsi_used t g = (g <? IOAPIC_NUM_PINS).
Proof.
  intros He. destruct (new_table_wf ext) as (Hwf & Hcap & Hfree); [lia|].
  unfold init_irq_route_table.
  destruct (init_loop_ok (Z.to_nat IOAPIC_NUM_PINS) 0 _ ltac:(lia) Hwf) as (t & -> & ? & _ & Hu).
  { rewrite Hcap. unfold get_maximum_gsi_cnt, IOAPIC_NUM_PINS. zcase; lia. }
  exists t. split_and!; try done. intros g ?. rewrite Hu, Hfree, orb_false_r by done.
  unfold IOAPIC_NUM_PINS. zcases; done || lia.
Qed.

Example init_irq_route_table_witness :
  exists t, init_irq_route_table (IrqRouteTable_new 4096) = (t, Ok tt) /\ table_wf t /\
    forall g, 0 <= g -> gsi_used t g = (g <? IOAPIC_NUM_PINS).
Proof. apply (init_irq_route_table_correct 4096). lia. Defined.

(** C36: The life of a GSI.  While one is free, [allocate_gsi] returns the
    least of them, which has no route; a route added for it is its only one;
    and releasing it gives back the routes and the GSIs in use there were
    before the allocation. *)
Theorem gsi_lifecycle t v :
  table_wf t -> (exists g, 0 <= g < capacity t /\ gsi_used t g = false) ->
  exists g t1 t2 t3,
    allocate_gsi t = (t1, Ok g) /\ gsi_used t g = false /\
    (forall h, 0 <= h < g -> gsi_used t h = true) /\
    add_msi_route g v t1 = (t2, Ok tt) /\ table_wf t2 /\
    get_irq_route_entry t2 g = [msi_entry g v] /\
    release_gsi g t2 = (t3, Ok tt) /\ table_wf t3 /\ irq_routes t3 = irq_routes t /\
    forall h, 0 <= h -> gsi_used t3 h = gsi_used t h.
Proof.
  intros Hwf Hfree.
  destruct (allocate_gsi_ok t Hwf Hfree) as (g & t1 & Ha & Hg & Hgf & Hlow & Hr1 & Hc1 & Hwf1 & Hu1).
  set (t2 := mkIrqTable (irq_routes t1 ++ [msi_entry g v]) (gsi_bitmap t1)).
  assert (table_wf t2) as Hwf2.
  { destruct Hwf1 as (? & ? & ?). split_and!; [done|done|]. simpl. apply Forall_app. split; [done|].
    constructor; [|done]. simpl. split; [lia|]. change (gsi_used t1 g = true).
    rewrite Hu1 by lia. by rewrite Z.eqb_refl. }
  destruct (release_gsi_ok t2 g Hwf2) as (t3 & Hrel & ? & _ & Hr3 & Hu3).
  { change (0 <= g < capacity t1). lia. }
  exists g, t1, t2, t3. split_and!; try done.
  - rewrite (entries_of_app t2 (irq_routes t1) [msi_entry g v] []) by done.
    rewrite entries_of_one, decide_True by done. rewrite Hr1.
    by rewrite (entries_unused t g) by done.
  - rewrite Hr3. simpl. rewrite others_app, Hr1, unused_no_routes by done.
    unfold others. rewrite filter_cons_False by (simpl; auto). by rewrite app_nil_r.
  - intros h ?. rewrite Hu3 by done. change (gsi_used t2 h) with (gsi_used t1 h).
    rewrite Hu1 by done. zcase; simpl; [by subst|done].
Qed.

Example gsi_lifecycle_witness :
  exists g t1 t2 t3,
    allocate_gsi (mkIrqTable [] [0xff]) = (t1, Ok g) /\
    gsi_used (mkIrqTable [] [0xff]) g = false /\
    (forall h, 0 <= h < g -> gsi_used (mkIrqTable [] [0xff]) h = true) /\
    add_msi_route g (mkMsiVector 0xfee00000 0 0x41 false) t1 = (t2, Ok tt) /\ table_wf t2 /\
    get_irq_route_entry t2 g = [msi_entry g (mkMsiVector 0xfee00000 0 0x41 false)] /\
    release_gsi g t2 = (t3, Ok tt) /\ table_wf t3 /\
    irq_routes t3 = irq_routes (mkIrqTable [] [0xff]) /\
    forall h, 0 <= h -> gsi_used t3 h = gsi_used (mkIrqTable [] [0xff]) h.
Proof.
  apply (gsi_lifecycle (mkIrqTable [] [0xff]) (mkMsiVector 0xfee00000 0 0x41 false)).
  - split_and!; [|vm_compute; done|done]. split; [repeat constructor; vm_compute; done|done].
  - exists 8. vm_compute. done.
Defined.

(** The bitmap is created with one 64-bit word per GSI the kernel supports,
    so [allocate_gsi] goes on to number [gsi_count] and beyond. *)
Example allocate_gsi_past_kernel_limit :
  let t0 := IrqRouteTable_new 24 in
  let t1 := (init_irq_route_table t0).1 in
  get_maximum_gsi_cnt 24 = 24 /\ (allocate_gsi t1).2 = Ok 24 /\ capacity t1 = 24 * 64.
Proof. vm_compute. done. Qed.
