(* ===== verification/Intx.v ===== *)
(** * PCI INTx lines ([devices/src/pci/intx.rs], [swizzle_map_irq] of [devices/src/pci/mod.rs])

    The devices of a bus share one [PciIntxState]: a count of asserting
    devices for each of the four pins and the closure that drives the
    interrupt controller.  The [Arc] is a handle [xid] into the store
    [states]; the closure is the parameter [IntxHandler] on a state of its
    own.  The hook of the test framework ([is_test_enabled]) is left out. *)
From stdpp Require Import prelude list strings gmap.
From Stdlib Require Import ZArith Lia.
From S2P Require Import Prelude.

Definition PCI_PIN_NUM : Z := 4.
Definition U32_MAX : Z := 0xffffffff.

Definition xid := positive.

(** The [InterruptHandler] closure; [Err] is an error it returns. *)
Class IntxHandler (H : Type) := { irq_handler : H -> Z -> bool -> H * res unit unit }.

Record PciIntxState := mkIntxState {
  gsi_base : Z;
  irq_count : list Z
}.
Definition PciIntxState_new (gsi_base : Z) : PciIntxState :=
  mkIntxState gsi_base (replicate (Z.to_nat PCI_PIN_NUM) 0).

Record Intx := mkIntx {
  device_name : string;
  irq_pin : Z;
  level : Z;
  enabled : bool;
  intx_state : option xid
}.
Definition Intx_new (name : string) (irq_pin : Z) (st : option xid) : Intx :=
  mkIntx name irq_pin 0 true st.

(** The shared states and the state behind the handler. *)
Record IntxEnv (H : Type) := mkIntxEnv {
  states : gmap xid PciIntxState;
  hstate : H
}.
Arguments mkIntxEnv {H}.
Arguments states {H}.
Arguments hstate {H}.

(** An 8-bit two's complement value. *)
Definition as_i8 (x : Z) : Z := (x + 128) `mod` 256 - 128.

Definition swizzle_map_irq (devfn pin : Z) : Z :=
  let pci_slot := Z.land (Z.shiftr devfn 3) 0x1f in
  (wadd 8 pci_slot pin) `mod` PCI_PIN_NUM.

Section intx.
Context {H : Type} `{!IntxHandler H}.

Abbreviation IM := (sres (IntxEnv H) unit).

Definition call_handler (irq : Z) (lv : bool) : IM unit := fun e =>
  let '(h, r) := irq_handler (hstate e) irq lv in (mkIntxEnv (states e) h, r).

(** [irq_count[pin] += change], then the clamp at zero. *)
Definition new_count (old change : Z) : Z :=
  let c := as_i8 (old + change) in if c <? 0 then 0 else c.

Definition set_count (x : xid) (s : PciIntxState) (pin c : Z) : IM unit := fun e =>
  (mkIntxEnv (<[x := mkIntxState (gsi_base s) (<[Z.to_nat pin := c]> (irq_count s))]> (states e))
             (hstate e), Ok tt).

Definition change_irq_level (self : Intx) (change : Z) : IM unit :=
  match intx_state self with
  | None => mret tt
  | Some x =>
    e ← sget;
    s ← slift (unwrap (states e !! x));
    old ← slift (unwrap (irq_count s !! Z.to_nat (irq_pin self)));
    let c := new_count old change in
    _ ← set_count x s (irq_pin self) c;
    signore (call_handler (wadd 32 (gsi_base s) (irq_pin self)) (negb (c =? 0)))
  end.

(** [&mut self]: the new [Intx] is returned.  The level is set before the
    line is driven. *)
Definition notify (self : Intx) (lv : Z) : IM Intx :=
  if negb ((lv =? 0) || (lv =? 1)) then slift Panic
  else if level self =? lv then mret self
  else
    let change := as_i8 (as_i8 lv - as_i8 (level self)) in
    let self' := mkIntx (device_name self) (irq_pin self) lv (enabled self) (intx_state self) in
    if negb (enabled self) then mret self'
    else _ ← change_irq_level self' change; mret self'.

Definition set_enabled (self : Intx) (b : bool) : Intx :=
  mkIntx (device_name self) (irq_pin self) (level self) b (intx_state self).

Definition reset (self : Intx) : IM Intx :=
  self ← notify self 0; mret (set_enabled self true).
End intx.

(** [PciConfig::write], the part that follows the interrupt-disable bit of the
    command register. *)
Definition follow_command {H} `{!IntxHandler H} (self : Intx) (en : bool)
  : sres (IntxEnv H) unit Intx :=
  if Bool.eqb (enabled self) en then mret self
  else
    _ ← (if negb en then change_irq_level self (as_i8 (- as_i8 (level self)))
         else change_irq_level self (as_i8 (level self)));
    mret (set_enabled self en).

(** * Theorems *)

(** The interrupt controller as the handler shows it: each interrupt keeps
    the level it was last driven to, and is [lost] when the controller refused
    the last request for it; then nothing is known of its level. *)
Class IntxHandlerSpec (H : Type) `{!IntxHandler H} := {
  line : H -> Z -> bool;
  lost : H -> Z -> Prop;
  irq_handler_spec h irq lv :
    exists h' r, irq_handler h irq lv = (h', r) /\
      (r = Ok tt /\ line h' irq = lv /\ ~ lost h' irq \/ r = Err tt /\ lost h' irq) /\
      forall j, j <> irq -> line h' j = line h j /\ (lost h' j <-> lost h j)
}.

(** ** Devices that share a state *)

(** [d] pulls pin [p]. *)
Definition pulls (p : Z) (d : Intx) : bool :=
  (irq_pin d =? p) && enabled d && (level d =? 1).
Fixpoint pulling (p : Z) (ds : list Intx) : Z :=
  match ds with [] => 0 | d :: ds => Z.b2z (pulls p d) + pulling p ds end.

Lemma pulling_bounds p ds : 0 <= pulling p ds <= Z.of_nat (length ds).
Proof. induction ds as [|d ds IH]; simpl; [lia|]. destruct (pulls p d); simpl; lia. Qed.

Lemma pulling_insert p ds i d d' :
  ds !! i = Some d ->
  pulling p (<[i := d']> ds) = pulling p ds - Z.b2z (pulls p d) + Z.b2z (pulls p d').
Proof.
  revert i. induction ds as [|e ds IH]; intros [|i]; simpl; [done..| |].
  - intros [= ->]. lia.
  - intros Hd. rewrite (IH i Hd). lia.
Qed.

Lemma pulling_pos p ds : pulling p ds <> 0 <-> exists d, d ∈ ds /\ pulls p d = true.
Proof.
  induction ds as [|d ds IH]; simpl; [split; [done|]; by intros (? & ?%elem_of_nil & _)|].
  pose proof (pulling_bounds p ds). destruct (pulls p d) eqn:E; simpl.
  - split; [|lia]. intros _. exists d. split; [constructor|done].
  - rewrite Z.add_0_l, IH. setoid_rewrite elem_of_cons. split.
    + intros (d' & ? & ?). exists d'. split; [by right|done].
    + intros (d' & [->|?] & ?); [congruence|]. by exists d'.
Qed.

Lemma as_i8_small x : -128 <= x < 128 -> as_i8 x = x.
Proof. intros. unfold as_i8. rewrite Z.mod_small by lia. lia. Qed.

Section bus.
Context {H : Type} `{!IntxHandler H} `{!IntxHandlerSpec H}.
Context (x : xid) (base : Z).

Definition dev_ok (d : Intx) : Prop :=
  intx_state d = Some x /\ 0 <= irq_pin d < PCI_PIN_NUM /\ (level d = 0 \/ level d = 1).

(** The count of each pin is [n p] and its line is high when that is not 0,
    unless the last request for it was refused. *)
Definition env_ok (n : Z -> Z) (e : IntxEnv H) : Prop :=
  exists s, states e !! x = Some s /\ gsi_base s = base /\
    0 <= base /\ base + PCI_PIN_NUM <= 2 ^ 32 /\
    length (irq_count s) = Z.to_nat PCI_PIN_NUM /\
    forall p, 0 <= p < PCI_PIN_NUM -> irq_count s !! Z.to_nat p = Some (n p) /\
      (lost (hstate e) (base + p) \/ line (hstate e) (base + p) = negb (n p =? 0)).

Definition bus_ok (b : list Intx * IntxEnv H) : Prop :=
  Z.of_nat (length b.1) < 128 /\ Forall dev_ok b.1 /\ env_ok (fun p => pulling p b.1) b.2.

Lemma env_ok_ext n m e :
  (forall p, 0 <= p < PCI_PIN_NUM -> n p = m p) -> env_ok n e -> env_ok m e.
Proof.
  intros Hnm (s & ? & ? & ? & ? & ? & Hp). exists s. split_and!; try done.
  intros p ?. rewrite <-Hnm by done. by apply Hp.
Qed.

Lemma change_irq_level_ok n e d change :
  dev_ok d -> env_ok n e -> 0 <= n (irq_pin d) + change < 128 ->
  exists e', change_irq_level d change e = (e', Ok tt) /\
    env_ok (fun p => if p =? irq_pin d then n p + change else n p) e'.
Proof.
  intros (Hst & Hpin & _) (s & Hs & Hbase & ? & ? & Hlen & Hp) Hc.
  destruct (Hp _ Hpin) as [Hold _]. unfold change_irq_level. rewrite Hst.
  rewrite (sres_step _ _ e e e) by done. rewrite Hs. cbn [unwrap].
  rewrite slift_Ok_bind, Hold. cbn [unwrap]. rewrite slift_Ok_bind.
  unfold new_count. rewrite as_i8_small by lia.
  destruct (Z.ltb_spec (n (irq_pin d) + change) 0); [lia|].
  erewrite sres_step by done. unfold signore, call_handler. cbn [hstate].
  set (lv := negb _).
  destruct (irq_handler_spec (hstate e) (wadd 32 (gsi_base s) (irq_pin d)) lv) as (h' & r & -> & Hr & Ho).
  rewrite Hbase in *. rewrite wadd_small in Hr, Ho by (unfold inW, PCI_PIN_NUM in *; lia).
  assert (forall p, 0 <= p < PCI_PIN_NUM ->
    <[Z.to_nat (irq_pin d) := n (irq_pin d) + change]> (irq_count s) !! Z.to_nat p = Some (if p =? irq_pin d then n p + change else n p) /\
    (lost h' (base + p) \/ line h' (base + p) = negb ((if p =? irq_pin d then n p + change else n p) =? 0))) as Hall.
  { intros p Hpp. destruct (Hp p Hpp) as [Hcnt Hline]. destruct (Z.eqb_spec p (irq_pin d)) as [->|Hne].
    - split; [apply list_lookup_insert_eq; unfold PCI_PIN_NUM in *; lia|]. destruct Hr as [(_ & Hl & _)|[_ Hl]]; [by right|by left].
    - rewrite list_lookup_insert_ne by lia. split; [done|]. destruct (Ho (base + p)) as [-> ->]; [lia|done]. }
  exists (mkIntxEnv (<[x:=mkIntxState base (<[Z.to_nat (irq_pin d):=n (irq_pin d) + change]> (irq_count s))]> (states e)) h').
  split; [by destruct Hr as [(-> & _)|[-> _]]|].
  eexists. cbn [states]. rewrite lookup_insert_eq. split; [done|]. cbn [irq_count gsi_base hstate]. rewrite length_insert. by split_and!.
Qed.

(** One call on one device. *)
Inductive intx_step : relation (list Intx * IntxEnv H) :=
| step_notify ds e i d lv e' d' :
    ds !! i = Some d -> lv = 0 \/ lv = 1 -> notify d lv e = (e', Ok d') ->
    intx_step (ds, e) (<[i := d']> ds, e')
| step_command ds e i d en e' d' :
    ds !! i = Some d -> follow_command d en e = (e', Ok d') ->
    intx_step (ds, e) (<[i := d']> ds, e')
| step_reset ds e i d e' d' :
    ds !! i = Some d -> reset d e = (e', Ok d') ->
    intx_step (ds, e) (<[i := d']> ds, e').

(** What each call owes: the device stays valid, and the count of its pin
    moves with what it pulls. *)
Definition moves (ds : list Intx) (i : nat) (d : Intx) (out : IntxEnv H * res unit Intx)
  (d' : Intx) : Prop := exists e', out = (e', Ok d') /\ bus_ok (<[i := d']> ds, e').

Lemma bus_ok_move ds e i d d' e' :
  bus_ok (ds, e) -> ds !! i = Some d -> dev_ok d' ->
  env_ok (fun p => pulling p ds - Z.b2z (pulls p d) + Z.b2z (pulls p d')) e' ->
  bus_ok (<[i := d']> ds, e').
Proof.
  intros (? & ? & _) Hd ? He. split_and!; simpl; [by rewrite length_insert|by apply Forall_insert|].
  eapply env_ok_ext; [|done]. intros p _. simpl. by rewrite (pulling_insert _ _ _ _ _ Hd).
Qed.

(** The common part: the line of [d']'s pin is driven by the difference. *)
Lemma change_moves ds e i d d' d0 change :
  bus_ok (ds, e) -> ds !! i = Some d -> dev_ok d0 -> dev_ok d' ->
  irq_pin d0 = irq_pin d -> irq_pin d' = irq_pin d ->
  change = Z.b2z (pulls (irq_pin d) d') - Z.b2z (pulls (irq_pin d) d) ->
  exists e', change_irq_level d0 change e = (e', Ok tt) /\ bus_ok (<[i := d']> ds, e').
Proof.
  intros Hb Hd H0 H' Hp0 Hp' Hc. pose proof Hb as (Hlen & _ & He). simpl in *.
  pose proof (pulling_bounds (irq_pin d) ds). pose proof (pulling_bounds (irq_pin d) (<[i:=d']> ds)).
  rewrite (pulling_insert _ _ _ _ _ Hd), length_insert in *.
  destruct (change_irq_level_ok _ _ d0 change H0 He) as (e' & -> & He'); [rewrite Hp0; lia|].
  exists e'. split; [done|]. eapply bus_ok_move; [done..|].
  eapply env_ok_ext; [|done]. intros p _. simpl. rewrite Hp0.
  destruct (Z.eqb_spec p (irq_pin d)) as [->|Hne]; [lia|].
  unfold pulls. rewrite Hp'. destruct (Z.eqb_spec (irq_pin d) p); [congruence|]. simpl. lia.
Qed.

Lemma bus_ok_same ds e i d d' :
  bus_ok (ds, e) -> ds !! i = Some d -> dev_ok d' ->
  (forall p, pulls p d' = pulls p d) -> bus_ok (<[i := d']> ds, e).
Proof.
  intros Hb Hd ? Hp. eapply bus_ok_move; [done..|]. destruct Hb as (_ & _ & He).
  eapply env_ok_ext; [|done]. intros p _. simpl. rewrite Hp. lia.
Qed.

Lemma bus_ok_dev ds e i d : bus_ok (ds, e) -> ds !! i = Some d -> dev_ok d.
Proof. intros (_ & Hds & _) Hd. rewrite Forall_lookup in Hds. by eapply Hds. Qed.

Lemma notify_moves ds e i d lv :
  bus_ok (ds, e) -> ds !! i = Some d -> lv = 0 \/ lv = 1 ->
  exists d', moves ds i d (notify d lv e) d' /\ level d' = lv /\ enabled d' = enabled d.
Proof.
  intros Hb Hd Hlv. pose proof (bus_ok_dev _ _ _ _ Hb Hd) as Hdev.
  destruct Hdev as (Hx & Hpin & Hl). unfold notify.
  assert ((lv =? 0) || (lv =? 1) = true) as -> by (destruct Hlv as [-> | ->]; done).
  cbn [negb]. destruct (Z.eqb_spec (level d) lv) as [Heq|Hne].
  { exists d. split; [|done]. exists e. split; [done|]. rewrite list_insert_id by done. done. }
  set (d' := mkIntx _ _ lv _ _). assert (dev_ok d') by done. exists d'. split; [|done].
  destruct (enabled d) eqn:Een; cbn [negb].
  - destruct (change_moves ds e i d d' d' (as_i8 (as_i8 lv - as_i8 (level d)))) as (e' & Hc & ?);
      try done.
    { unfold pulls. subst d'. simpl. rewrite Z.eqb_refl, Een. simpl.
      destruct Hlv as [-> | ->], Hl as [Hl | Hl]; rewrite Hl in *; done. }
    exists e'. split; [|done]. by rewrite (sres_step _ _ _ _ _ Hc).
  - exists e. split; [done|]. apply (bus_ok_same ds e i d d'); try done.
    intros p. unfold pulls. subst d'. simpl. by rewrite Een, !andb_false_r.
Qed.

Lemma follow_command_moves ds e i d en :
  bus_ok (ds, e) -> ds !! i = Some d ->
  moves ds i d (follow_command d en e) (set_enabled d en).
Proof.
  intros Hb Hd. pose proof (bus_ok_dev _ _ _ _ Hb Hd) as Hdev. unfold follow_command.
  destruct (Bool.eqb_spec (enabled d) en) as [<-|Hne].
  { exists e. split; [by destruct d|]. rewrite list_insert_id; [done|]. by destruct d. }
  pose proof Hdev as (_ & _ & Hl).
  assert ((if negb en then change_irq_level d (as_i8 (- as_i8 (level d)))
           else change_irq_level d (as_i8 (level d))) =
          change_irq_level d (Z.b2z (pulls (irq_pin d) (set_enabled d en)) -
                              Z.b2z (pulls (irq_pin d) d))) as ->.
  { unfold pulls, set_enabled. simpl. rewrite Z.eqb_refl. simpl.
    destruct en, (enabled d); try done; destruct Hl as [-> | ->]; done. }
  destruct (change_moves ds e i d (set_enabled d en) d _ Hb Hd Hdev Hdev eq_refl eq_refl eq_refl)
    as (e' & Hc & ?).
  exists e'. split; [|done]. by rewrite (sres_step _ _ _ _ _ Hc).
Qed.

Lemma reset_moves ds e i d :
  bus_ok (ds, e) -> ds !! i = Some d -> exists d', moves ds i d (reset d e) d' /\ level d' = 0 /\ enabled d' = true.
Proof.
  intros Hb Hd. destruct (notify_moves ds e i d 0 Hb Hd) as (d' & (e' & Hn & Hb') & Hl & _); [by left|].
  exists (set_enabled d' true). split; [|by split]. unfold moves, reset. rewrite (sres_step _ _ _ _ _ Hn).
  exists e'. split; [done|].
  assert ((<[i := d']> ds) !! i = Some d') as Hi.
  { apply list_lookup_insert_eq. by eapply lookup_lt_Some. }
  rewrite <-(list_insert_insert_eq ds i (set_enabled d' true) d').
  apply (bus_ok_same _ _ _ d'); [done|done|by apply (bus_ok_dev _ _ _ _ Hb' Hi)|].
  intros p. unfold pulls. simpl. rewrite Hl. by rewrite !andb_false_r.
Qed.

Lemma intx_step_ok b b' : bus_ok b -> intx_step b b' -> bus_ok b'.
Proof.
  intros Hb Hstep. destruct Hstep as [ds e i d lv e' d' Hd Hlv Hn|ds e i d en e' d' Hd Hn|ds e i d e' d' Hd Hn].
  - destruct (notify_moves ds e i d lv Hb Hd Hlv) as (d1 & (e1 & He & ?) & _).
    rewrite Hn in He. by injection He as -> ->.
  - destruct (follow_command_moves ds e i d en Hb Hd) as (e1 & He & ?).
    rewrite Hn in He. by injection He as -> ->.
  - destruct (reset_moves ds e i d Hb Hd) as (d1 & (e1 & He & ?) & _).
    rewrite Hn in He. by injection He as -> ->.
Qed.
End bus.

(** A controller that records levels and has no interrupt from 24 on. *)
#[export] Instance gmap_handler : IntxHandler (gmap Z bool) :=
  {| irq_handler := fun h irq lv => if irq <? 24 then (<[irq := lv]> h, Ok tt) else (delete irq h, Err tt) |}.
#[export] Instance gmap_handler_spec : IntxHandlerSpec (gmap Z bool).
Proof.
  refine {| line := fun h irq => default false (h !! irq); lost := fun h irq => 24 <= irq |}. intros h irq lv.
  unfold irq_handler, gmap_handler. destruct (Z.ltb_spec irq 24); eexists _, _; (split; [done|]).
  - split; [left; rewrite lookup_insert_eq; split_and!; [done|done|lia]|]. intros j ?. by rewrite lookup_insert_ne.
  - split; [by right|]. intros j ?. by rewrite lookup_delete_ne.
Defined.

(** The states a bus starts in: new devices on lines that are low. *)
Lemma bus_ok_new {H : Type} `{!IntxHandler H} `{!IntxHandlerSpec H} (x : xid) base (ds : list Intx) (h : H) :
  0 <= base -> base + PCI_PIN_NUM <= 2 ^ 32 -> Z.of_nat (length ds) < 128 ->
  (forall d, d ∈ ds -> exists name pin, 0 <= pin < PCI_PIN_NUM /\ d = Intx_new name pin (Some x)) ->
  (forall p, 0 <= p < PCI_PIN_NUM -> line h (base + p) = false) ->
  bus_ok x base (ds, mkIntxEnv {[x := PciIntxState_new base]} h).
Proof.
  intros Hb0 Hb1 Hlen Hnew Hlow. split_and!; [done| |].
  - apply Forall_forall. intros d (name & pin & ? & ->)%Hnew. split_and!; simpl; auto; lia.
  - eexists. simpl. rewrite lookup_singleton_eq. split_and!; [done|done|lia|lia|done|].
    assert (forall p, pulling p ds = 0) as Hz.
    { intros p. destruct (decide (pulling p ds = 0)) as [|Hp]; [done|].
      apply pulling_pos in Hp as (d & (name & pin & ? & ->)%Hnew & Hp). unfold pulls in Hp.
      simpl in Hp. by rewrite !andb_false_r in Hp. }
    intros p Hp. rewrite Hz, Hlow by done. split; [|by right]. apply lookup_replicate. lia.
Qed.

(** C26: INTx sharing.  However up to 127 devices on one bus, each routed to
    one of its four pins, assert, deassert, enable, disable and reset their
    interrupt, the next such call returns; and an interrupt line is high
    exactly when some device routed to it is enabled and asserting, unless the
    interrupt controller refused the last request to drive that line (the error
    is only logged).  The count the state keeps for a pin is the number of
    these devices even then. *)
Theorem intx_lines_follow_devices {H : Type} `{!IntxHandler H} `{!IntxHandlerSpec H}
    (x : xid) base (ds : list Intx) (h : H) b :
  0 <= base -> base + PCI_PIN_NUM <= 2 ^ 32 -> Z.of_nat (length ds) < 128 ->
  (forall d, d ∈ ds -> exists name pin, 0 <= pin < PCI_PIN_NUM /\ d = Intx_new name pin (Some x)) ->
  (forall p, 0 <= p < PCI_PIN_NUM -> line h (base + p) = false) ->
  rtc intx_step (ds, mkIntxEnv {[x := PciIntxState_new base]} h) b ->
  (forall p, 0 <= p < PCI_PIN_NUM ->
     (lost (hstate b.2) (base + p) \/
      (line (hstate b.2) (base + p) = true <->
       exists d, d ∈ b.1 /\ irq_pin d = p /\ enabled d = true /\ level d = 1)) /\
     exists s, states b.2 !! x = Some s /\ irq_count s !! Z.to_nat p = Some (pulling p b.1)) /\
  (forall i d, b.1 !! i = Some d ->
     (forall lv, lv = 0 \/ lv = 1 -> exists e' d', notify d lv b.2 = (e', Ok d') /\ level d' = lv) /\
     (forall en, exists e', follow_command d en b.2 = (e', Ok (set_enabled d en))) /\
     exists e' d', reset d b.2 = (e', Ok d') /\ level d' = 0 /\ enabled d' = true).
Proof.
  intros Hb0 Hb1 Hlen Hnew Hlow Hrun.
  assert (bus_ok x base b) as Hb.
  { pose proof (bus_ok_new x base ds h Hb0 Hb1 Hlen Hnew Hlow) as Hinit. clear -Hinit Hrun. induction Hrun; [done|]. eauto using intx_step_ok. }
  destruct b as [ds' e']. simpl. split.
  - intros p Hp. destruct Hb as (_ & _ & s & Hst & _ & _ & _ & _ & Hs). destruct (Hs p Hp) as [Hcnt Hline]. split; [|by exists s].
    destruct Hline as [Hlost|Hline]; [by left|right]. simpl in Hline. rewrite Hline, negb_true_iff, Z.eqb_neq, pulling_pos.
    unfold pulls. setoid_rewrite andb_true_iff. setoid_rewrite andb_true_iff.
    setoid_rewrite Z.eqb_eq. split; intros (d & ?); exists d; tauto.
  - intros i d Hd. split_and!.
    + intros lv Hlv. destruct (notify_moves x base ds' e' i d lv Hb Hd Hlv) as (d' & (e1 & ? & _) & ? & _). eauto.
    + intros en. destruct (follow_command_moves x base ds' e' i d en Hb Hd) as (e1 & ? & _). eauto.
    + destruct (reset_moves x base ds' e' i d Hb Hd) as (d' & (e1 & ? & _) & ? & ?). eauto 6.
Qed.

(** Pin 2 of the bus from 16 on is an interrupt of the controller; the bus from
    22 on has the first two pins only. *)
Example intx_lines_witness :
  let d0 := Intx_new "dev0" 2 (Some 1%positive) in
  let d1 := mkIntx "dev0" 2 1 true (Some 1%positive) in
  let e1 := mkIntxEnv {[1%positive := mkIntxState 16 [0; 0; 1; 0]]} ({[18 := true]} : gmap Z bool) in
  let e2 := mkIntxEnv {[1%positive := mkIntxState 22 [0; 0; 1; 0]]} (∅ : gmap Z bool) in
  (~ lost (hstate e1) (16 + 2) /\ line (hstate e1) (16 + 2) = true) /\
  (lost (hstate e2) (22 + 2) /\ exists e' d', reset d1 e2 = (e', Ok d') /\ level d' = 0 /\ enabled d' = true).
Proof.
  intros d0 d1 e1 e2.
  assert (forall d, d ∈ [d0] -> exists name pin, 0 <= pin < PCI_PIN_NUM /\
            d = Intx_new name pin (Some 1%positive)) as Hnew.
  { intros d ->%list_elem_of_singleton. by exists "dev0", 2. }
  assert (rtc intx_step ([d0], mkIntxEnv {[1%positive := PciIntxState_new 16]} ∅) ([d1], e1)) as Hrun.
  { apply rtc_once. apply (step_notify [d0] _ 0 d0 1 e1 d1); [done|by right|]. vm_compute. done. }
  assert (rtc intx_step ([d0], mkIntxEnv {[1%positive := PciIntxState_new 22]} ∅) ([d1], e2)) as Hrun2.
  { apply rtc_once. apply (step_notify [d0] _ 0 d0 1 e2 d1); [done|by right|]. vm_compute. done. }
  split.
  - destruct (intx_lines_follow_devices (H := gmap Z bool) 1%positive 16 [d0] ∅ ([d1], e1)
      ltac:(done) ltac:(done) ltac:(done) Hnew ltac:(done) Hrun) as [Hl _].
    assert (~ lost (hstate e1) (16 + 2)) as Hnl by (cbn; lia). split; [exact Hnl|].
    destruct (Hl 2) as [[Hlo|Hiff] _]; [done|done|]. apply Hiff. exists d1. split_and!; [by constructor|done..].
  - split; [cbn; lia|].
    destruct (intx_lines_follow_devices (H := gmap Z bool) 1%positive 22 [d0] ∅ ([d1], e2)
      ltac:(done) ltac:(done) ltac:(done) Hnew ltac:(done) Hrun2) as [_ Hn].
    exact (proj2 (proj2 (Hn 0%nat d1 eq_refl))).
Defined.
