(* ===== verification/PciRegs.v ===== *)
(** * Little-endian register access and device numbers ([devices/src/pci/mod.rs])

    The macros [le_read!] and [le_write!] instantiated at 2, 4 and 8 bytes,
    the set/clear helpers on 16-bit registers, and the packing of slot,
    function and extended-capability fields. *)
From stdpp Require Import prelude list.
From Stdlib Require Import ZArith Lia.
From S2P Require Import Prelude Region.

(** [PciError], the variants these files produce; [PBail] is a plain message. *)
Inductive PciError :=
| PAddressSpace (e : AddressSpaceError)
| AddPciCap (id size : Z)
| AddPcieExtCap (id size : Z)
| UnregMemBar (id : Z)
| InvalidConf
| PBail.

(** [Result::unwrap] *)
Definition unwrap_res {E E' A} (r : res E A) : res E' A :=
  match r with Ok a => Ok a | _ => Panic end.

(** [buf\[offset..end\]] panics when [end] is before [offset]. *)
Definition le_window (n : nat) (buf : list Z) (offset : Z) : res PciError nat :=
  let e := wadd 64 offset (Z.of_nat n) in
  if Z.of_nat (length buf) <? e then Err PBail
  else if e <? offset then Panic else Ok (Z.to_nat offset).

Definition le_write (n : nat) (buf : list Z) (offset data : Z) : res PciError (list Z) :=
  off ← le_window n buf offset; Ok (splice buf off (le_bytes n data)).
Definition le_read (n : nat) (buf : list Z) (offset : Z) : res PciError Z :=
  off ← le_window n buf offset; Ok (le_val (slice buf off n)).

Definition le_write_u16 := le_write 2.
Definition le_write_u32 := le_write 4.
Definition le_write_u64 := le_write 8.
Definition le_read_u16 := le_read 2.
Definition le_read_u32 := le_read 4.
Definition le_read_u64 := le_read 8.

Definition le_write_set_value_u16 (buf : list Z) (offset data : Z) : res PciError (list Z) :=
  val ← le_read_u16 buf offset; le_write_u16 buf offset (Z.lor val data).
Definition le_write_clear_value_u16 (buf : list Z) (offset data : Z) : res PciError (list Z) :=
  val ← le_read_u16 buf offset; le_write_u16 buf offset (Z.land val (wnot 16 data)).

Definition pci_devfn (slot func : Z) : Z :=
  Z.lor (wshl 8 (Z.land slot 0x1f) 3) (Z.land func 0x07).
Definition pci_slot (devfn : Z) : Z := Z.land (Z.shiftr devfn 3) 0x1f.
Definition pci_func (devfn : Z) : Z := Z.land devfn 0x07.

Definition pci_ext_cap_id (header : Z) : Z := Z.land header 0xffff.
Definition pci_ext_cap_ver (header : Z) : Z := Z.land (Z.shiftr header 16) 0xf.
Definition pci_ext_cap_next (header : Z) : Z := Z.land (Z.shiftr header 20) 0xffc.

(** * Lemmas *)

Section window.
Context (n : nat) (buf : list Z) (off : Z).
Context (Hoff : 0 <= off) (Hfit : off + Z.of_nat n <= Z.of_nat (length buf)).
Context (Hbig : Z.of_nat (length buf) < 2 ^ 64).

Lemma le_window_ok : le_window n buf off = Ok (Z.to_nat off).
Proof.
  unfold le_window. rewrite wadd_small by (unfold inW; lia).
  zcases; (done || lia).
Qed.

Lemma le_read_ok : le_read n buf off = Ok (le_val (slice buf (Z.to_nat off) n)).
Proof. unfold le_read. by rewrite le_window_ok. Qed.

Lemma le_write_ok v : le_write n buf off v = Ok (splice buf (Z.to_nat off) (le_bytes n v)).
Proof. unfold le_write. by rewrite le_window_ok. Qed.

Lemma le_read_bound v : is_bytes buf -> le_read n buf off = Ok v -> 0 <= v < 2 ^ (8 * Z.of_nat n).
Proof.
  intros Hb. rewrite le_read_ok. intros [= <-].
  pose proof (le_val_bound (slice buf (Z.to_nat off) n)) as H.
  rewrite slice_length in H by lia. apply H. by apply Forall_take, Forall_drop.
Qed.
End window.

(** A window past the end is an error. *)
Lemma le_read_err n buf off :
  0 <= off -> off + Z.of_nat n < 2 ^ 64 -> Z.of_nat (length buf) < off + Z.of_nat n ->
  le_read n buf off = Err PBail.
Proof.
  intros. unfold le_read, le_window. rewrite wadd_small by (unfold inW; lia).
  zcases; (done || lia).
Qed.

(** What a write leaves: the value in its window, the rest of the buffer. *)
Lemma le_read_write n buf off v buf' :
  0 <= off -> Z.of_nat (length buf) < 2 ^ 64 -> 0 <= v < 2 ^ (8 * Z.of_nat n) ->
  off + Z.of_nat n <= Z.of_nat (length buf) ->
  le_write n buf off v = Ok buf' -> le_read n buf' off = Ok v.
Proof.
  intros ? ? ? Hfit. rewrite le_write_ok by done. intros [= <-].
  assert (Z.to_nat off + length (le_bytes n v) <= length buf)%nat by (rewrite le_bytes_length; lia).
  rewrite le_read_ok; rewrite ?splice_length by done; try done.
  pose proof (slice_splice buf (le_bytes n v) (Z.to_nat off)) as Hs.
  rewrite le_bytes_length in Hs. rewrite Hs by lia.
  by rewrite le_val_le_bytes, Z.mod_small.
Qed.

(** Bit [j] of a little-endian value is bit [j mod 8] of byte [j / 8]. *)
Lemma le_val_testbit bs j :
  is_bytes bs -> 0 <= j ->
  Z.testbit (le_val bs) j = Z.testbit (default 0 (bs !! Z.to_nat (j / 8))) (j `mod` 8).
Proof.
  intros Hb. revert j. induction Hb as [|b bs Hb Hbs IH]; intros j ?.
  { simpl. by rewrite Z.testbit_0_l, Z.testbit_0_l. }
  cbn [le_val]. assert (0 <= b < 2 ^ 8) as Hb8 by exact Hb.
  replace (b + 256 * le_val bs) with (Z.lor b (Z.shiftl (le_val bs) 8)).
  2:{ rewrite <-Z.lxor_lor, <-Z.add_nocarry_lxor; [rewrite Z.shiftl_mul_pow2 by lia; lia|..];
      apply Z.bits_inj'; intros k ?; rewrite Z.land_spec, Z.shiftl_spec, Z.testbit_0_l by lia;
      (destruct (decide (k < 8)); [rewrite (Z.testbit_neg_r _ (k - 8)) by lia; apply andb_false_r
       |rewrite (testbit_above 8 b) by (done || lia); done]). }
  rewrite Z.lor_spec, Z.shiftl_spec by lia.
  destruct (decide (j < 8)).
  - rewrite (Z.testbit_neg_r _ (j - 8)), orb_false_r by lia. rewrite Z.div_small, Z.mod_small by lia. done.
  - rewrite (testbit_above 8 b) by (done || lia). simpl. rewrite IH by lia.
    pose proof (Z.div_add (j - 8) 1 8) as Hd. pose proof (Z.mod_add (j - 8) 1 8) as Hm.
    replace (j - 8 + 1 * 8) with j in Hd, Hm by lia.
    rewrite Hd, Hm by lia. pose proof (Z.div_pos (j - 8) 8).
    by replace (Z.to_nat ((j - 8) / 8 + 1)) with (S (Z.to_nat ((j - 8) / 8))) by lia.
Qed.

(** Devfn packing is exact on slots below 32 and functions below 8. *)
Lemma pci_devfn_fields slot func :
  0 <= slot < 32 -> 0 <= func < 8 ->
  pci_slot (pci_devfn slot func) = slot /\ pci_func (pci_devfn slot func) = func.
Proof.
  intros Hs Hf.
  assert (forallb (fun s => forallb (fun f =>
    (pci_slot (pci_devfn s f) =? s) && (pci_func (pci_devfn s f) =? f))
    (ztab id 0 8)) (ztab id 0 32) = true) as H by (vm_compute; done).
  rewrite forallb_forall in H.
  assert (forall a m, 0 <= a < Z.of_nat m -> In a (ztab id 0 m)) as Hin.
  { intros a m ?. apply list_elem_of_In, list_elem_of_lookup. exists (Z.to_nat a).
    rewrite ztab_lookup by lia. f_equal. unfold id. lia. }
  specialize (H slot (Hin slot 32%nat Hs)). rewrite forallb_forall in H.
  specialize (H func (Hin func 8%nat Hf)). apply andb_true_iff in H. lia.
Qed.

(** ** A buffer as a vector of bits *)

Definition bit_of (buf : list Z) (j : Z) : bool := Z.testbit (le_val buf) j.

(** Bit [j] is in byte [j / 8]. *)
Lemma bit_of_byte buf i k b :
  is_bytes buf -> 0 <= i -> 0 <= k < 8 -> buf !! Z.to_nat i = Some b ->
  bit_of buf (8 * i + k) = Z.testbit b k.
Proof.
  intros Hb ? ? Hi. unfold bit_of. rewrite le_val_testbit by (done || lia).
  replace (8 * i + k) with (k + i * 8) by lia.
  rewrite Z.div_add, Z.mod_add, Z.div_small, Z.mod_small by lia. by rewrite Z.add_0_l, Hi.
Qed.

Lemma bit_of_above buf j :
  is_bytes buf -> 8 * Z.of_nat (length buf) <= j -> bit_of buf j = false.
Proof.
  intros Hb Hj. unfold bit_of. pose proof (le_val_bound buf Hb).
  apply (testbit_above (8 * Z.of_nat (length buf))); [unfold inW; lia|lia].
Qed.

Lemma slice_testbit buf off n j :
  is_bytes buf -> 0 <= off -> 0 <= j ->
  off + Z.of_nat n <= Z.of_nat (length buf) ->
  Z.testbit (le_val (slice buf (Z.to_nat off) n)) j =
    (j <? 8 * Z.of_nat n) && bit_of buf (8 * off + j).
Proof.
  intros Hb ? ? Hfit. unfold bit_of.
  assert (is_bytes (slice buf (Z.to_nat off) n)) by (by apply Forall_take, Forall_drop).
  pose proof (Z.div_pos j 8). rewrite !le_val_testbit by (done || lia).
  replace (8 * off + j) with (j + off * 8) by lia. rewrite Z.div_add, Z.mod_add by lia.
  pose proof (Z.div_mod j 8). pose proof (Z.mod_pos_bound j 8).
  unfold slice. rewrite lookup_take. case_decide.
  - rewrite lookup_drop. destruct (Z.ltb_spec j (8 * Z.of_nat n)); [|lia]. simpl.
    do 3 f_equal. lia.
  - destruct (Z.ltb_spec j (8 * Z.of_nat n)); [lia|]. simpl. apply Z.testbit_0_l.
Qed.

Lemma splice_testbit buf off n v j :
  is_bytes buf -> 0 <= off -> 0 <= j -> 0 <= v < 2 ^ (8 * Z.of_nat n) ->
  off + Z.of_nat n <= Z.of_nat (length buf) ->
  bit_of (splice buf (Z.to_nat off) (le_bytes n v)) j =
    if (8 * off <=? j) && (j <? 8 * (off + Z.of_nat n)) then Z.testbit v (j - 8 * off)
    else bit_of buf j.
Proof.
  intros Hb ? ? Hv Hfit. unfold bit_of.
  assert (is_bytes (le_bytes n v)) as Hbv by apply le_bytes_is_bytes.
  rewrite (le_val_testbit (splice _ _ _)) by (done || by apply splice_is_bytes).
  pose proof (Z.div_pos j 8). pose proof (Z.div_mod j 8). pose proof (Z.mod_pos_bound j 8).
  rewrite lookup_splice by (rewrite le_bytes_length; lia). rewrite le_bytes_length.
  case_decide as Hin.
  - destruct (Z.leb_spec (8 * off) j), (Z.ltb_spec j (8 * (off + Z.of_nat n))); try lia. simpl.
    pose proof (le_val_le_bytes n v) as Hval. rewrite Z.mod_small in Hval by done.
    rewrite <-Hval at 2. rewrite le_val_testbit by (done || lia).
    replace (j - 8 * off) with (j + (- off) * 8) by lia. rewrite Z.div_add, Z.mod_add by lia.
    do 3 f_equal. lia.
  - rewrite le_val_testbit by done.
    destruct (Z.leb_spec (8 * off) j), (Z.ltb_spec j (8 * (off + Z.of_nat n))); try done. lia.
Qed.

Lemma bit_of_insert buf i y j :
  is_bytes buf -> is_u8 y -> (i < length buf)%nat -> 0 <= j ->
  bit_of (<[i := y]> buf) j = if j / 8 =? Z.of_nat i then Z.testbit y (j `mod` 8) else bit_of buf j.
Proof.
  intros Hb Hy Hi Hj. unfold bit_of. pose proof (Z.div_pos j 8).
  assert (is_bytes (<[i := y]> buf)) by (by apply Forall_insert).
  rewrite !le_val_testbit by done. destruct (Z.eqb_spec (j / 8) (Z.of_nat i)) as [->|Hne].
  - by rewrite Nat2Z.id, list_lookup_insert_eq by done.
  - rewrite list_lookup_insert_ne by lia. done.
Qed.
