(* ===== verification/Msix.v ===== *)
(** * MSI-X ([devices/src/pci/msix.rs])

    The MSI-X table and pending-bit array of a device, the delivery of its
    messages, the guest's accesses to the table and the routing of vectors
    to irqfds.  An operation that reaches KVM runs on [MsixEnv]: the device's
    [Msix] and the VM's [KVMFds].  The hook of the test framework
    ([is_test_enabled]) is left out; the logging of errors too. *)
From stdpp Require Import prelude list sorting gmap.
From Stdlib Require Import ZArith Lia.
From S2P Require Import Prelude NumOps Bitmap IrqRoute PciRegs.

Definition MSIX_TABLE_ENTRY_SIZE : Z := 16.
Definition MSIX_TABLE_SIZE_MAX : Z := 0x7ff.
Definition MSIX_TABLE_VEC_CTL : Z := 0x0c.
Definition MSIX_TABLE_MASK_BIT : Z := 0x01.
Definition MSIX_MSG_UPPER_ADDR : Z := 0x04.
Definition MSIX_MSG_DATA : Z := 0x08.
Definition MSIX_CAP_CONTROL : Z := 0x02.
Definition MSIX_CAP_ENABLE : Z := 0x8000.
Definition MSIX_CAP_FUNC_MASK : Z := 0x4000.
Definition MSIX_CAP_SIZE : Z := 12.
Definition MSIX_CAP_TABLE : Z := 0x04.
Definition MSIX_CAP_PBA : Z := 0x08.

Record Message := mkMsg { address_lo : Z; address_hi : Z; data : Z }.

#[export] Instance Message_eq_dec : EqDecision Message.
Proof. solve_decision. Defined.

(** [gsi] is an [i32]. *)
Record GsiMsiRoute := mkGsiRoute { irq_fd : Z; gsi : Z; msg : Message }.

(** The snapshot of a device, arrays of fixed size. *)
Record MsixState := mkMsixState {
  st_table : list Z;
  st_pba : list Z;
  st_func_masked : bool;
  st_enabled : bool;
  st_msix_cap_offset : Z;
  st_dev_id : Z
}.
Definition MsixState_default : MsixState :=
  mkMsixState (replicate (Z.to_nat 2048) 0) (replicate (Z.to_nat 256) 0) false false 0 0.

Record Msix := mkMsix {
  table : list Z;
  pba : list Z;
  func_masked : bool;
  enabled : bool;
  msix_cap_offset : Z;
  dev_id : Z;
  gsi_msi_routes : gmap Z GsiMsiRoute
}.

Definition with_table (m : Msix) (t : list Z) : Msix :=
  mkMsix t (pba m) (func_masked m) (enabled m) (msix_cap_offset m) (dev_id m) (gsi_msi_routes m).
Definition with_pba (m : Msix) (p : list Z) : Msix :=
  mkMsix (table m) p (func_masked m) (enabled m) (msix_cap_offset m) (dev_id m) (gsi_msi_routes m).
Definition with_control (m : Msix) (fm en : bool) : Msix :=
  mkMsix (table m) (pba m) fm en (msix_cap_offset m) (dev_id m) (gsi_msi_routes m).
Definition with_routes (m : Msix) (r : gmap Z GsiMsiRoute) : Msix :=
  mkMsix (table m) (pba m) (func_masked m) (enabled m) (msix_cap_offset m) (dev_id m) r.

(** [as i32], [as u32] *)
Definition as_i32 (x : Z) : Z := (x + 2 ^ 31) `mod` 2 ^ 32 - 2 ^ 31.

(** ** Masks and pending bits *)

(** [for v in v..v+n] *)
Fixpoint mask_loop (n : nat) (v : Z) (t : list Z) : res IrqError (list Z) :=
  match n with
  | O => Ok t
  | S n =>
    let offset := Z.to_nat (v * MSIX_TABLE_ENTRY_SIZE + MSIX_TABLE_VEC_CTL) in
    x ← unwrap (t !! offset);
    mask_loop n (v + 1) (<[offset := Z.lor x MSIX_TABLE_MASK_BIT]> t)
  end.
Definition mask_all_vectors (m : Msix) : res IrqError Msix :=
  t ← mask_loop (Z.to_nat (Z.of_nat (length (table m)) / MSIX_TABLE_ENTRY_SIZE)) 0 (table m);
  Ok (with_table m t).

Definition Msix_new (table_size pba_size cap_offset dev_id : Z) : res IrqError Msix :=
  mask_all_vectors (mkMsix (replicate (Z.to_nat table_size) 0) (replicate (Z.to_nat pba_size) 0)
                      true true cap_offset dev_id ∅).

Definition reset (m : Msix) : res IrqError Msix :=
  mask_all_vectors (mkMsix (replicate (length (table m)) 0) (replicate (length (pba m)) 0)
                      true true (msix_cap_offset m) (dev_id m) (gsi_msi_routes m)).

Definition is_vector_masked (m : Msix) (vector : Z) : res IrqError bool :=
  if negb (enabled m) || func_masked m then Ok true
  else
    let offset := wadd 16 (wmul 16 vector MSIX_TABLE_ENTRY_SIZE) MSIX_TABLE_VEC_CTL in
    x ← unwrap (table m !! Z.to_nat offset);
    Ok (negb (Z.land x MSIX_TABLE_MASK_BIT =? 0)).

Definition pending_bit (vector : Z) : Z := wshl 64 1 (vector `mod` 64).

Definition is_vector_pending (m : Msix) (vector : Z) : res IrqError bool :=
  let offset := vector / 64 in
  value ← unwrap_res (le_read_u64 (pba m) offset);
  Ok (0 <? Z.land value (pending_bit vector)).

Definition set_pending_vector (m : Msix) (vector : Z) : res IrqError Msix :=
  let offset := vector / 64 in
  old_val ← unwrap_res (le_read_u64 (pba m) offset);
  p ← unwrap_res (le_write_u64 (pba m) offset (Z.lor old_val (pending_bit vector)));
  Ok (with_pba m p).

Definition clear_pending_vector (m : Msix) (vector : Z) : res IrqError Msix :=
  let offset := vector / 64 in
  old_val ← unwrap_res (le_read_u64 (pba m) offset);
  p ← unwrap_res (le_write_u64 (pba m) offset (Z.land old_val (wnot 64 (pending_bit vector))));
  Ok (with_pba m p).

(** [self.table.len() as u16 / MSIX_TABLE_ENTRY_SIZE] *)
Definition max_vectors (m : Msix) : Z :=
  wrap 16 (Z.of_nat (length (table m))) / MSIX_TABLE_ENTRY_SIZE.

Fixpoint clear_pending_loop (n : nat) (v : Z) (m : Msix) : res IrqError Msix :=
  match n with
  | O => Ok m
  | S n => m ← clear_pending_vector m v; clear_pending_loop n (v + 1) m
  end.
Definition clear_pending_vectors (m : Msix) : res IrqError Msix :=
  clear_pending_loop (Z.to_nat (max_vectors m)) 0 m.

Definition get_message (m : Msix) (vector : Z) : res IrqError Message :=
  let entry_offset := wmul 16 vector MSIX_TABLE_ENTRY_SIZE in
  address_lo ← unwrap_res (le_read_u32 (table m) entry_offset);
  address_hi ← unwrap_res (le_read_u32 (table m) (wadd 16 entry_offset MSIX_MSG_UPPER_ADDR));
  data ← unwrap_res (le_read_u32 (table m) (wadd 16 entry_offset MSIX_MSG_DATA));
  Ok (mkMsg address_lo address_hi data).

Definition is_msix_enabled (cap_offset : Z) (config : list Z) : res IrqError bool :=
  msix_ctl ← unwrap_res (le_read_u16 config (wadd 64 cap_offset MSIX_CAP_CONTROL));
  Ok (0 <? Z.land msix_ctl MSIX_CAP_ENABLE).
Definition is_msix_func_masked (cap_offset : Z) (config : list Z) : res IrqError bool :=
  msix_ctl ← unwrap_res (le_read_u16 config (wadd 64 cap_offset MSIX_CAP_CONTROL));
  Ok (0 <? Z.land msix_ctl MSIX_CAP_FUNC_MASK).

(** ** Snapshots *)

(** [for (idx, byte) in v.iter().enumerate() { arr[idx] = *byte }] *)
Fixpoint copy_into (arr v : list Z) : res IrqError (list Z) :=
  match v, arr with
  | [], _ => Ok arr
  | _ :: _, [] => Panic
  | b :: v, _ :: arr => r ← copy_into arr v; Ok (b :: r)
  end.
Definition get_state_vec (m : Msix) : res IrqError MsixState :=
  t ← copy_into (st_table MsixState_default) (table m);
  p ← copy_into (st_pba MsixState_default) (pba m);
  Ok (mkMsixState t p (func_masked m) (enabled m) (msix_cap_offset m) (dev_id m)).

(** [arr\[..n\]] *)
Definition prefix (arr : list Z) (n : nat) : res IrqError (list Z) :=
  if (n <=? length arr)%nat then Ok (take n arr) else Panic.
Definition set_state_mut (m : Msix) (s : MsixState) : res IrqError Msix :=
  t ← prefix (st_table s) (length (table m));
  p ← prefix (st_pba s) (length (pba m));
  Ok (mkMsix t p (st_func_masked s) (st_enabled s) (st_msix_cap_offset s) (st_dev_id s)
        (gsi_msi_routes m)).

(** ** Operations that reach KVM *)

Record MsixEnv (K : Type) := mkMsixEnv { ms : Msix; fds : KVMFds K }.
Arguments mkMsixEnv {K}.
Arguments ms {K}.
Arguments fds {K}.

Section msix.
Context {K : Type} `{!IrqKernel K}.

Abbreviation EM := (sres (MsixEnv K) IrqError).

Definition on_fds {A} (f : sres (KVMFds K) IrqError A) : EM A := fun e =>
  let '(k, r) := f (fds e) in (mkMsixEnv (ms e) k, r).
(** A query and an update of the [Msix]. *)
Definition query {A} (f : Msix -> res IrqError A) : EM A := fun e => (e, f (ms e)).
Definition update (f : Msix -> res IrqError Msix) : EM unit := fun e =>
  match f (ms e) with
  | Ok m => (mkMsixEnv m (fds e), Ok tt)
  | Err x => (e, Err x)
  | Panic => (e, Panic)
  end.
(** [is_err()] *)
Definition is_err (m : EM unit) : EM bool := fun e =>
  match m e with (e, Ok _) => (e, Ok false) | (e, Err _) => (e, Ok true) | (e, Panic) => (e, Panic) end.

Definition to_msi (msg : Message) (dev_id : Z) : kvm_msi :=
  mkKvmMsi (address_lo msg) (address_hi msg) (data msg) 0 dev_id.
Definition send_msix (msg : Message) (dev_id : Z) : EM unit :=
  signore (on_fds (on_vm (fun k => signal_msi k (to_msi msg dev_id)))).

Definition notify (vector dev_id : Z) : EM unit :=
  m ← query (fun m => Ok m);
  if max_vectors m <=? vector then mret tt
  else
    masked ← query (fun m => is_vector_masked m vector);
    if (masked : bool) then update (fun m => set_pending_vector m vector)
    else msg ← query (fun m => get_message m vector); send_msix msg dev_id.

Definition msi_vector (msg : Message) : MsiVector :=
  mkMsiVector (address_lo msg) (address_hi msg) (data msg) false.

Definition set_route (vector : Z) (r : GsiMsiRoute) : EM unit :=
  update (fun m => Ok (with_routes m (<[vector := r]> (gsi_msi_routes m)))).

Definition update_irq_routing (vector : Z) (is_masked : bool) : EM unit :=
  entry ← query (fun m => get_message m vector);
  m ← query (fun m => Ok m);
  match gsi_msi_routes m !! vector with
  | None => mret tt
  | Some route =>
    if is_masked then on_fds (unregister_irqfd (irq_fd route) (wrap 32 (gsi route)))
    else
      _ ← (if decide (msg route = entry) then mret tt
           else
             _ ← on_fds (on_table (update_msi_route (wrap 32 (gsi route)) (msi_vector entry)));
             _ ← on_fds commit_irq_routing;
             set_route vector (mkGsiRoute (irq_fd route) (gsi route) entry));
      on_fds (register_irqfd (irq_fd route) (wrap 32 (gsi route)))
  end.

Definition msix_register_irqfd (vector call_fd : Z) : EM unit :=
  entry ← query (fun m => get_message m vector);
  gsi ← on_fds (on_table allocate_gsi);
  _ ← on_fds (on_table (add_msi_route gsi (msi_vector entry)));
  _ ← on_fds commit_irq_routing;
  _ ← on_fds (register_irqfd call_fd gsi);
  set_route vector (mkGsiRoute call_fd (as_i32 gsi) entry).

(** [routes] is the content of the [HashMap] in its iteration order. *)
Fixpoint unregister_loop (routes : list GsiMsiRoute) : EM unit :=
  match routes with
  | [] => mret tt
  | r :: routes =>
    _ ← on_fds (unregister_irqfd (irq_fd r) (wrap 32 (gsi r)));
    _ ← on_fds (on_table (release_gsi (wrap 32 (gsi r))));
    unregister_loop routes
  end.
Definition msix_unregister_irqfd (order : gmap Z GsiMsiRoute -> list GsiMsiRoute) : EM unit :=
  m ← query (fun m => Ok m);
  _ ← unregister_loop (order (gsi_msi_routes m));
  update (fun m => Ok (with_routes m ∅)).

(** ** Guest accesses *)

(** The closures of [register_memory_region].  A read gives the bytes or
    fails; [n] is the length of the buffer. *)
Definition read_window (buf : list Z) (offset : Z) (n : nat) : res IrqError (option (list Z)) :=
  let e := wadd 64 offset (Z.of_nat n) in
  if Z.of_nat (length buf) <? e then Ok None
  else if e <? offset then Panic else Ok (Some (slice buf (Z.to_nat offset) n)).
Definition table_read (m : Msix) := read_window (table m).
Definition pba_read (m : Msix) := read_window (pba m).
Definition pba_write (m : Msix) (bytes : list Z) (offset : Z) : Msix * bool := (m, true).

(** [table\[offset..(offset + 4)\].copy_from_slice(data)] *)
Definition copy_dword (m : Msix) (bytes : list Z) (offset : Z) : res IrqError Msix :=
  let e := wadd 64 offset 4 in
  if (e <? offset) || (Z.of_nat (length (table m)) <? e) || negb (length bytes =? 4)%nat then Panic
  else Ok (with_table m (splice (table m) (Z.to_nat offset) bytes)).

(** [dev_id] is the number in the cell the closure captured. *)
Definition table_write (dev_id : Z) (bytes : list Z) (offset : Z) : EM bool :=
  m ← query (fun m => Ok m);
  if Z.of_nat (length (table m)) <? wadd 64 offset (Z.of_nat (length bytes)) then mret false
  else
    let vector := wrap 16 offset / MSIX_TABLE_ENTRY_SIZE in
    was_masked ← query (fun m => is_vector_masked m vector);
    _ ← update (fun m => copy_dword m bytes offset);
    is_masked ← query (fun m => is_vector_masked m vector);
    failed ← (if Bool.eqb was_masked is_masked then mret false
              else is_err (update_irq_routing vector is_masked));
    if (failed : bool) then mret false
    else
      pending ← (if was_masked && negb is_masked then query (fun m => is_vector_pending m vector)
                 else mret false);
      _ ← (if (pending : bool) then
             _ ← update (fun m => clear_pending_vector m vector); notify vector dev_id
           else mret tt);
      mret true.

(** [for v in v..v+n] of [write_config] *)
Fixpoint deliver_loop (n : nat) (v dev_id : Z) : EM unit :=
  match n with
  | O => mret tt
  | S n =>
    masked ← query (fun m => is_vector_masked m v);
    pending ← (if negb masked then query (fun m => is_vector_pending m v) else mret false);
    _ ← (if (pending : bool) then
           _ ← update (fun m => clear_pending_vector m v);
           msg ← query (fun m => get_message m v); send_msix msg dev_id
         else mret tt);
    deliver_loop n (v + 1) dev_id
  end.

Definition write_config (config : list Z) (dev_id offset : Z) (bytes : list Z) : EM unit :=
  m ← query (fun m => Ok m);
  let control_off := wadd 64 (msix_cap_offset m) MSIX_CAP_CONTROL in
  overlap ← slift (unwrap_res (ranges_overlap offset (Z.of_nat (length bytes)) (wadd 64 control_off 1) 1));
  if negb overlap then mret tt
  else
    masked ← slift (is_msix_func_masked (msix_cap_offset m) config);
    en ← slift (is_msix_enabled (msix_cap_offset m) config);
    let changed := negb (Bool.eqb (func_masked m) masked && Bool.eqb (enabled m) en) in
    _ ← update (fun m => Ok (with_control m masked en));
    if changed && (en && negb masked) then deliver_loop (Z.to_nat (max_vectors m)) 0 dev_id
    else mret tt.

(** [MigrationHook::resume], [for vector in v..v+n] *)
Fixpoint resume_loop (n : nat) (v : Z) : EM unit :=
  match n with
  | O => mret tt
  | S n =>
    masked ← query (fun m => is_vector_masked m v);
    if (masked : bool) then resume_loop n (v + 1)
    else
      msg ← query (fun m => get_message m v);
      gsi ← on_fds (on_table allocate_gsi);
      _ ← on_fds (on_table (add_msi_route gsi (msi_vector msg)));
      _ ← on_fds commit_irq_routing;
      pending ← query (fun m => is_vector_pending m v);
      m ← query (fun m => Ok m);
      _ ← (if (pending : bool) then
             _ ← update (fun m => clear_pending_vector m v); send_msix msg (dev_id m)
           else mret tt);
      resume_loop n (v + 1)
  end.
Definition resume : EM unit :=
  m ← query (fun m => Ok m);
  if enabled m && negb (func_masked m) then resume_loop (Z.to_nat (max_vectors m)) 0 else mret tt.
End msix.

(** * Theorems *)

(** ** Shape of a device with [n] vectors *)

(** As [init_msix] creates it: 16 bytes of table for each vector and 8 bytes
    of pending bits for every 64 of them. *)
Definition pba_len (n : Z) : Z := 8 * ((n + 63) / 64).
Definition msix_wf (n : Z) (m : Msix) : Prop :=
  1 <= n <= MSIX_TABLE_SIZE_MAX + 1 /\
  Z.of_nat (length (table m)) = 16 * n /\ Z.of_nat (length (pba m)) = pba_len n /\
  is_bytes (table m) /\ is_bytes (pba m).

Lemma wf_max_vectors n m : msix_wf n m -> max_vectors m = n.
Proof.
  intros (Hn & Ht & _). unfold max_vectors, MSIX_TABLE_SIZE_MAX, MSIX_TABLE_ENTRY_SIZE in *.
  rewrite Ht, wrap_small by (unfold inW; lia). rewrite Z.mul_comm. by apply Z.div_mul.
Qed.

(** ** Masks *)

(** The mask bit of entry [v]. *)
Definition vec_masked (m : Msix) (v : Z) : bool := bit_of (table m) (8 * (16 * v + 12)).
Definition deliverable (m : Msix) (v : Z) : bool :=
  enabled m && negb (func_masked m) && negb (vec_masked m v).

Lemma land_1_eqb x : (Z.land x 1 =? 0) = negb (Z.testbit x 0).
Proof.
  replace (Z.land x 1) with (x `mod` 2).
  - rewrite Z.testbit_odd. change (Z.shiftr x 0) with x. rewrite Zmod_odd.
    by destruct (Z.odd x).
  - change 1 with (Z.ones 1). by rewrite Z.land_ones.
Qed.

Lemma is_vector_masked_ok n m v :
  msix_wf n m -> 0 <= v < n -> is_vector_masked m v = Ok (negb (deliverable m v)).
Proof.
  intros (Hn & Ht & _ & Hb & _) Hv. unfold is_vector_masked, deliverable.
  destruct (enabled m), (func_masked m); cbn [negb orb andb]; try done.
  unfold MSIX_TABLE_SIZE_MAX, MSIX_TABLE_ENTRY_SIZE, MSIX_TABLE_VEC_CTL, MSIX_TABLE_MASK_BIT in *.
  rewrite wmul_small by (unfold inW; lia). rewrite wadd_small by (unfold inW; lia).
  destruct (lookup_lt_is_Some_2 (table m) (Z.to_nat (v * 16 + 12))) as [x Hx]; [lia|].
  rewrite Hx. cbn [unwrap mbind res_bind]. f_equal. rewrite land_1_eqb, !negb_involutive.
  unfold vec_masked. replace (8 * (16 * v + 12)) with (8 * (v * 16 + 12) + 0) by lia.
  symmetry. by apply bit_of_byte; [done|lia|lia|].
Qed.

(** ** Pending bits *)

(** The bit of the array that stands for vector [v]. *)
Definition pend_index (v : Z) : Z := 8 * (v / 64) + v `mod` 64.
Definition pending (m : Msix) (v : Z) : bool := bit_of (pba m) (pend_index v).

(** Up to 64 vectors each have a bit of their own. *)
Lemma pend_index_small v : 0 <= v < 64 -> pend_index v = v.
Proof. intros. unfold pend_index. rewrite Z.div_small, Z.mod_small by lia. lia. Qed.

Lemma pending_bit_testbit v j :
  0 <= v -> 0 <= j -> Z.testbit (pending_bit v) j = (j =? v `mod` 64).
Proof.
  intros. unfold pending_bit. pose proof (Z.mod_pos_bound v 64).
  apply (Bitmap.one_rhs_testbit 64); lia.
Qed.

Lemma pending_bit_inW v : inW 64 (pending_bit v).
Proof. apply wrap_inW. lia. Qed.

Lemma vector_window n m v :
  msix_wf n m -> 0 <= v < n ->
  0 <= v / 64 /\ v / 64 + Z.of_nat 8 <= Z.of_nat (length (pba m)) /\
  Z.of_nat (length (pba m)) < 2 ^ 64.
Proof.
  intros (Hn & _ & Hp & _) Hv. unfold pba_len, MSIX_TABLE_SIZE_MAX in *. rewrite Hp.
  pose proof (Z.div_mod v 64). pose proof (Z.mod_pos_bound v 64).
  pose proof (Z.div_mod (n + 63) 64). pose proof (Z.mod_pos_bound (n + 63) 64). lia.
Qed.

Lemma land_pos_testbit x v :
  0 <= x -> 0 <= v -> (0 <? Z.land x (pending_bit v)) = Z.testbit x (v `mod` 64).
Proof.
  intros Hx Hv. pose proof (Z.mod_pos_bound v 64).
  assert (0 <= Z.land x (pending_bit v)) by (apply Z.land_nonneg; by left).
  destruct (Z.ltb_spec 0 (Z.land x (pending_bit v))) as [Hp|Hp].
  - destruct (Z.testbit x (v `mod` 64)) eqn:E; [done|]. exfalso.
    assert (Z.land x (pending_bit v) = 0); [|lia]. apply Z.bits_inj'. intros j ?.
    rewrite Z.land_spec, pending_bit_testbit, Z.testbit_0_l by done.
    zcase; [subst; by rewrite E|apply andb_false_r].
  - destruct (Z.testbit x (v `mod` 64)) eqn:E; [|done].
    assert (Z.land x (pending_bit v) = 0) as Hz by lia.
    apply (f_equal (fun y => Z.testbit y (v `mod` 64))) in Hz.
    rewrite Z.land_spec, pending_bit_testbit, Z.testbit_0_l, E, Z.eqb_refl in Hz by lia. done.
Qed.

Lemma is_vector_pending_ok n m v :
  msix_wf n m -> 0 <= v < n -> is_vector_pending m v = Ok (pending m v).
Proof.
  intros Hwf Hv. destruct (vector_window _ _ _ Hwf Hv) as (? & ? & ?).
  destruct Hwf as (_ & _ & _ & _ & Hb). unfold is_vector_pending, le_read_u64.
  rewrite le_read_ok by done. cbn [unwrap_res mbind res_bind]. f_equal.
  pose proof (Z.mod_pos_bound v 64).
  assert (is_bytes (slice (pba m) (Z.to_nat (v / 64)) 8)) as Hs by (by apply Forall_take, Forall_drop).
  rewrite land_pos_testbit by (lia || by apply le_val_bound).
  rewrite slice_testbit by (done || lia).
  by destruct (Z.ltb_spec (v `mod` 64) (8 * Z.of_nat 8)); [|lia].
Qed.

(** Setting or clearing the bit of [v] touches no other bit. *)
Lemma pending_update_ok (f : Z -> Z -> Z) (g : bool -> bool) n m v :
  msix_wf n m -> 0 <= v < n ->
  (forall x, inW 64 x -> inW 64 (f x (pending_bit v))) ->
  (forall x j, inW 64 x -> 0 <= j < 64 -> Z.testbit (f x (pending_bit v)) j =
     if j =? v `mod` 64 then g (Z.testbit x j) else Z.testbit x j) ->
  exists p, (old_val ← unwrap_res (le_read_u64 (pba m) (v / 64));
             p ← unwrap_res (le_write_u64 (pba m) (v / 64) (f old_val (pending_bit v)));
             Ok (with_pba m p)) = @Ok IrqError Msix (with_pba m p) /\
    msix_wf n (with_pba m p) /\
    forall j, 0 <= j -> bit_of p j = if j =? pend_index v then g (bit_of (pba m) j) else bit_of (pba m) j.
Proof.
  intros Hwf Hv Hfw Hf. destruct (vector_window _ _ _ Hwf Hv) as (? & Hfit & ?).
  destruct Hwf as (? & ? & Hlen & ? & Hb). unfold le_read_u64, le_write_u64.
  rewrite le_read_ok by done. cbn [unwrap_res mbind res_bind].
  set (x := le_val _). assert (inW 64 x) as Hx.
  { assert (is_bytes (slice (pba m) (Z.to_nat (v / 64)) 8)) as Hs by (by apply Forall_take, Forall_drop).
    pose proof (le_val_bound _ Hs) as Hx. rewrite slice_length in Hx by lia. exact Hx. }
  rewrite le_write_ok by done. cbn [unwrap_res].
  eexists. split; [done|]. split.
  - unfold msix_wf. cbn [with_pba table pba]. split_and!; try done; try lia.
    + rewrite splice_length; [done|]. rewrite le_bytes_length. lia.
    + apply splice_is_bytes; [done|apply le_bytes_is_bytes].
  - intros j ?. rewrite splice_testbit by (done || lia || exact (Hfw x Hx)).
    unfold pend_index. pose proof (Z.mod_pos_bound v 64).
    destruct (Z.leb_spec (8 * (v / 64)) j), (Z.ltb_spec j (8 * (v / 64 + Z.of_nat 8))); cbn [andb];
      try (zcase; [lia|done]).
    rewrite Hf by (done || lia).
    assert (Z.testbit x (j - 8 * (v / 64)) = bit_of (pba m) j) as ->.
    { unfold x. rewrite slice_testbit by (done || lia).
      replace (8 * (v / 64) + (j - 8 * (v / 64))) with j by lia.
      by destruct (Z.ltb_spec (j - 8 * (v / 64)) (8 * Z.of_nat 8)); [|lia]. }
    destruct (Z.eqb_spec (j - 8 * (v / 64)) (v `mod` 64)),
      (Z.eqb_spec j (8 * (v / 64) + v `mod` 64)); done || lia.
Qed.

Lemma set_pending_ok n m v :
  msix_wf n m -> 0 <= v < n ->
  exists p, set_pending_vector m v = Ok (with_pba m p) /\ msix_wf n (with_pba m p) /\
    forall j, 0 <= j -> bit_of p j = (j =? pend_index v) || bit_of (pba m) j.
Proof.
  intros Hwf Hv.
  destruct (pending_update_ok Z.lor (fun _ => true) n m v Hwf Hv) as (p & Hp & ? & Hb).
  - intros. apply lor_inW; [lia|done|apply pending_bit_inW].
  - intros. rewrite Z.lor_spec, pending_bit_testbit by lia.
    zcase; [apply orb_true_r|apply orb_false_r].
  - exists p. split_and!; try done.
Qed.

Lemma clear_pending_ok n m v :
  msix_wf n m -> 0 <= v < n ->
  exists p, clear_pending_vector m v = Ok (with_pba m p) /\ msix_wf n (with_pba m p) /\
    forall j, 0 <= j -> bit_of p j = negb (j =? pend_index v) && bit_of (pba m) j.
Proof.
  intros Hwf Hv.
  destruct (pending_update_ok (fun x b => Z.land x (wnot 64 b)) (fun _ => false) n m v Hwf Hv)
    as (p & Hp & ? & Hb).
  - intros. apply land_inW; [lia|done].
  - intros. rewrite Z.land_spec, wnot_testbit, pending_bit_testbit by (lia || apply pending_bit_inW).
    zcase; [apply andb_false_r|apply andb_true_r].
  - exists p. split_and!; try done. intros j ?. rewrite Hb by done. by zcase.
Qed.

(** ** Messages *)

(** The message in entry [v] of the table. *)
Definition dword_at (m : Msix) (off : Z) : Z := le_val (slice (table m) (Z.to_nat off) 4).
Definition message_at (m : Msix) (v : Z) : Message :=
  mkMsg (dword_at m (16 * v)) (dword_at m (16 * v + 4)) (dword_at m (16 * v + 8)).

Lemma get_message_ok n m v : msix_wf n m -> 0 <= v < n -> get_message m v = Ok (message_at m v).
Proof.
  intros (Hn & Ht & _) Hv. unfold get_message, le_read_u32.
  unfold MSIX_TABLE_SIZE_MAX, MSIX_TABLE_ENTRY_SIZE, MSIX_MSG_UPPER_ADDR, MSIX_MSG_DATA in *.
  rewrite wmul_small by (unfold inW; lia). rewrite !wadd_small by (unfold inW; lia).
  rewrite !le_read_ok by lia. cbn [unwrap_res mbind res_bind]. unfold message_at, dword_at.
  by replace (v * 16) with (16 * v) by lia.
Qed.

Lemma mask_loop_ok k : forall v t,
  0 <= v -> is_bytes t -> 16 * (v + Z.of_nat k) <= Z.of_nat (length t) ->
  exists t', mask_loop k v t = Ok t' /\ is_bytes t' /\ length t' = length t /\
    (forall j, 0 <= j -> bit_of t j = true -> bit_of t' j = true) /\
    forall w, v <= w < v + Z.of_nat k -> bit_of t' (8 * (16 * w + 12)) = true.
Proof.
  induction k as [|k IH]; intros v t ? Hb Hlen; cbn [mask_loop].
  { exists t. split_and!; try done. lia. }
  unfold MSIX_TABLE_ENTRY_SIZE, MSIX_TABLE_VEC_CTL, MSIX_TABLE_MASK_BIT.
  set (i := Z.to_nat (v * 16 + 12)).
  destruct (lookup_lt_is_Some_2 t i) as [x Hx]; [subst i; lia|]. rewrite Hx. cbn [unwrap mbind res_bind].
  assert (is_u8 x) as Hx8 by (unfold is_bytes in Hb; rewrite Forall_lookup in Hb; by eapply Hb).
  assert (is_u8 (Z.lor x 1)) as Hy by (by apply lor_inW).
  set (t1 := <[i := Z.lor x 1]> t).
  assert (forall j, 0 <= j -> bit_of t j = true -> bit_of t1 j = true) as Hmono.
  { intros j ? Hj. unfold t1. rewrite bit_of_insert by (done || (subst i; lia)). zcase; [|done].
    rewrite Z.lor_spec. unfold bit_of in Hj. rewrite le_val_testbit in Hj by done.
    assert (Z.to_nat (j / 8) = i) as Hji by lia. rewrite Hji, Hx in Hj. simpl in Hj. by rewrite Hj. }
  destruct (IH (v + 1) t1) as (t' & -> & ? & Hl & Hm & Hw); [lia|by apply Forall_insert|
    unfold t1; rewrite length_insert; lia|].
  exists t'. split_and!; try done; [unfold t1 in Hl; by rewrite length_insert in Hl|by auto|].
  intros w ?. destruct (decide (w = v)) as [->|]; [|apply Hw; lia].
  apply Hm; [lia|]. unfold t1. rewrite bit_of_insert by (done || lia || (subst i; lia)).
  replace (8 * (16 * v + 12)) with (0 + (16 * v + 12) * 8) by lia.
  rewrite Z.div_add, Z.mod_add by lia. change (0 / 8) with 0. change (0 `mod` 8) with 0.
  destruct (Z.eqb_spec (0 + (16 * v + 12)) (Z.of_nat i)); [|unfold i in *; lia].
  rewrite Z.lor_spec. apply orb_true_r.
Qed.

Lemma mask_all_ok n m :
  msix_wf n m -> exists t, mask_all_vectors m = Ok (with_table m t) /\
    msix_wf n (with_table m t) /\ forall v, 0 <= v < n -> vec_masked (with_table m t) v = true.
Proof.
  intros (Hn & Ht & ? & Hb & ?). unfold mask_all_vectors, MSIX_TABLE_ENTRY_SIZE.
  rewrite Ht, Z.mul_comm, Z.div_mul by lia.
  destruct (mask_loop_ok (Z.to_nat n) 0 (table m)) as (t & -> & ? & Hl & _ & Hw); [lia|done|lia|].
  exists t. split; [done|]. split; [|intros; apply Hw; lia].
  unfold msix_wf. cbn [with_table table pba]. rewrite Hl. split_and!; done || lia.
Qed.

(** A new or reset device has every vector masked and none pending. *)
Lemma fresh_ok n m :
  msix_wf n m -> table m = replicate (length (table m)) 0 -> pba m = replicate (length (pba m)) 0 ->
  exists t, mask_all_vectors m = Ok (with_table m t) /\ msix_wf n (with_table m t) /\
    (forall v, 0 <= v < n -> vec_masked (with_table m t) v = true) /\
    (forall j, 0 <= j -> bit_of (pba (with_table m t)) j = false).
Proof.
  intros Hwf _ Hp. destruct (mask_all_ok n m Hwf) as (t & ? & ? & ?). exists t.
  split_and!; try done. intros j ?. cbn [with_table pba]. rewrite Hp. unfold bit_of.
  rewrite le_val_testbit by (done || apply zeros_are_bytes).
  destruct (replicate _ _ !! _) eqn:E; simpl; [|apply Z.testbit_0_l].
  apply lookup_replicate in E as [-> _]. apply Z.testbit_0_l.
Qed.

(** ** Delivery *)

(** The messages KVM was handed, in order.  The view exists for every kernel:
    [traced] writes the log beside it. *)
Class MsiLog (K : Type) `{!IrqKernel K} := {
  sent : K -> list kvm_msi;
  sent_signal k x : sent (signal_msi k x).1 = sent k ++ [x];
  sent_routing k l : sent (set_gsi_routing k l).1 = sent k;
  sent_register k fd g : sent (kvm_register_irqfd k fd g).1 = sent k;
  sent_unregister k fd g : sent (kvm_unregister_irqfd k fd g).1 = sent k
}.

Record Traced (K : Type) := mkTraced { tr_kernel : K; tr_log : list kvm_msi }.
Arguments mkTraced {K}.
Arguments tr_kernel {K}.
Arguments tr_log {K}.
Definition traced {K} (f : K -> K * bool) (t : Traced K) : Traced K * bool :=
  let '(k, ok) := f (tr_kernel t) in (mkTraced k (tr_log t), ok).
#[export] Instance traced_kernel {K} `{!IrqKernel K} : IrqKernel (Traced K) := {|
  set_gsi_routing t l := traced (fun k => set_gsi_routing k l) t;
  kvm_register_irqfd t fd g := traced (fun k => kvm_register_irqfd k fd g) t;
  kvm_unregister_irqfd t fd g := traced (fun k => kvm_unregister_irqfd k fd g) t;
  kvm_set_irq_line t g lv := traced (fun k => kvm_set_irq_line k g lv) t;
  signal_msi t m := let '(t, ok) := traced (fun k => signal_msi k m) t in (mkTraced (tr_kernel t) (tr_log t ++ [m]), ok) |}.
#[export] Instance traced_log {K} `{!IrqKernel K} : MsiLog (Traced K).
Proof. refine {| sent := tr_log |}; intros t *; simpl; unfold traced; by destruct (_ : K * bool). Defined.

Section delivery.
Context {K : Type} `{!IrqKernel K}.

Abbreviation Env := (MsixEnv K).

(** KVM after it is handed the messages [l] in turn. *)
Definition raise (l : list kvm_msi) (f : KVMFds K) : KVMFds K :=
  mkFds (irq_route_table f)
        ((fun k => foldl (fun k x => (signal_msi k x).1) k l) <$> vm_fd f).

Lemma raise_nil f : raise [] f = f.
Proof. unfold raise. destruct f as [t []]; done. Qed.
Lemma raise_app l1 l2 f : raise l2 (raise l1 f) = raise (l1 ++ l2) f.
Proof. unfold raise. destruct f as [t []]; simpl; by rewrite ?foldl_app. Qed.
Lemma raise_vm l f : is_Some (vm_fd f) -> is_Some (vm_fd (raise l f)).
Proof. intros [k Hk]. unfold raise. simpl. rewrite Hk. by eexists. Qed.

Lemma query_step {A B} (f : Msix -> res IrqError A) a (g : A -> sres Env IrqError B) e :
  f (ms e) = Ok a -> (query f ≫= g) e = g a e.
Proof. intros H. apply sres_step. unfold query. by rewrite H. Qed.
Lemma update_eq (f : Msix -> res IrqError Msix) m (e : Env) :
  f (ms e) = Ok m -> update f e = (mkMsixEnv m (fds e), Ok tt).
Proof. intros H. unfold update. by rewrite H. Qed.

Lemma send_msix_ok msg dev (e : Env) :
  is_Some (vm_fd (fds e)) ->
  send_msix msg dev e = (mkMsixEnv (ms e) (raise [to_msi msg dev] (fds e)), Ok tt).
Proof.
  intros [k Hk]. unfold send_msix, signore, on_fds, on_vm, raise. rewrite Hk. simpl.
  destruct (signal_msi k (to_msi msg dev)) as [k' []]; done.
Qed.

(** What one [notify] does. *)
Lemma notify_ok n (e : Env) v dev :
  msix_wf n (ms e) -> is_Some (vm_fd (fds e)) -> 0 <= v ->
  (n <= v /\ notify v dev e = (e, Ok tt)) \/
  (v < n /\ deliverable (ms e) v = true /\
     notify v dev e = (mkMsixEnv (ms e) (raise [to_msi (message_at (ms e) v) dev] (fds e)), Ok tt)) \/
  (v < n /\ deliverable (ms e) v = false /\ exists p,
     notify v dev e = (mkMsixEnv (with_pba (ms e) p) (fds e), Ok tt) /\
     msix_wf n (with_pba (ms e) p) /\
     forall j, 0 <= j -> bit_of p j = (j =? pend_index v) || bit_of (pba (ms e)) j).
Proof.
  intros Hwf Hvm Hv. unfold notify. rewrite (query_step _ (ms e)) by done.
  rewrite (wf_max_vectors n) by done. destruct (Z.leb_spec n v) as [|Hlt]; [by left|right].
  erewrite query_step by (by apply (is_vector_masked_ok n)).
  destruct (deliverable (ms e) v) eqn:Ed; cbn [negb]; [left|right]; split_and!; try done.
  - erewrite query_step by (by apply (get_message_ok n)). by apply send_msix_ok.
  - destruct (set_pending_ok n (ms e) v Hwf) as (p & Hp & ? & ?); [lia|].
    exists p. split_and!; try done. by apply update_eq.
Qed.

(** The vectors of [v, v + k) whose message is due. *)
Fixpoint due (k : nat) (v : Z) (m : Msix) : list Z :=
  match k with
  | O => []
  | S k => if deliverable m v && pending m v then v :: due k (v + 1) m else due k (v + 1) m
  end.
Definition due_msgs (m : Msix) (dev : Z) (l : list Z) : list kvm_msi :=
  (fun v => to_msi (message_at m v) dev) <$> l.

Lemma due_spec k : forall v m w,
  w ∈ due k v m <-> v <= w < v + Z.of_nat k /\ deliverable m w = true /\ pending m w = true.
Proof.
  induction k as [|k IH]; intros v m w; cbn [due].
  { split; [by intros ?%elem_of_nil|lia]. }
  destruct (deliverable m v && pending m v) eqn:E.
  - apply andb_true_iff in E as [? ?]. rewrite elem_of_cons, IH. split.
    + intros [->|?]; [split_and!; done || lia|]. intuition lia.
    + intros (? & ? & ?). destruct (decide (w = v)); [by left|right]. split; [lia|done].
  - rewrite IH. split; [intuition lia|]. intros (? & Hd & Hp).
    destruct (decide (w = v)) as [->|]; [by rewrite Hd, Hp in E|]. split; [lia|done].
Qed.

Lemma due_sorted k : forall v m, StronglySorted Z.lt (due k v m).
Proof.
  induction k as [|k IH]; intros v m; cbn [due]; [constructor|].
  destruct (_ && _); [|apply IH]. constructor; [apply IH|]. apply Forall_forall.
  intros w [? _]%due_spec. lia.
Qed.

Lemma due_ext k : forall v m m',
  (forall w, v <= w < v + Z.of_nat k -> deliverable m' w = deliverable m w /\ pending m' w = pending m w) ->
  due k v m' = due k v m.
Proof.
  induction k as [|k IH]; intros v m m' H; cbn [due]; [done|].
  destruct (H v) as [-> ->]; [lia|]. rewrite (IH (v + 1) m m'); [done|]. intros. apply H. lia.
Qed.

Lemma deliver_loop_ok (n dev : Z) (k : nat) : forall (v : Z) (e : Env),
  msix_wf n (ms e) -> n <= 64 -> is_Some (vm_fd (fds e)) -> 0 <= v -> v + Z.of_nat k <= n ->
  exists p : list Z, deliver_loop k v dev e =
      (mkMsixEnv (with_pba (ms e) p) (raise (due_msgs (ms e) dev (due k v (ms e))) (fds e)), Ok tt) /\
    msix_wf n (with_pba (ms e) p) /\
    forall w, 0 <= w < 64 -> bit_of p w =
      bit_of (pba (ms e)) w && negb ((v <=? w) && (w <? v + Z.of_nat k) && deliverable (ms e) w).
Proof.
  induction k as [|k IH]; intros v e Hwf Hn Hvm Hv Hk; cbn [deliver_loop due].
  { exists (pba (ms e)). unfold due_msgs. cbn [fmap list_fmap]. rewrite raise_nil.
    split_and!; [by destruct e as [[]]|by destruct (ms e)|].
    intros w ?. destruct (Z.leb_spec v w), (Z.ltb_spec w (v + Z.of_nat 0)); try lia;
      by rewrite ?andb_true_r. }
  erewrite query_step by (apply (is_vector_masked_ok n); [done|lia]). rewrite negb_involutive.
  destruct (deliverable (ms e) v) eqn:Ed; cbn [andb].
  2:{ rewrite sret_bind, sret_bind.
      destruct (IH (v + 1) e) as (p & -> & ? & Hp); try done; try lia.
      exists p. split_and!; try done. intros w ?. rewrite Hp by done. f_equal. f_equal.
      destruct (decide (w = v)) as [->|]; [by rewrite Ed, !andb_false_r|]. f_equal.
      zcases; done || lia. }
  erewrite query_step by (apply (is_vector_pending_ok n); [done|lia]).
  unfold pending. rewrite pend_index_small by lia.
  destruct (bit_of (pba (ms e)) v) eqn:Ep.
  - destruct (clear_pending_ok n (ms e) v Hwf) as (p1 & Hp1 & Hwf1 & Hb1); [lia|].
    rewrite pend_index_small in Hb1 by lia.
    set (e1 := mkMsixEnv (with_pba (ms e) p1) (raise [to_msi (message_at (ms e) v) dev] (fds e))).
    erewrite (sres_step _ _ e e1).
    2:{ erewrite sres_step by (by apply update_eq).
        erewrite query_step by (apply (get_message_ok n); [done|lia]). by apply send_msix_ok. }
    destruct (IH (v + 1) e1) as (p & -> & ? & Hp); try done; try lia; [by apply raise_vm|].
    exists p. subst e1. cbn [ms fds]. rewrite raise_app. split_and!; try done.
    + unfold due_msgs. rewrite fmap_cons. do 5 f_equal. apply due_ext. intros w ?.
      split; [done|]. unfold pending. rewrite pend_index_small by lia. cbn [with_pba pba].
      rewrite Hb1 by lia. by destruct (Z.eqb_spec w v); [lia|].
    + intros w ?. rewrite Hp by done. cbn [ms with_pba pba]. rewrite Hb1 by lia.
      change (deliverable (with_pba (ms e) p1) w) with (deliverable (ms e) w).
      destruct (Z.eqb_spec w v) as [->|]; cbn [negb andb].
      * rewrite Ed, Ep. zcases; done || lia.
      * f_equal. f_equal. f_equal. zcases; done || lia.
  - rewrite sret_bind. destruct (IH (v + 1) e) as (p & -> & ? & Hp); try done; try lia.
    exists p. split_and!; try done. intros w ?. rewrite Hp by done.
    destruct (decide (w = v)) as [->|]; [by rewrite Ep|]. do 3 f_equal. zcases; done || lia.
Qed.

(** *** Writes to the control register of the capability *)

(** Bits 15 and 14 of the message control register. *)
Definition ctl_enabled (m : Msix) (config : list Z) : bool := bit_of config (8 * (msix_cap_offset m + 2) + 15).
Definition ctl_masked (m : Msix) (config : list Z) : bool := bit_of config (8 * (msix_cap_offset m + 2) + 14).
(** The write covers the byte with these bits. *)
Definition touches_ctl (m : Msix) (offset : Z) (bytes : list Z) : bool :=
  (offset <=? msix_cap_offset m + 3) && (msix_cap_offset m + 3 <? offset + Z.of_nat (length bytes)).
Definition cap_in (m : Msix) (config : list Z) : Prop :=
  0 <= msix_cap_offset m /\ msix_cap_offset m + 4 <= Z.of_nat (length config) /\
  Z.of_nat (length config) < 2 ^ 32 /\ is_bytes config.

Lemma ctl_bit_ok m config k mask :
  cap_in m config -> 0 <= k < 16 -> mask = pending_bit k ->
  (msix_ctl ← unwrap_res (le_read_u16 config (wadd 64 (msix_cap_offset m) MSIX_CAP_CONTROL));
   Ok (0 <? Z.land msix_ctl mask)) = @Ok IrqError bool (bit_of config (8 * (msix_cap_offset m + 2) + k)).
Proof.
  intros (? & ? & ? & Hb) Hk ->. unfold le_read_u16, MSIX_CAP_CONTROL.
  rewrite wadd_small by (unfold inW; lia). rewrite le_read_ok by lia. cbn [unwrap_res mbind res_bind].
  assert (is_bytes (slice config (Z.to_nat (msix_cap_offset m + 2)) 2)) as Hs
    by (by apply Forall_take, Forall_drop).
  rewrite land_pos_testbit by (lia || by apply le_val_bound). rewrite Z.mod_small by lia.
  rewrite slice_testbit by (done || lia).
  by destruct (Z.ltb_spec k (8 * Z.of_nat 2)); [|lia].
Qed.

Definition ctl_changed (m : Msix) (config : list Z) : bool :=
  negb (Bool.eqb (func_masked m) (ctl_masked m config) && Bool.eqb (enabled m) (ctl_enabled m config)).

Lemma write_config_ok n config dev offset bytes (e : Env) :
  msix_wf n (ms e) -> n <= 64 -> is_Some (vm_fd (fds e)) -> cap_in (ms e) config ->
  0 <= offset -> offset + Z.of_nat (length bytes) < 2 ^ 64 ->
  let m1 := with_control (ms e) (ctl_masked (ms e) config) (ctl_enabled (ms e) config) in
  if touches_ctl (ms e) offset bytes then
    if ctl_changed (ms e) config && (ctl_enabled (ms e) config && negb (ctl_masked (ms e) config)) then
      exists p, write_config config dev offset bytes e =
          (mkMsixEnv (with_pba m1 p) (raise (due_msgs m1 dev (due (Z.to_nat n) 0 m1)) (fds e)), Ok tt) /\
        msix_wf n (with_pba m1 p) /\
        forall w, 0 <= w < 64 -> bit_of p w =
          bit_of (pba m1) w && negb ((w <? n) && deliverable m1 w)
    else write_config config dev offset bytes e = (mkMsixEnv m1 (fds e), Ok tt)
  else write_config config dev offset bytes e = (e, Ok tt).
Proof.
  intros Hwf Hn Hvm Hcap Ho Hob m1. pose proof Hcap as (? & ? & ? & Hb).
  unfold write_config. rewrite (query_step _ (ms e)) by done.
  unfold MSIX_CAP_CONTROL. rewrite (wadd_small 64 (msix_cap_offset (ms e)) 2) by (unfold inW; lia).
  rewrite (wadd_small 64 _ 1) by (unfold inW; lia). unfold ranges_overlap, checked_add.
  destruct (Z.ltb_spec (offset + Z.of_nat (length bytes)) (2 ^ 64)); [|lia].
  destruct (Z.ltb_spec (msix_cap_offset (ms e) + 2 + 1 + 1) (2 ^ 64)); [|lia].
  cbn [ok_or mbind res_bind unwrap_res]. rewrite slift_Ok_bind. rewrite negb_involutive.
  assert (touches_ctl (ms e) offset bytes = negb
    ((msix_cap_offset (ms e) + 2 + 1 + 1 <=? offset) ||
     (offset + Z.of_nat (length bytes) <=? msix_cap_offset (ms e) + 2 + 1))) as ->
    by (unfold touches_ctl; zcases; done || lia).
  destruct (_ || _); cbn [negb]; [done|].
  unfold is_msix_func_masked, is_msix_enabled.
  rewrite (ctl_bit_ok _ _ 14 MSIX_CAP_FUNC_MASK), (ctl_bit_ok _ _ 15 MSIX_CAP_ENABLE) by (done || lia).
  rewrite !slift_Ok_bind. fold (ctl_masked (ms e) config) (ctl_enabled (ms e) config).
  fold (ctl_changed (ms e) config). fold m1.
  erewrite sres_step by (by apply update_eq). fold m1.
  destruct (ctl_changed _ _ && _) eqn:E; [|done].
  rewrite (wf_max_vectors n) by done.
  destruct (deliver_loop_ok n dev (Z.to_nat n) 0 (mkMsixEnv m1 (fds e))) as (p & -> & ? & Hp);
    [exact Hwf|done|done|lia|pose proof Hwf as ([? ?] & _); lia|].
  exists p. split_and!; [done|done|]. intros w ?. rewrite Hp by done. cbn [ms].
  destruct Hwf as ([? ?] & _). f_equal. f_equal. f_equal. zcases; done || lia.
Qed.

(** *** Writes to the table *)

(** The messages handed to KVM so far. *)
Definition fd_msgs `{!MsiLog K} (f : KVMFds K) : list kvm_msi := default [] (sent <$> vm_fd f).
Abbreviation msgs e := (fd_msgs (fds e)).
Lemma raise_msgs `{!MsiLog K} l f : is_Some (vm_fd f) -> fd_msgs (raise l f) = fd_msgs f ++ l.
Proof.
  intros [k Hk]. unfold fd_msgs, raise. rewrite Hk. simpl. change (sent (foldl (fun k x => (signal_msi k x).1) k l) = sent k ++ l).
  clear Hk. revert k. induction l as [|x l IH]; intros k; simpl; [by rewrite app_nil_r|]. rewrite IH, sent_signal. by rewrite <-app_assoc.
Qed.

Context `{!MsiLog K}.

(** Equal but for the irqfd routes; no message is sent. *)
Definition same_core (m m' : Msix) : Prop := m' = with_routes m (gsi_msi_routes m').
Definition core_rel (e e' : Env) : Prop :=
  same_core (ms e) (ms e') /\ (is_Some (vm_fd (fds e)) -> is_Some (vm_fd (fds e'))) /\ msgs e' = msgs e.

#[local] Instance core_rel_refl : Reflexive core_rel.
Proof. intros e. split; [|done]. unfold same_core. by destruct (ms e). Qed.
#[local] Instance core_rel_trans : Transitive core_rel.
Proof.
  intros e1 e2 e3 (H1 & V1 & M1) (H2 & V2 & M2). split; [|split; [auto|congruence]]. unfold same_core in *. rewrite H2, H1 at 1. done.
Qed.

Lemma core_query {A} (f : Msix -> res IrqError A) : srel core_rel (query f).
Proof. intros e. simpl. reflexivity. Qed.
Lemma core_on_vm (f : K -> K * bool) : (forall k, sent (f k).1 = sent k) -> srel core_rel (on_fds (on_vm f)).
Proof.
  intros Hf e. unfold core_rel, fd_msgs, same_core, on_fds, on_vm. destruct (vm_fd (fds e)) as [k|] eqn:E.
  - specialize (Hf k). destruct (f k) as [k' ok]. simpl in *. split; [by destruct (ms e)|]. split; [by eexists|]. by rewrite Hf.
  - simpl. rewrite E. split; [by destruct (ms e)|done].
Qed.
Lemma core_on_table {A} (t : TM A) : srel core_rel (on_fds (on_table t)).
Proof.
  intros e. unfold on_fds, on_table. destruct (t (irq_route_table (fds e))) as [t' r].
  split; [|done]. unfold same_core. by destruct (ms e).
Qed.
Lemma core_commit : srel core_rel (on_fds commit_irq_routing).
Proof.
  intros e. unfold commit_irq_routing. change (sget ≫= ?f) with (fun s => f s s).
  apply (core_on_vm (fun k => set_gsi_routing k (irq_routes (irq_route_table (fds e))))). intros k. apply sent_routing.
Qed.
Lemma core_register fd g : srel core_rel (on_fds (register_irqfd fd g)).
Proof. apply core_on_vm. intros k. apply sent_register. Qed.
Lemma core_unregister fd g : srel core_rel (on_fds (unregister_irqfd fd g)).
Proof. apply core_on_vm. intros k. apply sent_unregister. Qed.
Lemma core_set_route v r : srel core_rel (set_route v r).
Proof. intros e. split; [|done]. unfold same_core, set_route, update. done. Qed.

Lemma update_irq_routing_core v b : srel core_rel (update_irq_routing v b).
Proof.
  unfold update_irq_routing. apply (srel_bind _); [apply core_query|intros entry].
  apply (srel_bind _); [apply core_query|intros m].
  destruct (gsi_msi_routes m !! v) as [route|]; [|apply (srel_ret _)].
  destruct b; [apply core_unregister|]. apply (srel_bind _); [|intros _; apply core_register].
  case_decide; [apply (srel_ret _)|]. apply (srel_bind _); [apply core_on_table|intros _].
  apply (srel_bind _); [apply core_commit|intros _]. apply core_set_route.
Qed.

Lemma query_inv {A} (f : Msix -> res IrqError A) (e e' : Env) a :
  query f e = (e', Ok a) -> e' = e /\ f (ms e) = Ok a.
Proof. unfold query. by intros [= <- ->]. Qed.
Lemma update_inv (f : Msix -> res IrqError Msix) (e e' : Env) u :
  update f e = (e', Ok u) -> exists m, f (ms e) = Ok m /\ e' = mkMsixEnv m (fds e).
Proof. unfold update. destruct (f (ms e)) as [m| |]; intros [= <-]. by exists m. Qed.

Lemma copy_dword_inv n m bytes off m1 :
  msix_wf n m -> 0 <= off < 2 ^ 64 -> is_bytes bytes -> copy_dword m bytes off = Ok m1 ->
  length bytes = 4%nat /\ off + 4 <= 16 * n /\
  m1 = with_table m (splice (table m) (Z.to_nat off) bytes) /\ msix_wf n m1.
Proof.
  intros (? & Ht & ? & Hb & ?) Hoff Hby. unfold copy_dword, wadd, wrap.
  destruct (decide (off + 4 < 2 ^ 64)).
  - rewrite Z.mod_small by lia. destruct (Z.ltb_spec (off + 4) off); [done|].
    destruct (Z.ltb_spec (Z.of_nat (length (table m))) (off + 4)); [done|].
    destruct (Nat.eqb_spec (length bytes) 4) as [Hl|]; [|done]. cbn [orb negb]. intros [= <-].
    split_and!; try done; try lia.
    unfold msix_wf. cbn [with_table table pba]. rewrite splice_length by lia.
    split_and!; try done; try lia. by apply splice_is_bytes.
  - assert ((off + 4) `mod` 2 ^ 64 = off + 4 - 2 ^ 64) as ->.
    { symmetry. apply (Z.mod_unique_pos _ _ 1); lia. }
    destruct (Z.ltb_spec (off + 4 - 2 ^ 64) off); [done|lia].
Qed.

(** A dword write reaches the mask bit of no other entry. *)
Lemma splice_other_mask n m bytes off w :
  msix_wf n m -> 0 <= off -> length bytes = 4%nat -> is_bytes bytes -> off + 4 <= 16 * n ->
  0 <= w < n -> w <> off / 16 ->
  vec_masked (with_table m (splice (table m) (Z.to_nat off) bytes)) w = vec_masked m w.
Proof.
  intros (_ & Ht & _ & Hb & _) ? Hl Hby ? ? Hw. unfold vec_masked. cbn [with_table table].
  pose proof (le_bytes_le_val bytes Hby) as Hv. pose proof (le_val_bound bytes Hby) as Hvb.
  rewrite Hl in Hv, Hvb. rewrite <-Hv, splice_testbit by (done || lia).
  pose proof (Z.div_mod off 16). pose proof (Z.mod_pos_bound off 16).
  destruct (Z.leb_spec (8 * off) (8 * (16 * w + 12))),
    (Z.ltb_spec (8 * (16 * w + 12)) (8 * (off + Z.of_nat 4))); cbn [andb]; done || lia.
Qed.

(** Bit 0 of the dword at offset 12 of entry [v] is its mask. *)
Lemma splice_own_mask n m bytes v :
  msix_wf n m -> 0 <= v < n -> length bytes = 4%nat -> is_bytes bytes ->
  vec_masked (with_table m (splice (table m) (Z.to_nat (16 * v + 12)) bytes)) v = bit_of bytes 0.
Proof.
  intros (_ & Ht & _ & Hb & _) ? Hl Hby. unfold vec_masked. cbn [with_table table].
  pose proof (le_bytes_le_val bytes Hby) as Hbv. pose proof (le_val_bound bytes Hby) as Hvb.
  rewrite Hl in Hbv, Hvb. rewrite <-Hbv at 1. rewrite splice_testbit by (done || lia).
  destruct (Z.leb_spec (8 * (16 * v + 12)) (8 * (16 * v + 12))); [|lia].
  destruct (Z.ltb_spec (8 * (16 * v + 12)) (8 * (16 * v + 12 + Z.of_nat 4))); [|lia].
  cbn [andb]. by rewrite Z.sub_diag.
Qed.

Lemma same_core_msix m m' : same_core m m' ->
  (forall n, msix_wf n m -> msix_wf n m') /\ table m' = table m /\ pba m' = pba m /\
  forall v, deliverable m' v = deliverable m v.
Proof. unfold same_core. intros ->. done. Qed.

Lemma is_err_false (c : sres Env IrqError unit) e e' :
  is_err c e = (e', Ok false) -> c e = (e', Ok tt).
Proof. unfold is_err. destruct (c e) as [s [[]| |]]; by intros [= <-]. Qed.

(** The routing update that follows a change of the mask. *)
Lemma mask_change_core n v (was : bool) m1 f e1 :
  msix_wf n m1 -> 0 <= v < n ->
  (if Bool.eqb (negb was) (negb (deliverable m1 v)) then mret false
   else is_err (update_irq_routing v (negb (deliverable m1 v)))) (mkMsixEnv m1 f) = (e1, Ok false) ->
  core_rel (mkMsixEnv m1 f) e1 /\
  (was = deliverable m1 v \/ gsi_msi_routes m1 !! v = None -> e1 = mkMsixEnv m1 f).
Proof.
  intros Hwf1 Hv Hroute.
  destruct (Bool.eqb_spec (negb was) (negb (deliverable m1 v))) as [Heq|Hne].
  { injection Hroute as <-. split; [reflexivity|done]. }
  apply is_err_false in Hroute. split.
  - pose proof (update_irq_routing_core v (negb (deliverable m1 v)) (mkMsixEnv m1 f)) as Hc.
    by rewrite Hroute in Hc.
  - intros [Heq|Hnone]; [congruence|]. unfold update_irq_routing in Hroute.
    erewrite query_step in Hroute by (by apply (get_message_ok n)).
    rewrite (query_step _ m1), Hnone in Hroute by done. by injection Hroute as <-.
Qed.

(** A pending vector that became deliverable. *)
Lemma clear_and_notify n v dev (e : Env) :
  msix_wf n (ms e) -> is_Some (vm_fd (fds e)) -> 0 <= v < n -> deliverable (ms e) v = true ->
  exists p, (update (fun m => clear_pending_vector m v) ≫= fun _ => notify v dev) e =
      (mkMsixEnv (with_pba (ms e) p) (raise [to_msi (message_at (ms e) v) dev] (fds e)), Ok tt) /\
    msix_wf n (with_pba (ms e) p) /\
    forall j, 0 <= j -> bit_of p j = negb (j =? pend_index v) && bit_of (pba (ms e)) j.
Proof.
  intros Hwf Hvm Hv Hd. destruct (clear_pending_ok n (ms e) v Hwf Hv) as (p & Hp & Hwfp & Hbp).
  exists p. split_and!; try done. erewrite sres_step by (by apply update_eq).
  destruct (notify_ok n (mkMsixEnv (with_pba (ms e) p) (fds e)) v dev) as
    [[? _]|[(_ & _ & Hs)|(_ & Hd' & _)]]; [done|done|lia|lia|done|].
  change (deliverable (ms e) v = false) in Hd'. congruence.
Qed.

(** A table write in bounds up to the routing update. *)
Lemma table_write_eq n dev bytes off (e : Env) :
  msix_wf n (ms e) -> 0 <= off -> length bytes = 4%nat -> off + 4 <= 16 * n ->
  let v := off / 16 in
  let m1 := with_table (ms e) (splice (table (ms e)) (Z.to_nat off) bytes) in
  msix_wf n m1 -> 0 <= v < n /\
  table_write dev bytes off e =
    (failed ← (if Bool.eqb (negb (deliverable (ms e) v)) (negb (deliverable m1 v)) then mret false
               else is_err (update_irq_routing v (negb (deliverable m1 v))));
     if (failed : bool) then mret false
     else
       pending ← (if negb (deliverable (ms e) v) && deliverable m1 v
                  then query (fun m => is_vector_pending m v) else mret false);
       _ ← (if (pending : bool) then
              _ ← update (fun m => clear_pending_vector m v); notify v dev
            else mret tt);
       mret true) (mkMsixEnv m1 (fds e)).
Proof.
  intros Hwf Hoff Hl Hfit v m1 Hwf1. pose proof Hwf as ([Hn1 Hn2] & Ht & _).
  unfold MSIX_TABLE_SIZE_MAX in Hn2.
  assert (0 <= v < n) as Hv.
  { subst v. split; [apply Z.div_pos; lia|apply Z.div_lt_upper_bound; lia]. }
  split; [done|]. unfold table_write. rewrite (query_step _ (ms e)) by done.
  rewrite Hl, wadd_small by (unfold inW; lia).
  destruct (Z.ltb_spec (Z.of_nat (length (table (ms e)))) (off + Z.of_nat 4)); [lia|].
  cbv zeta. rewrite (wrap_small 16 off) by (unfold inW; lia).
  change (off / MSIX_TABLE_ENTRY_SIZE) with v.
  erewrite query_step by (by apply (is_vector_masked_ok n)).
  erewrite sres_step.
  2:{ apply update_eq. unfold copy_dword. rewrite wadd_small by (unfold inW; lia).
      destruct (Z.ltb_spec (off + 4) off); [lia|].
      destruct (Z.ltb_spec (Z.of_nat (length (table (ms e)))) (off + 4)); [lia|].
      rewrite Hl. done. }
  fold m1. erewrite query_step by (by apply (is_vector_masked_ok n)).
  by rewrite negb_involutive.
Qed.

(** A table write that is accepted: the dword is stored, and if it unmasks a
    pending vector the message is sent and the bit cleared. *)
Lemma table_write_true n dev bytes off (e e' : Env) :
  msix_wf n (ms e) -> is_Some (vm_fd (fds e)) -> 0 <= off < 2 ^ 64 -> is_bytes bytes ->
  table_write dev bytes off e = (e', Ok true) ->
  let v := off / 16 in
  let m1 := with_table (ms e) (splice (table (ms e)) (Z.to_nat off) bytes) in
  length bytes = 4%nat /\ off + 4 <= 16 * n /\ 0 <= v < n /\ msix_wf n m1 /\
  exists e1, core_rel (mkMsixEnv m1 (fds e)) e1 /\
    (deliverable (ms e) v = deliverable m1 v \/ gsi_msi_routes (ms e) !! v = None ->
     e1 = mkMsixEnv m1 (fds e)) /\
    if negb (deliverable (ms e) v) && deliverable m1 v && pending (ms e) v then
      exists p,
        e' = mkMsixEnv (with_pba (ms e1) p) (raise [to_msi (message_at m1 v) dev] (fds e1)) /\
        msix_wf n (with_pba (ms e1) p) /\
        forall j, 0 <= j -> bit_of p j = negb (j =? pend_index v) && bit_of (pba (ms e)) j
    else e' = e1.
Proof.
  intros Hwf Hvm Hoff Hby Hw v m1.
  assert (length bytes = 4%nat /\ off + 4 <= 16 * n /\ msix_wf n m1) as (Hl & Hfit & Hwf1).
  { unfold table_write in Hw. rewrite (query_step _ (ms e)) in Hw by done.
    destruct (_ <? _); [done|]. cbv zeta in Hw.
    apply sres_bind_Ok in Hw as (was & e0 & [-> Hwas]%query_inv & Hw).
    apply sres_bind_Ok in Hw as (u & e0 & (m0 & Hcopy & ->)%update_inv & Hw).
    by destruct (copy_dword_inv n _ _ _ _ Hwf Hoff Hby Hcopy) as (? & ? & -> & ?). }
  destruct (table_write_eq n dev bytes off e) as [Hv Heq]; try done; try lia. fold v m1 in Hv, Heq.
  split_and!; try done; try lia. rewrite Heq in Hw.
  apply sres_bind_Ok in Hw as (failed & e1 & Hroute & Hw). destruct failed; [done|].
  destruct (mask_change_core n v _ m1 (fds e) e1 Hwf1 Hv Hroute) as [Hcore Hsame].
  exists e1. split_and!; try done. destruct Hcore as (Hcore & Hvm1 & _). specialize (Hvm1 Hvm).
  destruct (same_core_msix _ _ Hcore) as (Hwfc & Htc & Hpc & Hdc). cbn [ms] in *.
  destruct (negb (deliverable (ms e) v) && deliverable m1 v) eqn:Enew; cbn [andb].
  2:{ rewrite !sret_bind in Hw. by injection Hw as <-. }
  assert (pending (ms e1) v = pending (ms e) v) as Hpend by (unfold pending; by rewrite Hpc).
  erewrite query_step in Hw by (apply (is_vector_pending_ok n); auto). rewrite Hpend in Hw.
  destruct (pending (ms e) v) eqn:Ep; [|rewrite sret_bind in Hw; by injection Hw as <-].
  apply andb_true_iff in Enew as [_ Enew]. rewrite <-Hdc in Enew.
  destruct (clear_and_notify n v dev e1) as (p & Hs & ? & Hbp); [auto|done|done|done|].
  apply sres_bind_Ok in Hw as (u2 & e2 & Hsend & Hw). injection Hw as <-.
  rewrite Hs in Hsend. injection Hsend as <- _.
  exists p. split_and!; [|done|intros j ?; rewrite Hbp by done; by rewrite Hpc].
  f_equal. unfold message_at, dword_at. by rewrite Htc.
Qed.

(** *** Every operation *)

Lemma clear_pending_loop_ok n k : forall v m,
  msix_wf n m -> 0 <= v -> v + Z.of_nat k <= n ->
  exists p, clear_pending_loop k v m = Ok (with_pba m p) /\ msix_wf n (with_pba m p) /\
    (forall j, 0 <= j -> bit_of p j = true -> bit_of (pba m) j = true) /\
    forall w, v <= w < v + Z.of_nat k -> bit_of p (pend_index w) = false.
Proof.
  induction k as [|k IH]; intros v m Hwf Hv Hk; cbn [clear_pending_loop].
  { exists (pba m). split_and!; [by destruct m|by destruct m|done|lia]. }
  destruct (clear_pending_ok n m v Hwf) as (p1 & -> & Hwf1 & Hb1); [lia|]. cbn [mbind res_bind].
  destruct (IH (v + 1) _ Hwf1) as (p & -> & ? & Hb & Hc); [lia|lia|].
  exists p. split_and!; try done.
  - intros j ? Hj. specialize (Hb j ltac:(done) Hj).
    cbn [with_pba pba] in Hb. rewrite Hb1 in Hb by done. by apply andb_true_iff in Hb as [_ ?].
  - intros w Hw. destruct (decide (w = v)) as [->|]; [|apply Hc; lia].
    assert (0 <= pend_index v) by (unfold pend_index; pose proof (Z.div_pos v 64); pose proof (Z.mod_pos_bound v 64); lia).
    destruct (bit_of p (pend_index v)) eqn:E; [|done]. apply Hb in E; [|done]. cbn [with_pba pba] in E.
    by rewrite Hb1, Z.eqb_refl in E by done.
Qed.

Lemma register_core v fd : srel core_rel (msix_register_irqfd v fd).
Proof.
  unfold msix_register_irqfd. apply (srel_bind _); [apply core_query|intros entry].
  apply (srel_bind _); [apply core_on_table|intros g].
  apply (srel_bind _); [apply core_on_table|intros _].
  apply (srel_bind _); [apply core_commit|intros _].
  apply (srel_bind _); [apply core_register|intros _]. apply core_set_route.
Qed.

Lemma unregister_core order : srel core_rel (msix_unregister_irqfd order).
Proof.
  unfold msix_unregister_irqfd. apply (srel_bind _); [apply core_query|intros m].
  apply (srel_bind _).
  - induction (order (gsi_msi_routes m)) as [|r l IH]; cbn [unregister_loop]; [apply (srel_ret _)|].
    apply (srel_bind _); [apply core_unregister|intros _].
    apply (srel_bind _); [apply core_on_table|intros _]. done.
  - intros _ e. split; [|done]. unfold same_core, update. done.
Qed.

(** One call on the device: an interrupt, a table write that is accepted, a
    write to the capability, the attachment and detachment of irqfds, a reset
    and the clearing of the pending bits. *)
Inductive msix_event :=
| Interrupt (v dev : Z)
| Access (dev : Z)
| Routing
| Discard.

Inductive msix_step : msix_event -> relation Env :=
| step_notify e v dev e' :
    0 <= v -> notify v dev e = (e', Ok tt) -> msix_step (Interrupt v dev) e e'
| step_table_write e dev bytes off e' :
    0 <= off < 2 ^ 64 -> is_bytes bytes -> table_write dev bytes off e = (e', Ok true) ->
    msix_step (Access dev) e e'
| step_write_config e config dev off bytes e' :
    cap_in (ms e) config -> 0 <= off -> off + Z.of_nat (length bytes) < 2 ^ 64 ->
    write_config config dev off bytes e = (e', Ok tt) -> msix_step (Access dev) e e'
| step_register e v fd e' r : msix_register_irqfd v fd e = (e', r) -> msix_step Routing e e'
| step_unregister e order e' r : msix_unregister_irqfd order e = (e', r) -> msix_step Routing e e'
| step_reset e m : reset (ms e) = Ok m -> msix_step Discard e (mkMsixEnv m (fds e))
| step_clear e m : clear_pending_vectors (ms e) = Ok m -> msix_step Discard e (mkMsixEnv m (fds e)).

(** An interrupt of vector [v] is to be accounted for at the end of the step:
    it was raised by the step or was pending before it, and not discarded. *)
Definition owed (ev : msix_event) (m : Msix) (v : Z) : bool :=
  match ev with
  | Interrupt w _ => (w =? v) || pending m v
  | Access _ | Routing => pending m v
  | Discard => false
  end.
Definition ev_dev (ev : msix_event) : Z :=
  match ev with Interrupt _ dev | Access dev => dev | _ => 0 end.

(** Of the interrupts to be accounted for, those of deliverable vectors are
    sent, each once, with the message of their entry, and no others; the rest
    are pending, and no others. *)
Definition account (n : Z) (ev : msix_event) (e e' : Env) : Prop :=
  exists l, StronglySorted Z.lt l /\
    (forall v, v ∈ l <-> 0 <= v < n /\ owed ev (ms e) v = true /\ deliverable (ms e') v = true) /\
    msgs e' = msgs e ++ ((fun v => to_msi (message_at (ms e') v) (ev_dev ev)) <$> l) /\
    forall v, 0 <= v < n -> pending (ms e') v = owed ev (ms e) v && negb (deliverable (ms e') v).

(** No vector is both deliverable and pending. *)
Definition msix_inv (n : Z) (e : Env) : Prop :=
  msix_wf n (ms e) /\ is_Some (vm_fd (fds e)) /\
  forall v, 0 <= v < n -> deliverable (ms e) v = true -> pending (ms e) v = false.
Definition step_ok (n : Z) (ev : msix_event) (e e' : Env) : Prop :=
  msix_wf n (ms e') /\ is_Some (vm_fd (fds e')) /\ account n ev e e'.

Lemma step_ok_inv n ev e e' : step_ok n ev e e' -> msix_inv n e'.
Proof.
  intros (? & ? & l & _ & _ & _ & Hp). split_and!; try done. intros v Hv Hd. rewrite Hp, Hd by done. apply andb_false_r.
Qed.

Lemma account_nil n ev e e' : msgs e' = msgs e ->
  (forall v, 0 <= v < n -> pending (ms e') v = owed ev (ms e) v /\ (owed ev (ms e) v = true -> deliverable (ms e') v = false)) ->
  account n ev e e'.
Proof.
  intros Hm Hv. exists []. split_and!; [constructor| |by rewrite app_nil_r|].
  - intros v. split; [by intros ?%elem_of_nil|]. intros (Hr & Ho & Hd). destruct (Hv v Hr) as [_ H]. by rewrite H in Hd.
  - intros v Hr. destruct (Hv v Hr) as [-> H]. destruct (owed ev (ms e) v); [by rewrite H|done].
Qed.
Lemma account_one n ev e e' v : 0 <= v < n -> msgs e' = msgs e ++ [to_msi (message_at (ms e') v) (ev_dev ev)] ->
  owed ev (ms e) v = true -> deliverable (ms e') v = true -> pending (ms e') v = false ->
  (forall w, 0 <= w < n -> w <> v -> pending (ms e') w = owed ev (ms e) w /\ (owed ev (ms e) w = true -> deliverable (ms e') w = false)) ->
  account n ev e e'.
Proof.
  intros Hv Hm Ho Hd Hp Hw. exists [v]. split_and!; [repeat constructor| |done|].
  - intros w. rewrite list_elem_of_singleton. split; [by intros ->|]. intros (Hr & Ho' & Hd').
    destruct (decide (w = v)) as [|Hne]; [done|]. destruct (Hw w Hr Hne) as [_ H]. by rewrite H in Hd'.
  - intros w Hr. destruct (decide (w = v)) as [->|Hne]; [by rewrite Hp, Ho, Hd|].
    destruct (Hw w Hr Hne) as [-> H]. destruct (owed ev (ms e) w); [by rewrite H|done].
Qed.

Lemma step_ok_core n e e' : core_rel e e' -> msix_inv n e -> step_ok n Routing e e'.
Proof.
  intros (Hc & Hvm & Hm) (Hwf & ? & Hv). destruct (same_core_msix _ _ Hc) as (Hw & _ & Hp & Hd).
  split_and!; auto. apply account_nil; [done|]. intros v Hr. cbn [owed]. unfold pending at 1. rewrite Hp, Hd.
  split; [done|]. intros Hpd. destruct (deliverable (ms e) v) eqn:E; [|done]. by rewrite Hv in Hpd.
Qed.

Lemma msix_inv_fresh n m f :
  msix_wf n m -> is_Some (vm_fd f) -> table m = replicate (length (table m)) 0 ->
  pba m = replicate (length (pba m)) 0 ->
  exists m', mask_all_vectors m = Ok m' /\ msix_inv n (mkMsixEnv m' f) /\ forall v, 0 <= v -> pending m' v = false.
Proof.
  intros Hwf Hvm Ht Hp. destruct (fresh_ok n m Hwf Ht Hp) as (t & -> & ? & Hm & Hz).
  assert (forall v, 0 <= v -> pending (with_table m t) v = false) as Hnone.
  { intros v ?. apply Hz. unfold pend_index. pose proof (Z.div_pos v 64). pose proof (Z.mod_pos_bound v 64). lia. }
  eexists. split; [done|]. split; [|done]. split_and!; try done. cbn [ms]. intros v Hv _. apply Hnone. lia.
Qed.

Lemma step_ok_notify n e v dev e' :
  n <= 64 -> msix_inv n e -> 0 <= v -> notify v dev e = (e', Ok tt) -> step_ok n (Interrupt v dev) e e'.
Proof.
  intros Hn (Hwf & Hvm & Hinv) Hv Hnot.
  assert (forall w, 0 <= w < n -> pending (ms e) w = true -> deliverable (ms e) w = false) as Hpd.
  { intros w Hw Hp. destruct (deliverable (ms e) w) eqn:E; [|done]. by rewrite Hinv in Hp. }
  destruct (notify_ok n e v dev Hwf Hvm Hv) as [[? He]|[(Hlt & Hd & He)|(Hlt & Hd & p & He & Hwf' & Hb)]];
    rewrite He in Hnot; injection Hnot as <-.
  - split_and!; try done. apply account_nil; [done|]. intros w Hw. cbn [owed]. destruct (Z.eqb_spec v w); [lia|]. auto.
  - split_and!; [done|by apply raise_vm|]. apply (account_one _ _ _ _ v); cbn [ms fds ev_dev owed]; auto.
    + by apply raise_msgs.
    + by rewrite Z.eqb_refl.
    + intros w Hw ?. destruct (Z.eqb_spec v w); [lia|]. auto.
  - split_and!; [done|done|]. apply account_nil; [done|]. cbn [ms owed]. intros w Hw.
    change (deliverable (with_pba (ms e) p) w) with (deliverable (ms e) w). unfold pending at 1. cbn [with_pba pba].
    rewrite pend_index_small, Hb, pend_index_small by lia. unfold pending. rewrite pend_index_small by lia.
    rewrite (Z.eqb_sym w v). destruct (Z.eqb_spec v w) as [->|]; [done|]. cbn [orb]. split; [done|].
    intros Hp. apply Hpd; [done|]. unfold pending. by rewrite pend_index_small by lia.
Qed.

Lemma step_ok_table_write n e dev bytes off e' :
  n <= 64 -> msix_inv n e -> 0 <= off < 2 ^ 64 -> is_bytes bytes ->
  table_write dev bytes off e = (e', Ok true) -> step_ok n (Access dev) e e'.
Proof.
  intros Hn (Hwf & Hvm & Hinv) Hoff Hby Hw.
  destruct (table_write_true n dev bytes off e e' Hwf Hvm Hoff Hby Hw)
    as (Hl & Hfit & Hv & Hwf1 & e1 & (Hc & Hvm1 & Hm1) & _ & Hres).
  set (v := off / 16) in *. set (m1 := with_table _ _) in *.
  destruct (same_core_msix _ _ Hc) as (Hwfc & Htc & Hpc & Hdc). cbn [ms fds] in *.
  assert (forall w, 0 <= w < n -> w <> v -> pending (ms e) w = true -> deliverable (ms e1) w = false) as Hother.
  { intros w Hw' Hne Hp. rewrite Hdc. destruct (deliverable m1 w) eqn:E; [|done]. rewrite Hinv in Hp; [done|done|].
    rewrite <-E. unfold deliverable. f_equal. f_equal. symmetry. apply (splice_other_mask n); done || lia. }
  destruct (negb (deliverable (ms e) v) && deliverable m1 v && pending (ms e) v) eqn:E.
  - destruct Hres as (p & -> & Hwfp & Hb). apply andb_true_iff in E as [[_ Hd]%andb_true_iff Hp].
    split_and!; [done|apply raise_vm; by apply Hvm1|].
    assert (forall w, 0 <= w < n -> pending (with_pba (ms e1) p) w = negb (w =? v) && pending (ms e) w) as Hpw.
    { intros w Hr. unfold pending. rewrite !pend_index_small by lia. cbn [with_pba pba]. rewrite Hb, pend_index_small by lia. done. }
    apply (account_one _ _ _ _ v); cbn [ms fds ev_dev owed]; auto.
    + rewrite raise_msgs, Hm1 by auto. assert (message_at (with_pba (ms e1) p) v = message_at m1 v) as ->; [|done].
      unfold message_at, dword_at. cbn [with_pba table]. by rewrite Htc.
    + change (deliverable (ms e1) v = true). by rewrite Hdc.
    + by rewrite Hpw, Z.eqb_refl.
    + intros w Hr Hne. change (deliverable (with_pba (ms e1) p) w) with (deliverable (ms e1) w).
      rewrite Hpw by done. destruct (Z.eqb_spec w v); [done|]. auto.
  - subst e'. split_and!; [by apply Hwfc|by apply Hvm1|]. apply account_nil; [done|]. intros w Hr. cbn [owed].
    unfold pending at 1. rewrite Hpc. split; [done|]. intros Hp. destruct (decide (w = v)) as [->|]; [|by apply Hother].
    rewrite Hdc. destruct (deliverable m1 v) eqn:Ed; [|done]. rewrite Hp, !andb_true_r in E. apply negb_false_iff in E. by rewrite Hinv in Hp.
Qed.

Lemma step_ok_write_config n e config dev off bytes e' :
  n <= 64 -> msix_inv n e -> cap_in (ms e) config -> 0 <= off ->
  off + Z.of_nat (length bytes) < 2 ^ 64 ->
  write_config config dev off bytes e = (e', Ok tt) -> step_ok n (Access dev) e e'.
Proof.
  intros Hn Hinv0 Hcap Hoff Hob Hw. pose proof Hinv0 as (Hwf & Hvm & Hinv).
  pose proof (write_config_ok n config dev off bytes e Hwf Hn Hvm Hcap Hoff Hob) as H. cbv zeta in H.
  set (m1 := with_control _ _ _) in *.
  assert (forall w, 0 <= w < n -> pending (ms e) w = true -> deliverable (ms e) w = false) as Hpd.
  { intros w Hw' Hp. destruct (deliverable (ms e) w) eqn:E; [|done]. by rewrite Hinv in Hp. }
  destruct (touches_ctl _ _ _); [|rewrite H in Hw; injection Hw as <-; split_and!; try done; apply account_nil; auto].
  destruct (ctl_changed _ _ && _) eqn:E.
  - destruct H as (p & Hw' & Hwfp & Hb). rewrite Hw' in Hw. injection Hw as <-.
    split_and!; [done|by apply raise_vm|]. pose proof Hwf as ([? ?] & _).
    exists (due (Z.to_nat n) 0 m1). cbn [ms fds owed ev_dev]. split_and!.
    + apply due_sorted.
    + intros v. rewrite due_spec, Z.add_0_l, Z2Nat.id by lia. change (pending m1 v) with (pending (ms e) v).
      change (deliverable (with_pba m1 p) v) with (deliverable m1 v). tauto.
    + by rewrite raise_msgs.
    + intros v Hv. change (deliverable (with_pba m1 p) v) with (deliverable m1 v). unfold pending.
      rewrite pend_index_small by lia. cbn [with_pba pba]. rewrite Hb by lia. by destruct (Z.ltb_spec v n); [|lia].
  - rewrite H in Hw. injection Hw as <-. split_and!; [done|done|]. apply account_nil; [done|]. intros w Hw'. cbn [ms owed]. split; [done|].
    intros Hp%Hpd; [|done]. unfold deliverable, ctl_changed in *. cbn [m1 with_control enabled func_masked].
    change (vec_masked m1 w) with (vec_masked (ms e) w).
    destruct (ctl_enabled (ms e) config), (ctl_masked (ms e) config), (enabled (ms e)), (func_masked (ms e)); done.
Qed.

Lemma step_ok_reset n e m : msix_inv n e -> reset (ms e) = Ok m -> step_ok n Discard e (mkMsixEnv m (fds e)).
Proof.
  intros (Hwf & Hvm & _) H. pose proof Hwf as (? & ? & ? & ? & ?). unfold reset in H.
  destruct (msix_inv_fresh n (mkMsix (replicate (length (table (ms e))) 0)
    (replicate (length (pba (ms e))) 0) true true (msix_cap_offset (ms e)) (dev_id (ms e))
    (gsi_msi_routes (ms e))) (fds e)) as (m' & Hm & (? & ? & _) & Hnone); try done.
  - unfold msix_wf. cbn [table pba]. rewrite !length_replicate. split_and!; done || lia || apply zeros_are_bytes.
  - cbn [table]. by rewrite length_replicate.
  - cbn [pba]. by rewrite length_replicate.
  - rewrite Hm in H. injection H as <-. split_and!; try done. apply account_nil; [done|]. intros v Hv. split; [|done]. apply Hnone. lia.
Qed.

Lemma step_ok_step n ev e e' : n <= 64 -> msix_inv n e -> msix_step ev e e' -> step_ok n ev e e'.
Proof.
  intros Hn Hinv Hstep. destruct Hstep as [e v dev e' ? H|e dev bytes off e' ? ? H
    |e config dev off bytes e' ? ? ? H|e v fd e' r H|e order e' r H|e m H|e m H].
  - by apply step_ok_notify.
  - by eapply step_ok_table_write.
  - by eapply step_ok_write_config.
  - pose proof (register_core v fd e) as Hc. rewrite H in Hc. by apply step_ok_core.
  - pose proof (unregister_core order e) as Hc. rewrite H in Hc. by apply step_ok_core.
  - by apply step_ok_reset.
  - destruct Hinv as (Hwf & Hvm & Hv). unfold clear_pending_vectors in H. rewrite (wf_max_vectors n) in H by done.
    pose proof Hwf as ([? ?] & _).
    destruct (clear_pending_loop_ok n (Z.to_nat n) 0 (ms e) Hwf) as (p & Hp & ? & _ & Hb); [lia|lia|].
    rewrite Hp in H. injection H as <-. split_and!; [done|done|]. apply account_nil; [done|]. intros w Hw. split; [|done]. apply Hb. lia.
Qed.

(** A sequence of calls with its events. *)
Inductive msix_run : Env -> list msix_event -> Env -> Prop :=
| run_nil e : msix_run e [] e
| run_snoc e evs e1 ev e2 : msix_run e evs e1 -> msix_step ev e1 e2 -> msix_run e (evs ++ [ev]) e2.

Lemma msix_new_inv n cap dev (f : KVMFds K) m :
  1 <= n <= 64 -> is_Some (vm_fd f) -> Msix_new (16 * n) (pba_len n) cap dev = Ok m -> msix_inv n (mkMsixEnv m f).
Proof.
  intros Hn Hvm Hnew. unfold Msix_new in Hnew. set (m0 := mkMsix _ _ _ _ _ _ _) in Hnew.
  assert (0 <= pba_len n) by (unfold pba_len; pose proof (Z.div_pos (n + 63) 64); lia).
  destruct (msix_inv_fresh n m0 f) as (m' & Hm & ? & _); try done.
  - unfold msix_wf, MSIX_TABLE_SIZE_MAX. subst m0. cbn [table pba]. rewrite !length_replicate.
    split_and!; try lia; apply zeros_are_bytes.
  - subst m0. cbn [table]. by rewrite length_replicate.
  - subst m0. cbn [pba]. by rewrite length_replicate.
  - rewrite Hm in Hnew. by injection Hnew as <-.
Qed.
Lemma msix_run_inv n e evs e' : n <= 64 -> msix_inv n e -> msix_run e evs e' -> msix_inv n e'.
Proof. intros Hn Hi. induction 1 as [|e evs e1 ev e2 Hr IH Hs]; [done|]. apply (step_ok_inv n ev e1), step_ok_step; auto. Qed.
End delivery.

(** ** Properties *)

(** C17: No interrupt is lost.  A device of up to 64 vectors starts with its
    vectors masked.  After any sequence of interrupts, table writes that are
    accepted, capability writes, resets, clearings of the pending bits and
    irqfd registrations and removals, each further call accounts for exactly
    the interrupts it raises or finds pending: for every vector that is
    deliverable after the call, one message with the content of its table entry
    is handed to KVM, in increasing order of the vectors, and no other message;
    exactly the other vectors are pending after the call.  A reset and a
    clearing send nothing and leave nothing pending.  (A table write is refused
    when KVM refuses the route of its vector, see [refused_unmask].) *)
Theorem msix_no_lost_interrupt {K} `{!IrqKernel K} `{!MsiLog K} n cap dev (f : KVMFds K) m evs e ev e' :
  1 <= n <= 64 -> is_Some (vm_fd f) -> Msix_new (16 * n) (pba_len n) cap dev = Ok m ->
  msix_run (mkMsixEnv m f) evs e -> msix_step ev e e' -> account n ev e e'.
Proof.
  intros Hn Hvm Hnew Hrun Hstep. pose proof (msix_new_inv n cap dev f m Hn Hvm Hnew) as Hi.
  apply msix_run_inv with (n := n) in Hrun; [|lia|done]. by apply (step_ok_step n) in Hstep as (_ & _ & ?); [|lia|].
Qed.

(** A kernel that accepts every ioctl and keeps a log of the messages. *)
Record LogKernel := mkLog {
  lk_routes : list IrqRouteEntry; lk_irqfds : gset (Z * Z); lk_msis : list kvm_msi
}.
#[export] Instance log_kernel : IrqKernel LogKernel := {|
  set_gsi_routing k l := (mkLog l (lk_irqfds k) (lk_msis k), true);
  kvm_register_irqfd k fd g := (mkLog (lk_routes k) ({[(fd, g)]} ∪ lk_irqfds k) (lk_msis k), true);
  kvm_unregister_irqfd k fd g := (mkLog (lk_routes k) (lk_irqfds k ∖ {[(fd, g)]}) (lk_msis k), true);
  kvm_set_irq_line k _ _ := (k, true);
  signal_msi k m := (mkLog (lk_routes k) (lk_irqfds k) (lk_msis k ++ [m]), true) |}.
#[export] Instance log_kernel_spec : IrqKernelSpec LogKernel.
Proof.
  refine {| k_routes := lk_routes; k_irqfds := lk_irqfds |}; intros; simplify_eq/=; done.
Defined.

Definition ex_fds : KVMFds LogKernel := mkFds (mkIrqTable [] [0xffffff]) (Some (mkLog [] ∅ [])).
Definition ex_msix : Msix :=
  with_table (mkMsix (replicate 32 0) (replicate 8 0) true true 0x40 0x18 ∅)
    (<[12%nat := 1]> (<[28%nat := 1]> (replicate 32 0))).

#[export] Instance log_kernel_log : MsiLog LogKernel.
Proof. refine {| sent := lk_msis |}; done. Defined.

(** Vector 1 of a new device is raised, the device enabled, the vector
    unmasked: the message is sent. *)
Definition ex_config : list Z := <[0x43%nat := 0x80]> (replicate 256 0).
Definition ex_e1 : MsixEnv LogKernel := Eval vm_compute in (notify 1 0x18 (mkMsixEnv ex_msix ex_fds)).1.
Definition ex_e2 : MsixEnv LogKernel := Eval vm_compute in (write_config ex_config 0x18 0x42 [1; 0x80] ex_e1).1.
Definition ex_e3 : MsixEnv LogKernel := Eval vm_compute in (table_write 0x18 [0; 0; 0; 0] 28 ex_e2).1.

Example msix_no_lost_witness :
  account 2 (Access 0x18) ex_e2 ex_e3 /\ pending (ms ex_e2) 1 = true /\ deliverable (ms ex_e3) 1 = true /\
  fd_msgs (fds ex_e2) = [] /\ fd_msgs (fds ex_e3) = [mkKvmMsi 0 0 0 0 0x18].
Proof.
  split_and!; [|vm_compute; reflexivity..].
  apply (msix_no_lost_interrupt 2 0x40 0x18 ex_fds ex_msix [Interrupt 1 0x18; Access 0x18]); [lia|by eexists|vm_compute; reflexivity| |].
  - apply (run_snoc _ [Interrupt 1 0x18] ex_e1); [apply (run_snoc _ [] (mkMsixEnv ex_msix ex_fds)); [constructor|]|].
    + apply step_notify; [lia|]. vm_compute. reflexivity.
    + apply (step_write_config _ ex_config 0x18 0x42 [1; 0x80]); [|lia|simpl; lia|vm_compute; reflexivity].
      split_and!; [vm_compute; done..|]. apply Forall_insert; [apply zeros_are_bytes|done].
  - apply (step_table_write _ 0x18 [0; 0; 0; 0] 28); [lia|repeat constructor; vm_compute; done|vm_compute; reflexivity].
Defined.

(** A read outside the window of a write. *)
Lemma slice_splice_out {A} (l d : list A) off n i :
  (off + length d <= length l)%nat -> (i + n <= off \/ off + length d <= i)%nat ->
  slice (splice l off d) i n = slice l i n.
Proof.
  intros Hl Hi. unfold slice. apply list_eq. intros k. rewrite !lookup_take. case_decide; [|done].
  rewrite !lookup_drop, lookup_splice by done. by rewrite decide_False by lia.
Qed.

(** The routing update panics only without a VM. *)
Section total.
Context {K : Type} `{!IrqKernel K}.

Definition vm_total {A} (m : sres (MsixEnv K) IrqError A) : Prop :=
  forall e, is_Some (vm_fd (fds e)) -> (m e).2 <> Panic /\ is_Some (vm_fd (fds (m e).1)).
Lemma vm_total_bind {A B} (m : sres (MsixEnv K) IrqError A) (f : A -> sres (MsixEnv K) IrqError B) :
  vm_total m -> (forall a, vm_total (f a)) -> vm_total (x ← m; f x).
Proof.
  intros Hm Hf e He. destruct (Hm e He) as [Hp He1]. unfold mbind, sres_bind.
  destruct (m e) as [e1 [a|x|]]; [by apply Hf|done|done].
Qed.
Lemma vm_total_on_vm (f : K -> K * bool) : vm_total (on_fds (on_vm f)).
Proof. intros e [k Hk]. unfold on_fds, on_vm. rewrite Hk. destruct (f k) as [k' []]; (split; [done|by eexists]). Qed.
Lemma vm_total_commit : vm_total (on_fds commit_irq_routing).
Proof.
  intros e. unfold commit_irq_routing. change (sget ≫= ?f) with (fun s => f s s).
  apply (vm_total_on_vm (fun k => set_gsi_routing k (irq_routes (irq_route_table (fds e))))).
Qed.
Lemma update_irq_routing_total n v b (e : MsixEnv K) :
  msix_wf n (ms e) -> 0 <= v < n -> is_Some (vm_fd (fds e)) -> (update_irq_routing v b e).2 <> Panic.
Proof.
  intros Hwf Hv Hvm. unfold update_irq_routing. erewrite query_step by (by apply (get_message_ok n)).
  rewrite (query_step _ (ms e)) by done. destruct (gsi_msi_routes (ms e) !! v) as [route|]; [|done].
  destruct b; [by apply vm_total_on_vm|]. eapply proj1. apply vm_total_bind; [|intros _; apply vm_total_on_vm|done].
  case_decide; [by intros e1|]. apply vm_total_bind; [by intros e1|intros _].
  apply vm_total_bind; [apply vm_total_commit|intros _]. by intros e1.
Qed.
End total.

(** C39: Unmasking delivers.  The guest clears the mask bit of a pending vector
    of an enabled device.  The new entry is stored and, if the vector has an
    irqfd, its route is brought up to date first; nothing else of the device
    changes by that.  Unless KVM refuses the route, the write is accepted, the
    message of the entry is handed to KVM exactly once, and its pending bit is
    cleared while the others stay.  If KVM refuses, so is the write, and the
    interrupt stays pending.  A vector without irqfd is always accepted. *)
Theorem msix_unmask_delivers {K} `{!IrqKernel K} `{!MsiLog K} n (e : MsixEnv K) v dev bytes :
  msix_wf n (ms e) -> is_Some (vm_fd (fds e)) -> 0 <= v < n ->
  enabled (ms e) = true -> func_masked (ms e) = false -> vec_masked (ms e) v = true ->
  pending (ms e) v = true -> is_bytes bytes -> length bytes = 4%nat -> bit_of bytes 0 = false ->
  let m1 := with_table (ms e) (splice (table (ms e)) (Z.to_nat (16 * v + 12)) bytes) in
  exists e1 r, update_irq_routing v false (mkMsixEnv m1 (fds e)) = (e1, r) /\ ms e1 = with_routes m1 (gsi_msi_routes (ms e1)) /\
    (gsi_msi_routes (ms e) !! v = None -> e1 = mkMsixEnv m1 (fds e) /\ r = Ok tt) /\
    match r with
    | Ok _ => exists p,
        table_write dev bytes (16 * v + 12) e =
          (mkMsixEnv (with_pba (ms e1) p) (raise [to_msi (message_at (ms e) v) dev] (fds e1)), Ok true) /\
        fd_msgs (raise [to_msi (message_at (ms e) v) dev] (fds e1)) = fd_msgs (fds e) ++ [to_msi (message_at (ms e) v) dev] /\
        forall j, 0 <= j -> bit_of p j = negb (j =? pend_index v) && bit_of (pba (ms e)) j
    | Err _ => table_write dev bytes (16 * v + 12) e = (e1, Ok false)
    | Panic => False
    end.
Proof.
  intros Hwf Hvm Hv Hen Hfm Hvm0 Hpend Hby Hl Hbit m1. pose proof Hwf as ([Hn1 Hn2] & Ht & Hp & Hb & Hbp).
  assert (msix_wf n m1) as Hwf1.
  { unfold msix_wf, m1. cbn [with_table table pba]. rewrite splice_length by lia. split_and!; try done. by apply splice_is_bytes. }
  destruct (table_write_eq n dev bytes (16 * v + 12) e) as [_ Heq]; try done; try lia. rewrite Heq. fold m1. clear Heq.
  replace ((16 * v + 12) / 16) with v by (rewrite Z.mul_comm, Z.div_add_l by lia; change (12 / 16) with 0; lia).
  assert (deliverable (ms e) v = false /\ deliverable m1 v = true) as [-> Hd1].
  { unfold deliverable. unfold m1 at 3. rewrite (splice_own_mask n), Hbit, Hvm0 by done. unfold m1. cbn [with_table enabled func_masked]. by rewrite Hen, Hfm. }
  rewrite Hd1. cbn [negb andb Bool.eqb].
  destruct (update_irq_routing v false (mkMsixEnv m1 (fds e))) as [e1 r] eqn:Er. exists e1, r. split; [done|].
  pose proof (update_irq_routing_core v false (mkMsixEnv m1 (fds e))) as Hrel. rewrite Er in Hrel. destruct Hrel as (Hcore & Hvm1 & Hms). cbn [ms fds fst] in *. specialize (Hvm1 Hvm).
  split; [exact Hcore|]. split.
  { intros Hnone. unfold update_irq_routing in Er. erewrite query_step in Er by (by apply (get_message_ok n)).
    rewrite (query_step _ m1) in Er by done. unfold m1 at 1 in Er. cbn [with_table gsi_msi_routes] in Er. rewrite Hnone in Er. by injection Er as <- <-. }
  pose proof (update_irq_routing_total n v false (mkMsixEnv m1 (fds e)) Hwf1 Hv Hvm) as Hnp. rewrite Er in Hnp. destruct r as [[]|x|]; [| |done].
  - erewrite sres_step by (unfold is_err; by rewrite Er).
    assert (msix_wf n (ms e1) /\ pending (ms e1) v = pending (ms e) v /\ pba (ms e1) = pba (ms e) /\ deliverable (ms e1) v = true /\ message_at (ms e1) v = message_at m1 v)
      as (Hwf2 & Hpe & Hpb & Hd2 & Hmsg) by (by rewrite Hcore).
    cbn iota. erewrite query_step by (by apply (is_vector_pending_ok n)). rewrite Hpe, Hpend.
    destruct (clear_and_notify n v dev e1) as (p & Hs & _ & Hbits); try done.
    exists p. split; [|split; [by rewrite raise_msgs, Hms|intros j ?; rewrite Hbits by done; by rewrite Hpb]]. rewrite (sres_step _ _ _ _ _ Hs), Hmsg.
    assert (message_at m1 v = message_at (ms e) v) as ->; [|done]. unfold message_at, dword_at, m1. cbn [with_table table]. by rewrite !slice_splice_out by lia.
  - by erewrite sres_step by (unfold is_err; by rewrite Er).
Qed.

(** Two vectors, both masked, vector 1 pending; the device is enabled. *)
Definition ex_masked : Msix :=
  with_control (with_pba ex_msix [2; 0; 0; 0; 0; 0; 0; 0]) false true.

Lemma ex_masked_wf : msix_wf 2 ex_masked.
Proof.
  split_and!; [done|done|vm_compute; done|vm_compute; done| |];
    repeat constructor; vm_compute; done.
Qed.

(** The same with an irqfd for vector 1. *)
Definition ex_routed : Msix := with_routes ex_masked {[1 := mkGsiRoute 7 24 (mkMsg 1 1 1)]}.

Example msix_unmask_delivers_witness :
  (exists p, (table_write 0x18 [0; 0; 0; 0] 28 (mkMsixEnv ex_masked ex_fds)).1 =
    mkMsixEnv (with_pba (with_table ex_masked (splice (table ex_masked) 28 [0; 0; 0; 0])) p)
      (raise [to_msi (message_at ex_masked 1) 0x18] ex_fds) /\
    forall j, 0 <= j -> bit_of p j = negb (j =? pend_index 1) && bit_of [2; 0; 0; 0; 0; 0; 0; 0] j) /\
  (table_write 0x18 [0; 0; 0; 0] 28 (mkMsixEnv ex_routed ex_fds)).2 = Ok true.
Proof.
  split.
  - destruct (msix_unmask_delivers 2 (mkMsixEnv ex_masked ex_fds) 1 0x18 [0; 0; 0; 0] ex_masked_wf
      ltac:(by eexists) ltac:(done) eq_refl eq_refl eq_refl eq_refl
      ltac:(repeat constructor; done) eq_refl eq_refl) as (e1 & r & _ & _ & Hnone & H).
    destruct (Hnone eq_refl) as [-> ->]. destruct H as (p & H & _ & Hb).
    exists p. change (16 * 1 + 12) with 28 in H. rewrite H. split; [done|exact Hb].
  - destruct (msix_unmask_delivers 2 (mkMsixEnv ex_routed ex_fds) 1 0x18 [0; 0; 0; 0] ex_masked_wf
      ltac:(by eexists) ltac:(done) eq_refl eq_refl eq_refl eq_refl
      ltac:(repeat constructor; done) eq_refl eq_refl) as (e1 & r & Hr & _ & _ & H).
    assert (r = Ok tt) as -> by (apply (f_equal snd) in Hr; vm_compute in Hr; by rewrite <-Hr).
    destruct H as (p & H & _). change (16 * 1 + 12) with 28 in H. by rewrite H.
Defined.

(** A kernel without irqfds refuses the route: the entry is unmasked, the write
    refused, and the interrupt stays pending although it can be delivered. *)
Inductive NoIrqfd := mkNoIrqfd.
#[export] Instance no_irqfd : IrqKernel NoIrqfd := {|
  set_gsi_routing k l := (k, true); kvm_register_irqfd k fd g := (k, false); kvm_unregister_irqfd k fd g := (k, false);
  kvm_set_irq_line k _ _ := (k, true); signal_msi k m := (k, true) |}.
Example refused_unmask :
  let out := table_write 0x18 [0; 0; 0; 0] 28 (mkMsixEnv ex_routed (mkFds (mkIrqTable [] [0xffffff]) (Some mkNoIrqfd))) in
  out.2 = Ok false /\ deliverable (ms out.1) 1 = true /\ pending (ms out.1) 1 = true.
Proof. vm_compute. done. Qed.

(** Enabling delivers.  When a write to the message control register of
    a device of up to 64 vectors turns MSI-X on (or lifts the function mask),
    the messages of exactly the pending vectors whose entry is not masked are
    handed to KVM, in increasing order, and only masked vectors stay pending. *)
Theorem msix_enable_delivers {K} `{!IrqKernel K} n (e : MsixEnv K) config dev offset bytes :
  msix_wf n (ms e) -> n <= 64 -> is_Some (vm_fd (fds e)) -> cap_in (ms e) config ->
  0 <= offset -> offset + Z.of_nat (length bytes) < 2 ^ 64 ->
  touches_ctl (ms e) offset bytes = true ->
  ctl_enabled (ms e) config = true -> ctl_masked (ms e) config = false ->
  enabled (ms e) && negb (func_masked (ms e)) = false ->
  exists p l,
    write_config config dev offset bytes e =
      (mkMsixEnv (with_pba (with_control (ms e) false true) p)
         (raise ((fun v => to_msi (message_at (ms e) v) dev) <$> l) (fds e)), Ok tt) /\
    StronglySorted Z.lt l /\
    (forall v, v ∈ l <-> 0 <= v < n /\ vec_masked (ms e) v = false /\ pending (ms e) v = true) /\
    (forall v, 0 <= v < n -> bit_of p (pend_index v) = pending (ms e) v && vec_masked (ms e) v).
Proof.
  intros Hwf Hn Hvm Hcap Hoff Hob Htouch Hen Hfm Hold.
  pose proof (write_config_ok n config dev offset bytes e Hwf Hn Hvm Hcap Hoff Hob) as H.
  cbv zeta in H. unfold ctl_changed in H. rewrite Htouch, Hen, Hfm in H.
  assert (negb (Bool.eqb (func_masked (ms e)) false && Bool.eqb (enabled (ms e)) true) = true) as Hch
    by (by destruct (func_masked (ms e)), (enabled (ms e))).
  rewrite Hch in H. cbn [andb negb] in H. set (m1 := with_control _ _ _) in *.
  destruct H as (p & Hw & _ & Hb). exists p, (due (Z.to_nat n) 0 m1).
  assert (forall v, deliverable m1 v = negb (vec_masked (ms e) v)) as Hd by done.
  pose proof Hwf as ([? ?] & _). split_and!; [exact Hw|apply due_sorted| |].
  - intros v. rewrite due_spec, Hd, negb_true_iff. change (pending m1 v) with (pending (ms e) v).
    rewrite Z.add_0_l, Z2Nat.id by lia. done.
  - intros v Hv. unfold pending. rewrite pend_index_small, Hb, Hd, negb_andb, negb_involutive by lia.
    destruct (Z.ltb_spec v n); [done|lia].
Qed.

Example msix_enable_delivers_witness :
  let m := with_control (with_table (with_pba ex_msix [3; 0; 0; 0; 0; 0; 0; 0])
             (<[12%nat := 1]> (replicate 32 0))) true true in
  let config := <[0x43%nat := 0x80]> (replicate 256 0) in
  exists p l,
    write_config config 0x18 0x42 [1; 0x80] (mkMsixEnv m ex_fds) =
      (mkMsixEnv (with_pba (with_control m false true) p)
         (raise ((fun v => to_msi (message_at m v) 0x18) <$> l) ex_fds), Ok tt) /\
    StronglySorted Z.lt l /\
    (forall v, v ∈ l <-> 0 <= v < 2 /\ vec_masked m v = false /\ pending m v = true) /\
    (forall v, 0 <= v < 2 -> bit_of p (pend_index v) = pending m v && vec_masked m v).
Proof.
  intros m config.
  apply (msix_enable_delivers 2 (mkMsixEnv m ex_fds) config 0x18 0x42 [1; 0x80]); try done.
  - split_and!; [done|done|vm_compute; done|vm_compute; done| |]; repeat constructor; vm_compute; done.
  - split_and!; [done|vm_compute; done|vm_compute; done|].
    apply Forall_insert; [apply zeros_are_bytes|done].
Defined.

(** Vectors share pending bits.  Marking vector [v] makes vector [w]
    pending exactly when the two have the same bit, and bits are told apart
    only within a group of 64 vectors: the offset of the group is counted in
    bytes and not in quadwords, so vector 64 has the bit of vector 8. *)
Theorem pending_bits_collide n m v w :
  msix_wf n m -> 0 <= v < n -> 0 <= w < n ->
  (exists m', set_pending_vector m v = Ok m' /\
     is_vector_pending m' w = Ok ((pend_index w =? pend_index v) || pending m w)) /\
  (64 <= v -> v < 120 -> pend_index v = pend_index (v - 56)).
Proof.
  intros Hwf Hv Hw. split.
  - destruct (set_pending_ok n m v Hwf Hv) as (p & -> & Hwf' & Hb). eexists. split; [done|].
    rewrite (is_vector_pending_ok n) by done. unfold pending. cbn [with_pba pba].
    rewrite Hb; [done|]. unfold pend_index. pose proof (Z.div_pos w 64).
    pose proof (Z.mod_pos_bound w 64). lia.
  - intros. unfold pend_index. rewrite (Z.div_small (v - 56)), (Z.mod_small (v - 56)) by lia.
    pose proof (Z.div_mod v 64). pose proof (Z.mod_pos_bound v 64).
    assert (v / 64 = 1) as ->; [|lia]. apply Z.le_antisymm.
    + apply Z.lt_succ_r, Z.div_lt_upper_bound; lia.
    + apply Z.div_le_lower_bound; lia.
Qed.

Example pending_bits_collide_witness :
  let m := mkMsix (replicate 1040 0) (replicate 16 0) false true 0x40 0x18 ∅ in
  exists m', set_pending_vector m 64 = Ok m' /\ is_vector_pending m' 8 = Ok true.
Proof.
  intros m. destruct (pending_bits_collide 65 m 64 8) as [(m' & H1 & H2) H3]; [|lia|lia|].
  - split_and!; [done|done|vm_compute; done|vm_compute; done| |]; apply zeros_are_bytes.
  - exists m'. split; [done|]. rewrite H2. change 8 with (64 - 56). by rewrite <-H3 by lia.
Defined.

Lemma copy_into_ok v : forall arr,
  (length v <= length arr)%nat -> copy_into arr v = Ok (v ++ drop (length v) arr).
Proof.
  induction v as [|b v IH]; intros arr Hl; [by destruct arr|].
  destruct arr as [|a arr]; simpl in *; [lia|]. by rewrite IH by lia.
Qed.
Lemma copy_into_panic v : forall arr, (length arr < length v)%nat -> copy_into arr v = Panic.
Proof.
  induction v as [|b v IH]; intros arr Hl; [simpl in Hl; lia|].
  destruct arr as [|a arr]; simpl in *; [done|]. by rewrite IH by lia.
Qed.
Lemma prefix_app v rest : prefix (v ++ rest) (length v) = Ok v.
Proof.
  unfold prefix. rewrite length_app. destruct (Nat.leb_spec (length v) (length v + length rest)); [|lia].
  by rewrite take_app_length.
Qed.

(** Snapshots.  Up to 128 vectors, the state saved for a device and
    loaded into one of the same size gives back its table, pending bits,
    control state, capability offset and device number; with more vectors the
    2048-byte array of the snapshot is too short and saving panics. *)
Theorem msix_snapshot n m :
  msix_wf n m ->
  (n <= 128 -> exists s, get_state_vec m = Ok s /\
     forall m', length (table m') = length (table m) -> length (pba m') = length (pba m) ->
     set_state_mut m' s = Ok (with_routes m (gsi_msi_routes m'))) /\
  (128 < n -> get_state_vec m = Panic).
Proof.
  intros ([? Hn] & Ht & Hp & _). unfold MSIX_TABLE_SIZE_MAX in Hn.
  assert (0 <= pba_len n <= 256).
  { unfold pba_len. pose proof (Z.div_pos (n + 63) 64).
    assert ((n + 63) / 64 <= 32) by (apply Z.lt_succ_r, Z.div_lt_upper_bound; lia). lia. }
  unfold get_state_vec. cbn [MsixState_default st_table st_pba]. split; intros Hv.
  - rewrite !copy_into_ok by (rewrite length_replicate; lia). cbn [mbind res_bind].
    eexists. split; [done|]. intros m' Ht' Hp'. unfold set_state_mut. cbn [st_table st_pba].
    rewrite Ht', Hp', !prefix_app. done.
  - by rewrite (copy_into_panic (table m)) by (rewrite length_replicate; lia).
Qed.

Example msix_snapshot_witness :
  exists s, get_state_vec ex_masked = Ok s /\
    set_state_mut ex_msix s = Ok (with_routes ex_masked ∅).
Proof.
  destruct (proj1 (msix_snapshot 2 ex_masked ex_masked_wf) ltac:(done)) as (s & Hs & Hback).
  exists s. split; [done|]. by apply (Hback ex_msix).
Defined.

(** A table write of any length but four bytes, inside the table, panics:
    the closure checks the length it was given and then copies four bytes. *)
Theorem table_write_size_panics {K} `{!IrqKernel K} n (e : MsixEnv K) dev bytes off :
  msix_wf n (ms e) -> 0 <= off -> off < 16 * n ->
  off + Z.of_nat (length bytes) <= 16 * n -> length bytes <> 4%nat ->
  table_write dev bytes off e = (e, Panic).
Proof.
  intros Hwf Hoff Hlt Hfit Hl. pose proof Hwf as ([Hn1 Hn2] & Ht & _).
  unfold MSIX_TABLE_SIZE_MAX in Hn2. unfold table_write.
  rewrite (query_step _ (ms e)) by done. rewrite wadd_small by (unfold inW; lia).
  destruct (Z.ltb_spec (Z.of_nat (length (table (ms e)))) (off + Z.of_nat (length bytes))); [lia|].
  cbv zeta. rewrite (wrap_small 16 off) by (unfold inW; lia).
  erewrite query_step.
  2:{ apply (is_vector_masked_ok n); [done|]. unfold MSIX_TABLE_ENTRY_SIZE.
      split; [apply Z.div_pos; lia|apply Z.div_lt_upper_bound; lia]. }
  unfold mbind at 1, sres_bind at 1, update at 1, copy_dword.
  destruct (Nat.eqb_spec (length bytes) 4); [done|]. by rewrite orb_true_r.
Qed.

Example table_write_size_panics_witness :
  table_write 0x18 [0; 0; 0; 0; 0; 0; 0; 0] 0 (mkMsixEnv ex_masked ex_fds) =
    (mkMsixEnv ex_masked ex_fds, Panic).
Proof.
  apply (table_write_size_panics 2 (mkMsixEnv ex_masked ex_fds)); [apply ex_masked_wf|done..].
Defined.

(** ** Irqfds *)

Section irqfd.
Context {K : Type} `{!IrqKernel K} `{!IrqKernelSpec K}.

(** The routes in the kernel are those of the table. *)
Definition routes_synced (f : KVMFds K) : Prop :=
  exists k, vm_fd f = Some k /\ k_routes k = irq_routes (irq_route_table f).

Lemma on_vm_inv (h : K -> K * bool) (e e' : MsixEnv K) :
  on_fds (on_vm h) e = (e', Ok tt) ->
  exists k k', vm_fd (fds e) = Some k /\ h k = (k', true) /\
    e' = mkMsixEnv (ms e) (mkFds (irq_route_table (fds e)) (Some k')).
Proof.
  unfold on_fds, on_vm. destruct (vm_fd (fds e)) as [k|]; [|done].
  destruct (h k) as [k' []] eqn:E; intros [= <-]. by exists k, k'.
Qed.

Lemma on_table_inv {A} (t : TM A) (e e' : MsixEnv K) a :
  on_fds (on_table t) e = (e', Ok a) ->
  exists t', t (irq_route_table (fds e)) = (t', Ok a) /\
    e' = mkMsixEnv (ms e) (mkFds t' (vm_fd (fds e))).
Proof.
  unfold on_fds, on_table. destruct (t (irq_route_table (fds e))) as [t' r] eqn:E.
  intros [= <- ->]. by exists t'.
Qed.

Lemma commit_inv (e e' : MsixEnv K) :
  on_fds commit_irq_routing e = (e', Ok tt) ->
  exists k k', vm_fd (fds e) = Some k /\
    set_gsi_routing k (irq_routes (irq_route_table (fds e))) = (k', true) /\
    e' = mkMsixEnv (ms e) (mkFds (irq_route_table (fds e)) (Some k')).
Proof.
  intros H. apply (on_vm_inv (fun k => set_gsi_routing k (irq_routes (irq_route_table (fds e))))).
  exact H.
Qed.

(** Registering an irqfd for a vector.  When it succeeds, a GSI that was
    free is in use, its only route is the message of the vector's entry, the
    kernel has all routes of the table and the event fd bound to that GSI, and
    the vector remembers both. *)
Theorem msix_register_irqfd_effect n (e e' : MsixEnv K) v fd :
  msix_wf n (ms e) -> 0 <= v < n -> table_wf (irq_route_table (fds e)) ->
  msix_register_irqfd v fd e = (e', Ok tt) ->
  exists g k, gsi_used (irq_route_table (fds e)) g = false /\
    gsi_used (irq_route_table (fds e')) g = true /\ table_wf (irq_route_table (fds e')) /\
    get_irq_route_entry (irq_route_table (fds e')) g = [msi_entry g (msi_vector (message_at (ms e) v))] /\
    vm_fd (fds e') = Some k /\ k_routes k = irq_routes (irq_route_table (fds e')) /\
    (fd, g) ∈ k_irqfds k /\
    ms e' = with_routes (ms e) (<[v := mkGsiRoute fd (as_i32 g) (message_at (ms e) v)]>
                                  (gsi_msi_routes (ms e))).
Proof.
  intros Hwf Hv Htw H. unfold msix_register_irqfd in H.
  erewrite query_step in H by (by apply (get_message_ok n)).
  apply sres_bind_Ok in H as (g & e1 & (t1 & Ha & ->)%on_table_inv & H). cbn [ms fds] in *.
  assert (exists g0, 0 <= g0 < capacity (irq_route_table (fds e)) /\
            gsi_used (irq_route_table (fds e)) g0 = false) as Hfree.
  { apply dec_free. intros Hall. destruct (allocate_gsi_full _ Htw Hall) as [x Hx]. congruence. }
  destruct (allocate_gsi_ok _ Htw Hfree) as (g' & t' & Ha' & Hg & Hgf & _ & Hr1 & Hc1 & Htw1 & Hu1).
  rewrite Ha in Ha'. injection Ha' as <- <-.
  apply sres_bind_Ok in H as ([] & e2 & (t2 & Hadd & ->)%on_table_inv & H). cbn [ms fds irq_route_table vm_fd] in *.
  injection Hadd as <-. set (t2 := mkIrqTable _ _) in *.
  apply sres_bind_Ok in H as ([] & e3 & (k & k' & Hk & Hset & ->)%commit_inv & H). cbn [ms fds irq_route_table vm_fd] in *.
  apply sres_bind_Ok in H as ([] & e4 & (k1 & k2 & Hk1 & Hreg & ->)%on_vm_inv & H). cbn [ms fds irq_route_table vm_fd] in *.
  injection Hk1 as <-. injection H as <-.
  destruct (set_gsi_routing_spec _ _ _ _ Hset) as [_ Hroutes].
  destruct (register_irqfd_spec _ _ _ _ _ Hreg) as [Hroutes2 Hfds].
  assert (gsi_used t2 g = true) as Hu2.
  { change (gsi_used t1 g = true). rewrite Hu1 by lia. by rewrite Z.eqb_refl. }
  exists g, k2. split_and!; try done.
  - destruct Htw1 as (? & ? & ?). split_and!; [done|done|]. simpl. apply Forall_app. split; [done|].
    constructor; [|done]. simpl. split; [lia|done].
  - rewrite (entries_of_app t2 (irq_routes t1) [msi_entry g (msi_vector (message_at (ms e) v))] []) by done.
    rewrite entries_of_one, decide_True, Hr1 by done. by rewrite (entries_unused _ g) by done.
  - cbn [fds irq_route_table]. by rewrite Hroutes2, Hroutes.
  - rewrite Hfds. by apply elem_of_union_l, elem_of_singleton.
Qed.
End irqfd.

Example msix_register_irqfd_witness :
  let e' := (msix_register_irqfd 1 7 (mkMsixEnv ex_masked ex_fds)).1 in
  exists g k, gsi_used (irq_route_table ex_fds) g = false /\
    vm_fd (fds e') = Some k /\ lk_routes k = irq_routes (irq_route_table (fds e')) /\
    (7, g) ∈ lk_irqfds k.
Proof.
  intros e'.
  destruct (msix_register_irqfd_effect 2 (mkMsixEnv ex_masked ex_fds) e' 1 7 ex_masked_wf)
    as (g & k & Hg & _ & _ & _ & Hk & Hr & Hfd & _); [done| |vm_compute; done|].
  - split_and!; [|vm_compute; done|done]. split; [repeat constructor; vm_compute; done|done].
  - exists g, k. split_and!; done.
Defined.
