(* ===== verification/PciConfig.v ===== *)
(** * The PCI configuration space ([devices/src/pci/config.rs], [init_intx] and [init_msix])

    [PciConfig] keeps the configuration bytes of a function, the masks of the
    bits the guest may write or clear, its BARs and capabilities.  Operations
    on it alone run on [PciConfig]; those that map BARs, drive INTx lines or
    send messages run on [PciEnv], which adds the region tree and address
    spaces ([World]), the VM's [KVMFds] and the INTx states.  The [Msix] and
    [Intx] of a function sit behind [Arc]s in the source; here they are fields.
    [fuel] bounds the depth of the region tree, as in [Topology.v].  The
    x86_64 build is modelled (I/O BARs are mapped). *)
From stdpp Require Import prelude list strings gmap.
From Stdlib Require Import ZArith Lia.
From S2P Require Import Prelude NumOps Address Region FlatView Topology IrqRoute Intx PciRegs Msix.

Definition PCI_CONFIG_SPACE_SIZE : Z := 256.
Definition PCIE_CONFIG_SPACE_SIZE : Z := 4096.
Definition REG_SIZE : Z := 4.
Definition COMMAND : Z := 0x04.
Definition STATUS : Z := 0x06.
Definition CACHE_LINE_SIZE : Z := 0x0c.
Definition HEADER_TYPE : Z := 0x0e.
Definition BAR_0 : Z := 0x10.
Definition PRIMARY_BUS_NUM : Z := 0x18.
Definition IO_BASE : Z := 0x1c.
Definition IO_LIMIT : Z := 0x1d.
Definition MEMORY_BASE : Z := 0x20.
Definition PREF_MEMORY_BASE : Z := 0x24.
Definition PREF_MEM_BASE_UPPER : Z := 0x28.
Definition ROM_ADDRESS_ENDPOINT : Z := 0x30.
Definition CAP_LIST : Z := 0x34.
Definition ROM_ADDRESS_BRIDGE : Z := 0x38.
Definition INTERRUPT_LINE : Z := 0x3c.
Definition INTERRUPT_PIN : Z := 0x3d.
Definition BRIDGE_CONTROL : Z := 0x3e.
Definition PCI_CONFIG_HEAD_END : Z := 64.
Definition NEXT_CAP_OFFSET : Z := 0x01.
Definition STATUS_CAP_LIST : Z := 0x0010.
Definition STATUS_INTERRUPT : Z := 0x08.
Definition COMMAND_IO_SPACE : Z := 0x0001.
Definition COMMAND_MEMORY_SPACE : Z := 0x0002.
Definition COMMAND_BUS_MASTER : Z := 0x0004.
Definition COMMAND_SERR_ENABLE : Z := 0x0100.
Definition COMMAND_INTERRUPT_DISABLE : Z := 0x0400.
Definition HEADER_TYPE_ENDPOINT : Z := 0x0.
Definition HEADER_TYPE_BRIDGE : Z := 0x01.
Definition BAR_IO_SPACE : Z := 0x01.
Definition BAR_MEM_64BIT : Z := 0x04.
Definition BAR_PREFETCH : Z := 0x08.
Definition IO_BASE_ADDR_MASK : Z := 0xfffffffc.
Definition MEM_BASE_ADDR_MASK : Z := 0xfffffffffffffff0.
Definition BAR_SPACE_UNMAPPED : Z := 0xffffffffffffffff.
Definition BAR_NUM_MAX_FOR_ENDPOINT : Z := 6.
Definition BAR_NUM_MAX_FOR_BRIDGE : Z := 2.
Definition MINIMUM_BAR_SIZE_FOR_MMIO : Z := 0x1000.
Definition MINIMUM_BAR_SIZE_FOR_PIO : Z := 0x4.
Definition PCI_EXT_CAP_VER_SHIFT : Z := 16.
Definition PCI_EXT_CAP_NEXT_SHIFT : Z := 20.

(** [RegionType] of this file. *)
Inductive BarType := BarIo | Mem32Bit | Mem64Bit.
#[export] Instance BarType_eq_dec : EqDecision BarType.
Proof. solve_decision. Defined.

Record Bar := mkBar {
  bar_type : BarType;
  address : Z;
  bar_size : Z;
  bar_region : option rid;
  parent_io_region : option rid;
  parent_mem_region : option rid
}.

Record PciConfig := mkPci {
  config : list Z;
  write_mask : list Z;
  write_clear_mask : list Z;
  bars : list Bar;
  last_cap_end : Z;
  last_ext_cap_offset : Z;
  last_ext_cap_end : Z;
  msix : option Msix;
  pci_express_cap_offset : Z;
  intx : option Intx
}.

(** Field updates. *)
Definition with_config (c : PciConfig) (x : list Z) : PciConfig :=
  mkPci x (write_mask c) (write_clear_mask c) (bars c) (last_cap_end c) (last_ext_cap_offset c)
    (last_ext_cap_end c) (msix c) (pci_express_cap_offset c) (intx c).
Definition with_write_mask (c : PciConfig) (x : list Z) : PciConfig :=
  mkPci (config c) x (write_clear_mask c) (bars c) (last_cap_end c) (last_ext_cap_offset c)
    (last_ext_cap_end c) (msix c) (pci_express_cap_offset c) (intx c).
Definition with_clear_mask (c : PciConfig) (x : list Z) : PciConfig :=
  mkPci (config c) (write_mask c) x (bars c) (last_cap_end c) (last_ext_cap_offset c)
    (last_ext_cap_end c) (msix c) (pci_express_cap_offset c) (intx c).
Definition with_bars (c : PciConfig) (x : list Bar) : PciConfig :=
  mkPci (config c) (write_mask c) (write_clear_mask c) x (last_cap_end c) (last_ext_cap_offset c)
    (last_ext_cap_end c) (msix c) (pci_express_cap_offset c) (intx c).
Definition with_caps (c : PciConfig) (cap_end ext_off ext_end : Z) : PciConfig :=
  mkPci (config c) (write_mask c) (write_clear_mask c) (bars c) cap_end ext_off ext_end (msix c)
    (pci_express_cap_offset c) (intx c).
Definition with_msix (c : PciConfig) (x : option Msix) : PciConfig :=
  mkPci (config c) (write_mask c) (write_clear_mask c) (bars c) (last_cap_end c)
    (last_ext_cap_offset c) (last_ext_cap_end c) x (pci_express_cap_offset c) (intx c).
Definition with_express (c : PciConfig) (x : Z) : PciConfig :=
  mkPci (config c) (write_mask c) (write_clear_mask c) (bars c) (last_cap_end c)
    (last_ext_cap_offset c) (last_ext_cap_end c) (msix c) x (intx c).
Definition with_intx (c : PciConfig) (x : option Intx) : PciConfig :=
  mkPci (config c) (write_mask c) (write_clear_mask c) (bars c) (last_cap_end c)
    (last_ext_cap_offset c) (last_ext_cap_end c) (msix c) (pci_express_cap_offset c) x.

Definition PciConfig_new (config_size : Z) (nr_bar : nat) : PciConfig :=
  let zeros := replicate (Z.to_nat config_size) 0 in
  mkPci zeros zeros zeros (replicate nr_bar (mkBar Mem32Bit 0 0 None None None))
    PCI_CONFIG_HEAD_END 0 PCI_CONFIG_SPACE_SIZE None PCI_CONFIG_HEAD_END None.

(** ** Operations on the configuration space alone *)

Abbreviation CM := (sres PciConfig PciError).

(** [le_write_uN(&mut self.config, ..)] and the same on the masks. *)
Definition wr (put : PciConfig -> list Z -> PciConfig) (get : PciConfig -> list Z)
    (n : nat) (off v : Z) : CM unit := fun c =>
  match le_write n (get c) off v with
  | Ok b => (put c b, Ok tt)
  | Err e => (c, Err e)
  | Panic => (c, Panic)
  end.
Definition wr_config := wr with_config config.
Definition wr_mask := wr with_write_mask write_mask.
Definition wr_clear := wr with_clear_mask write_clear_mask.

(** [self.config\[off\] = f(self.config\[off\])] *)
Definition mod_byte (put : PciConfig -> list Z -> PciConfig) (get : PciConfig -> list Z)
    (off : Z) (f : Z -> Z) : CM unit := fun c =>
  match get c !! Z.to_nat off with
  | Some b => (put c (<[Z.to_nat off := f b]> (get c)), Ok tt)
  | None => (c, Panic)
  end.
Definition mod_config := mod_byte with_config config.
Definition mod_mask := mod_byte with_write_mask write_mask.

Definition rd {A} (f : PciConfig -> res PciError A) : CM A := fun c => (c, f c).
Definition byte_at (l : list Z) (off : Z) : res PciError Z := unwrap (l !! Z.to_nat off).
Definition modify (f : PciConfig -> PciConfig) : CM unit := fun c => (f c, Ok tt).

(** [while offset < self.config.len()]: the fuel is the number of dwords. *)
Fixpoint mask_tail (fuel : nat) (offset : Z) : CM unit :=
  match fuel with
  | O => mret tt
  | S fuel =>
    c ← sget;
    if offset <? Z.of_nat (length (config c)) then
      _ ← wr_mask 4 offset 0xffffffff; mask_tail fuel (offset + 4)
    else mret tt
  end.

Definition init_common_write_mask : CM unit :=
  _ ← mod_mask CACHE_LINE_SIZE (fun _ => 0xff);
  _ ← mod_mask INTERRUPT_LINE (fun _ => 0xff);
  _ ← wr_mask 2 COMMAND
        (Z.lor (Z.lor (Z.lor (Z.lor COMMAND_IO_SPACE COMMAND_MEMORY_SPACE) COMMAND_BUS_MASTER)
                  COMMAND_INTERRUPT_DISABLE) COMMAND_SERR_ENABLE);
  c ← sget;
  mask_tail (length (config c)) PCI_CONFIG_HEAD_END.

Definition init_bridge_write_mask : CM unit :=
  _ ← mod_mask IO_BASE (fun _ => 0xf0);
  _ ← mod_mask IO_LIMIT (fun _ => 0xf0);
  _ ← wr_mask 4 PRIMARY_BUS_NUM 0xffffffff;
  _ ← wr_mask 4 MEMORY_BASE 0xfff0fff0;
  _ ← wr_mask 4 PREF_MEMORY_BASE 0xfff0fff0;
  _ ← wr_mask 8 PREF_MEM_BASE_UPPER 0xffffffffffffffff;
  (* parity, SERR, ISA, VGA, VGA 16-bit, bus reset, fast back-to-back, the
     discard timers and their SERR enable *)
  wr_mask 2 BRIDGE_CONTROL
    (foldr Z.lor 0 [0x0001; 0x0002; 0x0004; 0x0008; 0x0010; 0x0040; 0x0080; 0x0100; 0x0200; 0x0800]).

Definition init_bridge_write_clear_mask : CM unit := wr_clear 2 BRIDGE_CONTROL 0x0400.
Definition init_common_write_clear_mask : CM unit :=
  (* parity error, target and master aborts, system error, detected parity *)
  wr_clear 2 STATUS (foldr Z.lor 0 [0x0100; 0x0800; 0x1000; 0x2000; 0x4000; 0x8000]).

Definition validate_config_boundary (c : PciConfig) (offset len : Z) : res PciError unit :=
  if 4 <? len then Err InvalidConf
  else match checked_add 64 offset len with
       | Some e => if e <=? Z.of_nat (length (config c)) then Ok tt else Err InvalidConf
       | None => Err InvalidConf
       end.

(** [ranges_overlap(..).unwrap()] *)
Definition overlap (s1 n1 s2 n2 : Z) : res PciError bool := unwrap_res (ranges_overlap s1 n1 s2 n2).

(** The buffer comes back unchanged when the access is refused. *)
Definition read (offset : Z) (buf : list Z) : CM (list Z) := fun c =>
  let size := Z.of_nat (length buf) in
  match validate_config_boundary c offset size with
  | Err _ => (c, Ok buf)
  | Panic => (c, Panic)
  | Ok _ =>
    (b ← slift (overlap offset size STATUS 1);
     _ ← match (b : bool), intx c with
         | true, Some i =>
           if level i =? 1 then mod_config STATUS (fun x => Z.lor x STATUS_INTERRUPT)
           else mod_config STATUS (fun x => Z.land x (wnot 8 STATUS_INTERRUPT))
         | _, _ => mret tt
         end;
     c ← sget;
     mret (slice (config c) (Z.to_nat offset) (length buf))) c
  end.

(** The loop of [write]. *)
Fixpoint write_bytes (data : list Z) (offset : Z) : CM unit :=
  match data with
  | [] => mret tt
  | d :: data =>
    m ← rd (fun c => byte_at (write_mask c) offset);
    w ← rd (fun c => byte_at (write_clear_mask c) offset);
    _ ← mod_config offset (fun x => Z.lor (Z.land x (wnot 8 m)) (Z.land d m));
    _ ← mod_config offset (fun x => Z.land x (wnot 8 (Z.land d w)));
    write_bytes data (offset + 1)
  end.

Definition reset_bridge_regs : CM unit :=
  _ ← wr_config 4 PRIMARY_BUS_NUM 0;
  _ ← mod_config IO_BASE (fun _ => 0xff);
  _ ← mod_config IO_LIMIT (fun _ => 0);
  _ ← wr_config 4 MEMORY_BASE 0xffff;
  _ ← wr_config 4 PREF_MEMORY_BASE 0xffff;
  wr_config 8 PREF_MEM_BASE_UPPER 0.

Definition reset_single_writable_reg (offset : Z) : CM unit :=
  wm ← rd (fun c => unwrap_res (le_read_u16 (write_mask c) offset));
  wc ← rd (fun c => unwrap_res (le_read_u16 (write_clear_mask c) offset));
  old ← rd (fun c => unwrap_res (le_read_u16 (config c) offset));
  wr_config 2 offset (Z.land old (wnot 16 (Z.lor wm wc))).

Definition reset_common_regs : CM unit :=
  _ ← reset_single_writable_reg COMMAND;
  _ ← reset_single_writable_reg STATUS;
  _ ← reset_single_writable_reg INTERRUPT_LINE;
  mod_config CACHE_LINE_SIZE (fun _ => 0).

(** [loop] of [find_pci_cap]: each turn adds an offset (a [u8]) to [seen], so
    256 turns are enough ([find_cap_loop_total]). *)
Fixpoint find_cap_loop (fuel : nat) (c : PciConfig) (cap_id offset : Z) (seen : list Z)
  : res PciError Z :=
  cap ← byte_at (config c) offset;
  if cap =? cap_id then Ok offset
  else
    next ← byte_at (config c) (offset + NEXT_CAP_OFFSET);
    if (next =? 0) || bool_decide (next ∈ seen) then Ok 0xff
    else match fuel with
         | O => Panic
         | S fuel => find_cap_loop fuel c cap_id next (next :: seen)
         end.
Definition find_pci_cap (c : PciConfig) (cap_id : Z) : res PciError Z :=
  offset ← byte_at (config c) CAP_LIST;
  find_cap_loop 256 c cap_id offset [offset].

Definition get_bar_address (c : PciConfig) (id : Z) : res PciError Z :=
  command ← unwrap_res (le_read_u16 (config c) COMMAND);
  let offset := BAR_0 + id * REG_SIZE in
  b ← byte_at (config c) offset;
  if 0 <? Z.land b BAR_IO_SPACE then
    if Z.land command COMMAND_IO_SPACE =? 0 then Ok BAR_SPACE_UNMAPPED
    else bar_val ← unwrap_res (le_read_u32 (config c) offset);
         Ok (Z.land bar_val IO_BASE_ADDR_MASK)
  else if Z.land command COMMAND_MEMORY_SPACE =? 0 then Ok BAR_SPACE_UNMAPPED
  else
    bar ← unwrap (bars c !! Z.to_nat id);
    match bar_type bar with
    | BarIo => Ok BAR_SPACE_UNMAPPED
    | Mem32Bit => bar_val ← unwrap_res (le_read_u32 (config c) offset);
                  Ok (Z.land bar_val (wrap 32 MEM_BASE_ADDR_MASK))
    | Mem64Bit => bar_val ← unwrap_res (le_read_u64 (config c) offset);
                  Ok (Z.land bar_val MEM_BASE_ADDR_MASK)
    end.

Definition validate_bar_id (c : PciConfig) (id : Z) : res PciError unit :=
  h ← byte_at (config c) HEADER_TYPE;
  if ((h =? HEADER_TYPE_ENDPOINT) && (BAR_NUM_MAX_FOR_ENDPOINT <=? id)) ||
     ((h =? HEADER_TYPE_BRIDGE) && (BAR_NUM_MAX_FOR_BRIDGE <=? id))
  then Err InvalidConf else Ok tt.

Definition is_power_of_two (x : Z) : bool := (0 <? x) && (Z.land x (x - 1) =? 0).
Definition validate_bar_size (t : BarType) (size : Z) : res PciError unit :=
  if negb (is_power_of_two size) ||
     (bool_decide (t = BarIo) && (size <? MINIMUM_BAR_SIZE_FOR_PIO)) ||
     (bool_decide (t = Mem32Bit) && (0xffffffff <? size)) ||
     (bool_decide (t = BarIo) && (0xffff <? size))
  then Err InvalidConf else Ok tt.

Definition register_bar (id : Z) (region : rid) (t : BarType) (prefetchable : bool) (size : Z)
  : CM unit :=
  _ ← rd (fun c => validate_bar_id c id);
  _ ← rd (fun c => validate_bar_size t size);
  let offset := BAR_0 + id * REG_SIZE in
  let mask := wnot 64 (wsub 64 size 1) in
  _ ← match t with
      | BarIo => _ ← sunwrap (wr_mask 4 offset (wrap 32 mask)); mod_config offset (fun _ => BAR_IO_SPACE)
      | Mem32Bit => sunwrap (wr_mask 4 offset (wrap 32 mask))
      | Mem64Bit => _ ← sunwrap (wr_mask 8 offset mask); mod_config offset (fun _ => BAR_MEM_64BIT)
      end;
  _ ← (if prefetchable then mod_config offset (fun x => Z.lor x BAR_PREFETCH) else mret tt);
  bar ← rd (fun c => unwrap (bars c !! Z.to_nat id));
  modify (fun c => with_bars c (<[Z.to_nat id :=
    mkBar t BAR_SPACE_UNMAPPED size (Some region) (parent_io_region bar) (parent_mem_region bar)]> (bars c))).

(** ** Capabilities *)

Definition CapId_Pcie : Z := 0x10.
Definition CapId_Msix : Z := 0x11.

(** [for _ in 0..regs_num]: the registers of a capability become read-only. *)
Fixpoint protect_cap (n : nat) : CM unit :=
  match n with
  | O => mret tt
  | S n =>
    c ← sget;
    _ ← wr_mask 4 (last_cap_end c) 0;
    _ ← modify (fun c => with_caps c (wadd 16 (last_cap_end c) REG_SIZE) (last_ext_cap_offset c)
                           (last_ext_cap_end c));
    protect_cap n
  end.
Fixpoint protect_ext_cap (n : nat) : CM unit :=
  match n with
  | O => mret tt
  | S n =>
    c ← sget;
    _ ← wr_mask 4 (last_ext_cap_end c) 0;
    _ ← modify (fun c => with_caps c (last_cap_end c) (last_ext_cap_offset c)
                           (wadd 16 (last_ext_cap_end c) REG_SIZE));
    protect_ext_cap n
  end.

Definition regs_num (size : Z) : nat :=
  Z.to_nat (if size `mod` REG_SIZE =? 0 then size / REG_SIZE else size / REG_SIZE + 1).

Definition add_pci_cap (id size : Z) : CM Z :=
  c ← sget;
  let offset := last_cap_end c in
  if PCI_CONFIG_SPACE_SIZE <? wadd 64 offset size then sfail (AddPciCap id size)
  else
    _ ← mod_config offset (fun _ => id);
    head ← rd (fun c => byte_at (config c) CAP_LIST);
    _ ← mod_config (offset + NEXT_CAP_OFFSET) (fun _ => head);
    _ ← mod_config CAP_LIST (fun _ => wrap 8 offset);
    _ ← mod_config STATUS (fun x => Z.lor x (wrap 8 STATUS_CAP_LIST));
    _ ← protect_cap (regs_num size);
    mret offset.

Definition add_pcie_ext_cap (id size version : Z) : CM Z :=
  c ← sget;
  let offset := last_ext_cap_end c in
  if PCIE_CONFIG_SPACE_SIZE <? wadd 64 offset size then sfail (AddPcieExtCap id size)
  else
    _ ← protect_ext_cap (regs_num size);
    _ ← wr_config 4 offset (Z.lor id (wshl 32 version PCI_EXT_CAP_VER_SHIFT));
    c ← sget;
    _ ← (if last_ext_cap_offset c =? 0 then mret tt
         else
           old ← rd (fun c => le_read_u32 (config c) (last_ext_cap_offset c));
           wr_config 4 (last_ext_cap_offset c)
             (Z.lor old (wshl 32 (wrap 32 offset) PCI_EXT_CAP_NEXT_SHIFT)));
    _ ← modify (fun c => with_caps c (last_cap_end c) (wrap 16 offset) (last_ext_cap_end c));
    mret offset.

(** The registers of the PCIe capability ([enum PcieCap]) with the values of
    the [PCI_EXP_*] constants. *)
Definition add_pcie_cap (devfn port_num dev_type : Z) : CM Z :=
  cap_offset ← add_pci_cap CapId_Pcie 0x3c;
  _ ← modify (fun c => with_express c (wrap 16 cap_offset));
  (* CapReg: type | version 2 | slot *)
  let pci_type := Z.land (wshl 8 dev_type 4) 0x00f0 in
  _ ← wr_config 2 (cap_offset + 0x02) (Z.lor (Z.lor pci_type 0x0002) 0x0100);
  (* DevCap: role-based error reporting; DevCtl and DevStat: error reporting *)
  _ ← wr_config 4 (cap_offset + 0x04) 0x8000;
  let mask := foldr Z.lor 0 [0x01; 0x02; 0x04; 0x08] in
  _ ← wr_mask 2 (cap_offset + 0x08) mask;
  _ ← wr_clear 2 (cap_offset + 0x0a) mask;
  (* LinkCap, LinkStat *)
  _ ← wr_config 4 (cap_offset + 0x0c)
        (foldr Z.lor (wshl 32 port_num 24)
           [0x00000004; 0x00000200; 0x00000400; 0x00200000; 0x00100000]);
  _ ← wr_config 2 (cap_offset + 0x12) (Z.lor 0x0001 0x0010);
  (* SlotCap, SlotCtl, SlotStat *)
  let slot := Z.shiftr devfn 3 in
  _ ← wr_config 4 (cap_offset + 0x14)
        (foldr Z.lor (wshl 32 slot 19)
           [0x00000001; 0x00000002; 0x00000008; 0x00000010; 0x00000020; 0x00000040]);
  _ ← wr_config 2 (cap_offset + 0x18) (foldr Z.lor 0 [0x00c0; 0x0300; 0x0400]);
  _ ← wr_mask 2 (cap_offset + 0x18)
        (foldr Z.lor 0 [0x0001; 0x0008; 0x0010; 0x0020; 0x00c0; 0x0300; 0x0400; 0x0800]);
  _ ← wr_clear 2 (cap_offset + 0x1a) (foldr Z.lor 0 [0x0001; 0x0008; 0x0010]);
  (* RootCtl *)
  _ ← wr_mask 2 (cap_offset + 0x1c) (foldr Z.lor 0 [0x01; 0x02; 0x04]);
  (* DevCap2, DevCtl2 *)
  _ ← wr_config 4 (cap_offset + 0x24) (foldr Z.lor 0 [0x00000020; 0x00100000; 0x00200000]);
  _ ← wr_mask 2 (cap_offset + 0x28) (Z.lor 0x0020 0x8000);
  (* LinkCap2, LinkCtl2 *)
  _ ← wr_config 4 (cap_offset + 0x2c) (foldr Z.lor 0 [0x02; 0x04; 0x08; 0x10]);
  _ ← wr_config 2 (cap_offset + 0x30) 0x0004;
  mret cap_offset.

(** [while (256..4096).contains(&cap_offset)].  The loop does not end on a
    cyclic list; [None] is running out of fuel. *)
Fixpoint ext_cap_loop (fuel : nat) (c : PciConfig) (pos cap_offset end_pos : Z)
  : res PciError (option Z) :=
  if (PCI_CONFIG_SPACE_SIZE <=? cap_offset) && (cap_offset <? PCIE_CONFIG_SPACE_SIZE) then
    match fuel with
    | O => Ok None
    | S fuel =>
      header ← unwrap_res (le_read_u32 (config c) cap_offset);
      let next := pci_ext_cap_next header in
      ext_cap_loop fuel c pos next (if (pos <? next) && (next <? end_pos) then next else end_pos)
    end
  else Ok (Some end_pos).
Definition get_ext_cap_size (fuel : nat) (c : PciConfig) (pos : Z) : res PciError (option Z) :=
  end_pos ← ext_cap_loop fuel c pos PCI_CONFIG_SPACE_SIZE PCIE_CONFIG_SPACE_SIZE;
  Ok (option_map (fun e => wsub 64 e pos) end_pos).

Definition set_interrupt_pin : CM unit := mod_config INTERRUPT_PIN (fun _ => 0x01).

Definition revise_msix_vector (c : PciConfig) (vector_nr : Z) : bool :=
  match msix c with
  | None => false
  | Some m => vector_nr <? wrap 32 (Z.of_nat (length (table m)) / MSIX_TABLE_ENTRY_SIZE)
  end.

(** ** BAR mapping, reset and writes *)

Record PciEnv (L K H : Type) := mkPciEnv {
  pc : PciConfig;
  world : World L;
  irqs : KVMFds K;
  ienv : IntxEnv H
}.
Arguments mkPciEnv {L K H}.
Arguments pc {L K H}.
Arguments world {L K H}.
Arguments irqs {L K H}.
Arguments ienv {L K H}.

Section env.
Context {L K H : Type} `{!Listener L} `{!IrqKernel K} `{!IntxHandler H}.
Context (fuel : nat).

Abbreviation PM := (sres (PciEnv L K H) PciError).

Definition on_pc {A} (m : CM A) : PM A := fun e =>
  let '(c, r) := m (pc e) in (mkPciEnv c (world e) (irqs e) (ienv e), r).

(** A call on the region tree, its error replaced by [err]. *)
Definition on_world (m : sres (World L) AddressSpaceError unit) (err : PciError) : PM unit := fun e =>
  let '(w, r) := m (world e) in
  (mkPciEnv (pc e) w (irqs e) (ienv e),
   match r with Ok _ => Ok tt | Err _ => Err err | Panic => Panic end).

(** A call on the [Intx] and on the [Msix] of the function. *)
Definition on_intx (f : Intx -> sres (IntxEnv H) unit Intx) : PM unit := fun e =>
  match intx (pc e) with
  | None => (e, Ok tt)
  | Some i =>
    let '(x, r) := f i (ienv e) in
    match r with
    | Ok i => (mkPciEnv (with_intx (pc e) (Some i)) (world e) (irqs e) x, Ok tt)
    | _ => (mkPciEnv (pc e) (world e) (irqs e) x, Panic)
    end
  end.
Definition on_msix (f : sres (MsixEnv K) IrqError unit) : PM unit := fun e =>
  match msix (pc e) with
  | None => (e, Ok tt)
  | Some m =>
    let '(x, r) := f (mkMsixEnv m (irqs e)) in
    (mkPciEnv (with_msix (pc e) (Some (ms x))) (world e) (fds x) (ienv e),
     match r with Ok _ => Ok tt | Err _ => Err PBail | Panic => Panic end)
  end.

Definition get_bar (id : Z) : PM Bar := on_pc (rd (fun c => unwrap (bars c !! Z.to_nat id))).
Definition set_bar (id : Z) (f : Bar -> Bar) : PM unit :=
  on_pc (modify (fun c => with_bars c (alter f (Z.to_nat id) (bars c)))).
Definition set_address (a : Z) (b : Bar) : Bar :=
  mkBar (bar_type b) a (bar_size b) (bar_region b) (parent_io_region b) (parent_mem_region b).
Definition set_parent_io (p : rid) (b : Bar) : Bar :=
  mkBar (bar_type b) (address b) (bar_size b) (bar_region b) (Some p) (parent_mem_region b).
Definition set_parent_mem (p : rid) (b : Bar) : Bar :=
  mkBar (bar_type b) (address b) (bar_size b) (bar_region b) (parent_io_region b) (Some p).

Definition is_bar_region_empty (b : Bar) (io_region mem_region : option rid) : bool :=
  match bar_type b with
  | BarIo => bool_decide (io_region = None)
  | _ => bool_decide (mem_region = None)
  end.

(** The part of the loop body that unmaps a BAR that moved. *)
Definition unmap_bar (id : Z) : PM unit :=
  b ← get_bar id;
  if address b =? BAR_SPACE_UNMAPPED then mret tt
  else
    _ ← match bar_type b with
        | BarIo =>
          match parent_io_region b with
          | None => mret tt
          | Some p => r ← slift (unwrap (bar_region b)); on_world (delete_subregion fuel p r) PBail
          end
        | _ =>
          match parent_mem_region b with
          | None => mret tt
          | Some p => r ← slift (unwrap (bar_region b));
                      on_world (delete_subregion fuel p r) (UnregMemBar id)
          end
        end;
    set_bar id (set_address BAR_SPACE_UNMAPPED).

(** The part that maps it at its new address. *)
Definition map_bar (id new_addr : Z) (io_region mem_region : option rid) : PM unit :=
  b ← get_bar id;
  _ ← match bar_type b with
      | BarIo =>
        p ← slift (unwrap io_region); r ← slift (unwrap (bar_region b));
        _ ← on_world (add_subregion fuel p r new_addr) PBail;
        set_bar id (set_parent_io p)
      | _ =>
        p ← slift (unwrap mem_region); r ← slift (unwrap (bar_region b));
        _ ← on_world (add_subregion fuel p r new_addr) (UnregMemBar id);
        set_bar id (set_parent_mem p)
      end;
  set_bar id (set_address new_addr).

(** [for id in id..id+n]; a BAR whose parent region is not given ends the
    loop ([return Ok(())]). *)
Fixpoint update_bars (n : nat) (id : Z) (io_region mem_region : option rid) : PM unit :=
  match n with
  | O => mret tt
  | S n =>
    b ← get_bar id;
    if bar_size b =? 0 then update_bars n (id + 1) io_region mem_region
    else
      new_addr ← on_pc (rd (fun c => get_bar_address c id));
      if address b =? new_addr then update_bars n (id + 1) io_region mem_region
      else
        _ ← unmap_bar id;
        if is_bar_region_empty b io_region mem_region then mret tt
        else
          _ ← (if new_addr =? BAR_SPACE_UNMAPPED then mret tt
               else map_bar id new_addr io_region mem_region);
          update_bars n (id + 1) io_region mem_region
  end.
Definition update_bar_mapping (io_region mem_region : option rid) : PM unit :=
  e ← sget;
  update_bars (length (bars (pc e))) 0 io_region mem_region.

(** [unregister_bars], [for bar in self.bars.iter_mut()] *)
Fixpoint unregister_bar_loop (n : nat) (id : Z) (bus_io bus_mem : rid) : PM unit :=
  match n with
  | O => mret tt
  | S n =>
    b ← get_bar id;
    if (address b =? BAR_SPACE_UNMAPPED) || (bar_size b =? 0) then
      unregister_bar_loop n (id + 1) bus_io bus_mem
    else
      _ ← match bar_region b with
          | None => mret tt
          | Some r =>
            on_world (delete_subregion fuel (match bar_type b with BarIo => bus_io | _ => bus_mem end) r)
              PBail
          end;
      _ ← set_bar id (fun b => mkBar (bar_type b) (address b) (bar_size b) None
                                 (parent_io_region b) (parent_mem_region b));
      unregister_bar_loop n (id + 1) bus_io bus_mem
  end.
Definition unregister_bars (bus_io bus_mem : rid) : PM unit :=
  e ← sget;
  unregister_bar_loop (length (bars (pc e))) 0 bus_io bus_mem.

(** What follows the byte loop of [write]. *)
Definition after_write (offset : Z) (data : list Z) (dev_id : Z) (io_region mem_region : option rid)
  : PM unit :=
  h ← on_pc (rd (fun c => byte_at (config c) HEADER_TYPE));
  let '(bar_num, rom_addr) :=
    if Z.land h HEADER_TYPE_BRIDGE =? HEADER_TYPE_BRIDGE
    then (BAR_NUM_MAX_FOR_BRIDGE, ROM_ADDRESS_BRIDGE)
    else (BAR_NUM_MAX_FOR_ENDPOINT, ROM_ADDRESS_ENDPOINT) in
  let size := Z.of_nat (length data) in
  cmd_overlap ← slift (overlap offset size COMMAND 1);
  bar_overlap ← slift (overlap offset size BAR_0 (REG_SIZE * bar_num));
  rom_overlap ← slift (overlap offset size rom_addr 4);
  _ ← (if cmd_overlap || bar_overlap || rom_overlap
       then signore (update_bar_mapping io_region mem_region) else mret tt);
  _ ← (if (cmd_overlap : bool) then
         cmd ← on_pc (rd (fun c => unwrap_res (le_read_u16 (config c) COMMAND)));
         on_intx (fun i => follow_command i (Z.land cmd COMMAND_INTERRUPT_DISABLE =? 0))
       else mret tt);
  e ← sget;
  match msix (pc e) with
  | None => mret tt
  | Some m =>
    en ← slift (unwrap_res (is_msix_enabled (msix_cap_offset m) (config (pc e))));
    _ ← (if (en : bool) then on_intx (fun i => Intx.notify i 0) else mret tt);
    on_msix (write_config (config (pc e)) dev_id offset data)
  end.

Definition write (offset : Z) (data : list Z) (dev_id : Z) (io_region mem_region : option rid)
  : PM unit := fun e =>
  match validate_config_boundary (pc e) offset (Z.of_nat (length data)) with
  | Err _ => (e, Ok tt)
  | Panic => (e, Panic)
  | Ok _ =>
    (_ ← on_pc (write_bytes data offset);
     after_write offset data dev_id io_region mem_region) e
  end.

Definition reset : PM unit :=
  _ ← on_intx (fun i => Intx.reset i);
  _ ← on_pc reset_common_regs;
  _ ← signore (update_bar_mapping None None);
  on_msix (Msix.update Msix.reset).
End env.

(** ** Setting up interrupts *)

(** What [init_intx] asks of the parent bus: the devfn and INTx state of the
    bridge above it (the inner [None] is a bridge that is gone), and the INTx
    state of the bus itself. *)
Record BusIntx := mkBusIntx {
  parent_bridge : option (option (Z * option xid));
  bus_intx_state : option xid
}.

Definition intx_route (bus : option BusIntx) (devfn pin : Z) : res PciError (Z * option xid) :=
  match bus with
  | None => Ok (U32_MAX, None)
  | Some b =>
    match parent_bridge b with
    | Some up => br ← unwrap up; Ok (swizzle_map_irq br.1 pin, br.2)
    | None => match bus_intx_state b with
              | Some x => Ok (swizzle_map_irq devfn pin, Some x)
              | None => Ok (U32_MAX, None)
              end
    end
  end.

Definition init_intx (name : string) (bus : option BusIntx) (devfn : Z) : CM unit :=
  p ← rd (fun c => byte_at (config c) INTERRUPT_PIN);
  if p =? 0 then modify (fun c => with_intx c (Some (Intx_new name U32_MAX None)))
  else
    r ← slift (intx_route bus devfn (p - 1));
    modify (fun c => with_intx c (Some (Intx_new name r.1 r.2))).

Definition next_power_of_two (x : Z) : Z := 2 ^ Z.log2_up x.

Section init_msix.
Context {L K H : Type} `{!Listener L} `{!IrqKernel K} `{!IntxHandler H}.
Context (fuel : nat).

Abbreviation PM := (sres (PciEnv L K H) PciError).

(** The two I/O regions, under the fresh names [t] and [p]. *)
Definition register_memory_region (m : Msix) (region t p : rid) (table_offset pba_offset : Z) : PM unit :=
  _ ← on_world (set_region t (init_io_region (Z.of_nat (length (table m))))) PBail;
  _ ← on_world (add_subregion fuel region t table_offset) PBail;
  _ ← on_world (set_region p (init_io_region (Z.of_nat (length (pba m))))) PBail;
  on_world (add_subregion fuel region p pba_offset) PBail.

(** [t], [p] and [bar] name the regions created. *)
Definition init_msix (bar_id vector_nr dev_id : Z) (t p bar : rid) (parent_region : option rid)
    (offset_opt : option (Z * Z)) : PM unit :=
  if (vector_nr =? 0) || (MSIX_TABLE_SIZE_MAX + 1 <? vector_nr) then sfail PBail
  else
    cap ← on_pc (add_pci_cap CapId_Msix MSIX_CAP_SIZE);
    _ ← on_pc (wr_config 2 (cap + MSIX_CAP_CONTROL) (wsub 16 (wrap 16 vector_nr) 1));
    _ ← on_pc (wr_mask 2 (cap + MSIX_CAP_CONTROL) (Z.lor MSIX_CAP_FUNC_MASK MSIX_CAP_ENABLE));
    let table_size := wmul 32 vector_nr MSIX_TABLE_ENTRY_SIZE in
    up ← slift (unwrap_res (round_up vector_nr 64));
    let pba_size := wrap 32 (up / 64 * 8) in
    let '(table_offset, pba_offset) := default (0, table_size) offset_opt in
    ov ← slift (overlap table_offset table_size pba_offset pba_size);
    if (ov : bool) then sfail PBail
    else
      _ ← on_pc (wr_config 4 (cap + MSIX_CAP_TABLE) (Z.lor table_offset (wrap 32 bar_id)));
      _ ← on_pc (wr_config 4 (cap + MSIX_CAP_PBA) (Z.lor pba_offset (wrap 32 bar_id)));
      m ← slift (unwrap_res (Msix_new table_size pba_size (wrap 16 cap) dev_id));
      _ ← match parent_region with
          | Some region => register_memory_region m region t p table_offset pba_offset
          | None =>
            let size := Z.max (next_power_of_two (wadd 32 table_size pba_size)) MINIMUM_BAR_SIZE_FOR_MMIO in
            _ ← on_world (set_region bar (init_container_region size)) PBail;
            _ ← register_memory_region m bar t p table_offset pba_offset;
            on_pc (register_bar bar_id bar Mem32Bit false size)
          end;
      on_pc (modify (fun c => with_msix c (Some m))).
End init_msix.

(** * Theorems *)

(** ** The three byte vectors *)

Definition pci_wf (c : PciConfig) : Prop :=
  PCI_CONFIG_SPACE_SIZE <= Z.of_nat (length (config c)) <= PCIE_CONFIG_SPACE_SIZE /\
  length (write_mask c) = length (config c) /\ length (write_clear_mask c) = length (config c) /\
  is_bytes (config c) /\ is_bytes (write_mask c) /\ is_bytes (write_clear_mask c).

Definition with_bytes (c : PciConfig) (x : list Z) : Prop :=
  length x = length (config c) /\ is_bytes x.

Lemma pci_wf_config c x : pci_wf c -> with_bytes c x -> pci_wf (with_config c x).
Proof. intros (? & ? & ? & ? & ? & ?) [Hl ?]. unfold pci_wf. simpl. rewrite Hl. done. Qed.
Lemma pci_wf_mask c x : pci_wf c -> with_bytes c x -> pci_wf (with_write_mask c x).
Proof. intros (? & ? & ? & ? & ? & ?) [Hl ?]. unfold pci_wf. simpl. rewrite Hl. done. Qed.

Lemma bytes_insert l i b : is_bytes l -> is_u8 b -> is_bytes (<[i := b]> l).
Proof. intros. by apply Forall_insert. Qed.

Lemma byte_lookup l off :
  is_bytes l -> 0 <= off < Z.of_nat (length l) ->
  exists b, l !! Z.to_nat off = Some b /\ is_u8 b.
Proof.
  intros Hl Hoff. destruct (lookup_lt_is_Some_2 l (Z.to_nat off)) as [b Hb]; [lia|].
  exists b. split; [done|]. unfold is_bytes in Hl. rewrite Forall_lookup in Hl. by eapply Hl.
Qed.

(** One bit of a written byte: [d] is the data, [o] the old bit, [m] and [w]
    the write and the write-clear mask. *)
Definition written_bit (d o m w : bool) : bool := ((o && negb m) || (d && m)) && negb (d && w).

Lemma written_byte_testbit d o m w k :
  is_u8 d -> is_u8 o -> is_u8 m -> is_u8 w -> 0 <= k < 8 ->
  Z.testbit (Z.land (Z.lor (Z.land o (wnot 8 m)) (Z.land d m)) (wnot 8 (Z.land d w))) k =
    written_bit (Z.testbit d k) (Z.testbit o k) (Z.testbit m k) (Z.testbit w k).
Proof.
  intros ? ? ? ? ?. unfold written_bit.
  rewrite Z.land_spec, Z.lor_spec, !Z.land_spec, !wnot_testbit by (done || lia || by apply land_inW).
  by rewrite Z.land_spec.
Qed.

Lemma written_byte_u8 d o m w :
  is_u8 d -> is_u8 o -> is_u8 m -> is_u8 w ->
  is_u8 (Z.land (Z.lor (Z.land o (wnot 8 m)) (Z.land d m)) (wnot 8 (Z.land d w))).
Proof.
  intros. apply land_inW; [done|]. by apply lor_inW; [done|apply land_inW..].
Qed.

Lemma bit_of_cons b l j :
  is_u8 b -> is_bytes l -> 0 <= j ->
  bit_of (b :: l) j = if j <? 8 then Z.testbit b j else bit_of l (j - 8).
Proof.
  intros Hb Hl Hj. unfold bit_of. assert (is_bytes (b :: l)) by (by constructor).
  rewrite le_val_testbit by done. pose proof (Z.div_pos j 8).
  destruct (Z.ltb_spec j 8).
  - by rewrite Z.div_small, Z.mod_small by lia.
  - rewrite le_val_testbit by (done || lia).
    pose proof (Z.div_add (j - 8) 1 8) as Hd. pose proof (Z.mod_add (j - 8) 1 8) as Hm.
    replace (j - 8 + 1 * 8) with j in Hd, Hm by lia. rewrite Hd, Hm by lia.
    pose proof (Z.div_pos (j - 8) 8).
    by replace (Z.to_nat ((j - 8) / 8 + 1)) with (S (Z.to_nat ((j - 8) / 8))) by lia.
Qed.

(** The configuration bits after the byte loop. *)
Definition new_bit (c : PciConfig) (data : list Z) (off j : Z) : bool :=
  if (8 * off <=? j) && (j <? 8 * (off + Z.of_nat (length data))) then
    written_bit (bit_of data (j - 8 * off)) (bit_of (config c) j) (bit_of (write_mask c) j)
      (bit_of (write_clear_mask c) j)
  else bit_of (config c) j.

(** One turn of the loop. *)
Lemma new_bit_step c d data off o m w j :
  pci_wf c -> is_u8 d -> is_bytes data -> 0 <= off -> 0 <= j ->
  config c !! Z.to_nat off = Some o -> write_mask c !! Z.to_nat off = Some m ->
  write_clear_mask c !! Z.to_nat off = Some w ->
  new_bit (with_config c (<[Z.to_nat off := Z.land (Z.lor (Z.land o (wnot 8 m)) (Z.land d m))
                                              (wnot 8 (Z.land d w))]> (config c))) data (off + 1) j =
  new_bit c (d :: data) off j.
Proof.
  intros (? & Hlm & Hlw & Hbc & Hbm & Hbw) Hd8 Hd Hoff Hj Ho Hm Hw.
  assert (is_u8 o /\ is_u8 m /\ is_u8 w) as (? & ? & ?).
  { unfold is_bytes in *. rewrite Forall_lookup in Hbc, Hbm, Hbw. split_and!; eauto. }
  pose proof (lookup_lt_Some _ _ _ Ho). unfold new_bit.
  cbn [config with_config write_mask write_clear_mask length].
  rewrite bit_of_insert by (done || by apply written_byte_u8). rewrite Z2Nat.id by lia.
  pose proof (Z.div_mod j 8). pose proof (Z.mod_pos_bound j 8).
  destruct (Z.eqb_spec (j / 8) off) as [Heq|Hne].
  - destruct (Z.leb_spec (8 * (off + 1)) j); [lia|]. cbn [andb].
    destruct (Z.leb_spec (8 * off) j); [|lia].
    destruct (Z.ltb_spec j (8 * (off + Z.of_nat (S (length data))))); [|lia]. cbn [andb].
    rewrite bit_of_cons by (done || lia). destruct (Z.ltb_spec (j - 8 * off) 8); [|lia].
    rewrite written_byte_testbit by (done || lia).
    replace (j - 8 * off) with (j `mod` 8) by lia.
    assert (forall l b, is_bytes l -> l !! Z.to_nat off = Some b -> bit_of l j = Z.testbit b (j `mod` 8))
      as Hbit by (intros l b Hl Hb; rewrite <-(bit_of_byte l off) by (done || lia); f_equal; lia).
    by rewrite (Hbit _ o Hbc Ho), (Hbit _ m Hbm Hm), (Hbit _ w Hbw Hw).
  - destruct (Z.leb_spec (8 * (off + 1)) j).
    + destruct (Z.leb_spec (8 * off) j); [|lia]. cbn [andb].
      replace (off + 1 + Z.of_nat (length data)) with (off + Z.of_nat (S (length data))) by lia.
      destruct (_ <? _); [|done]. rewrite bit_of_cons by (done || lia).
      destruct (Z.ltb_spec (j - 8 * off) 8); [lia|].
      by replace (j - 8 * off - 8) with (j - 8 * (off + 1)) by lia.
    + cbn [andb]. destruct (Z.leb_spec (8 * off) j); [lia|done].
Qed.

Lemma write_bytes_ok data : forall off c,
  pci_wf c -> is_bytes data -> 0 <= off ->
  off + Z.of_nat (length data) <= Z.of_nat (length (config c)) ->
  exists x, write_bytes data off c = (with_config c x, Ok tt) /\ with_bytes c x /\
    forall j, 0 <= j -> bit_of x j = new_bit c data off j.
Proof.
  induction data as [|d data IH]; intros off c Hwf Hd Hoff Hfit; cbn [write_bytes].
  { exists (config c). split_and!; [by destruct c|by split; [|apply Hwf]|].
    intros j ?. unfold new_bit. cbn [length]. zcases; done || lia. }
  pose proof Hwf as (? & Hlm & Hlw & Hbc & Hbm & Hbw). cbn [length] in Hfit.
  apply Forall_cons in Hd as [Hd8 Hd].
  destruct (byte_lookup (config c) off) as (o & Ho & ?); [done|lia|].
  destruct (byte_lookup (write_mask c) off) as (m & Hm & ?); [done|lia|].
  destruct (byte_lookup (write_clear_mask c) off) as (w & Hw & ?); [done|lia|].
  rewrite (sres_step _ _ c c m) by (unfold rd, byte_at; by rewrite Hm).
  rewrite (sres_step _ _ c c w) by (unfold rd, byte_at; by rewrite Hw).
  erewrite sres_step by (unfold mod_config, mod_byte; by rewrite Ho).
  erewrite sres_step.
  2:{ unfold mod_config, mod_byte. cbn [config with_config].
      rewrite list_lookup_insert_eq by lia. by rewrite list_insert_insert_eq. }
  set (b := Z.land (Z.lor (Z.land o (wnot 8 m)) (Z.land d m)) (wnot 8 (Z.land d w))).
  assert (is_u8 b) as Hb by (by apply written_byte_u8).
  set (c1 := with_config c (<[Z.to_nat off := b]> (config c))).
  destruct (IH (off + 1) c1) as (x & Hx & [Hxl Hxb] & Hbits); [|done|lia| |].
  { apply pci_wf_config; [done|]. split; [apply length_insert|by apply bytes_insert]. }
  { simpl. rewrite length_insert. lia. }
  exists x. split_and!; [exact Hx|split; [|done]; simpl in Hxl; by rewrite length_insert in Hxl|].
  intros j Hj. rewrite Hbits by done. by apply new_bit_step.
Qed.

(** ** What the side effects of a write leave alone *)

Section frame.
Context {L K H : Type} `{!Listener L} `{!IrqKernel K} `{!IntxHandler H}.
Context (fuel : nat).

Abbreviation Env := (PciEnv L K H).

(** The byte vectors, the number and sizes of the BARs and their types. *)
Definition same_bytes (c c' : PciConfig) : Prop :=
  config c' = config c /\ write_mask c' = write_mask c /\ write_clear_mask c' = write_clear_mask c /\
  (bar_type <$> bars c') = (bar_type <$> bars c) /\ (bar_size <$> bars c') = (bar_size <$> bars c).
Definition bytes_rel (e e' : Env) : Prop := same_bytes (pc e) (pc e').

#[local] Instance bytes_rel_refl : Reflexive bytes_rel.
Proof. intros e. by split_and!. Qed.
#[local] Instance bytes_rel_trans : Transitive bytes_rel.
Proof. intros e1 e2 e3 (? & ? & ? & ? & ?) (? & ? & ? & ? & ?). split_and!; congruence. Qed.

Lemma bytes_read {A} (f : PciConfig -> res PciError A) : srel bytes_rel (on_pc (rd f)).
Proof. intros e. by split_and!. Qed.
Lemma bytes_get : srel bytes_rel (sget (S := Env) (E := PciError)).
Proof. intros e. by split_and!. Qed.
Lemma bytes_world m err : srel bytes_rel (on_world m err).
Proof. intros e. unfold on_world. by destruct (m (world e)). Qed.
Lemma bytes_intx f : srel bytes_rel (on_intx f).
Proof.
  intros e. unfold on_intx. destruct (intx (pc e)) as [i|]; [|reflexivity].
  destruct (f i (ienv e)) as [x [|?|]]; done.
Qed.
Lemma bytes_msix f : srel bytes_rel (on_msix f).
Proof.
  intros e. unfold on_msix. destruct (msix (pc e)) as [m|]; [|reflexivity].
  by destruct (f (mkMsixEnv m (irqs e))) as [x r].
Qed.
Lemma bytes_ignore (m : sres Env PciError unit) : srel bytes_rel m -> srel bytes_rel (signore m).
Proof. intros Hm e. specialize (Hm e). unfold signore. by destruct (m e) as [e' []]. Qed.

Lemma bytes_bar id f :
  (forall b, bar_type (f b) = bar_type b /\ bar_size (f b) = bar_size b) -> srel bytes_rel (set_bar id f).
Proof.
  intros Hf e. unfold bytes_rel, same_bytes. simpl. split_and!; try done;
    apply list_eq; intros i; rewrite !list_lookup_fmap, list_lookup_alter;
    (case_decide; [subst i|done]);
    (destruct (bars (pc e) !! Z.to_nat id) as [b|]; simpl; [f_equal; apply Hf|done]).
Qed.

Ltac bytes_step :=
  first [ apply (srel_bind _); [|intros ?] | apply (srel_ret _) | apply (srel_lift _)
        | apply bytes_read | apply bytes_get | apply bytes_world | apply bytes_intx
        | apply bytes_msix | (apply bytes_bar; by intros []) ].

Lemma unmap_bar_bytes id : srel bytes_rel (unmap_bar fuel id).
Proof.
  unfold unmap_bar, get_bar. bytes_step; [bytes_step|]. destruct (_ =? _); [bytes_step|].
  bytes_step; [|bytes_step]. destruct (bar_type _).
  - destruct (parent_io_region _); repeat bytes_step.
  - destruct (parent_mem_region _); repeat bytes_step.
  - destruct (parent_mem_region _); repeat bytes_step.
Qed.

Lemma map_bar_bytes id a io mem : srel bytes_rel (map_bar fuel id a io mem).
Proof.
  unfold map_bar, get_bar. bytes_step; [bytes_step|]. bytes_step; [|bytes_step].
  destruct (bar_type _); repeat bytes_step.
Qed.

Lemma update_bars_bytes n io mem : forall id, srel bytes_rel (update_bars fuel n id io mem).
Proof.
  induction n as [|n IH]; intros id; cbn [update_bars]; [bytes_step|].
  unfold get_bar at 1. bytes_step; [bytes_step|]. destruct (_ =? 0); [apply IH|].
  bytes_step; [bytes_step|]. destruct (_ =? _); [apply IH|].
  bytes_step; [apply unmap_bar_bytes|]. destruct (is_bar_region_empty _ _ _); [bytes_step|].
  bytes_step; [|apply IH]. destruct (_ =? _); [bytes_step|apply map_bar_bytes].
Qed.

Lemma update_bar_mapping_bytes io mem : srel bytes_rel (update_bar_mapping fuel io mem).
Proof. unfold update_bar_mapping. bytes_step; [bytes_step|apply update_bars_bytes]. Qed.

Lemma after_write_bytes off data dev io mem :
  srel bytes_rel (after_write fuel off data dev io mem).
Proof.
  unfold after_write. bytes_step; [bytes_step|].
  destruct (if _ =? HEADER_TYPE_BRIDGE then _ else _) as [bar_num rom_addr].
  do 3 (bytes_step; [bytes_step|]). bytes_step.
  { destruct (_ || _); [apply bytes_ignore, update_bar_mapping_bytes|bytes_step]. }
  bytes_step; [destruct (_ : bool); repeat bytes_step|]. bytes_step; [bytes_step|].
  destruct (msix _); [|bytes_step]. bytes_step; [bytes_step|].
  bytes_step; [destruct (_ : bool); bytes_step|bytes_step].
Qed.

Lemma validate_ok c off len :
  0 <= off -> 0 <= len <= 4 -> off + len <= Z.of_nat (length (config c)) -> pci_wf c ->
  validate_config_boundary c off len = Ok tt.
Proof.
  intros ? ? ? ([_ ?] & _). unfold validate_config_boundary, checked_add, PCIE_CONFIG_SPACE_SIZE in *.
  destruct (Z.ltb_spec 4 len); [lia|]. destruct (Z.ltb_spec (off + len) (2 ^ 64)); [|lia].
  destruct (Z.leb_spec (off + len) (Z.of_nat (length (config c)))); [done|lia].
Qed.

Lemma validate_err c off len :
  0 <= off -> 0 <= len -> 4 < len \/ Z.of_nat (length (config c)) < off + len ->
  validate_config_boundary c off len = Err InvalidConf.
Proof.
  intros ? ? Hbad. unfold validate_config_boundary, checked_add.
  destruct (Z.ltb_spec 4 len); [done|]. destruct (Z.ltb_spec (off + len) (2 ^ 64)); [|done].
  destruct (Z.leb_spec (off + len) (Z.of_nat (length (config c)))); [lia|done].
Qed.

(** The configuration after a guest write, whatever becomes of its side
    effects. *)
Lemma write_bits e off data dev io mem :
  pci_wf (pc e) -> is_bytes data -> 0 <= off -> Z.of_nat (length data) <= 4 ->
  off + Z.of_nat (length data) <= Z.of_nat (length (config (pc e))) ->
  let c' := pc (write fuel off data dev io mem e).1 in
  pci_wf c' /\ write_mask c' = write_mask (pc e) /\
  write_clear_mask c' = write_clear_mask (pc e) /\
  (bar_type <$> bars c') = (bar_type <$> bars (pc e)) /\
  (bar_size <$> bars c') = (bar_size <$> bars (pc e)) /\
  forall j, 0 <= j -> bit_of (config c') j = new_bit (pc e) data off j.
Proof.
  intros Hwf Hd Hoff Hl Hfit. unfold write. rewrite validate_ok by (done || lia).
  destruct (write_bytes_ok data off (pc e) Hwf Hd Hoff Hfit) as (x & Hx & Hxb & Hbits).
  erewrite sres_step by (unfold on_pc; by rewrite Hx).
  set (e1 := mkPciEnv _ _ _ _).
  destruct (after_write_bytes off data dev io mem e1) as (Hc & Hm & Hw & Ht & Hs).
  cbn zeta. set (c' := pc _) in *. cbn [e1 pc with_config config write_mask write_clear_mask bars] in *.
  split_and!; try done; [|intros; by rewrite Hc, Hbits].
  destruct Hwf as (? & ? & ? & ? & ? & ?), Hxb as [Hxl ?].
  unfold pci_wf. rewrite Hc, Hm, Hw, Hxl. done.
Qed.
End frame.

(** ** Sequences of guest writes *)

Record GuestWrite := mkGuestWrite {
  gw_offset : Z;
  gw_data : list Z;
  gw_dev_id : Z;
  gw_io : option rid;
  gw_mem : option rid
}.
Definition gw_ok (g : GuestWrite) : Prop := 0 <= gw_offset g /\ is_bytes (gw_data g).

Section writes.
Context {L K H : Type} `{!Listener L} `{!IrqKernel K} `{!IntxHandler H}.
Context (fuel : nat).

Definition one_write (e : PciEnv L K H) (g : GuestWrite) : PciEnv L K H :=
  (write fuel (gw_offset g) (gw_data g) (gw_dev_id g) (gw_io g) (gw_mem g) e).1.
Definition guest_writes (gs : list GuestWrite) (e : PciEnv L K H) : PciEnv L K H :=
  foldl one_write e gs.

Lemma one_write_refused e g :
  gw_ok g -> 4 < Z.of_nat (length (gw_data g)) \/
    Z.of_nat (length (config (pc e))) < gw_offset g + Z.of_nat (length (gw_data g)) ->
  write fuel (gw_offset g) (gw_data g) (gw_dev_id g) (gw_io g) (gw_mem g) e = (e, Ok tt).
Proof. intros [? ?] ?. unfold write. by rewrite validate_err by (done || lia). Qed.

(** Masks, BAR types and sizes never change; a bit with no mask keeps its
    value. *)
Definition keeps (c c' : PciConfig) : Prop :=
  pci_wf c' /\ write_mask c' = write_mask c /\ write_clear_mask c' = write_clear_mask c /\
  (bar_type <$> bars c') = (bar_type <$> bars c) /\ (bar_size <$> bars c') = (bar_size <$> bars c) /\
  length (config c') = length (config c) /\
  forall j, 0 <= j -> bit_of (write_mask c) j = false -> bit_of (write_clear_mask c) j = false ->
    bit_of (config c') j = bit_of (config c) j.

Lemma one_write_keeps e g : pci_wf (pc e) -> gw_ok g -> keeps (pc e) (pc (one_write e g)).
Proof.
  intros Hwf Hg. unfold one_write.
  destruct (decide (4 < Z.of_nat (length (gw_data g)) \/
    Z.of_nat (length (config (pc e))) < gw_offset g + Z.of_nat (length (gw_data g)))) as [Hbad|Hgood].
  { rewrite one_write_refused by done. by split_and!. }
  destruct Hg as [? ?].
  destruct (write_bits fuel e (gw_offset g) (gw_data g) (gw_dev_id g) (gw_io g) (gw_mem g))
    as (Hwf' & Hm & Hw & Ht & Hs & Hb); try done; try lia.
  split_and!; try done.
  - destruct Hwf as (_ & Hl & _), Hwf' as (_ & Hl' & _). congruence.
  - intros j ? Hmj Hwj. rewrite Hb by done. unfold new_bit, written_bit. rewrite Hmj, Hwj.
    destruct (_ && _); [|done]. by rewrite !andb_false_r, orb_false_r, !andb_true_r.
Qed.

Lemma guest_writes_keep gs : forall e,
  pci_wf (pc e) -> Forall gw_ok gs -> keeps (pc e) (pc (guest_writes gs e)).
Proof.
  induction gs as [|g gs IH]; intros e Hwf Hgs; [by split_and!|].
  apply Forall_cons in Hgs as [Hg Hgs]. cbn [guest_writes foldl].
  destruct (one_write_keeps e g Hwf Hg) as (Hwf1 & Hm & Hw & Ht & Hs & Hl & Hb).
  destruct (IH (one_write e g) Hwf1 Hgs) as (? & Hm' & Hw' & Ht' & Hs' & Hl' & Hb').
  fold (guest_writes gs (one_write e g)).
  split_and!; [done|congruence..|]. intros j ? Hmj Hwj.
  rewrite Hb', Hb by (done || congruence). done.
Qed.
End writes.

(** ** Properties of writes *)

(** A guest write.  In bounds and of at most four bytes, every bit of the
    window becomes the data bit where it is writable, keeps its value where it
    is not, and is cleared where a one is written to a write-one-to-clear bit;
    bits outside the window and the masks do not change, whatever the BAR
    mapping and interrupt side effects do.  Any other write changes nothing. *)
Theorem pci_write_effect {L K H} `{!Listener L} `{!IrqKernel K} `{!IntxHandler H}
    fuel (e : PciEnv L K H) off data dev io mem :
  pci_wf (pc e) -> is_bytes data -> 0 <= off ->
  let n := Z.of_nat (length data) in
  let c' := pc (write fuel off data dev io mem e).1 in
  (n <= 4 -> off + n <= Z.of_nat (length (config (pc e))) ->
     write_mask c' = write_mask (pc e) /\ write_clear_mask c' = write_clear_mask (pc e) /\
     forall j, 0 <= j -> bit_of (config c') j =
       if (8 * off <=? j) && (j <? 8 * (off + n)) then
         let d := bit_of data (j - 8 * off) in
         (if bit_of (write_mask (pc e)) j then d else bit_of (config (pc e)) j) &&
         negb (d && bit_of (write_clear_mask (pc e)) j)
       else bit_of (config (pc e)) j) /\
  (4 < n \/ Z.of_nat (length (config (pc e))) < off + n ->
     write fuel off data dev io mem e = (e, Ok tt)).
Proof.
  intros Hwf Hd Hoff n c'. split.
  - intros Hn Hfit. destruct (write_bits fuel e off data dev io mem) as (_ & Hm & Hw & _ & _ & Hb); try done.
    split_and!; try done. intros j Hj. fold c' in Hb. rewrite Hb by done.
    unfold new_bit, written_bit. fold n. destruct (_ && _); [|done]. cbn zeta. f_equal.
    destruct (bit_of (write_mask (pc e)) j); cbn [negb];
      by rewrite ?andb_false_r, ?andb_true_r, ?orb_false_l, ?orb_false_r.
  - intros Hbad. apply (one_write_refused fuel e (mkGuestWrite off data dev io mem)); [done|].
    exact Hbad.
Qed.

Definition ex_pci : PciConfig :=
  (init_common_write_clear_mask (init_common_write_mask (PciConfig_new 256 2)).1).1.
Definition ex_pci_env : PciEnv Log LogKernel (gmap Z bool) :=
  mkPciEnv ex_pci ex_world ex_fds (mkIntxEnv ∅ ∅).

Lemma ex_pci_wf : pci_wf ex_pci.
Proof.
  assert (forall l : list Z, forallb (fun b => (0 <=? b) && (b <? 256)) l = true -> is_bytes l) as Hall.
  { intros l Hl. apply Forall_forall. intros b Hb%list_elem_of_In.
    rewrite forallb_forall in Hl. specialize (Hl b Hb). unfold inW. lia. }
  split_and!; try (apply Hall); vm_compute; done.
Qed.

Example pci_write_effect_witness :
  write 1 4 [1; 2; 3; 4; 5] 0 None None ex_pci_env = (ex_pci_env, Ok tt).
Proof.
  apply (pci_write_effect 1 ex_pci_env 4 [1; 2; 3; 4; 5] 0 None None); [apply ex_pci_wf| |done|by left].
  repeat constructor; done.
Defined.

(** C18: Read-only bits.  No sequence of guest writes changes a bit that is
    neither writable nor write-one-to-clear, the masks, or the types and sizes
    of the BARs. *)
Theorem guest_writes_keep_readonly {L K H} `{!Listener L} `{!IrqKernel K} `{!IntxHandler H}
    fuel (e : PciEnv L K H) gs :
  pci_wf (pc e) -> Forall gw_ok gs ->
  let c := pc e in let c' := pc (guest_writes fuel gs e) in
  write_mask c' = write_mask c /\ write_clear_mask c' = write_clear_mask c /\
  (bar_type <$> bars c') = (bar_type <$> bars c) /\ (bar_size <$> bars c') = (bar_size <$> bars c) /\
  forall j, 0 <= j -> bit_of (write_mask c) j = false -> bit_of (write_clear_mask c) j = false ->
    bit_of (config c') j = bit_of (config c) j.
Proof.
  intros Hwf Hgs. destruct (guest_writes_keep fuel gs e Hwf Hgs) as (_ & ? & ? & ? & ? & _ & ?).
  by split_and!.
Qed.

(** The vendor id survives. *)
Example guest_writes_keep_readonly_witness :
  let gs := [mkGuestWrite 0 [0xff; 0xff; 0xff; 0xff] 0 None None] in
  bit_of (config (pc (guest_writes 1 gs ex_pci_env))) 5 = bit_of (config (pc ex_pci_env)) 5.
Proof.
  intros gs. assert (Forall gw_ok gs) as Hgs by (repeat constructor; done).
  assert (bit_of (write_mask (pc ex_pci_env)) 5 = false) as Hm by (vm_compute; reflexivity).
  assert (bit_of (write_clear_mask (pc ex_pci_env)) 5 = false) as Hw by (vm_compute; reflexivity).
  pose proof (guest_writes_keep_readonly 1 ex_pci_env gs ex_pci_wf Hgs) as H. cbv zeta in H.
  destruct H as (_ & _ & _ & _ & Hb). exact (Hb 5 ltac:(lia) Hm Hw).
Defined.

(** ** The capability list *)

(** [l] is the list of capabilities that starts at [off]. *)
Fixpoint cap_chain (c : PciConfig) (off : Z) (l : list Z) : Prop :=
  match l with
  | [] => off = 0
  | o :: l => off = o /\ PCI_CONFIG_HEAD_END <= o < 255 /\
              exists next, config c !! Z.to_nat (o + 1) = Some next /\ cap_chain c next l
  end.

(** The list headed by [CAP_LIST] is [l]; new capabilities go after it. *)
Definition caps_ok (c : PciConfig) (l : list Z) : Prop :=
  pci_wf c /\
  (exists h, config c !! Z.to_nat CAP_LIST = Some h /\ cap_chain c h l) /\ NoDup l /\
  Forall (fun o => o + 2 <= last_cap_end c) l /\
  PCI_CONFIG_HEAD_END <= last_cap_end c <= PCI_CONFIG_SPACE_SIZE /\ last_cap_end c `mod` 4 = 0.

Definition cap_at (c : PciConfig) (o : Z) : Z := default 0 (config c !! Z.to_nat o).
(** The first capability of the list with this id, or [0xff]. *)
Fixpoint first_cap (c : PciConfig) (id : Z) (l : list Z) : Z :=
  match l with [] => 0xff | o :: l => if cap_at c o =? id then o else first_cap c id l end.

Lemma cap_chain_range c l : forall off,
  cap_chain c off l -> Forall (fun o => PCI_CONFIG_HEAD_END <= o < 255) l.
Proof.
  induction l as [|o l IH]; intros off; [constructor|]. intros (_ & ? & next & _ & Hl).
  constructor; [done|]. by eapply IH.
Qed.

(** Distinct byte values: at most 256 of them. *)
Lemma bytes_NoDup_length l : NoDup l -> is_bytes l -> (length l <= 256)%nat.
Proof.
  intros Hnd Hb. assert (l ⊆+ ztab id 0 256) as Hsub.
  { apply NoDup_submseteq; [done|]. intros x Hx. unfold is_bytes in Hb. rewrite Forall_forall in Hb.
    specialize (Hb x Hx). unfold inW in Hb. apply list_elem_of_lookup. exists (Z.to_nat x).
    rewrite ztab_lookup by lia. f_equal. unfold id. lia. }
  apply submseteq_length in Hsub. by rewrite ztab_length in Hsub.
Qed.

Lemma byte_at_ok l off :
  is_bytes l -> 0 <= off < Z.of_nat (length l) -> exists b, byte_at l off = Ok b /\ is_u8 b.
Proof.
  intros Hl Hoff. destruct (byte_lookup l off Hl Hoff) as (b & Hb & ?). exists b.
  unfold byte_at. by rewrite Hb.
Qed.

Lemma find_cap_loop_total c id fuel : forall off seen,
  pci_wf c -> 256 < Z.of_nat (length (config c)) -> is_u8 off ->
  NoDup seen -> is_bytes seen -> (257 <= fuel + length seen)%nat ->
  exists o, find_cap_loop fuel c id off seen = Ok o /\
    (o = 0xff \/ byte_at (config c) o = Ok id).
Proof.
  induction fuel as [|fuel IH]; intros off seen Hwf Hlen Hoff Hnd Hb Hf; cbn [find_cap_loop];
    pose proof Hwf as (_ & _ & _ & Hbc & _); unfold inW in Hoff;
    (destruct (byte_at_ok (config c) off) as (cap & Hcap & _); [done|lia|]);
    (destruct (byte_at_ok (config c) (off + NEXT_CAP_OFFSET)) as (next & Hnext & Hn8);
      [done|unfold NEXT_CAP_OFFSET; lia|]);
    rewrite Hcap, Hnext; cbn [mbind res_bind];
    (destruct (Z.eqb_spec cap id) as [->|_]; [exists off; by split; [|right]|]);
    (destruct ((next =? 0) || bool_decide (next ∈ seen)) eqn:E; [exists 0xff; by split; [|left]|]).
  - pose proof (bytes_NoDup_length seen Hnd Hb). lia.
  - apply orb_false_iff in E as [_ E%bool_decide_eq_false].
    apply IH; try done; [by constructor|by constructor|simpl; lia].
Qed.

Lemma find_cap_loop_chain c id l : forall fuel off seen,
  cap_chain c off l -> l <> [] -> pci_wf c -> (length l <= S fuel)%nat -> NoDup (reverse seen ++ drop 1 l) ->
  find_cap_loop fuel c id off seen = Ok (first_cap c id l).
Proof.
  induction l as [|o l IH]; intros fuel off seen Hch Hne Hwf Hf Hnd; [done|].
  destruct Hch as (-> & Hrange & next & Hnext & Hl). cbn [first_cap].
  pose proof Hwf as ([? _] & _ & _ & Hbc & _). unfold PCI_CONFIG_SPACE_SIZE, PCI_CONFIG_HEAD_END in *.
  destruct (byte_lookup (config c) o) as (cap & Hcap & _); [done|lia|].
  assert (find_cap_loop fuel c id o seen =
    if cap =? id then Ok o
    else if (next =? 0) || bool_decide (next ∈ seen) then Ok 0xff
    else match fuel with O => Panic | S fuel => find_cap_loop fuel c id next (next :: seen) end) as ->.
  { destruct fuel; cbn [find_cap_loop]; unfold byte_at, NEXT_CAP_OFFSET; by rewrite Hcap, Hnext. }
  unfold cap_at. rewrite Hcap. change (default 0 (Some cap)) with cap. destruct (cap =? id); [done|].
  destruct l as [|o2 l].
  { cbn in Hl. subst next. done. }
  pose proof Hl as (-> & Hr2 & _). cbn [drop] in Hnd.
  assert (o2 ∉ seen) as Hnot.
  { apply NoDup_app in Hnd as (_ & Hd & _). intros Hin. apply (Hd o2); [by apply elem_of_reverse|constructor]. }
  destruct (Z.eqb_spec o2 0); [unfold PCI_CONFIG_HEAD_END in *; lia|]. rewrite bool_decide_eq_false_2 by done. cbn [orb].
  destruct fuel as [|fuel]; [simpl in Hf; lia|].
  apply IH; try done; [simpl in *; lia|]. rewrite reverse_cons, <-app_assoc. done.
Qed.

Lemma find_pci_cap_ok c id l :
  caps_ok c l -> l <> [] -> find_pci_cap c id = Ok (first_cap c id l).
Proof.
  intros (Hwf & (h & Hh & Hl) & Hnd & _) Hne. unfold find_pci_cap, byte_at. rewrite Hh.
  cbn [unwrap mbind res_bind]. pose proof (cap_chain_range _ _ _ Hl) as Hr.
  assert (length l <= 256)%nat as Hlen.
  { apply bytes_NoDup_length; [done|]. eapply Forall_impl; [done|].
    unfold PCI_CONFIG_HEAD_END, inW. simpl. lia. }
  destruct l as [|o l]; [done|]. pose proof Hl as (-> & _).
  apply find_cap_loop_chain; try done. lia.
Qed.

(** The registers of a new capability lose their write mask. *)
Lemma protect_cap_ok n : forall c,
  pci_wf c -> 0 <= last_cap_end c -> last_cap_end c + 4 * Z.of_nat n <= Z.of_nat (length (config c)) ->
  exists x, protect_cap n c =
      (with_caps (with_write_mask c x) (last_cap_end c + 4 * Z.of_nat n) (last_ext_cap_offset c)
         (last_ext_cap_end c), Ok tt) /\
    with_bytes c x /\
    forall j, 0 <= j -> bit_of x j =
      negb ((8 * last_cap_end c <=? j) && (j <? 8 * (last_cap_end c + 4 * Z.of_nat n))) &&
      bit_of (write_mask c) j.
Proof.
  induction n as [|n IH]; intros c Hwf H0 Hfit; cbn [protect_cap].
  { exists (write_mask c). split_and!; [rewrite Z.add_0_r; by destruct c|by split; apply Hwf|].
    intros j ?. zcases; done || lia. }
  pose proof Hwf as ([? Hmax] & Hlm & _ & _ & Hbm & _). unfold PCIE_CONFIG_SPACE_SIZE in Hmax.
  rewrite (sres_step _ _ c c c) by done.
  assert (le_write 4 (write_mask c) (last_cap_end c) 0 =
    Ok (splice (write_mask c) (Z.to_nat (last_cap_end c)) (le_bytes 4 0))) as Hw
    by (apply le_write_ok; lia).
  erewrite sres_step by (unfold wr_mask, wr; by rewrite Hw).
  erewrite sres_step by done. rewrite wadd_small by (unfold inW, REG_SIZE; simpl; lia).
  set (x1 := splice _ _ _). set (c1 := with_caps _ _ _ _).
  assert (with_bytes c x1) as Hx1.
  { split; [unfold x1; rewrite splice_length; [done|rewrite le_bytes_length; lia]|].
    apply splice_is_bytes; [done|apply le_bytes_is_bytes]. }
  destruct (IH c1) as (x & -> & [Hxl ?] & Hb).
  - exact (pci_wf_mask c x1 Hwf Hx1).
  - subst c1. simpl. unfold REG_SIZE. lia.
  - subst c1. simpl. unfold REG_SIZE. lia.
  - exists x. split_and!; [|by split|].
    + f_equal. subst c1. simpl. unfold with_caps, with_write_mask, REG_SIZE. simpl. f_equal. lia.
    + intros j ?. rewrite Hb by done. subst c1. cbn [with_caps with_write_mask write_mask last_cap_end].
      unfold x1. rewrite splice_testbit by (done || lia). rewrite Z.testbit_0_l. unfold REG_SIZE.
      zcases; done || lia.
Qed.

Lemma mod_config_ok c off f b :
  config c !! Z.to_nat off = Some b ->
  mod_config off f c = (with_config c (<[Z.to_nat off := f b]> (config c)), Ok tt).
Proof. intros Hb. unfold mod_config, mod_byte. by rewrite Hb. Qed.

Lemma regs_num_spec size :
  0 <= size -> size <= 4 * Z.of_nat (regs_num size) < size + 4.
Proof.
  intros. unfold regs_num, REG_SIZE. pose proof (Z.div_mod size 4). pose proof (Z.mod_pos_bound size 4).
  pose proof (Z.div_pos size 4). zcase; rewrite Z2Nat.id by lia; lia.
Qed.

Lemma cap_chain_ext c c' l : forall off,
  (forall o, o ∈ l -> config c' !! Z.to_nat (o + 1) = config c !! Z.to_nat (o + 1)) ->
  cap_chain c off l -> cap_chain c' off l.
Proof.
  induction l as [|o l IH]; intros off Hext; [done|]. intros (-> & ? & next & Hn & Hl).
  split_and!; try done; try lia. exists next. split; [by rewrite Hext by constructor|].
  apply IH; [|done]. intros o' ?. apply Hext. by constructor.
Qed.

Lemma first_cap_ext c c' id l :
  (forall o, o ∈ l -> cap_at c' o = cap_at c o) -> first_cap c' id l = first_cap c id l.
Proof.
  induction l as [|o l IH]; intros Hext; [done|]. cbn [first_cap].
  rewrite Hext by constructor. rewrite IH; [done|]. intros. apply Hext. by constructor.
Qed.

(** The configuration bytes after [add_pci_cap]. *)
Definition cap_added (c : PciConfig) (id head status : Z) : list Z :=
  let off := last_cap_end c in
  <[6%nat := Z.lor status 0x10]> (<[0x34%nat := off]>
    (<[Z.to_nat (off + 1) := head]> (<[Z.to_nat off := id]> (config c)))).

Lemma cap_added_other c id head status i :
  i <> 6%nat -> i <> 0x34%nat -> i <> Z.to_nat (last_cap_end c) -> i <> Z.to_nat (last_cap_end c + 1) ->
  cap_added c id head status !! i = config c !! i.
Proof. intros. unfold cap_added. by rewrite !list_lookup_insert_ne by done. Qed.

Lemma add_pci_cap_eq c l id size :
  caps_ok c l -> is_u8 id -> 2 <= size -> last_cap_end c + size <= PCI_CONFIG_SPACE_SIZE ->
  exists head status x,
    config c !! Z.to_nat CAP_LIST = Some head /\ cap_chain c head l /\
    add_pci_cap id size c =
      (with_caps (with_write_mask (with_config c (cap_added c id head status)) x)
         (last_cap_end c + 4 * Z.of_nat (regs_num size)) (last_ext_cap_offset c) (last_ext_cap_end c),
       Ok (last_cap_end c)) /\
    with_bytes c (cap_added c id head status) /\ with_bytes c x /\
    forall j, 0 <= j -> bit_of x j =
      negb ((8 * last_cap_end c <=? j) &&
            (j <? 8 * (last_cap_end c + 4 * Z.of_nat (regs_num size)))) && bit_of (write_mask c) j.
Proof.
  intros (Hwf & (h & Hh & Hl) & _ & _ & [Hlo Hhi] & Hmod) Hid Hsize Hfit.
  pose proof Hwf as ([? Hmax] & Hlm & Hlw & Hbc & Hbm & Hbw).
  unfold PCI_CONFIG_HEAD_END, PCI_CONFIG_SPACE_SIZE, PCIE_CONFIG_SPACE_SIZE, CAP_LIST in *.
  set (off := last_cap_end c) in *.
  destruct (byte_lookup (config c) off) as (b0 & Hb0 & _); [done|lia|].
  destruct (byte_lookup (config c) (off + 1)) as (b1 & Hb1 & _); [done|lia|].
  destruct (byte_lookup (config c) 6) as (st & Hst & Hst8); [done|lia|].
  assert (is_u8 h) as Hh8 by (unfold is_bytes in Hbc; rewrite Forall_lookup in Hbc; by eapply Hbc).
  assert (with_bytes c (cap_added c id h st)) as Hx.
  { split; [unfold cap_added; by rewrite !length_insert|].
    repeat apply bytes_insert; try done; [|by apply lor_inW]. unfold inW. fold off. lia. }
  destruct (protect_cap_ok (regs_num size) (with_config c (cap_added c id h st)))
    as (x & Hp & Hxm & Hbits).
  { by apply pci_wf_config. }
  { change (0 <= off). lia. }
  { destruct Hx as [Hxl _]. cbn [with_config last_cap_end config]. rewrite Hxl. fold off.
    pose proof (regs_num_spec size). pose proof (Z.div_mod off 4). lia. }
  exists h, st, x. split_and!; try done.
  - unfold add_pci_cap. rewrite (sres_step _ _ c c c) by done. fold off.
    rewrite wadd_small by (unfold inW; lia). unfold PCI_CONFIG_SPACE_SIZE.
    destruct (Z.ltb_spec 256 (off + size)); [lia|].
    erewrite sres_step by (by apply (mod_config_ok _ _ _ b0)).
    erewrite (sres_step _ _ _ _ h).
    2:{ unfold rd, byte_at, CAP_LIST. cbn [with_config config].
        rewrite list_lookup_insert_ne by lia. by rewrite Hh. }
    erewrite sres_step.
    2:{ apply (mod_config_ok _ _ _ b1). unfold NEXT_CAP_OFFSET. cbn [with_config config].
        by rewrite list_lookup_insert_ne by lia. }
    erewrite sres_step.
    2:{ apply (mod_config_ok _ _ _ h). unfold NEXT_CAP_OFFSET, CAP_LIST. cbn [with_config config].
        by rewrite !list_lookup_insert_ne by lia. }
    rewrite (wrap_small 8 off) by (unfold inW; lia).
    erewrite sres_step.
    2:{ apply (mod_config_ok _ _ _ st). unfold NEXT_CAP_OFFSET, CAP_LIST, STATUS. cbn [with_config config].
        by rewrite !list_lookup_insert_ne by lia. }
    cbn [with_config config]. erewrite sres_step by exact Hp. done.
  - destruct Hxm as [Hxl ?], Hx as [Hcl _]. cbn [with_config config] in Hxl. split; [congruence|done].
Qed.

(** The state after [add_pci_cap]; [x] is the new write mask. *)
Definition cap_state (c : PciConfig) (id head status size : Z) (x : list Z) : PciConfig :=
  with_caps (with_write_mask (with_config c (cap_added c id head status)) x)
    (last_cap_end c + 4 * Z.of_nat (regs_num size)) (last_ext_cap_offset c) (last_ext_cap_end c).

Section cap_state.
Context (c : PciConfig) (l : list Z) (id h st size : Z) (x : list Z).
Context (Hok : caps_ok c l) (Hsize : 2 <= size).
Context (Hfit : last_cap_end c + size <= PCI_CONFIG_SPACE_SIZE).
Context (Hl : cap_chain c h l) (Hcb : with_bytes c (cap_added c id h st)) (Hxb : with_bytes c x).

Abbreviation off := (last_cap_end c).
Abbreviation c' := (cap_state c id h st size x).

Lemma cap_state_bounds :
  64 <= off /\ off + 2 <= 256 /\ 256 <= Z.of_nat (length (config c)) /\
  size <= 4 * Z.of_nat (regs_num size) /\ off + 4 * Z.of_nat (regs_num size) <= 256.
Proof.
  destruct Hok as (([? _] & _) & _ & _ & _ & [? ?] & Hmod). pose proof (regs_num_spec size).
  unfold PCI_CONFIG_HEAD_END, PCI_CONFIG_SPACE_SIZE in *. pose proof (Z.div_mod off 4). lia.
Qed.

Lemma cap_state_same o :
  o ∈ l -> cap_at c' o = cap_at c o /\ config c' !! Z.to_nat (o + 1) = config c !! Z.to_nat (o + 1).
Proof.
  intros Ho. destruct cap_state_bounds as (? & ? & ? & ? & ?).
  destruct Hok as (_ & _ & _ & Hend & _). pose proof (cap_chain_range _ _ _ Hl) as Hr.
  rewrite Forall_forall in Hend, Hr. specialize (Hend o Ho). specialize (Hr o Ho).
  unfold PCI_CONFIG_HEAD_END in *. simpl in Hend. unfold cap_at, cap_state.
  cbn [with_caps with_write_mask with_config config]. rewrite !cap_added_other by lia. done.
Qed.

Lemma cap_state_bytes :
  config c' !! Z.to_nat off = Some id /\ config c' !! Z.to_nat (off + 1) = Some h /\
  config c' !! Z.to_nat CAP_LIST = Some off.
Proof.
  destruct cap_state_bounds as (? & ? & ? & ? & ?). unfold cap_state, cap_added, CAP_LIST.
  cbn [with_caps with_write_mask with_config config].
  split_and!; rewrite ?list_lookup_insert_ne by lia;
    apply list_lookup_insert_eq; rewrite ?length_insert; lia.
Qed.

Lemma cap_state_ok : caps_ok c' (off :: l).
Proof.
  destruct cap_state_bounds as (? & ? & ? & ? & ?). destruct cap_state_bytes as (_ & Hnext & Hhead).
  destruct Hok as (Hwf & _ & Hnd & Hend & _ & Hmod). rewrite Forall_forall in Hend. split_and!.
  - apply (pci_wf_mask (with_config c (cap_added c id h st)) x); [by apply pci_wf_config|].
    destruct Hcb, Hxb. split; [simpl; congruence|done].
  - exists off. split; [done|]. split_and!; [done|unfold PCI_CONFIG_HEAD_END; lia|lia|].
    exists h. split; [done|]. apply (cap_chain_ext c c'); [|done]. intros o Ho. by apply cap_state_same.
  - constructor; [|done]. intros Ho. specialize (Hend off Ho). simpl in Hend. lia.
  - cbn [cap_state with_caps last_cap_end]. constructor; [lia|]. apply Forall_forall.
    intros o Ho. specialize (Hend o Ho). simpl in Hend. lia.
  - cbn [cap_state with_caps last_cap_end]. unfold PCI_CONFIG_HEAD_END. lia.
  - cbn [cap_state with_caps last_cap_end]. unfold PCI_CONFIG_SPACE_SIZE. lia.
  - cbn [cap_state with_caps last_cap_end]. rewrite Z.mul_comm, Z.mod_add by lia. done.
Qed.

Lemma cap_state_find i : find_pci_cap c' i = Ok (if id =? i then off else first_cap c i l).
Proof.
  rewrite (find_pci_cap_ok c' i (off :: l)) by (done || apply cap_state_ok). cbn [first_cap].
  unfold cap_at at 1. destruct cap_state_bytes as (-> & _). change (default 0 (Some id)) with id.
  rewrite (first_cap_ext c c'); [by destruct (id =? i)|]. intros o Ho. by apply cap_state_same.
Qed.
End cap_state.

(** Adding a capability.  It is placed after the others, becomes the head
    of the list and can no longer be written by the guest; looking its id up
    finds it, and looking up any other id finds what it found before. *)
Theorem add_pci_cap_found c l id size :
  caps_ok c l -> is_u8 id -> 2 <= size -> last_cap_end c + size <= PCI_CONFIG_SPACE_SIZE ->
  exists c', add_pci_cap id size c = (c', Ok (last_cap_end c)) /\
    caps_ok c' (last_cap_end c :: l) /\
    find_pci_cap c' id = Ok (last_cap_end c) /\
    (forall id', id' <> id -> find_pci_cap c' id' = Ok (first_cap c id' l)) /\
    (l <> [] -> forall id', find_pci_cap c id' = Ok (first_cap c id' l)) /\
    (forall j, 8 * last_cap_end c <= j < 8 * (last_cap_end c + size) -> bit_of (write_mask c') j = false).
Proof.
  intros Hok Hid Hsize Hfit.
  destruct (add_pci_cap_eq c l id size Hok Hid Hsize Hfit)
    as (h & st & x & Hh & Hl & Hadd & Hcb & Hxb & Hbits).
  exists (cap_state c id h st size x). split_and!; [done|by apply (cap_state_ok c l)|..].
  - rewrite (cap_state_find c l) by done. by rewrite Z.eqb_refl.
  - intros i Hi. rewrite (cap_state_find c l) by done. by destruct (Z.eqb_spec id i); [congruence|].
  - intros Hne i. by apply find_pci_cap_ok.
  - intros j Hj. destruct (cap_state_bounds c l size Hok Hsize Hfit) as (? & ? & ? & ? & ?).
    change (bit_of x j = false). rewrite Hbits by lia.
    destruct (Z.leb_spec (8 * last_cap_end c) j); [|lia].
    by destruct (Z.ltb_spec j (8 * (last_cap_end c + 4 * Z.of_nat (regs_num size)))); [|lia].
Qed.

Lemma ex_pci_caps : caps_ok ex_pci [].
Proof.
  split_and!; [apply ex_pci_wf|exists 0; split; [vm_compute; reflexivity|done]|constructor..| | |];
    vm_compute; done.
Qed.

Example add_pci_cap_found_witness :
  exists c', add_pci_cap CapId_Msix 12 ex_pci = (c', Ok 64) /\ find_pci_cap c' CapId_Msix = Ok 64.
Proof.
  destruct (add_pci_cap_found ex_pci [] CapId_Msix 12 ex_pci_caps) as (c' & Ha & _ & Hf & _);
    [done|lia|vm_compute; done|].
  change (last_cap_end ex_pci) with 64 in Ha, Hf. exists c'. split; [exact Ha|exact Hf].
Defined.

(** [find_pci_cap] ends.  Whatever the configuration bytes of a PCIe
    function are, cyclic lists included, the search returns [0xff] or the
    offset of a byte with the id; 256 turns are enough. *)
Theorem find_pci_cap_terminates c id :
  pci_wf c -> 256 < Z.of_nat (length (config c)) ->
  exists o, find_pci_cap c id = Ok o /\ (o = 0xff \/ byte_at (config c) o = Ok id).
Proof.
  intros Hwf Hlen. pose proof Hwf as (_ & _ & _ & Hbc & _).
  destruct (byte_at_ok (config c) CAP_LIST) as (h & Hh & Hh8); [done|unfold CAP_LIST; lia|].
  unfold find_pci_cap. rewrite Hh. cbn [mbind res_bind].
  apply find_cap_loop_total; try done; [by apply NoDup_singleton|by constructor].
Qed.

Definition ex_pcie : PciConfig := PciConfig_new 4096 6.
Lemma ex_pcie_wf : pci_wf ex_pcie.
Proof.
  split_and!; try (apply zeros_are_bytes); unfold ex_pcie, PciConfig_new; cbn [config write_mask write_clear_mask];
    rewrite ?length_replicate; unfold PCI_CONFIG_SPACE_SIZE, PCIE_CONFIG_SPACE_SIZE; done || lia.
Qed.

Example find_pci_cap_terminates_witness :
  exists o, find_pci_cap ex_pcie CapId_Msix = Ok o /\ (o = 0xff \/ byte_at (config ex_pcie) o = Ok CapId_Msix).
Proof.
  apply (find_pci_cap_terminates ex_pcie CapId_Msix ex_pcie_wf).
  unfold ex_pcie, PciConfig_new. cbn [config]. rewrite length_replicate. lia.
Defined.

(** An empty list is not recognised: the search starts at offset 0, so the
    low byte of the vendor id is taken for a capability id. *)
Example find_pci_cap_empty_list :
  let c := (wr_config 2 0 0x1011 ex_pci).1 in
  config c !! Z.to_nat CAP_LIST = Some 0 /\ find_pci_cap c CapId_Msix = Ok 0.
Proof. vm_compute. done. Qed.
