(* ===== verification/PciBar.v ===== *)
(** * Base address registers ([devices/src/pci/config.rs])

    What the guest can make of a BAR registered with [register_bar]: the
    addresses it can program, the size it reads back, and how
    [update_bar_mapping] follows.  The operations are those of [PciConfig.v]. *)
From stdpp Require Import prelude list gmap.
From Stdlib Require Import ZArith Lia.
From S2P Require Import Prelude NumOps Bitmap Address Region FlatView Topology KvmListener IrqRoute Intx PciRegs Msix PciConfig.

Definition bar_off (id : Z) : Z := BAR_0 + id * REG_SIZE.
(** Bytes of the register, its first address bit, and its type bits. *)
Definition bar_bytes (t : BarType) : nat := match t with Mem64Bit => 8 | _ => 4 end.
Definition bar_low (t : BarType) : Z := match t with BarIo => 2 | _ => 4 end.
Definition bar_flags (t : BarType) (prefetchable : bool) : Z :=
  match t with
  | BarIo => 1
  | Mem32Bit => if prefetchable then 8 else 0
  | Mem64Bit => if prefetchable then 12 else 4
  end.

(** A registered BAR of size [2 ^ k]: below bit [k] nothing can be written and
    only the type bits are set. *)
Definition bar_ready (c : PciConfig) (id : Z) (t : BarType) (prefetchable : bool) (k : Z) : Prop :=
  pci_wf c /\ 0 <= id /\ bar_off id + Z.of_nat (bar_bytes t) <= 40 /\
  (exists b, bars c !! Z.to_nat id = Some b /\ bar_type b = t /\ bar_size b = 2 ^ k) /\
  bar_low t <= k <= 8 * Z.of_nat (bar_bytes t) /\
  forall j, 0 <= j < k ->
    bit_of (write_mask c) (8 * bar_off id + j) = false /\
    bit_of (write_clear_mask c) (8 * bar_off id + j) = false /\
    bit_of (config c) (8 * bar_off id + j) = Z.testbit (bar_flags t prefetchable) j.

Lemma bar_off_nonneg id : 0 <= id -> 16 <= bar_off id.
Proof. unfold bar_off, BAR_0, REG_SIZE. lia. Qed.

(** Guest writes keep a BAR registered. *)
Lemma bar_ready_keeps c c' id t pf k : keeps c c' -> bar_ready c id t pf k -> bar_ready c' id t pf k.
Proof.
  intros (Hwf & Hm & Hw & Ht & Hs & _ & Hb) (_ & Hid & Hoff & (b & Hbar & Hbt & Hbs) & Hk & Hbits).
  pose proof (bar_off_nonneg id Hid).
  split_and!; try done; try lia.
  - apply (f_equal (fun l => l !! Z.to_nat id)) in Ht, Hs. cbn beta in Ht, Hs.
    rewrite !list_lookup_fmap, Hbar in Ht. rewrite !list_lookup_fmap, Hbar in Hs.
    destruct (bars c' !! Z.to_nat id) as [b'|]; [|done]. injection Ht as Ht. injection Hs as Hs.
    exists b'. split_and!; congruence.
  - intros j Hj. destruct (Hbits j Hj) as (H1 & H2 & H3). rewrite Hm, Hw, Hb by (done || lia). done.
Qed.

Lemma mod_pow2_zero x k :
  0 <= k -> (forall j, 0 <= j < k -> Z.testbit x j = false) -> x `mod` 2 ^ k = 0.
Proof.
  intros Hk Hx. apply Z.bits_inj'. intros j Hj. rewrite Z.testbit_0_l.
  destruct (decide (j < k)); [rewrite Z.mod_pow2_bits_low by lia; by apply Hx|].
  by rewrite Z.mod_pow2_bits_high by lia.
Qed.

Lemma aligned_end a k w : 0 <= k <= w -> 0 <= a < 2 ^ w -> a `mod` 2 ^ k = 0 -> a + 2 ^ k <= 2 ^ w.
Proof.
  intros Hk Ha Hm. assert (0 < 2 ^ k) as Hp by (apply Z.pow_pos_nonneg; lia).
  apply Z.mod_divide in Hm as [q ->]; [|lia].
  assert (2 ^ w = 2 ^ (w - k) * 2 ^ k) as Hw by (rewrite <-Z.pow_add_r by lia; f_equal; lia).
  rewrite Hw in *. assert (q < 2 ^ (w - k)) by nia. nia.
Qed.

Lemma land1_testbit b : (0 <? Z.land b 1) = Z.testbit b 0.
Proof.
  change 1 with (Z.ones 1). rewrite Z.land_ones by lia. rewrite Z.bit0_eqb.
  change (2 ^ 1) with 2. pose proof (Z.mod_pos_bound b 2).
  destruct (Z.ltb_spec 0 (b `mod` 2)), (Z.eqb_spec (b `mod` 2) 1); lia.
Qed.

(** The address masks: the bits from [low] to the width. *)
Lemma addr_mask_testbit w low j :
  0 <= low <= w -> 0 <= j -> Z.testbit (Z.shiftl (Z.ones (w - low)) low) j = (low <=? j) && (j <? w).
Proof.
  intros ? ?. rewrite Z.shiftl_spec by done. destruct (Z.leb_spec low j).
  - rewrite Z.testbit_ones_nonneg by lia. destruct (Z.ltb_spec (j - low) (w - low)), (Z.ltb_spec j w); done || lia.
  - by rewrite Z.testbit_neg_r by lia.
Qed.

Section ready.
Context (c : PciConfig) (id : Z) (t : BarType) (pf : bool) (k : Z).
Context (Hr : bar_ready c id t pf k).
Abbreviation off := (bar_off id).
Abbreviation reg := (le_val (slice (config c) (Z.to_nat off) (bar_bytes t))).

Lemma bar_fits : 16 <= off /\ off + Z.of_nat (bar_bytes t) <= Z.of_nat (length (config c)) /\
  Z.of_nat (length (config c)) < 2 ^ 64 /\ is_bytes (config c).
Proof.
  destruct Hr as (([? ?] & _ & _ & ? & _) & Hid & ? & _). pose proof (bar_off_nonneg id Hid).
  unfold PCI_CONFIG_SPACE_SIZE, PCIE_CONFIG_SPACE_SIZE in *. split_and!; try done; lia.
Qed.

Lemma bar_reg_low j : 0 <= j < k -> Z.testbit reg j = Z.testbit (bar_flags t pf) j.
Proof.
  destruct bar_fits as (? & ? & ? & ?). destruct Hr as (_ & _ & _ & _ & Hk & Hbits). intros Hj.
  rewrite slice_testbit by (done || lia). destruct (Hbits j Hj) as (_ & _ & ->).
  by destruct (Z.ltb_spec j (8 * Z.of_nat (bar_bytes t))); [|lia].
Qed.

Lemma bar_reg_bound : 0 <= reg < 2 ^ (8 * Z.of_nat (bar_bytes t)).
Proof.
  destruct bar_fits as (? & ? & ? & Hb). apply (le_read_bound (bar_bytes t) (config c) off); try done; try lia.
  by rewrite le_read_ok by (done || lia).
Qed.

(** The bits the address mask leaves. *)
Lemma bar_addr_aligned :
  let w := 8 * Z.of_nat (bar_bytes t) in
  let a := Z.land reg (Z.shiftl (Z.ones (w - bar_low t)) (bar_low t)) in
  a `mod` 2 ^ k = 0 /\ 0 <= a /\ a + 2 ^ k <= 2 ^ w.
Proof.
  intros w a. pose proof bar_reg_bound as Hreg. destruct Hr as (_ & _ & _ & _ & Hk & _).
  assert (4 <= 8 * Z.of_nat (bar_bytes t) /\ 2 <= bar_low t) by (by destruct t).
  assert (a `mod` 2 ^ k = 0) as Hm.
  { apply mod_pow2_zero; [lia|]. intros j Hj. unfold a. rewrite Z.land_spec, addr_mask_testbit by lia.
    destruct (Z.leb_spec (bar_low t) j); [|apply andb_false_r]. rewrite bar_reg_low by done.
    assert (Z.testbit (bar_flags t pf) j = false) as ->; [|done].
    apply (testbit_above (bar_low t)); [|lia]. unfold inW. by destruct t, pf. }
  assert (inW w a) as Ha by (apply land_inW; [lia|exact Hreg]). unfold inW in Ha.
  split_and!; [done|lia|]. apply aligned_end; (done || lia).
Qed.

(** [get_bar_address] of a registered BAR. *)
Lemma bar_address_cases :
  exists a, get_bar_address c id = Ok a /\ (a = BAR_SPACE_UNMAPPED \/
    a = Z.land reg (Z.shiftl (Z.ones (8 * Z.of_nat (bar_bytes t) - bar_low t)) (bar_low t))).
Proof.
  destruct bar_fits as (? & Hfit & ? & Hb).
  destruct Hr as (_ & _ & _ & (b & Hbar & Hbt & _) & Hk & Hbits).
  assert (2 <= bar_low t /\ 4 <= Z.of_nat (bar_bytes t)) as [? ?] by (by destruct t).
  unfold get_bar_address. fold (bar_off id). unfold le_read_u16 at 1, COMMAND.
  rewrite le_read_ok by (done || lia). cbn [unwrap_res mbind res_bind].
  destruct (byte_lookup (config c) off) as (b0 & Hb0 & _); [done|lia|].
  unfold byte_at. rewrite Hb0. cbn [unwrap mbind res_bind]. unfold BAR_IO_SPACE. rewrite land1_testbit.
  rewrite <-(bit_of_byte (config c) off 0 b0) by (done || lia).
  destruct (Hbits 0) as (_ & _ & ->); [lia|]. unfold le_read_u32, le_read_u64. rewrite Hbar.
  cbn [unwrap mbind res_bind]. rewrite Hbt. revert Hfit. destruct t, pf; intros Hfit; simpl Z.testbit; cbv iota;
    (destruct (_ =? 0); [eexists; by split; [|left]|]);
    rewrite le_read_ok by (done || (cbn in Hfit; lia)); eexists; (split; [reflexivity|right; reflexivity]).
Qed.
End ready.

(** ** Registering a BAR *)

(** The register of BAR [id] has not been used. *)
Definition bar_fresh (c : PciConfig) (id : Z) (t : BarType) : Prop :=
  pci_wf c /\ 0 <= id /\ bar_off id + Z.of_nat (bar_bytes t) <= 40 /\ is_Some (bars c !! Z.to_nat id) /\
  forall i, 0 <= i < Z.of_nat (bar_bytes t) ->
    config c !! Z.to_nat (bar_off id + i) = Some 0 /\ write_clear_mask c !! Z.to_nat (bar_off id + i) = Some 0.

(** What [validate_bar_size] accepts. *)
Lemma validate_bar_size_pow2 t size :
  0 <= size < 2 ^ 64 -> validate_bar_size t size = Ok tt ->
  exists k, size = 2 ^ k /\ 0 <= k < 8 * Z.of_nat (bar_bytes t) /\ (t = BarIo -> 2 <= k).
Proof.
  intros Hs Hv. unfold validate_bar_size in Hv. destruct (_ || _) eqn:E in Hv; [done|].
  apply orb_false_iff in E as [E Hio2]. apply orb_false_iff in E as [E Hm32].
  apply orb_false_iff in E as [E Hio1]. apply negb_false_iff in E.
  unfold is_power_of_two in E. apply andb_true_iff in E as [Hpos Hland].
  destruct (land_pred_pow2 size) as (k & Hk & ->); [lia|lia|].
  exists k. assert (k < 64) by (apply (Z.pow_lt_mono_r_iff 2); [lia|lia|exact (proj2 Hs)]).
  assert (t = Mem32Bit -> k < 32) as H32.
  { intros ->. rewrite bool_decide_eq_true_2 in Hm32 by done. cbn [andb] in Hm32.
    apply (Z.pow_lt_mono_r_iff 2); [lia|lia|]. apply Z.ltb_ge in Hm32. change (2 ^ 32) with 4294967296. lia. }
  assert (t = BarIo -> 2 <= k < 32) as Hio.
  { intros ->. rewrite bool_decide_eq_true_2 in Hio1, Hio2 by done. cbn [andb] in Hio1, Hio2.
    apply Z.ltb_ge in Hio1, Hio2. unfold MINIMUM_BAR_SIZE_FOR_PIO in *. split.
    - apply (Z.pow_le_mono_r_iff 2); [lia|lia|]. exact Hio1.
    - apply (Z.pow_lt_mono_r_iff 2); [lia|lia|]. change (2 ^ 32) with 4294967296. lia. }
  split_and!; [done|done| |intros; by apply Hio]. destruct t; cbn; [specialize (Hio eq_refl)|specialize (H32 eq_refl)|]; lia.
Qed.

(** The write mask of a BAR: the bits from [k] on. *)
Lemma bar_mask_testbit k n j :
  0 <= k < 64 -> (n <= 8)%nat -> 0 <= j < 8 * Z.of_nat n ->
  Z.testbit (wrap (8 * Z.of_nat n) (wnot 64 (wsub 64 (2 ^ k) 1))) j = (k <=? j).
Proof.
  intros Hk Hn Hj. assert (0 < 2 ^ k < 2 ^ 64).
  { split; [apply Z.pow_pos_nonneg; lia|apply Z.pow_lt_mono_r; lia]. }
  unfold wrap. rewrite Z.mod_pow2_bits_low by lia. rewrite wsub_small by (unfold inW; lia).
  rewrite wnot_testbit by (unfold inW; lia). replace (2 ^ k - 1) with (Z.ones k) by (rewrite Z.ones_equiv; lia).
  rewrite Z.testbit_ones_nonneg by lia. destruct (Z.ltb_spec j k), (Z.leb_spec k j); done || lia.
Qed.

Section register.
Context (c : PciConfig) (id k : Z) (region : rid) (t : BarType) (pf : bool).
Context (Hf : bar_fresh c id t) (Hid : validate_bar_id c id = Ok tt).
Context (Hsz : validate_bar_size t (2 ^ k) = Ok tt) (Hk : 0 <= k < 8 * Z.of_nat (bar_bytes t)).
Context (Hlow : bar_low t <= k) (Hio : t = BarIo -> pf = false).
Abbreviation off := (bar_off id).
Abbreviation n := (bar_bytes t).

Definition registered (b : Bar) : PciConfig :=
  with_bars
    (with_config
      (with_write_mask c (splice (write_mask c) (Z.to_nat off)
         (le_bytes n (wrap (8 * Z.of_nat n) (wnot 64 (wsub 64 (2 ^ k) 1))))))
      (<[Z.to_nat off := bar_flags t pf]> (config c)))
    (<[Z.to_nat id := mkBar t BAR_SPACE_UNMAPPED (2 ^ k) (Some region) (parent_io_region b)
                        (parent_mem_region b)]> (bars c)).

Lemma fresh_fits :
  16 <= off /\ off + Z.of_nat n <= Z.of_nat (length (config c)) /\ Z.of_nat (length (config c)) < 2 ^ 64 /\
  is_bytes (config c) /\ is_bytes (write_mask c) /\ is_bytes (write_clear_mask c) /\
  length (write_mask c) = length (config c) /\ length (write_clear_mask c) = length (config c) /\
  config c !! Z.to_nat off = Some 0.
Proof.
  destruct Hf as (([? ?] & ? & ? & ? & ? & ?) & ? & ? & _ & Hz). pose proof (bar_off_nonneg id).
  unfold PCI_CONFIG_SPACE_SIZE, PCIE_CONFIG_SPACE_SIZE in *.
  split_and!; try done; try lia. destruct (Hz 0) as [Hz0 _]; [by destruct t|]. by rewrite Z.add_0_r in Hz0.
Qed.

Lemma register_bar_eq :
  exists b, bars c !! Z.to_nat id = Some b /\
    register_bar id region t pf (2 ^ k) c = (registered b, Ok tt).
Proof.
  destruct fresh_fits as (? & Hfit & ? & Hb & Hbm & _ & Hlm & _ & Hz).
  destruct Hf as (_ & _ & _ & [b Hbar] & _). exists b. split; [done|].
  unfold register_bar. erewrite sres_step by (unfold rd; by rewrite Hid).
  erewrite sres_step by (unfold rd; by rewrite Hsz). fold (bar_off id). unfold registered.
  assert (forall v, sunwrap (wr_mask n off v) c =
    (with_write_mask c (splice (write_mask c) (Z.to_nat off) (le_bytes n v)), Ok tt)) as Hwr.
  { intros v. unfold sunwrap, wr_mask, wr. rewrite le_write_ok by lia. done. }
  set (x := splice _ _ _). set (c1 := with_write_mask c x).
  assert (forall f, mod_config off f c1 = (with_config c1 (<[Z.to_nat off := f 0]> (config c)), Ok tt)) as Hmod1
    by (intros f; by apply (mod_config_ok c1 off f 0)).
  assert (forall y f, mod_config off f (with_config c1 (<[Z.to_nat off := y]> (config c))) =
    (with_config c1 (<[Z.to_nat off := f y]> (config c)), Ok tt)) as Hmod2.
  { intros y f. rewrite (mod_config_ok _ _ _ y).
    - cbn [with_config config]. by rewrite list_insert_insert_eq.
    - cbn [with_config config]. apply list_lookup_insert_eq. lia. }
  assert (with_config c1 (<[Z.to_nat off := 0]> (config c)) = c1) as Hid1
    by (by rewrite list_insert_id).
  destruct t; cbn [bar_bytes] in *.
  - rewrite (Hio eq_refl) in *.
    erewrite sres_step by (erewrite sres_step by apply Hwr; apply Hmod1).
    erewrite sres_step by done. erewrite sres_step by (unfold rd; cbn; by rewrite Hbar). done.
  - erewrite sres_step by apply Hwr. fold x. fold c1. destruct pf.
    + erewrite sres_step by apply Hmod1. erewrite sres_step by (unfold rd; cbn; by rewrite Hbar). done.
    + erewrite sres_step by done. erewrite sres_step by (unfold rd; cbn; by rewrite Hbar).
      cbn [bar_flags]. rewrite Hid1. done.
  - replace (wnot 64 _) with (wrap (8 * Z.of_nat 8) (wnot 64 (wsub 64 (2 ^ k) 1)))
      by (apply wrap_small, wnot_inW, wrap_inW; lia).
    erewrite sres_step by (erewrite sres_step by apply Hwr; apply Hmod1). fold x. fold c1. destruct pf.
    + erewrite sres_step by apply Hmod2. erewrite sres_step by (unfold rd; cbn; by rewrite Hbar). done.
    + erewrite sres_step by done. erewrite sres_step by (unfold rd; cbn; by rewrite Hbar). done.
Qed.

Lemma fresh_bit (l : list Z) j :
  (forall i, 0 <= i < Z.of_nat n -> l !! Z.to_nat (off + i) = Some 0) -> is_bytes l ->
  0 <= j < 8 * Z.of_nat n -> bit_of l (8 * off + j) = false.
Proof.
  intros Hz Hl Hj. destruct fresh_fits as (? & _). pose proof (Z.div_mod j 8). pose proof (Z.mod_pos_bound j 8).
  replace (8 * off + j) with (8 * (off + j / 8) + j `mod` 8) by lia.
  rewrite (bit_of_byte l _ _ 0); [apply Z.testbit_0_l|done|lia|lia|apply Hz; lia].
Qed.

Lemma bar_flags_u8 : inW 4 (bar_flags t pf).
Proof. unfold inW. by destruct t, pf. Qed.

Lemma registered_wf b : pci_wf (registered b).
Proof.
  destruct fresh_fits as (? & Hfit & ? & Hb & Hbm & _ & Hlm & _ & Hz). pose proof bar_flags_u8 as Hfl.
  destruct Hf as (Hwf & _). apply pci_wf_config.
  - apply pci_wf_mask; [done|]. split; [|apply splice_is_bytes; [done|apply le_bytes_is_bytes]].
    rewrite splice_length; [done|rewrite le_bytes_length; lia].
  - split; [apply length_insert|]. apply bytes_insert; [done|]. unfold inW in *. lia.
Qed.

Lemma registered_ready b : bars c !! Z.to_nat id = Some b -> bar_ready (registered b) id t pf k.
Proof.
  intros Hbar. destruct fresh_fits as (? & Hfit & ? & Hb & Hbm & Hbw & Hlm & Hlw & Hz).
  pose proof bar_flags_u8 as Hfl. destruct Hf as (_ & Hid0 & Hoff & _ & Hzero).
  split_and!; [apply registered_wf|done|done| |lia|lia|].
  - eexists. split; [apply list_lookup_insert_eq; by eapply lookup_lt_Some|done].
  - intros j Hj. cbn [registered with_bars with_config with_write_mask config write_mask write_clear_mask].
    assert (Z.of_nat n <= 8) by (by destruct t). split_and!.
    + rewrite splice_testbit by (try done; try lia; apply Z.mod_pos_bound; lia).
      destruct (Z.leb_spec (8 * off) (8 * off + j)); [|lia].
      destruct (Z.ltb_spec (8 * off + j) (8 * (off + Z.of_nat n))); [|lia]. cbn [andb].
      replace (8 * off + j - 8 * off) with j by lia. rewrite bar_mask_testbit by lia.
      by destruct (Z.leb_spec k j); [lia|].
    + apply fresh_bit; [apply Hzero|done|lia].
    + rewrite bit_of_insert by (done || lia || (unfold inW in *; lia)).
      replace (8 * off + j) with (j + off * 8) by lia. rewrite Z.div_add, Z.mod_add by lia.
      rewrite Z2Nat.id by lia. pose proof (Z.div_mod j 8). pose proof (Z.mod_pos_bound j 8).
      destruct (Z.eqb_spec (j / 8 + off) off); [f_equal; lia|].
      replace (j + off * 8) with (8 * off + j) by lia.
      rewrite fresh_bit by (done || lia || apply Hzero). symmetry. apply (testbit_above 4); [done|lia].
Qed.
End register.

(** ** Properties *)

(** BAR addresses.  Once a BAR is registered, whatever the guest writes to
    the configuration space, the address of the BAR is defined and is either
    the unmapped one or a multiple of the size of the BAR, such that the whole
    BAR lies below the end of its 32- or 64-bit space. *)
Theorem bar_address_bounds {L K H} `{!Listener L} `{!IrqKernel K} `{!IntxHandler H}
    fuel (e : PciEnv L K H) gs id region t prefetchable size :
  bar_fresh (pc e) id t -> validate_bar_id (pc e) id = Ok tt ->
  0 <= size < 2 ^ 64 -> validate_bar_size t size = Ok tt ->
  (t = BarIo -> prefetchable = false) -> (t <> BarIo -> 16 <= size) -> Forall gw_ok gs ->
  exists e1 a, on_pc (register_bar id region t prefetchable size) e = (e1, Ok tt) /\
    get_bar_address (pc (guest_writes fuel gs e1)) id = Ok a /\
    (a = BAR_SPACE_UNMAPPED \/
     a `mod` size = 0 /\ 0 <= a /\ a + size <= match t with Mem64Bit => 2 ^ 64 | _ => 2 ^ 32 end).
Proof.
  intros Hf Hid Hs Hsz Hio Hmin Hgs.
  destruct (validate_bar_size_pow2 t size Hs Hsz) as (k & -> & Hk & Hk2).
  assert (bar_low t <= k) as Hlow.
  { destruct t; cbn [bar_low]; [by apply Hk2|..]; (apply (Z.pow_le_mono_r_iff 2); [lia|lia|by apply Hmin]). }
  destruct (register_bar_eq (pc e) id k region t prefetchable) as (b & Hb & Hreg); try done.
  assert (bar_ready (registered (pc e) id k region t prefetchable b) id t prefetchable k) as Hready
    by (by apply registered_ready).
  set (c1 := registered _ _ _ _ _ _ _) in *. set (e1 := mkPciEnv c1 (world e) (irqs e) (ienv e)).
  assert (bar_ready (pc (guest_writes fuel gs e1)) id t prefetchable k) as Hready'.
  { apply (bar_ready_keeps c1); [|done]. apply guest_writes_keep; [|done]. by destruct Hready. }
  destruct (bar_address_cases _ _ _ _ _ Hready') as (a & Ha & Hcases).
  exists e1, a. split_and!; [unfold on_pc; by rewrite Hreg|done|].
  destruct Hcases as [->| ->]; [by left|right].
  pose proof (bar_addr_aligned _ _ _ _ _ Hready') as Hal. by destruct t.
Qed.

Lemma ex_pci_fresh id : 0 <= id < 2 -> bar_fresh ex_pci id Mem32Bit.
Proof.
  intros Hid. assert (id = 0 \/ id = 1) as [-> | ->] by lia;
    (split_and!; [apply ex_pci_wf|done|done|vm_compute; by eexists|]); intros i Hi;
    (assert (i = 0 \/ i = 1 \/ i = 2 \/ i = 3) as [-> |[-> |[-> | ->]]] by (cbn in Hi; lia));
    split; vm_compute; reflexivity.
Qed.

Example bar_address_bounds_witness :
  exists e1 a, on_pc (register_bar 1 1%positive Mem32Bit false 0x4000) ex_pci_env = (e1, Ok tt) /\
    get_bar_address (pc (guest_writes 1 [mkGuestWrite 0x14 [0xff; 0xff; 0xff; 0xff] 0 None None] e1)) 1 = Ok a /\
    (a = BAR_SPACE_UNMAPPED \/ a `mod` 0x4000 = 0 /\ 0 <= a /\ a + 0x4000 <= 2 ^ 32).
Proof.
  assert (validate_bar_id (pc ex_pci_env) 1 = Ok tt) as Hid by (vm_compute; reflexivity).
  assert (validate_bar_size Mem32Bit 0x4000 = Ok tt) as Hsz by (vm_compute; reflexivity).
  assert (Forall gw_ok [mkGuestWrite 0x14 [0xff; 0xff; 0xff; 0xff] 0 None None]) as Hgs
    by (repeat constructor; done).
  exact (bar_address_bounds 1 ex_pci_env [mkGuestWrite 0x14 [0xff; 0xff; 0xff; 0xff] 0 None None] 1 1%positive
    Mem32Bit false 0x4000 (ex_pci_fresh 1 ltac:(lia)) Hid ltac:(lia) Hsz ltac:(done) ltac:(lia) Hgs).
Defined.

(** Reset passes no parent regions, and [update_bar_mapping] returns at the
    first BAR that moved without one: of two mapped BARs only the first is
    unmapped, although the command register no longer enables either. *)
Definition ex_two_bars : PciEnv Log LogKernel (gmap Z bool) :=
  let b a := mkBar Mem32Bit a 0x1000 None None None in
  mkPciEnv (with_bars ex_pci [b 0x1000; b 0x2000]) ex_world ex_fds (mkIntxEnv ∅ ∅).

Example reset_unmaps_first_bar_only :
  let c := pc (reset 1 ex_two_bars).1 in
  (address <$> bars c) = [BAR_SPACE_UNMAPPED; 0x2000] /\
  get_bar_address c 0 = Ok BAR_SPACE_UNMAPPED /\ get_bar_address c 1 = Ok BAR_SPACE_UNMAPPED.
Proof. vm_compute. done. Qed.

(** ** The mapping follows the registers *)

Section follow.
Context {L K H : Type} `{!Listener L} `{!IrqKernel K} `{!IntxHandler H}.
Context (fuel : nat) (io mem : rid).
Abbreviation Env := (PciEnv L K H).

(** A call changes at most BAR [id] and leaves its size. *)
Definition only_bar (id : Z) (e e' : Env) : Prop :=
  config (pc e') = config (pc e) /\ (bar_type <$> bars (pc e')) = (bar_type <$> bars (pc e)) /\
  (bar_size <$> bars (pc e')) = (bar_size <$> bars (pc e)) /\
  forall i, i <> Z.to_nat id -> bars (pc e') !! i = bars (pc e) !! i.

#[local] Instance only_bar_refl id : Reflexive (only_bar id).
Proof. intros e. by split_and!. Qed.
#[local] Instance only_bar_trans id : Transitive (only_bar id).
Proof.
  intros e1 e2 e3 (? & ? & ? & Ha) (? & ? & ? & Hb). split_and!; try congruence.
  intros i Hi. by rewrite Hb, Ha.
Qed.

Lemma only_bar_set id f :
  (forall b, bar_type (f b) = bar_type b /\ bar_size (f b) = bar_size b) -> srel (only_bar id) (set_bar id f).
Proof.
  intros Hf e. destruct (bytes_bar id f Hf e) as (? & _ & _ & ? & ?). split_and!; try done.
  intros i Hi. simpl. by rewrite list_lookup_alter_ne by done.
Qed.
Lemma only_bar_read id {A} (f : PciConfig -> res PciError A) : srel (only_bar id) (on_pc (rd f)).
Proof. intros e. by split_and!. Qed.
Lemma only_bar_world id m err : srel (only_bar id) (on_world m err).
Proof. intros e. unfold on_world. by destruct (m (world e)). Qed.

Ltac bar_step :=
  first [ apply (srel_bind _); [|intros ?] | apply (srel_ret _) | apply (srel_lift _)
        | apply only_bar_read | apply only_bar_world | (apply only_bar_set; by intros []) ].

Lemma unmap_bar_only id : srel (only_bar id) (unmap_bar fuel id).
Proof.
  unfold unmap_bar, get_bar. bar_step; [bar_step|]. destruct (_ =? _); [bar_step|].
  bar_step; [|bar_step]. destruct (bar_type _).
  - destruct (parent_io_region _); repeat bar_step.
  - destruct (parent_mem_region _); repeat bar_step.
  - destruct (parent_mem_region _); repeat bar_step.
Qed.

Lemma map_bar_only id a : srel (only_bar id) (map_bar fuel id a (Some io) (Some mem)).
Proof.
  unfold map_bar, get_bar. bar_step; [bar_step|]. bar_step; [|bar_step].
  destruct (bar_type _); repeat bar_step.
Qed.

Lemma get_bar_address_ext c c' id :
  config c' = config c -> (bar_type <$> bars c') = (bar_type <$> bars c) ->
  get_bar_address c' id = get_bar_address c id.
Proof.
  intros Hc Ht. unfold get_bar_address. rewrite Hc.
  apply (f_equal (fun l => l !! Z.to_nat id)) in Ht. cbn beta in Ht. rewrite !list_lookup_fmap in Ht.
  destruct (bars c' !! Z.to_nat id), (bars c !! Z.to_nat id); try done. injection Ht as Ht.
  cbn [unwrap mbind res_bind]. by rewrite Ht.
Qed.

(** The address of the BAR after a call that ends by setting it. *)
Lemma set_address_last id a (m : sres Env PciError unit) e e' :
  srel (only_bar id) m -> (_ ← m; set_bar id (set_address a)) e = (e', Ok tt) ->
  forall b, bars (pc e') !! Z.to_nat id = Some b -> address b = a.
Proof.
  intros Hm Hrun b Hb. apply sres_bind_Ok in Hrun as ([] & e1 & Hm1 & Hset).
  injection Hset as <-. cbn in Hb. rewrite list_lookup_alter_eq in Hb.
  destruct (bars (pc e1) !! Z.to_nat id); [|done]. by injection Hb as <-.
Qed.

Lemma unmap_bar_address id (e e' : Env) b :
  unmap_bar fuel id e = (e', Ok tt) -> bars (pc e') !! Z.to_nat id = Some b -> address b = BAR_SPACE_UNMAPPED.
Proof.
  unfold unmap_bar. intros Hrun Hb. apply sres_bind_Ok in Hrun as (b0 & e1 & Hget & Hrun).
  injection Hget as <- Hget. destruct (Z.eqb_spec (address b0) BAR_SPACE_UNMAPPED) as [Heq|].
  - injection Hrun as <-. cbn in Hb. rewrite Hb in Hget. by injection Hget as ->.
  - eapply set_address_last; [|exact Hrun|exact Hb]. destruct (bar_type b0).
    + destruct (parent_io_region b0); repeat bar_step.
    + destruct (parent_mem_region b0); repeat bar_step.
    + destruct (parent_mem_region b0); repeat bar_step.
Qed.

Lemma map_bar_address id a (e e' : Env) b :
  map_bar fuel id a (Some io) (Some mem) e = (e', Ok tt) ->
  bars (pc e') !! Z.to_nat id = Some b -> address b = a.
Proof.
  unfold map_bar. intros Hrun Hb. apply sres_bind_Ok in Hrun as (b0 & e1 & _ & Hrun).
  eapply set_address_last; [|exact Hrun|exact Hb]. destruct (bar_type b0); repeat bar_step.
Qed.

(** BAR [i] is mapped where its register says. *)
Definition bar_synced (e : Env) (i : Z) : Prop :=
  forall b, bars (pc e) !! Z.to_nat i = Some b -> bar_size b <> 0 ->
    get_bar_address (pc e) i = Ok (address b).

(** What one turn of the loop leaves. *)
Definition turn_ok (id : Z) (e e' : Env) : Prop := only_bar id e e' /\ bar_synced e' id.

Lemma update_bars_follow n : forall id (e e' : Env),
  0 <= id -> update_bars fuel n id (Some io) (Some mem) e = (e', Ok tt) ->
  config (pc e') = config (pc e) /\ (bar_type <$> bars (pc e')) = (bar_type <$> bars (pc e)) /\
  (forall i, 0 <= i < id -> bars (pc e') !! Z.to_nat i = bars (pc e) !! Z.to_nat i) /\
  forall i, id <= i < id + Z.of_nat n -> bar_synced e' i.
Proof.
  induction n as [|n IH]; intros id e e' Hid Hrun; cbn [update_bars] in Hrun.
  { injection Hrun as <-. split_and!; try done. lia. }
  assert (exists e1, turn_ok id e e1 /\
    update_bars fuel n (id + 1) (Some io) (Some mem) e1 = (e', Ok tt)) as (e1 & [Honly Hsync] & Hrest).
  { apply sres_bind_Ok in Hrun as (b & e0 & Hget & Hrun). injection Hget as <- Hget.
    destruct (bars (pc e) !! Z.to_nat id) as [b'|] eqn:Hb; [|done]. injection Hget as ->.
    destruct (Z.eqb_spec (bar_size b) 0) as [Hz|Hz].
    { exists e. split; [split; [reflexivity|]|by destruct e]. intros b1 Hb1 ?. congruence. }
    apply sres_bind_Ok in Hrun as (a & e0 & Hget & Hrun). injection Hget as <- Hget.
    destruct (Z.eqb_spec (address b) a) as [<-|Hne].
    { exists e. split; [split; [reflexivity|]|by destruct e]. intros b1 Hb1 ?. congruence. }
    apply sres_bind_Ok in Hrun as ([] & e2 & Hun & Hrun).
    assert (is_bar_region_empty b (Some io) (Some mem) = false) as Hfull
      by (unfold is_bar_region_empty; by destruct (bar_type b)).
    rewrite Hfull in Hrun. apply sres_bind_Ok in Hrun as ([] & e3 & Hmap & Hrun).
    exists e3. split; [|done]. pose proof (unmap_bar_only id e) as Ho2.
    replace (mkPciEnv _ _ _ _) with e in Hun by (by destruct e).
    assert (only_bar id e e3 /\ forall b3, bars (pc e3) !! Z.to_nat id = Some b3 -> address b3 = a) as [Ho3 Ha].
    { rewrite Hun in Ho2. destruct (Z.eqb_spec a BAR_SPACE_UNMAPPED) as [->|].
      - injection Hmap as <-. split; [done|]. intros. by eapply unmap_bar_address.
      - pose proof (map_bar_only id a e2) as Ho3. rewrite Hmap in Ho3. split; [by etrans|].
        intros. by eapply map_bar_address. }
    split; [done|]. intros b3 Hb3 _. rewrite (Ha b3 Hb3), <-Hget. apply get_bar_address_ext; apply Ho3. }
  destruct (IH (id + 1) e1 e') as (Hc & Ht & Hbefore & Hafter); [lia|done|].
  destruct Honly as (Hc1 & Ht1 & _ & Hother). split_and!; try congruence.
  - intros i Hi. rewrite Hbefore by lia. apply Hother. lia.
  - intros i Hi. destruct (decide (i = id)) as [->|]; [|apply Hafter; lia].
    intros b Hb Hz. rewrite (get_bar_address_ext (pc e1)) by done. apply Hsync; [|done].
    by rewrite <-Hbefore by lia.
Qed.
End follow.

(** The BARs follow their registers: an update that is given both parent
    regions and succeeds leaves every BAR at the address of its register. *)
Theorem update_bar_mapping_follows {L K H} `{!Listener L} `{!IrqKernel K} `{!IntxHandler H}
    fuel io mem (e e' : PciEnv L K H) :
  update_bar_mapping fuel (Some io) (Some mem) e = (e', Ok tt) ->
  config (pc e') = config (pc e) /\
  forall i b, bars (pc e') !! i = Some b -> bar_size b <> 0 ->
    get_bar_address (pc e') (Z.of_nat i) = Ok (address b).
Proof.
  intros Hrun. unfold update_bar_mapping in Hrun. apply sres_bind_Ok in Hrun as (e1 & e0 & Hget & Hrun).
  injection Hget as <- <-. destruct (update_bars_follow fuel io mem (length (bars (pc e))) 0 e e') as (Hc & Ht & _ & Hs); [done|done|].
  split; [done|]. intros i b Hb Hz. apply (Hs (Z.of_nat i)); [|by rewrite Nat2Z.id|done].
  apply lookup_lt_Some in Hb. apply (f_equal length) in Ht. rewrite !length_fmap in Ht. lia.
Qed.
