(* ===== verification/Aml.v ===== *)
(** * The AML compiler ([acpi/src/aml_compiler.rs])

    Every structure of the source with its constructor and its byte stream.
    Structures a macro of the source defines are one record over the macro's
    arguments.  Strings are their UTF-8 bytes.  The constructors and
    [aml_bytes] panic on bad arguments; they have no other error. *)
From stdpp Require Import prelude list.
From Stdlib Require Import ZArith Lia.
From S2P Require Import Prelude.

Abbreviation str := (list Z).
Abbreviation ares := (res unit).

Definition ACPI_NAME_SEG_MAX : Z := 4.
Definition BACKSLASH : Z := 0x5C.
Definition CARET : Z := 0x5E.
Definition DOT : Z := 0x2E.
Definition UNDERSCORE : Z := 0x5F.

(** ** Traits *)

Class AmlBuilder (T : Type) := aml_bytes : T -> ares (list Z).

(** Bytes that are already encoded: what a structure keeps of a child. *)
#[export] Instance bytes_builder : AmlBuilder (list Z) := fun b => Ok b.

(** ** Integers and strings *)

(** [zero_one_define!] *)
Inductive ZeroOne (byte : Z) : Type := mkZeroOne.
#[export] Instance ZeroOne_builder byte : AmlBuilder (ZeroOne byte) := fun _ => Ok [byte].
Definition AmlZero : ZeroOne 0x00 := mkZeroOne _.
Definition AmlOne : ZeroOne 0x01 := mkZeroOne _.
Definition AmlOnes : ZeroOne 0xFF := mkZeroOne _.

(** [aml_bytes_type_define!]: the opcode and the width in bytes. *)
Record BytesType (op : Z) (w : nat) := mkBytesType { bt_value : Z }.
Arguments mkBytesType {op w}.
Arguments bt_value {op w}.
#[export] Instance BytesType_builder op w : AmlBuilder (BytesType op w) :=
  fun x => Ok (op :: le_bytes w (bt_value x)).
Definition AmlByte : Z -> BytesType 0x0A 1 := mkBytesType.
Definition AmlWord : Z -> BytesType 0x0B 2 := mkBytesType.
Definition AmlDWord : Z -> BytesType 0x0C 4 := mkBytesType.
Definition AmlQWord : Z -> BytesType 0x0E 8 := mkBytesType.

Record AmlInteger := mkAmlInteger { int_value : Z }.
#[export] Instance AmlInteger_builder : AmlBuilder AmlInteger := fun x =>
  let v := int_value x in
  if v =? 0 then aml_bytes AmlZero
  else if v =? 1 then aml_bytes AmlOne
  else if v <=? 0xFF then aml_bytes (AmlByte (wrap 8 v))
  else if v <=? 0xFFFF then aml_bytes (AmlWord (wrap 16 v))
  else if v <=? 0xFFFFFFFF then aml_bytes (AmlDWord (wrap 32 v))
  else aml_bytes (AmlQWord v).

Record AmlString := mkAmlString { string_value : str }.
#[export] Instance AmlString_builder : AmlBuilder AmlString := fun x =>
  Ok (0x0D :: string_value x ++ [0x00]).

(** ** Names *)

Definition build_name_seg (name : str) : ares (list Z) :=
  if ACPI_NAME_SEG_MAX <? Z.of_nat (length name) then Panic
  else Ok (name ++ replicate (4 - length name) UNDERSCORE).

(** [name.split(sep).collect()] *)
Fixpoint split (sep : Z) (s : str) : list str :=
  match s with
  | [] => [[]]
  | c :: s =>
    if c =? sep then [] :: split sep s
    else match split sep s with [] => [[c]] | w :: ws => (c :: w) :: ws end
  end.

Definition is_prefix_char (c : Z) : bool := (c =? BACKSLASH) || (c =? CARET).

(** The loop over the characters of the first segment: the prefix characters
    pushed and [index], which keeps its initial 0 when no other character
    follows. *)
Fixpoint scan_prefix (i : nat) (s : str) : list Z * nat :=
  match s with
  | [] => ([], O)
  | c :: s => if is_prefix_char c then let '(b, index) := scan_prefix (S i) s in (c :: b, index)
              else ([], i)
  end.

(** [strs.iter().skip(1).for_each(..)] *)
Fixpoint build_segs (strs : list str) : ares (list Z) :=
  match strs with
  | [] => Ok []
  | s :: strs => b ← build_name_seg s; bs ← build_segs strs; Ok (b ++ bs)
  end.

Definition build_name_string (name : str) : ares (list Z) :=
  let strs := split DOT name in
  if (255 <? length strs)%nat then Panic
  else
    match strs with
    | [] => Panic
    | first_str :: rest =>
      let '(bytes, index) := scan_prefix 0 first_str in
      let remain_first := drop index first_str in
      match rest with
      | [] =>
        if bool_decide (remain_first = []) then Ok (bytes ++ [0x00])
        else b ← build_name_seg remain_first; Ok (bytes ++ b)
      | [second] =>
        b1 ← build_name_seg remain_first; b2 ← build_name_seg second;
        Ok (bytes ++ [0x2E] ++ b1 ++ b2)
      | _ =>
        b1 ← build_name_seg remain_first; bs ← build_segs rest;
        Ok (bytes ++ [0x2F; wrap 8 (Z.of_nat (length strs))] ++ b1 ++ bs)
      end
    end.

Record AmlNameDecl := mkNameDecl { nd_name : str; nd_obj : list Z }.
Definition AmlNameDecl_new {T} `{!AmlBuilder T} (name : str) (obj : T) : ares AmlNameDecl :=
  o ← aml_bytes obj; Ok (mkNameDecl name o).
#[export] Instance AmlNameDecl_builder : AmlBuilder AmlNameDecl := fun x =>
  n ← build_name_string (nd_name x); Ok (0x08 :: n ++ nd_obj x).

Record AmlName := mkAmlName { name_value : str }.
#[export] Instance AmlName_builder : AmlBuilder AmlName := fun x => build_name_string (name_value x).

(** [char::to_digit(16)] of an ASCII character, unwrapped. *)
Definition to_digit16 (c : Z) : ares Z :=
  if (0x30 <=? c) && (c <=? 0x39) then Ok (c - 0x30)
  else if (0x61 <=? c) && (c <=? 0x66) then Ok (c - 0x61 + 10)
  else if (0x41 <=? c) && (c <=? 0x46) then Ok (c - 0x41 + 10)
  else Panic.
Definition is_ascii_hexdigit (c : Z) : bool :=
  match to_digit16 c with Ok _ => true | _ => false end.

Record AmlEisaId := mkEisaId { eisa_name : str }.
Definition AmlEisaId_new (name : str) : ares AmlEisaId :=
  if (length name =? 7)%nat then Ok (mkEisaId name) else Panic.
(** The characters of an ASCII name. *)
#[export] Instance AmlEisaId_builder : AmlBuilder AmlEisaId := fun x =>
  match eisa_name x with
  | [c0; c1; c2; c3; c4; c5; c6] =>
    d3 ← to_digit16 c3; d4 ← to_digit16 c4; d5 ← to_digit16 c5; d6 ← to_digit16 c6;
    let dword := Z.lor (Z.lor (Z.lor (Z.lor (Z.lor (Z.lor
                   (wshl 32 (wsub 32 c0 0x40) 26) (wshl 32 (wsub 32 c1 0x40) 21))
                   (wshl 32 (wsub 32 c2 0x40) 16)) (wshl 32 d3 12)) (wshl 32 d4 8)) (wshl 32 d5 4)) d6 in
    Ok (0x0C :: rev (le_bytes 4 dword))
  | _ => Panic
  end.

(** ** Package lengths and buffers *)

Definition build_pkg_length (length : Z) (include_self : bool) : list Z :=
  let bytes_count :=
    if wadd 64 length 1 <? 2 ^ 6 then 1
    else if wadd 64 length 2 <? 2 ^ 12 then 2
    else if wadd 64 length 3 <? 2 ^ 20 then 3
    else 4 in
  let pkg_length := if include_self then wadd 64 length bytes_count else length in
  let lead n := wrap 8 (Z.lor (Z.shiftl n 6) (Z.land pkg_length 0xF)) in
  let byte n := wrap 8 (Z.shiftr pkg_length n) in
  if bytes_count =? 1 then [wrap 8 pkg_length]
  else if bytes_count =? 2 then [lead 1; byte 4]
  else if bytes_count =? 3 then [lead 2; byte 4; byte 12]
  else [lead 3; byte 4; byte 12; byte 20].

Definition len (b : list Z) : Z := Z.of_nat (length b).

Record AmlBuffer := mkAmlBuffer { buffer_value : list Z }.
#[export] Instance AmlBuffer_builder : AmlBuilder AmlBuffer := fun x =>
  len_bytes ← aml_bytes (mkAmlInteger (len (buffer_value x)));
  Ok (0x11 :: build_pkg_length (len len_bytes + len (buffer_value x)) true
        ++ len_bytes ++ buffer_value x).

Record AmlToUuid := mkUuid { uuid_name : str }.
(** [uuid.chars().nth(i).unwrap() == '-'] at the four positions, then the
    digits. *)
Definition check_valid_uuid (uuid : str) : bool :=
  (length uuid =? 36)%nat &&
  forallb (fun i => bool_decide (uuid !! i = Some 0x2D)) [8; 13; 18; 23]%nat &&
  forallb (fun c => (c =? 0x2D) || is_ascii_hexdigit c) uuid.
Definition AmlToUuid_new (s : str) : ares AmlToUuid :=
  if check_valid_uuid s then Ok (mkUuid s) else Panic.

Definition uuid_index : list nat := [6; 4; 2; 0; 11; 9; 16; 14; 19; 21; 24; 26; 28; 30; 32; 34]%nat.
Fixpoint uuid_loop (name : str) (index : list nat) : ares (list Z) :=
  match index with
  | [] => Ok []
  | i :: index =>
    c1 ← unwrap (name !! i); d1 ← to_digit16 c1;
    c2 ← unwrap (name !! S i); d2 ← to_digit16 c2;
    bs ← uuid_loop name index;
    Ok (Z.lor (wshl 8 d1 4) d2 :: bs)
  end.
#[export] Instance AmlToUuid_builder : AmlBuilder AmlToUuid := fun x =>
  uuid_bytes ← uuid_loop (uuid_name x) uuid_index;
  len_bytes ← aml_bytes (mkAmlInteger (len uuid_bytes));
  Ok (0x11 :: build_pkg_length (len len_bytes + len uuid_bytes) true ++ len_bytes ++ uuid_bytes).

(** ** Structures with children

    An opcode, the length of the content, the content. *)
Record AmlBlock (op : list Z) := mkBlock { buf : list Z }.
Arguments mkBlock {op}.
Arguments buf {op}.
#[export] Instance AmlBlock_builder op : AmlBuilder (AmlBlock op) := fun x =>
  Ok (op ++ build_pkg_length (len (buf x)) true ++ buf x).
(** [AmlScopeBuilder::append_child] *)
Definition append_child {op T} `{!AmlBuilder T} (x : AmlBlock op) (child : T) : ares (AmlBlock op) :=
  b ← aml_bytes child; Ok (mkBlock (buf x ++ b)).

Definition AmlPackage := AmlBlock [0x12].
Definition AmlPackage_new (elem_count : Z) : AmlPackage := mkBlock [elem_count].
Definition AmlVarPackage := AmlBlock [0x13].
Definition AmlVarPackage_new (elem_count : Z) : AmlVarPackage := mkBlock [elem_count].

Definition AmlScope := AmlBlock [0x10].
Definition AmlScope_new (name : str) : ares AmlScope := n ← build_name_string name; Ok (mkBlock n).
Definition AmlScope_append (x : AmlScope) (data : list Z) : AmlScope := mkBlock (buf x ++ data).
Definition AmlDevice := AmlBlock [0x5B; 0x82].
Definition AmlDevice_new (name : str) : ares AmlDevice := n ← build_name_string name; Ok (mkBlock n).

Definition AmlMethod := AmlBlock [0x14].
Definition AmlMethod_new (name : str) (args_count : Z) (serialized : bool) : ares AmlMethod :=
  if 7 <? args_count then Panic
  else
    let flag := if serialized then Z.lor args_count 8 else args_count in
    n ← build_name_string name; Ok (mkBlock (n ++ [flag])).

Definition AmlIf := AmlBlock [0xA0].
Definition AmlIf_new {T} `{!AmlBuilder T} (predicate : T) : ares AmlIf :=
  p ← aml_bytes predicate; Ok (mkBlock p).
Definition AmlElse := AmlBlock [0xA1].
Definition AmlElse_new : AmlElse := mkBlock [].
Definition AmlWhile := AmlBlock [0xA2].
Definition AmlWhile_new {T} `{!AmlBuilder T} (predicate : T) : ares AmlWhile :=
  p ← aml_bytes predicate; Ok (mkBlock p).

(** ** Operation regions and fields *)

Inductive AmlAddressSpaceType :=
| SystemMemory | SystemIO | PCIConfig | EmbeddedControl | SMBus | SystemCMOS | PciBarTarget | IPMI
| GeneralPurposeIO | GenericSerialBus | PCC.
Definition space_type_code (t : AmlAddressSpaceType) : Z :=
  match t with
  | SystemMemory => 0 | SystemIO => 1 | PCIConfig => 2 | EmbeddedControl => 3 | SMBus => 4
  | SystemCMOS => 5 | PciBarTarget => 6 | IPMI => 7 | GeneralPurposeIO => 8
  | GenericSerialBus => 9 | PCC => 10
  end.

Record AmlOpRegion := mkOpRegion {
  or_name : str;
  or_space : AmlAddressSpaceType;
  or_offset : Z;
  or_length : Z
}.
#[export] Instance AmlOpRegion_builder : AmlBuilder AmlOpRegion := fun x =>
  n ← build_name_string (or_name x);
  o ← aml_bytes (mkAmlInteger (or_offset x));
  l ← aml_bytes (mkAmlInteger (or_length x));
  Ok ([0x5B; 0x80] ++ n ++ [space_type_code (or_space x)] ++ o ++ l).

Inductive AmlFieldAccessType := AccAny | AccByte | AccWord | AccDWord | AccQWord | AccBuffer.
Definition access_code (a : AmlFieldAccessType) : Z :=
  match a with
  | AccAny => 0 | AccByte => 1 | AccWord => 2 | AccDWord => 3 | AccQWord => 4 | AccBuffer => 5
  end.
Inductive AmlFieldLockRule := NoLock | Lock.
Definition lock_code (l : AmlFieldLockRule) : Z := match l with NoLock => 0 | Lock => 1 end.
Inductive AmlFieldUpdateRule := Preserve | WriteAsOnes | WriteAsZeros.
Definition update_code (u : AmlFieldUpdateRule) : Z :=
  match u with Preserve => 0 | WriteAsOnes => 1 | WriteAsZeros => 2 end.

Definition field_flag (acc_ty : AmlFieldAccessType) (lock_r : AmlFieldLockRule)
    (update_r : AmlFieldUpdateRule) : Z :=
  Z.lor (Z.lor (wshl 8 (update_code update_r) 5) (wshl 8 (lock_code lock_r) 1))
    (Z.land (access_code acc_ty) 0x0F).
Definition AmlField := AmlBlock [0x5B; 0x81].
Definition AmlField_new (name : str) (acc_ty : AmlFieldAccessType) (lock_r : AmlFieldLockRule)
    (update_r : AmlFieldUpdateRule) : ares AmlField :=
  n ← build_name_string name; Ok (mkBlock (n ++ [field_flag acc_ty lock_r update_r])).

Record AmlFieldUnit := mkFieldUnit { fu_name : option str; fu_length : Z }.
#[export] Instance AmlFieldUnit_builder : AmlBuilder AmlFieldUnit := fun x =>
  n ← match fu_name x with Some s => build_name_seg s | None => Ok [0x00] end;
  Ok (n ++ build_pkg_length (fu_length x) false).

(** ** Methods: locals, arguments, calls, operators *)

Record AmlLocal := mkAmlLocal { local_no : Z }.
#[export] Instance AmlLocal_builder : AmlBuilder AmlLocal := fun x =>
  if 7 <? local_no x then Panic else Ok [wadd 8 0x60 (local_no x)].
Record AmlArg := mkAmlArg { arg_no : Z }.
#[export] Instance AmlArg_builder : AmlBuilder AmlArg := fun x =>
  if 6 <? arg_no x then Panic else Ok [wadd 8 0x68 (arg_no x)].

Record AmlReturn := mkAmlReturn { ret_value : list Z }.
Definition AmlReturn_new : AmlReturn := mkAmlReturn [0x00].
Definition AmlReturn_with_value {T} `{!AmlBuilder T} (val : T) : ares AmlReturn :=
  v ← aml_bytes val; Ok (mkAmlReturn v).
#[export] Instance AmlReturn_builder : AmlBuilder AmlReturn := fun x => Ok (0xA4 :: ret_value x).

(** [method_call_define!] *)
Record AmlCall := mkAmlCall { call_name : str; call_buf : list Z }.
#[export] Instance AmlCall_builder : AmlBuilder AmlCall := fun x =>
  n ← build_name_string (call_name x); Ok (n ++ call_buf x).
Definition AmlCallWithArgs1_new {A} `{!AmlBuilder A} (name : str) (arg0 : A) : ares AmlCall :=
  a0 ← aml_bytes arg0; Ok (mkAmlCall name a0).
Definition AmlCallWithArgs2_new {A B} `{!AmlBuilder A} `{!AmlBuilder B} (name : str) (arg0 : A) (arg1 : B)
  : ares AmlCall :=
  a0 ← aml_bytes arg0; a1 ← aml_bytes arg1; Ok (mkAmlCall name (a0 ++ a1)).
Definition AmlCallWithArgs3_new {A B C} `{!AmlBuilder A} `{!AmlBuilder B} `{!AmlBuilder C}
    (name : str) (arg0 : A) (arg1 : B) (arg2 : C) : ares AmlCall :=
  a0 ← aml_bytes arg0; a1 ← aml_bytes arg1; a2 ← aml_bytes arg2; Ok (mkAmlCall name (a0 ++ a1 ++ a2)).
Definition AmlCallWithArgs4_new {A B C D} `{!AmlBuilder A} `{!AmlBuilder B} `{!AmlBuilder C} `{!AmlBuilder D}
    (name : str) (arg0 : A) (arg1 : B) (arg2 : C) (arg3 : D) : ares AmlCall :=
  a0 ← aml_bytes arg0; a1 ← aml_bytes arg1; a2 ← aml_bytes arg2; a3 ← aml_bytes arg3;
  Ok (mkAmlCall name (a0 ++ a1 ++ a2 ++ a3)).
Definition AmlCallWithArgs5_new {A B C D E} `{!AmlBuilder A} `{!AmlBuilder B} `{!AmlBuilder C}
    `{!AmlBuilder D} `{!AmlBuilder E}
    (name : str) (arg0 : A) (arg1 : B) (arg2 : C) (arg3 : D) (arg4 : E) : ares AmlCall :=
  a0 ← aml_bytes arg0; a1 ← aml_bytes arg1; a2 ← aml_bytes arg2; a3 ← aml_bytes arg3; a4 ← aml_bytes arg4;
  Ok (mkAmlCall name (a0 ++ a1 ++ a2 ++ a3 ++ a4)).

(** [ops_2args_dst_define!] *)
Record Ops2Dst (op : Z) := mkOps2Dst { od_arg1 : list Z; od_arg2 : list Z; od_dst : list Z }.
Arguments mkOps2Dst {op}.
Arguments od_arg1 {op}.
Arguments od_arg2 {op}.
Arguments od_dst {op}.
Definition Ops2Dst_new op {A B D} `{!AmlBuilder A} `{!AmlBuilder B} `{!AmlBuilder D} (a1 : A) (a2 : B) (d : D)
  : ares (Ops2Dst op) :=
  b1 ← aml_bytes a1; b2 ← aml_bytes a2; bd ← aml_bytes d; Ok (mkOps2Dst b1 b2 bd).
#[export] Instance Ops2Dst_builder op : AmlBuilder (Ops2Dst op) := fun x =>
  Ok (op :: od_arg1 x ++ od_arg2 x ++ od_dst x).
Definition AmlAdd := Ops2Dst 0x72.
Definition AmlSubtract := Ops2Dst 0x74.
Definition AmlConcat := Ops2Dst 0x73.
Definition AmlAnd := Ops2Dst 0x7B.
Definition AmlOr := Ops2Dst 0x7D.
Definition AmlShiftLeft := Ops2Dst 0x79.
Definition AmlShiftRight := Ops2Dst 0x7A.
Definition AmlIndex := Ops2Dst 0x88.

(** [ops_1arg_define!] *)
Record Ops1 (op : Z) := mkOps1 { o1_arg : list Z }.
Arguments mkOps1 {op}.
Arguments o1_arg {op}.
Definition Ops1_new op {T} `{!AmlBuilder T} (a1 : T) : ares (Ops1 op) :=
  b ← aml_bytes a1; Ok (mkOps1 b).
#[export] Instance Ops1_builder op : AmlBuilder (Ops1 op) := fun x => Ok (op :: o1_arg x).
Definition AmlIncrement := Ops1 0x75.
Definition AmlDecrement := Ops1 0x76.
Definition AmlLNot := Ops1 0x92.
Definition AmlSizeOf := Ops1 0x87.
Definition AmlDeRefOf := Ops1 0x83.

(** [ops_2arg_define!] *)
Record Ops2 (op : Z) := mkOps2 { o2_arg1 : list Z; o2_arg2 : list Z }.
Arguments mkOps2 {op}.
Arguments o2_arg1 {op}.
Arguments o2_arg2 {op}.
Definition Ops2_new op {A B} `{!AmlBuilder A} `{!AmlBuilder B} (a1 : A) (a2 : B) : ares (Ops2 op) :=
  b1 ← aml_bytes a1; b2 ← aml_bytes a2; Ok (mkOps2 b1 b2).
#[export] Instance Ops2_builder op : AmlBuilder (Ops2 op) := fun x => Ok (op :: o2_arg1 x ++ o2_arg2 x).
Definition AmlStore := Ops2 0x70.
Definition AmlNotify := Ops2 0x86.
Definition AmlEqual := Ops2 0x93.
Definition AmlLGreater := Ops2 0x94.
Definition AmlLLess := Ops2 0x95.
Definition AmlLAnd := Ops2 0x90.
Definition AmlLOr := Ops2 0x91.

(** ** Mutexes and buffer fields *)

Record AmlMutex := mkAmlMutex { mutex_name : str; sync_level : Z }.
Definition AmlMutex_new (name : str) (level : Z) : ares AmlMutex :=
  if 15 <? level then Panic else Ok (mkAmlMutex name level).
#[export] Instance AmlMutex_builder : AmlBuilder AmlMutex := fun x =>
  n ← build_name_string (mutex_name x); Ok ([0x5B; 0x01] ++ n ++ [sync_level x]).

Record AmlAcquire := mkAmlAcquire { acq_mutex : list Z; time_out : Z }.
Definition AmlAcquire_new {T} `{!AmlBuilder T} (mtx : T) (timeout : Z) : ares AmlAcquire :=
  m ← aml_bytes mtx; Ok (mkAmlAcquire m timeout).
#[export] Instance AmlAcquire_builder : AmlBuilder AmlAcquire := fun x =>
  Ok ([0x5B; 0x23] ++ acq_mutex x ++ le_bytes 2 (time_out x)).

Record AmlRelease := mkAmlRelease { rel_mutex : list Z }.
Definition AmlRelease_new {T} `{!AmlBuilder T} (mtx : T) : ares AmlRelease :=
  m ← aml_bytes mtx; Ok (mkAmlRelease m).
#[export] Instance AmlRelease_builder : AmlBuilder AmlRelease := fun x => Ok ([0x5B; 0x27] ++ rel_mutex x).

(** [create_word_field_define!] *)
Record CreateField (op : Z) := mkCreateField { cf_name : str; cf_src : list Z; cf_index : list Z }.
Arguments mkCreateField {op}.
Arguments cf_name {op}.
Arguments cf_src {op}.
Arguments cf_index {op}.
Definition CreateField_new op {S T} `{!AmlBuilder S} `{!AmlBuilder T} (src : S) (bit_index : T) (name : str)
  : ares (CreateField op) :=
  s ← aml_bytes src; i ← aml_bytes bit_index; Ok (mkCreateField name s i).
#[export] Instance CreateField_builder op : AmlBuilder (CreateField op) := fun x =>
  n ← build_name_string (cf_name x); Ok (op :: cf_src x ++ cf_index x ++ n).
Definition AmlCreateWordField := CreateField 0x8B.
Definition AmlCreateDWordField := CreateField 0x8A.
Definition AmlCreateQWordField := CreateField 0x8F.

(** ** Resource templates *)

Record AmlResTemplate := mkResTemplate { rt_buf : list Z }.
Definition AmlResTemplate_new : AmlResTemplate := mkResTemplate [].
Definition AmlResTemplate_append_child {T} `{!AmlBuilder T} (x : AmlResTemplate) (child : T)
  : ares AmlResTemplate :=
  b ← aml_bytes child; Ok (mkResTemplate (rt_buf x ++ b)).
#[export] Instance AmlResTemplate_builder : AmlBuilder AmlResTemplate := fun x =>
  n ← aml_bytes (mkAmlInteger (len (rt_buf x) + 2));
  let bytes := n ++ rt_buf x ++ [0x79; 0x00] in
  Ok (0x11 :: build_pkg_length (len bytes) true ++ bytes).

Inductive AmlDmaType := Compatibility | TypeA | TypeB | TypeF.
Definition dma_type_code (t : AmlDmaType) : Z :=
  match t with Compatibility => 0 | TypeA => 1 | TypeB => 2 | TypeF => 3 end.
Inductive AmlDmaTransSize := Size8 | Size8_16 | Size16.
Definition dma_size_code (s : AmlDmaTransSize) : Z :=
  match s with Size8 => 0 | Size8_16 => 1 | Size16 => 2 end.
Record AmlDmaResource := mkDma {
  dma_type : AmlDmaType;
  is_master : bool;
  trans_sz : AmlDmaTransSize;
  channel : Z
}.
Definition AmlDmaResource_new (t : AmlDmaType) (master : bool) (sz : AmlDmaTransSize) (ch : Z)
  : ares AmlDmaResource :=
  if 7 <? ch then Panic else Ok (mkDma t master sz ch).
#[export] Instance AmlDmaResource_builder : AmlBuilder AmlDmaResource := fun x =>
  let flags := Z.lor (dma_size_code (trans_sz x)) (wshl 8 (dma_type_code (dma_type x)) 5) in
  let flags := if is_master x then Z.lor flags 4 else flags in
  Ok [0x2A; wshl 8 1 (channel x); flags].

Inductive AmlIoDecode := Decode10 | Decode16.
Definition io_decode_code (d : AmlIoDecode) : Z := match d with Decode10 => 0 | Decode16 => 1 end.
Record AmlIoResource := mkIoResource {
  io_decode : AmlIoDecode;
  io_min : Z;
  io_max : Z;
  io_align : Z;
  io_length : Z
}.
#[export] Instance AmlIoResource_builder : AmlBuilder AmlIoResource := fun x =>
  Ok [0x47; io_decode_code (io_decode x); Z.land (io_min x) 0xFF; wrap 8 (Z.shiftr (io_min x) 8);
      Z.land (io_max x) 0xFF; wrap 8 (Z.shiftr (io_max x) 8); io_align x; io_length x].

Inductive AmlReadAndWrite := ReadOnly | ReadWrite.
Definition rw_code (r : AmlReadAndWrite) : Z := match r with ReadOnly => 0 | ReadWrite => 1 end.
Record AmlMemory32Fixed := mkMemory32 { m32_rw : AmlReadAndWrite; m32_addr : Z; m32_length : Z }.
#[export] Instance AmlMemory32Fixed_builder : AmlBuilder AmlMemory32Fixed := fun x =>
  Ok ([0x86; 0x09; 0x00; rw_code (m32_rw x)] ++ le_bytes 4 (m32_addr x) ++ le_bytes 4 (m32_length x)).

Inductive AmlCacheable := NonCacheable | Cacheable | WriteCombining | Prefetchable.
Definition cache_code (c : AmlCacheable) : Z :=
  match c with NonCacheable => 0 | Cacheable => 1 | WriteCombining => 2 | Prefetchable => 3 end.
Inductive AmlISARanges := ISAOnly | NonISAOnly | EntireRange.
Definition isa_code (r : AmlISARanges) : Z := match r with ISAOnly => 1 | NonISAOnly => 2 | EntireRange => 3 end.
Inductive AmlResourceType := ResMemory | ResIO | ResBusNumber.
Definition res_type_code (t : AmlResourceType) : Z :=
  match t with ResMemory => 0 | ResIO => 1 | ResBusNumber => 2 end.
Inductive AmlAddressSpaceDecode := Positive | Subtract.
Definition decode_code (d : AmlAddressSpaceDecode) : Z := match d with Positive => 0 | Subtract => 1 end.

(** [space_desc_define!]: opcode, length byte, width in bytes. *)
Record SpaceDesc (op ml : Z) (w : nat) := mkSpaceDesc {
  res_type : AmlResourceType;
  sd_decode : AmlAddressSpaceDecode;
  type_flags : Z;
  granularity : Z;
  addr_min : Z;
  addr_max : Z;
  addr_trans : Z;
  sd_length : Z
}.
Arguments mkSpaceDesc {op ml w}.
Arguments res_type {op ml w}.
Arguments sd_decode {op ml w}.
Arguments type_flags {op ml w}.
Arguments granularity {op ml w}.
Arguments addr_min {op ml w}.
Arguments addr_max {op ml w}.
Arguments addr_trans {op ml w}.
Arguments sd_length {op ml w}.
#[export] Instance SpaceDesc_builder op ml w : AmlBuilder (SpaceDesc op ml w) := fun x =>
  let flags := Z.lor (Z.lor (wshl 8 (decode_code (sd_decode x)) 1) 4) 8 in
  Ok ([op; ml; 0x00; res_type_code (res_type x); flags; type_flags x]
      ++ le_bytes w (granularity x) ++ le_bytes w (addr_min x) ++ le_bytes w (addr_max x)
      ++ le_bytes w (addr_trans x) ++ le_bytes w (sd_length x)).
(** [struct_new_memory_define!], [struct_new_io_define!] *)
Definition new_memory {op ml w} (decode : AmlAddressSpaceDecode) (cache : AmlCacheable) (rw : AmlReadAndWrite)
    (gran min max trans l : Z) : SpaceDesc op ml w :=
  mkSpaceDesc ResMemory decode (Z.lor (rw_code rw) (wshl 8 (cache_code cache) 1)) gran min max trans l.
Definition new_io {op ml w} (decode : AmlAddressSpaceDecode) (isa_ranges : AmlISARanges)
    (gran min max trans l : Z) : SpaceDesc op ml w :=
  mkSpaceDesc ResIO decode (isa_code isa_ranges) gran min max trans l.
Definition AmlWordDesc := SpaceDesc 0x88 0x0D 2.
Definition new_bus_number (decode : AmlAddressSpaceDecode) (gran min max trans l : Z) : AmlWordDesc :=
  mkSpaceDesc ResBusNumber decode 0 gran min max trans l.
Definition AmlDWordDesc := SpaceDesc 0x87 23 4.
Definition AmlQWordDesc := SpaceDesc 0x8A 0x2B 8.

Record AmlIrqNoFlags := mkIrqNoFlags { irq : Z }.
Definition AmlIrqNoFlags_new (n : Z) : ares AmlIrqNoFlags :=
  if 15 <? n then Panic else Ok (mkIrqNoFlags n).
#[export] Instance AmlIrqNoFlags_builder : AmlBuilder AmlIrqNoFlags := fun x =>
  let irq_mask := wshl 32 1 (irq x) in
  Ok [0x22; Z.land irq_mask 0xFF; wrap 8 (Z.shiftr irq_mask 8)].

Inductive AmlResourceUsage := Producer | Consumer.
Definition usage_code (u : AmlResourceUsage) : Z := match u with Producer => 0 | Consumer => 1 end.
Inductive AmlEdgeLevel := Level | Edge.
Definition edge_code (e : AmlEdgeLevel) : Z := match e with Level => 0 | Edge => 1 end.
Inductive AmlActiveLevel := High | Low.
Definition active_code (a : AmlActiveLevel) : Z := match a with High => 0 | Low => 1 end.
Inductive AmlIntShare := Exclusive | Share | ExclusiveWake | ShareWake.
Definition share_code (s : AmlIntShare) : Z :=
  match s with Exclusive => 0 | Share => 1 | ExclusiveWake => 2 | ShareWake => 3 end.
Record AmlExtendedInterrupt := mkExtInterrupt {
  usage : AmlResourceUsage;
  int_mode : AmlEdgeLevel;
  int_polar : AmlActiveLevel;
  share : AmlIntShare;
  irq_list : list Z
}.
Definition AmlExtendedInterrupt_new (u : AmlResourceUsage) (mode : AmlEdgeLevel) (polar : AmlActiveLevel)
    (sh : AmlIntShare) (irqs : list Z) : ares AmlExtendedInterrupt :=
  if bool_decide (irqs = []) then Panic else Ok (mkExtInterrupt u mode polar sh irqs).
#[export] Instance AmlExtendedInterrupt_builder : AmlBuilder AmlExtendedInterrupt := fun x =>
  let n := Z.of_nat (length (irq_list x)) in
  let total_len := wadd 16 2 (wrap 16 (n * 4)) in
  let flags := Z.lor (Z.lor (Z.lor (usage_code (usage x)) (wshl 8 (edge_code (int_mode x)) 1))
                 (wshl 8 (active_code (int_polar x)) 2)) (wshl 8 (share_code (share x)) 3) in
  Ok ([0x89] ++ le_bytes 2 total_len ++ [flags; wrap 8 n]
      ++ concat (map (le_bytes 4) (irq_list x))).
