(* ===== verification/AmlParse.v ===== *)
(** * What the AML compiler emits ([acpi/src/aml_compiler.rs])

    A parser of the AML grammar (ACPI specification, chapter 20), written
    against the specification and not against the compiler, and the theorem
    that it reads back every object built with [Aml.v].  Resource templates
    have a parser of their own.  [arity] gives the number of arguments of the
    methods in scope, which the grammar needs to read a call. *)
From stdpp Require Import prelude list strings.
From Stdlib Require Import ZArith Lia.
From Stdlib Require Ascii String.
From S2P Require Import Prelude Aml.

(** ** Numbers *)

Fixpoint take_bytes (n : nat) (bs : list Z) : option (list Z * list Z) :=
  match n with
  | O => Some ([], bs)
  | S n => match bs with
           | [] => None
           | b :: bs => '(l, r) ← take_bytes n bs; Some (b :: l, r)
           end
  end.

Lemma take_bytes_app l r : take_bytes (length l) (l ++ r) = Some (l, r).
Proof. induction l as [|b l IH]; [done|]. simpl. by rewrite IH. Qed.

Definition parse_num (w : nat) (bs : list Z) : option (Z * list Z) :=
  '(l, r) ← take_bytes w bs; Some (le_val l, r).

Lemma parse_num_app w v r :
  0 <= v < 2 ^ (8 * Z.of_nat w) -> parse_num w (le_bytes w v ++ r) = Some (v, r).
Proof.
  intros Hv. unfold parse_num. pose proof (take_bytes_app (le_bytes w v) r) as H.
  rewrite le_bytes_length in H. rewrite H. simpl. by rewrite le_val_le_bytes, Z.mod_small.
Qed.

(** PkgLength: the two high bits of the lead byte count the bytes that follow;
    with none, the low six bits are the length, else the low four are its
    least significant ones.  The length and the number of bytes it took. *)
Definition parse_pkg_length (bs : list Z) : option (Z * Z * list Z) :=
  match bs with
  | [] => None
  | b :: bs =>
    if b / 64 =? 0 then Some (b, 1, bs)
    else '(v, r) ← parse_num (Z.to_nat (b / 64)) bs; Some (b `mod` 16 + 16 * v, 1 + b / 64, r)
  end.

Lemma pkg_lead n p : 0 <= n < 4 -> 0 <= p -> wrap 8 (Z.lor (Z.shiftl n 6) (Z.land p 15)) = 64 * n + p `mod` 16.
Proof.
  intros Hn Hp. change 15 with (Z.ones 4). rewrite Z.land_ones by lia. change (2 ^ 4) with 16.
  pose proof (Z.mod_pos_bound p 16).
  assert (Z.land (Z.shiftl n 6) (p `mod` 16) = 0) as Hland.
  { apply Z.bits_inj'. intros k ?. rewrite Z.land_spec, Z.shiftl_spec, Z.testbit_0_l by lia.
    destruct (decide (k < 6)); [by rewrite (Z.testbit_neg_r _ (k - 6)) by lia|].
    rewrite (testbit_above 4 (p `mod` 16)) by (unfold inW; lia). apply andb_false_r. }
  rewrite <-Z.lxor_lor, <-Z.add_nocarry_lxor by exact Hland.
  rewrite Z.shiftl_mul_pow2 by lia. change (2 ^ 6) with 64. rewrite wrap_small; [lia|unfold inW; lia].
Qed.

Lemma pkg_byte n p : 0 <= n -> 0 <= p -> wrap 8 (Z.shiftr p n) = (p / 2 ^ n) `mod` 256.
Proof. intros. unfold wrap. by rewrite Z.shiftr_div_pow2. Qed.

(** Bytes the length of [n] bytes of content takes. *)
Definition pkg_count (n : Z) : Z :=
  if n + 1 <? 64 then 1 else if n + 2 <? 4096 then 2 else if n + 3 <? 1048576 then 3 else 4.

Lemma pkg_count_range n : 1 <= pkg_count n <= 4.
Proof. unfold pkg_count. zcases; lia. Qed.

Lemma parse_pkg_multi k p r :
  (0 < k < 4)%nat -> 0 <= p < 16 * 2 ^ (8 * Z.of_nat k) ->
  parse_pkg_length (64 * Z.of_nat k + p `mod` 16 :: le_bytes k (p / 16) ++ r) = Some (p, 1 + Z.of_nat k, r).
Proof.
  intros Hk Hp. pose proof (Z.mod_pos_bound p 16). cbn [parse_pkg_length].
  replace ((64 * Z.of_nat k + p `mod` 16) / 64) with (Z.of_nat k)
    by (rewrite Z.mul_comm, Z.add_comm, Z.div_add, Z.div_small by lia; lia).
  destruct (Z.eqb_spec (Z.of_nat k) 0); [lia|]. rewrite Nat2Z.id, parse_num_app.
  - cbn. do 3 f_equal. replace (64 * Z.of_nat k) with (Z.of_nat k * 4 * 16) by lia.
    rewrite Z.add_comm, (Z.add_comm (_ * 16)), Z.mod_add, Z.mod_mod by lia. pose proof (Z.div_mod p 16). lia.
  - split; [apply Z.div_pos; lia|apply Z.div_lt_upper_bound; lia].
Qed.

Lemma build_pkg_length_eq n (self : bool) :
  0 <= n < 2 ^ 28 - 4 ->
  let p := if self then n + pkg_count n else n in
  build_pkg_length n self =
    if pkg_count n =? 1 then [p]
    else 64 * (pkg_count n - 1) + p `mod` 16 :: le_bytes (Z.to_nat (pkg_count n - 1)) (p / 16).
Proof.
  intros Hn p. unfold build_pkg_length, pkg_count in *. rewrite !(wadd_small 64 n) by (unfold inW; lia).
  change (2 ^ 6) with 64. change (2 ^ 12) with 4096. change (2 ^ 20) with 1048576.
  assert (forall k, 0 <= k <= 4 -> (if self then wadd 64 n k else n) = if self then n + k else n) as Hw
    by (intros; destruct self; [apply wadd_small; unfold inW; lia|done]).
  assert (forall x, 0 <= x -> x / 16 / 256 = x / 2 ^ 12 /\ x / 16 / 256 / 256 = x / 2 ^ 20) as Hdd
    by (intros; rewrite !Z.div_div by lia; done).
  destruct (Z.ltb_spec (n + 1) 64); [|destruct (Z.ltb_spec (n + 2) 4096); [|destruct (Z.ltb_spec (n + 3) 1048576)]];
    cbn [Z.eqb Pos.eqb]; rewrite Hw by lia; subst p.
  - rewrite wrap_small; [done|]. unfold inW. destruct self; lia.
  - rewrite pkg_lead, pkg_byte by (destruct self; lia). done.
  - rewrite pkg_lead, !pkg_byte by (destruct self; lia).
    destruct (Hdd (if self then n + 3 else n)) as [Hd1 _]; [destruct self; lia|].
    change (Z.to_nat (3 - 1)) with 2%nat. cbn [le_bytes]. by rewrite Hd1.
  - rewrite pkg_lead, !pkg_byte by (destruct self; lia).
    destruct (Hdd (if self then n + 4 else n)) as [Hd1 Hd2]; [destruct self; lia|].
    change (Z.to_nat (4 - 1)) with 3%nat. cbn [le_bytes]. by rewrite Hd2, Hd1.
Qed.

Lemma build_pkg_length_len n self : 0 <= n < 2 ^ 28 - 4 -> len (build_pkg_length n self) = pkg_count n.
Proof.
  intros Hn. rewrite build_pkg_length_eq by done. cbv zeta. pose proof (pkg_count_range n).
  destruct (Z.eqb_spec (pkg_count n) 1) as [->|]; [done|]. unfold len. cbn [length].
  rewrite le_bytes_length. lia.
Qed.

(** The round trip of package lengths. *)
Lemma build_pkg_length_parse n (self : bool) r :
  0 <= n < 2 ^ 28 - 4 ->
  parse_pkg_length (build_pkg_length n self ++ r) =
    Some ((if self then n + pkg_count n else n), pkg_count n, r).
Proof.
  intros Hn. rewrite build_pkg_length_eq by done. cbv zeta. pose proof (pkg_count_range n).
  assert ((if self then n + pkg_count n else n) < 16 * 2 ^ (8 * (pkg_count n - 1)) \/ pkg_count n = 1) as Hb.
  { unfold pkg_count. destruct self; zcases; cbn; lia. }
  destruct (Z.eqb_spec (pkg_count n) 1) as [H1|].
  - cbn [app parse_pkg_length]. rewrite H1. unfold pkg_count in H1.
    rewrite Z.div_small; [done|]. destruct self; zcases; lia.
  - replace (64 * (pkg_count n - 1)) with (64 * Z.of_nat (Z.to_nat (pkg_count n - 1))) by lia.
    cbn [app]. rewrite parse_pkg_multi; [do 3 f_equal; lia|lia|].
    rewrite Z2Nat.id by lia. destruct self; lia.
Qed.

(** ** Names *)

(** Root and parent prefixes, and the segments, of four characters each. *)
Record aname := mkName { nm_prefix : list Z; nm_segs : list (list Z) }.

#[export] Instance aname_eq_dec : EqDecision aname.
Proof. solve_decision. Defined.

Definition is_lead_char (c : Z) : bool := ((0x41 <=? c) && (c <=? 0x5A)) || (c =? UNDERSCORE).
Definition is_name_char (c : Z) : bool := is_lead_char c || ((0x30 <=? c) && (c <=? 0x39)).
Definition seg_ok (s : list Z) : bool :=
  match s with
  | [a; b; c; d] => is_lead_char a && is_name_char b && is_name_char c && is_name_char d
  | _ => false
  end.
Definition name_ok (n : aname) : bool :=
  forallb is_prefix_char (nm_prefix n) && forallb seg_ok (nm_segs n) &&
  (0 <? length (nm_segs n))%nat && (length (nm_segs n) <=? 255)%nat.

(** The name as the string given to the compiler. *)
Fixpoint join (segs : list (list Z)) : list Z :=
  match segs with [] => [] | [s] => s | s :: segs => s ++ DOT :: join segs end.
Definition print_name (n : aname) : str := nm_prefix n ++ join (nm_segs n).

(** The name in AML. *)
Definition encode_name (n : aname) : list Z :=
  nm_prefix n ++
  match nm_segs n with
  | [s] => s
  | [s1; s2] => 0x2E :: s1 ++ s2
  | segs => 0x2F :: Z.of_nat (length segs) :: concat segs
  end.

Fixpoint strip_prefix (bs : list Z) : list Z * list Z :=
  match bs with
  | b :: bs' => if is_prefix_char b then let '(p, r) := strip_prefix bs' in (b :: p, r) else ([], bs)
  | [] => ([], [])
  end.
Fixpoint parse_segs (k : nat) (bs : list Z) : option (list (list Z) * list Z) :=
  match k with
  | O => Some ([], bs)
  | S k => '(s, bs) ← take_bytes 4 bs; '(segs, r) ← parse_segs k bs; Some (s :: segs, r)
  end.
Definition parse_name (bs : list Z) : option (aname * list Z) :=
  let '(p, r) := strip_prefix bs in
  '(segs, r) ← (match r with
    | b :: r' =>
      if b =? 0x2E then parse_segs 2 r'
      else if b =? 0x2F then match r' with k :: r'' => parse_segs (Z.to_nat k) r'' | [] => None end
      else parse_segs 1 r
    | [] => None
    end);
  Some (mkName p segs, r).

Lemma seg_ok_inv s :
  seg_ok s = true -> length s = 4%nat /\ (DOT ∉ s) /\
    exists c s', s = c :: s' /\ is_lead_char c = true.
Proof.
  destruct s as [|a [|b [|c [|d [|]]]]]; try done. cbn. intros Hs.
  repeat (apply andb_true_iff in Hs as [Hs ?]). split_and!; [done| |by eexists _, _].
  assert (forall x, is_name_char x = true -> DOT <> x) as Hd.
  { intros x. unfold is_name_char, is_lead_char, DOT, UNDERSCORE. lia. }
  assert (is_name_char a = true) by (unfold is_name_char; by rewrite Hs).
  rewrite !not_elem_of_cons. split_and!; try (by apply Hd). apply not_elem_of_nil.
Qed.

Lemma lead_not_prefix c : is_lead_char c = true -> is_prefix_char c = false /\ c <> 0x2E /\ c <> 0x2F.
Proof. unfold is_lead_char, is_prefix_char, UNDERSCORE, BACKSLASH, CARET. lia. Qed.

Lemma split_no_sep sep s : sep ∉ s -> split sep s = [s].
Proof.
  induction s as [|c s IH]; intros Hn; [done|]. apply not_elem_of_cons in Hn as [? Hn]. cbn [split].
  destruct (Z.eqb_spec c sep); [congruence|]. by rewrite IH.
Qed.
Lemma split_app_sep sep s r : sep ∉ s -> split sep (s ++ sep :: r) = s :: split sep r.
Proof.
  induction s as [|c s IH]; intros Hn; cbn [split app]; [by rewrite Z.eqb_refl|].
  apply not_elem_of_cons in Hn as [? Hn]. destruct (Z.eqb_spec c sep); [congruence|]. by rewrite IH.
Qed.

Lemma prefix_no_dot p : forallb is_prefix_char p = true -> DOT ∉ p.
Proof.
  intros Hp Hin. rewrite forallb_forall in Hp. apply list_elem_of_In in Hin. by specialize (Hp _ Hin).
Qed.

Lemma split_print p s segs :
  DOT ∉ p -> Forall (fun s => DOT ∉ s) (s :: segs) -> split DOT (p ++ join (s :: segs)) = (p ++ s) :: segs.
Proof.
  intros Hp Hs. revert p s Hp Hs. induction segs as [|s2 segs IH]; intros p s Hp Hs.
  - apply Forall_cons in Hs as [Hs _]. apply split_no_sep. rewrite not_elem_of_app. done.
  - apply Forall_cons in Hs as [Hs Hrest]. change (join (s :: s2 :: segs)) with (s ++ DOT :: join (s2 :: segs)).
    rewrite app_assoc, split_app_sep by (rewrite not_elem_of_app; done). f_equal.
    apply (IH [] s2); [apply not_elem_of_nil|done].
Qed.

Lemma scan_prefix_app p c s : forall i,
  forallb is_prefix_char p = true -> is_prefix_char c = false ->
  scan_prefix i (p ++ c :: s) = (p, (i + length p)%nat).
Proof.
  induction p as [|b p IH]; intros i Hp Hc; cbn [scan_prefix app].
  - rewrite Hc. f_equal. simpl. lia.
  - apply andb_true_iff in Hp as [-> Hp]. rewrite IH by done. f_equal. simpl. lia.
Qed.

Lemma build_name_seg_ok s : seg_ok s = true -> build_name_seg s = Ok s.
Proof.
  intros (Hl & _)%seg_ok_inv. unfold build_name_seg, ACPI_NAME_SEG_MAX. rewrite Hl. cbn. by rewrite app_nil_r.
Qed.
Lemma build_segs_ok segs : forallb seg_ok segs = true -> build_segs segs = Ok (concat segs).
Proof.
  induction segs as [|s segs IH]; intros Hs; [done|]. apply andb_true_iff in Hs as [Hs Hr].
  cbn [build_segs]. rewrite build_name_seg_ok, IH by done. done.
Qed.

(** The compiler's bytes of a well-formed name. *)
Lemma build_name_print n : name_ok n = true -> build_name_string (print_name n) = Ok (encode_name n).
Proof.
  destruct n as [p segs]. unfold name_ok, print_name, encode_name. cbn [nm_prefix nm_segs]. intros Hok.
  apply andb_true_iff in Hok as [Hok Hmax%Nat.leb_le]. apply andb_true_iff in Hok as [Hok Hpos].
  apply andb_true_iff in Hok as [Hok Hsegs]. destruct segs as [|s segs]; [done|].
  assert (Forall (fun s => DOT ∉ s) (s :: segs)) as Hnd.
  { apply Forall_forall. intros x Hx%list_elem_of_In. rewrite forallb_forall in Hsegs. by apply seg_ok_inv, Hsegs. }
  unfold build_name_string. rewrite split_print by (done || by apply prefix_no_dot).
  cbn [length] in Hmax |- *. destruct (Nat.ltb_spec 255 (S (length segs))); [lia|].
  cbn [forallb] in Hsegs. apply andb_true_iff in Hsegs as [Hs Hsegs].
  destruct (seg_ok_inv s Hs) as (Hl & _ & c & s' & -> & Hc). apply lead_not_prefix in Hc as (Hc & _).
  rewrite scan_prefix_app by done. rewrite Nat.add_0_l, drop_app_length.
  destruct segs as [|s2 [|s3 segs]].
  - rewrite bool_decide_eq_false_2 by done. by rewrite build_name_seg_ok.
  - cbn [forallb] in Hsegs. apply andb_true_iff in Hsegs as [? _]. by rewrite !build_name_seg_ok.
  - rewrite build_name_seg_ok, build_segs_ok by done. cbn [mbind res_bind].
    rewrite wrap_small by (unfold inW; cbn [length] in *; lia). done.
Qed.

Lemma strip_prefix_app p c r :
  forallb is_prefix_char p = true -> is_prefix_char c = false ->
  strip_prefix (p ++ c :: r) = (p, c :: r).
Proof.
  induction p as [|b p IH]; intros Hp Hc; cbn [strip_prefix app]; [by rewrite Hc|].
  apply andb_true_iff in Hp as [-> Hp]. by rewrite IH.
Qed.

Lemma parse_segs_app segs r :
  forallb seg_ok segs = true -> parse_segs (length segs) (concat segs ++ r) = Some (segs, r).
Proof.
  induction segs as [|s segs IH]; intros Hs; [done|]. apply andb_true_iff in Hs as [Hs Hr].
  destruct (seg_ok_inv s Hs) as (Hl & _). cbn [length parse_segs concat]. rewrite <-app_assoc.
  rewrite <-Hl, take_bytes_app. cbn. by rewrite IH.
Qed.

(** The parser reads a name back. *)
Lemma parse_encode_name n r : name_ok n = true -> parse_name (encode_name n ++ r) = Some (n, r).
Proof.
  destruct n as [p segs]. unfold name_ok, encode_name, parse_name. cbn [nm_prefix nm_segs]. intros Hok.
  apply andb_true_iff in Hok as [Hok Hmax%Nat.leb_le]. apply andb_true_iff in Hok as [Hok Hpos].
  apply andb_true_iff in Hok as [Hok Hsegs]. rewrite <-app_assoc. destruct segs as [|s segs]; [done|].
  pose proof (parse_segs_app (s :: segs) r Hsegs) as Hparse. destruct segs as [|s2 [|s3 segs]].
  - cbn [concat] in Hparse. rewrite app_nil_r in Hparse. cbn [forallb] in Hsegs.
    apply andb_true_iff in Hsegs as [Hs _]. destruct (seg_ok_inv s Hs) as (_ & _ & c & s' & -> & Hc).
    apply lead_not_prefix in Hc as (Hc & ? & ?). cbn [app]. rewrite strip_prefix_app by done.
    destruct (Z.eqb_spec c 0x2E); [done|]. destruct (Z.eqb_spec c 0x2F); [done|].
    cbn [app length] in Hparse. by rewrite Hparse.
  - cbn [concat] in Hparse. rewrite app_nil_r in Hparse. cbn [app]. rewrite strip_prefix_app by done.
    cbn [Z.eqb Pos.eqb]. cbn [length] in Hparse. by rewrite Hparse.
  - cbn [app]. rewrite strip_prefix_app by done. cbn [Z.eqb Pos.eqb]. rewrite Nat2Z.id. by rewrite Hparse.
Qed.

(** A name begins with a byte no opcode has. *)
Definition is_name_lead (b : Z) : bool :=
  is_prefix_char b || is_lead_char b || (b =? 0x2E) || (b =? 0x2F).

Lemma encode_name_lead n : name_ok n = true -> exists b r, encode_name n = b :: r /\ is_name_lead b = true.
Proof.
  destruct n as [p segs]. unfold name_ok, encode_name, is_name_lead. cbn [nm_prefix nm_segs]. intros Hok.
  apply andb_true_iff in Hok as [Hok _]. apply andb_true_iff in Hok as [Hok Hpos].
  apply andb_true_iff in Hok as [Hp Hsegs]. destruct p as [|b p].
  - destruct segs as [|s [|s2 [|s3 segs]]]; [done| |by eexists _, _..].
    apply andb_true_iff in Hsegs as [Hs _]. destruct (seg_ok_inv s Hs) as (_ & _ & c & s' & -> & Hc).
    exists c, s'. split; [done|]. by rewrite Hc, !orb_true_r.
  - apply andb_true_iff in Hp as [Hb _]. eexists b, _. split; [done|]. by rewrite Hb.
Qed.

(** ** Objects *)

(** A field unit: its segment, or [None] for reserved bits, and its length. *)
Abbreviation unit_decl := (option (list Z) * Z)%type.

(** The structures the macros of the source define. *)
Inductive const := CZero | COne | COnes.
Inductive number := NByte | NWord | NDWord | NQWord.
Inductive op1 := Increment | Decrement | LNot | SizeOf | DeRefOf.
Inductive op2 := Store | Notify | LEqual | LGreater | LLess | LAnd | LOr.
Inductive op3 := Add | Subtract | Concat | And | Or | ShiftLeft | ShiftRight | Index.
Inductive buffer_field := WordField | DWordField | QWordField.

#[warnings="-register-all"]
Inductive term :=
| TConst (c : const)                                  (* AmlZero, AmlOne, AmlOnes *)
| TNum (k : number) (v : Z)                           (* AmlByte, AmlWord, AmlDWord, AmlQWord *)
| TString (s : str)
| TName (n : aname)
| TNameDecl (n : aname) (t : term)
| TBuffer (b : list Z)
| TPackage (count : Z) (ts : list term)
| TVarPackage (count : Z) (ts : list term)
| TOpRegion (n : aname) (space : AmlAddressSpaceType) (offset size : Z)
| TField (n : aname) (acc : AmlFieldAccessType) (lock : AmlFieldLockRule) (upd : AmlFieldUpdateRule)
    (units : list unit_decl)
| TScope (n : aname) (ts : list term)
| TDevice (n : aname) (ts : list term)
| TMethod (n : aname) (args : Z) (serialized : bool) (ts : list term)
| TLocal (i : Z)
| TArg (i : Z)
| TReturn (t : term)
| TCall (n : aname) (args : list term)                (* AmlCallWithArgs1 .. 5 *)
| TOp1 (op : op1) (a : term)                          (* ops_1arg_define! *)
| TOp2 (op : op2) (a b : term)                        (* ops_2arg_define! *)
| TOp3 (op : op3) (a b d : term)                      (* ops_2args_dst_define! *)
| TIf (p : term) (ts : list term)
| TElse (ts : list term)
| TWhile (p : term) (ts : list term)
| TMutex (n : aname) (level : Z)
| TAcquire (m : term) (timeout : Z)
| TRelease (m : term)
| TCreateField (op : buffer_field) (src index : term) (n : aname).

(** The object built with the constructors of the source, its children
    appended one by one. *)
Section children.
Context (encode : term -> ares (list Z)).
Fixpoint append_children {op} (x : AmlBlock op) (ts : list term) : ares (AmlBlock op) :=
  match ts with
  | [] => Ok x
  | t :: ts => b ← encode t; x ← append_child x b; append_children x ts
  end.
Fixpoint encode_list (ts : list term) : ares (list (list Z)) :=
  match ts with
  | [] => Ok []
  | t :: ts => b ← encode t; bs ← encode_list ts; Ok (b :: bs)
  end.
End children.
Fixpoint append_units (x : AmlField) (us : list unit_decl) : ares AmlField :=
  match us with
  | [] => Ok x
  | u :: us => x ← append_child x (mkFieldUnit u.1 u.2); append_units x us
  end.
Definition call_new (name : str) (args : list (list Z)) : ares AmlCall :=
  match args with
  | [a] => AmlCallWithArgs1_new name a
  | [a; b] => AmlCallWithArgs2_new name a b
  | [a; b; c] => AmlCallWithArgs3_new name a b c
  | [a; b; c; d] => AmlCallWithArgs4_new name a b c d
  | [a; b; c; d; e] => AmlCallWithArgs5_new name a b c d e
  | _ => Panic
  end.

Definition const_encode (c : const) : ares (list Z) :=
  match c with CZero => aml_bytes AmlZero | COne => aml_bytes AmlOne | COnes => aml_bytes AmlOnes end.
Definition num_encode (k : number) (v : Z) : ares (list Z) :=
  match k with
  | NByte => aml_bytes (AmlByte v)
  | NWord => aml_bytes (AmlWord v)
  | NDWord => aml_bytes (AmlDWord v)
  | NQWord => aml_bytes (AmlQWord v)
  end.
Definition op1_encode (op : op1) (a : list Z) : ares (list Z) :=
  match op with
  | Increment => x ← (Ops1_new _ a : ares AmlIncrement); aml_bytes x
  | Decrement => x ← (Ops1_new _ a : ares AmlDecrement); aml_bytes x
  | LNot => x ← (Ops1_new _ a : ares AmlLNot); aml_bytes x
  | SizeOf => x ← (Ops1_new _ a : ares AmlSizeOf); aml_bytes x
  | DeRefOf => x ← (Ops1_new _ a : ares AmlDeRefOf); aml_bytes x
  end.
Definition op2_encode (op : op2) (a b : list Z) : ares (list Z) :=
  match op with
  | Store => x ← (Ops2_new _ a b : ares AmlStore); aml_bytes x
  | Notify => x ← (Ops2_new _ a b : ares AmlNotify); aml_bytes x
  | LEqual => x ← (Ops2_new _ a b : ares AmlEqual); aml_bytes x
  | LGreater => x ← (Ops2_new _ a b : ares AmlLGreater); aml_bytes x
  | LLess => x ← (Ops2_new _ a b : ares AmlLLess); aml_bytes x
  | LAnd => x ← (Ops2_new _ a b : ares AmlLAnd); aml_bytes x
  | LOr => x ← (Ops2_new _ a b : ares AmlLOr); aml_bytes x
  end.
Definition op3_encode (op : op3) (a b d : list Z) : ares (list Z) :=
  match op with
  | Add => x ← (Ops2Dst_new _ a b d : ares AmlAdd); aml_bytes x
  | Subtract => x ← (Ops2Dst_new _ a b d : ares AmlSubtract); aml_bytes x
  | Concat => x ← (Ops2Dst_new _ a b d : ares AmlConcat); aml_bytes x
  | And => x ← (Ops2Dst_new _ a b d : ares AmlAnd); aml_bytes x
  | Or => x ← (Ops2Dst_new _ a b d : ares AmlOr); aml_bytes x
  | ShiftLeft => x ← (Ops2Dst_new _ a b d : ares AmlShiftLeft); aml_bytes x
  | ShiftRight => x ← (Ops2Dst_new _ a b d : ares AmlShiftRight); aml_bytes x
  | Index => x ← (Ops2Dst_new _ a b d : ares AmlIndex); aml_bytes x
  end.
Definition buffer_field_encode (f : buffer_field) (src index : list Z) (name : str) : ares (list Z) :=
  match f with
  | WordField => x ← (CreateField_new _ src index name : ares AmlCreateWordField); aml_bytes x
  | DWordField => x ← (CreateField_new _ src index name : ares AmlCreateDWordField); aml_bytes x
  | QWordField => x ← (CreateField_new _ src index name : ares AmlCreateQWordField); aml_bytes x
  end.

Fixpoint encode (t : term) : ares (list Z) :=
  match t with
  | TConst c => const_encode c
  | TNum k v => num_encode k v
  | TString s => aml_bytes (mkAmlString s)
  | TName n => aml_bytes (mkAmlName (print_name n))
  | TNameDecl n t => b ← encode t; x ← AmlNameDecl_new (print_name n) b; aml_bytes x
  | TBuffer b => aml_bytes (mkAmlBuffer b)
  | TPackage c ts => x ← append_children encode (AmlPackage_new c) ts; aml_bytes x
  | TVarPackage c ts => x ← append_children encode (AmlVarPackage_new c) ts; aml_bytes x
  | TOpRegion n sp o l => aml_bytes (mkOpRegion (print_name n) sp o l)
  | TField n acc lock upd us => x ← AmlField_new (print_name n) acc lock upd; x ← append_units x us; aml_bytes x
  | TScope n ts => x ← AmlScope_new (print_name n); x ← append_children encode x ts; aml_bytes x
  | TDevice n ts => x ← AmlDevice_new (print_name n); x ← append_children encode x ts; aml_bytes x
  | TMethod n k s ts => x ← AmlMethod_new (print_name n) k s; x ← append_children encode x ts; aml_bytes x
  | TLocal i => aml_bytes (mkAmlLocal i)
  | TArg i => aml_bytes (mkAmlArg i)
  | TReturn t => b ← encode t; x ← AmlReturn_with_value b; aml_bytes x
  | TCall n args => bs ← encode_list encode args; x ← call_new (print_name n) bs; aml_bytes x
  | TOp1 op a => a ← encode a; op1_encode op a
  | TOp2 op a b => a ← encode a; b ← encode b; op2_encode op a b
  | TOp3 op a b d => a ← encode a; b ← encode b; d ← encode d; op3_encode op a b d
  | TIf p ts => p ← encode p; x ← AmlIf_new p; x ← append_children encode x ts; aml_bytes x
  | TElse ts => x ← append_children encode AmlElse_new ts; aml_bytes x
  | TWhile p ts => p ← encode p; x ← AmlWhile_new p; x ← append_children encode x ts; aml_bytes x
  | TMutex n l => x ← AmlMutex_new (print_name n) l; aml_bytes x
  | TAcquire m t => m ← encode m; x ← AmlAcquire_new m t; aml_bytes x
  | TRelease m => m ← encode m; x ← AmlRelease_new m; aml_bytes x
  | TCreateField f s i n => s ← encode s; i ← encode i; buffer_field_encode f s i (print_name n)
  end.

(** ** The parser *)

(** The opcodes of the specification. *)
Definition const_table : list (Z * const) := [(0x00, CZero); (0x01, COne); (0xFF, COnes)].
Definition num_table : list (Z * number) := [(0x0A, NByte); (0x0B, NWord); (0x0C, NDWord); (0x0E, NQWord)].
Definition op1_table : list (Z * op1) :=
  [(0x75, Increment); (0x76, Decrement); (0x92, LNot); (0x87, SizeOf); (0x83, DeRefOf)].
Definition op2_table : list (Z * op2) :=
  [(0x70, Store); (0x86, Notify); (0x93, LEqual); (0x94, LGreater); (0x95, LLess); (0x90, LAnd); (0x91, LOr)].
Definition op3_table : list (Z * op3) :=
  [(0x72, Add); (0x74, Subtract); (0x73, Concat); (0x7B, And); (0x7D, Or); (0x79, ShiftLeft);
   (0x7A, ShiftRight); (0x88, Index)].
Definition field_table : list (Z * buffer_field) := [(0x8B, WordField); (0x8A, DWordField); (0x8F, QWordField)].

Definition opcode {A} (table : list (Z * A)) (b : Z) : option A :=
  snd <$> List.find (fun x => x.1 =? b) table.
Definition num_width (k : number) : nat :=
  match k with NByte => 1 | NWord => 2 | NDWord => 4 | NQWord => 8 end.

Definition parse_integer (bs : list Z) : option (Z * list Z) :=
  match bs with
  | [] => None
  | b :: r =>
    if (b =? 0x00) || (b =? 0x01) then Some (b, r)
    else k ← opcode num_table b; parse_num (num_width k) r
  end.
Fixpoint parse_cstring (bs : list Z) : option (list Z * list Z) :=
  match bs with
  | [] => None
  | b :: bs => if b =? 0 then Some ([], bs) else '(s, r) ← parse_cstring bs; Some (b :: s, r)
  end.
Definition parse_pkg (bs : list Z) : option (list Z * list Z) :=
  '(l, k, r) ← parse_pkg_length bs; take_bytes (Z.to_nat (l - k)) r.
Definition parse_byte (bs : list Z) : option (Z * list Z) :=
  match bs with b :: r => Some (b, r) | [] => None end.

Definition all_spaces : list AmlAddressSpaceType :=
  [SystemMemory; SystemIO; PCIConfig; EmbeddedControl; SMBus; SystemCMOS; PciBarTarget; IPMI;
   GeneralPurposeIO; GenericSerialBus; PCC].
(** FieldFlags: access type in bits 0 to 3, lock rule in bit 4, update rule in
    bits 5 and 6. *)
Definition parse_access (b : Z) : option AmlFieldAccessType :=
  [AccAny; AccByte; AccWord; AccDWord; AccQWord; AccBuffer] !! Z.to_nat (b `mod` 16).
Definition parse_update (b : Z) : option AmlFieldUpdateRule :=
  [Preserve; WriteAsOnes; WriteAsZeros] !! Z.to_nat (b / 32).
Definition parse_lock (b : Z) : AmlFieldLockRule := if (b / 16) `mod` 2 =? 0 then NoLock else Lock.

Fixpoint parse_units (fuel : nat) (bs : list Z) : option (list unit_decl) :=
  match bs with
  | [] => Some []
  | b :: r =>
    match fuel with
    | O => None
    | S fuel =>
      '(n, r) ← (if b =? 0 then Some (None, r) else '(s, r) ← take_bytes 4 bs; Some (Some s, r));
      '(l, _, r) ← parse_pkg_length r;
      us ← parse_units fuel r; Some ((n, l) :: us)
    end
  end.

Section parse.
Context (arity : aname -> nat).

Section lists.
Context (p : list Z -> option (term * list Z)).
Fixpoint parse_n (k : nat) (bs : list Z) : option (list term * list Z) :=
  match k with
  | O => Some ([], bs)
  | S k => '(t, bs) ← p bs; '(ts, bs) ← parse_n k bs; Some (t :: ts, bs)
  end.
Fixpoint parse_all (k : nat) (bs : list Z) : option (list term) :=
  match bs with
  | [] => Some []
  | _ => match k with
         | O => None
         | S k => '(t, bs) ← p bs; ts ← parse_all k bs; Some (t :: ts)
         end
  end.
Definition parse_list (bs : list Z) : option (list term) := parse_all (length bs) bs.

(** The objects of a block, after what [head] reads. *)
Definition parse_block {A} (head : list Z -> option (A * list Z)) (f : A -> list term -> term)
    (bs : list Z) : option (term * list Z) :=
  '(body, r) ← parse_pkg bs; '(a, body) ← head body; ts ← parse_list body; Some (f a ts, r).

Definition parse_ext (bs : list Z) : option (term * list Z) :=
  '(b, r) ← parse_byte bs;
  if b =? 0x80 then
    '(n, r) ← parse_name r; '(s, r) ← parse_byte r; sp ← all_spaces !! Z.to_nat s;
    '(o, r) ← parse_integer r; '(l, r) ← parse_integer r; Some (TOpRegion n sp o l, r)
  else if b =? 0x81 then
    '(body, r) ← parse_pkg r; '(n, body) ← parse_name body; '(flags, body) ← parse_byte body;
    acc ← parse_access flags; upd ← parse_update flags; us ← parse_units (length body) body;
    Some (TField n acc (parse_lock flags) upd us, r)
  else if b =? 0x82 then parse_block parse_name TDevice r
  else if b =? 0x01 then '(n, r) ← parse_name r; '(l, r) ← parse_byte r; Some (TMutex n l, r)
  else if b =? 0x23 then '(m, r) ← p r; '(t, r) ← parse_num 2 r; Some (TAcquire m t, r)
  else if b =? 0x27 then '(m, r) ← p r; Some (TRelease m, r)
  else None.

(** MethodFlags: argument count in bits 0 to 2, serialized in bit 3; the sync
    level above, which the compiler leaves at 0. *)
Definition parse_method_head (bs : list Z) : option (aname * Z * list Z) :=
  '(n, r) ← parse_name bs; '(flag, r) ← parse_byte r;
  if flag / 16 =? 0 then Some ((n, flag), r) else None.

(** The element count of a variable package is an object, here one of
    constant value. *)
Definition const_value (t : term) : option Z :=
  match t with
  | TConst CZero => Some 0 | TConst COne => Some 1 | TConst COnes => Some (2 ^ 64 - 1)
  | TNum _ v => Some v
  | _ => None
  end.
Definition parse_count (bs : list Z) : option (Z * list Z) :=
  '(t, r) ← p bs; v ← const_value t; Some (v, r).

Definition parse_op (b : Z) (r : list Z) : option (term * list Z) :=
  match opcode const_table b with Some c => Some (TConst c, r) | None =>
  match opcode num_table b with Some k => '(v, r) ← parse_num (num_width k) r; Some (TNum k v, r) | None =>
  match opcode op1_table b with Some o => '(x, r) ← p r; Some (TOp1 o x, r) | None =>
  match opcode op2_table b with Some o => '(x, r) ← p r; '(y, r) ← p r; Some (TOp2 o x y, r) | None =>
  match opcode op3_table b with
  | Some o => '(x, r) ← p r; '(y, r) ← p r; '(d, r) ← p r; Some (TOp3 o x y d, r)
  | None =>
  match opcode field_table b with
  | Some f => '(s, r) ← p r; '(i, r) ← p r; '(n, r) ← parse_name r; Some (TCreateField f s i n, r)
  | None =>
  if b =? 0x0D then '(s, r) ← parse_cstring r; Some (TString s, r)
  else if b =? 0x08 then '(n, r) ← parse_name r; '(t, r) ← p r; Some (TNameDecl n t, r)
  else if b =? 0x11 then
    '(body, r) ← parse_pkg r; '(l, body) ← parse_integer body;
    if l =? len body then Some (TBuffer body, r) else None
  else if b =? 0x12 then parse_block parse_byte TPackage r
  else if b =? 0x13 then parse_block parse_count TVarPackage r
  else if b =? 0x10 then parse_block parse_name TScope r
  else if b =? 0x14 then
    parse_block parse_method_head (fun h => TMethod h.1 (h.2 `mod` 8) (negb (h.2 / 8 =? 0))) r
  else if (0x60 <=? b) && (b <=? 0x67) then Some (TLocal (b - 0x60), r)
  else if (0x68 <=? b) && (b <=? 0x6E) then Some (TArg (b - 0x68), r)
  else if b =? 0xA4 then '(t, r) ← p r; Some (TReturn t, r)
  else if b =? 0xA0 then parse_block p TIf r
  else if b =? 0xA1 then parse_block (fun bs => Some (tt, bs)) (fun _ => TElse) r
  else if b =? 0xA2 then parse_block p TWhile r
  else if b =? 0x5B then parse_ext r
  else None end end end end end end.

Definition parse_step (bs : list Z) : option (term * list Z) :=
  match bs with
  | [] => None
  | b :: r =>
    if is_name_lead b then
      '(n, r) ← parse_name bs;
      if (arity n =? 0)%nat then Some (TName n, r)
      else '(args, r) ← parse_n (arity n) r; Some (TCall n args, r)
    else parse_op b r
  end.
End lists.

Fixpoint parse (fuel : nat) (bs : list Z) : option (term * list Z) :=
  match fuel with O => None | S fuel => parse_step (parse fuel) bs end.

(** ** Well-formed objects and their bytes *)

Definition unit_ok (u : unit_decl) : bool :=
  match u.1 with Some s => seg_ok s | None => true end && (0 <=? u.2) && (u.2 <? 2 ^ 28 - 4).

(** Names have their segments in full and at least one; the three
    restrictions that are not those of the grammar, or of the arguments the
    constructors accept, are on what the compiler encodes wrongly: a name of
    prefixes only, a locked field, a variable package with a count above
    one. *)
Fixpoint term_ok (t : term) : bool :=
  match t with
  | TConst _ => true
  | TNum k v => (0 <=? v) && (v <? 2 ^ (8 * Z.of_nat (num_width k)))
  | TString s => forallb (fun c => negb (c =? 0)) s
  | TName n => name_ok n && (arity n =? 0)%nat
  | TNameDecl n t => name_ok n && term_ok t
  | TBuffer b => len b <? 2 ^ 28
  | TPackage c ts => (0 <=? c) && (c <? 2 ^ 8) && forallb term_ok ts
  | TVarPackage c ts => ((c =? 0) || (c =? 1)) && forallb term_ok ts
  | TOpRegion n _ o l => name_ok n && (0 <=? o) && (o <? 2 ^ 64) && (0 <=? l) && (l <? 2 ^ 64)
  | TField n _ lock _ us => name_ok n && (lock_code lock =? 0) && forallb unit_ok us
  | TScope n ts | TDevice n ts => name_ok n && forallb term_ok ts
  | TMethod n k _ ts => name_ok n && (0 <=? k) && (k <=? 7) && forallb term_ok ts
  | TLocal i => (0 <=? i) && (i <=? 7)
  | TArg i => (0 <=? i) && (i <=? 6)
  | TReturn t => term_ok t
  | TCall n args => name_ok n && (arity n =? length args)%nat && (0 <? length args)%nat &&
                    (length args <=? 5)%nat && forallb term_ok args
  | TOp1 _ a => term_ok a
  | TOp2 _ a b => term_ok a && term_ok b
  | TOp3 _ a b d => term_ok a && term_ok b && term_ok d
  | TIf p ts | TWhile p ts => term_ok p && forallb term_ok ts
  | TElse ts => forallb term_ok ts
  | TMutex n l => name_ok n && (0 <=? l) && (l <=? 15)
  | TAcquire m t => term_ok m && (0 <=? t) && (t <? 2 ^ 16)
  | TRelease m => term_ok m
  | TCreateField _ s i n => term_ok s && term_ok i && name_ok n
  end.

Definition int_bytes (v : Z) : list Z :=
  if v <=? 1 then [v]
  else if v <=? 0xFF then 0x0A :: le_bytes 1 v
  else if v <=? 0xFFFF then 0x0B :: le_bytes 2 v
  else if v <=? 0xFFFFFFFF then 0x0C :: le_bytes 4 v
  else 0x0E :: le_bytes 8 v.
Definition block (op body : list Z) : list Z := op ++ build_pkg_length (len body) true ++ body.
Definition unit_bytes (u : unit_decl) : list Z :=
  match u.1 with Some s => s | None => [0] end ++ build_pkg_length u.2 false.
Definition method_flag (k : Z) (serialized : bool) : Z := if serialized then k + 8 else k.

Definition const_code (c : const) : Z := match c with CZero => 0x00 | COne => 0x01 | COnes => 0xFF end.
Definition num_code (k : number) : Z :=
  match k with NByte => 0x0A | NWord => 0x0B | NDWord => 0x0C | NQWord => 0x0E end.
Definition op1_code (o : op1) : Z :=
  match o with Increment => 0x75 | Decrement => 0x76 | LNot => 0x92 | SizeOf => 0x87 | DeRefOf => 0x83 end.
Definition op2_code (o : op2) : Z :=
  match o with
  | Store => 0x70 | Notify => 0x86 | LEqual => 0x93 | LGreater => 0x94 | LLess => 0x95 | LAnd => 0x90
  | LOr => 0x91
  end.
Definition op3_code (o : op3) : Z :=
  match o with
  | Add => 0x72 | Subtract => 0x74 | Concat => 0x73 | And => 0x7B | Or => 0x7D | ShiftLeft => 0x79
  | ShiftRight => 0x7A | Index => 0x88
  end.
Definition field_code (f : buffer_field) : Z :=
  match f with WordField => 0x8B | DWordField => 0x8A | QWordField => 0x8F end.

Fixpoint bytes_of (t : term) : list Z :=
  match t with
  | TConst c => [const_code c]
  | TNum k v => num_code k :: le_bytes (num_width k) v
  | TString s => 0x0D :: s ++ [0]
  | TName n => encode_name n
  | TNameDecl n t => 0x08 :: encode_name n ++ bytes_of t
  | TBuffer b => block [0x11] (int_bytes (len b) ++ b)
  | TPackage c ts => block [0x12] (c :: concat (map bytes_of ts))
  | TVarPackage c ts => block [0x13] (c :: concat (map bytes_of ts))
  | TOpRegion n sp o l =>
    [0x5B; 0x80] ++ encode_name n ++ space_type_code sp :: int_bytes o ++ int_bytes l
  | TField n acc lock upd us =>
    block [0x5B; 0x81] (encode_name n ++ field_flag acc lock upd :: concat (map unit_bytes us))
  | TScope n ts => block [0x10] (encode_name n ++ concat (map bytes_of ts))
  | TDevice n ts => block [0x5B; 0x82] (encode_name n ++ concat (map bytes_of ts))
  | TMethod n k s ts => block [0x14] (encode_name n ++ method_flag k s :: concat (map bytes_of ts))
  | TLocal i => [0x60 + i]
  | TArg i => [0x68 + i]
  | TReturn t => 0xA4 :: bytes_of t
  | TCall n args => encode_name n ++ concat (map bytes_of args)
  | TOp1 op a => op1_code op :: bytes_of a
  | TOp2 op a b => op2_code op :: bytes_of a ++ bytes_of b
  | TOp3 op a b d => op3_code op :: bytes_of a ++ bytes_of b ++ bytes_of d
  | TIf p ts => block [0xA0] (bytes_of p ++ concat (map bytes_of ts))
  | TElse ts => block [0xA1] (concat (map bytes_of ts))
  | TWhile p ts => block [0xA2] (bytes_of p ++ concat (map bytes_of ts))
  | TMutex n l => [0x5B; 0x01] ++ encode_name n ++ [l]
  | TAcquire m t => [0x5B; 0x23] ++ bytes_of m ++ le_bytes 2 t
  | TRelease m => [0x5B; 0x27] ++ bytes_of m
  | TCreateField op s i n => field_code op :: bytes_of s ++ bytes_of i ++ encode_name n
  end.

(** The element count of a variable package, as the object it is read as. *)
Definition count_term (c : Z) : term := TConst (if c =? 0 then CZero else COne).

Definition children (t : term) : list term :=
  match t with
  | TNameDecl _ t | TReturn t | TOp1 _ t | TAcquire t _ | TRelease t => [t]
  | TVarPackage c ts => count_term c :: ts
  | TPackage _ ts | TScope _ ts | TDevice _ ts | TMethod _ _ _ ts | TCall _ ts | TElse ts => ts
  | TOp2 _ a b | TCreateField _ a b _ => [a; b]
  | TOp3 _ a b d => [a; b; d]
  | TIf p ts | TWhile p ts => p :: ts
  | _ => []
  end.

Lemma forallb_elem {A} (f : A -> bool) l : forallb f l = true <-> forall x, x ∈ l -> f x = true.
Proof. rewrite forallb_forall. by setoid_rewrite list_elem_of_In. Qed.

Ltac split_ok H :=
  repeat (lazymatch type of H with
          | (_ && _)%bool = true => let K := fresh "Hok" in apply andb_true_iff in H as [H K]
          end).

Lemma term_ok_children t : term_ok t = true -> forallb term_ok (children t) = true.
Proof.
  destruct t; cbn [term_ok children forallb]; intros Hok; split_ok Hok; try done;
    rewrite ?Hok, ?Hok0, ?Hok1, ?Hok2; done.
Qed.

Lemma concat_length_elem {A} (f : A -> list Z) x l :
  x ∈ l -> (length (f x) <= length (concat (map f l)))%nat.
Proof.
  induction 1 as [y l|y z l _ IH]; cbn [map concat]; rewrite length_app; lia.
Qed.

Lemma block_length op body : (length body + length op <= length (block op body))%nat.
Proof. unfold block. rewrite !length_app. lia. Qed.

(** The bytes of an object contain those of its children. *)
Lemma child_shorter t c :
  term_ok t = true -> c ∈ children t -> (length (bytes_of c) < length (bytes_of t))%nat.
Proof.
  intros Hok Hc.
  assert (forall n, name_ok n = true -> (0 < length (encode_name n))%nat) as Hname
    by (intros n (b & r & -> & _)%encode_name_lead; simpl; lia).
  destruct t; cbn [children term_ok] in *; try (by apply elem_of_nil in Hc);
    apply (concat_length_elem bytes_of) in Hc; cbn [map concat count_term bytes_of length] in Hc; rewrite ?length_app in Hc;
    cbn [bytes_of length] in *; try (eapply Nat.lt_le_trans; [|apply block_length]);
    rewrite ?length_app; cbn [length]; rewrite ?length_app; cbn [length]; try lia.
  split_ok Hok. specialize (Hname _ Hok). lia.
Qed.

(** Induction on the children of well-formed objects. *)
Lemma term_ok_ind (P : term -> Prop) :
  (forall t, term_ok t = true -> (forall c, c ∈ children t -> term_ok c = true /\ P c) -> P t) ->
  forall t, term_ok t = true -> P t.
Proof.
  intros Hstep t. remember (length (bytes_of t)) as n eqn:Hn. revert t Hn.
  induction (lt_wf n) as [n _ IH]. intros t -> Hok. apply Hstep; [done|]. intros c Hc.
  pose proof (term_ok_children t Hok) as Hch. rewrite forallb_elem in Hch. split; [by apply Hch|].
  eapply IH; [by apply child_shorter|done|by apply Hch].
Qed.

Lemma integer_bytes v : 0 <= v < 2 ^ 64 -> aml_bytes (mkAmlInteger v) = Ok (int_bytes v).
Proof.
  intros Hv. unfold aml_bytes, AmlInteger_builder, int_bytes. cbn [int_value].
  destruct (Z.eqb_spec v 0) as [->|]; [done|]. destruct (Z.eqb_spec v 1) as [->|]; [done|].
  destruct (Z.leb_spec v 1); [lia|]. unfold aml_bytes, BytesType_builder. cbn [bt_value].
  destruct (Z.leb_spec v 0xFF); [by rewrite (wrap_small 8 v) by (unfold inW; lia)|].
  destruct (Z.leb_spec v 0xFFFF); [by rewrite (wrap_small 16 v) by (unfold inW; lia)|].
  destruct (Z.leb_spec v 0xFFFFFFFF); [by rewrite (wrap_small 32 v) by (unfold inW; lia)|done].
Qed.

Lemma append_children_bytes {op} ts : forall x : AmlBlock op,
  (forall t, t ∈ ts -> encode t = Ok (bytes_of t)) ->
  append_children encode x ts = Ok (mkBlock (buf x ++ concat (map bytes_of ts))).
Proof.
  induction ts as [|t ts IH]; intros x Hts; cbn [append_children map concat].
  { by destruct x as [b]; cbn; rewrite app_nil_r. }
  rewrite Hts by constructor. cbn [mbind res_bind append_child]. unfold append_child, aml_bytes, bytes_builder.
  cbn [mbind res_bind]. rewrite IH by (intros; apply Hts; by constructor). cbn [buf]. by rewrite <-app_assoc.
Qed.

Lemma encode_list_bytes ts :
  (forall t, t ∈ ts -> encode t = Ok (bytes_of t)) -> encode_list encode ts = Ok (map bytes_of ts).
Proof.
  induction ts as [|t ts IH]; intros Hts; [done|]. cbn [encode_list map].
  rewrite Hts by constructor. rewrite IH by (intros; apply Hts; by constructor). done.
Qed.

Lemma append_units_bytes us : forall x,
  forallb unit_ok us = true -> append_units x us = Ok (mkBlock (buf x ++ concat (map unit_bytes us))).
Proof.
  induction us as [|[n l] us IH]; intros x Hus; cbn [append_units map concat].
  { by destruct x as [b]; cbn; rewrite app_nil_r. }
  cbn [forallb] in Hus. apply andb_true_iff in Hus as [Hu Hus]. unfold unit_ok in Hu. cbn [fst snd] in Hu.
  split_ok Hu. unfold append_child, aml_bytes, AmlFieldUnit_builder, unit_bytes. cbn [fu_name fu_length fst snd].
  destruct n as [s|]; [rewrite build_name_seg_ok by done|]; cbn [mbind res_bind];
    rewrite IH by done; cbn [buf]; by rewrite <-!app_assoc.
Qed.

Lemma call_new_bytes n (bs : list (list Z)) :
  name_ok n = true -> (0 < length bs <= 5)%nat ->
  (x ← call_new (print_name n) bs; aml_bytes x) = Ok (encode_name n ++ concat bs).
Proof.
  intros Hn Hl. destruct bs as [|a [|b [|c [|d [|e [|]]]]]]; cbn [length] in Hl; try lia;
    cbn [call_new concat]; unfold aml_bytes at 1; cbn [mbind res_bind];
    unfold AmlCallWithArgs1_new, AmlCallWithArgs2_new, AmlCallWithArgs3_new, AmlCallWithArgs4_new,
      AmlCallWithArgs5_new, aml_bytes, bytes_builder; cbn [mbind res_bind];
    unfold AmlCall_builder; cbn [call_name call_buf]; rewrite build_name_print by done;
    cbn [mbind res_bind]; by rewrite ?app_nil_r.
Qed.

Lemma method_flag_eq k (s : bool) : 0 <= k <= 7 -> (if s then Z.lor k 8 else k) = method_flag k s.
Proof.
  intros Hk. destruct s; [|done]. cbn [method_flag].
  assert (k = 0 \/ k = 1 \/ k = 2 \/ k = 3 \/ k = 4 \/ k = 5 \/ k = 6 \/ k = 7) by lia.
  by destruct_or!; subst k.
Qed.

(** The compiler has the opcodes of the specification. *)
Lemma const_encode_eq c : const_encode c = Ok [const_code c].
Proof. by destruct c. Qed.
Lemma num_encode_eq k v : num_encode k v = Ok (num_code k :: le_bytes (num_width k) v).
Proof. by destruct k. Qed.
Lemma op1_encode_eq op a : op1_encode op a = Ok (op1_code op :: a).
Proof. by destruct op. Qed.
Lemma op2_encode_eq op a b : op2_encode op a b = Ok (op2_code op :: a ++ b).
Proof. by destruct op. Qed.
Lemma op3_encode_eq op a b d : op3_encode op a b d = Ok (op3_code op :: a ++ b ++ d).
Proof. by destruct op. Qed.
Lemma buffer_field_encode_eq f src i name :
  buffer_field_encode f src i name = n ← build_name_string name; Ok (field_code f :: src ++ i ++ n).
Proof. by destruct f. Qed.

(** The compiler succeeds on every well-formed object. *)
Lemma encode_bytes t : term_ok t = true -> encode t = Ok (bytes_of t).
Proof.
  revert t. apply term_ok_ind. intros t Hok IH.
  assert (forall c, c ∈ children t -> encode c = Ok (bytes_of c)) as Henc by (intros; by apply IH).
  clear IH.
  assert (forall n, name_ok n = true -> build_name_string (print_name n) = Ok (encode_name n)) as Hn
    by apply build_name_print.
  destruct t; cbn [encode children bytes_of term_ok] in *; split_ok Hok;
    rewrite ?Henc by (repeat constructor); rewrite ?encode_list_bytes by done; cbn [mbind res_bind];
    rewrite ?const_encode_eq, ?num_encode_eq, ?op1_encode_eq, ?op2_encode_eq, ?op3_encode_eq, ?buffer_field_encode_eq;
    unfold AmlNameDecl_new, AmlScope_new, AmlDevice_new, AmlMethod_new, AmlField_new, AmlReturn_with_value,
      AmlIf_new, AmlWhile_new, AmlMutex_new, AmlAcquire_new, AmlRelease_new;
    unfold aml_bytes, bytes_builder; cbn [mbind res_bind].
  all: try done.
  all: unfold AmlName_builder, AmlNameDecl_builder, AmlBuffer_builder, AmlOpRegion_builder;
    cbn [name_value nd_name nd_obj buffer_value or_name or_space or_offset or_length];
    rewrite ?Hn by done; cbn [mbind res_bind]; try done.
  all: rewrite ?append_children_bytes, ?append_units_bytes by
      (done || (intros ? ?; apply Henc; by repeat constructor));
    cbn [mbind res_bind buf]; rewrite <-?app_assoc; try done.
  - rewrite integer_bytes by (unfold len in *; lia). unfold block. cbn [mbind res_bind app].
    unfold len. rewrite length_app, Nat2Z.inj_add. done.
  - by rewrite !integer_bytes by lia.
  - destruct (Z.ltb_spec 7 args); [lia|]. cbn [mbind res_bind]. rewrite append_children_bytes by done.
    cbn [mbind res_bind buf]. rewrite <-app_assoc, method_flag_eq by lia. done.
  - unfold AmlLocal_builder. cbn [local_no]. destruct (Z.ltb_spec 7 i); [lia|].
    by rewrite wadd_small by (unfold inW; lia).
  - unfold AmlArg_builder. cbn [arg_no]. destruct (Z.ltb_spec 6 i); [lia|].
    by rewrite wadd_small by (unfold inW; lia).
  - apply (call_new_bytes n (map bytes_of args)); [done|]. rewrite length_map. split; [by apply Nat.ltb_lt|by apply Nat.leb_le].
  - destruct (Z.ltb_spec 15 level); [lia|]. cbn [mbind res_bind]. unfold AmlMutex_builder. cbn [mutex_name sync_level].
    by rewrite Hn.
Qed.

(** ** Reading back *)

Lemma parse_pkg_app body r :
  len body < 2 ^ 28 - 4 -> parse_pkg (build_pkg_length (len body) true ++ body ++ r) = Some (body, r).
Proof.
  intros Hl. unfold parse_pkg. assert (0 <= len body) by (unfold len; lia).
  rewrite build_pkg_length_parse by lia. cbn [mbind option_bind].
  replace (Z.to_nat (len body + pkg_count (len body) - pkg_count (len body))) with (length body)
    by (unfold len; lia).
  apply take_bytes_app.
Qed.

Lemma parse_integer_bytes v r : 0 <= v < 2 ^ 64 -> parse_integer (int_bytes v ++ r) = Some (v, r).
Proof.
  intros Hv. unfold int_bytes. destruct (Z.leb_spec v 1).
  { assert (v = 0 \/ v = 1) as [-> | ->] by lia; done. }
  destruct (Z.leb_spec v 0xFF); [apply (parse_num_app 1); cbn; lia|].
  destruct (Z.leb_spec v 0xFFFF); [apply (parse_num_app 2); cbn; lia|].
  destruct (Z.leb_spec v 0xFFFFFFFF); [apply (parse_num_app 4); cbn; lia|apply (parse_num_app 8); cbn; lia].
Qed.

Lemma parse_cstring_app s r :
  forallb (fun c => negb (c =? 0)) s = true -> parse_cstring (s ++ 0 :: r) = Some (s, r).
Proof.
  induction s as [|c s IH]; intros Hs; [done|]. apply andb_true_iff in Hs as [Hc Hs].
  cbn [app parse_cstring]. apply negb_true_iff in Hc. rewrite Hc, IH by done. done.
Qed.

Lemma parse_units_bytes us : forall k,
  forallb unit_ok us = true -> (length (concat (map unit_bytes us)) <= k)%nat ->
  parse_units k (concat (map unit_bytes us)) = Some us.
Proof.
  induction us as [|[n l] us IH]; intros k Hus Hk; [by destruct k|].
  cbn [forallb] in Hus. apply andb_true_iff in Hus as [Hu Hus]. unfold unit_ok in Hu. cbn [fst snd] in Hu.
  split_ok Hu. cbn [map concat] in *. rewrite length_app in Hk.
  assert (forall r, exists b x, unit_bytes (n, l) ++ r = b :: x /\
    (if b =? 0 then Some (None, x) else '(s, r) ← take_bytes 4 (b :: x); Some (Some s, r)) =
    Some (n, build_pkg_length l false ++ r)) as Hhead.
  { intros r. unfold unit_bytes. cbn [fst snd]. rewrite <-app_assoc. destruct n as [s|]; [|by eexists _, _].
    destruct (seg_ok_inv s Hu) as (Hl4 & _ & c & s' & -> & Hc).
    exists c, (s' ++ build_pkg_length l false ++ r). split; [done|].
    destruct (Z.eqb_spec c 0) as [->|]; [done|]. pose proof (take_bytes_app (c :: s') (build_pkg_length l false ++ r)) as Ht.
    rewrite Hl4 in Ht. change ((c :: s') ++ ?x) with (c :: s' ++ x) in Ht. by rewrite Ht. }
  destruct (Hhead (concat (map unit_bytes us))) as (b & x & Hbx & Hx).
  assert (0 < length (unit_bytes (n, l)))%nat.
  { unfold unit_bytes. cbn [fst snd]. rewrite length_app. destruct n as [s|]; [|simpl; lia].
    destruct (seg_ok_inv s Hu) as (-> & _). lia. }
  rewrite Hbx. destruct k as [|k]; [lia|]. cbn [parse_units]. rewrite Hx. cbn [mbind option_bind].
  rewrite build_pkg_length_parse by lia. cbn [mbind option_bind]. rewrite IH by (done || lia). done.
Qed.

Section reading.
Context (p : list Z -> option (term * list Z)).
Definition reads (t : term) : Prop := forall r, p (bytes_of t ++ r) = Some (t, r).

Lemma parse_all_bytes ts : forall k,
  Forall reads ts -> Forall (fun t => bytes_of t <> []) ts -> (length (concat (map bytes_of ts)) <= k)%nat ->
  parse_all p k (concat (map bytes_of ts)) = Some ts.
Proof.
  induction ts as [|t ts IH]; intros k Hr Hne Hk; [by destruct k|].
  apply Forall_cons in Hr as [Ht Hr], Hne as [Hn Hne]. cbn [map concat] in *. specialize (Ht (concat (map bytes_of ts))).
  rewrite length_app in Hk. destruct (bytes_of t) as [|b x] eqn:Hb; [done|]. cbn [length] in Hk.
  destruct k as [|k]; [lia|]. cbn [app parse_all] in *. rewrite Ht. cbn [mbind option_bind].
  rewrite IH by (done || lia). done.
Qed.

Lemma parse_n_bytes ts r :
  Forall reads ts -> parse_n p (length ts) (concat (map bytes_of ts) ++ r) = Some (ts, r).
Proof.
  induction ts as [|t ts IH]; intros Hr; [done|]. apply Forall_cons in Hr as [Ht Hr].
  cbn [length parse_n map concat]. rewrite <-app_assoc, Ht. cbn [mbind option_bind]. by rewrite IH.
Qed.

Lemma parse_block_bytes {A} (head : list Z -> option (A * list Z)) f a hb ts r :
  len (hb ++ concat (map bytes_of ts)) < 2 ^ 28 - 4 ->
  Forall reads ts -> Forall (fun t => bytes_of t <> []) ts ->
  (forall x, head (hb ++ x) = Some (a, x)) ->
  parse_block p head f (build_pkg_length (len (hb ++ concat (map bytes_of ts))) true ++
                        (hb ++ concat (map bytes_of ts)) ++ r) = Some (f a ts, r).
Proof.
  intros Hl Hr Hne Hh. unfold parse_block. rewrite parse_pkg_app by done. cbn [mbind option_bind].
  rewrite Hh. cbn [mbind option_bind]. unfold parse_list. rewrite parse_all_bytes by done. done.
Qed.
End reading.

Lemma parse_step_op p b r : is_name_lead b = false -> parse_step p (b :: r) = parse_op p b r.
Proof. intros Hb. cbn [parse_step]. by rewrite Hb. Qed.

Lemma bytes_of_nonempty t : term_ok t = true -> bytes_of t <> [].
Proof.
  intros Hok. destruct t; cbn [bytes_of term_ok] in *; try done; split_ok Hok;
    destruct (encode_name_lead n Hok) as (b & r & -> & _); done.
Qed.

(** Decides the tests of the parser on a known opcode. *)
Ltac known_opcode :=
  repeat (match goal with
  | |- context [if ?c then _ else _] =>
    let v := eval vm_compute in c in
    lazymatch v with true => change c with true | false => change c with false end; cbv iota
  | |- context [opcode ?table ?b] =>
    let v := eval vm_compute in (opcode table b) in change (opcode table b) with v; cbv iota
  end).
Ltac read_op := rewrite parse_step_op by done; unfold parse_op, parse_ext; known_opcode.

(** One object is read when its children are. *)
Definition step_reads (t : term) : Prop := forall p r,
  term_ok t = true -> len (bytes_of t) < 2 ^ 28 - 4 ->
  Forall (reads p) (children t) -> Forall (fun c => bytes_of c <> []) (children t) ->
  parse_step p (bytes_of t ++ r) = Some (t, r).

Ltac start_read :=
  intros p r Hok Hlen Hch Hne; cbn [children bytes_of term_ok] in *; split_ok Hok;
  repeat (lazymatch type of Hch with
          | Forall _ (_ :: _) => let Hr := fresh "Hr" in apply Forall_cons in Hch as [Hr Hch]; apply Forall_cons in Hne as [_ Hne]
          end).
(** What a child and a name leave. *)
Ltac read_more :=
  repeat (first [ progress (cbn [mbind option_bind app parse_byte]) | rewrite <-!app_assoc
                | rewrite parse_encode_name by done
                | match goal with H : reads _ _ |- _ => rewrite H end ]).

Lemma block_len op body : len (block op body) < 2 ^ 28 - 4 -> len body < 2 ^ 28 - 4.
Proof. pose proof (block_length op body). unfold len. lia. Qed.

Lemma read_const c : step_reads (TConst c).
Proof. start_read. by destruct c. Qed.
Lemma read_num k v : step_reads (TNum k v).
Proof.
  start_read. apply Z.leb_le in Hok. apply Z.ltb_lt in Hok0.
  destruct k; cbn [app num_code num_width] in *; read_op; by rewrite parse_num_app.
Qed.
Lemma read_string s : step_reads (TString s).
Proof. start_read. cbn [app]. read_op. rewrite <-app_assoc. cbn [app]. by rewrite parse_cstring_app. Qed.
Lemma read_name n : step_reads (TName n).
Proof.
  start_read. destruct (encode_name_lead n Hok) as (b & x & Hb & Hlead).
  pose proof (parse_encode_name n r Hok) as Hp. rewrite Hb in *. cbn [app parse_step] in *. rewrite Hlead, Hp.
  cbn [mbind option_bind]. by destruct (arity n =? 0)%nat.
Qed.
Lemma read_name_decl n t : step_reads (TNameDecl n t).
Proof. start_read. cbn [app]. read_op. by read_more. Qed.
Lemma read_buffer b : step_reads (TBuffer b).
Proof.
  start_read. apply block_len in Hlen. unfold block. cbn [app]. read_op. rewrite <-app_assoc, parse_pkg_app by done.
  cbn [mbind option_bind]. rewrite parse_integer_bytes by (unfold len in *; lia). cbn [mbind option_bind].
  by rewrite Z.eqb_refl.
Qed.
Lemma read_local i : step_reads (TLocal i).
Proof.
  start_read. assert (i = 0 \/ i = 1 \/ i = 2 \/ i = 3 \/ i = 4 \/ i = 5 \/ i = 6 \/ i = 7) by lia.
  by destruct_or!; subst i.
Qed.
Lemma read_arg i : step_reads (TArg i).
Proof.
  start_read. assert (i = 0 \/ i = 1 \/ i = 2 \/ i = 3 \/ i = 4 \/ i = 5 \/ i = 6) by lia.
  by destruct_or!; subst i.
Qed.
Lemma read_return t : step_reads (TReturn t).
Proof. start_read. cbn [app]. read_op. by read_more. Qed.
Lemma read_call n args : step_reads (TCall n args).
Proof.
  start_read. destruct (encode_name_lead n Hok) as (b & x & Hb & Hlead).
  pose proof (parse_encode_name n (concat (map bytes_of args) ++ r) Hok) as Hp.
  rewrite <-app_assoc. rewrite Hb in *. cbn [app parse_step] in *. rewrite Hlead, Hp. cbn [mbind option_bind].
  apply Nat.eqb_eq in Hok3. apply Nat.ltb_lt in Hok2. rewrite Hok3.
  destruct (Nat.eqb_spec (length args) 0); [lia|]. by rewrite parse_n_bytes.
Qed.
Lemma read_op1 op a : step_reads (TOp1 op a).
Proof. start_read. cbn [app]. destruct op; cbn [op1_code op2_code op3_code field_code]; read_op; by read_more. Qed.
Lemma read_op2 op a b : step_reads (TOp2 op a b).
Proof. start_read. cbn [app]. destruct op; cbn [op1_code op2_code op3_code field_code]; read_op; by read_more. Qed.
Lemma read_op3 op a b d : step_reads (TOp3 op a b d).
Proof. start_read. cbn [app]. destruct op; cbn [op1_code op2_code op3_code field_code]; read_op; by read_more. Qed.
Lemma read_create_field op src i n : step_reads (TCreateField op src i n).
Proof. start_read. cbn [app]. destruct op; cbn [op1_code op2_code op3_code field_code]; read_op; by read_more. Qed.
Lemma read_mutex n l : step_reads (TMutex n l).
Proof. start_read. cbn [app]. read_op. read_more. cbn [mbind option_bind parse_byte]. known_opcode. by read_more. Qed.
Lemma read_release m : step_reads (TRelease m).
Proof. start_read. cbn [app]. read_op. cbn [mbind option_bind parse_byte]. known_opcode. by read_more. Qed.
Lemma read_acquire m t : step_reads (TAcquire m t).
Proof.
  start_read. cbn [app]. read_op. cbn [mbind option_bind parse_byte]. known_opcode. read_more.
  by rewrite parse_num_app by (cbn; lia).
Qed.

(** A block: [hb] is what [head] reads. *)
Lemma read_block p op {A} (head : list Z -> option (A * list Z)) f a hb ts r :
  len (block op (hb ++ concat (map bytes_of ts))) < 2 ^ 28 - 4 ->
  Forall (reads p) ts -> Forall (fun t => bytes_of t <> []) ts ->
  (forall x, head (hb ++ x) = Some (a, x)) ->
  exists x, block op (hb ++ concat (map bytes_of ts)) ++ r = op ++ x /\ parse_block p head f x = Some (f a ts, r).
Proof.
  intros Hl%block_len Hr Hne Hh. eexists. split; [unfold block; by rewrite <-!app_assoc|].
  rewrite (app_assoc hb). by apply parse_block_bytes.
Qed.

Ltac read_blk hb head f a :=
  match goal with
  | |- parse_step ?p (block ?op ?body ++ ?r) = _ =>
    match body with
    | context [concat (map bytes_of ?ts)] =>
      let Hx := fresh "Hx" in let Hb := fresh "Hb" in
      change body with (hb ++ concat (map bytes_of ts)) in *;
      destruct (read_block p op head f a hb ts r) as (x & Hx & Hb); [done|done|done| |rewrite Hx]
    end
  end.

Lemma read_package c ts : step_reads (TPackage c ts).
Proof. start_read. read_blk [c] parse_byte TPackage c; [done|]. cbn [app]. by read_op. Qed.
Lemma read_var_package c ts : step_reads (TVarPackage c ts).
Proof.
  start_read. read_blk [c] (parse_count p) TVarPackage c; [|cbn [app]; by read_op].
  intros x. unfold parse_count, count_term in *. specialize (Hr x).
  assert (c = 0 \/ c = 1) as [-> | ->] by lia; cbn [Z.eqb bytes_of const_code app] in *; by rewrite Hr.
Qed.
Lemma read_scope n ts : step_reads (TScope n ts).
Proof.
  start_read. read_blk (encode_name n) parse_name TScope n; [intros; by apply parse_encode_name|]. cbn [app]. by read_op.
Qed.
Lemma read_device n ts : step_reads (TDevice n ts).
Proof.
  start_read. read_blk (encode_name n) parse_name TDevice n; [intros; by apply parse_encode_name|]. cbn [app]. read_op.
  cbn [mbind option_bind parse_byte]. by known_opcode.
Qed.
Lemma read_method n k s ts : step_reads (TMethod n k s ts).
Proof.
  start_read. set (flag := method_flag k s) in *.
  replace (encode_name n ++ flag :: concat (map bytes_of ts))
    with ((encode_name n ++ [flag]) ++ concat (map bytes_of ts)) in * by (by rewrite <-app_assoc).
  read_blk (encode_name n ++ [flag]) parse_method_head
    (fun h : aname * Z => TMethod h.1 (h.2 `mod` 8) (negb (h.2 / 8 =? 0))) (n, flag).
  { intros y. unfold parse_method_head. read_more. rewrite Z.div_small by (unfold flag, method_flag; destruct s; lia).
    done. }
  cbn [app]. read_op. rewrite Hb. cbn [fst snd]. do 2 f_equal. unfold flag, method_flag.
  assert (k = 0 \/ k = 1 \/ k = 2 \/ k = 3 \/ k = 4 \/ k = 5 \/ k = 6 \/ k = 7) by lia.
  by destruct s; destruct_or!; subst k.
Qed.
Lemma read_if c ts : step_reads (TIf c ts).
Proof. start_read. read_blk (bytes_of c) p TIf c; [done|]. cbn [app]. by read_op. Qed.
Lemma read_while c ts : step_reads (TWhile c ts).
Proof. start_read. read_blk (bytes_of c) p TWhile c; [done|]. cbn [app]. by read_op. Qed.
Lemma read_else ts : step_reads (TElse ts).
Proof.
  start_read. read_blk (@nil Z) (fun bs : list Z => Some (tt, bs)) (fun _ : unit => TElse) tt; [done|].
  cbn [app]. by read_op.
Qed.

Lemma space_type_parse sp : all_spaces !! Z.to_nat (space_type_code sp) = Some sp.
Proof. by destruct sp. Qed.
Lemma read_op_region n sp o l : step_reads (TOpRegion n sp o l).
Proof.
  start_read. cbn [app]. read_op. cbn [mbind option_bind parse_byte]. known_opcode. read_more.
  rewrite space_type_parse. cbn [mbind option_bind]. rewrite parse_integer_bytes by lia. cbn [mbind option_bind].
  by rewrite parse_integer_bytes by lia.
Qed.

Lemma field_flag_parse acc upd :
  let f := field_flag acc NoLock upd in
  parse_access f = Some acc /\ parse_update f = Some upd /\ parse_lock f = NoLock.
Proof. by destruct acc, upd. Qed.
Lemma read_field n acc lock upd us : step_reads (TField n acc lock upd us).
Proof.
  start_read. destruct lock; [|done].
  apply block_len in Hlen. unfold block. cbn [app]. read_op. cbn [mbind option_bind parse_byte].
  known_opcode. rewrite <-app_assoc, parse_pkg_app by done. read_more.
  destruct (field_flag_parse acc upd) as (-> & -> & ->). cbn [mbind option_bind].
  by rewrite parse_units_bytes.
Qed.

Lemma read_step t : step_reads t.
Proof.
  destruct t; auto using read_const, read_num, read_string, read_name, read_name_decl, read_buffer, read_package, read_var_package,
    read_op_region, read_field, read_scope, read_device, read_method, read_local, read_arg, read_return, read_call,
    read_op1, read_op2, read_op3, read_if, read_else, read_while, read_mutex, read_acquire, read_release,
    read_create_field.
Qed.

Lemma parse_bytes fuel : forall t r,
  term_ok t = true -> len (bytes_of t) < 2 ^ 28 - 4 -> (length (bytes_of t) <= fuel)%nat ->
  parse fuel (bytes_of t ++ r) = Some (t, r).
Proof.
  induction fuel as [|fuel IH]; intros t r Hok Hlen Hfuel.
  { pose proof (bytes_of_nonempty t Hok). destruct (bytes_of t); [done|simpl in Hfuel; lia]. }
  pose proof (term_ok_children t Hok) as Hcok. rewrite forallb_elem in Hcok.
  apply read_step; [done|done|..]; apply Forall_forall; intros c Hc; [|by apply bytes_of_nonempty, Hcok].
  pose proof (child_shorter t c Hok Hc). intros r'. apply IH; [by apply Hcok|unfold len in *; lia|lia].
Qed.
End parse.

(** ** Properties *)

(** C38: The AML the compiler emits reads back.  Every well-formed object, of
    any nesting of the structures of the compiler, is built without a panic,
    and a parser of the AML grammar, with the opcodes of the specification,
    reads from its bytes, if they are few enough for a package length (28
    bits), exactly that object and leaves what follows.  A well-formed object
    has arguments in the ranges the constructors accept, names with at least
    one segment and segments of four characters; it has no locked field, and no
    variable package with a count above one: those two and a name of prefixes
    only are encoded wrongly (examples
    [field_lock_changes_access], [var_package_unreadable],
    [root_name_doubled]). *)
Theorem aml_roundtrip arity t :
  term_ok arity t = true ->
  exists bs, encode t = Ok bs /\
    (len bs < 2 ^ 28 - 4 -> forall rest, parse arity (length bs) (bs ++ rest) = Some (t, rest)).
Proof.
  intros Hok. exists (bytes_of t). split; [by apply (encode_bytes arity)|].
  intros Hl rest. by apply parse_bytes.
Qed.

(** *** Examples *)

Definition bytes_of_string (s : String.string) : str :=
  map (fun a => Z.of_N (Ascii.N_of_ascii a)) (String.list_ascii_of_string s).
Definition seg (s : String.string) : aname := mkName [] [bytes_of_string s].
Arguments bytes_of_string _%_string.
Arguments seg _%_string.
Definition no_methods (n : aname) : nat := if decide (n = seg "MTHD") then 2%nat else 0%nat.

(** [Device (PCI0) { Name (_HID, ..) Field (OPR1, ByteAcc, ..) { FLD1, 8 }
    Method (_STA) { If (LEqual (Local0, 0)) { MTHD (1, Arg0) } Else { Return (0x0F) } } }] *)
Definition ex_device : term :=
  TDevice (seg "PCI0")
    [TNameDecl (seg "_HID") (TNum NDWord 0x030AD041);
     TField (seg "OPR1") AccByte NoLock WriteAsZeros [(Some (bytes_of_string "FLD1"), 8)];
     TMethod (seg "_STA") 1 true
       [TIf (TOp2 LEqual (TLocal 0) (TConst CZero)) [TCall (seg "MTHD") [TConst COne; TArg 0]];
        TElse [TReturn (TNum NByte 0x0F)]]].

Example aml_roundtrip_witness :
  exists bs, encode ex_device = Ok bs /\
    forall rest, parse no_methods (length bs) (bs ++ rest) = Some (ex_device, rest).
Proof.
  destruct (aml_roundtrip no_methods ex_device eq_refl) as (bs & Hbs & Hp). exists bs. split; [exact Hbs|].
  apply Hp. vm_compute in Hbs. injection Hbs as <-. vm_compute. reflexivity.
Defined.

(** Vectors of the unit tests of the source: [test_package] and [test_op_region]. *)
Example test_package_pkg1 :
  encode (TNameDecl (seg "PKG1")
    (TPackage 3 [TNum NWord 0x1234; TString (bytes_of_string "Hello world"); TName (seg "INT1")])) =
  Ok [0x08; 0x50; 0x4B; 0x47; 0x31; 0x12; 0x16; 0x03; 0x0B; 0x34; 0x12; 0x0D; 0x48; 0x65;
      0x6C; 0x6C; 0x6F; 0x20; 0x77; 0x6F; 0x72; 0x6C; 0x64; 0x00; 0x49; 0x4E; 0x54; 0x31].
Proof. vm_compute. done. Qed.
Example test_op_region_field :
  let u n l := (Some (bytes_of_string n), l) in
  encode (TField (seg "OPR1") AccByte NoLock WriteAsZeros [u "FLD1" 8; u "FLD2" 8; (None, 8); u "FLD3" 4; u "FLD4" 12]) =
  Ok [0x5B; 0x81; 0x1C; 0x4F; 0x50; 0x52; 0x31; 0x41; 0x46; 0x4C; 0x44; 0x31; 0x08; 0x46;
      0x4C; 0x44; 0x32; 0x08; 0x00; 0x08; 0x46; 0x4C; 0x44; 0x33; 0x04; 0x46; 0x4C; 0x44; 0x34; 0x0C].
Proof. vm_compute. done. Qed.

(** The lock rule is shifted by one bit and not by four: it turns the byte
    access of a field into dword access, and the field is not locked. *)
Example field_lock_changes_access :
  let t lock acc := TField (seg "OPR1") acc lock Preserve [] in
  exists bs, encode (t Lock AccByte) = Ok bs /\ parse no_methods (length bs) bs = Some (t NoLock AccDWord, []).
Proof. eexists. split; vm_compute; reflexivity. Qed.

(** The element count of a variable package is written as a raw byte where
    the grammar has an object: three elements are not readable, and ten are
    the prefix of a byte constant that swallows the first of them. *)
Example var_package_unreadable :
  let elems n := replicate n (TConst COne) in
  (bs ← encode (TVarPackage 3 (elems 3%nat)); Ok (parse no_methods (length bs) bs)) = Ok None /\
  (bs ← encode (TVarPackage 10 (elems 10%nat)); Ok (parse no_methods (length bs) bs)) =
    Ok (Some (TVarPackage 1 (elems 9%nat), [])).
Proof. split; vm_compute; reflexivity. Qed.

(** A name of prefix characters only is not encoded as a null name behind its
    prefix: the prefix is emitted twice, the second time as a segment. *)
Example root_name_doubled : build_name_string [BACKSLASH] = Ok [0x5C; 0x5C; 0x5F; 0x5F; 0x5F].
Proof. done. Qed.

(** ** Resource templates *)

(** A small item has its length in the low three bits of its tag, a large one
    in the two bytes after it. *)
Definition split_item (bs : list Z) : option (list Z * list Z) :=
  match bs with
  | [] => None
  | b :: r =>
    if b <? 128 then '(body, r) ← take_bytes (Z.to_nat (b `mod` 8)) r; Some (b :: body, r)
    else
      '(lb, r) ← take_bytes 2 r; '(body, r) ← take_bytes (Z.to_nat (le_val lb)) r;
      Some (b :: lb ++ body, r)
  end.
Fixpoint split_items (fuel : nat) (bs : list Z) : option (list (list Z)) :=
  match bs with
  | [] => Some []
  | _ => match fuel with
         | O => None
         | S fuel => '(i, r) ← split_item bs; l ← split_items fuel r; Some (i :: l)
         end
  end.

Inductive descriptor :=
| DDma (x : AmlDmaResource)
| DIo (x : AmlIoResource)
| DMemory32 (x : AmlMemory32Fixed)
| DWordSpace (x : AmlWordDesc)
| DDWordSpace (x : AmlDWordDesc)
| DQWordSpace (x : AmlQWordDesc)
| DIrq (x : AmlIrqNoFlags)
| DExtended (x : AmlExtendedInterrupt).
Definition desc_bytes (d : descriptor) : ares (list Z) :=
  match d with
  | DDma x => aml_bytes x | DIo x => aml_bytes x | DMemory32 x => aml_bytes x
  | DWordSpace x => aml_bytes x | DDWordSpace x => aml_bytes x | DQWordSpace x => aml_bytes x
  | DIrq x => aml_bytes x | DExtended x => aml_bytes x
  end.
#[export] Instance descriptor_builder : AmlBuilder descriptor := desc_bytes.
Definition desc_ok (d : descriptor) : bool :=
  match d with DExtended x => Z.of_nat (length (irq_list x)) <? 16000 | _ => true end.

Fixpoint template (x : AmlResTemplate) (ds : list descriptor) : ares AmlResTemplate :=
  match ds with
  | [] => Ok x
  | d :: ds => x ← AmlResTemplate_append_child x d; template x ds
  end.

(** A descriptor is one item: the length it announces is the one it has. *)
Lemma desc_item d r :
  desc_ok d = true ->
  exists b bs, desc_bytes d = Ok (b :: bs) /\ split_item ((b :: bs) ++ r) = Some (b :: bs, r).
Proof.
  intros Hok. destruct d as [x|x|x|x|x|x|x|x]; cbn [desc_bytes]; unfold aml_bytes;
    try (eexists _, _; split; [reflexivity|done]).
  unfold AmlExtendedInterrupt_builder. cbn [desc_ok] in Hok. apply Z.ltb_lt in Hok.
  set (n := length (irq_list x)) in *. rewrite (wrap_small 16) by (unfold inW; lia).
  rewrite wadd_small by (unfold inW; lia). set (body := [_; _] ++ concat _).
  assert (length body = Z.to_nat (2 + Z.of_nat n * 4)) as Hbody.
  { unfold body, n. cbn [app length]. assert (forall l : list Z, length (concat (map (le_bytes 4) l)) = (4 * length l)%nat) as ->.
    { intros l. induction l as [|y l IH]; [done|]. cbn [map concat length]. rewrite length_app, le_bytes_length, IH. lia. }
    lia. }
  eexists 0x89, (le_bytes 2 (2 + Z.of_nat n * 4) ++ body). split; [done|]. cbn [app split_item].
  replace (137 <? 128) with false by done. rewrite <-app_assoc.
  pose proof (take_bytes_app (le_bytes 2 (2 + Z.of_nat n * 4)) (body ++ r)) as Ht.
  rewrite le_bytes_length in Ht. rewrite Ht. cbn [mbind option_bind].
  rewrite le_val_le_bytes, Z.mod_small by (cbn; lia). rewrite <-Hbody, take_bytes_app. done.
Qed.

Lemma template_bytes ds : forall x,
  forallb desc_ok ds = true ->
  exists items, Forall2 (fun d i => desc_bytes d = Ok i) ds items /\
    template x ds = Ok (mkResTemplate (rt_buf x ++ concat items)) /\
    forall r k, split_items k r <> None -> 
      split_items (length items + k) (concat items ++ r) = (fun l => items ++ l) <$> split_items k r.
Proof.
  induction ds as [|d ds IH]; intros x Hok.
  { exists []. split_and!; [constructor|cbn; rewrite app_nil_r; by destruct x|]. intros r k ?. cbn.
    by destruct (split_items k r). }
  apply andb_true_iff in Hok as [Hd Hok]. destruct (desc_item d [] Hd) as (b & bs & Hb & _).
  destruct (IH (mkResTemplate (rt_buf x ++ b :: bs)) Hok) as (items & Hitems & Ht & Hs).
  exists ((b :: bs) :: items). split_and!; [by constructor| |].
  - cbn [template]. unfold AmlResTemplate_append_child, aml_bytes, descriptor_builder. rewrite Hb.
    cbn [mbind res_bind rt_buf concat] in *. by rewrite Ht, <-app_assoc.
  - intros r k Hk. cbn [concat length Nat.add]. rewrite <-app_assoc.
    destruct (desc_item d (concat items ++ r) Hd) as (b' & bs' & Hb' & Hsplit).
    rewrite Hb in Hb'. injection Hb' as <- <-. cbn [app split_items] in *. rewrite Hsplit. cbn [mbind option_bind].
    rewrite Hs by done. by destruct (split_items k r).
Qed.

(** Resource templates.  A template built from any descriptors is a buffer
    whose size field is right and whose content splits, by the lengths the
    items announce, into exactly those descriptors and the end tag. *)
Theorem res_template_items ds :
  forallb desc_ok ds = true ->
  exists x items, template AmlResTemplate_new ds = Ok x /\ Forall2 (fun d i => desc_bytes d = Ok i) ds items /\
    (len (concat items) < 2 ^ 28 - 16 ->
     exists bs body, aml_bytes x = Ok (0x11 :: bs) /\
       (forall rest, parse_pkg (bs ++ rest) = Some (body, rest)) /\
       exists content, parse_integer body = Some (len content, content) /\
         split_items (S (length items)) content = Some (items ++ [[0x79; 0x00]])).
Proof.
  intros Hok. destruct (template_bytes ds AmlResTemplate_new Hok) as (items & Hitems & Ht & Hs).
  exists (mkResTemplate (concat items)), items. split_and!; [done|done|]. intros Hl.
  set (content := concat items ++ [0x79; 0x00]).
  assert (len content = len (concat items) + 2) as Hlen by (unfold len, content; rewrite length_app; simpl; lia).
  assert (0 <= len (concat items)) by (unfold len; lia).
  assert (len (int_bytes (len content)) <= 9).
  { unfold int_bytes, len at 1. zcases; simpl; lia. }
  exists (build_pkg_length (len (int_bytes (len content) ++ content)) true ++ int_bytes (len content) ++ content),
    (int_bytes (len content) ++ content). split_and!.
  - unfold aml_bytes, AmlResTemplate_builder. cbn [rt_buf]. rewrite <-Hlen, integer_bytes by lia. done.
  - intros rest. rewrite <-app_assoc. apply parse_pkg_app. unfold len in *. rewrite length_app. lia.
  - exists content. split; [apply parse_integer_bytes; lia|].
    replace (S (length items)) with (length items + 1)%nat by lia. unfold content. by rewrite Hs.
Qed.

Example res_template_items_witness :
  exists x items,
    template AmlResTemplate_new [DIo (mkIoResource Decode16 0xcf8 0xcf8 1 8); DIrq (mkIrqNoFlags 4)] = Ok x /\
    Forall2 (fun d i => desc_bytes d = Ok i) [DIo (mkIoResource Decode16 0xcf8 0xcf8 1 8); DIrq (mkIrqNoFlags 4)] items.
Proof.
  destruct (res_template_items [DIo (mkIoResource Decode16 0xcf8 0xcf8 1 8); DIrq (mkIrqNoFlags 4)] eq_refl)
    as (x & items & Hx & Hi & _). by exists x, items.
Defined.

(** A UUID and a template are buffers. *)
Lemma uuid_is_buffer x bs :
  uuid_loop (uuid_name x) uuid_index = Ok bs -> aml_bytes x = aml_bytes (mkAmlBuffer bs).
Proof. intros H. unfold aml_bytes, AmlToUuid_builder. by rewrite H. Qed.

(** Vectors of [test_uuid] and [test_device]. *)
Example test_uuid :
  (x ← AmlToUuid_new (bytes_of_string "33DB4D5B-1FF7-401C-9657-7441C03DD766"); aml_bytes x) =
  Ok [0x11; 0x13; 0x0a; 0x10; 0x5B; 0x4D; 0xDB; 0x33; 0xF7; 0x1F; 0x1C; 0x40; 0x96; 0x57;
      0x74; 0x41; 0xC0; 0x3D; 0xD7; 0x66].
Proof. vm_compute. done. Qed.
Example test_eisa :
  (x ← AmlEisaId_new (bytes_of_string "PNP0A03"); aml_bytes x) = Ok [0x0C; 0x41; 0xD0; 0x0A; 0x03].
Proof. vm_compute. done. Qed.
