(* ===== verification/Qcow2Header.v ===== *)
(** * The qcow2 image header ([block_backend/src/qcow2/header.rs])

    Decoding, encoding and the consistency check of the header.  The messages
    of the errors are not modelled. *)
From stdpp Require Import prelude list.
From Stdlib Require Import ZArith Lia.
From S2P Require Import Prelude NumOps.

Abbreviation hres := (res unit).

Definition QCOW_MAGIC : Z := 0x514649fb.
Definition QCOW_VERSION_2_MIN_LEN : nat := 72.
Definition QCOW_VERSION_3_MIN_LEN : nat := 104.
Definition MIN_CLUSTER_BIT : Z := 9.
Definition MAX_CLUSTER_BIT : Z := 21.
Definition MAX_REFTABLE_SIZE : Z := 8 * 2 ^ 20.
Definition MAX_L1TABLE_SIZE : Z := 32 * 2 ^ 20.
Definition ENTRY_BITS : Z := 3.
Definition ENTRY_SIZE : Z := Z.shiftl 1 ENTRY_BITS.

Record QcowHeader := mkHeader {
  magic : Z;
  version : Z;
  backing_file_offset : Z;
  backing_file_size : Z;
  cluster_bits : Z;
  size : Z;
  crypt_method : Z;
  l1_size : Z;
  l1_table_offset : Z;
  refcount_table_offset : Z;
  refcount_table_clusters : Z;
  nb_snapshots : Z;
  snapshots_offset : Z;
  incompatible_features : Z;
  compatible_features : Z;
  autoclear_features : Z;
  refcount_order : Z;
  header_length : Z
}.

(** [size_of::<QcowHeader>()] *)
Definition header_len : nat := 104.

(** [BigEndian::read_u32(&buf\[off..off + 4\])] and [read_u64]. *)
Definition get_u32 (buf : list Z) (off : nat) : Z := be_val (slice buf off 4).
Definition get_u64 (buf : list Z) (off : nat) : Z := be_val (slice buf off 8).

Definition from_vec (buf : list Z) : hres QcowHeader :=
  if (length buf <? QCOW_VERSION_2_MIN_LEN)%nat then Err tt
  else
    let header ifeat cfeat afeat order len :=
      mkHeader (get_u32 buf 0) (get_u32 buf 4) (get_u64 buf 8) (get_u32 buf 16) (get_u32 buf 20)
        (get_u64 buf 24) (get_u32 buf 32) (get_u32 buf 36) (get_u64 buf 40) (get_u64 buf 48)
        (get_u32 buf 56) (get_u32 buf 60) (get_u64 buf 64) ifeat cfeat afeat order len in
    if negb (get_u32 buf 0 =? QCOW_MAGIC) then Err tt
    else if get_u32 buf 4 =? 2 then Ok (header 0 0 0 4 (Z.of_nat QCOW_VERSION_2_MIN_LEN))
    else if get_u32 buf 4 =? 3 then
      if (length buf <? QCOW_VERSION_3_MIN_LEN)%nat then Err tt
      else Ok (header (get_u64 buf 72) (get_u64 buf 80) (get_u64 buf 88) (get_u32 buf 96) (get_u32 buf 100))
    else Err tt.

(** [BigEndian::write_u32(&mut buf\[off..off + 4\], v)] and [write_u64]. *)
Definition put_u32 (off : nat) (v : Z) (buf : list Z) : list Z := splice buf off (be_bytes 4 v).
Definition put_u64 (off : nat) (v : Z) (buf : list Z) : list Z := splice buf off (be_bytes 8 v).

Definition to_vec (h : QcowHeader) : list Z :=
  let sz := if version h =? 2 then QCOW_VERSION_2_MIN_LEN else header_len in
  let buf := replicate sz 0 in
  let buf := put_u32 0 (magic h) buf in
  let buf := put_u32 4 (version h) buf in
  let buf := put_u64 8 (backing_file_offset h) buf in
  let buf := put_u32 16 (backing_file_size h) buf in
  let buf := put_u32 20 (cluster_bits h) buf in
  let buf := put_u64 24 (size h) buf in
  let buf := put_u32 32 (crypt_method h) buf in
  let buf := put_u32 36 (l1_size h) buf in
  let buf := put_u64 40 (l1_table_offset h) buf in
  let buf := put_u64 48 (refcount_table_offset h) buf in
  let buf := put_u32 56 (refcount_table_clusters h) buf in
  let buf := put_u32 60 (nb_snapshots h) buf in
  let buf := put_u64 64 (snapshots_offset h) buf in
  if 3 <=? version h then
    let buf := put_u64 72 (incompatible_features h) buf in
    let buf := put_u64 80 (compatible_features h) buf in
    let buf := put_u64 88 (autoclear_features h) buf in
    let buf := put_u32 96 (refcount_order h) buf in
    put_u32 100 (header_length h) buf
  else buf.

Definition cluster_size (h : QcowHeader) : Z := wshl 64 1 (cluster_bits h).

Definition cluster_aligned (h : QcowHeader) (offset : Z) : bool :=
  Z.land offset (wsub 64 (cluster_size h) 1) =? 0.

Definition check_refcount_table (h : QcowHeader) : hres unit :=
  if refcount_table_clusters h =? 0 then Err tt
  else if MAX_REFTABLE_SIZE / cluster_size h <? refcount_table_clusters h then Err tt
  else if negb (cluster_aligned h (refcount_table_offset h)) then Err tt
  else
    _ ← ok_or (checked_add 64 (refcount_table_offset h)
                 (wmul 64 (refcount_table_clusters h) (cluster_size h))) tt;
    Ok tt.

Definition check_l1_table (h : QcowHeader) : hres unit :=
  if MAX_L1TABLE_SIZE / ENTRY_SIZE <? l1_size h then Err tt
  else if negb (cluster_aligned h (l1_table_offset h)) then Err tt
  else
    let size_per_l1_entry := wmul 64 (cluster_size h) (cluster_size h) / ENTRY_SIZE in
    l1_need_sz ← ok_or (div_round_up (size h) size_per_l1_entry) tt;
    if l1_size h <? l1_need_sz then Err tt
    else
      _ ← ok_or (checked_add 64 (l1_table_offset h) (wmul 64 (l1_size h) ENTRY_SIZE)) tt;
      Ok tt.

Definition check (h : QcowHeader) : hres unit :=
  if negb ((MIN_CLUSTER_BIT <=? cluster_bits h) && (cluster_bits h <=? MAX_CLUSTER_BIT)) then Err tt
  else if cluster_size h <? header_length h then Err tt
  else if negb (backing_file_offset h =? 0) then Err tt
  else if negb (refcount_order h =? 4) then Err tt
  else _ ← check_refcount_table h; _ ← check_l1_table h; Ok tt.

(** ** Decoding and encoding *)

(** A header as the decoder returns it. *)
Definition header_ok (h : QcowHeader) : Prop :=
  magic h = QCOW_MAGIC /\ (version h = 2 \/ version h = 3) /\
  is_u64 (backing_file_offset h) /\ is_u32 (backing_file_size h) /\ is_u32 (cluster_bits h) /\
  is_u64 (size h) /\ is_u32 (crypt_method h) /\ is_u32 (l1_size h) /\ is_u64 (l1_table_offset h) /\
  is_u64 (refcount_table_offset h) /\ is_u32 (refcount_table_clusters h) /\ is_u32 (nb_snapshots h) /\
  is_u64 (snapshots_offset h) /\ is_u64 (incompatible_features h) /\ is_u64 (compatible_features h) /\
  is_u64 (autoclear_features h) /\ is_u32 (refcount_order h) /\ is_u32 (header_length h) /\
  (version h = 2 -> incompatible_features h = 0 /\ compatible_features h = 0 /\
     autoclear_features h = 0 /\ refcount_order h = 4 /\ header_length h = 72).

(** The fields one after the other. *)
Definition fields_v2 (h : QcowHeader) : list Z :=
  be_bytes 4 (magic h) ++ be_bytes 4 (version h) ++ be_bytes 8 (backing_file_offset h) ++
  be_bytes 4 (backing_file_size h) ++ be_bytes 4 (cluster_bits h) ++ be_bytes 8 (size h) ++
  be_bytes 4 (crypt_method h) ++ be_bytes 4 (l1_size h) ++ be_bytes 8 (l1_table_offset h) ++
  be_bytes 8 (refcount_table_offset h) ++ be_bytes 4 (refcount_table_clusters h) ++
  be_bytes 4 (nb_snapshots h) ++ be_bytes 8 (snapshots_offset h).
Definition fields_v3 (h : QcowHeader) : list Z :=
  be_bytes 8 (incompatible_features h) ++ be_bytes 8 (compatible_features h) ++
  be_bytes 8 (autoclear_features h) ++ be_bytes 4 (refcount_order h) ++ be_bytes 4 (header_length h).

Lemma splice_fresh pre d n off :
  off = length pre ->
  splice (pre ++ replicate (length d + n) 0) off d = (pre ++ d) ++ replicate n 0.
Proof.
  intros ->. unfold splice. rewrite take_app_length, drop_app_add, drop_replicate, <-app_assoc.
  do 3 f_equal. lia.
Qed.
Lemma put_u32_fresh pre v n off m :
  off = length pre -> m = (4 + n)%nat ->
  put_u32 off v (pre ++ replicate m 0) = (pre ++ be_bytes 4 v) ++ replicate n 0.
Proof. intros Ho ->. unfold put_u32. rewrite <-(splice_fresh pre _ n off Ho). by rewrite be_bytes_length. Qed.
Lemma put_u64_fresh pre v n off m :
  off = length pre -> m = (8 + n)%nat ->
  put_u64 off v (pre ++ replicate m 0) = (pre ++ be_bytes 8 v) ++ replicate n 0.
Proof. intros Ho ->. unfold put_u64. rewrite <-(splice_fresh pre _ n off Ho). by rewrite be_bytes_length. Qed.

Ltac len := rewrite ?length_app, ?be_bytes_length; reflexivity.

Lemma to_vec_fields h :
  version h = 2 \/ version h = 3 ->
  to_vec h = fields_v2 h ++ (if version h =? 2 then [] else fields_v3 h).
Proof.
  intros Hv. unfold to_vec, fields_v2, fields_v3. set (sz := if version h =? 2 then QCOW_VERSION_2_MIN_LEN else header_len).
  assert (exists n, sz = (72 + n)%nat /\ (version h = 3 -> n = 32%nat) /\ (version h = 2 -> n = 0%nat))
    as (n & -> & Hn3 & Hn2).
  { subst sz. destruct Hv as [->| ->]; simpl; [exists 0%nat|exists 32%nat]; auto with lia. }
  change (replicate (72 + n) 0) with ([] ++ replicate (72 + n) 0).
  rewrite (put_u32_fresh _ _ (68 + n)), (put_u32_fresh _ _ (64 + n)), (put_u64_fresh _ _ (56 + n)),
    (put_u32_fresh _ _ (52 + n)), (put_u32_fresh _ _ (48 + n)), (put_u64_fresh _ _ (40 + n)),
    (put_u32_fresh _ _ (36 + n)), (put_u32_fresh _ _ (32 + n)), (put_u64_fresh _ _ (24 + n)),
    (put_u64_fresh _ _ (16 + n)), (put_u32_fresh _ _ (12 + n)), (put_u32_fresh _ _ (8 + n)),
    (put_u64_fresh _ _ n) by len.
  destruct Hv as [Hv|Hv]; rewrite Hv; simpl Z.leb; simpl Z.eqb; cbv iota.
  - rewrite Hn2 by done. by rewrite <-!app_assoc.
  - rewrite Hn3 by done.
    rewrite (put_u64_fresh _ _ 24), (put_u64_fresh _ _ 16), (put_u64_fresh _ _ 8),
      (put_u32_fresh _ _ 4), (put_u32_fresh _ _ 0) by len.
    by rewrite <-!app_assoc.
Qed.

(** Reading a field of a concatenation. *)
Lemma get_here (d rest : list Z) n : length d = n -> slice (d ++ rest) 0 n = d.
Proof. intros <-. unfold slice. by rewrite drop_0, take_app_length. Qed.
Lemma get_skip (d rest : list Z) o n :
  (length d <= o)%nat -> slice (d ++ rest) o n = slice rest (o - length d) n.
Proof. intros. unfold slice. by rewrite drop_app_ge. Qed.
Ltac field :=
  rewrite <-?app_assoc;
  repeat (rewrite get_skip by (rewrite be_bytes_length; lia); rewrite be_bytes_length; simpl Nat.sub);
  rewrite get_here by apply be_bytes_length.
Lemma be_val_small n v : inW (8 * Z.of_nat n) v -> be_val (be_bytes n v) = v.
Proof. intros. rewrite be_val_be_bytes. by apply Z.mod_small. Qed.

(** The bytes of a buffer, field by field. *)
Lemma be_bytes_get buf o n :
  is_bytes buf -> (o + n <= length buf)%nat -> be_bytes n (be_val (slice buf o n)) = slice buf o n.
Proof.
  intros Hb Hl. rewrite <-(be_bytes_be_val (slice buf o n)) at 2 by by apply is_bytes_slice.
  by rewrite slice_length.
Qed.
Lemma slice_join (buf : list Z) o n o' m :
  o' = (o + n)%nat -> slice buf o n ++ slice buf o' m = slice buf o (n + m).
Proof. intros ->. unfold slice. rewrite <-drop_drop. by rewrite take_take_drop. Qed.
Ltac proj := cbn [magic version backing_file_offset backing_file_size cluster_bits size crypt_method
  l1_size l1_table_offset refcount_table_offset refcount_table_clusters nb_snapshots snapshots_offset
  incompatible_features compatible_features autoclear_features refcount_order header_length].
Ltac join := repeat (erewrite slice_join by reflexivity; simpl Nat.add).

Lemma get_fields_v2 h rest :
  let b := fields_v2 h ++ rest in
  header_ok h ->
  (get_u32 b 0 = magic h /\ get_u32 b 4 = version h /\ get_u64 b 8 = backing_file_offset h) /\
  (get_u32 b 16 = backing_file_size h /\ get_u32 b 20 = cluster_bits h /\ get_u64 b 24 = size h) /\
  (get_u32 b 32 = crypt_method h /\ get_u32 b 36 = l1_size h /\ get_u64 b 40 = l1_table_offset h) /\
  (get_u64 b 48 = refcount_table_offset h /\ get_u32 b 56 = refcount_table_clusters h) /\
  (get_u32 b 60 = nb_snapshots h /\ get_u64 b 64 = snapshots_offset h).
Proof.
  intros b (Hm & Hv & Hok). subst b. unfold get_u32, get_u64, fields_v2.
  assert (is_u32 (magic h)) by by rewrite Hm. assert (is_u32 (version h)) by by destruct Hv as [->| ->].
  repeat split; field; apply be_val_small; tauto.
Qed.
Lemma get_fields_v3 h rest :
  let b := fields_v2 h ++ fields_v3 h ++ rest in
  header_ok h ->
  (get_u64 b 72 = incompatible_features h /\ get_u64 b 80 = compatible_features h /\
   get_u64 b 88 = autoclear_features h) /\
  (get_u32 b 96 = refcount_order h /\ get_u32 b 100 = header_length h).
Proof.
  intros b (_ & _ & Hok). subst b. unfold get_u32, get_u64, fields_v2, fields_v3.
  repeat split; field; apply be_val_small; tauto.
Qed.
Lemma fields_v2_length h : length (fields_v2 h) = 72%nat.
Proof. unfold fields_v2. by rewrite !length_app, !be_bytes_length. Qed.
Lemma fields_v3_length h : length (fields_v3 h) = 32%nat.
Proof. unfold fields_v3. by rewrite !length_app, !be_bytes_length. Qed.

(** The decoder on encoded fields, whatever follows them. *)
Lemma from_vec_to_vec h rest : header_ok h -> from_vec (to_vec h ++ rest) = Ok h.
Proof.
  intros Hok. pose proof Hok as (Hm & Hv & Hw). rewrite to_vec_fields, <-app_assoc by done. unfold from_vec.
  set (r := (if version h =? 2 then [] else fields_v3 h) ++ rest).
  destruct (get_fields_v2 h r Hok)
    as ((-> & -> & ->) & (-> & -> & ->) & (-> & -> & ->) & (-> & ->) & (-> & ->)).
  rewrite (proj2 (Nat.ltb_ge _ _))
    by (rewrite length_app, fields_v2_length; unfold QCOW_VERSION_2_MIN_LEN; lia).
  rewrite Hm. simpl negb. cbv iota.
  destruct Hv as [Hv|Hv].
  - destruct Hw as (_ & _ & _ & _ & _ & _ & _ & _ & _ & _ & _ & _ & _ & _ & _ & _ & Hw).
    destruct (Hw Hv) as (? & ? & ? & ? & ?). rewrite Hv. destruct h; simpl in *. by subst.
  - rewrite Hv. simpl Z.eqb. cbv iota.
    assert (r = fields_v3 h ++ rest) as -> by (subst r; by rewrite Hv).
    rewrite (proj2 (Nat.ltb_ge _ _))
      by (rewrite !length_app, fields_v2_length, fields_v3_length; unfold QCOW_VERSION_3_MIN_LEN; lia).
    destruct (get_fields_v3 h rest Hok) as ((-> & -> & ->) & (-> & ->)).
    by destruct h; simpl in *; subst.
Qed.

Lemma get_u32_bound buf o : is_bytes buf -> (o + 4 <= length buf)%nat -> is_u32 (get_u32 buf o).
Proof.
  intros. pose proof (be_val_bound (slice buf o 4) ltac:(by apply is_bytes_slice)) as Hb.
  by rewrite slice_length in Hb.
Qed.
Lemma get_u64_bound buf o : is_bytes buf -> (o + 8 <= length buf)%nat -> is_u64 (get_u64 buf o).
Proof.
  intros. pose proof (be_val_bound (slice buf o 8) ltac:(by apply is_bytes_slice)) as Hb.
  by rewrite slice_length in Hb.
Qed.

(** What the decoder accepts is the encoding of its result. *)
Lemma from_vec_inv buf h :
  is_bytes buf -> from_vec buf = Ok h -> header_ok h /\ to_vec h = take (length (to_vec h)) buf.
Proof.
  intros Hb. unfold from_vec. destruct (Nat.ltb_spec (length buf) QCOW_VERSION_2_MIN_LEN) as [|Hl]; [done|].
  unfold QCOW_VERSION_2_MIN_LEN in Hl. cbv zeta. destruct (Z.eqb_spec (get_u32 buf 0) QCOW_MAGIC) as [Hm|]; [|done].
  cbn [negb]. assert (forall o, (o + 4 <= 72)%nat -> is_u32 (get_u32 buf o)) as H4
    by (intros; apply get_u32_bound; [done|lia]).
  assert (forall o, (o + 8 <= 72)%nat -> is_u64 (get_u64 buf o)) as H8
    by (intros; apply get_u64_bound; [done|lia]).
  destruct (Z.eqb_spec (get_u32 buf 4) 2) as [Hv|]; [|destruct (Z.eqb_spec (get_u32 buf 4) 3) as [Hv|]; [|done]].
  - intros [= <-]. split.
    + repeat split; simpl; try (apply H4 || apply H8); try done; lia.
    + rewrite to_vec_fields by (simpl; tauto). simpl version. rewrite Hv. simpl Z.eqb. cbv iota.
      rewrite app_nil_r, fields_v2_length. unfold fields_v2; proj; unfold get_u32, get_u64.
      rewrite <-Hv. unfold get_u32. rewrite !be_bytes_get by (done || lia).
      by join.
  - destruct (Nat.ltb_spec (length buf) QCOW_VERSION_3_MIN_LEN) as [|Hl3]; [done|].
    unfold QCOW_VERSION_3_MIN_LEN in Hl3. intros [= <-]. split.
    + repeat split; simpl; try (apply H4; lia) || (apply H8; lia) || (apply get_u32_bound; [done|lia])
        || (apply get_u64_bound; [done|lia]); try done; lia.
    + rewrite to_vec_fields by (simpl; tauto). simpl version. rewrite Hv. simpl Z.eqb. cbv iota.
      rewrite length_app, fields_v2_length, fields_v3_length. unfold fields_v2, fields_v3; proj; unfold get_u32, get_u64.
      rewrite <-Hv. unfold get_u32. rewrite !be_bytes_get by (done || lia). rewrite <-!app_assoc.
      by join.
Qed.

(** ** The consistency check *)

Lemma cluster_size_pow h : 0 <= cluster_bits h < 64 -> cluster_size h = 2 ^ cluster_bits h.
Proof.
  intros. unfold cluster_size, wshl. rewrite (Z.mod_small _ 64), Z.shiftl_1_l by lia.
  apply wrap_small. split; [lia|]. apply Z.pow_lt_mono_r; lia.
Qed.
Lemma land_pred_mod x k : 0 <= k <= 64 -> Z.land x (wsub 64 (2 ^ k) 1) = x `mod` 2 ^ k.
Proof.
  intros. rewrite wsub_small.
  - rewrite <-Z.land_ones by lia. by rewrite Z.ones_equiv, Z.sub_1_r.
  - split; [|apply Z.lt_le_trans with (2 ^ k); [lia|apply Z.pow_le_mono_r; lia]].
    assert (0 < 2 ^ k) by lia. lia.
Qed.

(** The limits the check enforces. *)
Record header_fits (h : QcowHeader) : Prop := mkFits {
  fit_bits : 9 <= cluster_bits h <= 21;
  fit_length : header_length h <= 2 ^ cluster_bits h;
  fit_backing : backing_file_offset h = 0;
  fit_order : refcount_order h = 4;
  fit_rt_some : 0 < refcount_table_clusters h;
  fit_rt_size : refcount_table_clusters h * 2 ^ cluster_bits h <= 8 * 2 ^ 20;
  fit_rt_aligned : refcount_table_offset h `mod` 2 ^ cluster_bits h = 0;
  fit_rt_end : refcount_table_offset h + refcount_table_clusters h * 2 ^ cluster_bits h < 2 ^ 64;
  fit_l1_size : l1_size h * 8 <= 32 * 2 ^ 20;
  fit_l1_aligned : l1_table_offset h `mod` 2 ^ cluster_bits h = 0;
  fit_l1_covers : size h <= l1_size h * 2 ^ (2 * cluster_bits h - 3);
  fit_l1_end : l1_table_offset h + l1_size h * 8 < 2 ^ 64
}.

Section check.
Context (h : QcowHeader) (Hok : header_ok h) (Hbits : 9 <= cluster_bits h <= 21).
Let cs := 2 ^ cluster_bits h.

Lemma cs_bound : 512 <= cs <= 2097152.
Proof.
  unfold cs. change 512 with (2 ^ 9). change 2097152 with (2 ^ 21).
  split; apply Z.pow_le_mono_r; lia.
Qed.
Lemma cluster_aligned_spec off : cluster_aligned h off = (off `mod` cs =? 0).
Proof. unfold cluster_aligned. rewrite cluster_size_pow by lia. by rewrite land_pred_mod by lia. Qed.

Lemma check_refcount_table_spec :
  check_refcount_table h = Ok tt <->
  0 < refcount_table_clusters h /\ refcount_table_clusters h * cs <= 8 * 2 ^ 20 /\
  refcount_table_offset h `mod` cs = 0 /\
  refcount_table_offset h + refcount_table_clusters h * cs < 2 ^ 64.
Proof.
  destruct Hok as (_ & _ & _ & _ & _ & _ & _ & _ & _ & Ho & Hc & _). pose proof cs_bound.
  unfold check_refcount_table. rewrite cluster_aligned_spec, cluster_size_pow by lia. fold cs.
  assert (MAX_REFTABLE_SIZE / cs < refcount_table_clusters h <-> 8 * 2 ^ 20 < refcount_table_clusters h * cs) as Hd.
  { unfold MAX_REFTABLE_SIZE. split; intros.
    - pose proof (Z.mul_succ_div_gt (8 * 2 ^ 20) cs). nia.
    - apply Z.div_lt_upper_bound; nia. }
  unfold inW in *. zcases; cbn [negb]; try (split; [done|lia]).
  destruct (checked_add _ _ _) eqn:E; simpl.
  - apply checked_add_Some in E as [_ E]. rewrite wmul_small in E by (unfold inW; nia). split; [lia|done].
  - apply checked_add_None in E. rewrite wmul_small in E by (unfold inW; nia). split; [done|lia].
Qed.

Lemma check_l1_table_spec :
  check_l1_table h = Ok tt <->
  l1_size h * 8 <= 32 * 2 ^ 20 /\ l1_table_offset h `mod` cs = 0 /\
  size h <= l1_size h * 2 ^ (2 * cluster_bits h - 3) /\ l1_table_offset h + l1_size h * 8 < 2 ^ 64.
Proof.
  destruct Hok as (_ & _ & _ & _ & _ & Hs & _ & Hl & Ho & _). pose proof cs_bound.
  unfold check_l1_table. rewrite cluster_aligned_spec, cluster_size_pow by lia. fold cs.
  change ENTRY_SIZE with 8. change (MAX_L1TABLE_SIZE / 8) with (4 * 2 ^ 20).
  assert (wmul 64 cs cs / 8 = 2 ^ (2 * cluster_bits h - 3)) as ->.
  { rewrite wmul_small by (unfold inW; nia). unfold cs. rewrite <-Z.pow_add_r by lia.
    change 8 with (2 ^ 3). rewrite <-Z.pow_sub_r by lia. f_equal. lia. }
  assert (0 < 2 ^ (2 * cluster_bits h - 3)) by lia.
  destruct (div_round_up_spec (size h) (2 ^ (2 * cluster_bits h - 3))) as (q & -> & Hq & Hb); [done..|].
  simpl. unfold inW in *. zcases; cbn [negb]; try (split; [done|nia]).
  destruct (checked_add _ _ _) eqn:E; simpl.
  - apply checked_add_Some in E as [_ E]. rewrite wmul_small in E by (unfold inW; nia). split; [nia|done].
  - apply checked_add_None in E. rewrite wmul_small in E by (unfold inW; nia). split; [done|nia].
Qed.
End check.

Lemma check_fits h : header_ok h -> check h = Ok tt <-> header_fits h.
Proof.
  intros Hok. unfold check, MIN_CLUSTER_BIT, MAX_CLUSTER_BIT.
  destruct (decide (9 <= cluster_bits h <= 21)) as [Hb|Hb].
  - rewrite (proj2 (Z.leb_le 9 _)), (proj2 (Z.leb_le _ 21)) by lia. cbn [andb negb].
    rewrite cluster_size_pow by lia.
    pose proof (check_refcount_table_spec h Hok Hb) as Hr. pose proof (check_l1_table_spec h Hok Hb) as Hl.
    destruct (Z.ltb_spec (2 ^ cluster_bits h) (header_length h)); [split; [done|intros []; lia]|].
    destruct (Z.eqb_spec (backing_file_offset h) 0); [|split; [done|by intros []]].
    destruct (Z.eqb_spec (refcount_order h) 4); [|split; [done|by intros []]]. cbn [negb].
    destruct (check_refcount_table h) as [[]| |]; simpl; [|split; [done|intros []; destruct Hr; naive_solver]..].
    destruct (check_l1_table h) as [[]| |]; simpl; [|split; [done|intros []; destruct Hl; naive_solver]..].
    split; [|done]. intros _. destruct Hr as [Hr _], Hl as [Hl _]. specialize (Hr eq_refl). specialize (Hl eq_refl).
    constructor; naive_solver.
  - split; [|by intros []]. destruct (Z.leb_spec 9 (cluster_bits h)), (Z.leb_spec (cluster_bits h) 21); cbn; lia || done.
Qed.

(** ** Properties *)

(** Encoding a header and decoding the bytes, whatever follows them in the
    file, gives the header back; and a buffer the decoder accepts starts with
    the encoding of the header it returns. *)
Theorem header_roundtrip buf h :
  is_bytes buf ->
  (header_ok h -> from_vec (to_vec h ++ buf) = Ok h) /\
  (from_vec buf = Ok h -> header_ok h /\ to_vec h = take (length (to_vec h)) buf).
Proof. intros. split; [apply from_vec_to_vec|by apply from_vec_inv]. Qed.

(** [check] accepts a decoded header exactly when its tables are aligned,
    within their size limits, end below 2^64, and the L1 table covers the
    whole virtual disk. *)
Theorem header_check_exact h : header_ok h -> check h = Ok tt <-> header_fits h.
Proof. apply check_fits. Qed.

(** The header of a 10G image (the version 3 test vector of the source). *)
Definition ex_header : QcowHeader :=
  mkHeader QCOW_MAGIC 3 0 0 16 0x280000000 0 0x14 0x30000 0x10000 1 0 0 0 0 0 4 0x68.

Lemma ex_header_ok : header_ok ex_header.
Proof. unfold header_ok, inW; proj; simpl. lia. Qed.

Lemma header_roundtrip_witness :
  from_vec (to_vec ex_header ++ [1; 2; 3]) = Ok ex_header /\
  to_vec ex_header = take (length (to_vec ex_header)) (to_vec ex_header ++ [1; 2; 3]).
Proof.
  assert (is_bytes [1; 2; 3]) as H1 by (repeat constructor; lia).
  assert (is_bytes (to_vec ex_header ++ [1; 2; 3])) as H2
    by (vm_compute; repeat constructor; discriminate).
  pose proof (proj1 (header_roundtrip [1; 2; 3] ex_header H1) ex_header_ok) as Hd. split; [exact Hd|].
  exact (proj2 (proj2 (header_roundtrip (to_vec ex_header ++ [1; 2; 3]) ex_header H2) Hd)).
Defined.

Lemma header_check_witness : header_fits ex_header.
Proof. apply (header_check_exact ex_header ex_header_ok). vm_compute. reflexivity. Defined.
