(* ===== verification/SyncAio.v ===== *)
(** * Synchronous block I/O ([util/src/aio/mod.rs], engine [Off])

    Requests over scattered buffers: the aligned path, the bounce buffer for
    requests a direct file does not take, zero detection, discards.  The
    system calls of [util/src/aio/raw.rs] and [memalign] are the interface
    [HostIo]. *)
From stdpp Require Import prelude list.
From Stdlib Require Import ZArith Lia.
From S2P Require Import Prelude NumOps.

(** ** The host *)

(** The calls of [raw.rs] on one file descriptor, with their return value.
    A read also gives the bytes it stored, none when it fails.  [memalign] returns a buffer with
    whatever it holds, or null.  [seek_end] and [set_len] are
    [File::seek(SeekFrom::End(0))] and [File::set_len]. *)
Class HostIo (F : Type) := {
  raw_read (size offset : Z) : F -> F * (Z * list Z);
  raw_write (buf : list Z) (offset : Z) : F -> F * Z;
  raw_datasync : F -> F * Z;
  raw_discard (offset size : Z) : F -> F * Z;
  raw_write_zeroes (offset size : Z) : F -> F * Z;
  memalign : Z -> option (list Z);
  seek_end : F -> F * res unit Z;
  set_len (len : Z) : F -> F * res unit unit
}.

(** What the calls promise (pread(2), pwrite(2), fallocate(2)): the bytes and
    the length of the file; [healthy] when no call fails. *)
Class HostIoLaws (F : Type) `{!HostIo F} := {
  content : F -> Z -> Z;
  flen : F -> Z;
  healthy : F -> Prop;
  content_byte f a : is_u8 (content f a);
  raw_read_law size offset f : 0 <= size -> 0 <= offset ->
    forall f' ret bs, raw_read size offset f = (f', (ret, bs)) ->
    (forall a, content f' a = content f a) /\ flen f' = flen f /\ ret <= size /\
    bs = ztab (content f) offset (Z.to_nat ret) /\
    (healthy f -> healthy f' /\ ret = Z.max 0 (Z.min size (flen f - offset)));
  raw_write_law buf offset f : is_bytes buf -> 0 <= offset ->
    forall f' ret, raw_write buf offset f = (f', ret) ->
    (forall a, ~ offset <= a < offset + Z.of_nat (length buf) -> content f' a = content f a) /\
    (forall i b, buf !! i = Some b ->
       content f' (offset + Z.of_nat i) = b \/
       ret <> Z.of_nat (length buf) /\ content f' (offset + Z.of_nat i) = content f (offset + Z.of_nat i)) /\
    ret <= Z.of_nat (length buf) /\ flen f <= flen f' /\
    (healthy f -> healthy f' /\ ret = Z.of_nat (length buf) /\
       flen f' = if decide (buf = []) then flen f else Z.max (flen f) (offset + Z.of_nat (length buf)));
  raw_discard_law offset size f : 0 <= size -> 0 <= offset ->
    forall f' ret, raw_discard offset size f = (f', ret) ->
    (forall a, ~ offset <= a < offset + size -> content f' a = content f a) /\ flen f' = flen f /\
    (ret = 0 -> forall a, offset <= a < offset + size -> content f' a = 0) /\
    (healthy f -> healthy f');
  raw_write_zeroes_law offset size f : 0 <= size -> 0 <= offset ->
    forall f' ret, raw_write_zeroes offset size f = (f', ret) ->
    (forall a, ~ offset <= a < offset + size -> content f' a = content f a) /\ flen f <= flen f' /\
    ret <= 0 /\ (ret = 0 -> forall a, offset <= a < offset + size -> content f' a = 0) /\
    (healthy f -> healthy f' /\
       (ret = 0 /\ flen f' = Z.max (flen f) (offset + size) \/ ret = -95 /\ flen f' = flen f));
  memalign_law n b : memalign n = Some b -> is_bytes b /\ length b = Z.to_nat n;
  memalign_healthy f n : healthy f -> is_Some (memalign n);
  seek_end_law f : healthy f -> forall f' r, seek_end f = (f', r) ->
    (forall a, content f' a = content f a) /\ flen f' = flen f /\ healthy f' /\ r = Ok (flen f);
  set_len_law len f : flen f <= len -> healthy f -> forall f' r, set_len len f = (f', r) ->
    (forall a, a < flen f -> content f' a = content f a) /\ (forall a, flen f <= a < len -> content f' a = 0) /\
    flen f' = len /\ healthy f' /\ r = Ok tt
}.

(** ** Data *)

Definition MAX_LEN_BOUNCE_BUFF : Z := 2 ^ 20.
Definition ENOTSUP : Z := 95.

Inductive WriteZeroesState := WzOff | WzOn | WzUnmap.
Record Iovec := mkIovec { iov_base : Z; iov_len : Z }.
Inductive OpCode := Noop | Preadv | Pwritev | Fdsync | Discard | WriteZeroes | WriteZeroesUnmap.

#[export] Instance WriteZeroesState_eq_dec : EqDecision WriteZeroesState.
Proof. solve_decision. Defined.
#[export] Instance OpCode_eq_dec : EqDecision OpCode.
Proof. solve_decision. Defined.

Record AioCb := mkAioCb {
  direct : bool;
  req_align : Z;
  buf_align : Z;
  discard : bool;
  write_zeroes : WriteZeroesState;
  opcode : OpCode;
  iovec : list Iovec;
  offset : Z;
  nbytes : Z
}.

Definition get_iov_size (iovecs : list Iovec) : Z :=
  foldl (fun sum iov => wadd 64 sum (iov_len iov)) 0 iovecs.

(** ** Host memory and scattered buffers *)

Definition hmem := Z -> Z.

Definition mem_from_buf (buf : list Z) (hva : Z) (m : hmem) : hmem := fun a =>
  if (hva <=? a) && (a <? hva + Z.of_nat (length buf)) then nth (Z.to_nat (a - hva)) buf 0 else m a.
Definition mem_to_buf (m : hmem) (hva n : Z) : list Z := ztab m hva (Z.to_nat n).

(** The loop of [iov_from_buf_direct]: [start] and the last value of [end]. *)
Fixpoint iov_from_buf_loop (iovs : list Iovec) (buf : list Z) (start last : Z) (m : hmem) : hmem * Z :=
  match iovs with
  | [] => (m, last)
  | iov :: iovs =>
    let end_ := Z.min (wadd 64 start (iov_len iov)) (Z.of_nat (length buf)) in
    let m := mem_from_buf (slice buf (Z.to_nat start) (Z.to_nat (end_ - start))) (iov_base iov) m in
    if Z.of_nat (length buf) <=? end_ then (m, end_) else iov_from_buf_loop iovs buf end_ end_ m
  end.
Definition iov_from_buf_direct (iovs : list Iovec) (buf : list Z) (m : hmem) : hmem * Z :=
  iov_from_buf_loop iovs buf 0 0 m.

Fixpoint iov_to_buf_loop (m : hmem) (iovs : list Iovec) (start last : Z) (buf : list Z) : list Z * Z :=
  match iovs with
  | [] => (buf, last)
  | iov :: iovs =>
    let end_ := Z.min (wadd 64 start (iov_len iov)) (Z.of_nat (length buf)) in
    let buf := splice buf (Z.to_nat start) (mem_to_buf m (iov_base iov) (end_ - start)) in
    if Z.of_nat (length buf) <=? end_ then (buf, end_) else iov_to_buf_loop m iovs end_ end_ buf
  end.
(** The search for the buffer a non-zero [offset] lies in. *)
Fixpoint iov_to_buf_seek (m : hmem) (iovs : list Iovec) (offset : Z) (buf : list Z) : list Z * Z :=
  match iovs with
  | [] => (buf, 0)
  | iov :: iovs =>
    if offset <? iov_len iov then
      let end_ := Z.min (iov_len iov - offset) (Z.of_nat (length buf)) in
      let buf := splice buf 0 (mem_to_buf m (wadd 64 (iov_base iov) offset) end_) in
      if (Z.of_nat (length buf) <=? end_) || bool_decide (iovs = []) then (buf, end_)
      else iov_to_buf_loop m iovs end_ end_ buf
    else iov_to_buf_seek m iovs (offset - iov_len iov) buf
  end.
Definition iov_to_buf_direct (m : hmem) (iovs : list Iovec) (offset : Z) (buf : list Z) : list Z * Z :=
  if offset =? 0 then iov_to_buf_loop m iovs 0 0 buf else iov_to_buf_seek m iovs offset buf.

Fixpoint iov_discard_front_direct (iovs : list Iovec) (size : Z) : option (list Iovec) :=
  match iovs with
  | [] => None
  | iov :: iovs =>
    if size <? iov_len iov
    then Some (mkIovec (wadd 64 (iov_base iov) size) (iov_len iov - size) :: iovs)
    else iov_discard_front_direct iovs (size - iov_len iov)
  end.

(** The words of a buffer are zero exactly when its bytes are. *)
Definition iovec_is_zero (m : hmem) (iovs : list Iovec) : bool :=
  forallb (fun iov => (iov_len iov `mod` 8 =? 0)
                      && forallb (fun b => b =? 0) (mem_to_buf m (iov_base iov) (iov_len iov))) iovs.

Fixpoint iovecs_split (iovs : list Iovec) (size : Z) : list Iovec * list Iovec :=
  match iovs with
  | [] => ([], [])
  | iov :: iovs =>
    if size =? 0 then let '(b, e) := iovecs_split iovs 0 in (b, iov :: e)
    else if size <? iov_len iov then
      let '(b, e) := iovecs_split iovs 0 in
      (mkIovec (iov_base iov) size :: b, mkIovec (wadd 64 (iov_base iov) size) (iov_len iov - size) :: e)
    else let '(b, e) := iovecs_split iovs (size - iov_len iov) in (iov :: b, e)
  end.

Definition iovec_write_zero (iovs : list Iovec) (m : hmem) : hmem :=
  foldl (fun m iov => mem_from_buf (replicate (Z.to_nat (iov_len iov)) 0) (iov_base iov) m) m iovs.

(** ** Requests *)

Definition request_misaligned (cb : AioCb) : bool :=
  direct cb && (bool_decide (opcode cb = Preadv) || bool_decide (opcode cb = Pwritev)) &&
  (negb (Z.land (offset cb) (wsub 64 (req_align cb) 1) =? 0) ||
   existsb (fun iov => negb (Z.land (iov_base iov) (wsub 64 (buf_align cb) 1) =? 0)
                       || negb (Z.land (iov_len iov) (wsub 64 (req_align cb) 1) =? 0)) (iovec cb)).

Section aio.
Context {F : Type} `{!HostIo F}.

Record io := mkIo { mem : hmem; file : F }.
Definition set_mem (m : hmem) (s : io) : io := mkIo m (file s).
Definition set_file (f : F) (s : io) : io := mkIo (mem s) f.

(** [preadv] stores the bytes in the buffers in order, [pwritev] takes them in
    order. *)
Definition raw_readv (iovs : list Iovec) (offset : Z) (s : io) : io * Z :=
  let '(f, (ret, bs)) := raw_read (get_iov_size iovs) offset (file s) in
  (mkIo (fst (iov_from_buf_direct iovs bs (mem s))) f, ret).
Definition iov_bytes (m : hmem) (iovs : list Iovec) : list Z :=
  concat ((fun iov => mem_to_buf m (iov_base iov) (iov_len iov)) <$> iovs).
Definition raw_writev (iovs : list Iovec) (offset : Z) (s : io) : io * Z :=
  let '(f, ret) := raw_write (iov_bytes (mem s) iovs) offset (file s) in (set_file f s, ret).

(** The value given to the completion function. *)
Definition rw_sync (cb : AioCb) (s : io) : io * res unit Z :=
  let '(s, ret) :=
    match opcode cb with
    | Preadv => raw_readv (iovec cb) (offset cb) s
    | Pwritev => raw_writev (iovec cb) (offset cb) s
    | _ => (s, -1)
    end in
  (s, Ok (if ret <? 0 then ret else if ret =? nbytes cb then ret else -1)).

(** The loop of a misaligned read; [high] and [high_align] are the ends of the
    request and of its sections. *)
Fixpoint misaligned_read (fuel : nat) (cb : AioCb) (high high_align buffer_len : Z)
    (offset_ : Z) (iovs : list Iovec) : sres io unit unit := fun s =>
  match fuel with
  | O => (s, Panic)
  | S fuel =>
    let nbytes_ := Z.min (wsub 64 high_align offset_) buffer_len in
    let '(f, (ret, bounce)) := raw_read nbytes_ offset_ (file s) in
    let s := set_file f s in
    if ret <? 0 then (s, Err tt)
    else
      let real_offset := Z.max offset_ (offset cb) in
      let real_high := Z.min (wadd 64 offset_ nbytes_) high in
      let real_nbytes := wsub 64 real_high real_offset in
      if ret <? wsub 64 real_high offset_ then (s, Err tt)
      else
        let src := slice bounce (Z.to_nat (real_offset - offset_)) (Z.to_nat real_nbytes) in
        let '(m, v) := iov_from_buf_direct iovs src (mem s) in
        let s := set_mem m s in
        if negb (v =? real_nbytes) then (s, Err tt)
        else if high_align <=? wadd 64 offset_ nbytes_ then (s, Ok tt)
        else
          match iov_discard_front_direct iovs real_nbytes with
          | None => (s, Err tt)
          | Some iovs => misaligned_read fuel cb high high_align buffer_len (wadd 64 offset_ nbytes_) iovs s
          end
  end.

Fixpoint misaligned_write (fuel : nat) (cb : AioCb) (high high_align buffer_len : Z) (need_tail : bool)
    (offset_ : Z) (iovs : list Iovec) (bounce : list Z) : sres io unit unit := fun s =>
  match fuel with
  | O => (s, Panic)
  | S fuel =>
    let nbytes_ := Z.min (wsub 64 high_align offset_) buffer_len in
    let real_offset := Z.max offset_ (offset cb) in
    let real_high := Z.min (wadd 64 offset_ nbytes_) high in
    let real_nbytes := wsub 64 real_high real_offset in
    let '(s, tail) :=
      if (real_high =? high) && need_tail then
        let '(f, (ret, bs)) := raw_read (req_align cb) (wsub 64 (wadd 64 offset_ nbytes_) (req_align cb)) (file s) in
        (set_file f s,
         if (ret <? 0) || negb (ret =? req_align cb) then Err tt
         else Ok (splice bounce (Z.to_nat (nbytes_ - req_align cb)) bs))
      else (s, Ok bounce) in
    match tail with
    | Ok bounce =>
      let at_ := Z.to_nat (real_offset - offset_) in
      let '(dst, v) := iov_to_buf_direct (mem s) iovs 0 (slice bounce at_ (Z.to_nat real_nbytes)) in
      let bounce := splice bounce at_ dst in
      if negb (v =? real_nbytes) then (s, Err tt)
      else
        let '(f, ret) := raw_write (take (Z.to_nat nbytes_) bounce) offset_ (file s) in
        let s := set_file f s in
        if (ret <? 0) || negb (ret =? nbytes_) then (s, Err tt)
        else if high_align <=? wadd 64 offset_ nbytes_ then (s, Ok tt)
        else
          match iov_discard_front_direct iovs real_nbytes with
          | None => (s, Err tt)
          | Some iovs =>
            misaligned_write fuel cb high high_align buffer_len need_tail (wadd 64 offset_ nbytes_) iovs bounce s
          end
    | Err e => (s, Err e)
    | Panic => (s, Panic)
    end
  end.

Definition handle_misaligned_rw (cb : AioCb) (bounce : list Z) (buffer_len : Z) : sres io unit unit := fun s =>
  match round_down (offset cb) (req_align cb) with
  | Ok offset_align =>
    let high := wadd 64 (offset cb) (nbytes cb) in
    match round_up high (req_align cb) with
    | Ok high_align =>
      let fuel := S (Z.to_nat (high_align - offset_align)) in
      match opcode cb with
      | Preadv => misaligned_read fuel cb high high_align buffer_len offset_align (iovec cb) s
      | Pwritev =>
        let '(s, head) :=
          if offset_align <? offset cb then
            let '(f, (ret, bs)) := raw_read (req_align cb) offset_align (file s) in
            (set_file f s,
             if (ret <? 0) || negb (ret =? req_align cb) then Err tt else Ok (true, splice bounce 0 bs))
          else (s, Ok (false, bounce)) in
        match head with
        | Ok (head_loaded, bounce) =>
          let same_section := high <=? wadd 64 offset_align (req_align cb) in
          let need_tail := negb (same_section && head_loaded) && (high <? high_align) in
          misaligned_write fuel cb high high_align buffer_len need_tail offset_align (iovec cb) bounce s
        | Err e => (s, Err e)
        | Panic => (s, Panic)
        end
      | _ => (s, Err tt)
      end
    | Err e => (s, Err e)
    | Panic => (s, Panic)
    end
  | Err e => (s, Err e)
  | Panic => (s, Panic)
  end.

(** The first part of [submit_request]: a request through the bounce buffer. *)
Definition submit_misaligned (cb : AioCb) : sres io unit Z := fun s =>
  match round_down (wadd 64 (nbytes cb) (wmul 64 (req_align cb) 2)) (req_align cb) with
  | Ok max_len =>
    let buff_len := Z.min max_len MAX_LEN_BOUNCE_BUFF in
    match memalign buff_len with
    | None => (s, Ok (-1))
    | Some bounce =>
      match handle_misaligned_rw cb bounce buff_len s with
      | (s, Ok _) => (s, Ok 0)
      | (s, Err _) => (s, Ok (-1))
      | (s, Panic) => (s, Panic)
      end
    end
  | Err e => (s, Err e)
  | Panic => (s, Panic)
  end.

Definition flush_sync (cb : AioCb) : sres io unit Z := fun s =>
  let '(f, ret) := raw_datasync (file s) in (set_file f s, Ok ret).
Definition discard_sync (cb : AioCb) : sres io unit Z := fun s =>
  let '(f, ret) := raw_discard (offset cb) (nbytes cb) (file s) in (set_file f s, Ok ret).

(** A read or write without zero detection: what [submit_request] does once
    [write_zeroes] is [Off]. *)
Definition submit_rw (cb : AioCb) : sres io unit Z :=
  if request_misaligned cb then submit_misaligned cb else rw_sync cb.

Definition write_zeroes_sync (cb : AioCb) : sres io unit Z := fun s =>
  let '(s, done) :=
    match opcode cb with
    | WriteZeroesUnmap =>
      let '(f, ret) := raw_discard (offset cb) (nbytes cb) (file s) in (set_file f s, ret =? 0)
    | _ => (s, false)
    end in
  if done : bool then (s, Ok 0)
  else
    let '(f, ret) := raw_write_zeroes (offset cb) (nbytes cb) (file s) in
    let s := set_file f s in
    if (ret =? - ENOTSUP) && negb (bool_decide (iovec cb = [])) then
      submit_rw (mkAioCb (direct cb) (req_align cb) (buf_align cb) (discard cb) WzOff Pwritev
                   (iovec cb) (offset cb) (nbytes cb)) s
    else (s, Ok ret).

Definition submit_request (cb : AioCb) : sres io unit Z := fun s =>
  if request_misaligned cb then submit_misaligned cb s
  else
    let opcode_ :=
      if bool_decide (opcode cb = Pwritev) && negb (bool_decide (write_zeroes cb = WzOff))
         && iovec_is_zero (mem s) (iovec cb)
      then if bool_decide (write_zeroes cb = WzUnmap) && discard cb then WriteZeroesUnmap else WriteZeroes
      else opcode cb in
    let cb := mkAioCb (direct cb) (req_align cb) (buf_align cb) (discard cb) (write_zeroes cb) opcode_
                (iovec cb) (offset cb) (nbytes cb) in
    match opcode_ with
    | Preadv | Pwritev => rw_sync cb s
    | Fdsync => flush_sync cb s
    | Discard => discard_sync cb s
    | WriteZeroes | WriteZeroesUnmap => write_zeroes_sync cb s
    | Noop => (s, Err tt)
    end.
End aio.
Arguments io : clear implicits.

(** ** Scattered buffers *)

(** The addresses of the bytes of a list of buffers, in order. *)
Definition iov_addrs (iovs : list Iovec) : list Z :=
  concat ((fun iov => ztab id (iov_base iov) (Z.to_nat (iov_len iov))) <$> iovs).
Definition iov_ok (iov : Iovec) : Prop := 0 <= iov_base iov /\ 0 <= iov_len iov /\ iov_base iov + iov_len iov < 2 ^ 63.

Lemma ztab_fmap {A B} (f : A -> B) (g : Z -> A) a n : f <$> ztab g a n = ztab (f ∘ g) a n.
Proof. unfold ztab. by rewrite <-list_fmap_compose. Qed.
Lemma iov_bytes_addrs m iovs : iov_bytes m iovs = m <$> iov_addrs iovs.
Proof.
  unfold iov_bytes, iov_addrs. induction iovs as [|iov iovs IH]; [done|]. rewrite !fmap_cons.
  cbn [concat]. rewrite fmap_app, <-IH. f_equal. by rewrite ztab_fmap.
Qed.
Lemma iov_addrs_cons iov iovs :
  iov_addrs (iov :: iovs) = ztab id (iov_base iov) (Z.to_nat (iov_len iov)) ++ iov_addrs iovs.
Proof. done. Qed.

(** Storing [bs] at the first addresses of [addrs]. *)
Definition stored (addrs bs : list Z) (m m' : hmem) : Prop :=
  (forall i a b, addrs !! i = Some a -> bs !! i = Some b -> m' a = b) /\
  (forall a, a ∉ take (length bs) addrs -> m' a = m a).

Lemma stored_nil addrs m : stored addrs [] m m.
Proof. split; [intros ???? Hb; by rewrite lookup_nil in Hb|done]. Qed.
Lemma stored_app a1 a2 b1 b2 m m1 m2 :
  NoDup (a1 ++ a2) -> length a1 = length b1 -> stored a1 b1 m m1 -> stored a2 b2 m1 m2 ->
  stored (a1 ++ a2) (b1 ++ b2) m m2.
Proof.
  intros Hnd Hl [S1 U1] [S2 U2]. apply NoDup_app in Hnd as (_ & Hd & _). split.
  - intros i a b Ha Hb. destruct (decide (i < length a1)%nat).
    + rewrite lookup_app_l in Ha, Hb by lia. rewrite U2; [by eapply S1|].
      intros Hin. apply (Hd a); [by eapply list_elem_of_lookup_2|]. by apply subseteq_take in Hin.
    + rewrite lookup_app_r in Ha, Hb by lia. rewrite Hl in Ha. by eapply S2.
  - intros a Ha. rewrite length_app, take_app_ge, not_elem_of_app in Ha by lia. destruct Ha as [Ha1 Ha2].
    replace (length b1 + length b2 - length a1)%nat with (length b2) in Ha2 by lia.
    rewrite U2 by done. apply U1. by rewrite take_ge by lia.
Qed.
Lemma stored_more a1 a2 bs m m' : length bs = length a1 -> stored a1 bs m m' -> stored (a1 ++ a2) bs m m'.
Proof.
  intros Hl [S U]. split.
  - intros i a b Ha Hb. eapply S; [|done]. apply lookup_lt_Some in Hb. by rewrite lookup_app_l in Ha by lia.
  - intros a Ha. apply U. by rewrite take_app_le in Ha by lia.
Qed.
Lemma stored_bytes addrs bs m m' : length bs = length addrs -> stored addrs bs m m' -> m' <$> addrs = bs.
Proof.
  intros Hl [S _]. apply list_eq_same_length with (length addrs); [|by rewrite length_fmap|].
  - done.
  - intros i x y Hi Hx Hy. rewrite list_lookup_fmap in Hx. destruct (addrs !! i) eqn:E; [|done].
    injection Hx as <-. by eapply S.
Qed.
Lemma mem_from_buf_stored buf hva m : stored (ztab id hva (length buf)) buf m (mem_from_buf buf hva m).
Proof.
  unfold mem_from_buf. split.
  - intros i a b Ha Hb. pose proof (lookup_lt_Some _ _ _ Hb). rewrite ztab_lookup in Ha by done.
    injection Ha as <-. unfold id. rewrite (proj2 (Z.leb_le _ _)), (proj2 (Z.ltb_lt _ _)) by lia. simpl.
    apply nth_lookup_Some. replace (Z.to_nat _) with i by lia. done.
  - intros a Ha. destruct (Z.leb_spec hva a); [|done]. destruct (Z.ltb_spec a (hva + Z.of_nat (length buf))); [|done].
    exfalso. apply Ha. rewrite take_ge by (by rewrite ztab_length).
    apply list_elem_of_lookup_2 with (Z.to_nat (a - hva)). rewrite ztab_lookup by lia. f_equal. unfold id. lia.
Qed.
Lemma take_ztab {A} (f : Z -> A) a n k : (k <= n)%nat -> take k (ztab f a n) = ztab f a k.
Proof.
  intros. replace n with (k + (n - k))%nat by lia. rewrite ztab_app.
  by rewrite take_app_length' by by rewrite ztab_length.
Qed.
Lemma drop_ztab {A} (f : Z -> A) a n k :
  (k <= n)%nat -> drop k (ztab f a n) = ztab f (a + Z.of_nat k) (n - k).
Proof.
  intros. replace n with (k + (n - k))%nat at 1 by lia. rewrite ztab_app.
  by rewrite drop_app_length' by by rewrite ztab_length.
Qed.

Lemma iov_from_buf_loop_spec iovs buf start last m :
  Forall iov_ok iovs -> NoDup (iov_addrs iovs) -> Z.of_nat (length buf) < 2 ^ 63 ->
  0 <= start <= Z.of_nat (length buf) -> last = start ->
  (length (drop (Z.to_nat start) buf) <= length (iov_addrs iovs))%nat ->
  exists m', iov_from_buf_loop iovs buf start last m = (m', Z.of_nat (length buf)) /\
    stored (iov_addrs iovs) (drop (Z.to_nat start) buf) m m'.
Proof.
  intros Hok Hnd Hlen. revert start last m. induction Hok as [|iov iovs (Hb & Hn & Hw) Hok IH];
    intros start last m Hs -> Hl; rewrite length_drop in Hl.
  - simpl in *. exists m. split; [f_equal; lia|]. rewrite drop_ge by lia. apply stored_nil.
  - rewrite iov_addrs_cons in *. rewrite length_app, ztab_length in Hl. cbn [iov_from_buf_loop].
    rewrite wadd_small by (unfold inW; lia). set (e := Z.min _ _).
    set (d := slice buf _ _).
    assert (length d = Z.to_nat (e - start)) as Hd by (subst d; apply slice_length; lia).
    pose proof (mem_from_buf_stored d (iov_base iov) m) as Hst. set (m1 := mem_from_buf _ _ _) in *.
    assert (drop (Z.to_nat start) buf = d ++ drop (Z.to_nat e) buf) as Hsplit.
    { subst d. unfold slice. rewrite <-(take_drop (Z.to_nat (e - start)) (drop _ _)) at 1.
      rewrite drop_drop. do 2 f_equal. lia. }
    destruct (Z.leb_spec (Z.of_nat (length buf)) e).
    + exists m1. replace e with (Z.of_nat (length buf)) by lia. split; [done|].
      rewrite Hsplit, (drop_ge buf), app_nil_r by lia.
      replace (Z.to_nat (iov_len iov)) with (length d + (Z.to_nat (iov_len iov) - length d))%nat by lia.
      rewrite ztab_app, <-app_assoc. apply stored_more; [by rewrite ztab_length|done].
    + apply NoDup_app in Hnd as Hnd'. destruct Hnd' as (_ & _ & Hnd2).
      destruct (IH Hnd2 e e m1 ltac:(lia) eq_refl) as (m' & -> & Hst2); [rewrite length_drop; lia|].
      exists m'. split; [done|]. rewrite Hsplit. replace (Z.to_nat (iov_len iov)) with (length d) in * by lia.
      eapply stored_app; [done|by rewrite ztab_length|done..].
Qed.

Lemma iov_from_buf_direct_spec iovs buf m :
  Forall iov_ok iovs -> NoDup (iov_addrs iovs) -> Z.of_nat (length buf) < 2 ^ 63 ->
  (length buf <= length (iov_addrs iovs))%nat ->
  exists m', iov_from_buf_direct iovs buf m = (m', Z.of_nat (length buf)) /\ stored (iov_addrs iovs) buf m m'.
Proof.
  intros ? ? ? Hl. destruct (iov_from_buf_loop_spec iovs buf 0 0 m) as (m' & E1 & E2); try done; [lia|].
  by exists m'.
Qed.

Lemma iov_to_buf_loop_spec m iovs start last buf :
  Forall iov_ok iovs -> Z.of_nat (length buf) < 2 ^ 63 ->
  0 <= start <= Z.of_nat (length buf) -> last = start ->
  Z.of_nat (length buf) - start <= Z.of_nat (length (iov_addrs iovs)) ->
  iov_to_buf_loop m iovs start last buf =
    (take (Z.to_nat start) buf ++ take (length buf - Z.to_nat start) (iov_bytes m iovs), Z.of_nat (length buf)).
Proof.
  intros Hok Hlen. revert start last buf Hlen. induction Hok as [|iov iovs (Hb & Hn & Hw) Hok IH];
    intros start last buf Hlen Hs -> Hl.
  - simpl in Hl. cbn [iov_to_buf_loop]. rewrite take_ge by lia. unfold iov_bytes. simpl. rewrite take_nil, app_nil_r. f_equal. lia.
  - rewrite iov_bytes_addrs, iov_addrs_cons in *. rewrite length_app, ztab_length in Hl. cbn [iov_to_buf_loop].
    rewrite wadd_small by (unfold inW; lia). set (e := Z.min _ _).
    set (d := mem_to_buf _ _ _). set (buf1 := splice _ _ _).
    assert (length d = Z.to_nat (e - start)) as Hd by (subst d; unfold mem_to_buf; apply ztab_length).
    assert (length buf1 = length buf) as Hb1 by (apply splice_length; lia). rewrite Hb1.
    assert (take (Z.to_nat e) buf1 = take (Z.to_nat start) buf ++ d) as Ht.
    { subst buf1. unfold splice. rewrite app_assoc. apply take_app_length'.
      rewrite length_app, length_take, Hd. lia. }
    rewrite fmap_app, ztab_fmap. change (m ∘ id) with m.
    destruct (Z.leb_spec (Z.of_nat (length buf)) e).
    + f_equal; [|lia]. rewrite <-(take_ge buf1 (Z.to_nat e)) by lia. rewrite Ht. f_equal.
      rewrite take_app_le by (rewrite ztab_length; lia). rewrite take_ztab by lia.
      subst d. unfold mem_to_buf. f_equal. lia.
    + rewrite IH by (rewrite ?Hb1; lia || done). rewrite Ht, Hb1, <-app_assoc. do 2 f_equal.
      rewrite take_app_ge by (rewrite ztab_length; lia). rewrite ztab_length. f_equal.
      * subst d. unfold mem_to_buf. f_equal. lia.
      * f_equal. lia.
Qed.

Lemma iov_to_buf_direct_spec m iovs buf :
  Forall iov_ok iovs -> Z.of_nat (length buf) < 2 ^ 63 -> (length buf <= length (iov_addrs iovs))%nat ->
  iov_to_buf_direct m iovs 0 buf = (take (length buf) (iov_bytes m iovs), Z.of_nat (length buf)).
Proof.
  intros. unfold iov_to_buf_direct. simpl Z.eqb. cbv iota.
  rewrite iov_to_buf_loop_spec by (done || lia). simpl. by rewrite Nat.sub_0_r.
Qed.

Lemma iov_discard_front_spec iovs size :
  Forall iov_ok iovs -> 0 <= size < Z.of_nat (length (iov_addrs iovs)) ->
  exists iovs', iov_discard_front_direct iovs size = Some iovs' /\ Forall iov_ok iovs' /\
    iov_addrs iovs' = drop (Z.to_nat size) (iov_addrs iovs).
Proof.
  intros Hok. revert size. induction Hok as [|iov iovs (Hb & Hn & Hw) Hok IH]; intros size Hs; [simpl in Hs; lia|].
  rewrite iov_addrs_cons in *. rewrite length_app, ztab_length in Hs. cbn [iov_discard_front_direct].
  destruct (Z.ltb_spec size (iov_len iov)).
  - eexists. split; [done|]. split.
    + constructor; [|done]. unfold iov_ok; simpl. rewrite wadd_small by (unfold inW; lia). lia.
    + rewrite iov_addrs_cons. simpl iov_base. simpl iov_len. rewrite wadd_small by (unfold inW; lia).
      rewrite drop_app_le by (rewrite ztab_length; lia). rewrite drop_ztab by lia. f_equal. f_equal; lia.
  - destruct (IH (size - iov_len iov) ltac:(lia)) as (iovs' & -> & Hok' & Ha). exists iovs'. split; [done|].
    split; [done|]. rewrite Ha, drop_app_ge by (rewrite ztab_length; lia). rewrite ztab_length. f_equal. lia.
Qed.

Lemma stored_take addrs bs m m' :
  stored addrs bs m m' -> stored (take (length bs) addrs) bs m m'.
Proof.
  intros [S U]. split.
  - intros i a b Ha Hb. apply (S i); [|done]. by apply lookup_take_Some in Ha as [? _].
  - intros a Ha. apply U. by rewrite take_take, Nat.min_id in Ha.
Qed.
Lemma stored_split addrs b1 b2 m m1 m2 :
  NoDup addrs -> (length b1 <= length addrs)%nat ->
  stored addrs b1 m m1 -> stored (drop (length b1) addrs) b2 m1 m2 -> stored addrs (b1 ++ b2) m m2.
Proof.
  intros Hnd Hl H1 H2. rewrite <-(take_drop (length b1) addrs) at 1.
  eapply stored_app; [by rewrite take_drop|rewrite length_take; lia|by apply stored_take|done].
Qed.

(** ** The bounce buffer *)

Section misaligned.
Context {F : Type} `{!HostIo F, !HostIoLaws F}.
Context (cb : AioCb) (high high_align buffer_len : Z).
Local Abbreviation al := (req_align cb).
Local Abbreviation off := (offset cb).
Context (Hal : 0 < al) (Hoff : 0 <= off) (Hn : 0 < nbytes cb) (Hsmall : off + nbytes cb + 2 * al < 2 ^ 63).
Context (Hhigh : high = off + nbytes cb) (HA : (al | high_align)) (HAr : high <= high_align < high + al).
Context (HB : (al | buffer_len)) (HBr : al <= buffer_len < 2 ^ 63).

(** Where a chunk starts: at a section that is not before the first one. *)
Record chunk_at (o : Z) : Prop := mkChunk {
  chunk_div : (al | o);
  chunk_lo : 0 <= o;
  chunk_hi : o < high_align;
  chunk_off : off < o + al
}.
Definition chunk_len (o : Z) : Z := Z.min (high_align - o) buffer_len.

Lemma chunk_facts o : chunk_at o ->
  (al | chunk_len o) /\ al <= chunk_len o /\ o + chunk_len o <= high_align /\ o < high /\
  (o + chunk_len o < high_align -> chunk_at (o + chunk_len o) /\ o + chunk_len o < high).
Proof.
  intros [[ko Ho] Hlo Hhi Hof]. unfold chunk_len. destruct HA as [ka Ha], HB as [kb Hb].
  assert (ko < ka) by nia. assert (al <= high_align - o) by nia.
  assert ((al | Z.min (high_align - o) buffer_len)) as Hd.
  { destruct (Z.min_spec (high_align - o) buffer_len) as [[_ ->]|[_ ->]]; [exists (ka - ko); nia|by exists kb]. }
  repeat split; try lia; try done.
  - apply Z.divide_add_r; [by exists ko|done].
  - destruct Hd as [kd Hd]. assert (ko + kd < ka) by nia. nia.
Qed.

Lemma misaligned_read_spec fuel o iovs (s : io F) s' r :
  chunk_at o -> Forall iov_ok iovs -> NoDup (iov_addrs iovs) ->
  Z.of_nat (length (iov_addrs iovs)) = high - Z.max o off -> high_align - o < Z.of_nat fuel ->
  misaligned_read fuel cb high high_align buffer_len o iovs s = (s', r) ->
  (forall a, content (file s') a = content (file s) a) /\ flen (file s') = flen (file s) /\ r <> Panic /\
  (forall a, a ∉ iov_addrs iovs -> mem s' a = mem s a) /\
  (r = Ok tt -> stored (iov_addrs iovs)
     (ztab (content (file s)) (Z.max o off) (Z.to_nat (high - Z.max o off))) (mem s) (mem s')) /\
  (healthy (file s) -> healthy (file s') /\ (high <= flen (file s) -> r = Ok tt)).
Proof.
  revert o iovs s. induction fuel as [|fuel IH]; intros o iovs s Hc Hok Hnd Hlen Hfuel;
    [pose proof (chunk_hi o Hc); lia|].
  destruct (chunk_facts o Hc) as (Hd & Hge & Hle & Hoh & Hnext). destruct Hc as [_ Hlo Hhi Hof].
  cbn [misaligned_read]. rewrite (wsub_small 64 high_align) by (unfold inW; lia). fold (chunk_len o).
  set (k := chunk_len o) in *. rewrite (wadd_small 64 o k) by (unfold inW; lia).
  destruct (raw_read k o (file s)) as [f1 [ret bs]] eqn:Er.
  destruct (raw_read_law k o (file s) ltac:(lia) Hlo f1 ret bs Er) as (Hcont & Hfl & Hret & Hbs & Hh).
  cbn [set_file set_mem file mem].
  set (ro := Z.max o off) in *. set (rh := Z.min (o + k) high) in *.
  rewrite (wsub_small 64 rh ro), (wsub_small 64 rh o) by (unfold inW; lia).
  destruct (Z.ltb_spec ret 0) as [Hneg|Hneg].
  { intros [= <- <-]. cbn. split_and!; try done. intros Hhe; destruct (Hh Hhe) as [? ?]. split; [done|lia]. }
  destruct (Z.ltb_spec ret (rh - o)) as [Hshort|Hshort].
  { intros [= <- <-]. cbn. split_and!; try done. intros Hhe; destruct (Hh Hhe) as [? ?]. split; [done|lia]. }
  rewrite Hbs. unfold slice. rewrite drop_ztab, take_ztab by lia.
  replace (o + Z.of_nat (Z.to_nat (ro - o))) with ro by lia.
  set (src := ztab (content (file s)) ro (Z.to_nat (rh - ro))).
  assert (length src = Z.to_nat (rh - ro)) as Hsrc by apply ztab_length.
  destruct (iov_from_buf_direct_spec iovs src (mem s) Hok Hnd) as (m1 & -> & Hst); [lia..|].
  replace (Z.of_nat (length src) =? rh - ro) with true by (symmetry; apply Z.eqb_eq; lia). cbn [negb].
  destruct (Z.leb_spec high_align (o + k)) as [Hend|Hmore].
  - intros [= <- <-]. cbn. assert (rh = high) by lia. split_and!; try done.
    + intros a Ha. apply Hst. intros Hin. by apply subseteq_take in Hin.
    + intros _. subst src. replace high with rh by lia. done.
    + intros Hhe. by destruct (Hh Hhe).
  - destruct (Hnext Hmore) as [Hc2 Hlt].
    destruct (iov_discard_front_spec iovs (rh - ro) Hok ltac:(lia)) as (iovs2 & -> & Hok2 & Ha2).
    intros Hrun. apply IH in Hrun; cycle 1; [done..| | | |].
    { rewrite Ha2. by apply (NoDup_app (take (Z.to_nat (rh - ro)) (iov_addrs iovs))); rewrite take_drop. }
    { rewrite Ha2, length_drop. lia. }
    { lia. }
    cbn [mem file] in Hrun. rewrite Ha2 in Hrun. destruct Hrun as (Rc & Rf & Rp & Rm & Ro & Rh).
    split; [intros; by rewrite Rc|]. split; [by rewrite Rf|]. split; [done|].
    assert (forall a, a ∉ iov_addrs iovs -> m1 a = mem s a) as Hm1.
    { intros a Ha. apply Hst. intros Hin. by apply subseteq_take in Hin. }
    split.
    { intros a Ha. rewrite Rm; [by apply Hm1|]. intros Hin. by apply subseteq_drop in Hin. }
    split; [|intros Hhe; destruct (Hh Hhe) as [? _]; rewrite <-Hfl; by apply Rh].
    intros Hr. specialize (Ro Hr).
    replace (Z.to_nat (high - ro)) with (Z.to_nat (rh - ro) + Z.to_nat (high - (o + k)))%nat by lia.
    rewrite ztab_app. eapply stored_split; [done|rewrite ztab_length; lia|exact Hst|]. rewrite ztab_length.
    replace (Z.max (o + k) off) with (o + k) in Ro by lia.
    replace (ztab (content (file s)) _ _) with (ztab (content f1) (o + k) (Z.to_nat (high - (o + k)))); [exact Ro|].
    apply ztab_ext. intros j ?. rewrite Hcont. f_equal. lia.
Qed.

(** What the file holds after a write of [D] over [c0]. *)
Context (c0 : Z -> Z) (D : list Z) (Hc0 : forall a, is_u8 (c0 a)) (HDb : is_bytes D)
  (HD : Z.of_nat (length D) = nbytes cb).
Definition target (a : Z) : Z := if decide (off <= a < high) then nth (Z.to_nat (a - off)) D 0 else c0 a.

Lemma target_byte a : is_u8 (target a).
Proof.
  unfold target. case_decide; [|apply Hc0]. destruct (nth_in_or_default (Z.to_nat (a - off)) D 0) as [Hi| ->]; [|done].
  apply list_elem_of_In in Hi. by eapply Forall_forall in Hi; [|exact HDb].
Qed.

(** The state of the write loop before the chunk at [o]. *)
Record write_inv (need_tail : bool) (o : Z) (iovs : list Iovec) (bounce : list Z) (s : io F) : Prop := mkWriteInv {
  wi_done : forall a, a < o -> content (file s) a = target a;
  wi_todo : forall a, o <= a -> content (file s) a = c0 a;
  wi_iovs : Forall iov_ok iovs;
  wi_data : iov_bytes (mem s) iovs = drop (Z.to_nat (Z.max o off - off)) D;
  wi_len : Z.of_nat (length bounce) = buffer_len;
  wi_bytes : is_bytes bounce;
  wi_head : o < off -> take (Z.to_nat al) bounce = ztab c0 o (Z.to_nat al);
  wi_notail : high < high_align -> need_tail = false ->
    o + al = high_align /\ take (Z.to_nat al) bounce = ztab c0 o (Z.to_nat al)
}.

(** The bounce buffer with the last section read from the file. *)
Definition with_tail (need_tail : bool) (o : Z) (bounce : list Z) : list Z :=
  if (Z.min (o + chunk_len o) high =? high) && need_tail
  then splice bounce (Z.to_nat (chunk_len o - al)) (ztab c0 (o + chunk_len o - al) (Z.to_nat al)) else bounce.

Lemma with_tail_ok need_tail o iovs bounce s :
  chunk_at o -> write_inv need_tail o iovs bounce s ->
  length (with_tail need_tail o bounce) = length bounce /\ is_bytes (with_tail need_tail o bounce).
Proof.
  intros Hc Hi. destruct (chunk_facts o Hc) as (_ & Hge & _). pose proof (wi_len _ _ _ _ _ Hi).
  pose proof (wi_bytes _ _ _ _ _ Hi). unfold with_tail. destruct (_ && _); [|done].
  assert (chunk_len o <= buffer_len) by (unfold chunk_len; lia).
  split; [apply splice_length; rewrite ztab_length; lia|].
  apply is_bytes_splice; [done|]. apply Forall_lookup. intros i x Hx.
  assert (i < Z.to_nat al)%nat as Hlt by (apply lookup_lt_Some in Hx; by rewrite ztab_length in Hx).
  rewrite ztab_lookup in Hx by done. by injection Hx as <-.
Qed.

Lemma chunk_bytes need_tail o iovs bounce s :
  chunk_at o -> write_inv need_tail o iovs bounce s ->
  let k := chunk_len o in
  let ro := Z.max o off in
  let rn := Z.min (o + k) high - ro in
  take (Z.to_nat k) (splice (with_tail need_tail o bounce) (Z.to_nat (ro - o))
                       (take (Z.to_nat rn) (iov_bytes (mem s) iovs))) = ztab target o (Z.to_nat k).
Proof.
  intros Hc Hi k ro rn. destruct (chunk_facts o Hc) as (Hd & Hge & Hle & Hoh & Hnext).
  destruct (with_tail_ok _ _ _ _ _ Hc Hi) as [Hwl _]. destruct Hc as [Hdo Hlo Hhi Hof].
  destruct Hi as [_ _ _ Hdata Hlen _ Hhead Hnot]. fold k in Hd, Hge, Hle, Hnext. fold ro in Hdata.
  assert (k <= buffer_len) by (unfold k, chunk_len; lia).
  set (d := take (Z.to_nat rn) _). assert (length d = Z.to_nat rn) as Hdl.
  { subst d. rewrite Hdata, length_take, length_drop. lia. }
  apply list_eq_same_length with (Z.to_nat k); [by rewrite ztab_length|rewrite length_take, splice_length; lia|].
  intros i x y Hik Hx Hy. rewrite ztab_lookup in Hy by done. injection Hy as <-.
  rewrite lookup_take_lt, lookup_splice in Hx by lia. unfold target.
  case_decide as Hin.
  - rewrite decide_True by lia. subst d. rewrite lookup_take_lt, Hdata, lookup_drop in Hx by lia.
    symmetry. apply nth_lookup_Some. rewrite <-Hx. f_equal. lia.
  - rewrite decide_False by lia. unfold with_tail in Hx. fold k in Hx.
    assert (forall b, take (Z.to_nat al) b = ztab c0 o (Z.to_nat al) -> (i < Z.to_nat al)%nat ->
              b !! i = Some x -> x = c0 (o + Z.of_nat i)) as Hsec.
    { intros b Hb Hia Hbi. rewrite <-(lookup_take_lt b (Z.to_nat al)), Hb, ztab_lookup in Hbi by done.
      by injection Hbi. }
    destruct (Z.eqb_spec (Z.min (o + k) high) high) as [Heq|Hne]; cbn [andb] in Hx.
    + assert (o + k = high_align) as Hka.
      { destruct (Z.eq_dec (o + k) high_align); [done|]. destruct Hnext as [_ ?]; lia. }
      destruct need_tail; cbn iota in Hx.
      * rewrite lookup_splice in Hx by (rewrite ztab_length; lia). rewrite ztab_length in Hx. case_decide.
        -- rewrite ztab_lookup in Hx by lia. injection Hx as <-. f_equal. lia.
        -- apply (Hsec bounce); [|lia|done]. apply Hhead. lia.
      * destruct (Z.ltb_spec high high_align) as [Hlt|].
        -- destruct (Hnot Hlt eq_refl) as [Hoal Hb]. apply (Hsec bounce); [done|lia|done].
        -- apply (Hsec bounce); [|lia|done]. apply Hhead. lia.
    + apply (Hsec bounce); [|lia|done]. apply Hhead. lia.
Qed.

Lemma inv_outside need_tail o iovs bounce s a :
  write_inv need_tail o iovs bounce s -> ~ off <= a < high -> content (file s) a = c0 a.
Proof.
  intros Hi Ha. destruct (Z.lt_ge_cases a o); [|by apply (wi_todo _ _ _ _ _ Hi)].
  rewrite (wi_done _ _ _ _ _ Hi) by done. unfold target. by rewrite decide_False.
Qed.

(** The effect of writing the chunk. *)
Lemma chunk_written need_tail o iovs bounce s f' ret :
  chunk_at o -> write_inv need_tail o iovs bounce s ->
  raw_write (ztab target o (Z.to_nat (chunk_len o))) o (file s) = (f', ret) ->
  (forall a, ~ off <= a < high -> content f' a = c0 a) /\
  (ret = chunk_len o -> (forall a, a < o + chunk_len o -> content f' a = target a) /\
     (forall a, o + chunk_len o <= a -> content f' a = c0 a)) /\
  flen (file s) <= flen f' /\
  (healthy (file s) -> healthy f' /\ ret = chunk_len o /\ flen f' = Z.max (flen (file s)) (o + chunk_len o)).
Proof.
  intros Hc Hi Hw. destruct (chunk_facts o Hc) as (_ & Hge & _). pose proof (chunk_lo o Hc).
  set (k := chunk_len o) in *. assert (is_bytes (ztab target o (Z.to_nat k))) as Hby.
  { apply Forall_lookup. intros i x Hx. pose proof (lookup_lt_Some _ _ _ Hx) as Hlt. rewrite ztab_length in Hlt.
    rewrite ztab_lookup in Hx by done. injection Hx as <-. apply target_byte. }
  destruct (raw_write_law _ _ _ Hby ltac:(done) _ _ Hw) as (Hout & Hin & _ & Hfl & Hh).
  rewrite ztab_length, Z2Nat.id in * by lia.
  assert (forall a, o <= a < o + k -> content f' a = target a \/ ret <> k /\ content f' a = content (file s) a) as Hin'.
  { intros a Ha. specialize (Hin (Z.to_nat (a - o)) (target a)).
    replace (o + Z.of_nat (Z.to_nat (a - o))) with a in Hin by lia. apply Hin.
    rewrite ztab_lookup by lia. do 2 f_equal. lia. }
  split_and!; [| |done|].
  - intros a Ha. destruct (decide (o <= a < o + k)) as [Hk|Hk].
    + destruct (Hin' a Hk) as [->|[_ ->]]; [|by eapply inv_outside]. unfold target. by rewrite decide_False.
    + rewrite Hout by done. by eapply inv_outside.
  - intros ->. split; intros a Ha.
    + destruct (Z.lt_ge_cases a o); [rewrite Hout by lia; by apply (wi_done _ _ _ _ _ Hi)|].
      destruct (Hin' a ltac:(lia)) as [?|[? _]]; done.
    + rewrite Hout by lia. apply (wi_todo _ _ _ _ _ Hi). lia.
  - intros Hhe. destruct (Hh Hhe) as (? & ? & Hfl'). split_and!; [done..|]. rewrite decide_False in Hfl'; [done|].
    intros Hnil. apply (f_equal length) in Hnil. rewrite ztab_length in Hnil. simpl in Hnil. lia.
Qed.

Lemma write_inv_file need_tail o iovs bounce s f :
  (forall a, content f a = content (file s) a) ->
  write_inv need_tail o iovs bounce s -> write_inv need_tail o iovs bounce (set_file f s).
Proof. intros Hf []. constructor; try done; simpl; intros; rewrite Hf; auto. Qed.

(** Reading the last section into the bounce buffer, when it is needed. *)
Lemma tail_step need_tail o iovs bounce (s s1 : io F) tail :
  chunk_at o -> write_inv need_tail o iovs bounce s ->
  (if (Z.min (o + chunk_len o) high =? high) && need_tail then
     let '(f, (ret, bs)) := raw_read al (wsub 64 (o + chunk_len o) al) (file s) in
     (set_file f s,
      if (ret <? 0) || negb (ret =? al) then Err tt
      else Ok (splice bounce (Z.to_nat (chunk_len o - al)) bs))
   else (s, Ok bounce)) = (s1, tail) ->
  (tail = Err tt \/ tail = Ok (with_tail need_tail o bounce)) /\ mem s1 = mem s /\
  write_inv need_tail o iovs bounce s1 /\ flen (file s1) = flen (file s) /\
  (healthy (file s) -> healthy (file s1) /\
     ((need_tail = true -> high_align <= flen (file s)) -> tail = Ok (with_tail need_tail o bounce))).
Proof.
  intros Hc Hi. destruct (chunk_facts o Hc) as (_ & Hge & Hle & _ & Hnext). pose proof (chunk_lo o Hc).
  unfold with_tail. set (k := chunk_len o) in *.
  destruct (Z.eqb_spec (Z.min (o + k) high) high) as [Heq|]; cbn [andb]; [|intros [= <- <-]; auto 10].
  destruct need_tail; cbn iota; [|intros [= <- <-]; auto 10].
  assert (o + k = high_align) by (destruct (Z.eq_dec (o + k) high_align); [done|]; destruct Hnext as [_ ?]; lia).
  rewrite wsub_small by (unfold inW; lia). destruct (raw_read _ _ _) as [f [ret bs]] eqn:Er.
  apply raw_read_law in Er as (Hcont & Hfl & Hret & Hbs & Hh); [|lia..]. intros [= <- <-].
  split_and!; [|done|by apply write_inv_file|done|].
  - destruct (Z.ltb_spec ret 0); [by left|]. destruct (Z.eqb_spec ret al) as [->|]; [|by left]. right. simpl.
    rewrite Hbs. do 2 f_equal. apply ztab_ext. intros j ?. apply (wi_todo _ _ _ _ _ Hi). lia.
  - intros Hhe. destruct (Hh Hhe) as [? Hr]. split; [done|]. intros Hfull. specialize (Hfull eq_refl).
    assert (ret = al) as -> by lia.
    rewrite (proj2 (Z.ltb_ge _ _)), Z.eqb_refl by lia. simpl. rewrite Hbs.
    do 2 f_equal. apply ztab_ext. intros j ?. apply (wi_todo _ _ _ _ _ Hi). lia.
Qed.

Lemma misaligned_write_spec fuel need_tail o iovs bounce (s : io F) s' r :
  chunk_at o -> write_inv need_tail o iovs bounce s -> high_align - o < Z.of_nat fuel ->
  misaligned_write fuel cb high high_align buffer_len need_tail o iovs bounce s = (s', r) ->
  mem s' = mem s /\ r <> Panic /\ (forall a, ~ off <= a < high -> content (file s') a = c0 a) /\
  (r = Ok tt -> forall a, content (file s') a = target a) /\ flen (file s) <= flen (file s') /\
  (healthy (file s) -> healthy (file s') /\ ((need_tail = true -> high_align <= flen (file s)) ->
     r = Ok tt /\ flen (file s') = Z.max (flen (file s)) high_align)).
Proof.
  revert o iovs bounce s. induction fuel as [|fuel IH]; intros o iovs bounce s Hc Hi Hfuel;
    [pose proof (chunk_hi o Hc); lia|].
  destruct (chunk_facts o Hc) as (Hd & Hge & Hle & Hoh & Hnext). pose proof (chunk_lo o Hc). pose proof (chunk_off o Hc).
  cbn [misaligned_write]. rewrite (wsub_small 64 high_align) by (unfold inW; lia). fold (chunk_len o).
  rewrite (wadd_small 64 o (chunk_len o)) by (unfold inW; lia).
  destruct (if _ && _ then _ else _) as [s1 tail] eqn:Et.
  apply (tail_step _ _ iovs) in Et as (Htail & Hm1 & Hi1 & Hf1 & Hh1); [|done..].
  destruct Htail as [->| ->].
  { intros [= <- <-]. split_and!; try done; [intros; by eapply inv_outside|lia|].
    intros Hhe. destruct (Hh1 Hhe) as [? Ht]. split; [done|]. intros Hfull. by apply Ht in Hfull. }
  pose proof (chunk_bytes _ _ _ _ _ Hc Hi1) as Hbytes. cbv zeta in Hbytes.
  destruct (with_tail_ok _ _ _ _ _ Hc Hi1) as [Hwl Hwb].
  set (k := chunk_len o) in *. set (ro := Z.max o off) in *. set (rh := Z.min (o + k) high) in *.
  rewrite (wsub_small 64 rh ro) by (unfold inW; lia).
  destruct Hi1 as [Hdone Htodo Hiov Hdata Hbl Hbb Hhead Hnot] eqn:EHi1. clear EHi1. fold ro in Hdata.
  assert (k <= buffer_len) by (unfold k, chunk_len; lia).
  assert (length (slice (with_tail need_tail o bounce) (Z.to_nat (ro - o)) (Z.to_nat (rh - ro))) = Z.to_nat (rh - ro))
    as Hsl by (apply slice_length; lia).
  assert (Z.of_nat (length (iov_addrs iovs)) = high - ro) as Hal'.
  { apply (f_equal length) in Hdata. rewrite iov_bytes_addrs, length_fmap, length_drop in Hdata. lia. }
  rewrite iov_to_buf_direct_spec by (done || lia). rewrite Hsl.
  replace (Z.of_nat (Z.to_nat (rh - ro)) =? rh - ro) with true by (symmetry; apply Z.eqb_eq; lia). cbn [negb].
  rewrite Hbytes. destruct (raw_write _ _ _) as [f2 ret] eqn:Ew.
  apply (chunk_written need_tail o iovs bounce) in Ew as (Wout & Wok & Wfl & Wh); [|done..]. fold k in Wok, Wh.
  cbn [set_file file mem].
  destruct ((ret <? 0) || negb (ret =? k)) eqn:Eret.
  { intros [= <- <-]. cbn [set_file file mem]. split_and!; try done; [lia|]. intros Hhe. destruct (Hh1 Hhe) as [Hhe1 _].
    destruct (Wh Hhe1) as (? & -> & _). rewrite Z.eqb_refl, (proj2 (Z.ltb_ge _ _)) in Eret by lia. done. }
  apply orb_false_iff in Eret as [_ Eret]. apply negb_false_iff, Z.eqb_eq in Eret. destruct (Wok Eret) as [Wd Wt].
  destruct (Z.leb_spec high_align (o + k)) as [Hend|Hmore].
  - intros [= <- <-]. cbn [set_file file mem]. split_and!; try done; [|lia|].
    + intros _ a. destruct (Z.lt_ge_cases a (o + k)); [by apply Wd|]. rewrite Wt by done.
      unfold target. by rewrite decide_False by lia.
    + intros Hhe. destruct (Hh1 Hhe) as [Hhe1 _]. destruct (Wh Hhe1) as (? & _ & Hf2). split; [done|].
      intros _. split; [done|]. rewrite Hf2, Hf1. lia.
  - destruct (Hnext Hmore) as [Hc2 Hlt].
    destruct (iov_discard_front_spec iovs (rh - ro) Hiov ltac:(lia)) as (iovs2 & -> & Hok2 & Ha2).
    intros Hrun. apply IH in Hrun; [|done| |lia].
    + cbn [set_file file mem] in Hrun. destruct Hrun as (Rm & Rp & Ro & Rok & Rf & Rh). rewrite Rm.
      split_and!; [done|done|done|done|lia|]. intros Hhe. destruct (Hh1 Hhe) as [Hhe1 _].
      destruct (Wh Hhe1) as (Hhe2 & _ & Hf2). destruct (Rh Hhe2) as [? Rh2]. split; [done|]. intros Hfull.
      destruct Rh2 as [-> ->]; [intros Ht; specialize (Hfull Ht); lia|]. split; [done|]. lia.
    + constructor; cbn [set_file file mem]; try done.
      * rewrite iov_bytes_addrs, Ha2, fmap_drop, <-iov_bytes_addrs, Hdata, drop_drop. f_equal. lia.
      * rewrite splice_length; [lia|]. rewrite length_take, Hdata, length_drop. lia.
      * apply is_bytes_splice; [done|]. apply Forall_take. rewrite Hdata. by apply Forall_drop.
      * lia.
      * intros Hq1 Hq2. destruct (Hnot Hq1 Hq2). lia.
Qed.
End misaligned.

(** ** Whole requests *)

Record cb_ok (cb : AioCb) : Prop := mkCbOk {
  ok_align : exists k, 0 <= k <= 20 /\ req_align cb = 2 ^ k;
  ok_offset : 0 <= offset cb;
  ok_nbytes : 0 < nbytes cb;
  ok_small : offset cb + nbytes cb + 2 * req_align cb < 2 ^ 63;
  ok_iovec : Forall iov_ok (iovec cb);
  ok_size : Z.of_nat (length (iov_addrs (iovec cb))) = nbytes cb
}.

Section requests.
Context {F : Type} `{!HostIo F, !HostIoLaws F}.
Implicit Types s : io F.

(** What a finished read or write has done: [r] is the value given to the
    completion function, negative on failure. *)
Definition read_effect (cb : AioCb) (s s' : io F) (r : res unit Z) : Prop :=
  (forall a, content (file s') a = content (file s) a) /\ flen (file s') = flen (file s) /\
  (forall a, a ∉ iov_addrs (iovec cb) -> mem s' a = mem s a) /\
  exists ret, r = Ok ret /\
    (0 <= ret -> iov_bytes (mem s') (iovec cb) = ztab (content (file s)) (offset cb) (Z.to_nat (nbytes cb))).
Definition write_effect (cb : AioCb) (s s' : io F) (r : res unit Z) : Prop :=
  mem s' = mem s /\ flen (file s) <= flen (file s') /\
  (forall a, ~ offset cb <= a < offset cb + nbytes cb -> content (file s') a = content (file s) a) /\
  exists ret, r = Ok ret /\
    (0 <= ret -> forall i b, iov_bytes (mem s) (iovec cb) !! i = Some b ->
       content (file s') (offset cb + Z.of_nat i) = b).

(** The sections at the ends of an unaligned write are in the file. *)
Definition edges_in (cb : AioCb) (f : F) : Prop :=
  (offset cb `mod` req_align cb <> 0 -> (offset cb / req_align cb + 1) * req_align cb <= flen f) /\
  ((offset cb + nbytes cb) `mod` req_align cb <> 0 ->
     ((offset cb + nbytes cb) / req_align cb + 1) * req_align cb <= flen f).

Lemma get_iov_size_addrs iovs :
  Forall iov_ok iovs -> Z.of_nat (length (iov_addrs iovs)) < 2 ^ 64 ->
  get_iov_size iovs = Z.of_nat (length (iov_addrs iovs)).
Proof.
  intros Hok. unfold get_iov_size.
  assert (forall acc, 0 <= acc -> acc + Z.of_nat (length (iov_addrs iovs)) < 2 ^ 64 ->
    foldl (fun sum iov => wadd 64 sum (iov_len iov)) acc iovs = acc + Z.of_nat (length (iov_addrs iovs))) as H.
  { induction Hok as [|iov iovs (_ & Hn & _) _ IH]; intros acc Ha Hs; simpl; [lia|].
    rewrite iov_addrs_cons, length_app, ztab_length in *. rewrite wadd_small by (unfold inW; lia).
    rewrite IH by lia. lia. }
  intros. by rewrite H by lia.
Qed.

(** The geometry of a request. *)
Lemma cb_sections cb :
  cb_ok cb -> exists high_align buffer_len,
    let high := offset cb + nbytes cb in
    round_down (offset cb) (req_align cb) = Ok (offset cb / req_align cb * req_align cb) /\
    round_up high (req_align cb) = Ok high_align /\ (req_align cb | high_align) /\
    high <= high_align < high + req_align cb /\
    round_down (wadd 64 (nbytes cb) (wmul 64 (req_align cb) 2)) (req_align cb) = Ok buffer_len /\
    (req_align cb | Z.min buffer_len MAX_LEN_BOUNCE_BUFF) /\
    req_align cb <= Z.min buffer_len MAX_LEN_BOUNCE_BUFF < 2 ^ 63 /\
    wadd 64 (offset cb) (nbytes cb) = high.
Proof.
  intros [(k & Hk & Hal) Ho Hn Hs _ _].
  assert (0 < req_align cb <= 2 ^ 20) by (rewrite Hal; split; [lia|apply Z.pow_le_mono_r; lia]).
  destruct (round_up_small (offset cb + nbytes cb) (req_align cb)) as (ha & Hu & Hd & Hr); [lia..|].
  exists ha, ((nbytes cb + req_align cb * 2) / req_align cb * req_align cb). cbv zeta.
  rewrite (wmul_small 64), (wadd_small 64 (nbytes cb)), (wadd_small 64 (offset cb)) by (unfold inW; lia).
  rewrite !round_down_spec by (unfold inW; lia). split_and!; try done; try lia.
  - rewrite Z.min_comm. destruct (Z.min_spec MAX_LEN_BOUNCE_BUFF ((nbytes cb + req_align cb * 2) / req_align cb * req_align cb)) as [[_ ->]|[_ ->]].
    + rewrite Hal. unfold MAX_LEN_BOUNCE_BUFF. exists (2 ^ (20 - k)). rewrite <-Z.pow_add_r by lia. f_equal. lia.
    + by exists ((nbytes cb + req_align cb * 2) / req_align cb).
  - unfold MAX_LEN_BOUNCE_BUFF. assert (1 <= (nbytes cb + req_align cb * 2) / req_align cb) by (apply Z.div_le_lower_bound; lia). nia.
  - unfold MAX_LEN_BOUNCE_BUFF. lia.
Qed.

Lemma first_chunk cb high_align :
  cb_ok cb -> offset cb + nbytes cb <= high_align ->
  chunk_at cb high_align (offset cb / req_align cb * req_align cb).
Proof.
  intros [(k & Hk & Hal) Ho Hn Hs _ _] Hh. assert (0 < req_align cb) by (rewrite Hal; lia).
  pose proof (Z.div_mod (offset cb) (req_align cb) ltac:(lia)).
  pose proof (Z.mod_pos_bound (offset cb) (req_align cb) ltac:(lia)).
  pose proof (Z.div_pos (offset cb) (req_align cb) Ho ltac:(lia)).
  constructor; [by exists (offset cb / req_align cb)|nia..].
Qed.

Lemma misaligned_read_effect cb s s' r :
  cb_ok cb -> opcode cb = Preadv -> NoDup (iov_addrs (iovec cb)) ->
  submit_misaligned cb s = (s', r) ->
  read_effect cb s s' r /\
  (healthy (file s) -> healthy (file s') /\ (offset cb + nbytes cb <= flen (file s) -> r = Ok 0)).
Proof.
  intros Hok Hop Hnd. destruct (cb_sections cb Hok) as (ha & bl & Hrd & Hru & Hda & Hra & Hbl & Hdb & Hrb & Hhi).
  pose proof (first_chunk cb ha Hok ltac:(lia)) as Hc. pose proof Hok as [(k & Hk & Hal) Ho Hn Hs Hiov Hsz].
  assert (0 < req_align cb) by (rewrite Hal; lia).
  unfold submit_misaligned. rewrite Hbl. destruct (memalign _) as [b|] eqn:Em.
  2:{ intros [= <- <-]. split; [split_and!; try done; eexists; split; [done|]; lia|].
      intros Hhe. by destruct (memalign_healthy _ (Z.min bl MAX_LEN_BOUNCE_BUFF) Hhe) as [? ?]; simplify_eq. }
  unfold handle_misaligned_rw. rewrite Hrd, Hhi, Hru, Hop.
  destruct (misaligned_read _ _ _ _ _ _ _ _) as [s1 r1] eqn:Er.
  apply misaligned_read_spec in Er as (Rc & Rf & Rp & Rm & Ro & Rh); [|done..| |lia].
  2:{ rewrite Hsz. destruct Hc. pose proof (Z.div_mod (offset cb) (req_align cb) ltac:(lia)).
      pose proof (Z.mod_pos_bound (offset cb) (req_align cb) ltac:(lia)). lia. }
  assert (Z.max (offset cb / req_align cb * req_align cb) (offset cb) = offset cb) as Hmax.
  { pose proof (Z.div_mod (offset cb) (req_align cb) ltac:(lia)).
    pose proof (Z.mod_pos_bound (offset cb) (req_align cb) ltac:(lia)). lia. }
  rewrite Hmax in Ro. replace (offset cb + nbytes cb - offset cb) with (nbytes cb) in Ro by lia.
  destruct r1 as [[]|e|]; [|destruct e|done]; intros [= <- <-].
  - split; [|intros Hhe; by destruct (Rh Hhe)]. split_and!; [done..|]. eexists. split; [done|]. intros _.
    rewrite iov_bytes_addrs. eapply stored_bytes; [|by apply Ro]. rewrite ztab_length. lia.
  - split; [split_and!; [done..|]; eexists; split; [done|]; lia|].
    intros Hhe. destruct (Rh Hhe) as [? Ht]. split; [done|]. intros Hl. by apply Ht in Hl.
Qed.

(** The head section is read when the request does not start at a section. *)
Lemma head_step cb (s s1 : io F) b head :
  cb_ok cb -> is_bytes b -> req_align cb <= Z.of_nat (length b) ->
  let oa := offset cb / req_align cb * req_align cb in
  (if oa <? offset cb then
     let '(f, (ret, bs)) := raw_read (req_align cb) oa (file s) in
     (set_file f s,
      if (ret <? 0) || negb (ret =? req_align cb) then Err tt else Ok (true, splice b 0 bs))
   else (s, Ok (false, b))) = (s1, head) ->
  mem s1 = mem s /\ (forall a, content (file s1) a = content (file s) a) /\ flen (file s1) = flen (file s) /\
  (head = Err tt \/ exists b', head = Ok (oa <? offset cb, b') /\ is_bytes b' /\ length b' = length b /\
     (oa < offset cb -> take (Z.to_nat (req_align cb)) b' = ztab (content (file s)) oa (Z.to_nat (req_align cb)))) /\
  (healthy (file s) -> healthy (file s1) /\ (edges_in cb (file s) -> head <> Err tt)).
Proof.
  intros [(k & Hk & Hal) Ho Hn Hs _ _] Hb Hlen oa. assert (0 < req_align cb) by (rewrite Hal; lia).
  pose proof (Z.div_mod (offset cb) (req_align cb) ltac:(lia)).
  pose proof (Z.mod_pos_bound (offset cb) (req_align cb) ltac:(lia)).
  pose proof (Z.div_pos (offset cb) (req_align cb) Ho ltac:(lia)).
  destruct (Z.ltb_spec oa (offset cb)) as [Hlt|Hge].
  - destruct (raw_read _ _ _) as [f [ret bs]] eqn:Er.
    apply raw_read_law in Er as (Hcont & Hfl & Hret & Hbs & Hh); [|unfold oa; nia..]. intros [= <- <-].
    split_and!; [done..| |].
    + destruct (Z.ltb_spec ret 0); [by left|]. destruct (Z.eqb_spec ret (req_align cb)) as [->|]; [|by left].
      right. simpl. eexists. split; [done|]. rewrite Hbs. assert (is_bytes (ztab (content (file s)) oa (Z.to_nat (req_align cb)))).
      { apply Forall_lookup. intros i x Hx. pose proof (lookup_lt_Some _ _ _ Hx) as Hi. rewrite ztab_length in Hi.
        rewrite ztab_lookup in Hx by done. injection Hx as <-. apply content_byte. }
      split_and!; [by apply is_bytes_splice|apply splice_length; rewrite ztab_length; lia|].
      intros _. unfold splice. rewrite take_0. simpl. rewrite take_app_length' by by rewrite ztab_length. done.
    + intros Hhe. destruct (Hh Hhe) as [? Hr]. split; [done|]. intros [He _].
      assert (ret = req_align cb) as -> by (specialize (He ltac:(unfold oa in *; lia)); unfold oa in *; lia).
      by rewrite Z.eqb_refl, (proj2 (Z.ltb_ge _ _)) by lia.
  - intros [= <- <-]. split_and!; try done. right. exists b. split_and!; done || lia.
Qed.

Lemma edges_aligned cb ha (f : F) :
  cb_ok cb -> (req_align cb | ha) -> offset cb + nbytes cb <= ha < offset cb + nbytes cb + req_align cb ->
  edges_in cb f -> ha <= flen f \/ ha = offset cb + nbytes cb.
Proof.
  intros [(k & Hk & Hal) Ho Hn Hs _ _] [q Hq] Hr [_ He]. assert (0 < req_align cb) by (rewrite Hal; lia).
  set (h := offset cb + nbytes cb) in *. pose proof (Z.div_mod h (req_align cb) ltac:(lia)).
  pose proof (Z.mod_pos_bound h (req_align cb) ltac:(lia)).
  destruct (Z.eq_dec (h `mod` req_align cb) 0); [right|left].
  - assert (q = h / req_align cb); nia.
  - assert (q = h / req_align cb + 1) by nia. specialize (He ltac:(done)). nia.
Qed.

Lemma misaligned_write_effect cb s s' r :
  cb_ok cb -> opcode cb = Pwritev -> is_bytes (iov_bytes (mem s) (iovec cb)) ->
  submit_misaligned cb s = (s', r) ->
  write_effect cb s s' r /\
  (healthy (file s) -> healthy (file s') /\ (edges_in cb (file s) -> r = Ok 0 /\
     flen (file s') = Z.max (flen (file s)) (offset cb + nbytes cb))).
Proof.
  intros Hok Hop Hby. destruct (cb_sections cb Hok) as (ha & bl & Hrd & Hru & Hda & Hra & Hbl & Hdb & Hrb & Hhi).
  pose proof (first_chunk cb ha Hok ltac:(lia)) as Hc. pose proof Hok as [(k & Hk & Hal) Ho Hn Hs Hiov Hsz].
  assert (0 < req_align cb) by (rewrite Hal; lia).
  pose proof (Z.div_mod (offset cb) (req_align cb) ltac:(lia)).
  pose proof (Z.mod_pos_bound (offset cb) (req_align cb) ltac:(lia)).
  unfold submit_misaligned. rewrite Hbl. destruct (memalign _) as [b|] eqn:Em.
  2:{ intros [= <- <-]. split; [split_and!; try done; eexists; split; [done|]; lia|].
      intros Hhe. by destruct (memalign_healthy _ (Z.min bl MAX_LEN_BOUNCE_BUFF) Hhe) as [? ?]; simplify_eq. }
  apply memalign_law in Em as [Hbb Hbl2]. unfold handle_misaligned_rw. rewrite Hrd, Hhi, Hru, Hop.
  destruct (if _ <? _ then _ else _) as [s1 head] eqn:Eh.
  apply head_step in Eh as (Hm1 & Hc1 & Hf1 & Hhead & Hh1); [|done|done|lia].
  set (oa := offset cb / req_align cb * req_align cb) in *.
  destruct Hhead as [->|(b' & -> & Hbb' & Hbl' & Hsec)].
  { intros [= <- <-]. split; [split_and!; [done|lia|done|]; eexists; split; [done|]; lia|].
    intros Hhe. destruct (Hh1 Hhe) as [? Ht]. split; [done|]. intros He. by apply Ht in He. }
  rewrite (wadd_small 64 oa) by (unfold inW; lia).
  set (nt := negb _ && _).
  assert (write_inv cb (offset cb + nbytes cb) ha (Z.min bl MAX_LEN_BOUNCE_BUFF) (content (file s))
            (iov_bytes (mem s) (iovec cb)) nt oa (iovec cb) b' s1) as Hwi.
  { constructor; try done; try lia.
    - intros a Ha. rewrite Hc1. unfold target. by rewrite decide_False by lia.
    - rewrite Hm1. by replace (Z.to_nat _) with 0%nat by lia.
    - unfold nt. destruct (Z.leb_spec (offset cb + nbytes cb) (oa + req_align cb)), (Z.ltb_spec oa (offset cb)),
        (Z.ltb_spec (offset cb + nbytes cb) ha); cbn; try done; try lia. intros _ _. split; [|auto].
      destruct Hda as [q Hq]. assert (oa = offset cb / req_align cb * req_align cb) as Hoa by done.
      assert (q = offset cb / req_align cb + 1); nia. }
  destruct (misaligned_write _ _ _ _ _ _ _ _ _ _) as [s2 r2] eqn:Ew.
  apply misaligned_write_spec with (c0 := content (file s)) (D := iov_bytes (mem s) (iovec cb)) in Ew
    as (Wm & Wp & Wout & Wok & Wf & Wh); try done; try lia.
  2:{ intros. apply content_byte. }
  2:{ by rewrite iov_bytes_addrs, length_fmap. }
  assert (forall ret, (0 <= ret -> r2 = Ok tt) -> write_effect cb s s2 (Ok ret)) as Heff.
  { intros ret Hret. split_and!; [by rewrite Wm|lia|done|]. exists ret. split; [done|]. intros Hp i x Hx.
    rewrite (Wok (Hret Hp)). unfold target. pose proof (lookup_lt_Some _ _ _ Hx) as Hi.
    rewrite iov_bytes_addrs, length_fmap in Hi. rewrite decide_True by lia.
    apply nth_lookup_Some. rewrite <-Hx. f_equal. lia. }
  assert (healthy (file s) -> healthy (file s2) /\ (edges_in cb (file s) -> r2 = Ok tt /\
     flen (file s2) = Z.max (flen (file s)) (offset cb + nbytes cb))) as Hlive.
  { intros Hhe. destruct (Hh1 Hhe) as [Hhe1 _]. destruct (Wh Hhe1) as [? Wh2]. split; [done|].
    intros He. apply (edges_aligned cb ha (file s)) in He; [|done..]. rewrite Hf1 in Wh2.
    destruct Wh2 as [? ->]; [intros Hnt; destruct He; [done|]; unfold nt in Hnt; apply andb_true_iff in Hnt as [_ Hnt]; apply Z.ltb_lt in Hnt; lia|].
    split; [done|lia]. }
  destruct r2 as [[]|[]|]; [| |done]; intros [= <- <-].
  - split; [by apply Heff|]. intros Hhe. destruct (Hlive Hhe) as [? Hl]. split; [done|]. intros He.
    destruct (Hl He) as [_ ?]. done.
  - split; [by apply Heff|]. intros Hhe. destruct (Hlive Hhe) as [? Hl]. split; [done|]. intros He.
    by destruct (Hl He).
Qed.

Lemma rw_sync_read cb s s' r :
  cb_ok cb -> opcode cb = Preadv -> NoDup (iov_addrs (iovec cb)) -> rw_sync cb s = (s', r) ->
  read_effect cb s s' r /\
  (healthy (file s) -> healthy (file s') /\ (offset cb + nbytes cb <= flen (file s) -> r = Ok (nbytes cb))).
Proof.
  intros [(k & Hk & Hal) Ho Hn Hs Hiov Hsz] Hop Hnd. unfold rw_sync, raw_readv. rewrite Hop.
  assert (0 < req_align cb) by (rewrite Hal; lia).
  rewrite get_iov_size_addrs, Hsz by (done || lia). destruct (raw_read _ _ _) as [f [ret bs]] eqn:Er.
  apply raw_read_law in Er as (Hcont & Hfl & Hret & Hbs & Hh); [|lia..].
  destruct (iov_from_buf_direct_spec (iovec cb) bs (mem s) Hiov Hnd) as (m & -> & Hst);
    [rewrite Hbs, ztab_length; lia..|]. cbn [fst]. intros [= <- <-]. cbn [mem file]. split.
  - split_and!; [done..| |]; cbn [mem file].
    + intros a Ha. apply Hst. intros Hin. by apply subseteq_take in Hin.
    + eexists. split; [done|]. destruct (Z.ltb_spec ret 0); [lia|]. destruct (Z.eqb_spec ret (nbytes cb)) as [->|]; [|lia].
      intros _. rewrite iov_bytes_addrs, <-Hbs. eapply stored_bytes; [|done]. rewrite Hbs, ztab_length. lia.
  - intros Hhe. destruct (Hh Hhe) as [? Hr]. split; [done|]. intros Hl. assert (ret = nbytes cb) as -> by lia.
    by rewrite Z.eqb_refl, (proj2 (Z.ltb_ge _ _)) by lia.
Qed.

Lemma rw_sync_write cb s s' r :
  cb_ok cb -> opcode cb = Pwritev -> is_bytes (iov_bytes (mem s) (iovec cb)) -> rw_sync cb s = (s', r) ->
  write_effect cb s s' r /\
  (healthy (file s) -> healthy (file s') /\ r = Ok (nbytes cb) /\
     flen (file s') = Z.max (flen (file s)) (offset cb + nbytes cb)).
Proof.
  intros [(k & Hk & Hal) Ho Hn Hs Hiov Hsz] Hop Hby. unfold rw_sync, raw_writev. rewrite Hop.
  destruct (raw_write _ _ _) as [f ret] eqn:Ew.
  apply raw_write_law in Ew as (Wout & Win & Wret & Wfl & Wh); [|done..].
  assert (Z.of_nat (length (iov_bytes (mem s) (iovec cb))) = nbytes cb) as Hl
    by by rewrite iov_bytes_addrs, length_fmap.
  rewrite Hl in *. intros [= <- <-]. cbn [set_file mem file]. split.
  - split_and!; cbn [set_file mem file]; [done..|]. eexists. split; [done|].
    destruct (Z.ltb_spec ret 0); [lia|]. destruct (Z.eqb_spec ret (nbytes cb)) as [->|]; [|lia].
    intros _ i x Hx. by destruct (Win i x Hx) as [?|[? _]].
  - intros Hhe. destruct (Wh Hhe) as (? & -> & ->). split; [done|].
    rewrite Z.eqb_refl, (proj2 (Z.ltb_ge _ _)) by lia. rewrite decide_False; [done|].
    intros Hnil. rewrite Hnil in Hl. simpl in Hl. lia.
Qed.

(** The same request through either path. *)
Lemma submit_rw_write cb s s' r :
  cb_ok cb -> opcode cb = Pwritev -> is_bytes (iov_bytes (mem s) (iovec cb)) -> submit_rw cb s = (s', r) ->
  write_effect cb s s' r /\
  (healthy (file s) -> healthy (file s') /\ (edges_in cb (file s) -> (exists ret, 0 <= ret /\ r = Ok ret) /\
     flen (file s') = Z.max (flen (file s)) (offset cb + nbytes cb))).
Proof.
  intros Hok Hop Hby. unfold submit_rw. destruct (request_misaligned cb); intros Hr.
  - apply misaligned_write_effect in Hr as [? Hh]; [|done..]. split; [done|]. intros Hhe.
    destruct (Hh Hhe) as [? He]. split; [done|]. intros Hed. destruct (He Hed) as [-> ?]. split; [by exists 0|done].
  - apply rw_sync_write in Hr as [? Hh]; [|done..]. split; [done|]. intros Hhe.
    destruct (Hh Hhe) as (? & -> & ?). pose proof (ok_nbytes cb Hok). split; [done|]. intros _.
    split; [|done]. exists (nbytes cb). split; [lia|done].
Qed.

Lemma iovec_is_zero_bytes m iovs i b :
  iovec_is_zero m iovs = true -> iov_bytes m iovs !! i = Some b -> b = 0.
Proof.
  intros Hz Hb. apply list_elem_of_lookup_2 in Hb. unfold iov_bytes in Hb. apply list_elem_of_In, in_concat in Hb
    as (l & Hl & Hb). apply list_elem_of_In, list_elem_of_fmap in Hl as (iov & -> & Hiov).
  unfold iovec_is_zero in Hz. rewrite forallb_forall in Hz. apply list_elem_of_In, Hz, andb_true_iff in Hiov as [_ Hf].
  rewrite forallb_forall in Hf. by apply Z.eqb_eq, Hf.
Qed.

(** Writing zeroes by the file system, with the fall back to a plain write. *)
Lemma write_zeroes_effect cb s s' r :
  cb_ok cb -> opcode cb = WriteZeroes \/ opcode cb = WriteZeroesUnmap ->
  iovec_is_zero (mem s) (iovec cb) = true -> is_bytes (iov_bytes (mem s) (iovec cb)) ->
  write_zeroes_sync cb s = (s', r) ->
  write_effect cb s s' r /\
  (healthy (file s) -> healthy (file s') /\ (edges_in cb (file s) -> (exists ret, 0 <= ret /\ r = Ok ret) /\
     (opcode cb = WriteZeroes -> flen (file s') = Z.max (flen (file s)) (offset cb + nbytes cb)))).
Proof.
  intros Hok Hop Hz Hby. pose proof Hok as [(k & Hk & Hal) Ho Hn Hs Hiov Hsz]. unfold write_zeroes_sync.
  destruct (match opcode cb with WriteZeroesUnmap => _ | _ => _ end) as [s1 done_] eqn:Ed.
  assert (mem s1 = mem s /\ flen (file s1) = flen (file s) /\
    (forall a, ~ offset cb <= a < offset cb + nbytes cb -> content (file s1) a = content (file s) a) /\
    (done_ = true -> opcode cb = WriteZeroesUnmap /\
       forall a, offset cb <= a < offset cb + nbytes cb -> content (file s1) a = 0) /\
    (healthy (file s) -> healthy (file s1))) as (Hm & Hf & Hout & Hd & Hh).
  { destruct Hop as [Hop|Hop]; rewrite Hop in Ed; [by injection Ed as <- <-|].
    destruct (raw_discard _ _ _) as [f ret] eqn:Er. injection Ed as <- <-.
    apply raw_discard_law in Er as (Dout & Df & Din & Dh); [|lia..]. cbn. split_and!; try done.
    intros ->%Z.eqb_eq. auto. }
  assert (forall i b, iov_bytes (mem s) (iovec cb) !! i = Some b ->
            b = 0 /\ offset cb <= offset cb + Z.of_nat i < offset cb + nbytes cb) as Hzero.
  { intros i b Hb. split; [by eapply iovec_is_zero_bytes|]. apply lookup_lt_Some in Hb.
    rewrite iov_bytes_addrs, length_fmap in Hb. lia. }
  destruct done_.
  { destruct (Hd eq_refl) as [Hun Hin]. intros [= <- <-]. split.
    - split_and!; [done|lia|done|]. exists 0. split; [done|]. intros _ i b Hb. destruct (Hzero i b Hb) as [-> ?].
      by apply Hin.
    - intros Hhe. split; [by apply Hh|]. intros _. split; [by exists 0|]. by rewrite Hun. }
  destruct (raw_write_zeroes _ _ _) as [f ret] eqn:Er.
  apply raw_write_zeroes_law in Er as (Zout & Zf & Zr & Zin & Zh); [|lia..].
  destruct ((ret =? - ENOTSUP) && _) eqn:Ee.
  - intros Hr. apply submit_rw_write in Hr as [He Hl]; cbn [opcode iovec set_file mem];
      [|by constructor; [exists k|..]|done|by rewrite Hm].
    destruct He as (Em & Ef & Eo & ret' & -> & Ei). cbn [set_file mem file iovec offset nbytes] in *. split.
    + split_and!; [by rewrite Em|lia|intros a Ha; by rewrite Eo, Zout, Hout|]. exists ret'. split; [done|].
      intros Hp i b Hb. apply Ei; [done|]. by rewrite Hm.
    + intros Hhe. destruct (Zh (Hh Hhe)) as [Hhf Hcase]. destruct (Hl Hhf) as [? Hl2]. split; [done|]. intros [He1 He2].
      apply andb_true_iff in Ee as [Ee _]. apply Z.eqb_eq in Ee. unfold ENOTSUP in Ee.
      assert (flen f = flen (file s)) as Hff by (destruct Hcase as [[? ?]|[_ ?]]; lia).
      destruct Hl2 as [? ->]; [split; cbn; rewrite Hff; assumption|]. split; [done|]. intros _. lia.
  - intros [= <- <-]. cbn [set_file mem file]. split.
    + split_and!; cbn; [done|lia|intros a Ha; by rewrite Zout, Hout|]. exists ret. split; [done|].
      intros Hp i b Hb. destruct (Hzero i b Hb) as [-> ?]. apply Zin; [lia|done].
    + intros Hhe. destruct (Zh (Hh Hhe)) as [Hhf Hcase]. split; [done|]. intros _.
      destruct Hcase as [[-> Hff]|[-> _]].
      * split; [by exists 0|]. intros _. lia.
      * exfalso. unfold ENOTSUP in Ee. simpl in Ee. apply negb_false_iff, bool_decide_eq_true in Ee.
        rewrite Ee in Hsz. simpl in Hsz. lia.
Qed.
End requests.

Lemma submit_write_effect `{!HostIo F, !HostIoLaws F} cb (s s' : io F) r :
  cb_ok cb -> opcode cb = Pwritev -> is_bytes (iov_bytes (mem s) (iovec cb)) ->
  submit_request cb s = (s', r) ->
  write_effect cb s s' r /\
  (healthy (file s) -> healthy (file s') /\
     (edges_in cb (file s) -> (exists ret, 0 <= ret /\ r = Ok ret) /\
        (~ (write_zeroes cb = WzUnmap /\ discard cb = true) ->
           flen (file s') = Z.max (flen (file s)) (offset cb + nbytes cb)))).
Proof.
  intros Hok Hop Hby. unfold submit_request. destruct (request_misaligned cb).
  { intros Hr. apply misaligned_write_effect in Hr as [? Hh]; [|done..]. split; [done|]. intros Hhe.
    destruct (Hh Hhe) as [? Hl]. split; [done|]. intros He. destruct (Hl He) as [-> ?]. split; [by exists 0|done]. }
  set (z := _ && iovec_is_zero _ _). rewrite Hop. destruct z eqn:Ez; subst z.
  - apply andb_true_iff in Ez as [_ Ez]. set (op := if _ && _ then WriteZeroesUnmap else WriteZeroes).
    assert (op = WriteZeroes \/ op = WriteZeroesUnmap) as Hop2 by (subst op; destruct (_ && _); auto).
    replace (match op with Preadv | Pwritev => _ | _ => _ end) with
      (write_zeroes_sync (mkAioCb (direct cb) (req_align cb) (buf_align cb) (discard cb) (write_zeroes cb) op
         (iovec cb) (offset cb) (nbytes cb)) s) by by destruct Hop2 as [->| ->].
    intros Hr. apply write_zeroes_effect in Hr as [Hw Hh]; [|by destruct Hok|done..]. split; [exact Hw|].
    intros Hhe. destruct (Hh Hhe) as [? Hl]. split; [done|]. intros He. destruct (Hl He) as [? Hf]. split; [done|].
    intros Hnu. apply Hf. cbn [opcode]. subst op. destruct (decide (write_zeroes cb = WzUnmap)) as [Hz|Hz].
    + rewrite bool_decide_eq_true_2 by done. destruct (discard cb); [|done]. by destruct Hnu.
    + by rewrite bool_decide_eq_false_2.
  - intros Hr. apply rw_sync_write in Hr as [Hw Hh]; [|by destruct Hok|done..]. split; [exact Hw|].
    intros Hhe. destruct (Hh Hhe) as (? & -> & ?). split; [done|]. intros _. split; [|done].
    pose proof (ok_nbytes cb Hok). exists (nbytes cb). split; [lia|done].
Qed.

Lemma submit_read_effect `{!HostIo F, !HostIoLaws F} cb (s s' : io F) r :
  cb_ok cb -> opcode cb = Preadv -> NoDup (iov_addrs (iovec cb)) ->
  submit_request cb s = (s', r) ->
  read_effect cb s s' r /\
  (healthy (file s) -> healthy (file s') /\
     (offset cb + nbytes cb <= flen (file s) -> exists ret, 0 <= ret /\ r = Ok ret)).
Proof.
  intros Hok Hop Hnd. unfold submit_request. destruct (request_misaligned cb); intros Hr.
  - apply misaligned_read_effect in Hr as [? Hh]; [|done..]. split; [done|]. intros Hhe.
    destruct (Hh Hhe) as [? Ht]. split; [done|]. intros Hl. rewrite (Ht Hl). by exists 0.
  - rewrite Hop in Hr. simpl in Hr. apply rw_sync_read in Hr as [Hr Hh]; [|by destruct Hok|done..].
    split; [exact Hr|]. intros Hhe. destruct (Hh Hhe) as [? Ht]. split; [done|]. intros Hl. rewrite (Ht Hl).
    pose proof (ok_nbytes cb Hok). exists (nbytes cb). split; [simpl; lia|done].
Qed.

(** ** A file in memory: an instance of the host *)

Record mfile := mkMfile { mf_len : Z; mf_at : Z -> Z }.
Definition mf_get (f : mfile) (a : Z) : Z :=
  if (0 <=? a) && (a <? mf_len f) then wrap 8 (mf_at f a) else 0.
Definition mf_put (f : mfile) (len off n : Z) (d : Z -> Z) : mfile :=
  mkMfile len (fun a => if (off <=? a) && (a <? off + n) then d (a - off) else mf_get f a).

#[export] Instance mfile_host : HostIo mfile := {|
  raw_read size off f :=
    let ret := Z.max 0 (Z.min size (mf_len f - off)) in (f, (ret, ztab (mf_get f) off (Z.to_nat ret)));
  raw_write buf off f :=
    let n := Z.of_nat (length buf) in
    (if n =? 0 then f
     else mf_put f (Z.max (mf_len f) (off + n)) off n (fun i => nth (Z.to_nat i) buf 0), n);
  raw_datasync f := (f, 0);
  raw_discard off n f := (mf_put f (mf_len f) off n (fun _ => 0), 0);
  raw_write_zeroes off n f := (mf_put f (Z.max (mf_len f) (off + n)) off n (fun _ => 0), 0);
  memalign n := Some (replicate (Z.to_nat n) 0);
  seek_end f := (f, Ok (mf_len f));
  set_len len f := (mkMfile len (mf_get f), Ok tt)
|}.

Lemma mf_get_byte f a : is_u8 (mf_get f a).
Proof. unfold mf_get. destruct (_ && _); [by apply wrap_inW|done]. Qed.
Lemma mf_get_put f len off n d a :
  mf_len f <= len ->
  mf_get (mf_put f len off n d) a =
    if (off <=? a) && (a <? off + n) then if (0 <=? a) && (a <? len) then wrap 8 (d (a - off)) else 0
    else mf_get f a.
Proof.
  intros. unfold mf_put. unfold mf_get at 1. cbn [mf_len mf_at].
  destruct (Z.leb_spec 0 a), (Z.ltb_spec a len); cbn [andb]; destruct (_ && _); try done.
  - apply wrap_small, mf_get_byte.
  - unfold mf_get. rewrite (proj2 (Z.ltb_ge a (mf_len f))) by lia. by rewrite andb_false_r.
  - unfold mf_get. by rewrite (proj2 (Z.leb_gt 0 a)).
  - unfold mf_get. by rewrite (proj2 (Z.leb_gt 0 a)).
Qed.

#[export] Program Instance mfile_laws : HostIoLaws mfile := {|
  content := mf_get; flen := mf_len; healthy _ := True
|}.
Next Obligation. apply mf_get_byte. Qed.
Next Obligation.
  simpl. intros size off f Hs Ho f' ret bs [= <- <- <-]. split_and!; try done. lia.
Qed.
Next Obligation.
  simpl. intros buf off f Hb Ho f' ret [= <- <-]. destruct (Z.eqb_spec (Z.of_nat (length buf)) 0) as [H0|H0].
  - destruct buf; [|simpl in H0; lia]. split_and!; done.
  - split_and!; try done; [| |simpl; lia|].
    + intros a Ha. rewrite mf_get_put by lia. destruct (Z.leb_spec off a), (Z.ltb_spec a (off + Z.of_nat (length buf))); done || lia.
    + intros i b Hib. left. pose proof (lookup_lt_Some _ _ _ Hib). rewrite mf_get_put by lia.
      rewrite !(proj2 (Z.leb_le _ _)), !(proj2 (Z.ltb_lt _ _)) by lia. simpl.
      replace (Z.to_nat _) with i by lia. rewrite (nth_lookup_Some _ _ _ _ Hib). apply wrap_small.
      by eapply Forall_lookup_1 in Hib; [|exact Hb].
    + intros _. split_and!; [done..|]. rewrite decide_False; [done|]. by intros ->.
Qed.
Next Obligation.
  simpl. intros off n f Hn Ho f' ret [= <- <-]. split_and!; try done.
  - intros a Ha. rewrite mf_get_put by lia. destruct (Z.leb_spec off a), (Z.ltb_spec a (off + n)); done || lia.
  - intros _ a Ha. rewrite mf_get_put, (proj2 (Z.leb_le off a)), (proj2 (Z.ltb_lt a (off + n))) by lia. simpl.
    by destruct (_ && _).
Qed.
Next Obligation.
  simpl. intros off n f Hn Ho f' ret [= <- <-]. split_and!; try done; simpl; try lia.
  - intros a Ha. rewrite mf_get_put by lia. destruct (Z.leb_spec off a), (Z.ltb_spec a (off + n)); done || lia.
  - intros _ a Ha. rewrite mf_get_put, (proj2 (Z.leb_le off a)), (proj2 (Z.ltb_lt a (off + n))) by lia. simpl.
    by destruct (_ && _).
Qed.
Next Obligation.
  simpl. intros n b [= <-]. split; [|by rewrite length_replicate]. apply Forall_replicate. done.
Qed.
Next Obligation. simpl. intros. by eexists. Qed.
Next Obligation. simpl. intros f _ f' r [= <- <-]. done. Qed.
Next Obligation.
  simpl. intros len f Hl _ f' r [= <- <-]. split_and!; try done.
  - intros a Ha. unfold mf_get at 1. cbn [mf_len mf_at]. rewrite (wrap_small 8) by apply mf_get_byte.
    unfold mf_get. destruct (Z.leb_spec 0 a), (Z.ltb_spec a (mf_len f)), (Z.ltb_spec a len); done || lia.
  - intros a Ha. unfold mf_get at 1. cbn [mf_len mf_at]. rewrite (wrap_small 8) by apply mf_get_byte.
    unfold mf_get. destruct (Z.leb_spec 0 a), (Z.ltb_spec a (mf_len f)), (Z.ltb_spec a len); done || lia.
Qed.

(** ** Properties *)

(** C29: A synchronous write changes exactly the bytes of its range and no
    memory, whatever its outcome; when it reports success the range holds the
    bytes of the buffers in order.  This holds for aligned requests, for
    requests through the bounce buffer, whose first and last section are read
    and written back, and for zeroes written by the file system.  On a file
    without faults that holds those sections, it succeeds. *)
Theorem submit_write_exact `{!HostIo F, !HostIoLaws F} cb (s s' : io F) r :
  cb_ok cb -> opcode cb = Pwritev -> is_bytes (iov_bytes (mem s) (iovec cb)) ->
  submit_request cb s = (s', r) ->
  write_effect cb s s' r /\
  (healthy (file s) -> healthy (file s') /\
     (edges_in cb (file s) -> (exists ret, 0 <= ret /\ r = Ok ret) /\
        (~ (write_zeroes cb = WzUnmap /\ discard cb = true) ->
           flen (file s') = Z.max (flen (file s)) (offset cb + nbytes cb)))).
Proof. apply submit_write_effect. Qed.

(** A synchronous read leaves the file alone and writes no memory outside
    its buffers, whatever its outcome; when it reports success the buffers
    hold, in order, exactly the bytes of the file at its range.  On a file
    without faults that holds the range, it succeeds. *)
Theorem submit_read_exact `{!HostIo F, !HostIoLaws F} cb (s s' : io F) r :
  cb_ok cb -> opcode cb = Preadv -> NoDup (iov_addrs (iovec cb)) ->
  submit_request cb s = (s', r) ->
  read_effect cb s s' r /\
  (healthy (file s) -> healthy (file s') /\
     (offset cb + nbytes cb <= flen (file s) -> exists ret, 0 <= ret /\ r = Ok ret)).
Proof. apply submit_read_effect. Qed.

(** A direct file of three sections of 512 bytes; a request over the boundary
    of the first two, from a buffer that is not aligned. *)
Definition ex_cb (op : OpCode) : AioCb :=
  mkAioCb true 512 512 false WzOff op [mkIovec 1001 2; mkIovec 2000 4] 510 6.
Definition ex_io : io mfile :=
  mkIo (fun a => wrap 8 a) (mkMfile 1536 (fun a => wrap 8 (a + 7))).

Lemma ex_cb_ok op : cb_ok (ex_cb op).
Proof. constructor; try (simpl; lia); [by exists 9|]. repeat constructor; simpl; lia. Qed.

Lemma submit_write_exact_witness :
  let s' := fst (submit_request (ex_cb Pwritev) ex_io) in
  write_effect (ex_cb Pwritev) ex_io s' (Ok 0) /\ flen (file s') = 1536 /\
  ztab (content (file s')) 509 8 = [4; 233; 234; 208; 209; 210; 211; 11].
Proof.
  assert (is_bytes (iov_bytes (mem ex_io) (iovec (ex_cb Pwritev)))) as Hb
    by (vm_compute; repeat constructor; discriminate).
  assert (edges_in (ex_cb Pwritev) (file ex_io)) as He by (split; vm_compute; discriminate).
  assert (submit_request (ex_cb Pwritev) ex_io =
    (fst (submit_request (ex_cb Pwritev) ex_io), Ok 0)) as Hr by (vm_compute; reflexivity).
  cbv zeta. destruct (submit_write_exact (ex_cb Pwritev) ex_io _ (Ok 0) (ex_cb_ok _) eq_refl Hb Hr) as [Hw Hh].
  destruct (proj2 (Hh I) He) as [_ Hf]. split; [exact Hw|]. split; [|vm_compute; reflexivity].
  rewrite (Hf ltac:(intros [H _]; discriminate H)). reflexivity.
Defined.

Lemma submit_read_exact_witness :
  read_effect (ex_cb Preadv) ex_io (fst (submit_request (ex_cb Preadv) ex_io)) (Ok 0) /\
  iov_bytes (mem (fst (submit_request (ex_cb Preadv) ex_io))) (iovec (ex_cb Preadv)) = [5; 6; 7; 8; 9; 10].
Proof.
  assert (NoDup (iov_addrs (iovec (ex_cb Preadv)))) as Hnd by (apply (bool_decide_unpack _); vm_compute; exact I).
  assert (submit_request (ex_cb Preadv) ex_io =
    (fst (submit_request (ex_cb Preadv) ex_io), Ok 0)) as Hr by (vm_compute; reflexivity).
  destruct (submit_read_exact (ex_cb Preadv) ex_io _ (Ok 0) (ex_cb_ok _) eq_refl Hnd Hr) as [Hw _].
  split; [exact Hw|vm_compute; reflexivity].
Defined.
