(* ===== verification/Qcow2Io.v ===== *)
(** * Metadata I/O of a qcow2 image ([SyncAioInfo] of [block_backend/src/qcow2/mod.rs])

    [BlockIo] is what the metadata code needs of the image file: reading and
    writing a buffer at an offset.  [SyncAioInfo] provides it by synchronous
    requests; its laws follow from those of [SyncAio.v]. *)
From stdpp Require Import prelude list.
From Stdlib Require Import ZArith Lia.
From S2P Require Import Prelude NumOps Qcow2Header SyncAio.

Abbreviation qres := (res unit).

(** ** The interface *)

Class BlockIo (F : Type) := {
  read_buffer (offset n : Z) : F -> F * qres (list Z);
  write_buffer (offset : Z) (buf : list Z) : F -> F * qres unit;
  submit_discard (offset nbytes : Z) : F -> F * qres unit
}.

(** [bcontent] and [blen] are the bytes and the length of the image file,
    [balign] the alignment its requests are rounded to.  While a file is
    [bhealthy], requests to it that lie within its length do not fail, and it
    stays so. *)
Class BlockIoLaws (F : Type) `{!BlockIo F} := {
  bcontent : F -> Z -> Z;
  blen : F -> Z;
  bhealthy : F -> Prop;
  balign : Z;
  balign_pow : exists k, 0 <= k /\ balign = 2 ^ k;
  bcontent_byte f a : is_u8 (bcontent f a);
  read_buffer_law offset n f f' r :
    0 <= offset -> 0 < n -> offset + n < 2 ^ 62 -> read_buffer offset n f = (f', r) ->
    (forall a, bcontent f' a = bcontent f a) /\ blen f' = blen f /\ r <> Panic /\
    (forall bs, r = Ok bs -> bs = ztab (bcontent f) offset (Z.to_nat n)) /\
    (bhealthy f -> bhealthy f' /\
       (offset + n <= blen f -> r = Ok (ztab (bcontent f) offset (Z.to_nat n))));
  write_buffer_law offset buf f f' r :
    is_bytes buf -> buf <> [] -> 0 <= offset -> offset + Z.of_nat (length buf) < 2 ^ 62 ->
    write_buffer offset buf f = (f', r) ->
    (forall a, ~ offset <= a < offset + Z.of_nat (length buf) -> bcontent f' a = bcontent f a) /\
    blen f <= blen f' /\ r <> Panic /\
    (r = Ok tt -> forall i b, buf !! i = Some b -> bcontent f' (offset + Z.of_nat i) = b) /\
    (bhealthy f -> (balign | blen f) ->
       (balign | offset) /\ (balign | Z.of_nat (length buf)) \/ offset + Z.of_nat (length buf) <= blen f ->
       bhealthy f' /\ r = Ok tt /\ blen f' = Z.max (blen f) (offset + Z.of_nat (length buf)));
  submit_discard_law offset n f f' r :
    0 <= offset -> 0 <= n -> submit_discard offset n f = (f', r) ->
    (forall a, ~ offset <= a < offset + n -> bcontent f' a = bcontent f a) /\ blen f' = blen f /\ r <> Panic /\
    (bhealthy f -> bhealthy f')
}.

(** ** [SyncAioInfo] *)

(** The block properties a request carries, and the address of the vector
    that is read or written. *)
Record SyncAioInfo := mkSync {
  prop_direct : bool;
  prop_req_align : Z;
  prop_buf_align : Z;
  prop_discard : bool;
  prop_write_zeroes : WriteZeroesState;
  vec_ptr : Z
}.

Section sync_aio.
Context (F : Type) `{!HostIo F} (sync : SyncAioInfo).

(** [complete_func] *)
Definition complete_func (r : qres Z) : qres unit :=
  ret ← r; if ret <? 0 then Err tt else Ok tt.

Definition package_sync_aiocb (op : OpCode) (iov : list Iovec) (offset nbytes : Z) : AioCb :=
  mkAioCb (prop_direct sync) (prop_req_align sync) (prop_buf_align sync) (prop_discard sync)
    (prop_write_zeroes sync) op iov offset nbytes.

Definition sync_read_buffer (offset n : Z) (f : F) : F * qres (list Z) :=
  let aiocb := package_sync_aiocb Preadv [mkIovec (vec_ptr sync) n] offset n in
  let '(s, r) := submit_request aiocb (mkIo (fun _ => 0) f) in
  (file s, _ ← complete_func r; Ok (mem_to_buf (mem s) (vec_ptr sync) n)).

Definition sync_write_buffer (offset : Z) (buf : list Z) (f : F) : F * qres unit :=
  let cnt := Z.of_nat (length buf) in
  let aiocb := package_sync_aiocb Pwritev [mkIovec (vec_ptr sync) cnt] offset cnt in
  let '(s, r) := submit_request aiocb (mkIo (mem_from_buf buf (vec_ptr sync) (fun _ => 0)) f) in
  (file s, complete_func r).

Definition sync_discard (offset nbytes : Z) (f : F) : F * qres unit :=
  let '(s, r) := submit_request (package_sync_aiocb Discard [] offset nbytes) (mkIo (fun _ => 0) f) in
  (file s, complete_func r).

Definition sync_block_io : BlockIo F := {|
  read_buffer := sync_read_buffer;
  write_buffer := sync_write_buffer;
  submit_discard := sync_discard
|}.
End sync_aio.

(** ** Tables of 64-bit entries and dirty ranges *)

Definition DEFAULT_SECTOR_SIZE : Z := 512.

Section block_io.
Context {F : Type} `{!BlockIo F}.

Definition write_ctrl_cluster (addr : Z) (buf : list Z) : F -> F * qres unit :=
  write_buffer addr (concat (be_bytes 8 <$> buf)).

(** [BigEndian::read_u64(&vec\[8 * i..\])] for each index. *)
Definition read_ctrl_cluster (addr sz : Z) (f : F) : F * qres (list Z) :=
  let '(f, r) := read_buffer addr (wmul 64 8 sz) f in
  (f, vec ← r; Ok ((fun i => be_val (slice vec (8 * i) 8)) <$> seq 0 (Z.to_nat sz))).

Definition write_dirty_info (addr : Z) (buf : list Z) (start end_ : Z) (f : F) : F * qres unit :=
  match round_down start DEFAULT_SECTOR_SIZE with
  | Ok start =>
    match round_up end_ DEFAULT_SECTOR_SIZE with
    | Ok end_ =>
      if (end_ <? start) || (Z.of_nat (length buf) <? end_) then (f, Panic)
      else write_buffer (wadd 64 addr start) (slice buf (Z.to_nat start) (Z.to_nat (end_ - start))) f
    | Err e => (f, Err e)
    | Panic => (f, Panic)
    end
  | Err e => (f, Err e)
  | Panic => (f, Panic)
  end.
End block_io.

(** ** The laws of [SyncAioInfo] *)

(** Properties the laws need: an alignment up to 1 MiB, and no unmapping of
    zeroes, which would not extend the file. *)
Record sync_ok (sync : SyncAioInfo) : Prop := mkSyncOk {
  so_align : exists k, 0 <= k <= 20 /\ prop_req_align sync = 2 ^ k;
  so_unmap : ~ (prop_write_zeroes sync = WzUnmap /\ prop_discard sync = true);
  so_ptr : 0 <= vec_ptr sync < 2 ^ 62
}.

Section laws.
Context {F : Type} `{!HostIo F, !HostIoLaws F} (sync : SyncAioInfo) (Hsync : sync_ok sync).

Lemma iov_addrs_single p n : iov_addrs [mkIovec p n] = ztab id p (Z.to_nat n).
Proof. unfold iov_addrs. simpl. by rewrite app_nil_r. Qed.
Lemma NoDup_ztab_id p n : NoDup (ztab id p n).
Proof.
  unfold ztab. apply NoDup_fmap; [|apply NoDup_seq]. intros x y H. unfold id in H. lia.
Qed.
Lemma sync_cb_ok op p offset n :
  p = vec_ptr sync -> 0 <= offset -> 0 < n -> offset + n < 2 ^ 62 ->
  cb_ok (package_sync_aiocb sync op [mkIovec p n] offset n).
Proof.
  intros -> Ho Hn Hs. destruct Hsync as [(k & Hk & Hal) _ Hp].
  assert (prop_req_align sync <= 2 ^ 20) by (rewrite Hal; apply Z.pow_le_mono_r; lia).
  constructor; simpl; [by exists k|done..|lia| |].
  - constructor; [|constructor]. unfold iov_ok; simpl. lia.
  - rewrite iov_addrs_single, ztab_length. lia.
Qed.

Lemma sync_edges op p offset n (f : F) :
  0 <= offset -> 0 < n -> (prop_req_align sync | flen f) ->
  (prop_req_align sync | offset) /\ (prop_req_align sync | n) \/ offset + n <= flen f ->
  edges_in (package_sync_aiocb sync op [mkIovec p n] offset n) f.
Proof.
  intros Ho Hn [q Hq] Hc. destruct Hsync as [(k & Hk & Hal) _ _]. unfold edges_in; simpl.
  set (al := prop_req_align sync) in *. assert (0 < al) by (rewrite Hal; lia).
  assert (forall x, x `mod` al <> 0 -> x <= flen f -> (x / al + 1) * al <= flen f) as Hup.
  { intros x Hx Hl. pose proof (Z.div_mod x al ltac:(lia)). pose proof (Z.mod_pos_bound x al ltac:(lia)).
    assert (x / al < q) by nia. nia. }
  destruct Hc as [[Hd1 Hd2]|Hin].
  - split; intros Hm; exfalso; apply Hm, Z.mod_divide; try lia; [done|by apply Z.divide_add_r].
  - split; intros Hm; apply Hup; lia.
Qed.

Lemma sync_read_law offset n f f' r :
  0 <= offset -> 0 < n -> offset + n < 2 ^ 62 -> sync_read_buffer F sync offset n f = (f', r) ->
  (forall a, content f' a = content f a) /\ flen f' = flen f /\ r <> Panic /\
  (forall bs, r = Ok bs -> bs = ztab (content f) offset (Z.to_nat n)) /\
  (healthy f -> healthy f' /\ (offset + n <= flen f -> r = Ok (ztab (content f) offset (Z.to_nat n)))).
Proof.
  intros Ho Hn Hs. unfold sync_read_buffer. destruct (submit_request _ _) as [s1 r1] eqn:E.
  apply submit_read_effect in E as [(Hc & Hf & _ & ret & -> & Hb) Hh]; [|by apply sync_cb_ok|done|].
  2:{ simpl. rewrite iov_addrs_single. apply NoDup_ztab_id. }
  simpl in *. rewrite iov_bytes_addrs, iov_addrs_single, ztab_fmap in Hb.
  intros [= <- <-]. unfold mem_to_buf. split_and!; [done..| | |].
  - by destruct (ret <? 0).
  - intros bs. destruct (Z.ltb_spec ret 0); [done|]. intros [= <-]. by apply Hb.
  - intros Hhe. destruct (Hh Hhe) as [? Ht]. split; [done|]. intros Hl. destruct (Ht Hl) as (ret' & Hp & [= ->]).
    rewrite (proj2 (Z.ltb_ge _ _)) by done. simpl. by rewrite <-Hb.
Qed.

Lemma sync_write_law offset buf f f' r :
  is_bytes buf -> buf <> [] -> 0 <= offset -> offset + Z.of_nat (length buf) < 2 ^ 62 ->
  sync_write_buffer F sync offset buf f = (f', r) ->
  (forall a, ~ offset <= a < offset + Z.of_nat (length buf) -> content f' a = content f a) /\
  flen f <= flen f' /\ r <> Panic /\
  (r = Ok tt -> forall i b, buf !! i = Some b -> content f' (offset + Z.of_nat i) = b) /\
  (healthy f -> (prop_req_align sync | flen f) ->
     (prop_req_align sync | offset) /\ (prop_req_align sync | Z.of_nat (length buf)) \/
       offset + Z.of_nat (length buf) <= flen f ->
     healthy f' /\ r = Ok tt /\ flen f' = Z.max (flen f) (offset + Z.of_nat (length buf))).
Proof.
  intros Hb Hne Ho Hs. assert (0 < Z.of_nat (length buf)) by (destruct buf; [done|simpl; lia]).
  unfold sync_write_buffer. destruct (submit_request _ _) as [s1 r1] eqn:E.
  set (m := mem_from_buf buf _ _) in *. assert (iov_bytes m [mkIovec (vec_ptr sync) (Z.of_nat (length buf))] = buf) as Hg.
  { rewrite iov_bytes_addrs, iov_addrs_single. eapply stored_bytes; [by rewrite ztab_length, Nat2Z.id|].
    rewrite Nat2Z.id. apply mem_from_buf_stored. }
  apply submit_write_effect in E as [(_ & Hf & Hout & ret & -> & Hin) Hh];
    [|by apply sync_cb_ok|done|by simpl; rewrite Hg].
  cbn [iovec mem file package_sync_aiocb SyncAio.offset nbytes] in *. rewrite Hg in Hin.
  intros [= <- <-]. split_and!; [done..| | |].
  - by destruct (ret <? 0).
  - destruct (Z.ltb_spec ret 0); [done|]. intros _. by apply Hin.
  - intros Hhe Hd He. destruct (Hh Hhe) as [? Ht]. destruct Ht as [Hr Hl]; [by apply sync_edges|].
    split_and!; [done| |apply Hl, Hsync]. destruct Hr as (ret' & Hp & [= ->]).
    by rewrite (proj2 (Z.ltb_ge _ _)).
Qed.

Lemma sync_discard_law offset n f f' r :
  0 <= offset -> 0 <= n -> sync_discard F sync offset n f = (f', r) ->
  (forall a, ~ offset <= a < offset + n -> content f' a = content f a) /\ flen f' = flen f /\ r <> Panic /\
  (healthy f -> healthy f').
Proof.
  intros Ho Hn. unfold sync_discard, submit_request, request_misaligned. simpl. rewrite andb_false_r. simpl.
  unfold discard_sync. simpl. destruct (raw_discard offset n f) as [f1 ret] eqn:E.
  apply raw_discard_law in E as (Hout & Hf & _ & Hh); [|done..]. intros [= <- <-]. split_and!; try done.
  unfold complete_func. simpl. by destruct (ret <? 0).
Qed.
End laws.

(** The metadata I/O of a driver satisfies its interface. *)
#[export] Instance sync_laws {F} `{!HostIo F, !HostIoLaws F} sync (Hsync : sync_ok sync) :
  @BlockIoLaws F (sync_block_io F sync).
Proof.
  refine {| bcontent := content; blen := flen; bhealthy := healthy; balign := prop_req_align sync |}.
  - destruct (so_align sync Hsync) as (k & ? & ?). exists k. split; [lia|done].
  - apply content_byte.
  - exact (sync_read_law sync Hsync).
  - exact (sync_write_law sync Hsync).
  - exact (sync_discard_law sync).
Defined.
