(* ===== verification/FileDriver.v ===== *)
(** * The file driver and the raw format ([block_backend/src/file.rs], [raw.rs])

    Requests on guest buffers.  A request of several parts is submitted part
    by part; its parts share a counter and an error code
    ([AioCb::req_is_completed] of [util/src/aio/mod.rs]).  [DataIo] is what an
    image format needs of the driver; the driver provides it with the engine
    [Off], whose requests are those of [SyncAio.v]. *)
From stdpp Require Import prelude list.
From Stdlib Require Import ZArith Lia.
From S2P Require Import Prelude NumOps Qcow2Header SyncAio Qcow2Io.

Record CombineRequest := mkReq { req_iov : list Iovec; req_offset : Z; req_nbytes : Z }.

(** ** Completion of combined requests *)

Inductive AioReqResult := Inflight | AioError (v : Z) | AioDone.

(** The shared counter and error code, and the value of one part. *)
Definition req_is_completed (combine_req : option (Z * Z)) (ret : Z) : option (Z * Z) * AioReqResult :=
  match combine_req with
  | None => (None, AioDone)
  | Some (cnt, res) =>
    let res := if (ret <? 0) && (res =? 0) then ret else res in
    let combine_req := Some (wsub 32 cnt 1, res) in
    if 1 <? cnt then (combine_req, Inflight)
    else if res <? 0 then (combine_req, AioError res)
    else (combine_req, AioDone)
  end.

(** The parts completing one after the other. *)
Fixpoint completions (combine_req : option (Z * Z)) (rets : list Z) : list AioReqResult :=
  match rets with
  | [] => []
  | ret :: rets => let '(c, r) := req_is_completed combine_req ret in r :: completions c rets
  end.

(** ** What a format needs of the driver *)

(** [submit] gives the value the completion function is called with. *)
Class DataIo (F : Type) := {
  file_end : F -> F * qres Z;
  file_set_len (len : Z) : F -> F * qres unit;
  zero_range (offset size : Z) : F -> F * Z;
  submit (op : OpCode) (iov : list Iovec) (offset nbytes : Z) : io F -> io F * qres Z
}.

(** A request on buffers of [n] bytes. *)
Definition data_ok (iovs : list Iovec) (offset n : Z) : Prop :=
  Forall iov_ok iovs /\ Z.of_nat (length (iov_addrs iovs)) = n /\ 0 <= offset /\ 0 < n /\ offset + n < 2 ^ 62.

Class DataIoLaws (F : Type) `{!BlockIo F, !BlockIoLaws F, !DataIo F} := {
  file_end_law f f' r : bhealthy f -> file_end f = (f', r) ->
    (forall a, bcontent f' a = bcontent f a) /\ blen f' = blen f /\ bhealthy f' /\ r = Ok (blen f);
  file_set_len_law len f f' r : bhealthy f -> blen f <= len -> file_set_len len f = (f', r) ->
    (forall a, a < blen f -> bcontent f' a = bcontent f a) /\ (forall a, blen f <= a < len -> bcontent f' a = 0) /\
    blen f' = len /\ bhealthy f' /\ r = Ok tt;
  zero_range_law offset size f f' ret :
    bhealthy f -> 0 <= size -> 0 <= offset -> zero_range offset size f = (f', ret) ->
    (forall a, ~ offset <= a < offset + size -> bcontent f' a = bcontent f a) /\ bhealthy f' /\
    (ret = 0 /\ (forall a, offset <= a < offset + size -> bcontent f' a = 0) /\ blen f' = Z.max (blen f) (offset + size) \/
     ret < 0 /\ blen f' = blen f);
  submit_read_law iovs offset n s s' r :
    data_ok iovs offset n -> NoDup (iov_addrs iovs) -> bhealthy (file s) -> offset + n <= blen (file s) ->
    submit Preadv iovs offset n s = (s', r) ->
    (forall a, bcontent (file s') a = bcontent (file s) a) /\ blen (file s') = blen (file s) /\ bhealthy (file s') /\
    (forall a, a ∉ iov_addrs iovs -> mem s' a = mem s a) /\
    iov_bytes (mem s') iovs = ztab (bcontent (file s)) offset (Z.to_nat n) /\ exists ret, r = Ok ret /\ 0 <= ret;
  submit_write_law iovs offset n s s' r :
    data_ok iovs offset n -> is_bytes (iov_bytes (mem s) iovs) -> bhealthy (file s) -> (balign | blen (file s)) ->
    offset + n <= blen (file s) -> submit Pwritev iovs offset n s = (s', r) ->
    mem s' = mem s /\ blen (file s') = blen (file s) /\ bhealthy (file s') /\
    (forall a, ~ offset <= a < offset + n -> bcontent (file s') a = bcontent (file s) a) /\
    (forall i b, iov_bytes (mem s) iovs !! i = Some b -> bcontent (file s') (offset + Z.of_nat i) = b) /\
    exists ret, r = Ok ret /\ 0 <= ret
}.

(** ** [FileDriver] *)

Section driver.
Context {F : Type} `{!DataIo F}.

Fixpoint submit_all (op : OpCode) (reqs : list CombineRequest) : sres (io F) unit (list Z) := fun s =>
  match reqs with
  | [] => (s, Ok [])
  | req :: reqs =>
    match submit op (req_iov req) (req_offset req) (req_nbytes req) s with
    | (s, Ok ret) =>
      match submit_all op reqs s with
      | (s, Ok rets) => (s, Ok (ret :: rets))
      | r => r
      end
    | (s, Err e) => (s, Err e)
    | (s, Panic) => (s, Panic)
    end
  end.

(** The values the completion function is called with; an empty request
    completes at once with 0 bytes. *)
Definition process_request (op : OpCode) (req_list : list CombineRequest) : sres (io F) unit (list Z) := fun s =>
  if bool_decide (req_list = []) then (s, Ok [0]) else submit_all op req_list s.

Definition driver_read_vectored := process_request Preadv.
Definition driver_write_vectored := process_request Pwritev.
Definition driver_write_zeroes (req_list : list CombineRequest) (unmap : bool) :=
  process_request (if unmap then WriteZeroesUnmap else WriteZeroes) req_list.
Definition driver_discard := process_request Discard.
Definition driver_datasync : sres (io F) unit Z := submit Fdsync [] 0 0.

Definition disk_size : F -> F * qres Z := file_end.
Definition extend_len (len : Z) (f : F) : F * qres unit :=
  match file_end f with
  | (f, Ok file_end) => if file_end <? len then file_set_len len f else (f, Ok tt)
  | (f, Err e) => (f, Err e)
  | (f, Panic) => (f, Panic)
  end.

(** ** [RawDriver] *)

Definition raw_read_vectored (iovec : list Iovec) (offset : Z) :=
  driver_read_vectored [mkReq iovec offset (get_iov_size iovec)].
Definition raw_write_vectored (iovec : list Iovec) (offset : Z) :=
  driver_write_vectored [mkReq iovec offset (get_iov_size iovec)].
Definition raw_driver_write_zeroes (offset nbytes : Z) (unmap : bool) :=
  driver_write_zeroes [mkReq [] offset nbytes] unmap.
Definition raw_driver_discard (offset nbytes : Z) := driver_discard [mkReq [] offset nbytes].
Definition raw_create_image (img_size : Z) (f : F) : F * qres unit := file_set_len img_size f.
End driver.

(** The driver over the host, with the engine [Off]. *)
Section file_data_io.
Context {F : Type} `{!HostIo F} (prop : SyncAioInfo).

Definition package_aiocb (op : OpCode) (iov : list Iovec) (offset nbytes : Z) : AioCb :=
  package_sync_aiocb prop op iov offset nbytes.

Definition file_data_io : DataIo F := {|
  file_end := seek_end;
  file_set_len := set_len;
  zero_range := raw_write_zeroes;
  submit op iov offset nbytes := submit_request (package_aiocb op iov offset nbytes)
|}.
End file_data_io.

(** ** Laws *)

Section laws.
Context {F : Type} `{!HostIo F, !HostIoLaws F} (prop : SyncAioInfo) (Hprop : sync_ok prop).

Lemma data_cb_ok op iovs offset n :
  data_ok iovs offset n -> cb_ok (package_aiocb prop op iovs offset n).
Proof.
  intros (Hi & Hl & Ho & Hn & Hs). destruct Hprop as [(k & Hk & Hal) _ _].
  assert (prop_req_align prop <= 2 ^ 20) by (rewrite Hal; apply Z.pow_le_mono_r; lia).
  constructor; simpl; [by exists k|done..|lia|done|done].
Qed.

Lemma data_edges op iovs offset n (f : F) :
  data_ok iovs offset n -> (prop_req_align prop | flen f) -> offset + n <= flen f ->
  edges_in (package_aiocb prop op iovs offset n) f.
Proof. intros (_ & _ & Ho & Hn & _) Hd Hl. apply (sync_edges prop Hprop op 0 offset n f); auto. Qed.

Lemma file_read_law iovs offset n (s s' : io F) r :
  data_ok iovs offset n -> NoDup (iov_addrs iovs) -> healthy (file s) -> offset + n <= flen (file s) ->
  submit_request (package_aiocb prop Preadv iovs offset n) s = (s', r) ->
  (forall a, content (file s') a = content (file s) a) /\ flen (file s') = flen (file s) /\ healthy (file s') /\
  (forall a, a ∉ iov_addrs iovs -> mem s' a = mem s a) /\
  iov_bytes (mem s') iovs = ztab (content (file s)) offset (Z.to_nat n) /\ exists ret, r = Ok ret /\ 0 <= ret.
Proof.
  intros Hd Hnd Hh Hl E. apply submit_read_effect in E as [(Hc & Hf & Hm & ret & -> & Hb) Hok];
    [|by apply data_cb_ok|done..]. destruct (Hok Hh) as [Hh' Hr]. destruct (Hr Hl) as (ret' & Hp & [= ->]).
  split_and!; [done..|by apply Hb|by eexists].
Qed.

Lemma file_write_law iovs offset n (s s' : io F) r :
  data_ok iovs offset n -> is_bytes (iov_bytes (mem s) iovs) -> healthy (file s) -> (prop_req_align prop | flen (file s)) ->
  offset + n <= flen (file s) -> submit_request (package_aiocb prop Pwritev iovs offset n) s = (s', r) ->
  mem s' = mem s /\ flen (file s') = flen (file s) /\ healthy (file s') /\
  (forall a, ~ offset <= a < offset + n -> content (file s') a = content (file s) a) /\
  (forall i b, iov_bytes (mem s) iovs !! i = Some b -> content (file s') (offset + Z.of_nat i) = b) /\
  exists ret, r = Ok ret /\ 0 <= ret.
Proof.
  intros Hd Hb Hh Hal Hl E. apply submit_write_effect in E as [(Hm & _ & Hout & ret & -> & Hin) Hok];
    [|by apply data_cb_ok|done..]. destruct (Hok Hh) as [Hh' Hr].
  destruct (Hr (data_edges _ _ _ _ _ Hd Hal Hl)) as [(ret' & Hp & [= ->]) Hlen].
  split_and!; [done| |done..|by apply Hin|by eexists].
  rewrite Hlen by apply Hprop. simpl. lia.
Qed.
End laws.

(** The driver over the host satisfies its interface. *)
#[export] Instance file_data_laws {F} `{!HostIo F, !HostIoLaws F} prop (Hprop : sync_ok prop) :
  @DataIoLaws F (sync_block_io F prop) (sync_laws prop Hprop) (file_data_io prop).
Proof.
  split; simpl.
  - intros f f' r Hh. by apply seek_end_law.
  - intros len f f' r Hh Hl. by apply set_len_law.
  - intros offset size f f' ret Hh Hs Ho E. apply raw_write_zeroes_law in E as (Hout & Hlen & _ & Hz & Hok); [|done..].
    destruct (Hok Hh) as [Hh' [[-> Hf]|[-> Hf]]]; split_and!; auto. right. split; [lia|done].
  - exact (file_read_law prop Hprop).
  - exact (file_write_law prop Hprop).
Qed.

(** ** Splitting and clearing scattered buffers *)

Lemma iovecs_split_zero iovs : iovecs_split iovs 0 = ([], iovs).
Proof. induction iovs as [|iov iovs IH]; [done|]. simpl. by rewrite IH. Qed.

Lemma iovecs_split_spec iovs n :
  Forall iov_ok iovs -> 0 <= n <= Z.of_nat (length (iov_addrs iovs)) ->
  exists b e, iovecs_split iovs n = (b, e) /\ iov_addrs b ++ iov_addrs e = iov_addrs iovs /\
    Z.of_nat (length (iov_addrs b)) = n /\ Forall iov_ok b /\ Forall iov_ok e.
Proof.
  intros Hok. revert n. induction Hok as [|iov iovs Hi Hok IH]; intros n Hn.
  { exists [], []. simpl in *. split_and!; [done..|lia|constructor|constructor]. }
  rewrite iov_addrs_cons, length_app, ztab_length in Hn. destruct Hi as (Hb & Hl & Hs). simpl.
  destruct (Z.eqb_spec n 0) as [->|Hn0].
  { rewrite iovecs_split_zero. exists [], (iov :: iovs). split_and!; [done..|]. by constructor. }
  destruct (Z.ltb_spec n (iov_len iov)) as [Hlt|Hge].
  - rewrite iovecs_split_zero. eexists _, _. split; [done|]. unfold wadd. rewrite wrap_small by (unfold inW; lia).
    rewrite !iov_addrs_cons. cbn [iov_base iov_len]. unfold iov_addrs at 1 3. cbn [fmap list_fmap concat]. rewrite !app_nil_r.
    split_and!.
    + rewrite app_assoc. f_equal. replace (Z.to_nat (iov_len iov)) with (Z.to_nat n + Z.to_nat (iov_len iov - n))%nat by lia.
      rewrite ztab_app. by rewrite Z2Nat.id by lia.
    + rewrite ztab_length. lia.
    + constructor; [|constructor]. unfold iov_ok; simpl. lia.
    + constructor; [|done]. unfold iov_ok; simpl. lia.
  - destruct (IH (n - iov_len iov)) as (b & e & -> & Ha & Hlb & Hb' & He); [lia|]. eexists _, _. split; [done|].
    rewrite !iov_addrs_cons, <-Ha, app_assoc, length_app, ztab_length. split_and!; [done|lia|by constructor|done].
Qed.

Lemma iovec_write_zero_spec iovs m :
  (forall a, a ∉ iov_addrs iovs -> iovec_write_zero iovs m a = m a) /\
  (forall a, a ∈ iov_addrs iovs -> iovec_write_zero iovs m a = 0).
Proof.
  unfold iovec_write_zero. revert m. induction iovs as [|iov iovs IH]; intros m; simpl.
  { split; [done|]. intros a Ha. by apply elem_of_nil in Ha. }
  set (buf := replicate (Z.to_nat (iov_len iov)) 0). destruct (IH (mem_from_buf buf (iov_base iov) m)) as [Hout Hin].
  pose proof (mem_from_buf_stored buf (iov_base iov) m) as [Hst Hun]. subst buf. rewrite length_replicate in *.
  split; intros a; rewrite iov_addrs_cons.
  - rewrite not_elem_of_app. intros [Ha1 Ha2]. rewrite Hout by done. apply Hun. by rewrite take_ge by (rewrite ztab_length; lia).
  - rewrite elem_of_app. destruct (decide (a ∈ iov_addrs iovs)) as [Ha|Ha]; [intros _; by apply Hin|]. intros [Ha1|?]; [|done].
    rewrite Hout by done. apply list_elem_of_lookup in Ha1 as [i Hia]. eapply Hst; [done|].
    apply lookup_replicate. split; [done|]. apply lookup_lt_Some in Hia. by rewrite ztab_length in Hia.
Qed.

(** ** Combined requests *)

(** The first error of the parts is the one reported, when the last part
    completes; a request without an error is done then. *)
Definition combined_result (rets : list Z) : AioReqResult :=
  match filter (fun r => r < 0) rets with [] => AioDone | v :: _ => AioError v end.

Lemma completions_run res rets :
  rets <> [] -> Z.of_nat (length rets) < 2 ^ 32 -> res <= 0 ->
  completions (Some (Z.of_nat (length rets), res)) rets =
    replicate (pred (length rets)) Inflight ++
    [if res =? 0 then combined_result rets else AioError res].
Proof.
  revert res. induction rets as [|r rets IH]; intros res Hne Hl Hr; [done|]. cbn [completions req_is_completed].
  cbn [length] in Hl. assert (wsub 32 (Z.of_nat (length (r :: rets))) 1 = Z.of_nat (length rets)) as Hc.
  { unfold wsub. cbn [length]. rewrite wrap_small by (unfold inW; lia). lia. }
  rewrite Hc. set (res' := if (r <? 0) && (res =? 0) then r else res).
  assert (res' <= 0) by (subst res'; zcases; lia).
  destruct rets as [|r2 rets].
  - cbn [length]. replace (1 <? 1) with false by done. unfold combined_result. subst res'. rewrite filter_cons, filter_nil.
    destruct (Z.ltb_spec r 0), (Z.eqb_spec res 0); cbn [andb]; destruct (decide (r < 0)); try lia;
      destruct (Z.ltb_spec r 0), (Z.ltb_spec res 0); done || lia.
  - rewrite (proj2 (Z.ltb_lt _ _)) by (cbn [length]; lia). rewrite IH by (done || lia). cbn [length pred replicate app].
    f_equal. f_equal. subst res'. unfold combined_result. rewrite (filter_cons _ r).
    destruct (Z.ltb_spec r 0), (Z.eqb_spec res 0); cbn [andb]; destruct (decide (r < 0)); try lia; try done.
    all: destruct (Z.eqb_spec r 0), (Z.eqb_spec res 0); done || lia.
Qed.

(** ** Lists of requests *)

(** The host addresses of the buffers of the requests, and the places of the
    file they stand for, byte by byte. *)
Definition req_addrs (reqs : list CombineRequest) : list Z := concat ((fun r => iov_addrs (req_iov r)) <$> reqs).
Definition req_places (reqs : list CombineRequest) : list Z :=
  concat ((fun r => ztab id (req_offset r) (Z.to_nat (req_nbytes r))) <$> reqs).

Section requests.
Context {F : Type} `{!BlockIo F, !BlockIoLaws F, !DataIo F, !DataIoLaws F}.

Definition req_ok (f : F) (r : CombineRequest) : Prop :=
  data_ok (req_iov r) (req_offset r) (req_nbytes r) /\ req_offset r + req_nbytes r <= blen f.
Definition paired (reqs : list CombineRequest) (a h : Z) : Prop :=
  exists i, req_addrs reqs !! i = Some a /\ req_places reqs !! i = Some h.

Lemma paired_cons f r reqs a h : req_ok f r ->
  paired (r :: reqs) a h <->
  (exists i, iov_addrs (req_iov r) !! i = Some a /\ h = req_offset r + Z.of_nat i) \/ paired reqs a h.
Proof.
  intros [(_ & Hl & _ & Hn & _) _]. unfold paired, req_addrs, req_places. rewrite !fmap_cons. cbn [concat].
  assert (length (iov_addrs (req_iov r)) = length (ztab id (req_offset r) (Z.to_nat (req_nbytes r)))) as El by (rewrite ztab_length; lia).
  split.
  - intros (i & Ha & Hh). destruct (decide (i < length (iov_addrs (req_iov r)))%nat) as [Hi|Hi].
    + left. exists i. rewrite lookup_app_l in Ha, Hh by lia. rewrite ztab_lookup in Hh by lia. by injection Hh as <-.
    + right. rewrite lookup_app_r in Ha, Hh by lia. rewrite <-El in Hh. by eexists.
  - intros [(i & Ha & ->)|(i & Ha & Hh)].
    + pose proof (lookup_lt_Some _ _ _ Ha) as Hi. exists i. rewrite !lookup_app_l by lia. split; [done|]. by rewrite ztab_lookup by lia.
    + exists (length (iov_addrs (req_iov r)) + i)%nat. rewrite !lookup_app_r by lia. rewrite <-El.
      replace (_ + i - _)%nat with i by lia. done.
Qed.
Lemma paired_snoc f reqs r a h : Forall (req_ok f) reqs -> req_ok f r ->
  paired (reqs ++ [r]) a h <->
  paired reqs a h \/ exists i, iov_addrs (req_iov r) !! i = Some a /\ h = req_offset r + Z.of_nat i.
Proof.
  intros Hok Hr. induction Hok as [|r0 reqs Hr0 Hok IH].
  - cbn [app]. rewrite (paired_cons f r [] a h Hr). split; [|intros [[[] [Ha _]]|?]; [done..|by left]].
    intros [?|[[] [Ha _]]]; [by right|done..].
  - cbn [app]. rewrite (paired_cons f r0 _ a h Hr0), (paired_cons f r0 _ a h Hr0), IH. tauto.
Qed.
Lemma req_addrs_snoc reqs r : req_addrs (reqs ++ [r]) = req_addrs reqs ++ iov_addrs (req_iov r).
Proof. unfold req_addrs. rewrite fmap_app, concat_app. cbn. by rewrite app_nil_r. Qed.
Lemma paired_nil a h : ~ paired [] a h.
Proof. intros ([] & Ha & _); done. Qed.
Lemma paired_addr reqs a h : paired reqs a h -> a ∈ req_addrs reqs /\ h ∈ req_places reqs.
Proof. intros (i & Ha & Hh). split; by eapply list_elem_of_lookup_2. Qed.

(** Reading fills the buffers with the places, and only them. *)
Lemma submit_reads reqs (s : io F) :
  Forall (req_ok (file s)) reqs -> NoDup (req_addrs reqs) -> bhealthy (file s) ->
  exists s' rets, submit_all Preadv reqs s = (s', Ok rets) /\ Forall (fun r => 0 <= r) rets /\ length rets = length reqs /\
    (forall x, bcontent (file s') x = bcontent (file s) x) /\ blen (file s') = blen (file s) /\ bhealthy (file s') /\
    (forall a, a ∉ req_addrs reqs -> mem s' a = mem s a) /\
    (forall a h, paired reqs a h -> mem s' a = bcontent (file s) h).
Proof.
  revert s. induction reqs as [|r reqs IH]; intros s Hok Hnd Hh.
  { exists s, []. split_and!; try done. intros a h []%paired_nil. }
  inversion Hok as [|? ? [Hd Hin] Hok']; subst. unfold req_addrs in Hnd. rewrite fmap_cons in Hnd. cbn [concat] in Hnd.
  apply NoDup_app in Hnd as (Hnd1 & Hdis & Hnd2). cbn [submit_all].
  destruct (submit Preadv (req_iov r) (req_offset r) (req_nbytes r) s) as [s1 r1] eqn:E1.
  apply submit_read_law in E1 as (Hc1 & Hl1 & Hh1 & Hm1 & Hb1 & ret & -> & Hret); try done.
  destruct (IH s1) as (s' & rets & -> & Hrets & Hlen & Hc & Hl & Hh' & Hm & Hp);
    [eapply Forall_impl; [exact Hok'|]; intros x [? ?]; split; [done|lia]|done|done|].
  exists s', (ret :: rets). split_and!; try done; [by constructor|by simpl; rewrite Hlen|intros; by rewrite Hc, Hc1|by rewrite Hl| |].
  - intros a Ha. unfold req_addrs in Ha. rewrite fmap_cons in Ha. cbn [concat] in Ha. rewrite not_elem_of_app in Ha.
    rewrite Hm, Hm1 by tauto. done.
  - intros a h [(i & Ha & ->)|Hp']%(paired_cons (file s)); [| |done].
    + rewrite Hm by (intros Hin'; apply (Hdis a); [by eapply list_elem_of_lookup_2|done]).
      rewrite iov_bytes_addrs in Hb1. pose proof (lookup_lt_Some _ _ _ Ha) as Hi. destruct Hd as (_ & Hdl & _ & _ & _).
      apply (f_equal (.!! i)) in Hb1. rewrite list_lookup_fmap, Ha, ztab_lookup in Hb1 by lia. by injection Hb1.
    + rewrite (Hp a h Hp'). apply Hc1.
Qed.

(** Writing stores the buffers at the places, and only there. *)
Lemma submit_writes reqs (s : io F) :
  Forall (req_ok (file s)) reqs -> NoDup (req_places reqs) -> bhealthy (file s) -> (balign | blen (file s)) ->
  (forall a, a ∈ req_addrs reqs -> is_u8 (mem s a)) ->
  exists s' rets, submit_all Pwritev reqs s = (s', Ok rets) /\ Forall (fun r => 0 <= r) rets /\ length rets = length reqs /\
    mem s' = mem s /\ blen (file s') = blen (file s) /\ bhealthy (file s') /\
    (forall x, x ∉ req_places reqs -> bcontent (file s') x = bcontent (file s) x) /\
    (forall a h, paired reqs a h -> bcontent (file s') h = mem s a).
Proof.
  revert s. induction reqs as [|r reqs IH]; intros s Hok Hnd Hh Hal Hby.
  { exists s, []. split_and!; try done. intros a h []%paired_nil. }
  inversion Hok as [|? ? [Hd Hin] Hok']; subst. unfold req_places in Hnd. rewrite fmap_cons in Hnd. cbn [concat] in Hnd.
  apply NoDup_app in Hnd as (Hnd1 & Hdis & Hnd2). cbn [submit_all].
  assert (forall a, a ∈ iov_addrs (req_iov r) \/ a ∈ req_addrs reqs -> is_u8 (mem s a)) as Hby'
    by (intros a Ha; apply Hby; unfold req_addrs; rewrite fmap_cons; cbn [concat]; by apply elem_of_app).
  destruct (submit Pwritev (req_iov r) (req_offset r) (req_nbytes r) s) as [s1 r1] eqn:E1.
  apply submit_write_law in E1 as (Hm1 & Hl1 & Hh1 & Ho1 & Hb1 & ret & -> & Hret); try done.
  2:{ rewrite iov_bytes_addrs. apply Forall_fmap, Forall_forall. intros a Ha. apply Hby'. by left. }
  destruct (IH s1) as (s' & rets & -> & Hrets & Hlen & Hm & Hl & Hh' & Ho & Hp);
    [eapply Forall_impl; [exact Hok'|]; intros x [? ?]; split; [done|lia]|done|done|by rewrite Hl1|rewrite Hm1; intros; apply Hby'; by right|].
  assert (forall x, x ∈ ztab id (req_offset r) (Z.to_nat (req_nbytes r)) <-> req_offset r <= x < req_offset r + req_nbytes r) as Hz.
  { intros x. rewrite list_elem_of_lookup. destruct Hd as (_ & _ & _ & Hn & _). split.
    - intros [i Hi]. pose proof (lookup_lt_Some _ _ _ Hi) as Hlt. rewrite ztab_length in Hlt. rewrite ztab_lookup in Hi by done.
      injection Hi as <-. unfold id. lia.
    - intros Hx. exists (Z.to_nat (x - req_offset r)). rewrite ztab_lookup by lia. f_equal. unfold id. lia. }
  exists s', (ret :: rets). split_and!; try done; [by constructor|by simpl; rewrite Hlen|congruence|by rewrite Hl| |].
  - intros x Hx. unfold req_places in Hx. rewrite fmap_cons in Hx. cbn [concat] in Hx. rewrite not_elem_of_app, Hz in Hx.
    rewrite Ho, Ho1 by tauto. done.
  - intros a h [(i & Ha & ->)|Hp']%(paired_cons (file s)); [| |done].
    + pose proof (lookup_lt_Some _ _ _ Ha) as Hi. destruct Hd as (_ & Hdl & _ & _ & _). rewrite Ho.
      * apply Hb1. by rewrite iov_bytes_addrs, list_lookup_fmap, Ha.
      * intros Hin'. apply (Hdis (req_offset r + Z.of_nat i)); [apply Hz; lia|done].
    + by rewrite (Hp a h Hp'), Hm1.
Qed.
End requests.
