(* ===== verification/Qcow2Cache.v ===== *)
(** * The metadata cache of a qcow2 image ([block_backend/src/qcow2/cache.rs])

    Tables of big-endian entries with their dirty range, and a write-back
    cache of such tables with least-recently-used replacement.  A table is
    shared ([Rc<RefCell<..>>]) by the map and by the list of dirty tables: the
    tables are cells of a store, the map and the list hold cell numbers.  The
    order a hash map is iterated in is the parameter [HashIter]. *)
From stdpp Require Import prelude list gmap.
From Stdlib Require Import ZArith Lia.
From S2P Require Import Prelude NumOps Qcow2Header SyncAio Qcow2Io.

Definition U64_MAX : Z := 2 ^ 64 - 1.
Definition CACHE_DEFAULT_SIZE : nat := 1.
Definition ENTRY_SIZE_U16 : Z := 2.
Definition ENTRY_SIZE_U64 : Z := 8.

(** ** Tables *)

Record DirtyInfo := mkDirty { is_dirty : bool; start : Z; end_ : Z }.
(** [DirtyInfo::default], and the value [clear] leaves. *)
Definition no_dirty : DirtyInfo := mkDirty false U64_MAX 0.

Record CacheTable := mkTable {
  dirty_info : DirtyInfo;
  lru_count : Z;
  addr : Z;
  entry_size : Z;
  table_data : list Z
}.
Definition set_lru (n : Z) (t : CacheTable) : CacheTable :=
  mkTable (dirty_info t) n (addr t) (entry_size t) (table_data t).
Definition clear_dirty (t : CacheTable) : CacheTable :=
  mkTable no_dirty (lru_count t) (addr t) (entry_size t) (table_data t).

Definition CacheTable_new (addr : Z) (table_data : list Z) (entry_size : Z) : qres CacheTable :=
  if entry_size =? 0 then Err tt else Ok (mkTable no_dirty 0 addr entry_size table_data).

(** The bytes [\[idx * entry_size, idx * entry_size + entry_size)] of a table. *)
Definition entry_range (t : CacheTable) (idx : Z) : qres (Z * Z) :=
  let start := wmul 64 idx (entry_size t) in
  let end_ := wadd 64 start (entry_size t) in
  if Z.of_nat (length (table_data t)) <? end_ then Err tt
  else if end_ <? start then Panic
  else Ok (start, end_).

Definition be_read (t : CacheTable) (idx : Z) : qres Z :=
  '(start, end_) ← entry_range t idx;
  let bytes := slice (table_data t) (Z.to_nat start) (Z.to_nat (end_ - start)) in
  if (entry_size t =? ENTRY_SIZE_U16) || (entry_size t =? ENTRY_SIZE_U64) then Ok (be_val bytes) else Err tt.

Definition get_entry_num (t : CacheTable) : qres Z :=
  if entry_size t =? 0 then Panic else Ok (Z.of_nat (length (table_data t)) / entry_size t).
Definition get_entry_map (t : CacheTable) (idx : Z) : qres Z := be_read t idx.

Definition set_entry_map (t : CacheTable) (idx value : Z) : qres CacheTable :=
  '(s, e) ← entry_range t idx;
  data ← (if entry_size t =? ENTRY_SIZE_U16
          then Ok (splice (table_data t) (Z.to_nat s) (be_bytes 2 (wrap 16 value)))
          else if entry_size t =? ENTRY_SIZE_U64
          then Ok (splice (table_data t) (Z.to_nat s) (be_bytes 8 value))
          else Err tt);
  let d := dirty_info t in
  Ok (mkTable (mkDirty true (Z.min (start d) s) (Z.max (end_ d) e)) (lru_count t) (addr t) (entry_size t) data).

(** ** The cache *)

Record Qcow2Cache := mkCache {
  max_size : nat;
  cache_lru : Z;
  cache_map : gmap Z nat;
  dirty_tables : list nat;
  tables : gmap nat CacheTable;
  next_cell : nat
}.

Definition set_tables (ts : gmap nat CacheTable) (c : Qcow2Cache) : Qcow2Cache :=
  mkCache (max_size c) (cache_lru c) (cache_map c) (dirty_tables c) ts (next_cell c).
Definition set_map (m : gmap Z nat) (c : Qcow2Cache) : Qcow2Cache :=
  mkCache (max_size c) (cache_lru c) m (dirty_tables c) (tables c) (next_cell c).
Definition set_cache_lru (n : Z) (c : Qcow2Cache) : Qcow2Cache :=
  mkCache (max_size c) n (cache_map c) (dirty_tables c) (tables c) (next_cell c).

Definition Qcow2Cache_default : Qcow2Cache := mkCache 0 0 ∅ [] ∅ 0.
Definition Qcow2Cache_new (max_size : nat) : Qcow2Cache :=
  mkCache (if (max_size =? 0)%nat then CACHE_DEFAULT_SIZE else max_size) 0 ∅ [] ∅ 0.

(** [Rc::new(RefCell::new(t))] *)
Definition new_cell (t : CacheTable) (c : Qcow2Cache) : Qcow2Cache * nat :=
  (mkCache (max_size c) (cache_lru c) (cache_map c) (dirty_tables c) (<[next_cell c := t]> (tables c))
     (S (next_cell c)), next_cell c).

Class HashIter := {
  map_iter : gmap Z nat -> list (Z * nat);
  map_iter_perm m : map_iter m ≡ₚ map_to_list m
}.

Section cache.
Context `{!HashIter}.

Definition check_refcount (c : Qcow2Cache) : Qcow2Cache :=
  if cache_lru c <? U64_MAX then c
  else set_cache_lru 0
         (set_tables (foldl (fun ts '(_, l) => alter (set_lru 0) l ts) (tables c) (map_iter (cache_map c))) c).

Definition contains_keys (c : Qcow2Cache) (key : Z) : bool := bool_decide (is_Some (cache_map c !! key)).

(** Marks the cell as the last one used. *)
Definition touch (l : nat) (c : Qcow2Cache) : Qcow2Cache :=
  set_cache_lru (wadd 64 (cache_lru c) 1) (set_tables (alter (set_lru (cache_lru c)) l (tables c)) c).

Definition cache_get (key : Z) (c : Qcow2Cache) : Qcow2Cache * option nat :=
  let c := check_refcount c in
  match cache_map c !! key with
  | None => (c, None)
  | Some l => (touch l c, Some l)
  end.

Definition clear_cache (c : Qcow2Cache) : Qcow2Cache :=
  mkCache (max_size c) (cache_lru c) ∅ [] (tables c) (next_cell c).

(** The loop over the map: the least count seen with its key and cell. *)
Definition lru_step (ts : gmap nat CacheTable) (acc : Z * (Z * option nat)) (e : Z * nat)
  : Z * (Z * option nat) :=
  match ts !! e.2 with
  | Some t => if lru_count t <? acc.1 then (lru_count t, (e.1, Some e.2)) else acc
  | None => acc
  end.
Definition lru_victim (c : Qcow2Cache) : Z * option nat :=
  (foldl (lru_step (tables c)) (U64_MAX, (0, None)) (map_iter (cache_map c))).2.

Definition lru_replace (key : Z) (l : nat) (c : Qcow2Cache) : Qcow2Cache * option nat :=
  let c := touch l (check_refcount c) in
  if (base.size (cache_map c) <? max_size c)%nat then (set_map (<[key := l]> (cache_map c)) c, None)
  else
    let '(target_idx, replaced_entry) := lru_victim c in
    (set_map (<[key := l]> (delete target_idx (cache_map c))) c, replaced_entry).

Definition cell_dirty (c : Qcow2Cache) (l : nat) : bool :=
  match tables c !! l with Some t => is_dirty (dirty_info t) | None => false end.

Definition clean_up_dirty_cache (c : Qcow2Cache) : Qcow2Cache :=
  set_map (filter (fun e => cell_dirty c e.2 = false) (cache_map c)) c.

Definition add_dirty_table (l : nat) (c : Qcow2Cache) : Qcow2Cache :=
  mkCache (max_size c) (cache_lru c) (cache_map c) (dirty_tables c ++ [l]) (tables c) (next_cell c).

Context {F : Type} `{!BlockIo F}.

(** The loop over the dirty tables: a failed write is reported at the end, and
    the table is marked clean all the same. *)
Fixpoint flush_loop (ls : list nat) (ts : gmap nat CacheTable) (ret : qres unit) (f : F)
  : F * gmap nat CacheTable * qres unit :=
  match ls with
  | [] => (f, ts, ret)
  | l :: ls =>
    match ts !! l with
    | None => flush_loop ls ts ret f
    | Some t =>
      let d := dirty_info t in
      if is_dirty d then
        let '(f, r) := write_dirty_info (addr t) (table_data t) (start d) (end_ d) f in
        match r with
        | Panic => (f, ts, Panic)
        | Ok _ => flush_loop ls (<[l := clear_dirty t]> ts) ret f
        | Err e => flush_loop ls (<[l := clear_dirty t]> ts) (Err e) f
        end
      else flush_loop ls ts ret f
    end
  end.

Definition cache_flush : sres (Qcow2Cache * F) unit unit := fun '(c, f) =>
  match flush_loop (dirty_tables c) (tables c) (Ok tt) f with
  | (f, ts, Panic) => (set_tables ts c, f, Panic)
  | (f, ts, ret) =>
    (mkCache (max_size c) (cache_lru c) (cache_map c) [] ts (next_cell c), f, ret)
  end.
End cache.
