(* ===== verification/Qcow2CacheSpec.v ===== *)
(** * Properties of the metadata cache

    What the blocks behind a cache hold, cached or not, and that looking up,
    loading, replacing, changing and flushing tables keeps or changes exactly
    that. *)
From stdpp Require Import prelude list gmap.
From Stdlib Require Import ZArith Lia.
From S2P Require Import Prelude NumOps Qcow2Header SyncAio Qcow2Io Qcow2Cache.

(** ** Entries of a table *)

Lemma entry_range_ok t idx :
  0 < entry_size t <= 8 -> 0 <= idx < 2 ^ 32 -> (idx + 1) * entry_size t <= Z.of_nat (length (table_data t)) ->
  entry_range t idx = Ok (idx * entry_size t, (idx + 1) * entry_size t).
Proof.
  intros He Hi Hl. unfold entry_range. rewrite wmul_small by (unfold inW; nia).
  rewrite wadd_small by (unfold inW; nia). rewrite (proj2 (Z.ltb_ge _ _)) by lia.
  rewrite (proj2 (Z.ltb_ge _ _)) by lia. do 2 f_equal. lia.
Qed.

(** The 16-bit entry at an index of a block. *)
Definition entry16 (bytes : list Z) (idx : Z) : Z := be_val (slice bytes (Z.to_nat (2 * idx)) 2).

Section entries.
Context (t : CacheTable) (idx : Z).
Context (He : entry_size t = 2) (Hi : 0 <= idx < 2 ^ 32) (Hl : 2 * idx + 2 <= Z.of_nat (length (table_data t))).

Lemma get_entry16 : get_entry_map t idx = Ok (entry16 (table_data t) idx).
Proof.
  unfold get_entry_map, be_read. rewrite entry_range_ok by (rewrite ?He; lia). simpl. rewrite He.
  unfold entry16. simpl. replace (Z.to_nat ((idx + 1) * 2 - idx * 2)) with 2%nat by lia.
  replace (idx * 2) with (2 * idx) by lia. done.
Qed.

Lemma set_entry16 v :
  set_entry_map t idx v =
    Ok (mkTable (mkDirty true (Z.min (start (dirty_info t)) (2 * idx)) (Z.max (end_ (dirty_info t)) (2 * idx + 2)))
          (lru_count t) (addr t) 2 (splice (table_data t) (Z.to_nat (2 * idx)) (be_bytes 2 (wrap 16 v)))).
Proof.
  unfold set_entry_map. rewrite entry_range_ok by (rewrite ?He; lia). simpl. rewrite He. simpl.
  replace (idx * 2) with (2 * idx) by lia. replace ((idx + 1) * 2) with (2 * idx + 2) by lia. done.
Qed.
End entries.

Lemma entry16_splice bytes i j v :
  is_u16 v -> 0 <= i -> 0 <= j -> 2 * i + 2 <= Z.of_nat (length bytes) -> 2 * j + 2 <= Z.of_nat (length bytes) ->
  entry16 (splice bytes (Z.to_nat (2 * i)) (be_bytes 2 v)) j = if decide (j = i) then v else entry16 bytes j.
Proof.
  intros Hv Hi Hj Hli Hlj. unfold entry16. case_decide as Hd.
  - subst j. replace 2%nat with (length (be_bytes 2 v)) at 2 by apply be_bytes_length.
    rewrite slice_splice by (rewrite be_bytes_length; lia). rewrite be_val_be_bytes. by apply Z.mod_small.
  - by rewrite slice_splice_ne by (rewrite be_bytes_length; lia).
Qed.
Lemma entry16_bound bytes i :
  is_bytes bytes -> 0 <= i -> 2 * i + 2 <= Z.of_nat (length bytes) -> is_u16 (entry16 bytes i).
Proof.
  intros Hb Hi Hl. unfold entry16. pose proof (be_val_bound (slice bytes (Z.to_nat (2 * i)) 2)) as H.
  rewrite slice_length in H by lia. apply H. by apply is_bytes_slice.
Qed.

(** ** Writing a dirty range *)

Lemma round_sector x : 0 <= x < 2 ^ 62 ->
  round_down x DEFAULT_SECTOR_SIZE = Ok (x / 512 * 512) /\
  exists y, round_up x DEFAULT_SECTOR_SIZE = Ok y /\ (512 | y) /\ x <= y < x + 512.
Proof.
  intros. unfold DEFAULT_SECTOR_SIZE. split; [by apply round_down_spec; unfold inW; lia|].
  apply round_up_small; lia.
Qed.

Lemma write_dirty_info_eq `{!BlockIo F} a buf s e (f : F) :
  0 <= a -> a + Z.of_nat (length buf) < 2 ^ 61 -> (512 | Z.of_nat (length buf)) ->
  0 <= s < e -> e <= Z.of_nat (length buf) ->
  exists s' e', 0 <= s' <= s /\ e <= e' <= Z.of_nat (length buf) /\ (512 | s') /\ (512 | e') /\
    write_dirty_info a buf s e f =
      write_buffer (a + s') (slice buf (Z.to_nat s') (Z.to_nat (e' - s'))) f.
Proof.
  intros Ha Hs [q Hq] Hse Hel. destruct (round_sector s ltac:(lia)) as [Hd _].
  destruct (round_sector e ltac:(lia)) as (_ & e' & Hu & [p Hp] & Hr).
  pose proof (Z.div_mod s 512 ltac:(lia)). pose proof (Z.mod_pos_bound s 512 ltac:(lia)).
  pose proof (Z.div_pos s 512 ltac:(lia) ltac:(lia)).
  exists (s / 512 * 512), e'. assert (e' <= Z.of_nat (length buf)) by (assert (p <= q) by nia; nia).
  split_and!; try lia; [by exists (s / 512)|by exists p|].
  unfold write_dirty_info. rewrite Hd, Hu.
  rewrite (proj2 (Z.ltb_ge _ _)), (proj2 (Z.ltb_ge _ _)) by lia. simpl.
  by rewrite wadd_small by (unfold inW; lia).
Qed.

(** The sectors of a dirty range. *)
Definition sec_lo (t : CacheTable) : Z := start (dirty_info t) / 512 * 512.
Definition sec_hi (t : CacheTable) : Z := (end_ (dirty_info t) + 511) / 512 * 512.

Lemma sec_bounds t cs : (512 | cs) -> 0 <= start (dirty_info t) < end_ (dirty_info t) -> end_ (dirty_info t) <= cs ->
  0 <= sec_lo t <= start (dirty_info t) /\ end_ (dirty_info t) <= sec_hi t <= cs /\ sec_hi t < end_ (dirty_info t) + 512.
Proof.
  intros [q ->] Hs He. unfold sec_lo, sec_hi. set (e := end_ (dirty_info t)) in *. set (st := start (dirty_info t)) in *.
  pose proof (Z.div_mod st 512 ltac:(lia)). pose proof (Z.mod_pos_bound st 512 ltac:(lia)).
  pose proof (Z.div_mod (e + 511) 512 ltac:(lia)). pose proof (Z.mod_pos_bound (e + 511) 512 ltac:(lia)).
  assert ((e + 511) / 512 <= q) by (apply Z.lt_succ_r, Z.div_lt_upper_bound; lia). lia.
Qed.

Lemma write_dirty_sectors `{!BlockIo F} t (f : F) :
  0 <= addr t -> addr t + Z.of_nat (length (table_data t)) < 2 ^ 61 -> (512 | Z.of_nat (length (table_data t))) ->
  0 <= start (dirty_info t) < end_ (dirty_info t) -> end_ (dirty_info t) <= Z.of_nat (length (table_data t)) ->
  write_dirty_info (addr t) (table_data t) (start (dirty_info t)) (end_ (dirty_info t)) f =
    write_buffer (addr t + sec_lo t) (slice (table_data t) (Z.to_nat (sec_lo t)) (Z.to_nat (sec_hi t - sec_lo t))) f.
Proof.
  intros Ha Hs Hd Hse Hel. destruct (sec_bounds t _ Hd Hse Hel) as (Hlo & Hhi & Hh2).
  destruct (round_sector (start (dirty_info t)) ltac:(lia)) as [Hdn _].
  destruct (round_sector (end_ (dirty_info t)) ltac:(lia)) as (_ & e' & Hu & [p ->] & Hr).
  assert (p * 512 = sec_hi t) as Ehi.
  { unfold sec_hi in *. set (e := end_ (dirty_info t)) in *. assert (p = (e + 511) / 512) by lia. by subst. }
  unfold write_dirty_info. rewrite Hdn, Hu, Ehi. fold (sec_lo t).
  rewrite (proj2 (Z.ltb_ge _ _)), (proj2 (Z.ltb_ge _ _)) by lia. simpl. by rewrite wadd_small by (unfold inW; lia).
Qed.

(** ** What a cache stands for *)

(** The size of the entries of the tables of a cache. *)
Class EntrySize := esize : Z.

Section spec.
Context `{!HashIter} {F : Type} `{!BlockIo F, !BlockIoLaws F} {ES : EntrySize}.
(** [blk k] is where the block with key [k] lies in the file, [cs] its size. *)
Context (cs : Z) (Hcs : (512 | cs)) (Hcs0 : 0 < cs).
Implicit Types (c : Qcow2Cache) (f : F) (t : CacheTable).

Definition blocks_ok (blk : Z -> option Z) : Prop :=
  (forall k a, blk k = Some a -> 0 <= a /\ a + cs < 2 ^ 61) /\
  (forall k1 k2 a1 a2, blk k1 = Some a1 -> blk k2 = Some a2 -> k1 <> k2 -> a1 + cs <= a2 \/ a2 + cs <= a1).

Definition cached c (k : Z) : option CacheTable := l ← cache_map c !! k; tables c !! l.

(** The bytes of a block as the owner of the cache sees them. *)
Definition view (blk : Z -> option Z) c f (k : Z) : option (list Z) :=
  a ← blk k;
  Some (match cached c k with Some t => table_data t | None => ztab (bcontent f) a (Z.to_nat cs) end).

Definition in_dirty t (i : Z) : Prop := start (dirty_info t) <= i < end_ (dirty_info t).

Record cell_ok (blk : Z -> option Z) f (k : Z) t : Prop := mkCellOk {
  co_esize : entry_size t = esize;
  co_len : Z.of_nat (length (table_data t)) = cs;
  co_bytes : is_bytes (table_data t);
  co_lru : lru_count t < U64_MAX;
  co_dirty : if is_dirty (dirty_info t)
             then 0 <= start (dirty_info t) < end_ (dirty_info t) /\ end_ (dirty_info t) <= cs
             else dirty_info t = no_dirty;
  co_disk : match blk k with
            | Some a => addr t = a /\
                forall i b, table_data t !! i = Some b -> ~ in_dirty t (Z.of_nat i) -> bcontent f (a + Z.of_nat i) = b
            | None => is_dirty (dirty_info t) = false
            end
}.

Record cache_inv (blk : Z -> option Z) c f : Prop := mkCacheInv {
  ci_cells : forall k l, cache_map c !! k = Some l -> exists t, tables c !! l = Some t /\ cell_ok blk f k t;
  ci_inj : forall k1 k2 l, cache_map c !! k1 = Some l -> cache_map c !! k2 = Some l -> k1 = k2;
  ci_listed : forall k l, cache_map c !! k = Some l -> cell_dirty c l = true -> l ∈ dirty_tables c;
  ci_cached : forall l, l ∈ dirty_tables c -> cell_dirty c l = true -> exists k, cache_map c !! k = Some l;
  ci_next : forall l, is_Some (tables c !! l) -> (l < next_cell c)%nat;
  ci_lru : 0 <= cache_lru c < 2 ^ 64;
  ci_max : (1 <= max_size c)%nat;
  ci_dlt : forall l, l ∈ dirty_tables c -> (l < next_cell c)%nat
}.

Lemma cached_ok blk c f k t : cache_inv blk c f -> cached c k = Some t -> cell_ok blk f k t.
Proof.
  intros Hi Hc. unfold cached in Hc. apply bind_Some in Hc as (l & Hl & Ht).
  destruct (ci_cells _ _ _ Hi k l Hl) as (t' & Ht' & Hok). by rewrite Ht in Ht'; injection Ht' as <-.
Qed.

(** A change of the file outside the blocks. *)
Lemma cache_inv_file blk c f f' :
  blocks_ok blk -> (forall k a x, blk k = Some a -> a <= x < a + cs -> bcontent f' x = bcontent f x) ->
  cache_inv blk c f -> cache_inv blk c f' /\ forall k, view blk c f' k = view blk c f k.
Proof.
  intros _ Hf [Hcells Hinj Hli Hca Hn Hlr Hm Hdlt]. split.
  - constructor; try done. intros k l Hl. destruct (Hcells k l Hl) as (t & Ht & Hok). exists t. split; [done|].
    destruct Hok as [He Hlen Hb Hlru Hd Hdisk]. constructor; try done. destruct (blk k) as [a|] eqn:Ek; [|done].
    destruct Hdisk as [Ha Hdisk]. split; [done|]. intros i b Hib Hout.
    rewrite (Hf k a) by (done || (apply lookup_lt_Some in Hib; lia)). by apply Hdisk.
  - intros k. unfold view. destruct (blk k) as [a|] eqn:Ek; [|done]. simpl. f_equal.
    destruct (cached c k); [done|]. apply ztab_ext. intros i ?. apply (Hf k a); [done|lia].
Qed.

(** *** Use counts *)

(** Two caches that differ in their use counts only. *)
Record lru_only c c' : Prop := mkLruOnly {
  lo_map : cache_map c' = cache_map c;
  lo_dirty : dirty_tables c' = dirty_tables c;
  lo_next : next_cell c' = next_cell c;
  lo_max : max_size c' = max_size c;
  lo_tables : forall l, set_lru 0 <$> tables c' !! l = set_lru 0 <$> tables c !! l;
  lo_bound : forall l t', tables c' !! l = Some t' -> (forall t, tables c !! l = Some t -> lru_count t < U64_MAX) ->
    lru_count t' < U64_MAX;
  lo_lru : 0 <= cache_lru c' < 2 ^ 64
}.

Lemma set_lru_data t1 t2 :
  set_lru 0 t1 = set_lru 0 t2 ->
  dirty_info t1 = dirty_info t2 /\ addr t1 = addr t2 /\ entry_size t1 = entry_size t2 /\ table_data t1 = table_data t2.
Proof. destruct t1, t2. unfold set_lru. simpl. naive_solver. Qed.

Lemma lru_only_cell c c' l t :
  lru_only c c' -> tables c !! l = Some t ->
  exists t', tables c' !! l = Some t' /\ set_lru 0 t' = set_lru 0 t.
Proof.
  intros Hlo Ht. pose proof (lo_tables _ _ Hlo l) as HH. rewrite Ht in HH. simpl in HH.
  destruct (tables c' !! l) as [t'|]; [|done]. exists t'. split; [done|]. by apply (inj Some).
Qed.
Lemma lru_only_dirty c c' l : lru_only c c' -> cell_dirty c' l = cell_dirty c l.
Proof.
  intros Hlo. pose proof (lo_tables _ _ Hlo l) as HH. unfold cell_dirty.
  destruct (tables c' !! l) as [t1|], (tables c !! l) as [t2|]; try done. apply (inj Some) in HH.
  by destruct (set_lru_data t1 t2) as (-> & _).
Qed.

Lemma lru_only_inv blk c c' f :
  lru_only c c' -> cache_inv blk c f -> cache_inv blk c' f /\ forall k, view blk c' f k = view blk c f k.
Proof.
  intros Hlo Hi. pose proof Hi as [Hcells Hinj Hli Hca Hn Hlr Hm Hdlt]. split.
  - constructor; rewrite ?(lo_map _ _ Hlo), ?(lo_dirty _ _ Hlo), ?(lo_next _ _ Hlo), ?(lo_max _ _ Hlo); try done.
    + intros k l Hl. destruct (Hcells k l Hl) as (t & Ht & Hok).
      destruct (lru_only_cell _ _ _ _ Hlo Ht) as (t' & Ht' & He). exists t'. split; [done|].
      assert (lru_count t' < U64_MAX) as Hlru.
      { apply (lo_bound _ _ Hlo l t' Ht'). intros t0 Ht0. rewrite Ht in Ht0. injection Ht0 as <-. apply Hok. }
      apply set_lru_data in He as (Hd & Ha & Hs & Hdata). destruct Hok as [? ? ? ? Hdi Hdisk].
      constructor; rewrite ?Hd, ?Hs, ?Hdata; try done. unfold in_dirty. by rewrite Ha, Hd.
    + intros k l Hl. rewrite (lru_only_dirty _ _ _ Hlo). by apply Hli with k.
    + intros l Hl. rewrite (lru_only_dirty _ _ _ Hlo). by apply Hca.
    + intros l [t' Ht']. apply Hn. pose proof (lo_tables _ _ Hlo l) as HH. rewrite Ht' in HH. by destruct (tables c !! l).
    + apply Hlo.
  - intros k. unfold view, cached. rewrite (lo_map _ _ Hlo). destruct (blk k); [|done]. simpl. f_equal.
    destruct (cache_map c !! k) as [l|]; [|done]. simpl. pose proof (lo_tables _ _ Hlo l) as HH.
    destruct (tables c' !! l) as [t'|], (tables c !! l) as [t|]; try done. apply (inj Some) in HH.
    by destruct (set_lru_data t' t) as (_ & _ & _ & ->).
Qed.

Lemma alter_lru_all n ls (ts : gmap nat CacheTable) l :
  set_lru 0 <$> foldl (fun ts '((_, l) : Z * nat) => alter (set_lru n) l ts) ts ls !! l = set_lru 0 <$> ts !! l.
Proof.
  revert ts. induction ls as [|[k l'] ls IH]; intros ts; simpl; [done|]. rewrite IH.
  destruct (decide (l = l')) as [->|].
  - rewrite lookup_alter_eq. by destruct (ts !! l').
  - by rewrite lookup_alter_ne.
Qed.
Lemma alter_lru_count n ls (ts : gmap nat CacheTable) l t' :
  foldl (fun ts '((_, l) : Z * nat) => alter (set_lru n) l ts) ts ls !! l = Some t' ->
  lru_count t' = n \/ ts !! l = Some t'.
Proof.
  revert ts. induction ls as [|[k l'] ls IH]; intros ts; simpl; [auto|]. intros [HH|HH]%IH; [auto|].
  destruct (decide (l = l')) as [->|].
  - rewrite lookup_alter_eq in HH. destruct (ts !! l'); [|done]. injection HH as <-. auto.
  - rewrite lookup_alter_ne in HH by done. auto.
Qed.

Lemma check_refcount_lru c :
  0 <= cache_lru c < 2 ^ 64 -> lru_only c (check_refcount c) /\ 0 <= cache_lru (check_refcount c) < U64_MAX.
Proof.
  intros Hl. unfold check_refcount, U64_MAX in *. destruct (Z.ltb_spec (cache_lru c) (2 ^ 64 - 1)).
  - split; [|lia]. constructor; try done. intros l t' Ht' H'. by apply H'.
  - split; [|simpl; lia]. constructor; try done; simpl; [apply alter_lru_all|].
    intros l t' Ht' H'. destruct (alter_lru_count _ _ _ _ _ Ht') as [-> |]; [unfold U64_MAX; lia|by apply H'].
Qed.
Lemma touch_lru l c : 0 <= cache_lru c < U64_MAX -> lru_only c (touch l c).
Proof.
  intros Hl. constructor; try done; simpl.
  - intros l'. destruct (decide (l' = l)) as [->|]; [rewrite lookup_alter_eq|by rewrite lookup_alter_ne].
    by destruct (tables c !! l).
  - intros l' t' Ht' H'. destruct (decide (l' = l)) as [->|].
    + rewrite lookup_alter_eq in Ht'. destruct (tables c !! l); [|done]. injection Ht' as <-. simpl. lia.
    + rewrite lookup_alter_ne in Ht' by done. by apply H'.
  - unfold wadd. apply wrap_inW. lia.
Qed.

(** The key of a table with changes. *)
Definition dirty_key c (k : Z) : Prop := exists l, cache_map c !! k = Some l /\ cell_dirty c l = true.

Lemma lru_only_dirty_key c c' k : lru_only c c' -> dirty_key c' k -> dirty_key c k.
Proof. intros Hlo (l & Hl & Hd). exists l. by rewrite <-(lo_map _ _ Hlo), <-(lru_only_dirty _ _ _ Hlo). Qed.

(** *** Changing one cell *)

Lemma cached_set_tables c l t k :
  cached (set_tables (<[l := t]> (tables c)) c) k =
    if decide (cache_map c !! k = Some l) then Some t else cached c k.
Proof.
  unfold cached. simpl. destruct (cache_map c !! k) as [l'|]; simpl; [|done]. case_decide as Hd.
  - injection Hd as ->. apply lookup_insert_eq.
  - apply lookup_insert_ne. congruence.
Qed.
Lemma cell_dirty_set c l t l' :
  cell_dirty (set_tables (<[l := t]> (tables c)) c) l' =
    if decide (l' = l) then is_dirty (dirty_info t) else cell_dirty c l'.
Proof.
  unfold cell_dirty. simpl. case_decide as Hd; [by subst; rewrite lookup_insert_eq|by rewrite lookup_insert_ne].
Qed.

(** The table of a cached block is written back and marked clean. *)
Lemma clean_inv blk c f f' k l t a :
  blocks_ok blk -> cache_inv blk c f -> cache_map c !! k = Some l -> tables c !! l = Some t -> blk k = Some a ->
  (forall x, ~ a <= x < a + cs -> bcontent f' x = bcontent f x) ->
  (forall i b, table_data t !! i = Some b -> bcontent f' (a + Z.of_nat i) = b) ->
  let c' := set_tables (<[l := clear_dirty t]> (tables c)) c in
  cache_inv blk c' f' /\ forall k, view blk c' f' k = view blk c f k.
Proof.
  intros [Hb1 Hb2] Hi Hl Ht Ha Hout Hin c'. pose proof Hi as [Hcells Hinj Hli Hca Hn Hlr Hm Hdlt].
  assert (cell_ok blk f k t) as Hok by (eapply cached_ok; [done|]; unfold cached; by rewrite Hl).
  assert (forall k' a' x, k' <> k -> blk k' = Some a' -> a' <= x < a' + cs -> bcontent f' x = bcontent f x) as Hfr.
  { intros k' a' x Hne Hk' Hx. apply Hout. destruct (Hb2 _ _ _ _ Hk' Ha Hne); lia. }
  split.
  - constructor; try done; simpl.
    + intros k' l' Hl'. destruct (decide (l' = l)) as [->|Hne].
      * rewrite (Hinj k' k l) by done. rewrite lookup_insert_eq. eexists. split; [done|].
        destruct Hok as [? ? ? ? ? Hdisk]. rewrite Ha in Hdisk. constructor; simpl; try done.
        rewrite Ha. split; [by destruct Hdisk|]. intros i b Hib _. by apply Hin.
      * rewrite lookup_insert_ne by done. destruct (Hcells k' l' Hl') as (t' & Ht' & Hok'). exists t'. split; [done|].
        destruct Hok' as [? ? ? ? ? Hdisk]. constructor; try done. destruct (blk k') as [a'|] eqn:Ek'; [|done].
        destruct Hdisk as [? Hdisk]. split; [done|]. intros i b Hib Hnd.
        rewrite (Hfr k' a'); [by apply Hdisk| |done|apply lookup_lt_Some in Hib; lia]. congruence.
    + intros k' l' Hl'. unfold c'. rewrite cell_dirty_set. case_decide; [done|]. by apply Hli with k'.
    + intros l' Hl'. unfold c'. rewrite cell_dirty_set. case_decide; [done|]. by apply Hca.
    + intros l'. rewrite lookup_insert_is_Some. intros [->|[_ ?]]; apply Hn; [by eexists|done].
  - intros k'. unfold view. destruct (blk k') as [a'|] eqn:Ek'; [|done]. simpl. f_equal. unfold c'.
    rewrite cached_set_tables. case_decide as Hd.
    + rewrite (Hinj k' k l Hd Hl). unfold cached. by rewrite Hl; simpl; rewrite Ht.
    + destruct (cached c k') as [?|] eqn:E; [done|]. apply ztab_ext. intros i ?. apply (Hfr k' a'); [|done|lia].
      intros ->. congruence.
Qed.

(** A clean block leaves the cache. *)
Lemma delete_inv blk c f k :
  cache_inv blk c f -> (forall l, cache_map c !! k = Some l -> cell_dirty c l = false) ->
  let c' := set_map (delete k (cache_map c)) c in
  cache_inv blk c' f /\ forall k', view blk c' f k' = view blk c f k'.
Proof.
  intros Hi Hcl c'. pose proof Hi as [Hcells Hinj Hli Hca Hn Hlr Hm Hdlt]. split.
  - constructor; try done; simpl.
    + intros k' l' [_ Hl']%lookup_delete_Some. by apply Hcells.
    + intros k1 k2 l [_ H1]%lookup_delete_Some [_ H2]%lookup_delete_Some. by eapply Hinj.
    + intros k' l' [_ Hl']%lookup_delete_Some. by apply Hli with k'.
    + intros l Hl Hd. destruct (Hca l Hl Hd) as [k' Hk']. exists k'. apply lookup_delete_Some. split; [|done].
      intros <-. specialize (Hcl l Hk'). unfold cell_dirty in *. simpl in Hd. congruence.
  - intros k'. unfold view, cached. simpl. destruct (decide (k = k')) as [<-|]; [|by rewrite lookup_delete_ne].
    rewrite lookup_delete_eq. simpl. destruct (blk k) as [a|] eqn:Ek; [|done]. simpl. f_equal.
    destruct (cache_map c !! k) as [l|] eqn:El; [|done]. simpl. destruct (Hcells k l El) as (t & Ht & Hok).
    rewrite Ht. destruct Hok as [_ Hlen _ _ Hd Hdisk]. rewrite Ek in Hdisk. destruct Hdisk as [_ Hdisk].
    specialize (Hcl l eq_refl). unfold cell_dirty in Hcl. rewrite Ht in Hcl. rewrite Hcl in Hd.
    apply list_eq_same_length with (Z.to_nat cs); [lia|by rewrite ztab_length|]. intros i x y Hic Hx Hy.
    rewrite ztab_lookup in Hx by lia. injection Hx as <-. apply Hdisk; [done|]. unfold in_dirty. rewrite Hd. simpl.
    unfold U64_MAX. lia.
Qed.

(** A new clean table enters the cache. *)
Lemma insert_inv blk c f k l t :
  cache_inv blk c f -> tables c !! l = Some t -> cell_ok blk f k t -> is_dirty (dirty_info t) = false ->
  (forall k', cache_map c !! k' <> Some l) -> cache_map c !! k = None ->
  let c' := set_map (<[k := l]> (cache_map c)) c in
  cache_inv blk c' f /\ (forall k', k' <> k -> view blk c' f k' = view blk c f k') /\
  (forall a, blk k = Some a -> view blk c' f k = Some (table_data t)) /\ cached c' k = Some t.
Proof.
  intros Hi Ht Hok Hcl Hfresh Hnone c'. pose proof Hi as [Hcells Hinj Hli Hca Hn Hlr Hm Hdlt].
  assert (cached c' k = Some t) as Hc by (unfold cached; simpl; by rewrite lookup_insert_eq).
  split_and!; [| | |done].
  - constructor; try done; simpl.
    + intros k' l' [[<- <-]|[? Hl']]%lookup_insert_Some; [by exists t|by apply Hcells].
    + intros k1 k2 l0 [[<- <-]|[? H1]]%lookup_insert_Some [[E E']|[? H2]]%lookup_insert_Some; try congruence;
        try (exfalso; eapply Hfresh; by subst). by eapply Hinj.
    + intros k' l' [[<- <-]|[? Hl']]%lookup_insert_Some Hd; [|by eapply Hli].
      unfold cell_dirty in Hd. simpl in Hd. rewrite Ht in Hd. congruence.
    + intros l' Hl' Hd. destruct (Hca l' Hl' Hd) as [k' Hk']. exists k'. rewrite lookup_insert_ne; [done|].
      intros <-. congruence.
  - intros k' Hne. unfold view, cached. simpl. by rewrite lookup_insert_ne.
  - intros a Ha. unfold view. by rewrite Ha, Hc.
Qed.

(** A cached block is changed. *)
Lemma write_inv blk c f k l t t' a :
  cache_inv blk c f -> cache_map c !! k = Some l -> tables c !! l = Some t -> blk k = Some a ->
  entry_size t' = esize -> length (table_data t') = length (table_data t) -> is_bytes (table_data t') ->
  lru_count t' = lru_count t -> addr t' = addr t -> is_dirty (dirty_info t') = true ->
  0 <= start (dirty_info t') < end_ (dirty_info t') /\ end_ (dirty_info t') <= cs ->
  (forall i, ~ in_dirty t' (Z.of_nat i) -> ~ in_dirty t (Z.of_nat i) /\ table_data t' !! i = table_data t !! i) ->
  let c1 := set_tables (<[l := t']> (tables c)) c in
  let c' := if is_dirty (dirty_info t) then c1 else add_dirty_table l c1 in
  cache_inv blk c' f /\ (forall k', k' <> k -> view blk c' f k' = view blk c f k') /\
  view blk c' f k = Some (table_data t').
Proof.
  intros Hi Hl Ht Ha He Hlen Hby Hlru Had Hdt Hdr Hsame c1 c'. pose proof Hi as [Hcells Hinj Hli Hca Hn Hlr Hm Hdlt].
  assert (cell_ok blk f k t) as Hok by (eapply cached_ok; [done|]; unfold cached; by rewrite Hl).
  assert (cell_ok blk f k t') as Hok'.
  { destruct Hok as [? Hlen0 ? ? ? Hdisk]. rewrite Ha in Hdisk. constructor; [done|by rewrite Hlen|done|lia|by rewrite Hdt|].
    rewrite Ha, Had. split; [by destruct Hdisk|]. intros i b Hib Hnd. destruct (Hsame i Hnd) as [Hnd' Hsi].
    rewrite Hsi in Hib. by apply Hdisk. }
  assert (tables c' = <[l := t']> (tables c) /\ cache_map c' = cache_map c /\ next_cell c' = next_cell c /\
    cache_lru c' = cache_lru c /\ max_size c' = max_size c) as (Et & Em & En & El & Ex)
    by (unfold c', add_dirty_table; by destruct (is_dirty (dirty_info t))).
  assert (forall l', l' ∈ dirty_tables c' <-> l' ∈ dirty_tables c \/ is_dirty (dirty_info t) = false /\ l' = l) as Hdl.
  { intros l'. unfold c', add_dirty_table. destruct (is_dirty (dirty_info t)); simpl; [naive_solver|].
    rewrite elem_of_app, list_elem_of_singleton. naive_solver. }
  assert (forall l', cell_dirty c' l' = if decide (l' = l) then true else cell_dirty c l') as Hcd.
  { intros l'. unfold cell_dirty. rewrite Et. case_decide; [by subst; rewrite lookup_insert_eq|by rewrite lookup_insert_ne]. }
  assert (forall k', cached c' k' = if decide (k' = k) then Some t' else cached c k') as Hcc.
  { intros k'. unfold cached. rewrite Et, Em. case_decide as Hd; [subst; by rewrite Hl; simpl; rewrite lookup_insert_eq|].
    destruct (cache_map c !! k') as [l'|] eqn:E; [|done]. simpl. rewrite lookup_insert_ne; [done|]. intros <-. by eapply Hd, Hinj. }
  split_and!.
  - constructor; rewrite ?Em, ?En, ?El, ?Ex; try done.
    + intros k' l' Hl'. rewrite Et. destruct (decide (l' = l)) as [->|].
      * rewrite lookup_insert_eq. exists t'. by rewrite (Hinj k' k l).
      * rewrite lookup_insert_ne by done. by apply Hcells.
    + intros k' l' Hl'. rewrite Hcd, Hdl. case_decide as Hd; [|left; by eapply Hli]. subst. intros _.
      destruct (is_dirty (dirty_info t)) eqn:E; [left|by right]. apply Hli with k; [done|].
      unfold cell_dirty. by rewrite Ht.
    + intros l'. rewrite Hcd, Hdl. case_decide; [subst; by exists k|]. intros [?|[_ ->]]; [by apply Hca|done].
    + intros l'. rewrite Et, lookup_insert_is_Some. intros [->|[_ ?]]; apply Hn; [by eexists|done].
    + intros l'. rewrite Hdl. intros [?|[_ ->]]; [by apply Hdlt|]. apply Hn. by eexists.
  - intros k' Hne. unfold view. rewrite Hcc. by rewrite decide_False.
  - unfold view. by rewrite Hcc, decide_True, Ha.
Qed.

(** *** Writing back *)

(** The part of a file a cache lives in: no request to it fails. *)
Record file_ok (blk : Z -> option Z) f : Prop := mkFileOk {
  fo_healthy : bhealthy f;
  fo_len : (balign | blen f);
  fo_blocks : forall k a, blk k = Some a -> a + cs <= blen f
}.

(** A file changed inside the given range only. *)
Record changed_in (P : Z -> Prop) f f' : Prop := mkChanged {
  ch_out : forall x, ~ P x -> bcontent f' x = bcontent f x;
  ch_len : blen f' = blen f;
  ch_healthy : bhealthy f'
}.

Lemma write_back_cell blk f k t a :
  blocks_ok blk -> file_ok blk f -> cell_ok blk f k t -> blk k = Some a -> is_dirty (dirty_info t) = true ->
  exists f', write_dirty_info (addr t) (table_data t) (start (dirty_info t)) (end_ (dirty_info t)) f = (f', Ok tt) /\
    changed_in (fun x => a <= x < a + cs) f f' /\
    (forall i b, table_data t !! i = Some b -> bcontent f' (a + Z.of_nat i) = b).
Proof.
  intros [Hb1 _] [Hh Hal Hin] [He Hlen Hby _ Hd Hdisk] Ha Hdirty. rewrite Hdirty in Hd. rewrite Ha in Hdisk.
  destruct Hdisk as [-> Hdisk]. destruct (Hb1 k a Ha) as [Ha0 Ha1]. specialize (Hin k a Ha).
  destruct (write_dirty_info_eq a (table_data t) (start (dirty_info t)) (end_ (dirty_info t)) f)
    as (s' & e' & Hs & Hee & _ & _ & ->); [lia|lia|by rewrite Hlen|lia|lia|].
  set (buf := slice _ _ _). assert (Z.of_nat (length buf) = e' - s') as Hbl by (subst buf; rewrite slice_length; lia).
  destruct (write_buffer (a + s') buf f) as [f' r] eqn:Ew.
  apply write_buffer_law in Ew as (Wout & _ & _ & Wok & Wh); [|by apply is_bytes_slice|intros Hn; rewrite Hn in Hbl; simpl in Hbl; lia|lia|lia].
  destruct Wh as (Hh' & -> & Hl'); [done..|right; lia|]. exists f'. split; [done|]. split.
  - constructor; [|rewrite Hl'; lia|done]. intros x Hx. apply Wout. lia.
  - intros i b Hib. pose proof (lookup_lt_Some _ _ _ Hib). destruct (decide (s' <= Z.of_nat i < e')) as [Hr|Hr].
    + specialize (Wok eq_refl (i - Z.to_nat s')%nat b). replace (a + s' + _) with (a + Z.of_nat i) in Wok by lia.
      apply Wok. subst buf. rewrite lookup_slice, decide_True by lia. rewrite <-Hib. f_equal. lia.
    + rewrite Wout by lia. apply Hdisk; [done|]. unfold in_dirty. lia.
Qed.

(** Ranges of blocks. *)
Definition in_blocks (blk : Z -> option Z) (x : Z) : Prop := exists k a, blk k = Some a /\ a <= x < a + cs.

Lemma changed_in_mono (P Q : Z -> Prop) f f' : (forall x, P x -> Q x) -> changed_in P f f' -> changed_in Q f f'.
Proof. intros HPQ [Ho Hl Hh]. constructor; [|done..]. intros x Hx. apply Ho. auto. Qed.
Lemma changed_in_trans (P : Z -> Prop) f1 f2 f3 : changed_in P f1 f2 -> changed_in P f2 f3 -> changed_in P f1 f3.
Proof.
  intros [Ho1 Hl1 Hh1] [Ho2 Hl2 Hh2]. constructor; [|by rewrite Hl2|done]. intros x Hx. by rewrite Ho2, Ho1.
Qed.
Lemma changed_in_refl (P : Z -> Prop) f : bhealthy f -> changed_in P f f.
Proof. by constructor. Qed.
Lemma file_ok_changed (P : Z -> Prop) blk f f' : file_ok blk f -> changed_in P f f' -> file_ok blk f'.
Proof. intros [? ? ?] [? Hl ?]. by constructor; rewrite ?Hl. Qed.

Lemma flush_loop_spec blk c ls ts f :
  blocks_ok blk -> file_ok blk f -> cache_inv blk (set_tables ts c) f ->
  (forall l, l ∈ ls -> l ∈ dirty_tables c) ->
  exists f' ts', flush_loop ls ts (Ok tt) f = (f', ts', Ok tt) /\ changed_in (in_blocks blk) f f' /\
    cache_inv blk (set_tables ts' c) f' /\
    (forall k, view blk (set_tables ts' c) f' k = view blk (set_tables ts c) f k) /\
    (forall l, cell_dirty (set_tables ts' c) l = true -> cell_dirty (set_tables ts c) l = true /\ l ∉ ls).
Proof.
  intros Hb. revert ts f. induction ls as [|l ls IH]; intros ts f Hf Hi Hsub.
  { exists f, ts. split_and!; try done; [by apply changed_in_refl; destruct Hf|]. intros l Hl. split; [done|]. by apply not_elem_of_nil. }
  assert (forall l', l' ∈ ls -> l' ∈ dirty_tables c) as Hsub' by (intros; apply Hsub; by right).
  simpl. destruct (ts !! l) as [t|] eqn:Et.
  2:{ destruct (IH ts f Hf Hi Hsub') as (f' & ts' & Hr & Hch & Hi' & Hv & Hcl). exists f', ts'. split_and!; try done.
      intros l' Hl'. destruct (Hcl l' Hl') as [Hd Hn]. split; [done|]. intros [->|?]%elem_of_cons; [|done].
      unfold cell_dirty in Hd. simpl in Hd. by rewrite Et in Hd. }
  destruct (is_dirty (dirty_info t)) eqn:Ed.
  - assert (cell_dirty (set_tables ts c) l = true) as Hd by (unfold cell_dirty; simpl; by rewrite Et).
    destruct (ci_cached _ _ _ Hi l) as [k Hk]; [apply Hsub; by left|done|].
    assert (cell_ok blk f k t) as Hok by (eapply cached_ok; [done|]; unfold cached; simpl in *; by rewrite Hk).
    destruct (blk k) as [a|] eqn:Ha; [|destruct Hok as [_ _ _ _ _ Hdisk]; rewrite Ha in Hdisk; congruence].
    destruct (write_back_cell blk f k t a) as (f1 & -> & Hch1 & Hw); [done..|].
    destruct (clean_inv blk (set_tables ts c) f f1 k l t a) as [Hi1 Hv1]; try done; [apply Hch1|].
    assert (changed_in (in_blocks blk) f f1) as Hch1'.
    { eapply changed_in_mono; [|done]. intros x Hx. by exists k, a. }
    destruct (IH (<[l := clear_dirty t]> ts) f1) as (f' & ts' & Hr & Hch & Hi' & Hv & Hcl);
      [by eapply file_ok_changed|done..|].
    exists f', ts'. split_and!; [done|by eapply changed_in_trans|done|intros k'; by rewrite Hv, <-Hv1|].
    intros l' Hl'. destruct (Hcl l' Hl') as [Hd' Hn]. unfold cell_dirty in Hd'. simpl in Hd'.
    destruct (decide (l' = l)) as [->|Hne]; [by rewrite lookup_insert_eq in Hd'|].
    rewrite lookup_insert_ne in Hd' by done. split; [done|]. by intros [->|?]%elem_of_cons.
  - destruct (IH ts f Hf Hi Hsub') as (f' & ts' & Hr & Hch & Hi' & Hv & Hcl). exists f', ts'. split_and!; try done.
    intros l' Hl'. destruct (Hcl l' Hl') as [Hd Hn]. split; [done|]. intros [->|?]%elem_of_cons; [|done].
    unfold cell_dirty in Hd. simpl in Hd. rewrite Et in Hd. congruence.
Qed.

(** After a flush every block on disk holds what its owner sees. *)
Lemma cache_flush_spec blk c f :
  blocks_ok blk -> file_ok blk f -> cache_inv blk c f ->
  exists c' f', cache_flush (c, f) = (c', f', Ok tt) /\ cache_inv blk c' f' /\
    (forall k, view blk c' f' k = view blk c f k) /\ changed_in (in_blocks blk) f f' /\
    (forall k a, blk k = Some a -> view blk c' f' k = Some (ztab (bcontent f') a (Z.to_nat cs))) /\
    (forall k, ~ dirty_key c' k).
Proof.
  intros Hb Hf Hi. assert (cache_inv blk (set_tables (tables c) c) f) as Hi0 by by destruct c.
  destruct (flush_loop_spec blk c (dirty_tables c) (tables c) f) as (f' & ts' & Hr & Hch & Hi' & Hv & Hcl); try done.
  assert (forall k l, cache_map c !! k = Some l -> cell_dirty (set_tables ts' c) l = false) as Hclean.
  { intros k l Hl. apply not_true_is_false. intros Hd. destruct (Hcl l Hd) as [_ Hn]. apply Hn.
    by apply (ci_listed _ _ _ Hi' k l). }
  set (c' := mkCache (max_size c) (cache_lru c) (cache_map c) [] ts' (next_cell c)).
  assert (cache_inv blk c' f') as Hi2.
  { destruct Hi' as [Hcells Hinj Hli Hca Hn Hlr Hm Hdlt]. constructor; try done.
    - intros k l Hl Hd. simpl in *. specialize (Hclean k l Hl). unfold cell_dirty in *. simpl in *. congruence.
    - intros l Hl. by apply not_elem_of_nil in Hl.
    - intros l Hl. by apply not_elem_of_nil in Hl. }
  exists c', f'. split_and!; [|done| |done| |].
  4:{ intros k (l & Hl & Hd). specialize (Hclean k l Hl). unfold cell_dirty in *. simpl in *. congruence. }
  - unfold cache_flush. by rewrite Hr.
  - intros k. exact (Hv k).
  - intros k a Ha. unfold view. rewrite Ha. simpl. f_equal. destruct (cached c' k) as [t|] eqn:Ec; [|done].
    pose proof (cached_ok _ _ _ _ _ Hi2 Ec) as [_ Hlen _ _ Hd Hdisk]. unfold cached in Ec.
    apply bind_Some in Ec as (l & Hl & Ht). specialize (Hclean k l Hl). unfold cell_dirty in Hclean. simpl in *.
    rewrite Ht in Hclean. rewrite Hclean in Hd. rewrite Ha in Hdisk. destruct Hdisk as [_ Hdisk].
    apply list_eq_same_length with (Z.to_nat cs); [by rewrite ztab_length|lia|]. intros i x y Hic Hx Hy.
    rewrite ztab_lookup in Hy by lia. injection Hy as <-. symmetry. apply Hdisk; [done|].
    unfold in_dirty. rewrite Hd. simpl. unfold U64_MAX. lia.
Qed.

(** *** Lookup and replacement *)

Lemma lru_only_trans c1 c2 c3 : lru_only c1 c2 -> lru_only c2 c3 -> lru_only c1 c3.
Proof.
  intros [M1 D1 N1 X1 T1 B1 L1] [M2 D2 N2 X2 T2 B2 L2]. constructor; [congruence..| | |done].
  - intros l. by rewrite T2.
  - intros l t' Ht' Hb. apply (B2 l t' Ht'). intros t2 Ht2. by apply (B1 l t2).
Qed.

Lemma touch_check_lru l c : 0 <= cache_lru c < 2 ^ 64 -> lru_only c (touch l (check_refcount c)).
Proof.
  intros Hl. destruct (check_refcount_lru c Hl) as [H1 H2]. eapply lru_only_trans; [done|]. by apply touch_lru.
Qed.

Lemma cache_get_spec c k l :
  0 <= cache_lru c < 2 ^ 64 -> cache_map c !! k = Some l ->
  exists c', cache_get k c = (c', Some l) /\ lru_only c c'.
Proof.
  intros Hl Hk. unfold cache_get. destruct (check_refcount_lru c Hl) as [H1 H2].
  rewrite (lo_map _ _ H1), Hk. eexists. split; [done|]. by apply touch_check_lru.
Qed.
Lemma cache_get_lookup c k :
  0 <= cache_lru c < 2 ^ 64 -> exists c', cache_get k c = (c', cache_map c !! k) /\ lru_only c c'.
Proof.
  intros Hl. destruct (cache_map c !! k) as [l|] eqn:Hk; [by apply cache_get_spec|]. unfold cache_get.
  destruct (check_refcount_lru c Hl) as [H1 H2]. rewrite (lo_map _ _ H1), Hk. by eexists.
Qed.

(** The victim of a full cache is one of its entries. *)
Lemma lru_victim_spec c :
  (forall k l, cache_map c !! k = Some l -> exists t, tables c !! l = Some t /\ lru_count t < U64_MAX) ->
  cache_map c <> ∅ -> exists k l, lru_victim c = (k, Some l) /\ cache_map c !! k = Some l.
Proof.
  intros Hcells Hne. unfold lru_victim.
  assert (forall e, e ∈ map_iter (cache_map c) -> cache_map c !! e.1 = Some e.2) as Hin.
  { intros [k l] He. rewrite map_iter_perm in He. by apply elem_of_map_to_list in He. }
  assert (map_iter (cache_map c) <> []) as Hnil.
  { intros E. apply Hne. apply map_to_list_empty_iff. apply Permutation_nil_r. by rewrite <-E, map_iter_perm. }
  remember (map_iter (cache_map c)) as es. clear Heqes.
  assert (forall es acc,
    (forall e, e ∈ es -> cache_map c !! e.1 = Some e.2) ->
    (acc = (U64_MAX, (0, None)) /\ es <> [] \/ exists n k l, acc = (n, (k, Some l)) /\ cache_map c !! k = Some l) ->
    exists n k l, foldl (lru_step (tables c)) acc es = (n, (k, Some l)) /\ cache_map c !! k = Some l) as Hfold.
  { clear es Hin Hnil. induction es as [|[k l] es IH]; intros acc Hes Hacc; simpl.
    - destruct Hacc as [[_ ?]|?]; done.
    - apply IH; [intros; apply Hes; by right|]. right. pose proof (Hes (k, l) ltac:(by left)) as Hk. simpl in Hk.
      destruct (Hcells k l Hk) as (t & Ht & Hlt). unfold lru_step. simpl. rewrite Ht.
      destruct Hacc as [[-> _]|(n & k0 & l0 & -> & ?)]; simpl.
      + rewrite (proj2 (Z.ltb_lt _ _)) by done. by exists (lru_count t), k, l.
      + destruct (_ <? _); [by exists (lru_count t), k, l|by exists n, k0, l0]. }
  destruct (Hfold es (U64_MAX, (0, None)) Hin ltac:(by left)) as (n & k & l & -> & ?). by exists k, l.
Qed.

(** What the replacement needs: use counts below the bound, and room for one
    table. *)
Definition lru_ready c : Prop :=
  (forall k l, cache_map c !! k = Some l -> exists t, tables c !! l = Some t /\ lru_count t < U64_MAX) /\
  0 <= cache_lru c < 2 ^ 64 /\ (1 <= max_size c)%nat.
Lemma inv_ready blk c f : cache_inv blk c f -> lru_ready c.
Proof.
  intros [Hcells _ _ _ _ Hl Hm _]. split; [|by split]. intros k l Hkl. destruct (Hcells k l Hkl) as (t & ? & Hok).
  exists t. split; [done|apply Hok].
Qed.
Lemma lru_replace_ready c k l :
  lru_ready c ->
  exists c1, lru_only c c1 /\
    (lru_replace k l c = (set_map (<[k := l]> (cache_map c)) c1, None) \/
     exists k' l', cache_map c !! k' = Some l' /\
       lru_replace k l c = (set_map (<[k := l]> (delete k' (cache_map c))) c1, Some l')).
Proof.
  clear Hcs Hcs0. intros (Hcells & Hlru & Hmax). pose proof (touch_check_lru l c Hlru) as Hlo. exists (touch l (check_refcount c)).
  split; [done|]. unfold lru_replace. rewrite (lo_map _ _ Hlo).
  destruct (Nat.ltb_spec (base.size (cache_map c)) (max_size (touch l (check_refcount c)))) as [|Hfull]; [by left|].
  right. rewrite (lo_max _ _ Hlo) in Hfull.
  destruct (lru_victim_spec (touch l (check_refcount c))) as (k' & l' & -> & Hk').
  - intros k0 l0 Hk0. rewrite (lo_map _ _ Hlo) in Hk0. destruct (Hcells k0 l0 Hk0) as (t & Ht & Hc).
    destruct (lru_only_cell _ _ _ _ Hlo Ht) as (t' & Ht' & _). exists t'. split; [done|].
    apply (lo_bound _ _ Hlo l0 t' Ht'). intros t0 Ht0. congruence.
  - rewrite (lo_map _ _ Hlo). intros E. rewrite E, map_size_empty in Hfull. lia.
  - rewrite (lo_map _ _ Hlo) in Hk'. by exists k', l'.
Qed.
Lemma lru_replace_cases blk c f k l :
  cache_inv blk c f ->
  exists c1, lru_only c c1 /\
    (lru_replace k l c = (set_map (<[k := l]> (cache_map c)) c1, None) \/
     exists k' l', cache_map c !! k' = Some l' /\
       lru_replace k l c = (set_map (<[k := l]> (delete k' (cache_map c))) c1, Some l')).
Proof. intros Hi. apply lru_replace_ready. by eapply inv_ready. Qed.

(** A new cell. *)
Lemma new_cell_inv blk c f t :
  cache_inv blk c f -> let c' := (new_cell t c).1 in
  cache_inv blk c' f /\ (forall k, view blk c' f k = view blk c f k) /\
  tables c' !! (new_cell t c).2 = Some t /\ (forall k, cache_map c' !! k <> Some (new_cell t c).2) /\
  cache_map c' = cache_map c.
Proof.
  intros [Hcells Hinj Hli Hca Hn Hlr Hm Hdlt] c'. simpl.
  assert (forall k l, cache_map c !! k = Some l -> l <> next_cell c) as Hne.
  { intros k l Hl ->. destruct (Hcells k _ Hl) as (t' & Ht' & _). specialize (Hn (next_cell c) ltac:(by eexists)). lia. }
  assert (forall l, l <> next_cell c -> cell_dirty c' l = cell_dirty c l) as Hcd.
  { intros l Hl. unfold cell_dirty. simpl. by rewrite lookup_insert_ne. }
  split_and!.
  - constructor; try done; simpl.
    + intros k l Hl. rewrite lookup_insert_ne by (intros E; by eapply Hne). by apply Hcells.
    + intros k l Hl. rewrite Hcd by (by eapply Hne). by apply Hli with k.
    + intros l Hl. rewrite Hcd by (apply Hdlt in Hl; lia). by apply Hca.
    + intros l [->|[_ Hs]]%lookup_insert_is_Some; [lia|]. apply Hn in Hs. lia.
    + intros l Hl. apply Hdlt in Hl. lia.
  - intros k. unfold view, cached. simpl. destruct (blk k); [|done]. simpl. f_equal.
    destruct (cache_map c !! k) as [l|] eqn:El; [|done]. simpl. rewrite lookup_insert_ne; [done|]. intros E. by eapply Hne.
  - apply lookup_insert_eq.
  - intros k Hk. by eapply Hne.
  - done.
Qed.

(** Another block map that differs at the key [k]. *)
Lemma blk_change_inv blk blk' c f k :
  cache_inv blk c f -> (forall k', k' <> k -> blk' k' = blk k') ->
  (forall t, cached c k = Some t -> cell_ok blk f k t -> cell_ok blk' f k t) ->
  cache_inv blk' c f /\ forall k', k' <> k -> view blk' c f k' = view blk c f k'.
Proof.
  intros [Hcells Hinj Hli Hca Hn Hlr Hm Hdlt] Hblk Hk. split; [|intros k' Hne; unfold view; by rewrite Hblk].
  constructor; try done. intros k' l Hl. destruct (Hcells k' l Hl) as (t & Ht & Hok). exists t. split; [done|].
  destruct (decide (k' = k)) as [->|Hne]; [apply Hk; [unfold cached; by rewrite Hl|done]|].
  destruct Hok as [? ? ? ? ? Hdisk]. constructor; try done. by rewrite Hblk.
Qed.
Lemma vanish_inv blk blk' c f k :
  cache_inv blk c f -> (forall k', k' <> k -> blk' k' = blk k') -> blk' k = None -> ~ dirty_key c k ->
  cache_inv blk' c f /\ forall k', k' <> k -> view blk' c f k' = view blk c f k'.
Proof.
  intros Hi Hblk Hk Hnd. apply (blk_change_inv _ _ _ _ k); [done..|]. intros t Ht [? ? ? ? ? _]. constructor; try done.
  rewrite Hk. apply not_true_is_false. intros Hd. apply Hnd. apply bind_Some in Ht as (l & Hl & Ht). exists l. split; [done|].
  unfold cell_dirty. by rewrite Ht.
Qed.

(** The clean table of a key without a block is replaced by another one. *)
Lemma clean_cell_inv blk c f k l t t' :
  cache_inv blk c f -> cache_map c !! k = Some l -> tables c !! l = Some t -> blk k = None ->
  cell_ok blk f k t' ->
  let c' := set_tables (<[l := t']> (tables c)) c in
  cache_inv blk c' f /\ (forall k', view blk c' f k' = view blk c f k') /\ (forall k', dirty_key c' k' -> dirty_key c k').
Proof.
  intros Hi Hl Ht Hk Hok' c'. pose proof Hi as [Hcells Hinj Hli Hca Hn Hlr Hm Hdlt].
  assert (is_dirty (dirty_info t') = false) as Hcl by (destruct Hok' as [_ _ _ _ _ Hd]; by rewrite Hk in Hd).
  split_and!.
  - constructor; try done; simpl.
    + intros k' l' Hl'. destruct (decide (l' = l)) as [->|Hne].
      * rewrite (Hinj k' k l) by done. rewrite lookup_insert_eq. by exists t'.
      * rewrite lookup_insert_ne by done. by apply Hcells.
    + intros k' l' Hl'. unfold c'. rewrite cell_dirty_set. case_decide; [congruence|]. by apply Hli with k'.
    + intros l' Hl'. unfold c'. rewrite cell_dirty_set. case_decide; [congruence|]. by apply Hca.
    + intros l'. rewrite lookup_insert_is_Some. intros [->|[_ ?]]; apply Hn; [by eexists|done].
  - intros k'. unfold view. destruct (blk k') as [a'|] eqn:Ek'; [|done]. simpl. unfold c'. rewrite cached_set_tables.
    rewrite decide_False; [done|]. intros E. rewrite (Hinj k' k l E Hl) in Ek'. congruence.
  - intros k' (l' & Hl' & Hd). exists l'. split; [done|]. unfold c' in Hd. rewrite cell_dirty_set in Hd.
    case_decide; [congruence|done].
Qed.

Lemma lru_only_set_map c1 c2 m : lru_only c1 c2 -> lru_only (set_map m c1) (set_map m c2).
Proof. intros []. by constructor. Qed.

(** A new clean table for the key [k] replaces a cached one: the state after
    the replaced table [l'] of [k'] has been written back and cleaned. *)
Lemma replace_inv blk c f f' k l t k' l' t' a' :
  blocks_ok blk ->
  cache_inv blk (set_map (delete k (cache_map c)) c) f ->
  tables c !! l = Some t -> is_dirty (dirty_info t) = false -> (forall k0, cache_map c !! k0 <> Some l) ->
  cell_ok blk f' k t ->
  k' <> k -> cache_map c !! k' = Some l' -> tables c !! l' = Some t' -> blk k' = Some a' ->
  changed_in (fun x => a' <= x < a' + cs) f f' ->
  (forall i b, table_data t' !! i = Some b -> bcontent f' (a' + Z.of_nat i) = b) ->
  let c' := set_tables (<[l' := clear_dirty t']> (tables c)) (set_map (<[k := l]> (delete k' (cache_map c))) c) in
  cache_inv blk c' f' /\
  (forall k0, k0 <> k -> view blk c' f' k0 = view blk (set_map (delete k (cache_map c)) c) f k0) /\
  (forall a, blk k = Some a -> view blk c' f' k = Some (table_data t)) /\
  cache_map c' !! k = Some l /\ tables c' !! l = Some t.
Proof.
  intros Hb Hi Ht Hcl Hfresh Hok Hne Hk' Ht' Ha' Hch Hw c'.
  assert (l <> l') as Hll by (intros ->; by apply (Hfresh k')).
  destruct (clean_inv blk (set_map (delete k (cache_map c)) c) f f' k' l' t' a') as [Hi1 Hv1]; try done;
    [by simpl; rewrite lookup_delete_ne|apply Hch|].
  set (c1 := set_tables _ _) in Hi1, Hv1.
  destruct (delete_inv blk c1 f' k') as [Hi2 Hv2]; [done| |].
  { intros l0. simpl. rewrite lookup_delete_ne, Hk' by done. intros [= <-]. unfold cell_dirty, c1. simpl.
    by rewrite lookup_insert_eq. }
  set (c2 := set_map _ c1) in Hi2, Hv2.
  destruct (insert_inv blk c2 f' k l t) as (Hi3 & Hv3 & Hv4 & _); try done.
  { simpl. by rewrite lookup_insert_ne. }
  { intros k0. simpl. intros [_ [_ Hk0]%lookup_delete_Some]%lookup_delete_Some. by eapply Hfresh. }
  { simpl. rewrite lookup_delete_ne, lookup_delete_eq by done. done. }
  assert (set_map (<[k := l]> (cache_map c2)) c2 = c') as E.
  { unfold c2, c1, c', set_map, set_tables. simpl. f_equal. rewrite delete_delete.
    by rewrite insert_delete_eq. }
  rewrite E in *. split_and!; [done| |done|unfold c'; simpl; by rewrite lookup_insert_eq|unfold c'; simpl; by rewrite lookup_insert_ne].
  intros k0 Hk0. by rewrite Hv3, Hv2, Hv1.
Qed.
Lemma cell_ok_frame b f f' k t k' a' :
  blocks_ok b -> b k' = Some a' -> k' <> k -> changed_in (fun x => a' <= x < a' + cs) f f' ->
  cell_ok b f k t -> cell_ok b f' k t.
Proof.
  intros [_ Hb] Ha' Hne [Ho _ _] [? Hlen ? ? ? Hd]. constructor; try done.
  destruct (b k) as [a|] eqn:Ea; [|done]. destruct Hd as [? Hd]. split; [done|]. intros i x Hx Hn.
  rewrite Ho; [by apply Hd|]. apply lookup_lt_Some in Hx. destruct (Hb _ _ _ _ Ha' Ea Hne); lia.
Qed.
Lemma cell_ok_lru b f k t t' :
  set_lru 0 t' = set_lru 0 t -> lru_count t' < U64_MAX -> cell_ok b f k t -> cell_ok b f k t'.
Proof.
  intros E Hl [? ? ? ? Hd Hdisk]. apply set_lru_data in E as (Ed & Ea & Es & Et).
  constructor; rewrite ?Es, ?Et, ?Ed; try done. unfold in_dirty in *. by rewrite Ea, Ed.
Qed.

(** The cache without the key [k]. *)
Definition minus (k : Z) (c : Qcow2Cache) : Qcow2Cache := set_map (delete k (cache_map c)) c.

Lemma minus_none k c : cache_map c !! k = None -> minus k c = c.
Proof. intros. unfold minus. rewrite delete_id by done. by destruct c. Qed.

End spec.
