(* ===== verification/Qcow2Refcount.v ===== *)
(** * Reference counts of a qcow2 image ([block_backend/src/qcow2/refcount.rs])

    Every cluster of the image file has a 16-bit reference count in a refcount
    block; the refcount table points to the blocks, which are cached and
    written back.  The state is the header, the [RefCount] structure and the
    image file. *)
From stdpp Require Import prelude list gmap.
From Stdlib Require Import ZArith Lia.
From S2P Require Import Prelude NumOps Qcow2Header SyncAio Qcow2Io Qcow2Cache.

Definition MAX_REFTABLE_NUM : Z := 4.
Definition REFCOUNT_TABLE_OFFSET_MASK : Z := 0xfffffffffffffe00.

Inductive Qcow2DiscardType := DNever | DAlways | DRequest | DSnapshot | DOther.
#[export] Instance Qcow2DiscardType_eq_dec : EqDecision Qcow2DiscardType.
Proof. solve_decision. Defined.

Record DiscardTask := mkTask { task_offset : Z; task_nbytes : Z }.

Definition is_overlap (self task : DiscardTask) : bool :=
  negb ((wadd 64 (task_offset task) (task_nbytes task) <? task_offset self)
        || (wadd 64 (task_offset self) (task_nbytes self) <? task_offset task)).

Definition merge_task (self task : DiscardTask) : DiscardTask :=
  let offset := Z.min (task_offset self) (task_offset task) in
  let end_offset := Z.max (wadd 64 (task_offset self) (task_nbytes self))
                      (wadd 64 (task_offset task) (task_nbytes task)) in
  mkTask offset (wsub 64 end_offset offset).

Record RefCount := mkRefCount {
  refcount_table : list Z;
  refcount_blk_cache : Qcow2Cache;
  discard_list : list DiscardTask;
  discard_passthrough : list Qcow2DiscardType;
  free_cluster_index : Z;
  rt_offset : Z;
  rt_clusters : Z;
  rt_size : Z;
  refcount_blk_bits : Z;
  refcount_blk_size : Z;
  refcount_max : Z;
  rc_cluster_size : Z;
  rc_cluster_bits : Z
}.

Definition set_table (t : list Z) (r : RefCount) : RefCount :=
  mkRefCount t (refcount_blk_cache r) (discard_list r) (discard_passthrough r) (free_cluster_index r)
    (rt_offset r) (rt_clusters r) (rt_size r) (refcount_blk_bits r) (refcount_blk_size r) (refcount_max r)
    (rc_cluster_size r) (rc_cluster_bits r).
Definition set_cache (c : Qcow2Cache) (r : RefCount) : RefCount :=
  mkRefCount (refcount_table r) c (discard_list r) (discard_passthrough r) (free_cluster_index r)
    (rt_offset r) (rt_clusters r) (rt_size r) (refcount_blk_bits r) (refcount_blk_size r) (refcount_max r)
    (rc_cluster_size r) (rc_cluster_bits r).
Definition set_discards (d : list DiscardTask) (r : RefCount) : RefCount :=
  mkRefCount (refcount_table r) (refcount_blk_cache r) d (discard_passthrough r) (free_cluster_index r)
    (rt_offset r) (rt_clusters r) (rt_size r) (refcount_blk_bits r) (refcount_blk_size r) (refcount_max r)
    (rc_cluster_size r) (rc_cluster_bits r).
Definition set_free (i : Z) (r : RefCount) : RefCount :=
  mkRefCount (refcount_table r) (refcount_blk_cache r) (discard_list r) (discard_passthrough r) i
    (rt_offset r) (rt_clusters r) (rt_size r) (refcount_blk_bits r) (refcount_blk_size r) (refcount_max r)
    (rc_cluster_size r) (rc_cluster_bits r).

Definition RefCount_new : RefCount := mkRefCount [] Qcow2Cache_default [] [] 0 0 0 0 0 0 0 0 0.

(** The [discard] and [refcount_cache_size] of the block properties. *)
Definition init_refcount_info (header : QcowHeader) (conf_discard : bool) (conf_cache : option Z)
    (self : RefCount) : RefCount :=
  let refcount_bits := wshl 32 1 (refcount_order header) in
  let half := wshl 64 1 (wsub 32 refcount_bits 1) in
  let blk_bits := wsub 32 (wadd 32 (cluster_bits header) 3) (refcount_order header) in
  let sz := match conf_cache with Some n => n / cluster_size header | None => MAX_REFTABLE_NUM end in
  mkRefCount (refcount_table self) (Qcow2Cache_new (Z.to_nat sz)) (discard_list self)
    (discard_passthrough self ++ DAlways :: (if conf_discard then [DRequest; DSnapshot] else []))
    (free_cluster_index self)
    (refcount_table_offset header) (refcount_table_clusters header)
    (wmul 64 (refcount_table_clusters header) (cluster_size header) / ENTRY_SIZE)
    blk_bits (wshl 32 1 blk_bits) (wadd 64 half (wsub 64 half 1))
    (cluster_size header) (cluster_bits header).

Definition is_aligned (cluster_sz offset : Z) : bool := Z.land offset (wsub 64 cluster_sz 1) =? 0.
Definition bytes_to_clusters (size cluster_sz : Z) : qres Z := ok_or (div_round_up size cluster_sz) tt.

Definition start_of_cluster (r : RefCount) (offset : Z) : Z :=
  Z.land offset (wnot 64 (wsub 64 (rc_cluster_size r) 1)).
Definition cluster_in_rc_block (r : RefCount) (cluster_index : Z) : Z :=
  Z.land cluster_index (wsub 32 (refcount_blk_size r) 1).
Definition offset_into_cluster (r : RefCount) (offset : Z) : Z :=
  Z.land offset (wsub 64 (rc_cluster_size r) 1).

(** [unwrap] of a result. *)
Definition unwrap_res {A} (r : qres A) : qres A := match r with Ok a => Ok a | _ => Panic end.

(** The loop of [refcount_metadata_size]; [k] is its fuel. *)
Fixpoint metadata_loop (k : nat) (refblock_entries reftable_entries : Z)
    (clusters table blocks total : Z) (is_reserve : bool) : qres (Z * Z * Z) :=
  match k with
  | O => Panic
  | S k =>
    blocks' ← unwrap (div_round_up (wadd 64 (wadd 64 clusters table) blocks) refblock_entries);
    table' ← unwrap (div_round_up blocks' reftable_entries);
    let total' := wadd 64 (wadd 64 table' blocks') clusters in
    if total' =? total then
      if is_reserve then
        extra ← unwrap (div_round_up table' 2);
        metadata_loop k refblock_entries reftable_entries (wadd 64 clusters extra) table' blocks' 0 false
      else Ok (table', blocks', total')
    else metadata_loop k refblock_entries reftable_entries clusters table' blocks' total' is_reserve
  end.

Definition refcount_metadata_size (nb_clusters cluster_sz order : Z) (is_reserve : bool) : qres (Z * Z) :=
  let fuel := Z.to_nat (4 * nb_clusters + 20) in
  let reftable_entries := cluster_sz / ENTRY_SIZE in
  let entry_bits := wshl 64 1 order in
  let refblock_entries := wmul 64 cluster_sz 8 / entry_bits in
  '(_, blocks, total) ← metadata_loop fuel refblock_entries reftable_entries nb_clusters 0 0 0 is_reserve;
  Ok (wsub 64 (wsub 64 total nb_clusters) blocks, blocks).

Section refcount.
Context `{!HashIter} {F : Type} `{!BlockIo F}.

Record rst := mkRst { hdr : QcowHeader; rc : RefCount; rf : F }.
Abbreviation M := (sres rst unit).

Definition gets {A} (g : RefCount -> A) : M A := fun s => (s, Ok (g (rc s))).
Definition modify (g : RefCount -> RefCount) : M unit := fun s => (mkRst (hdr s) (g (rc s)) (rf s), Ok tt).
(** A file operation, and one on the cache of refcount blocks. *)
Definition on_file {A} (m : F -> F * qres A) : M A := fun s =>
  let '(f, r) := m (rf s) in (mkRst (hdr s) (rc s) f, r).
Definition on_cache {A} (m : Qcow2Cache -> Qcow2Cache * A) : M A := fun s =>
  let '(c, a) := m (refcount_blk_cache (rc s)) in (mkRst (hdr s) (set_cache c (rc s)) (rf s), Ok a).

(** ** Discards *)

Definition update_discard_list (offset nbytes : Z) : M unit :=
  modify (fun r =>
    let '(task, l) :=
      foldl (fun '(task, l) t => if is_overlap task t then (merge_task task t, l) else (task, l ++ [t]))
        (mkTask offset nbytes, []) (discard_list r) in
    set_discards (l ++ [task]) r).

Fixpoint process_tasks (tasks : list DiscardTask) (f : F) : F :=
  match tasks with
  | [] => f
  | t :: tasks => process_tasks tasks (submit_discard (task_offset t) (task_nbytes t) f).1
  end.
Definition sync_process_discards : M unit := fun s =>
  (mkRst (hdr s) (set_discards [] (rc s)) (process_tasks (discard_list (rc s)) (rf s)), Ok tt).

(** ** Blocks and their cache *)

(** The table of a cell of the cache. *)
Definition read_cell (l : nat) : M CacheTable := fun s =>
  (s, unwrap (tables (refcount_blk_cache (rc s)) !! l)).
Definition write_cell (l : nat) (t : CacheTable) : M unit :=
  modify (fun r => set_cache (set_tables (<[l := t]> (tables (refcount_blk_cache r))) (refcount_blk_cache r)) r).

Definition save_refcount_block (l : nat) : M unit :=
  t ← read_cell l;
  if negb (is_dirty (dirty_info t)) then mret tt
  else
    cs ← gets rc_cluster_size;
    if negb (is_aligned cs (addr t)) then sfail tt
    else
      _ ← on_file (write_dirty_info (addr t) (table_data t) (start (dirty_info t)) (end_ (dirty_info t)));
      write_cell l (clear_dirty t).

(** Allocates the cell and puts it in the cache, saving the one it replaces. *)
Definition insert_block (rt_idx : Z) (t : CacheTable) : M nat :=
  l ← on_cache (new_cell t);
  replaced ← on_cache (lru_replace rt_idx l);
  _ ← (match replaced with Some l' => save_refcount_block l' | None => mret tt end);
  mret l.

Definition load_refcount_block (rt_idx : Z) : M unit :=
  table ← gets refcount_table;
  rb_addr ← slift (unwrap (table !! Z.to_nat rt_idx));
  cs ← gets rc_cluster_size;
  if negb (is_aligned cs rb_addr) then sfail tt
  else
    rc_block ← on_file (read_buffer rb_addr cs);
    t ← slift (CacheTable_new rb_addr rc_block ENTRY_SIZE_U16);
    _ ← insert_block rt_idx t;
    mret tt.

Definition save_refcount_table (start end_ : Z) : M unit :=
  table ← gets refcount_table;
  off ← gets rt_offset;
  on_file (write_dirty_info off (concat (be_bytes 8 <$> table)) start end_).

Definition flush : M unit := fun s =>
  let '(c, f, r) := cache_flush (refcount_blk_cache (rc s), rf s) in
  (mkRst (hdr s) (set_cache c (rc s)) f, r).

Definition drop_dirty_caches : M unit :=
  modify (fun r => set_cache (clean_up_dirty_cache (refcount_blk_cache r)) r).

(** The cell of a block, loaded when it is not cached. *)
Definition get_block (rt_idx : Z) : M nat :=
  c ← gets refcount_blk_cache;
  _ ← (if contains_keys c rt_idx then mret tt else load_refcount_block rt_idx);
  o ← on_cache (cache_get rt_idx);
  slift (ok_or o tt).

(** ** Reading and changing reference counts *)

Definition get_refcount (offset : Z) : M Z :=
  r ← gets id;
  let cluster := wshr 64 offset (rc_cluster_bits r) in
  let rt_idx := wshr 64 cluster (refcount_blk_bits r) in
  if rt_size r <=? rt_idx then mret 0
  else
    entry ← slift (unwrap (refcount_table r !! Z.to_nat rt_idx));
    let rb_addr := Z.land entry REFCOUNT_TABLE_OFFSET_MASK in
    if rb_addr =? 0 then mret 0
    else if negb (offset_into_cluster r rb_addr =? 0) then sfail tt
    else
      l ← get_block rt_idx;
      t ← read_cell l;
      rc_value ← slift (unwrap_res (get_entry_map t (cluster_in_rc_block r cluster)));
      mret (wrap 16 rc_value).

(** The first loop of [set_refcount]: the new counts of [n] clusters from the
    [i]th on; clusters that become free are noted as it goes. *)
Fixpoint new_counts (n : nat) (i : Z) (t : CacheTable) (rt_idx rb_idx added : Z)
    (discard_type : Qcow2DiscardType) : M (list Z) :=
  match n with
  | O => mret []
  | S n =>
    let added_value := wrap 16 (Z.abs added) in
    value ← slift (get_entry_map t (wadd 64 rb_idx i));
    let value := wrap 16 value in
    r ← gets id;
    rc_value ← (if 0 <? added
                then match checked_add 16 value added_value with
                     | Some v => if v <=? wrap 16 (refcount_max r) then mret v else sfail tt
                     | None => sfail tt
                     end
                else slift (ok_or (checked_sub value added_value) tt));
    let cluster_idx := wadd 64 (wadd 64 (wmul 64 rt_idx (refcount_blk_size r)) rb_idx) i in
    _ ← (if rc_value =? 0 then
           _ ← (if bool_decide (discard_type ∈ discard_passthrough r)
                then update_discard_list (wmul 64 cluster_idx (rc_cluster_size r)) (rc_cluster_size r)
                else mret tt);
           (if cluster_idx <? free_cluster_index r then modify (set_free cluster_idx) else mret tt)
         else mret tt);
    rest ← new_counts n (i + 1) t rt_idx rb_idx added discard_type;
    mret (rc_value :: rest)
  end.

(** The second loop: storing the counts. *)
Fixpoint store_counts (vs : list Z) (i : Z) (rb_idx : Z) (t : CacheTable) : qres CacheTable :=
  match vs with
  | [] => Ok t
  | v :: vs => t ← set_entry_map t (wadd 64 rb_idx i) v; store_counts vs (i + 1) rb_idx t
  end.

Definition set_refcount (rt_idx rb_idx : Z) (clusters : nat) (added : Z) (discard_type : Qcow2DiscardType)
  : M unit :=
  l ← get_block rt_idx;
  t ← read_cell l;
  rb_vec ← new_counts clusters 0 t rt_idx rb_idx added discard_type;
  t' ← slift (store_counts rb_vec 0 rb_idx t);
  _ ← write_cell l t';
  if is_dirty (dirty_info t) then mret tt else _ ← on_cache (fun c => (add_dirty_table l c, tt)); mret tt.

(** Returns the index of the first block that fails. *)
Fixpoint set_refcount_blocks (rc_vec : list (Z * Z * nat)) (added : Z) (discard_type : Qcow2DiscardType)
  (i : nat) : M nat := fun s =>
  match rc_vec with
  | [] => (s, Ok i)
  | (rt_idx, rb_idx, num) :: rc_vec =>
    match set_refcount rt_idx rb_idx num added discard_type s with
    | (s, Ok _) => set_refcount_blocks rc_vec added discard_type (S i) s
    | (s, Err _) => (s, Ok i)
    | (s, Panic) => (s, Panic)
    end
  end.

(** The blocks a range of clusters lies in, [i] clusters being done; each step
    takes at least one cluster. *)
Fixpoint split_blocks (fuel : nat) (first_cluster clusters i : Z) (r : RefCount) : qres (list (Z * Z * nat)) :=
  if clusters <=? i then Ok []
  else match fuel with
  | O => Panic
  | S fuel =>
    let rt_idx := wshr 64 (wadd 64 first_cluster i) (refcount_blk_bits r) in
    if rt_size r <=? rt_idx then Err tt
    else
      rb_addr ← unwrap (refcount_table r !! Z.to_nat rt_idx);
      if (rb_addr =? 0) || negb (offset_into_cluster r rb_addr =? 0) then Err tt
      else
        let rb_idx := cluster_in_rc_block r (wadd 64 i first_cluster) in
        let num := Z.min (wsub 64 (refcount_blk_size r) rb_idx) (clusters - i) in
        rest ← split_blocks fuel first_cluster clusters (i + num) r;
        Ok ((rt_idx, rb_idx, Z.to_nat num) :: rest)
  end.

Definition update_refcount (offset clusters added : Z) (flush_ : bool) (discard_type : Qcow2DiscardType) : M unit :=
  r ← gets id;
  if negb (offset_into_cluster r offset =? 0) then sfail tt
  else
    first_cluster ← slift (unwrap_res (bytes_to_clusters offset (rc_cluster_size r)));
    rc_vec ← slift (split_blocks (Z.to_nat clusters) first_cluster clusters 0 r);
    idx ← set_refcount_blocks rc_vec added discard_type 0;
    if negb (idx =? length rc_vec)%nat then
      _ ← set_refcount_blocks (take idx rc_vec) (- added) discard_type 0; sfail tt
    else if flush_ then flush else mret tt.

(** ** Allocation *)

(** The search of [alloc_clusters_with_noref]. *)
Fixpoint noref_loop (fuel : nat) (nb_clusters free_clusters : Z) : M unit := fun s =>
  if nb_clusters <=? free_clusters then (s, Ok tt)
  else match fuel with
  | O => (s, Panic)
  | S fuel =>
    (r ← gets id;
     let offset := wshl 64 (free_cluster_index r) (rc_cluster_bits r) in
     _ ← modify (set_free (wadd 64 (free_cluster_index r) 1));
     count ← get_refcount offset;
     noref_loop fuel nb_clusters (if count =? 0 then free_clusters + 1 else 0)) s
  end.

Definition alloc_clusters_with_noref (size : Z) : M Z :=
  r ← gets id;
  _ ← (if bool_decide (discard_list r = []) then mret tt else sync_process_discards);
  nb_clusters ← slift (unwrap_res (bytes_to_clusters size (rc_cluster_size r)));
  _ ← noref_loop (Z.to_nat (rt_size r * refcount_blk_size r + nb_clusters)) nb_clusters 0;
  free ← gets free_cluster_index;
  mret (wshl 64 (wsub 64 free nb_clusters) (rc_cluster_bits r)).

(** [map_err(|e| { self.refcount_table\[rt_idx\] = 0; e })] *)
Definition reset_on_err (rt_idx : Z) (m : M unit) : M unit := fun s =>
  match m s with
  | (s, Err e) => (mkRst (hdr s) (set_table (<[Z.to_nat rt_idx := 0]> (refcount_table (rc s))) (rc s)) (rf s), Err e)
  | r => r
  end.

Definition set_entry (rt_idx v : Z) : M unit :=
  modify (fun r => set_table (<[Z.to_nat rt_idx := v]> (refcount_table r)) r).

(** [alloc_refcount_block], over the recursive call of [update_alloc_refcount]. *)
Definition alloc_refcount_block (update_alloc : Z -> M unit) (rt_idx : Z) : M unit :=
  r ← gets id;
  if rt_size r <=? rt_idx then sfail tt
  else
    alloc_offset ← alloc_clusters_with_noref (rc_cluster_size r);
    let alloc_cluster_idx := wshr 64 alloc_offset (rc_cluster_bits r) in
    let alloc_rt_idx := wshr 64 alloc_cluster_idx (refcount_blk_bits r) in
    if rt_size r <=? alloc_rt_idx then sfail tt
    else
      _ ← set_entry rt_idx alloc_offset;
      t ← slift (CacheTable_new alloc_offset (replicate (Z.to_nat (rc_cluster_size r)) 0) ENTRY_SIZE_U16);
      l ← insert_block rt_idx t;
      t ← read_cell l;
      _ ← (if alloc_rt_idx =? rt_idx then
             t ← slift (set_entry_map t (cluster_in_rc_block r (cluster_in_rc_block r alloc_cluster_idx)) 1);
             write_cell l (clear_dirty t)
           else mret tt);
      t ← read_cell l;
      _ ← on_file (write_dirty_info (addr t) (table_data t) 0 (rc_cluster_size r));
      _ ← (if alloc_rt_idx =? rt_idx then mret tt else update_alloc alloc_offset);
      save_refcount_table (wmul 64 rt_idx ENTRY_SIZE) (wadd 64 (wmul 64 rt_idx ENTRY_SIZE) ENTRY_SIZE).

(** The loop of [update_alloc_refcount] over clusters [i, i + n). *)
Fixpoint alloc_blocks (alloc : Z -> M unit) (i : Z) (n : nat) : M unit :=
  match n with
  | O => mret tt
  | S n =>
    r ← gets id;
    let rt_idx := wshr 64 i (refcount_blk_bits r) in
    if rt_size r <=? rt_idx then sfail tt
    else
      rb_addr ← slift (unwrap (refcount_table r !! Z.to_nat rt_idx));
      _ ← (if rb_addr =? 0 then reset_on_err rt_idx (alloc rt_idx) else mret tt);
      alloc_blocks alloc (i + 1) n
  end.

(** Each nested call has filled one more entry of the refcount table. *)
Fixpoint update_alloc_refcount (fuel : nat) (offset clusters added : Z) (flush_ : bool)
    (discard_type : Qcow2DiscardType) : M unit := fun s =>
  match fuel with
  | O => (s, Panic)
  | S fuel =>
    (cs ← gets rc_cluster_size;
     start_clusters ← slift (unwrap (div_round_up offset cs));
     _ ← alloc_blocks
           (alloc_refcount_block (fun off => update_alloc_refcount fuel off 1 1 true DNever))
           start_clusters (Z.to_nat clusters);
     update_refcount offset clusters added flush_ discard_type) s
  end.

(** The entries [extend_refcount_table] gives to blocks that have none. *)
Fixpoint fill_table (n : nat) (i : nat) (table_offset cs : Z) (table : list Z) : qres (list Z * Z) :=
  match n with
  | O => Ok (table, table_offset)
  | S n =>
    v ← unwrap (table !! i);
    if v =? 0 then fill_table n (S i) (wadd 64 table_offset cs) cs (<[i := table_offset]> table)
    else fill_table n (S i) table_offset cs table
  end.

(** [Vec::resize] with zeroes. *)
Definition vec_resize (n : nat) (l : list Z) : list Z := take n l ++ replicate (n - length l) 0.

Definition extend_refcount_table (start_idx new_table_clusters new_block_clusters : Z) : M unit :=
  r ← gets id;
  let cs := rc_cluster_size r in
  let new_table_size := wmul 64 new_table_clusters (cs / ENTRY_SIZE) in
  if new_table_size <? new_block_clusters then sfail tt
  else
    let start_offset := wmul 64 start_idx cs in
    '(new_table, table_offset) ←
      slift (fill_table (Z.to_nat new_block_clusters) 0 start_offset cs
               (vec_resize (Z.to_nat new_table_size) (refcount_table r)));
    let end_offset := wadd 64 table_offset (wmul 64 new_table_clusters cs) in
    metadata_clusters ← slift (unwrap (div_round_up (wsub 64 end_offset start_offset) cs));
    _ ← on_file (write_ctrl_cluster table_offset new_table);
    header ← (fun s => (s, Ok (hdr s)));
    let new_header :=
      mkHeader (magic header) (version header) (backing_file_offset header) (backing_file_size header)
        (cluster_bits header) (size header) (crypt_method header) (l1_size header) (l1_table_offset header)
        table_offset (wrap 32 new_table_clusters) (nb_snapshots header) (snapshots_offset header)
        (incompatible_features header) (compatible_features header) (autoclear_features header)
        (refcount_order header) (header_length header) in
    _ ← on_file (write_buffer 0 (to_vec new_header));
    _ ← (fun s => (mkRst new_header
           (mkRefCount new_table (refcount_blk_cache (rc s)) (discard_list (rc s)) (discard_passthrough (rc s))
              (end_offset / cs) table_offset (wrap 32 new_table_clusters) new_table_size
              (refcount_blk_bits (rc s)) (refcount_blk_size (rc s)) (refcount_max (rc s))
              (rc_cluster_size (rc s)) (rc_cluster_bits (rc s))) (rf s), Ok tt));
    _ ← update_refcount start_offset metadata_clusters 1 true DNever;
    update_refcount (rt_offset r) (rt_clusters r) (-1) true DOther.

Definition alloc_clusters_with_ref (size : Z) : M Z :=
  if size =? 0 then sfail tt
  else
    offset ← alloc_clusters_with_noref size;
    r ← gets id;
    offset_end ← slift (unwrap_res (round_up (wadd 64 offset size) (rc_cluster_size r)));
    let rt_end := wshr 64 offset_end (wadd 32 (rc_cluster_bits r) (refcount_blk_bits r)) in
    nb_clusters ← slift (bytes_to_clusters (wsub 64 offset_end offset) (rc_cluster_size r));
    _ ← (if rt_size r <=? rt_end then
           let clusters := free_cluster_index r in
           header ← (fun s => (s, Ok (hdr s)));
           '(table, blocks) ← slift (refcount_metadata_size clusters (rc_cluster_size r) (refcount_order header) true);
           extend_refcount_table clusters table blocks
         else mret tt);
    r ← gets id;
    _ ← update_alloc_refcount (S (length (refcount_table r))) offset nb_clusters 1 false DNever;
    mret offset.
End refcount.
Arguments rst : clear implicits.
