(* ===== verification/Qcow2RefcountSpec.v ===== *)
(** * Properties of the reference counts

    The abstract state is the function [refcount_of] from clusters to counts.
    Reading, changing and allocating are stated on it, whatever is cached. *)
From stdpp Require Import prelude list gmap.
From Stdlib Require Import ZArith Lia.
From S2P Require Import Prelude NumOps Qcow2Header SyncAio Qcow2Io Qcow2Cache Qcow2CacheSpec Qcow2Refcount.

(** Where the block of a key lies. *)
Definition blk_of (table : list Z) (k : Z) : option Z :=
  if k <? 0 then None
  else match table !! Z.to_nat k with Some a => if a =? 0 then None else Some a | None => None end.

Lemma blk_of_Some table k a : blk_of table k = Some a <-> 0 <= k /\ table !! Z.to_nat k = Some a /\ a <> 0.
Proof.
  unfold blk_of. destruct (Z.ltb_spec k 0); [split; [done|lia]|].
  destruct (table !! Z.to_nat k) as [b|]; [|split; [done|naive_solver]].
  destruct (Z.eqb_spec b 0); [split; [done|naive_solver lia]|]. split; [intros [= ->]; done|naive_solver].
Qed.

Record geo_ok (r : RefCount) : Prop := mkGeoOk {
  g_bits : 9 <= rc_cluster_bits r <= 21;
  g_cs : rc_cluster_size r = 2 ^ rc_cluster_bits r;
  g_bb : refcount_blk_bits r = rc_cluster_bits r - 1;
  g_bs : refcount_blk_size r = 2 ^ (rc_cluster_bits r - 1);
  g_max : refcount_max r = 65535;
  g_rt : rt_size r = Z.of_nat (length (refcount_table r));
  g_cover : rt_size r * refcount_blk_size r * rc_cluster_size r < 2 ^ 61
}.

(** What does not change but when the table is extended. *)
Definition geo (r : RefCount) :=
  (refcount_table r, discard_passthrough r, (rt_offset r, rt_clusters r, rt_size r),
   (refcount_blk_bits r, refcount_blk_size r, refcount_max r), (rc_cluster_size r, rc_cluster_bits r)).

Lemma geo_set_cache c r : geo (set_cache c r) = geo r.
Proof. done. Qed.
Lemma geo_ok_eq r r' : geo r' = geo r -> geo_ok r -> geo_ok r'.
Proof. destruct r, r'. unfold geo. simpl. intros [=] []. subst. by constructor. Qed.

Lemma geo_numbers r : geo_ok r ->
  512 <= rc_cluster_size r <= 2097152 /\ rc_cluster_size r = 2 * refcount_blk_size r /\
  256 <= refcount_blk_size r <= 1048576 /\ (512 | rc_cluster_size r).
Proof.
  intros [Hb Hc _ Hs _ _ _]. rewrite Hc, Hs.
  assert (2 ^ rc_cluster_bits r = 2 * 2 ^ (rc_cluster_bits r - 1)) as E.
  { rewrite <-Z.pow_succ_r by lia. f_equal. lia. }
  assert (2 ^ 8 <= 2 ^ (rc_cluster_bits r - 1) <= 2 ^ 20) by (split; apply Z.pow_le_mono_r; lia).
  split_and!; try lia. exists (2 ^ (rc_cluster_bits r - 9)). change 512 with (2 ^ 9).
  rewrite <-Z.pow_add_r by lia. f_equal. lia.
Qed.

Lemma land_mask x n : 0 <= n < 64 -> Z.land x (wsub 64 (2 ^ n) 1) = x `mod` 2 ^ n.
Proof. intros. apply land_pred_mod. lia. Qed.

Section arith.
Context (r : RefCount) (Hg : geo_ok r).

Lemma offset_into_cluster_mod x : offset_into_cluster r x = x `mod` rc_cluster_size r.
Proof. destruct Hg. unfold offset_into_cluster. rewrite g_cs0. apply land_mask. lia. Qed.
Lemma is_aligned_mod x : is_aligned (rc_cluster_size r) x = (x `mod` rc_cluster_size r =? 0).
Proof. destruct Hg. unfold is_aligned. rewrite g_cs0. by rewrite land_mask by lia. Qed.
Lemma cluster_in_rc_block_mod x : cluster_in_rc_block r x = x `mod` refcount_blk_size r.
Proof.
  pose proof (geo_numbers r Hg). destruct Hg. unfold cluster_in_rc_block. rewrite wsub_small by (unfold inW; lia).
  rewrite g_bs0, <-Z.land_ones by lia. by rewrite Z.ones_equiv, Z.sub_1_r.
Qed.
Lemma shr_bits x : wshr 64 x (rc_cluster_bits r) = x / rc_cluster_size r.
Proof. destruct Hg. unfold wshr. rewrite Z.mod_small, Z.shiftr_div_pow2 by lia. by rewrite g_cs0. Qed.
Lemma shr_blk x : wshr 64 x (refcount_blk_bits r) = x / refcount_blk_size r.
Proof. destruct Hg. unfold wshr. rewrite Z.mod_small, Z.shiftr_div_pow2 by lia. by rewrite g_bb0, g_bs0. Qed.
Lemma shl_bits x : 0 <= x -> x * rc_cluster_size r < 2 ^ 64 -> wshl 64 x (rc_cluster_bits r) = x * rc_cluster_size r.
Proof.
  intros Hx Hs. pose proof (geo_numbers r Hg). destruct Hg. unfold wshl. rewrite Z.mod_small, Z.shiftl_mul_pow2 by lia.
  rewrite <-g_cs0. apply wrap_small. unfold inW. nia.
Qed.
Lemma bytes_to_clusters_exact n : 0 <= n -> n * rc_cluster_size r < 2 ^ 64 ->
  bytes_to_clusters (n * rc_cluster_size r) (rc_cluster_size r) = Ok n.
Proof.
  intros Hn Hs. pose proof (geo_numbers r Hg). unfold bytes_to_clusters.
  destruct (div_round_up_spec (n * rc_cluster_size r) (rc_cluster_size r)) as (q & -> & _ & Hq);
    [unfold inW; nia|lia|]. simpl. f_equal. nia.
Qed.
End arith.

(** Refcount blocks have 16-bit entries. *)
#[export] Instance refcount_esize : EntrySize := ENTRY_SIZE_U16.

Section refspec.
Context `{!HashIter} {F : Type} `{!BlockIo F, !BlockIoLaws F}.
Implicit Types s : rst F.

Abbreviation blk s := (blk_of (refcount_table (rc s))).
Abbreviation csz s := (rc_cluster_size (rc s)).
Abbreviation cache s := (refcount_blk_cache (rc s)).

(** Blocks are clusters of the file, apart from each other and from the table.
    The host file serves the requests that lie within its length. *)
Record layout_ok s : Prop := mkLayoutOk {
  l_blocks : forall k a, blk s k = Some a -> (csz s | a) /\ 0 <= a /\ a + csz s < 2 ^ 61 /\ a + csz s <= blen (rf s);
  l_inj : forall k1 k2 a, blk s k1 = Some a -> blk s k2 = Some a -> k1 = k2;
  l_rt : 0 <= rt_offset (rc s) /\ (csz s | rt_offset (rc s)) /\ 0 <= rt_clusters (rc s) /\
    rt_size (rc s) * 8 = rt_clusters (rc s) * csz s /\
    rt_offset (rc s) + rt_size (rc s) * 8 <= blen (rf s) /\ rt_offset (rc s) + rt_size (rc s) * 8 < 2 ^ 61;
  l_apart : forall k a, blk s k = Some a ->
    a + csz s <= rt_offset (rc s) \/ rt_offset (rc s) + rt_size (rc s) * 8 <= a;
  l_balign : (balign | csz s);
  l_len : (balign | blen (rf s));
  l_healthy : bhealthy (rf s)
}.

Record rc_wf s : Prop := mkWf {
  w_geo : geo_ok (rc s);
  w_layout : layout_ok s;
  w_cache : cache_inv (csz s) (blk s) (cache s) (rf s)
}.

(** The bytes of a refcount block and the count of a cluster. *)
Definition sview s (k : Z) : option (list Z) := view (csz s) (blk s) (cache s) (rf s) k.
Definition refcount_of s (c : Z) : Z :=
  match sview s (c / refcount_blk_size (rc s)) with
  | Some bytes => entry16 bytes (c `mod` refcount_blk_size (rc s))
  | None => 0
  end.

Lemma aligned_apart cs a1 a2 : 0 < cs -> (cs | a1) -> (cs | a2) -> a1 <> a2 -> a1 + cs <= a2 \/ a2 + cs <= a1.
Proof. intros Hc [p ->] [q ->] Hne. assert (p <> q) by congruence. destruct (Z.lt_ge_cases p q); [left|right]; nia. Qed.

Lemma wf_blocks s : rc_wf s -> blocks_ok (csz s) (blk s).
Proof.
  intros [Hg [Hb Hinj _ _ _ _ _] _]. pose proof (geo_numbers _ Hg). split.
  - intros k a Ha. destruct (Hb k a Ha). tauto.
  - intros k1 k2 a1 a2 H1 H2 Hne. destruct (Hb _ _ H1) as (? & _), (Hb _ _ H2) as (? & _).
    apply aligned_apart; [lia|done..|]. intros ->. by eapply Hne, Hinj.
Qed.
Lemma wf_file s : rc_wf s -> file_ok (csz s) (blk s) (rf s).
Proof. intros [Hg [Hb _ _ _ _ ? ?] _]. constructor; [done..|]. intros k a Ha. by destruct (Hb k a Ha) as (_ & _ & _ & ?). Qed.

Lemma view_bytes s k bytes : rc_wf s -> sview s k = Some bytes -> is_bytes bytes /\ Z.of_nat (length bytes) = csz s.
Proof.
  intros Hw Hv. unfold sview, view in Hv. apply bind_Some in Hv as (a & Ha & [= <-]).
  pose proof (geo_numbers _ (w_geo _ Hw)). destruct (cached (cache s) k) as [t|] eqn:Ec.
  - destruct (cached_ok _ _ _ _ _ _ (w_cache _ Hw) Ec). done.
  - rewrite ztab_length. split; [|lia]. apply Forall_lookup. intros i x Hx. pose proof (lookup_lt_Some _ _ _ Hx) as Hi.
    rewrite ztab_length in Hi. rewrite ztab_lookup in Hx by done. injection Hx as <-. apply bcontent_byte.
Qed.
Lemma refcount_of_u16 s c : rc_wf s -> is_u16 (refcount_of s c).
Proof.
  intros Hw. unfold refcount_of. destruct (sview s _) as [bytes|] eqn:E; [|done].
  destruct (view_bytes _ _ _ Hw E) as [Hb Hl]. pose proof (geo_numbers _ (w_geo _ Hw)).
  pose proof (Z.mod_pos_bound c (refcount_blk_size (rc s)) ltac:(lia)). apply entry16_bound; [done|lia..].
Qed.

(** *** Steps that keep every count *)

Record quiet s s' : Prop := mkQuiet {
  q_hdr : hdr s' = hdr s;
  q_geo : geo (rc s') = geo (rc s);
  q_view : forall k, sview s' k = sview s k;
  q_file : changed_in (in_blocks (csz s) (blk s)) (rf s) (rf s');
  q_dirty : forall k, dirty_key (cache s') k -> dirty_key (cache s) k
}.

Lemma geo_fields r r' : geo r' = geo r ->
  refcount_table r' = refcount_table r /\ rc_cluster_size r' = rc_cluster_size r /\
  refcount_blk_size r' = refcount_blk_size r /\ rt_size r' = rt_size r /\ rt_offset r' = rt_offset r /\
  rt_clusters r' = rt_clusters r /\ rc_cluster_bits r' = rc_cluster_bits r /\ refcount_max r' = refcount_max r /\
  discard_passthrough r' = discard_passthrough r.
Proof. destruct r, r'. unfold geo. simpl. by intros [=]. Qed.

Lemma quiet_refl s : bhealthy (rf s) -> quiet s s.
Proof. intros. constructor; [done..|by apply changed_in_refl|done]. Qed.
Lemma quiet_trans s1 s2 s3 : quiet s1 s2 -> quiet s2 s3 -> quiet s1 s3.
Proof.
  intros [H1 G1 V1 C1 D1] [H2 G2 V2 C2 D2]. destruct (geo_fields _ _ G1) as (Et & Ec & _).
  rewrite Et, Ec in C2. constructor; [congruence|congruence|intros; by rewrite V2|by eapply changed_in_trans|auto].
Qed.
Lemma quiet_refcount s s' c : quiet s s' -> refcount_of s' c = refcount_of s c.
Proof.
  intros [_ G V _ _]. destruct (geo_fields _ _ G) as (_ & _ & Eb & _). unfold refcount_of. by rewrite Eb, V.
Qed.
Lemma layout_quiet s s' : geo (rc s') = geo (rc s) -> blen (rf s') = blen (rf s) -> bhealthy (rf s') ->
  layout_ok s -> layout_ok s'.
Proof.
  intros G Hl Hh [? ? ? ? ? ? ?]. destruct (geo_fields _ _ G) as (Et & Ec & Eb & Es & Eo & El & _).
  constructor; rewrite ?Et, ?Ec, ?Es, ?Eo, ?El, ?Hl; done.
Qed.

(** *** Loading blocks *)

Section insert.
Context s (k : Z) (t : CacheTable) (b0 b : Z -> option Z).
Context (Hg : geo_ok (rc s)) (Hb : blocks_ok (csz s) b) (Hf : file_ok (csz s) b (rf s)).
Context (Hal : forall k a, b k = Some a -> (csz s | a)).
Context (Hi0 : cache_inv (csz s) b0 (cache s) (rf s)) (Hi : cache_inv (csz s) b (minus k (cache s)) (rf s)).
Context (Ht : cell_ok (csz s) b (rf s) k t) (Hcl : is_dirty (dirty_info t) = false).
Context (Hstale : forall l, cache_map (cache s) !! k = Some l -> cell_dirty (cache s) l = false).

Definition inserted (s' : rst F) (l : nat) : Prop :=
  exists c' f' t', s' = mkRst (hdr s) (set_cache c' (rc s)) f' /\ cache_inv (csz s) b c' f' /\
    (forall k0, k0 <> k -> view (csz s) b c' f' k0 = view (csz s) b (minus k (cache s)) (rf s) k0) /\
    (forall a, b k = Some a -> view (csz s) b c' f' k = Some (table_data t)) /\
    cache_map c' !! k = Some l /\ tables c' !! l = Some t' /\ set_lru 0 t' = set_lru 0 t /\
    changed_in (in_blocks (csz s) b) (rf s) f' /\ (forall k0, dirty_key c' k0 -> k0 <> k /\ dirty_key (cache s) k0).

(** Cells of the new cache that are dirty were so before. *)
Lemma inserted_dirty c1 c2 c' l t' :
  lru_only c1 c2 -> c1 = (new_cell t (cache s)).1 -> l = (new_cell t (cache s)).2 ->
  (forall k0 l0, k0 <> k -> cache_map c' !! k0 = Some l0 -> cache_map c1 !! k0 = Some l0) ->
  (forall l0, cell_dirty c' l0 = true -> cell_dirty c2 l0 = true) ->
  cache_map c' !! k = Some l -> tables c' !! l = Some t' -> is_dirty (dirty_info t') = false ->
  forall k0, dirty_key c' k0 -> k0 <> k /\ dirty_key (cache s) k0.
Proof.
  intros Hlo -> -> Hm Hd Hk Ht' Hcl' k0 (l0 & Hl0 & Hd0). destruct (decide (k0 = k)) as [->|Hne].
  { rewrite Hk in Hl0. apply (inj Some) in Hl0. unfold cell_dirty in Hd0. rewrite <-Hl0, Ht' in Hd0. congruence. }
  split; [done|]. specialize (Hm k0 l0 Hne Hl0). apply Hd in Hd0. rewrite (lru_only_dirty _ _ _ Hlo) in Hd0.
  exists l0. split; [done|]. unfold cell_dirty in *. simpl in Hd0. destruct (decide (l0 = next_cell (cache s))) as [->|].
  - rewrite lookup_insert_eq in Hd0. congruence.
  - by rewrite lookup_insert_ne in Hd0.
Qed.

Lemma insert_block_spec : exists s' l, insert_block k t s = (s', Ok l) /\ inserted s' l.
Proof.
  pose proof (geo_numbers _ Hg) as Hn. assert (0 < csz s) as Hc0 by lia.
  destruct (new_cell_inv (csz s) b0 (cache s) (rf s) t Hi0) as (Hi0n & _ & Hnt & Hfresh & Hmap).
  destruct (new_cell_inv (csz s) b (minus k (cache s)) (rf s) t Hi) as (Hin & Hvn & _).
  unfold insert_block, on_cache, mbind, sres_bind. set (c1 := (new_cell t (cache s)).1) in *.
  set (l := (new_cell t (cache s)).2) in *. change (new_cell t (cache s)) with (c1, l). cbn [refcount_blk_cache set_cache rc rf hdr].
  change (new_cell t (minus k (cache s))).1 with (minus k c1) in Hin, Hvn.
  destruct (lru_replace_cases (csz s) b0 c1 (rf s) k l Hi0n) as (c2 & Hlo & Hcase).
  pose proof (lru_only_set_map c1 c2 (delete k (cache_map c1)) Hlo) as Hlom.
  destruct (lru_only_inv (csz s) b _ _ (rf s) Hlom Hin) as [Hin2 Hvn2].
  destruct (lru_only_cell _ _ _ _ Hlo Hnt) as (t2 & Ht2 & Et2).
  assert (lru_count t2 < U64_MAX) as Hl2.
  { apply (lo_bound _ _ Hlo l t2 Ht2). intros t0 Ht0. rewrite Hnt in Ht0. injection Ht0 as <-. apply Ht. }
  pose proof (cell_ok_lru _ _ _ _ _ _ Et2 Hl2 Ht) as Hok2. destruct (set_lru_data _ _ Et2) as (Ed2 & _ & _ & Edata).
  assert (is_dirty (dirty_info t2) = false) as Hcl2 by by rewrite Ed2.
  assert (forall k0, view (csz s) b (set_map (delete k (cache_map c1)) c2) (rf s) k0 =
    view (csz s) b (minus k (cache s)) (rf s) k0) as Hv0 by (intros; by rewrite Hvn2, Hvn).
  assert (exists s1, inserted s1 l /\ s1 = mkRst (hdr s) (set_cache (set_map (<[k := l]> (delete k (cache_map c1))) c2) (rc s)) (rf s))
    as (s1 & Hins & Es1).
  { eexists. split; [|done].
    destruct (insert_inv (csz s) b (set_map (delete k (cache_map c1)) c2) (rf s) k l t2) as (Hi3 & Hv3 & Hv4 & _); try done.
    { intros k0. simpl. intros [_ Hk0]%lookup_delete_Some. by eapply Hfresh. }
    { simpl. by rewrite lookup_delete_eq. }
    eexists _, (rf s), t2. split_and!; [done|exact Hi3|intros k0 Hk0; by rewrite <-Hv0, <-Hv3| |simpl; by rewrite lookup_insert_eq|done|done|by apply changed_in_refl; destruct Hf|].
    - intros a Ha. rewrite <-Edata. by apply (Hv4 a).
    - eapply (inserted_dirty c1 c2 _ l t2); try done; cbn [cache_map set_map]; [|by rewrite lookup_insert_eq].
      intros k0 l0 Hk0. by rewrite lookup_insert_ne, lookup_delete_ne. }
  rewrite insert_delete_eq in Es1.
  destruct Hcase as [->|(k' & l' & Hk' & ->)].
  { exists s1, l. split; [by rewrite Es1|done]. }
  assert (exists t', tables c2 !! l' = Some t') as [t' Ht'].
  { destruct (ci_cells _ _ _ _ Hi0n k' l' Hk') as (t0 & Ht0 & _).
    destruct (lru_only_cell _ _ _ _ Hlo Ht0) as (t' & ? & _). by exists t'. }
  assert (cell_dirty c2 l' = is_dirty (dirty_info t')) as Hcd by (unfold cell_dirty; by rewrite Ht').
  destruct (decide (k' = k)) as [->|Hne].
  { assert (is_dirty (dirty_info t') = false) as Hc.
    { rewrite <-Hcd, (lru_only_dirty _ _ _ Hlo). unfold c1, cell_dirty. simpl.
      rewrite Hmap in Hk'. specialize (Hstale l' Hk'). unfold cell_dirty in Hstale. rewrite lookup_insert_ne; [done|].
      intros E. apply (Hfresh k). by rewrite Hmap, Hk', <-E. }
    exists s1, l. split; [|done]. rewrite insert_delete_eq. unfold save_refcount_block, read_cell, mbind, sres_bind.
    cbn [rc refcount_blk_cache set_cache tables set_map]. rewrite Ht'. simpl. rewrite Hc. simpl. by rewrite Es1. }
  unfold save_refcount_block, read_cell, gets, on_file, write_cell, modify, mbind, sres_bind.
  cbn [rc refcount_blk_cache set_cache tables set_map hdr rf]. rewrite Ht'. cbn [unwrap].
  assert (cell_ok (csz s) b (rf s) k' t') as Hokv.
  { eapply cached_ok; [exact Hin2|]. unfold cached. cbn [cache_map set_map tables]. rewrite lookup_delete_ne by done.
    by rewrite Hk'. }
  destruct (is_dirty (dirty_info t')) eqn:Ed; cbn [negb].
  - destruct (b k') as [a'|] eqn:Ea'; [|destruct Hokv as [_ _ _ _ _ Hd]; rewrite Ea' in Hd; congruence].
    assert (addr t' = a') as Eaddr by (destruct Hokv as [_ _ _ _ _ Hd]; rewrite Ea' in Hd; by destruct Hd).
    assert (is_aligned (csz s) (addr t') = true) as Hali.
    { rewrite is_aligned_mod by done. apply Z.eqb_eq, Z.mod_divide; [lia|]. rewrite Eaddr. by eapply Hal. }
    cbn [rc_cluster_size rc set_cache hdr rf]. rewrite Hali. cbn [negb rf].
    destruct (write_back_cell (csz s) (proj2 (proj2 (proj2 Hn))) ltac:(lia) b (rf s) k' t' a') as (f' & -> & Hch & Hw); [done..|].
    destruct (replace_inv (csz s) Hc0 b (set_map (cache_map c1) c2) (rf s) f' k l t2 k' l' t' a')
      as (Hi3 & Hv3 & Hv4 & Hm3 & Ht3); try done; [by eapply cell_ok_frame|].
    eexists _, l. split; [done|]. eexists _, f', t2. split_and!; [done|exact Hi3| | |exact Hm3|exact Ht3|done| |].
    + intros k0 Hk0. rewrite <-Hv0. exact (Hv3 k0 Hk0).
    + intros a Ha. rewrite <-Edata. exact (Hv4 a Ha).
    + eapply changed_in_mono; [|done]. intros x Hx. by exists k', a'.
    + eapply (inserted_dirty c1 c2 _ l t2); try done.
      * intros k0 l0 Hk0. simpl. rewrite lookup_insert_ne by done. by intros [_ ?]%lookup_delete_Some.
      * intros l0. unfold cell_dirty. simpl.
        destruct (decide (l0 = l')) as [->|]; [by rewrite lookup_insert_eq|by rewrite lookup_insert_ne].
  - destruct (delete_inv (csz s) Hc0 b (set_map (delete k (cache_map c1)) c2) (rf s) k') as [Hi3 Hv3]; [done| |].
    { intros l0. cbn [cache_map set_map]. rewrite lookup_delete_ne, Hk' by done. intros [= <-]. exact Hcd. }
    destruct (insert_inv (csz s) b (set_map (delete k' (delete k (cache_map c1))) c2) (rf s) k l t2)
      as (Hi4 & Hv4 & Hv5 & _); try done.
    { intros k0. cbn [cache_map set_map]. intros [_ [_ Hk0]%lookup_delete_Some]%lookup_delete_Some. by eapply Hfresh. }
    { cbn [cache_map set_map]. rewrite lookup_delete_ne, lookup_delete_eq by done. done. }
    assert (<[k := l]> (delete k' (delete k (cache_map c1))) = <[k := l]> (delete k' (cache_map c1))) as Em
      by by rewrite delete_delete, insert_delete_eq.
    eexists _, l. split; [done|]. eexists _, (rf s), t2.
    split_and!; [done|rewrite <-Em; exact Hi4| | |simpl; by rewrite lookup_insert_eq|done|done|by apply changed_in_refl; destruct Hf|].
    + intros k0 Hk0. rewrite <-Em, <-Hv0. rewrite <-(Hv3 k0). exact (Hv4 k0 Hk0).
    + intros a Ha. rewrite <-Em, <-Edata. exact (Hv5 a Ha).
    + eapply (inserted_dirty c1 c2 _ l t2); try done; cbn [cache_map set_map]; [|by rewrite lookup_insert_eq].
      intros k0 l0 Hk0. rewrite lookup_insert_ne by done. by intros [_ ?]%lookup_delete_Some.
Qed.
End insert.

(** A state with another cache and file that stand for the same blocks. *)
Lemma wf_quiet s c' f' :
  rc_wf s -> cache_inv (csz s) (blk s) c' f' ->
  (forall k, view (csz s) (blk s) c' f' k = sview s k) -> changed_in (in_blocks (csz s) (blk s)) (rf s) f' ->
  (forall k, dirty_key c' k -> dirty_key (cache s) k) ->
  rc_wf (mkRst (hdr s) (set_cache c' (rc s)) f') /\ quiet s (mkRst (hdr s) (set_cache c' (rc s)) f').
Proof.
  intros [Hg Hl Hc] Hi Hv Hch Hd. split; [|by constructor].
  constructor; [by apply (geo_ok_eq (rc s))| |done]. apply (layout_quiet s); [done|apply (ch_len _ _ _ Hch)|apply (ch_healthy _ _ _ Hch)|done].
Qed.

Lemma load_bytes s k a :
  rc_wf s -> blk s k = Some a ->
  exists f', read_buffer a (csz s) (rf s) = (f', Ok (ztab (bcontent (rf s)) a (Z.to_nat (csz s)))) /\
    (forall x, bcontent f' x = bcontent (rf s) x) /\ blen f' = blen (rf s) /\ bhealthy f'.
Proof.
  intros Hw Ha. pose proof (geo_numbers _ (w_geo _ Hw)). destruct (l_blocks _ (w_layout _ Hw) k a Ha) as (_ & Ha0 & Ha1 & Ha2).
  destruct (read_buffer a (csz s) (rf s)) as [f' r] eqn:E.
  apply read_buffer_law in E as (Hc & Hl & _ & _ & Hh); [|lia..].
  destruct (Hh (l_healthy _ (w_layout _ Hw))) as [? Hr]. exists f'. by rewrite Hr.
Qed.

Lemma block_facts s k a : rc_wf s -> blk s k = Some a ->
  refcount_table (rc s) !! Z.to_nat k = Some a /\ is_aligned (csz s) a = true /\ offset_into_cluster (rc s) a = 0 /\
  0 <= k < rt_size (rc s) /\ a <> 0.
Proof.
  intros Hw Ha. pose proof (geo_numbers _ (w_geo _ Hw)). destruct (l_blocks _ (w_layout _ Hw) k a Ha) as ([q Hq] & _).
  apply blk_of_Some in Ha as (Hk & Ht & Hne). rewrite is_aligned_mod, offset_into_cluster_mod by apply Hw.
  assert (a `mod` csz s = 0) as -> by (rewrite Hq; apply Z.mod_mul; lia). split_and!; try done.
  rewrite (g_rt _ (w_geo _ Hw)). apply lookup_lt_Some in Ht. lia.
Qed.

Lemma load_refcount_block_spec s k a :
  rc_wf s -> blk s k = Some a -> cache_map (cache s) !! k = None ->
  exists c' f' l, load_refcount_block k s = (mkRst (hdr s) (set_cache c' (rc s)) f', Ok tt) /\
    rc_wf (mkRst (hdr s) (set_cache c' (rc s)) f') /\ quiet s (mkRst (hdr s) (set_cache c' (rc s)) f') /\
    cache_map c' !! k = Some l.
Proof.
  intros Hw Ha Hnone. pose proof (geo_numbers _ (w_geo _ Hw)) as Hn.
  destruct (block_facts s k a Hw Ha) as (Ht & Hal & _ & Hk & Hne).
  destruct (load_bytes s k a Hw Ha) as (f1 & Hr & Hc1 & Hl1 & Hh1).
  assert (changed_in (in_blocks (csz s) (blk s)) (rf s) f1) as Hch1 by by constructor.
  destruct (cache_inv_file (csz s) ltac:(lia) (blk s) (cache s) (rf s) f1) as [Hi1 Hv1]; [by apply wf_blocks|by intros|apply Hw|].
  unfold load_refcount_block. unfold mbind, sres_bind, gets, slift. cbn [rc]. rewrite Ht. cbn [unwrap rc].
  rewrite Hal. cbn [negb]. unfold on_file. rewrite Hr. unfold CacheTable_new. cbn [ENTRY_SIZE_U16 Z.eqb].
  set (s1 := mkRst (hdr s) (rc s) f1). set (t := mkTable no_dirty 0 a _ _).
  destruct (insert_block_spec s1 k t (blk s1) (blk s1)) as (s2 & l & -> & Hins).
  - apply Hw.
  - exact (wf_blocks s Hw).
  - by eapply file_ok_changed; [exact (wf_file s Hw)|].
  - intros k0 a0 Ha0. by destruct (l_blocks _ (w_layout _ Hw) k0 a0 Ha0).
  - exact Hi1.
  - by rewrite minus_none.
  - constructor; simpl; [done|rewrite ztab_length; lia| |unfold U64_MAX; lia|done|].
    + apply Forall_lookup. intros i x Hx. pose proof (lookup_lt_Some _ _ _ Hx) as Hi. rewrite ztab_length in Hi.
      rewrite ztab_lookup in Hx by done. injection Hx as <-. apply bcontent_byte.
    + rewrite Ha. split; [done|]. intros i b Hib _. pose proof (lookup_lt_Some _ _ _ Hib) as Hi. rewrite ztab_length in Hi.
      rewrite ztab_lookup in Hib by done. injection Hib as <-. by rewrite Hc1.
  - done.
  - intros l0 Hl0. cbn [rc s1] in Hl0. by rewrite Hnone in Hl0.
  - destruct Hins as (c' & f' & t' & -> & Hi' & Hv' & Hvk & Hm & Ht' & _ & Hch' & Hdk).
    destruct (wf_quiet s c' f') as [Hw' Hq']; [done|exact Hi'| |by eapply changed_in_trans|by intros k0 [_ ?]%Hdk|].
    + intros k0. destruct (decide (k0 = k)) as [->|Hk0].
      * etrans; [exact (Hvk a Ha)|]. unfold sview, view. rewrite Ha. simpl. unfold cached. by rewrite Hnone.
      * etrans; [exact (Hv' k0 Hk0)|]. unfold s1. cbn [rc rf]. rewrite minus_none by done. apply Hv1.
    + exists c', f', l. done.
Qed.

Lemma get_block_spec s k a :
  rc_wf s -> blk s k = Some a ->
  exists c' f' l t, get_block k s = (mkRst (hdr s) (set_cache c' (rc s)) f', Ok l) /\
    rc_wf (mkRst (hdr s) (set_cache c' (rc s)) f') /\ quiet s (mkRst (hdr s) (set_cache c' (rc s)) f') /\
    cache_map c' !! k = Some l /\ tables c' !! l = Some t /\ sview s k = Some (table_data t).
Proof.
  intros Hw Ha. unfold get_block. unfold mbind at 1, sres_bind at 1, gets. cbn [rc].
  assert (exists c1 f1 l, (if contains_keys (cache s) k then mret tt else load_refcount_block k) s =
      (mkRst (hdr s) (set_cache c1 (rc s)) f1, Ok tt) /\ rc_wf (mkRst (hdr s) (set_cache c1 (rc s)) f1) /\
      quiet s (mkRst (hdr s) (set_cache c1 (rc s)) f1) /\ cache_map c1 !! k = Some l) as (c1 & f1 & l & Hr & Hw1 & Hq1 & Hm1).
  { unfold contains_keys. destruct (cache_map (cache s) !! k) as [l|] eqn:E.
    - rewrite bool_decide_eq_true_2 by by eexists. exists (cache s), (rf s), l.
      assert (mkRst (hdr s) (set_cache (cache s) (rc s)) (rf s) = s) as -> by by destruct s as [? []].
      split_and!; [done|done|apply quiet_refl, Hw|done].
    - rewrite bool_decide_eq_false_2 by by intros [? ?].
      destruct (load_refcount_block_spec s k a Hw Ha E) as (c1 & f1 & l & ?). by exists c1, f1, l. }
  rewrite (sres_step _ _ _ _ _ Hr). set (s1 := mkRst (hdr s) (set_cache c1 (rc s)) f1) in *.
  destruct (cache_get_spec c1 k l) as (c2 & Hg & Hlo); [apply (ci_lru _ _ _ _ (w_cache _ Hw1))|done|].
  unfold mbind, sres_bind, on_cache. cbn [rc s1 refcount_blk_cache set_cache]. rewrite Hg. cbn [ok_or slift].
  destruct (lru_only_inv (csz s1) (blk s1) c1 c2 f1 Hlo (w_cache _ Hw1)) as [Hi2 Hv2].
  destruct (wf_quiet s1 c2 f1 Hw1 Hi2) as [Hw2 Hq2]; [done|apply changed_in_refl, Hw1|by intros k0; apply lru_only_dirty_key|].
  destruct (ci_cells _ _ _ _ Hi2 k l) as (t & Ht & Hok); [by rewrite (lo_map _ _ Hlo)|].
  exists c2, f1, l, t. split_and!; [done|exact Hw2|by eapply quiet_trans|by rewrite (lo_map _ _ Hlo)|done|].
  etrans; [symmetry; exact (q_view _ _ Hq1 k)|]. etrans; [symmetry; exact (Hv2 k)|]. unfold view, cached.
  rewrite (lo_map _ _ Hlo), Hm1. unfold s1. cbn [rc set_cache refcount_table]. by rewrite Ha; simpl; rewrite Ht.
Qed.

(** *** Reading a count *)

Lemma table_entry s k : rc_wf s -> 0 <= k < rt_size (rc s) ->
  exists a, refcount_table (rc s) !! Z.to_nat k = Some a /\ (a = 0 /\ blk s k = None \/ blk s k = Some a).
Proof.
  intros Hw Hk. rewrite (g_rt _ (w_geo _ Hw)) in Hk.
  destruct (lookup_lt_is_Some_2 (refcount_table (rc s)) (Z.to_nat k) ltac:(lia)) as [a Ha]. exists a. split; [done|].
  unfold blk_of. rewrite (proj2 (Z.ltb_ge _ _)), Ha by lia. destruct (Z.eqb_spec a 0); auto.
Qed.
Lemma mask_block s k a : rc_wf s -> blk s k = Some a -> Z.land a REFCOUNT_TABLE_OFFSET_MASK = a.
Proof.
  intros Hw Ha. pose proof (geo_numbers _ (w_geo _ Hw)) as (Hn & _ & _ & [p Hp]).
  destruct (l_blocks _ (w_layout _ Hw) k a Ha) as ([q Hq] & Ha0 & Ha1 & _).
  assert (a = p * q * 2 ^ 9) as -> by (change (2 ^ 9) with 512; rewrite Hq, Hp; lia).
  change REFCOUNT_TABLE_OFFSET_MASK with (Z.shiftl (Z.ones 55) 9). rewrite <-Z.shiftl_mul_pow2, <-Z.shiftl_land by lia.
  rewrite Z.land_ones by lia. f_equal. apply Z.mod_small. change (2 ^ 9) with 512 in *. lia.
Qed.
Lemma refcount_of_none s c : blk s (c / refcount_blk_size (rc s)) = None -> refcount_of s c = 0.
Proof. intros Hb. unfold refcount_of, sview, view. by rewrite Hb. Qed.

Definition upd s c' f' : rst F := mkRst (hdr s) (set_cache c' (rc s)) f'.
Lemma upd_self s : upd s (cache s) (rf s) = s.
Proof. by destruct s as [? []]. Qed.

Lemma cell_get s k l t i :
  rc_wf s -> cache_map (cache s) !! k = Some l -> tables (cache s) !! l = Some t ->
  0 <= i < refcount_blk_size (rc s) -> get_entry_map t i = Ok (entry16 (table_data t) i) /\ is_u16 (entry16 (table_data t) i).
Proof.
  intros Hw Hl Ht Hi. pose proof (geo_numbers _ (w_geo _ Hw)).
  destruct (cached_ok _ _ _ _ k t (w_cache _ Hw)) as [He Hlen Hb _ _ _]; [unfold cached; by rewrite Hl|].
  split; [apply get_entry16; [done|lia..]|apply entry16_bound; [done|lia..]].
Qed.

Lemma get_refcount_spec s offset :
  rc_wf s -> 0 <= offset ->
  exists c' f', get_refcount offset s = (upd s c' f', Ok (refcount_of s (offset / csz s))) /\
    rc_wf (upd s c' f') /\ quiet s (upd s c' f').
Proof.
  intros Hw Ho. pose proof (geo_numbers _ (w_geo _ Hw)). set (c := offset / csz s).
  assert (0 <= c) by (apply Z.div_pos; lia). set (bs := refcount_blk_size (rc s)) in *.
  assert (0 <= c / bs) by (apply Z.div_pos; lia).
  assert (refcount_of s c = 0 -> exists c' f', (s, Ok 0) = (upd s c' f', @Ok unit Z (refcount_of s c)) /\
    rc_wf (upd s c' f') /\ quiet s (upd s c' f')) as Hzero.
  { intros ->. exists (cache s), (rf s). rewrite upd_self. split_and!; [done..|apply quiet_refl, Hw]. }
  unfold get_refcount, mbind, sres_bind, gets, slift. cbn [id]. rewrite shr_bits, shr_blk by apply Hw. fold c bs.
  destruct (Z.leb_spec (rt_size (rc s)) (c / bs)) as [Hge|Hlt].
  { apply Hzero, refcount_of_none. fold bs. destruct (blk s (c / bs)) as [a|] eqn:Ea; [|done].
    destruct (block_facts s _ a Hw Ea) as (_ & _ & _ & Hk & _). lia. }
  destruct (table_entry s (c / bs) Hw ltac:(lia)) as (a & -> & Hcase). cbn [unwrap].
  destruct Hcase as [[-> Hn]|Hb]; [by apply Hzero, refcount_of_none|].
  rewrite (mask_block s _ a Hw Hb). destruct (block_facts s _ a Hw Hb) as (_ & _ & -> & Hk & Hne).
  rewrite (proj2 (Z.eqb_neq _ _)) by done. cbn [Z.eqb negb].
  destruct (get_block_spec s (c / bs) a Hw Hb) as (c' & f' & l & t & -> & Hw' & Hq & Hm & Ht & Hv).
  unfold read_cell. cbn [rc set_cache refcount_blk_cache]. rewrite Ht. cbn [unwrap].
  rewrite cluster_in_rc_block_mod by apply Hw. fold bs.
  destruct (cell_get _ (c / bs) l t (c `mod` bs) Hw' Hm Ht) as [-> Hu]; [exact (Z.mod_pos_bound c bs ltac:(lia))|]. cbn [unwrap_res].
  exists c', f'. split_and!; [|done..]. unfold upd. do 2 f_equal. rewrite wrap_small by done.
  unfold refcount_of. fold bs. by rewrite Hv.
Qed.
End refspec.
