(* ===== verification/Qcow2RefcountUpdate.v ===== *)
(** * Changing reference counts

    [update_refcount] adds a number to the counts of a range of clusters, or
    fails and leaves every count as it was. *)
From stdpp Require Import prelude list gmap.
From Stdlib Require Import ZArith Lia.
From S2P Require Import Prelude NumOps Qcow2Header SyncAio Qcow2Io Qcow2Cache Qcow2CacheSpec Qcow2Refcount Qcow2RefcountSpec.

(** ** Discard tasks *)

Definition task_covers (cs : Z) (t : DiscardTask) (c : Z) : Prop :=
  task_offset t <= c * cs < task_offset t + task_nbytes t.
Record task_wf (cs : Z) (t : DiscardTask) : Prop := mkTaskWf {
  tw_off : (cs | task_offset t);
  tw_len : (cs | task_nbytes t);
  tw_pos : 0 <= task_offset t;
  tw_ne : 0 < task_nbytes t;
  tw_end : task_offset t + task_nbytes t <= 2 ^ 62
}.
Definition tasks_ok (cs : Z) (Q : Z -> Prop) (l : list DiscardTask) : Prop :=
  forall t, t ∈ l -> task_wf cs t /\ forall c, task_covers cs t c -> Q c.

Lemma tasks_ok_mono cs (Q Q' : Z -> Prop) l : (forall c, Q c -> Q' c) -> tasks_ok cs Q l -> tasks_ok cs Q' l.
Proof. intros HQ Hl t Ht. destruct (Hl t Ht). split; auto. Qed.
Lemma tasks_ok_snoc cs Q l t :
  tasks_ok cs Q l -> task_wf cs t -> (forall c, task_covers cs t c -> Q c) -> tasks_ok cs Q (l ++ [t]).
Proof. intros Hl Hw Hc t0. rewrite elem_of_app, list_elem_of_singleton. intros [?| ->]; [by apply Hl|done]. Qed.

Lemma merge_task_wf cs a b :
  task_wf cs a -> task_wf cs b -> is_overlap a b = true ->
  task_wf cs (merge_task a b) /\ forall c, task_covers cs (merge_task a b) c -> task_covers cs a c \/ task_covers cs b c.
Proof.
  intros [Ao Al Ap An Ae] [Bo Bl Bp Bn Be]. unfold is_overlap, merge_task, task_covers.
  rewrite !wadd_small by (unfold inW; lia). intros [H1%Z.ltb_ge H2%Z.ltb_ge]%negb_true_iff%orb_false_iff.
  rewrite wsub_small by (unfold inW; lia). split; [|simpl; lia].
  assert ((cs | task_offset a + task_nbytes a)) by by apply Z.divide_add_r.
  assert ((cs | task_offset b + task_nbytes b)) by by apply Z.divide_add_r.
  assert ((cs | Z.min (task_offset a) (task_offset b))) by by apply Z.min_case.
  constructor; simpl; [done| |lia..]. apply Z.divide_sub_r; [by apply Z.max_case|done].
Qed.

(** The clusters a list gains by [update_discard_list] are those of the new task. *)
Lemma fold_tasks_ok cs Q tasks task l task' l' :
  tasks_ok cs Q tasks -> tasks_ok cs Q l -> task_wf cs task -> (forall c, task_covers cs task c -> Q c) ->
  foldl (fun '(task, l) t => if is_overlap task t then (merge_task task t, l) else (task, l ++ [t])) (task, l) tasks
    = (task', l') -> tasks_ok cs Q (l' ++ [task']).
Proof.
  revert task l. induction tasks as [|t tasks IH]; intros task l Ht Hl Hw Hc; simpl.
  { intros [= <- <-]. by apply tasks_ok_snoc. }
  destruct (Ht t ltac:(by left)) as [Htw Htc].
  assert (tasks_ok cs Q tasks) as Ht' by (intros t0 Ht0; apply Ht; by right).
  destruct (is_overlap task t) eqn:E; apply IH; try done; [| |by apply tasks_ok_snoc].
  - by apply merge_task_wf.
  - intros c [?|?]%merge_task_wf; auto.
Qed.

(** ** The two loops of [set_refcount] *)

Section update.
Context `{!HashIter} {F : Type} `{!BlockIo F, !BlockIoLaws F}.
Implicit Types s : rst F.

(** Only the discard list and the search start change, by clusters of [P]. *)
Record noted (P : Z -> Prop) s s' : Prop := mkNoted {
  nt_state : exists d i, s' = mkRst (hdr s) (set_discards d (set_free i (rc s))) (rf s);
  nt_free : free_cluster_index (rc s') = free_cluster_index (rc s) \/
            P (free_cluster_index (rc s')) /\ free_cluster_index (rc s') < free_cluster_index (rc s);
  nt_tasks : forall Q, tasks_ok (rc_cluster_size (rc s)) Q (discard_list (rc s)) ->
             tasks_ok (rc_cluster_size (rc s)) (fun c => Q c \/ P c) (discard_list (rc s'))
}.

Lemma noted_refl P s : noted P s s.
Proof.
  constructor; [|by left|intros Q; apply tasks_ok_mono; auto].
  exists (discard_list (rc s)), (free_cluster_index (rc s)). by destruct s as [? []].
Qed.
Lemma noted_trans P s1 s2 s3 : noted P s1 s2 -> noted P s2 s3 -> noted P s1 s3.
Proof.
  intros [(d1 & i1 & ->) F1 T1] [(d2 & i2 & ->) F2 T2]. constructor; simpl in *.
  - by exists d2, i2.
  - destruct F1, F2; intuition (lia || congruence).
  - intros Q HQ. eapply tasks_ok_mono; [|by apply T2, T1]. simpl. tauto.
Qed.
Lemma noted_mono (P P' : Z -> Prop) s s' : (forall c, P c -> P' c) -> noted P s s' -> noted P' s s'.
Proof.
  intros HP [S1 F1 T1]. constructor; [done|intuition|]. intros Q HQ. eapply tasks_ok_mono; [|by apply T1]. simpl. naive_solver.
Qed.

Lemma update_discard_noted (P : Z -> Prop) s c :
  0 < rc_cluster_size (rc s) -> 0 <= c -> c * rc_cluster_size (rc s) < 2 ^ 61 -> rc_cluster_size (rc s) < 2 ^ 61 -> P c ->
  exists s', update_discard_list (c * rc_cluster_size (rc s)) (rc_cluster_size (rc s)) s = (s', Ok tt) /\ noted P s s'.
Proof.
  intros Hcs Hc Hb Hb' HP. unfold update_discard_list, modify. eexists. split; [done|].
  destruct (foldl _ _ _) as [task l] eqn:E. constructor; simpl.
  - exists (l ++ [task]), (free_cluster_index (rc s)). by destruct s as [? []].
  - by left.
  - intros Q HQ. eapply fold_tasks_ok; [| | | |exact E].
    + eapply tasks_ok_mono; [|exact HQ]. auto.
    + intros t Ht. by apply not_elem_of_nil in Ht.
    + constructor; simpl; [by exists c|by exists 1; lia|nia|lia|lia].
    + unfold task_covers; simpl. intros c' Hc'. right. assert (c' = c) as -> by nia. done.
Qed.

(** What the loops need of the block of a key. *)
Record block_cell s (k : Z) (t : CacheTable) : Prop := mkBlockCell {
  bc_key : 0 <= k < rt_size (rc s);
  bc_esize : entry_size t = 2;
  bc_len : Z.of_nat (length (table_data t)) = rc_cluster_size (rc s);
  bc_bytes : is_bytes (table_data t)
}.

(** One new count: the sum, when it is a 16-bit number. *)
Lemma count_step r (v added : Z) :
  refcount_max r = 65535 -> is_u16 v -> Z.abs added <= 65535 ->
  (if 0 <? added
   then match checked_add 16 v (wrap 16 (Z.abs added)) with
        | Some v => if v <=? wrap 16 (refcount_max r) then mret v else sfail tt
        | None => sfail tt
        end
   else slift (ok_or (checked_sub v (wrap 16 (Z.abs added))) tt)) =
  (if decide (is_u16 (v + added)) then mret (v + added) else sfail tt : sres (rst F) unit Z).
Proof.
  intros Hm Hv Ha. unfold is_u16, inW in *. change (2 ^ 16) with 65536 in *. rewrite Hm.
  rewrite (wrap_small 16 (Z.abs added)), (wrap_small 16 65535) by (unfold inW; lia).
  unfold checked_add, checked_sub. change (2 ^ 16) with 65536. destruct (Z.ltb_spec 0 added).
  - rewrite Z.abs_eq by lia. destruct (Z.ltb_spec (v + added) 65536).
    + rewrite (proj2 (Z.leb_le _ _)) by lia. by rewrite decide_True by lia.
    + by rewrite decide_False by lia.
  - rewrite Z.abs_neq by lia. destruct (Z.leb_spec (- added) v).
    + rewrite decide_True by lia. replace (v - - added) with (v + added) by lia. done.
    + by rewrite decide_False by lia.
Qed.

Section counts.
Context (k rb added : Z) (t : CacheTable) (dt : Qcow2DiscardType).
Context (Hadded : Z.abs added <= 65535) (Hrb : 0 <= rb).

(** The clusters of the range whose count becomes zero. *)
Definition freed (bs i n c : Z) : Prop :=
  exists j, i <= j < i + n /\ c = k * bs + rb + j /\ entry16 (table_data t) (rb + j) + added = 0.

Lemma new_counts_spec n i s :
  geo_ok (rc s) -> block_cell s k t -> 0 <= i -> rb + i + Z.of_nat n <= refcount_blk_size (rc s) ->
  exists s' r, new_counts n i t k rb added dt s = (s', r) /\
    noted (freed (refcount_blk_size (rc s)) i (Z.of_nat n)) s s' /\
    ((exists vs, r = Ok vs /\ length vs = n /\
        forall j v, vs !! j = Some v -> v = entry16 (table_data t) (rb + i + Z.of_nat j) + added /\ is_u16 v) \/
     r = Err tt /\ exists j, i <= j < i + Z.of_nat n /\ ~ is_u16 (entry16 (table_data t) (rb + j) + added)).
Proof.
  revert i s. induction n as [|n IH]; intros i s Hg Hb Hi Hn.
  { exists s, (Ok []). split_and!; [done|apply noted_refl|]. left. by exists []. }
  pose proof (geo_numbers _ Hg) as Hgn. pose proof Hb as [Hk He Hl Hby].
  set (bs := refcount_blk_size (rc s)) in *. pose proof (g_cover _ Hg) as Hcov. fold bs in Hcov.
  cbn [new_counts]. rewrite wadd_small by (unfold inW; lia).
  unfold mbind at 1, sres_bind at 1, slift at 1. rewrite (get_entry16 t (rb + i) He) by lia.
  pose proof (entry16_bound (table_data t) (rb + i) Hby ltac:(lia) ltac:(lia)) as Hu.
  set (v := entry16 (table_data t) (rb + i)) in *. rewrite (wrap_small 16 v) by done.
  unfold mbind at 1, sres_bind at 1, gets. cbn [id]. rewrite count_step by (done || apply Hg).
  case_decide as Hd.
  2:{ exists s, (Err tt). split_and!; [done|apply noted_refl|]. right. split; [done|]. exists i. split; [lia|done]. }
  rewrite sret_bind. unfold mbind at 1, sres_bind at 1.
  assert (0 <= k * bs + rb + i /\ (k * bs + rb + i) * rc_cluster_size (rc s) < 2 ^ 61) as [Hc0 Hc1] by nia.
  rewrite (wmul_small 64 k), (wadd_small 64 (k * bs)), (wadd_small 64 (k * bs + rb)) by (unfold inW; nia).
  rewrite wmul_small by (unfold inW; nia).
  assert (exists s1, (if v + added =? 0
     then _ ← (if bool_decide (dt ∈ discard_passthrough (rc s))
               then update_discard_list ((k * bs + rb + i) * rc_cluster_size (rc s)) (rc_cluster_size (rc s)) else mret tt);
          (if k * bs + rb + i <? free_cluster_index (rc s) then modify (set_free (k * bs + rb + i)) else mret tt)
     else mret tt) s = (s1, Ok tt) /\ noted (freed bs i (Z.of_nat (S n))) s s1) as (s1 & -> & Hn1).
  { destruct (Z.eqb_spec (v + added) 0) as [Hz|]; [|exists s; split; [done|apply noted_refl]].
    assert (freed bs i (Z.of_nat (S n)) (k * bs + rb + i)) as Hf by (exists i; split; [lia|done]).
    assert (exists s0, (if bool_decide (dt ∈ discard_passthrough (rc s))
       then update_discard_list ((k * bs + rb + i) * rc_cluster_size (rc s)) (rc_cluster_size (rc s)) else mret tt) s
       = (s0, Ok tt) /\ noted (freed bs i (Z.of_nat (S n))) s s0 /\ free_cluster_index (rc s0) = free_cluster_index (rc s))
      as (s0 & Hs0 & Hn0 & Hf0).
    { case_bool_decide; [|exists s; split_and!; [done|apply noted_refl|done]].
      destruct (update_discard_noted (freed bs i (Z.of_nat (S n))) s (k * bs + rb + i)) as (s0 & E & Hn0); [lia..|done|].
      exists s0. split_and!; [done..|]. unfold update_discard_list, modify in E. injection E as <-. simpl.
      by destruct (foldl _ _ _). }
    rewrite (sres_step _ _ _ _ _ Hs0). destruct (Z.ltb_spec (k * bs + rb + i) (free_cluster_index (rc s))) as [Hlt|].
    - eexists. split; [done|]. eapply noted_trans; [done|]. constructor; simpl.
      + exists (discard_list (rc s0)), (k * bs + rb + i). by destruct s0 as [? []].
      + right. split; [done|lia].
      + intros Q. apply tasks_ok_mono. auto.
    - by exists s0. }
  destruct (nt_state _ _ _ Hn1) as (d1 & i1 & E1).
  destruct (IH (i + 1) s1) as (s' & r & Hr & Hn' & Hcase).
  { rewrite E1. by destruct Hg. } { rewrite E1. by constructor. } { lia. } { rewrite E1. simpl. fold bs. lia. }
  assert (noted (freed bs i (Z.of_nat (S n))) s s') as Hns.
  { eapply noted_trans; [done|]. eapply noted_mono; [|exact Hn']. rewrite E1. simpl. fold bs.
    intros c (j & Hj & Hc). exists j. split; [lia|done]. }
  unfold mbind, sres_bind. rewrite Hr. destruct Hcase as [(vs & -> & Hlen & Hvs)|[-> (j & Hj & Hbad)]].
  - exists s', (Ok (v + added :: vs)). split_and!; [done..|]. left. eexists. split; [done|]. split; [simpl; lia|].
    intros [|j] v'; simpl; [intros [= <-]|intros Hv'].
    + rewrite Z.add_0_r. split; [reflexivity|exact Hd].
    + replace (rb + i + Z.of_nat (S j)) with (rb + (i + 1) + Z.of_nat j) by lia. by apply Hvs.
  - exists s', (Err tt). split_and!; [done..|]. right. split; [done|]. exists j. split; [lia|done].
Qed.
End counts.

Lemma store_counts_spec vs i rb t :
  0 <= rb -> 0 <= i -> entry_size t = 2 -> is_bytes (table_data t) -> Forall is_u16 vs -> rb + i + Z.of_nat (length vs) < 2 ^ 32 ->
  2 * (rb + i + Z.of_nat (length vs)) <= Z.of_nat (length (table_data t)) ->
  exists t', store_counts vs i rb t = Ok t' /\ entry_size t' = 2 /\ length (table_data t') = length (table_data t) /\
    is_bytes (table_data t') /\ lru_count t' = lru_count t /\ addr t' = addr t /\
    dirty_info t' = match vs with [] => dirty_info t | _ =>
      mkDirty true (Z.min (start (dirty_info t)) (2 * (rb + i)))
        (Z.max (end_ (dirty_info t)) (2 * (rb + i + Z.of_nat (length vs)))) end /\
    (forall x : nat, ~ 2 * (rb + i) <= Z.of_nat x < 2 * (rb + i + Z.of_nat (length vs)) ->
       table_data t' !! x = table_data t !! x) /\
    (forall j, 0 <= j -> 2 * j + 2 <= Z.of_nat (length (table_data t)) ->
       entry16 (table_data t') j =
         if decide (rb + i <= j) then default (entry16 (table_data t) j) (vs !! Z.to_nat (j - (rb + i))) else entry16 (table_data t) j).
Proof.
  intros Hrb. revert i t. induction vs as [|v vs IH]; intros i t Hi He Hb Hvs Hs Hl.
  { exists t. split_and!; try done. intros j _ _. by case_decide. }
  apply Forall_cons in Hvs as [Hv Hvs]. cbn [length store_counts] in *. rewrite wadd_small by (unfold inW; lia).
  rewrite (set_entry16 t (rb + i) He) by lia. simpl. rewrite (wrap_small 16 v) by done.
  set (t1 := mkTable _ _ _ _ _).
  assert (length (table_data t1) = length (table_data t)) as Hl1 by (simpl; rewrite splice_length; rewrite ?be_bytes_length; lia).
  destruct (IH (i + 1) t1) as (t' & -> & He' & Hl' & Hb' & Hlru & Had & Hd & Hx & Hj); try done; try lia.
  { simpl. apply is_bytes_splice; [done|apply be_bytes_is_bytes]. }
  exists t'. split_and!; try done; [lia| | |].
  - rewrite Hd. destruct vs; simpl; [|f_equal]; try (f_equal; lia); lia.
  - intros x Hxn. rewrite Hx by lia. simpl. rewrite lookup_splice by (rewrite be_bytes_length; lia).
    rewrite decide_False; [done|]. rewrite be_bytes_length. lia.
  - intros j Hj0 Hjl. rewrite Hj by lia. simpl. rewrite entry16_splice by lia || done.
    destruct (decide (j = rb + i)) as [->|].
    + rewrite decide_False, decide_True by lia. by rewrite Z.sub_diag.
    + case_decide; case_decide; try lia.
      replace (Z.to_nat (j - (rb + i))) with (S (Z.to_nat (j - (rb + (i + 1))))) by lia. done.
Qed.

(** ** Steps that add to counts *)

(** Every count grows by [g]; clusters of [P] may be noted as free. *)
Record step (P : Z -> Prop) (g : Z -> Z) s s' : Prop := mkStep {
  st_wf : rc_wf s';
  st_hdr : hdr s' = hdr s;
  st_geo : geo (rc s') = geo (rc s);
  st_file : changed_in (in_blocks (rc_cluster_size (rc s)) (blk_of (refcount_table (rc s)))) (rf s) (rf s');
  st_count : forall c, refcount_of s' c = refcount_of s c + g c;
  st_free : free_cluster_index (rc s') = free_cluster_index (rc s) \/
            P (free_cluster_index (rc s')) /\ free_cluster_index (rc s') < free_cluster_index (rc s);
  st_tasks : forall Q, tasks_ok (rc_cluster_size (rc s)) Q (discard_list (rc s)) ->
             tasks_ok (rc_cluster_size (rc s)) (fun c => Q c \/ P c) (discard_list (rc s'))
}.

Lemma step_trans (P1 P2 P : Z -> Prop) g1 g2 g s1 s2 s3 :
  step P1 g1 s1 s2 -> step P2 g2 s2 s3 -> (forall c, P1 c -> P c) -> (forall c, P2 c -> P c) ->
  (forall c, g c = g1 c + g2 c) -> step P g s1 s3.
Proof.
  intros [W1 H1 G1 C1 K1 F1 T1] [W2 H2 G2 C2 K2 F2 T2] HP1 HP2 Hgg.
  destruct (geo_fields _ _ G1) as (Et & Ec & _). rewrite Et, Ec in C2. rewrite Ec in T2. constructor.
  - done.
  - congruence.
  - congruence.
  - by eapply changed_in_trans.
  - intros c. rewrite K2, K1, Hgg. lia.
  - destruct F1 as [F1|[? ?]], F2 as [F2|[? ?]]; [left; congruence|right..]; split; rewrite ?F2; auto; lia.
  - intros Q HQ. eapply tasks_ok_mono; [|by apply T2, T1]. simpl. naive_solver.
Qed.

Lemma quiet_step s c' f' :
  rc_wf (upd s c' f') -> quiet s (upd s c' f') -> step (fun _ => False) (fun _ => 0) s (upd s c' f').
Proof.
  intros Hw Hq. constructor; [done|apply Hq|apply Hq|apply (q_file _ _ Hq)| |by left|].
  - intros c. rewrite (quiet_refcount _ _ _ Hq). lia.
  - intros Q. apply tasks_ok_mono. auto.
Qed.
Lemma noted_step P s s' : rc_wf s -> noted P s s' -> step P (fun _ => 0) s s'.
Proof.
  intros [Hg Hl Hc] [(d & i & ->) Hf Ht]. constructor; try done.
  - constructor; [by apply (geo_ok_eq (rc s))|by apply (layout_quiet s); try apply Hl|done].
  - apply changed_in_refl, Hl.
  - intros c. rewrite Z.add_0_r. done.
Qed.
Lemma step_refl s : rc_wf s -> step (fun _ => False) (fun _ => 0) s s.
Proof. intros. apply noted_step; [done|apply noted_refl]. Qed.

Definition inr (lo hi c : Z) : Prop := lo <= c < hi.
Definition delta (lo hi added c : Z) : Z := if decide (lo <= c < hi) then added else 0.

(** A cluster of a block and its index in it. *)
Lemma cluster_split bs k rb c : 0 < bs -> 0 <= rb < bs -> (c / bs = k /\ c `mod` bs = rb) <-> c = k * bs + rb.
Proof.
  intros Hb Hr. pose proof (Z.div_mod c bs ltac:(lia)). pose proof (Z.mod_pos_bound c bs Hb). split; [lia|intros ->].
  rewrite Z.add_comm, Z.div_add, Z.mod_add, Z.div_small, Z.mod_small by lia. lia.
Qed.

(** The counts after a block has been rewritten. *)
Lemma block_counts s s' k rb vs added (bytes bytes' : list Z) :
  rc_wf s -> geo (rc s') = geo (rc s) -> 0 <= rb -> sview s k = Some bytes -> sview s' k = Some bytes' ->
  (forall k', k' <> k -> sview s' k' = sview s k') ->
  (forall j v, vs !! j = Some v -> v = entry16 bytes (rb + Z.of_nat j) + added) ->
  (forall j, 0 <= j -> 2 * j + 2 <= Z.of_nat (length bytes) ->
     entry16 bytes' j = if decide (rb <= j) then default (entry16 bytes j) (vs !! Z.to_nat (j - rb)) else entry16 bytes j) ->
  rb + Z.of_nat (length vs) <= refcount_blk_size (rc s) ->
  let lo := k * refcount_blk_size (rc s) + rb in
  forall c, refcount_of s' c = refcount_of s c + delta lo (lo + Z.of_nat (length vs)) added c.
Proof.
  intros Hw G Hrb Hv Hv' Hoth Hvs Hj Hle lo c. destruct (geo_fields _ _ G) as (_ & _ & Eb & _).
  pose proof (geo_numbers _ (w_geo _ Hw)). destruct (view_bytes _ _ _ Hw Hv) as [_ Hlen].
  unfold refcount_of. rewrite Eb. set (bs := refcount_blk_size (rc s)) in *.
  pose proof (Z.mod_pos_bound c bs ltac:(lia)). pose proof (Z.div_mod c bs ltac:(lia)).
  destruct (decide (c / bs = k)) as [Ek|Ek].
  - rewrite Ek, Hv', Hv. assert (c - lo = c `mod` bs - rb) as Hcl by (unfold lo; lia).
    rewrite Hj by lia. unfold delta. case_decide as Hd1; [|rewrite decide_False by lia; lia].
    destruct (vs !! Z.to_nat (c `mod` bs - rb)) as [v|] eqn:Ev; simpl.
    + rewrite (Hvs _ _ Ev). apply lookup_lt_Some in Ev. rewrite decide_True by lia. do 2 f_equal. lia.
    + apply lookup_ge_None in Ev. rewrite decide_False by lia. lia.
  - rewrite (Hoth _ Ek). unfold delta. rewrite decide_False; [lia|]. intros Hc. apply Ek.
    apply (cluster_split bs k (c - k * bs)); unfold lo in Hc; lia.
Qed.

Section set.
Context s (k a rb : Z) (n : nat) (added : Z) (dt : Qcow2DiscardType).
Context (Hw : rc_wf s) (Ha : blk_of (refcount_table (rc s)) k = Some a).
Context (Hadded : Z.abs added <= 65535) (Hrb : 0 <= rb) (Hn : (0 < n)%nat).
Context (Hsz : rb + Z.of_nat n <= refcount_blk_size (rc s)).

Let lo := k * refcount_blk_size (rc s) + rb.
Let hi := lo + Z.of_nat n.
Let zero c := inr lo hi c /\ refcount_of s c + added = 0.

Lemma block_entry bytes c : sview s k = Some bytes -> inr lo hi c -> refcount_of s c = entry16 bytes (rb + (c - lo)).
Proof.
  intros Hv Hc. pose proof (geo_numbers _ (w_geo _ Hw)). unfold inr, hi, lo in Hc.
  destruct (proj2 (cluster_split (refcount_blk_size (rc s)) k (rb + (c - lo)) c ltac:(lia) ltac:(unfold lo; lia))) as [E1 E2];
    [unfold lo; lia|]. unfold refcount_of. by rewrite E1, Hv, E2.
Qed.

(** The table of a block with its counts stored, in the cache. *)
Lemma store_step c1 f1 s2 l t vs :
  rc_wf (upd s c1 f1) -> quiet s (upd s c1 f1) -> noted zero (upd s c1 f1) s2 ->
  cache_map c1 !! k = Some l -> tables c1 !! l = Some t -> sview s k = Some (table_data t) -> length vs = n ->
  (forall j v, vs !! j = Some v -> v = entry16 (table_data t) (rb + Z.of_nat j) + added /\ is_u16 v) ->
  exists t' c3, store_counts vs 0 rb t = Ok t' /\ step zero (delta lo hi added) s (mkRst (hdr s) (set_cache c3 (rc s2)) f1) /\
    c3 = let c2 := set_tables (<[l := t']> (tables c1)) c1 in if is_dirty (dirty_info t) then c2 else add_dirty_table l c2.
Proof.
  intros Hw1 Hq1 Hno Hm Ht Hv Hvl Hvs. pose proof (geo_numbers _ (w_geo _ Hw)) as Hgn.
  destruct (cached_ok _ _ _ _ k t (w_cache _ Hw1)) as [He Hlen Hby Hlru Hdd _];
    [unfold cached, upd; simpl; by rewrite Hm|]. cbn [upd rc set_cache rc_cluster_size] in Hlen, Hdd.
  destruct (store_counts_spec vs 0 rb t) as (t' & Hst & He' & Hl' & Hb' & Hlru' & Had & Hd & Hx & Hj); try done; try lia.
  { apply Forall_lookup. intros j v Hv'. by destruct (Hvs j v Hv'). }
  rewrite Z.add_0_r in *. assert (dirty_info t' = mkDirty true (Z.min (start (dirty_info t)) (2 * rb))
    (Z.max (end_ (dirty_info t)) (2 * (rb + Z.of_nat n)))) as Hd' by (rewrite Hd, <-Hvl; destruct vs; [simpl in *; lia|done]).
  destruct (write_inv (rc_cluster_size (rc s)) (blk_of (refcount_table (rc s))) c1 f1 k l t t' a) as (Hi3 & Hv3 & Hv4);
    try done; [apply Hw1|by rewrite Hd'|rewrite Hd'; simpl| |].
  { destruct (is_dirty (dirty_info t)); [lia|]. rewrite Hdd. simpl. unfold U64_MAX. lia. }
  { intros x Hnx. unfold in_dirty in *. rewrite Hd' in Hnx. simpl in Hnx. split; [lia|]. apply Hx. lia. }
  eexists t', _. split_and!; [done| |reflexivity]. set (c3 := if is_dirty _ then _ else _) in *.
  destruct (nt_state _ _ _ Hno) as (d2 & i2 & Es2).
  assert (geo (rc s2) = geo (rc s)) as Hg2 by by rewrite Es2.
  pose proof (quiet_step s c1 f1 Hw1 Hq1) as St1.
  constructor; [|done|done|apply (st_file _ _ _ _ St1)| |exact (nt_free _ _ _ Hno)|exact (nt_tasks _ _ _ Hno)].
  - rewrite Es2. constructor; [by apply (geo_ok_eq (rc s)), Hw| |exact Hi3].
    apply (layout_quiet (upd s c1 f1)); [done|done|apply (w_layout _ Hw1)|apply Hw1].
  - unfold hi. rewrite <-Hvl. eapply block_counts; [done|done|done|done| | | |done|lia]; unfold sview.
    + rewrite Es2. exact Hv4.
    + intros k' Hk'. rewrite Es2. etrans; [exact (Hv3 k' Hk')|]. exact (q_view _ _ Hq1 k').
    + intros j v Hjv. by destruct (Hvs j v Hjv).
Qed.

Lemma set_refcount_spec :
  exists s' r, set_refcount k rb n added dt s = (s', r) /\
    (r = Ok tt /\ step zero (delta lo hi added) s s' /\ (forall c, inr lo hi c -> is_u16 (refcount_of s c + added)) \/
     r = Err tt /\ step zero (fun _ => 0) s s' /\ exists c, inr lo hi c /\ ~ is_u16 (refcount_of s c + added)).
Proof.
  destruct (block_facts s k a Hw Ha) as (_ & _ & _ & Hk & _).
  destruct (get_block_spec s k a Hw Ha) as (c1 & f1 & l & t & Hgb & Hw1 & Hq1 & Hm & Ht & Hv).
  fold (upd s c1 f1) in *. unfold set_refcount. rewrite (sres_step _ _ _ _ _ Hgb).
  assert (read_cell l (upd s c1 f1) = (upd s c1 f1, Ok t)) as Hrd by (unfold read_cell, upd; simpl; by rewrite Ht).
  rewrite (sres_step _ _ _ _ _ Hrd).
  destruct (new_counts_spec k rb added t dt Hadded Hrb n 0 (upd s c1 f1)) as (s2 & r & Hnc & Hno & Hcase);
    [apply Hw1| |lia|unfold upd; simpl; lia|].
  { destruct (cached_ok _ _ _ _ k t (w_cache _ Hw1)); [unfold cached, upd; simpl; by rewrite Hm|]. by constructor. }
  assert (noted zero (upd s c1 f1) s2) as Hno'.
  { eapply noted_mono; [|exact Hno]. intros c (j & Hj & Ec & Hz). cbn [upd rc set_cache refcount_blk_size] in Ec.
    assert (inr lo hi c) as Hc by (unfold inr, hi, lo; lia). split; [done|]. rewrite (block_entry _ c Hv Hc).
    replace (c - lo) with j by (unfold lo; lia). done. }
  destruct Hcase as [(vs & -> & Hvl & Hvs)|[-> (j & Hj & Hbad)]].
  - rewrite Z.add_0_r in Hvs. destruct (store_step c1 f1 s2 l t vs) as (t' & c3 & Hst & St & Ec3); try done.
    rewrite (sres_step _ _ _ _ _ Hnc). unfold mbind, sres_bind, slift. rewrite Hst. eexists _, (Ok tt). split; [|left; split; [done|split; [exact St|]]].
    + destruct (nt_state _ _ _ Hno) as (d2 & i2 & ->). rewrite Ec3. unfold write_cell, modify, on_cache, upd. cbn [rc rf hdr].
      by destruct (is_dirty (dirty_info t)).
    + intros c Hc. rewrite (block_entry _ c Hv Hc). unfold inr, hi in Hc.
      destruct (lookup_lt_is_Some_2 vs (Z.to_nat (c - lo)) ltac:(lia)) as [v Ev]. destruct (Hvs _ _ Ev) as [E Hu].
      rewrite Z2Nat.id in E by lia. by rewrite <-E.
  - exists s2, (Err tt). unfold mbind, sres_bind. rewrite Hnc. split; [done|]. right. split; [done|]. split.
    + eapply step_trans; [exact (quiet_step s c1 f1 Hw1 Hq1)|exact (noted_step _ _ _ Hw1 Hno')|..]; [done|tauto|done].
    + exists (lo + j). split; [unfold inr, hi; lia|]. rewrite (block_entry _ _ Hv) by (unfold inr, hi; lia).
      replace (lo + j - lo) with j by lia. done.
Qed.
End set.

(** ** Ranges over several blocks *)

(** The parts of a range of clusters, block by block. *)
Fixpoint chain (r : RefCount) (vec : list (Z * Z * nat)) (lo hi : Z) : Prop :=
  match vec with
  | [] => lo = hi
  | (k, rb, n) :: vec =>
    k * refcount_blk_size r + rb = lo /\ 0 <= rb /\ (0 < n)%nat /\ rb + Z.of_nat n <= refcount_blk_size r /\
    is_Some (blk_of (refcount_table r) k) /\ chain r vec (lo + Z.of_nat n) hi
  end.

Lemma chain_le r vec lo hi : chain r vec lo hi -> lo <= hi.
Proof.
  revert lo. induction vec as [|[[k rb] n] vec IH]; intros lo; simpl; [lia|].
  intros (_ & _ & _ & _ & _ & Hc%IH). lia.
Qed.
Lemma chain_geo r r' vec lo hi : geo r' = geo r -> chain r vec lo hi -> chain r' vec lo hi.
Proof.
  intros G. destruct (geo_fields _ _ G) as (Et & _ & Eb & _). revert lo.
  induction vec as [|[[k rb] n] vec IH]; intros lo; simpl; [done|]. rewrite Et, Eb. naive_solver.
Qed.

Lemma delta_split lo mid hi added c : lo <= mid <= hi -> delta lo hi added c = delta lo mid added c + delta mid hi added c.
Proof. intros. unfold delta. repeat case_decide; lia. Qed.
Lemma delta_out lo hi added c : ~ inr lo hi c -> delta lo hi added c = 0.
Proof. intros Hc. unfold delta, inr in *. by rewrite decide_False. Qed.
Lemma delta_in lo hi added c : inr lo hi c -> delta lo hi added c = added.
Proof. intros Hc. unfold delta, inr in *. by rewrite decide_True. Qed.

Lemma set_refcount_blocks_spec vec lo hi added dt i s :
  rc_wf s -> chain (rc s) vec lo hi -> Z.abs added <= 65535 ->
  exists s' j mid, set_refcount_blocks vec added dt i s = (s', Ok (i + j)%nat) /\ chain (rc s) (take j vec) lo mid /\
    step (fun c => inr lo hi c /\ refcount_of s c + added = 0) (delta lo mid added) s s' /\
    (forall c, inr lo mid c -> is_u16 (refcount_of s c + added)) /\
    (j = length vec /\ mid = hi \/
     (j < length vec)%nat /\ mid <= hi /\ exists c, inr lo hi c /\ ~ is_u16 (refcount_of s c + added)).
Proof.
  intros Hw Hc Ha. revert lo i s Hw Hc. induction vec as [|[[k rb] n] vec IH]; intros lo i s Hw Hc.
  { simpl in Hc. subst lo. exists s, 0%nat, hi. split_and!; [by rewrite Nat.add_0_r|done| |unfold inr; lia|by left].
    eapply step_trans; [by apply step_refl|by apply step_refl|..]; try done. intros c. rewrite delta_out by (unfold inr; lia). lia. }
  destruct Hc as (Elo & Hrb & Hn & Hsz & [a Hb] & Hc). pose proof (chain_le _ _ _ _ Hc) as Hle.
  destruct (set_refcount_spec s k a rb n added dt) as (s1 & r & Hr & Hcase); [done..|]. rewrite Elo in Hcase.
  cbn [set_refcount_blocks]. rewrite Hr. destruct Hcase as [(-> & St & Hu)|(-> & St & c & Hc' & Hbad)].
  - destruct (IH (lo + Z.of_nat n) (S i) s1) as (s' & j & mid & -> & Hcj & St' & Hu' & Hend);
      [apply St|by eapply chain_geo; [apply St|]|]. apply (chain_geo _ (rc s)) in Hcj; [|symmetry; apply St].
    pose proof (chain_le _ _ _ _ Hcj) as Hle'.
    assert (forall c, inr (lo + Z.of_nat n) hi c -> refcount_of s1 c = refcount_of s c) as Hsame.
    { intros c Hi. rewrite (st_count _ _ _ _ St), delta_out; [lia|]. unfold inr in *. lia. }
    exists s', (S j), mid. split_and!; [f_equal; f_equal; lia|by simpl; split_and!; try done; eexists| | |].
    + eapply step_trans; [exact St|exact St'|..].
      * intros c [Hi Hz]. split; [unfold inr in *; lia|done].
      * intros c [Hi Hz]. rewrite Hsame in Hz by done. split; [unfold inr in *; lia|done].
      * intros c. apply delta_split. lia.
    + intros c Hi. destruct (decide (c < lo + Z.of_nat n)) as [?|?]; [apply Hu; unfold inr in *; lia|].
      rewrite <-Hsame; [apply Hu'|]; unfold inr in *; [lia|]. destruct Hend as [[_ <-]|(_ & ? & _)]; lia.
    + destruct Hend as [[-> ->]|(Hj & Hm & c & Hi & Hbad)]; [by left|right]. split_and!; [simpl; lia|done|].
      exists c. rewrite <-Hsame by done. split; [unfold inr in *; lia|done].
  - exists s1, 0%nat, lo. split_and!; [f_equal; f_equal; lia|done| |unfold inr; lia|].
    + eapply step_trans; [exact St|apply step_refl, St|..]; [intros c0 [Hi Hz]; split; [unfold inr in *; lia|done]|done|].
      intros c0. rewrite delta_out by (unfold inr; lia). lia.
    + right. split_and!; [simpl; lia|lia|]. exists c. split; [unfold inr in *; lia|done].
Qed.

Lemma split_blocks_spec fuel first n i s :
  rc_wf s -> 0 <= first -> 0 <= i <= n -> (first + n) * rc_cluster_size (rc s) < 2 ^ 64 -> n - i <= Z.of_nat fuel ->
  (exists vec, split_blocks fuel first n i (rc s) = Ok vec /\ chain (rc s) vec (first + i) (first + n)) \/
  split_blocks fuel first n i (rc s) = Err tt /\
    exists c, inr (first + i) (first + n) c /\ blk_of (refcount_table (rc s)) (c / refcount_blk_size (rc s)) = None.
Proof.
  intros Hw Hf. revert i. induction fuel as [|fuel IH]; intros i Hi Hs Hfu; cbn [split_blocks].
  { rewrite (proj2 (Z.leb_le _ _)) by lia. left. exists []. split; [done|simpl; lia]. }
  destruct (Z.leb_spec n i) as [|Hlt]; [left; exists []; split; [done|simpl; lia]|].
  pose proof (geo_numbers _ (w_geo _ Hw)) as Hg. set (bs := refcount_blk_size (rc s)) in *.
  rewrite shr_blk, cluster_in_rc_block_mod by apply Hw. fold bs. rewrite !wadd_small by (unfold inW; nia).
  rewrite (Z.add_comm i first). set (k := (first + i) / bs). assert (0 <= k) by (apply Z.div_pos; lia).
  assert (blk_of (refcount_table (rc s)) k = None ->
    exists c, inr (first + i) (first + n) c /\ blk_of (refcount_table (rc s)) (c / bs) = None) as Hnone.
  { intros E. exists (first + i). split; [unfold inr; lia|done]. }
  destruct (Z.leb_spec (rt_size (rc s)) k) as [Hge|Hk].
  { right. split; [done|]. apply Hnone. destruct (blk_of _ k) as [a|] eqn:E; [|done].
    destruct (block_facts s k a Hw E) as (_ & _ & _ & ? & _). lia. }
  destruct (table_entry s k Hw ltac:(lia)) as (a & -> & Hcase). cbn [unwrap mbind res_bind].
  destruct Hcase as [[-> E]|E]; [right; split; [done|by apply Hnone]|].
  destruct (block_facts s k a Hw E) as (_ & _ & -> & _ & Hne). rewrite (proj2 (Z.eqb_neq a 0)) by done. cbn [orb negb Z.eqb].
  pose proof (Z.mod_pos_bound (first + i) bs ltac:(lia)). pose proof (Z.div_mod (first + i) bs ltac:(lia)).
  rewrite wsub_small by (unfold inW; lia). set (num := Z.min _ _).
  destruct (IH (i + num)) as [(vec & -> & Hc)|(-> & c & Hc & Hn)]; [lia..| |].
  - left. eexists. split; [done|]. simpl. split_and!; [fold bs; unfold k; lia|lia|lia|fold bs; lia|by eexists|].
    rewrite Z2Nat.id by lia. by replace (first + i + num) with (first + (i + num)) by lia.
  - right. split; [done|]. exists c. split; [unfold inr in *; lia|done].
Qed.

(** Every block on disk holds what the cache does. *)
Definition flushed s : Prop := forall k a, blk_of (refcount_table (rc s)) k = Some a ->
  sview s k = Some (ztab (bcontent (rf s)) a (Z.to_nat (rc_cluster_size (rc s)))).

Lemma flush_spec s : rc_wf s -> exists c' f', flush s = (upd s c' f', Ok tt) /\
  rc_wf (upd s c' f') /\ quiet s (upd s c' f') /\ flushed (upd s c' f').
Proof.
  intros Hw. pose proof (geo_numbers _ (w_geo _ Hw)) as (? & _ & _ & Hd).
  destruct (cache_flush_spec (rc_cluster_size (rc s)) Hd ltac:(lia) (blk_of (refcount_table (rc s))) (refcount_blk_cache (rc s)) (rf s))
    as (c' & f' & Hr & Hi & Hv & Hch & Hdisk & Hcl); [by apply wf_blocks|by apply wf_file|apply Hw|].
  exists c', f'. unfold flush. rewrite Hr. destruct (wf_quiet s c' f') as [Hw' Hq]; try done. intros k Hk. by destruct (Hcl k).
Qed.

Lemma chain_blocks r vec lo hi c :
  0 < refcount_blk_size r -> chain r vec lo hi -> inr lo hi c -> is_Some (blk_of (refcount_table r) (c / refcount_blk_size r)).
Proof.
  intros Hbs. revert lo. induction vec as [|[[k rb] n] vec IH]; intros lo; simpl; [unfold inr; lia|].
  intros (Elo & Hrb & Hn & Hsz & Hb & Hc) Hi. unfold inr in *. destruct (decide (c < lo + Z.of_nat n)).
  - by rewrite (proj1 (proj2 (cluster_split (refcount_blk_size r) k (c - k * refcount_blk_size r) c ltac:(lia) ltac:(lia)) ltac:(lia))).
  - apply (IH (lo + Z.of_nat n)); [done|lia].
Qed.

(** The counts of a range are changed, or none is. *)
Lemma update_refcount_spec s first n added fl dt :
  rc_wf s -> 0 <= first -> 0 <= n -> (first + n) * rc_cluster_size (rc s) < 2 ^ 64 -> Z.abs added <= 65535 ->
  exists s' r, update_refcount (first * rc_cluster_size (rc s)) n added fl dt s = (s', r) /\
    (r = Ok tt /\ step (fun c => inr first (first + n) c /\ refcount_of s c + added = 0) (delta first (first + n) added) s s' /\
       (forall c, inr first (first + n) c -> is_u16 (refcount_of s c + added) /\
          is_Some (blk_of (refcount_table (rc s)) (c / refcount_blk_size (rc s)))) /\ (fl = true -> flushed s') \/
     r = Err tt /\ step (fun c => inr first (first + n) c /\ (refcount_of s c + added = 0 \/ refcount_of s c = 0)) (fun _ => 0) s s' /\
       exists c, inr first (first + n) c /\ (blk_of (refcount_table (rc s)) (c / refcount_blk_size (rc s)) = None \/
                                             ~ is_u16 (refcount_of s c + added))).
Proof.
  intros Hw Hf Hn Hs Ha. pose proof (geo_numbers _ (w_geo _ Hw)) as Hg. set (hi := first + n).
  unfold update_refcount. unfold mbind at 1, sres_bind at 1, gets. cbn [id].
  rewrite offset_into_cluster_mod, Z.mod_mul by (lia || apply Hw). cbn [Z.eqb negb].
  rewrite bytes_to_clusters_exact by (nia || apply Hw). cbn [unwrap_res]. rewrite slift_Ok_bind.
  destruct (split_blocks_spec (Z.to_nat n) first n 0 s) as [(vec & -> & Hc)|(-> & c & Hc & Hnone)]; [done|lia..| |].
  2:{ exists s, (Err tt). rewrite Z.add_0_r in Hc. split; [done|]. right. split; [done|]. split; [|by exists c; auto].
      eapply step_trans; [by apply step_refl|by apply step_refl|..]; done. }
  rewrite Z.add_0_r in Hc. rewrite slift_Ok_bind.
  destruct (set_refcount_blocks_spec vec first hi added dt 0 s Hw Hc Ha) as (s1 & j & mid & Hr & Hcj & St & Hu & Hend).
  rewrite (sres_step _ _ _ _ _ Hr). simpl (0 + j)%nat. destruct Hend as [[-> ->]|(Hj & Hm & c & Hi & Hbad)].
  - rewrite Nat.eqb_refl. cbn [negb]. destruct fl.
    + destruct (flush_spec s1 (st_wf _ _ _ _ St)) as (c' & f' & Hfl & Hw2 & Hq2 & Hdisk). eexists _, _. split; [exact Hfl|].
      left. split_and!; [done| |intros c Hi; split; [by apply Hu|eapply chain_blocks; [lia|done..]]|done].
      eapply step_trans; [exact St|exact (quiet_step _ _ _ Hw2 Hq2)|..]; [done..|]. intros c. cbn beta. lia.
    + exists s1, (Ok tt). split; [done|]. left.
      split_and!; [done|exact St|intros c Hi; split; [by apply Hu|eapply chain_blocks; [lia|done..]]|done].
  - rewrite (proj2 (Nat.eqb_neq _ _)) by lia. cbn [negb].
    destruct (set_refcount_blocks_spec (take j vec) first mid (- added) dt 0 s1 (st_wf _ _ _ _ St))
      as (s2 & j2 & mid2 & Hr2 & Hcj2 & St2 & Hu2 & Hend2); [by eapply chain_geo; [apply St|]|lia|].
    assert (forall c, inr first mid c -> refcount_of s1 c + - added = refcount_of s c) as Hback.
    { intros c0 Hi0. rewrite (st_count _ _ _ _ St), delta_in by done. lia. }
    destruct Hend2 as [[-> ->]|(_ & _ & c0 & Hi0 & Hbad0)].
    2:{ exfalso. apply Hbad0. rewrite Hback by done. by apply refcount_of_u16. }
    exists s2, (Err tt). split; [unfold mbind, sres_bind; by rewrite Hr2|]. right. split; [done|]. split; [|by exists c; auto].
    eapply step_trans; [exact St|exact St2|..]; [naive_solver| |].
    + intros c0 [Hi0 Hz]. rewrite Hback in Hz by done. split; [unfold inr, hi in *; lia|by right].
    + intros c0. unfold delta. case_decide; lia.
Qed.
End update.
