(* ===== verification/Qcow2RefcountAlloc.v ===== *)
(** * Allocating clusters

    The search for free clusters is first fit; allocation gives fresh clusters
    the count one, allocating refcount blocks on the way, and touches no
    cluster in use. *)
From stdpp Require Import prelude list gmap.
From Stdlib Require Import ZArith Lia.
From S2P Require Import Prelude NumOps Qcow2Header SyncAio Qcow2Io Qcow2Cache Qcow2CacheSpec Qcow2Refcount Qcow2RefcountSpec Qcow2RefcountUpdate.

Section alloc.
Context `{!HashIter} {F : Type} `{!BlockIo F, !BlockIoLaws F}.
Implicit Types s : rst F.

Abbreviation blk s := (blk_of (refcount_table (rc s))).
Abbreviation csz s := (rc_cluster_size (rc s)).
Abbreviation bsz s := (refcount_blk_size (rc s)).
Abbreviation cache s := (refcount_blk_cache (rc s)).
Abbreviation free s := (free_cluster_index (rc s)).

(** The number of clusters the refcount table can describe. *)
Definition cover s : Z := rt_size (rc s) * bsz s.

(** ** Steps that keep what the blocks hold *)

Record calm s s' : Prop := mkCalm {
  ca_hdr : hdr s' = hdr s;
  ca_geo : geo (rc s') = geo (rc s);
  ca_view : forall k, sview s' k = sview s k;
  ca_len : blen (rf s) <= blen (rf s');
  ca_dirty : forall k, dirty_key (cache s') k -> dirty_key (cache s) k
}.

Lemma calm_refl s : calm s s.
Proof. by constructor. Qed.
Lemma calm_trans s1 s2 s3 : calm s1 s2 -> calm s2 s3 -> calm s1 s3.
Proof.
  intros [H1 G1 V1 L1 D1] [H2 G2 V2 L2 D2]. constructor; [congruence|congruence|intros; by rewrite V2|lia|auto].
Qed.
Lemma quiet_calm s s' : quiet s s' -> calm s s'.
Proof. intros [Hh G V C D]. constructor; try done. by rewrite (ch_len _ _ _ C). Qed.
Lemma calm_refcount s s' c : calm s s' -> refcount_of s' c = refcount_of s c.
Proof. intros [_ G V _ _]. destruct (geo_fields _ _ G) as (_ & _ & Eb & _). unfold refcount_of. by rewrite Eb, V. Qed.

Lemma calm_set_free s i : rc_wf s -> let s' := mkRst (hdr s) (set_free i (rc s)) (rf s) in rc_wf s' /\ calm s s'.
Proof.
  intros [Hg Hl Hc]. split; [|done]. constructor; [by apply (geo_ok_eq (rc s))|by apply (layout_quiet s); try apply Hl|done].
Qed.

(** ** Discards *)

Lemma process_tasks_spec cs Q tasks (f : F) :
  tasks_ok cs Q tasks -> let f' := process_tasks tasks f in
  (forall x, (forall t, t ∈ tasks -> ~ task_offset t <= x < task_offset t + task_nbytes t) -> bcontent f' x = bcontent f x) /\
  blen f' = blen f /\ (bhealthy f -> bhealthy f').
Proof.
  revert f. induction tasks as [|t tasks IH]; intros f Ht; [done|]. simpl.
  destruct (Ht t ltac:(by left)) as [[_ _ Hp Hne _] _].
  destruct (submit_discard (task_offset t) (task_nbytes t) f) as [f1 r] eqn:E. simpl.
  apply submit_discard_law in E as (Ho & Hl & _ & Hh); [|lia..].
  destruct (IH f1) as (Ho1 & Hl1 & Hh1); [intros t0 Ht0; apply Ht; by right|].
  split_and!; [|congruence|auto]. intros x Hx. rewrite Ho1 by (intros; apply Hx; by right). apply Ho, Hx. by left.
Qed.

(** Discards of clusters that are no blocks. *)
Lemma process_discards_spec s :
  rc_wf s -> tasks_ok (csz s) (fun c => forall k, blk s k <> Some (c * csz s)) (discard_list (rc s)) ->
  exists s', sync_process_discards s = (s', Ok tt) /\ rc_wf s' /\ calm s s' /\ free s' = free s /\ discard_list (rc s') = [].
Proof.
  intros Hw Ht. pose proof (geo_numbers _ (w_geo _ Hw)) as Hn.
  destruct (process_tasks_spec _ _ _ (rf s) Ht) as (Ho & Hl & Hh).
  destruct (cache_inv_file (csz s) ltac:(lia) (blk s) (cache s) (rf s) (process_tasks (discard_list (rc s)) (rf s)))
    as [Hi Hv]; [by apply wf_blocks| |apply Hw|].
  { intros k a x Ha Hx. apply Ho. intros t Hin Hcov. destruct (Ht t Hin) as [[[p Hp] [q Hq] _ _ _] Hno].
    destruct (l_blocks _ (w_layout _ Hw) k a Ha) as ([r Hr] & _). apply (Hno r) with k; [|by rewrite <-Hr].
    unfold task_covers. rewrite Hp, Hq in *. split; [assert (p <= r) by nia|assert (r < p + q) by nia]; nia. }
  eexists. split_and!; [done| |by constructor; simpl; rewrite ?Hl|done..].
  constructor; [by apply (geo_ok_eq (rc s)), Hw| |done]. apply (layout_quiet s); [done..|apply Hh, Hw|apply Hw].
Qed.

(** ** The search *)

Lemma refcount_beyond s c : rc_wf s -> cover s <= c -> refcount_of s c = 0.
Proof.
  intros Hw Hc. pose proof (geo_numbers _ (w_geo _ Hw)). apply refcount_of_none. unfold cover in Hc.
  destruct (blk s (c / bsz s)) as [a|] eqn:E; [|done]. destruct (block_facts s _ a Hw E) as (_ & _ & _ & Hk & _).
  pose proof (Z.div_le_lower_bound c (bsz s) (rt_size (rc s)) ltac:(lia) ltac:(lia)). lia.
Qed.

(** Clusters [\[c, c + n)] are free. *)
Definition free_run s (c n : Z) : Prop := forall x, c <= x < c + n -> refcount_of s x = 0.

Definition search_measure s (nb fc : Z) : Z := if free s <? cover s then cover s - free s + nb else nb - fc.

Lemma noref_loop_spec fuel nb fc B s :
  rc_wf s -> 0 <= fc <= nb -> 0 <= free s - fc -> free s + search_measure s nb fc <= B -> B * csz s < 2 ^ 64 ->
  free_run s (free s - fc) fc -> search_measure s nb fc <= Z.of_nat fuel ->
  exists s', noref_loop fuel nb fc s = (s', Ok tt) /\ rc_wf s' /\ calm s s' /\ discard_list (rc s') = discard_list (rc s) /\
    changed_in (in_blocks (csz s) (blk s)) (rf s) (rf s') /\
    free s - fc <= free s' - nb /\ free s' <= B /\ free_run s (free s' - nb) nb /\
    (forall c, free s - fc <= c -> free_run s c nb -> free s' - nb <= c).
Proof.
  revert fc s. induction fuel as [|fuel IH]; intros fc s Hw Hfc Hf HB Hb Hrun Hm;
    assert (search_measure s nb fc >= nb - fc) as Hge
      by (unfold search_measure; destruct (Z.ltb_spec (free s) (cover s)); lia); cbn [noref_loop];
    (destruct (Z.leb_spec nb fc) as [Hdone|Hlt];
      [assert (fc = nb) as -> by lia; exists s; split_and!; try done;
         [apply changed_in_refl, (l_healthy _ (w_layout _ Hw))|lia..]|]).
  { lia. }
  pose proof (geo_numbers _ (w_geo _ Hw)) as Hn. unfold mbind at 1, sres_bind at 1, gets, id.
  assert (0 <= free s /\ free s * csz s < 2 ^ 64 /\ free s + 1 < 2 ^ 64) as (? & ? & ?) by nia.
  rewrite (shl_bits _ (w_geo _ Hw)), wadd_small by (unfold inW; lia).
  destruct (calm_set_free s (free s + 1) Hw) as [Hw1 Hc1]. set (s1 := mkRst (hdr s) (set_free (free s + 1) (rc s)) (rf s)) in *.
  assert (modify (set_free (free s + 1)) s = (s1, Ok tt)) as Hmod by done. rewrite (sres_step _ _ _ _ _ Hmod).
  destruct (get_refcount_spec s1 (free s * csz s) Hw1 ltac:(nia)) as (c' & f' & Hget & Hw2 & Hq2).
  rewrite (sres_step _ _ _ _ _ Hget). change (csz s1) with (csz s). rewrite Z.div_mul by lia.
  rewrite (calm_refcount _ _ _ Hc1). assert (calm s (upd s1 c' f')) as Hc2 by (eapply calm_trans; [done|by apply quiet_calm]).
  set (s2 := upd s1 c' f') in *. assert (free s2 = free s + 1 /\ cover s2 = cover s /\ csz s2 = csz s) as (Ef2 & Ecov & Ecs) by done.
  set (v := refcount_of s (free s)). set (fc' := if v =? 0 then fc + 1 else 0).
  assert (0 <= fc' <= nb /\ fc' <= fc + 1 /\ (cover s <= free s -> fc' = fc + 1)) as (Hfc' & Hfc1 & Hbey).
  { unfold fc'. pose proof (refcount_beyond s (free s) Hw) as Hz. fold v in Hz.
    destruct (Z.eqb_spec v 0); split_and!; lia. }
  assert (free_run s (free s + 1 - fc') fc') as Hrun'.
  { unfold fc'. destruct (Z.eqb_spec v 0) as [Hz|]; [|intros x; lia]. intros x Hx.
    destruct (decide (x = free s)) as [->|]; [done|apply Hrun; lia]. }
  assert (forall c n, free_run s2 c n <-> free_run s c n) as Hfrs.
  { intros c n. unfold free_run. by setoid_rewrite (calm_refcount _ _ _ Hc2). }
  assert (search_measure s2 nb fc' <= search_measure s nb fc - 1) as Hstep.
  { unfold search_measure. rewrite Ef2, Ecov. destruct (Z.ltb_spec (free s) (cover s)), (Z.ltb_spec (free s + 1) (cover s)); lia. }
  destruct (IH fc' s2) as (s' & Hr & Hw' & Hc' & Hd & Hch & Hlo & Hhi & Hfr & Hmin);
    [done|lia|rewrite Ef2; lia|rewrite Ef2; lia|by rewrite Ecs|by apply Hfrs; rewrite Ef2|lia|].
  exists s'. rewrite Ef2 in *.
  split_and!; [done|done|by eapply calm_trans|done|by eapply changed_in_trans; [apply (q_file _ _ Hq2)|]|lia|done|by apply Hfrs|].
  intros c Hc Hcr. apply Hmin; [|by apply Hfrs]. unfold fc' in *. destruct (Z.eqb_spec v 0) as [|Hnz]; [lia|].
  destruct (decide (c <= free s)); [|lia]. exfalso. apply Hnz. apply Hcr. lia.
Qed.

(** First fit: the lowest run of free clusters from the search start on. *)
Lemma noref_spec s nb size :
  rc_wf s -> 0 < nb -> bytes_to_clusters size (csz s) = Ok nb -> 0 <= free s ->
  (Z.max (free s) (cover s) + nb) * csz s < 2 ^ 64 ->
  tasks_ok (csz s) (fun c => forall k, blk s k <> Some (c * csz s)) (discard_list (rc s)) ->
  exists s', alloc_clusters_with_noref size s = (s', Ok ((free s' - nb) * csz s)) /\ rc_wf s' /\ calm s s' /\
    discard_list (rc s') = [] /\ free s <= free s' - nb /\ free s' <= Z.max (free s) (cover s) + nb /\
    free_run s (free s' - nb) nb /\ (forall c, free s <= c -> free_run s c nb -> free s' - nb <= c) /\
    (discard_list (rc s) = [] -> changed_in (in_blocks (csz s) (blk s)) (rf s) (rf s')).
Proof.
  intros Hw Hnb Hsz Hf Hb Ht. pose proof (geo_numbers _ (w_geo _ Hw)) as Hn.
  assert (exists s1, (if bool_decide (discard_list (rc s) = []) then mret tt else sync_process_discards) s = (s1, Ok tt) /\
    rc_wf s1 /\ calm s s1 /\ free s1 = free s /\ discard_list (rc s1) = [] /\ (discard_list (rc s) = [] -> s1 = s))
    as (s1 & Hr1 & Hw1 & Hc1 & Ef1 & Ed1 & Es1).
  { case_bool_decide as Hd; [exists s; split_and!; try done; apply calm_refl|].
    destruct (process_discards_spec s) as (s1 & ? & ? & ? & ? & ?); [done..|]. exists s1. by split_and!. }
  unfold alloc_clusters_with_noref. unfold mbind at 1, sres_bind at 1, gets at 1, id. rewrite (sres_step _ _ _ _ _ Hr1).
  rewrite Hsz. cbn [unwrap_res]. rewrite slift_Ok_bind.
  destruct (geo_fields _ _ (ca_geo _ _ Hc1)) as (_ & Ec & Eb & Es & _).
  assert (cover s1 = cover s) as Ecov by (unfold cover; by rewrite Es, Eb).
  destruct (noref_loop_spec (Z.to_nat (rt_size (rc s) * bsz s + nb)) nb 0 (Z.max (free s) (cover s) + nb) s1)
    as (s' & Hr & Hw' & Hc' & Hd & Hch & Hlo & Hhi & Hfr & Hmin); try done.
  - lia.
  - lia.
  - rewrite Ef1. unfold search_measure. rewrite Ef1, Ecov. destruct (Z.ltb_spec (free s) (cover s)); lia.
  - by rewrite Ec.
  - intros x. lia.
  - unfold search_measure. rewrite Ef1, Ecov. unfold cover.
    assert (0 <= rt_size (rc s)) by (rewrite (g_rt _ (w_geo _ Hw)); lia). destruct (Z.ltb_spec (free s) (rt_size (rc s) * bsz s)); nia.
  - rewrite (sres_step _ _ _ _ _ Hr). rewrite Ef1, Z.sub_0_r in *. unfold mbind, sres_bind, gets. cbn [id].
    assert (forall c n, free_run s1 c n <-> free_run s c n) as Hfrs.
    { intros c n. unfold free_run. by setoid_rewrite (calm_refcount _ _ _ Hc1). }
    rewrite wsub_small by (unfold inW; nia). rewrite (shl_bits _ (w_geo _ Hw)) by nia.
    exists s'. split_and!; [done|done|by eapply calm_trans|congruence|lia|lia|by apply Hfrs| |].
    + intros c Hc Hcr. apply Hmin; [lia|by apply Hfrs].
    + intros Hd0. by rewrite (Es1 Hd0) in Hch.
Qed.

(** ** A new refcount block *)

Lemma blk_of_insert (table : list Z) k v k' :
  0 <= k < Z.of_nat (length table) ->
  blk_of (<[Z.to_nat k := v]> table) k' =
    if decide (k' = k) then (if v =? 0 then None else Some v) else blk_of table k'.
Proof.
  intros Hk. unfold blk_of. destruct (Z.ltb_spec k' 0); [by rewrite decide_False by lia|].
  case_decide as Hd; [subst; by rewrite list_lookup_insert_eq by lia|]. by rewrite list_lookup_insert_ne by lia.
Qed.

(** What holds of the table after one entry is set. *)
Definition geo0 (r : RefCount) :=
  (length (refcount_table r), discard_passthrough r, (rt_offset r, rt_clusters r, rt_size r),
   (refcount_blk_bits r, refcount_blk_size r, refcount_max r), (rc_cluster_size r, rc_cluster_bits r)).
Lemma geo0_fields r r' : geo0 r' = geo0 r ->
  rc_cluster_size r' = rc_cluster_size r /\ refcount_blk_size r' = refcount_blk_size r /\ rt_size r' = rt_size r /\
  rt_offset r' = rt_offset r /\ rt_clusters r' = rt_clusters r /\ length (refcount_table r') = length (refcount_table r).
Proof. destruct r, r'. unfold geo0. simpl. by intros [=]. Qed.
Lemma geo0_ok r r' : geo0 r' = geo0 r -> geo_ok r -> geo_ok r'.
Proof. destruct r, r'. unfold geo0. simpl. intros [=] [? ? ? ? ? Hr ?]. subst. constructor; try done. simpl in *. congruence. Qed.
Lemma geo_geo0 r r' : geo r' = geo r -> geo0 r' = geo0 r.
Proof. destruct r, r'. unfold geo, geo0. simpl. by intros [=]; subst. Qed.

(** The counts of a new block: none, or one for the cluster it lies in. *)
Definition new_bytes s (k c1 : Z) : list Z :=
  let zeroes := replicate (Z.to_nat (csz s)) 0 in
  if c1 / bsz s =? k then splice zeroes (Z.to_nat (2 * (c1 `mod` bsz s))) (be_bytes 2 1) else zeroes.

Lemma entry16_zeroes n i : 0 <= i -> 2 * i + 2 <= Z.of_nat n -> entry16 (replicate n 0) i = 0.
Proof.
  intros Hi Hn. unfold entry16. replace (slice (replicate n 0) (Z.to_nat (2 * i)) 2) with [0; 0]; [done|].
  symmetry. unfold slice. rewrite drop_replicate, take_replicate. by replace (2 `min` (n - Z.to_nat (2 * i)))%nat with 2%nat by lia.
Qed.

Lemma new_bytes_facts s k c1 : rc_wf s -> 0 <= c1 ->
  is_bytes (new_bytes s k c1) /\ Z.of_nat (length (new_bytes s k c1)) = csz s /\
  (forall j, 0 <= j < bsz s -> entry16 (new_bytes s k c1) j = if decide (k * bsz s + j = c1) then 1 else 0).
Proof.
  intros Hw Hc. pose proof (geo_numbers _ (w_geo _ Hw)) as Hn. unfold new_bytes.
  pose proof (Z.mod_pos_bound c1 (bsz s) ltac:(lia)) as Hm. pose proof (Z.div_mod c1 (bsz s) ltac:(lia)) as Hd.
  set (zs := replicate (Z.to_nat (csz s)) 0). assert (length zs = Z.to_nat (csz s)) as Hl by apply length_replicate.
  assert (is_bytes zs) as Hb by by apply Forall_replicate.
  assert (forall j, 0 <= j < bsz s -> entry16 zs j = 0) as Hz by (intros; apply entry16_zeroes; lia).
  destruct (Z.eqb_spec (c1 / bsz s) k) as [E|E].
  - rewrite splice_length by (rewrite be_bytes_length; lia). split_and!; [by apply is_bytes_splice, be_bytes_is_bytes|lia|].
    intros j Hj. rewrite entry16_splice, Hz by lia || done. repeat case_decide; nia || done.
  - split_and!; [done|lia|]. intros j Hj. rewrite Hz by done. rewrite decide_False; [done|]. intros Hj'. apply E.
    by destruct (proj2 (cluster_split (bsz s) k j c1 ltac:(lia) Hj)).
Qed.

Section new_block.
Context s (k c1 : Z).
Context (Hw : rc_wf s) (Hk : 0 <= k < rt_size (rc s)) (Hnone : blk s k = None).
Context (Hc1 : 0 < c1 < cover s) (Hfresh : forall k', blk s k' <> Some (c1 * csz s)).
Context (Hrt : ~ rt_offset (rc s) <= c1 * csz s < rt_offset (rc s) + rt_size (rc s) * 8).

Let off := c1 * csz s.
Let tbl := <[Z.to_nat k := off]> (refcount_table (rc s)).
Let t0 := mkTable no_dirty 0 off 2 (replicate (Z.to_nat (csz s)) 0).

Lemma off_bounds : 0 < off /\ off + csz s < 2 ^ 61 /\ (csz s | off).
Proof.
  pose proof (geo_numbers _ (w_geo _ Hw)). pose proof (g_cover _ (w_geo _ Hw)). unfold cover in Hc1.
  unfold off. split_and!; [nia|nia|by exists c1].
Qed.
Lemma tbl_blk k' : blk_of tbl k' = if decide (k' = k) then Some off else blk s k'.
Proof.
  unfold tbl. rewrite blk_of_insert by (rewrite <-(g_rt _ (w_geo _ Hw)); lia).
  pose proof off_bounds. by rewrite (proj2 (Z.eqb_neq off 0)) by lia.
Qed.
Lemma tbl_geo0 : geo0 (set_table tbl (rc s)) = geo0 (rc s).
Proof. unfold geo0, tbl. simpl. by rewrite length_insert. Qed.

(** Apart from every block and from the table. *)
Lemma off_apart k' a : blk s k' = Some a -> a + csz s <= off \/ off + csz s <= a.
Proof.
  intros Ha. pose proof (geo_numbers _ (w_geo _ Hw)). destruct (l_blocks _ (w_layout _ Hw) k' a Ha) as (Hd & _).
  apply aligned_apart; [lia|done|apply off_bounds|]. intros ->. by apply (Hfresh k').
Qed.

Lemma off_clear : off + csz s <= rt_offset (rc s) \/ rt_offset (rc s) + rt_size (rc s) * 8 <= off.
Proof.
  pose proof (geo_numbers _ (w_geo _ Hw)) as Hn. destruct (l_rt _ (w_layout _ Hw)) as (_ & [p Hp] & _ & R4 & _).
  rewrite R4, Hp, <-Z.mul_add_distr_r in *. unfold off. destruct (Z.lt_ge_cases c1 p) as [Hlt|Hge].
  - left. rewrite <-Z.mul_succ_l. apply Z.mul_le_mono_nonneg_r; lia.
  - right. apply Z.mul_le_mono_nonneg_r; [lia|]. apply Z.nlt_ge. intros Hlt. apply Hrt.
    split; [apply Z.mul_le_mono_nonneg_r; lia|apply Z.mul_lt_mono_pos_r; lia].
Qed.

Lemma layout_new c' f' :
  blen f' = Z.max (blen (rf s)) (off + csz s) -> bhealthy f' ->
  layout_ok (mkRst (hdr s) (set_cache c' (set_table tbl (rc s))) f').
Proof.
  intros Hl Hh. pose proof (geo_numbers _ (w_geo _ Hw)) as Hn. pose proof off_bounds as (Ho0 & Ho1 & Ho2).
  destruct (w_layout _ Hw) as [Lb Li (R1 & R2 & R3 & R4 & R5 & R6) La Lba Ll Lh].
  constructor; cbn [rc rf set_cache set_table refcount_table rc_cluster_size rt_offset rt_size rt_clusters]; try done.
  - intros k' a. rewrite tbl_blk. case_decide; [intros [= <-]|intros Ha]; [split_and!; try done; lia|].
    destruct (Lb k' a Ha) as (? & ? & ? & ?). split_and!; try done. lia.
  - intros k1 k2 a. rewrite !tbl_blk. repeat case_decide; intros E1 E2; simplify_eq; try done;
      [by destruct (Hfresh k2)|by destruct (Hfresh k1)|by apply (Li k1 k2 a)].
  - split_and!; try done. lia.
  - intros k' a. rewrite tbl_blk. case_decide; [intros [= <-]|apply La]. apply off_clear.
  - rewrite Hl. apply Z.max_case; [done|]. apply Z.divide_add_r; [|done]. etrans; [exact Lba|done].
Qed.

(** The state while the block is not written: its entry is set, its table is cached. *)
Let mid c' f' : rst F := mkRst (hdr s) (set_cache c' (set_table tbl (rc s))) f'.

Record placed (c' : Qcow2Cache) (f' : F) (l : nat) (t' : CacheTable) : Prop := mkPlaced {
  pl_inv : cache_inv (csz s) (blk s) c' f';
  pl_view : forall k0, view (csz s) (blk s) c' f' k0 = sview s k0;
  pl_map : cache_map c' !! k = Some l;
  pl_cell : tables c' !! l = Some t';
  pl_ok : cell_ok (csz s) (blk s) f' k t';
  pl_addr : addr t' = off;
  pl_file : changed_in (in_blocks (csz s) (blk s)) (rf s) f';
  pl_dirty : forall k0, dirty_key c' k0 -> k0 <> k /\ dirty_key (cache s) k0
}.

Lemma t0_ok f' : cell_ok (csz s) (blk s) f' k t0.
Proof.
  pose proof (geo_numbers _ (w_geo _ Hw)). constructor; simpl; try done; [rewrite length_replicate; lia|by apply Forall_replicate|].
  by rewrite Hnone.
Qed.

Lemma insert_new : exists c' f' l t',
  insert_block k t0 (mkRst (hdr s) (set_table tbl (rc s)) (rf s)) = (mid c' f', Ok l) /\ placed c' f' l t' /\
  table_data t' = table_data t0.
Proof.
  pose proof (geo_numbers _ (w_geo _ Hw)) as Hn. set (s2 := mkRst (hdr s) (set_table tbl (rc s)) (rf s)).
  assert (forall l, cache_map (cache s) !! k = Some l -> cell_dirty (cache s) l = false) as Hst.
  { intros l Hl. destruct (ci_cells _ _ _ _ (w_cache _ Hw) k l Hl) as (t & Ht & Hok). unfold cell_dirty. rewrite Ht.
    destruct Hok as [_ _ _ _ _ Hd]. by rewrite Hnone in Hd. }
  destruct (delete_inv (csz s) ltac:(lia) (blk s) (cache s) (rf s) k) as [Hi Hv]; [apply Hw|done|].
  destruct (insert_block_spec s2 k t0 (blk s) (blk s)) as (s3 & l & Hr & Hins).
  - apply (geo0_ok (rc s)); [apply tbl_geo0|apply Hw].
  - exact (wf_blocks s Hw).
  - exact (wf_file s Hw).
  - intros k0 a Ha. by destruct (l_blocks _ (w_layout _ Hw) k0 a Ha).
  - apply Hw.
  - exact Hi.
  - apply t0_ok.
  - done.
  - exact Hst.
  - destruct Hins as (c' & f' & t' & -> & Hi' & Hv' & _ & Hm & Ht' & Et & Hch & Hd).
    destruct (set_lru_data _ _ Et) as (_ & Ead & _ & Edata).
    exists c', f', l, t'. split_and!; [exact Hr| |done]. constructor; try done.
    + intros k0. destruct (decide (k0 = k)) as [->|Hne]; [unfold sview, view; by rewrite Hnone|].
      etrans; [exact (Hv' k0 Hne)|]. exact (Hv k0).
    + destruct (ci_cells _ _ _ _ Hi' k l Hm) as (t1 & Ht1 & Hok). rewrite Ht' in Ht1. by injection Ht1 as <-.
Qed.

(** The cluster of the block counts itself when it lies in its own range. *)
Lemma own_count c' f' l t' :
  placed c' f' l t' -> table_data t' = table_data t0 ->
  exists c2 t2, (if c1 / bsz s =? k
                 then t ← slift (set_entry_map t' (c1 `mod` bsz s) 1); write_cell l (clear_dirty t)
                 else mret tt) (mid c' f') = (mid c2 f', Ok tt) /\
    placed c2 f' l t2 /\ table_data t2 = new_bytes s k c1.
Proof.
  intros Hp Hdata. pose proof (geo_numbers _ (w_geo _ Hw)) as Hn. unfold new_bytes.
  destruct (Z.eqb_spec (c1 / bsz s) k) as [E|]; [|exists c', t'; split_and!; [done|done|by rewrite Hdata]].
  pose proof (Z.mod_pos_bound c1 (bsz s) ltac:(lia)) as Hm. destruct (pl_ok _ _ _ _ Hp) as [He Hl Hb Hlru _ _].
  rewrite (set_entry16 t' _ He) by lia. rewrite slift_Ok_bind. unfold write_cell, modify.
  set (t2 := clear_dirty _). eexists _, t2. split; [reflexivity|].
  assert (table_data t2 = splice (table_data t0) (Z.to_nat (2 * (c1 `mod` bsz s))) (be_bytes 2 1)) as Hd2
    by (simpl; by rewrite Hdata).
  split; [|exact Hd2]. destruct (clean_cell_inv (csz s) (blk s) c' f' k l t' t2) as (Hi & Hv & Hd); try apply Hp; [done| |].
  { constructor; try done; [| |by rewrite Hnone].
    - simpl. rewrite splice_length; rewrite ?be_bytes_length; lia.
    - simpl. by apply is_bytes_splice, be_bytes_is_bytes. }
  destruct Hp as [Pi Pv Pm Pc Pok Pa Pf Pd]. constructor; simpl; try done; [intros k0; by rewrite Hv| | |].
  - by rewrite lookup_insert_eq.
  - destruct (ci_cells _ _ _ _ Hi k l Pm) as (t1 & Ht1 & Hok). simpl in Ht1. rewrite lookup_insert_eq in Ht1. by injection Ht1 as <-.
  - intros k0 Hk0. apply Pd, Hd, Hk0.
Qed.

Lemma write_new c2 f' l t2 :
  placed c2 f' l t2 -> table_data t2 = new_bytes s k c1 ->
  exists f4, write_dirty_info (addr t2) (table_data t2) 0 (csz s) f' = (f4, Ok tt) /\ rc_wf (mid c2 f4) /\
    (forall k0, sview (mid c2 f4) k0 = if decide (k0 = k) then Some (new_bytes s k c1) else sview s k0) /\
    blen (rf s) <= blen f4.
Proof.
  intros [Pi Pv Pm Pc Pok Pa Pf Pd] Hdata. pose proof (geo_numbers _ (w_geo _ Hw)) as Hn. pose proof off_bounds as (Ho0 & Ho1 & Ho2).
  destruct Pok as [He Hl Hb Hlru Hdd Hdk]. pose proof (w_layout _ Hw) as HL. rewrite Pa. set (buf := table_data t2) in *.
  destruct (write_dirty_info_eq off buf 0 (csz s) f') as (x & y & Hx & Hy & _ & _ & ->); [lia|lia|rewrite Hl; tauto|lia|lia|].
  assert (x = 0) as -> by lia. assert (y = csz s) as -> by lia. rewrite Z.sub_0_r, Z.add_0_r.
  assert (slice buf (Z.to_nat 0) (Z.to_nat (csz s)) = buf) as -> by (unfold slice; simpl; apply take_ge; lia).
  destruct (write_buffer off buf f') as [f4 r] eqn:Ew.
  apply write_buffer_law in Ew as (Wout & _ & _ & Wok & Wh); [|done|intros E; rewrite E in Hl; simpl in Hl; lia|lia|lia].
  destruct Wh as (Hh' & -> & Hl'); [apply Pf|rewrite (ch_len _ _ _ Pf); apply HL| |].
  { left. rewrite Hl. split; [|apply HL]. etrans; [apply HL|exact Ho2]. }
  rewrite (ch_len _ _ _ Pf), Hl in Hl'. exists f4. split; [done|].
  destruct (cache_inv_file (csz s) ltac:(lia) (blk s) c2 f' f4) as [Hi4 Hv4]; [exact (wf_blocks s Hw)| |done|].
  { intros k0 a z Ha Hz. apply Wout. rewrite Hl. destruct (off_apart k0 a Ha); lia. }
  destruct (blk_change_inv (csz s) (blk s) (blk_of tbl) c2 f4 k Hi4) as [Hi5 Hv5].
  { intros k0 Hne. rewrite tbl_blk. by rewrite decide_False. }
  { intros t Ht _. assert (t = t2) as -> by (unfold cached in Ht; rewrite Pm in Ht; simpl in Ht; congruence).
    constructor; try done. rewrite tbl_blk, decide_True by done. split; [done|]. intros i b Hib _. by apply Wok. }
  split_and!; [|intros k0; case_decide as Hd|lia].
  - constructor; [apply (geo0_ok (rc s)); [apply tbl_geo0|apply Hw]|by apply layout_new|exact Hi5].
  - subst k0. unfold sview, view. simpl. rewrite tbl_blk, decide_True by done. simpl. unfold cached. rewrite Pm. simpl.
    rewrite Pc. by rewrite <-Hdata.
  - etrans; [exact (Hv5 k0 Hd)|]. by rewrite Hv4, Pv.
Qed.

(** A new block, from the entry of the table to the block on disk. *)
Lemma new_block_spec (kont : sres (rst F) unit unit) : exists c4 f4,
  (_ ← set_entry k off;
   t ← slift (CacheTable_new off (replicate (Z.to_nat (csz s)) 0) ENTRY_SIZE_U16);
   l ← insert_block k t;
   t ← read_cell l;
   _ ← (if c1 / bsz s =? k then t ← slift (set_entry_map t (c1 `mod` bsz s) 1); write_cell l (clear_dirty t) else mret tt);
   t ← read_cell l;
   _ ← on_file (write_dirty_info (addr t) (table_data t) 0 (csz s));
   kont) s = kont (mid c4 f4) /\
  rc_wf (mid c4 f4) /\ blen (rf s) <= blen f4 /\
  (forall k0, sview (mid c4 f4) k0 = if decide (k0 = k) then Some (new_bytes s k c1) else sview s k0) /\
  (forall k0, dirty_key c4 k0 -> k0 <> k /\ dirty_key (cache s) k0).
Proof.
  destruct insert_new as (c' & f' & l & t' & Hins & Hp & Hd).
  destruct (own_count c' f' l t' Hp Hd) as (c2 & t2 & Hown & Hp2 & Hd2).
  destruct (write_new c2 f' l t2 Hp2 Hd2) as (f4 & Hwr & Hw4 & Hv4 & Hl4). exists c2, f4.
  split_and!; [|done|done|done|apply Hp2].
  assert (set_entry k off s = (mkRst (hdr s) (set_table tbl (rc s)) (rf s), Ok tt)) as Hse by done.
  rewrite (sres_step _ _ _ _ _ Hse). unfold CacheTable_new. cbn [ENTRY_SIZE_U16 Z.eqb]. rewrite slift_Ok_bind.
  rewrite (sres_step _ _ _ _ _ Hins).
  assert (read_cell l (mid c' f') = (mid c' f', Ok t')) as Hr1 by (unfold read_cell; simpl; by rewrite (pl_cell _ _ _ _ Hp)).
  rewrite (sres_step _ _ _ _ _ Hr1), (sres_step _ _ _ _ _ Hown).
  assert (read_cell l (mid c2 f') = (mid c2 f', Ok t2)) as Hr2 by (unfold read_cell; simpl; by rewrite (pl_cell _ _ _ _ Hp2)).
  rewrite (sres_step _ _ _ _ _ Hr2). unfold mbind, sres_bind, on_file. cbn [rf mid]. by rewrite Hwr.
Qed.
End new_block.

(** The counts after a new block. *)
Lemma new_block_counts s s4 k c1 :
  rc_wf s -> 0 <= c1 -> refcount_of s c1 = 0 -> blk s k = None -> refcount_blk_size (rc s4) = bsz s ->
  (forall k0, sview s4 k0 = if decide (k0 = k) then Some (new_bytes s k c1) else sview s k0) ->
  forall c, refcount_of s4 c = if decide (c = c1 /\ c1 / bsz s = k) then 1 else refcount_of s c.
Proof.
  intros Hw Hc1 Hz Hnone Eb Hv c. pose proof (geo_numbers _ (w_geo _ Hw)) as Hn.
  destruct (new_bytes_facts s k c1 Hw Hc1) as (_ & _ & He).
  pose proof (Z.mod_pos_bound c (bsz s) ltac:(lia)). pose proof (Z.div_mod c (bsz s) ltac:(lia)).
  unfold refcount_of at 1. rewrite Eb, Hv. destruct (decide (c / bsz s = k)) as [Ek|Ek].
  - rewrite He by lia. rewrite (refcount_of_none s c) by by rewrite Ek.
    destruct (decide (k * bsz s + c `mod` bsz s = c1)) as [E|E].
    + rewrite decide_True; [done|]. assert (c = c1) as <- by lia. done.
    + rewrite decide_False; [done|]. intros [-> _]. lia.
  - rewrite decide_False by naive_solver. done.
Qed.

(** ** Saving the table *)

Lemma table_bytes (l : list Z) : is_bytes (concat (be_bytes 8 <$> l)) /\ length (concat (be_bytes 8 <$> l)) = (8 * length l)%nat.
Proof.
  induction l as [|x l [IH1 IH2]]; [split; [by apply Forall_nil|done]|]. cbn [fmap list_fmap concat length]. split.
  - apply Forall_app. split; [apply be_bytes_is_bytes|done].
  - rewrite length_app, IH2, be_bytes_length. lia.
Qed.
Lemma table_bytes_lookup (l : list Z) j e m b :
  l !! j = Some e -> be_bytes 8 e !! m = Some b -> concat (be_bytes 8 <$> l) !! (8 * j + m)%nat = Some b.
Proof.
  revert j. induction l as [|x l IH]; intros [|j] Hj Hm; try done; cbn [fmap list_fmap concat].
  - injection Hj as <-. rewrite lookup_app_l; [by replace (8 * 0 + m)%nat with m by lia|]. by eapply lookup_lt_Some.
  - rewrite lookup_app_r by (rewrite be_bytes_length; lia). rewrite be_bytes_length.
    replace (8 * S j + m - 8)%nat with (8 * j + m)%nat by lia. by apply IH.
Qed.

Lemma save_table_spec s k :
  rc_wf s -> 0 <= k < rt_size (rc s) ->
  exists f', save_refcount_table (wmul 64 k ENTRY_SIZE) (wadd 64 (wmul 64 k ENTRY_SIZE) ENTRY_SIZE) s =
      (mkRst (hdr s) (rc s) f', Ok tt) /\ rc_wf (mkRst (hdr s) (rc s) f') /\ calm s (mkRst (hdr s) (rc s) f').
Proof.
  intros Hw Hk. pose proof (geo_numbers _ (w_geo _ Hw)) as (Hcs & _ & _ & Hd512).
  pose proof (w_layout _ Hw) as [_ _ (R1 & R2 & R3 & R4 & R5 & R6) La _ Ll Lh]. change ENTRY_SIZE with 8.
  rewrite wmul_small, wadd_small by (unfold inW; lia). destruct (table_bytes (refcount_table (rc s))) as [Hb Hl].
  set (buf := concat (be_bytes 8 <$> refcount_table (rc s))) in *.
  assert (Z.of_nat (length buf) = rt_size (rc s) * 8) as Hlen by (rewrite Hl, (g_rt _ (w_geo _ Hw)); lia).
  destruct (write_dirty_info_eq (rt_offset (rc s)) buf (k * 8) (k * 8 + 8) (rf s)) as (x & y & Hx & Hy & _ & _ & He);
    [lia|lia|rewrite Hlen, R4; by apply Z.divide_mul_r|lia|lia|].
  unfold save_refcount_table, mbind, sres_bind, gets, on_file. fold buf. rewrite He.
  set (d := slice buf _ _). assert (Z.of_nat (length d) = y - x) as Hdl by (subst d; rewrite slice_length; lia).
  destruct (write_buffer (rt_offset (rc s) + x) d (rf s)) as [f' r] eqn:Ew.
  apply write_buffer_law in Ew as (Wout & _ & _ & _ & Wh); [|by apply is_bytes_slice|intros E; rewrite E in Hdl; simpl in Hdl; lia|lia|lia].
  destruct Wh as (Hh' & -> & Hl'); [done|done|right; lia|]. exists f'. split; [done|].
  destruct (cache_inv_file (csz s) ltac:(lia) (blk s) (cache s) (rf s) f') as [Hi Hv]; [exact (wf_blocks s Hw)| |apply Hw|].
  { intros k0 a z Ha Hz. apply Wout. destruct (La k0 a Ha); lia. }
  assert (blen f' = blen (rf s)) as Hle by lia. split.
  - constructor; [apply Hw|by apply (layout_quiet s); try apply Hw|done].
  - constructor; try done. simpl. lia.
Qed.

(** ** The state between allocations *)

(** Metadata is counted; blocks of [pend] are about to be. *)
Record aok (pend : Z -> Prop) s : Prop := mkAok {
  a_wf : rc_wf s;
  a_meta : forall k a, blk s k = Some a -> refcount_of s (a / csz s) <> 0 \/ pend (a / csz s);
  a_pend : forall c, pend c -> c < free s;
  a_rt : forall c, rt_offset (rc s) <= c * csz s < rt_offset (rc s) + rt_size (rc s) * 8 -> refcount_of s c <> 0;
  a_hdr : refcount_of s 0 <> 0;
  a_disc : discard_list (rc s) = [];
  a_free : 0 <= free s
}.
Definition free_ok s : Prop := free s * csz s < 2 ^ 62.

(** A cluster that has become a refcount block. *)
Definition fresh_block s s' (c : Z) : Prop :=
  refcount_of s c = 0 /\ refcount_of s' c = 1 /\ free s <= c /\ exists k, blk s k = None /\ blk s' k = Some (c * csz s).

(** Outside [X] the counts are kept, but for new refcount blocks. *)
Record grown (X : Z -> Prop) s s' : Prop := mkGrown {
  gr_hdr : hdr s' = hdr s;
  gr_geo : geo0 (rc s') = geo0 (rc s);
  gr_table : forall k a, blk s k = Some a -> blk s' k = Some a;
  gr_free : free s <= free s';
  gr_count : forall c, ~ X c -> refcount_of s' c = refcount_of s c \/ fresh_block s s' c
}.

Lemma grown_trans (X1 X2 X : Z -> Prop) s1 s2 s3 :
  (forall c, X1 c -> X c) -> (forall c, X2 c -> X c) -> grown X1 s1 s2 -> grown X2 s2 s3 -> grown X s1 s3.
Proof.
  intros HX1 HX2 [H1 G1 T1 F1 C1] [H2 G2 T2 F2 C2]. destruct (geo0_fields _ _ G1) as (Ec & _).
  constructor; [congruence|congruence|auto|lia|]. intros c Hc.
  destruct (C1 c ltac:(auto)) as [E1|(Z1 & O1 & L1 & k & N1 & B1)], (C2 c ltac:(auto)) as [E2|(Z2 & O2 & L2 & k2 & N2 & B2)].
  - left. congruence.
  - right. split_and!; [congruence|done|lia|]. exists k2. rewrite <-Ec. split; [|done].
    destruct (blk s1 k2) as [a|] eqn:E; [|done]. by rewrite (T1 k2 a E) in N2.
  - right. split_and!; [done|congruence|done|]. exists k. auto.
  - congruence.
Qed.
Lemma calm_grown X s s' : calm s s' -> free s <= free s' -> grown X s s'.
Proof.
  intros Hc Hf. destruct (geo_fields _ _ (ca_geo _ _ Hc)) as (Et & _).
  constructor; [apply Hc|apply geo_geo0, Hc|by rewrite Et|done|]. intros c _. left. by apply calm_refcount.
Qed.
Lemma aok_calm pend s s' :
  aok pend s -> rc_wf s' -> calm s s' -> free s <= free s' -> discard_list (rc s') = [] -> aok pend s'.
Proof.
  intros [W M P R Hh D Fr] Hw Hc Hf Hd. destruct (geo_fields _ _ (ca_geo _ _ Hc)) as (Et & Ec & _ & Es & Eo & _).
  constructor; rewrite ?Et, ?Ec, ?Es, ?Eo; try done; [| | | |lia].
  - intros k a Ha. rewrite (calm_refcount _ _ _ Hc). by eapply M.
  - intros c Hpc. specialize (P c Hpc). lia.
  - intros c Hcr. rewrite (calm_refcount _ _ _ Hc). by apply R.
  - by rewrite (calm_refcount _ _ _ Hc).
Qed.

(** Entries of the table that are not set. *)
Definition zeros (l : list Z) : nat := length (filter (fun a => a = 0) l).
Lemma zeros_insert l i v : l !! i = Some 0 -> v <> 0 -> (zeros (<[i := v]> l) < zeros l)%nat.
Proof.
  revert i. induction l as [|x l IH]; intros [|i] Hl Hv; simplify_eq/=; unfold zeros in *; rewrite !filter_cons.
  - rewrite decide_False, decide_True by done. simpl. lia.
  - specialize (IH i Hl Hv). case_decide; simpl; lia.
Qed.
Lemma zeros_le l l' : Forall2 (fun a b => a <> 0 -> b <> 0) l l' -> (zeros l' <= zeros l)%nat.
Proof.
  induction 1 as [|a b l l' Hab _ IH]; [done|]. unfold zeros in *. rewrite !filter_cons.
  repeat case_decide; simpl; lia || by destruct Hab.
Qed.
Lemma grown_zeros X s s' : grown X s s' -> (zeros (refcount_table (rc s')) <= zeros (refcount_table (rc s)))%nat.
Proof.
  intros [_ G T _ _]. destruct (geo0_fields _ _ G) as (_ & _ & _ & _ & _ & Hl). apply zeros_le.
  apply Forall2_same_length_lookup. split; [done|]. intros i a b Ha Hb Hne.
  assert (blk s (Z.of_nat i) = Some a) as E by (apply blk_of_Some; rewrite Nat2Z.id; split_and!; [lia|done..]).
  apply T, blk_of_Some in E as (_ & E & _). rewrite Nat2Z.id in E. congruence.
Qed.
End alloc.
