(* ===== verification/Qcow2ClusterAlloc.v ===== *)
(** * Allocation of clusters with their reference counts

    [alloc_refcount_block] and [update_alloc_refcount] call each other: a new
    refcount block needs a cluster, which needs a count, which may need a
    block.  Each nested call has set one more entry of the table. *)
From stdpp Require Import prelude list gmap.
From Stdlib Require Import ZArith Lia.
From S2P Require Import Prelude NumOps Qcow2Header SyncAio Qcow2Io Qcow2Cache Qcow2CacheSpec Qcow2Refcount Qcow2RefcountSpec Qcow2RefcountUpdate Qcow2RefcountAlloc.

Section alloc.
Context `{!HashIter} {F : Type} `{!BlockIo F, !BlockIoLaws F}.
Implicit Types s : rst F.

Abbreviation blk s := (blk_of (refcount_table (rc s))).
Abbreviation csz s := (rc_cluster_size (rc s)).
Abbreviation bsz s := (refcount_blk_size (rc s)).
Abbreviation cache s := (refcount_blk_cache (rc s)).
Abbreviation free s := (free_cluster_index (rc s)).
Abbreviation tzeros s := (zeros (refcount_table (rc s))).

(** A failed step that leaves the counts, the table and the dirty blocks. *)
Record harmless s s' : Prop := mkHarmless {
  hl_wf : rc_wf s';
  hl_calm : calm s s';
  hl_free : free s <= free s';
  hl_disc : discard_list (rc s') = []
}.

Lemma harmless_trans s1 s2 s3 : harmless s1 s2 -> harmless s2 s3 -> harmless s1 s3.
Proof. intros [? ? ? ?] [? ? ? ?]. constructor; [done|by eapply calm_trans|lia|done]. Qed.
Lemma harmless_aok pend s s' : aok pend s -> harmless s s' -> aok pend s'.
Proof. intros Ha [? ? ? ?]. by apply (aok_calm pend s). Qed.
Lemma harmless_grown X s s' : harmless s s' -> grown X s s'.
Proof. intros [? ? ? ?]. by apply calm_grown. Qed.
Lemma harmless_refl pend s : aok pend s -> harmless s s.
Proof. intros []. by constructor. Qed.

(** A free cluster beyond the search start holds no metadata. *)
Lemma free_cluster_fresh pend s c :
  aok pend s -> free s <= c -> refcount_of s c = 0 ->
  0 < c /\ (forall k, blk s k <> Some (c * csz s)) /\
  ~ rt_offset (rc s) <= c * csz s < rt_offset (rc s) + rt_size (rc s) * 8.
Proof.
  intros [W M P R Hh D Fr] Hf Hz. pose proof (geo_numbers _ (w_geo _ W)). split_and!.
  - destruct (decide (c = 0)) as [->|]; [done|lia].
  - intros k Hk. destruct (M k _ Hk) as [Hm|Hm]; rewrite Z.div_mul in Hm by lia; [done|].
    specialize (P c Hm). lia.
  - intros Hr. by apply (R c Hr).
Qed.

(** The search, in a state between allocations. *)
Lemma search_one pend s :
  aok pend s -> free_ok s ->
  exists s1 c1, alloc_clusters_with_noref (csz s) s = (s1, Ok (c1 * csz s)) /\ harmless s s1 /\ free s1 = c1 + 1 /\
    free s <= c1 /\ refcount_of s1 c1 = 0.
Proof.
  intros Ha Hf. pose proof (a_wf _ _ Ha) as Hw. pose proof (geo_numbers _ (w_geo _ Hw)) as Hn. unfold free_ok in Hf.
  pose proof (g_cover _ (w_geo _ Hw)) as Hcov. pose proof (a_free _ _ Ha).
  destruct (noref_spec s 1 (csz s)) as (s1 & Hr & Hw1 & Hc1 & Hd & Hlo & Hhi & Hfr & _); try done.
  - pose proof (bytes_to_clusters_exact (rc s) (w_geo _ Hw) 1 ltac:(lia) ltac:(lia)) as E. by rewrite Z.mul_1_l in E.
  - unfold cover. destruct (Z.max_spec (free s) (rt_size (rc s) * bsz s)) as [[_ ->]|[_ ->]]; nia.
  - rewrite (a_disc _ _ Ha). intros t Ht. by apply not_elem_of_nil in Ht.
  - exists s1, (free s1 - 1). split_and!; [done|constructor; [done|done|lia|done]|lia|lia|].
    rewrite (calm_refcount _ _ _ Hc1). apply Hfr. lia.
Qed.

(** Dropping the entry of a block that is neither counted nor changed. *)
Lemma reset_entry s s4 s5 k :
  rc_wf s -> refcount_table (rc s) !! Z.to_nat k = Some 0 -> 0 <= k ->
  rc_wf s5 -> hdr s5 = hdr s -> (forall k0, k0 <> k -> sview s5 k0 = sview s k0) -> blen (rf s) <= blen (rf s5) ->
  geo (rc s5) = geo (rc s4) -> (exists v, refcount_table (rc s4) = <[Z.to_nat k := v]> (refcount_table (rc s))) ->
  geo0 (rc s4) = geo0 (rc s) ->
  (forall k0, dirty_key (cache s5) k0 -> k0 <> k /\ dirty_key (cache s) k0) ->
  let s6 := mkRst (hdr s5) (set_table (<[Z.to_nat k := 0]> (refcount_table (rc s5))) (rc s5)) (rf s5) in
  rc_wf s6 /\ calm s s6.
Proof.
  intros Hw Ht Hk Hw5 Hh Hv Hl G54 [v Ev] G40 Hd s6. destruct (geo_fields _ _ G54) as (Et & _).
  assert (<[Z.to_nat k := 0]> (refcount_table (rc s5)) = refcount_table (rc s)) as Etab.
  { rewrite Et, Ev, list_insert_insert_eq. by apply list_insert_id. }
  assert (geo (rc s6) = geo (rc s)) as G.
  { unfold s6. cbn [rc]. rewrite Etab. revert G54 G40. unfold geo, geo0. destruct (rc s), (rc s4), (rc s5). simpl. intros [=] [=].
    by subst. }
  destruct (geo_fields _ _ G) as (Et6 & Ec6 & _).
  assert (blk s k = None) as Hnone by (unfold blk_of; by rewrite Ht; destruct (k <? 0)).
  assert (forall k0, k0 <> k -> blk s k0 = blk s5 k0) as Hb5.
  { intros k0 Hne. rewrite Et, Ev. apply lookup_lt_Some in Ht. rewrite blk_of_insert by lia. by rewrite decide_False. }
  assert (csz s5 = csz s) as Ec5 by exact Ec6.
  destruct (vanish_inv (csz s) (blk s5) (blk s) (cache s5) (rf s5) k) as [Hi Hv6]; [rewrite <-Ec5; apply Hw5|done|done| |].
  { intros Hdk. by destruct (Hd k Hdk). }
  assert (layout_ok s6) as HL.
  { destruct (w_layout _ Hw) as [Lb Li (R1 & R2 & R3 & R4 & R5 & R6) La Lba Ll Lh].
    destruct (w_layout _ Hw5) as [_ _ _ _ _ Ll5 Lh5]. destruct (geo_fields _ _ G) as (_ & _ & _ & Es & Eo & Er & _).
    constructor; rewrite ?Et6, ?Ec6, ?Es, ?Eo, ?Er; try done; unfold s6; cbn [rf].
    - intros k0 a Ha. destruct (Lb k0 a Ha) as (? & ? & ? & ?). split_and!; try done. lia.
    - split_and!; try done. lia. }
  split.
  - constructor; [by apply (geo_ok_eq (rc s)), Hw|done|]. rewrite Ec6, Et6. exact Hi.
  - constructor; try done.
    + intros k0. destruct (decide (k0 = k)) as [->|Hne]; [unfold sview, view; by rewrite Et6, Hnone|].
      rewrite <-(Hv k0 Hne). unfold sview. rewrite Et6, Ec6, Ec5. exact (Hv6 k0 Hne).
    + intros k0 Hk0. by destruct (Hd k0 Hk0).
Qed.

(** What a nested allocation does for the cluster of a new block. *)
Definition nested_ok (ua : Z -> sres (rst F) unit unit) (bound : nat) : Prop :=
  forall s c1 pend, aok pend s -> free_ok s -> (tzeros s < bound)%nat ->
    0 < c1 < free s -> refcount_of s c1 = 0 ->
    exists s', (ua (c1 * csz s) s = (s', Ok tt) /\ aok pend s' /\ free_ok s' /\ grown (eq c1) s s' /\ refcount_of s' c1 = 1) \/
               (ua (c1 * csz s) s = (s', Err tt) /\ harmless s s').

Section block.
Context (ua : Z -> sres (rst F) unit unit) (bound : nat) (Hua : nested_ok ua bound).

(** The state with the block in place, its cluster not counted yet or counted by itself. *)
Lemma placed_aok pend s1 k c1 c4 f4 :
  aok pend s1 -> blk s1 k = None -> 0 <= k < rt_size (rc s1) -> free s1 = c1 + 1 -> 0 < c1 < cover s1 ->
  refcount_of s1 c1 = 0 -> (forall k', blk s1 k' <> Some (c1 * csz s1)) ->
  let s4 := mkRst (hdr s1) (set_cache c4 (set_table (<[Z.to_nat k := c1 * csz s1]> (refcount_table (rc s1))) (rc s1))) f4 in
  rc_wf s4 -> (forall k0, sview s4 k0 = if decide (k0 = k) then Some (new_bytes s1 k c1) else sview s1 k0) ->
  aok (fun c => pend c \/ c = c1) s4 /\ free_ok s4 /\ blk s4 k = Some (c1 * csz s1) /\
  (forall k0 a, blk s1 k0 = Some a -> blk s4 k0 = Some a) /\
  (forall c, refcount_of s4 c = if decide (c = c1 /\ c1 / bsz s1 = k) then 1 else refcount_of s1 c) /\
  (c1 / bsz s1 = k -> aok pend s4).
Proof.
  intros Ha Hnone Hk Ef Hc1 Hz Hfr s4 Hw4 Hv. pose proof (a_wf _ _ Ha) as Hw. pose proof (geo_numbers _ (w_geo _ Hw)) as Hn.
  pose proof (g_cover _ (w_geo _ Hw)) as Hcov. unfold cover in Hc1.
  assert (forall k0, blk s4 k0 = if decide (k0 = k) then Some (c1 * csz s1) else blk s1 k0) as Hb.
  { intros k0. unfold s4. cbn [rc set_cache set_table refcount_table]. rewrite blk_of_insert by (rewrite <-(g_rt _ (w_geo _ Hw)); lia).
    by rewrite (proj2 (Z.eqb_neq _ 0)) by nia. }
  assert (forall c, refcount_of s4 c = if decide (c = c1 /\ c1 / bsz s1 = k) then 1 else refcount_of s1 c) as Hcnt
    by (apply new_block_counts; try done; lia).
  assert (forall c, refcount_of s1 c <> 0 -> refcount_of s4 c <> 0) as Hmono
    by (intros c Hc; rewrite Hcnt; destruct (decide (c = c1 /\ c1 / bsz s1 = k)); lia).
  assert (forall pend', (forall c, pend c -> pend' c) -> (forall c, pend' c -> c <= c1) -> (pend' c1 \/ c1 / bsz s1 = k) -> aok pend' s4) as Haok.
  { intros pend' Hp Hp' Hc. destruct Ha as [W M P R Hh D Fr]. constructor; try done.
    - intros k0 a. rewrite Hb. change (csz s4) with (csz s1). destruct (decide (k0 = k)).
      + intros E. apply (inj Some) in E as <-. rewrite Z.div_mul by lia. destruct Hc as [?|Ek]; [by right|left]. rewrite Hcnt, decide_True; done.
      + intros Hka. destruct (M k0 a Hka); [left; by apply Hmono|right; by apply Hp].
    - intros c Hpc. specialize (Hp' c Hpc). change (free s4) with (free s1). lia.
    - intros c Hr. apply Hmono, R, Hr.
    - by apply Hmono. }
  split_and!; try done.
  - apply Haok; [by left| |by left; right]. intros c [Hpc| ->]; [|lia]. pose proof (a_pend _ _ Ha c Hpc). lia.
  - unfold free_ok. change (free s4) with (free s1). change (csz s4) with (csz s1). rewrite Ef. nia.
  - by rewrite Hb, decide_True.
  - intros k0 a Hka. rewrite Hb. destruct (decide (k0 = k)) as [->|]; [by rewrite Hnone in Hka|done].
  - intros Ek. apply Haok; [done| |by right]. intros c Hpc. pose proof (a_pend _ _ Ha c Hpc). lia.
Qed.

(** The end of the function: the entry is saved. *)
Lemma finish pend s s5 k :
  aok pend s5 -> free_ok s5 -> grown (fun _ => False) s s5 -> is_Some (blk s5 k) -> 0 <= k < rt_size (rc s5) ->
  exists s', save_refcount_table (wmul 64 k ENTRY_SIZE) (wadd 64 (wmul 64 k ENTRY_SIZE) ENTRY_SIZE) s5 = (s', Ok tt) /\
    aok pend s' /\ free_ok s' /\ grown (fun _ => False) s s' /\ is_Some (blk s' k).
Proof.
  intros Ha Hf Hg Hb Hk. destruct (save_table_spec s5 k (a_wf _ _ Ha) Hk) as (f' & Hr & Hw' & Hc').
  eexists. split_and!; [exact Hr| |done| |done].
  - apply (aok_calm pend s5); [done|done|done|done|apply Ha].
  - apply (grown_trans (fun _ => False) (fun _ => False) _ s s5); [done|done|done|by apply calm_grown].
Qed.

Definition unset s (k : Z) : rst F := mkRst (hdr s) (set_table (<[Z.to_nat k := 0]> (refcount_table (rc s))) (rc s)) (rf s).

Lemma unset_id s k : refcount_table (rc s) !! Z.to_nat k = Some 0 -> unset s k = s.
Proof. intros Ht. unfold unset. rewrite list_insert_id by done. by destruct s as [? []]. Qed.

(** A new block whose cluster is counted by a nested call. *)
Lemma nested_block pend s1 k c1 c4 f4 :
  aok pend s1 -> free s1 = c1 + 1 -> (tzeros s1 <= bound)%nat -> 0 <= k < rt_size (rc s1) ->
  refcount_table (rc s1) !! Z.to_nat k = Some 0 -> 0 < c1 < cover s1 -> refcount_of s1 c1 = 0 ->
  (forall k', blk s1 k' <> Some (c1 * csz s1)) ->
  let s4 := mkRst (hdr s1) (set_cache c4 (set_table (<[Z.to_nat k := c1 * csz s1]> (refcount_table (rc s1))) (rc s1))) f4 in
  rc_wf s4 -> blen (rf s1) <= blen f4 ->
  (forall k0, sview s4 k0 = if decide (k0 = k) then Some (new_bytes s1 k c1) else sview s1 k0) ->
  (forall k0, dirty_key c4 k0 -> k0 <> k /\ dirty_key (cache s1) k0) ->
  exists s', ((if c1 / bsz s1 =? k then mret tt else ua (c1 * csz s1)) s4 = (s', Ok tt) /\ aok pend s' /\ free_ok s' /\
                grown (fun c => c = c1) s1 s' /\ refcount_of s' c1 = 1 /\ blk s' k = Some (c1 * csz s1)) \/
             ((if c1 / bsz s1 =? k then mret tt else ua (c1 * csz s1)) s4 = (s', Err tt) /\ harmless s1 (unset s' k)).
Proof.
  intros Ha Ef Hz0 Hk Hent Hc1 Hz Hfr s4 Hw4 Hl4 Hv4 Hd4. pose proof (a_wf _ _ Ha) as Hw.
  assert (blk s1 k = None) as Hnone by (unfold blk_of; by rewrite Hent; destruct (k <? 0)).
  destruct (placed_aok pend s1 k c1 c4 f4 Ha Hnone Hk Ef Hc1 Hz Hfr Hw4 Hv4) as (Ha4 & Hf4 & Hb4 & Ht4 & Hcnt4 & Hown4). fold s4 in Ha4, Hf4, Hb4, Ht4, Hcnt4, Hown4.
  assert (geo0 (rc s4) = geo0 (rc s1)) as G4 by (unfold geo0, s4; simpl; by rewrite length_insert).
  assert (grown (fun c => c = c1) s1 s4) as Hg4.
  { constructor; try done. intros c Hc. left. rewrite Hcnt4. destruct (decide (c = c1 /\ c1 / bsz s1 = k)); [naive_solver|done]. }
  destruct (Z.eqb_spec (c1 / bsz s1) k) as [Ek|Ek].
  - exists s4. left. split_and!; [done|by apply Hown4|done|done| |done]. rewrite Hcnt4. by rewrite decide_True.
  - destruct (Hua s4 c1 (fun c => pend c \/ c = c1)) as (s' & [(Hr & Ha' & Hf' & Hg' & Hone)|[Hr Hh]]); try done.
    + unfold s4. simpl. pose proof (zeros_insert (refcount_table (rc s1)) (Z.to_nat k) (c1 * csz s1) Hent) as Hzi.
      pose proof (geo_numbers _ (w_geo _ Hw)). assert (c1 * csz s1 <> 0) by nia. specialize (Hzi ltac:(done)). lia.
    + change (free s4) with (free s1). lia.
    + rewrite Hcnt4. rewrite decide_False; [done|]. naive_solver.
    + exists s'. left. split_and!; [done| |done| |done|by apply Hg'].
      * destruct Ha' as [W M P R Hh D Fr]. constructor; try done; [|intros c Hpc; apply P; by left].
        intros k0 a Hka. destruct (M k0 a Hka) as [?|[?|E]]; [by left|by right|left; rewrite E, Hone; lia].
      * eapply grown_trans; [| |exact Hg4|exact Hg']; [done|by intros c ->].
    + exists s'. right. split; [done|]. destruct Hh as [Hw' Hc' Hf' Hdi'].
      destruct (reset_entry s1 s4 s' k) as [Hw6 Hc6]; try done.
      * lia.
      * apply (ca_hdr _ _ Hc').
      * intros k0 Hne. by rewrite (ca_view _ _ Hc'), Hv4, decide_False.
      * pose proof (ca_len _ _ Hc') as E. change (blen (rf s4)) with (blen f4) in E. lia.
      * apply (ca_geo _ _ Hc').
      * by eexists.
      * intros k0 Hk0. apply Hd4. by apply (ca_dirty _ _ Hc').
Qed.

Lemma alloc_refcount_block_run pend s k :
  aok pend s -> free_ok s -> (tzeros s <= bound)%nat -> 0 <= k < rt_size (rc s) -> blk s k = None ->
  exists s', (alloc_refcount_block ua k s = (s', Ok tt) /\ aok pend s' /\ free_ok s' /\
                grown (fun _ => False) s s' /\ is_Some (blk s' k)) \/
             (alloc_refcount_block ua k s = (s', Err tt) /\ harmless s (unset s' k)).
Proof.
  intros Ha Hf Hz0 Hk Hnone. pose proof (a_wf _ _ Ha) as Hw. pose proof (geo_numbers _ (w_geo _ Hw)) as Hn.
  destruct (table_entry s k Hw Hk) as (v & Hent & [[-> _]|?]); [|congruence].
  destruct (search_one pend s Ha Hf) as (s1 & c1 & Hr & Hs1 & Ef & Hlo & Hz). pose proof (harmless_aok pend s s1 Ha Hs1) as Ha1.
  destruct (geo_fields _ _ (ca_geo _ _ (hl_calm _ _ Hs1))) as (Et & Ec & Eb & Es & Eo & _).
  unfold alloc_refcount_block. assert (gets id s = (s, @Ok unit _ (rc s))) as Hg by done. rewrite (sres_step _ _ _ _ _ Hg).
  rewrite (proj2 (Z.leb_gt _ _)) by lia. rewrite (sres_step _ _ _ _ _ Hr).
  rewrite !shr_bits, !shr_blk, !cluster_in_rc_block_mod by apply Hw. rewrite Z.div_mul, Z.mod_mod by lia.
  destruct (Z.leb_spec (rt_size (rc s)) (c1 / bsz s)) as [Hge|Hin].
  { exists s1. right. split; [done|]. rewrite unset_id; [done|by rewrite Et]. }
  destruct (free_cluster_fresh pend s c1 Ha Hlo) as (Hpos & Hfresh & Hrt); [by rewrite <-(calm_refcount _ _ c1 (hl_calm _ _ Hs1))|].
  assert (c1 < cover s1) as Hcov.
  { unfold cover. rewrite Es, Eb. pose proof (Z.div_mod c1 (bsz s) ltac:(lia)). pose proof (Z.mod_pos_bound c1 (bsz s) ltac:(lia)). nia. }
  rewrite <-Ec, <-Eb. rewrite <-Es in Hk. rewrite <-Et in Hent, Hz0. rewrite <-Et, <-Ec in Hfresh. rewrite <-Ec, <-Es, <-Eo in Hrt.
  assert (blk s1 k = None) as Hnone1 by by rewrite Et.
  destruct (new_block_spec s1 k c1 (hl_wf _ _ Hs1) Hk Hnone1 (conj Hpos Hcov) Hfresh Hrt
    (_ ← (if c1 / bsz s1 =? k then mret tt else ua (c1 * csz s1));
     save_refcount_table (wmul 64 k ENTRY_SIZE) (wadd 64 (wmul 64 k ENTRY_SIZE) ENTRY_SIZE))) as (c4 & f4 & -> & Hw4 & Hl4 & Hv4 & Hd4).
  destruct (nested_block pend s1 k c1 c4 f4) as (s5 & [(H5 & Ha5 & Hf5 & Hg5 & Hone & Hb5)|[H5 Hh]]); try done.
  - rewrite (sres_step _ _ _ _ _ H5).
    assert (grown (fun _ => False) s s5) as Hg05.
    { destruct (grown_trans (fun c => c = c1) (fun c => c = c1) (fun c => c = c1) s s1 s5) as [Gh Gg Gt Gf Gc]; try done;
        [by apply harmless_grown|]. constructor; try done. intros c _. destruct (decide (c = c1)) as [->|Hne]; [|by apply Gc].
      right. split_and!; [by rewrite <-(calm_refcount _ _ _ (hl_calm _ _ Hs1))|done|done|exists k; by rewrite <-Ec]. }
    destruct (geo0_fields _ _ (gr_geo _ _ _ Hg05)) as (_ & _ & Es5 & _).
    destruct (finish pend s s5 k) as (s' & Hfin); [done|done|done|by rewrite Hb5; eexists|by rewrite Es5, <-Es|]. exists s'. by left.
  - exists s5. right. split; [unfold mbind, sres_bind; by rewrite H5|]. by eapply harmless_trans.
Qed.

(** With the entry reset on failure. *)
Lemma alloc_refcount_block_spec pend s k :
  aok pend s -> free_ok s -> (tzeros s <= bound)%nat -> 0 <= k < rt_size (rc s) -> blk s k = None ->
  exists s', (reset_on_err k (alloc_refcount_block ua k) s = (s', Ok tt) /\ aok pend s' /\ free_ok s' /\
                grown (fun _ => False) s s' /\ is_Some (blk s' k)) \/
             (reset_on_err k (alloc_refcount_block ua k) s = (s', Err tt) /\ harmless s s').
Proof.
  intros Ha Hf Hz Hk Hn. unfold reset_on_err.
  destruct (alloc_refcount_block_run pend s k) as (s' & [(-> & ?)|[-> ?]]); try done; [exists s'|exists (unset s' k)]; auto.
Qed.

Lemma alloc_blocks_spec pend i n s :
  aok pend s -> free_ok s -> (tzeros s <= bound)%nat -> 0 <= i ->
  exists s', (alloc_blocks (alloc_refcount_block ua) i n s = (s', Ok tt) /\ aok pend s' /\ free_ok s' /\
                grown (fun _ => False) s s' /\ (forall c, inr i (i + Z.of_nat n) c -> is_Some (blk s' (c / bsz s)))) \/
             (alloc_blocks (alloc_refcount_block ua) i n s = (s', Err tt) /\ aok pend s' /\ grown (fun _ => False) s s' /\
                (n = 1%nat -> harmless s s') /\ exists c, inr i (i + Z.of_nat n) c /\ blk s (c / bsz s) = None).
Proof.
  revert i s. induction n as [|n IH]; intros i s Ha Hf Hz Hi.
  { exists s. left. split_and!; [done..|eapply harmless_grown, harmless_refl, Ha|unfold inr; lia]. }
  pose proof (a_wf _ _ Ha) as Hw. pose proof (geo_numbers _ (w_geo _ Hw)) as Hn. pose proof (harmless_refl _ _ Ha) as Hr0.
  cbn [alloc_blocks]. assert (gets id s = (s, @Ok unit _ (rc s))) as Hg by done. rewrite (sres_step _ _ _ _ _ Hg). clear Hg.
  rewrite shr_blk by apply Hw. set (k := i / bsz s). assert (0 <= k) by (apply Z.div_pos; lia).
  assert (blk s k = None -> exists c, inr i (i + Z.of_nat (S n)) c /\ blk s (c / bsz s) = None) as Hnone
    by (intros E; exists i; split; [unfold inr; lia|done]).
  destruct (Z.leb_spec (rt_size (rc s)) k) as [Hge|Hlt].
  { exists s. right. split_and!; [done|done|by apply harmless_grown|done|]. apply Hnone.
    destruct (blk s k) as [a|] eqn:E; [|done]. destruct (block_facts s k a Hw E) as (_ & _ & _ & ? & _). lia. }
  destruct (table_entry s k Hw ltac:(lia)) as (v & -> & Hcase). cbn [unwrap]. rewrite slift_Ok_bind.
  assert (exists s1, ((if v =? 0 then reset_on_err k (alloc_refcount_block ua k) else mret tt) s = (s1, Ok tt) /\ aok pend s1 /\
      free_ok s1 /\ grown (fun _ => False) s s1 /\ is_Some (blk s1 k)) \/
    ((if v =? 0 then reset_on_err k (alloc_refcount_block ua k) else mret tt) s = (s1, Err tt) /\ harmless s s1 /\ blk s k = None))
    as (s1 & [(Hr1 & Ha1 & Hf1 & Hg1 & Hb1)|(Hr1 & Hh1 & Hb1)]).
  { destruct Hcase as [[-> E]|E].
    - destruct (alloc_refcount_block_spec pend s k) as (s1 & [?|[? ?]]); try done; exists s1; auto.
    - destruct (block_facts s k v Hw E) as (_ & _ & _ & _ & Hne). rewrite (proj2 (Z.eqb_neq v 0)) by done.
      exists s. left. split_and!; [done..|by apply harmless_grown|by eexists]. }
  - rewrite (sres_step _ _ _ _ _ Hr1). pose proof (grown_zeros _ _ _ Hg1). destruct (geo0_fields _ _ (gr_geo _ _ _ Hg1)) as (_ & Eb & _).
    destruct (IH (i + 1) s1) as (s' & [(Hr & Ha' & Hf' & Hg' & Hb')|(Hr & Ha' & Hg' & _ & c & Hc & Hb')]); [done|done|lia|lia|..];
      exists s'; [left|right]; rewrite Hr.
    + split_and!; [done..|by eapply grown_trans; [| |exact Hg1|exact Hg']|]. intros c Hc. rewrite Eb in Hb'.
      destruct (decide (c = i)) as [->|]; [|apply Hb'; unfold inr in *; lia]. destruct Hb1 as [a Hb1]. exists a. by apply Hg'.
    + assert (blk s (c / bsz s) = None) as Hbn.
      { rewrite Eb in Hb'. destruct (blk s (c / bsz s)) as [a|] eqn:E; [|done]. apply (gr_table _ _ _ Hg1) in E. congruence. }
      split_and!; [done|done|by eapply grown_trans; [| |exact Hg1|exact Hg']| |exists c; split; [unfold inr in *; lia|done]].
      intros [= ->]. unfold inr in Hc. lia.
  - exists s1. right. split_and!; [unfold mbind, sres_bind; by rewrite Hr1|by eapply harmless_aok|by apply harmless_grown|done|by apply Hnone].
Qed.
End block.

(** Counting fresh clusters whose blocks exist. *)
Lemma count_fresh pend s st n fl :
  aok pend s -> free_ok s -> 0 <= st -> 0 <= n -> st + n <= free s ->
  (forall c, inr st (st + n) c -> refcount_of s c = 0 /\ is_Some (blk s (c / bsz s))) ->
  exists s', update_refcount (st * csz s) n 1 fl DNever s = (s', Ok tt) /\ aok pend s' /\ free_ok s' /\
    grown (inr st (st + n)) s s' /\ (forall c, inr st (st + n) c -> refcount_of s' c = 1).
Proof.
  intros Ha Hf Hst Hn Hfr Hc. pose proof (a_wf _ _ Ha) as Hw. pose proof (geo_numbers _ (w_geo _ Hw)) as Hg. unfold free_ok in Hf.
  destruct (update_refcount_spec s st n 1 fl DNever) as (s' & r & Hr & Hcase); [done|done|done|nia|lia|].
  destruct Hcase as [(-> & St & _)|(_ & _ & c & Hi & [Hb|Hu])].
  2:{ destruct (Hc c Hi) as [_ [a E]]. congruence. }
  2:{ destruct (Hc c Hi) as [E _]. rewrite E in Hu. by destruct Hu. }
  exists s'. destruct St as [W H' G C K Fr T]. destruct (geo_fields _ _ G) as (Et & Ec & Eb & Es & Eo & _).
  assert (forall c, refcount_of s c + 1 <> 0) as Hpos by (intros c; pose proof (refcount_of_u16 s c Hw) as [? _]; lia).
  assert (free s' = free s) as Ef by (destruct Fr as [?|[[_ E] _]]; [done|by destruct (Hpos _ E)]).
  assert (forall c, refcount_of s c <> 0 -> refcount_of s' c <> 0) as Hmono.
  { intros c Hnz. rewrite K. pose proof (refcount_of_u16 s c Hw) as [? _]. unfold delta. case_decide; lia. }
  assert (discard_list (rc s') = []) as Hd.
  { destruct (discard_list (rc s')) as [|t l] eqn:E; [done|]. exfalso.
    assert (tasks_ok (csz s) (fun _ => False) (discard_list (rc s))) as HT
      by (rewrite (a_disc _ _ Ha); intros t0 Ht0; by apply not_elem_of_nil in Ht0).
    specialize (T _ HT). destruct (T t ltac:(by left)) as [[[q Hq] _ _ Hne _] Hcov].
    destruct (Hcov q) as [[]|[_ Hz]]; [unfold task_covers; rewrite Hq in *; lia|by destruct (Hpos q)]. }
  split_and!; [done| |unfold free_ok; by rewrite Ef, Ec| |].
  - destruct Ha as [_ M P R Hh D F0]. constructor; rewrite ?Et, ?Ec, ?Es, ?Eo, ?Ef; try done; [|by intros c ?%R; auto|by auto].
    intros k a Hka. destruct (M k a Hka); [left; by apply Hmono|by right].
  - constructor; [done|by apply geo_geo0|by rewrite Et|lia|]. intros c Hnc. left. rewrite K, delta_out by done. lia.
  - intros c Hi. rewrite K, delta_in by done. destruct (Hc c Hi) as [-> _]. done.
Qed.

Lemma update_alloc_spec fuel pend s st n fl :
  aok pend s -> free_ok s -> (tzeros s < fuel)%nat -> 0 <= st -> 0 <= n -> st + n <= free s ->
  (forall c, inr st (st + n) c -> refcount_of s c = 0) ->
  exists s', (update_alloc_refcount fuel (st * csz s) n 1 fl DNever s = (s', Ok tt) /\ aok pend s' /\ free_ok s' /\
                grown (inr st (st + n)) s s' /\ (forall c, inr st (st + n) c -> refcount_of s' c = 1)) \/
             (update_alloc_refcount fuel (st * csz s) n 1 fl DNever s = (s', Err tt) /\ aok pend s' /\
                grown (fun _ => False) s s' /\ (n = 1 -> harmless s s') /\
                exists c, inr st (st + n) c /\ blk s (c / bsz s) = None).
Proof.
  revert pend s st n fl. induction fuel as [|fuel IH]; intros pend s st n fl Ha Hf Hz Hst Hn Hfr Hc; [lia|].
  pose proof (a_wf _ _ Ha) as Hw. pose proof (geo_numbers _ (w_geo _ Hw)) as Hg. pose proof Hf as Hf0. unfold free_ok in Hf0.
  set (ua := fun off => update_alloc_refcount fuel off 1 1 true DNever).
  assert (nested_ok ua fuel) as Hua.
  { intros s0 c1 pend0 Ha0 Hf1 Hz0 Hc1 Hz1. unfold ua.
    destruct (IH pend0 s0 c1 1 true) as (s' & [(Hr & ? & ? & [Gh Gg Gt Gf Gc] & Ho)|(Hr & _ & _ & Hh & _)]); try done; try lia.
    - intros c Hi. unfold inr in Hi. by replace c with c1 by lia.
    - exists s'. left. split_and!; [done..| |apply Ho; unfold inr; lia]. constructor; try done. intros c Hne. apply Gc.
      intros Hi. apply Hne. unfold inr in Hi. lia.
    - exists s'. right. split; [done|]. by apply Hh. }
  cbn [update_alloc_refcount]. assert (gets rc_cluster_size s = (s, @Ok unit _ (csz s))) as Hget by done.
  rewrite (sres_step _ _ _ _ _ Hget). clear Hget.
  assert (div_round_up (st * csz s) (csz s) = Some st) as ->.
  { destruct (div_round_up_spec (st * csz s) (csz s)) as (q & -> & _ & Hq); [unfold inW; nia|lia|]. f_equal. nia. }
  cbn [unwrap]. rewrite slift_Ok_bind. fold ua.
  destruct (alloc_blocks_spec ua fuel Hua pend st (Z.to_nat n) s) as
    (s1 & [(Hr & Ha1 & Hf1 & Hg1 & Hb1)|(Hr & Ha1 & Hg1 & Hh1 & Hnb)]); [done|done|lia|done|..];
    rewrite Z2Nat.id in * by done.
  - rewrite (sres_step _ _ _ _ _ Hr). destruct (geo0_fields _ _ (gr_geo _ _ _ Hg1)) as (Ec & Eb & _).
    assert (forall c, inr st (st + n) c -> refcount_of s1 c = 0) as Hc1.
    { intros c Hi. destruct (gr_count _ _ _ Hg1 c ltac:(tauto)) as [->|(_ & _ & Hge & _)]; [by apply Hc|]. unfold inr in Hi. lia. }
    destruct (count_fresh pend s1 st n fl) as (s' & Hr' & Ha' & Hf' & Hg' & Ho'); try done.
    + pose proof (gr_free _ _ _ Hg1). lia.
    + intros c Hi. rewrite Eb. auto.
    + exists s'. left. rewrite <-Ec. split_and!; [done|done|done| |done]. eapply grown_trans; [| |exact Hg1|exact Hg']; done.
  - exists s1. right. split_and!; [unfold mbind, sres_bind; by rewrite Hr|done|done| |done]. intros ->. by apply Hh1.
Qed.

(** ** Allocation *)

(** The state of the counts between two operations of the driver: metadata
    is counted, and clusters waiting to be discarded are not. *)
Record image_ok s : Prop := mkImageOk {
  i_wf : rc_wf s;
  i_meta : forall k a, blk s k = Some a -> refcount_of s (a / csz s) <> 0;
  i_rt : forall c, rt_offset (rc s) <= c * csz s < rt_offset (rc s) + rt_size (rc s) * 8 -> refcount_of s c <> 0;
  i_hdr : refcount_of s 0 <> 0;
  i_disc : tasks_ok (csz s) (fun c => refcount_of s c = 0) (discard_list (rc s));
  i_free : 0 <= free s
}.

Lemma aok_image s : aok (fun _ => False) s -> image_ok s.
Proof.
  intros [W M P R Hh D Fr]. constructor; try done.
  - intros k a Ha. by destruct (M k a Ha).
  - rewrite D. intros t Ht. by apply not_elem_of_nil in Ht.
Qed.

Lemma image_search s nb size :
  image_ok s -> 0 < nb -> bytes_to_clusters size (csz s) = Ok nb -> (Z.max (free s) (cover s) + nb) * csz s < 2 ^ 62 ->
  exists s1 c, alloc_clusters_with_noref size s = (s1, Ok (c * csz s)) /\ aok (fun _ => False) s1 /\ free_ok s1 /\
    calm s s1 /\ free s <= c /\ free s1 = c + nb /\ free_run s c nb /\ (forall c', free s <= c' -> free_run s c' nb -> c <= c') /\
    (discard_list (rc s) = [] -> changed_in (in_blocks (csz s) (blk s)) (rf s) (rf s1)).
Proof.
  intros [W M R Hh D Fr] Hnb Hsz Hb. pose proof (geo_numbers _ (w_geo _ W)) as Hg.
  destruct (noref_spec s nb size) as (s1 & Hr & Hw1 & Hc1 & Hd1 & Hlo & Hhi & Hrun & Hmin & Hch); try done; [lia| |].
  { eapply tasks_ok_mono; [|exact D]. intros c Hz k Hk. apply (M k _ Hk). by rewrite Z.div_mul by lia. }
  destruct (geo_fields _ _ (ca_geo _ _ Hc1)) as (Et & Ec & _ & Es & Eo & _).
  exists s1, (free s1 - nb). split_and!; [done| | |done|lia|lia|done|done|done].
  - constructor; rewrite ?Et, ?Ec, ?Es, ?Eo; try done; [..|lia].
    + intros k a Ha. left. rewrite (calm_refcount _ _ _ Hc1). by apply (M k).
    + intros c Hc. rewrite (calm_refcount _ _ _ Hc1). by apply R.
    + by rewrite (calm_refcount _ _ _ Hc1).
  - unfold free_ok. rewrite Ec. nia.
Qed.

Lemma clusters_of size cs nb :
  0 < cs -> 0 < nb -> (nb - 1) * cs < size <= nb * cs -> nb * cs < 2 ^ 64 -> bytes_to_clusters size cs = Ok nb.
Proof.
  intros Hc Hn Hs Hb. unfold bytes_to_clusters.
  destruct (div_round_up_spec size cs) as (q & -> & _ & Hq); [unfold inW; nia|done|]. simpl. f_equal. nia.
Qed.

(** The end of the range that is allocated, in bytes and in clusters. *)
Lemma alloc_end s c nb size :
  rc_wf s -> 0 <= c -> 0 < nb -> (nb - 1) * csz s < size <= nb * csz s -> (c + nb) * csz s < 2 ^ 62 ->
  round_up (wadd 64 (c * csz s) size) (csz s) = Ok ((c + nb) * csz s) /\
  wshr 64 ((c + nb) * csz s) (wadd 32 (rc_cluster_bits (rc s)) (refcount_blk_bits (rc s))) = (c + nb) / bsz s /\
  bytes_to_clusters (wsub 64 ((c + nb) * csz s) (c * csz s)) (csz s) = Ok nb.
Proof.
  intros Hw Hc Hnb Hs Hlt. pose proof (geo_numbers _ (w_geo _ Hw)) as Hg. pose proof (w_geo _ Hw) as [Gb Gc Gbb Gbs _ _ _].
  assert (0 <= c * csz s /\ 0 < size /\ c * csz s + size <= (c + nb) * csz s) as (? & ? & ?) by nia.
  split_and!.
  - rewrite wadd_small by (unfold inW; lia). destruct (round_up_small (c * csz s + size) (csz s)) as (y & -> & [q ->] & Hy); [lia..|].
    do 2 f_equal. nia.
  - rewrite wadd_small by (unfold inW; lia). rewrite Gbb. unfold wshr. rewrite Z.mod_small, Z.shiftr_div_pow2 by lia.
    rewrite Z.pow_add_r by lia. rewrite <-Gc, <-Gbs, <-Z.div_div by lia. by rewrite Z.div_mul by lia.
  - rewrite wsub_small by (unfold inW; nia). replace ((c + nb) * csz s - c * csz s) with (nb * csz s) by ring.
    apply bytes_to_clusters_exact; [apply Hw|lia|nia].
Qed.

(** Where a search that finds [nb] clusters within the table ends up. *)
Definition first_fit s (nb c : Z) : Prop :=
  free s <= c /\ free_run s c nb /\ forall c', free s <= c' -> free_run s c' nb -> c <= c'.

Lemma alloc_clusters_spec s nb size c0 :
  image_ok s -> 0 < nb -> (nb - 1) * csz s < size <= nb * csz s -> (Z.max (free s) (cover s) + nb) * csz s < 2 ^ 62 ->
  free s <= c0 -> free_run s c0 nb -> (c0 + nb) / bsz s < rt_size (rc s) ->
  exists s' c, first_fit s nb c /\ image_ok s' /\
    (alloc_clusters_with_ref size s = (s', Ok (c * csz s)) /\ grown (inr c (c + nb)) s s' /\
       (forall x, inr c (c + nb) x -> refcount_of s' x = 1) \/
     alloc_clusters_with_ref size s = (s', Err tt) /\ grown (fun _ => False) s s' /\
       exists x, inr c (c + nb) x /\ blk s (x / bsz s) = None).
Proof.
  intros Hi Hnb Hs Hb Hc0 Hrun0 Hroom. pose proof (i_wf _ Hi) as Hw. pose proof (geo_numbers _ (w_geo _ Hw)) as Hg.
  pose proof (i_free _ Hi) as Hfr.
  assert (0 <= Z.max (free s) (cover s) * csz s) by (apply Z.mul_nonneg_nonneg; lia).
  assert (bytes_to_clusters size (csz s) = Ok nb) as Hbc.
  { rewrite Z.mul_add_distr_r in Hb. apply clusters_of; lia. }
  destruct (image_search s nb size) as (s1 & c & Hr & Ha & Hf1 & Hc1 & Hlo & Ef & Hrun & Hmin & _); try done.
  destruct (geo_fields _ _ (ca_geo _ _ Hc1)) as (Et & Ec & Eb & Es & _).
  assert (c <= c0) as Hcc by by apply Hmin. pose proof (a_wf _ _ Ha) as Hw1. pose proof Hf1 as Hf1'. unfold free_ok in Hf1'. rewrite Ef in Hf1'.
  destruct (alloc_end s1 c nb size) as (E1 & E2 & E3); [done|lia|done|by rewrite Ec|done|].
  assert (0 < size) by nia. unfold alloc_clusters_with_ref. rewrite (proj2 (Z.eqb_neq size 0)) by lia.
  rewrite (sres_step _ _ _ _ _ Hr). assert (gets id s1 = (s1, @Ok unit _ (rc s1))) as Hget by done.
  rewrite (sres_step _ _ _ _ _ Hget). rewrite <-Ec, E1. cbn [unwrap_res]. rewrite slift_Ok_bind, E2, E3, slift_Ok_bind.
  assert ((c + nb) / bsz s1 < rt_size (rc s1)) as Hin.
  { rewrite Eb, Es. eapply Z.le_lt_trans; [|exact Hroom]. apply Z.div_le_mono; lia. }
  rewrite (proj2 (Z.leb_gt _ _) Hin), sret_bind, (sres_step _ _ _ _ _ Hget).
  destruct (update_alloc_spec (S (length (refcount_table (rc s1)))) (fun _ => False) s1 c nb false)
    as (s' & [(Hu & Ha' & _ & Hg' & Ho)|(Hu & Ha' & Hg' & _ & x & Hx & Hbx)]); try done.
  - unfold zeros. pose proof (length_filter (fun a => a = 0) (refcount_table (rc s1))). lia.
  - lia.
  - lia.
  - lia.
  - intros x Hx. rewrite (calm_refcount _ _ _ Hc1). apply Hrun. exact Hx.
  - exists s', c. split_and!; [done|by apply aok_image|]. left. rewrite (sres_step _ _ _ _ _ Hu). split_and!; [done| |done].
    apply (grown_trans (fun _ => False) (inr c (c + nb)) _ s s1); [done|done|apply calm_grown; [done|lia]|done].
  - exists s', c. split_and!; [done|by apply aok_image|]. right. split_and!.
    + unfold mbind, sres_bind. by rewrite Hu.
    + apply (grown_trans (fun _ => False) (fun _ => False) _ s s1); [done|done|apply calm_grown; [done|lia]|done].
    + exists x. by rewrite <-Et, <-Eb.
Qed.

(** *** Allocating where the refcount blocks exist *)

(** [n] free clusters in a row that the search will reach, within blocks that
    exist. *)
Definition room (n : Z) s : Prop := exists c0,
  free s <= c0 /\ 0 <= c0 /\ free_run s c0 n /\ (c0 + n) / bsz s < rt_size (rc s) /\
  forall k, 0 <= k <= (c0 + n) / bsz s -> is_Some (blk s k).

Lemma room_mono n n' s : rc_wf s -> 0 <= n' <= n -> room n s -> room n' s.
Proof.
  intros Hw Hn (c0 & H1 & H2 & H3 & H4 & H5). pose proof (geo_numbers _ (w_geo _ Hw)) as Hg.
  assert ((c0 + n') / bsz s <= (c0 + n) / bsz s) by (apply Z.div_le_mono; lia).
  exists c0. split_and!; [done|done|intros x Hx; apply H3; lia|lia|intros k Hk; apply H5; lia].
Qed.

(** The loop over blocks that exist does nothing. *)
Lemma alloc_blocks_exist alloc i n s :
  rc_wf s -> 0 <= i -> (forall c, inr i (i + Z.of_nat n) c -> is_Some (blk s (c / bsz s))) ->
  alloc_blocks alloc i n s = (s, Ok tt).
Proof.
  intros Hw. revert i. induction n as [|n IH]; intros i Hi Hb; [done|]. cbn [alloc_blocks].
  assert (gets id s = (s, @Ok unit _ (rc s))) as Hget by done. rewrite (sres_step _ _ _ _ _ Hget).
  rewrite (shr_blk _ (w_geo _ Hw)). destruct (Hb i) as [a Ha]; [unfold inr; lia|].
  destruct (block_facts s _ a Hw Ha) as (Ht & _ & _ & Hk & Hnz). rewrite (proj2 (Z.leb_gt _ _)) by lia.
  rewrite Ht. cbn [unwrap]. rewrite slift_Ok_bind, (proj2 (Z.eqb_neq a 0)), sret_bind by done.
  apply IH; [lia|]. intros c Hc. apply Hb. unfold inr in *. lia.
Qed.

Section alloc_one.
Context s (n : Z) (Hi : image_ok s) (Hd : discard_list (rc s) = []) (Hn : 0 <= n) (Hroom : room (n + 1) s).

Definition allocated (s' : rst F) (c : Z) : Prop :=
  image_ok s' /\ hdr s' = hdr s /\ geo (rc s') = geo (rc s) /\ discard_list (rc s') = [] /\ room n s' /\
  0 < c /\ (c + 1) * csz s < 2 ^ 61 /\ refcount_of s c = 0 /\
  (forall x, refcount_of s' x = refcount_of s x + delta c (c + 1) 1 x) /\
  changed_in (in_blocks (csz s) (blk s)) (rf s) (rf s').

(** The room that is left once the cluster [c] is taken. *)
Lemma room_left s' c :
  geo (rc s') = geo (rc s) -> free s' = c + 1 -> first_fit s 1 c ->
  (forall x, refcount_of s' x = refcount_of s x + delta c (c + 1) 1 x) -> room n s'.
Proof.
  intros G Ef (_ & _ & Hmin) Hcnt. destruct Hroom as (c0 & H1 & H2 & H3 & H4 & H5).
  destruct (geo_fields _ _ G) as (Et & _ & Eb & Es & _). pose proof (geo_numbers _ (w_geo _ (i_wf _ Hi))) as Hg.
  assert (c <= c0) as Hc by (apply Hmin; [done|]; intros x Hx; apply H3; lia).
  assert ((c0 + n) / bsz s <= (c0 + (n + 1)) / bsz s) as Hdiv by (apply Z.div_le_mono; lia).
  unfold room. rewrite Ef, Et, Eb, Es. destruct (decide (c < c0)) as [Hlt|Hge].
  - exists c0. split_and!; [lia|done| |lia|intros k Hk; apply H5; lia]. intros x Hx. rewrite Hcnt, H3, delta_out by (unfold inr; lia). lia.
  - exists (c0 + 1). split_and!; [lia|lia| |replace (c0 + 1 + n) with (c0 + (n + 1)) by ring; lia|].
    + intros x Hx. rewrite Hcnt, H3, delta_out by (unfold inr; lia). lia.
    + intros k Hk. apply H5. by replace (c0 + (n + 1)) with (c0 + 1 + n) by ring.
Qed.

Lemma alloc_one_spec : exists s' c, alloc_clusters_with_ref (csz s) s = (s', Ok (c * csz s)) /\ allocated s' c.
Proof.
  pose proof (i_wf _ Hi) as Hw. pose proof (geo_numbers _ (w_geo _ Hw)) as Hg. pose proof (g_cover _ (w_geo _ Hw)) as Hcov.
  pose proof Hroom as (c0 & H1 & H2 & H3 & H4 & H5). pose proof (i_free _ Hi) as Hfr.
  assert (c0 + (n + 1) < cover s) as Hcv.
  { unfold cover. pose proof (Z.div_mod (c0 + (n + 1)) (bsz s) ltac:(lia)). pose proof (Z.mod_pos_bound (c0 + (n + 1)) (bsz s) ltac:(lia)).
    assert (bsz s * ((c0 + (n + 1)) / bsz s) <= bsz s * (rt_size (rc s) - 1)) by (apply Z.mul_le_mono_nonneg_l; lia). lia. }
  assert ((Z.max (free s) (cover s) + 1) * csz s < 2 ^ 62) as Hb.
  { rewrite Z.max_r by lia. change (rt_size (rc s) * bsz s) with (cover s) in Hcov. lia. }
  assert (bytes_to_clusters (csz s) (csz s) = Ok 1) as Hbc by (apply clusters_of; lia).
  destruct (image_search s 1 (csz s)) as (s1 & c & Hr & Ha & Hf1 & Hc1 & Hlo & Ef & Hrun & Hmin & Hch1); try done.
  specialize (Hch1 Hd). destruct (geo_fields _ _ (ca_geo _ _ Hc1)) as (Et & Ec & Eb & Es & _).
  assert (c <= c0) as Hcc by (apply Hmin; [done|]; intros x Hx; apply H3; lia). pose proof (a_wf _ _ Ha) as Hw1.
  assert ((c + 1) * csz s <= cover s * csz s) as Hend by (apply Z.mul_le_mono_nonneg_r; lia).
  change (rt_size (rc s) * bsz s) with (cover s) in Hcov.
  destruct (alloc_end s1 c 1 (csz s)) as (E1 & E2 & E3); [done|lia|lia|rewrite Ec; lia|rewrite Ec; lia|].
  unfold alloc_clusters_with_ref. rewrite (proj2 (Z.eqb_neq (csz s) 0)) by lia.
  rewrite (sres_step _ _ _ _ _ Hr). assert (gets id s1 = (s1, @Ok unit _ (rc s1))) as Hget by done.
  rewrite (sres_step _ _ _ _ _ Hget). rewrite <-Ec in E1 |- *. rewrite E1. cbn [unwrap_res]. rewrite slift_Ok_bind, E2, E3, slift_Ok_bind.
  assert ((c + 1) / bsz s1 < rt_size (rc s1)) as Hin.
  { rewrite Eb, Es. eapply Z.le_lt_trans; [|exact H4]. apply Z.div_le_mono; lia. }
  rewrite (proj2 (Z.leb_gt _ _) Hin), sret_bind, (sres_step _ _ _ _ _ Hget).
  assert (is_Some (blk s1 (c / bsz s1))) as Hblk.
  { rewrite Et, Eb. apply H5. split; [apply Z.div_pos; lia|apply Z.div_le_mono; lia]. }
  destruct (count_fresh (fun _ => False) s1 c 1 false) as (s' & Hu & Ha' & _ & _ & _); [done..|lia|lia|lia| |].
  { intros x Hx. assert (x = c) as -> by (unfold inr in Hx; lia). split; [|done]. rewrite (calm_refcount _ _ _ Hc1). apply Hrun. lia. }
  destruct (update_refcount_spec s1 c 1 1 false DNever) as (s2 & r & Hu2 & Hcase); [done|lia|lia|rewrite Ec; lia|lia|].
  rewrite Hu in Hu2. injection Hu2 as <- <-. destruct Hcase as [(_ & St & _)|([=] & _)].
  destruct St as [W' H' G C K Fr T].
  assert (update_alloc_refcount (S (length (refcount_table (rc s1)))) (c * csz s1) 1 1 false DNever s1 = (s', Ok tt)) as Hua.
  { cbn [update_alloc_refcount]. assert (gets rc_cluster_size s1 = (s1, @Ok unit _ (csz s1))) as Hg1 by done.
    rewrite (sres_step _ _ _ _ _ Hg1). assert (div_round_up (c * csz s1) (csz s1) = Some c) as ->.
    { pose proof (bytes_to_clusters_exact _ (w_geo _ Hw1) c) as Hx. unfold bytes_to_clusters in Hx. rewrite Ec in *.
      destruct (div_round_up _ _); [|by specialize (Hx ltac:(lia) ltac:(lia))]. simpl in Hx. f_equal. 
      specialize (Hx ltac:(lia) ltac:(lia)). by injection Hx. }
    cbn [unwrap]. rewrite slift_Ok_bind. change (Z.to_nat 1) with 1%nat.
    rewrite (sres_step _ _ _ _ _ (alloc_blocks_exist _ c 1 s1 Hw1 ltac:(lia) ltac:(intros x Hx; assert (x = c) as -> by (unfold inr in Hx; lia); exact Hblk))).
    exact Hu. }
  rewrite (sres_step _ _ _ _ _ Hua). exists s', c. split; [done|].
  assert (forall x, refcount_of s' x = refcount_of s x + delta c (c + 1) 1 x) as Hcnt
    by (intros x; by rewrite K, (calm_refcount _ _ _ Hc1)).
  assert (0 < c /\ refcount_of s c = 0) as [Hc0 Hz].
  { assert (refcount_of s c = 0) as Hz by (apply Hrun; lia). split; [|done]. destruct (decide (c = 0)) as [->|]; [|lia]. by destruct (i_hdr _ Hi). }
  assert (geo (rc s') = geo (rc s)) as Gs by (rewrite G; apply Hc1).
  assert (free s' = c + 1) as Efr.
  { rewrite <-Ef. destruct Fr as [?|[[_ E] _]]; [done|]. exfalso. pose proof (refcount_of_u16 s1 (free s') Hw1) as [? _]. lia. }
  split_and!; [by apply aok_image|rewrite H'; apply Hc1|done|by destruct Ha'| |done|lia|done|done|].
  - by eapply room_left.
  - rewrite Ec, Et in C. by eapply changed_in_trans.
Qed.
End alloc_one.
End alloc.
