(* ===== verification/Qcow2Metadata.v ===== *)
(** * The size of the refcount metadata ([refcount_metadata_size])

    The blocks that count all clusters count themselves and the table that
    points to them: the loop searches the fixed point. *)
From stdpp Require Import prelude list.
From Stdlib Require Import ZArith Lia.
From S2P Require Import Prelude NumOps Qcow2Header SyncAio Qcow2Io Qcow2Cache Qcow2Refcount.

(** [q] is [a / b], rounded up. *)
Definition ceil_of (a b q : Z) : Prop := (q - 1) * b < a <= q * b.

Lemma ceil_mono a a' b q q' : 0 < b -> a <= a' -> ceil_of a b q -> ceil_of a' b q' -> q <= q'.
Proof. unfold ceil_of. nia. Qed.
Lemma ceil_fun a b q q' : 0 < b -> ceil_of a b q -> ceil_of a b q' -> q = q'.
Proof. unfold ceil_of. nia. Qed.
Lemma ceil_pos a b q : 8 <= b -> 0 < a -> ceil_of a b q -> 1 <= q /\ 8 * (q - 1) < a.
Proof.
  unfold ceil_of. intros Hb Ha [H1 H2]. assert (1 <= q) as Hq.
  { apply Z.nlt_ge. intros Hlt. assert (q * b <= 0) by (apply Z.mul_nonpos_nonneg; lia). lia. }
  split; [done|]. assert ((q - 1) * 8 <= (q - 1) * b) by (apply Z.mul_le_mono_nonneg_l; lia). lia.
Qed.
Lemma unwrap_div a b : 0 <= a < 2 ^ 64 -> 0 < b -> exists q, unwrap (E := unit) (div_round_up a b) = Ok q /\ ceil_of a b q /\ 0 <= q <= a.
Proof.
  intros Ha Hb. destruct (div_round_up_spec a b) as (q & -> & Hu & Hq); [done|done|]. exists q. unfold ceil_of, inW in *.
  split_and!; [done|lia|lia|lia|]. destruct (Z.le_gt_cases q 0); [lia|]. assert ((q - 1) * 1 <= (q - 1) * b) by (apply Z.mul_le_mono_nonneg_l; lia). lia.
Qed.

Section metadata.
Context (R E : Z) (HR : 8 <= R) (HE : 8 <= E).

(** Before a round: the table fits the blocks, the blocks are too few or enough. *)
Record round (C T B : Z) : Prop := mkRound {
  rd_c : 0 < C < 2 ^ 60;
  rd_t : ceil_of B E T;
  rd_b : forall q, ceil_of (C + T + B) R q -> B <= q;
  rd_pos : 0 <= T /\ 0 <= B;
  rd_bound : T + B <= C + 3
}.

Lemma round_step C T B B' T' :
  round C T B -> ceil_of (C + T + B) R B' -> ceil_of B' E T' -> round C T' B' /\ B <= B' /\ T <= T'.
Proof.
  intros [Hc Ht Hb [HT HB] Hs] HB' HT'. assert (B <= B') as Hle by by apply Hb.
  assert (T <= T') as Hlt by (eapply ceil_mono; [|exact Hle|done..]; lia).
  split_and!; [|done|done]. constructor; [done|done| |lia|].
  - intros q Hq. eapply ceil_mono; [| |exact HB'|exact Hq]; lia.
  - destruct (ceil_pos (C + T + B) R B') as [? ?]; [lia..|done|]. destruct (ceil_pos B' E T'); [lia..|done|]. lia.
Qed.

(** Numbers of clusters of the table and of blocks that count [C] clusters and themselves. *)
Definition covers (C T B : Z) : Prop := ceil_of (C + T + B) R B /\ ceil_of B E T.

Lemma round_fix C T B B' T' :
  round C T B -> ceil_of (C + T + B) R B' -> ceil_of B' E T' -> T' + B' = T + B -> covers C T' B'.
Proof. intros _ HB' HT' Heq. split; [|done]. by replace (C + T' + B') with (C + T + B) by lia. Qed.

Lemma metadata_final k C T B total :
  round C T B -> total = 0 \/ total = C + T + B ->
  C + 3 - (T + B) + (if total =? 0 then 1 else 0) < Z.of_nat k ->
  exists T' B', metadata_loop k R E C T B total false = Ok (T', B', C + T' + B') /\ covers C T' B' /\ 0 <= T' /\ 0 <= B' /\ T' + B' <= C + 3.
Proof.
  revert T B total. induction k as [|k IH]; intros T B total Hr Htot Hk.
  { pose proof (rd_bound _ _ _ Hr). pose proof (rd_c _ _ _ Hr). destruct (total =? 0); lia. }
  pose proof Hr as [Hc Ht Hb [HT HB] Hs]. cbn [metadata_loop].
  rewrite (wadd_small 64 C T), (wadd_small 64 (C + T) B) by (unfold inW; lia).
  destruct (unwrap_div (C + T + B) R) as (B' & -> & HB' & HB1); [lia..|]. cbn [mbind res_bind].
  destruct (unwrap_div B' E) as (T' & -> & HT' & HT1); [lia..|]. cbn [mbind res_bind].
  destruct (round_step C T B B' T' Hr HB' HT') as (Hr' & Hle & Hlt). pose proof (rd_bound _ _ _ Hr').
  rewrite (wadd_small 64 T' B'), wadd_small by (unfold inW; lia).
  destruct (Z.eqb_spec (T' + B' + C) total) as [Heq|Hne].
  - exists T', B'. split_and!; [by replace (T' + B' + C) with (C + T' + B') by lia|eapply round_fix; [exact Hr|done|done|]|lia..].
    destruct Htot; subst total; lia.
  - destruct (IH T' B' (T' + B' + C)) as (T2 & B2 & -> & ?); [done|right; lia| |by exists T2, B2].
    rewrite (proj2 (Z.eqb_neq _ 0)) by lia. destruct Htot as [->| ->]; [simpl in Hk; lia|].
    destruct (Z.eqb_spec (C + T + B) 0); lia.
Qed.

Lemma metadata_reserve k C T B total :
  round C T B -> total = 0 \/ total = C + T + B -> C < 2 ^ 59 ->
  C + 3 - (T + B) + (if total =? 0 then 1 else 0) + (2 * C + 12) < Z.of_nat k ->
  exists extra T' B', metadata_loop k R E C T B total true = Ok (T', B', C + extra + T' + B') /\
    covers (C + extra) T' B' /\ 0 <= extra /\ 0 <= T' /\ 0 <= B' /\ C + extra + T' + B' <= 4 * C + 9.
Proof.
  intros Hr Htot HC. revert T B total Hr Htot. induction k as [|k IH]; intros T B total Hr Htot Hk.
  { pose proof (rd_bound _ _ _ Hr). pose proof (rd_c _ _ _ Hr). destruct (total =? 0); lia. }
  pose proof Hr as [Hc Ht Hb [HT HB] Hs]. cbn [metadata_loop].
  rewrite (wadd_small 64 C T), (wadd_small 64 (C + T) B) by (unfold inW; lia).
  destruct (unwrap_div (C + T + B) R) as (B' & -> & HB' & HB1); [lia..|]. cbn [mbind res_bind].
  destruct (unwrap_div B' E) as (T' & -> & HT' & HT1); [lia..|]. cbn [mbind res_bind].
  destruct (round_step C T B B' T' Hr HB' HT') as (Hr' & Hle & Hlt). pose proof (rd_bound _ _ _ Hr').
  rewrite (wadd_small 64 T' B'), wadd_small by (unfold inW; lia).
  destruct (Z.eqb_spec (T' + B' + C) total) as [Heq|Hne].
  - destruct (unwrap_div T' 2) as (x & -> & Hx & Hx1); [lia..|]. cbn [mbind res_bind]. unfold ceil_of in Hx.
    rewrite wadd_small by (unfold inW; lia).
    destruct (metadata_final k (C + x) T' B' 0) as (T2 & B2 & -> & ? & ? & ? & ?).
    + destruct Hr' as [? ? Hb' ? ?]. constructor; [lia|done| |lia|lia]. intros q Hq.
      destruct (unwrap_div (C + T' + B') R) as (q0 & _ & Hq0 & _); [lia..|]. specialize (Hb' q0 Hq0).
      assert (q0 <= q) by (eapply ceil_mono; [| |exact Hq0|exact Hq]; lia). lia.
    + by left.
    + simpl. destruct (total =? 0); lia.
    + exists x, T2, B2. split_and!; [done|done|lia..].
  - destruct (IH T' B' (T' + B' + C)) as (x & T2 & B2 & -> & ?); [done|right; lia| |by exists x, T2, B2].
    rewrite (proj2 (Z.eqb_neq _ 0)) by lia. destruct Htot as [->| ->]; [simpl in Hk; lia|].
    destruct (Z.eqb_spec (C + T + B) 0); lia.
Qed.
End metadata.

(** The size computation terminates for every image of up to 2^58
    clusters, whatever the cluster size and the width of the counts, and the
    blocks it returns count all clusters, the table and themselves, with a
    table that has an entry for each block. *)
Theorem metadata_size_covers nb cb order is_reserve :
  0 < nb < 2 ^ 58 -> 9 <= cb <= 21 -> 0 <= order <= 6 ->
  exists table blocks, refcount_metadata_size nb (2 ^ cb) order is_reserve = Ok (table, blocks) /\
    nb + table + blocks <= blocks * (2 ^ cb * 8 / 2 ^ order) /\ blocks <= table * (2 ^ cb / 8) /\
    (is_reserve = false -> (blocks - 1) * (2 ^ cb * 8 / 2 ^ order) < nb + table + blocks /\ (table - 1) * (2 ^ cb / 8) < blocks).
Proof.
  intros Hn Hcb Ho. unfold refcount_metadata_size. change ENTRY_SIZE with 8.
  assert (2 ^ 9 <= 2 ^ cb <= 2 ^ 21) as Hc by (split; apply Z.pow_le_mono_r; lia).
  assert (1 <= 2 ^ order <= 2 ^ 6) as Hp by (split; [change 1 with (2 ^ 0)|]; apply Z.pow_le_mono_r; lia).
  rewrite (wmul_small 64 (2 ^ cb)) by (unfold inW; lia).
  assert (wshl 64 1 order = 2 ^ order) as ->.
  { unfold wshl. rewrite Z.mod_small, Z.shiftl_1_l by lia. apply wrap_small. unfold inW. lia. }
  set (R := 2 ^ cb * 8 / 2 ^ order). set (E := 2 ^ cb / 8).
  assert (8 <= R) as HR by (apply Z.div_le_lower_bound; lia). assert (8 <= E) as HE by (apply Z.div_le_lower_bound; lia).
  assert (round R E nb 0 0) as Hr.
  { constructor; [lia|unfold ceil_of; lia| |lia|lia]. intros q Hq. unfold ceil_of in Hq. nia. }
  destruct is_reserve.
  - destruct (metadata_reserve R E HR HE (Z.to_nat (4 * nb + 20)) nb 0 0 0) as (x & T & B & -> & [Hb Ht] & ? & ? & ? & ?);
      [done|by left|lia|simpl; lia|]. cbn [mbind res_bind]. unfold ceil_of in *.
    exists (x + T), B. split_and!; [|lia|nia|done].
    rewrite (wsub_small 64 (nb + x + T + B) nb) by (unfold inW; lia). rewrite wsub_small by (unfold inW; lia). do 2 f_equal. lia.
  - destruct (metadata_final R E HR HE (Z.to_nat (4 * nb + 20)) nb 0 0 0) as (T & B & -> & [Hb Ht] & ? & ? & ?);
      [done|by left|simpl; lia|]. cbn [mbind res_bind]. unfold ceil_of in *.
    exists T, B. split_and!; [|lia|lia|lia].
    rewrite (wsub_small 64 (nb + T + B) nb) by (unfold inW; lia). rewrite wsub_small by (unfold inW; lia). do 2 f_equal. lia.
Qed.

Lemma metadata_size_covers_witness :
  refcount_metadata_size 1000000 65536 4 true = Ok (2, 31) /\
  exists table blocks, refcount_metadata_size 1000000 (2 ^ 16) 4 true = Ok (table, blocks) /\
    1000000 + table + blocks <= blocks * (2 ^ 16 * 8 / 2 ^ 4).
Proof.
  split; [vm_compute; reflexivity|].
  destruct (metadata_size_covers 1000000 16 4 true ltac:(lia) ltac:(lia) ltac:(lia)) as (t & b & Hr & Hc & _).
  exists t, b. split; [exact Hr|exact Hc].
Defined.
