(* ===== verification/Qcow2Counts.v ===== *)
(** * Reference counts: the properties, on a small image

    What reading, changing, searching and allocating do to the counts, with an
    image of four clusters in an in-memory file as their witness, and what a
    failed change and dropped changes leave behind. *)
From stdpp Require Import prelude list gmap.
From Stdlib Require Import ZArith Lia.
From S2P Require Import Prelude NumOps Qcow2Header SyncAio Qcow2Io Qcow2Cache Qcow2CacheSpec Qcow2Refcount Qcow2RefcountSpec Qcow2RefcountUpdate Qcow2RefcountAlloc Qcow2ClusterAlloc.

(** ** Properties *)

Section properties.
Context `{!HashIter} {F : Type} `{!BlockIo F, !BlockIoLaws F}.
Implicit Types s : rst F.

(** Reading a count through the write-back cache returns the count the
    image stands for, whether the refcount block is cached, is loaded, or is
    loaded in place of a changed block that has to be written back first; it
    keeps every count, the header and every byte outside refcount blocks. *)
Theorem get_refcount_exact s offset :
  rc_wf s -> 0 <= offset ->
  exists s', get_refcount offset s = (s', Ok (refcount_of s (offset / rc_cluster_size (rc s)))) /\ rc_wf s' /\
    (forall c, refcount_of s' c = refcount_of s c) /\ hdr s' = hdr s /\ blen (rf s') = blen (rf s) /\
    (forall x, ~ in_blocks (rc_cluster_size (rc s)) (blk_of (refcount_table (rc s))) x -> bcontent (rf s') x = bcontent (rf s) x).
Proof.
  intros Hw Ho. destruct (get_refcount_spec s offset Hw Ho) as (c' & f' & Hr & Hw' & Hq). exists (upd s c' f').
  pose proof (q_file _ _ Hq) as [Hch Hlen _]. split_and!; try done. intros c. by apply quiet_refcount.
Qed.

(** C28: Changing the counts of a range is all or nothing: it succeeds exactly
    when every cluster of the range has a refcount block and every sum is a
    16-bit number, and then adds to each of them once, across as many blocks
    as the range spans; otherwise the blocks done so far are undone and every
    count is as before.  With [flush_] the blocks on disk hold the counts.
    This is while the host file serves the requests that lie within its length
    ([bhealthy], part of [rc_wf]): when host I/O fails, undoing can fail as
    well, and a failed flush leaves the counts changed (example
    [flush_failure_keeps_counts]). *)
Theorem update_refcount_atomic s first n added flush_ dt :
  rc_wf s -> 0 <= first -> 0 <= n -> (first + n) * rc_cluster_size (rc s) < 2 ^ 64 -> Z.abs added <= 65535 ->
  exists s' r, update_refcount (first * rc_cluster_size (rc s)) n added flush_ dt s = (s', r) /\ rc_wf s' /\
    (r = Ok tt <-> forall c, first <= c < first + n -> is_u16 (refcount_of s c + added) /\
       is_Some (blk_of (refcount_table (rc s)) (c / refcount_blk_size (rc s)))) /\
    (r = Ok tt -> (forall c, refcount_of s' c = refcount_of s c + if decide (first <= c < first + n) then added else 0) /\
       (flush_ = true -> flushed s')) /\
    (r <> Ok tt -> r = Err tt /\ forall c, refcount_of s' c = refcount_of s c).
Proof.
  intros Hw Hf Hn Hs Ha.
  destruct (update_refcount_spec s first n added flush_ dt Hw Hf Hn Hs Ha) as
    (s' & r & Hr & [(-> & St & Hu & Hfl)|(-> & St & c & Hi & Hbad)]); exists s'; eexists; (split; [exact Hr|]).
  - split_and!; [apply St|split; [done|done]| |done]. intros _. split; [apply St|done].
  - split_and!; [apply St| |done|].
    + split; [done|]. intros Hall. destruct (Hall c Hi) as [Hu [a E]]. destruct Hbad as [?|?]; [congruence|done].
    + intros _. split; [done|]. intros c'. rewrite (st_count _ _ _ _ St). lia.
Qed.

(** The search for free clusters ends, at the first run of clusters with
    count zero that lies at or after the search start, however large the image
    is: beyond the refcount table every cluster is free.  Pending discards are
    carried out first; no count changes. *)
Theorem search_first_fit s nb size :
  image_ok s -> 0 < nb -> bytes_to_clusters size (rc_cluster_size (rc s)) = Ok nb ->
  (Z.max (free_cluster_index (rc s)) (cover s) + nb) * rc_cluster_size (rc s) < 2 ^ 62 ->
  exists s' c, alloc_clusters_with_noref size s = (s', Ok (c * rc_cluster_size (rc s))) /\ first_fit s nb c /\
    free_cluster_index (rc s') = c + nb /\ discard_list (rc s') = [] /\ image_ok s' /\
    (forall x, refcount_of s' x = refcount_of s x).
Proof.
  intros Hi Hnb Hb Hs. destruct (image_search s nb size Hi Hnb Hb Hs) as (s1 & c & Hr & Ha & _ & Hc & Hlo & Ef & Hrun & Hmin & _).
  exists s1, c. split_and!; [done|done|done|apply Ha|by apply aok_image|]. intros x. by apply calm_refcount.
Qed.

(** C27: Allocation within the refcount table takes the first run of free
    clusters, gives each of them the count one and no cluster in use another
    count; any other count that changes is that of a free cluster, now one,
    which has become a refcount block.  This includes the blocks that are
    allocated for blocks, and the entry of the table taken back when no
    cluster is left for one.  It fails only when a block is missing.  The host
    file serves the requests that lie within its length ([bhealthy], part of
    [image_ok]). *)
Theorem alloc_clusters_exact s nb size c0 :
  image_ok s -> 0 < nb -> (nb - 1) * rc_cluster_size (rc s) < size <= nb * rc_cluster_size (rc s) ->
  (Z.max (free_cluster_index (rc s)) (cover s) + nb) * rc_cluster_size (rc s) < 2 ^ 62 ->
  free_cluster_index (rc s) <= c0 -> free_run s c0 nb -> (c0 + nb) / refcount_blk_size (rc s) < rt_size (rc s) ->
  exists s' c, first_fit s nb c /\ image_ok s' /\
    (alloc_clusters_with_ref size s = (s', Ok (c * rc_cluster_size (rc s))) /\
       (forall x, c <= x < c + nb -> refcount_of s x = 0 /\ refcount_of s' x = 1) /\
       (forall x, ~ c <= x < c + nb -> refcount_of s' x = refcount_of s x \/ fresh_block s s' x) \/
     alloc_clusters_with_ref size s = (s', Err tt) /\
       (forall x, refcount_of s' x = refcount_of s x \/ fresh_block s s' x) /\
       exists x, c <= x < c + nb /\ blk_of (refcount_table (rc s)) (x / refcount_blk_size (rc s)) = None).
Proof.
  intros Hi Hnb Hs Hb Hc0 Hrun Hroom.
  destruct (alloc_clusters_spec s nb size c0 Hi Hnb Hs Hb Hc0 Hrun Hroom)
    as (s' & c & (Hlo & Hfr & Hmin) & Hi' & [(Hr & Hg & Ho)|(Hr & Hg & Hx)]); exists s', c; (split_and!; [done|done|]).
  - left. split_and!; [done| |apply Hg]. intros x Hx. split; [by apply Hfr|by apply Ho].
  - right. split_and!; [done| |done]. intros x. apply (gr_count _ _ _ Hg). tauto.
Qed.
End properties.

(** ** A small image *)

#[local] Instance plain_iter : HashIter := {| map_iter := map_to_list; map_iter_perm m := reflexivity _ |}.
Definition plain_sync : SyncAioInfo := mkSync false 512 512 false WzOff 4096.
Lemma plain_ok : sync_ok plain_sync.
Proof. constructor; [by exists 9|by intros [? _]|simpl; lia]. Qed.
#[local] Instance plain_io : BlockIo mfile := sync_block_io mfile plain_sync.
#[local] Instance plain_laws : BlockIoLaws mfile := sync_laws plain_sync plain_ok.

(** Clusters of 512 bytes: the header, the refcount table with one entry, the
    refcount block, one cluster of data. *)
Definition small_table : list Z := 1024 :: replicate 63 0.
Definition small_file : mfile :=
  mkMfile 2048 (fun a => if (a =? 518) then 4 else if existsb (Z.eqb a) [1025; 1027; 1029; 1031] then 1 else 0).
Definition small : rst mfile :=
  mkRst ex_header
    (mkRefCount small_table (Qcow2Cache_new 4) [] [DAlways] 0 512 1 64 8 256 65535 512 9) small_file.

Lemma small_blk k a : blk_of small_table k = Some a -> k = 0 /\ a = 1024.
Proof.
  intros (Hk & Ht & Ha)%blk_of_Some. unfold small_table in Ht. destruct (Z.to_nat k) as [|i] eqn:E.
  - injection Ht as <-. split; [lia|done].
  - change (replicate 63 0 !! i = Some a) in Ht. apply lookup_replicate in Ht as [-> _]. done.
Qed.
Lemma small_wf : rc_wf small.
Proof.
  constructor.
  - by constructor.
  - constructor; simpl.
    + intros k a [-> ->]%small_blk. split_and!; try lia. by exists 2.
    + by intros k1 k2 a [-> _]%small_blk [-> _]%small_blk.
    + split_and!; try lia. by exists 1.
    + intros k a [-> ->]%small_blk. lia.
    + by exists 1.
    + by exists 4.
    + done.
  - constructor; simpl; try done; try lia; intros l Hl; try by apply not_elem_of_nil in Hl.
    destruct Hl as [t Ht]. by rewrite lookup_empty in Ht.
Qed.
Lemma small_image : image_ok small.
Proof.
  constructor; [apply small_wf| | | |by intros t Ht; apply not_elem_of_nil in Ht|done].
  - intros k a [-> ->]%small_blk. vm_compute. discriminate.
  - simpl. intros c Hc. assert (c = 1) as -> by lia. vm_compute. discriminate.
  - vm_compute. discriminate.
Qed.

Lemma get_refcount_exact_witness :
  (get_refcount 1536 small).2 = Ok 1 /\ exists s', rc_wf s' /\ s' = (get_refcount 1536 small).1.
Proof.
  destruct (get_refcount_exact small 1536 small_wf ltac:(lia)) as (s' & Hr & Hw & _). rewrite Hr. split.
  - vm_compute. reflexivity.
  - exists s'. split; [exact Hw|reflexivity].
Defined.

(** Clusters 3 and 4, of which the second one is free. *)
Lemma update_refcount_atomic_witness :
  (update_refcount 1536 2 1 true DNever small).2 = Ok tt /\
  (forall c, refcount_of (update_refcount 1536 2 1 true DNever small).1 c =
             refcount_of small c + if decide (3 <= c < 3 + 2) then 1 else 0).
Proof.
  destruct (update_refcount_atomic small 3 2 1 true DNever small_wf ltac:(lia) ltac:(lia) ltac:(vm_compute; reflexivity) ltac:(lia))
    as (s' & r & Hr & _ & Hiff & Hok & _).
  change (3 * rc_cluster_size (rc small)) with 1536 in Hr. rewrite Hr. simpl.
  assert (r = Ok tt) as E.
  { apply Hiff. intros c Hc. assert (c = 3 \/ c = 4) as [-> | ->] by lia; split; vm_compute; try (split; [discriminate|reflexivity]); eexists; reflexivity. }
  split; [exact E|]. exact (proj1 (Hok E)).
Defined.

Lemma small_run : free_run small 4 2.
Proof. intros x Hx. assert (x = 4 \/ x = 5) as [-> | ->] by lia; vm_compute; reflexivity. Qed.

Lemma search_first_fit_witness :
  (alloc_clusters_with_noref 1024 small).2 = Ok 2048 /\
  exists s' c, alloc_clusters_with_noref 1024 small = (s', Ok (c * 512)) /\ first_fit small 2 c /\ image_ok s'.
Proof.
  split; [vm_compute; reflexivity|].
  destruct (search_first_fit small 2 1024 small_image ltac:(lia) ltac:(vm_compute; reflexivity) ltac:(vm_compute; reflexivity))
    as (s' & c & Hr & Hff & _ & _ & Hi & _). exists s', c. split; [exact Hr|]. split; [exact Hff|exact Hi].
Defined.

Lemma alloc_clusters_exact_witness :
  (alloc_clusters_with_ref 1024 small).2 = Ok 2048 /\ refcount_of (alloc_clusters_with_ref 1024 small).1 4 = 1 /\
  exists s' c, first_fit small 2 c /\ image_ok s'.
Proof.
  split; [vm_compute; reflexivity|]. split; [vm_compute; reflexivity|].
  destruct (alloc_clusters_exact small 2 1024 4 small_image ltac:(lia) ltac:(simpl; lia) ltac:(vm_compute; reflexivity)
    ltac:(simpl; lia) small_run ltac:(vm_compute; reflexivity)) as (s' & c & Hff & Hi & _).
  exists s', c. split; [exact Hff|exact Hi].
Defined.

(** ** What failures leave behind *)

(** The count of cluster 3 would become zero, that of cluster 4 negative.  The
    change fails and no count changes, but the discard of cluster 3 stays on
    the list: the next allocation overwrites a cluster in use. *)
Example failed_update_discards :
  let '(s, r) := update_refcount 1536 2 (-1) false DAlways small in
  r = Err tt /\ refcount_of s 3 = 1 /\ discard_list (rc s) = [mkTask 1536 512].
Proof. vm_compute. done. Qed.

(** [drop_dirty_caches] forgets the changed tables, and the next flush writes
    them nevertheless: it writes what it would have written without. *)
Lemma drop_then_flush `{!HashIter} {F} `{!BlockIo F} (c : Qcow2Cache) (f : F) :
  (cache_flush (clean_up_dirty_cache c, f)).1.2 = (cache_flush (c, f)).1.2.
Proof.
  unfold cache_flush. cbn [clean_up_dirty_cache set_map dirty_tables tables].
  by destruct (flush_loop _ _ _ _) as [[? ?] []].
Qed.
Example dropped_change_flushed :
  let '(s, _) := (_ ← update_refcount 1536 1 1 false DNever; _ ← drop_dirty_caches; flush) small in
  refcount_of s 3 = 2.
Proof. vm_compute. done. Qed.

(** ** What failing host I/O leaves behind *)

(** The same file, where no write succeeds. *)
Definition failing_io : BlockIo mfile := {|
  read_buffer := read_buffer (BlockIo := plain_io);
  write_buffer := fun _ _ f => (f, Err tt);
  submit_discard := submit_discard (BlockIo := plain_io) |}.

(** The flush at the end of a change fails, and so does the change; the counts
    stay changed. *)
Example flush_failure_keeps_counts :
  let '(s, r) := update_refcount (BlockIo0 := failing_io) 1536 1 1 true DNever small in
  r = Err tt /\ refcount_of small 3 = 1 /\ refcount_of s 3 = 2.
Proof. vm_compute. done. Qed.

(** A flush that fails marks the block clean: the next one succeeds and the
    block in the file has the old count. *)
Example failed_flush_forgets :
  let '(s, _) := update_refcount 1536 1 1 false DNever small in
  let '(s, r1) := flush (BlockIo0 := failing_io) s in
  let '(s, r2) := flush s in
  r1 = Err tt /\ r2 = Ok tt /\ refcount_of s 3 = 2 /\ bcontent (rf s) 1031 = 1.
Proof. vm_compute. done. Qed.
