(* ===== verification/Qcow2Snapshot.v ===== *)
(** * The snapshot table of a qcow2 image ([block_backend/src/qcow2/snapshot.rs])

    The list of internal snapshots kept in memory, the encoding of an entry of
    the table, and loading and saving the table.  Strings are their UTF-8
    bytes.  The messages of the errors are not modelled. *)
From stdpp Require Import prelude list.
From Stdlib Require Import ZArith Lia.
From S2P Require Import Prelude NumOps Qcow2Header SyncAio Qcow2Io Qcow2Cache Qcow2Refcount.

Definition QCOW2_MAX_SNAPSHOTS : Z := 65536.
Definition SNAPSHOT_EXTRA_DATA_LEN_16 : Z := 16.
Definition SNAPSHOT_EXTRA_DATA_LEN_24 : Z := 24.
(** [size_of::<QcowSnapshotHeader>()] and [i32::MAX] *)
Definition SNAPSHOT_HEADER_LEN : nat := 40.
Definition I32_MAX : Z := 2 ^ 31 - 1.

(** ** Strings *)

(** [u64::to_string]: at most 20 decimal digits. *)
Fixpoint dec_digits (fuel : nat) (n : Z) : list Z :=
  match fuel with
  | O => []
  | S fuel => if n <? 10 then [48 + n] else dec_digits fuel (n / 10) ++ [48 + n `mod` 10]
  end.
Definition u64_to_string (n : Z) : list Z := dec_digits 20 n.

(** [str::parse::<u64>]: an optional plus sign, then digits, no overflow. *)
Definition parse_digit (acc : option Z) (c : Z) : option Z :=
  a ← acc;
  if (48 <=? c) && (c <=? 57) then m ← checked_mul 64 a 10; checked_add 64 m (c - 48) else None.
Definition parse_u64 (s : list Z) : qres Z :=
  let digits := match s with c :: s' => if c =? 43 then s' else s | [] => s end in
  if bool_decide (digits = []) then Err tt else ok_or (foldl parse_digit (Some 0) digits) tt.

(** [str::from_utf8] *)
Definition utf8_cont (b : Z) : bool := (0x80 <=? b) && (b <=? 0xbf).
Fixpoint utf8_ok (s : list Z) : bool :=
  match s with
  | [] => true
  | b0 :: s1 =>
    if b0 <=? 0x7f then utf8_ok s1
    else match s1 with
    | [] => false
    | b1 :: s2 =>
      if (0xc2 <=? b0) && (b0 <=? 0xdf) then utf8_cont b1 && utf8_ok s2
      else match s2 with
      | [] => false
      | b2 :: s3 =>
        if (0xe0 <=? b0) && (b0 <=? 0xef) then
          ((if b0 =? 0xe0 then 0xa0 else 0x80) <=? b1) && (b1 <=? (if b0 =? 0xed then 0x9f else 0xbf))
          && utf8_cont b2 && utf8_ok s3
        else match s3 with
        | [] => false
        | b3 :: s4 =>
          (0xf0 <=? b0) && (b0 <=? 0xf4)
          && ((if b0 =? 0xf0 then 0x90 else 0x80) <=? b1) && (b1 <=? (if b0 =? 0xf4 then 0x8f else 0xbf))
          && utf8_cont b2 && utf8_cont b3 && utf8_ok s4
        end
      end
    end
  end.
Definition from_utf8 (s : list Z) : qres (list Z) := if utf8_ok s then Ok s else Err tt.

(** ** Snapshots *)

Record QcowSnapshot := mkSnap {
  snap_l1_table_offset : Z;
  snap_l1_size : Z;
  snap_id : Z;
  snap_name : list Z;
  snap_disk_size : Z;
  snap_vm_state_size : Z;
  snap_date_sec : Z;
  snap_date_nsec : Z;
  snap_vm_clock_nsec : Z;
  snap_icount : Z;
  snap_extra_data_size : Z
}.

Definition get_size (s : QcowSnapshot) : qres Z :=
  let tmp_size := Z.of_nat SNAPSHOT_HEADER_LEN + snap_extra_data_size s
                  + Z.of_nat (length (u64_to_string (snap_id s))) + Z.of_nat (length (snap_name s)) in
  unwrap_res (round_up (wrap 64 tmp_size) 8).

Definition put_u16 (off : nat) (v : Z) (buf : list Z) : list Z := splice buf off (be_bytes 2 v).

Definition gen_snapshot_table_entry (s : QcowSnapshot) : qres (list Z) :=
  let id_str := u64_to_string (snap_id s) in
  let entry_size := (SNAPSHOT_HEADER_LEN + Z.to_nat (snap_extra_data_size s))%nat in
  let buf := replicate entry_size 0 in
  let buf := put_u64 0 (snap_l1_table_offset s) buf in
  let buf := put_u32 8 (snap_l1_size s) buf in
  let buf := put_u16 12 (wrap 16 (Z.of_nat (length id_str))) buf in
  let buf := put_u16 14 (wrap 16 (Z.of_nat (length (snap_name s)))) buf in
  let buf := put_u32 16 (snap_date_sec s) buf in
  let buf := put_u32 20 (snap_date_nsec s) buf in
  let buf := put_u64 24 (snap_vm_clock_nsec s) buf in
  let buf := put_u32 32 (snap_vm_state_size s) buf in
  let buf := put_u32 36 (snap_extra_data_size s) buf in
  if (entry_size <? 56)%nat then Panic
  else
    let buf := put_u64 40 (snap_vm_state_size s) buf in
    let buf := put_u64 48 (snap_disk_size s) buf in
    let buf := if snap_extra_data_size s =? SNAPSHOT_EXTRA_DATA_LEN_24 then put_u64 56 (snap_icount s) buf else buf in
    let buf := buf ++ id_str ++ snap_name s in
    size ← unwrap_res (round_up (Z.of_nat (length buf)) 8);
    Ok (vec_resize (Z.to_nat size) buf).

(** Entries one after the other. *)
Fixpoint gen_entries (snaps : list QcowSnapshot) : qres (list Z) :=
  match snaps with
  | [] => Ok []
  | s :: snaps => e ← gen_snapshot_table_entry s; es ← gen_entries snaps; Ok (e ++ es)
  end.

Record QcowSnapshotHeader := mkSnapHeader {
  sh_l1_table_offset : Z;
  sh_l1_size : Z;
  sh_id_str_size : Z;
  sh_name_size : Z;
  sh_date_sec : Z;
  sh_date_nsec : Z;
  sh_vm_clock_nsec : Z;
  sh_vm_state_size : Z;
  sh_extra_date_size : Z
}.
Definition get_u16 (buf : list Z) (off : nat) : Z := be_val (slice buf off 2).
Definition snap_header_from_vec (buf : list Z) : qres QcowSnapshotHeader :=
  if (length buf <? SNAPSHOT_HEADER_LEN)%nat then Err tt
  else Ok (mkSnapHeader (get_u64 buf 0) (get_u32 buf 8) (get_u16 buf 12) (get_u16 buf 14) (get_u32 buf 16)
             (get_u32 buf 20) (get_u64 buf 24) (get_u32 buf 32) (get_u32 buf 36)).

(** The disk size and the icount of the extra data. *)
Definition snap_extra_from_vec (buf : list Z) : qres (Z * Z) :=
  if Z.of_nat (length buf) =? SNAPSHOT_EXTRA_DATA_LEN_24 then Ok (get_u64 buf 8, get_u64 buf 16)
  else if Z.of_nat (length buf) =? SNAPSHOT_EXTRA_DATA_LEN_16 then Ok (get_u64 buf 8, U64_MAX)
  else Err tt.

(** ** The table in memory *)

Record InternalSnapshot := mkSnaps {
  snapshots : list QcowSnapshot;
  snap_cluster_size : Z;
  snapshot_size : Z;
  snapshot_table_offset : Z;
  snap_nb : Z
}.
Definition InternalSnapshot_new : InternalSnapshot := mkSnaps [] 0 0 0 0.
Definition set_cluster_size (cs : Z) (t : InternalSnapshot) : InternalSnapshot :=
  mkSnaps (snapshots t) cs (snapshot_size t) (snapshot_table_offset t) (snap_nb t).
Definition set_table_offset (off : Z) (t : InternalSnapshot) : InternalSnapshot :=
  mkSnaps (snapshots t) (snap_cluster_size t) (snapshot_size t) off (snap_nb t).

(** The position of the first snapshot of that name, or -1. *)
Definition find_snapshot (name : list Z) (t : InternalSnapshot) : Z :=
  match list_find (fun s => snap_name s = name) (snapshots t) with
  | Some (i, _) => Z.of_nat i
  | None => -1
  end.

Definition add_snapshot (s : QcowSnapshot) (t : InternalSnapshot) : qres InternalSnapshot :=
  size ← get_size s;
  Ok (mkSnaps (snapshots t ++ [s]) (snap_cluster_size t) (wadd 64 (snapshot_size t) size)
        (snapshot_table_offset t) (wadd 32 (snap_nb t) 1)).

Definition del_snapshot (index : nat) (t : InternalSnapshot) : qres (InternalSnapshot * QcowSnapshot) :=
  s ← unwrap (snapshots t !! index);
  size ← get_size s;
  Ok (mkSnaps (delete index (snapshots t)) (snap_cluster_size t) (wsub 64 (snapshot_size t) size)
        (snapshot_table_offset t) (wsub 32 (snap_nb t) 1), s).

Definition find_new_snapshot_id (t : InternalSnapshot) : Z :=
  wadd 64 (foldl (fun id_max s => if id_max <? snap_id s then snap_id s else id_max) 0 (snapshots t)) 1.

(** ** Loading and saving *)

Section table.
Context {F : Type} `{!BlockIo F}.

Definition save_snapshot_table (addr : Z) (extra : QcowSnapshot) (attach : bool) (t : InternalSnapshot) (f : F)
  : F * qres unit :=
  let kept := filter (fun s => attach || negb (snap_id s =? snap_id extra) = true) (snapshots t) in
  match gen_entries (kept ++ if attach then [extra] else []) with
  | Ok buf => write_buffer addr buf f
  | Err e => (f, Err e)
  | Panic => (f, Panic)
  end.

Abbreviation L := (sres (InternalSnapshot * F) unit).
Definition sread (offset n : Z) : L (list Z) := fun '(t, f) =>
  let '(f, r) := read_buffer offset n f in ((t, f), r).
Definition supdate {A} (g : InternalSnapshot -> qres (InternalSnapshot * A)) : L A := fun '(t, f) =>
  match g t with
  | Ok (t, a) => ((t, f), Ok a)
  | Err e => ((t, f), Err e)
  | Panic => ((t, f), Panic)
  end.

(** Reads the entry at [offset]; the flag tells that its extra data has an
    unknown length. *)
Definition load_entry (offset : Z) (repair : bool) : L (QcowSnapshot * bool) :=
  header_buf ← sread offset (Z.of_nat SNAPSHOT_HEADER_LEN);
  header ← slift (snap_header_from_vec header_buf);
  let pos := Z.of_nat SNAPSHOT_HEADER_LEN in
  let extra_size := sh_extra_date_size header in
  let unknown := negb ((extra_size =? SNAPSHOT_EXTRA_DATA_LEN_16) || (extra_size =? SNAPSHOT_EXTRA_DATA_LEN_24)) in
  if unknown && negb repair then sfail tt
  else
    extra_buf ← sread (wadd 64 offset pos) extra_size;
    '(disk_size, icount) ← slift (snap_extra_from_vec extra_buf);
    let pos := pos + extra_size in
    if sh_id_str_size header =? 0 then sfail tt
    else
      id_buf ← sread (wadd 64 offset pos) (sh_id_str_size header);
      id_str ← slift (from_utf8 id_buf);
      id ← slift (parse_u64 id_str);
      let pos := pos + sh_id_str_size header in
      name_buf ← sread (wadd 64 offset pos) (sh_name_size header);
      name ← slift (from_utf8 name_buf);
      mret (mkSnap (sh_l1_table_offset header) (sh_l1_size header) id name disk_size (sh_vm_state_size header)
              (sh_date_sec header) (sh_date_nsec header) (sh_vm_clock_nsec header) icount (sh_extra_date_size header),
            unknown).

(** Entries [i, i + n) of [nb]; the results are the numbers of entries dropped
    and of entries with unknown extra data. *)
Fixpoint load_entries (n : nat) (i nb addr : Z) (repair : bool) (dropped : Z) : L (Z * Z) :=
  match n with
  | O => mret (0, dropped)
  | S n =>
    '(t, _) ← sget;
    let offset := wadd 64 addr (snapshot_size t) in
    '(snap, unknown) ← load_entry offset repair;
    let dropped := if unknown : bool then dropped + 1 else dropped in
    _ ← supdate (fun t => t' ← add_snapshot snap t; Ok (t', tt));
    '(t, _) ← sget;
    if (QCOW2_MAX_SNAPSHOTS * 1024 <? snapshot_size t) || (I32_MAX <? wsub 64 offset addr) then
      if negb repair then sfail tt
      else
        _ ← supdate (del_snapshot (Z.to_nat i));
        _ ← supdate (fun t => Ok (mkSnaps (snapshots t) (snap_cluster_size t) (snapshot_size t)
                                    (snapshot_table_offset t) i, tt));
        mret (nb - i, dropped)
    else load_entries n (i + 1) nb addr repair dropped
  end.

Definition load_snapshot_table (addr nb_snapshots : Z) (repair : bool) : L (Z * Z) :=
  if nb_snapshots =? 0 then
    _ ← supdate (fun t => Ok (mkSnaps [] (snap_cluster_size t) (snapshot_size t) (snapshot_table_offset t) 0, tt));
    mret (0, 0)
  else
    '(t, _) ← sget;
    if (addr =? 0) || negb (is_aligned (snap_cluster_size t) addr) then sfail tt
    else load_entries (Z.to_nat nb_snapshots) 0 nb_snapshots addr repair 0.
End table.

(** ** Decimal numbers *)

Lemma dec_digits_head fuel n : 0 <= n -> (0 < fuel)%nat -> exists c s, dec_digits fuel n = c :: s /\ 48 <= c <= 57.
Proof.
  revert n. induction fuel as [|fuel IH]; intros n Hn Hf; [lia|]. simpl. destruct (Z.ltb_spec n 10); [eexists _, _; split; [done|lia]|].
  destruct fuel as [|fuel].
  - simpl. eexists _, _. split; [done|]. pose proof (Z.mod_pos_bound n 10 ltac:(lia)). lia.
  - destruct (IH (n / 10)) as (c & s & -> & Hc); [apply Z.div_pos; lia|lia|]. by eexists _, _.
Qed.
Lemma dec_digits_ascii fuel n : 0 <= n -> Forall (fun c => 48 <= c <= 57) (dec_digits fuel n).
Proof.
  revert n. induction fuel as [|fuel IH]; intros n Hn; simpl; [constructor|]. destruct (Z.ltb_spec n 10).
  - constructor; [lia|constructor].
  - apply Forall_app. split; [apply IH, Z.div_pos; lia|]. pose proof (Z.mod_pos_bound n 10 ltac:(lia)). constructor; [lia|constructor].
Qed.
Lemma dec_digits_length fuel n : (length (dec_digits fuel n) <= fuel)%nat.
Proof.
  revert n. induction fuel as [|fuel IH]; intros n; simpl; [lia|]. destruct (n <? 10); simpl; [lia|].
  rewrite length_app. specialize (IH (n / 10)). simpl. lia.
Qed.
Lemma parse_dec_digits fuel n :
  0 <= n < 10 ^ Z.of_nat fuel -> is_u64 n -> foldl parse_digit (Some 0) (dec_digits fuel n) = Some n.
Proof.
  revert n. induction fuel as [|fuel IH]; intros n Hn Hu; [simpl in *; f_equal; lia|]. simpl dec_digits. unfold inW in Hu.
  assert (forall a c, 0 <= a -> 0 <= c < 10 -> a * 10 + c < 2 ^ 64 -> parse_digit (Some a) (48 + c) = Some (a * 10 + c)) as Hstep.
  { intros a c Ha Hc Hac. unfold parse_digit. cbn [mbind option_bind].
    rewrite (proj2 (Z.leb_le 48 _)), (proj2 (Z.leb_le _ 57)) by lia. cbn [andb]. unfold checked_mul, checked_add.
    rewrite (proj2 (Z.ltb_lt _ _)) by lia. cbn [mbind option_bind]. replace (48 + c - 48) with c by lia.
    by rewrite (proj2 (Z.ltb_lt _ _)). }
  destruct (Z.ltb_spec n 10) as [Hs|Hs]; [cbn [foldl]; rewrite Hstep by lia; f_equal; lia|].
  pose proof (Z.div_mod n 10 ltac:(lia)). pose proof (Z.mod_pos_bound n 10 ltac:(lia)).
  assert (0 <= n / 10) by (apply Z.div_pos; lia).
  rewrite foldl_app, IH; [|split; [done|]|unfold inW; lia].
  - cbn [foldl]. rewrite Hstep by lia. f_equal. lia.
  - rewrite Nat2Z.inj_succ, Z.pow_succ_r in Hn by lia. apply Z.div_lt_upper_bound; lia.
Qed.

Lemma parse_to_string n : is_u64 n -> parse_u64 (u64_to_string n) = Ok n.
Proof.
  intros Hn. unfold parse_u64, u64_to_string. unfold inW in Hn.
  destruct (dec_digits_head 20 n) as (c & s & E & Hc); [lia..|]. pose proof (parse_dec_digits 20 n) as Hp.
  rewrite E in *. rewrite (proj2 (Z.eqb_neq c 43)), bool_decide_eq_false_2 by (done || lia). rewrite Hp; [done| |done].
  split; [lia|]. change (10 ^ Z.of_nat 20) with 100000000000000000000. lia.
Qed.
Lemma utf8_ascii s : Forall (fun c => c <= 0x7f) s -> utf8_ok s = true.
Proof. induction 1 as [|c s Hc Hs IH]; [done|]. simpl. by rewrite (proj2 (Z.leb_le c 0x7f)). Qed.
Lemma id_string n : is_u64 n ->
  from_utf8 (u64_to_string n) = Ok (u64_to_string n) /\ is_bytes (u64_to_string n) /\
  (0 < length (u64_to_string n) <= 20)%nat.
Proof.
  intros [Hn _]. pose proof (dec_digits_ascii 20 n Hn) as Ha. unfold from_utf8, u64_to_string. split_and!.
  - rewrite utf8_ascii; [done|]. eapply Forall_impl; [exact Ha|]. simpl. intros; lia.
  - eapply Forall_impl; [exact Ha|]. simpl. unfold inW. intros; lia.
  - destruct (dec_digits_head 20 n) as (c & s & -> & _); [done|lia|]. simpl. lia.
  - apply dec_digits_length.
Qed.

(** ** Entries *)

Record snap_ok (s : QcowSnapshot) : Prop := mkSnapOk {
  so_l1 : is_u64 (snap_l1_table_offset s);
  so_l1_size : is_u32 (snap_l1_size s);
  so_id : is_u64 (snap_id s);
  so_name : utf8_ok (snap_name s) = true;
  so_name_bytes : is_bytes (snap_name s);
  so_name_len : 0 < Z.of_nat (length (snap_name s)) < 2 ^ 16;
  so_disk : is_u64 (snap_disk_size s);
  so_vm : is_u32 (snap_vm_state_size s);
  so_sec : is_u32 (snap_date_sec s);
  so_nsec : is_u32 (snap_date_nsec s);
  so_clock : is_u64 (snap_vm_clock_nsec s);
  so_icount : is_u64 (snap_icount s);
  so_extra : snap_extra_data_size s = 24 \/ snap_extra_data_size s = 16 /\ snap_icount s = U64_MAX
}.

Definition snap_header_fields (s : QcowSnapshot) : list Z :=
  be_bytes 8 (snap_l1_table_offset s) ++ be_bytes 4 (snap_l1_size s) ++
  be_bytes 2 (Z.of_nat (length (u64_to_string (snap_id s)))) ++ be_bytes 2 (Z.of_nat (length (snap_name s))) ++
  be_bytes 4 (snap_date_sec s) ++ be_bytes 4 (snap_date_nsec s) ++ be_bytes 8 (snap_vm_clock_nsec s) ++
  be_bytes 4 (snap_vm_state_size s) ++ be_bytes 4 (snap_extra_data_size s).
Definition snap_extra_fields (s : QcowSnapshot) : list Z :=
  be_bytes 8 (snap_vm_state_size s) ++ be_bytes 8 (snap_disk_size s) ++
  (if snap_extra_data_size s =? 24 then be_bytes 8 (snap_icount s) else []).
Definition snap_bytes (s : QcowSnapshot) : list Z :=
  snap_header_fields s ++ snap_extra_fields s ++ u64_to_string (snap_id s) ++ snap_name s.
Definition snap_len (s : QcowSnapshot) : Z := (Z.of_nat (length (snap_bytes s)) + 7) / 8 * 8.
Definition snap_entry (s : QcowSnapshot) : list Z :=
  snap_bytes s ++ replicate (Z.to_nat (snap_len s) - length (snap_bytes s)) 0.

Lemma put_u16_fresh pre v n off m :
  off = length pre -> m = (2 + n)%nat ->
  put_u16 off v (pre ++ replicate m 0) = (pre ++ be_bytes 2 v) ++ replicate n 0.
Proof. intros Ho ->. unfold put_u16. rewrite <-(splice_fresh pre _ n off Ho). by rewrite be_bytes_length. Qed.

Lemma snap_header_length s : length (snap_header_fields s) = 40%nat.
Proof. unfold snap_header_fields. by rewrite !length_app, !be_bytes_length. Qed.
Lemma snap_extra_length s : snap_ok s -> Z.of_nat (length (snap_extra_fields s)) = snap_extra_data_size s.
Proof.
  intros Hs. unfold snap_extra_fields. rewrite !length_app, !be_bytes_length.
  destruct (so_extra s Hs) as [->|[-> _]]; simpl; rewrite ?be_bytes_length; done.
Qed.
Lemma snap_len_spec s : (8 | snap_len s) /\ Z.of_nat (length (snap_bytes s)) <= snap_len s < Z.of_nat (length (snap_bytes s)) + 8.
Proof.
  unfold snap_len. split; [by eexists|]. set (n := Z.of_nat _).
  pose proof (Z.div_mod (n + 7) 8 ltac:(lia)). pose proof (Z.mod_pos_bound (n + 7) 8 ltac:(lia)). lia.
Qed.
Lemma round_up_8 n : 0 <= n < 2 ^ 32 -> round_up n 8 = Ok ((n + 7) / 8 * 8).
Proof.
  intros Hn. destruct (round_up_small n 8) as (r & -> & [q ->] & Hr); [lia..|]. f_equal.
  pose proof (Z.div_mod (n + 7) 8 ltac:(lia)). pose proof (Z.mod_pos_bound (n + 7) 8 ltac:(lia)). lia.
Qed.

Lemma snap_bytes_length s : snap_ok s ->
  Z.of_nat (length (snap_bytes s)) =
    40 + snap_extra_data_size s + Z.of_nat (length (u64_to_string (snap_id s))) + Z.of_nat (length (snap_name s)) /\
  Z.of_nat (length (snap_bytes s)) < 2 ^ 17.
Proof.
  intros Hs. unfold snap_bytes. rewrite !length_app, snap_header_length.
  pose proof (snap_extra_length s Hs). pose proof (so_name_len s Hs). destruct (id_string _ (so_id s Hs)) as (_ & _ & ?).
  destruct (so_extra s Hs) as [|[? _]]; lia.
Qed.
Lemma snap_is_bytes s : snap_ok s -> is_bytes (snap_bytes s).
Proof.
  intros Hs. destruct (id_string _ (so_id s Hs)) as (_ & Hid & _). unfold snap_bytes, snap_header_fields, snap_extra_fields.
  unfold is_bytes. rewrite !Forall_app. split_and!; try apply be_bytes_is_bytes; [|exact Hid|exact (so_name_bytes s Hs)].
  destruct (_ =? _); [apply be_bytes_is_bytes|constructor].
Qed.
Lemma get_size_len s : snap_ok s -> get_size s = Ok (snap_len s).
Proof.
  intros Hs. destruct (snap_bytes_length s Hs) as [Hl Hb]. unfold get_size, SNAPSHOT_HEADER_LEN. cbv zeta.
  change (Z.of_nat 40) with 40. rewrite <-Hl. rewrite wrap_small by (unfold inW; lia). rewrite round_up_8 by lia. done.
Qed.

Lemma gen_entry_spec s : snap_ok s -> gen_snapshot_table_entry s = Ok (snap_entry s).
Proof.
  intros Hs. destruct (snap_bytes_length s Hs) as [Hl Hb]. destruct (id_string _ (so_id s Hs)) as (_ & _ & Hid).
  pose proof (so_name_len s Hs). unfold gen_snapshot_table_entry. rewrite !(wrap_small 16) by (unfold inW; lia).
  assert (exists n, Z.to_nat (snap_extra_data_size s) = (16 + n)%nat /\ n = if snap_extra_data_size s =? 24 then 8%nat else 0%nat)
    as (n & -> & Hn) by (destruct (so_extra s Hs) as [->|[-> _]]; eexists; split; [| |..]; cycle 1; done).
  unfold SNAPSHOT_HEADER_LEN. change (replicate (40 + (16 + n)) 0) with ([] ++ replicate (56 + n) 0). cbv zeta.
  rewrite (put_u64_fresh _ _ (48 + n)), (put_u32_fresh _ _ (44 + n)), (put_u16_fresh _ _ (42 + n)),
    (put_u16_fresh _ _ (40 + n)), (put_u32_fresh _ _ (36 + n)), (put_u32_fresh _ _ (32 + n)),
    (put_u64_fresh _ _ (24 + n)), (put_u32_fresh _ _ (20 + n)), (put_u32_fresh _ _ (16 + n)) by len.
  rewrite (proj2 (Nat.ltb_ge _ _)) by lia.
  rewrite (put_u64_fresh _ _ (8 + n)), (put_u64_fresh _ _ n) by len.
  set (buf := if snap_extra_data_size s =? _ then _ else _).
  assert (buf = snap_header_fields s ++ snap_extra_fields s) as ->.
  { subst buf. unfold snap_header_fields, snap_extra_fields, SNAPSHOT_EXTRA_DATA_LEN_24.
    destruct (snap_extra_data_size s =? 24); subst n; [rewrite (put_u64_fresh _ _ 0) by len|]; cbn [replicate app];
      by rewrite ?app_nil_r, <-!app_assoc. }
  rewrite <-app_assoc. fold (snap_bytes s). rewrite round_up_8 by lia. cbn [unwrap_res mbind res_bind].
  unfold snap_entry, vec_resize. fold (snap_len s). pose proof (snap_len_spec s) as [_ ?]. by rewrite take_ge by lia.
Qed.

Lemma snap_header_roundtrip s rest : snap_ok s ->
  snap_header_from_vec (slice (snap_header_fields s ++ rest) 0 40) =
    Ok (mkSnapHeader (snap_l1_table_offset s) (snap_l1_size s) (Z.of_nat (length (u64_to_string (snap_id s))))
          (Z.of_nat (length (snap_name s))) (snap_date_sec s) (snap_date_nsec s) (snap_vm_clock_nsec s)
          (snap_vm_state_size s) (snap_extra_data_size s)).
Proof.
  intros Hs. rewrite get_here by apply snap_header_length. unfold snap_header_from_vec.
  rewrite snap_header_length. cbn [Nat.ltb Nat.leb SNAPSHOT_HEADER_LEN].
  destruct (id_string _ (so_id s Hs)) as (_ & _ & Hid). pose proof (so_name_len s Hs).
  assert (is_u32 (snap_extra_data_size s)) by (destruct (so_extra s Hs) as [->|[-> _]]; done).
  rewrite <-(app_nil_r (snap_header_fields s)). unfold get_u64, get_u32, get_u16, snap_header_fields.
  f_equal. f_equal; field; apply be_val_small; try apply Hs; try done; unfold inW; lia.
Qed.
Lemma snap_extra_roundtrip s rest : snap_ok s ->
  snap_extra_from_vec (slice (snap_extra_fields s ++ rest) 0 (Z.to_nat (snap_extra_data_size s))) =
    Ok (snap_disk_size s, snap_icount s).
Proof.
  intros Hs. pose proof (snap_extra_length s Hs) as Hl. rewrite get_here by lia. unfold snap_extra_from_vec. rewrite Hl.
  unfold SNAPSHOT_EXTRA_DATA_LEN_24, SNAPSHOT_EXTRA_DATA_LEN_16, get_u64, snap_extra_fields.
  destruct (so_extra s Hs) as [->|[-> Hic]]; simpl Z.eqb; cbv iota.
  - rewrite <-(app_nil_r (be_bytes 8 (snap_icount s))).
    f_equal. f_equal; field; apply be_val_small; by destruct Hs.
  - rewrite Hic. f_equal. f_equal. field. apply be_val_small. by destruct Hs.
Qed.

(** ** Loading a saved table *)

Lemma slice_ztab {A} (f : Z -> A) a n k m :
  (k + m <= n)%nat -> slice (ztab f a n) k m = ztab f (a + Z.of_nat k) m.
Proof. intros. unfold slice. rewrite drop_ztab, take_ztab by lia. done. Qed.

Section load.
Context {F : Type} `{!BlockIo F, !BlockIoLaws F}.

(** A read changes neither the bytes nor the length of a file without faults. *)
Record same_file (f f' : F) : Prop := mkSame {
  sf_content : forall a, bcontent f' a = bcontent f a;
  sf_len : blen f' = blen f;
  sf_healthy : bhealthy f'
}.
Lemma same_file_trans f1 f2 f3 : same_file f1 f2 -> same_file f2 f3 -> same_file f1 f3.
Proof. intros [C1 L1 H1] [C2 L2 H2]. split; [intros a; by rewrite C2|by rewrite L2|done]. Qed.

Lemma sread_spec t f off n :
  bhealthy f -> 0 <= off -> 0 < n -> off + n <= blen f -> off + n < 2 ^ 62 ->
  exists f', sread off n (t, f) = ((t, f'), Ok (ztab (bcontent f) off (Z.to_nat n))) /\ same_file f f'.
Proof.
  intros Hh Ho Hn Hl Hs. unfold sread. destruct (read_buffer off n f) as [f' r] eqn:E.
  apply read_buffer_law in E as (Hc & Hlen & _ & _ & Hok); [|done..]. destruct (Hok Hh) as [Hh' Hr].
  exists f'. rewrite (Hr Hl). done.
Qed.

(** The bytes of an entry are in the file at [off]. *)
Definition stored_at (f : F) (off : Z) (bs : list Z) : Prop := ztab (bcontent f) off (length bs) = bs.
Lemma stored_slice f off bs k m :
  stored_at f off bs -> (k + m <= length bs)%nat -> ztab (bcontent f) (off + Z.of_nat k) m = slice bs k m.
Proof. intros <-. rewrite ztab_length. intros. by rewrite slice_ztab. Qed.
Lemma stored_same f f' off bs : same_file f f' -> stored_at f off bs -> stored_at f' off bs.
Proof. intros [Hc _ _] <-. unfold stored_at. rewrite ztab_length. apply ztab_ext. intros i _. apply Hc. Qed.
Lemma stored_at_app f off b1 b2 :
  stored_at f off (b1 ++ b2) -> stored_at f off b1 /\ stored_at f (off + Z.of_nat (length b1)) b2.
Proof.
  unfold stored_at. rewrite length_app, ztab_app. intros H. by apply app_inj_1 in H; [|by rewrite ztab_length].
Qed.

Lemma load_entry_spec t f off repair s :
  snap_ok s -> bhealthy f -> 0 <= off -> off + Z.of_nat (length (snap_bytes s)) <= blen f -> blen f < 2 ^ 62 ->
  stored_at f off (snap_bytes s) ->
  exists f', load_entry off repair (t, f) = ((t, f'), Ok (s, false)) /\ same_file f f'.
Proof.
  intros Hs Hh Ho Hl Hb Hst. destruct (snap_bytes_length s Hs) as [Hlen Hsmall].
  destruct (id_string _ (so_id s Hs)) as (Hid & _ & Hidl). pose proof (so_name_len s Hs) as Hnl.
  pose proof (snap_extra_length s Hs) as Hxl. pose proof (snap_header_length s) as Hhl.
  assert (16 <= snap_extra_data_size s <= 24) as Hx by (destruct (so_extra s Hs) as [->|[-> _]]; lia).
  set (idn := length (u64_to_string (snap_id s))) in *. set (nn := length (snap_name s)) in *.
  assert (forall f1 (k m : nat), same_file f f1 -> (0 < m)%nat -> (k + m <= length (snap_bytes s))%nat ->
    exists f2, sread (off + Z.of_nat k) (Z.of_nat m) (t, f1) = ((t, f2), Ok (slice (snap_bytes s) k m)) /\ same_file f f2)
    as Hread.
  { intros f1 k m Hf1 Hm Hkm. destruct (sread_spec t f1 (off + Z.of_nat k) (Z.of_nat m)) as (f2 & E & Hf2);
      [apply Hf1|lia|lia|rewrite (sf_len _ _ Hf1); lia|lia|]. rewrite Nat2Z.id in E.
    rewrite (stored_slice f1 off (snap_bytes s)) in E by (done || by eapply stored_same). eauto using same_file_trans. }
  assert (same_file f f) as Hf0 by done.
  unfold load_entry, SNAPSHOT_HEADER_LEN.
  destruct (Hread f 0%nat 40%nat Hf0) as (f1 & E1 & Hf1); [lia..|]. rewrite Z.add_0_r in E1. rewrite (sres_step _ _ _ _ _ E1).
  unfold snap_bytes. rewrite snap_header_roundtrip, slift_Ok_bind by done. cbn [sh_extra_date_size sh_id_str_size sh_name_size
    sh_l1_table_offset sh_l1_size sh_date_sec sh_date_nsec sh_vm_clock_nsec sh_vm_state_size].
  fold idn nn (snap_bytes s). change (Z.of_nat 40) with 40.
  assert ((snap_extra_data_size s =? SNAPSHOT_EXTRA_DATA_LEN_16) || (snap_extra_data_size s =? SNAPSHOT_EXTRA_DATA_LEN_24) = true)
    as -> by (destruct (so_extra s Hs) as [->|[-> _]]; done).
  cbn [negb andb]. unfold wadd. rewrite !wrap_small by (unfold inW; lia).
  destruct (Hread f1 40%nat (Z.to_nat (snap_extra_data_size s)) Hf1) as (f2 & E2 & Hf2); [lia..|].
  rewrite Z2Nat.id in E2 by lia. change (Z.of_nat 40) with 40 in E2. rewrite (sres_step _ _ _ _ _ E2).
  unfold snap_bytes. rewrite (get_skip _ _ 40), Hhl by lia. simpl Nat.sub. rewrite snap_extra_roundtrip, slift_Ok_bind by done.
  fold (snap_bytes s). cbv beta iota. rewrite (proj2 (Z.eqb_neq _ _)) by lia.
  destruct (Hread f2 (40 + Z.to_nat (snap_extra_data_size s))%nat idn Hf2) as (f3 & E3 & Hf3); [lia..|].
  replace (Z.of_nat (40 + _)) with (40 + snap_extra_data_size s) in E3 by lia. rewrite (sres_step _ _ _ _ _ E3).
  unfold snap_bytes. rewrite (get_skip (snap_header_fields s)), (get_skip (snap_extra_fields s)), Hhl by lia.
  replace (_ - _ - _)%nat with 0%nat by lia. rewrite get_here, Hid, slift_Ok_bind by done.
  rewrite parse_to_string, slift_Ok_bind by apply Hs. fold (snap_bytes s).
  destruct (Hread f3 (40 + Z.to_nat (snap_extra_data_size s) + idn)%nat nn Hf3) as (f4 & E4 & Hf4); [lia..|].
  replace (Z.of_nat (40 + _ + _)) with (40 + snap_extra_data_size s + Z.of_nat idn) in E4 by lia. rewrite (sres_step _ _ _ _ _ E4).
  unfold snap_bytes. rewrite (get_skip (snap_header_fields s)), (get_skip (snap_extra_fields s)), (get_skip (u64_to_string _)), Hhl by lia.
  fold idn. replace (_ - _ - _ - _)%nat with 0%nat by lia. rewrite <-(app_nil_r (snap_name s)), get_here by done.
  unfold from_utf8. rewrite (so_name s Hs), slift_Ok_bind. exists f4. split; [|done]. by destruct s.
Qed.

Definition total_len (snaps : list QcowSnapshot) : Z := foldr (fun s n => snap_len s + n) 0 snaps.
Lemma total_len_nonneg snaps : 0 <= total_len snaps.
Proof. induction snaps as [|s snaps IH]; simpl; [lia|]. pose proof (snap_len_spec s). lia. Qed.
Lemma snap_entry_length s : Z.of_nat (length (snap_entry s)) = snap_len s.
Proof. unfold snap_entry. rewrite length_app, length_replicate. pose proof (snap_len_spec s). lia. Qed.

Lemma load_entries_spec snaps t f i nb addr repair :
  Forall snap_ok snaps -> bhealthy f -> 0 <= addr -> 0 <= snapshot_size t -> 0 <= snap_nb t ->
  snapshot_size t + total_len snaps <= QCOW2_MAX_SNAPSHOTS * 1024 ->
  snap_nb t + Z.of_nat (length snaps) < 2 ^ 32 ->
  addr + snapshot_size t + total_len snaps <= blen f -> blen f < 2 ^ 62 ->
  stored_at f (addr + snapshot_size t) (concat (snap_entry <$> snaps)) ->
  exists f', load_entries (length snaps) i nb addr repair 0 (t, f) =
      ((mkSnaps (snapshots t ++ snaps) (snap_cluster_size t) (snapshot_size t + total_len snaps)
          (snapshot_table_offset t) (snap_nb t + Z.of_nat (length snaps)), f'), Ok (0, 0)) /\ same_file f f'.
Proof.
  intros Hok. revert t f i. unfold QCOW2_MAX_SNAPSHOTS. induction Hok as [|s snaps Hs Hok IH]; intros t f i Hh Ha Ht Hn Hmax Hnb Hl Hb Hst.
  { exists f. simpl. split; [|done]. rewrite app_nil_r, !Z.add_0_r. by destruct t. }
  cbn [total_len foldr length fmap list_fmap concat] in *. fold (total_len snaps) in *. pose proof (total_len_nonneg snaps).
  pose proof (snap_len_spec s) as [_ Hsl]. apply stored_at_app in Hst as [Hst Hrest]. rewrite snap_entry_length in Hrest.
  destruct (load_entry_spec t f (addr + snapshot_size t) repair s) as (f1 & E1 & Hf1); [done..|lia|lia|done| |].
  { unfold snap_entry in Hst. by apply stored_at_app in Hst as [Hst _]. }
  cbn [load_entries]. rewrite (sres_step _ _ (t, f) (t, f) (t, f)) by done. cbv beta iota zeta.
  rewrite (wadd_small 64 addr (snapshot_size t)) by (unfold inW; lia). rewrite (sres_step _ _ _ _ _ E1). cbv beta iota zeta.
  set (t1 := mkSnaps (snapshots t ++ [s]) (snap_cluster_size t) (snapshot_size t + snap_len s) (snapshot_table_offset t) (snap_nb t + 1)).
  assert (supdate (fun t => t' ← add_snapshot s t; Ok (t', tt)) (t, f1) = ((t1, f1), Ok tt)) as Hadd.
  { unfold supdate, add_snapshot. rewrite get_size_len by done. cbn [mbind res_bind]. rewrite !wadd_small by (unfold inW; cbn [length] in *; lia). done. }
  rewrite (sres_step _ _ _ _ _ Hadd). rewrite (sres_step _ _ (t1, f1) (t1, f1) (t1, f1)) by done. cbv beta iota.
  subst t1. cbn [snapshot_size]. rewrite wsub_small by (unfold inW; lia). rewrite !(proj2 (Z.ltb_ge _ _)) by (unfold I32_MAX, QCOW2_MAX_SNAPSHOTS; lia).
  cbn [orb]. destruct (IH (mkSnaps (snapshots t ++ [s]) (snap_cluster_size t) (snapshot_size t + snap_len s)
    (snapshot_table_offset t) (snap_nb t + 1)) f1 (i + 1)) as (f2 & E2 & Hf2); cbn [snapshot_size snap_nb];
    [apply Hf1|done|lia|lia|lia|lia|rewrite (sf_len _ _ Hf1); lia|by rewrite (sf_len _ _ Hf1)| |].
  { eapply stored_same; [done|]. by rewrite Z.add_assoc. }
  exists f2. split; [|by eapply same_file_trans]. rewrite E2. cbn [snapshots snap_cluster_size snapshot_size snapshot_table_offset snap_nb].
  by rewrite <-app_assoc, <-!Z.add_assoc, Nat2Z.inj_succ, Z.add_1_l.
Qed.

Lemma gen_entries_spec snaps : Forall snap_ok snaps -> gen_entries snaps = Ok (concat (snap_entry <$> snaps)).
Proof.
  induction 1 as [|s snaps Hs Hok IH]; [done|]. cbn [gen_entries]. rewrite gen_entry_spec by done. cbn [mbind res_bind].
  by rewrite IH.
Qed.

Lemma filter_true {A} (P : A -> Prop) `{!forall x, Decision (P x)} (l : list A) : (forall x, P x) -> filter P l = l.
Proof. intros HP. induction l as [|x l IH]; [done|]. by rewrite filter_cons_True, IH. Qed.
Lemma total_len_app s1 s2 : total_len (s1 ++ s2) = total_len s1 + total_len s2.
Proof. induction s1 as [|s s1 IH]; [done|]. unfold total_len in *. simpl. lia. Qed.
Lemma entries_bytes snaps : Forall snap_ok snaps ->
  is_bytes (concat (snap_entry <$> snaps)) /\ Z.of_nat (length (concat (snap_entry <$> snaps))) = total_len snaps.
Proof.
  induction 1 as [|s snaps Hs Hok [IH1 IH2]]; [split; [constructor|done]|]. cbn [fmap list_fmap concat total_len foldr]. fold (total_len snaps).
  split; [|rewrite length_app, Nat2Z.inj_add, snap_entry_length; lia].
  unfold snap_entry, is_bytes. rewrite !Forall_app. split_and!; [by apply snap_is_bytes| |done].
  apply Forall_replicate. done.
Qed.

Lemma total_len_length snaps : Forall snap_ok snaps -> Z.of_nat (length snaps) <= total_len snaps.
Proof.
  induction 1 as [|s snaps Hs Hok IH]; [done|]. cbn [total_len foldr length]. fold (total_len snaps).
  pose proof (snap_len_spec s). destruct (snap_bytes_length s Hs). destruct (so_extra s Hs) as [|[? _]]; lia.
Qed.

(** C37: The snapshot table round trip.  Saving the snapshots with a new one
    writes only the range of the table; loading the table gives all of them
    back, in order, with their number and size, and leaves the file as it
    is.  The host file serves the requests that lie within its length
    ([bhealthy]). *)
Theorem snapshot_table_roundtrip before new f addr cs off repair :
  let snaps := before ++ [new] in
  Forall snap_ok snaps -> total_len snaps <= QCOW2_MAX_SNAPSHOTS * 1024 -> bhealthy f -> (balign | blen f) ->
  0 < addr -> is_aligned cs addr = true -> addr + total_len snaps <= blen f -> blen f < 2 ^ 62 ->
  exists f1 f2,
    save_snapshot_table addr new true (mkSnaps before cs (total_len before) off (Z.of_nat (length before))) f = (f1, Ok tt) /\
    load_snapshot_table addr (Z.of_nat (length snaps)) repair (mkSnaps [] cs 0 off 0, f1) =
      ((mkSnaps snaps cs (total_len snaps) off (Z.of_nat (length snaps)), f2), Ok (0, 0)) /\
    (forall a, ~ addr <= a < addr + total_len snaps -> bcontent f1 a = bcontent f a) /\
    same_file f1 f2 /\ blen f1 = blen f.
Proof.
  intros snaps Hok Hmax Hh Hal Ha Hca Hl Hb. unfold save_snapshot_table.
  cbn [snapshots]. rewrite filter_true by done. change (before ++ [new]) with snaps.
  rewrite gen_entries_spec by done. destruct (entries_bytes snaps Hok) as [Hby Hlen]. set (bs := concat _) in *.
  assert (0 < Z.of_nat (length snaps) <= total_len snaps) as Hn.
  { split; [subst snaps; rewrite length_app; simpl; lia|by apply total_len_length]. }
  destruct (write_buffer addr bs f) as [f1 r] eqn:E. assert (bs <> []) as Hne by (intros ->; simpl in Hlen; lia).
  apply write_buffer_law in E as (Hout & _ & _ & Hin & Hw); [|done..|lia|lia].
  destruct (Hw Hh Hal) as (Hh1 & -> & Hlen1); [right; lia|]. rewrite Hlen in *.
  assert (stored_at f1 addr bs) as Hst.
  { unfold stored_at. apply list_eq_same_length with (length bs); [done|by rewrite ztab_length|].
    intros i x y Hi Hx Hy. rewrite ztab_lookup in Hx by done. injection Hx as <-. by apply Hin. }
  set (t0 := mkSnaps [] cs 0 off 0).
  unfold QCOW2_MAX_SNAPSHOTS in *.
  destruct (load_entries_spec snaps t0 f1 0 (Z.of_nat (length snaps)) addr repair) as (f2 & E2 & Hf2);
    cbn [snapshot_size snap_nb t0]; [done..|lia|lia|lia|unfold QCOW2_MAX_SNAPSHOTS; lia|lia|lia|lia|by rewrite Z.add_0_r|].
  exists f1, f2. split; [done|]. split_and!; [|done|done|lia].
  unfold load_snapshot_table. rewrite (proj2 (Z.eqb_neq _ _)) by lia.
  rewrite (sres_step _ _ (t0, f1) (t0, f1) (t0, f1)) by done. cbv beta iota. cbn [snap_cluster_size t0].
  rewrite Hca, (proj2 (Z.eqb_neq addr 0)) by lia. cbn [orb negb]. rewrite Nat2Z.id. exact E2.
Qed.

(** Repairing does not drop extra data of an unknown length: the decoder of
    the extra data refuses it. *)
Lemma repair_refuses_extra t f off n :
  n = get_u32 (ztab (bcontent f) off 40) 36 -> bhealthy f -> 0 <= off -> off + 40 + n <= blen f -> blen f < 2 ^ 62 ->
  0 < n -> n <> 16 -> n <> 24 ->
  exists f', load_entry off true (t, f) = ((t, f'), Err tt).
Proof.
  intros En Hh Ho Hl Hb Hn H16 H24. unfold load_entry, SNAPSHOT_HEADER_LEN.
  destruct (sread_spec t f off (Z.of_nat 40)) as (f1 & E1 & Hf1); [done|lia..|].
  rewrite Nat2Z.id in E1. rewrite (sres_step _ _ _ _ _ E1). unfold snap_header_from_vec. rewrite ztab_length.
  cbn [Nat.ltb Nat.leb SNAPSHOT_HEADER_LEN]. rewrite slift_Ok_bind. cbn [sh_extra_date_size]. rewrite <-En.
  rewrite andb_false_r. change (Z.of_nat 40) with 40. rewrite (wadd_small 64 off 40) by (unfold inW; lia).
  destruct (sread_spec t f1 (off + 40) n) as (f2 & E2 & Hf2); [apply Hf1|lia|lia|rewrite (sf_len _ _ Hf1); lia|lia|].
  rewrite (sres_step _ _ _ _ _ E2). unfold snap_extra_from_vec. rewrite ztab_length, Z2Nat.id by lia.
  unfold SNAPSHOT_EXTRA_DATA_LEN_24, SNAPSHOT_EXTRA_DATA_LEN_16. rewrite (proj2 (Z.eqb_neq n 24)), (proj2 (Z.eqb_neq n 16)) by done. by exists f2.
Qed.
End load.

(** ** A table of two snapshots *)

Definition table_sync : SyncAioInfo := mkSync false 512 512 false WzOff 4096.
Lemma table_sync_ok : sync_ok table_sync.
Proof. split; [by exists 9|by intros [? _]|done]. Qed.
#[local] Instance table_io : BlockIo mfile := sync_block_io mfile table_sync.
#[local] Instance table_laws : BlockIoLaws mfile := sync_laws table_sync table_sync_ok.

Definition ex_snap (id : Z) (name : list Z) (extra : Z) : QcowSnapshot :=
  mkSnap 1024 1 id name 65536 0 1700000000 5 77 U64_MAX extra.
Lemma ex_snap_ok id name extra :
  is_u64 id -> utf8_ok name = true -> is_bytes name -> 0 < Z.of_nat (length name) < 2 ^ 16 ->
  extra = 24 \/ extra = 16 -> snap_ok (ex_snap id name extra).
Proof. intros. by split; simpl; try tauto. Qed.

Lemma snapshot_table_roundtrip_witness :
  let f := mkMfile 2048 (fun _ => 0) in
  let before := [ex_snap 1 [115; 49] 24] in
  let new := ex_snap 12 [195; 169] 16 in
  exists f1 f2,
    save_snapshot_table 512 new true (mkSnaps before 512 72 0 1) f = (f1, Ok tt) /\
    load_snapshot_table 512 2 false (mkSnaps [] 512 0 0 0, f1) =
      ((mkSnaps (before ++ [new]) 512 136 0 2, f2), Ok (0, 0)).
Proof.
  intros f before new. assert (Forall snap_ok (before ++ [new])) as Hok.
  { apply Forall_cons. split; [|apply Forall_cons; split; [|constructor]]; apply ex_snap_ok; try (vm_compute; done); auto;
      repeat (apply Forall_cons; split); done. }
  destruct (snapshot_table_roundtrip before new f 512 512 0 false Hok) as (f1 & f2 & E1 & E2 & _);
    [vm_compute; done|done|by exists 4|done|done|vm_compute; done|done|].
  exists f1, f2. split; [exact E1|exact E2].
Defined.
