(* ===== verification/Qcow2Table.v ===== *)
(** * The mapping tables of a qcow2 image ([block_backend/src/qcow2/table.rs])

    The type of a cluster from its L2 entry, the L1 table in memory and the
    cache of L2 tables.  The operations that load or write back a table work
    on the table and the image file. *)
From stdpp Require Import prelude list gmap.
From Stdlib Require Import ZArith Lia.
From S2P Require Import Prelude NumOps Qcow2Header SyncAio Qcow2Io Qcow2Cache.

Definition L1_TABLE_OFFSET_MASK : Z := 0x00fffffffffffe00.
Definition L2_TABLE_OFFSET_MASK : Z := 0x00fffffffffffe00.
Definition QCOW2_OFLAG_ZERO : Z := Z.shiftl 1 0.
Definition QCOW2_OFFSET_COMPRESSED : Z := Z.shiftl 1 62.
Definition QCOW2_OFFSET_COPIED : Z := Z.shiftl 1 63.
Definition MAX_L2_CACHE_SIZE : Z := 32 * 2 ^ 20.

(** ** Cluster types *)

Inductive Qcow2ClusterType := Unallocated | ZeroPlain | ZeroAlloc | Normal | Compressed.
#[export] Instance Qcow2ClusterType_eq_dec : EqDecision Qcow2ClusterType.
Proof. solve_decision. Defined.

Definition is_allocated (t : Qcow2ClusterType) : bool :=
  bool_decide (t = Compressed) || bool_decide (t = Normal) || bool_decide (t = ZeroAlloc).
Definition is_read_zero (t : Qcow2ClusterType) : bool :=
  bool_decide (t = Unallocated) || bool_decide (t = ZeroAlloc) || bool_decide (t = ZeroPlain).

Definition get_cluster_type (l2_entry : Z) : Qcow2ClusterType :=
  if negb (Z.land l2_entry QCOW2_OFFSET_COMPRESSED =? 0) then Compressed
  else if negb (Z.land l2_entry QCOW2_OFLAG_ZERO =? 0) then
    if negb (Z.land l2_entry L2_TABLE_OFFSET_MASK =? 0) then ZeroAlloc else ZeroPlain
  else if Z.land l2_entry L2_TABLE_OFFSET_MASK =? 0 then Unallocated
  else Normal.

(** ** The table *)

Record Qcow2Table := mkQTable {
  t_cluster_bits : Z;
  t_cluster_size : Z;
  l1_table : list Z;
  t_l1_table_offset : Z;
  t_l1_size : Z;
  l2_table_cache : Qcow2Cache;
  l2_bits : Z;
  l2_size : Z
}.
Definition set_l1_table (l1 : list Z) (t : Qcow2Table) : Qcow2Table :=
  mkQTable (t_cluster_bits t) (t_cluster_size t) l1 (t_l1_table_offset t) (t_l1_size t) (l2_table_cache t)
    (l2_bits t) (l2_size t).
Definition set_l2_cache (c : Qcow2Cache) (t : Qcow2Table) : Qcow2Table :=
  mkQTable (t_cluster_bits t) (t_cluster_size t) (l1_table t) (t_l1_table_offset t) (t_l1_size t) c
    (l2_bits t) (l2_size t).

Definition Qcow2Table_new : Qcow2Table := mkQTable 0 0 [] 0 0 Qcow2Cache_default 0 0.

(** [conf_l2_cache] is the [l2_cache_size] of the block properties. *)
Definition init_table_info (header : QcowHeader) (conf_l2_cache : option Z) (self : Qcow2Table) : qres Qcow2Table :=
  max_l2_entries ← ok_or (div_round_up (size header) (cluster_size header)) tt;
  max_l2_cache ← ok_or (div_round_up (wmul 64 max_l2_entries ENTRY_SIZE) (cluster_size header)) tt;
  let cache_size :=
    match conf_l2_cache with
    | Some l2_cache => l2_cache / cluster_size header
    | None => Z.min max_l2_cache (MAX_L2_CACHE_SIZE / cluster_size header)
    end in
  Ok (mkQTable (cluster_bits header) (cluster_size header) (l1_table self) (l1_table_offset header) (l1_size header)
        (Qcow2Cache_new (Z.to_nat cache_size)) (wsub 64 (cluster_bits header) ENTRY_BITS)
        (cluster_size header / ENTRY_SIZE)).

Definition get_l1_table_index (t : Qcow2Table) (guest_offset : Z) : Z :=
  wshr 64 guest_offset (wadd 64 (t_cluster_bits t) (l2_bits t)).
Definition get_l2_table_index (t : Qcow2Table) (guest_offset : Z) : Z :=
  Z.land (wshr 64 guest_offset (t_cluster_bits t)) (wsub 64 (l2_size t) 1).
Definition get_l1_table_entry (t : Qcow2Table) (guest_offset : Z) : qres Z :=
  unwrap (l1_table t !! Z.to_nat (get_l1_table_index t guest_offset)).
Definition get_l2_table_max_remain_size (t : Qcow2Table) (guest_offset offset_in_cluster : Z) : Z :=
  wsub 64 (wmul 64 (wsub 64 (l2_size t) (get_l2_table_index t guest_offset)) (t_cluster_size t)) offset_in_cluster.
(** An index out of range panics. *)
Definition update_l1_table (l1_index l2_address : Z) (t : Qcow2Table) : qres Qcow2Table :=
  _ ← unwrap (l1_table t !! Z.to_nat l1_index); Ok (set_l1_table (<[Z.to_nat l1_index := l2_address]> (l1_table t)) t).

Section table.
Context `{!HashIter} {F : Type} `{!BlockIo F}.

Abbreviation T := (sres (Qcow2Table * F) unit).
Definition tget {A} (g : Qcow2Table -> A) : T A := fun s => (s, Ok (g s.1)).
Definition t_cache {A} (m : Qcow2Cache -> Qcow2Cache * A) : T A := fun '(t, f) =>
  let '(c, a) := m (l2_table_cache t) in ((set_l2_cache c t, f), Ok a).
Definition t_file {A} (m : F -> F * qres A) : T A := fun '(t, f) => let '(f, r) := m f in ((t, f), r).
Definition t_upd (g : Qcow2Table -> qres Qcow2Table) : T unit := fun '(t, f) =>
  match g t with Ok t => ((t, f), Ok tt) | Err e => ((t, f), Err e) | Panic => ((t, f), Panic) end.

Definition load_l1_table : T unit :=
  off ← tget t_l1_table_offset;
  n ← tget t_l1_size;
  l1 ← t_file (read_ctrl_cluster off n);
  t_upd (fun t => Ok (set_l1_table l1 t)).
Definition save_l1_table : T unit :=
  off ← tget t_l1_table_offset;
  l1 ← tget l1_table;
  t_file (write_ctrl_cluster off l1).

(** The table of a cell of the cache. *)
Definition t_read (l : nat) : T CacheTable := fun s => (s, unwrap (tables (l2_table_cache s.1) !! l)).
Definition t_write (l : nat) (ct : CacheTable) : T unit :=
  t_cache (fun c => (set_tables (<[l := ct]> (tables c)) c, tt)).

Definition get_l2_table_cache_entry (guest_offset : Z) : T (option nat) :=
  t ← tget id;
  l1_entry ← slift (get_l1_table_entry t guest_offset);
  let l2_entry_addr := Z.land l1_entry L1_TABLE_OFFSET_MASK in
  if l2_entry_addr =? 0 then mret None else t_cache (cache_get l2_entry_addr).

Definition update_l2_table (l : nat) (index entry : Z) : T unit :=
  ct ← t_read l;
  ct' ← slift (set_entry_map ct index entry);
  _ ← t_write l ct';
  if is_dirty (dirty_info ct) then mret tt else t_cache (fun c => (add_dirty_table l c, tt)).

Definition cache_l2_table (l : nat) : T unit :=
  ct ← t_read l;
  let l2_entry_addr := addr ct in
  _ ← t_cache (fun c => (if contains_keys c l2_entry_addr then set_map (delete l2_entry_addr (cache_map c)) c else c, tt));
  replaced ← t_cache (lru_replace l2_entry_addr l);
  match replaced with
  | None => mret tt
  | Some l' =>
    old ← t_read l';
    if is_dirty (dirty_info old)
    then t_file (write_dirty_info (addr old) (table_data old) (start (dirty_info old)) (end_ (dirty_info old)))
    else mret tt
  end.

Definition table_flush : T unit := fun '(t, f) =>
  let '(c, f, r) := cache_flush (l2_table_cache t, f) in ((set_l2_cache c t, f), r).
Definition drop_dirty_l2 : T unit := t_cache (fun c => (clean_up_dirty_cache c, tt)).
End table.
