(* ===== verification/Qcow2L2Spec.v ===== *)
(** * Properties of the cache of L2 tables

    A table that is replaced while dirty is written back but stays in the list
    of dirty tables, still marked dirty ([Qcow2Table::cache_l2_table]), so a
    later flush writes the old copy again, possibly before a newer copy of the
    same table.  The invariant [l2_inv] says why this is harmless: the cache
    with those copies settled satisfies the invariant of [Qcow2CacheSpec.v],
    and writing all listed copies in order gives the current contents. *)
From stdpp Require Import prelude list gmap.
From Stdlib Require Import ZArith Lia.
From S2P Require Import Prelude NumOps Qcow2Header SyncAio Qcow2Io Qcow2Cache Qcow2CacheSpec Qcow2Table.

(** ** 64-bit entries *)

Definition entry64 (bytes : list Z) (idx : Z) : Z := be_val (slice bytes (Z.to_nat (8 * idx)) 8).

Section entries.
Context (t : CacheTable) (idx : Z).
Context (He : entry_size t = 8) (Hi : 0 <= idx < 2 ^ 32) (Hl : 8 * idx + 8 <= Z.of_nat (length (table_data t))).

Lemma get_entry64 : get_entry_map t idx = Ok (entry64 (table_data t) idx).
Proof.
  unfold get_entry_map, be_read. rewrite entry_range_ok by (rewrite ?He; lia). simpl. rewrite He. simpl. unfold entry64.
  do 3 f_equal; lia.
Qed.
Lemma set_entry64 v :
  set_entry_map t idx v =
    Ok (mkTable (mkDirty true (Z.min (start (dirty_info t)) (8 * idx)) (Z.max (end_ (dirty_info t)) (8 * idx + 8)))
          (lru_count t) (addr t) 8 (splice (table_data t) (Z.to_nat (8 * idx)) (be_bytes 8 v))).
Proof.
  unfold set_entry_map. rewrite entry_range_ok by (rewrite ?He; lia). simpl. rewrite He. simpl.
  replace (idx * 8) with (8 * idx) by lia. replace ((idx + 1) * 8) with (8 * idx + 8) by lia. done.
Qed.
End entries.

Lemma entry64_splice bytes i j v :
  is_u64 v -> 0 <= i -> 0 <= j -> 8 * i + 8 <= Z.of_nat (length bytes) -> 8 * j + 8 <= Z.of_nat (length bytes) ->
  entry64 (splice bytes (Z.to_nat (8 * i)) (be_bytes 8 v)) j = if decide (j = i) then v else entry64 bytes j.
Proof.
  intros Hv Hi Hj Hli Hlj. unfold entry64. case_decide as Hd.
  - subst j. replace 8%nat with (length (be_bytes 8 v)) at 2 by apply be_bytes_length.
    rewrite slice_splice by (rewrite be_bytes_length; lia). rewrite be_val_be_bytes. by apply Z.mod_small.
  - by rewrite slice_splice_ne by (rewrite be_bytes_length; lia).
Qed.
Lemma entry64_bound bytes i :
  is_bytes bytes -> 0 <= i -> 8 * i + 8 <= Z.of_nat (length bytes) -> is_u64 (entry64 bytes i).
Proof.
  intros Hb Hi Hl. unfold entry64. pose proof (be_val_bound (slice bytes (Z.to_nat (8 * i)) 8)) as H.
  rewrite slice_length in H by lia. apply H. by apply is_bytes_slice.
Qed.

(** ** Settled caches *)

(** The cell holds a table of the map. *)
Definition mapped (c : Qcow2Cache) (l : nat) : bool := bool_decide (l ∈ (map_to_list (cache_map c)).*2).
Lemma mapped_spec c l : mapped c l = true <-> exists k, cache_map c !! k = Some l.
Proof.
  unfold mapped. rewrite bool_decide_eq_true, list_elem_of_fmap. split.
  - intros ([k l'] & -> & Hkl). exists k. by apply elem_of_map_to_list in Hkl.
  - intros [k Hk]. exists (k, l). split; [done|]. by apply elem_of_map_to_list.
Qed.
Lemma mapped_false c l : mapped c l = false <-> forall k, cache_map c !! k <> Some l.
Proof. rewrite <-not_true_iff_false, mapped_spec. naive_solver. Qed.

Definition settle_cell (c : Qcow2Cache) (l : nat) (t : CacheTable) : CacheTable :=
  if mapped c l then t else clear_dirty t.
Definition settle (c : Qcow2Cache) : Qcow2Cache :=
  set_tables (map_imap (fun l t => Some (settle_cell c l t)) (tables c)) c.
Lemma settle_lookup c l : tables (settle c) !! l = settle_cell c l <$> tables c !! l.
Proof. unfold settle. cbn [tables set_tables]. rewrite map_lookup_imap. by destruct (tables c !! l). Qed.
Lemma settle_mapped c k l : cache_map c !! k = Some l -> tables (settle c) !! l = tables c !! l.
Proof.
  intros Hk. rewrite settle_lookup. unfold settle_cell. rewrite (proj2 (mapped_spec c l)) by eauto.
  by destruct (tables c !! l).
Qed.
Lemma clear_clean t : dirty_info t = no_dirty -> clear_dirty t = t.
Proof. destruct t; simpl. unfold clear_dirty. simpl. by intros ->. Qed.

(** Two caches with the same fields and the same cells. *)
Lemma cache_eq c c' :
  max_size c = max_size c' -> cache_lru c = cache_lru c' -> cache_map c = cache_map c' ->
  dirty_tables c = dirty_tables c' -> next_cell c = next_cell c' -> (forall l, tables c !! l = tables c' !! l) -> c = c'.
Proof. intros ????? Ht. destruct c, c'; simpl in *; subst. f_equal. by apply map_eq. Qed.

Lemma settle_cached `{!HashIter} c k : cached (settle c) k = cached c k.
Proof.
  unfold cached. change (cache_map (settle c)) with (cache_map c). destruct (cache_map c !! k) as [l|] eqn:E; [|done].
  simpl. by eapply settle_mapped.
Qed.

Lemma lru_only_settle c c' : lru_only c c' -> lru_only (settle c) (settle c').
Proof.
  intros [Hm Hd Hn Hx Ht Hb Hl]. assert (forall l, mapped c' l = mapped c l) as Hmm by (intros; unfold mapped; by rewrite Hm).
  constructor; try done.
  - intros l. rewrite !settle_lookup. specialize (Ht l). unfold settle_cell. rewrite Hmm.
    destruct (tables c' !! l) as [t'|], (tables c !! l) as [t|]; simpl in *; try done. apply (inj Some) in Ht.
    destruct (mapped c l); [by rewrite Ht|]. apply set_lru_data in Ht as (_ & Ea & Es & Et).
    unfold clear_dirty, set_lru. simpl. by rewrite Ea, Es, Et.
  - intros l t'. rewrite settle_lookup. destruct (tables c' !! l) as [u'|] eqn:E'; [|done]. intros E Hold. apply (inj Some) in E as <-.
    assert (lru_count (settle_cell c' l u') = lru_count u') as -> by (unfold settle_cell; by destruct (mapped c' l)).
    apply (Hb l u' E'). intros u Hu. specialize (Hold (settle_cell c l u)). rewrite settle_lookup, Hu in Hold.
    specialize (Hold eq_refl). unfold settle_cell in Hold. by destruct (mapped c l).
Qed.

(** ** Pending writes *)

(** Writing the dirty sectors of a table over the bytes [g]. *)
Definition over (t : CacheTable) (g : Z -> Z) : Z -> Z := fun x =>
  if decide (addr t + sec_lo t <= x < addr t + sec_hi t) then nth (Z.to_nat (x - addr t)) (table_data t) 0 else g x.
Fixpoint replay (ts : gmap nat CacheTable) (ls : list nat) (g : Z -> Z) : Z -> Z :=
  match ls with
  | [] => g
  | l :: ls => replay ts ls (match ts !! l with Some t => over t g | None => g end)
  end.

Lemma replay_app ts l1 l2 g : replay ts (l1 ++ l2) g = replay ts l2 (replay ts l1 g).
Proof. revert g. induction l1 as [|l l1 IH]; intros g; [done|]. simpl. apply IH. Qed.
Lemma over_ext t g g' x : g x = g' x -> over t g x = over t g' x.
Proof. intros Hg. unfold over. by case_decide. Qed.
Lemma replay_ext ts ls g g' x : g x = g' x -> replay ts ls g x = replay ts ls g' x.
Proof.
  revert g g'. induction ls as [|l ls IH]; intros g g' Hg; [done|]. simpl. apply IH. destruct (ts !! l); [by apply over_ext|done].
Qed.
(** Only the data, the place and the dirty range of the listed cells matter. *)
Lemma replay_tables ts ts' ls g x :
  (forall l, l ∈ ls -> set_lru 0 <$> ts' !! l = set_lru 0 <$> ts !! l) -> replay ts' ls g x = replay ts ls g x.
Proof.
  revert g. induction ls as [|l ls IH]; intros g Hts; [done|]. simpl. rewrite IH by (intros; apply Hts; by right).
  apply replay_ext. specialize (Hts l ltac:(by left)). destruct (ts' !! l) as [t'|], (ts !! l) as [t|]; try done.
  simpl in Hts. apply (inj Some) in Hts. apply set_lru_data in Hts as (Ed & Ea & _ & Et). unfold over, sec_lo, sec_hi.
  by rewrite Ed, Ea, Et.
Qed.
(** Cells that do not cover an address leave it alone. *)
Lemma replay_apart ts ls g x :
  (forall l t, l ∈ ls -> ts !! l = Some t -> ~ addr t + sec_lo t <= x < addr t + sec_hi t) -> replay ts ls g x = g x.
Proof.
  revert g. induction ls as [|l ls IH]; intros g Hts; [done|]. simpl. rewrite IH by (intros; eapply Hts; [by right|done]).
  destruct (ts !! l) as [t|] eqn:E; [|done]. unfold over. rewrite decide_False; [done|]. by apply (Hts l t); [left|].
Qed.

(** ** The invariant *)

#[local] Instance l2_esize : EntrySize := ENTRY_SIZE_U64.

Section l2.
Context `{!HashIter} {F : Type} `{!BlockIo F, !BlockIoLaws F}.
Context (cs : Z) (Hcs : (512 | cs)) (Hcs0 : 0 < cs).
Implicit Types (c : Qcow2Cache) (f : F) (t : CacheTable).

(** The tables are where their keys say; [own] are those that may be changed
    in place. *)
Record l2_env (own : Z -> Prop) (blk : Z -> option Z) : Prop := mkEnv {
  le_id : forall k a, blk k = Some a -> a = k;
  le_own : forall k, own k -> blk k = Some k;
  le_blocks : blocks_ok cs blk
}.

Record listed_ok (own : Z -> Prop) t : Prop := mkListed {
  lk_dirty : is_dirty (dirty_info t) = true;
  lk_range : 0 <= start (dirty_info t) < end_ (dirty_info t) /\ end_ (dirty_info t) <= cs;
  lk_len : Z.of_nat (length (table_data t)) = cs;
  lk_bytes : is_bytes (table_data t);
  lk_own : own (addr t)
}.

Record l2_inv (own : Z -> Prop) (blk : Z -> option Z) c f : Prop := mkL2Inv {
  li_cache : cache_inv cs blk (settle c) f;
  li_nodup : NoDup (dirty_tables c);
  li_listed : forall l, l ∈ dirty_tables c -> exists t, tables c !! l = Some t /\ listed_ok own t;
  li_key : forall k l t, cache_map c !! k = Some l -> tables c !! l = Some t -> addr t = k;
  li_last : forall k l, cache_map c !! k = Some l -> l ∈ dirty_tables c ->
    exists p q, dirty_tables c = p ++ l :: q /\ forall l' t', l' ∈ q -> tables c !! l' = Some t' -> addr t' <> k;
  li_replay : forall k bytes i b, view cs blk c f k = Some bytes -> bytes !! i = Some b ->
    replay (tables c) (dirty_tables c) (bcontent f) (k + Z.of_nat i) = b
}.

Lemma settle_view blk c f k : view cs blk (settle c) f k = view cs blk c f k.
Proof. unfold view. by rewrite settle_cached. Qed.

Lemma view_block own blk c f k bytes :
  l2_inv own blk c f -> view cs blk c f k = Some bytes -> is_bytes bytes /\ Z.of_nat (length bytes) = cs.
Proof.
  intros Hi. unfold view. destruct (blk k) as [a|] eqn:Ea; [|done]. simpl. intros [= <-].
  destruct (cached c k) as [t|] eqn:Ec.
  - rewrite <-settle_cached in Ec. apply (cached_ok cs _ _ _ _ _ (li_cache _ _ _ _ Hi)) in Ec. split; apply Ec.
  - split; [|rewrite ztab_length; lia]. apply Forall_lookup_2. intros i x Hx. pose proof (lookup_lt_Some _ _ _ Hx) as Hl.
    rewrite ztab_length in Hl. rewrite ztab_lookup in Hx by done. injection Hx as <-. apply bcontent_byte.
Qed.

(** An address of a block is covered by listed cells of that block only. *)
Lemma listed_apart own blk t k x :
  l2_env own blk -> listed_ok own t -> blk k = Some k -> k <= x < k + cs -> addr t <> k ->
  ~ addr t + sec_lo t <= x < addr t + sec_hi t.
Proof.
  intros [Hid Ho [_ Hb]] [_ [Hr1 Hr2] _ _ Hown] Hk Hx Hne. destruct (sec_bounds t cs Hcs Hr1 Hr2) as (? & ? & _).
  destruct (Hb _ _ _ _ (Ho _ Hown) Hk Hne); lia.
Qed.

(** The file changes outside the blocks. *)
Lemma l2_inv_file own blk c f f' :
  l2_env own blk -> (forall k x, blk k = Some k -> k <= x < k + cs -> bcontent f' x = bcontent f x) ->
  l2_inv own blk c f -> l2_inv own blk c f' /\ forall k, view cs blk c f' k = view cs blk c f k.
Proof.
  intros He Hf [Hc Hnd Hli Hk Hla Hre]. pose proof He as [Hid Ho Hb].
  destruct (cache_inv_file cs Hcs0 blk (settle c) f f' Hb) as [Hc' Hv]; [|done|].
  { intros k a x Ha. pose proof (Hid k a Ha). subst. by apply Hf. }
  assert (forall k, view cs blk c f' k = view cs blk c f k) as Hv' by (intros k; by rewrite <-settle_view, Hv, settle_view).
  split; [|done]. constructor; try done. intros k bytes i b Hvk Hib. rewrite Hv' in Hvk. rewrite <-(Hre k bytes i b Hvk Hib).
  apply replay_ext. destruct (blk k) as [a|] eqn:Ea; [|unfold view in Hvk; by rewrite Ea in Hvk].
  pose proof (Hid k a Ea). subst. apply (Hf k); [done|].
  destruct (view_block own blk c f k bytes (mkL2Inv _ _ _ _ Hc Hnd Hli Hk Hla Hre) Hvk) as [_ Hl]. apply lookup_lt_Some in Hib. lia.
Qed.

Lemma lru_view blk c c' f k : lru_only c c' -> view cs blk c' f k = view cs blk c f k.
Proof.
  intros Hlo. unfold view, cached. rewrite (lo_map _ _ Hlo). destruct (blk k); [|done]. simpl. f_equal.
  destruct (cache_map c !! k) as [l|]; [|done]. simpl. pose proof (lo_tables _ _ Hlo l) as E.
  destruct (tables c' !! l), (tables c !! l); try done. apply (inj Some), set_lru_data in E. tauto.
Qed.

Lemma lru_only_l2 own blk c c' f : lru_only c c' -> l2_inv own blk c f -> l2_inv own blk c' f.
Proof.
  intros Hlo [Hc Hnd Hli Hk Hla Hre]. destruct (lru_only_inv cs blk _ _ f (lru_only_settle _ _ Hlo) Hc) as [Hc' _].
  pose proof Hlo as [Em Ed _ _ Et _ _].
  assert (forall l t', tables c' !! l = Some t' -> exists t, tables c !! l = Some t /\ dirty_info t' = dirty_info t /\
    addr t' = addr t /\ table_data t' = table_data t) as Hcell.
  { intros l t' Ht'. specialize (Et l). rewrite Ht' in Et. destruct (tables c !! l) as [t|]; [|done].
    apply (inj Some), set_lru_data in Et as (? & ? & _ & ?). by exists t. }
  constructor; [done|by rewrite Ed|..].
  - intros l. rewrite Ed. intros Hl. destruct (Hli l Hl) as (t & Ht & [? ? ? ? ?]).
    destruct (lru_only_cell _ _ _ _ Hlo Ht) as (t' & Ht' & Eq). exists t'. split; [done|].
    apply set_lru_data in Eq as (E1 & E2 & _ & E4). constructor; by rewrite ?E1, ?E2, ?E4.
  - intros k l t'. rewrite Em. intros Hkl Ht'. destruct (Hcell l t' Ht') as (t & Ht & _ & -> & _). by eapply Hk.
  - intros k l. rewrite Em, Ed. intros Hkl Hl. destruct (Hla k l Hkl Hl) as (p & q & E & Hq). exists p, q. split; [done|].
    intros l' t' Hl' Ht'. destruct (Hcell l' t' Ht') as (t & Ht & _ & -> & _). by eapply Hq.
  - intros k bytes i b. rewrite (lru_view _ _ _ _ _ Hlo), Ed. intros Hv Hib. rewrite <-(Hre k bytes i b Hv Hib).
    apply replay_tables. intros l _. apply Et.
Qed.

(** *** Removing keys *)

(** What [minus] leaves of the list and the cells. *)
Lemma mapped_minus c k l :
  (forall k', cache_map c !! k = Some l -> cache_map c !! k' = Some l -> k' = k) ->
  mapped (minus k c) l = if decide (cache_map c !! k = Some l) then false else mapped c l.
Proof.
  intros Hinj. case_decide as Hk.
  - apply mapped_false. intros k'. unfold minus. cbn [cache_map set_map]. intros [Hne Hk']%lookup_delete_Some. by destruct Hne; symmetry; apply Hinj.
  - destruct (mapped c l) eqn:E.
    + apply mapped_spec in E as [k' Hk']. apply mapped_spec. exists k'. unfold minus. cbn [cache_map set_map].
      rewrite lookup_delete_ne; [done|]. intros ->. done.
    + rewrite mapped_false in E. apply mapped_false. intros k'. unfold minus. cbn [cache_map set_map].
      intros [_ Hk']%lookup_delete_Some. by eapply E.
Qed.

Lemma key_inj own blk c f k1 k2 l :
  l2_inv own blk c f -> cache_map c !! k1 = Some l -> cache_map c !! k2 = Some l -> k1 = k2.
Proof. intros Hi. apply (ci_inj _ _ _ _ (li_cache _ _ _ _ Hi)). Qed.
Lemma cell_of own blk c f k l :
  l2_inv own blk c f -> cache_map c !! k = Some l -> exists t, tables c !! l = Some t /\ cell_ok cs blk f k t.
Proof.
  intros Hi Hk. destruct (ci_cells _ _ _ _ (li_cache _ _ _ _ Hi) k l Hk) as (t & Ht & Hok). exists t. split; [|done].
  by rewrite (settle_mapped c k l Hk) in Ht.
Qed.

(** Taking a key out: its table is clean, or has just been written to [f']. *)
Lemma settle_minus own blk c f k l t :
  l2_inv own blk c f -> cache_map c !! k = Some l -> tables c !! l = Some t ->
  settle (minus k c) = minus k (set_tables (<[l := clear_dirty t]> (tables (settle c))) (settle c)).
Proof.
  intros Hi Hk Ht. apply cache_eq; try done. intros l'. rewrite settle_lookup. unfold settle_cell.
  rewrite mapped_minus by (intros k' ? ?; by eapply key_inj). change (tables (minus k c)) with (tables c).
  change (tables (minus k ?x)) with (tables x). cbn [tables set_tables]. case_decide as Hkl.
  - rewrite Hk in Hkl. injection Hkl as <-. by rewrite lookup_insert_eq, Ht.
  - rewrite lookup_insert_ne by congruence. by rewrite settle_lookup.
Qed.

Lemma minus_view blk c f k k0 :
  k0 <> k -> view cs blk (minus k c) f k0 = view cs blk c f k0.
Proof. intros. unfold view, cached, minus. cbn [cache_map set_map tables]. by rewrite lookup_delete_ne. Qed.

(** The parts of the invariant that only concern the listed cells. *)
Lemma minus_listed own blk c f k :
  l2_inv own blk c f ->
  (forall k0 l t, cache_map (minus k c) !! k0 = Some l -> tables c !! l = Some t -> addr t = k0) /\
  (forall k0 l, cache_map (minus k c) !! k0 = Some l -> l ∈ dirty_tables c ->
    exists p q, dirty_tables c = p ++ l :: q /\ forall l' t', l' ∈ q -> tables c !! l' = Some t' -> addr t' <> k0).
Proof.
  intros [_ _ _ Hk Hla _]. split; unfold minus; cbn [cache_map set_map].
  - intros k0 l t [_ ?]%lookup_delete_Some. by apply Hk.
  - intros k0 l [_ ?]%lookup_delete_Some. by apply Hla.
Qed.

Lemma minus_clean own blk c f k :
  l2_inv own blk c f -> (forall l t, cache_map c !! k = Some l -> tables c !! l = Some t -> is_dirty (dirty_info t) = false) ->
  cache_inv cs blk (settle (minus k c)) f /\ forall k0, view cs blk (minus k c) f k0 = view cs blk c f k0.
Proof.
  intros Hi Hcl. destruct (cache_map c !! k) as [l|] eqn:Ek; [|by rewrite minus_none; [split; [apply Hi|]|]].
  destruct (cell_of _ _ _ _ _ _ Hi Ek) as (t & Ht & Hok). specialize (Hcl l t eq_refl Ht).
  assert (dirty_info t = no_dirty) as Hnd by (pose proof (co_dirty _ _ _ _ _ Hok) as Hd; by rewrite Hcl in Hd).
  assert (settle (minus k c) = minus k (settle c)) as E.
  { erewrite settle_minus by done. f_equal. rewrite clear_clean, insert_id by (done || by rewrite (settle_mapped c k l)). by destruct (settle c). }
  destruct (delete_inv cs Hcs0 blk (settle c) f k) as [Hd Hv]; [apply Hi| |].
  { intros l' Hl'. change (cache_map (settle c)) with (cache_map c) in Hl'. rewrite Ek in Hl'. injection Hl' as <-.
    unfold cell_dirty. by rewrite (settle_mapped c k l), Ht. }
  rewrite E. split; [exact Hd|]. intros k0. rewrite <-settle_view, E, <-(settle_view blk c). apply Hv.
Qed.

(** A new block at [k], whose key holds nothing of value. *)
Lemma l2_add own own' blk blk' c f k :
  l2_env own' blk' -> l2_inv own blk c f -> blk k = None -> blk' k = Some k -> (forall k0, k0 <> k -> blk' k0 = blk k0) ->
  (forall k0, own k0 -> own' k0 /\ blk k0 <> None) ->
  l2_inv own' blk' (minus k c) f /\ (forall k0, k0 <> k -> view cs blk' (minus k c) f k0 = view cs blk c f k0) /\
  view cs blk' (minus k c) f k = Some (ztab (bcontent f) k (Z.to_nat cs)).
Proof.
  intros He Hi Hk Hk' Hne Hown. destruct (minus_clean own blk c f k Hi) as [Hc Hv].
  { intros l t Hl Ht. destruct (cell_of _ _ _ _ _ _ Hi Hl) as (t' & Ht' & Hok). rewrite Ht in Ht'. injection Ht' as <-.
    pose proof (co_disk _ _ _ _ _ Hok) as Hd. by rewrite Hk in Hd. }
  assert (cached (minus k c) k = None) as Hnone by (unfold cached, minus; cbn [cache_map set_map]; by rewrite lookup_delete_eq).
  destruct (blk_change_inv cs blk blk' (settle (minus k c)) f k Hc Hne) as [Hc' _].
  { intros t. by rewrite settle_cached, Hnone. }
  assert (forall k0, k0 <> k -> view cs blk' (minus k c) f k0 = view cs blk c f k0) as Hv'.
  { intros k0 Hk0. rewrite <-Hv. unfold view. by rewrite Hne. }
  assert (view cs blk' (minus k c) f k = Some (ztab (bcontent f) k (Z.to_nat cs))) as Hvk by (unfold view; by rewrite Hk', Hnone).
  split; [|done]. destruct (minus_listed _ _ _ _ k Hi) as [Hkey Hlast]. pose proof Hi as [_ Hnd Hli _ _ Hre].
  assert (forall l t, l ∈ dirty_tables c -> tables c !! l = Some t -> listed_ok own' t /\ addr t <> k) as Hli'.
  { intros l t Hl Ht. destruct (Hli l Hl) as (t' & Ht' & [? ? ? ? Ho]). rewrite Ht in Ht'. injection Ht' as <-.
    destruct (Hown _ Ho) as [? Hn]. split; [by constructor|]. intros E. by rewrite E in Hn. }
  constructor; try done.
  - intros l Hl. destruct (Hli l Hl) as (t & Ht & _). exists t. split; [done|]. by eapply Hli'.
  - intros k0 bytes i b Hvk0 Hib. change (tables (minus k c)) with (tables c). change (dirty_tables (minus k c)) with (dirty_tables c).
    destruct (decide (k0 = k)) as [->|Hk0]; [|rewrite Hv' in Hvk0 by done; by eapply Hre].
    rewrite Hvk in Hvk0. injection Hvk0 as <-. pose proof (lookup_lt_Some _ _ _ Hib) as Hl. rewrite ztab_length in Hl.
    rewrite ztab_lookup in Hib by done. injection Hib as <-. apply replay_apart. intros l t Hl' Ht. destruct (Hli' l t Hl' Ht).
    eapply listed_apart; [done..|lia|done].
Qed.

(** A table that is not changed in place is given up. *)
Lemma l2_drop own blk blk' c f k :
  l2_env own blk' -> l2_inv own blk c f -> ~ own k -> blk' k = None -> (forall k0, k0 <> k -> blk' k0 = blk k0) ->
  l2_inv own blk' c f /\ forall k0, k0 <> k -> view cs blk' c f k0 = view cs blk c f k0.
Proof.
  intros He Hi Hno Hk Hne. pose proof Hi as [Hc Hnd Hli Hkey Hla Hre].
  destruct (vanish_inv cs blk blk' (settle c) f k Hc Hne Hk) as [Hc' Hv].
  { intros (l & Hl & Hd). change (cache_map (settle c)) with (cache_map c) in Hl.
    pose proof (ci_listed _ _ _ _ Hc k l Hl Hd) as Hin. destruct (Hli l Hin) as (t & Ht & Hok).
    apply Hno. rewrite <-(Hkey k l t Hl Ht). apply Hok. }
  assert (forall k0, k0 <> k -> view cs blk' c f k0 = view cs blk c f k0) as Hv'
    by (intros k0 Hk0; unfold view; by rewrite Hne).
  split; [|done]. constructor; try done. intros k0 bytes i b Hvk. destruct (decide (k0 = k)) as [->|Hk0].
  - unfold view in Hvk. by rewrite Hk in Hvk.
  - rewrite Hv' in Hvk by done. by apply Hre.
Qed.

(** *** Replacing a table *)

(** An address that some cell covers does not depend on the bytes below. *)
Lemma replay_covered ts ls g g' x :
  (exists l t, l ∈ ls /\ ts !! l = Some t /\ addr t + sec_lo t <= x < addr t + sec_hi t) ->
  replay ts ls g x = replay ts ls g' x.
Proof.
  revert g g'. induction ls as [|l ls IH]; intros g g' (l' & t & Hin & Ht & Hx); [by apply elem_of_nil in Hin|]. simpl.
  destruct (decide (l' = l)) as [->|Hne].
  - apply replay_ext. rewrite Ht. unfold over. by rewrite !decide_True.
  - apply IH. exists l', t. split; [|done]. by apply elem_of_cons in Hin as [?|?].
Qed.
Lemma covered_dec (ts : gmap nat CacheTable) (ls : list nat) x :
  (exists l t, l ∈ ls /\ ts !! l = Some t /\ addr t + sec_lo t <= x < addr t + sec_hi t) \/
  (forall l t, l ∈ ls -> ts !! l = Some t -> ~ addr t + sec_lo t <= x < addr t + sec_hi t).
Proof.
  induction ls as [|l ls [(l' & t & ? & ? & ?)|IH]]; [right; intros l t Hl; by apply elem_of_nil in Hl|left; exists l', t; split; [by right|done]|].
  destruct (ts !! l) as [t|] eqn:Et.
  - destruct (decide (addr t + sec_lo t <= x < addr t + sec_hi t)); [left; exists l, t; split; [by left|done]|].
    right. intros l' t' [->|Hl']%elem_of_cons Ht'; [congruence|by eapply IH].
  - right. intros l' t' [->|Hl']%elem_of_cons Ht'; [congruence|by eapply IH].
Qed.

(** The bytes of the tables that may be changed in place. *)
Definition in_own (own : Z -> Prop) (x : Z) : Prop := exists k, own k /\ k <= x < k + cs.

(** The key [k'] is evicted: a dirty table is written back first. *)
Lemma l2_evict own blk c f k l t :
  l2_env own blk -> file_ok cs blk f -> l2_inv own blk c f -> cache_map c !! k = Some l -> tables c !! l = Some t ->
  exists f', (if is_dirty (dirty_info t)
              then write_dirty_info (addr t) (table_data t) (start (dirty_info t)) (end_ (dirty_info t)) f
              else (f, Ok tt)) = (f', Ok tt) /\
    l2_inv own blk (minus k c) f' /\ (forall k0, view cs blk (minus k c) f' k0 = view cs blk c f k0) /\
    changed_in (in_own own) f f'.
Proof.
  intros He Hf Hi Hk Ht. destruct (minus_listed _ _ _ _ k Hi) as [Hkey Hlast]. pose proof Hi as [Hc Hnd Hli Hky Hla Hre].
  destruct (is_dirty (dirty_info t)) eqn:Ed.
  2:{ exists f. destruct (minus_clean own blk c f k Hi) as [Hc' Hv]; [intros l' t' ? ?; congruence|].
      split_and!; [done| |done|by apply changed_in_refl; destruct Hf]. constructor; try done.
      intros k0 bytes i b. rewrite Hv. apply Hre. }
  destruct (cell_of _ _ _ _ _ _ Hi Hk) as (t' & Ht' & Hok). rewrite Ht in Ht'. injection Ht' as <-.
  assert (blk k = Some k) as Hbk.
  { pose proof (co_disk _ _ _ _ _ Hok) as Hd. destruct (blk k) as [a|] eqn:Ea; [|congruence]. f_equal. by apply (le_id _ _ He). }
  destruct (write_back_cell cs Hcs Hcs0 blk f k t k (le_blocks _ _ He) Hf Hok Hbk Ed) as (f' & -> & Hch & Hw).
  assert (tables (settle c) !! l = Some t) as Hts by by rewrite (settle_mapped c k l).
  destruct (clean_inv cs Hcs0 blk (settle c) f f' k l t k (le_blocks _ _ He) Hc Hk Hts Hbk (ch_out _ _ _ Hch) Hw) as [Hcl Hvl].
  set (c1 := set_tables _ _) in Hcl, Hvl. destruct (delete_inv cs Hcs0 blk c1 f' k Hcl) as [Hd Hvd].
  { intros l' Hl'. subst c1. cbn [cache_map set_tables] in Hl'. change (cache_map (settle c)) with (cache_map c) in Hl'.
    rewrite Hk in Hl'. injection Hl' as <-. rewrite cell_dirty_set. by rewrite decide_True. }
  assert (settle (minus k c) = minus k c1) as E by (erewrite settle_minus by done; done).
  assert (forall k0, view cs blk (minus k c) f' k0 = view cs blk c f k0) as Hv.
  { intros k0. rewrite <-settle_view, E, <-(settle_view blk c), <-Hvl. apply Hvd. }
  exists f'. split_and!; [done| |done|].
  - constructor; try done; [by rewrite E|]. intros k0 bytes i b Hvk Hib. rewrite Hv in Hvk.
    change (tables (minus k c)) with (tables c). change (dirty_tables (minus k c)) with (dirty_tables c).
    destruct (decide (k0 = k)) as [->|Hne].
    + assert (bytes = table_data t) as ->.
      { unfold view, cached in Hvk. rewrite Hbk, Hk in Hvk. simpl in Hvk. rewrite Ht in Hvk. by injection Hvk. }
      destruct (covered_dec (tables c) (dirty_tables c) (k + Z.of_nat i)) as [Hcov|Hno].
      * rewrite (replay_covered _ _ _ (bcontent f)) by done. apply (Hre k (table_data t)); [|done].
        unfold view, cached. rewrite Hbk, Hk. simpl. by rewrite Ht.
      * rewrite replay_apart by done. by apply Hw.
    + rewrite <-(Hre k0 bytes i b Hvk Hib). apply replay_ext. apply (ch_out _ _ _ Hch).
      destruct (blk k0) as [a|] eqn:Ea; [|unfold view in Hvk; by rewrite Ea in Hvk]. pose proof (le_id _ _ He _ _ Ea). subst a.
      destruct (view_block _ _ _ _ _ _ Hi Hvk) as [_ Hl]. apply lookup_lt_Some in Hib.
      destruct (proj2 (le_blocks _ _ He) _ _ _ _ Hbk Ea ltac:(congruence)); lia.
  - eapply changed_in_mono; [|done]. intros x Hx. exists k. split; [|done].
    destruct (Hli l) as (t0 & Ht0 & Hl0); [apply (ci_listed _ _ _ _ Hc k l Hk); unfold cell_dirty; by rewrite Hts|].
    rewrite Ht in Ht0. injection Ht0 as <-. rewrite <-(Hky k l t Hk Ht). apply Hl0.
Qed.

(** *** A new cell, and its key *)

Lemma new_cell_l2 own blk c f ct :
  l2_inv own blk c f -> dirty_info ct = no_dirty -> let c' := (new_cell ct c).1 in
  l2_inv own blk c' f /\ (forall k, view cs blk c' f k = view cs blk c f k) /\
  tables c' !! next_cell c = Some ct /\ mapped c' (next_cell c) = false /\ next_cell c ∉ dirty_tables c'.
Proof.
  intros Hi Hcl c'. pose proof Hi as [Hc Hnd Hli Hky Hla Hre].
  destruct (new_cell_inv cs blk (settle c) f ct Hc) as (Hc' & Hv & Ht & Hfr & Em).
  assert (mapped c (next_cell c) = false) as Hmf by (apply mapped_false; intros k Hk; by apply (Hfr k)).
  assert (settle c' = (new_cell ct (settle c)).1) as E.
  { apply cache_eq; try done. intros l. rewrite settle_lookup. unfold settle_cell.
    change (mapped c' l) with (mapped c l). unfold c', new_cell. cbn [tables fst set_tables]. change (next_cell (settle c)) with (next_cell c).
    destruct (decide (l = next_cell c)) as [->|Hne].
    - rewrite !lookup_insert_eq, Hmf. simpl. by rewrite clear_clean.
    - rewrite !lookup_insert_ne by done. by rewrite settle_lookup. }
  assert (forall l, l ∈ dirty_tables c -> l <> next_cell c) as Hlt.
  { intros l Hl ->. apply (ci_dlt _ _ _ _ Hc) in Hl. simpl in Hl. lia. }
  assert (forall k l, cache_map c !! k = Some l -> l <> next_cell c) as Hlk.
  { intros k l Hk ->. by apply (Hfr k). }
  assert (forall l, l <> next_cell c -> tables c' !! l = tables c !! l) as Htl by (intros l Hl; unfold c'; simpl; by rewrite lookup_insert_ne).
  assert (forall k, view cs blk c' f k = view cs blk c f k) as Hv' by (intros k; by rewrite <-settle_view, E, Hv, settle_view).
  split_and!; [|done|unfold c'; simpl; by rewrite lookup_insert_eq|done|by intros ?%Hlt].
  constructor; try done.
  - by rewrite E.
  - intros l Hl. rewrite Htl by by apply Hlt. by apply Hli.
  - intros k l t Hk. rewrite Htl by by eapply Hlk. by apply Hky.
  - intros k l Hk Hl. destruct (Hla k l Hk Hl) as (p & q & Eq & Hq). exists p, q. split; [done|].
    intros l' t' Hl'. rewrite Htl; [by apply Hq|]. apply Hlt. rewrite Eq. apply elem_of_app. right. by right.
  - intros k bytes i b. rewrite Hv'. intros Hvk Hib. rewrite <-(Hre k bytes i b Hvk Hib). apply replay_tables.
    intros l Hl. by rewrite Htl by by apply Hlt.
Qed.

Lemma l2_insert own blk c f k l ct :
  l2_inv own blk c f -> tables c !! l = Some ct -> dirty_info ct = no_dirty -> mapped c l = false ->
  l ∉ dirty_tables c -> cache_map c !! k = None -> addr ct = k -> cell_ok cs blk f k ct ->
  (forall a, blk k = Some a -> view cs blk c f k = Some (table_data ct)) ->
  let c' := set_map (<[k := l]> (cache_map c)) c in
  l2_inv own blk c' f /\ forall k0, view cs blk c' f k0 = view cs blk c f k0.
Proof.
  intros Hi Ht Hcl Hm Hnl Hk Ha Hok Hvk c'. pose proof Hi as [Hc Hnd Hli Hky Hla Hre]. rewrite mapped_false in Hm.
  assert (tables (settle c) !! l = Some ct) as Hts.
  { rewrite settle_lookup, Ht. simpl. unfold settle_cell. destruct (mapped c l); [done|]. by rewrite clear_clean. }
  destruct (insert_inv cs blk (settle c) f k l ct Hc Hts Hok) as (Hc' & Hv1 & Hv2 & _); [by rewrite Hcl|exact Hm|done|].
  assert (settle c' = set_map (<[k := l]> (cache_map (settle c))) (settle c)) as E.
  { apply cache_eq; try done. intros l'. rewrite settle_lookup. change (tables c') with (tables c). cbn [tables set_map].
    rewrite settle_lookup. unfold settle_cell. destruct (decide (l' = l)) as [->|Hne].
    - rewrite Ht. simpl. f_equal. assert (clear_dirty ct = ct) as -> by by apply clear_clean. by destruct (mapped c' l), (mapped c l).
    - assert (mapped c' l' = mapped c l') as ->; [|done]. destruct (mapped c l') eqn:E.
      + apply mapped_spec in E as [k' Hk']. apply mapped_spec. exists k'. subst c'. cbn [cache_map set_map].
        rewrite lookup_insert_ne; [done|]. intros ->. congruence.
      + rewrite mapped_false in E. apply mapped_false. intros k'. subst c'. cbn [cache_map set_map].
        intros [[_ ?]|[_ ?]]%lookup_insert_Some; [congruence|by eapply E]. }
  assert (forall k0, view cs blk c' f k0 = view cs blk c f k0) as Hv.
  { intros k0. rewrite <-settle_view, E. destruct (decide (k0 = k)) as [->|Hne].
    - destruct (blk k) as [a|] eqn:Eb; [|unfold view; by rewrite Eb]. rewrite (Hvk a eq_refl). by apply (Hv2 a).
    - rewrite Hv1 by done. apply settle_view. }
  split; [|done]. constructor; try done.
  - by rewrite E.
  - intros k0 l0 t0. subst c'. cbn [cache_map set_map tables]. intros [[<- <-]|[_ ?]]%lookup_insert_Some; [congruence|by apply Hky].
  - intros k0 l0. subst c'. cbn [cache_map set_map tables dirty_tables]. intros [[<- <-]|[_ ?]]%lookup_insert_Some; [done|by apply Hla].
  - intros k0 bytes i b. rewrite Hv. apply Hre.
Qed.

(** *** [cache_l2_table] *)

Lemma l2_ready own blk c f : l2_inv own blk c f -> lru_ready c.
Proof.
  intros Hi. destruct (inv_ready cs blk (settle c) f (li_cache _ _ _ _ Hi)) as (Hc & Hl & Hm). split; [|by split].
  intros k l Hk. destruct (cell_of _ _ _ _ _ _ Hi Hk) as (t & Ht & Hok). exists t. split; [done|apply Hok].
Qed.

Lemma minus_new_cell k ct c : minus k (new_cell ct c).1 = (new_cell ct (minus k c)).1.
Proof. done. Qed.

Lemma cell_ok_of_view blk c f k ct :
  blk k = Some k -> cache_map c !! k = None -> view cs blk c f k = Some (table_data ct) ->
  dirty_info ct = no_dirty -> addr ct = k -> entry_size ct = 8 -> lru_count ct < U64_MAX -> is_bytes (table_data ct) ->
  cell_ok cs blk f k ct.
Proof.
  intros Hb Hk Hv Hcl Ha He Hl Hby. unfold view, cached in Hv. rewrite Hb, Hk in Hv. simpl in Hv. injection Hv as Hv.
  assert (Z.of_nat (length (table_data ct)) = cs) as Hlen by (rewrite <-Hv, ztab_length; lia).
  constructor; [done..|by rewrite Hcl|]. rewrite Hb. split; [done|]. intros i b Hib _. rewrite <-Hv in Hib.
  pose proof (lookup_lt_Some _ _ _ Hib) as Hi. rewrite ztab_length in Hi. rewrite ztab_lookup in Hib by done. by injection Hib.
Qed.

Lemma cache_l2_spec own blk tb c f k ct :
  l2_env own blk -> file_ok cs blk f -> l2_inv own blk (minus k c) f -> blk k = Some k ->
  view cs blk (minus k c) f k = Some (table_data ct) ->
  dirty_info ct = no_dirty -> addr ct = k -> entry_size ct = 8 -> lru_count ct < U64_MAX -> is_bytes (table_data ct) ->
  exists c' f' t', cache_l2_table (next_cell c) (set_l2_cache (new_cell ct c).1 tb, f) = ((set_l2_cache c' tb, f'), Ok tt) /\
    l2_inv own blk c' f' /\ (forall k0, view cs blk c' f' k0 = view cs blk (minus k c) f k0) /\
    changed_in (in_own own) f f' /\ cache_map c' !! k = Some (next_cell c) /\ tables c' !! next_cell c = Some t' /\
    table_data t' = table_data ct.
Proof.
  intros He Hf Hi Hb Hv Hcl Ha Hes Hlr Hby. set (l := next_cell c).
  destruct (new_cell_l2 own blk (minus k c) f ct Hi Hcl) as (Hi2 & Hv2 & Ht2 & Hm2 & Hn2).
  change (next_cell (minus k c)) with l in *. rewrite <-minus_new_cell in *. set (c2 := minus k (new_cell ct c).1) in *.
  assert (cache_map c2 !! k = None) as Hk2 by (subst c2; unfold minus; cbn [cache_map set_map]; by rewrite lookup_delete_eq).
  destruct (lru_replace_ready c2 k l (l2_ready _ _ _ _ Hi2)) as (c3 & Hlo & Hcase).
  pose proof (lru_only_l2 own blk c2 c3 f Hlo Hi2) as Hi3. destruct (lru_only_cell _ _ _ _ Hlo Ht2) as (t3 & Ht3 & Et3).
  destruct (set_lru_data _ _ Et3) as (Ed3 & Ea3 & Es3 & Edat3).
  assert (lru_count t3 < U64_MAX) as Hl3 by (apply (lo_bound _ _ Hlo l t3 Ht3); intros t0 Ht0; rewrite Ht2 in Ht0; by injection Ht0 as <-).
  assert (forall k0, view cs blk c3 f k0 = view cs blk (minus k c) f k0) as Hv3 by (intros; by rewrite (lru_view _ _ _ _ _ Hlo), Hv2).
  pose proof (lo_map _ _ Hlo) as Em. pose proof (lo_dirty _ _ Hlo) as Edl.
  assert (mapped c3 l = false) as Hm3 by (unfold mapped in *; by rewrite Em).
  unfold cache_l2_table. set (s0 := (set_l2_cache (new_cell ct c).1 tb, f)).
  assert (t_read l s0 = (s0, Ok ct)) as Hr0.
  { unfold t_read. cbn [fst s0 set_l2_cache l2_table_cache]. unfold new_cell at 1. cbn [tables fst]. by rewrite lookup_insert_eq. }
  rewrite (sres_step _ _ _ _ _ Hr0). rewrite Ha. set (s2 := (set_l2_cache c2 tb, f)).
  assert (t_cache (fun c => (if contains_keys c k then set_map (delete k (cache_map c)) c else c, tt)) s0 = (s2, @Ok unit _ tt)) as Hdel.
  { unfold t_cache. subst s0 s2 c2. cbn [set_l2_cache l2_table_cache]. unfold contains_keys. case_bool_decide as Hd; [done|].
    rewrite minus_none; [done|]. by apply eq_None_not_Some. }
  rewrite (sres_step _ _ _ _ _ Hdel).
  destruct Hcase as [Hrep|(k' & l' & Hk' & Hrep)].
  - assert (t_cache (lru_replace k l) s2 = ((set_l2_cache (set_map (<[k:=l]> (cache_map c2)) c3) tb, f), @Ok unit _ None)) as Hlr2.
    { unfold t_cache. subst s2. cbn [set_l2_cache l2_table_cache]. by rewrite Hrep. }
    rewrite (sres_step _ _ _ _ _ Hlr2).
    destruct (l2_insert own blk c3 f k l t3 Hi3 Ht3) as [Hi4 Hv4]; [by rewrite Ed3|done|by rewrite Edl|by rewrite Em|congruence| |by rewrite Hv3, Edat3|].
    { apply (cell_ok_of_view blk c3 f k t3); [done|by rewrite Em|by rewrite Hv3, Edat3|congruence|congruence|congruence|done|by rewrite Edat3]. }
    rewrite Em in Hi4, Hv4. eexists _, f, t3. split_and!; [done|exact Hi4|intros; by rewrite Hv4|by apply changed_in_refl; destruct Hf| |done|done].
    cbn [cache_map set_map]. by rewrite lookup_insert_eq.
  - assert (t_cache (lru_replace k l) s2 = ((set_l2_cache (set_map (<[k:=l]> (delete k' (cache_map c2))) c3) tb, f), @Ok unit _ (Some l'))) as Hlr2.
    { unfold t_cache. subst s2. cbn [set_l2_cache l2_table_cache]. by rewrite Hrep. }
    rewrite (sres_step _ _ _ _ _ Hlr2). rewrite <-Em in Hk'. destruct (cell_of _ _ _ _ _ _ Hi3 Hk') as (t' & Ht' & _).
    set (s4 := (set_l2_cache _ _, f)). assert (t_read l' s4 = (s4, Ok t')) as Hr4 by (unfold t_read; simpl; by rewrite Ht').
    rewrite (sres_step _ _ _ _ _ Hr4).
    destruct (l2_evict own blk c3 f k' l' t' He Hf Hi3 Hk' Ht') as (f' & Hw & Hi5 & Hv5 & Hch).
    assert ((if is_dirty (dirty_info t') then t_file (write_dirty_info (addr t') (table_data t') (start (dirty_info t')) (end_ (dirty_info t')))
      else mret tt) s4 = ((s4.1, f'), Ok tt)) as ->.
    { destruct (is_dirty (dirty_info t')); [|injection Hw as <-; done]. subst s4. unfold t_file. cbv beta iota. by rewrite Hw. }
    destruct (l2_insert own blk (minus k' c3) f' k l t3 Hi5 Ht3) as [Hi6 Hv6].
    { by rewrite Ed3. }
    { rewrite mapped_minus by (intros k0 H1 H2; by apply (key_inj own blk c3 f _ _ l Hi3 H2 H1)). case_decide; done. }
    { by rewrite <-Edl in Hn2. }
    { unfold minus. cbn [cache_map set_map]. rewrite lookup_delete_None. right. by rewrite Em. }
    { congruence. }
    { apply (cell_ok_of_view blk (minus k' c3) f' k t3); [done| |by rewrite Hv5, Hv3, Edat3|congruence|congruence|congruence|done|by rewrite Edat3].
      unfold minus. cbn [cache_map set_map]. rewrite lookup_delete_None. right. by rewrite Em. }
    { by rewrite Hv5, Hv3, Edat3. }
    eexists _, f', t3. split_and!; [reflexivity| | |done| |done|done].
    + replace (set_map (<[k:=l]> (delete k' (cache_map c2))) c3) with
        (set_map (<[k:=l]> (cache_map (minus k' c3))) (minus k' c3)) by (unfold minus; cbn [cache_map set_map]; by rewrite Em). exact Hi6.
    + intros k0. rewrite <-Hv3, <-Hv5, <-Hv6. unfold minus. cbn [cache_map set_map]. by rewrite Em.
    + cbn [cache_map set_map]. by rewrite lookup_insert_eq.
Qed.

(** *** [update_l2_table] *)

Lemma sec_mono t t' :
  start (dirty_info t') <= start (dirty_info t) -> end_ (dirty_info t) <= end_ (dirty_info t') ->
  sec_lo t' <= sec_lo t /\ sec_hi t <= sec_hi t'.
Proof.
  intros Hs He. unfold sec_lo, sec_hi. split; apply Z.mul_le_mono_nonneg_r; try lia; apply Z.div_le_mono; lia.
Qed.

Section update.
Context (own : Z -> Prop) (blk : Z -> option Z) (c : Qcow2Cache) (f : F) (k : Z) (l : nat) (t : CacheTable) (idx v : Z).
Context (He : l2_env own blk) (Hi : l2_inv own blk c f) (Hown : own k) (Hk : cache_map c !! k = Some l).
Context (Ht : tables c !! l = Some t) (Hx : 0 <= idx /\ 8 * idx + 8 <= cs).
Let t' := mkTable (mkDirty true (Z.min (start (dirty_info t)) (8 * idx)) (Z.max (end_ (dirty_info t)) (8 * idx + 8)))
            (lru_count t) (addr t) 8 (splice (table_data t) (Z.to_nat (8 * idx)) (be_bytes 8 v)).
Let c' := let c1 := set_tables (<[l := t']> (tables c)) c in if is_dirty (dirty_info t) then c1 else add_dirty_table l c1.

Lemma update_cell : cell_ok cs blk f k t /\ addr t = k /\ length (table_data t') = length (table_data t) /\
  Z.of_nat (length (table_data t)) = cs /\ is_bytes (table_data t') /\
  (0 <= start (dirty_info t') < end_ (dirty_info t') /\ end_ (dirty_info t') <= cs) /\
  (forall i, ~ in_dirty t' (Z.of_nat i) -> ~ in_dirty t (Z.of_nat i) /\ table_data t' !! i = table_data t !! i).
Proof.
  destruct (cell_of _ _ _ _ _ _ Hi Hk) as (t0 & Ht0 & Hok). rewrite Ht in Ht0. injection Ht0 as <-.
  pose proof (co_len _ _ _ _ _ Hok) as Hl. pose proof (li_key _ _ _ _ Hi k l t Hk Ht) as Ha.
  assert (0 <= Z.min (start (dirty_info t)) (8 * idx) /\ Z.max (end_ (dirty_info t)) (8 * idx + 8) <= cs) as [Hs1 Hs2].
  { pose proof (co_dirty _ _ _ _ _ Hok) as Hd. destruct (is_dirty (dirty_info t)); [lia|]. rewrite Hd. simpl. unfold U64_MAX. lia. }
  split_and!; try done; cbn [t' table_data dirty_info start end_]; try lia.
  - apply splice_length. rewrite be_bytes_length. lia.
  - apply is_bytes_splice; [apply Hok|apply be_bytes_is_bytes].
  - intros i Hn. unfold in_dirty in *. cbn [t' dirty_info start end_] in *. split; [lia|].
    rewrite lookup_splice by (rewrite be_bytes_length; lia). rewrite be_bytes_length. case_decide; [lia|done].
Qed.

Lemma update_view : cache_inv cs blk (settle c') f /\ (forall k0, k0 <> k -> view cs blk c' f k0 = view cs blk c f k0) /\
  view cs blk c' f k = Some (table_data t').
Proof.
  destruct update_cell as (Hok & Ha & Hlen & Hl & Hby & Hr & Hs).
  assert (tables (settle c) !! l = Some t) as Hts by by rewrite (settle_mapped c k l).
  destruct (write_inv cs blk (settle c) f k l t t' k) as (Hc & Hv1 & Hv2); try done; [apply Hi|by apply He|].
  set (c2 := let c1 := set_tables (<[l := t']> (tables (settle c))) (settle c) in
             if is_dirty (dirty_info t) then c1 else add_dirty_table l c1).
  change (cache_inv cs blk c2 f) in Hc. change (forall k0, k0 <> k -> view cs blk c2 f k0 = view cs blk (settle c) f k0) in Hv1.
  change (view cs blk c2 f k = Some (table_data t')) in Hv2.
  assert (settle c' = c2) as E.
  { assert (mapped c' l = true) as Hm by (apply mapped_spec; exists k; unfold c'; by destruct (is_dirty (dirty_info t))).
    apply cache_eq; [unfold c', c2; by destruct (is_dirty (dirty_info t))..|]. intros l'. rewrite settle_lookup. unfold settle_cell.
    assert (mapped c' l' = mapped c l') as Em by (unfold c'; by destruct (is_dirty (dirty_info t))).
    assert (tables c' !! l' = <[l := t']> (tables c) !! l') as -> by (unfold c'; by destruct (is_dirty (dirty_info t))).
    transitivity (<[l := t']> (tables (settle c)) !! l'); [|unfold c2; by destruct (is_dirty (dirty_info t))].
    destruct (decide (l' = l)) as [->|Hne]; [by rewrite !lookup_insert_eq; simpl; rewrite Hm|].
    rewrite !lookup_insert_ne, settle_lookup by done. unfold settle_cell. by rewrite Em. }
  rewrite E. split_and!; [done|intros k0 Hk0; by rewrite <-settle_view, E, Hv1, settle_view|by rewrite <-settle_view, E].
Qed.

(** The changed table is the last of its address to be written. *)
Lemma update_replay bytes i b x :
  view cs blk c' f x = Some bytes -> bytes !! i = Some b -> replay (tables c') (dirty_tables c') (bcontent f) (x + Z.of_nat i) = b.
Proof.
  intros Hv Hib. destruct update_cell as (Hok & Ha & Hlen & Hl & Hby & Hr & Hs). destruct update_view as (_ & Hv1 & Hv2).
  pose proof Hi as [Hc Hnd Hli Hky Hla Hre]. pose proof (le_own _ _ He k Hown) as Hbk.
  assert (listed_ok own t') as Hli' by (constructor; [done|exact Hr|cbn [t' table_data] in *; lia|done|by rewrite <-Ha in Hown]).
  assert (tables c' = <[l := t']> (tables c)) as Et by (unfold c'; by destruct (is_dirty (dirty_info t))).
  assert (forall ls g y, l ∉ ls -> replay (tables c') ls g y = replay (tables c) ls g y) as Hsame.
  { intros ls g y Hnl. apply replay_tables. intros l' Hl'. rewrite Et, lookup_insert_ne; [done|]. by intros ->. }
  assert (exists p q, dirty_tables c' = (p ++ l :: q) /\ (l ∉ p) /\ (l ∉ q) /\
    (forall l' u, l' ∈ q -> tables c !! l' = Some u -> addr u <> k) /\
    ((is_dirty (dirty_info t) = true /\ dirty_tables c = (p ++ l :: q)) \/ is_dirty (dirty_info t) = false /\ q = [] /\ dirty_tables c = p))
    as (p & q & Eq & Hnp & Hnq & Hq & Hold).
  { destruct (is_dirty (dirty_info t)) eqn:Ed.
    - assert (l ∈ dirty_tables c) as Hin.
      { apply (ci_listed _ _ _ _ Hc k l Hk). unfold cell_dirty. by rewrite (settle_mapped c k l), Ht. }
      destruct (Hla k l Hk Hin) as (p & q & E & Hq). exists p, q. rewrite E in Hnd.
      apply NoDup_app in Hnd as (_ & Hd & [? _]%NoDup_cons). unfold c'. cbn [dirty_tables set_tables].
      split_and!; [done| |done|done|by left]. intros Hp. apply (Hd l Hp). by left.
    - assert (l ∉ dirty_tables c) as Hnl.
      { intros Hin. destruct (Hli l Hin) as (u & Hu & Hok'). rewrite Ht in Hu. injection Hu as <-. pose proof (lk_dirty _ _ Hok'). congruence. }
      exists (dirty_tables c), []. unfold c'. cbn [dirty_tables set_tables add_dirty_table]. split_and!; [done|done|apply not_elem_of_nil|..|by right].
      intros l' u Hl'. by apply elem_of_nil in Hl'. }
  assert (forall y, k <= y < k + cs -> replay (tables c') (dirty_tables c') (bcontent f) y = over t' (replay (tables c) p (bcontent f)) y) as Hmain.
  { intros y Hy. rewrite Eq, replay_app. cbn [replay]. rewrite Et, lookup_insert_eq, <-Et. rewrite Hsame by done.
    rewrite replay_apart; [apply over_ext; by rewrite Hsame|]. intros l' u Hl' Hu. eapply listed_apart; [done| |exact Hbk|done|by eapply Hq].
    destruct Hold as [[_ E]|(_ & -> & _)]; [|by apply elem_of_nil in Hl'].
    destruct (Hli l') as (u' & Hu' & ?); [rewrite E; apply elem_of_app; right; by right|]. congruence. }
  destruct (decide (x = k)) as [->|Hne].
  - rewrite Hv2 in Hv. apply (inj Some) in Hv. subst bytes. pose proof (lookup_lt_Some _ _ _ Hib) as Hlt. rewrite Hlen in Hlt.
    rewrite Hmain by lia. assert (addr t' = k) as Ha' by exact Ha. unfold over. rewrite Ha'.
    case_decide as Hcov; [replace (Z.to_nat _) with i by lia; by apply nth_lookup_Some|].
    destruct (sec_bounds t' cs Hcs (proj1 Hr) (proj2 Hr)) as (Hb1 & Hb2 & _).
    destruct (Hs i) as [_ Eti]; [unfold in_dirty; lia|]. rewrite Eti in Hib.
    assert (view cs blk c f k = Some (table_data t)) as Hvk by (unfold view, cached; rewrite Hbk, Hk; simpl; by rewrite Ht).
    rewrite <-(Hre k _ i b Hvk Hib). destruct Hold as [[Ed E]|(_ & -> & ->)]; [|done]. rewrite E, replay_app. cbn [replay]. rewrite Ht.
    rewrite (replay_apart _ q); [unfold over; rewrite decide_False; [done|]|].
    + destruct (sec_mono t t') as [? ?]; [cbn [t' dirty_info start]; lia|cbn [t' dirty_info end_]; lia|]. rewrite Ha. lia.
    + intros l' u Hl' Hu. eapply listed_apart; [done| |exact Hbk|lia|by eapply Hq].
      destruct (Hli l') as (u' & Hu' & ?); [rewrite E; apply elem_of_app; right; by right|]. congruence.
  - rewrite Hv1 in Hv by done. rewrite <-(Hre x bytes i b Hv Hib). destruct (view_block _ _ _ _ _ _ Hi Hv) as [_ Hbl].
    apply lookup_lt_Some in Hib. destruct (blk x) as [a|] eqn:Ea; [|unfold view in Hv; by rewrite Ea in Hv].
    pose proof (le_id _ _ He _ _ Ea). subst a.
    assert (forall g, over t' g (x + Z.of_nat i) = g (x + Z.of_nat i)) as Hov'.
    { intros g. unfold over. rewrite decide_False; [done|]. eapply listed_apart; [done..|lia|]. change (addr t') with (addr t). congruence. }
    rewrite Eq, replay_app. cbn [replay]. rewrite Et, lookup_insert_eq, <-Et, Hsame by done.
    destruct Hold as [[Ed E]|(_ & -> & ->)]; [|cbn [replay]; by rewrite Hov', Hsame]. rewrite E, replay_app. cbn [replay]. rewrite Ht.
    apply replay_ext. rewrite Hov', Hsame by done. unfold over. rewrite decide_False; [done|].
    eapply listed_apart; [done| |exact Ea|lia|congruence]. destruct (Hli l) as (u' & Hu' & ?); [rewrite E; apply elem_of_app; right; by left|]. congruence.
Qed.

Lemma update_l2_inv : l2_inv own blk c' f.
Proof.
  destruct update_cell as (Hok & Ha & Hlen & Hl & Hby & Hr & _). destruct update_view as (Hc' & _ & _).
  pose proof Hi as [Hc Hnd Hli Hky Hla _].
  assert (listed_ok own t') as Hli' by (constructor; [done|exact Hr|cbn [t' table_data] in *; lia|done|by rewrite <-Ha in Hown]).
  assert (tables c' = <[l := t']> (tables c) /\ cache_map c' = cache_map c) as [Et Em] by (unfold c'; by destruct (is_dirty (dirty_info t))).
  assert (is_dirty (dirty_info t) = true /\ dirty_tables c' = dirty_tables c \/
    is_dirty (dirty_info t) = false /\ (l ∉ dirty_tables c) /\ dirty_tables c' = dirty_tables c ++ [l]) as Hd.
  { unfold c'. destruct (is_dirty (dirty_info t)) eqn:Ed; [by left|right]. split_and!; try done.
    intros Hin. destruct (Hli l Hin) as (u & Hu & Hok'). rewrite Ht in Hu. injection Hu as <-. pose proof (lk_dirty _ _ Hok'). congruence. }
  assert (forall k0 l0, cache_map c !! k0 = Some l0 -> k0 <> k -> l0 <> l) as Hne.
  { intros k0 l0 Hk0 Hkk ->. apply Hkk. by apply (key_inj own blk c f k0 k l). }
  constructor; rewrite ?Em; try done.
  - destruct Hd as [[_ ->]|(_ & Hnl & ->)]; [done|]. apply NoDup_app. split_and!; [done| |apply NoDup_singleton].
    intros l0 Hl0 Hs. apply list_elem_of_singleton in Hs. by subst.
  - intros l0 Hl0. rewrite Et. destruct (decide (l0 = l)) as [->|Hn]; [rewrite lookup_insert_eq; by exists t'|].
    rewrite lookup_insert_ne by done. apply Hli. destruct Hd as [[_ E]|(_ & _ & E)]; rewrite E in Hl0; [done|].
    apply elem_of_app in Hl0 as [?|?%list_elem_of_singleton]; done.
  - intros k0 l0 u Hk0. rewrite Et. destruct (decide (l0 = l)) as [->|Hn].
    + rewrite lookup_insert_eq. intros [= <-]. change (addr t') with (addr t). by eapply Hky.
    + rewrite lookup_insert_ne by done. by apply Hky.
  - intros k0 l0 Hk0 Hl0. destruct Hd as [[Ed E]|(_ & Hnl & E)]; rewrite E in *.
    + destruct (Hla k0 l0 Hk0 Hl0) as (p & q & Eq & Hq). exists p, q. split; [done|]. intros l' u Hl'. rewrite Et.
      destruct (decide (l' = l)) as [->|Hn]; [|rewrite lookup_insert_ne by done; by apply Hq].
      rewrite lookup_insert_eq. intros [= <-]. change (addr t') with (addr t). by eapply Hq.
    + destruct (decide (l0 = l)) as [->|Hn].
      * exists (dirty_tables c), []. split; [done|]. intros l' u Hl'. by apply elem_of_nil in Hl'.
      * apply elem_of_app in Hl0 as [Hl0|?%list_elem_of_singleton]; [|done].
        destruct (Hla k0 l0 Hk0 Hl0) as (p & q & Eq & Hq). exists p, (q ++ [l]). rewrite Eq, <-app_assoc. split; [done|].
        intros l' u. rewrite elem_of_app, list_elem_of_singleton, Et. intros [Hl'| ->].
        -- assert (l' <> l) by (intros ->; apply Hnl; rewrite Eq; apply elem_of_app; right; by right).
           rewrite lookup_insert_ne by done. by apply Hq.
        -- rewrite lookup_insert_eq. intros [= <-]. change (addr t') with (addr t). rewrite Ha. intros <-. apply Hn. congruence.
  - intros k0 bytes i b. apply update_replay.
Qed.
End update.

Lemma update_l2_spec own blk tb c f k l idx v bytes :
  l2_env own blk -> l2_inv own blk c f -> own k -> cache_map c !! k = Some l -> 0 <= idx -> 8 * idx + 8 <= cs -> cs < 2 ^ 32 ->
  view cs blk c f k = Some bytes ->
  exists c', update_l2_table l idx v (set_l2_cache c tb, f) = ((set_l2_cache c' tb, f), Ok tt) /\ l2_inv own blk c' f /\
    (forall k0, k0 <> k -> view cs blk c' f k0 = view cs blk c f k0) /\
    view cs blk c' f k = Some (splice bytes (Z.to_nat (8 * idx)) (be_bytes 8 v)) /\ cache_map c' = cache_map c.
Proof.
  intros He Hi Hown Hk Hx1 Hx2 Hc32 Hv. destruct (cell_of _ _ _ _ _ _ Hi Hk) as (t & Ht & Hok).
  destruct (update_view own blk c f k l t idx v He Hi Hown Hk Ht (conj Hx1 Hx2)) as (_ & Hv1 & Hv2).
  pose proof (update_l2_inv own blk c f k l t idx v He Hi Hown Hk Ht (conj Hx1 Hx2)) as Hi'.
  assert (bytes = table_data t) as ->.
  { unfold view, cached in Hv. rewrite (le_own _ _ He k Hown), Hk in Hv. simpl in Hv. rewrite Ht in Hv. by injection Hv. }
  set (t' := mkTable _ _ _ _ _) in *. set (c' := let c1 := set_tables (<[l := t']> (tables c)) c in
    if is_dirty (dirty_info t) then c1 else add_dirty_table l c1) in *.
  exists c'. split_and!; [|exact Hi'|exact Hv1|exact Hv2|unfold c'; by destruct (is_dirty (dirty_info t))].
  unfold update_l2_table. assert (t_read l (set_l2_cache c tb, f) = ((set_l2_cache c tb, f), Ok t)) as Hr by (unfold t_read; simpl; by rewrite Ht).
  rewrite (sres_step _ _ _ _ _ Hr). rewrite set_entry64, slift_Ok_bind;
    [|apply Hok|lia|rewrite (co_len _ _ _ _ _ Hok); lia]. fold t'.
  assert (t_write l t' (set_l2_cache c tb, f) = ((set_l2_cache (set_tables (<[l := t']> (tables c)) c) tb, f), @Ok unit _ tt)) as Hw by done.
  rewrite (sres_step _ _ _ _ _ Hw). unfold c'. by destruct (is_dirty (dirty_info t)).
Qed.

(** *** Flushing *)

Lemma write_over own blk f t :
  l2_env own blk -> file_ok cs blk f -> listed_ok own t ->
  exists f', write_dirty_info (addr t) (table_data t) (start (dirty_info t)) (end_ (dirty_info t)) f = (f', Ok tt) /\
    (forall x, bcontent f' x = over t (bcontent f) x) /\ changed_in (in_own own) f f'.
Proof.
  intros He [Hh Hal Hin] [Hd [Hr1 Hr2] Hl Hb Ho]. pose proof (le_own _ _ He _ Ho) as Hbk.
  destruct (proj1 (le_blocks _ _ He) _ _ Hbk) as [Ha0 Ha1]. specialize (Hin _ _ Hbk).
  destruct (sec_bounds t cs Hcs Hr1 Hr2) as (Hlo & Hhi & _).
  rewrite write_dirty_sectors by (rewrite ?Hl; done || lia). set (buf := slice _ _ _).
  assert (Z.of_nat (length buf) = sec_hi t - sec_lo t) as Hbl by (subst buf; rewrite slice_length; lia).
  destruct (write_buffer (addr t + sec_lo t) buf f) as [f' r] eqn:Ew.
  apply write_buffer_law in Ew as (Wout & _ & _ & Wok & Wh); [|by apply is_bytes_slice|intros Hn; rewrite Hn in Hbl; simpl in Hbl; lia|lia|lia].
  destruct Wh as (Hh' & -> & Hl'); [done..|right; lia|]. exists f'. split; [done|]. split.
  - intros x. unfold over. case_decide as Hx.
    + specialize (Wok eq_refl (Z.to_nat (x - (addr t + sec_lo t)))). replace (addr t + sec_lo t + _) with x in Wok by lia.
      apply Wok. subst buf. rewrite lookup_slice, decide_True by lia.
      replace (_ + _)%nat with (Z.to_nat (x - addr t)) by lia.
      destruct (table_data t !! Z.to_nat (x - addr t)) as [b|] eqn:E; [by rewrite (nth_lookup_Some _ _ _ _ E)|].
      apply lookup_ge_None in E. lia.
    + apply Wout. lia.
  - constructor; [|rewrite Hl'; lia|done]. intros x Hx. apply Wout. intros Hxx. apply Hx. exists (addr t). split; [done|lia].
Qed.

Lemma flush_loop_l2 own blk ls ts f :
  l2_env own blk -> file_ok cs blk f -> NoDup ls -> (forall l, l ∈ ls -> exists t, ts !! l = Some t /\ listed_ok own t) ->
  exists f' ts', flush_loop ls ts (Ok tt) f = (f', ts', Ok tt) /\ (forall x, bcontent f' x = replay ts ls (bcontent f) x) /\
    changed_in (in_own own) f f' /\
    (forall l, ts' !! l = if decide (l ∈ ls) then clear_dirty <$> ts !! l else ts !! l).
Proof.
  intros He. revert ts f. induction ls as [|l ls IH]; intros ts f Hf Hnd Hts; cbn [flush_loop].
  { exists f, ts. split_and!; try done. by apply changed_in_refl; destruct Hf. }
  apply NoDup_cons in Hnd as [Hnl Hnd]. destruct (Hts l ltac:(by left)) as (t & Ht & Hok). rewrite Ht.
  rewrite (lk_dirty _ _ Hok). destruct (write_over own blk f t He Hf Hok) as (f1 & -> & Hc1 & Hch1).
  destruct (IH (<[l := clear_dirty t]> ts) f1) as (f' & ts' & -> & Hc & Hch & Hl); [by eapply file_ok_changed|done| |].
  { intros l' Hl'. rewrite lookup_insert_ne by (by intros ->). apply Hts. by right. }
  exists f', ts'. split_and!; [done| |by eapply changed_in_trans|].
  - intros x. rewrite Hc. cbn [replay]. rewrite Ht. erewrite (replay_ext _ _ _ (over t (bcontent f))) by apply Hc1.
    apply replay_tables. intros l' Hl'. rewrite lookup_insert_ne; [done|]. by intros ->.
  - intros l'. rewrite Hl. destruct (decide (l' = l)) as [->|Hne].
    + rewrite decide_False, lookup_insert_eq, decide_True by (done || by left). by rewrite Ht.
    + rewrite lookup_insert_ne by done. destruct (decide (l' ∈ ls)) as [Hin|Hin].
      * by rewrite decide_True by by right.
      * rewrite decide_False; [done|]. by rewrite elem_of_cons; intros [?|?].
Qed.

Lemma flush_l2_spec own blk tb c f :
  l2_env own blk -> file_ok cs blk f -> l2_inv own blk c f ->
  exists c' f', table_flush (set_l2_cache c tb, f) = ((set_l2_cache c' tb, f'), Ok tt) /\ l2_inv own blk c' f' /\
    (forall k, view cs blk c' f' k = view cs blk c f k) /\ changed_in (in_own own) f f' /\
    (forall k, blk k = Some k -> view cs blk c' f' k = Some (ztab (bcontent f') k (Z.to_nat cs))).
Proof.
  intros He Hf Hi. pose proof Hi as [Hc Hnd Hli Hky Hla Hre].
  destruct (flush_loop_l2 own blk (dirty_tables c) (tables c) f He Hf Hnd Hli) as (f' & ts' & Hfl & Hcont & Hch & Hts).
  set (c' := mkCache (max_size c) (cache_lru c) (cache_map c) [] ts' (next_cell c)).
  assert (forall k l t, cache_map c !! k = Some l -> tables c !! l = Some t -> ts' !! l = Some (clear_dirty t)) as Hcl.
  { intros k l t Hk Ht. rewrite Hts, Ht. case_decide as Hd; [done|]. destruct (cell_of _ _ _ _ _ _ Hi Hk) as (t0 & Ht0 & Hok).
    rewrite Ht in Ht0. injection Ht0 as <-. rewrite clear_clean; [done|]. pose proof (co_dirty _ _ _ _ _ Hok) as Hdi.
    destruct (is_dirty (dirty_info t)) eqn:Ed; [|done]. exfalso. apply Hd. apply (ci_listed _ _ _ _ Hc k l Hk).
    unfold cell_dirty. by rewrite (settle_mapped c k l), Ht. }
  assert (forall k, view cs blk c' f' k = view cs blk c f k) as Hv.
  { intros k. destruct (view cs blk c f k) as [bytes|] eqn:Ev; unfold view in *; destruct (blk k) as [a|] eqn:Ea; simpl in *; try done.
    f_equal. unfold cached in *. change (cache_map c') with (cache_map c). destruct (cache_map c !! k) as [l|] eqn:Ek; simpl in *.
    - destruct (cell_of _ _ _ _ _ _ Hi Ek) as (t & Ht & _). rewrite Ht in Ev. change (tables c') with ts'. rewrite (Hcl k l t Ek Ht).
      by injection Ev.
    - pose proof (le_id _ _ He _ _ Ea). subst a. injection Ev as <-. apply ztab_ext. intros i Hi'. rewrite Hcont.
      rewrite <-(Z2Nat.id i) by lia. apply (Hre k (ztab (bcontent f) k (Z.to_nat cs))); [by rewrite Ea, Ek|rewrite ztab_lookup by lia; done]. }
  assert (forall k bytes i b, view cs blk c' f' k = Some bytes -> bytes !! i = Some b -> bcontent f' (k + Z.of_nat i) = b) as Hdisk.
  { intros k bytes i b Hvk Hib. rewrite Hv in Hvk. rewrite Hcont. by eapply Hre. }
  exists c', f'. split_and!; [unfold table_flush, cache_flush; cbn [set_l2_cache l2_table_cache]; by rewrite Hfl| |done|done|].
  - constructor; try done.
    + constructor; [|exact (ci_inj _ _ _ _ Hc)| | | |exact (ci_lru _ _ _ _ Hc)|exact (ci_max _ _ _ _ Hc)|].
      * intros k l Hk. destruct (cell_of _ _ _ _ _ _ Hi Hk) as (t & Ht & [E1 E2 E3 E4 E5 E6]). exists (clear_dirty t).
        rewrite (settle_mapped c' k l Hk). split; [exact (Hcl k l t Hk Ht)|]. constructor; try done.
        destruct (blk k) as [a|] eqn:Ea; [|done]. destruct E6 as [Eaddr _]. split; [done|]. intros i b Hib _.
        pose proof (le_id _ _ He _ _ Ea) as ->. apply (Hdisk k (table_data t)); [|done]. rewrite Hv. unfold view, cached.
        change (cache_map (settle c')) with (cache_map c) in Hk. rewrite Ea, Hk. simpl. by rewrite Ht.
      * intros k l Hk Hd. exfalso. destruct (cell_of _ _ _ _ _ _ Hi Hk) as (t & Ht & _). unfold cell_dirty in Hd.
        rewrite (settle_mapped c' k l Hk) in Hd. change (tables c') with ts' in Hd. by rewrite (Hcl k l t Hk Ht) in Hd.
      * intros l Hl. by apply elem_of_nil in Hl.
      * intros l [t Hl]. change (next_cell (settle c')) with (next_cell (settle c)). apply (ci_next _ _ _ _ Hc).
        rewrite settle_lookup. rewrite settle_lookup in Hl. change (tables c') with ts' in Hl. rewrite Hts in Hl.
        destruct (tables c !! l); [by eexists|]. by case_decide.
      * intros l Hl. by apply elem_of_nil in Hl.
    + constructor.
    + intros l Hl. by apply elem_of_nil in Hl.
    + intros k l t Hk Ht. destruct (cell_of _ _ _ _ _ _ Hi Hk) as (t0 & Ht0 & _). change (tables c') with ts' in Ht.
      rewrite (Hcl k l t0 Hk Ht0) in Ht. injection Ht as <-. simpl. by eapply Hky.
    + intros k l _ Hl. by apply elem_of_nil in Hl.
  - intros k Hbk. destruct (view cs blk c' f' k) as [bytes|] eqn:Ev; [|unfold view in Ev; by rewrite Hbk in Ev]. f_equal.
    rewrite Hv in Ev. destruct (view_block _ _ _ _ _ _ Hi Ev) as [_ Hlen].
    apply list_eq_same_length with (length bytes); [rewrite ztab_length; lia|done|]. intros i x y Hlt Hx Hy.
    rewrite ztab_lookup in Hy by lia. injection Hy as <-. symmetry. apply (Hdisk k bytes); [by rewrite Hv|done].
Qed.
End l2.
