(* ===== verification/Qcow2Driver.v ===== *)
(** * The qcow2 driver ([block_backend/src/qcow2/mod.rs])

    Address translation, allocation, and the requests of the guest: reads,
    writes, discards, zero writes and flushes; internal snapshots; creating
    and opening an image.  The state is the mapping tables, the snapshot
    table, and the header, reference counts and file of [Qcow2Refcount.v].
    Guest requests also act on host memory. *)
From stdpp Require Import prelude list gmap.
From Stdlib Require Import ZArith Lia.
From S2P Require Import Prelude NumOps Qcow2Header SyncAio Qcow2Io FileDriver Qcow2Cache Qcow2Refcount Qcow2Snapshot Qcow2Table.

Definition MAX_L1_SIZE : Z := 32 * 2 ^ 20.
Definition METADATA_OVERLAP_CHECK_MAINHEADER : Z := Z.shiftl 1 0.
Definition METADATA_OVERLAP_CHECK_ACTIVEL1 : Z := Z.shiftl 1 1.
Definition METADATA_OVERLAP_CHECK_ACTIVEL2 : Z := Z.shiftl 1 2.
Definition METADATA_OVERLAP_CHECK_REFCOUNTTABLE : Z := Z.shiftl 1 3.
Definition METADATA_OVERLAP_CHECK_REFCOUNTBLOCK : Z := Z.shiftl 1 4.
Definition METADATA_OVERLAP_CHECK_SNAPSHOTTABLE : Z := Z.shiftl 1 5.
Definition METADATA_OVERLAP_CHECK_INACTIVEL1 : Z := Z.shiftl 1 6.
Definition DEFAULT_QCOW2_METADATA_OVERLAP_CHECK : Z :=
  Z.lor (Z.lor (Z.lor (Z.lor (Z.lor (Z.lor METADATA_OVERLAP_CHECK_MAINHEADER METADATA_OVERLAP_CHECK_ACTIVEL1)
    METADATA_OVERLAP_CHECK_ACTIVEL2) METADATA_OVERLAP_CHECK_REFCOUNTTABLE) METADATA_OVERLAP_CHECK_REFCOUNTBLOCK)
    METADATA_OVERLAP_CHECK_SNAPSHOTTABLE) METADATA_OVERLAP_CHECK_INACTIVEL1.

Inductive HostRange := DataNotInit (n : Z) | DataAddress (start n : Z).

Section driver.
Context `{!HashIter} {F : Type} `{!BlockIo F, !DataIo F}.

(** ** State *)

Record Qcow2Driver := mkDrv { table : Qcow2Table; snapshot : InternalSnapshot; rs : rst F }.
Abbreviation M := (sres Qcow2Driver unit).
Abbreviation header d := (hdr (rs d)).
Abbreviation refcount d := (rc (rs d)).
Abbreviation dfile d := (rf (rs d)).

Definition dget {A} (g : Qcow2Driver -> A) : M A := fun d => (d, Ok (g d)).
Definition on_rs {A} (m : sres (rst F) unit A) : M A := fun d =>
  let '(s, r) := m (rs d) in (mkDrv (table d) (snapshot d) s, r).
Definition on_table {A} (m : sres (Qcow2Table * F) unit A) : M A := fun d =>
  let '((t, f), r) := m (table d, dfile d) in (mkDrv t (snapshot d) (mkRst (header d) (refcount d) f), r).
Definition on_snap {A} (m : sres (InternalSnapshot * F) unit A) : M A := fun d =>
  let '((sn, f), r) := m (snapshot d, dfile d) in (mkDrv (table d) sn (mkRst (header d) (refcount d) f), r).
Definition on_dfile {A} (m : F -> F * qres A) : M A := on_rs (on_file m).
Definition set_header (h : QcowHeader) : M unit := fun d =>
  (mkDrv (table d) (snapshot d) (mkRst h (refcount d) (dfile d)), Ok tt).

Definition drv_offset_into_cluster (d : Qcow2Driver) (guest_offset : Z) : Z :=
  Z.land guest_offset (wsub 64 (cluster_size (header d)) 1).
Definition virtual_disk_size (d : Qcow2Driver) : Z := size (header d).
Definition cluster_aligned_bytes (d : Qcow2Driver) (addr cnt : Z) : Z :=
  Z.min cnt (wsub 64 (cluster_size (header d)) (drv_offset_into_cluster d addr)).

Definition drv_flush : M unit := _ ← on_table table_flush; on_rs flush.
Definition drv_drop_dirty_caches : M unit := _ ← on_table drop_dirty_l2; on_rs drop_dirty_caches.

Definition load_cluster (addr : Z) : M (list Z) :=
  h ← dget (fun d => header d);
  if negb (is_aligned (cluster_size h) addr) then sfail tt else on_dfile (read_buffer addr (cluster_size h)).

(** ** Overlap with metadata *)

(** [unwrap] of [ranges_overlap], over a list of ranges. *)
Fixpoint overlaps (offset size : Z) (ranges : list (Z * Z)) : qres bool :=
  match ranges with
  | [] => Ok false
  | (start, len) :: ranges =>
    b ← unwrap_res (ranges_overlap offset size start len);
    if b : bool then Ok true else overlaps offset size ranges
  end.
(** One check: its result when it applies and finds an overlap. *)
Definition overlap_check (check bit offset size : Z) (ranges : list (Z * Z)) (rest : qres Z) : qres Z :=
  if Z.land check bit =? 0 then rest
  else b ← overlaps offset size ranges; if b : bool then Ok bit else rest.

Definition check_overlap (ignore offset size : Z) (d : Qcow2Driver) : qres Z :=
  let h := header d in
  let cs := cluster_size h in
  let check := Z.land DEFAULT_QCOW2_METADATA_OVERLAP_CHECK (wnot 64 ignore) in
  if check =? 0 then Ok 0
  else if negb (Z.land check METADATA_OVERLAP_CHECK_MAINHEADER =? 0) && (offset <? cs)
  then Ok METADATA_OVERLAP_CHECK_MAINHEADER
  else
    size ← unwrap_res (round_up (wadd 64 (offset_into_cluster (refcount d) offset) size) cs);
    let offset := start_of_cluster (refcount d) offset in
    if wsub 64 U64_MAX offset <? size then Ok (-1)
    else
      overlap_check check METADATA_OVERLAP_CHECK_ACTIVEL1 offset size
        (if l1_size h =? 0 then [] else [(l1_table_offset h, wmul 64 (l1_size h) ENTRY_SIZE)])
      (overlap_check check METADATA_OVERLAP_CHECK_ACTIVEL2 offset size
        ((fun e => (Z.land e L1_TABLE_OFFSET_MASK, cs)) <$> l1_table (table d))
      (overlap_check check METADATA_OVERLAP_CHECK_REFCOUNTTABLE offset size
        [(refcount_table_offset h, wmul 64 (refcount_table_clusters h) cs)]
      (overlap_check check METADATA_OVERLAP_CHECK_REFCOUNTBLOCK offset size
        ((fun e => (Z.land e REFCOUNT_TABLE_OFFSET_MASK, cs)) <$> refcount_table (refcount d))
      (overlap_check check METADATA_OVERLAP_CHECK_SNAPSHOTTABLE offset size
        [(snapshot_table_offset (snapshot d), snapshot_size (snapshot d))]
      (overlap_check check METADATA_OVERLAP_CHECK_INACTIVEL1 offset size
        ((fun s => (snap_l1_table_offset s, wmul 64 (snap_l1_size s) ENTRY_SIZE)) <$> snapshots (snapshot d))
      (Ok 0)))))).

(** ** Allocation *)

(** Clears clusters [i, i + n) by writing. *)
Fixpoint write_zero_clusters (n : nat) (i addr cs : Z) : M unit :=
  match n with
  | O => mret tt
  | S n =>
    _ ← on_dfile (write_buffer (wadd 64 addr (wmul 64 i cs)) (replicate (Z.to_nat cs) 0));
    write_zero_clusters n (i + 1) addr cs
  end.

Definition alloc_cluster (clusters : Z) (write_zero : bool) : M Z :=
  r ← dget (fun d => refcount d);
  _ ← (if bool_decide (discard_list r = []) then mret tt else on_rs sync_process_discards);
  cs ← dget (fun d => cluster_size (header d));
  let size := wmul 64 clusters cs in
  addr ← on_rs (alloc_clusters_with_ref size);
  d ← dget id;
  ret ← slift (check_overlap 0 addr size d);
  if negb (ret =? 0) then sfail tt
  else
    inside ← (if write_zero then end_ ← on_dfile disk_size; mret (addr <? end_) else mret false);
    _ ← (if inside : bool then
           ret ← on_dfile (fun f => let '(f, ret) := zero_range addr size f in (f, Ok ret));
           if ret <? 0 then write_zero_clusters (Z.to_nat clusters) 0 addr cs else mret tt
         else mret tt);
    _ ← on_dfile (extend_len (wadd 64 addr size));
    mret addr.

Definition free_cluster (addr clusters : Z) (flush_ : bool) (dt : Qcow2DiscardType) : M unit :=
  on_rs (update_refcount addr clusters (-1) flush_ dt).

Definition qcow2_free_cluster (l2_entry : Z) (dt : Qcow2DiscardType) : M unit :=
  match get_cluster_type l2_entry with
  | ZeroAlloc | Normal =>
    let offset := Z.land l2_entry L2_TABLE_OFFSET_MASK in
    cs ← dget (fun d => cluster_size (header d));
    if negb (is_aligned cs offset) then sfail tt else free_cluster offset 1 false dt
  | Compressed => sfail tt
  | _ => mret tt
  end.

(** ** L2 entries *)

(** [Rc::new(RefCell::new(CacheTable::new(addr, data, ENTRY_SIZE_U64)?))] *)
Definition new_l2_table (addr : Z) (data : list Z) : M nat :=
  ct ← slift (CacheTable_new addr data ENTRY_SIZE_U64);
  on_table (t_cache (new_cell ct)).
Definition l2_get (l : nat) (l2_index : Z) : M Z :=
  ct ← on_table (t_read l);
  slift (get_entry_map ct l2_index).

Definition get_l2_entry (guest_offset : Z) : M Z :=
  t ← dget table;
  let l2_index := get_l2_table_index t guest_offset in
  entry ← on_table (get_l2_table_cache_entry guest_offset);
  match entry with
  | Some l => l2_get l l2_index
  | None =>
    l1_entry ← slift (get_l1_table_entry t guest_offset);
    let l2_address := Z.land l1_entry L1_TABLE_OFFSET_MASK in
    if l2_address =? 0 then sfail tt
    else
      l2_cluster ← load_cluster l2_address;
      l ← new_l2_table l2_address l2_cluster;
      res ← l2_get l l2_index;
      _ ← on_table (cache_l2_table l);
      mret res
  end.

(** The loop of [get_continuous_address]: [cnt] clusters agree with the first
    one; each turn takes one more, up to [clusters]. *)
Fixpoint continuous_loop (fuel : nat) (begin clusters cnt host_start : Z) (first : Qcow2ClusterType)
  : M (Z * Qcow2ClusterType * Z) := fun d =>
  if clusters <=? cnt then (d, Ok (cnt, first, host_start))
  else match fuel with
  | O => (d, Panic)
  | S fuel =>
    (cs ← dget (fun d => cluster_size (header d));
     let offset := wmul 64 cnt cs in
     l2_entry ← get_l2_entry (wadd 64 begin offset);
     let cluster_type := get_cluster_type l2_entry in
     let cluster_addr := Z.land l2_entry L2_TABLE_OFFSET_MASK in
     if cnt =? 0 then continuous_loop fuel begin clusters (cnt + 1) cluster_addr cluster_type
     else if negb (cluster_addr =? wadd 64 host_start offset) || negb (bool_decide (cluster_type = first))
     then mret (cnt, first, host_start)
     else continuous_loop fuel begin clusters (cnt + 1) host_start first) d
  end.

Definition get_continuous_address (guest_offset expect_len : Z) : M (Qcow2ClusterType * Z * Z) :=
  cs ← dget (fun d => cluster_size (header d));
  begin ← slift (round_down guest_offset cs);
  end_ ← slift (round_up (wadd 64 guest_offset expect_len) cs);
  let clusters := wsub 64 end_ begin / cs in
  if clusters =? 0 then sfail tt
  else
    '(cnt, first_cluster_type, host_start) ← continuous_loop (Z.to_nat clusters) begin clusters 0 0 Unallocated;
    off ← dget (fun d => drv_offset_into_cluster d guest_offset);
    let sz := wsub 64 (wmul 64 cnt cs) off in
    mret (first_cluster_type, wadd 64 host_start off, Z.min expect_len sz).

Definition host_offset_for_read (guest_offset req_len : Z) : M HostRange :=
  d ← dget id;
  let l2_max_len := get_l2_table_max_remain_size (table d) guest_offset (drv_offset_into_cluster d guest_offset) in
  let size := Z.min req_len l2_max_len in
  l1_entry ← slift (get_l1_table_entry (table d) guest_offset);
  if Z.land l1_entry L1_TABLE_OFFSET_MASK =? 0 then mret (DataNotInit size)
  else
    '(cluster_type, host_start, bytes) ← get_continuous_address guest_offset size;
    mret (if is_read_zero cluster_type then DataNotInit bytes else DataAddress host_start bytes).

(** ** Writing *)

(** Replaces the L2 table of an L1 entry that is shared, or makes the first
    one; returns its address. *)
Definition new_l2_for (guest_offset l1_index l1_entry : Z) : M Z :=
  let old_l2_offset := Z.land l1_entry L1_TABLE_OFFSET_MASK in
  new_l2_offset ← alloc_cluster 1 false;
  entry ← on_table (get_l2_table_cache_entry guest_offset);
  cs ← dget (fun d => cluster_size (header d));
  l2_cluster ← (match entry with
                | Some l => ct ← on_table (t_read l); mret (table_data ct)
                | None => if negb (old_l2_offset =? 0) then load_cluster old_l2_offset
                          else mret (replicate (Z.to_nat cs) 0)
                end);
  _ ← on_dfile (write_buffer new_l2_offset l2_cluster);
  l ← new_l2_table new_l2_offset l2_cluster;
  _ ← on_table (cache_l2_table l);
  _ ← on_table (t_upd (update_l1_table l1_index (Z.lor new_l2_offset QCOW2_OFFSET_COPIED)));
  _ ← on_table save_l1_table;
  _ ← (if negb (old_l2_offset =? 0) then on_rs (update_refcount old_l2_offset 1 (-1) true DOther) else mret tt);
  mret new_l2_offset.

Definition get_table_cluster (guest_offset : Z) : M nat :=
  d ← dget id;
  let l1_index := get_l1_table_index (table d) guest_offset in
  if l1_size (header d) <=? l1_index then sfail tt
  else
    l1_entry ← slift (get_l1_table_entry (table d) guest_offset);
    let l2_address := Z.land l1_entry L1_TABLE_OFFSET_MASK in
    if negb (Z.land l2_address (wsub 64 (cluster_size (header d)) 1) =? 0) then sfail tt
    else
      l2_address ← (if Z.land l1_entry QCOW2_OFFSET_COPIED =? 0 then new_l2_for guest_offset l1_index l1_entry
                    else mret l2_address);
      entry ← on_table (t_cache (cache_get l2_address));
      match entry with
      | Some l => mret l
      | None =>
        l2_cluster ← load_cluster l2_address;
        l ← new_l2_table l2_address l2_cluster;
        _ ← on_table (cache_l2_table l);
        mret l
      end.

Definition host_offset_for_write (guest_offset nbytes : Z) : M Z :=
  t ← dget table;
  let l2_index := get_l2_table_index t guest_offset in
  l2_table ← get_table_cluster guest_offset;
  old_l2_entry ← l2_get l2_table l2_index;
  let l2_entry := Z.land old_l2_entry (wnot 64 QCOW2_OFLAG_ZERO) in
  let cluster_addr := Z.land l2_entry L2_TABLE_OFFSET_MASK in
  '(l2_entry, cluster_addr, need_check) ←
    (if cluster_addr =? 0 then
       new_addr ← alloc_cluster 1 true;
       mret (Z.lor new_addr QCOW2_OFFSET_COPIED, Z.land new_addr L2_TABLE_OFFSET_MASK, false)
     else if Z.land l2_entry QCOW2_OFFSET_COPIED =? 0 then
       new_data_addr ← alloc_cluster 1 true;
       cs ← dget (fun d => cluster_size (header d));
       _ ← (if nbytes <? cs then
              data ← load_cluster cluster_addr;
              on_dfile (write_buffer new_data_addr data)
            else mret tt);
       _ ← on_rs (update_refcount cluster_addr 1 (-1) false DOther);
       mret (Z.lor new_data_addr QCOW2_OFFSET_COPIED, Z.land new_data_addr L2_TABLE_OFFSET_MASK, false)
     else mret (l2_entry, cluster_addr, true));
  d ← dget id;
  ret ← (if need_check : bool then slift (check_overlap 0 cluster_addr nbytes d) else mret 0);
  if negb (ret =? 0) then sfail tt
  else
    _ ← (if negb (l2_entry =? old_l2_entry) then on_table (update_l2_table l2_table l2_index l2_entry) else mret tt);
    off ← dget (fun d => drv_offset_into_cluster d guest_offset);
    mret (wadd 64 cluster_addr off).

(** A write of at most a cluster, outside of the queue of requests. *)
Definition sync_write_bytes (guest_offset : Z) (buf : list Z) : M unit :=
  d ← dget id;
  let n := Z.of_nat (length buf) in
  if (cluster_size (header d) <? n) || (virtual_disk_size d <? wadd 64 guest_offset n) then sfail tt
  else
    host_offset ← host_offset_for_write guest_offset n;
    on_dfile (write_buffer host_offset buf).

(** ** Discarding and zeroing clusters *)

(** The loop of [discard_in_l2_slice] over entries [i, i + n). *)
Fixpoint discard_loop (n : nat) (l : nat) (i : Z) (dt : Qcow2DiscardType) : M unit :=
  match n with
  | O => mret tt
  | S n =>
    old_l2_entry ← l2_get l i;
    version ← dget (fun d => version (header d));
    let new_l2_entry :=
      if is_allocated (get_cluster_type old_l2_entry) then (if 3 <=? version then QCOW2_OFLAG_ZERO else 0)
      else old_l2_entry in
    _ ← (if new_l2_entry =? old_l2_entry then mret tt
         else _ ← on_table (update_l2_table l i new_l2_entry); qcow2_free_cluster old_l2_entry dt);
    discard_loop n l (wadd 64 i 1) dt
  end.
Definition discard_in_l2_slice (guest_offset nb_cluster : Z) (dt : Qcow2DiscardType) : M Z :=
  d ← dget id;
  let l2_index := get_l2_table_index (table d) guest_offset in
  let l2_slice_size := wshr 64 (cluster_size (header d)) ENTRY_BITS in
  let nb_cluster := Z.min nb_cluster (wsub 64 l2_slice_size l2_index) in
  l ← get_table_cluster guest_offset;
  _ ← discard_loop (Z.to_nat nb_cluster) l l2_index dt;
  mret nb_cluster.

Fixpoint zero_loop (n : nat) (l : nat) (i : Z) : M unit :=
  match n with
  | O => mret tt
  | S n =>
    old_l2_entry ← l2_get l i;
    let unmap := is_allocated (get_cluster_type old_l2_entry) in
    let new_l2_entry := Z.lor (if unmap then 0 else old_l2_entry) QCOW2_OFLAG_ZERO in
    _ ← (if new_l2_entry =? old_l2_entry then mret tt
         else
           _ ← on_table (update_l2_table l i new_l2_entry);
           if unmap then qcow2_free_cluster old_l2_entry DRequest else mret tt);
    zero_loop n l (wadd 64 i 1)
  end.
Definition zero_in_l2_slice (guest_offset nb_cluster : Z) : M Z :=
  d ← dget id;
  if version (header d) <? 3 then discard_in_l2_slice guest_offset nb_cluster DRequest
  else
    let l2_index := get_l2_table_index (table d) guest_offset in
    let l2_slice_size := wshr 64 (cluster_size (header d)) ENTRY_BITS in
    let nb_cluster := Z.min nb_cluster (wsub 64 l2_slice_size l2_index) in
    l ← get_table_cluster guest_offset;
    _ ← zero_loop (Z.to_nat nb_cluster) l l2_index;
    mret nb_cluster.

(** A loop over the slices of a range: an error ends it, but is only
    logged.  Each turn clears at least one cluster. *)
Fixpoint slices (fuel : nat) (slice : Z -> Z -> M Z) (nb_cluster guest_offset : Z) : M unit := fun d =>
  if nb_cluster <=? 0 then (d, Ok tt)
  else match fuel with
  | O => (d, Panic)
  | S fuel =>
    match slice guest_offset nb_cluster d with
    | (d, Ok cleared) =>
      slices fuel slice (wsub 64 nb_cluster cleared)
        (wadd 64 guest_offset (wmul 64 cleared (cluster_size (header d)))) d
    | (d, Err _) => (d, Ok tt)
    | (d, Panic) => (d, Panic)
    end
  end.

Definition qcow2_cluster_write_zeroes (offset nbytes : Z) : M unit :=
  cs ← dget (fun d => cluster_size (header d));
  if negb (is_aligned cs (Z.lor offset nbytes)) then mret tt
  else
    nb_cluster ← slift (bytes_to_clusters nbytes cs);
    _ ← slices (Z.to_nat nb_cluster) zero_in_l2_slice nb_cluster offset;
    _ ← signore (on_table table_flush);
    signore (on_rs flush).

(** ** Guest requests *)

(** The driver and host memory. *)
Record gst := mkG { drv : Qcow2Driver; gmem : hmem }.
Abbreviation G := (sres gst unit).
Definition on_drv {A} (m : M A) : G A := fun g => let '(d, r) := m (drv g) in (mkG d (gmem g), r).
Definition on_io {A} (m : sres (io F) unit A) : G A := fun g =>
  let '(s, r) := m (mkIo (gmem g) (dfile (drv g))) in
  (mkG (mkDrv (table (drv g)) (snapshot (drv g)) (mkRst (header (drv g)) (refcount (drv g)) (file s))) (mem s), r).
Definition on_mem (m : hmem -> hmem) : G unit := fun g => (mkG (drv g) (m (gmem g)), Ok tt).

Definition check_request (offset nbytes : Z) (d : Qcow2Driver) : qres unit :=
  if virtual_disk_size d <? offset then Err tt
  else
    end_ ← ok_or (checked_add 64 offset nbytes) tt;
    if virtual_disk_size d <? end_ then Err tt else Ok tt.

(** The loop of [read_vectored]; every turn makes progress. *)
Fixpoint read_loop (fuel : nat) (offset nbytes copied : Z) (left : list Iovec) (req_list : list CombineRequest)
  : G (list CombineRequest) := fun g =>
  if nbytes <=? copied then (g, Ok req_list)
  else match fuel with
  | O => (g, Panic)
  | S fuel =>
    (range ← on_drv (host_offset_for_read (wadd 64 offset copied) (wsub 64 nbytes copied));
     match range with
     | DataAddress host_offset cnt =>
       let '(begin, end_) := iovecs_split left cnt in
       read_loop fuel offset nbytes (wadd 64 copied cnt) end_ (req_list ++ [mkReq begin host_offset cnt])
     | DataNotInit cnt =>
       let '(begin, end_) := iovecs_split left cnt in
       _ ← on_mem (iovec_write_zero begin);
       read_loop fuel offset nbytes (wadd 64 copied cnt) end_ req_list
     end) g
  end.

(** The result is the values the completion function is called with. *)
Definition read_vectored (iovec : list Iovec) (offset : Z) : G (list Z) :=
  let nbytes := get_iov_size iovec in
  _ ← on_drv (d ← dget id; slift (check_request offset nbytes d));
  req_list ← read_loop (Z.to_nat nbytes) offset nbytes 0 iovec [];
  on_io (driver_read_vectored req_list).

(** Appends [count] bytes at [host_offset], joining the last request when they
    follow it. *)
Definition push_request (host_offset count : Z) (req_list : list CombineRequest) : list CombineRequest :=
  match last req_list with
  | Some end_ =>
    if wadd 64 (req_offset end_) (req_nbytes end_) =? host_offset
    then removelast req_list ++ [mkReq (req_iov end_) (req_offset end_) (wadd 64 (req_nbytes end_) count)]
    else req_list ++ [mkReq [] host_offset count]
  | None => req_list ++ [mkReq [] host_offset count]
  end.
Fixpoint write_loop (fuel : nat) (offset nbytes copied : Z) (req_list : list CombineRequest)
  : M (list CombineRequest) := fun d =>
  if nbytes <=? copied then (d, Ok req_list)
  else match fuel with
  | O => (d, Panic)
  | S fuel =>
    (let pos := wadd 64 offset copied in
     count ← dget (fun d => cluster_aligned_bytes d pos (wsub 64 nbytes copied));
     host_offset ← host_offset_for_write pos count;
     write_loop fuel offset nbytes (wadd 64 copied count) (push_request host_offset count req_list)) d
  end.
(** Gives the requests their buffers. *)
Fixpoint assign_iovs (left : list Iovec) (req_list : list CombineRequest) : list CombineRequest :=
  match req_list with
  | [] => []
  | req :: req_list =>
    let '(begin, end_) := iovecs_split left (req_nbytes req) in
    mkReq begin (req_offset req) (req_nbytes req) :: assign_iovs end_ req_list
  end.

Definition write_vectored (iovec : list Iovec) (offset : Z) : G (list Z) :=
  let nbytes := get_iov_size iovec in
  _ ← on_drv (d ← dget id; slift (check_request offset nbytes d));
  req_list ← on_drv (write_loop (Z.to_nat nbytes) offset nbytes 0 []);
  if bool_decide (req_list = []) then sfail tt
  else on_io (driver_write_vectored (assign_iovs iovec req_list)).

Definition datasync : G Z := _ ← signore (on_drv drv_flush); on_io driver_datasync.

(** The discards noted by the reference counts, as one request; its failure is
    only logged. *)
Definition process_discards (op : G (list Z)) : G unit :=
  _ ← signore (_ ← op; mret tt);
  on_drv (on_rs (modify (set_discards []))).
Definition discard_requests (r : RefCount) : list CombineRequest :=
  (fun t => mkReq [] (task_offset t) (task_nbytes t)) <$> discard_list r.

Definition qcow2_cluster_discard (offset nbytes : Z) : G unit :=
  bits ← on_drv (dget (fun d => cluster_bits (header d)));
  let nb_cluster := wshr 64 nbytes bits in
  _ ← on_drv (slices (Z.to_nat nb_cluster) (fun off nb => discard_in_l2_slice off nb DRequest) nb_cluster offset);
  _ ← on_drv (signore (on_table table_flush));
  _ ← on_drv (signore (on_rs flush));
  reqs ← on_drv (dget (fun d => discard_requests (refcount d)));
  process_discards (on_io (driver_discard reqs)).

Definition qcow2_discard (offset nbytes : Z) : G unit :=
  d ← on_drv (dget id);
  let file_size := size (header d) in
  let align_size := cluster_size (header d) in
  let offset_start := Z.min offset file_size in
  let offset_end := Z.min (wadd 64 offset nbytes) file_size in
  bytes ← slift (ok_or (checked_sub offset_end offset_start) tt);
  let head_align := (align_size - offset_start `mod` align_size) `mod` align_size in
  let tail_align := offset_end `mod` align_size in
  let bytes := if bytes <=? head_align + tail_align then 0 else bytes - head_align - tail_align in
  qcow2_cluster_discard (wadd 64 offset_start head_align) bytes.

(** The loop of [write_zeroes]: the unaligned head, the aligned middle, the
    unaligned tail.  An error ends it, but is only logged. *)
Fixpoint zeroes_loop (fuel : nat) (total_bytes offset_start head tail align_size : Z) : M unit := fun d =>
  if total_bytes <=? 0 then (d, Ok tt)
  else match fuel with
  | O => (d, Panic)
  | S fuel =>
    let num := if negb (head =? 0) then Z.min total_bytes (align_size - head)
               else if negb (tail =? 0) && (align_size <? total_bytes) then total_bytes - tail else total_bytes in
    let head := if negb (head =? 0) then (head + num) `mod` align_size else head in
    let step := if negb (is_aligned align_size (Z.lor offset_start num))
                then sync_write_bytes offset_start (replicate (Z.to_nat num) 0)
                else qcow2_cluster_write_zeroes offset_start num in
    match step d with
    | (d, Ok _) => zeroes_loop fuel (total_bytes - num) (wadd 64 offset_start num) head tail align_size d
    | (d, Err _) => (d, Ok tt)
    | (d, Panic) => (d, Panic)
    end
  end.

Definition qcow2_write_zeroes (offset nbytes : Z) (unmap : bool) : G unit :=
  d ← on_drv (dget id);
  let file_size := size (header d) in
  let align_size := cluster_size (header d) in
  let offset_start := Z.min offset file_size in
  let offset_end := Z.min (wadd 64 offset_start nbytes) file_size in
  total_bytes ← slift (ok_or (checked_sub offset_end offset_start) tt);
  _ ← on_drv (zeroes_loop (Z.to_nat total_bytes) total_bytes offset_start (offset_start `mod` align_size)
                (offset_end `mod` align_size) align_size);
  reqs ← on_drv (dget (fun d => discard_requests (refcount d)));
  process_discards (on_io (driver_write_zeroes reqs unmap)).
End driver.
Arguments Qcow2Driver : clear implicits.
Arguments gst : clear implicits.
