(* ===== verification/Qcow2Mapping.v ===== *)
(** * What a qcow2 image stands for

    [guest] is the disk the guest sees: the byte at an offset, through the L1
    table, the L2 tables as the cache has them, and the file.  [drv_ok] is the
    invariant of the driver: every cluster of the file has at most one role
    and is counted, and the tables are in the file.  It also says that no
    cluster is compressed, and that the host file serves the requests that lie
    within its length ([bhealthy], in [layout_ok]). *)
From stdpp Require Import prelude list gmap.
From Stdlib Require Import ZArith Lia.
From S2P Require Import Prelude NumOps Qcow2Header SyncAio Qcow2Io FileDriver Qcow2Cache Qcow2CacheSpec Qcow2Refcount Qcow2RefcountSpec Qcow2RefcountUpdate Qcow2RefcountAlloc Qcow2ClusterAlloc Qcow2Snapshot Qcow2Table Qcow2L2Spec Qcow2Driver.

(** ** L1 entries *)

Definition l2addr (e : Z) : Z := Z.land e L1_TABLE_OFFSET_MASK.
Definition copied (e : Z) : bool := negb (Z.land e QCOW2_OFFSET_COPIED =? 0).
Definition l2blk (l1 : list Z) (k : Z) : option Z :=
  if bool_decide (k <> 0 /\ k ∈ l2addr <$> l1) then Some k else None.
Definition l2own (l1 : list Z) (k : Z) : Prop := exists i e, l1 !! i = Some e /\ l2addr e = k /\ copied e = true /\ k <> 0.

Lemma l2blk_Some l1 k a : l2blk l1 k = Some a <-> a = k /\ k <> 0 /\ exists i e, l1 !! i = Some e /\ l2addr e = k.
Proof.
  unfold l2blk. case_bool_decide as Hd.
  - destruct Hd as [Hk (e & -> & [i Hi]%list_elem_of_lookup)%list_elem_of_fmap]. split; [intros [= <-]; eauto 10|naive_solver].
  - split; [done|]. intros (-> & Hk & i & e & Hi & <-). destruct Hd. split; [done|]. apply list_elem_of_fmap. exists e.
    split; [done|]. by eapply list_elem_of_lookup_2.
Qed.

Section mapping.
Context `{!HashIter} {F : Type} `{!BlockIo F, !BlockIoLaws F}.
Implicit Types d : Qcow2Driver F.

Abbreviation hd d := (hdr (rs d)).
Abbreviation fl d := (rf (rs d)).
Abbreviation l1 d := (l1_table (table d)).
Abbreviation csz d := (rc_cluster_size (rc (rs d))).
Abbreviation cnt d := (refcount_of (rs d)).
(** Entries of an L2 table. *)
Abbreviation n2 d := (csz d / 8).

(** ** The guest disk *)

Definition l2bytes d (k : Z) : option (list Z) := view (csz d) (l2blk (l1 d)) (l2_table_cache (table d)) (fl d) k.
(** The L2 entry of a guest cluster; 0 where there is no table. *)
Definition entry_at d (c : Z) : Z :=
  match l1 d !! Z.to_nat (c / n2 d) with
  | Some e => match l2bytes d (l2addr e) with Some bytes => entry64 bytes (c `mod` n2 d) | None => 0 end
  | None => 0
  end.
Definition host_of (e : Z) : option Z :=
  if bool_decide (get_cluster_type e = Normal) then Some (Z.land e L2_TABLE_OFFSET_MASK) else None.
Definition host d (c : Z) : option Z := host_of (entry_at d c).
(** The cluster an entry keeps: that of its data, or the one behind a zero
    cluster that has a place. *)
Definition place_of (e : Z) : option Z :=
  if bool_decide (get_cluster_type e = Normal \/ get_cluster_type e = ZeroAlloc)
  then Some (Z.land e L2_TABLE_OFFSET_MASK) else None.
Definition place d (c : Z) : option Z := place_of (entry_at d c).
Definition guest d (x : Z) : Z :=
  match host d (x / csz d) with Some a => bcontent (fl d) (a + x `mod` csz d) | None => 0 end.

(** ** Roles of clusters *)

Inductive role := RHeader | RTable | RBlock (k : Z) | RL1 | RL2 (i : nat) | RData (c : Z) | RSnap.

(** The cluster [cl] meets a range of the file. *)
Definition meets d (cl off len : Z) : Prop := cl * csz d < off + len /\ off < (cl + 1) * csz d /\ 0 < len.
Definition uses d (r : role) (cl : Z) : Prop :=
  match r with
  | RHeader => cl = 0
  | RTable => rt_offset (rc (rs d)) <= cl * csz d < rt_offset (rc (rs d)) + rt_size (rc (rs d)) * 8
  | RBlock k => blk_of (refcount_table (rc (rs d))) k = Some (cl * csz d)
  | RL1 => meets d cl (l1_table_offset (hd d)) (8 * l1_size (hd d))
  | RL2 i => exists e, l1 d !! i = Some e /\ l2addr e = cl * csz d /\ cl <> 0
  | RData c => 0 <= c < l1_size (hd d) * n2 d /\ place d c = Some (cl * csz d)
  | RSnap => meets d cl (snapshot_table_offset (snapshot d)) (snapshot_size (snapshot d)) \/
      exists s, s ∈ snapshots (snapshot d) /\ meets d cl (snap_l1_table_offset s) (8 * snap_l1_size s)
  end.

(** A range of the file that is within its length and below the bound of
    addresses. *)
Definition in_file d (a len : Z) : Prop := 0 <= a /\ a + len <= blen (fl d) /\ a + len < 2 ^ 61.

(** Entries with a place have one in the file.  There are no compressed
    clusters. *)
Definition entry_ok d (e : Z) : Prop :=
  match get_cluster_type e with
  | Unallocated | ZeroPlain => True
  | Normal | ZeroAlloc => let a := Z.land e L2_TABLE_OFFSET_MASK in (csz d | a) /\ in_file d a (csz d)
  | Compressed => False
  end.

(** The geometry the parts of the driver agree on. *)
Record shape_ok d : Prop := mkShape {
  s_bits : cluster_bits (hd d) = rc_cluster_bits (rc (rs d));
  s_tbits : t_cluster_bits (table d) = cluster_bits (hd d);
  s_tsize : t_cluster_size (table d) = csz d;
  s_l2bits : l2_bits (table d) = cluster_bits (hd d) - 3;
  s_l2size : l2_size (table d) = n2 d;
  s_l1off : t_l1_table_offset (table d) = l1_table_offset (hd d);
  s_l1len : Z.of_nat (length (l1 d)) = l1_size (hd d);
  s_rt : refcount_table_offset (hd d) = rt_offset (rc (rs d)) /\ refcount_table_clusters (hd d) = rt_clusters (rc (rs d));
  s_size : 0 <= size (hd d) < 2 ^ 61 /\ size (hd d) <= l1_size (hd d) * n2 d * csz d;
  (** Every counted cluster has an address that fits into a table entry. *)
  s_cover : cover (rs d) * csz d <= 2 ^ 56
}.

Record drv_ok d : Prop := mkDrvOk {
  k_shape : shape_ok d;
  k_image : image_ok (rs d);
  k_l1u : Forall is_u64 (l1 d);
  k_l1 : (csz d | l1_table_offset (hd d)) /\ in_file d (l1_table_offset (hd d)) (8 * l1_size (hd d));
  k_l1disk : forall i e, l1 d !! i = Some e ->
    ztab (bcontent (fl d)) (l1_table_offset (hd d) + 8 * Z.of_nat i) 8 = be_bytes 8 e;
  k_l2 : forall i e, l1 d !! i = Some e -> l2addr e <> 0 -> (csz d | l2addr e) /\ in_file d (l2addr e) (csz d);
  k_copied : forall i e, l1 d !! i = Some e -> copied e = true -> l2addr e <> 0;
  k_cache : l2_inv (csz d) (l2own (l1 d)) (l2blk (l1 d)) (l2_table_cache (table d)) (fl d);
  k_entry : forall c, 0 <= c < l1_size (hd d) * n2 d -> entry_ok d (entry_at d c);
  k_uses : forall r cl, uses d r cl -> cnt d cl <> 0;
  k_excl : forall r1 r2 cl, uses d r1 cl -> uses d r2 cl -> r1 = r2;
  k_snap : (0 <= snapshot_table_offset (snapshot d) /\ 0 <= snapshot_size (snapshot d) /\
            snapshot_table_offset (snapshot d) + snapshot_size (snapshot d) < 2 ^ 61 /\
            (csz d | snapshot_table_offset (snapshot d))) /\
    forall s, s ∈ snapshots (snapshot d) -> 0 <= snap_l1_table_offset s /\ 0 <= snap_l1_size s /\
      snap_l1_table_offset s + 8 * snap_l1_size s < 2 ^ 61 /\ (csz d | snap_l1_table_offset s)
}.

(** ** Geometry *)

Lemma drv_numbers d : drv_ok d ->
  9 <= cluster_bits (hd d) <= 21 /\ csz d = 2 ^ cluster_bits (hd d) /\ cluster_size (hd d) = csz d /\
  512 <= csz d <= 2097152 /\ (512 | csz d) /\ csz d = 8 * n2 d /\ 64 <= n2 d /\ 0 <= l1_size (hd d).
Proof.
  intros Hd. destruct (k_shape _ Hd) as [Eb _ _ _ _ _ El _ _ _]. pose proof (w_geo _ (i_wf _ (k_image _ Hd))) as Hg.
  pose proof (geo_numbers _ Hg) as (Hn & _ & _ & [q Hq]). destruct Hg as [Gb Gc _ _ _ _ _].
  assert (csz d = 8 * n2 d) as E8.
  { rewrite Hq. replace (q * 512) with (q * 64 * 8) by ring. rewrite Z.div_mul by lia. ring. }
  split_and!; rewrite ?Eb; try done; try lia; [|by exists q].
  rewrite cluster_size_pow by (rewrite Eb; lia). by rewrite Eb.
Qed.

Lemma l1_index d x : drv_ok d -> 0 <= x < 2 ^ 61 -> get_l1_table_index (table d) x = x / csz d / n2 d.
Proof.
  intros Hd Hx. destruct (drv_numbers d Hd) as (Hb & Ec & _ & Hn & _ & E8 & H64 & _). destruct (k_shape _ Hd) as [_ Et _ E2 _ _ _ _ _ _].
  unfold get_l1_table_index. rewrite Et, E2, wadd_small by (unfold inW; lia). unfold wshr. rewrite (Z.mod_small _ 64) by lia.
  rewrite Z.shiftr_div_pow2 by lia. rewrite Z.pow_add_r by lia. rewrite <-Ec, <-Z.div_div by lia. f_equal.
  assert (csz d = 8 * 2 ^ (cluster_bits (hd d) - 3)) by (rewrite Ec; change 8 with (2 ^ 3); rewrite <-Z.pow_add_r by lia; f_equal; lia). lia.
Qed.
Lemma l2_index d x : drv_ok d -> 0 <= x < 2 ^ 61 -> get_l2_table_index (table d) x = (x / csz d) `mod` n2 d.
Proof.
  intros Hd Hx. destruct (drv_numbers d Hd) as (Hb & Ec & _ & Hn & _ & E8 & H64 & _). destruct (k_shape _ Hd) as [_ Et _ _ E2 _ _ _ _ _].
  unfold get_l2_table_index. rewrite Et, E2. unfold wshr. rewrite (Z.mod_small _ 64), Z.shiftr_div_pow2 by lia. rewrite <-Ec.
  assert (n2 d = 2 ^ (cluster_bits (hd d) - 3)) as En.
  { assert (csz d = 8 * 2 ^ (cluster_bits (hd d) - 3)) by (rewrite Ec; change 8 with (2 ^ 3); rewrite <-Z.pow_add_r by lia; f_equal; lia). lia. }
  rewrite En. apply land_mask. lia.
Qed.
Lemma off_in_cluster d x : drv_ok d -> drv_offset_into_cluster d x = x `mod` csz d.
Proof.
  intros Hd. destruct (drv_numbers d Hd) as (Hb & Ec & Ecs & _). unfold drv_offset_into_cluster. rewrite Ecs, Ec. apply land_mask. lia.
Qed.
Lemma aligned_iff d x : drv_ok d -> is_aligned (cluster_size (hd d)) x = true <-> (csz d | x).
Proof.
  intros Hd. destruct (drv_numbers d Hd) as (Hb & Ec & Ecs & Hn & _). rewrite Ecs.
  rewrite is_aligned_mod by apply (w_geo _ (i_wf _ (k_image _ Hd))). rewrite Z.eqb_eq. apply Z.mod_divide. lia.
Qed.

(** An offset of the disk has an L1 entry. *)
Lemma l1_entry_of d x : drv_ok d -> 0 <= x < size (hd d) ->
  exists e, l1 d !! Z.to_nat (x / csz d / n2 d) = Some e /\ get_l1_table_entry (table d) x = Ok e /\
    0 <= x / csz d < l1_size (hd d) * n2 d /\ 0 <= x / csz d / n2 d < l1_size (hd d).
Proof.
  intros Hd Hx. destruct (drv_numbers d Hd) as (Hb & Ec & _ & Hn & _ & E8 & H64 & _). destruct (k_shape _ Hd) as [_ _ _ _ _ _ El _ [Hs1 Hs2] _].
  assert (0 <= x / csz d < l1_size (hd d) * n2 d) as Hc.
  { split; [apply Z.div_pos; lia|]. apply Z.div_lt_upper_bound; [lia|]. lia. }
  assert (0 <= x / csz d / n2 d < l1_size (hd d)) as Hi.
  { split; [apply Z.div_pos; lia|]. apply Z.div_lt_upper_bound; lia. }
  destruct (lookup_lt_is_Some_2 (l1 d) (Z.to_nat (x / csz d / n2 d))) as [e He]; [lia|]. exists e. split_and!; try lia; [done|].
  unfold get_l1_table_entry. rewrite l1_index by (done || lia). by rewrite He.
Qed.
(** ** Frames *)

Lemma l2_env_ok d : drv_ok d -> l2_env (csz d) (l2own (l1 d)) (l2blk (l1 d)).
Proof.
  intros Hd. destruct (drv_numbers d Hd) as (_ & _ & _ & Hn & _). constructor.
  - intros k a (-> & _)%l2blk_Some. done.
  - intros k (i & e & Hi & He & _ & Hk). apply l2blk_Some. eauto 10.
  - split.
    + intros k a (-> & Hk & i & e & Hi & <-)%l2blk_Some. destruct (k_l2 _ Hd i e Hi Hk) as (_ & ? & _ & ?). done.
    + intros k1 k2 a1 a2 (-> & Hk1 & i1 & e1 & Hi1 & <-)%l2blk_Some (-> & Hk2 & i2 & e2 & Hi2 & <-)%l2blk_Some Hne.
      apply aligned_apart; [lia| | |done]; by eapply k_l2.
Qed.
Lemma l2_file_ok d : drv_ok d -> file_ok (csz d) (l2blk (l1 d)) (fl d).
Proof.
  intros Hd. destruct (w_layout _ (i_wf _ (k_image _ Hd))) as [_ _ _ _ _ Hl Hh]. constructor; [done..|].
  intros k a (-> & Hk & i & e & Hi & <-)%l2blk_Some. by destruct (k_l2 _ Hd i e Hi Hk) as (_ & _ & ? & _).
Qed.

(** The image when the file changes outside of the refcount blocks. *)
Lemma image_file (s : rst F) f' :
  image_ok s -> (forall k a x, blk_of (refcount_table (rc s)) k = Some a -> a <= x < a + rc_cluster_size (rc s) ->
    bcontent f' x = bcontent (rf s) x) ->
  blen (rf s) <= blen f' -> (balign | blen f') -> bhealthy f' ->
  image_ok (mkRst (hdr s) (rc s) f') /\ forall c, refcount_of (mkRst (hdr s) (rc s) f') c = refcount_of s c.
Proof.
  intros [[Hg Hl Hc] Hm Hrt Hh Hdi Hfr] Hf Hle Hal Hhe. pose proof (geo_numbers _ Hg) as Hn.
  destruct (cache_inv_file (rc_cluster_size (rc s)) ltac:(lia) (blk_of (refcount_table (rc s))) (refcount_blk_cache (rc s)) (rf s) f')
    as [Hc' Hv]; [by apply wf_blocks|done..|].
  assert (forall c, refcount_of (mkRst (hdr s) (rc s) f') c = refcount_of s c) as Hcnt.
  { intros c. unfold refcount_of, sview. cbn [rc rf]. by rewrite Hv. }
  destruct Hl as [Lb Li (R1 & R2 & R3 & R4 & R5 & R6) La Lba Ll Lh].
  split; [|done]. constructor; cbn [rc rf] in *; try done.
  - constructor; [done| |done]. constructor; cbn [rc rf]; try done; [|split_and!; try done; lia].
    intros k a Ha. destruct (Lb k a Ha) as (? & ? & ? & ?). split_and!; try done. lia.
  - intros k a Ha. rewrite Hcnt. by eapply Hm.
  - intros c Hx. rewrite Hcnt. by apply Hrt.
  - by rewrite Hcnt.
  - eapply tasks_ok_mono; [|exact Hdi]. intros c. cbv beta. by rewrite Hcnt.
Qed.

(** The tables, and so the translation of addresses, are the same. *)
Record same_map d d' : Prop := mkSame {
  sm_hdr : hd d' = hd d;
  sm_snap : snapshot d' = snapshot d;
  sm_geo : geo (rc (rs d')) = geo (rc (rs d));
  sm_table : exists c', table d' = set_l2_cache c' (table d);
  sm_l2 : forall k, l2bytes d' k = l2bytes d k
}.
Lemma same_fields d d' : same_map d d' ->
  l1 d' = l1 d /\ csz d' = csz d /\ rt_offset (rc (rs d')) = rt_offset (rc (rs d)) /\
  rt_size (rc (rs d')) = rt_size (rc (rs d)) /\ refcount_table (rc (rs d')) = refcount_table (rc (rs d)) /\
  rt_clusters (rc (rs d')) = rt_clusters (rc (rs d)) /\ rc_cluster_bits (rc (rs d')) = rc_cluster_bits (rc (rs d)).
Proof.
  intros [_ _ Hg [c' Ht] _]. destruct (geo_fields _ _ Hg) as (? & ? & ? & ? & ? & ? & ? & _). rewrite Ht. by split_and!.
Qed.
Lemma same_refl d : same_map d d.
Proof. constructor; try done. exists (l2_table_cache (table d)). by destruct d as [[] ? ?]. Qed.
Lemma same_trans d1 d2 d3 : same_map d1 d2 -> same_map d2 d3 -> same_map d1 d3.
Proof.
  intros [H1 H2 H3 [c1 H4] H5] [G1 G2 G3 [c2 G4] G5]. constructor; [congruence..| |intros k; by rewrite G5].
  exists c2. by rewrite G4, H4.
Qed.
Lemma same_entry d d' c : same_map d d' -> entry_at d' c = entry_at d c.
Proof.
  intros Hs. destruct (same_fields d d' Hs) as (El & Ec & _). unfold entry_at. rewrite El, Ec.
  destruct (l1 d !! _); [|done]. by rewrite (sm_l2 _ _ Hs).
Qed.
Lemma same_host d d' c : same_map d d' -> host d' c = host d c.
Proof. intros Hs. unfold host. by rewrite (same_entry d d' c Hs). Qed.
Lemma same_place d d' c : same_map d d' -> place d' c = place d c.
Proof. intros Hs. unfold place. by rewrite (same_entry d d' c Hs). Qed.
Lemma host_of_place e a : host_of e = Some a -> place_of e = Some a.
Proof. unfold host_of, place_of. case_bool_decide; [|done]. rewrite bool_decide_eq_true_2 by by left. done. Qed.
Lemma same_uses d d' r cl : same_map d d' -> uses d' r cl <-> uses d r cl.
Proof.
  intros Hs. destruct (same_fields d d' Hs) as (El & Ec & Ero & Ers & Ert & _). pose proof (sm_hdr _ _ Hs) as Eh.
  pose proof (sm_snap _ _ Hs) as Esn.
  destruct r; unfold uses, meets; rewrite ?El, ?Ec, ?Ero, ?Ers, ?Ert, ?Eh, ?Esn, ?(same_place d d' _ Hs); done.
Qed.

(** Clusters of snapshots.  Those the guest shares with a snapshot: the flag of
    the entry that points to them says so, and they are counted for the snapshot
    too.  Clusters with a count and without a role belong to snapshots only, and
    so do the snapshot table and the L1 tables of snapshots. *)
Definition shared d (r : role) : Prop :=
  match r with
  | RData c => copied (entry_at d c) = false
  | RL2 i => forall e, l1 d !! i = Some e -> copied e = false
  | RSnap => True
  | _ => False
  end.
Definition frozen d (cl : Z) : Prop := cnt d cl <> 0 /\ forall r, uses d r cl -> shared d r /\ (r = RSnap \/ 2 <= cnt d cl).
(** The bytes of a cluster that are in the file. *)
Definition in_cluster d (cl x : Z) : Prop := cl * csz d <= x < (cl + 1) * csz d /\ x < blen (fl d).

Lemma frozen_same d d' cl : same_map d d' -> (cnt d cl <> 0 -> cnt d cl <= cnt d' cl) -> 0 <= cnt d cl -> frozen d cl -> frozen d' cl.
Proof.
  intros Hs Hc Hnn [Hne Hr]. specialize (Hc Hne). split; [lia|]. intros r Hu%(same_uses d d' r cl Hs). destruct (Hr r Hu) as [Hsh H2].
  split; [|destruct H2; [by left|right; lia]]. destruct r; try done; unfold shared in *; [|by rewrite (same_entry d d' _ Hs)].
  by destruct (same_fields d d' Hs) as (-> & _).
Qed.

(** The tables keep their places and the L1 table its contents; the contents of
    the other tables are looked after by the invariants of the two caches. *)
Lemma drv_frame_ok d d' :
  drv_ok d -> same_map d d' -> image_ok (rs d') ->
  l2_inv (csz d) (l2own (l1 d)) (l2blk (l1 d)) (l2_table_cache (table d')) (fl d') -> blen (fl d) <= blen (fl d') ->
  (forall r cl, uses d r cl -> cnt d' cl <> 0) ->
  (forall cl x, uses d RL1 cl -> in_cluster d cl x -> bcontent (fl d') x = bcontent (fl d) x) -> drv_ok d'.
Proof.
  intros Hd Hs Hi Hc Hl Hu Hp. destruct (drv_numbers d Hd) as (Hb & Epow & _ & Hn & _ & E8 & H64 & Hl1).
  destruct (same_fields d d' Hs) as (El & Ec & Ero & Ers & Ert & Erc & Eb). pose proof Hs as [Eh Esn _ [c' Et] Ev].
  assert (forall a len, in_file d a len -> in_file d' a len) as Hin by (intros a len (? & ? & ?); unfold in_file; lia).
  destruct (k_shape _ Hd) as [S1 S2 S3 S4 S5 S6 S7 S8 S9 S10]. constructor; rewrite ?El, ?Ec, ?Eh; try done.
  - destruct (geo_fields _ _ (sm_geo _ _ Hs)) as (_ & _ & Ebs & _).
    constructor; rewrite ?Et, ?Ec, ?Eh, ?Ero, ?Erc, ?Eb; try done. unfold cover in *. by rewrite Ers, Ebs.
  - apply Hd.
  - destruct (k_l1 _ Hd) as [? ?]. split; [done|]. by apply Hin.
  - intros i e Hie. rewrite <-(k_l1disk _ Hd i e Hie). apply ztab_ext. intros j Hj. set (x := _ + j). apply (Hp (x / csz d)).
    + pose proof (lookup_lt_Some _ _ _ Hie). unfold uses, meets. pose proof (Z.div_mod x (csz d) ltac:(lia)).
      pose proof (Z.mod_pos_bound x (csz d) ltac:(lia)). split_and!; nia.
    + pose proof (Z.div_mod x (csz d) ltac:(lia)). pose proof (Z.mod_pos_bound x (csz d) ltac:(lia)). split; [lia|].
      pose proof (lookup_lt_Some _ _ _ Hie). destruct (k_l1 _ Hd) as (_ & _ & ? & _). lia.
  - intros i e Hie Hne. destruct (k_l2 _ Hd i e Hie Hne). split; [done|]. by apply Hin.
  - apply Hd.
  - intros c Hcr. rewrite (same_entry d d' c Hs). pose proof (k_entry _ Hd c Hcr) as He. unfold entry_ok in *. rewrite Ec.
    destruct (get_cluster_type _); try done; destruct He as [? ?]; (split; [done|]); by apply Hin.
  - intros r cl Hr%(same_uses d d' _ _ Hs). by eapply Hu.
  - intros r1 r2 cl Hr1%(same_uses d d' _ _ Hs) Hr2%(same_uses d d' _ _ Hs). by eapply (k_excl _ Hd).
  - rewrite Esn. apply Hd.
Qed.

(** The place of a cluster. *)
Lemma place_in_file d c a : drv_ok d -> 0 <= c < l1_size (hd d) * n2 d -> place d c = Some a ->
  (csz d | a) /\ in_file d a (csz d).
Proof.
  intros Hd Hcr Ha. pose proof (k_entry _ Hd c Hcr) as He. unfold place, place_of in Ha. unfold entry_ok in He.
  case_bool_decide as Hty; [|done]. injection Ha as <-. destruct Hty as [Hty|Hty]; rewrite Hty in He; apply He.
Qed.
Lemma host_place d c a : drv_ok d -> 0 <= c < l1_size (hd d) * n2 d -> host d c = Some a ->
  (csz d | a) /\ in_file d a (csz d).
Proof.
  intros Hd Hcr Ha. apply (place_in_file d c a Hd Hcr). by apply host_of_place.
Qed.

Definition plain d (cl : Z) : Prop := uses d RL1 cl \/ exists c, uses d (RData c) cl.
Lemma drv_frame d d' :
  drv_ok d -> same_map d d' -> image_ok (rs d') ->
  l2_inv (csz d) (l2own (l1 d)) (l2blk (l1 d)) (l2_table_cache (table d')) (fl d') -> blen (fl d) <= blen (fl d') ->
  (forall r cl, uses d r cl -> cnt d' cl <> 0) ->
  (forall cl x, plain d cl -> in_cluster d cl x -> bcontent (fl d') x = bcontent (fl d) x) ->
  drv_ok d' /\ forall x, 0 <= x < l1_size (hd d) * n2 d * csz d -> guest d' x = guest d x.
Proof.
  intros Hd Hs Hi Hc Hl Hu Hp. destruct (drv_numbers d Hd) as (_ & _ & _ & Hn & _). destruct (same_fields d d' Hs) as (_ & Ec & _).
  split; [apply (drv_frame_ok d); try done; intros cl x Hr; apply (Hp cl); by left|].
  intros x Hx. unfold guest. rewrite Ec, (same_host d d' _ Hs). destruct (host d (x / csz d)) as [a|] eqn:Ha; [|done].
  assert (0 <= x / csz d < l1_size (hd d) * n2 d) as Hxc by (split; [apply Z.div_pos; lia|apply Z.div_lt_upper_bound; lia]).
  destruct (host_place d _ a Hd Hxc Ha) as ([q ->] & _ & ? & _). pose proof (Z.mod_pos_bound x (csz d) ltac:(lia)).
  apply (Hp q); [|split; lia]. right. exists (x / csz d). split; [done|]. by apply host_of_place.
Qed.
End mapping.
