(* ===== verification/Qcow2Read.v ===== *)
(** * Reading from a qcow2 image

    Address translation for reads and [read_vectored]: the buffers of the
    guest get the contents of the guest disk, and nothing else changes. *)
From stdpp Require Import prelude list gmap.
From Stdlib Require Import ZArith Lia.
From S2P Require Import Prelude NumOps Qcow2Header SyncAio Qcow2Io FileDriver Qcow2Cache Qcow2CacheSpec Qcow2Refcount Qcow2RefcountSpec Qcow2RefcountUpdate Qcow2RefcountAlloc Qcow2ClusterAlloc Qcow2Snapshot Qcow2Table Qcow2L2Spec Qcow2Driver Qcow2Mapping.

Section read.
Context `{!HashIter} {F : Type} `{!BlockIo F, !BlockIoLaws F}.
Implicit Types d : Qcow2Driver F.

Abbreviation hd d := (hdr (rs d)).
Abbreviation fl d := (rf (rs d)).
Abbreviation l1 d := (l1_table (table d)).
Abbreviation csz d := (rc_cluster_size (rc (rs d))).
Abbreviation cnt d := (refcount_of (rs d)).
Abbreviation n2 d := (csz d / 8).
Abbreviation lc d := (l2_table_cache (table d)).

(** The guest offsets the L1 table covers. *)
Definition span d : Z := l1_size (hd d) * n2 d * csz d.

(** ** What a step that only reads leaves *)

Record reads d d' : Prop := mkReads {
  rd_ok : drv_ok d';
  rd_same : same_map d d';
  rd_rc : rc (rs d') = rc (rs d);
  rd_cnt : forall c, cnt d' c = cnt d c;
  rd_guest : forall x, 0 <= x < span d -> guest d' x = guest d x;
  rd_frozen : forall cl x, frozen d cl -> in_cluster d cl x -> bcontent (fl d') x = bcontent (fl d) x;
  rd_len : blen (fl d') = blen (fl d)
}.
Lemma count_nonneg d c : drv_ok d -> 0 <= cnt d c.
Proof. intros Hd. apply (refcount_of_u16 _ c (i_wf _ (k_image _ Hd))). Qed.
Lemma reads_frozen d d' cl : reads d d' -> frozen d cl -> frozen d' cl.
Proof.
  intros Hr. pose proof (count_nonneg d' cl (rd_ok _ _ Hr)) as Hn. rewrite (rd_cnt _ _ Hr) in Hn.
  apply frozen_same; [apply Hr|by rewrite (rd_cnt _ _ Hr)|done].
Qed.
Lemma reads_refl d : drv_ok d -> reads d d.
Proof. intros. constructor; try done. apply same_refl. Qed.
Lemma reads_trans d1 d2 d3 : reads d1 d2 -> reads d2 d3 -> reads d1 d3.
Proof.
  intros Hr1 [K2 S2 R2 C2 G2 Z2 L2]. pose proof Hr1 as [_ S1 R1 C1 G1 Z1 L1].
  constructor; [done|by eapply same_trans|congruence|intros; by rewrite C2| | |congruence].
  - intros x Hx. rewrite G2, G1; [done..|]. unfold span. by rewrite (sm_hdr _ _ S1), R1.
  - intros cl x Hf Hx. rewrite (Z2 cl x), (Z1 cl x); try done; [by eapply reads_frozen|]. unfold in_cluster. by rewrite R1, L1.
Qed.

Definition with_l2 d c f : Qcow2Driver F := mkDrv (set_l2_cache c (table d)) (snapshot d) (mkRst (hd d) (rc (rs d)) f).
Lemma set_l2_self t : set_l2_cache (l2_table_cache t) t = t.
Proof. by destruct t. Qed.
Lemma with_l2_self d : with_l2 d (lc d) (fl d) = d.
Proof. by destruct d as [[] ? []]. Qed.
Lemma on_table_with {A} (m : sres (Qcow2Table * F) unit A) d c f r :
  m (table d, fl d) = ((set_l2_cache c (table d), f), r) -> on_table m d = (with_l2 d c f, r).
Proof. intros E. unfold on_table. by rewrite E. Qed.

(** A change in the L2 tables of the file that the cache accounts for. *)
Lemma l2_frame d c' f' :
  drv_ok d -> l2_inv (csz d) (l2own (l1 d)) (l2blk (l1 d)) c' f' ->
  (forall k, view (csz d) (l2blk (l1 d)) c' f' k = l2bytes d k) ->
  changed_in (in_own (csz d) (l2own (l1 d))) (fl d) f' -> reads d (with_l2 d c' f').
Proof.
  intros Hd Hi Hv [Ho Hl Hh]. destruct (drv_numbers d Hd) as (_ & _ & _ & Hn & _).
  assert (forall cl x, (forall i e, uses d (RL2 i) cl -> l1 d !! i = Some e -> copied e = false) -> in_cluster d cl x ->
    bcontent f' x = bcontent (fl d) x) as Hsafe.
  { intros cl x Hne [Hx _]. apply Ho. intros (k & (i & e & Hie & Hea & Hco & Hk) & Ha).
    destruct (k_l2 _ Hd i e Hie ltac:(congruence)) as ([q Hq] & Hpos & _ & _). rewrite Hea in Hq, Hpos. subst k.
    assert (cl = q) as -> by nia. rewrite (Hne i e) in Hco; [done| |done]. exists e. split_and!; [done..|]. intros ->. lia. }
  assert (forall r cl x, uses d r cl -> (forall i, r <> RL2 i) -> in_cluster d cl x -> bcontent f' x = bcontent (fl d) x) as Hout.
  { intros r cl x Hr Hne Hx. apply (Hsafe cl); [|done]. intros i e Hu. destruct (Hne i). by apply (k_excl _ Hd _ _ cl). }
  destruct (image_file (rs d) f') as [Him Hcnt]; [apply Hd| |lia| |done|].
  { intros k a x Ha Hx. destruct (l_blocks _ (w_layout _ (i_wf _ (k_image _ Hd))) k a Ha) as ([q Hq] & _ & _ & ?).
    apply (Hout (RBlock k) q); [by rewrite Hq in Ha|done|split; lia]. }
  { rewrite Hl. apply (w_layout _ (i_wf _ (k_image _ Hd))). }
  assert (same_map d (with_l2 d c' f')) as Hs by (constructor; try done; by exists c').
  destruct (drv_frame d (with_l2 d c' f') Hd Hs) as [Hok Hg]; [done|done|cbn [rs rf with_l2]; lia| | |].
  - intros r cl Hr. cbn [rs with_l2]. rewrite Hcnt. by eapply k_uses.
  - intros cl x [Hp|[c Hp]] Hx; by eapply Hout.
  - constructor; try done. intros cl x [_ Hf] Hx. apply (Hsafe cl); [|done]. intros i e Hu He. by apply (proj1 (Hf _ Hu)).
Qed.

(** ** L2 entries *)

Lemma l2_table_of d i e : drv_ok d -> l1 d !! i = Some e -> l2addr e <> 0 ->
  l2blk (l1 d) (l2addr e) = Some (l2addr e) /\
  exists bytes, l2bytes d (l2addr e) = Some bytes /\ is_bytes bytes /\ Z.of_nat (length bytes) = csz d.
Proof.
  intros Hd Hi He. destruct (drv_numbers d Hd) as (_ & _ & _ & Hn & H512 & _).
  assert (l2blk (l1 d) (l2addr e) = Some (l2addr e)) as Hb by (apply l2blk_Some; eauto 10). split; [done|].
  unfold l2bytes. destruct (view _ _ _ _ _) as [bytes|] eqn:Ev; [|unfold view in Ev; by rewrite Hb in Ev].
  exists bytes. split; [done|]. by apply (view_block (csz d) ltac:(lia) _ _ _ _ _ _ (k_cache _ Hd) Ev).
Qed.

Lemma l2_get_spec d l i t :
  drv_ok d -> tables (lc d) !! l = Some t -> entry_size t = 8 -> Z.of_nat (length (table_data t)) = csz d -> 0 <= i < n2 d ->
  l2_get l i d = (d, Ok (entry64 (table_data t) i)).
Proof.
  intros Hd Ht He Hl Hi. destruct (drv_numbers d Hd) as (_ & _ & _ & Hn & _ & E8 & _). unfold l2_get.
  assert (on_table (t_read l) d = (d, Ok t)) as Hr.
  { unfold on_table, t_read. cbn [fst]. rewrite Ht. by destruct d as [? ? []]. }
  rewrite (sres_step _ _ _ _ _ Hr). unfold slift. by rewrite get_entry64 by lia.
Qed.

(** A table in the cache. *)
Definition has_table d (k : Z) (l : nat) : Prop := cache_map (lc d) !! k = Some l.
Lemma table_cell d k l : drv_ok d -> has_table d k l ->
  exists t, tables (lc d) !! l = Some t /\ entry_size t = 8 /\ Z.of_nat (length (table_data t)) = csz d /\ addr t = k /\
    (forall a, l2blk (l1 d) k = Some a -> l2bytes d k = Some (table_data t)).
Proof.
  intros Hd Hk. destruct (cell_of (csz d) _ _ _ _ k l (k_cache _ Hd) Hk) as (t & Ht & Hok). exists t.
  split_and!; [done|apply Hok|apply Hok|by apply (li_key _ _ _ _ _ (k_cache _ Hd) k l t)|].
  intros a Ha. unfold l2bytes, view, cached. by rewrite Ha, Hk; simpl; rewrite Ht.
Qed.

Lemma cache_get_reads d k : drv_ok d ->
  exists d', on_table (t_cache (cache_get k)) d = (d', Ok (cache_map (lc d) !! k)) /\ reads d d' /\
    cache_map (lc d') = cache_map (lc d).
Proof.
  intros Hd. destruct (l2_ready (csz d) _ _ _ _ (k_cache _ Hd)) as (_ & Hlru & _).
  destruct (cache_get_lookup (lc d) k Hlru) as (c' & Hg & Hlo). exists (with_l2 d c' (fl d)). split_and!; [| |apply (lo_map _ _ Hlo)].
  - apply on_table_with. unfold t_cache. by rewrite Hg.
  - apply l2_frame; [done|by eapply lru_only_l2, Hd|intros; by apply lru_view|].
    apply changed_in_refl. apply (w_layout _ (i_wf _ (k_image _ Hd))).
Qed.

Lemma file_healthy d : drv_ok d -> bhealthy (fl d).
Proof. intros Hd. apply (w_layout _ (i_wf _ (k_image _ Hd))). Qed.

Lemma content_reads d f' : drv_ok d -> (forall x, bcontent f' x = bcontent (fl d) x) -> blen f' = blen (fl d) -> bhealthy f' ->
  reads d (with_l2 d (lc d) f').
Proof.
  intros Hd Hc Hl Hh. destruct (drv_numbers d Hd) as (_ & _ & _ & Hn & _).
  destruct (l2_inv_file (csz d) ltac:(lia) _ _ (lc d) (fl d) f' (l2_env_ok d Hd)) as [Hi Hv]; [done|apply Hd|].
  by apply l2_frame.
Qed.

(** [load_cluster] *)
Lemma load_cluster_spec d a : drv_ok d -> (csz d | a) -> in_file d a (csz d) ->
  exists f', load_cluster a d = (with_l2 d (lc d) f', Ok (ztab (bcontent (fl d)) a (Z.to_nat (csz d)))) /\
    (forall x, bcontent f' x = bcontent (fl d) x) /\ blen f' = blen (fl d) /\ bhealthy f' /\ reads d (with_l2 d (lc d) f').
Proof.
  intros Hd Ha (Ha0 & Ha1 & Ha2). destruct (drv_numbers d Hd) as (_ & _ & Ecs & Hn & _ & _). unfold load_cluster.
  assert (dget (fun d => hdr (rs d)) d = (d, @Ok unit _ (hd d))) as Hget by done. rewrite (sres_step _ _ _ _ _ Hget).
  rewrite (proj2 (aligned_iff d a Hd) Ha), Ecs. cbn [negb].
  destruct (read_buffer a (csz d) (fl d)) as [f' r] eqn:E.
  pose proof E as (Hc & Hl & _ & _ & Hh)%read_buffer_law; [|lia..]. destruct (Hh (file_healthy d Hd)) as [Hh' Hr].
  exists f'. split_and!; try done; [|by apply content_reads].
  unfold on_dfile, on_rs, on_file. rewrite E, Hr by done. unfold with_l2. by rewrite set_l2_self.
Qed.

(** A table that is not in the cache is loaded and cached; before that its
    entries can be read already. *)
Lemma load_table_spec d i e : drv_ok d -> l1 d !! i = Some e -> l2addr e <> 0 -> cache_map (lc d) !! l2addr e = None ->
  exists d1 d2 d3 l bytes ct, load_cluster (l2addr e) d = (d1, Ok bytes) /\ new_l2_table (l2addr e) bytes d1 = (d2, Ok l) /\
    on_table (cache_l2_table l) d2 = (d3, Ok tt) /\ l2bytes d (l2addr e) = Some bytes /\ reads d d2 /\ reads d d3 /\
    has_table d3 (l2addr e) l /\ tables (lc d2) !! l = Some ct /\ entry_size ct = 8 /\ table_data ct = bytes.
Proof.
  intros Hd Hi He Hmiss. destruct (drv_numbers d Hd) as (_ & _ & _ & Hn & H512 & _). set (k := l2addr e) in *.
  destruct (k_l2 _ Hd i e Hi He) as [Hal Hin]. destruct (l2_table_of d i e Hd Hi He) as (Hb & bytes & Hv & Hby & Hlen).
  fold k in Hb, Hv, Hal, Hin. destruct (load_cluster_spec d k Hd Hal Hin) as (f1 & Hload & Hc1 & Hl1 & Hh1 & Hr1).
  assert (bytes = ztab (bcontent (fl d)) k (Z.to_nat (csz d))) as Ebytes.
  { unfold l2bytes, view, cached in Hv. rewrite Hb, Hmiss in Hv. by injection Hv. }
  set (d1 := with_l2 d (lc d) f1) in *. set (ct := mkTable no_dirty 0 k 8 bytes).
  pose proof (rd_ok _ _ Hr1) as Hd1. pose proof (k_cache _ Hd1) as Hinv1.
  destruct (new_cell_l2 (csz d) _ _ (lc d) f1 ct Hinv1 eq_refl) as (Hinv2 & Hv2 & Ht2 & _).
  set (d2 := with_l2 d (new_cell ct (lc d)).1 f1).
  assert (reads d d2) as Hr2.
  { eapply reads_trans; [exact Hr1|]. apply (l2_frame d1); [done|done|done|by apply changed_in_refl]. }
  destruct (cache_l2_spec (csz d) H512 ltac:(lia) _ _ (table d) (lc d) f1 k ct (l2_env_ok d Hd)) as (c3 & f3 & t3 & Hrun & Hinv3 & Hv3 & Hch3 & Hm3 & _);
    try done; [exact (l2_file_ok d1 Hd1)|by rewrite minus_none|rewrite minus_none by done; etrans; [apply (sm_l2 _ _ (rd_same _ _ Hr1))|exact Hv]|].
  exists d1, d2, (with_l2 d c3 f3), (next_cell (lc d)), bytes, ct. split_and!; try done.
  - by rewrite Hload, Ebytes.
  - by apply (on_table_with _ d2).
  - eapply reads_trans; [exact Hr1|]. apply (l2_frame d1); try done. intros k0. rewrite Hv3, minus_none by done. done.
Qed.

(** *** [get_l2_entry] *)
Lemma get_l2_entry_spec d x e :
  drv_ok d -> 0 <= x < size (hd d) -> l1 d !! Z.to_nat (x / csz d / n2 d) = Some e -> l2addr e <> 0 ->
  exists d', get_l2_entry x d = (d', Ok (entry_at d (x / csz d))) /\ reads d d'.
Proof.
  intros Hd Hx He Hne. destruct (drv_numbers d Hd) as (_ & _ & _ & Hn & _ & _ & H64 & _).
  destruct (s_size _ (k_shape _ Hd)) as [Hsz _]. destruct (l1_entry_of d x Hd Hx) as (e' & He' & Hent & _).
  rewrite He in He'. injection He' as <-. destruct (l2_table_of d _ e Hd He Hne) as (Hb & bytes & Hv & Hby & Hlen).
  assert (0 <= (x / csz d) `mod` n2 d < n2 d) as Hidx by (apply Z.mod_pos_bound; lia).
  assert (entry_at d (x / csz d) = entry64 bytes ((x / csz d) `mod` n2 d)) as -> by (unfold entry_at; by rewrite He, Hv).
  unfold get_l2_entry. assert (dget table d = (d, @Ok unit _ (table d))) as Hget by done. rewrite (sres_step _ _ _ _ _ Hget).
  rewrite (l2_index d x Hd) by lia. destruct (cache_get_reads d (l2addr e) Hd) as (d0 & Hg & Hr & Em).
  assert (on_table (get_l2_table_cache_entry x) d = (d0, Ok (cache_map (lc d) !! l2addr e))) as Hce.
  { rewrite <-Hg. unfold on_table, get_l2_table_cache_entry. unfold mbind at 1, sres_bind at 1, tget. cbn [fst id].
    rewrite Hent, slift_Ok_bind. fold (l2addr e). by rewrite (proj2 (Z.eqb_neq _ 0)) by done. }
  rewrite (sres_step _ _ _ _ _ Hce). pose proof (rd_ok _ _ Hr) as Hd0. pose proof (same_fields _ _ (rd_same _ _ Hr)) as (El & Ec & _).
  pose proof (sm_l2 _ _ (rd_same _ _ Hr)) as Ev.
  destruct (cache_map (lc d) !! l2addr e) as [l|] eqn:Em0.
  - destruct (table_cell d0 (l2addr e) l Hd0) as (t & Ht & Hes & Htl & _ & Hdat); [unfold has_table; by rewrite Em|].
    exists d0. split; [|done]. rewrite (l2_get_spec d0 l _ t) by (done || by rewrite Ec).
    rewrite Ev, Hv, El in Hdat. by specialize (Hdat _ Hb) as [= ->].
  - rewrite Hent, slift_Ok_bind. fold (l2addr e). rewrite (proj2 (Z.eqb_neq _ 0)) by done.
    destruct (load_table_spec d0 (Z.to_nat (x / csz d / n2 d)) e) as (d1 & d2 & d3 & l & bytes' & ct & R1 & R2 & R3 & Hv' & Hr2 & Hr3 & _ & Hct & Hes & Hdat);
      [done|by rewrite El|done|by rewrite Em|].
    rewrite Ev, Hv in Hv'. injection Hv' as <-. pose proof (same_fields _ _ (rd_same _ _ Hr2)) as (_ & Ec2 & _).
    rewrite (sres_step _ _ _ _ _ R1), (sres_step _ _ _ _ _ R2).
    rewrite (sres_step _ _ _ _ _ (l2_get_spec d2 l ((x / csz d) `mod` n2 d) ct (rd_ok _ _ Hr2) Hct Hes ltac:(rewrite Hdat; lia) ltac:(by rewrite Ec2, Ec))).
    rewrite (sres_step _ _ _ _ _ R3). exists d3. rewrite Hdat. split; [done|]. by eapply reads_trans.
Qed.

(** ** Runs of clusters *)

(** The address in the file of a guest offset. *)
Definition haddr d (x : Z) : option Z := a ← host d (x / csz d); Some (a + x `mod` csz d).
Lemma guest_haddr d x : guest d x = match haddr d x with Some a => bcontent (fl d) a | None => 0 end.
Proof. unfold guest, haddr. by destruct (host d _). Qed.
Lemma same_haddr d d' x : same_map d d' -> haddr d' x = haddr d x.
Proof. intros Hs. destruct (same_fields d d' Hs) as (_ & Ec & _). unfold haddr. by rewrite Ec, (same_host d d' _ Hs). Qed.

(** Clusters [\[c0, c0 + n)] have one type and follow each other in the file. *)
Definition run d (c0 n : Z) (ty : Qcow2ClusterType) (hs : Z) : Prop := forall j, 0 <= j < n ->
  get_cluster_type (entry_at d (c0 + j)) = ty /\ Z.land (entry_at d (c0 + j)) L2_TABLE_OFFSET_MASK = hs + j * csz d.
(** Clusters within the disk and within an L2 table that exists. *)
Definition slice_ok d (c0 n : Z) (e : Z) : Prop := 0 <= c0 /\ l2addr e <> 0 /\ forall j, 0 <= j < n ->
  (c0 + j) * csz d < size (hd d) /\ l1 d !! Z.to_nat ((c0 + j) / n2 d) = Some e.

Lemma land_mask_bound x : 0 <= Z.land x L2_TABLE_OFFSET_MASK < 2 ^ 56.
Proof.
  assert (0 <= Z.land x L2_TABLE_OFFSET_MASK) as H0 by (apply Z.land_nonneg; right; done). split; [done|].
  destruct (Z.eq_dec (Z.land x L2_TABLE_OFFSET_MASK) 0) as [->|Hne]; [done|]. apply Z.log2_lt_pow2; [lia|].
  pose proof (Z.log2_land (Z.land x L2_TABLE_OFFSET_MASK) L2_TABLE_OFFSET_MASK H0 ltac:(done)) as Hl.
  rewrite <-Z.land_assoc, Z.land_diag in Hl. change (Z.log2 L2_TABLE_OFFSET_MASK) with 55 in Hl. lia.
Qed.

(** One turn of the loop. *)
Lemma slice_entry d c0 n e k : drv_ok d -> slice_ok d c0 n e -> 0 <= k < n ->
  exists d', get_l2_entry (wadd 64 (c0 * csz d) (wmul 64 k (csz d))) d = (d', Ok (entry_at d (c0 + k))) /\ reads d d' /\
    wmul 64 k (csz d) = k * csz d.
Proof.
  intros Hd (Hc0 & He & Hs) Hk. destruct (drv_numbers d Hd) as (_ & _ & _ & Hn & _). destruct (Hs k Hk) as [Hsz Hl1].
  destruct (s_size _ (k_shape _ Hd)) as [Hsz61 _]. assert (0 <= k * csz d <= (c0 + k) * csz d) by nia.
  rewrite (wmul_small 64 k), wadd_small by (unfold inW; lia). rewrite <-Z.mul_add_distr_r.
  destruct (get_l2_entry_spec d ((c0 + k) * csz d) e Hd) as (d' & Hr & Hrd); [nia|by rewrite Z.div_mul by lia|done|].
  exists d'. rewrite Z.div_mul in Hr by lia. done.
Qed.

Lemma slice_reads d d' c0 n e : reads d d' -> slice_ok d c0 n e -> slice_ok d' c0 n e.
Proof.
  intros Hr (Hc0 & He & Hs). destruct (same_fields _ _ (rd_same _ _ Hr)) as (El & Ec & _). split_and!; try done.
  intros j Hj. rewrite El, Ec, (sm_hdr _ _ (rd_same _ _ Hr)). by apply Hs.
Qed.
Lemma run_reads d d' c0 n ty hs : reads d d' -> run d' c0 n ty hs <-> run d c0 n ty hs.
Proof.
  intros Hr. destruct (same_fields _ _ (rd_same _ _ Hr)) as (_ & Ec & _). unfold run. rewrite Ec.
  split; intros Hj j Hjn; specialize (Hj j Hjn); by rewrite (same_entry _ _ _ (rd_same _ _ Hr)) in *.
Qed.

Lemma continuous_loop_spec fuel d c0 n k hs ty e :
  drv_ok d -> slice_ok d c0 n e -> 0 < k <= n -> n - k <= Z.of_nat fuel -> 0 <= hs < 2 ^ 56 -> run d c0 k ty hs ->
  exists d' k', continuous_loop fuel (c0 * csz d) n k hs ty d = (d', Ok (k', ty, hs)) /\ reads d d' /\ k <= k' <= n /\ run d c0 k' ty hs.
Proof.
  revert d k. induction fuel as [|fuel IH]; intros d k Hd Hs Hk Hf Hhs Hrun; cbn [continuous_loop].
  { exists d, k. rewrite (proj2 (Z.leb_le n k)) by lia. split_and!; try done; [by apply reads_refl|lia..]. }
  destruct (Z.leb_spec n k) as [Hle|Hlt]; [exists d, k; split_and!; try done; [by apply reads_refl|lia]|].
  destruct (drv_numbers d Hd) as (_ & _ & Ecs & Hn & _). destruct (slice_entry d c0 n e k Hd Hs ltac:(lia)) as (d1 & Hr1 & Hrd & Ewm).
  assert (dget (fun d => cluster_size (hd d)) d = (d, @Ok unit _ (csz d))) as Hget by (unfold dget; by rewrite Ecs).
  rewrite (sres_step _ _ _ _ _ Hget), (sres_step _ _ _ _ _ Hr1), Ewm. rewrite (proj2 (Z.eqb_neq k 0)) by lia.
  destruct (Hs) as (Hc0 & _ & Hsj). destruct (Hsj k ltac:(lia)) as [Hsz _]. destruct (s_size _ (k_shape _ Hd)) as [Hsz61 _].
  assert (0 <= k * csz d <= (c0 + k) * csz d) by nia. rewrite wadd_small by (unfold inW; lia).
  destruct (Z.eqb_spec (Z.land (entry_at d (c0 + k)) L2_TABLE_OFFSET_MASK) (hs + k * csz d)) as [Ea|]; cbn [negb orb];
    [case_bool_decide as Et; cbn [negb]|].
  - destruct (same_fields _ _ (rd_same _ _ Hrd)) as (_ & Ec & _). rewrite <-Ec.
    destruct (IH d1 (k + 1)) as (d2 & k' & Hr2 & Hrd2 & Hk' & Hrun2); [apply Hrd|by eapply slice_reads|lia|lia|done| |].
    { apply (run_reads _ _ _ _ _ _ Hrd). intros j Hj. destruct (Z.eq_dec j k) as [->|]; [done|]. apply Hrun. lia. }
    exists d2, k'. split_and!; [done|by eapply reads_trans|lia|lia|]. by apply (run_reads _ _ _ _ _ _ Hrd).
  - exists d1, k. split_and!; try done; lia.
  - exists d1, k. split_and!; try done; lia.
Qed.

Lemma get_continuous_spec d x len e :
  drv_ok d -> 0 <= x -> 0 < len -> x + len <= size (hd d) -> l1 d !! Z.to_nat (x / csz d / n2 d) = Some e -> l2addr e <> 0 ->
  (x / csz d) `mod` n2 d * csz d + x `mod` csz d + len <= n2 d * csz d ->
  exists d' ty hs k, get_continuous_address x len d =
      (d', Ok (ty, hs + x `mod` csz d, Z.min len (k * csz d - x `mod` csz d))) /\ reads d d' /\ 0 < k /\
    run d (x / csz d) k ty hs /\ 0 <= hs < 2 ^ 56 /\ (x / csz d + k - 1) * csz d < x + len.
Proof.
  intros Hd Hx Hlen Hsz He Hne Hfit. destruct (drv_numbers d Hd) as (_ & _ & Ecs & Hn & _ & _ & H64 & _).
  destruct (s_size _ (k_shape _ Hd)) as [Hsz61 _]. set (c0 := x / csz d) in *. set (o := x `mod` csz d) in *.
  assert (x = csz d * c0 + o /\ 0 <= o < csz d /\ 0 <= c0) as (Ex & Ho & Hc0)
    by (split_and!; [by apply Z.div_mod; lia|apply Z.mod_pos_bound; lia|apply Z.mod_pos_bound; lia|apply Z.div_pos; lia]).
  unfold get_continuous_address. assert (dget (fun d => cluster_size (hd d)) d = (d, @Ok unit _ (csz d))) as Hget by (unfold dget; by rewrite Ecs).
  rewrite (sres_step _ _ _ _ _ Hget). rewrite round_down_spec by (unfold inW; lia). rewrite slift_Ok_bind. fold c0.
  rewrite wadd_small by (unfold inW; lia). destruct (round_up_small (x + len) (csz d)) as (r & Hr & [q Hq] & Hrb); [lia..|].
  rewrite Hr, slift_Ok_bind. subst r. rewrite wsub_small by (unfold inW; nia). rewrite <-Z.mul_sub_distr_r, Z.div_mul by lia.
  set (n := q - c0). assert (0 < n) as Hn0 by (subst n; nia). rewrite (proj2 (Z.eqb_neq n 0)) by lia.
  assert ((c0 + n - 1) * csz d < x + len) as Hend by (subst n; nia).
  assert (slice_ok d c0 n e) as Hs.
  { split_and!; [done..|]. intros j Hj. split; [nia|]. rewrite <-He. f_equal. f_equal. symmetry.
    pose proof (Z.div_mod c0 (n2 d) ltac:(lia)) as Ec0. apply (Z.div_unique _ _ _ (c0 `mod` n2 d + j)); [|lia].
    left. pose proof (Z.mod_pos_bound c0 (n2 d) ltac:(lia)). split; [lia|].
    assert ((c0 `mod` n2 d + j) * csz d < n2 d * csz d) by (assert (j * csz d <= (n - 1) * csz d) by nia; nia). nia. }
  destruct (slice_entry d c0 n e 0 Hd Hs ltac:(lia)) as (d1 & Hr1 & Hrd & _). rewrite Z.add_0_r in Hr1.
  destruct (Z.to_nat n) as [|fuel] eqn:Ef; [lia|].
  assert (exists d2 k, continuous_loop (S fuel) (c0 * csz d) n 0 0 Unallocated d =
    (d2, Ok (k, get_cluster_type (entry_at d c0), Z.land (entry_at d c0) L2_TABLE_OFFSET_MASK)) /\ reads d d2 /\ 1 <= k <= n /\
    run d c0 k (get_cluster_type (entry_at d c0)) (Z.land (entry_at d c0) L2_TABLE_OFFSET_MASK)) as (d2 & k & Hloop & Hrd2 & Hk & Hrun).
  { cbn [continuous_loop]. rewrite (proj2 (Z.leb_gt n 0)) by lia. rewrite (sres_step _ _ _ _ _ Hget), (sres_step _ _ _ _ _ Hr1).
    cbn [Z.eqb]. destruct (same_fields _ _ (rd_same _ _ Hrd)) as (_ & Ec & _). rewrite <-Ec.
    destruct (continuous_loop_spec fuel d1 c0 n (0 + 1) (Z.land (entry_at d c0) L2_TABLE_OFFSET_MASK) (get_cluster_type (entry_at d c0)) e)
      as (d2 & k & Hr2 & Hrd2 & Hk & Hrun); [apply Hrd|by eapply slice_reads|lia|lia|apply land_mask_bound| |].
    { apply (run_reads _ _ _ _ _ _ Hrd). intros j Hj. replace (c0 + j) with c0 by lia. split; [done|lia]. }
    exists d2, k. split_and!; [done|by eapply reads_trans|lia|lia|]. by apply (run_reads _ _ _ _ _ _ Hrd). }
  rewrite (sres_step _ _ _ _ _ Hloop). exists d2, (get_cluster_type (entry_at d c0)), (Z.land (entry_at d c0) L2_TABLE_OFFSET_MASK), k.
  pose proof (land_mask_bound (entry_at d c0)). destruct (same_fields _ _ (rd_same _ _ Hrd2)) as (_ & Ec & _).
  assert (1 * csz d <= k * csz d <= n * csz d) by (split; apply Z.mul_le_mono_nonneg_r; lia).
  assert ((c0 + n - 1) * csz d = c0 * csz d + n * csz d - csz d /\ (c0 + k - 1) * csz d = c0 * csz d + k * csz d - csz d) as [] by (split; ring).
  split_and!; try done; try lia.
  unfold mbind at 1, sres_bind at 1, dget at 1. rewrite (off_in_cluster d2 x (rd_ok _ _ Hrd2)), Ec. fold o.
  rewrite (wmul_small 64 k), (wsub_small 64), (wadd_small 64) by (unfold inW; lia). done.
Qed.

(** ** [host_offset_for_read] *)

Lemma type_zero : get_cluster_type 0 = Unallocated.
Proof. done. Qed.
Lemma no_table d x e : drv_ok d -> l1 d !! Z.to_nat (x / csz d / n2 d) = Some e -> l2addr e = 0 -> haddr d x = None.
Proof.
  intros Hd He Hz. unfold haddr, host, entry_at. rewrite He, Hz. unfold l2bytes, view.
  destruct (l2blk (l1 d) 0) as [a|] eqn:Eb; [by apply l2blk_Some in Eb as (_ & ? & _)|]. done.
Qed.

(** The offsets of a run of clusters, with their addresses. *)
Lemma run_haddr d x k ty hs n j :
  drv_ok d -> run d (x / csz d) k ty hs -> 0 <= x -> n <= k * csz d - x `mod` csz d -> 0 <= j < n ->
  haddr d (x + j) = if bool_decide (ty = Normal) then Some (hs + x `mod` csz d + j) else None.
Proof.
  intros Hd Hrun Hx Hn Hj. destruct (drv_numbers d Hd) as (_ & _ & _ & Hcs & _). pose proof (Z.mod_pos_bound x (csz d) ltac:(lia)) as Ho.
  pose proof (Z.div_mod x (csz d) ltac:(lia)) as Ex. set (o := x `mod` csz d) in *. set (c0 := x / csz d) in *.
  assert ((x + j) / csz d = c0 + (o + j) / csz d /\ (x + j) `mod` csz d = (o + j) `mod` csz d) as [E1 E2].
  { replace (x + j) with (o + j + c0 * csz d) by lia. rewrite Z.div_add, Z.mod_add by lia. split; [lia|done]. }
  assert (0 <= (o + j) / csz d < k) as Hq by (split; [apply Z.div_pos; lia|apply Z.div_lt_upper_bound; lia]).
  destruct (Hrun _ Hq) as [Hty Ha]. unfold haddr, host, host_of. rewrite E1, E2, Hty.
  case_bool_decide; [|done]. simpl. f_equal. rewrite Ha. pose proof (Z.div_mod (o + j) (csz d) ltac:(lia)). lia.
Qed.

Lemma span_size d x : drv_ok d -> 0 <= x < size (hd d) -> 0 <= x / csz d < l1_size (hd d) * n2 d.
Proof. intros Hd Hx. by destruct (l1_entry_of d x Hd Hx) as (e & _ & _ & ? & _). Qed.

(** Addresses of data are inside the file. *)
Lemma haddr_in_file d x a : drv_ok d -> 0 <= x < size (hd d) -> haddr d x = Some a -> 0 <= a < blen (fl d) /\ a < 2 ^ 61.
Proof.
  intros Hd Hx Ha. destruct (drv_numbers d Hd) as (_ & _ & _ & Hn & _). pose proof (k_entry _ Hd _ (span_size d x Hd Hx)) as He.
  unfold haddr, host, host_of in Ha. unfold entry_ok in He. case_bool_decide as Hty; [|done]. rewrite Hty in He.
  destruct He as (_ & ? & ? & ?). injection Ha as <-. pose proof (Z.mod_pos_bound x (csz d) ltac:(lia)). lia.
Qed.

Definition range_ok d (x len : Z) (r : HostRange) : Prop :=
  match r with
  | DataNotInit n => 0 < n <= len /\ forall j, 0 <= j < n -> haddr d (x + j) = None
  | DataAddress a n => 0 < n <= len /\ 0 <= a /\ a + n <= blen (fl d) /\ a + n < 2 ^ 62 /\
      forall j, 0 <= j < n -> haddr d (x + j) = Some (a + j)
  end.

Lemma host_offset_for_read_spec d x len :
  drv_ok d -> 0 <= x -> 0 < len -> x + len <= size (hd d) ->
  exists d' r, host_offset_for_read x len d = (d', Ok r) /\ reads d d' /\ range_ok d x len r.
Proof.
  intros Hd Hx Hlen Hsz. destruct (drv_numbers d Hd) as (_ & _ & _ & Hn & _ & E8 & H64 & _).
  destruct (s_size _ (k_shape _ Hd)) as [Hsz61 _]. destruct (l1_entry_of d x Hd ltac:(lia)) as (e & He & Hent & _).
  pose proof (Z.mod_pos_bound x (csz d) ltac:(lia)) as Ho. pose proof (Z.mod_pos_bound (x / csz d) (n2 d) ltac:(lia)) as Hi.
  unfold host_offset_for_read. unfold mbind at 1, sres_bind at 1, dget at 1, id. cbv beta. rewrite (off_in_cluster d x Hd), Hent, slift_Ok_bind.
  unfold get_l2_table_max_remain_size. rewrite (l2_index d x Hd), (s_l2size _ (k_shape _ Hd)), (s_tsize _ (k_shape _ Hd)) by lia.
  set (o := x `mod` csz d) in *. set (i := (x / csz d) `mod` n2 d) in *.
  assert (csz d <= (n2 d - i) * csz d <= 2 ^ 40) by nia.
  rewrite (wsub_small 64 (n2 d)), wmul_small, wsub_small by (unfold inW; lia). set (len' := Z.min len _).
  assert (0 < len' <= len) as Hl' by lia. fold (l2addr e).
  destruct (Z.eqb_spec (l2addr e) 0) as [Hz|Hz].
  - exists d, (DataNotInit len'). split_and!; [done|by apply reads_refl|]. split; [done|]. intros j Hj. apply (no_table d _ e Hd); [|done].
    rewrite <-He. do 2 f_equal. pose proof (Z.div_mod x (csz d) ltac:(lia)) as Ex. pose proof (Z.div_mod (x / csz d) (n2 d) ltac:(lia)) as Ei.
    fold o in Ex. fold i in Ei.
    rewrite !Z.div_div by lia. symmetry. apply (Z.div_unique _ _ _ (i * csz d + o + j)); [left; lia|]. rewrite Ex at 1. rewrite Ei at 1.
    rewrite Z.div_div by lia. lia.
  - destruct (get_continuous_spec d x len' e Hd) as (d' & ty & hs & k & Hr & Hrd & Hk & Hrun & Hhs & Hend); try done; try lia.
    rewrite (sres_step _ _ _ _ _ Hr). fold o. set (n := Z.min len' (k * csz d - o)).
    assert (0 < n <= len') as Hn' by (assert (1 * csz d <= k * csz d) by (apply Z.mul_le_mono_nonneg_r; lia); lia).
    pose proof (fun j => run_haddr d x k ty hs n j Hd Hrun Hx ltac:(unfold n; lia)) as Hha. fold o in Hha. cbv beta iota.
    pose proof (k_entry _ Hd _ (span_size d x Hd ltac:(lia))) as Hek. destruct (Hrun 0 ltac:(lia)) as [Hty _].
    rewrite Z.add_0_r in Hty. unfold entry_ok in Hek. rewrite Hty in Hek. exists d'. eexists. split_and!; [done|done|].
    destruct ty; try done; cbn [is_read_zero bool_decide orb] in *.
    + split; [lia|]. intros j Hj. by apply Hha.
    + split; [lia|]. intros j Hj. by apply Hha.
    + split; [lia|]. intros j Hj. by apply Hha.
    + specialize (Hha (n - 1) ltac:(lia)) as Hlast. apply (haddr_in_file d _ _ Hd) in Hlast; [|lia].
      split_and!; try lia. intros j Hj. by apply Hha.
Qed.
End read.

(** ** [read_vectored] *)

Section vectored.
Context `{!HashIter} {F : Type} `{!BlockIo F, !BlockIoLaws F, !DataIo F, !DataIoLaws F}.
Implicit Types d : Qcow2Driver F.

Abbreviation hd d := (hdr (rs d)).
Abbreviation fl d := (rf (rs d)).

Lemma req_ok_len (f f' : F) r : blen f' = blen f -> req_ok f r -> req_ok f' r.
Proof. intros E [? ?]. split; [done|lia]. Qed.

(** After [k] bytes: [reqs] are still to be read, the rest of the first [k]
    bytes is zero. *)
Record partial d0 (A : list Z) (x0 : Z) (m0 : hmem) d (m : hmem) (k : Z) (left : list Iovec) (reqs : list CombineRequest) : Prop := mkPartial {
  pt_reads : reads d0 d;
  pt_left : iov_addrs left = drop (Z.to_nat k) A /\ Forall iov_ok left;
  pt_reqs : Forall (req_ok (fl d)) reqs;
  pt_nodup : NoDup (req_addrs reqs);
  pt_sub : forall a, a ∈ req_addrs reqs -> a ∈ take (Z.to_nat k) A;
  pt_done : forall (i : nat) a, Z.of_nat i < k -> A !! i = Some a ->
    match haddr d0 (x0 + Z.of_nat i) with
    | None => m a = 0 /\ a ∉ req_addrs reqs
    | Some h => paired reqs a h
    end;
  pt_frame : forall a, a ∉ A -> m a = m0 a
}.

Lemma partial_step d0 A x0 m0 d m k left reqs d' r n :
  NoDup A -> 0 <= x0 -> partial d0 A x0 m0 d m k left reqs -> 0 <= k -> reads d d' ->
  k + n <= Z.of_nat (length A) -> range_ok d (x0 + k) n r ->
  exists b e, iovecs_split left (match r with DataNotInit c | DataAddress _ c => c end) = (b, e) /\
  match r with
  | DataNotInit c => partial d0 A x0 m0 d' (iovec_write_zero b m) (k + c) e reqs
  | DataAddress a c => partial d0 A x0 m0 d' m (k + c) e (reqs ++ [mkReq b a c])
  end.
Proof.
  intros Hnd Hx0 [Hrd [Hla Hlo] Hreq Hrnd Hsub Hdone Hfr] Hk Hrd' Hfit Hr.
  set (c := match r with DataNotInit c | DataAddress _ c => c end).
  assert (0 < c <= n) as Hc by (destruct r; apply Hr).
  destruct (iovecs_split_spec left c Hlo) as (b & e & Hsp & Happ & Hbl & Hbo & Heo); [rewrite Hla, length_drop; lia|].
  exists b, e. split; [done|]. rewrite Hla in Happ.
  assert (iov_addrs b = take (Z.to_nat c) (drop (Z.to_nat k) A)) as Eb.
  { rewrite <-Happ. rewrite take_app_le, take_ge; lia || done. }
  assert (iov_addrs e = drop (Z.to_nat (k + c)) A) as Ee.
  { rewrite Z2Nat.inj_add, <-drop_drop, <-Happ by lia. rewrite drop_app_ge by lia. replace (_ - _)%nat with 0%nat by lia. done. }
  assert (take (Z.to_nat (k + c)) A = take (Z.to_nat k) A ++ iov_addrs b) as Et.
  { rewrite Eb, Z2Nat.inj_add by lia. by rewrite take_take_drop. }
  assert (NoDup (take (Z.to_nat k) A ++ iov_addrs b)) as Hndt by (rewrite <-Et; by eapply sublist_NoDup, sublist_take).
  apply NoDup_app in Hndt as (_ & Hdis & Hndb).
  assert (forall i a, k <= Z.of_nat i < k + c -> A !! i = Some a -> a ∈ iov_addrs b /\ iov_addrs b !! (i - Z.to_nat k)%nat = Some a) as Hnew.
  { intros i a Hi Ha. assert (iov_addrs b !! (i - Z.to_nat k)%nat = Some a) as Hb.
    { rewrite Eb, lookup_take_lt, lookup_drop by lia. rewrite <-Ha. f_equal. lia. }
    split; [by eapply list_elem_of_lookup_2|done]. }
  assert (forall i a, Z.of_nat i < k -> A !! i = Some a -> a ∉ iov_addrs b) as Hold.
  { intros i a Hi Ha Hin. apply (Hdis a); [|done]. eapply list_elem_of_lookup_2 with i. by rewrite lookup_take_lt by lia. }
  assert (forall a, a ∈ iov_addrs b -> a ∈ A) as Hba.
  { intros a Ha. rewrite <-(take_drop (Z.to_nat k) A), elem_of_app. right. rewrite <-Happ, elem_of_app. by left. }
  pose proof (fun j => same_haddr d0 d (x0 + k + j) (rd_same _ _ Hrd)) as Esh.
  assert (reads d0 d') as Hrd0 by by eapply reads_trans.
  assert (Forall (req_ok (fl d')) reqs) as Hreq' by (eapply Forall_impl; [exact Hreq|]; intros x; apply req_ok_len, Hrd').
  destruct r as [c'|a' c']; subst c.
  - destruct (iovec_write_zero_spec b m) as [Hz1 Hz2]. constructor; try done.
    + intros a Ha%Hsub. rewrite Et, elem_of_app. by left.
    + intros i a Hi Ha. destruct (decide (Z.of_nat i < k)) as [Hlt|Hge].
      * specialize (Hdone i a Hlt Ha). rewrite Hz1 by by eapply Hold. done.
      * destruct (Hnew i a ltac:(lia) Ha) as [Hin _]. destruct Hr as [_ Hr]. specialize (Hr (Z.of_nat i - k) ltac:(lia)).
        rewrite Esh in Hr. replace (x0 + k + (Z.of_nat i - k)) with (x0 + Z.of_nat i) in Hr by lia. rewrite Hr.
        split; [by apply Hz2|]. intros Hq%Hsub. by apply (Hdis a).
    + intros a Ha. rewrite Hz1; [by apply Hfr|]. intros Hin%Hba. done.
  - destruct Hr as (_ & Ha0 & Ha1 & Ha2 & Hr).
    assert (req_ok (fl d') (mkReq b a' c')) as Hok.
    { split; cbn [req_iov req_offset req_nbytes]; [split_and!; done || lia|]. rewrite (rd_len _ _ Hrd'). lia. }
    constructor; try done.
    + by apply Forall_app_2; [|constructor].
    + rewrite req_addrs_snoc. apply NoDup_app. split_and!; [done| |done]. intros a Ha%Hsub Hb. by apply (Hdis a).
    + intros a. rewrite req_addrs_snoc, Et, !elem_of_app. intros [Ha|Ha]; [left; by apply Hsub|by right].
    + intros i a Hi Ha. destruct (decide (Z.of_nat i < k)) as [Hlt|Hge].
      * specialize (Hdone i a Hlt Ha). destruct (haddr d0 _); [by apply (paired_snoc (fl d')); [..|left]|].
        split; [apply Hdone|]. rewrite req_addrs_snoc, elem_of_app. intros [?|Hb]; [by apply Hdone|by eapply Hold].
      * destruct (Hnew i a ltac:(lia) Ha) as [_ Hb]. specialize (Hr (Z.of_nat i - k) ltac:(lia)).
        rewrite Esh in Hr. replace (x0 + k + (Z.of_nat i - k)) with (x0 + Z.of_nat i) in Hr by lia. rewrite Hr.
        apply (paired_snoc (fl d')); [done..|]. right. exists (i - Z.to_nat k)%nat. split; [done|]. cbn [req_offset]. lia.
Qed.

Lemma read_loop_spec fuel d0 A x0 m0 d m k left reqs :
  drv_ok d0 -> NoDup A -> 0 <= x0 -> x0 + Z.of_nat (length A) <= size (hd d0) -> 0 <= k <= Z.of_nat (length A) ->
  Z.of_nat (length A) - k <= Z.of_nat fuel -> partial d0 A x0 m0 d m k left reqs ->
  exists d' m' reqs', read_loop fuel x0 (Z.of_nat (length A)) k left reqs (mkG d m) = (mkG d' m', Ok reqs') /\
    partial d0 A x0 m0 d' m' (Z.of_nat (length A)) [] reqs'.
Proof.
  intros Hd0 Hnd Hx0 Hsz. revert d m k left reqs. set (N := Z.of_nat (length A)) in *. pose proof (proj1 (s_size _ (k_shape _ Hd0))) as Hs61.
  assert (forall d m left reqs, partial d0 A x0 m0 d m N left reqs -> partial d0 A x0 m0 d m N [] reqs) as Hend.
  { intros d m left reqs [P1 P2 P3 P4 P5 P6 P7]. constructor; try done. split; [|done]. rewrite drop_ge by lia. done. }
  induction fuel as [|fuel IH]; intros d m k left reqs Hk Hf Hp; cbn [read_loop].
  { rewrite (proj2 (Z.leb_le N k)) by lia. replace k with N in * by lia. exists d, m, reqs. split; [done|]. by eapply Hend. }
  destruct (Z.leb_spec N k) as [Hle|Hlt].
  { replace k with N in * by lia. exists d, m, reqs. split; [done|]. by eapply Hend. }
  pose proof (pt_reads _ _ _ _ _ _ _ _ _ Hp) as Hrd. pose proof (rd_ok _ _ Hrd) as Hd. pose proof (sm_hdr _ _ (rd_same _ _ Hrd)) as Eh.
  rewrite wadd_small, wsub_small by (unfold inW; lia).
  destruct (host_offset_for_read_spec d (x0 + k) (N - k) Hd) as (d1 & r & Hr & Hrd1 & Hok); [lia..|rewrite Eh; lia|].
  assert (on_drv (host_offset_for_read (x0 + k) (N - k)) (mkG d m) = (mkG d1 m, Ok r)) as Hrun by (unfold on_drv; cbn [drv gmem]; by rewrite Hr).
  rewrite (sres_step _ _ _ _ _ Hrun).
  destruct (partial_step d0 A x0 m0 d m k left reqs d1 r (N - k)) as (b & e & Hsp & Hp'); try done; [lia..|].
  destruct r as [c|a c]; rewrite Hsp.
  - destruct Hok as [Hc _]. rewrite wadd_small by (unfold inW; lia).
    assert (on_mem (iovec_write_zero b) (mkG d1 m) = (mkG d1 (iovec_write_zero b m), @Ok unit _ tt)) as Hm by done.
    rewrite (sres_step _ _ _ _ _ Hm). apply IH; [lia..|done].
  - destruct Hok as [Hc _]. rewrite wadd_small by (unfold inW; lia). apply IH; [lia..|done].
Qed.

Lemma check_request_spec d offset n : drv_ok d -> is_u64 offset -> 0 <= n ->
  check_request offset n d = if offset + n <=? size (hd d) then Ok tt else Err tt.
Proof.
  intros Hd Ho Hn. pose proof (proj1 (s_size _ (k_shape _ Hd))) as Hs. unfold check_request, virtual_disk_size, checked_add, ok_or.
  unfold inW in *. zcases; try done; try lia; cbn [mbind res_bind]; zcases; done || lia.
Qed.

(** C4: [Qcow2Driver::read_vectored] returns the guest disk: every byte of
    the buffers becomes the byte of the guest's disk at its offset (data
    clusters, zero clusters and missing L2 tables alike), no other host memory
    changes, and the disk stays as it is; a request beyond the end of the disk
    is refused without any effect.  The image satisfies [drv_ok]: it has no
    compressed clusters, and the host file serves the requests that lie within
    its length. *)
Theorem read_vectored_exact d m iovec offset :
  drv_ok d -> Forall iov_ok iovec -> NoDup (iov_addrs iovec) -> Z.of_nat (length (iov_addrs iovec)) < 2 ^ 64 -> is_u64 offset ->
  let n := Z.of_nat (length (iov_addrs iovec)) in
  (offset + n <= size (hd d) ->
   exists d' m' rets, read_vectored iovec offset (mkG d m) = (mkG d' m', Ok rets) /\ Forall (fun r => 0 <= r) rets /\
     iov_bytes m' iovec = ztab (guest d) offset (Z.to_nat n) /\ (forall a, a ∉ iov_addrs iovec -> m' a = m a) /\
     drv_ok d' /\ (forall x, 0 <= x < size (hd d) -> guest d' x = guest d x)) /\
  (size (hd d) < offset + n -> read_vectored iovec offset (mkG d m) = (mkG d m, Err tt)).
Proof.
  intros Hd Hok Hnd Hlen Ho n. unfold read_vectored. rewrite get_iov_size_addrs by done. fold n.
  assert (forall r, check_request offset n d = r ->
    on_drv (d0 ← dget id; slift (check_request offset n d0)) (mkG d m) = (mkG d m, r)) as Hchk by by intros r <-.
  rewrite check_request_spec in Hchk by (done || lia).
  split; intros Hsz.
  2:{ rewrite (proj2 (Z.leb_gt _ _)) in Hchk by lia. unfold mbind at 1, sres_bind at 1. by rewrite (Hchk _ eq_refl). }
  rewrite (proj2 (Z.leb_le _ _)) in Hchk by lia. rewrite (sres_step _ _ _ _ _ (Hchk _ eq_refl)).
  destruct (read_loop_spec (Z.to_nat n) d (iov_addrs iovec) offset m d m 0 iovec []) as (d1 & m1 & reqs & Hr & Hp);
    try done; [unfold inW in *; lia..| |].
  { constructor; try done; [by apply reads_refl|by apply NoDup_nil|intros; lia]. }
  fold n in Hr, Hp. rewrite (sres_step _ _ _ _ _ Hr). destruct Hp as [Hrd _ Hreq Hrnd Hsub Hdone Hfr].
  destruct (submit_reads reqs (mkIo m1 (fl d1))) as ([m2 f2] & rets & Hrun & Hrets & Hlr & Hc & Hl & Hh & Hm & Hpair);
    [done|done|by apply file_healthy, Hrd|]. cbn [mem file] in *.
  assert (exists rets', driver_read_vectored reqs (mkIo m1 (fl d1)) = (mkIo m2 f2, Ok rets') /\ Forall (fun r => 0 <= r) rets') as (rets' & Hdrv & Hrets').
  { unfold driver_read_vectored, process_request. case_bool_decide as He; [|by eauto]. subst reqs. injection Hrun as <- <- <-.
    exists [0]. split; [done|]. repeat constructor. done. }
  pose proof (content_reads d1 f2 (rd_ok _ _ Hrd) Hc Hl Hh) as Hrd2.
  exists (with_l2 d1 (l2_table_cache (table d1)) f2), m2, rets'.
  assert (reads d (with_l2 d1 (l2_table_cache (table d1)) f2)) as Hrd3 by by eapply reads_trans.
  pose proof (s_size _ (k_shape _ Hd)) as [_ Hspan].
  split_and!; try done; [| | |apply Hrd3|].
  - unfold on_io. cbn [gmem drv]. rewrite Hdrv. unfold with_l2. by rewrite set_l2_self.
  - rewrite iov_bytes_addrs. apply list_eq. intros i. destruct (decide (i < length (iov_addrs iovec))%nat) as [Hi|Hi].
    2:{ rewrite !lookup_ge_None_2; [done|rewrite ztab_length; lia|rewrite length_fmap; lia]. }
    destruct (lookup_lt_is_Some_2 _ _ Hi) as [a Ha]. rewrite list_lookup_fmap, Ha, ztab_lookup by lia. simpl. f_equal.
    specialize (Hdone i a ltac:(lia) Ha). rewrite <-(rd_guest _ _ Hrd) by (unfold span, inW in *; lia).
    rewrite guest_haddr, (same_haddr d d1 _ (rd_same _ _ Hrd)). destruct (haddr d _) as [h|]; [by rewrite (Hpair a h Hdone)|].
    destruct Hdone as [Hz Hno]. by rewrite Hm.
  - intros a Ha. rewrite Hm; [by apply Hfr|]. intros Hin%Hsub. by rewrite take_ge in Hin by lia.
  - intros x Hx. apply (rd_guest _ _ Hrd3). unfold span. lia.
Qed.
End vectored.
