(* ===== verification/Qcow2Alloc.v ===== *)
(** * Allocation in a qcow2 image

    A cluster that [alloc_cluster] returns had the count zero, so that no part
    of the image uses it and the overlap checks accept it. *)
From stdpp Require Import prelude list gmap.
From Stdlib Require Import ZArith Lia.
From S2P Require Import Prelude NumOps Qcow2Header SyncAio Qcow2Io FileDriver Qcow2Cache Qcow2CacheSpec Qcow2Refcount Qcow2RefcountSpec Qcow2RefcountUpdate Qcow2RefcountAlloc Qcow2ClusterAlloc Qcow2Snapshot Qcow2Table Qcow2L2Spec Qcow2Driver Qcow2Mapping Qcow2Read.

Section alloc.
Context `{!HashIter} {F : Type} `{!BlockIo F, !BlockIoLaws F}.
Implicit Types d : Qcow2Driver F.

Abbreviation hd d := (hdr (rs d)).
Abbreviation fl d := (rf (rs d)).
Abbreviation l1 d := (l1_table (table d)).
Abbreviation csz d := (rc_cluster_size (rc (rs d))).
Abbreviation cnt d := (refcount_of (rs d)).
Abbreviation n2 d := (csz d / 8).
Abbreviation lc d := (l2_table_cache (table d)).

(** ** [check_overlap] *)

Definition clear_of (off size : Z) (r : Z * Z) : Prop :=
  0 <= r.1 /\ 0 <= r.2 /\ r.1 + r.2 < 2 ^ 64 /\ (r.1 + r.2 <= off \/ off + size <= r.1).

Lemma overlaps_none off size ranges :
  0 <= off -> 0 <= size -> off + size < 2 ^ 64 -> Forall (clear_of off size) ranges -> overlaps off size ranges = Ok false.
Proof.
  intros Ho Hs Hos Hr. induction Hr as [|[st len] ranges (H1 & H2 & H3 & H4) Hr IH]; [done|]. cbn [overlaps fst snd] in *.
  unfold ranges_overlap, checked_add. rewrite !(proj2 (Z.ltb_lt _ _)) by lia. cbn [ok_or mbind res_bind unwrap_res].
  destruct (Z.leb_spec (st + len) off), (Z.leb_spec (off + size) st); cbn [orb negb]; done || lia.
Qed.
Lemma overlap_check_none check bit off size ranges rest :
  0 <= off -> 0 <= size -> off + size < 2 ^ 64 -> Forall (clear_of off size) ranges ->
  overlap_check check bit off size ranges rest = rest.
Proof. intros. unfold overlap_check. destruct (_ =? 0); [done|]. by rewrite overlaps_none. Qed.

Lemma start_of_cluster_eq (r : RefCount) q : geo_ok r -> 0 <= q -> q * rc_cluster_size r < 2 ^ 64 ->
  start_of_cluster r (q * rc_cluster_size r) = q * rc_cluster_size r.
Proof.
  intros Hg Hq Hb. unfold start_of_cluster. rewrite (g_cs _ Hg) in *. pose proof (g_bits _ Hg). set (b := rc_cluster_bits r) in *.
  apply Z.bits_inj'. intros i Hi. rewrite Z.land_spec. destruct (Z.testbit (q * 2 ^ b) i) eqn:E; [|done]. cbn [andb].
  assert (b <= i < 64) as Hib.
  { split; [apply Z.nlt_ge; intros Hlt; by rewrite Z.mul_pow2_bits_low in E|]. apply Z.nle_gt. intros Hge.
    rewrite (Z.bits_above_log2) in E; [done|nia|]. destruct (Z.eq_dec (q * 2 ^ b) 0) as [->|]; [simpl; lia|].
    apply Z.log2_lt_pow2; [nia|]. eapply Z.lt_le_trans; [exact Hb|]. apply Z.pow_le_mono_r; lia. }
  assert (1 <= 2 ^ b <= 2 ^ 64) by (split; [change 1 with (2 ^ 0)|]; apply Z.pow_le_mono_r; lia).
  rewrite wsub_small, wnot_testbit by (unfold inW; lia). replace (2 ^ b - 1) with (Z.ones b) by (rewrite Z.ones_equiv; lia).
  by rewrite Z.ones_spec_high by lia.
Qed.

(** A cluster that at most a data cluster may be. *)
Definition data_only d (cl : Z) : Prop := forall r, uses d r cl -> exists c, r = RData c.

Lemma aligned_clear cs cl q : 0 < cs -> cl <> q -> q * cs + cs <= cl * cs \/ cl * cs + cs <= q * cs.
Proof. intros Hcs Hne. destruct (Z.lt_ge_cases cl q); [right|left]; nia. Qed.

(** A range that does not meet the cluster, or is empty and aligned. *)
Lemma meets_clear d cl off len :
  0 < csz d -> 0 <= cl -> 0 <= off -> 0 <= len -> off + len < 2 ^ 64 -> (csz d | off) -> ~ meets d cl off len ->
  clear_of (cl * csz d) (csz d) (off, len).
Proof.
  intros Hcs Hcl Ho Hl Hs [q ->] Hm. unfold clear_of, meets in *. cbn [fst snd]. split_and!; try done.
  destruct (Z.eq_dec len 0) as [->|]; [|lia]. destruct (Z.lt_ge_cases cl q); [right; nia|left; nia].
Qed.

Lemma check_overlap_none d cl n :
  drv_ok d -> 0 < cl -> (cl + 1) * csz d < 2 ^ 61 -> 0 < n <= csz d -> data_only d cl -> check_overlap 0 (cl * csz d) n d = Ok 0.
Proof.
  intros Hd Hcl Hb Hn Hdo. destruct (drv_numbers d Hd) as (_ & _ & Ecs & Hcs & _). unfold check_overlap. rewrite Ecs.
  pose proof (w_geo _ (i_wf _ (k_image _ Hd))) as Hg. assert (csz d <= cl * csz d) by nia.
  rewrite start_of_cluster_eq by (done || lia). rewrite (offset_into_cluster_mod _ Hg), Z.mod_mul by lia.
  rewrite wadd_small by (unfold inW; lia).
  assert (round_up (0 + n) (csz d) = Ok (csz d)) as ->.
  { destruct (round_up_small (0 + n) (csz d)) as (r & -> & [q ->] & Hq); [lia..|]. assert (q = 1) as -> by nia. f_equal. lia. }
  replace (_ =? 0) with false by done. cbn [negb andb]. rewrite (proj2 (Z.ltb_ge _ _)), andb_false_r by lia.
  cbn [unwrap_res mbind res_bind]. rewrite wsub_small by (unfold inW, U64_MAX; lia). rewrite (proj2 (Z.ltb_ge _ _)) by (unfold U64_MAX; lia).
  assert (forall r, uses d r cl -> match r with RData _ => True | _ => False end) as Hno by (intros r [c ->]%Hdo; done).
  assert (forall q, q * csz d = 0 -> q = 0) as Hz by (intros q Hq; nia).
  rewrite !overlap_check_none; try done; try lia.
  - apply Forall_fmap, Forall_forall. intros s Hs. destruct (proj2 (k_snap _ Hd) s Hs) as (H1 & H2 & H3 & H4).
    unfold compose. change ENTRY_SIZE with 8. rewrite wmul_small, (Z.mul_comm _ 8) by (unfold inW; lia). apply meets_clear; try lia; [done|].
    intros Hm. apply (Hno RSnap). right. by exists s.
  - destruct (proj1 (k_snap _ Hd)) as (H1 & H2 & H3 & H4). constructor; [|constructor]. apply meets_clear; try lia; [done|].
    intros Hm. apply (Hno RSnap). by left.
  - apply Forall_fmap, Forall_forall. intros a [i Hi]%list_elem_of_lookup. unfold compose.
    destruct (Z.eq_dec a 0) as [->|Hne]; [rewrite Z.land_0_l; unfold clear_of; cbn [fst snd]; split_and!; lia|].
    assert (blk_of (refcount_table (rc (rs d))) (Z.of_nat i) = Some a) as Ha by (apply blk_of_Some; rewrite Nat2Z.id; split_and!; try done; lia).
    rewrite (mask_block _ _ _ (i_wf _ (k_image _ Hd)) Ha).
    destruct (l_blocks _ (w_layout _ (i_wf _ (k_image _ Hd))) _ a Ha) as ([q ->] & ? & ? & _). unfold clear_of. cbn [fst snd].
    split_and!; [lia..|]. apply aligned_clear; [lia|]. intros ->. by apply (Hno (RBlock (Z.of_nat i))).
  - constructor; [|constructor]. destruct (s_rt _ (k_shape _ Hd)) as [-> ->].
    destruct (l_rt _ (w_layout _ (i_wf _ (k_image _ Hd)))) as (R1 & [q Hq] & R3 & R4 & R5 & R6).
    rewrite wmul_small by (unfold inW; lia). unfold clear_of. cbn [fst snd]. split_and!; [lia..|]. pose proof (Hno RTable) as Hrt. unfold uses in Hrt.
    rewrite <-R4. destruct (Z.lt_ge_cases cl q) as [Hlt|Hge].
    + right. assert ((cl + 1) * csz d <= q * csz d) by (apply Z.mul_le_mono_nonneg_r; lia). lia.
    + left. assert (q * csz d <= cl * csz d) by (apply Z.mul_le_mono_nonneg_r; lia). apply Z.nlt_ge. intros Hlt. apply Hrt. lia.
  - apply Forall_fmap, Forall_forall. intros e [i Hi]%list_elem_of_lookup. unfold compose. fold (l2addr e).
    destruct (Z.eq_dec (l2addr e) 0) as [->|Hne]; [unfold clear_of; cbn [fst snd]; split_and!; lia|].
    destruct (k_l2 _ Hd i e Hi Hne) as ([q Hq] & H1 & H2 & H3). rewrite Hq in *. unfold clear_of. cbn [fst snd].
    split_and!; [lia..|]. apply aligned_clear; [lia|]. intros ->. apply (Hno (RL2 i)). exists e. split_and!; [done..|lia].
  - destruct (k_l1 _ Hd) as (Hal & H1 & H2 & H3). destruct (drv_numbers d Hd) as (_ & _ & _ & _ & _ & _ & _ & Hl1). zcase; [constructor|].
    constructor; [|constructor]. change ENTRY_SIZE with 8. rewrite wmul_small, (Z.mul_comm _ 8) by (unfold inW; lia).
    apply meets_clear; try lia; [done|]. intros Hm. by apply (Hno RL1).
Qed.

(** ** Steps that keep the mapping *)

(** [P] are clusters without a role, which the step may change. *)
Record keeps (P : Z -> Prop) d d' : Prop := mkKeeps {
  kp_ok : drv_ok d';
  kp_same : same_map d d';
  kp_cnt : forall cl, cnt d cl <> 0 -> cnt d cl <= cnt d' cl;
  kp_guest : forall x, 0 <= x < span d -> guest d' x = guest d x;
  kp_frozen : forall cl x, frozen d cl -> ~ P cl -> in_cluster d cl x -> bcontent (fl d') x = bcontent (fl d) x;
  kp_len : blen (fl d) <= blen (fl d')
}.
Lemma keeps_frozen P d d' cl : drv_ok d -> keeps P d d' -> frozen d cl -> frozen d' cl.
Proof. intros Hd Hk. apply frozen_same; [apply Hk|apply Hk|by apply count_nonneg]. Qed.
Lemma keeps_refl P d : drv_ok d -> keeps P d d.
Proof. intros. constructor; try done. apply same_refl. Qed.
Lemma keeps_trans P d1 d2 d3 : drv_ok d1 -> keeps P d1 d2 -> keeps P d2 d3 -> keeps P d1 d3.
Proof.
  intros Hd1 Hk1 Hk2. pose proof Hk1 as [K1 S1 C1 G1 Z1 L1]. pose proof Hk2 as [K2 S2 C2 G2 Z2 L2].
  destruct (same_fields _ _ S1) as (_ & Ec & _). constructor; [done|by eapply same_trans| | | |lia].
  - intros cl Hc. specialize (C1 cl Hc). pose proof (count_nonneg d1 cl Hd1). specialize (C2 cl ltac:(lia)). lia.
  - intros x Hx. rewrite G2, G1; [done..|]. unfold span. by rewrite (sm_hdr _ _ S1), Ec.
  - intros cl x Hf Hp Hx. rewrite (Z2 cl x), (Z1 cl x); try done; [by apply (keeps_frozen P d1)|]. destruct Hx. split; [by rewrite Ec|lia].
Qed.
Lemma keeps_mono (P Q : Z -> Prop) d d' : (forall cl, frozen d cl -> P cl -> Q cl) -> keeps P d d' -> keeps Q d d'.
Proof. intros HPQ [K S C G Zf L]. constructor; try done. intros cl x Hf Hq. apply Zf; [done|]. auto. Qed.
Lemma reads_keeps P d d' : reads d d' -> keeps P d d'.
Proof. intros [K S R C G Zf L]. constructor; try done; [intros; by rewrite C|intros cl x Hf _; by apply (Zf cl)|lia]. Qed.

Definition with_rs d (s : rst F) : Qcow2Driver F := mkDrv (table d) (snapshot d) s.
Lemma on_rs_with {A} (m : sres (rst F) unit A) d s r : m (rs d) = (s, r) -> on_rs m d = (with_rs d s, r).
Proof. intros E. unfold on_rs. by rewrite E. Qed.

(** The counts and the file change, the tables do not. *)
Lemma rs_frame_uses P d s' :
  drv_ok d -> image_ok s' -> hdr s' = hd d -> geo (rc s') = geo (rc (rs d)) -> blen (fl d) <= blen (rf s') ->
  (forall r cl, uses d r cl -> refcount_of s' cl <> 0) -> (forall cl r, P cl -> ~ uses d r cl) ->
  (forall cl x, cnt d cl <> 0 -> ~ P cl -> (forall k, ~ uses d (RBlock k) cl) -> in_cluster d cl x ->
     bcontent (rf s') x = bcontent (fl d) x) ->
  drv_ok (with_rs d s') /\ same_map d (with_rs d s') /\ (forall x, 0 <= x < span d -> guest (with_rs d s') x = guest d x) /\
  (forall cl x, frozen d cl -> ~ P cl -> in_cluster d cl x -> bcontent (rf s') x = bcontent (fl d) x).
Proof.
  intros Hd Hi Hh Hg Hl Hc HP Hf. destruct (drv_numbers d Hd) as (_ & _ & _ & Hn & _).
  assert (forall r cl x, uses d r cl -> (forall k, r <> RBlock k) -> in_cluster d cl x -> bcontent (rf s') x = bcontent (fl d) x) as Hout.
  { intros r cl x Hr Hne Hx. apply (Hf cl); [by eapply k_uses|intros Hp; by apply (HP cl r)| |done].
    intros k Hk. apply (Hne k). by apply (k_excl _ Hd _ _ cl). }
  destruct (l2_inv_file (csz d) ltac:(lia) _ _ (lc d) (fl d) (rf s') (l2_env_ok d Hd)) as [Hi2 Hv2]; [|apply Hd|].
  { intros k x (_ & Hk & i & e & Hie & <-)%l2blk_Some Hx. destruct (k_l2 _ Hd i e Hie Hk) as ([q Hq] & Hpos & ? & _).
    apply (Hout (RL2 i) q); [|done|rewrite Hq in *; split; lia]. exists e. split_and!; [done..|]. intros ->. lia. }
  destruct (geo_fields _ _ Hg) as (_ & Ec & _).
  assert (same_map d (with_rs d s')) as Hs.
  { constructor; try done; [exists (lc d); by rewrite set_l2_self|]. intros k. unfold l2bytes. cbn [rs with_rs table]. rewrite Ec. apply Hv2. }
  destruct (drv_frame d (with_rs d s') Hd Hs) as [Hok Hgu]; try done.
  - intros cl x [Hp|[c Hp]] Hx; by eapply Hout.
  - split_and!; try done. intros cl x Hfz Hp Hx. apply (Hf cl); [apply Hfz|done| |done]. intros k Hk. by destruct (proj2 Hfz _ Hk).
Qed.
Lemma rs_frame P d s' :
  drv_ok d -> image_ok s' -> hdr s' = hd d -> geo (rc s') = geo (rc (rs d)) -> blen (fl d) <= blen (rf s') ->
  (forall cl, cnt d cl <> 0 -> cnt d cl <= refcount_of s' cl) -> (forall cl r, P cl -> ~ uses d r cl) ->
  (forall cl x, cnt d cl <> 0 -> ~ P cl -> (forall k, ~ uses d (RBlock k) cl) -> in_cluster d cl x ->
     bcontent (rf s') x = bcontent (fl d) x) ->
  keeps P d (with_rs d s').
Proof.
  intros Hd Hi Hh Hg Hl Hc HP Hf. destruct (rs_frame_uses P d s') as (? & ? & ? & ?); try done.
  intros r cl Hr. pose proof (k_uses _ Hd r cl Hr) as Hne. pose proof (count_nonneg d cl Hd). specialize (Hc cl Hne). lia.
Qed.

(** A cluster that nothing uses. *)
Definition unused d (cl : Z) : Prop := forall r, ~ uses d r cl.
Lemma free_unused d cl : drv_ok d -> cnt d cl = 0 -> unused d cl.
Proof. intros Hd Hc r Hr. by apply (k_uses _ Hd r cl Hr). Qed.

(** The file changes in an unused cluster, or grows. *)
Lemma file_frame d cl f' :
  drv_ok d -> unused d cl -> (forall x, x < blen (fl d) -> ~ in_cluster d cl x -> bcontent f' x = bcontent (fl d) x) ->
  blen (fl d) <= blen f' -> (balign | blen f') -> bhealthy f' ->
  keeps (eq cl) d (with_rs d (mkRst (hd d) (rc (rs d)) f')) /\
  forall c, cnt (with_rs d (mkRst (hd d) (rc (rs d)) f')) c = cnt d c.
Proof.
  intros Hd Hu Hf Hl Hal Hh. destruct (drv_numbers d Hd) as (_ & _ & _ & Hn & _).
  assert (forall cl' x, cl' <> cl -> in_cluster d cl' x -> bcontent f' x = bcontent (fl d) x) as Hne.
  { intros cl' x Hne [Hx Hxl]. apply Hf; [done|]. intros [Hx' _]. apply Hne. nia. }
  destruct (image_file (rs d) f') as [Hi Hc]; [apply Hd| |done..|].
  { intros k a x Ha Hx. destruct (l_blocks _ (w_layout _ (i_wf _ (k_image _ Hd))) k a Ha) as ([q Hq] & _ & _ & ?).
    apply (Hne q); [|split; lia]. intros ->. apply (Hu (RBlock k)). unfold uses. by rewrite Ha, Hq. }
  split; [|done]. apply rs_frame; try done.
  - intros c _. by rewrite Hc.
  - intros c r <-. apply Hu.
  - intros c x _ Hp _ Hx. apply (Hne c); [congruence|done].
Qed.
End alloc.

(** ** [alloc_cluster] *)

Section cluster.
Context `{!HashIter} {F : Type} `{!BlockIo F, !BlockIoLaws F, !DataIo F, !DataIoLaws F}.
Implicit Types d : Qcow2Driver F.

Abbreviation hd d := (hdr (rs d)).
Abbreviation fl d := (rf (rs d)).
Abbreviation csz d := (rc_cluster_size (rc (rs d))).
Abbreviation cnt d := (refcount_of (rs d)).

Lemma room_keep n (s s' : rst F) :
  free_cluster_index (rc s') <= free_cluster_index (rc s) -> geo (rc s') = geo (rc s) ->
  (forall x, refcount_of s x = 0 -> refcount_of s' x = 0) -> room n s -> room n s'.
Proof.
  intros Hf Hg Hc (c0 & H1 & H2 & H3 & H4 & H5). destruct (geo_fields _ _ Hg) as (Et & _ & Eb & Es & _).
  exists c0. rewrite Eb, Es, Et. split_and!; try done; [lia|]. intros x Hx. apply Hc. by apply H3.
Qed.

Definition with_file d (f : F) : Qcow2Driver F := with_rs d (mkRst (hd d) (rc (rs d)) f).
Lemma on_dfile_with {A} (m : F -> F * qres A) d f r : m (fl d) = (f, r) -> on_dfile m d = (with_file d f, r).
Proof. intros E. unfold on_dfile, on_rs, on_file. by rewrite E. Qed.

Lemma balign_len d : drv_ok d -> (balign | blen (fl d)) /\ (balign | csz d) /\ bhealthy (fl d).
Proof. intros Hd. by destruct (w_layout _ (i_wf _ (k_image _ Hd))) as [_ _ _ _ ? ? ?]. Qed.

(** Carrying out the noted discards. *)
Lemma discards_keep d : drv_ok d ->
  exists d', (if bool_decide (discard_list (rc (rs d)) = []) then mret tt else on_rs sync_process_discards) d = (d', Ok tt) /\
    keeps (fun _ => False) d d' /\ (forall c, cnt d' c = cnt d c) /\ discard_list (rc (rs d')) = [] /\ table d' = table d /\
    free_cluster_index (rc (rs d')) = free_cluster_index (rc (rs d)).
Proof.
  intros Hd. case_bool_decide as Hl; [exists d; split_and!; try done; by apply keeps_refl|].
  destruct (drv_numbers d Hd) as (_ & _ & _ & Hn & _). destruct (balign_len d Hd) as (Hal & _ & Hh).
  pose proof (i_disc _ (k_image _ Hd)) as Ht. set (f' := process_tasks (discard_list (rc (rs d))) (fl d)).
  destruct (process_tasks_spec _ _ _ (fl d) Ht) as (Ho & Hlen & Hh'). fold f' in Ho, Hlen, Hh'.
  assert (forall cl x, cnt d cl <> 0 -> cl * csz d <= x < (cl + 1) * csz d -> bcontent f' x = bcontent (fl d) x) as Hcont.
  { intros cl x Hc Hx. apply Ho. intros t Hin Hcov. destruct (Ht t Hin) as [[[p Hp] [q Hq] _ _ _] Hno]. apply Hc, Hno.
    unfold task_covers. rewrite Hp, Hq in *. split; [assert (p <= cl) by nia|assert (cl < p + q) by nia]; nia. }
  destruct (image_file (rs d) f') as [Hi Hc]; [apply Hd| |lia|by rewrite Hlen|by apply Hh'|].
  { intros k a x Ha Hx. destruct (l_blocks _ (w_layout _ (i_wf _ (k_image _ Hd))) k a Ha) as ([q Hq] & _). apply (Hcont q); [|lia].
    apply (k_uses _ Hd (RBlock k)). unfold uses. by rewrite Ha, Hq. }
  set (s' := mkRst (hd d) (set_discards [] (rc (rs d))) f').
  assert (image_ok s') as Hi'.
  { destruct Hi as [[G [L1 L2 L3 L4 L5 L6 L7] C] I2 I3 I4 _ I6]. constructor; try done.
    - constructor; [by apply (geo_ok_eq (rc (rs d)))|by constructor|done].
    - intros t Hin. by apply elem_of_nil in Hin. }
  exists (with_rs d s'). split_and!; [by apply on_rs_with| |done|done|done|done].
  apply rs_frame; try done; [cbn [rf s']; lia|intros cl _; by rewrite <-(Hc cl)|].
  intros cl x Hcl _ _ [Hx _]. by apply (Hcont cl).
Qed.

(** The range of a cluster is cleared, by the file system or by writing. *)
Definition sound d : Prop := 0 < csz d < 2 ^ 32 /\ (balign | blen (fl d)) /\ (balign | csz d) /\ bhealthy (fl d).
Lemma clear_cluster d c :
  sound d -> 0 <= c -> (c + 1) * csz d < 2 ^ 61 -> c * csz d < blen (fl d) ->
  exists f', (ret ← on_dfile (fun f => let '(f, ret) := zero_range (c * csz d) (csz d) f in (f, Ok ret));
              if ret <? 0 then write_zero_clusters (Z.to_nat 1) 0 (c * csz d) (csz d) else mret tt) d = (with_file d f', Ok tt) /\
    (forall x, ~ c * csz d <= x < (c + 1) * csz d -> bcontent f' x = bcontent (fl d) x) /\
    (forall x, c * csz d <= x < (c + 1) * csz d -> bcontent f' x = 0) /\ bhealthy f' /\
    blen f' = Z.max (blen (fl d)) ((c + 1) * csz d).
Proof.
  intros (Hn & Hal & Hac & Hh) Hc Hb Hin.
  assert (0 <= c * csz d) by nia. destruct (zero_range (c * csz d) (csz d) (fl d)) as [f1 ret] eqn:Ez.
  pose proof Ez as (Ho1 & Hh1 & Hcase)%zero_range_law; [|done|lia|done].
  assert (on_dfile (fun f => let '(f, ret) := zero_range (c * csz d) (csz d) f in (f, Ok ret)) d = (with_file d f1, Ok ret)) as Hz0
    by (apply on_dfile_with; by rewrite Ez).
  rewrite (sres_step _ _ _ _ _ Hz0).
  destruct Hcase as [(-> & Hz & Hl)|(Hneg & Hl)].
  { exists f1. split_and!; try done; [intros x Hx; apply Ho1; lia|intros x Hx; apply Hz; lia|rewrite Hl; lia]. }
  rewrite (proj2 (Z.ltb_lt _ _)) by done. change (Z.to_nat 1) with 1%nat. cbn [write_zero_clusters].
  rewrite wmul_small, wadd_small by (unfold inW; lia). set (zs := replicate (Z.to_nat (csz d)) 0).
  assert (Z.of_nat (length zs) = csz d) as Hlz by (subst zs; rewrite length_replicate; lia).
  destruct (write_buffer (c * csz d + 0 * csz d) zs f1) as [f2 r] eqn:Ew.
  pose proof Ew as (Ho2 & _ & _ & Hw2 & Hh2)%write_buffer_law; [|by apply Forall_replicate|intros Hn'; rewrite Hn' in Hlz; simpl in Hlz; lia|lia|lia].
  destruct Hh2 as (Hh2 & -> & Hl2); [done|by rewrite Hl|left|].
  { rewrite Hlz. split; [|done]. rewrite Z.mul_0_l, Z.add_0_r. by apply Z.divide_mul_r. }
  exists f2. rewrite (sres_step _ _ _ _ _ (on_dfile_with (write_buffer (c * csz d + 0 * csz d) zs) (with_file d f1) f2 (Ok tt) Ew)).
  split_and!; [done| | |done|rewrite Hl2, Hl; lia].
  - intros x Hx. rewrite Ho2 by lia. apply Ho1. lia.
  - intros x Hx. specialize (Hw2 eq_refl (Z.to_nat (x - c * csz d)) 0). replace (_ + Z.of_nat _) with x in Hw2 by lia. apply Hw2.
    subst zs. apply lookup_replicate. split; [done|lia].
Qed.

(** A new cluster is made part of the file, and cleared when asked for. *)
Lemma prepare_cluster d c (wz : bool) :
  sound d -> 0 <= c -> (c + 1) * csz d < 2 ^ 61 ->
  exists f', (inside ← (if wz then end_ ← on_dfile disk_size; mret (c * csz d <? end_) else mret false);
              _ ← (if inside : bool then
                     ret ← on_dfile (fun f => let '(f, ret) := zero_range (c * csz d) (csz d) f in (f, Ok ret));
                     if ret <? 0 then write_zero_clusters (Z.to_nat 1) 0 (c * csz d) (csz d) else mret tt
                   else mret tt);
              _ ← on_dfile (extend_len (wadd 64 (c * csz d) (csz d)));
              mret (c * csz d)) d = (with_file d f', Ok (c * csz d)) /\
    (forall x, x < blen (fl d) -> ~ c * csz d <= x < (c + 1) * csz d -> bcontent f' x = bcontent (fl d) x) /\
    (wz = true -> forall x, c * csz d <= x < (c + 1) * csz d -> bcontent f' x = 0) /\ bhealthy f' /\
    blen f' = Z.max (blen (fl d)) ((c + 1) * csz d).
Proof.
  intros Hs Hc Hb. pose proof Hs as (Hn & Hal & Hac & Hh). assert (0 <= c * csz d) by nia.
  assert (exists f1 b, (if wz then end_ ← on_dfile disk_size; mret (c * csz d <? end_) else mret false) d = (with_file d f1, Ok b) /\
    (forall x, bcontent f1 x = bcontent (fl d) x) /\ blen f1 = blen (fl d) /\ bhealthy f1 /\ b = wz && (c * csz d <? blen (fl d)))
    as (f1 & b & Hr1 & Hc1 & Hl1 & Hh1 & Eb).
  { destruct wz; [|exists (fl d), false; split_and!; try done; by destruct d as [? ? []]].
    destruct (file_end (fl d)) as [f1 r] eqn:E. pose proof E as (? & ? & ? & ->)%file_end_law; [|done].
    exists f1, (c * csz d <? blen (fl d)). split_and!; try done.
    by rewrite (sres_step _ _ _ _ _ (on_dfile_with disk_size d f1 (Ok (blen (fl d))) E)). }
  rewrite (sres_step _ _ _ _ _ Hr1).
  set (run := if b then _ else _).
  assert (exists f2, run (with_file d f1) = (with_file d f2, Ok tt) /\ bhealthy f2 /\
    (forall x, ~ c * csz d <= x < (c + 1) * csz d -> bcontent f2 x = bcontent (fl d) x) /\
    (b = true -> forall x, c * csz d <= x < (c + 1) * csz d -> bcontent f2 x = 0) /\
    blen f2 = if b then Z.max (blen (fl d)) ((c + 1) * csz d) else blen (fl d)) as (f2 & Hr2 & Hh2 & Ho2 & Hz2 & Hl2).
  { subst run. destruct b; [|exists f1; by split_and!]. destruct (clear_cluster (with_file d f1) c) as (f2 & Hr2 & Ho2 & Hz2 & Hh2 & Hl2); try done.
    - split_and!; cbn [with_file with_rs rs rf rc]; try done; try lia. by rewrite Hl1.
    - cbn [with_file with_rs rs rf rc]. rewrite Hl1. destruct wz; [|done]. symmetry in Eb. by apply Z.ltb_lt in Eb.
    - exists f2. cbn [with_file with_rs rs rf rc] in *. split_and!; try done; [intros x Hx; by rewrite Ho2|by rewrite Hl2, Hl1]. }
  rewrite (sres_step _ _ _ _ _ Hr2). rewrite wadd_small by (unfold inW; lia).
  destruct (file_end f2) as [f3 r3] eqn:E3. pose proof E3 as (Hc3 & Hl3 & Hh3 & ->)%file_end_law; [|done].
  assert (exists f4, extend_len (c * csz d + csz d) f2 = (f4, Ok tt) /\ bhealthy f4 /\ blen f4 = Z.max (blen f2) ((c + 1) * csz d) /\
    (forall x, x < blen f2 -> bcontent f4 x = bcontent f2 x) /\ (forall x, blen f2 <= x < (c + 1) * csz d -> bcontent f4 x = 0))
    as (f4 & Hr4 & Hh4 & Hl4 & Hc4 & Hz4).
  { unfold extend_len. rewrite E3. destruct (Z.ltb_spec (blen f2) (c * csz d + csz d)) as [Hlt|Hge].
    - destruct (file_set_len (c * csz d + csz d) f3) as [f4 r4] eqn:E4.
      pose proof E4 as (Hc4 & Hz4 & Hl4 & Hh4 & ->)%file_set_len_law; [|done|lia]. exists f4. split_and!; try done; [lia| |].
      + intros x Hx. rewrite Hc4, Hc3; [done|lia].
      + intros x Hx. apply Hz4. lia.
    - exists f3. split_and!; try done; [lia|intros; lia]. }
  rewrite (sres_step _ _ _ _ _ (on_dfile_with _ (with_file d f2) f4 (Ok tt) Hr4)). exists f4.
  assert (blen (fl d) <= blen f2) by (rewrite Hl2; destruct b; lia). split_and!; try done.
  - intros x Hx Hout. rewrite Hc4 by lia. by apply Ho2.
  - intros -> x Hx. rewrite andb_true_l in Eb. destruct (Z.ltb_spec (c * csz d) (blen (fl d))) as [Hlt|Hge]; subst b.
    + rewrite Hc4 by (rewrite Hl2; lia). by apply Hz2.
    + apply Hz4. lia.
  - rewrite Hl4, Hl2. destruct b; lia.
Qed.

(** What [alloc_cluster(1, write_zero)] gives: a cluster [c] that was free. *)
Record fresh (n : Z) (wz : bool) d d' (c : Z) : Prop := mkFresh {
  fr_keeps : keeps (eq c) d d';
  fr_room : room n (rs d');
  fr_free : cnt d c = 0;
  fr_cnt : forall x, cnt d' x = cnt d x + delta c (c + 1) 1 x;
  fr_pos : 0 < c /\ (c + 1) * csz d <= 2 ^ 56;
  fr_in : in_file d' (c * csz d) (csz d);
  fr_table : table d' = table d;
  fr_zero : wz = true -> forall x, c * csz d <= x < (c + 1) * csz d -> bcontent (fl d') x = 0
}.

Lemma alloc_cluster_spec n wz d : drv_ok d -> 0 <= n -> room (n + 1) (rs d) ->
  exists d' c, alloc_cluster 1 wz d = (d', Ok (c * csz d)) /\ fresh n wz d d' c.
Proof.
  intros Hd Hn Hroom. unfold alloc_cluster. destruct (drv_numbers d Hd) as (_ & _ & Ecs & Hcs & _).
  assert (dget (fun d => rc (rs d)) d = (d, @Ok unit _ (rc (rs d)))) as Hget by done. rewrite (sres_step _ _ _ _ _ Hget).
  destruct (discards_keep d Hd) as (d0 & Hr0 & Hk0 & Hc0 & Hdl0 & Et0 & Hf0). rewrite (sres_step _ _ _ _ _ Hr0).
  pose proof (kp_ok _ _ _ Hk0) as Hd0. destruct (same_fields _ _ (kp_same _ _ _ Hk0)) as (_ & Ec0 & _).
  assert (dget (fun d => cluster_size (hd d)) d0 = (d0, @Ok unit _ (csz d))) as Hget2
    by (unfold dget; by rewrite (sm_hdr _ _ (kp_same _ _ _ Hk0)), Ecs).
  rewrite (sres_step _ _ _ _ _ Hget2). rewrite wmul_small by (unfold inW; lia). rewrite Z.mul_1_l.
  destruct (alloc_one_spec (rs d0) n) as (s1 & c & Hr1 & Hi1 & Hh1 & Hg1 & Hdl1 & Hro1 & Hcp & Hcb & Hcf & Hcn & Hch); try done.
  { apply Hd0. }
  { eapply room_keep; [|apply (kp_same _ _ _ Hk0)| |exact Hroom]; [lia|]. intros x Hx. by rewrite Hc0. }
  rewrite <-Ec0. set (d1 := with_rs d0 s1). rewrite (sres_step _ _ _ _ _ (on_rs_with _ d0 s1 _ Hr1)).
  destruct (geo_fields _ _ Hg1) as (_ & Ec1 & _).
  assert (keeps (eq c) d0 d1) as Hk1.
  { apply (keeps_mono (fun _ => False)); [done|]. apply rs_frame; try done; [rewrite (ch_len _ _ _ Hch); done| |].
    - intros cl _. rewrite Hcn. unfold delta. case_decide; lia.
    - intros cl x _ _ Hno [Hx _]. apply (ch_out _ _ _ Hch). intros (k & a & Ha & Hxa).
      destruct (l_blocks _ (w_layout _ (i_wf _ (k_image _ Hd0))) k a Ha) as ([q Hq] & _). apply (Hno k). unfold uses. rewrite Ha, Hq.
      do 2 f_equal. rewrite Ec0 in *. nia. }
  pose proof (kp_ok _ _ _ Hk1) as Hd1.
  assert (unused d1 c) as Hu1.
  { intros r Hr%(same_uses d0 d1 _ _ (kp_same _ _ _ Hk1)). by apply (free_unused d0 c Hd0 Hcf r). }
  assert (dget id d1 = (d1, @Ok unit _ d1)) as Hget3 by done. rewrite (sres_step _ _ _ _ _ Hget3).
  assert (check_overlap 0 (c * csz d0) (csz d0) d1 = Ok 0) as Hco.
  { rewrite <-Ec1. change (csz d1) with (rc_cluster_size (rc s1)). apply (check_overlap_none d1); try done; cbn [d1 with_rs rs] in *;
      [rewrite Ec1; lia|rewrite Ec1; lia|]. intros r Hr. by destruct (Hu1 r). }
  rewrite Hco, slift_Ok_bind. cbn [Z.eqb negb]. destruct (balign_len d1 Hd1) as (Hal & Hac & Hhe).
  destruct (prepare_cluster d1 c wz) as (f' & Hr2 & Ho2 & Hz2 & Hh2 & Hl2); [split_and!; try done; cbn [d1 with_rs rs]; rewrite Ec1; lia|lia|by cbn [d1 with_rs rs]; rewrite Ec1|].
  change (csz d1) with (rc_cluster_size (rc s1)) in *. rewrite Ec1 in *. exists (with_file d1 f'), c. split; [exact Hr2|].
  destruct (file_frame d1 c f') as [Hk2 Hc2]; try done; [|lia|rewrite Hl2; apply Z.max_case; [done|by apply Z.divide_mul_r]|].
  { intros x Hx Hno. apply Ho2; [done|]. intros Hin. apply Hno. split; [|done]. change (csz d1) with (rc_cluster_size (rc s1)). by rewrite Ec1. }
  constructor.
  - apply (keeps_trans _ d d0); [done|by eapply keeps_mono, Hk0|]. by apply (keeps_trans _ d0 d1).
  - eapply room_keep; [..|exact Hro1]; try done. intros x Hx. change (cnt (with_file d1 f') x = 0). by rewrite Hc2.
  - by rewrite <-Hc0.
  - intros x. change (cnt (with_file d1 f') x = cnt d x + delta c (c + 1) 1 x). rewrite Hc2. cbn [d1 with_rs rs]. by rewrite Hcn, Hc0.
  - split; [done|]. rewrite <-Ec0, <-Ec1. assert (c < cover s1) as Hcc.
    { apply Z.nle_gt. intros Hle. pose proof (refcount_beyond s1 c (i_wf _ Hi1) Hle) as Hz. rewrite Hcn, Hcf in Hz.
      unfold delta in Hz. rewrite decide_True in Hz; lia. }
    pose proof (s_cover _ (k_shape _ Hd1)) as Hcov. cbn [d1 with_rs rs] in Hcov. 
    assert ((c + 1) * rc_cluster_size (rc s1) <= cover s1 * rc_cluster_size (rc s1)) by (apply Z.mul_le_mono_nonneg_r; lia). lia.
  - rewrite <-Ec0. split_and!; cbn [with_file with_rs rs rf]; nia.
  - done.
  - intros Hw x Hx. rewrite <-Ec0 in Hx. by apply Hz2.
Qed.
End cluster.
