(* ===== verification/Qcow2Remap.v ===== *)
(** * Changing the mapping of a qcow2 image

    The steps that change where a guest cluster or an L2 table is: an entry of
    an L2 table is set, an entry of the L1 table gets a new L2 table.  The
    invariant holds after them when the new cluster had no role. *)
From stdpp Require Import prelude list gmap.
From Stdlib Require Import ZArith Lia.
From S2P Require Import Prelude NumOps Qcow2Header SyncAio Qcow2Io FileDriver Qcow2Cache Qcow2CacheSpec Qcow2Refcount Qcow2RefcountSpec Qcow2RefcountUpdate Qcow2RefcountAlloc Qcow2ClusterAlloc Qcow2Snapshot Qcow2Table Qcow2L2Spec Qcow2Driver Qcow2Mapping Qcow2Read Qcow2Alloc.

#[export] Instance role_eq_dec : EqDecision role.
Proof. solve_decision. Defined.

Lemma l2blk_0 l : l2blk l 0 = None.
Proof. destruct (l2blk l 0) as [a|] eqn:Eb; [|done]. by apply l2blk_Some in Eb as (_ & ? & _). Qed.

Section remap.
Context `{!HashIter} {F : Type} `{!BlockIo F, !BlockIoLaws F}.
Implicit Types d : Qcow2Driver F.

Abbreviation hd d := (hdr (rs d)).
Abbreviation fl d := (rf (rs d)).
Abbreviation l1 d := (l1_table (table d)).
Abbreviation csz d := (rc_cluster_size (rc (rs d))).
Abbreviation cnt d := (refcount_of (rs d)).
Abbreviation n2 d := (csz d / 8).
Abbreviation lc d := (l2_table_cache (table d)).

Lemma rst_eta (s : rst F) : mkRst (hdr s) (rc s) (rf s) = s.
Proof. by destruct s. Qed.

(** Two L1 entries with the same table are the same entry. *)
Lemma l1_inj d i j e e' : drv_ok d -> l1 d !! i = Some e -> l1 d !! j = Some e' -> l2addr e = l2addr e' -> l2addr e <> 0 -> i = j.
Proof.
  intros Hd Hi Hj He Hne. destruct (k_l2 _ Hd i e Hi Hne) as ([q Hq] & _).
  assert (RL2 i = RL2 j) as [= ->]; [|done]. apply (k_excl _ Hd _ _ q); [exists e|exists e']; split_and!; try done; try congruence; by intros ->.
Qed.

(** ** New entries *)

(** The address of a cluster with the flag that it is not shared. *)
Lemma new_l1_entry cs c : (512 | cs) -> 0 < cs -> 0 < c -> c * cs < 2 ^ 56 ->
  l2addr (Z.lor (c * cs) QCOW2_OFFSET_COPIED) = c * cs /\ copied (Z.lor (c * cs) QCOW2_OFFSET_COPIED) = true /\
  is_u64 (Z.lor (c * cs) QCOW2_OFFSET_COPIED).
Proof.
  intros [q ->] Hcs Hc Hb. replace (c * (q * 512)) with (c * q * 512) in * by ring. set (m := c * q) in *. assert (0 < m) by nia.
  unfold l2addr, copied. rewrite !Z.land_lor_distr_l. change (Z.land QCOW2_OFFSET_COPIED L1_TABLE_OFFSET_MASK) with 0.
  change (Z.land QCOW2_OFFSET_COPIED QCOW2_OFFSET_COPIED) with QCOW2_OFFSET_COPIED. rewrite Z.lor_0_r. split_and!.
  - apply Z.bits_inj'. intros i Hi. rewrite Z.land_spec. change L1_TABLE_OFFSET_MASK with (Z.ones 47 * 2 ^ 9).
    change (m * 512) with (m * 2 ^ 9). destruct (Z.lt_ge_cases i 9); [by rewrite !Z.mul_pow2_bits_low by lia|].
    rewrite !Z.mul_pow2_bits by lia. destruct (Z.lt_ge_cases (i - 9) 47); [by rewrite Z.ones_spec_low, andb_true_r by lia|].
    rewrite Z.bits_above_log2; [done|lia|]. apply Z.log2_lt_pow2; [lia|]. eapply Z.lt_le_trans with (2 ^ 47); [lia|]. apply Z.pow_le_mono_r; lia.
  - apply negb_true_iff, Z.eqb_neq. intros E. apply (f_equal (fun z => Z.testbit z 63)) in E. rewrite Z.lor_spec in E.
    change (Z.testbit QCOW2_OFFSET_COPIED 63) with true in E. by rewrite orb_true_r in E.
  - apply lor_inW; [lia|unfold inW; lia|done].
Qed.

Lemma new_data_entry cs c : (512 | cs) -> 0 < cs -> 0 < c -> c * cs < 2 ^ 56 ->
  let v := Z.lor (c * cs) QCOW2_OFFSET_COPIED in
  get_cluster_type v = Normal /\ Z.land v L2_TABLE_OFFSET_MASK = c * cs /\ Z.land (c * cs) L2_TABLE_OFFSET_MASK = c * cs /\
  copied v = true /\ is_u64 v.
Proof.
  intros H512 Hcs Hc Hb v. destruct (new_l1_entry cs c H512 Hcs Hc Hb) as (H1 & H2 & H3). fold v in H1, H2, H3. unfold l2addr in H1.
  change L1_TABLE_OFFSET_MASK with L2_TABLE_OFFSET_MASK in H1.
  assert (forall m, m = QCOW2_OFFSET_COMPRESSED \/ m = QCOW2_OFLAG_ZERO -> Z.land v m = 0) as Hz.
  { intros m Hm. unfold v. rewrite Z.land_lor_distr_l. replace (Z.land QCOW2_OFFSET_COPIED m) with 0 by (destruct Hm; by subst). rewrite Z.lor_0_r, <-H1.
    rewrite <-Z.land_assoc. replace (Z.land L2_TABLE_OFFSET_MASK m) with 0 by (destruct Hm; by subst). apply Z.land_0_r. }
  split_and!; try done.
  - unfold get_cluster_type. rewrite !Hz by auto. cbn [Z.eqb negb]. rewrite H1, (proj2 (Z.eqb_neq (c * cs) 0)) by nia. done.
  - rewrite <-H1 at 1. rewrite <-Z.land_assoc, Z.land_diag. done.
Qed.

(** ** Setting an L2 entry *)

(** The role of a cluster after entry [c] is set to [v]. *)
Definition uses_set d (c v : Z) (r : role) (cl : Z) : Prop :=
  if decide (r = RData c) then place_of v = Some (cl * csz d) else uses d r cl.

(** The new cluster of the entry, if it has one, is counted and has no other
    role. *)
Definition room_for d (c v : Z) : Prop := is_u64 v /\ entry_ok d v /\
  forall q, place_of v = Some (q * csz d) -> cnt d q <> 0 /\ forall r, uses d r q -> r = RData c.

Lemma entry_index (n a b : Z) : 0 < n -> a / n = b / n -> a `mod` n = b `mod` n -> a = b.
Proof. intros Hn Hd Hm. pose proof (Z.div_mod a n ltac:(lia)). pose proof (Z.div_mod b n ltac:(lia)). congruence. Qed.

Lemma set_entry_step d c e l v :
  drv_ok d -> 0 <= c < l1_size (hd d) * n2 d -> l1 d !! Z.to_nat (c / n2 d) = Some e -> copied e = true ->
  has_table d (l2addr e) l -> room_for d c v ->
  exists c', on_table (update_l2_table l (c `mod` n2 d) v) d = (with_l2 d c' (fl d), Ok tt) /\ drv_ok (with_l2 d c' (fl d)) /\
    cache_map c' = cache_map (lc d) /\
    (forall c0, 0 <= c0 -> entry_at (with_l2 d c' (fl d)) c0 = if decide (c0 = c) then v else entry_at d c0) /\
    (forall r cl, uses (with_l2 d c' (fl d)) r cl -> uses_set d c v r cl).
Proof.
  intros Hd Hc He Hco Hl (Hv & Hvok & Hq). destruct (drv_numbers d Hd) as (_ & _ & _ & Hn & H512 & E8 & H64 & _).
  pose proof (k_copied _ Hd _ e He Hco) as Hne. destruct (l2_table_of d _ e Hd He Hne) as (Hb & bytes & Hvw & Hby & Hlen).
  pose proof (Z.mod_pos_bound c (n2 d) ltac:(lia)) as Hm.
  destruct (update_l2_spec (csz d) H512 ltac:(lia) _ _ (table d) (lc d) (fl d) (l2addr e) l (c `mod` n2 d) v bytes (l2_env_ok d Hd) (k_cache _ Hd))
    as (c' & Hr & Hi & Hv1 & Hv2 & Em); [by exists (Z.to_nat (c / n2 d)), e|done|lia|lia|lia|done|].
  rewrite set_l2_self in Hr. exists c'. set (d' := with_l2 d c' (fl d)).
  assert (forall c0, 0 <= c0 -> entry_at d' c0 = if decide (c0 = c) then v else entry_at d c0) as Hent.
  { intros c0 H0. unfold entry_at. change (l1 d') with (l1 d). change (csz d') with (csz d).
    destruct (l1 d !! Z.to_nat (c0 / n2 d)) as [e0|] eqn:E0; [|case_decide as Hd0; [subst c0; congruence|done]].
    assert (forall k, l2bytes d' k = view (csz d) (l2blk (l1 d)) c' (fl d) k) as El by done. rewrite El. pose proof (Z.mod_pos_bound c0 (n2 d) ltac:(lia)).
    destruct (decide (l2addr e0 = l2addr e)) as [Ea|Ea].
    - rewrite Ea, Hv2. assert (Z.to_nat (c0 / n2 d) = Z.to_nat (c / n2 d)) as Ei by by eapply (l1_inj d _ _ e0 e); try done; rewrite Ea.
      assert (c0 / n2 d = c / n2 d) as Ediv by (pose proof (Z.div_pos c0 (n2 d)); pose proof (Z.div_pos c (n2 d)); lia).
      rewrite entry64_splice by (done || lia). destruct (decide (c0 = c)) as [->|Hne0]; [by rewrite decide_True|].
      rewrite decide_False; [by rewrite Hvw|]. intros Emod. apply Hne0. by eapply (entry_index (n2 d)); [lia|..].
    - rewrite Hv1 by done. rewrite decide_False; [done|]. intros ->. rewrite He in E0. by injection E0 as <-. }
  assert (forall r cl, uses d' r cl <-> match r with RData c0 => 0 <= c0 < l1_size (hd d) * n2 d /\ uses_set d c v r cl | _ => uses d r cl end) as Huse.
  { intros r cl. destruct r as [| |k| |i|c0|]; try done. unfold uses_set. unfold uses at 1.
    change (hd d') with (hd d). change (csz d') with (csz d). unfold place at 1. destruct (decide (c0 = c)) as [->|Hne0].
    - rewrite decide_True by done. by rewrite Hent, decide_True by lia.
    - rewrite decide_False by congruence. unfold uses. split; intros [H0 Hh]; (split; [done|]).
      + by rewrite Hent, decide_False in Hh by lia.
      + rewrite Hent, decide_False by lia. apply Hh. }
  assert (forall r cl, uses d' r cl -> uses_set d c v r cl) as Hset.
  { intros r cl Hu%Huse. unfold uses_set. destruct (decide (r = RData c)) as [->|]; [|destruct r; try done; unfold uses_set in Hu; rewrite decide_False in Hu by done; apply Hu].
    destruct Hu as [_ Hu]. unfold uses_set in Hu. by rewrite decide_True in Hu. }
  split_and!; [by apply on_table_with| |done|done|done].
  assert (rs d' = rs d) as Ers by apply rst_eta.
  destruct Hd as [K1 K2 K3 K4 K5 K6 K7 K8 K9 K10 K11 K12]. constructor; try done.
  - by destruct K1.
  - by rewrite Ers.
  - intros c0 H0. rewrite Hent by lia. case_decide; [done|]. by apply K9.
  - intros r cl Hu%Hset. rewrite Ers. unfold uses_set in Hu. case_decide; [by apply Hq|by eapply K10].
  - intros r1 r2 cl Hu1%Hset Hu2%Hset. unfold uses_set in *.
    destruct (decide (r1 = RData c)) as [->|], (decide (r2 = RData c)) as [->|]; [done| | |by apply (K11 _ _ cl)].
    + symmetry. by apply (proj2 (Hq cl Hu1)).
    + by apply (proj2 (Hq cl Hu2)).
Qed.

(** ** A new L2 table *)

Lemma entry64_zeroes n j : 0 <= j -> 8 * j + 8 <= Z.of_nat n -> entry64 (replicate n 0) j = 0.
Proof.
  intros Hj Hn. unfold entry64. replace (slice (replicate n 0) (Z.to_nat (8 * j)) 8) with (replicate 8 0); [done|].
  symmetry. unfold slice. rewrite drop_replicate, take_replicate. f_equal. lia.
Qed.


Section new_table.
Context d (i : nat) (e c : Z).
Context (Hd : drv_ok d) (He : l1 d !! i = Some e) (Hnc : copied e = false).
Context (Hu : unused d c) (Hcnt : cnt d c <> 0) (Hc : 0 < c /\ (c + 1) * csz d <= 2 ^ 56) (Hin : in_file d (c * csz d) (csz d)).
Let k := c * csz d.
Let v := Z.lor k QCOW2_OFFSET_COPIED.
Let l1' := <[i := v]> (l1 d).
(** The tables while the old one is still known. *)
Definition blk_mid (k0 : Z) : option Z := if decide (k0 = k) then Some k else l2blk (l1 d) k0.

Lemma v_facts : l2addr v = k /\ copied v = true /\ is_u64 v /\ 0 < k.
Proof.
  destruct (drv_numbers d Hd) as (_ & _ & _ & Hn & H512 & _). destruct (new_l1_entry (csz d) c H512) as (H1 & H2 & H3); [lia..|].
  split_and!; try done. unfold k. nia.
Qed.
Lemma l1'_lookup j : l1' !! j = if decide (j = i) then Some v else l1 d !! j.
Proof.
  unfold l1'. case_decide as Hj; [subst; apply list_lookup_insert_eq; by eapply lookup_lt_Some|by rewrite list_lookup_insert_ne].
Qed.
(** No L2 table is in the new cluster yet. *)
Lemma new_addr j e0 : l1 d !! j = Some e0 -> l2addr e0 <> k.
Proof. intros Hj Ee. apply (Hu (RL2 j)). exists e0. split_and!; [done..|lia]. Qed.

Lemma own_new k0 : l2own l1' k0 <-> k0 = k \/ l2own (l1 d) k0.
Proof.
  destruct v_facts as (Ev & Ec & _ & Hk). split.
  - intros (j & e0 & Hj & Ea & Hco & Hne). rewrite l1'_lookup in Hj. case_decide; [left; congruence|right]. by exists j, e0.
  - intros [->|(j & e0 & Hj & Ea & Hco & Hne)].
    + exists i, v. rewrite l1'_lookup, decide_True by done. split_and!; try done. lia.
    + exists j, e0. rewrite l1'_lookup, decide_False; [done|]. intros ->. rewrite He in Hj. congruence.
Qed.
Lemma blk_new k0 : l2blk l1' k0 = if decide (k0 = k) then Some k else if decide (k0 = l2addr e) then None else l2blk (l1 d) k0.
Proof.
  destruct v_facts as (Ev & Ec & _ & Hk). repeat case_decide; subst.
  - apply l2blk_Some. split_and!; [done|lia|]. exists i, v. by rewrite l1'_lookup, decide_True.
  - destruct (l2blk l1' (l2addr e)) as [a|] eqn:Eb; [|done]. apply l2blk_Some in Eb as (_ & Hne & j & e0 & Hj & Ea).
    rewrite l1'_lookup in Hj. case_decide as Hji; [congruence|]. destruct Hji. by eapply (l1_inj d j i e0 e); rewrite ?Ea.
  - destruct (l2blk (l1 d) k0) as [a|] eqn:Eb.
    + apply l2blk_Some in Eb as (-> & Hne & j & e0 & Hj & Ea). apply l2blk_Some. split_and!; try done. exists j, e0.
      rewrite l1'_lookup, decide_False; [done|]. intros ->. congruence.
    + destruct (l2blk l1' k0) as [a|] eqn:Eb'; [|done]. apply l2blk_Some in Eb' as (-> & Hne & j & e0 & Hj & Ea).
      rewrite l1'_lookup in Hj. case_decide; [congruence|]. rewrite <-Eb. symmetry. apply l2blk_Some. eauto 10.
Qed.

Lemma env_mid : l2_env (csz d) (l2own l1') blk_mid.
Proof.
  destruct v_facts as (Ev & Ec & _ & Hk). destruct (l2_env_ok d Hd) as [Hid Ho [Hb1 Hb2]]. destruct Hin as (I1 & I2 & I3).
  destruct (drv_numbers d Hd) as (_ & _ & _ & Hn & _).
  assert (forall k0 a, l2blk (l1 d) k0 = Some a -> a + csz d <= k \/ k + csz d <= a) as Hap.
  { intros k0 a (-> & Hne & j & e0 & Hj & <-)%l2blk_Some. destruct (k_l2 _ Hd j e0 Hj Hne) as [Hal _].
    apply aligned_apart; [lia|done|by exists c|]. by eapply new_addr. }
  constructor; unfold blk_mid.
  - intros k0 a. case_decide; [congruence|]. apply Hid.
  - intros k0 [->|Hk0]%own_new; [by rewrite decide_True|]. case_decide; [congruence|]. by apply Ho.
  - split.
    + intros k0 a. case_decide; [intros [= <-]; done|]. apply Hb1.
    + intros k1 k2 a1 a2. repeat case_decide; intros E1 E2 Hne; simplify_eq; try congruence;
        [destruct (Hap _ _ E2); lia|destruct (Hap _ _ E1); lia|by eapply Hb2].
Qed.

(** The state after the L1 table is written. *)
Definition swapped (c5 : Qcow2Cache) (f6 : F) : Qcow2Driver F :=
  mkDrv (set_l1_table l1' (set_l2_cache c5 (table d))) (snapshot d) (mkRst (hd d) (rc (rs d)) f6).

Section swap.
Context (c5 : Qcow2Cache) (f6 : F) (bytes : list Z).
Context (Hinv : l2_inv (csz d) (l2own l1') (l2blk l1') c5 f6).
Context (Hvk : view (csz d) (l2blk l1') c5 f6 k = Some bytes).
Context (Hvo : forall k0, k0 <> k -> k0 <> l2addr e -> view (csz d) (l2blk l1') c5 f6 k0 = l2bytes d k0).
Context (Hbytes : l2addr e = 0 /\ bytes = replicate (Z.to_nat (csz d)) 0 \/ l2addr e <> 0 /\ l2bytes d (l2addr e) = Some bytes).
Context (Hl6 : blen f6 = blen (fl d)) (Hh6 : bhealthy f6).
Context (Hf : forall x, x < blen (fl d) -> ~ k <= x < k + csz d ->
  ~ l1_table_offset (hd d) <= x < l1_table_offset (hd d) + 8 * l1_size (hd d) -> ~ in_own (csz d) (l2own (l1 d)) x ->
  bcontent f6 x = bcontent (fl d) x).
Context (Hdisk : forall j e0, l1' !! j = Some e0 -> ztab (bcontent f6) (l1_table_offset (hd d) + 8 * Z.of_nat j) 8 = be_bytes 8 e0).
Let d' := swapped c5 f6.

Lemma swap_entry c0 : 0 <= c0 -> entry_at d' c0 = entry_at d c0.
Proof.
  intros H0. destruct v_facts as (Ev & _ & _ & Hk). destruct (drv_numbers d Hd) as (_ & _ & _ & Hn & _ & E8 & H64 & _).
  unfold entry_at. change (l1 d') with l1'. change (csz d') with (csz d). rewrite l1'_lookup.
  assert (forall k0, l2bytes d' k0 = view (csz d) (l2blk l1') c5 f6 k0) as El by done.
  case_decide as Hi.
  - rewrite Hi, He, Ev, El, Hvk. pose proof (Z.mod_pos_bound c0 (n2 d) ltac:(lia)). destruct Hbytes as [[Hz ->]|[Hz ->]]; [|done].
    assert (l2bytes d (l2addr e) = None) as -> by (unfold l2bytes, view; by rewrite Hz, l2blk_0).
    apply entry64_zeroes; lia.
  - destruct (l1 d !! Z.to_nat (c0 / n2 d)) as [e0|] eqn:E0; [|done]. destruct (decide (l2addr e0 = l2addr e)) as [Ea|Ea].
    + destruct (decide (l2addr e0 = 0)) as [Hz|Hz]; [|by destruct Hi; eapply (l1_inj d _ _ e0 e)].
      rewrite El. unfold l2bytes, view. by rewrite Hz, !l2blk_0.
    + rewrite El, Hvo; [done|by eapply new_addr|done].
Qed.

Lemma swap_uses r cl : uses d' r cl <-> if decide (r = RL2 i) then cl = c else uses d r cl.
Proof.
  destruct v_facts as (Ev & _ & _ & Hk). destruct (drv_numbers d Hd) as (_ & _ & _ & Hn & _).
  destruct r as [| |k0| |j|c0|]; try done.
  - unfold uses at 1. change (l1 d') with l1'. change (csz d') with (csz d). destruct (decide (j = i)) as [->|Hj].
    + rewrite decide_True by done. rewrite l1'_lookup, decide_True by done. split.
      * intros (e0 & [= <-] & Ea & _). unfold k in Ev. rewrite Ev in Ea. nia.
      * intros ->. exists v. split_and!; try done. lia.
    + rewrite decide_False by congruence. unfold uses. rewrite l1'_lookup, decide_False by done. done.
  - rewrite decide_False by done. unfold uses. change (hd d') with (hd d). change (csz d') with (csz d). unfold place.
    split; intros [H0 Hh]; (split; [done|]); [rewrite <-swap_entry by lia|rewrite swap_entry by lia]; done.
Qed.

(** Clusters with another role than the tables, and frozen ones, are untouched. *)
Lemma swap_safe cl x : cl <> c -> ~ uses d RL1 cl -> (forall j e0, uses d (RL2 j) cl -> l1 d !! j = Some e0 -> copied e0 = false) ->
  in_cluster d cl x -> bcontent f6 x = bcontent (fl d) x.
Proof.
  intros Hne Hl1 Hl2 [Hx Hxl]. destruct (drv_numbers d Hd) as (_ & _ & _ & Hn & _). apply Hf; [done| | |].
  - intros Hxk. apply Hne. unfold k in Hxk. nia.
  - intros Hx1. apply Hl1. unfold uses, meets. split_and!; lia.
  - intros (k0 & (j & e0 & Hj & Ea & Hco & Hk0) & Hx0). destruct (k_l2 _ Hd j e0 Hj ltac:(congruence)) as ([q Hq] & Hpos & _).
    rewrite Ea in Hq, Hpos. subst k0. assert (cl = q) as -> by nia. rewrite (Hl2 j e0) in Hco; [done| |done]. exists e0. split_and!; [done..|]. intros ->. lia.
Qed.
Lemma swap_role r cl x : uses d r cl -> r <> RL1 -> (forall j, r <> RL2 j) -> in_cluster d cl x -> bcontent f6 x = bcontent (fl d) x.
Proof.
  intros Hr H1 H2. apply swap_safe; [intros ->; by apply (Hu r)| |].
  - intros Hu1. apply H1. by apply (k_excl _ Hd _ _ cl).
  - intros j e0 Hu2. destruct (H2 j). by apply (k_excl _ Hd _ _ cl).
Qed.

Lemma swapped_ok : drv_ok d' /\ (forall x, cnt d' x = cnt d x) /\ (forall x, 0 <= x < span d -> guest d' x = guest d x) /\
  (forall cl x, frozen d cl -> cl <> c -> in_cluster d cl x -> bcontent f6 x = bcontent (fl d) x).
Proof.
  destruct v_facts as (Ev & Eco & Hvu & Hk). destruct (drv_numbers d Hd) as (_ & _ & _ & Hn & _ & E8 & H64 & _).
  destruct (image_file (rs d) f6) as [Hi6 Hc6]; [apply Hd| |lia|rewrite Hl6; apply (w_layout _ (i_wf _ (k_image _ Hd)))|done|].
  { intros k0 a x Ha Hx. destruct (l_blocks _ (w_layout _ (i_wf _ (k_image _ Hd))) k0 a Ha) as ([q Hq] & _ & _ & ?).
    apply (swap_role (RBlock k0) q); [by rewrite Hq in Ha|done|done|split; lia]. }
  assert (forall a len, in_file d a len -> in_file d' a len) as Hinf by (intros a len (? & ? & ?); unfold in_file; cbn; lia).
  split_and!; [|done| |].
  - pose proof Hd as [K1 K2 K3 K4 K5 K6 K7 K8 K9 K10 K11 K12]. constructor.
    + destruct K1 as [S1 S2 S3 S4 S5 S6 S7 S8 S9 S10]. constructor; try done. cbn. unfold l1'. by rewrite length_insert.
    + done.
    + by apply Forall_insert.
    + destruct K4. split; [done|]. by apply Hinf.
    + done.
    + intros j e0 Hj Hne. change (csz d') with (csz d). change (l1 d') with l1' in Hj. rewrite l1'_lookup in Hj. case_decide as Hji.
      * injection Hj as <-. rewrite Ev. split; [by exists c|]. by apply Hinf.
      * destruct (K6 j e0 Hj Hne). split; [done|]. by apply Hinf.
    + intros j e0 Hj Hco. change (l1 d') with l1' in Hj. rewrite l1'_lookup in Hj. case_decide; [|by eapply K7]. injection Hj as <-. lia.
    + done.
    + intros c0 H0. rewrite swap_entry by lia. specialize (K9 c0 H0). unfold entry_ok in *. change (csz d') with (csz d).
      destruct (get_cluster_type _); try done; destruct K9; (split; [done|]); by apply Hinf.
    + intros r cl Hr%swap_uses. change (refcount_of (rs d') cl) with (refcount_of (mkRst (hd d) (rc (rs d)) f6) cl). rewrite Hc6.
      case_decide; [by subst|by eapply K10].
    + intros r1 r2 cl H1%swap_uses H2%swap_uses. destruct (decide (r1 = RL2 i)) as [->|], (decide (r2 = RL2 i)) as [->|]; subst; try done;
        [by destruct (Hu r2)|by destruct (Hu r1)|by apply (K11 _ _ cl)].
    + done.
  - intros x Hx. unfold guest. change (csz d') with (csz d). unfold host. rewrite swap_entry by (apply Z.div_pos; lia).
    destruct (host_of (entry_at d (x / csz d))) as [a|] eqn:Ha; [|done].
    assert (0 <= x / csz d < l1_size (hd d) * n2 d) as Hxc by (unfold span in Hx; split; [apply Z.div_pos; lia|apply Z.div_lt_upper_bound; lia]).
    destruct (host_place d _ a Hd Hxc Ha) as ([q ->] & _ & Hb & _). pose proof (Z.mod_pos_bound x (csz d) ltac:(lia)).
    apply (swap_role (RData (x / csz d)) q); try done; [|split; lia]. split; [done|]. by apply host_of_place.
  - intros cl x [_ Hfz] Hne Hx. apply (swap_safe cl); try done; [intros Hr; by destruct (Hfz _ Hr)|].
    intros j e0 Hr Hj. by apply (proj1 (Hfz _ Hr)).
Qed.
End swap.

Lemma env_new : l2_env (csz d) (l2own l1') (l2blk l1').
Proof.
  destruct env_mid as [Hid Ho [Hb1 Hb2]].
  assert (forall k0 a, l2blk l1' k0 = Some a -> blk_mid k0 = Some a) as Hsub.
  { intros k0 a. rewrite blk_new. unfold blk_mid. repeat case_decide; done. }
  constructor.
  - intros k0 a Ha%Hsub. by apply Hid.
  - intros k0 (j & e0 & Hj & Ea & _ & Hne). apply l2blk_Some. eauto 10.
  - split; [intros k0 a Ha%Hsub; by apply (Hb1 k0)|]. intros k1 k2 a1 a2 H1%Hsub H2%Hsub. by apply Hb2.
Qed.
Lemma not_own_old : ~ l2own l1' (l2addr e).
Proof.
  intros [Hk|(j & e0 & Hj & Ea & Hco & Hne)]%own_new; [by eapply new_addr|].
  assert (j = i) as -> by (eapply (l1_inj d _ _ e0 e); try done; congruence). rewrite He in Hj. congruence.
Qed.

(** The tables are apart from the L1 table. *)
Lemma tables_off_l1 k0 x : l2blk l1' k0 = Some k0 -> k0 <= x < k0 + csz d ->
  ~ l1_table_offset (hd d) <= x < l1_table_offset (hd d) + 8 * l1_size (hd d).
Proof.
  intros Hb Hx Hl. destruct (drv_numbers d Hd) as (_ & _ & _ & Hn & _).
  assert (exists q r, k0 = q * csz d /\ (q = c \/ uses d r q) /\ r <> RL1) as (q & r & -> & Hr & Hne).
  { rewrite blk_new in Hb. repeat case_decide; try done; [exists c, RHeader; split_and!; [done|by left|done]|].
    apply l2blk_Some in Hb as (_ & Hne & j & e0 & Hj & <-). destruct (k_l2 _ Hd j e0 Hj Hne) as ([q Hq] & _).
    exists q, (RL2 j). split_and!; [done| |done]. right. exists e0. split_and!; [done..|]. intros ->. lia. }
  assert (uses d RL1 q) as Hl1 by (unfold uses, meets; split_and!; lia).
  destruct Hr as [->|Hr]; [by apply (Hu RL1)|]. apply Hne. by apply (k_excl _ Hd _ _ q).
Qed.

Lemma l1_region : 0 < 8 * l1_size (hd d) /\ 0 <= l1_table_offset (hd d) /\
  l1_table_offset (hd d) + 8 * l1_size (hd d) <= blen (fl d) /\ l1_table_offset (hd d) + 8 * l1_size (hd d) < 2 ^ 61 /\
  Z.of_nat (length l1') = l1_size (hd d).
Proof.
  destruct (k_l1 _ Hd) as (_ & ? & ? & ?). pose proof (s_l1len _ (k_shape _ Hd)). pose proof (lookup_lt_Some _ _ _ He).
  unfold l1'. rewrite length_insert. split_and!; lia.
Qed.

(** [write_ctrl_cluster] of the L1 table. *)
Lemma save_l1 c5 f5 : l2_inv (csz d) (l2own l1') (l2blk l1') c5 f5 -> blen f5 = blen (fl d) -> bhealthy f5 ->
  exists f6, write_ctrl_cluster (l1_table_offset (hd d)) l1' f5 = (f6, Ok tt) /\ blen f6 = blen (fl d) /\ bhealthy f6 /\
    (forall x, ~ l1_table_offset (hd d) <= x < l1_table_offset (hd d) + 8 * l1_size (hd d) -> bcontent f6 x = bcontent f5 x) /\
    l2_inv (csz d) (l2own l1') (l2blk l1') c5 f6 /\
    (forall k0, view (csz d) (l2blk l1') c5 f6 k0 = view (csz d) (l2blk l1') c5 f5 k0) /\
    (forall j e0, l1' !! j = Some e0 -> ztab (bcontent f6) (l1_table_offset (hd d) + 8 * Z.of_nat j) 8 = be_bytes 8 e0).
Proof.
  intros Hi Hl Hh. destruct l1_region as (H1 & H2 & H3 & H4 & H5). unfold write_ctrl_cluster. destruct (table_bytes l1') as [Hb Hlen].
  destruct (drv_numbers d Hd) as (_ & _ & _ & Hn & _). set (buf := concat _) in *.
  destruct (write_buffer (l1_table_offset (hd d)) buf f5) as [f6 r] eqn:Ew.
  pose proof Ew as (Wo & _ & _ & Wok & Wh)%write_buffer_law; [|done|intros E; rewrite E in Hlen; simpl in Hlen; lia|lia|lia].
  destruct Wh as (Hh6 & -> & Hl6); [done|rewrite Hl; apply (w_layout _ (i_wf _ (k_image _ Hd)))|right; lia|].
  destruct (l2_inv_file (csz d) ltac:(lia) _ _ c5 f5 f6 env_new) as [Hi6 Hv6]; [|done|].
  { intros k0 x Hb0 Hx. apply Wo. pose proof (tables_off_l1 k0 x Hb0 Hx). lia. }
  exists f6. split_and!; try done; [lia|intros x Hx; apply Wo; lia|].
  intros j e0 Hj. apply list_eq_same_length with 8%nat; [apply be_bytes_length|apply ztab_length|]. intros m b1 b2 Hm E1 E2.
  rewrite ztab_lookup in E1 by done. injection E1 as <-. specialize (Wok eq_refl (8 * j + m)%nat b2).
  replace (l1_table_offset (hd d) + 8 * Z.of_nat j + Z.of_nat m) with (l1_table_offset (hd d) + Z.of_nat (8 * j + m)) by lia.
  apply Wok. by apply table_bytes_lookup with e0.
Qed.

(** The new table is written, and cached in place of what the cache may have
    for its cluster. *)
Lemma cache_new_table bytes : is_bytes bytes -> Z.of_nat (length bytes) = csz d ->
  let ct := mkTable no_dirty 0 k 8 bytes in
  exists f3 c5 f5, write_buffer k bytes (fl d) = (f3, Ok tt) /\
    cache_l2_table (next_cell (lc d)) (set_l2_cache (new_cell ct (lc d)).1 (table d), f3) = ((set_l2_cache c5 (table d), f5), Ok tt) /\
    cache_map c5 !! k = Some (next_cell (lc d)) /\ l2_inv (csz d) (l2own l1') (l2blk l1') c5 f5 /\
    view (csz d) (l2blk l1') c5 f5 k = Some bytes /\
    (forall k0, k0 <> k -> k0 <> l2addr e -> view (csz d) (l2blk l1') c5 f5 k0 = l2bytes d k0) /\
    blen f5 = blen (fl d) /\ bhealthy f5 /\
    (forall x, ~ k <= x < k + csz d -> ~ in_own (csz d) (l2own (l1 d)) x -> bcontent f5 x = bcontent (fl d) x).
Proof.
  intros Hby Hlen ct. destruct v_facts as (Ev & _ & _ & Hk). destruct (drv_numbers d Hd) as (_ & _ & _ & Hn & H512 & _).
  destruct Hin as (I1 & I2 & I3). destruct (write_buffer k bytes (fl d)) as [f3 r] eqn:Ew.
  pose proof Ew as (Wo & _ & _ & Wok & Wh)%write_buffer_law; [|done|intros E; rewrite E in Hlen; simpl in Hlen; lia|lia|lia].
  destruct (w_layout _ (i_wf _ (k_image _ Hd))) as [_ _ _ _ _ Hal Hh]. destruct Wh as (Hh3 & -> & Hl3); [done..|right; lia|].
  destruct (l2_inv_file (csz d) ltac:(lia) _ _ (lc d) (fl d) f3 (l2_env_ok d Hd)) as [Hi3 Hv3]; [|apply Hd|].
  { intros k0 x Hb0 Hx. apply Wo. apply l2blk_Some in Hb0 as (_ & Hne & j & e0 & Hj & <-). destruct (k_l2 _ Hd j e0 Hj Hne) as [Hal0 _].
    destruct (aligned_apart (csz d) (l2addr e0) k); [lia|done|by exists c|by eapply new_addr|lia..]. }
  assert (l2blk (l1 d) k = None) as Hbk.
  { destruct (l2blk (l1 d) k) as [a|] eqn:Eb; [|done]. apply l2blk_Some in Eb as (_ & _ & j & e0 & Hj & Ea). by destruct (new_addr j e0 Hj). }
  destruct (l2_add (csz d) H512 ltac:(lia) _ (l2own l1') _ blk_mid (lc d) f3 k env_mid Hi3 Hbk) as (Hi4 & Hv4 & Hvk4).
  { unfold blk_mid. by rewrite decide_True. }
  { intros k0 Hne. unfold blk_mid. by rewrite decide_False. }
  { intros k0 Hk0. split; [apply own_new; by right|]. by rewrite (le_own _ _ _ (l2_env_ok d Hd) _ Hk0). }
  assert (bytes = ztab (bcontent f3) k (Z.to_nat (csz d))) as Eb.
  { apply list_eq_same_length with (length bytes); [rewrite ztab_length; lia|done|]. intros m b1 b2 Hm E1 E2.
    rewrite ztab_lookup in E2 by lia. injection E2 as <-. symmetry. by apply Wok. }
  destruct (cache_l2_spec (csz d) H512 ltac:(lia) (l2own l1') blk_mid (table d) (lc d) f3 k ct env_mid)
    as (c5 & f5 & t5 & Hr5 & Hi5 & Hv5 & [Ho5 Hl5 Hh5] & Hm5 & _); try done.
  { constructor; [done|by rewrite Hl3, Z.max_l by lia|]. intros k0 a. unfold blk_mid. case_decide; [intros [= <-]; lia|].
    intros Ha. pose proof (fo_blocks _ _ _ (l2_file_ok d Hd) k0 a Ha). lia. }
  { unfold blk_mid. by rewrite decide_True. }
  { by rewrite Hvk4, <-Eb. }
  destruct (l2_drop (csz d) (l2own l1') blk_mid (l2blk l1') c5 f5 (l2addr e) env_new Hi5 not_own_old) as [Hi6 Hv6].
  { rewrite blk_new, decide_False, decide_True; [done..|]. by eapply new_addr. }
  { intros k0 Hne. rewrite blk_new. unfold blk_mid. case_decide; [done|]. by rewrite decide_False. }
  exists f3, c5, f5. split_and!; try done.
  - rewrite Hv6, Hv5, Hvk4, <-Eb; [done|]. intros Ek. by eapply new_addr.
  - intros k0 Hne1 Hne2. rewrite Hv6, Hv5, Hv4, Hv3 by done. done.
  - lia.
  - intros x Hx Hno. rewrite Ho5; [apply Wo; lia|]. intros (k0 & [->|Hk0]%own_new & Hx0); [done|]. apply Hno. by exists k0.
Qed.

Lemma install_table bytes : is_bytes bytes -> Z.of_nat (length bytes) = csz d ->
  l2addr e = 0 /\ bytes = replicate (Z.to_nat (csz d)) 0 \/ l2addr e <> 0 /\ l2bytes d (l2addr e) = Some bytes ->
  exists c5 f6, let d' := swapped c5 f6 in
    (forall B (K : sres (Qcow2Driver F) unit B),
       (_ ← on_dfile (write_buffer k bytes);
        l ← new_l2_table k bytes;
        _ ← on_table (cache_l2_table l);
        _ ← on_table (t_upd (update_l1_table (Z.of_nat i) v));
        _ ← on_table save_l1_table;
        K) d = K d') /\
    is_Some (cache_map (lc d') !! k) /\ drv_ok d' /\ (forall x, cnt d' x = cnt d x) /\
    (forall x, 0 <= x < span d -> guest d' x = guest d x) /\
    (forall c0, 0 <= c0 -> entry_at d' c0 = entry_at d c0) /\
    (forall r cl, uses d' r cl <-> if decide (r = RL2 i) then cl = c else uses d r cl) /\
    (forall cl x, frozen d cl -> cl <> c -> in_cluster d cl x -> bcontent f6 x = bcontent (fl d) x) /\ blen f6 = blen (fl d).
Proof.
  intros Hby Hlen Hbytes. destruct (cache_new_table bytes Hby Hlen) as (f3 & c5 & f5 & Hw & Hr5 & Hm5 & Hi5 & Hvk & Hvo & Hl5 & Hh5 & Hf5).
  destruct (save_l1 c5 f5 Hi5 Hl5 Hh5) as (f6 & Hr6 & Hl6 & Hh6 & Ho6 & Hi6 & Hv6 & Hdisk). exists c5, f6.
  assert (forall x, x < blen (fl d) -> ~ k <= x < k + csz d ->
    ~ l1_table_offset (hd d) <= x < l1_table_offset (hd d) + 8 * l1_size (hd d) -> ~ in_own (csz d) (l2own (l1 d)) x ->
    bcontent f6 x = bcontent (fl d) x) as Hf by (intros x _ Hx1 Hx2 Hx3; rewrite Ho6 by done; by apply Hf5).
  assert (forall k0, k0 <> k -> k0 <> l2addr e -> view (csz d) (l2blk l1') c5 f6 k0 = l2bytes d k0) as Hvo' by (intros; rewrite Hv6; by apply Hvo).
  assert (view (csz d) (l2blk l1') c5 f6 k = Some bytes) as Hvk' by by rewrite Hv6.
  destruct (swapped_ok c5 f6 bytes Hi6 Hvk' Hvo' Hbytes Hl6 Hh6 Hf Hdisk) as (H1 & H2 & H3 & H4).
  split_and!; try done; [|intros c0 H0; exact (swap_entry c5 f6 bytes Hvk' Hvo' Hbytes c0 H0)|exact (swap_uses c5 f6 bytes Hvk' Hvo' Hbytes)].
  intros B K. set (d3 := mkDrv (table d) (snapshot d) (mkRst (hd d) (rc (rs d)) f3)).
  assert (on_dfile (write_buffer k bytes) d = (d3, Ok tt)) as E1 by (unfold on_dfile, on_rs, on_file; by rewrite Hw).
  rewrite (sres_step _ _ _ _ _ E1). set (ct := mkTable no_dirty 0 k 8 bytes).
  set (d4 := mkDrv (set_l2_cache (new_cell ct (lc d)).1 (table d)) (snapshot d) (mkRst (hd d) (rc (rs d)) f3)).
  assert (new_l2_table k bytes d3 = (d4, Ok (next_cell (lc d)))) as E2 by done. rewrite (sres_step _ _ _ _ _ E2).
  set (d5 := mkDrv (set_l2_cache c5 (table d)) (snapshot d) (mkRst (hd d) (rc (rs d)) f5)).
  assert (on_table (cache_l2_table (next_cell (lc d))) d4 = (d5, Ok tt)) as E3.
  { unfold on_table. change (table d4, fl d4) with (set_l2_cache (new_cell ct (lc d)).1 (table d), f3). unfold ct. by rewrite Hr5. }
  rewrite (sres_step _ _ _ _ _ E3).
  set (d6 := mkDrv (set_l1_table l1' (set_l2_cache c5 (table d))) (snapshot d) (mkRst (hd d) (rc (rs d)) f5)).
  assert (on_table (t_upd (update_l1_table (Z.of_nat i) v)) d5 = (d6, Ok tt)) as E4.
  { unfold on_table, t_upd, update_l1_table. cbn [d5 table rs rf set_l2_cache l1_table]. by rewrite Nat2Z.id, He. }
  rewrite (sres_step _ _ _ _ _ E4).
  assert (on_table save_l1_table d6 = (swapped c5 f6, Ok tt)) as E5.
  { unfold on_table, save_l1_table, mbind, sres_bind, tget, t_file. cbn [d6 table rs rf set_l1_table set_l2_cache l1_table t_l1_table_offset fst].
    by rewrite (s_l1off _ (k_shape _ Hd)), Hr6. }
  by rewrite (sres_step _ _ _ _ _ E5).
Qed.
End new_table.
End remap.
