(* ===== verification/Qcow2Write.v ===== *)
(** * Writing to a qcow2 image

    Releasing a cluster, copying a shared L2 table, address translation for
    writes and [write_vectored]: the guest disk changes exactly in the range
    of the request, and no cluster a snapshot relies on changes. *)
From stdpp Require Import prelude list gmap.
From Stdlib Require Import ZArith Lia.
From S2P Require Import Prelude NumOps Qcow2Header SyncAio Qcow2Io FileDriver Qcow2Cache Qcow2CacheSpec Qcow2Refcount Qcow2RefcountSpec Qcow2RefcountUpdate Qcow2RefcountAlloc Qcow2ClusterAlloc Qcow2Snapshot Qcow2Table Qcow2L2Spec Qcow2Driver Qcow2Mapping Qcow2Read Qcow2Alloc Qcow2Remap.

Section write.
Context `{!HashIter} {F : Type} `{!BlockIo F, !BlockIoLaws F, !DataIo F, !DataIoLaws F}.
Implicit Types d : Qcow2Driver F.

Abbreviation hd d := (hdr (rs d)).
Abbreviation fl d := (rf (rs d)).
Abbreviation l1 d := (l1_table (table d)).
Abbreviation csz d := (rc_cluster_size (rc (rs d))).
Abbreviation cnt d := (refcount_of (rs d)).
Abbreviation n2 d := (csz d / 8).
Abbreviation lc d := (l2_table_cache (table d)).

(** ** Giving up a cluster *)

Record released n d cl (s' : rst F) : Prop := mkReleased {
  re_ok : drv_ok (with_rs d s');
  re_same : same_map d (with_rs d s');
  re_cnt : forall x, refcount_of s' x = cnt d x + delta cl (cl + 1) (-1) x;
  re_guest : forall x, 0 <= x < span d -> guest (with_rs d s') x = guest d x;
  re_frozen : forall cl x, frozen d cl -> in_cluster d cl x -> bcontent (rf s') x = bcontent (fl d) x;
  re_len : blen (rf s') = blen (fl d);
  re_room : room n s'
}.

Lemma release_spec n d cl flush_ dt :
  drv_ok d -> unused d cl -> cnt d cl <> 0 -> 0 <= cl -> (cl + 1) * csz d < 2 ^ 64 -> room n (rs d) ->
  exists s', update_refcount (cl * csz d) 1 (-1) flush_ dt (rs d) = (s', Ok tt) /\ released n d cl s'.
Proof.
  intros Hd Hu Hc H0 Hb Hroom. pose proof (k_image _ Hd) as Him. pose proof (i_wf _ Him) as Hw.
  pose proof (refcount_of_u16 _ cl Hw) as Hu16. unfold inW in Hu16.
  destruct (update_refcount_spec (rs d) cl 1 (-1) flush_ dt Hw H0 ltac:(lia) Hb ltac:(lia)) as
    (s' & r & Hr & [(-> & St & _)|(-> & _ & c0 & Hi & Hbad)]).
  2:{ exfalso. unfold inr in Hi. assert (c0 = cl) as -> by lia. destruct Hbad as [Hn|Hn].
      - apply Hc. by apply refcount_of_none.
      - apply Hn. unfold inW. lia. }
  exists s'. split; [done|]. destruct St as [Sw Sh Sg [So Sl Shl] Sc Sf St].
  destruct (geo_fields _ _ Sg) as (Et & Ec & Eb & Es & Ero & _).
  assert (forall x, x <> cl -> refcount_of s' x = cnt d x) as Hne by (intros x Hx; rewrite Sc, delta_out by (unfold inr; lia); lia).
  assert (forall r x, uses d r x -> refcount_of s' x <> 0) as Huse.
  { intros r x Hr0. rewrite Hne; [by eapply k_uses|]. intros ->. by apply (Hu r). }
  assert (image_ok s') as Hi'.
  { constructor; [done| | | | |].
    - intros k a. rewrite Et, Ec. intros Ha. destruct (l_blocks _ (w_layout _ Hw) k a Ha) as ([q Hq] & _).
      apply (Huse (RBlock k)). unfold uses. rewrite Ha, Hq. rewrite Z.div_mul; [done|]. pose proof (geo_numbers _ (w_geo _ Hw)). lia.
    - intros c. rewrite Ec, Ero, Es. apply (Huse RTable).
    - by apply (Huse RHeader).
    - rewrite Ec. eapply tasks_ok_mono; [|apply St, (i_disc _ Him)]. intros c [Hz|[Hi Hz]]; [|rewrite Sc, delta_in by done; lia].
      rewrite Hne; [done|]. by intros ->.
    - pose proof (i_free _ Him). destruct Sf as [->|[[Hi _] _]]; [done|]. unfold inr in Hi. lia. }
  destruct (rs_frame_uses (fun _ => False) d s') as (K1 & K2 & K3 & K4); try done; [lia| |].
  - intros c x _ _ Hno [Hx _]. apply So. intros (k & a & Ha & Hxa). destruct (drv_numbers d Hd) as (_ & _ & _ & Hn & _).
    destruct (l_blocks _ (w_layout _ Hw) k a Ha) as ([q Hq] & _). apply (Hno k). unfold uses. rewrite Ha, Hq. do 2 f_equal. nia.
  - constructor; try done; [intros c x Hfz Hx; apply (K4 c x Hfz); [intros []|done]|]. eapply room_keep; [|done| |exact Hroom].
    + destruct Sf as [->|[_ ?]]; lia.
    + intros x Hx. rewrite Hne; [done|]. by intros ->.
Qed.

(** ** Steps that keep the guest disk *)

(** Tables may move, guest clusters do not; [P] are new clusters. *)
Record moved (P : Z -> Prop) d d' : Prop := mkMoved {
  mv_ok : drv_ok d';
  mv_hdr : hd d' = hd d;
  mv_snap : snapshot d' = snapshot d;
  mv_geo : geo (rc (rs d')) = geo (rc (rs d));
  mv_entry : forall c, 0 <= c -> entry_at d' c = entry_at d c;
  mv_guest : forall x, 0 <= x < span d -> guest d' x = guest d x;
  mv_frozen : forall cl, frozen d cl -> ~ P cl ->
    frozen d' cl /\ forall x, in_cluster d cl x -> bcontent (fl d') x = bcontent (fl d) x;
  mv_len : blen (fl d) <= blen (fl d')
}.
Definition none (cl : Z) : Prop := False.

Lemma moved_fields P d d' : moved P d d' -> csz d' = csz d /\ span d' = span d.
Proof. intros Hm. destruct (geo_fields _ _ (mv_geo _ _ _ Hm)) as (_ & Ec & _). unfold span. by rewrite (mv_hdr _ _ _ Hm), Ec. Qed.
Lemma moved_trans P d1 d2 d3 : moved P d1 d2 -> moved P d2 d3 -> moved P d1 d3.
Proof.
  intros Hm1 Hm2. destruct (moved_fields _ _ _ Hm1) as [Ec Es]. destruct Hm1 as [K1 H1 S1 G1 E1 U1 F1 L1], Hm2 as [K2 H2 S2 G2 E2 U2 F2 L2].
  constructor; try congruence; [intros; by rewrite E2, E1|intros x Hx; rewrite U2, U1; [done..|by rewrite Es]| |lia].
  intros cl Hf Hp. destruct (F1 cl Hf Hp) as [Hf1 Hx1]. destruct (F2 cl Hf1 Hp) as [Hf2 Hx2]. split; [done|]. intros x Hx. rewrite Hx2, Hx1; [done..|].
  destruct Hx. split; [by rewrite Ec|lia].
Qed.
Lemma moved_mono (P Q : Z -> Prop) d d' : (forall cl, frozen d cl -> P cl -> Q cl) -> moved P d d' -> moved Q d d'.
Proof. intros HP [K Hh S G E U Fz L]. constructor; try done. intros cl Hf Hq. apply Fz; [done|]. auto. Qed.
Lemma keeps_moved P d d' : drv_ok d -> keeps P d d' -> moved P d d'.
Proof.
  intros Hd Hk. pose proof Hk as [K S C G Zf L]. constructor; try apply S; try done; [intros; by apply same_entry|].
  intros cl Hf Hp. split; [by apply (keeps_frozen P d)|]. intros x Hx. by apply (Zf cl).
Qed.
Lemma reads_moved P d d' : drv_ok d -> reads d d' -> moved P d d'.
Proof. intros Hd Hr. apply keeps_moved; [done|]. by apply reads_keeps. Qed.
Lemma moved_haddr P d d' x : 0 <= x -> drv_ok d -> moved P d d' -> haddr d' x = haddr d x.
Proof.
  intros Hx Hd Hm. destruct (moved_fields _ _ _ Hm) as [Ec _]. destruct (drv_numbers d Hd) as (_ & _ & _ & Hn & _).
  unfold haddr, host. rewrite Ec, (mv_entry _ _ _ Hm); [done|]. apply Z.div_pos; lia.
Qed.

Lemma release_moved P n d q s' : drv_ok d -> unused d q -> released n d q s' -> P q \/ 2 <= cnt d q -> moved P d (with_rs d s').
Proof.
  intros Hd Hu [R1 R2 R3 R4 R5 R6 R7] Hq. constructor; try apply R2; try done; [intros; by apply same_entry| |cbn [rs with_rs]; lia].
  intros cl Hf Hp. split; [|intros x Hx; by apply (R5 cl)].
  assert (forall y, cnt (with_rs d s') y = cnt d y + delta q (q + 1) (-1) y) as Hc by done. pose proof (count_nonneg d cl Hd) as Hnn.
  destruct (decide (cl = q)) as [->|Hne].
  - destruct Hq as [|H2]; [done|]. split; [rewrite Hc, delta_in by (unfold inr; lia); lia|]. intros r Hr%(same_uses _ _ r q R2). by destruct (Hu r).
  - apply (frozen_same d); [done| |done|done]. intros _. rewrite Hc, delta_out by (unfold inr; lia). lia.
Qed.

(** ** [get_table_cluster] *)

(** The table an L1 entry points to, or zeroes. *)
Lemma old_table d x e :
  drv_ok d -> 0 <= x < size (hd d) -> l1 d !! Z.to_nat (x / csz d / n2 d) = Some e ->
  exists d' bytes, (forall B (K : list Z -> sres (Qcow2Driver F) unit B),
      (entry ← on_table (get_l2_table_cache_entry x);
       cs ← dget (fun d => cluster_size (hd d));
       l2_cluster ← (match entry with
                     | Some l => ct ← on_table (t_read l); mret (table_data ct)
                     | None => if negb (l2addr e =? 0) then load_cluster (l2addr e) else mret (replicate (Z.to_nat cs) 0)
                     end);
       K l2_cluster) d = K bytes d') /\
    reads d d' /\ is_bytes bytes /\ Z.of_nat (length bytes) = csz d /\
    (l2addr e = 0 /\ bytes = replicate (Z.to_nat (csz d)) 0 \/ l2addr e <> 0 /\ l2bytes d (l2addr e) = Some bytes).
Proof.
  intros Hd Hx He. destruct (drv_numbers d Hd) as (_ & _ & Ecs & Hn & _). destruct (l1_entry_of d x Hd Hx) as (e' & He' & Hent & _).
  rewrite He in He'. injection He' as <-.
  destruct (Z.eqb_spec (l2addr e) 0) as [Hz|Hz].
  - exists d, (replicate (Z.to_nat (csz d)) 0). split_and!; [|by apply reads_refl|by apply Forall_replicate|rewrite length_replicate; lia|by left].
    intros B K. assert (on_table (get_l2_table_cache_entry x) d = (d, Ok None)) as Hce.
    { unfold on_table, get_l2_table_cache_entry. unfold mbind at 1, sres_bind at 1, tget. cbn [fst id]. rewrite Hent, slift_Ok_bind.
      fold (l2addr e). rewrite Hz. simpl. by destruct d as [? ? []]. }
    rewrite (sres_step _ _ _ _ _ Hce). unfold mbind at 1, sres_bind at 1, dget. by rewrite Ecs.
  - destruct (cache_get_reads d (l2addr e) Hd) as (d0 & Hg & Hr & Em).
    assert (on_table (get_l2_table_cache_entry x) d = (d0, Ok (cache_map (lc d) !! l2addr e))) as Hce.
    { rewrite <-Hg. unfold on_table, get_l2_table_cache_entry. unfold mbind at 1, sres_bind at 1, tget. cbn [fst id].
      rewrite Hent, slift_Ok_bind. fold (l2addr e). by rewrite (proj2 (Z.eqb_neq _ 0)) by done. }
    destruct (l2_table_of d _ e Hd He Hz) as (Hb & bytes & Hv & Hby & Hlen). pose proof (rd_ok _ _ Hr) as Hd0.
    destruct (same_fields _ _ (rd_same _ _ Hr)) as (El & Ec & _). pose proof (sm_l2 _ _ (rd_same _ _ Hr) (l2addr e)) as Ev.
    assert (cluster_size (hd d0) = csz d) as Ecs0 by by rewrite (sm_hdr _ _ (rd_same _ _ Hr)).
    destruct (cache_map (lc d) !! l2addr e) as [l|] eqn:Em0.
    + destruct (table_cell d0 (l2addr e) l Hd0) as (t & Ht & _ & _ & _ & Hdat); [unfold has_table; by rewrite Em|].
      rewrite Ev, Hv, El in Hdat. specialize (Hdat _ Hb). injection Hdat as ->. exists d0, (table_data t). split_and!; try done; [|by right].
      intros B K. rewrite (sres_step _ _ _ _ _ Hce). unfold mbind at 1, sres_bind at 1, dget.
      assert (on_table (t_read l) d0 = (d0, Ok t)) as Hrd by (unfold on_table, t_read; cbn [fst]; rewrite Ht; by destruct d0 as [? ? []]).
      assert ((ct ← on_table (t_read l); mret (table_data ct)) d0 = (d0, Ok (table_data t))) as Hrr by by rewrite (sres_step _ _ _ _ _ Hrd).
      by rewrite (sres_step _ _ _ _ _ Hrr).
    + destruct (load_table_spec d0 (Z.to_nat (x / csz d / n2 d)) e) as (d1 & _ & _ & _ & bytes' & _ & R1 & _ & _ & Hv' & _); [done|by rewrite El|done|by rewrite Em|].
      rewrite Ev, Hv in Hv'. injection Hv' as <-.
      destruct (k_l2 _ Hd0 (Z.to_nat (x / csz d / n2 d)) e) as [Hal Hin]; [by rewrite El|done|].
      destruct (load_cluster_spec d0 (l2addr e) Hd0 Hal Hin) as (f1 & R1' & _ & _ & _ & Hr1). rewrite R1 in R1'. injection R1' as -> E.
      eexists _, bytes. split_and!; [|by eapply reads_trans|done|done|by right].
      intros B K. rewrite (sres_step _ _ _ _ _ Hce). unfold mbind at 1, sres_bind at 1, dget.
      cbn [negb]. by rewrite (sres_step _ _ _ _ _ R1).
Qed.

Lemma unused_same d d' c : same_map d d' -> unused d c -> unused d' c.
Proof. intros Hs Hu r Hr%(same_uses d d' r c Hs). by apply (Hu r). Qed.

(** Replacing the L2 table of an entry, once its cluster is allocated. *)
Lemma swap_moved (P : Z -> Prop) d i c c5 f6 :
  let d' := swapped d i c c5 f6 in
  drv_ok d -> P c -> drv_ok d' -> (forall x, cnt d' x = cnt d x) ->
  (forall x, 0 <= x < span d -> guest d' x = guest d x) ->
  (forall c0, 0 <= c0 -> entry_at d' c0 = entry_at d c0) ->
  (forall r cl, uses d' r cl <-> if decide (r = RL2 i) then cl = c else uses d r cl) ->
  (forall cl x, frozen d cl -> cl <> c -> in_cluster d cl x -> bcontent f6 x = bcontent (fl d) x) -> blen f6 = blen (fl d) ->
  moved P d d'.
Proof.
  intros d' Hd HP Hd' Hcnt Hgu Hent Huse Hfz Hl. constructor; try done; [|cbn [d' swapped rs rf]; lia].
  intros cl Hf Hp. assert (cl <> c) as Hne by congruence. split; [|intros x Hx; by apply (Hfz cl)].
  destruct Hf as [Hf1 Hf2]. split; [by rewrite Hcnt|]. intros r Hr%Huse. destruct (decide (r = RL2 i)) as [|Hri]; [done|].
  destruct (Hf2 r Hr) as [Hsh H2]. split; [|by rewrite Hcnt]. destruct r as [| |k| |j|c0|]; try done; unfold shared in *.
  - intros e0. change (l1 d') with (<[i := Z.lor (c * csz d) QCOW2_OFFSET_COPIED]> (l1 d)). rewrite list_lookup_insert_ne by congruence. apply Hsh.
  - rewrite Hent; [done|]. destruct Hr. lia.
Qed.

Lemma new_l2_for_spec n d x e i :
  drv_ok d -> 0 <= x < size (hd d) -> i = Z.to_nat (x / csz d / n2 d) -> l1 d !! i = Some e -> copied e = false ->
  0 <= n -> room (n + 1) (rs d) ->
  exists d' c, new_l2_for x (Z.of_nat i) e d = (d', Ok (c * csz d)) /\ moved none d d' /\ room n (rs d') /\
    is_Some (cache_map (lc d') !! (c * csz d)) /\
    exists v, l1 d' !! i = Some v /\ l2addr v = c * csz d /\ copied v = true.
Proof.
  intros Hd Hx Ei He Hco Hn Hroom. destruct (drv_numbers d Hd) as (_ & _ & _ & Hcs & H512 & _).
  destruct (alloc_cluster_spec n false d Hd Hn Hroom) as (d1 & c & R1 & [Hk1 Hro1 Hfree Hcn1 [Hc0 Hc56] Hin1 _ _]).
  unfold new_l2_for. fold (l2addr e). rewrite (sres_step _ _ _ _ _ R1). pose proof (kp_ok _ _ _ Hk1) as Hd1. pose proof (kp_same _ _ _ Hk1) as Hs1.
  destruct (same_fields _ _ Hs1) as (El1 & Ec1 & _). pose proof (sm_hdr _ _ Hs1) as Eh1.
  destruct (old_table d1 x e Hd1) as (d2 & bytes & R2 & Hr2 & Hby & Hlen & Hold); [by rewrite Eh1|by rewrite El1, Ec1, <-Ei|].
  rewrite (R2 _ _). pose proof (rd_ok _ _ Hr2) as Hd2. pose proof (rd_same _ _ Hr2) as Hs2. destruct (same_fields _ _ Hs2) as (El2 & Ec2 & _).
  assert (csz d2 = csz d) as Ec by congruence. rewrite <-Ec.
  assert (forall y, cnt d2 y = cnt d y + delta c (c + 1) 1 y) as Hcn2 by (intros y; by rewrite (rd_cnt _ _ Hr2)).
  assert (cnt d2 c <> 0) as Hc2 by (rewrite Hcn2, delta_in by (unfold inr; lia); lia).
  assert (unused d2 c) as Hu2 by by apply (unused_same d1), (unused_same d), free_unused.
  assert (l1 d2 !! i = Some e) as He2 by by rewrite El2, El1.
  assert (in_file d2 (c * csz d2) (csz d2)) as Hin2 by (rewrite Ec; destruct Hin1 as (? & ? & ?); split_and!; [done|by rewrite (rd_len _ _ Hr2)|done]).
  assert (l2addr e = 0 /\ bytes = replicate (Z.to_nat (csz d2)) 0 \/ l2addr e <> 0 /\ l2bytes d2 (l2addr e) = Some bytes) as Hold2
    by (rewrite Ec2, (sm_l2 _ _ Hs2); exact Hold).
  destruct (install_table d2 i e c Hd2 He2 Hco Hu2 Hc2 ltac:(rewrite Ec; lia) Hin2 bytes Hby ltac:(by rewrite Ec2) Hold2)
    as (c5 & f6 & R3 & Hcache & Hok & Hcnt & Hgu & Hent & Huse & Hfz & Hlf).
  rewrite (R3 _ _). set (d3 := swapped d2 i c c5 f6) in *. set (q := l2addr e / csz d).
  set (P := fun cl => cl = c \/ cl = q /\ l2addr e <> 0 /\ cnt d q < 2).
  assert (moved P d d3) as Hm3.
  { eapply moved_trans; [apply keeps_moved; [done|]; eapply keeps_mono; [|exact Hk1]; intros cl _ <-; by left|].
    eapply moved_trans; [by apply (reads_moved P d1)|]. apply swap_moved; try done. by left. }
  assert (forall d', moved P d d' -> moved none d d') as Hdrop.
  { intros d'. apply moved_mono. intros cl [Hf1 Hf2] [->|(-> & Hz & Hlt)]; [done|]. destruct (k_l2 _ Hd i e He Hz) as ([q' Hq] & _).
    destruct (Hf2 (RL2 i)) as [_ [?|?]]; [|done|lia]. exists e. unfold q. rewrite Hq, Z.div_mul by lia. split_and!; [done..|]. intros ->. lia. }
  destruct (new_l1_entry (csz d2) c ltac:(by rewrite Ec) ltac:(lia) ltac:(lia) ltac:(rewrite Ec; lia)) as (V1 & V2 & _).
  assert (l1 d3 !! i = Some (Z.lor (c * csz d2) QCOW2_OFFSET_COPIED)) as Hv by (apply list_lookup_insert_eq; by eapply lookup_lt_Some).
  assert (room n (rs d3)) as Hro3.
  { eapply room_keep; [..|exact Hro1]; [by rewrite <-(rd_rc _ _ Hr2)|by rewrite <-(rd_rc _ _ Hr2)|]. intros y Hy. by rewrite Hcnt, (rd_cnt _ _ Hr2). }
  destruct (Z.eqb_spec (l2addr e) 0) as [Hz|Hz].
  { exists d3, c. split_and!; try done; [by apply Hdrop|by eexists]. }
  destruct (k_l2 _ Hd2 i e He2 Hz) as ([q' Hq] & Hq0 & _ & Hqb).
  assert (q' = q) as -> by (unfold q; by rewrite Hq, Ec, Z.div_mul by lia).
  assert (uses d2 (RL2 i) q) as Holdu by (exists e; split_and!; [done..|]; intros ->; lia).
  assert (q <> c) as Hqc by (intros ->; by apply (Hu2 (RL2 i))).
  assert (unused d3 q) as Hu3 by (intros r Hr%Huse; case_decide; [done|]; by pose proof (k_excl _ Hd2 _ _ _ Hr Holdu)).
  assert (cnt d3 q = cnt d q) as Hcq by (rewrite Hcnt, Hcn2, delta_out by (unfold inr; lia); lia).
  destruct (release_spec n d3 q true DOther Hok Hu3) as (s' & R4 & Hrel); [rewrite Hcnt; by eapply k_uses|change (csz d3) with (csz d2); nia|change (csz d3) with (csz d2); lia|done|].
  change (csz d3) with (csz d2) in R4. rewrite Hq. cbn [negb]. rewrite (sres_step _ _ _ _ _ (on_rs_with _ d3 s' _ R4)). exists (with_rs d3 s'), c.
  split_and!; try done; [|apply Hrel|by eexists]. apply Hdrop. eapply moved_trans; [exact Hm3|]. eapply release_moved; try done.
  rewrite Hcq. destruct (Z.lt_ge_cases (cnt d q) 2); [left; by right|by right].
Qed.

Lemma room_less n d : drv_ok d -> 0 <= n -> room (n + 1) (rs d) -> room n (rs d).
Proof. intros Hd Hn. apply room_mono; [apply (k_image _ Hd)|lia]. Qed.
Lemma reads_room n d d' : reads d d' -> room n (rs d) -> room n (rs d').
Proof. intros Hr. apply room_keep; [by rewrite (rd_rc _ _ Hr)|by rewrite (rd_rc _ _ Hr)|]. intros y Hy. by rewrite (rd_cnt _ _ Hr). Qed.

(** A cached table, or one that is loaded. *)
Lemma fetch_table d i e : drv_ok d -> l1 d !! i = Some e -> l2addr e <> 0 ->
  exists d' l, (entry ← on_table (t_cache (cache_get (l2addr e)));
                match entry with
                | Some l => mret l
                | None =>
                  l2_cluster ← load_cluster (l2addr e);
                  l ← new_l2_table (l2addr e) l2_cluster;
                  _ ← on_table (cache_l2_table l);
                  mret l
                end) d = (d', Ok l) /\ reads d d' /\ has_table d' (l2addr e) l.
Proof.
  intros Hd He Hne. destruct (cache_get_reads d (l2addr e) Hd) as (d0 & Hg & Hr & Em). rewrite (sres_step _ _ _ _ _ Hg).
  destruct (cache_map (lc d) !! l2addr e) as [l|] eqn:E.
  - exists d0, l. split_and!; try done. unfold has_table. by rewrite Em.
  - destruct (same_fields _ _ (rd_same _ _ Hr)) as (El & _).
    destruct (load_table_spec d0 i e) as (d1 & d2 & d3 & l & bytes & ct & R1 & R2 & R3 & _ & _ & Hr3 & Ht & _);
      [apply Hr|by rewrite El|done|by rewrite Em|].
    rewrite (sres_step _ _ _ _ _ R1), (sres_step _ _ _ _ _ R2), (sres_step _ _ _ _ _ R3). exists d3, l.
    split_and!; try done. by eapply reads_trans.
Qed.

Lemma get_table_cluster_spec n d x :
  drv_ok d -> 0 <= x < size (hd d) -> 0 <= n -> room (n + 1) (rs d) ->
  exists d' l v, get_table_cluster x d = (d', Ok l) /\ moved none d d' /\ room n (rs d') /\
    l1 d' !! Z.to_nat (x / csz d / n2 d) = Some v /\ copied v = true /\ has_table d' (l2addr v) l.
Proof.
  intros Hd Hx Hn Hroom. destruct (drv_numbers d Hd) as (Hb & Epow & Ecs & Hcs & _). pose proof (proj1 (s_size _ (k_shape _ Hd))) as Hs61.
  destruct (l1_entry_of d x Hd Hx) as (e & He & Hent & _ & Hi). set (i := Z.to_nat (x / csz d / n2 d)) in *.
  unfold get_table_cluster. unfold mbind at 1, sres_bind at 1, dget at 1, id. cbv beta iota zeta.
  rewrite (l1_index d x Hd) by lia. rewrite (proj2 (Z.leb_gt _ _)) by lia. rewrite Hent, slift_Ok_bind. fold (l2addr e).
  assert (Z.land (l2addr e) (wsub 64 (cluster_size (hd d)) 1) = 0) as ->.
  { rewrite Ecs, Epow, land_mask by lia. rewrite <-Epow. destruct (Z.eq_dec (l2addr e) 0) as [->|Hne]; [apply Z.mod_0_l; lia|].
    destruct (k_l2 _ Hd i e He Hne) as [[q ->] _]. by apply Z.mod_mul; lia. }
  cbn [Z.eqb negb]. destruct (copied e) eqn:Ec; unfold copied in Ec; [apply negb_true_iff in Ec|apply negb_false_iff in Ec]; rewrite Ec.
  - rewrite sret_bind. assert (copied e = true) as Hco by (unfold copied; by rewrite Ec). pose proof (k_copied _ Hd i e He Hco) as Hne.
    destruct (fetch_table d i e Hd He Hne) as (d' & l & R & Hr & Ht). exists d', l, e. destruct (same_fields _ _ (rd_same _ _ Hr)) as (El & _).
    split_and!; try done; [by apply reads_moved|eapply reads_room; [done|by apply room_less]|by rewrite El].
  - assert (copied e = false) as Hco by (unfold copied; by rewrite Ec).
    destruct (new_l2_for_spec n d x e i Hd Hx eq_refl He Hco Hn Hroom) as (d1 & c & R1 & Hm1 & Hro1 & [l Hl] & v & Hv & Ev & Hcv).
    replace (x / csz d / n2 d) with (Z.of_nat i) by (unfold i; lia). rewrite (sres_step _ _ _ _ _ R1).
    destruct (cache_get_reads d1 (c * csz d) (mv_ok _ _ _ Hm1)) as (d2 & Hg & Hr2 & Em). rewrite (sres_step _ _ _ _ _ Hg), Hl.
    exists d2, l, v. destruct (same_fields _ _ (rd_same _ _ Hr2)) as (El & _).
    split_and!; try done; [|by eapply reads_room|by rewrite El|unfold has_table; by rewrite Ev, Em].
    eapply moved_trans; [done|]. apply reads_moved; [apply Hm1|done].
Qed.

(** ** A new data cluster *)

(** [update_l2_table] does not use the file. *)
Lemma update_l2_pure l i v t (f : F) t' (f2 : F) :
  update_l2_table l i v (t, f) = ((t', f), Ok tt) -> update_l2_table l i v (t, f2) = ((t', f2), Ok tt).
Proof.
  unfold update_l2_table, mbind, sres_bind, t_read, slift, t_write, t_cache. cbn [fst].
  destruct (unwrap _) as [ct| |]; try done. destruct (set_entry_map ct i v) as [ct'| |]; try done. cbn.
  destruct (is_dirty (dirty_info ct)); cbn; by intros [= <-].
Qed.

Lemma assign_data d c e l q :
  drv_ok d -> 0 <= c < l1_size (hd d) * n2 d -> l1 d !! Z.to_nat (c / n2 d) = Some e -> copied e = true -> has_table d (l2addr e) l ->
  unused d q -> cnt d q <> 0 -> 0 < q /\ (q + 1) * csz d <= 2 ^ 56 -> in_file d (q * csz d) (csz d) ->
  exists c', let d' := with_l2 d c' (fl d) in
    on_table (update_l2_table l (c `mod` n2 d) (Z.lor (q * csz d) QCOW2_OFFSET_COPIED)) d = (d', Ok tt) /\ drv_ok d' /\
    (forall c0, 0 <= c0 -> entry_at d' c0 = if decide (c0 = c) then Z.lor (q * csz d) QCOW2_OFFSET_COPIED else entry_at d c0) /\
    (forall r cl, uses d' r cl -> r <> RData c -> uses d r cl) /\ (forall cl, uses d' (RData c) cl -> cl = q) /\
    (forall y, 0 <= y < span d -> guest d' y = if decide (y / csz d = c) then bcontent (fl d) (q * csz d + y `mod` csz d) else guest d y) /\
    (forall cl, frozen d cl -> cl <> q -> frozen d' cl).
Proof.
  intros Hd Hc He Hco Hl Hu Hcq [Hq Hq56] Hin. destruct (drv_numbers d Hd) as (_ & _ & _ & Hn & H512 & _).
  destruct (new_data_entry (csz d) q H512) as (T1 & T2 & _ & T4 & T5); [lia..|]. set (w := Z.lor (q * csz d) QCOW2_OFFSET_COPIED) in *.
  assert (host_of w = Some (q * csz d)) as Hw by (unfold host_of; by rewrite bool_decide_eq_true_2, T2 by done).
  pose proof (host_of_place _ _ Hw) as Hwp.
  destruct (set_entry_step d c e l w Hd Hc He Hco Hl) as (c' & Hr & Hok & _ & Hent & Huse).
  { split_and!; [done| |].
    - unfold entry_ok. rewrite T1, T2. split; [by exists q|done].
    - intros q' Hq'. rewrite Hwp in Hq'. assert (q' = q) as -> by (injection Hq'; nia). split; [done|]. intros r Hr. by destruct (Hu r). }
  exists c'. set (d' := with_l2 d c' (fl d)) in *.
  assert (forall r cl, uses d' r cl -> r <> RData c -> uses d r cl) as Hoth by (intros r cl Hr0%Huse Hne; unfold uses_set in Hr0; by rewrite decide_False in Hr0).
  assert (forall cl, uses d' (RData c) cl -> cl = q) as Hnew.
  { intros cl Hr0%Huse. unfold uses_set in Hr0. rewrite decide_True, Hwp in Hr0 by done. injection Hr0. nia. }
  split_and!; try done.
  - intros y Hy. assert (0 <= y / csz d) by (apply Z.div_pos; lia). unfold guest, host. change (csz d') with (csz d). rewrite Hent by done.
    case_decide; [by rewrite Hw|done].
  - intros cl [Hf1 Hf2] Hne. assert (forall y, cnt d' y = cnt d y) as Hcnt by (intros y; change (rs d') with (mkRst (hd d) (rc (rs d)) (fl d)); by rewrite rst_eta).
    split; [by rewrite Hcnt|]. intros r Hr0. destruct (decide (r = RData c)) as [->|Hrc]; [by apply Hnew in Hr0|].
    destruct (Hf2 r (Hoth r cl Hr0 Hrc)) as [Hsh H2]. split; [|by rewrite Hcnt]. destruct r as [| |k| |j|c0|]; try done.
    unfold shared in *. rewrite Hent, decide_False; [done|congruence|]. destruct Hr0. lia.
Qed.

(** ** [host_offset_for_write] *)

(** The step from [d] to [d'] makes the cluster of offset [x] ready for a write
    of [nb] bytes: it has a place of its own, and the guest disk is the same
    outside of the range that is to be written. *)
Record ready (x nb : Z) d d' : Prop := mkReady {
  ry_ok : drv_ok d';
  ry_hdr : hd d' = hd d;
  ry_snap : snapshot d' = snapshot d;
  ry_geo : geo (rc (rs d')) = geo (rc (rs d));
  ry_entry : forall c, 0 <= c -> c <> x / csz d -> entry_at d' c = entry_at d c;
  ry_own : get_cluster_type (entry_at d' (x / csz d)) = Normal /\ copied (entry_at d' (x / csz d)) = true;
  ry_guest : forall y, 0 <= y < span d -> ~ x <= y < x + nb -> guest d' y = guest d y;
  ry_frozen : forall cl, frozen d cl -> frozen d' cl /\ forall y, in_cluster d cl y -> bcontent (fl d') y = bcontent (fl d) y;
  ry_len : blen (fl d) <= blen (fl d')
}.

Lemma moved_ready x nb d d1 d2 : moved none d d1 -> ready x nb d1 d2 -> ready x nb d d2.
Proof.
  intros Hm Hr. destruct (moved_fields _ _ _ Hm) as [Ec Es]. destruct Hm as [M1 M2 M3 M4 M5 M6 M7 M8], Hr as [R1 R2 R3 R4 R5 R6 R7 R8 R9].
  rewrite Ec in *. constructor; try congruence; try done.
  - intros c Hc Hne. by rewrite R5, M5.
  - intros y Hy Hno. rewrite R7, M6; [done..|by rewrite Es|done].
  - intros cl Hf. destruct (M7 cl Hf ltac:(by intros [])) as [Hf1 Hx1]. destruct (R8 cl Hf1) as [Hf2 Hx2]. split; [done|].
    intros y Hy. rewrite Hx2, Hx1; [done..|]. destruct Hy. split; [by rewrite Ec|lia].
  - lia.
Qed.

Lemma ready_moved P x nb d d1 d2 : ready x nb d d1 -> moved P d1 d2 -> 0 <= x -> 0 < csz d -> (forall cl, frozen d cl -> ~ P cl) -> ready x nb d d2.
Proof.
  intros [R1 R2 R3 R4 R5 R6 R7 R8 R9] Hm Hx Hcs HP. destruct (moved_fields _ _ _ Hm) as [Ec Es]. destruct Hm as [M1 M2 M3 M4 M5 M6 M7 M8].
  destruct (geo_fields _ _ R4) as (_ & Ec1 & _). assert (0 <= x / csz d) by (apply Z.div_pos; lia).
  constructor; try congruence.
  - intros c Hc Hne. by rewrite M5, R5.
  - by rewrite M5.
  - intros y Hy Hno. rewrite M6, R7; [done..|]. unfold span in *. by rewrite R2, Ec1.
  - intros cl Hf. destruct (R8 cl Hf) as [Hf1 Hx1]. destruct (M7 cl Hf1 (HP cl Hf)) as [Hf2 Hx2]. split; [done|].
    intros y Hy. rewrite Hx2, Hx1; [done..|]. destruct Hy. split; [by rewrite Ec1|lia].
  - lia.
Qed.

(** The new cluster [q] of [d1] holds what the guest sees of the old one, where
    the write leaves it. *)
Lemma assign_ready x nb d d1 e l q :
  let c := x / csz d in
  drv_ok d -> 0 <= x < size (hd d) -> keeps (eq q) d d1 -> cnt d q = 0 -> cnt d1 q <> 0 ->
  l1 d !! Z.to_nat (c / n2 d) = Some e -> copied e = true -> has_table d1 (l2addr e) l ->
  0 < q /\ (q + 1) * csz d <= 2 ^ 56 -> in_file d1 (q * csz d) (csz d) ->
  (forall y, y / csz d = c -> ~ x <= y < x + nb -> bcontent (fl d1) (q * csz d + y `mod` csz d) = guest d y) ->
  exists c', let d' := with_l2 d1 c' (fl d1) in
    on_table (update_l2_table l (c `mod` n2 d) (Z.lor (q * csz d) QCOW2_OFFSET_COPIED)) d1 = (d', Ok tt) /\
    ready x nb d d' /\ host d' c = Some (q * csz d) /\
    (forall r cl, uses d' r cl -> r <> RData c -> uses d r cl) /\ (forall cl, uses d' (RData c) cl -> cl = q).
Proof.
  intros c Hd Hx Hk Hcq Hcq1 He Hco Hl Hq Hin Hcopy. pose proof (kp_same _ _ _ Hk) as Hs. destruct (same_fields _ _ Hs) as (El & Ec & _).
  pose proof (sm_hdr _ _ Hs) as Eh. destruct (l1_entry_of d x Hd Hx) as (_ & _ & _ & Hcr & _). fold c in Hcr.
  pose proof (kp_ok _ _ _ Hk) as Hd1. destruct (drv_numbers d Hd) as (_ & _ & _ & Hn & H512 & _).
  assert (unused d1 q) as Hu by by apply (unused_same d), free_unused.
  destruct (assign_data d1 c e l q Hd1) as (c' & Hr & Hok & Hent & Huse & Hnew & Hgu & Hfz);
    [by rewrite Eh, Ec|by rewrite El, Ec|done|done|done|done|by rewrite Ec|by rewrite Ec|].
  rewrite Ec in *. exists c'. set (d' := with_l2 d1 c' (fl d1)) in *. assert (0 <= c) as Hc0 by lia.
  destruct (new_data_entry (csz d) q H512) as (T1 & T2 & _ & T4 & _); [lia..|].
  split_and!; try done.
  - constructor; try done.
    + apply Hs.
    + apply Hs.
    + intros c0 H0 Hne. fold c in Hne. rewrite Hent, decide_False by done. by apply same_entry.
    + fold c. by rewrite Hent, decide_True.
    + intros y Hy Hno. assert (span d1 = span d) as Es by (unfold span; by rewrite Eh, Ec). rewrite Hgu by by rewrite Es.
      case_decide as Hyc; [by apply Hcopy|by apply (kp_guest _ _ _ Hk)].
    + intros cl Hf. assert (q <> cl) as Hne by (intros ->; by apply (proj1 Hf)). split; [apply Hfz; [by apply (keeps_frozen (eq q) d)|done]|].
      intros y Hy. by apply (kp_frozen _ _ _ Hk cl).
    + apply Hk.
  - unfold host. rewrite Hent, decide_True by done. unfold host_of. by rewrite bool_decide_eq_true_2, T2 by done.
  - intros r cl Hr0 Hne. apply (same_uses d d1 r cl Hs). by apply Huse.
Qed.

Section branches.
Context (n : Z) d (x nb e : Z) (l : nat).
Let c := x / csz d.
Context (Hd : drv_ok d) (Hx : 0 <= x < size (hd d)) (Hn : 0 <= n) (Hroom : room (n + 1) (rs d)).
Context (He : l1 d !! Z.to_nat (c / n2 d) = Some e) (Hco : copied e = true) (Hl : has_table d (l2addr e) l).

Lemma guest_none y : host d c = None -> y / csz d = c -> guest d y = 0.
Proof. intros Hh Hy. unfold guest. by rewrite Hy, Hh. Qed.

(** No cluster yet: a cleared one. *)
Lemma alloc_branch : host d c = None ->
  exists d1 d2 q, alloc_cluster 1 true d = (d1, Ok (q * csz d)) /\
    on_table (update_l2_table l (c `mod` n2 d) (Z.lor (q * csz d) QCOW2_OFFSET_COPIED)) d1 = (d2, Ok tt) /\
    ready x nb d d2 /\ room n (rs d2) /\ host d2 c = Some (q * csz d) /\ 0 < q /\ (q + 1) * csz d <= 2 ^ 56.
Proof.
  intros Hh. destruct (drv_numbers d Hd) as (_ & _ & _ & Hcs & _).
  destruct (alloc_cluster_spec n true d Hd Hn Hroom) as (d1 & q & R1 & [Hk Hro Hfree Hcn Hq Hin Et Hz]).
  destruct (assign_ready x nb d d1 e l q) as (c' & R2 & Hr & Hh2 & _); try done.
  - rewrite Hcn, delta_in by (unfold inr; lia). lia.
  - unfold has_table. by rewrite Et.
  - intros y Hy _. rewrite (guest_none y Hh Hy). apply Hz; [done|]. pose proof (Z.mod_pos_bound y (csz d) ltac:(lia)). lia.
  - exists d1, (with_l2 d1 c' (fl d1)), q. split_and!; try done; apply Hq.
Qed.

(** The contents of the old cluster are copied when the write leaves a part of
    them. *)
Lemma copy_old d1 q o :
  keeps (eq q) d d1 -> cnt d q = 0 -> 0 < q -> (q + 1) * csz d <= 2 ^ 56 -> in_file d1 (q * csz d) (csz d) ->
  host d c = Some (o * csz d) -> x `mod` csz d + nb <= csz d ->
  exists d2, (if nb <? csz d then data ← load_cluster (o * csz d); on_dfile (write_buffer (q * csz d) data) else mret tt) d1 = (d2, Ok tt) /\
    keeps (eq q) d d2 /\ (forall y, cnt d2 y = cnt d1 y) /\ table d2 = table d1 /\ rc (rs d2) = rc (rs d1) /\ blen (fl d2) = blen (fl d1) /\
    (forall y, y / csz d = c -> ~ x <= y < x + nb -> bcontent (fl d2) (q * csz d + y `mod` csz d) = guest d y).
Proof.
  intros Hk Hcq Hq0 Hq56 Hin Hh Hfit. destruct (drv_numbers d Hd) as (_ & _ & _ & Hcs & _). destruct (Z.ltb_spec nb (csz d)) as [Hlt|Hge].
  2:{ exists d1. split_and!; try done. intros y Hy Hno. destruct Hno. subst c. pose proof (Z.mod_pos_bound x (csz d) ltac:(lia)).
      pose proof (Z.div_mod x (csz d) ltac:(lia)). pose proof (Z.div_mod y (csz d) ltac:(lia)). pose proof (Z.mod_pos_bound y (csz d) ltac:(lia)).
      rewrite Hy in *. lia. }
  pose proof (kp_ok _ _ _ Hk) as Hd1. pose proof (kp_same _ _ _ Hk) as Hs. destruct (same_fields _ _ Hs) as (_ & Ec & _). pose proof (sm_hdr _ _ Hs) as Eh.
  assert (host d1 c = Some (o * csz d)) as Hh1 by by rewrite (same_host d d1).
  assert (0 <= c < l1_size (hd d1) * n2 d1) as Hcr by (rewrite Eh, Ec; by destruct (l1_entry_of d x Hd Hx) as (_ & _ & _ & ? & _)).
  assert ((csz d1 | o * csz d) /\ in_file d1 (o * csz d) (csz d1)) as [Hoa Hoi].
  { by apply (host_place d1 c). }
  destruct (load_cluster_spec d1 (o * csz d) Hd1 Hoa Hoi) as (f1 & R1 & Hc1 & Hl1 & Hh1' & Hr1). rewrite (sres_step _ _ _ _ _ R1).
  set (data := ztab _ _ _). set (d1' := with_l2 d1 (lc d1) f1) in *. pose proof (rd_ok _ _ Hr1) as Hd1'.
  assert (Z.of_nat (length data) = csz d) as Hdl by (subst data; rewrite ztab_length, Ec; lia). rewrite Ec in *.
  assert (is_bytes data) as Hdb.
  { apply Forall_lookup_2. intros i b Hb. pose proof (lookup_lt_Some _ _ _ Hb) as Hi. subst data. rewrite ztab_length in Hi.
    rewrite ztab_lookup in Hb by done. injection Hb as <-. apply bcontent_byte. }
  destruct Hin as (I1 & I2 & I3). destruct (write_buffer (q * csz d) data f1) as [f2 r] eqn:Ew.
  pose proof Ew as (Wo & _ & _ & Wok & Wh)%write_buffer_law; [|done|intros E; rewrite E in Hdl; simpl in Hdl; lia|lia|lia].
  destruct (balign_len d1 Hd1) as (Hal & _ & Hhe). destruct Wh as (Hh2 & -> & Hl2); [done|by rewrite Hl1|right; lia|].
  assert (unused d1' q) as Hu by by apply (unused_same d1), (unused_same d), free_unused; [apply Hr1|..].
  destruct (file_frame d1' q f2 Hd1' Hu) as [Hk2 Hc2].
  { intros y Hy Hno. apply Wo. intros Hin. apply Hno. split; [change (csz d1') with (csz d1); rewrite Ec; lia|done]. }
  { change (fl d1') with f1. lia. }
  { rewrite Hl2, Hl1, Z.max_l by lia. done. }
  { done. }
  exists (with_file d1' f2). split_and!; try done.
  - by apply on_dfile_with.
  - apply (keeps_trans _ d d1); [done..|]. apply (keeps_trans _ d1 d1'); [done|by apply reads_keeps|done].
  - intros y. change (cnt (with_rs d1' (mkRst (hd d1') (rc (rs d1')) f2)) y = cnt d1 y). by rewrite Hc2, (rd_cnt _ _ Hr1).
  - cbn. apply set_l2_self.
  - cbn. lia.
  - intros y Hy _. cbn [with_file with_rs rs rf]. pose proof (Z.mod_pos_bound y (csz d) ltac:(lia)) as Hm.
    specialize (Wok eq_refl (Z.to_nat (y `mod` csz d))). rewrite Z2Nat.id in Wok by lia. rewrite (Wok (bcontent (fl d1) (o * csz d + y `mod` csz d))).
    + rewrite <-(kp_guest _ _ _ Hk). { unfold guest. by rewrite Ec, Hy, Hh1. }
      unfold span. rewrite <-Eh, <-Ec. pose proof (Z.div_mod y (csz d) ltac:(lia)). rewrite Hy in *. rewrite Eh, Ec in *. nia.
    + subst data. rewrite ztab_lookup by lia. by rewrite Z2Nat.id by lia.
Qed.

(** A shared cluster: a copy of its own, and the old one is given up.  The
    count changes before the entry; the two steps commute. *)
Lemma cow_branch o : host d c = Some (o * csz d) -> copied (entry_at d c) = false -> x `mod` csz d + nb <= csz d ->
  exists d1 d2 d3 d4 q, alloc_cluster 1 true d = (d1, Ok (q * csz d)) /\
    (if nb <? csz d then data ← load_cluster (o * csz d); on_dfile (write_buffer (q * csz d) data) else mret tt) d1 = (d2, Ok tt) /\
    on_rs (update_refcount (o * csz d) 1 (-1) false DOther) d2 = (d3, Ok tt) /\ hd d1 = hd d /\
    on_table (update_l2_table l (c `mod` n2 d) (Z.lor (q * csz d) QCOW2_OFFSET_COPIED)) d3 = (d4, Ok tt) /\
    ready x nb d d4 /\ room n (rs d4) /\ host d4 c = Some (q * csz d) /\ 0 < q /\ (q + 1) * csz d <= 2 ^ 56.
Proof.
  intros Hh Hsh Hfit. destruct (drv_numbers d Hd) as (_ & _ & _ & Hcs & _).
  destruct (alloc_cluster_spec n true d Hd Hn Hroom) as (d1 & q & R1 & [Hk Hro Hfree Hcn [Hq0 Hq56] Hin Et _]).
  destruct (copy_old d1 q o Hk Hfree Hq0 Hq56 Hin Hh Hfit) as (d2 & R2 & Hk2 & Hcn2 & Et2 & Erc2 & El2 & Hcopy).
  pose proof (sm_hdr _ _ (kp_same _ _ _ Hk)) as Eh1. destruct (same_fields _ _ (kp_same _ _ _ Hk2)) as (_ & Ec2 & _).
  assert (uses d (RData c) o) as Huo
    by (split; [by destruct (l1_entry_of d x Hd Hx) as (_ & _ & _ & ? & _)|by apply host_of_place]).
  pose proof (k_uses _ Hd _ _ Huo) as Hco0. assert (o <> q) as Hoq by congruence.
  assert (forall y, cnt d2 y = cnt d y + delta q (q + 1) 1 y) as Hcnd by (intros y; by rewrite Hcn2, Hcn).
  destruct (assign_ready x nb d d2 e l q) as (c' & R3 & Hr & Hh3 & Hu3 & Hn3); try done.
  { rewrite Hcnd, delta_in by (unfold inr; lia). lia. }
  { unfold has_table. by rewrite Et2, Et. }
  { destruct Hin as (? & ? & ?). split_and!; [done|by rewrite El2|done]. }
  set (dA := with_l2 d2 c' (fl d2)) in *. pose proof (ry_ok _ _ _ _ Hr) as HdA. fold c in R3, Hh3, Hu3, Hn3.
  assert (unused dA o) as HuA.
  { intros r Hr0. destruct (decide (r = RData c)) as [->|Hrc]; [by apply Hoq, Hn3|]. apply Hrc. by apply (k_excl _ Hd _ _ o); [apply Hu3|]. }
  assert (rs dA = rs d2) as ErA by apply rst_eta.
  assert (cnt dA o = cnt d o) as HcA by (rewrite ErA, Hcnd, delta_out by (unfold inr; lia); lia).
  assert (room n (rs dA)) as HroA.
  { rewrite ErA. eapply room_keep; [..|exact Hro]; [by rewrite Erc2|by rewrite Erc2|]. intros y Hy. by rewrite Hcn2. }
  assert (0 <= o /\ (o + 1) * csz d < 2 ^ 61) as [Ho0 Ho61].
  { destruct (host_place d c _ Hd (proj1 Huo) Hh) as (_ & ? & _ & ?). nia. }
  destruct (release_spec n dA o false DOther HdA HuA) as (s' & R4 & Hrel); [congruence|done|rewrite ErA, Ec2; lia|done|].
  rewrite ErA, Ec2 in R4. exists d1, d2, (with_rs d2 s'), (with_rs dA s'), q. split_and!; try done.
  - by apply on_rs_with.
  - revert R3. unfold on_table. destruct (update_l2_table l _ _ (table d2, fl d2)) as [[t' f'] r'] eqn:Eu. intros R3. injection R3 as -> -> ->.
    cbn [table rs with_rs]. rewrite (update_l2_pure _ _ _ _ _ _ (rf s') Eu). by rewrite rst_eta.
  - apply (ready_moved (fun cl => cl = o /\ cnt d o < 2) x nb d dA); [done| |lia|lia|].
    + eapply release_moved; try done. rewrite HcA. destruct (Z.lt_ge_cases (cnt d o) 2); [by left|by right].
    + intros cl [_ Hf] [-> Hlt]. destruct (Hf _ Huo) as [_ [?|?]]; [done|lia].
  - apply Hrel.
  - rewrite (same_host dA); [done|]. apply Hrel.
Qed.
End branches.

(** What [host_offset_for_write] sees of an entry. *)
Lemma clear_zero_flag e : is_u64 e -> get_cluster_type e <> Compressed -> get_cluster_type e <> ZeroAlloc ->
  let e' := Z.land e (wnot 64 QCOW2_OFLAG_ZERO) in
  Z.land e' L2_TABLE_OFFSET_MASK = Z.land e L2_TABLE_OFFSET_MASK /\ Z.land e' QCOW2_OFFSET_COPIED = Z.land e QCOW2_OFFSET_COPIED /\
  (get_cluster_type e = Normal <-> Z.land e L2_TABLE_OFFSET_MASK <> 0) /\ (get_cluster_type e = Normal -> e' = e).
Proof.
  intros Hu Hn1 Hn2 e'. unfold e'. rewrite <-!Z.land_assoc.
  change (Z.land (wnot 64 QCOW2_OFLAG_ZERO) L2_TABLE_OFFSET_MASK) with L2_TABLE_OFFSET_MASK.
  change (Z.land (wnot 64 QCOW2_OFLAG_ZERO) QCOW2_OFFSET_COPIED) with QCOW2_OFFSET_COPIED.
  unfold get_cluster_type in *. destruct (Z.eqb_spec (Z.land e QCOW2_OFFSET_COMPRESSED) 0); cbn [negb] in *; [|done].
  destruct (Z.eqb_spec (Z.land e QCOW2_OFLAG_ZERO) 0) as [Hz|]; cbn [negb] in *;
    destruct (Z.eqb_spec (Z.land e L2_TABLE_OFFSET_MASK) 0); cbn [negb] in *; try done; split_and!; try done.
  intros _. apply Z.bits_inj'. intros i Hi. rewrite Z.land_spec. destruct (Z.testbit e i) eqn:Ei; [|done]. cbn [andb].
  assert (i < 64) as H64.
  { apply Z.nle_gt. intros Hge. unfold inW in Hu. rewrite Z.bits_above_log2 in Ei; [done|lia|].
    destruct (Z.eq_dec e 0) as [->|]; [simpl; lia|]. apply Z.log2_lt_pow2; [lia|]. eapply Z.lt_le_trans; [apply Hu|]. apply Z.pow_le_mono_r; lia. }
  rewrite wnot_testbit by (done || lia). destruct (Z.eq_dec i 0) as [->|Hne].
  - apply (f_equal (fun z => Z.testbit z 0)) in Hz. rewrite Z.land_spec, Ei in Hz. done.
  - unfold QCOW2_OFLAG_ZERO. rewrite Z.shiftl_spec by lia. by rewrite (Z.bits_above_log2 1) by (simpl; lia).
Qed.

(** The entry of a guest cluster, read from its cached table. *)
Lemma cached_entry d c e l : drv_ok d -> 0 <= c -> l1 d !! Z.to_nat (c / n2 d) = Some e -> l2addr e <> 0 -> has_table d (l2addr e) l ->
  l2_get l (c `mod` n2 d) d = (d, Ok (entry_at d c)) /\ is_u64 (entry_at d c).
Proof.
  intros Hd Hc He Hne Ht. destruct (drv_numbers d Hd) as (_ & _ & _ & Hn & _ & E8 & H64 & _). pose proof (Z.mod_pos_bound c (n2 d) ltac:(lia)) as Hm.
  destruct (table_cell d (l2addr e) l Hd Ht) as (t & Htl & Hes & Hlen & _ & Hdat).
  destruct (l2_table_of d _ e Hd He Hne) as (Hb & bytes & Hv & Hby & Hbl). specialize (Hdat _ Hb). rewrite Hv in Hdat. injection Hdat as ->.
  assert (entry_at d c = entry64 (table_data t) (c `mod` n2 d)) as -> by (unfold entry_at; by rewrite He, Hv).
  split; [by apply l2_get_spec|]. apply entry64_bound; [done|lia..].
Qed.

Lemma host_offset_for_write_spec n d x nb :
  drv_ok d -> 0 <= x -> 0 < nb -> x + nb <= size (hd d) -> x `mod` csz d + nb <= csz d -> 0 <= n -> room (n + 2) (rs d) ->
  get_cluster_type (entry_at d (x / csz d)) <> ZeroAlloc ->
  exists d' a, host_offset_for_write x nb d = (d', Ok a) /\ ready x nb d d' /\ room n (rs d') /\ haddr d' x = Some a.
Proof.
  intros Hd Hx Hnb Hsz Hfit Hn Hroom Hnz. destruct (drv_numbers d Hd) as (_ & _ & _ & Hcs & _). pose proof (proj1 (s_size _ (k_shape _ Hd))) as Hs61.
  destruct (get_table_cluster_spec (n + 1) d x Hd) as (d1 & l & v & R1 & Hm & Hro & Hv & Hcv & Ht); [lia..|by replace (n + 1 + 1) with (n + 2) by lia|].
  unfold host_offset_for_write. assert (dget table d = (d, @Ok unit _ (table d))) as Hget by done. rewrite (sres_step _ _ _ _ _ Hget).
  rewrite (l2_index d x Hd) by lia. rewrite (sres_step _ _ _ _ _ R1).
  pose proof (mv_ok _ _ _ Hm) as Hd1. destruct (moved_fields _ _ _ Hm) as [Ec _]. pose proof (mv_hdr _ _ _ Hm) as Eh. rewrite <-(mv_entry _ _ _ Hm) in Hnz by (apply Z.div_pos; lia). rewrite <-Ec in Hfit, Hv, Hcs, Hnz |- *.
  set (c := x / csz d1) in *. assert (0 <= c) as Hc0 by (apply Z.div_pos; lia). pose proof (k_copied _ Hd1 _ v Hv Hcv) as Hne.
  assert (0 <= x < size (hd d1)) as Hx1 by (rewrite Eh; lia).
  destruct (l1_entry_of d1 x Hd1 Hx1) as (_ & _ & _ & Hcr & _). fold c in Hcr.
  destruct (cached_entry d1 c v l Hd1 Hc0 Hv Hne Ht) as [R2 Hu]. rewrite (sres_step _ _ _ _ _ R2). cbv zeta. set (eo := entry_at d1 c) in *.
  pose proof (k_entry _ Hd1 c Hcr) as Hek. fold eo in Hek.
  destruct (clear_zero_flag eo Hu) as (F1 & F2 & F3 & F4); [intros E; unfold entry_ok in Hek; by rewrite E in Hek|done|].
  rewrite F1, F2. destruct (drv_numbers d1 Hd1) as (_ & _ & Ecs1 & _ & H512 & _). pose proof (Z.mod_pos_bound x (csz d1) ltac:(lia)) as Hom.
  assert (forall d2 q, ready x nb d1 d2 -> host d2 c = Some (q * csz d1) -> 0 < q -> (q + 1) * csz d1 <= 2 ^ 56 ->
    (off ← dget (fun d => drv_offset_into_cluster d x); mret (wadd 64 (q * csz d1) off)) d2 = (d2, Ok (q * csz d1 + x `mod` csz d1)) /\
    haddr d2 x = Some (q * csz d1 + x `mod` csz d1)) as Hfin.
  { intros d2 q Hr Hh Hq0 Hq. destruct (geo_fields _ _ (ry_geo _ _ _ _ Hr)) as (_ & Ec2 & _). split.
    - unfold mbind, sres_bind, dget. rewrite (off_in_cluster d2 x (ry_ok _ _ _ _ Hr)), Ec2. unfold mret, sres_ret. by rewrite wadd_small by (unfold inW; nia).
    - unfold haddr. rewrite Ec2. fold c. by rewrite Hh. }
  destruct (decide (Z.land eo L2_TABLE_OFFSET_MASK = 0)) as [Hz|Hz].
  - assert (host d1 c = None) as Hh by (unfold host, host_of; fold eo; rewrite bool_decide_eq_false_2; [done|]; rewrite F3; tauto).
    destruct (alloc_branch n d1 x nb v l Hd1 Hx1 Hn Hro Hv Hcv Ht Hh) as (d2 & d3 & q & R3 & R4 & Hr & Hro3 & Hh3 & Hq0 & Hq).
    fold c in R4, Hh3. destruct (new_data_entry (csz d1) q H512) as (_ & T2 & T3 & _); [lia..|].
    rewrite Hz. change (0 =? 0) with true. cbv iota. set (w := Z.lor (q * csz d1) QCOW2_OFFSET_COPIED) in *.
    assert ((new_addr ← alloc_cluster 1 true;
             mret (Z.lor new_addr QCOW2_OFFSET_COPIED, Z.land new_addr L2_TABLE_OFFSET_MASK, false)) d1 = (d2, Ok (w, q * csz d1, false))) as RA
      by (rewrite (sres_step _ _ _ _ _ R3), T3; done).
    rewrite (sres_step _ _ _ _ _ RA). cbv iota. assert (dget id d2 = (d2, @Ok unit _ d2)) as Hget2 by done. rewrite (sres_step _ _ _ _ _ Hget2), sret_bind.
    change (negb (0 =? 0)) with false. cbv iota. rewrite (proj2 (Z.eqb_neq w eo)) by (intros E; rewrite E, Hz in T2; nia). change (negb false) with true. cbv iota.
    rewrite (sres_step _ _ _ _ _ R4). destruct (Hfin d3 q Hr Hh3 Hq0 Hq) as [R5 Ha].
    exists d3, (q * csz d1 + x `mod` csz d1). split_and!; [exact R5|by eapply moved_ready|done|done].
  - apply F3 in Hz as Hty. specialize (F4 Hty). unfold entry_ok in Hek. rewrite Hty in Hek. destruct Hek as ([o Ho] & Hoi).
    assert (host d1 c = Some (o * csz d1)) as Hh by (unfold host, host_of; fold eo; rewrite bool_decide_eq_true_2 by done; by rewrite <-Ho).
    rewrite (proj2 (Z.eqb_neq (Z.land eo L2_TABLE_OFFSET_MASK) 0)) by done. rewrite Ho.
    assert (copied eo = negb (Z.land eo QCOW2_OFFSET_COPIED =? 0)) as Eco by done.
    destruct (Z.eqb_spec (Z.land eo QCOW2_OFFSET_COPIED) 0) as [Hsh|Hsh]; cbn [negb] in Eco.
    + destruct (cow_branch n d1 x nb v l Hd1 Hx1 Hn Hro Hv Hcv Ht o Hh Eco Hfit) as (d2 & d3 & d4 & d5 & q & R3 & R4 & R5 & Eh2 & R6 & Hr & Hro5 & Hh5 & Hq0 & Hq).
      fold c in R6, Hh5. destruct (new_data_entry (csz d1) q H512) as (_ & T2 & T3 & T4 & _); [lia..|].
      assert (dget (fun d => cluster_size (hd d)) d2 = (d2, @Ok unit _ (csz d1))) as Hget2 by (unfold dget; by rewrite Eh2, Ecs1).
      set (w := Z.lor (q * csz d1) QCOW2_OFFSET_COPIED) in *. cbv iota.
      assert ((new_data_addr ← alloc_cluster 1 true;
               cs ← dget (fun d => cluster_size (hd d));
               _ ← (if nb <? cs then data ← load_cluster (o * csz d1); on_dfile (write_buffer new_data_addr data) else mret tt);
               _ ← on_rs (update_refcount (o * csz d1) 1 (-1) false DOther);
               mret (Z.lor new_data_addr QCOW2_OFFSET_COPIED, Z.land new_data_addr L2_TABLE_OFFSET_MASK, false)) d1 =
              (d4, Ok (w, q * csz d1, false))) as RA
        by (rewrite (sres_step _ _ _ _ _ R3), (sres_step _ _ _ _ _ Hget2), (sres_step _ _ _ _ _ R4), (sres_step _ _ _ _ _ R5), T3; done).
      rewrite (sres_step _ _ _ _ _ RA). cbv iota. assert (dget id d4 = (d4, @Ok unit _ d4)) as Hget4 by done. rewrite (sres_step _ _ _ _ _ Hget4), sret_bind.
      change (negb (0 =? 0)) with false. cbv iota. rewrite (proj2 (Z.eqb_neq w eo)) by (intros E; rewrite E in T4; congruence). change (negb false) with true. cbv iota.
      rewrite (sres_step _ _ _ _ _ R6). destruct (Hfin d5 q Hr Hh5 Hq0 Hq) as [R7 Ha].
      exists d5, (q * csz d1 + x `mod` csz d1). split_and!; [exact R7|by eapply moved_ready|done|done].
    + cbv iota. rewrite sret_bind. cbv iota. assert (dget id d1 = (d1, @Ok unit _ d1)) as Hget2 by done. rewrite (sres_step _ _ _ _ _ Hget2).
      destruct Hoi as (O1 & O2 & O3). rewrite Ho in O1, O2, O3. assert (0 < o) as Ho0 by (destruct (Z.eq_dec o 0) as [->|]; [lia|nia]).
      rewrite (check_overlap_none d1 o nb Hd1 Ho0) by (try lia; (intros r Hr; exists c; apply (k_excl _ Hd1 _ _ o Hr); (split; [done|by apply host_of_place]))).
      rewrite slift_Ok_bind. cbn [Z.eqb negb]. rewrite F4, Z.eqb_refl. cbn [negb]. rewrite sret_bind.
      assert (ready x nb d1 d1) as Hr by (constructor; try done; by rewrite Eco).
      assert ((o + 1) * csz d1 <= 2 ^ 56) as Ho56.
      { pose proof (land_mask_bound eo) as Hlb. rewrite Ho in Hlb. destruct (drv_numbers d1 Hd1) as (Hb9 & Ep & _). assert (csz d1 * 2 ^ (56 - cluster_bits (hd d1)) = 2 ^ 56) as E56.
        { rewrite Ep, <-Z.pow_add_r by lia. f_equal. lia. }
        rewrite <-E56 in *. assert (o < 2 ^ (56 - cluster_bits (hd d1))) by nia. nia. }
      destruct (Hfin d1 o Hr Hh Ho0 Ho56) as [R3 Ha]. exists d1, (o * csz d1 + x `mod` csz d1).
      split_and!; [exact R3|by eapply moved_ready|by apply room_less|done].
Qed.
End write.
