(* ===== verification/Qcow2Vectored.v ===== *)
(** * Guest writes and flushes of a qcow2 image

    [write_vectored]: the loop that finds a place for every cluster of the
    request, the requests it makes, and their effect on the guest disk;
    [flush]: what is on disk then. *)
From stdpp Require Import prelude list gmap.
From Stdlib Require Import ZArith Lia.
From S2P Require Import Prelude NumOps Qcow2Header SyncAio Qcow2Io FileDriver Qcow2Cache Qcow2CacheSpec Qcow2Refcount Qcow2RefcountSpec Qcow2RefcountUpdate Qcow2RefcountAlloc Qcow2ClusterAlloc Qcow2Snapshot Qcow2Table Qcow2L2Spec Qcow2Driver Qcow2Mapping Qcow2Read Qcow2Alloc Qcow2Remap Qcow2Write.

Section vectored.
Context `{!HashIter} {F : Type} `{!BlockIo F, !BlockIoLaws F, !DataIo F, !DataIoLaws F}.
Implicit Types d : Qcow2Driver F.

Abbreviation hd d := (hdr (rs d)).
Abbreviation fl d := (rf (rs d)).
Abbreviation l1 d := (l1_table (table d)).
Abbreviation csz d := (rc_cluster_size (rc (rs d))).
Abbreviation cnt d := (refcount_of (rs d)).
Abbreviation n2 d := (csz d / 8).
Abbreviation lc d := (l2_table_cache (table d)).

(** ** Requests with places but no buffers yet *)

Definition place_ok (f : F) (r : CombineRequest) : Prop :=
  0 <= req_offset r /\ 0 < req_nbytes r /\ req_offset r + req_nbytes r <= blen f /\ req_offset r + req_nbytes r < 2 ^ 62.

Lemma req_places_snoc reqs r : req_places (reqs ++ [r]) = req_places reqs ++ ztab id (req_offset r) (Z.to_nat (req_nbytes r)).
Proof. unfold req_places. rewrite fmap_app, concat_app. cbn. by rewrite app_nil_r. Qed.

Lemma push_request_spec f a n reqs :
  Forall (place_ok f) reqs -> 0 <= a -> 0 < n -> a + n <= blen f -> a + n < 2 ^ 62 ->
  Forall (place_ok f) (push_request a n reqs) /\ push_request a n reqs <> [] /\
  req_places (push_request a n reqs) = req_places reqs ++ ztab id a (Z.to_nat n).
Proof.
  intros Hok Ha Hn Hb H62. assert (Forall (place_ok f) (reqs ++ [mkReq [] a n])) as Hnew by (apply Forall_app_2; [done|by repeat constructor]).
  unfold push_request. destruct reqs as [|r0 reqs0] using rev_ind; [split_and!; try done; exact (req_places_snoc [] (mkReq [] a n))|clear IHreqs0].
  rewrite last_snoc. apply Forall_app in Hok as [Hok (L1 & L2 & L3 & L4)%Forall_singleton].
  rewrite wadd_small by (unfold inW; lia). destruct (Z.eqb_spec (req_offset r0 + req_nbytes r0) a) as [E|E].
  - rewrite removelast_last. rewrite wadd_small by (unfold inW; lia). split_and!; [|by destruct reqs0|].
    + apply Forall_app_2; [done|]. apply Forall_singleton. unfold place_ok. cbn [req_offset req_nbytes]. lia.
    + rewrite !req_places_snoc. cbn [req_offset req_nbytes]. rewrite <-app_assoc. f_equal. rewrite Z2Nat.inj_add, ztab_app by lia. f_equal. f_equal. lia.
  - split_and!; [done|by destruct reqs0|]. by rewrite (req_places_snoc (reqs0 ++ [r0])).
Qed.

Lemma assign_iovs_spec f left reqs :
  Forall iov_ok left -> Forall (place_ok f) reqs -> length (req_places reqs) = length (iov_addrs left) ->
  let reqs' := assign_iovs left reqs in
  Forall (req_ok f) reqs' /\ req_addrs reqs' = iov_addrs left /\ req_places reqs' = req_places reqs /\ length reqs' = length reqs.
Proof.
  intros Hl Hok. revert left Hl. induction Hok as [|r reqs (P1 & P2 & P3 & P4) Hok IH]; intros left Hl Hlen; cbn [assign_iovs].
  { split_and!; try done. destruct (iov_addrs left); [done|]. by unfold req_places in Hlen. }
  unfold req_places in Hlen. rewrite fmap_cons in Hlen. cbn [concat] in Hlen. rewrite length_app, ztab_length in Hlen.
  destruct (iovecs_split_spec left (req_nbytes r) Hl) as (b & e & -> & Happ & Hbl & Hbo & Heo); [lia|].
  rewrite <-Happ, length_app in Hlen. destruct (IH e Heo) as (I1 & I2 & I3 & I4); [unfold req_places; lia|].
  split_and!.
  - constructor; [|done]. split; cbn [req_iov req_offset req_nbytes]; [|done]. unfold data_ok. by split_and!.
  - unfold req_addrs in *. rewrite fmap_cons. cbn [concat req_iov]. by rewrite I2, Happ.
  - unfold req_places in *. rewrite !fmap_cons. cbn [concat req_offset req_nbytes]. by rewrite I3.
  - cbn [length]. by rewrite I4.
Qed.

(** ** The loop of [write_vectored] *)

(** The first [k] bytes of the request have places of their own; the guest disk
    is the same outside of them. *)
Record laid (x0 k : Z) d0 d (reqs : list CombineRequest) : Prop := mkLaid {
  la_ok : drv_ok d;
  la_hdr : hd d = hd d0;
  la_snap : snapshot d = snapshot d0;
  la_geo : geo (rc (rs d)) = geo (rc (rs d0));
  la_guest : forall y, 0 <= y < span d0 -> ~ x0 <= y < x0 + k -> guest d y = guest d0 y;
  la_frozen : forall cl, frozen d0 cl -> frozen d cl /\ forall y, in_cluster d0 cl y -> bcontent (fl d) y = bcontent (fl d0) y;
  la_len : blen (fl d0) <= blen (fl d);
  la_reqs : Forall (place_ok (fl d)) reqs;
  la_places : length (req_places reqs) = Z.to_nat k /\
    forall i, (i < Z.to_nat k)%nat -> req_places reqs !! i = haddr d (x0 + Z.of_nat i);
  la_own : forall i, (i < Z.to_nat k)%nat -> copied (entry_at d ((x0 + Z.of_nat i) / csz d)) = true
}.

Lemma span_of d x : drv_ok d -> 0 <= x < size (hd d) -> 0 <= x < span d.
Proof. intros Hd Hx. pose proof (proj2 (s_size _ (k_shape _ Hd))). unfold span. lia. Qed.

(** The place found for a piece of a cluster. *)
Lemma piece_places d x nb a : drv_ok d -> 0 <= x -> 0 < nb -> x + nb <= size (hd d) -> x `mod` csz d + nb <= csz d ->
  haddr d x = Some a ->
  0 <= a /\ a + nb <= blen (fl d) /\ a + nb < 2 ^ 61 /\ forall j, 0 <= j < nb -> haddr d (x + j) = Some (a + j) /\ (x + j) / csz d = x / csz d.
Proof.
  intros Hd Hx Hnb Hsz Hfit Ha. destruct (drv_numbers d Hd) as (_ & _ & _ & Hn & _). unfold haddr in Ha.
  destruct (host d (x / csz d)) as [h|] eqn:Eh; [|done]. injection Ha as <-. pose proof (Z.mod_pos_bound x (csz d) ltac:(lia)) as Hm.
  destruct (host_place d (x / csz d) h Hd) as (_ & P1 & P2 & P3); [apply span_size; [done|lia]|done|].
  split_and!; [lia..|]. intros j Hj. pose proof (Z.div_mod x (csz d) ltac:(lia)) as Ex.
  assert ((x + j) / csz d = x / csz d /\ (x + j) `mod` csz d = x `mod` csz d + j) as [E1 E2].
  { split; symmetry; [apply (Z.div_unique _ _ _ (x `mod` csz d + j))|apply (Z.mod_unique _ _ (x / csz d))]; lia. }
  unfold haddr. rewrite E1, E2, Eh. split; [|done]. simpl. f_equal. lia.
Qed.

Lemma laid_step x0 k nb d0 d d' reqs a :
  drv_ok d0 -> 0 <= x0 -> 0 <= k -> 0 < nb -> x0 + k + nb <= size (hd d0) -> (x0 + k) `mod` csz d0 + nb <= csz d0 ->
  (forall i, (i < Z.to_nat k)%nat -> (x0 + Z.of_nat i) / csz d0 <> (x0 + k) / csz d0) ->
  laid x0 k d0 d reqs -> ready (x0 + k) nb d d' -> haddr d' (x0 + k) = Some a ->
  laid x0 (k + nb) d0 d' (push_request a nb reqs) /\ push_request a nb reqs <> [].
Proof.
  intros Hd0 Hx0 Hk Hnb Hsz Hfit Hdiff [P1 P2 P3 P4 P5 P6 P7 P8 [P9 P10] P11] [R1 R2 R3 R4 R5 R6 R7 R8 R9] Ha.
  destruct (geo_fields _ _ P4) as (_ & Ec & _). destruct (geo_fields _ _ R4) as (_ & Ec' & _). rewrite Ec in *.
  destruct (drv_numbers d0 Hd0) as (_ & _ & _ & Hn & _).
  destruct (piece_places d' (x0 + k) nb a R1) as (A1 & A2 & A3 & A4); [lia|lia|rewrite R2, P2; lia|rewrite Ec'; lia|done|]. rewrite Ec' in *.
  destruct (push_request_spec (fl d') a nb reqs) as (Q1 & Q2 & Q3); [|lia..|].
  { eapply Forall_impl; [exact P8|]. intros r (? & ? & ? & ?). split_and!; lia. }
  assert (forall i, (i < Z.to_nat k)%nat -> entry_at d' ((x0 + Z.of_nat i) / csz d0) = entry_at d ((x0 + Z.of_nat i) / csz d0)) as Hsame.
  { intros i Hi. apply R5; [apply Z.div_pos; lia|by apply Hdiff]. }
  split; [|done]. constructor; try congruence; try done.
  - intros y Hy Hno. rewrite R7, P5; try done; [lia| |lia]. unfold span in *. by rewrite P2, Ec.
  - intros cl Hf. destruct (P6 cl Hf) as [Hf1 Hx1]. destruct (R8 cl Hf1) as [Hf2 Hx2]. split; [done|]. intros y Hy. rewrite Hx2, Hx1; [done..|].
    destruct Hy. split; [by rewrite Ec|lia].
  - lia.
  - rewrite Q3, length_app, P9, ztab_length. split; [lia|]. intros i Hi. destruct (decide (i < Z.to_nat k)%nat) as [Hlt|Hge].
    + rewrite lookup_app_l by lia. rewrite P10 by done. unfold haddr, host. rewrite Ec, Ec'. by rewrite Hsame.
    + rewrite lookup_app_r by lia. rewrite P9, ztab_lookup by lia. destruct (A4 (Z.of_nat i - k)) as [E _]; [lia|].
      replace (x0 + Z.of_nat i) with (x0 + k + (Z.of_nat i - k)) by lia. rewrite E. f_equal. unfold id. lia.
  - rewrite Ec'. intros i Hi. destruct (decide (i < Z.to_nat k)%nat) as [Hlt|Hge]; [rewrite Hsame by done; by apply P11|].
    destruct (A4 (Z.of_nat i - k)) as [_ E]; [lia|]. replace (x0 + Z.of_nat i) with (x0 + k + (Z.of_nat i - k)) by lia. rewrite E. apply R6.
Qed.

(** The clusters a range meets. *)
Definition clusters_of_range (cs x n : Z) : Z := if 0 <? n then (x + n - 1) / cs - x / cs + 1 else 0.

Lemma range_step cs x n : 0 < cs -> 0 <= x -> 0 < n -> let m := Z.min n (cs - x `mod` cs) in
  0 < m <= n /\ x `mod` cs + m <= cs /\ clusters_of_range cs x n = 1 + clusters_of_range cs (x + m) (n - m) /\ 0 <= clusters_of_range cs (x + m) (n - m) /\
  (m < n -> forall y, y < x + m -> y / cs <> (x + m) / cs).
Proof.
  intros Hcs Hx Hn m. pose proof (Z.mod_pos_bound x cs Hcs) as Hm. pose proof (Z.div_mod x cs ltac:(lia)) as Ex. split_and!; try lia.
  - unfold clusters_of_range. rewrite (proj2 (Z.ltb_lt 0 n)) by lia. destruct (Z.ltb_spec 0 (n - m)) as [Hlt|Hge].
    + replace (x + m + (n - m) - 1) with (x + n - 1) by lia. assert ((x + m) / cs = x / cs + 1) as ->; [|lia].
      symmetry. apply (Z.div_unique _ _ _ 0); lia.
    + assert ((x + n - 1) / cs = x / cs) as ->; [|lia]. symmetry. apply (Z.div_unique _ _ _ (x `mod` cs + n - 1)); lia.
  - unfold clusters_of_range. zcase; [|lia]. pose proof (Z.div_le_mono (x + m) (x + m + (n - m) - 1) cs ltac:(lia) ltac:(lia)). lia.
  - intros Hlt y Hy. assert ((x + m) / cs = x / cs + 1) as -> by (symmetry; apply (Z.div_unique _ _ _ 0); lia).
    assert (y / cs < x / cs + 1); [|lia]. apply Z.div_lt_upper_bound; lia.
Qed.

Lemma write_loop_spec fuel x0 N d0 d k reqs :
  drv_ok d0 -> 0 <= x0 -> x0 + N <= size (hd d0) -> 0 <= k <= N -> N - k <= Z.of_nat fuel -> laid x0 k d0 d reqs ->
  (0 < k < N -> forall y, y < x0 + k -> y / csz d0 <> (x0 + k) / csz d0) -> (0 < k -> reqs <> []) ->
  room (2 * clusters_of_range (csz d0) (x0 + k) (N - k)) (rs d) ->
  (forall y, x0 + k <= y < x0 + N -> get_cluster_type (entry_at d (y / csz d0)) <> ZeroAlloc) ->
  exists d' reqs', write_loop fuel x0 N k reqs d = (d', Ok reqs') /\ laid x0 N d0 d' reqs' /\ (0 < N -> reqs' <> []).
Proof.
  intros Hd0 Hx0 Hsz. revert d k reqs. pose proof (proj1 (s_size _ (k_shape _ Hd0))) as Hs61. destruct (drv_numbers d0 Hd0) as (_ & _ & _ & Hn & _).
  induction fuel as [|fuel IH]; intros d k reqs Hk Hf Hl Hdiff Hne Hroom Hnz; cbn [write_loop].
  { rewrite (proj2 (Z.leb_le N k)) by lia. replace k with N in * by lia. exists d, reqs. split_and!; done || lia. }
  destruct (Z.leb_spec N k) as [Hle|Hlt].
  { replace k with N in * by lia. exists d, reqs. split_and!; done || lia. }
  pose proof (la_ok _ _ _ _ _ Hl) as Hd. pose proof (la_hdr _ _ _ _ _ Hl) as Eh. destruct (geo_fields _ _ (la_geo _ _ _ _ _ Hl)) as (_ & Ec & _).
  destruct (drv_numbers d Hd) as (_ & _ & Ecs & _). rewrite wadd_small, wsub_small by (unfold inW; lia).
  pose proof (Z.mod_pos_bound (x0 + k) (csz d0) ltac:(lia)) as Hm.
  destruct (range_step (csz d0) (x0 + k) (N - k)) as (S1 & S2 & S3 & S4 & S5); [lia..|]. set (m := Z.min (N - k) (csz d0 - (x0 + k) `mod` csz d0)) in *.
  assert (dget (fun d => cluster_aligned_bytes d (x0 + k) (N - k)) d = (d, @Ok unit _ m)) as Hget.
  { unfold dget, cluster_aligned_bytes. rewrite (off_in_cluster d _ Hd), Ecs, Ec. rewrite wsub_small by (unfold inW; lia). done. }
  rewrite (sres_step _ _ _ _ _ Hget). set (R := clusters_of_range (csz d0) (x0 + k + m) (N - k - m)) in *.
  destruct (host_offset_for_write_spec (2 * R) d (x0 + k) m Hd) as (d1 & a & Hr & Hry & Hro & Ha);
    [lia|lia|rewrite Eh; lia|by rewrite Ec|lia|by replace (2 * R + 2) with (2 * clusters_of_range (csz d0) (x0 + k) (N - k)) by lia|rewrite Ec; apply Hnz; lia|].
  rewrite (sres_step _ _ _ _ _ Hr). rewrite wadd_small by (unfold inW; lia).
  destruct (laid_step x0 k m d0 d d1 reqs a) as [Hl1 Hne1]; try done; try lia.
  { intros i Hi. apply Hdiff; lia. }
  apply IH; try done; try lia.
  - intros Hk1 y Hy. rewrite Z.add_assoc in *. apply S5; lia.
  - rewrite Z.add_assoc. by replace (N - (k + m)) with (N - k - m) by lia.
  - intros y Hy. rewrite (ry_entry _ _ _ _ Hry); [apply Hnz; lia|apply Z.div_pos; lia|]. rewrite Ec. intros E.
    apply (S5 ltac:(lia) (x0 + k) ltac:(lia)). apply Z.le_antisymm; [apply Z.div_le_mono; lia|]. rewrite <-E. apply Z.div_le_mono; lia.
Qed.

(** ** Data clusters *)

Lemma div_between cs cl x : 0 < cs -> cl * cs <= x < (cl + 1) * cs -> x / cs = cl.
Proof. intros Hcs Hx. symmetry. apply (Z.div_unique _ _ _ (x - cl * cs)); lia. Qed.

Lemma data_place d y a : drv_ok d -> 0 <= y < span d -> haddr d y = Some a ->
  uses d (RData (y / csz d)) (a / csz d) /\ a `mod` csz d = y `mod` csz d /\ 0 <= a < blen (fl d).
Proof.
  intros Hd Hy Ha. destruct (drv_numbers d Hd) as (_ & _ & _ & Hn & _). unfold haddr in Ha. destruct (host d (y / csz d)) as [h|] eqn:Eh; [|done].
  injection Ha as <-. unfold span in Hy. assert (0 <= y / csz d < l1_size (hd d) * n2 d) as Hc by (split; [apply Z.div_pos; lia|apply Z.div_lt_upper_bound; lia]).
  destruct (host_place d _ h Hd Hc Eh) as ([q ->] & P1 & P2 & _). pose proof (Z.mod_pos_bound y (csz d) ltac:(lia)) as Hm.
  assert ((q * csz d + y `mod` csz d) / csz d = q) as -> by (apply div_between; lia).
  split_and!; try lia; [split; [lia|by apply host_of_place]|]. symmetry. apply (Z.mod_unique _ _ q); lia.
Qed.
Lemma haddr_inj d y1 y2 a : drv_ok d -> 0 <= y1 < span d -> 0 <= y2 < span d -> haddr d y1 = Some a -> haddr d y2 = Some a -> y1 = y2.
Proof.
  intros Hd H1 H2 E1 E2. destruct (drv_numbers d Hd) as (_ & _ & _ & Hn & _).
  destruct (data_place d y1 a Hd H1 E1) as (U1 & M1 & _), (data_place d y2 a Hd H2 E2) as (U2 & M2 & _).
  injection (k_excl _ Hd _ _ _ U1 U2) as Ec. rewrite (Z.div_mod y1 (csz d)), (Z.div_mod y2 (csz d)) by lia. congruence.
Qed.

(** A change of bytes that belong to the guest alone. *)
Definition owned d (x : Z) : Prop := exists y, 0 <= y < span d /\ haddr d y = Some x /\ copied (entry_at d (y / csz d)) = true.
Lemma owned_role d x r : drv_ok d -> owned d x -> uses d r (x / csz d) -> ~ shared d r /\ exists c, r = RData c.
Proof.
  intros Hd (y & Hy & Ha & Hco) Hu. destruct (data_place d y x Hd Hy Ha) as (U & _). rewrite (k_excl _ Hd _ _ _ Hu U). cbn [shared].
  split; [congruence|eauto].
Qed.
Lemma data_frame d f' :
  drv_ok d -> (forall x, ~ owned d x -> bcontent f' x = bcontent (fl d) x) -> blen f' = blen (fl d) -> bhealthy f' ->
  drv_ok (with_file d f') /\ same_map d (with_file d f') /\ (forall c, cnt (with_file d f') c = cnt d c) /\
  forall cl x, frozen d cl -> in_cluster d cl x -> bcontent f' x = bcontent (fl d) x.
Proof.
  intros Hd Hf Hl Hh. destruct (drv_numbers d Hd) as (_ & _ & _ & Hn & _).
  assert (forall r cl x, uses d r cl -> (forall c, r <> RData c) -> cl * csz d <= x < (cl + 1) * csz d -> bcontent f' x = bcontent (fl d) x) as Hrole.
  { intros r cl x Hu Hr Hx. apply Hf. intros Ho. rewrite <-(div_between (csz d) cl x) in Hu by lia.
    destruct (owned_role d x r Hd Ho Hu) as [_ [c ->]]. by apply (Hr c). }
  destruct (image_file (rs d) f') as [Hi Hc]; [apply Hd| |lia|rewrite Hl; by apply balign_len|done|].
  { intros k a x Ha Hx. destruct (l_blocks _ (w_layout _ (i_wf _ (k_image _ Hd))) k a Ha) as [[q ->] _].
    apply (Hrole (RBlock k) q); [done|done|lia]. }
  destruct (l2_inv_file (csz d) ltac:(lia) _ _ (lc d) (fl d) f' (l2_env_ok d Hd)) as [Hi2 Hv]; [|apply Hd|].
  { intros k x (_ & Hk & i & e & Hie & <-)%l2blk_Some Hx. destruct (k_l2 _ Hd i e Hie Hk) as ([q Hq] & _). rewrite Hq in Hx, Hk.
    apply (Hrole (RL2 i) q); [|done|lia]. exists e. split_and!; try done. lia. }
  assert (same_map d (with_file d f')) as Hs by (constructor; try done; exists (lc d); by rewrite set_l2_self).
  split_and!; try done.
  - apply (drv_frame_ok d); try done; [change (blen (fl d) <= blen f'); lia|intros r cl Hu; rewrite Hc; by eapply k_uses|].
    intros cl x Hu [Hx _]. by apply (Hrole RL1 cl).
  - intros cl x Hfz [Hx _]. apply Hf. intros (y & Hy & Ha & Hco). destruct (data_place d y x Hd Hy Ha) as (U & _).
    rewrite (div_between (csz d) cl x) in U by lia. destruct (proj2 Hfz _ U) as [Hsh _]. cbn [shared] in Hsh. congruence.
Qed.

(** ** [write_vectored] *)

Lemma laid_places x0 N d0 d reqs : drv_ok d0 -> 0 <= x0 -> x0 + N <= size (hd d0) -> laid x0 N d0 d reqs ->
  NoDup (req_places reqs) /\ (forall x, x ∈ req_places reqs -> owned d x) /\
  forall i, (i < Z.to_nat N)%nat -> exists h, req_places reqs !! i = Some h /\ haddr d (x0 + Z.of_nat i) = Some h.
Proof.
  intros Hd0 Hx Hsz [P1 P2 P3 P4 P5 P6 P7 P8 [P9 P10] P11].
  assert (forall i h, req_places reqs !! i = Some h -> haddr d (x0 + Z.of_nat i) = Some h /\ (i < Z.to_nat N)%nat /\ 0 <= x0 + Z.of_nat i < span d) as Hat.
  { intros i h Hi. pose proof (lookup_lt_Some _ _ _ Hi) as Hlt. rewrite P9 in Hlt. split; [by rewrite <-P10|split; [done|]].
    apply span_of; [done|]; rewrite P2; lia. }
  split_and!.
  - apply NoDup_alt. intros i j h Hi Hj. destruct (Hat i h Hi) as (A1 & _ & A2), (Hat j h Hj) as (B1 & _ & B2).
    pose proof (haddr_inj d _ _ h P1 A2 B2 A1 B1). lia.
  - intros x [i Hi]%list_elem_of_lookup. destruct (Hat i x Hi) as (A1 & A2 & A3). exists (x0 + Z.of_nat i). split_and!; try done; try lia. by apply P11.
  - intros i Hi. destruct (lookup_lt_is_Some_2 (req_places reqs) i) as [h Hh]; [lia|]. exists h. split; [done|]. by rewrite <-P10.
Qed.

(** The requests carried out. *)
Lemma laid_written x0 N d0 d reqs f' (v : Z -> Z) :
  drv_ok d0 -> 0 <= x0 -> x0 + N <= size (hd d0) -> laid x0 N d0 d reqs ->
  (forall x, x ∉ req_places reqs -> bcontent f' x = bcontent (fl d) x) -> blen f' = blen (fl d) -> bhealthy f' ->
  (forall i h, req_places reqs !! i = Some h -> bcontent f' h = v (x0 + Z.of_nat i)) ->
  let d' := with_file d f' in
  drv_ok d' /\ hd d' = hd d0 /\ snapshot d' = snapshot d0 /\
  (forall x, 0 <= x < size (hd d0) -> guest d' x = if bool_decide (x0 <= x < x0 + N) then v x else guest d0 x) /\
  (forall cl, frozen d0 cl -> frozen d' cl /\ forall x, in_cluster d0 cl x -> bcontent f' x = bcontent (fl d0) x).
Proof.
  intros Hd0 Hx Hsz Hl Hout Hlen Hh Hin d'. destruct (laid_places x0 N d0 d reqs Hd0 Hx Hsz Hl) as (Hnd & Hown & Hat).
  destruct Hl as [P1 P2 P3 P4 P5 P6 P7 P8 [P9 P10] P11].
  destruct (data_frame d f' P1) as (F1 & F2 & F3 & F4); [|done|done|]. { intros x Hno. apply Hout. intros Hi%Hown. done. }
  split_and!; try done.
  - intros x Hxs. destruct (span_of d x P1) as [S1 S2]; [rewrite P2; done|]. rewrite guest_haddr. change (fl d') with f'.
    rewrite (same_haddr d d' _ F2). case_bool_decide as Hr.
    + destruct (Hat (Z.to_nat (x - x0))) as (h & Hi & Hha); [lia|]. replace (x0 + Z.of_nat (Z.to_nat (x - x0))) with x in Hha by lia.
      rewrite Hha, (Hin _ _ Hi). f_equal. lia.
    + rewrite <-(P5 x) by (apply span_of in Hxs; done). rewrite guest_haddr. destruct (haddr d x) as [h|] eqn:Eh; [|done].
      apply Hout. intros [i Hi]%list_elem_of_lookup. pose proof (lookup_lt_Some _ _ _ Hi) as Hlt. rewrite P9 in Hlt. rewrite P10 in Hi by done.
      pose proof (haddr_inj d x (x0 + Z.of_nat i) h P1 ltac:(lia) ltac:(apply span_of; [done|]; rewrite P2; lia) Eh Hi). lia.
  - intros cl Hfz. destruct (P6 cl Hfz) as [Hf1 Hf2]. destruct (geo_fields _ _ P4) as (_ & Ec & _). split.
    + apply (frozen_same d); try done; [intros _; by rewrite F3|by apply count_nonneg].
    + intros x Hc. rewrite F4 with (cl := cl), Hf2; try done. destruct Hc. split; [by rewrite Ec|lia].
Qed.

(** C3: [Qcow2Driver::write_vectored] writes the guest disk and nothing else.
    When the counts leave room for the clusters the request may need, the
    bytes of the disk in the range become the bytes of the buffers and every
    other byte of the disk is as before, through the allocation of L2 tables
    and data clusters and the copies of shared ones; the invariant of the image
    holds afterwards; and every cluster of a snapshot (its tables, its data, and
    what the guest shares with it) keeps its contents.  A request beyond the end of the disk
    is refused without any effect, and an empty one as well.  The image
    satisfies [drv_ok]: it has no compressed clusters, and the host file serves
    the requests that lie within its length.  No cluster the request touches is
    a zero cluster with a place: of such a cluster a partial write exposes the
    old contents (example [zero_cluster_write_exposes]). *)
Theorem write_vectored_exact d m iovec offset :
  drv_ok d -> Forall iov_ok iovec -> Z.of_nat (length (iov_addrs iovec)) < 2 ^ 64 -> is_u64 offset ->
  (forall a, a ∈ iov_addrs iovec -> is_u8 (m a)) ->
  let n := Z.of_nat (length (iov_addrs iovec)) in
  (0 < n -> offset + n <= size (hd d) -> room (2 * clusters_of_range (csz d) offset n) (rs d) ->
   (forall x, offset <= x < offset + n -> get_cluster_type (entry_at d (x / csz d)) <> ZeroAlloc) ->
   exists d' rets, write_vectored iovec offset (mkG d m) = (mkG d' m, Ok rets) /\ Forall (fun r => 0 <= r) rets /\
     drv_ok d' /\ hd d' = hd d /\ snapshot d' = snapshot d /\
     ztab (guest d') offset (Z.to_nat n) = iov_bytes m iovec /\
     (forall x, 0 <= x < size (hd d) -> ~ offset <= x < offset + n -> guest d' x = guest d x) /\
     (forall cl, frozen d cl -> frozen d' cl /\ forall x, in_cluster d cl x -> bcontent (fl d') x = bcontent (fl d) x)) /\
  (size (hd d) < offset + n \/ n = 0 -> write_vectored iovec offset (mkG d m) = (mkG d m, Err tt)).
Proof.
  intros Hd Hok Hlen Ho Hby n. unfold write_vectored. rewrite get_iov_size_addrs by done. fold n.
  assert (forall r, check_request offset n d = r ->
    on_drv (d0 ← dget id; slift (check_request offset n d0)) (mkG d m) = (mkG d m, r)) as Hchk by by intros r <-.
  rewrite check_request_spec in Hchk by (done || lia).
  split; [intros Hn Hsz Hroom Hnz|intros Hrej].
  2:{ destruct (Z.leb_spec (offset + n) (size (hd d))) as [Hle|Hgt].
      - rewrite (sres_step _ _ _ _ _ (Hchk _ eq_refl)). destruct Hrej as [?|E]; [lia|]. rewrite E. done.
      - unfold mbind at 1, sres_bind at 1. by rewrite (Hchk _ eq_refl). }
  rewrite (proj2 (Z.leb_le _ _)) in Hchk by lia. rewrite (sres_step _ _ _ _ _ (Hchk _ eq_refl)).
  destruct (write_loop_spec (Z.to_nat n) offset n d d 0 []) as (d1 & reqs & Hr & Hl & Hne); try done; try (intros; unfold inW in *; lia).
  { constructor; try done; [split; [done|]|]; intros; lia. }
  { by rewrite Z.add_0_r, Z.sub_0_r. }
  { intros y Hy. apply Hnz. lia. }
  assert (on_drv (write_loop (Z.to_nat n) offset n 0 []) (mkG d m) = (mkG d1 m, Ok reqs)) as Hr' by (unfold on_drv; cbn [drv gmem]; by rewrite Hr).
  rewrite (sres_step _ _ _ _ _ Hr'). rewrite bool_decide_eq_false_2 by (by apply Hne).
  assert (0 <= offset) as Ho0 by (unfold inW in *; lia). destruct (laid_places offset n d d1 reqs Hd Ho0 Hsz Hl) as (Hnd & _ & _).
  destruct (assign_iovs_spec (fl d1) iovec reqs Hok) as (Q1 & Q2 & Q3 & Q4); [apply Hl|rewrite (proj1 (la_places _ _ _ _ _ Hl)); lia|].
  destruct (submit_writes (assign_iovs iovec reqs) (mkIo m (fl d1))) as ([m2 f2] & rets & Hrun & Hrets & _ & Hm & Hbl & Hh & Hout & Hpair);
    [done|by rewrite Q3|by apply file_healthy, Hl|by apply balign_len, Hl|by rewrite Q2|]. cbn [mem file] in *. subst m2.
  assert (driver_write_vectored (assign_iovs iovec reqs) (mkIo m (fl d1)) = (mkIo m f2, Ok rets)) as Hdrv.
  { unfold driver_write_vectored, process_request. rewrite bool_decide_eq_false_2; [done|]. intros E. rewrite E in Q4. by destruct reqs; [apply Hne|]. }
  destruct (laid_written offset n d d1 reqs f2 (fun x => m (default 0 (iov_addrs iovec !! Z.to_nat (x - offset)))) Hd Ho0 Hsz Hl)
    as (W1 & W2 & W3 & W4 & W5); [by rewrite <-Q3|done|done| |].
  { intros i h Hi. pose proof (lookup_lt_Some _ _ _ Hi) as Hlt. rewrite (proj1 (la_places _ _ _ _ _ Hl)) in Hlt.
    destruct (lookup_lt_is_Some_2 (iov_addrs iovec) i) as [a Ha]; [lia|]. rewrite (Hpair a h); [|exists i; by rewrite Q2, Q3].
    replace (Z.to_nat (offset + Z.of_nat i - offset)) with i by lia. by rewrite Ha. }
  exists (with_file d1 f2), rets. split_and!; try done.
  - unfold on_io. cbn [gmem drv]. by rewrite Hdrv.
  - rewrite iov_bytes_addrs. apply list_eq. intros i. destruct (decide (i < length (iov_addrs iovec))%nat) as [Hi|Hi].
    2:{ rewrite !lookup_ge_None_2; [done|rewrite length_fmap; lia|rewrite ztab_length; lia]. }
    destruct (lookup_lt_is_Some_2 _ _ Hi) as [a Ha]. rewrite list_lookup_fmap, Ha, ztab_lookup by lia. simpl. f_equal.
    rewrite W4 by lia. rewrite bool_decide_eq_true_2 by lia. replace (Z.to_nat (offset + Z.of_nat i - offset)) with i by lia. by rewrite Ha.
  - intros x Hx Hno. rewrite W4 by done. by rewrite bool_decide_eq_false_2.
Qed.
End vectored.
