(* ===== verification/Qcow2Flush.v ===== *)
(** * What [flush] leaves in the file

    [disk_guest] is the guest disk read from the file alone: the L1 entry, the
    L2 entry and the data from the bytes of the file, nothing from the caches.
    After [flush] it is the disk the guest sees, and the counts in the file
    are the counts of the driver. *)
From stdpp Require Import prelude list gmap.
From Stdlib Require Import ZArith Lia.
From S2P Require Import Prelude NumOps Qcow2Header SyncAio Qcow2Io FileDriver Qcow2Cache Qcow2CacheSpec Qcow2Refcount Qcow2RefcountSpec Qcow2RefcountUpdate Qcow2RefcountAlloc Qcow2ClusterAlloc Qcow2Snapshot Qcow2Table Qcow2L2Spec Qcow2Driver Qcow2Mapping Qcow2Read Qcow2Alloc.

Section durable.
Context {F : Type} `{!BlockIo F, !BlockIoLaws F}.

(** ** The image in the file *)

Definition disk_be (f : F) (n : nat) (a : Z) : Z := be_val (ztab (bcontent f) a n).
Definition disk_entry (h : QcowHeader) (f : F) (c : Z) : Z :=
  let n := cluster_size h / 8 in
  let a := l2addr (disk_be f 8 (l1_table_offset h + 8 * (c / n))) in
  if a =? 0 then 0 else disk_be f 8 (a + 8 * (c `mod` n)).
Definition disk_guest (h : QcowHeader) (f : F) (x : Z) : Z :=
  match host_of (disk_entry h f (x / cluster_size h)) with Some a => bcontent f (a + x `mod` cluster_size h) | None => 0 end.
End durable.

Section flush.
Context `{!HashIter} {F : Type} `{!BlockIo F, !BlockIoLaws F, !DataIo F, !DataIoLaws F}.
Implicit Types d : Qcow2Driver F.

Abbreviation hd d := (hdr (rs d)).
Abbreviation fl d := (rf (rs d)).
Abbreviation l1 d := (l1_table (table d)).
Abbreviation csz d := (rc_cluster_size (rc (rs d))).
Abbreviation cnt d := (refcount_of (rs d)).
Abbreviation n2 d := (csz d / 8).
Abbreviation lc d := (l2_table_cache (table d)).

(** The L2 tables in the file are the ones of the cache. *)
Definition l2_flushed d : Prop := forall k, l2blk (l1 d) k = Some k -> l2bytes d k = Some (ztab (bcontent (fl d)) k (Z.to_nat (csz d))).

Lemma entry64_disk (f : F) a n j : 0 <= j -> 8 * j + 8 <= Z.of_nat n -> entry64 (ztab (bcontent f) a n) j = disk_be f 8 (a + 8 * j).
Proof. intros Hj Hn. unfold entry64, disk_be. rewrite slice_ztab by lia. do 2 f_equal. lia. Qed.
Lemma entry16_disk (f : F) a n j : 0 <= j -> 2 * j + 2 <= Z.of_nat n -> entry16 (ztab (bcontent f) a n) j = disk_be f 2 (a + 2 * j).
Proof. intros Hj Hn. unfold entry16, disk_be. rewrite slice_ztab by lia. do 2 f_equal. lia. Qed.

Lemma disk_entry_at d c : drv_ok d -> l2_flushed d -> 0 <= c < l1_size (hd d) * n2 d -> disk_entry (hd d) (fl d) c = entry_at d c.
Proof.
  intros Hd Hfl Hc. destruct (drv_numbers d Hd) as (_ & _ & Ecs & Hn & _ & E8 & H64 & _). unfold disk_entry, entry_at. rewrite Ecs.
  assert (0 <= c / n2 d < l1_size (hd d)) as Hi by (split; [apply Z.div_pos; lia|apply Z.div_lt_upper_bound; lia]).
  pose proof (s_l1len _ (k_shape _ Hd)) as Hlen. pose proof (Z.mod_pos_bound c (n2 d) ltac:(lia)) as Hm.
  destruct (lookup_lt_is_Some_2 (l1 d) (Z.to_nat (c / n2 d))) as [e He]; [lia|]. rewrite He.
  assert (disk_be (fl d) 8 (l1_table_offset (hd d) + 8 * (c / n2 d)) = e) as ->.
  { unfold disk_be. pose proof (k_l1disk _ Hd _ _ He) as Hdk. rewrite Z2Nat.id in Hdk by lia. rewrite Hdk. apply be_val_small.
    by apply (Forall_lookup_1 _ _ _ _ (k_l1u _ Hd) He). }
  destruct (Z.eqb_spec (l2addr e) 0) as [E0|E0].
  - destruct (l2bytes d (l2addr e)) eqn:El; [|done]. unfold l2bytes, view in El. rewrite E0 in El.
    assert (l2blk (l1 d) 0 = None) as Hb by (unfold l2blk; rewrite bool_decide_eq_false_2; [done|naive_solver]). by rewrite Hb in El.
  - destruct (l2_table_of d _ e Hd He E0) as (Hb & _). rewrite Hfl by done. rewrite entry64_disk; [done|lia..].
Qed.
Lemma disk_guest_at d x : drv_ok d -> l2_flushed d -> 0 <= x < span d -> disk_guest (hd d) (fl d) x = guest d x.
Proof.
  intros Hd Hfl Hx. destruct (drv_numbers d Hd) as (_ & _ & Ecs & Hn & _). unfold disk_guest, guest, host. rewrite Ecs.
  unfold span in Hx. rewrite disk_entry_at; [done..|]. split; [apply Z.div_pos; lia|apply Z.div_lt_upper_bound; lia].
Qed.

(** ** The counts *)

Lemma image_upd (s : rst F) c' f' :
  image_ok s -> rc_wf (upd s c' f') -> quiet s (upd s c' f') -> image_ok (upd s c' f') /\ forall c, refcount_of (upd s c' f') c = refcount_of s c.
Proof.
  intros [W M R Hz D Fr] Hw Hq. assert (forall c, refcount_of (upd s c' f') c = refcount_of s c) as Hc by (intros c; by apply calm_refcount, quiet_calm).
  split; [|done]. constructor; try done.
  - intros k a Ha. rewrite Hc. by eapply M.
  - intros c Hx. rewrite Hc. by apply R.
  - by rewrite Hc.
  - eapply tasks_ok_mono; [|exact D]. intros c. cbv beta. by rewrite Hc.
Qed.

(** [RefCount::flush] within the driver. *)
Lemma rs_flush_spec d : drv_ok d ->
  exists d', on_rs flush d = (d', Ok tt) /\ keeps (fun _ => False) d d' /\ (forall c, cnt d' c = cnt d c) /\ flushed (rs d') /\
    (l2_flushed d -> l2_flushed d').
Proof.
  intros Hd. destruct (drv_numbers d Hd) as (_ & _ & _ & Hn & _). pose proof (k_image _ Hd) as Hi.
  destruct (flush_spec (rs d) (i_wf _ Hi)) as (c' & f' & Hr & Hw & Hq & Hfl). destruct (image_upd (rs d) c' f' Hi Hw Hq) as [Hi' Hc].
  pose proof (q_file _ _ Hq) as [Ho Hl _].
  assert (forall cl x, (forall k, ~ uses d (RBlock k) cl) -> cl * csz d <= x < (cl + 1) * csz d -> bcontent f' x = bcontent (fl d) x) as Hout.
  { intros cl x Hk Hx. apply Ho. intros (k & a & Ha & Hax). destruct (l_blocks _ (w_layout _ (i_wf _ Hi)) k a Ha) as ([q ->] & _).
    apply (Hk k). cbn [uses]. by replace cl with q by nia. }
  assert (keeps (fun _ => False) d (with_rs d (upd (rs d) c' f'))) as Hk.
  { apply rs_frame; try done; [change (blen (fl d) <= blen f'); change (blen f' = blen (fl d)) in Hl; lia|intros; rewrite Hc; lia|].
    intros cl x _ _ Hb [Hx _]. by apply (Hout cl). }
  exists (with_rs d (upd (rs d) c' f')). split_and!; try done; [by apply on_rs_with|].
  intros Hl2 k Hb. rewrite (sm_l2 _ _ (kp_same _ _ _ Hk)). change (l1 (with_rs d (upd (rs d) c' f'))) with (l1 d) in Hb. rewrite (Hl2 k Hb). f_equal.
  apply ztab_ext. intros j Hj. apply l2blk_Some in Hb as (_ & Hk0 & i & e & Hie & <-). destruct (k_l2 _ Hd i e Hie Hk0) as ([q Hqe] & _).
  symmetry. apply (Hout q); [|rewrite Hqe; cbn [rc rs with_rs upd] in *; change (rc_cluster_size (set_cache c' (rc (rs d)))) with (csz d) in Hj; lia].
  intros k' Hu. assert (uses d (RL2 i) q) as Hu2 by (exists e; split_and!; try done; lia). discriminate (k_excl _ Hd _ _ _ Hu Hu2).
Qed.

(** C5: [Qcow2Driver::flush] makes the image durable: it succeeds, and
    afterwards the guest disk read from the file alone (L1 entry, L2 entry and
    data cluster, without the caches) is the disk the guest sees, every count
    in a refcount block of the file is the count of its cluster, and neither the
    guest disk nor any cluster of a snapshot has changed.  The image satisfies
    [drv_ok]: it has no compressed clusters, and the host file serves the
    requests that lie within its length; when a write to the host file fails,
    the flush fails and the table is not written again (example
    [failed_flush_forgets]). *)
Theorem flush_durable d : drv_ok d ->
  exists d', drv_flush d = (d', Ok tt) /\ drv_ok d' /\ hd d' = hd d /\
    (forall x, 0 <= x < size (hd d) -> disk_guest (hd d') (fl d') x = guest d x /\ guest d' x = guest d x) /\
    (forall c a, 0 <= c -> blk_of (refcount_table (rc (rs d'))) (c / refcount_blk_size (rc (rs d'))) = Some a ->
       disk_be (fl d') 2 (a + 2 * (c `mod` refcount_blk_size (rc (rs d')))) = cnt d c) /\
    (forall cl x, frozen d cl -> in_cluster d cl x -> bcontent (fl d') x = bcontent (fl d) x).
Proof.
  intros Hd. destruct (drv_numbers d Hd) as (_ & _ & _ & Hn & H512 & _). pose proof (s_size _ (k_shape _ Hd)) as [_ Hsp].
  destruct (flush_l2_spec (csz d) H512 ltac:(lia) (l2own (l1 d)) (l2blk (l1 d)) (table d) (lc d) (fl d) (l2_env_ok d Hd) (l2_file_ok d Hd) (k_cache _ Hd))
    as (c' & f' & Hr & Hi & Hv & Hch & Hdk). rewrite set_l2_self in Hr.
  pose proof (l2_frame d c' f' Hd Hi Hv Hch) as Hrd. set (d1 := with_l2 d c' f') in *.
  destruct (rs_flush_spec d1 (rd_ok _ _ Hrd)) as (d2 & Hr2 & Hk & Hc & Hfl & Hl2). specialize (Hl2 Hdk).
  exists d2. unfold drv_flush. rewrite (sres_step _ _ _ _ _ (on_table_with _ d c' f' _ Hr)).
  assert (forall x, 0 <= x < size (hd d) -> guest d2 x = guest d x) as Hg.
  { intros x Hx. rewrite (kp_guest _ _ _ Hk), (rd_guest _ _ Hrd); [done|unfold span; lia|]. unfold span. change (0 <= x < l1_size (hd d) * n2 d * csz d). lia. }
  pose proof (kp_ok _ _ _ Hk) as Hd2. pose proof (sm_hdr _ _ (kp_same _ _ _ Hk)) as Eh. change (hd d1) with (hd d) in Eh.
  split; [done|]. split; [done|]. split; [done|]. split; [|split].
  - intros x Hx. split; [|by apply Hg]. rewrite disk_guest_at; [by apply Hg|done..|]. pose proof (s_size _ (k_shape _ Hd2)) as [_ Hsp2].
    rewrite Eh in Hsp2. unfold span. rewrite Eh. lia.
  - intros c a Hc0 Ha. rewrite <-(rd_cnt _ _ Hrd), <-Hc. pose proof (geo_numbers _ (w_geo _ (i_wf _ (k_image _ Hd2)))) as Hn2.
    pose proof (Z.mod_pos_bound c (refcount_blk_size (rc (rs d2))) ltac:(lia)) as Hm.
    unfold refcount_of. rewrite (Hfl _ a Ha), entry16_disk; [done|lia|lia].
  - intros cl x Hfz Hx. rewrite <-(rd_frozen _ _ Hrd cl x) by done. apply (kp_frozen _ _ _ Hk cl); [|tauto|].
    + apply (frozen_same d); try done; [apply Hrd|intros _; by rewrite (rd_cnt _ _ Hrd)|by apply count_nonneg].
    + destruct Hx. split; [done|]. by rewrite (rd_len _ _ Hrd).
Qed.
End flush.
