(* ===== verification/Qcow2Example.v ===== *)
(** * A small image with a snapshot

    An image of eleven clusters of 512 bytes, opened: two guest clusters have
    data, one of them shared with a snapshot, and one is a zero cluster with a
    place.  It satisfies the invariant of
    the driver, so that the theorems about reads, writes and flushes apply to
    it, and the operations run on it. *)
From stdpp Require Import prelude list gmap.
From Stdlib Require Import ZArith Lia.
From S2P Require Import Prelude NumOps Qcow2Header SyncAio Qcow2Io FileDriver Qcow2Cache Qcow2CacheSpec Qcow2Refcount Qcow2RefcountSpec Qcow2RefcountUpdate Qcow2RefcountAlloc Qcow2ClusterAlloc Qcow2Counts Qcow2Snapshot Qcow2Table Qcow2L2Spec Qcow2Driver Qcow2Mapping Qcow2Read Qcow2Alloc Qcow2Remap Qcow2Write Qcow2Vectored Qcow2Flush.

#[local] Existing Instance plain_iter.
#[local] Existing Instance plain_io.
#[local] Existing Instance plain_laws.
#[local] Instance plain_data : DataIo mfile := file_data_io plain_sync.
#[local] Instance plain_data_laws : DataIoLaws mfile := file_data_laws plain_sync plain_ok.

(** Clusters: 0 header, 1 refcount table, 2 refcount block, 3 L1 table, 4 L2
    table, 5 data of the guest cluster 0, 6 data of the guest cluster 1, which
    the snapshot shares, 7 L1 table of the snapshot, 8 snapshot table, 9 L2
    table of the snapshot, 10 the place of the guest cluster 2, a zero
    cluster. *)
Definition shot_bytes : list (Z * Z) :=
  [(518, 4); (1025, 1); (1027, 1); (1029, 1); (1031, 1); (1033, 1); (1035, 1); (1037, 2); (1039, 1); (1041, 1); (1043, 1);
   (1045, 1); (1536, 128); (1542, 8); (2048, 128); (2054, 10); (2062, 12); (2064, 128); (2070, 20); (2071, 1); (3590, 18); (4622, 12)].
Definition shot_file : mfile :=
  mkMfile 5632 (fun a => if (2560 <=? a) && (a <? 3072) then 65 else if (3072 <=? a) && (a <? 3584) then 66
                         else if (5120 <=? a) && (a <? 5632) then 67
                         else default 0 (snd <$> List.find (fun p => fst p =? a) shot_bytes)).
Definition shot_header : QcowHeader := mkHeader QCOW_MAGIC 3 0 0 9 65536 0 2 1536 512 1 1 4096 0 0 0 4 104.
Definition shot : Qcow2Driver mfile :=
  mkDrv (mkQTable 9 512 [2 ^ 63 + 2048; 0] 1536 2 (Qcow2Cache_new 2) 6 64)
    (mkSnaps [mkSnap 3584 1 1 [115] 65536 0 0 0 0 0 16] 512 64 4096 1)
    (mkRst shot_header (mkRefCount small_table (Qcow2Cache_new 4) [] [DAlways] 0 512 1 64 8 256 65535 512 9) shot_file).

(** ** The invariant *)

Lemma cache_new_inv (E : EntrySize) cs blk n : (1 <= n)%nat -> cache_inv (ES := E) cs blk (Qcow2Cache_new n) shot_file.
Proof.
  intros Hn. destruct n as [|n]; [lia|]. constructor; try done; try (simpl; lia); intros l Hl; try by apply not_elem_of_nil in Hl.
  destruct Hl as [t Ht]. simpl in Ht. by rewrite lookup_empty in Ht.
Qed.
Lemma shot_wf : rc_wf (rs shot).
Proof.
  constructor.
  - by constructor.
  - constructor; simpl.
    + intros k a [-> ->]%small_blk. split_and!; try lia. by exists 2.
    + by intros k1 k2 a [-> _]%small_blk [-> _]%small_blk.
    + split_and!; try lia. by exists 1.
    + intros k a [-> ->]%small_blk. lia.
    + by exists 1.
    + by exists 11.
    + done.
  - apply cache_new_inv. lia.
Qed.
Lemma shot_image : image_ok (rs shot).
Proof.
  constructor; [apply shot_wf| | | |by intros t Ht; apply not_elem_of_nil in Ht|done].
  - intros k a [-> ->]%small_blk. vm_compute. discriminate.
  - simpl. intros c Hc. assert (c = 1) as -> by lia. vm_compute. discriminate.
  - vm_compute. discriminate.
Qed.

Lemma shot_l1 i e : l1_table (table shot) !! i = Some e -> i = 0%nat /\ e = 2 ^ 63 + 2048 /\ l2addr e = 2048 \/ i = 1%nat /\ e = 0 /\ l2addr e = 0.
Proof. destruct i as [|[|i]]; simpl; intros E; [injection E as <-; left|injection E as <-; right|done]; by split_and!. Qed.
Lemma shot_l2blk k a : l2blk (l1_table (table shot)) k = Some a -> k = 2048 /\ a = 2048.
Proof. intros (-> & Hk & i & e & [(_ & _ & ->)|(_ & _ & ->)]%shot_l1 & <-)%l2blk_Some; done. Qed.

Lemma shot_inv : l2_inv 512 (l2own (l1_table (table shot))) (l2blk (l1_table (table shot))) (l2_table_cache (table shot)) shot_file.
Proof.
  constructor; try done; try (intros l Hl; by apply not_elem_of_nil in Hl).
  - change (settle (l2_table_cache (table shot))) with (Qcow2Cache_new 2). apply cache_new_inv. lia.
  - by apply NoDup_nil.
  - intros k bytes i b Hv Hb. unfold view in Hv. destruct (l2blk _ k) as [a|] eqn:Ea; [|done]. apply shot_l2blk in Ea as [-> ->].
    change (Some (ztab (bcontent shot_file) 2048 (Z.to_nat 512)) = Some bytes) in Hv. apply (inj Some) in Hv as <-. pose proof (lookup_lt_Some _ _ _ Hb) as Hlt. rewrite ztab_length in Hlt. rewrite ztab_lookup in Hb by done. by injection Hb.
Qed.

Definition shot_entry (c : Z) : Z :=
  if c =? 0 then 2 ^ 63 + 2560 else if c =? 1 then 3072 else if c =? 2 then 2 ^ 63 + 5121 else 0.
Lemma shot_entry_at c : 0 <= c < 128 -> entry_at shot c = shot_entry c.
Proof.
  intros Hc. assert (forallb (fun c => entry_at shot c =? shot_entry c) (seqZ 0 128) = true) as Hall by (vm_compute; reflexivity).
  rewrite forallb_forall in Hall. apply Z.eqb_eq, Hall. apply list_elem_of_In, elem_of_seqZ. lia.
Qed.
Lemma shot_entry_cases c : c = 0 \/ c = 1 \/ c = 2 \/ shot_entry c = 0.
Proof. unfold shot_entry. zcases; auto. Qed.

Definition shot_role (cl : Z) : option role :=
  if cl =? 10 then Some (RData 2)
  else list_lookup (Z.to_nat cl) [RHeader; RTable; RBlock 0; RL1; RL2 0; RData 0; RData 1; RSnap; RSnap].
Lemma shot_uses r cl : uses shot r cl -> 0 <= cl < 11 /\ shot_role cl = Some r.
Proof.
  destruct r as [| |k| |i|c|]; simpl; unfold meets; simpl.
  - intros ->. done.
  - intros Hx. assert (cl = 1) as -> by lia. done.
  - intros [-> E]%small_blk. assert (cl = 2) as -> by lia. done.
  - intros Hx. assert (cl = 3) as -> by lia. done.
  - intros (e & [(-> & -> & E)|(-> & -> & E)]%shot_l1 & Hea & Hcl); rewrite E in Hea; [assert (cl = 4) as -> by lia; done|lia].
  - intros [Hc Hh]. change (2 * 64) with 128 in Hc. unfold place in Hh. rewrite shot_entry_at in Hh by done.
    destruct (shot_entry_cases c) as [->|[->|[->|E]]]; [| | |by rewrite E in Hh].
    + change (Some 2560 = Some (cl * 512)) in Hh. injection Hh as E. assert (cl = 5) as -> by lia. done.
    + change (Some 3072 = Some (cl * 512)) in Hh. injection Hh as E. assert (cl = 6) as -> by lia. done.
    + change (Some 5120 = Some (cl * 512)) in Hh. injection Hh as E. assert (cl = 10) as -> by lia. done.
  - intros [Hx|(s & Hs%list_elem_of_singleton & Hx)]; [assert (cl = 8) as -> by lia; done|]. subst s. simpl in Hx. assert (cl = 7) as -> by lia. done.
Qed.

Lemma shot_counts cl : 0 <= cl < 11 -> refcount_of (rs shot) cl <> 0.
Proof.
  intros Hc. assert (forallb (fun c => negb (refcount_of (rs shot) c =? 0)) (seqZ 0 11) = true) as Hall by (vm_compute; reflexivity).
  rewrite forallb_forall in Hall. specialize (Hall cl ltac:(apply list_elem_of_In, elem_of_seqZ; lia)). by destruct (Z.eqb_spec (refcount_of (rs shot) cl) 0).
Qed.

Lemma shot_ok : drv_ok shot.
Proof.
  constructor.
  - constructor; try done; vm_compute; split; try done; discriminate.
  - apply shot_image.
  - repeat constructor; done.
  - split; [by exists 3|]. unfold in_file. simpl. lia.
  - intros i e [(-> & -> & _)|(-> & -> & _)]%shot_l1; vm_compute; reflexivity.
  - intros i e [(_ & _ & ->)|(_ & _ & ->)]%shot_l1 Hne; [|done]. split; [by exists 4|]. unfold in_file. simpl. lia.
  - intros i e [(_ & -> & ->)|(_ & -> & _)]%shot_l1 Hco; done.
  - apply shot_inv.
  - intros c Hc. change (l1_size (hdr (rs shot)) * _) with 128 in Hc. rewrite shot_entry_at by done.
    destruct (shot_entry_cases c) as [-> | [-> | [-> | ->]]]; [| | |done]; (split; [|unfold in_file; vm_compute; split_and!; discriminate || done]).
    + by exists 5.
    + by exists 6.
    + by exists 10.
  - intros r cl [Hc _]%shot_uses. apply shot_counts. lia.
  - intros r1 r2 cl [_ H1]%shot_uses [_ H2]%shot_uses. congruence.
  - split; [split_and!; simpl; try lia; by exists 8|]. intros s ->%list_elem_of_singleton. simpl. split_and!; try lia. by exists 7.
Qed.

Lemma shot_room : room 4 (rs shot).
Proof.
  exists 11. split_and!; try (simpl; lia).
  - intros x Hx. assert (x = 11 \/ x = 12 \/ x = 13 \/ x = 14) as [-> | [-> | [-> | ->]]] by lia; vm_compute; reflexivity.
  - vm_compute. reflexivity.
  - change ((11 + 4) / refcount_blk_size (rc (rs shot))) with 0. intros k Hk. assert (k = 0) as -> by lia. by exists 1024.
Qed.

(** ** Requests on it *)

(** Thirty bytes across the two clusters. *)
Definition shot_iov : list Iovec := [mkIovec 100 20; mkIovec 200 10].
Definition shot_mem : hmem := fun a => wrap 8 (a + 7).
Lemma shot_iov_ok : Forall iov_ok shot_iov.
Proof. repeat constructor; simpl; lia. Qed.

Lemma read_vectored_exact_witness :
  exists d' m' rets, read_vectored shot_iov 500 (mkG shot shot_mem) = (mkG d' m', Ok rets) /\
    iov_bytes m' shot_iov = replicate 12 65 ++ replicate 18 66 /\ drv_ok d'.
Proof.
  destruct (proj1 (read_vectored_exact shot shot_mem shot_iov 500 shot_ok shot_iov_ok
    ltac:(apply (bool_decide_unpack _); vm_compute; exact I) ltac:(vm_compute; reflexivity) ltac:(unfold inW; lia))
    ltac:(vm_compute; discriminate)) as (d' & m' & rets & Hr & _ & Hb & _ & Hd & _).
  exists d', m', rets. split; [exact Hr|]. split; [|exact Hd]. rewrite Hb. vm_compute. reflexivity.
Defined.

(** No cluster of the range is a zero cluster with a place. *)
Lemma shot_range x : 500 <= x < 500 + 30 -> get_cluster_type (entry_at shot (x / 512)) <> ZeroAlloc.
Proof.
  intros Hx. assert (x / 512 = 0 \/ x / 512 = 1) as [-> | ->]; [|vm_compute; discriminate..].
  pose proof (Z.div_mod x 512). pose proof (Z.mod_pos_bound x 512). lia.
Qed.

(** The write allocates a cluster for the shared one; the snapshot's data stays. *)
Lemma write_vectored_exact_witness :
  exists d' rets, write_vectored shot_iov 500 (mkG shot shot_mem) = (mkG d' shot_mem, Ok rets) /\
    drv_ok d' /\ ztab (guest d') 500 30 = ztab shot_mem 100 20 ++ ztab shot_mem 200 10 /\ guest d' 530 = 66 /\
    refcount_of (rs shot) 6 = 2 /\ bcontent (rf (rs d')) 3072 = 66.
Proof.
  destruct (proj1 (write_vectored_exact shot shot_mem shot_iov 500 shot_ok shot_iov_ok
    ltac:(vm_compute; reflexivity) ltac:(unfold inW; lia) ltac:(intros a _; apply wrap_inW; lia))
    ltac:(vm_compute; reflexivity) ltac:(vm_compute; discriminate) shot_room shot_range)
    as (d' & rets & Hr & _ & Hd & _ & _ & Hg & Ho & Hf).
  exists d', rets. split; [exact Hr|]. split; [exact Hd|]. split; [exact Hg|]. split; [|split; [reflexivity|]].
  - rewrite Ho; [vm_compute; reflexivity|vm_compute; split; [discriminate|reflexivity]|].
    intros [_ Hlt]. vm_compute in Hlt. discriminate Hlt.
  - destruct (Hf 6) as [_ Hc].
    { split; [vm_compute; discriminate|]. intros r [_ E]%shot_uses. injection E as <-. split; [vm_compute; reflexivity|right; vm_compute; discriminate]. }
    rewrite Hc; [vm_compute; reflexivity|]. vm_compute. split; [split; [discriminate|reflexivity]|reflexivity].
Defined.

Lemma flush_durable_witness :
  exists d', drv_flush shot = (d', Ok tt) /\ drv_ok d' /\ disk_guest (hdr (rs d')) (rf (rs d')) 511 = 65.
Proof.
  destruct (flush_durable shot shot_ok) as (d' & Hr & Hd & _ & Hg & _).
  exists d'. split; [exact Hr|]. split; [exact Hd|]. rewrite (proj1 (Hg 511 ltac:(vm_compute; split; [discriminate|reflexivity]))).
  vm_compute. reflexivity.
Defined.

(** ** Zero clusters that have a place *)

(** The guest cluster 2 reads as zeroes; after a write of one byte the rest of
    the cluster reads as what its place held before. *)
Definition first_bytes (g : gst mfile) : list Z :=
  let '(g, _) := read_vectored [mkIovec 0 3] 1024 g in iov_bytes (gmem g) [mkIovec 0 3].
Example zero_cluster_write_exposes :
  first_bytes (mkG shot (fun _ => 7)) = [0; 0; 0] /\
  let '(g, r) := write_vectored [mkIovec 10 1] 1024 (mkG shot (fun _ => 7)) in
  r = Ok [1] /\ first_bytes g = [7; 67; 67].
Proof. vm_compute. done. Qed.

(** ** Compressed clusters *)

(** The guest cluster 0 with the flag of a compressed cluster: a read takes its
    bytes in the file for data. *)
Definition compressed : Qcow2Driver mfile :=
  mkDrv (table shot) (snapshot shot)
    (mkRst shot_header (rc (rs shot)) (mkMfile 5632 (fun a => if a =? 2048 then 192 else mf_at shot_file a))).
Example compressed_read_raw :
  get_cluster_type (entry_at compressed 0) = Compressed /\
  let '(g, r) := read_vectored [mkIovec 0 3] 0 (mkG compressed (fun _ => 7)) in
  r = Ok [3] /\ iov_bytes (gmem g) [mkIovec 0 3] = [65; 65; 65].
Proof. vm_compute. done. Qed.
